(* ===== verification/_CoqProject ===== *)
-Q . S2P
Prelude.v
Text.v
Utf8.v
Json.v
Types.v
Messages.v
AgentStream.v
AgentTurn.v
AgentLaws.v
AgentTrace.v
AgentRun.v
Approvals.v
TurnProjection.v
Store.v
StoreOps.v
StoreRelated.v
StoreLaws.v
StoreReplay.v
StoreQueue.v
StoreAdmission.v
StoreLifecycle.v
StoreLineage.v
StoreMessaging.v
StoreQueries.v
StorePaging.v
Transcript.v
Bundle.v
BundleFiles.v
BundleExport.v
BundleImport.v
BundleDiff.v
BundleLaws.v
BundleWritten.v
BundleChecks.v
BundleExportLaws.v
BundleSample.v
BundleRoundtrip.v
BundleImportLaws.v
EventStream.v
Runtime.v
RuntimeBudget.v
RuntimeRecords.v
RuntimeSessions.v
RuntimeRelated.v
RuntimeControl.v
RuntimeRecovery.v
ContextPrompt.v
Sse.v
ProviderStream.v
StreamedCalls.v
Anthropic.v
AnthropicLaws.v
OpenAi.v
OpenAiLaws.v
ChatGpt.v
ChatGptLaws.v
ClaudeCli.v
Context.v
ContextUnits.v
ContextLaws.v
ToolRegistry.v
FileTools.v
FileToolsLaws.v
FileQueue.v
RuntimeContext.v
RuntimeLaws.v
RecoveryLaws.v
CancelLaws.v
BlockedStart.v
Orchestrator.v
OrchestratorLaws.v
OrchestratorRun.v
Watchdog.v
TextUtils.v
TextWrap.v
Commands.v
Composer.v
ComposerLaws.v
ComposerKeys.v
ComposerResults.v
