(* ===== verification/Prelude.v ===== *)
(** * Belltower: a verified model of the agent runtime

    Belltower runs language-model agents.  A session is an append-only log of
    events in a SQLite database; a turn is a loop that asks a provider for a
    completion, runs the tools it calls (after approval) and feeds their
    results back; every fact the program keeps about a session is a projection
    of the log.  This library models the crates where that happens and what
    they rest on: [bt-agent] (the turn loop), [bt-session] (log, projections,
    admission of turns, budgets, bundles), [bt-runtime] (the methods over the
    store, approvals, recovery, the turn orchestrator), [bt-context] (the
    prompt and its compaction), [bt-providers] (requests and streams),
    [bt-tools] (the registry and the file tools), the event stream and the detached tasks of
    [bt-server], the composer and the transcript of [bt-tui], and the data of
    [bt-core].  All paths below are under [src/crates/].

    ** Parts and how they interact

    - The turn loop streams a completion, folds its chunks into a message and
      a list of tool calls, records every call with an observer, asks the
      approval evaluator, executes, and appends the result to its transcript.
      Everything outside the loop (provider, tools, evaluator, observers,
      clock, ids) is reached through traits; here they are the operations of
      one class, [AgentTurn.TurnEnv], over an arbitrary world [W].
    - The evaluator of [bt-runtime/src/approval.rs] keeps granted decisions by
      call, by session and globally, keyed by the fingerprint of the request.
    - The session store turns each step of a turn into events and commits
      them in a transaction with the rows they imply.  At most one turn of a
      session is active; messages that arrive during a turn are queued or
      steer it and are claimed when it ends.  Budgets bound what turns spend.
    - The tables can be rebuilt from the log: migrations and the reprojection
      commands replay it.
    - The runtime puts the store, the broadcast of events, the cancellation
      signals and the approval decisions behind methods; each builds events,
      commits them and publishes them.  At start-up it ends the turns that
      were interrupted.
    - The orchestrator runs an admitted turn: it prepares the context, has it
      summarized when it is too large, runs the turn loop over the runtime
      ([Orchestrator.turn_env] is the instance of [TurnEnv]), records how the
      turn ended and goes on with the turn that waits.  The server runs it
      detached, with a watchdog.
    - Before a turn the context assembler builds the request: system prompt,
      messages cut to the limits of tool outputs, and, when the model's window
      is about to overflow, a compaction of the history into a summary.
    - A provider translates the request to its service, and the service's
      server-sent events to the chunks that the turn loop collects.
    - A session is exported as a bundle of files, which can be validated,
      imported elsewhere, continued and compared.
    - The server streams a session's events to subscribers from the log and
      the broadcast; the terminal loads transcripts by pages, and its composer
      turns keys into messages and commands.

    ** Files

    Foundations:
    - [Prelude]: results, list and option lemmas, the wrap-around of the
      machine integers and the partial float operations the code uses, tactics.
    - [Text], [Utf8]: the [str] functions the code calls (trim, split, prefix,
      ASCII classes) over [String.string]; characters, their bytes, lossy
      decoding.
    - [Json]: [serde_json::Value], maps in key order, [canonical_json]
      ([bt-core/src/types.rs]), which tells values apart, and normalization.
    - [Types]: data of [bt-core]: identifiers, usage and cost, budgets, tool
      specs, approvals, manifests, sessions, branches, related-session
      messages, the event payloads with their kinds ([events.rs]), the error
      type and its classes ([error.rs]).  [Prelude.result E A] is
      [Result<A>]; [?] is its bind.
    - [Messages]: [bt-core/src/messages.rs], messages and the coalescing of
      adjacent parts.

    Turn loop ([bt-agent/src/lib.rs]):
    - [AgentStream]: [collect_response] and the tool-call accumulators as a
      pure fold of chunks ([CollectState], [apply_delta], [collect_finish]).
    - [AgentTurn]: the state monad [Act W], the class [TurnEnv], and
      [run_turn_with_tool_observer_and_cancellation] cut at its await points:
      [llm_step], [begin_tool_call], [resolve_tool_call],
      [conclude_tool_call], [turn_step], [run_loop], [run_turn].
      [TurnState] is the tuple of the loop's [let mut] variables.
    - [AgentLaws]: a Hoare logic for [Act] and the transcript invariant.
    - [AgentTrace]: an instrumented environment that records the effects of
      a turn, and a monitor (a small state machine) that states the protocol
      each tool call must follow.
    - [AgentRun]: erasure of the instrumentation, termination, a scripted
      environment for the examples, and the properties of whole turns.

    Approvals:
    - [Approvals]: [ApprovalState], [evaluate_request], the auto-approval
      policy and shell patterns of [bt-runtime/src/approval.rs]; fingerprint,
      snapshot and redaction of [bt-core/src/types.rs].

    Session store ([bt-session]):
    - [TurnProjection]: [turn_projection.rs]; the interface [RowCodec] (JSON
      of the columns) with its laws [RowCodecLaws] and a sample instance.
    - [Store]: the tables of [migration.rs] as finite maps (record [Db]), a
      transaction as a state and error function that rolls back on [Err],
      [append_event_in_tx], and [refresh_projections] of
      [store/projections.rs], one definition per payload.
    - [StoreOps]: the operations of [store.rs] with the validators of
      [store/admission.rs]: creation, admission ([admit_turn_or_queue]),
      continuations ([claim_queued_continuation] and the others), active-turn
      events, terminal transitions, budgets, settings, loading of sessions.
    - [StoreRelated]: the rest of [store.rs] that changes state: spawning a
      child session within the bounds of its tree, messages between sessions
      of one tree, settlements and claims of them, raw chunks, import.
    - [StoreQueries], [StorePaging]: the read-only methods, the windows of the
      log, the scans of recovery, the lineage of a branch and the pages of its
      transcript ([store/paging.rs]).
    - [StoreLaws]: inversion of transactions, the effect of an append, the
      type [StoreOp] of all operations, [reachable] databases and their
      induction principle.
    - [StoreReplay]: the rebuilds of [migration.rs] and [store.rs], and that
      the incremental projections agree with a replay of the log.
    - [StoreQueue]: the pending queue and steers as functions of the log.
    - [StoreAdmission], [StoreLifecycle], [StoreLineage], [StoreMessaging]:
      what admissions and continuations, ends of turns and budgets, spawns,
      and messages between sessions do.
    - [Bundle], [BundleFiles], [BundleExport], [BundleImport], [BundleDiff]:
      [bt-core/src/bundle.rs] and [bt-session/src/export.rs].  [BundleLaws],
      [BundleWritten], [BundleChecks], [BundleExportLaws], [BundleSample],
      [BundleRoundtrip], [BundleImportLaws]: their laws.

    Runtime ([bt-runtime]):
    - [Runtime]: the state (record [Runtime]), the methods' monad [Rt], where
      an error keeps what was done before it, the supply [Entropy].
    - [RuntimeBudget], [RuntimeRecords], [RuntimeSessions], [RuntimeRelated],
      [RuntimeControl], [RuntimeRecovery]: one file per group of methods of
      [runtime/*.rs]; [RuntimeContext]: [runtime/context.rs] and
      [instructions.rs].
    - [RuntimeLaws], [RecoveryLaws], [CancelLaws], [BlockedStart]: the
      broadcast mirrors the log; recovery; cancellation; a start that fails.
    - [Orchestrator]: [turn_orchestrator.rs] and the detached tasks of
      [bt-server/src/main.rs]; [OrchestratorLaws], [OrchestratorRun],
      [Watchdog]: its laws.
    - [ToolRegistry]: [bt-tools/src/registry.rs].
    - [FileTools]: paths, links and the calls of [std::fs], then reading,
      writing and editing of [bt-tools/src/filesystem.rs] and [text.rs];
      [FileQueue]: [mutation.rs] as tasks that take steps;
      [FileToolsLaws]: what the tools can reach.
    - [EventStream]: [stream_session_events] of [bt-server/src/main.rs] with
      writers and one subscriber as interleaved steps.

    Context ([bt-context/src/lib.rs]):
    - [ContextPrompt]: [bt-core/src/model_capability.rs], the thinking
      defaults, [SystemPromptBuilder] and the scan for validation surfaces.
    - [Context]: token estimates, truncation, units of messages,
      [resolve_retention_selection], the deterministic summary, the
      summarization transcript, [compact_messages], [plan_compaction],
      [build_request_with_options].
    - [ContextUnits]: what each stage of the selection keeps and drops
      (record [selection_of]); [ContextLaws]: the properties of a compaction.

    Providers ([bt-providers]):
    - [Sse]: [sse.rs]; [ProviderStream]: the loop over a response's bytes;
      [StreamedCalls]: calls streamed side by side, against [AgentStream].
    - [Anthropic], [OpenAi], [ChatGpt], [ClaudeCli] (with the choice of a
      provider, [lib.rs]) and [AnthropicLaws], [OpenAiLaws], [ChatGptLaws].

    Terminal ([bt-tui]):
    - [TextUtils], [TextWrap]: byte offsets, widths and wrapping of
      [text_utils.rs]; [Commands]: [commands.rs]; [Composer]:
      [input_editor.rs]; [ComposerLaws], [ComposerKeys], [ComposerResults]:
      its laws.
    - [Transcript]: [session_loader.rs] against the unpaged reading.

    ** Correspondence of state

    A table is a [gmap] from its primary key to a row record with the columns
    of [migration.rs]; a statement is an insert, a delete or a map over it, with
    [INSERT .. ON CONFLICT], uniqueness and [WHERE] clauses written out.  The
    log is the list of its rows; the next sequence number comes from a counter,
    as with [AUTOINCREMENT].  Identifiers are stored as values rather than as
    their text.  The body of a transaction is a function [Db -> Result (A * Db)]
    ([Store.Tx]); [Store.transaction] keeps the old database when it fails.  A
    [u64] or [i64] column is a [Z] with the casts of the source ([u64_as_i64]
    wraps); costs are binary64 floats of [SpecFloat], with NaN bound as NULL as
    SQLite does.
    An asynchronous call of the turn loop is one step of [Act W]; a race with
    the cancellation token is resolved by the world.  A method of the runtime
    is a function of the record [Runtime]: locks are taken one after the other
    within a call, so a call alone runs as its sections in sequence, and
    [EventStream] interleaves the sections of several calls.  In an
    orchestrated run ([Orchestrator.Run]) other tasks act when something
    outside is called.  A panic is [None] in [Context], [TextUtils] and the
    composer, [Panicked] in a run.

    ** What the theorems show

    Turns: a tool runs only after the evaluator approved, and the observer
    acknowledged, exactly the recorded call; the transcript of a returned turn
    pairs each call with its result; the effects of a turn refine the call
    protocol whatever the environment does; the loop returns, with one
    iteration per request of the provider.

    Approvals: a decision is returned only if it was granted for the same
    fingerprint in scope; a one-time grant is used once; auto mode leaves no
    grant; requests with one fingerprint ask one tool for the same, up to call
    identifiers and collisions of the hash, and conversely; patterns match
    exactly the stated commands.

    Store: in every reachable database the log only grows, a session has at
    most one active turn, and active turns, turn, tool and approval tables are
    what a replay of the log builds; the queue is claimed first in first out
    and steers in order; an admission starts the turn it was given or queues
    the message, with exactly these events and rows; a terminal transition
    ends the turn and leaves the session idle; the used budget of a session
    never decreases (while its counters fit an [i64]); settings revisions are
    numbered consecutively and never rewritten; the pages of a transcript are
    the whole of it.

    Related sessions: trees grown by spawning stay within the bounds on depth
    and descendants, and the walk to the root ends on every database; a
    delivery stays in its tree and is committed once however often it is
    retried; an obligation is settled once; waking messages are claimed in the
    order of arrival.

    Bundles: an exported bundle passes the whole validation; importing it
    elsewhere and exporting again writes the same records; equal bundle hashes
    mean equal files, collisions of the hashed texts apart; a comparison
    classifies two histories.

    Runtime: every method leaves the broadcast equal to what it appended to
    the log; start-up recovery leaves no active turn; a committed cancellation
    is obeyed at once.  An orchestrated run that returns leaves its session
    idle, and the watchdog ends the admitted turn.  A subscriber of the event
    stream gets each event once and in order, and catches up, as long as
    publication happens under the store's lock.

    Context: compaction drops no message without summarizing it, never
    separates a tool result from its call, fits its budget unless nothing more
    can be given up, and folds the previous summary exactly once; the plan and
    the build agree.

    File tools: they read, write and edit below the root of the project, but
    for links that lead nowhere; an edit replaces the one match of its text;
    mutations of one file never overlap.

    Providers: what a service streams, in whatever fragments and however its
    calls are interleaved, is collected as the parts and calls it says; a
    translated conversation alternates.

    Terminal: the composer is a zipper of characters, stays valid under all
    keys, and wraps its text losslessly; a typed name resolves to one command.

    Some theorems state defects, each proved on the model: a turn whose latency
    does not fit an [i64] makes its own row unreadable; a priced budget
    checkpoint is refused once an unpriced one was stored, which blocks
    start-up; the rebuild of the approvals revives a pending approval; a byte
    limit inside a character makes every later request panic; the paged
    transcript skips rows; an event published after the lock is lost to a
    subscriber; a character cut by the network is lost; artifacts with
    colliding names make a bundle invalid; a wide white space panics the menu;
    a refused text is lost; a link that leads nowhere lets a file be written
    outside of the project; and the watchdog leaves a session claimed by a
    turn that followed the admitted one.

    ** Parameters, bounds and fuel

    [TurnEnv], [RowCodec], [Entropy] (identifiers and the clock, by a counter),
    [Orchestrator.Adapters] and [Orchestrator.Host], [BundleCodec] (SHA-256,
    [serde_json]) and [HostFiles], the rendering and parsing of JSON, the width
    of a character ([unicode-width]), the number of links followed and the text
    of an operating system's error, the text of ids and times, [read_dir] and
    [camino] stand for traits and libraries.  Where a theorem needs a law of
    them it is a class or record ([ToolsEcho], [FiniteAsks], [RowCodecLaws],
    [OrchestratorRun.CoherentOutside], [json_rendering] and others) and its
    witness instantiates it with a concrete environment or codec.

    The walks of [StoreRelated] over parent links take the number of stored
    sessions as fuel; [lineage_root_exact] and the lemmas of [StoreLineage]
    show that it is enough on every database.  [run_loop] takes fuel, as it is
    a [loop] without a bound in the source: [turn_terminates] shows that one
    more unit than the number of completions that ask for tools is enough, and
    [None] means the loop is still running; [run_turns] gives [Running] then.
    The claim of related messages retries at most eight times and the
    admission loop runs eight rounds, as in the source.  A cycle of branches,
    on which the walk of the source does not end, is [None] in [StorePaging]
    and an error in the runtime.  Decoders, walks over boundaries and wrapping
    take byte lengths as fuel, shown to be enough; all other recursion is
    structural.

    ** Limits of the model

    Locks are never poisoned.  In [bus_mirrors_log] a message to a related
    session is sent under a new identifier ([issues_new], which [Uuid::new_v4]
    is trusted with), because the events of a message that is stored already
    would be published again; methods of the test builds are left out.  The
    [expect] of the repair of obligations is an error.  A bundle directory holds regular files with UTF-8 names and is
    written by nobody else, what a failed export leaves behind is not
    described, and floats that [serde_json] does not read back exactly are
    excluded by a hypothesis.  Sums of usage wrap as in a release build;
    [serde]'s reading of a structure from an array is left out; requests are
    records, not their JSON text.  The composer's application state is what
    its functions touch: the bodies of commands, the completion of requests
    and the expiry of notices belong to the event loop.  Spans, log lines and
    the telemetry mirror are left out.

    ** Not modelled

    Search and synchronisation of the store; schema migrations of old
    databases; the read-only views of [bt-runtime] that no turn uses
    (lineage, inspection); HTTP routes, the client and the wire types;
    credentials; the shell, web, list and search tools and the MCP client,
    which the turn loop sees through its interface; the model catalogue, telemetry, readiness
    probes, configuration files and the command line; rendering, pacing of
    streamed text and the event loop of the terminal.  They are input and
    output around the parts above, or views of them. *)
From stdpp Require Import base list strings gmap.
From Stdlib Require Import ZArith Lia SpecFloat.

(** ** Results

    [Result<T>] of [crates/bt-core/src/error.rs] is a sum of a value and an
    error; [?] is the bind of the sum. *)

Inductive result (E A : Type) : Type :=
  | Ok (a : A)
  | Err (e : E).
Arguments Ok {E A} a.
Arguments Err {E A} e.

#[export] Instance result_ret {E} : MRet (result E) := fun A a => Ok a.
#[export] Instance result_bind {E} : MBind (result E) := fun A B k m =>
  match m with Ok a => k a | Err e => Err e end.
#[export] Instance result_fmap {E} : FMap (result E) := fun A B f m =>
  match m with Ok a => Ok (f a) | Err e => Err e end.

Definition is_ok {E A} (r : result E A) : bool :=
  match r with Ok _ => true | Err _ => false end.

(** [opt.ok_or_else(..)] *)
Definition ok_or {E A} (e : E) (o : option A) : result E A :=
  match o with Some a => Ok a | None => Err e end.

(** [if cond { return Err(e) }] *)
Definition reject_if {E} (cond : bool) (e : E) : result E unit :=
  if cond then Err e else Ok tt.

(** [iter.map(f).collect::<Result<Vec<_>>>()] *)
Fixpoint try_map {E A B} (f : A -> result E B) (l : list A) : result E (list B) :=
  match l with
  | [] => Ok []
  | a :: l' => b ← f a; bs ← try_map f l'; Ok (b :: bs)
  end.

Lemma result_bind_Ok {E A B} (m : result E A) (k : A -> result E B) b :
  (m ≫= k) = Ok b <-> exists a, m = Ok a /\ k a = Ok b.
Proof.
  destruct m as [a|e]; simpl; split; intros H; [by eauto| |done|].
  - by destruct H as (a' & [= ->] & ?).
  - by destruct H as (a' & ? & ?).
Qed.

Lemma result_bind_Err {E A B} (m : result E A) (k : A -> result E B) e :
  (m ≫= k) = Err e <-> m = Err e \/ exists a, m = Ok a /\ k a = Err e.
Proof.
  destruct m as [a|e']; simpl; split; intros H.
  - right; by exists a.
  - by destruct H as [?|(a' & [= ->] & ?)].
  - injection H as ->. by left.
  - destruct H as [[= ->]|(a' & ? & ?)]; done.
Qed.

Lemma ok_or_Ok {E A} (e : E) (o : option A) a : ok_or e o = Ok a <-> o = Some a.
Proof. destruct o; naive_solver. Qed.

Lemma reject_if_Ok {E} (c : bool) (e : E) u : reject_if c e = Ok u <-> c = false.
Proof. destruct c, u; naive_solver. Qed.

Lemma try_map_Ok_length {E A B} (f : A -> result E B) l bs :
  try_map f l = Ok bs -> length bs = length l.
Proof.
  revert bs; induction l as [|a l IH]; simpl; intros bs H; [naive_solver|].
  apply result_bind_Ok in H as (b & _ & H).
  apply result_bind_Ok in H as (bs' & Hbs & [= <-]). simpl. f_equal. eauto.
Qed.

Lemma try_map_Ok_Forall2 {E A B} (f : A -> result E B) l bs :
  try_map f l = Ok bs <-> Forall2 (fun a b => f a = Ok b) l bs.
Proof.
  revert bs; induction l as [|a l IH]; simpl; intros bs.
  { split; [intros [= <-]; constructor | by inversion 1]. }
  split.
  - intros (b & Hb & (bs' & Hbs & [= <-])%result_bind_Ok)%result_bind_Ok.
    constructor; [done|]. by apply IH.
  - inversion 1 as [|? b ? bs' Hb Hbs]; subst. apply IH in Hbs.
    rewrite Hb; simpl. by rewrite Hbs.
Qed.

(** Destructs every successful bind of a hypothesis into its steps. *)
Ltac invert_result :=
  repeat match goal with
  | H : (_ ≫= _) = Ok _ |- _ =>
      let a := fresh "r" in let Ha := fresh "Hr" in
      apply result_bind_Ok in H as (a & Ha & H)
  | H : ok_or _ _ = Ok _ |- _ => apply ok_or_Ok in H
  | H : reject_if _ _ = Ok _ |- _ => apply reject_if_Ok in H
  | H : Ok _ = Ok _ |- _ => injection H; clear H; intros; try subst
  | H : Err _ = Ok _ |- _ => discriminate H
  | H : Ok _ = Err _ |- _ => discriminate H
  end.

(** ** Lists *)

(** [iter.rev().find_map(f)] *)
Fixpoint find_map {A B} (f : A -> option B) (l : list A) : option B :=
  match l with
  | [] => None
  | a :: l' => match f a with Some b => Some b | None => find_map f l' end
  end.

(** [iter.find(p)] *)
Definition find_first {A} (p : A -> bool) (l : list A) : option A :=
  find_map (fun a => if p a then Some a else None) l.

(** [iter.position(p)] *)
Fixpoint position {A} (p : A -> bool) (l : list A) : option nat :=
  match l with
  | [] => None
  | a :: l' => if p a then Some 0%nat else S <$> position p l'
  end.

(** [iter.any(p)] and [iter.all(p)] *)
(** A loop whose body can fail. *)
Fixpoint opt_fold {A B} (f : B -> A -> option B) (b : B) (l : list A) : option B :=
  match l with
  | [] => Some b
  | a :: l' => b' ← f b a; opt_fold f b' l'
  end.

Lemma opt_fold_app {A B} (f : B -> A -> option B) b l l' :
  opt_fold f b (l ++ l') = (b' ← opt_fold f b l; opt_fold f b' l').
Proof.
  revert b; induction l as [|a l IH]; intros b; simpl; [done|].
  destruct (f b a); simpl; [apply IH|done].
Qed.

Lemma opt_fold_snoc {A B} (f : B -> A -> option B) b l a b' :
  opt_fold f b l = Some b' -> opt_fold f b (l ++ [a]) = f b' a.
Proof. intros H. rewrite opt_fold_app, H. simpl. by destruct (f b' a). Qed.

Definition any {A} (p : A -> bool) (l : list A) : bool := existsb p l.

Lemma any_false {A} (p : A -> bool) l : any p l = false <-> Forall (fun a => p a = false) l.
Proof.
  unfold any. induction l as [|a l IH]; simpl; [by split|].
  rewrite orb_false_iff, IH, Forall_cons. done.
Qed.

Lemma find_first_Some {A} (p : A -> bool) l a :
  find_first p l = Some a -> a ∈ l /\ p a = true.
Proof.
  unfold find_first. induction l as [|b l IH]; simpl; [done|].
  destruct (p b) eqn:Hb; [intros [= ->]; split; [left|done]|].
  intros []%IH; split; [by right|done].
Qed.

Lemma find_map_Some {A B} (f : A -> option B) l b :
  find_map f l = Some b -> exists a, a ∈ l /\ f a = Some b.
Proof.
  induction l as [|a l IH]; simpl; [done|].
  destruct (f a) eqn:Ha; [intros [= ->]; exists a; split; [left|done]|].
  intros (a' & ? & ?)%IH; exists a'; split; [by right|done].
Qed.

Lemma position_Some {A} (p : A -> bool) l i :
  position p l = Some i ->
  exists a, l !! i = Some a /\ p a = true /\ Forall (fun b => p b = false) (take i l).
Proof.
  revert i; induction l as [|a l IH]; simpl; intros i; [done|].
  destruct (p a) eqn:Ha.
  - intros [= <-]. exists a. simpl. auto.
  - destruct (position p l) as [j|] eqn:Hj; simpl; [|done]. intros [= <-].
    destruct (IH j eq_refl) as (b & ? & ? & ?). exists b. simpl. auto.
Qed.

Lemma position_None {A} (p : A -> bool) l :
  position p l = None <-> Forall (fun a => p a = false) l.
Proof.
  induction l as [|a l IH]; simpl; [by split|].
  destruct (p a) eqn:Ha; rewrite Forall_cons; [naive_solver congruence|].
  rewrite fmap_None, IH. naive_solver.
Qed.

Lemma NoDup_delete {A} i (l : list A) : NoDup l -> NoDup (delete i l).
Proof.
  revert i; induction l as [|a l IH]; intros [|i] H; simpl; try done;
    apply NoDup_cons in H as [Hn Hl]; [done|].
  apply NoDup_cons; split; [|by apply IH].
  intros Hin. apply Hn. apply list_elem_of_In. apply list_elem_of_In in Hin. clear -Hin.
  revert i Hin; induction l as [|b l IHl]; intros [|i]; simpl; try done; naive_solver.
Qed.

(** ** Machine integers

    Unsigned integers are [Z] values kept in range by these operations;
    [+] wraps (the release profile of the workspace does not enable
    overflow checks), [saturating_*] clamps, [as] casts reinterpret. *)

#[local] Open Scope Z_scope.

Definition U32_MOD : Z := 2 ^ 32.
Definition U64_MOD : Z := 2 ^ 64.
Definition U32_MAX : Z := U32_MOD - 1.
Definition U64_MAX : Z := U64_MOD - 1.
Definition I64_MAX : Z := 2 ^ 63 - 1.

Definition wrap32 (z : Z) : Z := z mod U32_MOD.
Definition wrap64 (z : Z) : Z := z mod U64_MOD.
Definition u64_add (a b : Z) : Z := wrap64 (a + b).
Definition u32_add (a b : Z) : Z := wrap32 (a + b).
Definition u64_saturating_add (a b : Z) : Z := Z.min U64_MAX (a + b).
Definition u64_saturating_sub (a b : Z) : Z := Z.max 0 (a - b).
Definition u64_saturating_mul (a b : Z) : Z := Z.min U64_MAX (a * b).
Definition clamp (lo hi z : Z) : Z := Z.min hi (Z.max lo z).
(** [value as i64] for [value : u64]: two's complement. *)
Definition u64_as_i64 (z : Z) : Z := if z <=? I64_MAX then z else z - U64_MOD.
(** [i64::max(0) as u64], [i64::max(1) as u64] *)
Definition i64_max_as_u64 (lo z : Z) : Z := Z.max lo z.
(** [u64::try_from(i64)], [u32::try_from(i64)] *)
Definition u64_try_from (z : Z) : option Z := if 0 <=? z then Some z else None.
Definition u32_try_from (z : Z) : option Z :=
  if (0 <=? z) && (z <=? U32_MAX) then Some z else None.

Definition is_u32 (z : Z) : Prop := 0 <= z < U32_MOD.
Definition is_u64 (z : Z) : Prop := 0 <= z < U64_MOD.
(** An unsigned value that also fits the signed 64-bit column type. *)
Definition is_i63 (z : Z) : Prop := 0 <= z <= I64_MAX.

Lemma u64_add_small a b : 0 <= a -> 0 <= b -> a + b < U64_MOD -> u64_add a b = a + b.
Proof. intros. unfold u64_add, wrap64. apply Z.mod_small. lia. Qed.

Lemma u64_add_range a b : is_u64 (u64_add a b).
Proof. unfold is_u64, u64_add, wrap64. apply Z.mod_pos_bound. done. Qed.

Lemma u64_as_i64_small z : is_i63 z -> u64_as_i64 z = z.
Proof. unfold is_i63, u64_as_i64. intros []. by destruct (Z.leb_spec z I64_MAX); [|lia]. Qed.

Lemma u64_as_i64_large z : I64_MAX < z < U64_MOD -> u64_as_i64 z < 0.
Proof. unfold u64_as_i64. intros []. destruct (Z.leb_spec z I64_MAX); lia. Qed.

(** ** Vectors *)

(** [Vec::dedup_by]: an element like the last one kept is removed. *)
Fixpoint dedup_after {A} (same : A -> A -> bool) (kept : A) (l : list A) : list A :=
  match l with
  | [] => []
  | a :: l => if same a kept then dedup_after same kept l else a :: dedup_after same a l
  end.
Definition dedup_by {A} (same : A -> A -> bool) (l : list A) : list A :=
  match l with [] => [] | a :: l => a :: dedup_after same a l end.

Lemma dedup_after_elem {A} (same : A -> A -> bool) kept l a : a ∈ dedup_after same kept l -> a ∈ l.
Proof.
  revert kept. induction l as [|b l IH]; intros kept; simpl; [done|].
  destruct (same b kept); [intros H; right; by eapply IH|].
  rewrite !elem_of_cons. intros [->|H]; [by left|right; by eapply IH].
Qed.

Lemma dedup_by_elem {A} (same : A -> A -> bool) l a : a ∈ dedup_by same l -> a ∈ l.
Proof.
  destruct l as [|b l]; simpl; [done|]. rewrite !elem_of_cons.
  intros [->|H]; [by left|right; by eapply dedup_after_elem].
Qed.

(** ** Floating point

    [f64] is IEEE-754 binary64, through the reference implementation of the
    Standard Library. *)

Definition f64 : Type := spec_float.
Definition f64_zero : f64 := S754_zero false.
Definition f64_add (a b : f64) : f64 := SFadd 53 1024 a b.
Definition f64_lt (a b : f64) : bool := SFltb a b.
Definition f64_ge (a b : f64) : bool := SFleb b a.

Definition f64_mul (a b : f64) : f64 := SFmul 53 1024 a b.
(** [value as f64] of an unsigned integer: rounded to nearest, ties to even. *)
Definition u64_as_f64 (z : Z) : f64 := binary_normalize 53 1024 z 0 false.
(** [x.floor() as u64]: saturating, [NaN] gives zero. *)
Definition f64_floor_as_u64 (x : f64) : Z :=
  match x with
  | S754_finite false m e => Z.min U64_MAX (Z.shiftl (Zpos m) e)
  | S754_infinity false => U64_MAX
  | _ => 0
  end.

#[export] Instance f64_eq_dec : EqDecision f64.
Proof. solve_decision. Defined.

