(* ===== verification/Text.v ===== *)
(** * Rust strings

    A [&str] is a UTF-8 byte string; it is modelled by its bytes, as a Rocq
    [string].  This file holds the [str] operations of the Rust standard
    library the modelled code uses: character iteration and counting,
    whitespace trimming, line splitting, prefix and substring tests, ASCII
    case folding, and the truncations by characters and by bytes. *)

From stdpp Require Import base list strings pretty gmap sorting.
From Stdlib Require Import ZArith Lia NArith.
From Stdlib Require Import Ascii.
From S2P Require Import Prelude.

#[local] Arguments String.append !_ _ / : simpl nomatch.

(** ** Bytes and characters *)

Definition byte_val (a : ascii) : N := N_of_ascii a.

(** A UTF-8 continuation byte, [10xxxxxx]. *)
Definition is_continuation (a : ascii) : bool :=
  (128 <=? byte_val a)%N && (byte_val a <? 192)%N.

(** Splits a byte string into the continuation bytes it starts with and the
    encoded characters that follow. *)
Fixpoint utf8_split (s : string) : string * list string :=
  match s with
  | "" => ("", [])
  | String a s' =>
      let '(pre, cs) := utf8_split s' in
      if is_continuation a then (String a pre, cs) else ("", String a pre :: cs)
  end.

(** [str::chars]: each character as its encoding. *)
Definition chars (s : string) : list string :=
  let '(pre, cs) := utf8_split s in
  match pre with "" => cs | _ => pre :: cs end.

Definition concat_str (cs : list string) : string := foldr String.append "" cs.

(** [s.chars().count()] *)
Definition char_count (s : string) : nat := List.length (chars s).

(** [s.len()]: bytes. *)
Definition byte_len (s : string) : nat := String.length s.

(** [s.chars().take(n).collect::<String>()] *)
Definition take_chars (n : nat) (s : string) : string := concat_str (take n (chars s)).

(** [s.is_char_boundary(n)] *)
Definition is_char_boundary (n : nat) (s : string) : bool :=
  match String.get n s with
  | Some a => negb (is_continuation a)
  | None => Nat.eqb n (byte_len s)
  end.

(** [s.truncate(n)] for [n <= s.len()]: panics ([None]) inside a character. *)
Definition truncate_bytes (n : nat) (s : string) : option string :=
  if is_char_boundary n s then Some (String.substring 0 n s) else None.

(** ** Character classes *)

Definition byte_is (lo hi : N) (a : ascii) : bool :=
  (lo <=? byte_val a)%N && (byte_val a <=? hi)%N.

(** [char::is_whitespace]: the Unicode [White_Space] property, on encodings. *)
Definition is_whitespace (c : string) : bool :=
  match c with
  | String a "" => byte_is 9 13 a || byte_is 32 32 a
  | String a (String b "") =>
      byte_is 194 194 a && (byte_is 133 133 b || byte_is 160 160 b)
  | String a (String b (String d "")) =>
      (byte_is 225 225 a && byte_is 154 154 b && byte_is 128 128 d)
      || (byte_is 226 226 a && byte_is 128 128 b
          && (byte_is 128 138 d || byte_is 168 169 d || byte_is 175 175 d))
      || (byte_is 226 226 a && byte_is 129 129 b && byte_is 159 159 d)
      || (byte_is 227 227 a && byte_is 128 128 b && byte_is 128 128 d)
  | _ => false
  end.

Fixpoint drop_while {A} (p : A -> bool) (l : list A) : list A :=
  match l with
  | [] => []
  | a :: l' => if p a then drop_while p l' else l
  end.

Definition drop_while_end {A} (p : A -> bool) (l : list A) : list A :=
  reverse (drop_while p (reverse l)).

(** [str::trim] and [str::trim_start] *)
Definition trim_start (s : string) : string :=
  concat_str (drop_while is_whitespace (chars s)).
Definition trim (s : string) : string :=
  concat_str (drop_while_end is_whitespace (drop_while is_whitespace (chars s))).

(** [s.trim().is_empty()] *)
Definition is_blank (s : string) : bool := String.eqb (trim s) "".
Definition is_empty (s : string) : bool := String.eqb s "".

Definition ascii_lower (a : ascii) : ascii :=
  if byte_is 65 90 a then ascii_of_N (byte_val a + 32) else a.

Fixpoint to_ascii_lowercase (s : string) : string :=
  match s with
  | "" => ""
  | String a s' => String (ascii_lower a) (to_ascii_lowercase s')
  end.

Definition eq_ignore_ascii_case (s t : string) : bool :=
  String.eqb (to_ascii_lowercase s) (to_ascii_lowercase t).

(** ** Substrings *)

Fixpoint strip_prefix (p s : string) : option string :=
  match p, s with
  | "", _ => Some s
  | String a p', String b s' => if Ascii.eqb a b then strip_prefix p' s' else None
  | String _ _, "" => None
  end.

Definition starts_with (p s : string) : bool :=
  match strip_prefix p s with Some _ => true | None => false end.

Fixpoint contains (p s : string) : bool :=
  starts_with p s || match s with "" => false | String _ s' => contains p s' end.

Definition ends_with (p s : string) : bool :=
  String.eqb (String.substring (byte_len s - byte_len p) (byte_len p) s) p.

(** ** Lines *)

Definition newline : ascii := Ascii.ascii_of_nat 10.
Definition carriage_return : ascii := Ascii.ascii_of_nat 13.
Definition nl : string := String newline "".

(** The pieces between newlines: always one more than there are newlines. *)
Fixpoint split_newlines (s : string) : list string :=
  match s with
  | "" => [""]
  | String a s' =>
      if Ascii.eqb a newline then "" :: split_newlines s'
      else match split_newlines s' with
           | [] => [String a ""]
           | l :: ls => String a l :: ls
           end
  end.

Fixpoint strip_carriage_return (s : string) : string :=
  match s with
  | "" => ""
  | String a "" => if Ascii.eqb a carriage_return then "" else s
  | String a s' => String a (strip_carriage_return s')
  end.

(** [str::lines]: a line ends with [\n] or [\r\n]; the last one may end with
    the string, and is dropped when it is empty. *)
Fixpoint lines_of (pieces : list string) : list string :=
  match pieces with
  | [] => []
  | [last] => if is_empty last then [] else [last]
  | l :: ls => strip_carriage_return l :: lines_of ls
  end.
Definition lines (s : string) : list string := lines_of (split_newlines s).

(** [s.split(c)] for a one-byte character [c]: the pieces between its
    occurrences. *)
Fixpoint split_char (c : ascii) (s : string) : list string :=
  match s with
  | "" => [""]
  | String a s' =>
      if Ascii.eqb a c then "" :: split_char c s'
      else match split_char c s' with
           | [] => [String a ""]
           | l :: ls => String a l :: ls
           end
  end.

(** [s.parse::<uN>()]: an optional sign, at least one decimal digit, and a
    value of at most [max]. *)
Definition digit_val (a : ascii) : option Z :=
  if byte_is 48 57 a then Some (Z.of_N (byte_val a) - 48)%Z else None.

Fixpoint parse_digits (max acc : Z) (s : string) : option Z :=
  match s with
  | "" => Some acc
  | String a s' =>
      d ← digit_val a;
      let acc' := (acc * 10 + d)%Z in
      if (acc' <=? max)%Z then parse_digits max acc' s' else None
  end.

Definition parse_unsigned (max : Z) (s : string) : option Z :=
  match s with
  | "" => None
  | String a s' =>
      if Ascii.eqb a "+"%char then
        match s' with "" => None | _ => parse_digits max 0 s' end
      else parse_digits max 0 s
  end.

(** [s.split_whitespace()] *)
Fixpoint split_whitespace_from (word : string) (cs : list string) : list string :=
  match cs with
  | [] => if is_empty word then [] else [word]
  | c :: cs =>
      if is_whitespace c then (if is_empty word then [] else [word]) ++ split_whitespace_from "" cs
      else split_whitespace_from (word +:+ c) cs
  end.
Definition split_whitespace (s : string) : list string := split_whitespace_from "" (chars s).

(** [iter.join(sep)] *)
Definition join (sep : string) (l : list string) : string := String.concat sep l.

(** [s.replace('\n', " ")] *)
Fixpoint newlines_to_spaces (s : string) : string :=
  match s with
  | "" => ""
  | String a s' =>
      String (if Ascii.eqb a newline then " "%char else a) (newlines_to_spaces s')
  end.

(** The bytewise order of [str], and the iteration order of a
    [BTreeSet<String>]. *)
Definition str_le (s t : string) : Prop := String.leb s t = true.
#[export] Instance str_le_dec s t : Decision (str_le s t).
Proof. unfold str_le. apply _. Defined.

Definition sorted_elements (s : gset string) : list string := merge_sort str_le (elements s).

(** Decimal rendering of an unsigned integer. *)
Definition show_Z (z : Z) : string := pretty z.

(** ** Lemmas *)

Lemma append_nil_r (s : string) : s +:+ "" = s.
Proof. induction s as [|a s IH]; simpl; [done|by rewrite IH]. Qed.

Lemma append_assoc (s t u : string) : (s +:+ t) +:+ u = s +:+ (t +:+ u).
Proof. induction s as [|a s IH]; simpl; [done|by rewrite IH]. Qed.

Lemma length_append (s t : string) :
  String.length (s +:+ t) = (String.length s + String.length t)%nat.
Proof. induction s as [|a s IH]; simpl; [done|by rewrite IH]. Qed.

Lemma concat_str_app cs ds : concat_str (cs ++ ds) = concat_str cs +:+ concat_str ds.
Proof. induction cs as [|c cs IH]; simpl; [done|]. by rewrite IH, append_assoc. Qed.

Lemma utf8_split_concat s :
  let '(pre, cs) := utf8_split s in pre +:+ concat_str cs = s.
Proof.
  induction s as [|a s IH]; simpl; [done|].
  destruct (utf8_split s) as [pre cs]. destruct (is_continuation a); simpl; by rewrite IH.
Qed.

(** Reassembling the characters of a string gives the string. *)
Lemma concat_chars s : concat_str (chars s) = s.
Proof.
  unfold chars. pose proof (utf8_split_concat s) as H.
  destruct (utf8_split s) as [[|a pre] cs]; simpl in *; done.
Qed.

(** Every character has at least one byte. *)
Lemma chars_nonempty s : Forall (fun c => c <> "") (chars s).
Proof.
  unfold chars.
  assert (Forall (fun c => c <> "") (utf8_split s).2) as H.
  { induction s as [|a s IH]; simpl; [done|].
    destruct (utf8_split s) as [pre cs]. destruct (is_continuation a); simpl in *; [done|].
    by constructor. }
  destruct (utf8_split s) as [[|a pre] cs]; simpl in *; [done|by constructor].
Qed.

Lemma chars_nil_iff s : chars s = [] <-> s = "".
Proof.
  split; [|by intros ->].
  intros H. rewrite <- (concat_chars s), H. done.
Qed.

Lemma char_count_le_bytes s : (char_count s <= byte_len s)%nat.
Proof.
  unfold char_count, byte_len. rewrite <- (concat_chars s) at 2.
  induction (chars_nonempty s) as [|c cs Hc _ IH]; simpl; [lia|].
  rewrite length_append. destruct c; [done|]. simpl. lia.
Qed.

(** The encodings of a string's characters split back into themselves. *)
Definition char_shape (c : string) : Prop :=
  exists a t, c = String a t /\ is_continuation a = false /\ utf8_split t = (t, []).

Lemma utf8_split_cont_app t s :
  utf8_split t = (t, []) ->
  utf8_split (t +:+ s) = (t +:+ (utf8_split s).1, (utf8_split s).2).
Proof.
  induction t as [|a t IH]; simpl; intros H.
  { by destruct (utf8_split s). }
  destruct (utf8_split t) as [pre cs] eqn:Ht.
  destruct (is_continuation a) eqn:Ha; [|done].
  injection H as -> ->. rewrite IH by done. done.
Qed.

Lemma utf8_split_shape s :
  utf8_split (utf8_split s).1 = ((utf8_split s).1, [])
  /\ Forall char_shape (utf8_split s).2.
Proof.
  induction s as [|a s [IH1 IH2]]; simpl; [done|].
  destruct (utf8_split s) as [pre cs]; simpl in *.
  destruct (is_continuation a) eqn:Ha; simpl.
  - rewrite IH1, Ha. done.
  - split; [done|]. constructor; [|done]. by exists a, pre.
Qed.

Lemma utf8_split_shaped cs : Forall char_shape cs -> utf8_split (concat_str cs) = ("", cs).
Proof.
  induction 1 as [|c cs (a & t & -> & Ha & Ht) _ IH]; simpl; [done|].
  rewrite utf8_split_cont_app by done. rewrite IH; simpl. by rewrite append_nil_r, Ha.
Qed.

(** A string that starts at a character boundary (every Rust [str] does). *)
Definition utf8_start (s : string) : Prop := (utf8_split s).1 = "".

Lemma chars_shape s : utf8_start s -> Forall char_shape (chars s).
Proof.
  unfold utf8_start, chars. destruct (utf8_split_shape s) as [_ H].
  destruct (utf8_split s) as [pre cs]; simpl in *. by intros ->.
Qed.

Lemma chars_concat cs : Forall char_shape cs -> chars (concat_str cs) = cs.
Proof. intros H. unfold chars. by rewrite utf8_split_shaped. Qed.

Lemma utf8_start_concat cs : Forall char_shape cs -> utf8_start (concat_str cs).
Proof. intros H. unfold utf8_start. by rewrite utf8_split_shaped. Qed.

(** Taking [n] characters leaves a string of [min n count] characters. *)
Lemma char_count_take n s :
  utf8_start s -> char_count (take_chars n s) = Nat.min n (char_count s).
Proof.
  intros Hs. unfold char_count, take_chars.
  rewrite chars_concat by (by apply Forall_take, chars_shape). apply length_take.
Qed.

Lemma take_chars_all n s : (char_count s <= n)%nat -> take_chars n s = s.
Proof.
  intros H. unfold take_chars, char_count in *. rewrite take_ge by done. apply concat_chars.
Qed.

Lemma chars_append s t : utf8_start s -> utf8_start t -> chars (s +:+ t) = chars s ++ chars t.
Proof.
  intros Hs Ht. rewrite <- (concat_chars s) at 1. rewrite <- (concat_chars t) at 1.
  rewrite <- concat_str_app. apply chars_concat. apply Forall_app; split; by apply chars_shape.
Qed.

Lemma utf8_start_append s t : utf8_start s -> utf8_start t -> utf8_start (s +:+ t).
Proof.
  intros Hs Ht. rewrite <- (concat_chars s), <- (concat_chars t), <- concat_str_app.
  apply utf8_start_concat. apply Forall_app; split; by apply chars_shape.
Qed.

Lemma char_count_append s t :
  utf8_start s -> utf8_start t ->
  char_count (s +:+ t) = (char_count s + char_count t)%nat.
Proof.
  intros Hs Ht. unfold char_count. by rewrite chars_append, length_app.
Qed.

Lemma drop_while_Forall {A} (P : A -> Prop) p (l : list A) :
  Forall P l -> Forall P (drop_while p l).
Proof.
  induction 1 as [|a l Ha Hl IH]; simpl; [done|]. destruct (p a); [done|by constructor].
Qed.

Lemma drop_while_end_Forall {A} (P : A -> Prop) p (l : list A) :
  Forall P l -> Forall P (drop_while_end p l).
Proof. intros H. apply Forall_reverse, drop_while_Forall, Forall_reverse, H. Qed.

Lemma drop_while_idemp {A} p (l : list A) : drop_while p (drop_while p l) = drop_while p l.
Proof.
  induction l as [|a l IH]; simpl; [done|].
  destruct (p a) eqn:Ha; [done|]. simpl. by rewrite Ha.
Qed.

Lemma starts_with_prefix p s : starts_with p s = true <-> exists t, s = p +:+ t.
Proof.
  unfold starts_with. revert s; induction p as [|a p IH]; intros s; simpl.
  { split; [by exists s|done]. }
  destruct s as [|b s]; simpl.
  { split; [done|by intros []]. }
  destruct (Ascii.eqb_spec a b) as [->|Hab].
  - rewrite IH. split; intros [t Ht]; exists t; congruence.
  - split; [done|]. intros [t [= ->]]. done.
Qed.

Lemma strip_prefix_Some p s r : strip_prefix p s = Some r <-> s = p +:+ r.
Proof.
  revert s; induction p as [|a p IH]; intros s; simpl; [naive_solver|].
  destruct s as [|b s]; [naive_solver|]. destruct (Ascii.eqb_spec a b) as [->|Hne].
  - rewrite IH. naive_solver.
  - naive_solver.
Qed.

(** *** Counting characters without assumptions on the bytes *)

Lemma utf8_split_pre_app pre cs :
  utf8_split pre = (pre, []) -> Forall char_shape cs ->
  utf8_split (pre +:+ concat_str cs) = (pre, cs).
Proof.
  intros Hpre Hcs. rewrite utf8_split_cont_app by done.
  rewrite utf8_split_shaped by done. simpl. by rewrite append_nil_r.
Qed.

Lemma chars_take n s : chars (take_chars n s) = take n (chars s).
Proof.
  destruct (utf8_split_shape s) as [Hpre Hcs]. unfold take_chars, chars at 2 3.
  destruct (utf8_split s) as [[|a pre] cs]; simpl in Hpre, Hcs.
  - apply chars_concat. by apply Forall_take.
  - destruct n as [|n]; [done|]. cbn [take concat_str foldr].
    unfold chars. fold (concat_str (take n cs)).
    rewrite utf8_split_pre_app; [done|done|by apply Forall_take].
Qed.

Lemma char_count_take_chars n s : char_count (take_chars n s) = Nat.min n (char_count s).
Proof. unfold char_count. rewrite chars_take. apply length_take. Qed.

Lemma char_count_split s :
  char_count s = (Nat.b2n (negb (is_empty (utf8_split s).1)) + List.length (utf8_split s).2)%nat.
Proof. unfold char_count, chars. by destruct (utf8_split s) as [[] cs]. Qed.

(** Bytes that complete a character can only lower the count. *)
Lemma char_count_append_le s t :
  (char_count (s +:+ t) <= char_count s + char_count t)%nat.
Proof.
  rewrite !char_count_split.
  assert (List.length (utf8_split (s +:+ t)).2
          = (List.length (utf8_split s).2 + List.length (utf8_split t).2)%nat
          /\ (is_empty (utf8_split s).1 = true -> is_empty (utf8_split t).1 = true ->
              is_empty (utf8_split (s +:+ t)).1 = true)) as [-> Hpre].
  { induction s as [|a s [IH1 IH2]]; simpl; [done|].
    destruct (utf8_split s) as [p1 c1], (utf8_split (s +:+ t)) as [p2 c2].
    destruct (is_continuation a); simpl in *; [done|]. split; [lia|done]. }
  destruct (is_empty (utf8_split s).1), (is_empty (utf8_split t).1);
    try rewrite Hpre by done; simpl; destruct (is_empty _); simpl; lia.
Qed.

(** *** Trimming *)

(** A list that neither starts nor ends with an element to trim. *)
Definition tight {A} (p : A -> bool) (l : list A) : Prop :=
  drop_while p l = l /\ drop_while p (reverse l) = reverse l.

Lemma drop_while_app_all {A} (p : A -> bool) a l :
  Forall (fun x => p x = true) a -> drop_while p (a ++ l) = drop_while p l.
Proof. induction 1 as [|x a Hx _ IH]; simpl; [done|]. by rewrite Hx. Qed.

Lemma drop_while_split {A} (p : A -> bool) l :
  exists a, l = a ++ drop_while p l /\ Forall (fun x => p x = true) a.
Proof.
  induction l as [|x l (a & Hl & Ha)]; simpl; [by exists []|].
  destruct (p x) eqn:Hx; [|by exists []]. exists (x :: a). split; [simpl; congruence|by constructor].
Qed.

Lemma tight_cons_app {A} (p : A -> bool) l r :
  l <> [] -> drop_while p l = l -> drop_while p (l ++ r) = l ++ r.
Proof.
  destruct l as [|x l]; [done|]. simpl. intros _. destruct (p x); [|done].
  intros H. exfalso. assert (List.length (drop_while p l) <= List.length l)%nat as Hlen.
  { clear. induction l as [|y l IH]; simpl; [done|]. destruct (p y); simpl; lia. }
  rewrite H in Hlen. simpl in Hlen. lia.
Qed.

(** Trimming both ends finds the tight core, whatever surrounds it. *)
Lemma trim_list_core {A} (p : A -> bool) a core b :
  Forall (fun x => p x = true) a -> Forall (fun x => p x = true) b -> tight p core ->
  drop_while_end p (drop_while p (a ++ core ++ b)) = core.
Proof.
  intros Ha Hb [Hc1 Hc2]. unfold drop_while_end. rewrite drop_while_app_all by done.
  destruct (decide (core = [])) as [->|Hne].
  - simpl. rewrite <- (app_nil_r b), drop_while_app_all by done. done.
  - rewrite tight_cons_app by done. rewrite reverse_app, drop_while_app_all by by apply Forall_reverse.
    rewrite Hc2. apply reverse_involutive.
Qed.

Lemma trim_list_spec {A} (p : A -> bool) l :
  exists a b, l = a ++ drop_while_end p (drop_while p l) ++ b
    /\ Forall (fun x => p x = true) a /\ Forall (fun x => p x = true) b
    /\ tight p (drop_while_end p (drop_while p l)).
Proof.
  destruct (drop_while_split p l) as (a & Hl & Ha).
  pose proof (drop_while_idemp p l) as Hid.
  set (m := drop_while p l) in *.
  destruct (drop_while_split p (reverse m)) as (b & Hm & Hb).
  exists a, (reverse b). unfold drop_while_end.
  assert (m = reverse (drop_while p (reverse m)) ++ reverse b) as Hm'.
  { rewrite <- reverse_app, <- Hm, reverse_involutive. done. }
  split_and!; [by rewrite <- Hm'|done|by apply Forall_reverse|]. split.
  - clear Hl Hm. revert Hm'. generalize (reverse (drop_while p (reverse m))) as core.
    intros [|x core] Hm'; [done|]. clearbody m. rewrite Hm' in Hid. simpl in *.
    destruct (p x); [|done]. exfalso.
    assert (forall l, List.length (drop_while p l) <= List.length l)%nat as Hlen.
    { clear. intros l. induction l as [|y l IH]; simpl; [done|]. destruct (p y); simpl; lia. }
    specialize (Hlen (core ++ reverse b)). rewrite Hid in Hlen. simpl in Hlen. lia.
  - rewrite reverse_involutive. apply drop_while_idemp.
Qed.

Lemma trim_shape cs :
  Forall char_shape cs ->
  Forall char_shape (drop_while_end is_whitespace (drop_while is_whitespace cs)).
Proof. intros H. by apply drop_while_end_Forall, drop_while_Forall. Qed.

Lemma chars_trim s :
  utf8_start s ->
  chars (trim s) = drop_while_end is_whitespace (drop_while is_whitespace (chars s)).
Proof. intros Hs. apply chars_concat. by apply trim_shape, chars_shape. Qed.

Lemma utf8_start_trim s : utf8_start s -> utf8_start (trim s).
Proof. intros Hs. apply utf8_start_concat. by apply trim_shape, chars_shape. Qed.

(** [trim] finds the text between two runs of white space. *)
Lemma trim_core a core b :
  Forall char_shape (a ++ core ++ b) ->
  Forall (fun c => is_whitespace c = true) a -> Forall (fun c => is_whitespace c = true) b ->
  tight is_whitespace core ->
  trim (concat_str (a ++ core ++ b)) = concat_str core.
Proof. intros Hs Ha Hb Hc. unfold trim. by rewrite chars_concat, trim_list_core. Qed.

Lemma trim_spec s :
  utf8_start s ->
  exists a b, chars s = a ++ chars (trim s) ++ b
    /\ Forall (fun c => is_whitespace c = true) a
    /\ Forall (fun c => is_whitespace c = true) b
    /\ tight is_whitespace (chars (trim s)).
Proof. intros Hs. rewrite chars_trim by done. apply trim_list_spec. Qed.

Lemma trim_idemp s : utf8_start s -> trim (trim s) = trim s.
Proof.
  intros Hs. destruct (trim_spec s Hs) as (a & b & Hc & Ha & Hb & Ht).
  rewrite <- (concat_chars (trim s)) at 1.
  pose proof (trim_core [] (chars (trim s)) []) as H. simpl in H. rewrite app_nil_r in H.
  rewrite H; [apply concat_chars| |done..]. by apply chars_shape, utf8_start_trim.
Qed.
