(* ===== verification/Utf8.v ===== *)
(** * UTF-8 ([str::from_utf8], [String::from_utf8_lossy])

    Decoding of bytes one scalar value at a time, as the standard library
    does it: whether bytes are UTF-8, and their lossy decoding, which puts
    one replacement character for every maximal ill-formed part. *)

From stdpp Require Import base list strings.
From Stdlib Require Import ZArith Lia Ascii.
From S2P Require Import Prelude Text.

(** ** One scalar value *)

(** A byte of the given range, then the rest. *)
Definition expect (lo hi : N) (taken : string) (s : string)
    (k : string -> string -> bool * string * string) : bool * string * string :=
  match s with
  | String b s' => if byte_is lo hi b then k (taken +:+ String b "") s' else (false, taken, s)
  | "" => (false, taken, "")
  end.

(** What starts with the byte [a]: whether it is a scalar value, the bytes
    taken, and the rest.  The bytes taken of what is none are the longest
    start of one, or [a]. *)
Definition utf8_step (a : ascii) (s : string) : bool * string * string :=
  let one := String a "" in
  let done_ t s := (true, t, s) in
  let tail1 t s := expect 128 191 t s done_ in
  let tail2 t s := expect 128 191 t s tail1 in
  if byte_is 0 127 a then (true, one, s)
  else if byte_is 194 223 a then tail1 one s
  else if byte_is 224 224 a then expect 160 191 one s tail1
  else if byte_is 225 236 a || byte_is 238 239 a then tail2 one s
  else if byte_is 237 237 a then expect 128 159 one s tail1
  else if byte_is 240 240 a then expect 144 191 one s tail2
  else if byte_is 241 243 a then expect 128 191 one s tail2
  else if byte_is 244 244 a then expect 128 143 one s tail2
  else (false, one, s).

(** Every step takes a byte, so the length is fuel enough. *)
Fixpoint utf8_from (fuel : nat) (s : string) : bool :=
  match s with
  | "" => true
  | String a s =>
      match fuel with
      | O => false
      | S fuel => let '(ok, _, rest) := utf8_step a s in ok && utf8_from fuel rest
      end
  end.

Definition valid_utf8 (s : string) : bool := utf8_from (String.length s) s.

(** [U+FFFD] *)
Definition REPLACEMENT_CHARACTER : string :=
  String (ascii_of_nat 239) (String (ascii_of_nat 191) (String (ascii_of_nat 189) "")).

Fixpoint lossy_from (fuel : nat) (s : string) : string :=
  match s with
  | "" => ""
  | String a s =>
      match fuel with
      | O => ""
      | S fuel =>
          let '(ok, taken, rest) := utf8_step a s in
          (if ok then taken else REPLACEMENT_CHARACTER) +:+ lossy_from fuel rest
      end
  end.

(** [String::from_utf8_lossy] *)
Definition from_utf8_lossy (s : string) : string := lossy_from (String.length s) s.

Example lossy_text : from_utf8_lossy "abc" = "abc".
Proof. reflexivity. Qed.
(** The first two bytes of the euro sign are one ill-formed part; the third
    is another. *)
Example lossy_cut :
  from_utf8_lossy (String (ascii_of_nat 226) (String (ascii_of_nat 130) ""))
  = REPLACEMENT_CHARACTER
  /\ from_utf8_lossy (String (ascii_of_nat 172) "") = REPLACEMENT_CHARACTER.
Proof. split; reflexivity. Qed.

(** ** Laws of a step *)

(** What is taken and what is left are the bytes given, and a byte is taken. *)
Definition step_ok (s : string) (r : bool * string * string) : Prop :=
  let '(ok, taken, rest) := r in taken +:+ rest = s /\ taken <> "".

Lemma expect_splits lo hi taken s k w :
  taken +:+ s = w /\ taken <> "" ->
  (forall taken s, taken +:+ s = w /\ taken <> "" -> step_ok w (k taken s)) ->
  step_ok w (expect lo hi taken s k).
Proof.
  intros Hw Hk. destruct s as [|b s]; simpl; [done|]. destruct (byte_is lo hi b); [|done].
  apply Hk. destruct Hw as [Hw Hn]. split; [by rewrite append_assoc|]. by destruct taken.
Qed.

Lemma utf8_step_splits a s : step_ok (String a s) (utf8_step a s).
Proof.
  unfold utf8_step.
  repeat match goal with |- context [if ?c then _ else _] => destruct c end;
    try done; repeat (apply expect_splits; [done|intros ? ? ?]); done.
Qed.

Lemma utf8_step_shorter a s ok taken rest :
  utf8_step a s = (ok, taken, rest) -> String.length rest <= String.length s.
Proof.
  intros E. pose proof (utf8_step_splits a s) as H. rewrite E in H. destruct H as [H Hn].
  apply (f_equal String.length) in H. rewrite length_append in H. simpl in H.
  destruct taken; [done|]. simpl in H. lia.
Qed.

(** More bytes after a scalar value change nothing. *)
Definition extends (t : string) (r r' : bool * string * string) : Prop :=
  forall taken rest, r = (true, taken, rest) -> r' = (true, taken, rest +:+ t).

Lemma expect_extends lo hi taken s t k :
  (forall taken s, extends t (k taken s) (k taken (s +:+ t))) ->
  extends t (expect lo hi taken s k) (expect lo hi taken (s +:+ t) k).
Proof.
  intros Hk u rest. destruct s as [|b s]; simpl; [done|]. destruct (byte_is lo hi b); [|done].
  apply Hk.
Qed.

Lemma utf8_step_app a s t : extends t (utf8_step a s) (utf8_step a (s +:+ t)).
Proof.
  unfold utf8_step.
  repeat match goal with |- context [if ?c then _ else _] => destruct c end;
    repeat (apply expect_extends; intros ? ?); try (by intros ? ? [= <- <-]); done.
Qed.

(** ** Fuel *)

Lemma utf8_from_fuel n m s :
  String.length s <= n -> String.length s <= m -> utf8_from n s = utf8_from m s.
Proof.
  revert m s. induction n as [|n IH]; intros [|m] [|a s] Hn Hm; simpl in *; try done; try lia.
  destruct (utf8_step a s) as [[ok taken] rest] eqn:E. apply utf8_step_shorter in E.
  f_equal. apply IH; lia.
Qed.

Lemma lossy_from_fuel n m s :
  String.length s <= n -> String.length s <= m -> lossy_from n s = lossy_from m s.
Proof.
  revert m s. induction n as [|n IH]; intros [|m] [|a s] Hn Hm; simpl in *; try done; try lia.
  destruct (utf8_step a s) as [[ok taken] rest] eqn:E. apply utf8_step_shorter in E.
  f_equal. apply IH; lia.
Qed.

Lemma valid_utf8_cons a s :
  valid_utf8 (String a s) = let '(ok, _, rest) := utf8_step a s in ok && valid_utf8 rest.
Proof.
  unfold valid_utf8. simpl. destruct (utf8_step a s) as [[ok taken] rest] eqn:E.
  f_equal. apply utf8_from_fuel; [by eapply utf8_step_shorter|done].
Qed.

Lemma from_utf8_lossy_cons a s :
  from_utf8_lossy (String a s)
  = let '(ok, taken, rest) := utf8_step a s in
    (if ok then taken else REPLACEMENT_CHARACTER) +:+ from_utf8_lossy rest.
Proof.
  unfold from_utf8_lossy. simpl. destruct (utf8_step a s) as [[ok taken] rest] eqn:E.
  f_equal. apply lossy_from_fuel; [by eapply utf8_step_shorter|done].
Qed.

(** Induction over the scalar values of valid text. *)
Lemma utf8_ind (P : string -> Prop) :
  P "" ->
  (forall a s taken rest, utf8_step a s = (true, taken, rest) -> valid_utf8 rest = true -> P rest ->
     P (String a s)) ->
  forall s, valid_utf8 s = true -> P s.
Proof.
  intros H0 H1 s. remember (String.length s) as n eqn:E. assert (String.length s <= n) as Hn by lia. clear E.
  revert s Hn. induction n as [|n IH]; intros [|a s] Hn Hv; simpl in Hn; try done; try lia.
  rewrite valid_utf8_cons in Hv. destruct (utf8_step a s) as [[ok taken] rest] eqn:E.
  apply andb_true_iff in Hv as [-> Hv]. apply (H1 _ _ _ _ E Hv), IH; [|done].
  apply utf8_step_shorter in E. lia.
Qed.

Lemma valid_utf8_app s t : valid_utf8 s = true -> valid_utf8 t = true -> valid_utf8 (s +:+ t) = true.
Proof.
  intros Hs Ht. revert s Hs. apply utf8_ind; [done|]. intros a s taken rest E _ IH.
  change (String a s +:+ t) with (String a (s +:+ t)). rewrite valid_utf8_cons, (utf8_step_app _ _ t _ _ E). done.
Qed.

Lemma lossy_app s t : valid_utf8 s = true -> from_utf8_lossy (s +:+ t) = s +:+ from_utf8_lossy t.
Proof.
  revert s. apply utf8_ind; [done|]. intros a s taken rest E _ IH.
  pose proof (utf8_step_splits a s) as H. rewrite E in H. destruct H as [H _].
  rewrite <- H at 2. change (String a s +:+ t) with (String a (s +:+ t)).
  rewrite from_utf8_lossy_cons, (utf8_step_app _ _ t _ _ E), IH. by rewrite append_assoc.
Qed.

(** Decoding leaves valid text alone. *)
Lemma lossy_valid s : valid_utf8 s = true -> from_utf8_lossy s = s.
Proof. intros H. rewrite <- (append_nil_r s) at 1. rewrite lossy_app by done. apply append_nil_r. Qed.

(** ** A character cut in two *)

Definition is_scalar (c : string) : Prop :=
  match c with "" => False | String a s => utf8_step a s = (true, c, "") end.

(** The bytes after the first one of a character are continuation bytes. *)
Lemma expect_tail lo hi taken s k :
  (128 <= lo)%N -> (hi <= 191)%N ->
  (forall taken s, (k taken s).1.1 = true -> (k taken s).2 = "" ->
     Forall (fun b => byte_is 128 191 b = true) (String.list_ascii_of_string s)) ->
  (expect lo hi taken s k).1.1 = true -> (expect lo hi taken s k).2 = "" ->
  Forall (fun b => byte_is 128 191 b = true) (String.list_ascii_of_string s).
Proof.
  intros Hlo Hhi Hk. destruct s as [|b s]; simpl; [constructor|].
  destruct (byte_is lo hi b) eqn:E; simpl; [|done]. intros H1 H2. constructor; [|by eapply Hk].
  unfold byte_is in *. apply andb_true_iff in E as [E1 E2]. apply andb_true_iff.
  apply N.leb_le in E1, E2. split; apply N.leb_le; lia.
Qed.

Lemma scalar_tail a s :
  is_scalar (String a s) ->
  Forall (fun b => byte_is 128 191 b = true) (String.list_ascii_of_string s).
Proof.
  simpl. intros E.
  assert ((utf8_step a s).1.1 = true /\ (utf8_step a s).2 = "") as [H1 H2] by (by rewrite E).
  clear E. revert H1 H2. unfold utf8_step.
  repeat match goal with |- context [if ?c then _ else _] => destruct c end; simpl;
    try (intros _ ->; constructor); try done;
    repeat (apply expect_tail; [done..|intros ? ?]); simpl; intros _ ->; constructor.
Qed.

Lemma continuation_no_start b s : byte_is 128 191 b = true -> utf8_step b s = (false, String b "", s).
Proof.
  unfold byte_is. intros H. apply andb_true_iff in H as [H1 H2]. apply N.leb_le in H1, H2.
  unfold utf8_step, byte_is.
  repeat match goal with |- context [(?x <=? ?y)%N] => destruct (N.leb_spec x y); try lia end; done.
Qed.

Fixpoint replacements (n : nat) : string :=
  match n with O => "" | S n => REPLACEMENT_CHARACTER +:+ replacements n end.

Lemma lossy_continuations s t :
  Forall (fun b => byte_is 128 191 b = true) (String.list_ascii_of_string s) ->
  from_utf8_lossy (s +:+ t) = replacements (String.length s) +:+ from_utf8_lossy t.
Proof.
  induction s as [|b s IH]; [done|]. intros [Hb Hs]%Forall_cons.
  change (String b s +:+ t) with (String b (s +:+ t)).
  rewrite from_utf8_lossy_cons, continuation_no_start by done. rewrite IH by done.
  cbn [String.length replacements]. by rewrite append_assoc.
Qed.

(** Cut inside a character, the start of it is one ill-formed part. *)
Lemma expect_cut lo hi s2 k :
  s2 <> "" ->
  (forall taken s1 t, k taken (s1 +:+ s2) = (true, t, "") -> k taken s1 = (false, taken +:+ s1, "")) ->
  forall taken s1 t, expect lo hi taken (s1 +:+ s2) k = (true, t, "") ->
    expect lo hi taken s1 k = (false, taken +:+ s1, "").
Proof.
  intros Hs2 Hk taken s1 t. destruct s1 as [|b s1]; simpl; [intros _; by rewrite append_nil_r|].
  destruct (byte_is lo hi b); [|done]. intros H. rewrite (Hk _ _ _ H). by rewrite append_assoc.
Qed.

Lemma utf8_step_cut a s1 s2 t :
  s2 <> "" -> utf8_step a (s1 +:+ s2) = (true, t, "") -> utf8_step a s1 = (false, String a s1, "").
Proof.
  intros Hs2.
  assert (forall taken s1 t, (true, taken, s1 +:+ s2) = (true, t, "") ->
    (true, taken, s1) = (false, taken +:+ s1, "")) as H0.
  { intros taken [|b s] u H; [|discriminate H]. injection H as _ H. by subst. }
  change (String a s1) with (String a "" +:+ s1). unfold utf8_step.
  repeat match goal with |- context [if ?c then _ else _] => destruct c end; try done;
    try (intros H; by apply H0 in H);
    repeat (apply expect_cut; [done|intros ? ? ?]); apply H0.
Qed.

(** A character whose bytes are decoded in two parts is lost: there is one
    replacement character for its start and one for every byte of its end. *)
Lemma lossy_character_cut c1 c2 t :
  is_scalar (c1 +:+ c2) -> c1 <> "" -> c2 <> "" ->
  from_utf8_lossy c1 = REPLACEMENT_CHARACTER
  /\ from_utf8_lossy (c2 +:+ t) = replacements (String.length c2) +:+ from_utf8_lossy t.
Proof.
  intros Hc H1 H2. destruct c1 as [|a s]; [done|]. split.
  - rewrite from_utf8_lossy_cons. simpl in Hc. by rewrite (utf8_step_cut _ _ _ _ H2 Hc).
  - apply lossy_continuations. change (String a s +:+ c2) with (String a (s +:+ c2)) in Hc.
    apply scalar_tail in Hc. clear -Hc. induction s as [|b s IH]; simpl in *; [done|].
    apply Forall_cons in Hc as [_ Hc]. by apply IH.
Qed.
