(* ===== verification/Json.v ===== *)
(** * JSON values and approval fingerprints

    [serde_json::Value] and the part of [crates/bt-core/src/types.rs] that
    turns a tool call's arguments into a fingerprint: the arguments are
    normalised (the provider's [call_id] is dropped), rendered canonically
    (object keys sorted) and hashed with FNV-1a.  The rendering of a number
    and of a string literal is [serde_json]'s, a parameter of the model.

    Two arguments normalise to one value when they agree up to [call_id]
    members ([same_request]), and a canonical text is that of one value. *)

From stdpp Require Import base countable list strings sorting.
From Stdlib Require Import ZArith Lia Ascii Permutation Sorting.Sorted Floats.SpecFloat.
From S2P Require Import Prelude Text.

#[local] Open Scope Z_scope.

(** ** Values *)

(** A [serde_json::Number]: an unsigned, a negative or a floating number. *)
Inductive Number : Type :=
  | PosInt (n : Z)
  | NegInt (n : Z)
  | Float (f : f64).

(** An object is the list of its members in the map's iteration order. *)
Inductive Value : Type :=
  | VNull
  | VBool (b : bool)
  | VNumber (n : Number)
  | VString (s : string)
  | VArray (l : list Value)
  | VObject (m : list (string * Value)).

#[export] Instance Number_eq_dec : EqDecision Number.
Proof. solve_decision. Defined.

Section value_ind.
Variable P : Value -> Prop.
Hypothesis P_null : P VNull.
Hypothesis P_bool : forall b, P (VBool b).
Hypothesis P_number : forall n, P (VNumber n).
Hypothesis P_string : forall s, P (VString s).
Hypothesis P_array : forall l, Forall P l -> P (VArray l).
Hypothesis P_object : forall m, Forall (fun kv => P kv.2) m -> P (VObject m).

Fixpoint value_induction (v : Value) : P v :=
  match v with
  | VNull => P_null
  | VBool b => P_bool b
  | VNumber n => P_number n
  | VString s => P_string s
  | VArray l => P_array l
      ((fix go l : Forall P l :=
          match l with
          | [] => Forall_nil_2 _
          | v :: l => Forall_cons_2 _ _ _ (value_induction v) (go l)
          end) l)
  | VObject m => P_object m
      ((fix go m : Forall (fun kv => P kv.2) m :=
          match m with
          | [] => Forall_nil_2 _
          | (k, v) :: m => Forall_cons_2 _ (k, v) _ (value_induction v) (go m)
          end) m)
  end.
End value_ind.

#[export] Instance Value_eq_dec : EqDecision Value.
Proof.
  refine (fix go (v w : Value) {struct v} : Decision (v = w) :=
    match v, w with
    | VNull, VNull => left eq_refl
    | VBool a, VBool b => cast_if (decide (a = b))
    | VNumber a, VNumber b => cast_if (decide (a = b))
    | VString a, VString b => cast_if (decide (a = b))
    | VArray l, VArray k =>
        cast_if ((fix gol (l k : list Value) : Decision (l = k) :=
          match l, k with
          | [], [] => left eq_refl
          | a :: l, b :: k => cast_if_and (go a b) (gol l k)
          | _, _ => right _
          end) l k)
    | VObject l, VObject k =>
        cast_if ((fix gom (l k : list (string * Value)) : Decision (l = k) :=
          match l, k with
          | [], [] => left eq_refl
          | (x, a) :: l, (y, b) :: k =>
              cast_if_and3 (decide (x = y)) (go a b) (gom l k)
          | _, _ => right _
          end) l k)
    | _, _ => right _
    end); clear go; try clear gol; try clear gom; abstract congruence.
Defined.

(** *** Accessors: [Value::get(key)], [as_str], [as_array] *)

Definition map_get (k : string) (m : list (string * Value)) : option Value :=
  snd <$> find_first (fun kv => String.eqb kv.1 k) m.

Definition value_get (k : string) (v : Value) : option Value :=
  match v with VObject m => map_get k m | _ => None end.

Definition as_str (v : Value) : option string :=
  match v with VString s => Some s | _ => None end.

Definition as_array (v : Value) : option (list Value) :=
  match v with VArray l => Some l | _ => None end.

(** *** [serde_json::Map] is a [BTreeMap]: [remove] and [insert] *)

Definition map_remove (k : string) (m : list (string * Value)) : list (string * Value) :=
  List.filter (fun kv => negb (String.eqb kv.1 k)) m.

(** [str]'s order compares bytes. *)
Definition str_leb (s t : string) : bool := String.leb s t.

Fixpoint map_insert (k : string) (v : Value) (m : list (string * Value)) :=
  match m with
  | [] => [(k, v)]
  | (k', v') :: m' =>
      if String.eqb k k' then (k, v) :: m'
      else if str_leb k k' then (k, v) :: m
      else (k', v') :: map_insert k v m'
  end.

(** ** Normalisation *)

(** [normalize_approval_arguments] *)
Fixpoint normalize_approval_arguments (arguments : Value) : Value :=
  match arguments with
  | VObject m =>
      VObject ((fix go (m : list (string * Value)) :=
        match m with
        | [] => []
        | (key, value) :: m' =>
            if negb (String.eqb key "call_id")
            then (key, normalize_approval_arguments value) :: go m'
            else go m'
        end) m)
  | VArray l => VArray (List.map normalize_approval_arguments l)
  | other => other
  end.

(** [redact_argument_preview] *)
Definition is_sensitive_key (key : string) : bool :=
  let lowered := to_ascii_lowercase key in
  contains "secret" lowered
  || contains "token" lowered
  || contains "password" lowered
  || contains "authorization" lowered
  || ends_with "_key" lowered.

Fixpoint redact_argument_preview (arguments : Value) : Value :=
  match arguments with
  | VObject m =>
      VObject (List.map (fun kv =>
        (kv.1, if is_sensitive_key kv.1 then VString "[redacted]"
               else redact_argument_preview kv.2)) m)
  | VArray l => VArray (List.map redact_argument_preview l)
  | VString value =>
      if (240 <? Z.of_nat (char_count value))
      then VString (take_chars 240 value +:+ "...")
      else VString value
  | other => other
  end.

(** ** Canonical rendering and hashing *)

Definition entry_leb (a b : string * Value) : Prop := str_leb a.1 b.1 = true.
#[export] Instance entry_leb_dec a b : Decision (entry_leb a b).
Proof. unfold entry_leb. apply _. Defined.

Section canonical.
(** [Number::to_string] and [serde_json::to_string] of a string. *)
Context (render_number : Number -> string) (render_string : string -> string).

Definition render_entry (kv : string * string) : string :=
  render_string kv.1 +:+ ":" +:+ kv.2.

(** [canonical_json]; the members are rendered and then sorted by key,
    where the source sorts references to them and then renders: the sort
    is stable in both and looks at the keys only. *)
Definition entry_le (a b : string * string) : Prop := str_leb a.1 b.1 = true.
#[local] Instance entry_le_dec a b : Decision (entry_le a b).
Proof. unfold entry_le. apply _. Defined.

Fixpoint canonical_json (value : Value) : string :=
  match value with
  | VNull => "null"
  | VBool true => "true"
  | VBool false => "false"
  | VNumber n => render_number n
  | VString s => render_string s
  | VArray l => "[" +:+ join "," (List.map canonical_json l) +:+ "]"
  | VObject m =>
      let entries := merge_sort entry_le
        (List.map (fun kv => (kv.1, canonical_json kv.2)) m) in
      "{" +:+ join "," (List.map render_entry entries) +:+ "}"
  end.
End canonical.

(** [stable_hash]: 64-bit FNV-1a. *)
Definition FNV_OFFSET : Z := 0xcbf29ce484222325.
Definition FNV_PRIME : Z := 0x100000001b3.

Definition fnv_step (hash : Z) (byte : ascii) : Z :=
  wrap64 (Z.lxor hash (Z.of_N (byte_val byte)) * FNV_PRIME).

Definition fnv1a64 (value : string) : Z :=
  fold_left fnv_step (String.list_ascii_of_string value) FNV_OFFSET.

Definition hex_digit (z : Z) : ascii :=
  ascii_of_N (Z.to_N (if z <? 10 then 48 + z else 87 + z)).

(** [format!("{hash:016x}")] *)
Fixpoint hex_digits (n : nat) (z : Z) : string :=
  match n with
  | O => ""
  | S n' => String (hex_digit (Z.land (Z.shiftr z (4 * Z.of_nat n')) 15)) (hex_digits n' z)
  end.

Definition stable_hash (value : string) : string :=
  "fnv1a64:" +:+ hex_digits 16 (fnv1a64 value).

Example stable_hash_empty : stable_hash "" = "fnv1a64:cbf29ce484222325".
Proof. vm_compute. reflexivity. Qed.
Example stable_hash_a : stable_hash "a" = "fnv1a64:af63dc4c8601ec8c".
Proof. vm_compute. reflexivity. Qed.

(** ** Laws of the maps *)

Lemma str_leb_trans s t u : str_leb s t = true -> str_leb t u = true -> str_leb s u = true.
Proof.
  unfold str_leb. rewrite <- !Is_true_true. intros Hst Htu.
  exact (transitivity (R := String.le) (y := t) Hst Htu).
Qed.

Lemma str_leb_total s t : str_leb s t = true \/ str_leb t s = true.
Proof. apply String.leb_total. Qed.

Lemma str_leb_antisymm s t : str_leb s t = true -> str_leb t s = true -> s = t.
Proof. apply String.leb_antisym. Qed.

Lemma map_insert_get k v m : map_get k (map_insert k v m) = Some v.
Proof.
  unfold map_get, find_first. induction m as [|[k' v'] m IH]; simpl.
  - by rewrite String.eqb_refl.
  - destruct (String.eqb_spec k k') as [->|Hne]; [simpl; by rewrite String.eqb_refl|].
    destruct (str_leb k k'); simpl; [by rewrite String.eqb_refl|].
    apply not_eq_sym, String.eqb_neq in Hne. by rewrite Hne.
Qed.

Lemma map_remove_insert k v m : map_remove k (map_insert k v m) = map_remove k m.
Proof.
  unfold map_remove. induction m as [|[k' v'] m IH]; simpl; [by rewrite String.eqb_refl|].
  destruct (String.eqb_spec k k') as [->|Hne]; [simpl; by rewrite String.eqb_refl|].
  destruct (str_leb k k'); simpl; [by rewrite String.eqb_refl|]. by rewrite IH.
Qed.

Lemma map_remove_idem k m : map_remove k (map_remove k m) = map_remove k m.
Proof.
  unfold map_remove. induction m as [|kv m IH]; simpl; [done|].
  destruct (String.eqb kv.1 k) eqn:E; simpl; [done|]. by rewrite E; simpl; rewrite IH.
Qed.

(** ** Normalisation: the object case as a map over the other members *)

Lemma normalize_object m :
  normalize_approval_arguments (VObject m)
  = VObject (List.map (fun kv => (kv.1, normalize_approval_arguments kv.2))
               (map_remove "call_id" m)).
Proof.
  simpl. f_equal. unfold map_remove. induction m as [|[k v] m IH]; simpl; [done|].
  destruct (String.eqb k "call_id"); simpl; by rewrite IH.
Qed.

(** *** What normalisation forgets *)

(** Arguments that agree up to the members named [call_id], at every depth. *)
Inductive same_request : Value -> Value -> Prop :=
  | same_null : same_request VNull VNull
  | same_bool b : same_request (VBool b) (VBool b)
  | same_number n : same_request (VNumber n) (VNumber n)
  | same_string s : same_request (VString s) (VString s)
  | same_array l l' : Forall2 same_request l l' -> same_request (VArray l) (VArray l')
  | same_object m m' :
      Forall2 (fun a b => a.1 = b.1 /\ same_request a.2 b.2)
        (map_remove "call_id" m) (map_remove "call_id" m') ->
      same_request (VObject m) (VObject m').

Lemma map_eq_Forall2 {A B} (f : A -> B) (R : A -> A -> Prop) l l' :
  Forall (fun a => forall b, R a b <-> f a = f b) l ->
  Forall2 R l l' <-> List.map f l = List.map f l'.
Proof.
  intros H. revert l'. induction H as [|a l Ha _ IH]; intros [|b l']; simpl;
    try (split; intros Hx; by inversion Hx).
  rewrite Forall2_cons, Ha, IH. split; [by intros [-> ->]|by intros [= -> ->]].
Qed.

Lemma forall_map_remove {P : string * Value -> Prop} k m :
  Forall P m -> Forall P (map_remove k m).
Proof.
  unfold map_remove. induction 1 as [|kv m H _ IH]; simpl; [constructor|].
  case_match; by try constructor.
Qed.

Lemma same_request_normal v w :
  same_request v w <-> normalize_approval_arguments v = normalize_approval_arguments w.
Proof.
  revert w. induction v as [|b|n|s|l IH|m IH] using value_induction; intros w.
  1-4: split; [by inversion_clear 1|destruct w; simpl; intros [=]; subst; by constructor].
  - split.
    + inversion_clear 1 as [| | | |? l' Hl|]. simpl. f_equal. by apply (map_eq_Forall2 _ _ _ _ IH).
    + destruct w as [| | | |l'|]; intros [= Hl]. constructor. by apply (map_eq_Forall2 _ _ _ _ IH).
  - assert (Forall (fun a => forall b : string * Value, (a.1 = b.1 /\ same_request a.2 b.2)
      <-> (a.1, normalize_approval_arguments a.2) = (b.1, normalize_approval_arguments b.2))
      (map_remove "call_id" m)) as Hm.
    { apply forall_map_remove. eapply Forall_impl; [exact IH|]. intros a Ha b. simpl in Ha.
      rewrite Ha. split; [by intros [-> ->]|by intros [= -> ->]]. }
    split.
    + inversion_clear 1 as [| | | | |? m' Hmm]. rewrite !normalize_object. f_equal.
      by apply (map_eq_Forall2 _ _ _ _ Hm).
    + destruct w as [| | | | |m']; try done. rewrite !normalize_object. intros [= Hmm].
      constructor. by apply (map_eq_Forall2 _ _ _ _ Hm).
Qed.

(** A map iterates in the order of its keys and has each once. *)
Definition key_lt (a b : string * Value) : Prop := str_leb a.1 b.1 = true /\ a.1 <> b.1.

Inductive ordered : Value -> Prop :=
  | ordered_null : ordered VNull
  | ordered_bool b : ordered (VBool b)
  | ordered_number n : ordered (VNumber n)
  | ordered_string s : ordered (VString s)
  | ordered_array l : Forall ordered l -> ordered (VArray l)
  | ordered_object m :
      StronglySorted key_lt m -> Forall (fun kv => ordered kv.2) m -> ordered (VObject m).

Lemma ordered_normalize v : ordered v -> ordered (normalize_approval_arguments v).
Proof.
  induction v as [| | | |l IH|m IH] using value_induction; intros Ho; try by constructor.
  - inversion_clear Ho as [| | | |? Hl|]. simpl. constructor. apply Forall_fmap.
    rewrite Forall_forall in *. simpl. auto.
  - inversion_clear Ho as [| | | | |? Hs Hm]. rewrite normalize_object. unfold map_remove.
    constructor.
    + clear -Hs. induction Hs as [|kv m _ IH Hlt]; simpl; [constructor|].
      case_match; [|done]. simpl. constructor; [done|]. apply Forall_fmap.
      eapply Forall_impl; [exact (forall_map_remove _ _ Hlt)|]. by intros [].
    + clear Hs. induction IH as [|[k v] m Hv _ IHm]; simpl; [constructor|].
      apply Forall_cons in Hm as [Hk Hm]. case_match; simpl; [|by apply IHm].
      constructor; [by apply Hv|by apply IHm].
Qed.

(** ** The canonical rendering is unambiguous *)

(** The character opens no value: it ends a number. *)
Definition is_closing (a : ascii) : bool :=
  Ascii.eqb a ","%char || Ascii.eqb a "]"%char || Ascii.eqb a "}"%char.

Definition number_char (a : ascii) : bool :=
  match digit_val a with Some _ => true | None => false end || Ascii.eqb a "+"%char || Ascii.eqb a "-"%char || Ascii.eqb a "."%char
  || Ascii.eqb a "e"%char || Ascii.eqb a "E"%char.

(** The first character of a rendering by the kind of value. *)
Inductive Opening : Type :=
  | ONull | OTrue | OFalse | ONumber | OString | OArray | OObject | OClosing.

Definition opening (a : ascii) : option Opening :=
  if number_char a then Some ONumber
  else if is_closing a then Some OClosing
  else if Ascii.eqb a "n"%char then Some ONull
  else if Ascii.eqb a "t"%char then Some OTrue
  else if Ascii.eqb a "f"%char then Some OFalse
  else if Ascii.eqb a "034"%char then Some OString
  else if Ascii.eqb a "["%char then Some OArray
  else if Ascii.eqb a "{"%char then Some OObject
  else None.

Definition opens (o : Opening) (s : string) : Prop :=
  exists a rest, s = String a rest /\ opening a = Some o.

(** What follows a value. *)
Definition ends (s : string) : Prop := s = "" \/ opens OClosing s.

(** What [serde_json] guarantees of the rendering of scalars: a string is
    quoted and its rendering says where it ends, a number is made of the
    characters of a number and different numbers are rendered differently. *)
Record json_rendering (render_number : Number -> string) (render_string : string -> string)
    : Prop := {
  string_opens s : opens OString (render_string s);
  string_closes a b s t : render_string a +:+ s = render_string b +:+ t -> a = b /\ s = t;
  number_opens n : opens ONumber (render_number n);
  number_chars n :
    Forall (fun a => number_char a = true) (String.list_ascii_of_string (render_number n));
  number_inj n n' : render_number n = render_number n' -> n = n';
}.

Lemma opens_app o s t : opens o s -> opens o (s +:+ t).
Proof. intros (a & rest & -> & Ha). by exists a, (rest +:+ t). Qed.

Lemma opens_same o o' s : opens o s -> opens o' s -> o = o'.
Proof. intros (a & r & -> & Ha) (a' & r' & [= <- <-] & Ha'). congruence. Qed.

Lemma number_span x y s t :
  Forall (fun a => number_char a = true) (String.list_ascii_of_string x) ->
  Forall (fun a => number_char a = true) (String.list_ascii_of_string y) ->
  ends s -> ends t -> x +:+ s = y +:+ t -> x = y /\ s = t.
Proof.
  assert (forall a x s t, number_char a = true -> ends s -> s <> String a x +:+ t) as Hno.
  { intros a z u w Ha [->|(b & r & -> & Hb)]; simpl; [done|]. intros [= -> _].
    unfold opening in Hb. by rewrite Ha in Hb. }
  intros Hx. revert y. induction x as [|a x IH]; intros [|b y] Hy Hs Ht E; simpl in *.
  - done.
  - apply Forall_cons in Hy as [Hb _]. by destruct (Hno b y s t Hb Hs).
  - apply Forall_cons in Hx as [Ha _]. by destruct (Hno a x t s Ha Ht).
  - apply Forall_cons in Hx as [Ha Hx]. apply Forall_cons in Hy as [Hb Hy].
    injection E as -> E. by destruct (IH Hx y Hy Hs Ht E) as [-> ->].
Qed.

(** *** Sequences of items, separated by commas *)

Section items.
Context {A : Type} (code : A -> string) (ok : A -> Prop) (close : ascii).
Context (Hclose : opening close = Some OClosing) (Hcomma : close <> ","%char).
Context (Hopens : forall x, exists o, o <> OClosing /\ opens o (code x)).

(** Read from the left, the code of the item tells the item. *)
Definition readable (x : A) : Prop := forall y s t, ok x -> ok y -> ends s -> ends t ->
  code x +:+ s = code y +:+ t -> x = y /\ s = t.

(** The items after the first one. *)
Fixpoint more (l : list A) : string :=
  match l with
  | [] => ""
  | x :: l => "," +:+ code x +:+ more l
  end.

Lemma join_more x l : join "," (List.map code (x :: l)) = code x +:+ more l.
Proof.
  revert x. induction l as [|y l IH]; intros x; [simpl; by rewrite append_nil_r|].
  change (join "," (List.map code (x :: y :: l)))
    with (code x +:+ "," +:+ join "," (List.map code (y :: l))).
  by rewrite IH.
Qed.

Lemma ends_more l s : ends (more l +:+ String close s).
Proof. right. destruct l; simpl; [by exists close, s|]. eexists _, _. by split. Qed.

Lemma more_unique l l' s t :
  Forall readable l -> Forall ok l -> Forall ok l' ->
  more l +:+ String close s = more l' +:+ String close t -> l = l' /\ s = t.
Proof.
  intros H. revert l'. induction H as [|x l Hx _ IH]; intros [|y l'] Hok Hok' E; simpl in E.
  - by injection E.
  - by injection E.
  - by injection E.
  - apply Forall_cons in Hok as [Hxok Hok]. apply Forall_cons in Hok' as [Hyok Hok'].
    injection E as E. rewrite !append_assoc in E.
    destruct (Hx y _ _ Hxok Hyok (ends_more l s) (ends_more l' t) E) as [-> E'].
    by destruct (IH l' Hok Hok' E') as [-> ->].
Qed.

Lemma items_unique l l' s t :
  Forall readable l -> Forall ok l -> Forall ok l' ->
  join "," (List.map code l) +:+ String close s = join "," (List.map code l') +:+ String close t ->
  l = l' /\ s = t.
Proof.
  assert (forall x l s t, String close s <> join "," (List.map code (x :: l)) +:+ t) as Hno.
  { intros x k u w E. destruct (Hopens x) as (o & Ho & Hx). rewrite join_more in E.
    apply Ho, (opens_same _ _ (String close u)); [|by exists close, u].
    rewrite E. by apply opens_app, opens_app. }
  intros H Hok Hok' E. destruct l as [|x l], l' as [|y l'].
  - by injection E.
  - by destruct (Hno y l' s _ E).
  - by destruct (Hno x l t _ (eq_sym E)).
  - rewrite !join_more, !append_assoc in E. apply Forall_cons in H as [Hx H].
    apply Forall_cons in Hok as [Hxok Hok]. apply Forall_cons in Hok' as [Hyok Hok'].
    destruct (Hx y _ _ Hxok Hyok (ends_more l s) (ends_more l' t) E) as [-> E'].
    by destruct (more_unique l l' s t H Hok Hok' E') as [-> ->].
Qed.
End items.

(** *** Values *)

Section canonical_laws.
Context (render_number : Number -> string) (render_string : string -> string).
Context (laws : json_rendering render_number render_string).
#[local] Notation canonical := (canonical_json render_number render_string).

#[local] Instance entry_le_dec' a b : Decision (entry_le a b).
Proof. unfold entry_le. apply _. Defined.

(** The sort leaves a map's members as they are. *)
Lemma sorted_entries (f : Value -> string) m :
  StronglySorted key_lt m ->
  merge_sort entry_le (List.map (fun kv => (kv.1, f kv.2)) m)
  = List.map (fun kv => (kv.1, f kv.2)) m.
Proof.
  intros Hs. set (l := List.map _ m).
  assert (StronglySorted (fun a b => entry_le a b /\ a.1 <> b.1) l) as Hl.
  { subst l. induction Hs as [|kv m _ IH Hlt]; simpl; [constructor|]. constructor; [done|].
    apply Forall_fmap. eapply Forall_impl; [exact Hlt|]. by intros []. }
  apply (StronglySorted_unique_strong entry_le).
  - intros x y Hx Hy H1 H2. rewrite merge_sort_Permutation in Hx.
    assert (x.1 = y.1) as E by (by apply str_leb_antisymm). clear -Hl Hx Hy E.
    induction Hl as [|z l _ IH Hz]; [by apply elem_of_nil in Hx|]. rewrite Forall_forall in Hz.
    apply elem_of_cons in Hx as [->|Hx], Hy as [->|Hy]; [done| | |by apply IH].
    + by destruct (Hz _ Hy).
    + by destruct (Hz _ Hx).
  - apply StronglySorted_merge_sort.
    + intros a b c H1 H2. by eapply str_leb_trans.
    + intros a b. apply str_leb_total.
  - clear Hs. induction Hl as [|z l _ IH Hz]; constructor; [done|].
    eapply Forall_impl; [exact Hz|]. by intros ? [].
  - by rewrite merge_sort_Permutation.
Qed.

Definition value_opening (v : Value) : Opening :=
  match v with
  | VNull => ONull
  | VBool true => OTrue
  | VBool false => OFalse
  | VNumber _ => ONumber
  | VString _ => OString
  | VArray _ => OArray
  | VObject _ => OObject
  end.

Lemma canonical_opens v : opens (value_opening v) (canonical v).
Proof.
  destruct v as [|[]| | | |]; simpl;
    try (eexists _, _; split; [reflexivity|reflexivity]); by apply laws.
Qed.

Lemma canonical_opens_item v : exists o, o <> OClosing /\ opens o (canonical v).
Proof. exists (value_opening v). split; [by destruct v as [|[]| | | |]|apply canonical_opens]. Qed.

(** A member as it is rendered. *)
Definition member (kv : string * Value) : string :=
  render_string kv.1 +:+ ":" +:+ canonical kv.2.

Lemma canonical_object m :
  StronglySorted key_lt m ->
  canonical (VObject m) = "{" +:+ join "," (List.map member m) +:+ "}".
Proof. intros Hs. simpl. rewrite sorted_entries by done. by rewrite List.map_map. Qed.

Lemma member_opens kv : exists o, o <> OClosing /\ opens o (member kv).
Proof. exists OString. split; [done|]. apply opens_app, laws. Qed.

(** Read from the left, a rendering tells the value. *)
Lemma canonical_readable v : readable canonical ordered v.
Proof.
  induction v as [|b|n|str|l IH|m IH] using value_induction; intros w s t Hv Hw Hs Ht E.
  all: assert (value_opening w = value_opening _) as Ho
    by (eapply opens_same; [apply opens_app, canonical_opens|rewrite <- E; apply opens_app, canonical_opens]).
  - destruct w as [|[]| | | |]; try done. by injection E.
  - destruct b, w as [|[]| | | |]; try done; by injection E.
  - destruct w as [|[]|n'| | |]; try done.
    destruct (number_span _ _ _ _ (number_chars _ _ laws n) (number_chars _ _ laws n') Hs Ht E)
      as [->%(number_inj _ _ laws) ->]. done.
  - destruct w as [|[]| |str'| |]; try done.
    by destruct (string_closes _ _ laws _ _ _ _ E) as [-> ->].
  - destruct w as [|[]| | |l'|]; try done. inversion_clear Hv as [| | | |? Hl|].
    inversion_clear Hw as [| | | |? Hl'|]. simpl in E. injection E as E.
    rewrite !append_assoc in E.
    by destruct (items_unique canonical ordered "]"%char eq_refl ltac:(done) canonical_opens_item l l' s t
      IH Hl Hl' E) as [-> ->].
  - destruct w as [|[]| | | |m']; try done. inversion_clear Hv as [| | | | |? Hsm Hm].
    inversion_clear Hw as [| | | | |? Hsm' Hm']. rewrite !canonical_object in E by done.
    injection E as E. rewrite !append_assoc in E.
    assert (Forall (readable member (fun kv => ordered kv.2)) m) as Hread.
    { eapply Forall_impl; [exact IH|]. intros [k v] Hkv [k' v'] u u' H1 H2 H3 H4 Heq.
      unfold member in Heq. simpl in *. rewrite !append_assoc in Heq.
      apply (string_closes _ _ laws) in Heq as [-> Heq]. injection Heq as Heq.
      by destruct (Hkv v' u u' H1 H2 H3 H4 Heq) as [-> ->]. }
    by destruct (items_unique member _ "}"%char eq_refl ltac:(done) member_opens m m' s t Hread Hm Hm' E)
      as [-> ->].
Qed.

Lemma canonical_inj v w : ordered v -> ordered w -> canonical v = canonical w -> v = w.
Proof.
  intros Hv Hw E. assert (ends "") as Hend by by left.
  by destruct (canonical_readable v w "" "" Hv Hw Hend Hend) as [-> _]; [by rewrite E|].
Qed.
End canonical_laws.

(** *** A rendering with these laws *)

Definition number_code (n : Number) : (Z + Z) + (bool + bool) + (unit + bool * positive * Z) :=
  match n with
  | PosInt z => inl (inl (inl z))
  | NegInt z => inl (inl (inr z))
  | Float (S754_zero b) => inl (inr (inl b))
  | Float (S754_infinity b) => inl (inr (inr b))
  | Float S754_nan => inr (inl tt)
  | Float (S754_finite b m e) => inr (inr (b, m, e))
  end.

Fixpoint ones (n : nat) : string :=
  match n with O => "" | S n => String "1" (ones n) end.

Definition counted_number (n : Number) : string :=
  String "0" (ones (Pos.to_nat (encode (number_code n)))).

Fixpoint escaped (s : string) : string :=
  match s with
  | "" => String "034" ""
  | String a s => String "\" (String a (escaped s))
  end.

Definition escaped_string (s : string) : string := String "034" (escaped s).

Lemma ones_inj n k : ones n = ones k -> n = k.
Proof. revert k. induction n as [|n IH]; intros [|k] [=]; auto. Qed.

Lemma number_code_inj n n' : number_code n = number_code n' -> n = n'.
Proof.
  destruct n as [z|z|[b|b| |b m e]], n' as [z'|z'|[b'|b'| |b' m' e']]; simpl; congruence.
Qed.

Lemma escaped_closes a b s t : escaped a +:+ s = escaped b +:+ t -> a = b /\ s = t.
Proof.
  revert b. induction a as [|x a IH]; intros [|y b]; simpl; intros [=]; [done|].
  subst. by destruct (IH b) as [-> ->].
Qed.

Lemma escaped_rendering : json_rendering counted_number escaped_string.
Proof.
  split.
  - intros s. by eexists _, _.
  - intros a b s t E. injection E as E. by apply escaped_closes.
  - intros n. by eexists _, _.
  - intros n. constructor; [done|]. induction (Pos.to_nat _); simpl; by constructor.
  - intros n n' E. injection E as E%ones_inj%Pos2Nat.inj%(inj encode). by apply number_code_inj.
Qed.

(** ** The hash is 16 hexadecimal digits *)

Lemma hex_digits_length n z : String.length (hex_digits n z) = n.
Proof. induction n as [|n IH]; simpl; [done|by rewrite IH]. Qed.

Lemma fnv1a64_range s : 0 <= fnv1a64 s < U64_MOD.
Proof.
  unfold fnv1a64. assert (0 <= FNV_OFFSET < U64_MOD) as H by done. revert H.
  generalize FNV_OFFSET. induction (String.list_ascii_of_string s) as [|a l IH]; simpl; [done|].
  intros h _. apply IH. unfold fnv_step, wrap64. by apply Z.mod_pos_bound.
Qed.
