(* ===== verification/Types.v ===== *)
(** * The shared data model ([crates/bt-core/src])

    Identifiers ([ids.rs]), messages ([messages.rs]), tools, approvals,
    budgets, usage and context manifests ([types.rs]), session and branch
    records ([branches.rs]), related-session messages
    ([related_sessions.rs]), errors ([error.rs]) and the canonical event
    union ([events.rs]).  Field names carry a prefix for their record.

    A point in time ([OffsetDateTime], always UTC) is its number of
    nanoseconds since the Unix epoch.  A generated identifier or timestamp
    ([Uuid::new_v4], [now_utc]) is an argument of the function that creates
    it. *)

From stdpp Require Import base list strings gmap.
From Stdlib Require Import ZArith Lia.
From S2P Require Import Prelude Text Json.

#[local] Open Scope Z_scope.

(** ** Identifiers ([ids.rs])

    [uuid_id!] declares one newtype over [Uuid] per name. *)

Inductive UuidTag : Type :=
  | TraceIdT | SpanIdT | SessionIdT | TurnIdT | BranchIdT | EventIdT
  | MessageIdT | CompactionIdT | RelatedSessionMessageIdT.

Record UuidId (tag : UuidTag) : Type := MkUuid { uuid : N }.
Arguments MkUuid {tag} uuid.
Arguments uuid {tag} _.

Abbreviation SpanId := (UuidId SpanIdT).
Abbreviation SessionId := (UuidId SessionIdT).
Abbreviation TurnId := (UuidId TurnIdT).
Abbreviation BranchId := (UuidId BranchIdT).
Abbreviation EventId := (UuidId EventIdT).
Abbreviation MessageId := (UuidId MessageIdT).
Abbreviation CompactionId := (UuidId CompactionIdT).
Abbreviation RelatedSessionMessageId := (UuidId RelatedSessionMessageIdT).

#[export] Instance UuidId_eq_dec tag : EqDecision (UuidId tag).
Proof. solve_decision. Defined.
#[export] Instance UuidId_countable tag : Countable (UuidId tag).
Proof. by refine (inj_countable' uuid MkUuid _); intros []. Defined.

Record ConnectionId : Type := MkConnectionId { connection_name : string }.
Record ToolCallId : Type := MkToolCallId { call_name : string }.

#[export] Instance ConnectionId_eq_dec : EqDecision ConnectionId.
Proof. solve_decision. Defined.
#[export] Instance ToolCallId_eq_dec : EqDecision ToolCallId.
Proof. solve_decision. Defined.
#[export] Instance ToolCallId_countable : Countable ToolCallId.
Proof. by refine (inj_countable' call_name MkToolCallId _); intros []. Defined.

Definition OffsetDateTime : Type := Z.

(** ** Errors ([error.rs]) *)

Inductive ErrorClass : Type :=
  | EcConfig | EcAuth | EcProvider | EcTool | EcProtocol | EcStorage
  | EcNotFound | EcRuntime | EcUnsupported.

#[export] Instance ErrorClass_eq_dec : EqDecision ErrorClass.
Proof. solve_decision. Defined.

(** The payload of a wrapped library error is its message. *)
Inductive BelltowerError : Type :=
  | Config (msg : string)
  | Auth (msg : string)
  | Provider (msg : string)
  | Tool (msg : string)
  | Protocol (msg : string)
  | Storage (msg : string)
  | NotFound (msg : string)
  | Runtime (msg : string)
  | InvalidState (msg : string)
  | Unsupported (msg : string)
  | Io (msg : string)
  | JsonError (msg : string)
  | TomlDeserialize (msg : string)
  | TomlSerialize (msg : string)
  | Url (msg : string).

Abbreviation Result := (result BelltowerError).

Definition error_class (e : BelltowerError) : ErrorClass :=
  match e with
  | Config _ | TomlDeserialize _ | TomlSerialize _ => EcConfig
  | Auth _ => EcAuth
  | Provider _ => EcProvider
  | Tool _ => EcTool
  | Protocol _ | JsonError _ => EcProtocol
  | Storage _ => EcStorage
  | NotFound _ => EcNotFound
  | Runtime _ | InvalidState _ | Io _ | Url _ => EcRuntime
  | Unsupported _ => EcUnsupported
  end.

Definition error_class_as_str (c : ErrorClass) : string :=
  match c with
  | EcConfig => "config"
  | EcAuth => "auth"
  | EcProvider => "provider"
  | EcTool => "tool"
  | EcProtocol => "protocol"
  | EcStorage => "storage"
  | EcNotFound => "not_found"
  | EcRuntime => "runtime"
  | EcUnsupported => "unsupported"
  end.

Definition error_code (e : BelltowerError) : string :=
  match e with
  | Config _ => "config_error"
  | Auth _ => "auth_error"
  | Provider _ => "provider_error"
  | Tool _ => "tool_error"
  | Protocol _ => "protocol_error"
  | Storage _ => "storage_error"
  | NotFound _ => "not_found"
  | Runtime _ => "runtime_error"
  | InvalidState _ => "invalid_state"
  | Unsupported _ => "unsupported_operation"
  | Io _ => "io_error"
  | JsonError _ => "json_error"
  | TomlDeserialize _ => "toml_deserialize_error"
  | TomlSerialize _ => "toml_serialize_error"
  | Url _ => "url_parse_error"
  end.

Definition error_retryable (e : BelltowerError) : bool :=
  match e with
  | Provider _ | Protocol _ | Storage _ | Runtime _ => true
  | NotFound _ => false
  | Io _ | InvalidState _ => true
  | Config _ | Auth _ | Tool _ | Unsupported _ | JsonError _
  | TomlDeserialize _ | TomlSerialize _ | Url _ => false
  end.

(** The [#[error(..)]] display strings. *)
Definition error_to_string (e : BelltowerError) : string :=
  match e with
  | Config m => "configuration error: " +:+ m
  | Auth m => "authentication error: " +:+ m
  | Provider m => "provider error: " +:+ m
  | Tool m => "tool error: " +:+ m
  | Protocol m => "protocol error: " +:+ m
  | Storage m => "storage error: " +:+ m
  | NotFound m => "not found: " +:+ m
  | Runtime m => "runtime error: " +:+ m
  | InvalidState m => "invalid state: " +:+ m
  | Unsupported m => "unsupported operation: " +:+ m
  | Io m => "I/O error: " +:+ m
  | JsonError m => "json error: " +:+ m
  | TomlDeserialize m => "toml deserialize error: " +:+ m
  | TomlSerialize m => "toml serialize error: " +:+ m
  | Url m => "url parse error: " +:+ m
  end.

(** ** Usage, cost and budget ([types.rs]) *)

Record TokenUsage : Type := MkTokenUsage {
  tu_prompt_tokens : Z;
  tu_completion_tokens : Z;
  tu_total_tokens : Z;
  tu_cache_read_tokens : option Z;
  tu_cache_write_tokens : option Z;
  tu_reasoning_tokens : option Z;
}.

Record CostBreakdown : Type := MkCostBreakdown {
  cb_prompt_usd : f64;
  cb_completion_usd : f64;
  cb_total_usd : f64;
  cb_cache_read_usd : option f64;
  cb_cache_write_usd : option f64;
  cb_reasoning_usd : option f64;
}.

Inductive ThinkingEffort : Type :=
  | EffortNone | EffortMinimal | EffortLow | EffortMedium | EffortHigh | EffortXHigh.

#[export] Instance ThinkingEffort_eq_dec : EqDecision ThinkingEffort.
Proof. solve_decision. Defined.

Record ThinkingConfig : Type := MkThinkingConfig {
  th_enabled : bool;
  th_effort : option ThinkingEffort;
  th_budget_tokens : option Z;
  th_include_summaries : bool;
}.

Record BudgetConfig : Type := MkBudgetConfig {
  bc_max_wall_clock_seconds : option Z;
  bc_max_tokens : option Z;
  bc_max_turns : option Z;
  bc_max_cost_usd : option f64;
}.

(** [Option::is_some_and] and [Option::is_none_or] *)
Definition is_some_and {A} (p : A -> bool) (o : option A) : bool :=
  match o with Some a => p a | None => false end.
Definition is_none_or {A} (p : A -> bool) (o : option A) : bool :=
  match o with Some a => p a | None => true end.

(** [BudgetConfig::is_exhausted] *)
Definition is_exhausted (b : BudgetConfig) (tokens_used turns_used elapsed_seconds : Z)
    (cost_used_usd : option f64) : bool :=
  is_some_and (fun max_tokens => max_tokens <=? tokens_used) (bc_max_tokens b)
  || is_some_and (fun max_turns => max_turns <=? turns_used) (bc_max_turns b)
  || is_some_and (fun max_elapsed => max_elapsed <=? elapsed_seconds)
       (bc_max_wall_clock_seconds b)
  || is_some_and (fun max_cost => is_none_or (fun used => f64_ge used max_cost) cost_used_usd)
       (bc_max_cost_usd b).

(** ** Tools ([types.rs]) *)

Inductive ToolRiskClass : Type := RiskSafe | RiskModerate | RiskHigh.
Inductive ToolInterruptBehavior : Type :=
  | InterruptImmediate | WaitForCompletion | TerminateProcess.
Inductive ToolExecutionMode : Type := ExecImmediate | UserInput.
Inductive ToolDisplayGroup : Type :=
  | Codebase | Execution | Web | Planning | Interaction | Inspection | Workflow | External.

#[export] Instance ToolRiskClass_eq_dec : EqDecision ToolRiskClass.
Proof. solve_decision. Defined.
#[export] Instance ToolInterruptBehavior_eq_dec : EqDecision ToolInterruptBehavior.
Proof. solve_decision. Defined.
#[export] Instance ToolExecutionMode_eq_dec : EqDecision ToolExecutionMode.
Proof. solve_decision. Defined.
#[export] Instance ToolDisplayGroup_eq_dec : EqDecision ToolDisplayGroup.
Proof. solve_decision. Defined.

Record ToolMetadata : Type := MkToolMetadata {
  tm_risk_class : ToolRiskClass;
  tm_is_read_only : bool;
  tm_is_concurrency_safe : bool;
  tm_interrupt_behavior : ToolInterruptBehavior;
  tm_execution_mode : ToolExecutionMode;
  tm_should_defer : bool;
  tm_catalogue_tags : list string;
  tm_display_group : ToolDisplayGroup;
}.
#[export] Instance ToolMetadata_eq_dec : EqDecision ToolMetadata.
Proof. solve_decision. Defined.

Inductive PlanStatus : Type := PlanPending | PlanInProgress | PlanCompleted | PlanBlocked.
Record PlanItem : Type := MkPlanItem {
  pi_id : string; pi_content : string; pi_status : PlanStatus;
}.

Record ToolSpec : Type := MkToolSpec {
  ts_name : string;
  ts_description : string;
  ts_parameters_schema : Value;
  ts_metadata : ToolMetadata;
}.

Record ToolResultEnvelope : Type := MkToolResultEnvelope {
  tr_call_id : ToolCallId;
  tr_tool_name : string;
  tr_is_error : bool;
  tr_output : Value;
  tr_duration_ms : option Z;
}.
#[export] Instance ToolResultEnvelope_eq_dec : EqDecision ToolResultEnvelope.
Proof. solve_decision. Defined.

Record ArtifactRef : Type := MkArtifactRef {
  ar_id : string;
  ar_kind : string;
  ar_uri : option string;
  ar_content_type : option string;
  ar_digest : option string;
  ar_producer_event_id : option EventId;
  ar_producer_tool_call_id : option ToolCallId;
  ar_model_visible : bool;
  ar_preview : option string;
}.
#[export] Instance ArtifactRef_eq_dec : EqDecision ArtifactRef.
Proof. solve_decision. Defined.

Inductive ToolOperationInitiator : Type :=
  | InitAgent | InitHuman | InitRuntime | InitMcp.

Record ToolOperationContext : Type := MkToolOperationContext {
  to_initiator : ToolOperationInitiator;
  to_risk_class : option ToolRiskClass;
  to_is_read_only : option bool;
  to_execution_mode : option ToolExecutionMode;
  to_artifact_refs : list ArtifactRef;
}.

(** [ToolOperationContext::from_tool_spec] *)
Definition from_tool_spec (initiator : ToolOperationInitiator) (tool : ToolSpec)
    : ToolOperationContext :=
  {| to_initiator := initiator;
     to_risk_class := Some (tm_risk_class (ts_metadata tool));
     to_is_read_only := Some (tm_is_read_only (ts_metadata tool));
     to_execution_mode := Some (tm_execution_mode (ts_metadata tool));
     to_artifact_refs := [] |}.

(** ** Messages ([messages.rs]) *)

Inductive Role : Type := RoleSystem | RoleUser | RoleAssistant | RoleTool.
#[export] Instance Role_eq_dec : EqDecision Role.
Proof. solve_decision. Defined.

Record ToolCall : Type := MkToolCall {
  tc_tool_name : string;
  tc_call_id : string;
  tc_arguments : Value;
}.
#[export] Instance ToolCall_eq_dec : EqDecision ToolCall.
Proof. solve_decision. Defined.

Inductive MessagePart : Type :=
  | PText (text : string)
  | PReasoning (text : option string) (redacted : bool) (opaque_replay : option Value)
  | PToolCall (call : ToolCall)
  | PToolResult (result : ToolResultEnvelope)
  | PRefusal (text provider_reason : option string) (opaque_metadata : option Value)
  | PStructured (schema_name : option string) (value : Value).
#[export] Instance MessagePart_eq_dec : EqDecision MessagePart.
Proof. solve_decision. Defined.

Record Message : Type := MkMessage {
  msg_message_id : MessageId;
  msg_role : Role;
  msg_parts : list MessagePart;
  msg_created_at : OffsetDateTime;
}.
#[export] Instance Message_eq_dec : EqDecision Message.
Proof. solve_decision. Defined.

(** ** Approvals ([types.rs]) *)

Inductive ApprovalRequirement : Type :=
  | ReqAlways | ReqFirstUsePerSession | ReqNever | ReqConditional (description : string).
#[export] Instance ApprovalRequirement_eq_dec : EqDecision ApprovalRequirement.
Proof. solve_decision. Defined.

Inductive ApprovalScope : Type := ScopeOnce | ScopeSession | ScopeAlways.
#[export] Instance ApprovalScope_eq_dec : EqDecision ApprovalScope.
Proof. solve_decision. Defined.

Inductive ApprovalDecisionSource : Type :=
  | SourceHuman | SourcePolicy (rule : string) | SourceRuntime.
#[export] Instance ApprovalDecisionSource_eq_dec : EqDecision ApprovalDecisionSource.
Proof. solve_decision. Defined.

Inductive ApprovalDecision : Type :=
  | Approved (decided_at : OffsetDateTime) (decided_by : string)
      (scope : ApprovalScope) (source : ApprovalDecisionSource)
  | Denied (decided_at : OffsetDateTime) (decided_by : string) (reason : option string)
      (scope : ApprovalScope) (source : ApprovalDecisionSource).
#[export] Instance ApprovalDecision_eq_dec : EqDecision ApprovalDecision.
Proof. unfold OffsetDateTime. solve_decision. Defined.

Record ApprovalRequest : Type := MkApprovalRequest {
  rq_session_id : SessionId;
  rq_call_id : ToolCallId;
  rq_tool_name : string;
  rq_arguments : Value;
  rq_requirement : ApprovalRequirement;
  rq_tool_metadata : ToolMetadata;
  rq_requested_at : OffsetDateTime;
}.
#[export] Instance ApprovalRequest_eq_dec : EqDecision ApprovalRequest.
Proof. unfold EqDecision, OffsetDateTime. solve_decision. Defined.

Record ApprovalRequestSnapshot : Type := MkApprovalRequestSnapshot {
  sn_session_id : SessionId;
  sn_call_id : ToolCallId;
  sn_tool_name : string;
  sn_request_fingerprint : string;
  sn_arguments_hash : string;
  sn_redacted_arguments_preview : option Value;
  sn_requirement : ApprovalRequirement;
  sn_tool_metadata : ToolMetadata;
  sn_initiator : ToolOperationInitiator;
  sn_surface : string;
  sn_registry_schema_hash : option string;
  sn_policy_rule : option string;
  sn_requested_at : OffsetDateTime;
}.

Record ApprovalResolution : Type := MkApprovalResolution {
  re_request_fingerprint : string;
  re_decision : ApprovalDecision;
}.

(** ** Completions ([types.rs]) *)

Inductive CompletionDelta : Type :=
  | AppendText (text : string)
  | AppendReasoning (text : option string) (redacted : bool) (opaque_replay : option Value)
  | OpenToolCall (call_id tool_name : string) (arguments : option Value)
  | AppendToolCallArguments (call_id partial_json : string)
  | CloseToolCall (call_id : string)
  | AppendRefusal (text provider_reason : option string) (opaque_metadata : option Value)
  | SetStructuredOutput (schema_name : option string) (value : Value).

Record CompletionChunk : Type := MkCompletionChunk {
  ck_llm_call_ordinal : option Z;
  ck_deltas : list CompletionDelta;
  ck_usage : option TokenUsage;
  ck_raw : option Value;
}.

Inductive FinishReason : Type :=
  | FrStop | FrToolUse | FrMaxTokens | FrCancelled | FrError.
#[export] Instance FinishReason_eq_dec : EqDecision FinishReason.
Proof. solve_decision. Defined.

Record CompletionSummary : Type := MkCompletionSummary {
  cs_provider : string;
  cs_model : string;
  cs_finish_reason : FinishReason;
  cs_usage : TokenUsage;
  cs_cost : option CostBreakdown;
  cs_latency_ms : Z;
}.

Record StructuredOutputSpec : Type := MkStructuredOutputSpec {
  so_schema_name : option string; so_schema : Value;
}.

Record CompletionRequest : Type := MkCompletionRequest {
  cr_connection_id : ConnectionId;
  cr_model : string;
  cr_system_prompt : option string;
  cr_messages : list Message;
  cr_tools : list ToolSpec;
  cr_structured_output : option StructuredOutputSpec;
  cr_max_tokens : option Z;
  cr_temperature : option f64;
  cr_thinking : option ThinkingConfig;
}.

(** ** Context manifests ([types.rs]) *)

Record ContextSystemPromptRef : Type := MkContextSystemPromptRef {
  sp_present : bool; sp_char_count : Z;
}.

Record ContextMessageRef : Type := MkContextMessageRef {
  mr_message_id : MessageId;
  mr_role : Role;
  mr_source_branch_id : option BranchId;
  mr_source_seq_id : option Z;
  mr_part_count : Z;
  mr_visible_text_chars : Z;
}.

Record ContextMessageSourceRef : Type := MkContextMessageSourceRef {
  ms_message_id : MessageId; ms_branch_id : BranchId; ms_seq_id : Z;
}.

Record ContextToolRef : Type := MkContextToolRef {
  ct_name : string;
  ct_risk_class : ToolRiskClass;
  ct_is_read_only : bool;
  ct_execution_mode : ToolExecutionMode;
  ct_should_defer : bool;
}.

Inductive ContextAttachmentType : Type :=
  | AttGenerated | AttCompaction | AttMemory | AttSignal | AttResource.
Inductive ContextAttachmentProducer : Type :=
  | ByRuntime | ByOperator | ByTool | ByMemoryProvider | ByExternalServer.
Record ContextAttachmentVisibility : Type := MkContextAttachmentVisibility {
  av_model_visible : bool; av_operator_visible : bool; av_exportable : bool;
}.
Inductive ContextPromptPlacement : Type :=
  | NotPlaced | SystemPrompt | MessageHistory | ToolContextPlacement | AttachmentBlock.
Inductive ContextTruncationStatus : Type := TruncNone | Truncated | TruncUnknown.

Record ContextAttachment : Type := MkContextAttachment {
  at_id : string;
  at_attachment_type : ContextAttachmentType;
  at_producer : ContextAttachmentProducer;
  at_source_event_id : option EventId;
  at_source_tool_call_id : option ToolCallId;
  at_source_uri : option string;
  at_digest : option string;
  at_visibility : ContextAttachmentVisibility;
  at_placement : ContextPromptPlacement;
  at_token_estimate : option Z;
  at_truncation : ContextTruncationStatus;
}.

Inductive ContextCompactionTrigger : Type := TriggerForced | TriggerTokenBudget.
#[export] Instance ContextCompactionTrigger_eq_dec : EqDecision ContextCompactionTrigger.
Proof. solve_decision. Defined.
Inductive ContextCompactionPhase : Type := PhaseManual | PhasePreTurn.
Inductive ContextCompactionStatus : Type := CompactionCompleted | CompactionFailed.

Record ContextManifest : Type := MkContextManifest {
  cm_turn_id : TurnId;
  cm_branch_id : BranchId;
  cm_llm_call_ordinal : Z;
  cm_provider : string;
  cm_model : string;
  cm_settings_revision_id : Z;
  cm_context_boundary_seq_id : option Z;
  cm_system_prompt : ContextSystemPromptRef;
  cm_messages : list ContextMessageRef;
  cm_tools : list ContextToolRef;
  cm_attachments : list ContextAttachment;
  cm_max_tokens : option Z;
  cm_thinking : option ThinkingConfig;
  cm_compacted : bool;
}.

Record InstructionDocument : Type := MkInstructionDocument {
  id_source : string; id_title : string; id_body : string;
}.

Record TurnInstructionProvenance : Type := MkTurnInstructionProvenance {
  pv_turn_id : TurnId;
  pv_provider : string;
  pv_model : string;
  pv_settings_revision_id : Z;
  pv_core_prompt : InstructionDocument;
  pv_provider_overlay : option InstructionDocument;
  pv_instructions : list InstructionDocument;
  pv_rendered_system_prompt : string;
}.

(** ** Turn summaries ([types.rs]) *)

Record TurnToolCallSummary : Type := MkTurnToolCallSummary {
  ttc_call_id : ToolCallId;
  ttc_tool_name : string;
  ttc_approval_status : option string;
  ttc_execution_status : option string;
}.
#[export] Instance TurnToolCallSummary_eq_dec : EqDecision TurnToolCallSummary.
Proof. solve_decision. Defined.

Record TurnInspection : Type := MkTurnInspection {
  ti_turn_id : TurnId;
  ti_branch_id : BranchId;
  ti_provider : string;
  ti_model : string;
  ti_message_count : Z;
  ti_settings_revision_id : Z;
  ti_started_at : OffsetDateTime;
  ti_finished_at : option OffsetDateTime;
  ti_status : option string;
  ti_finish_reason : option string;
  ti_latency_ms : option Z;
  ti_event_seq_start : option Z;
  ti_event_seq_end : option Z;
  ti_event_count : Z;
  ti_pending_approval_count : Z;
  ti_raw_chunk_count : Z;
  ti_tool_calls : list TurnToolCallSummary;
}.

(** ** Sessions and branches ([branches.rs], [types.rs]) *)

Definition default_settings_revision_id : Z := 1.

Inductive SessionStatus : Type :=
  | StatusActive | StatusCompleted | StatusFailed | StatusAbandoned.
#[export] Instance SessionStatus_eq_dec : EqDecision SessionStatus.
Proof. solve_decision. Defined.

Inductive SessionToolMode : Type := Standard | Extended.
#[export] Instance SessionToolMode_eq_dec : EqDecision SessionToolMode.
Proof. solve_decision. Defined.

Record SessionRecord : Type := MkSessionRecord {
  se_session_id : SessionId;
  se_project_root : string;
  se_connection_id : ConnectionId;
  se_model_id : option string;
  se_tool_mode : SessionToolMode;
  se_settings_revision_id : Z;
  se_created_at : OffsetDateTime;
  se_updated_at : OffsetDateTime;
  se_status : SessionStatus;
  se_display_name : option string;
  se_objective : option string;
  se_parent_session_id : option SessionId;
  se_parent_branch_id : option BranchId;
  se_parent_turn_id : option TurnId;
}.

Record BranchRecord : Type := MkBranchRecord {
  br_branch_id : BranchId;
  br_session_id : SessionId;
  br_parent_branch_id : option BranchId;
  br_parent_event_id : option EventId;
  br_head_event_id : option EventId;
  br_summary : option string;
  br_created_at : OffsetDateTime;
  br_is_default : bool;
}.

(** ** Related-session messages ([related_sessions.rs]) *)

Definition MAX_RELATED_SESSION_DEPTH : nat := 4.
Definition MAX_RELATED_SESSION_DESCENDANTS : nat := 8.

Inductive RelatedSessionMessageKind : Type :=
  | KInstruction | KQuestion | KAnswer | KProgress | KResult | KError.
Inductive RelatedSessionDeliveryMode : Type := Notify | Wake.
Inductive RelatedSessionMessageDirection : Type := Sent | Received.
Inductive RelatedSessionMessageStatus : Type := Delivered | Pending | Claimed | Dropped.

#[export] Instance RelatedSessionMessageKind_eq_dec : EqDecision RelatedSessionMessageKind.
Proof. solve_decision. Defined.
#[export] Instance RelatedSessionDeliveryMode_eq_dec : EqDecision RelatedSessionDeliveryMode.
Proof. solve_decision. Defined.
#[export] Instance RelatedSessionMessageDirection_eq_dec :
  EqDecision RelatedSessionMessageDirection.
Proof. solve_decision. Defined.
#[export] Instance RelatedSessionMessageDirection_countable :
  Countable RelatedSessionMessageDirection.
Proof.
  refine (inj_countable' (fun d => match d with Sent => true | Received => false end)
    (fun b : bool => if b then Sent else Received) _); by intros [].
Defined.
#[export] Instance RelatedSessionMessageStatus_eq_dec :
  EqDecision RelatedSessionMessageStatus.
Proof. solve_decision. Defined.

Record RelatedSessionMessage : Type := MkRelatedSessionMessage {
  rm_message_id : RelatedSessionMessageId;
  rm_context_message_id : MessageId;
  rm_source_session_id : SessionId;
  rm_source_branch_id : BranchId;
  rm_caused_by_turn_id : option TurnId;
  rm_destination_session_id : SessionId;
  rm_destination_branch_id : BranchId;
  rm_kind : RelatedSessionMessageKind;
  rm_delivery_mode : RelatedSessionDeliveryMode;
  rm_in_reply_to : option RelatedSessionMessageId;
  rm_text : string;
  rm_artifact_refs : list ArtifactRef;
  rm_created_at : OffsetDateTime;
}.
#[export] Instance RelatedSessionMessage_eq_dec : EqDecision RelatedSessionMessage.
Proof. unfold OffsetDateTime. solve_decision. Defined.

(** ** Events ([events.rs]) *)

Inductive SpanKind : Type := SpanSession | SpanAgent | SpanLlm | SpanTool | SpanChain.
#[export] Instance SpanKind_eq_dec : EqDecision SpanKind.
Proof. solve_decision. Defined.

Inductive QueuedMessageResolutionOutcome : Type := QueueDispatched | QueueDropped.
Inductive SteerResolutionOutcome : Type := SteerApplied | SteerDropped.
Inductive TurnStartSource : Type :=
  | UserMessage | ApprovalResume | InputResume | SteerFollowUp | QueuedFollowUp
  | RelatedSessionMessageStart.
#[export] Instance TurnStartSource_eq_dec : EqDecision TurnStartSource.
Proof. solve_decision. Defined.

Record ContextCompactedPayload : Type := MkContextCompactedPayload {
  cc_compaction_id : CompactionId;
  cc_window_number : option Z;
  cc_previous_compaction_id : option CompactionId;
  cc_first_compaction_id : option CompactionId;
  cc_trigger : ContextCompactionTrigger;
  cc_phase : ContextCompactionPhase;
  cc_status : ContextCompactionStatus;
  cc_reason : option string;
  cc_provider : option string;
  cc_model : option string;
  cc_context_boundary_seq_id : option Z;
  cc_summary_message_id : option MessageId;
  cc_first_kept_message_id : option MessageId;
  cc_first_kept_branch_id : option BranchId;
  cc_first_kept_seq_id : option Z;
  cc_latency_ms : option Z;
  cc_summary : string;
  cc_messages_before : Z;
  cc_messages_after : Z;
  cc_tokens_before : Z;
  cc_tokens_after : Z;
  cc_files_read : list string;
  cc_files_modified : list string;
}.

Inductive EventPayload : Type :=
  | SessionStarted (project_root connection_id : string)
  | SessionSpawnRequested (child_session_id : SessionId) (objective connection_id : string)
      (model_id : option string)
  | SessionSpawned (child_session_id : SessionId) (child_branch_id : BranchId)
      (objective : string)
  | SessionHandoffRecorded (parent_session_id : SessionId) (parent_branch_id : BranchId)
      (parent_turn_id : option TurnId) (objective summary : string)
  | SessionResultImported (child_session_id : SessionId) (status summary : string)
  | SessionResultRejected (child_session_id : SessionId) (reason : string)
  | RelatedSessionMessageRecorded (direction : RelatedSessionMessageDirection)
      (counterpart_event_id : EventId) (message : RelatedSessionMessage)
  | RelatedSessionMessageResolved (message_id : RelatedSessionMessageId)
      (status : RelatedSessionMessageStatus) (resulting_turn_id : option TurnId)
      (reason : option string)
  | RelatedSessionMessageSettled (message_id reply_message_id : RelatedSessionMessageId)
      (reply_kind : RelatedSessionMessageKind) (settling_turn_id : TurnId)
  | SessionSettingsUpdated (settings_revision_id : Z) (connection_id : string)
      (model_id : option string) (tool_mode : string)
  | SessionEnded (reason : string)
  | BranchCreated (parent_branch_id : option BranchId) (parent_event_id : option EventId)
  | BranchActivated (branch_id : BranchId)
  | BranchSummarized (branch_id : BranchId) (summary : string)
      (files_read files_modified : list string)
  | MessageAppended (message : Message)
  | TurnStarted (turn_id : TurnId) (provider model : string) (message_count : Z)
      (settings_revision_id : Z) (source : TurnStartSource)
      (resumed_from_call_id : option ToolCallId)
  | TurnInstructionProvenanceRecorded (provenance : TurnInstructionProvenance)
  | TurnContextManifestRecorded (manifest : ContextManifest)
  | CompletionRequested (llm_call_ordinal : Z) (provider model : string) (message_count : Z)
  | CompletionChunkEvent (llm_call_ordinal : option Z) (deltas : list CompletionDelta)
      (raw_chunk_index : option Z)
  | CompletionFinished (llm_call_ordinal : Z) (provider model : string)
      (usage : TokenUsage) (cost : option CostBreakdown) (finish_reason : string)
      (latency_ms : Z)
  | SessionError (class : ErrorClass) (code message : string) (retryable : bool)
  | TurnFinished (turn_id : TurnId) (provider model status : string)
      (finish_reason : option string) (latency_ms : Z)
  | ToolCallRequested (call_id : ToolCallId) (tool_name : string) (arguments : Value)
  | ToolOperationRecorded (call_id : ToolCallId) (tool_name : string)
      (operation : ToolOperationContext)
  | ToolApprovalRequested (call_id : ToolCallId) (tool_name : string)
      (snapshot : option ApprovalRequestSnapshot)
  | ToolApprovalResolved (call_id : ToolCallId) (tool_name : string)
      (request_fingerprint : option string) (resolution : option ApprovalResolution)
      (decision : ApprovalDecision)
  | ToolExecutionFinished (call_id : ToolCallId) (tool_name : string)
      (result : ToolResultEnvelope)
  | PlanUpdated (items : list PlanItem)
  | BudgetConfigured (budget : BudgetConfig)
  | ContextCompacted (compaction : ContextCompactedPayload)
  | BudgetCheckpoint (tokens_used turns_used elapsed_seconds : Z)
      (cost_used_usd : option f64)
  | SessionQueuedMessageEnqueued (message : Message) (settings_revision_id : Z)
  | SessionQueuedMessageResolved (queue_event_id : EventId)
      (outcome : QueuedMessageResolutionOutcome) (reason : option string)
  | SessionCancelled (reason : string)
  | SessionCancelCleared (reason : string)
  | SessionSteered (message : string) (settings_revision_id : Z)
  | SessionSteersResolved (steer_event_ids : list EventId)
      (outcome : SteerResolutionOutcome) (combined_message reason : option string)
  | OperatorCommandRecorded (command_type raw_input output : string) (success : bool)
  | RawChunkPersisted (provider : string) (chunk_index : Z) (stream : string)
      (llm_call_ordinal : option Z).

(** [EventPayload::kind] *)
Definition kind (p : EventPayload) : string :=
  match p with
  | SessionStarted _ _ => "session.started"
  | SessionSpawnRequested _ _ _ _ => "session.spawn.requested"
  | SessionSpawned _ _ _ => "session.spawned"
  | SessionHandoffRecorded _ _ _ _ _ => "session.handoff.recorded"
  | SessionResultImported _ _ _ => "session.result.imported"
  | SessionResultRejected _ _ => "session.result.rejected"
  | RelatedSessionMessageRecorded _ _ _ => "session.related_message.recorded"
  | RelatedSessionMessageResolved _ _ _ _ => "session.related_message.resolved"
  | RelatedSessionMessageSettled _ _ _ _ => "session.related_message.settled"
  | SessionSettingsUpdated _ _ _ _ => "session.settings.updated"
  | SessionEnded _ => "session.ended"
  | BranchCreated _ _ => "branch.created"
  | BranchActivated _ => "branch.activated"
  | BranchSummarized _ _ _ _ => "branch.summarized"
  | MessageAppended _ => "message.appended"
  | TurnStarted _ _ _ _ _ _ _ => "turn.started"
  | TurnInstructionProvenanceRecorded _ => "turn.instructions.recorded"
  | TurnContextManifestRecorded _ => "turn.context_manifest.recorded"
  | CompletionRequested _ _ _ _ => "completion.requested"
  | CompletionChunkEvent _ _ _ => "completion.chunk"
  | CompletionFinished _ _ _ _ _ _ _ => "completion.finished"
  | SessionError _ _ _ _ => "session.error"
  | TurnFinished _ _ _ _ _ _ => "turn.finished"
  | ToolCallRequested _ _ _ => "tool.call.requested"
  | ToolOperationRecorded _ _ _ => "tool.operation.recorded"
  | ToolApprovalRequested _ _ _ => "tool.approval.requested"
  | ToolApprovalResolved _ _ _ _ _ => "tool.approval.resolved"
  | ToolExecutionFinished _ _ _ => "tool.execution.finished"
  | PlanUpdated _ => "plan.updated"
  | BudgetConfigured _ => "budget.configured"
  | ContextCompacted _ => "context.compacted"
  | BudgetCheckpoint _ _ _ _ => "budget.checkpoint"
  | SessionQueuedMessageEnqueued _ _ => "session.queued_message.enqueued"
  | SessionQueuedMessageResolved _ _ _ => "session.queued_message.resolved"
  | SessionCancelled _ => "session.cancelled"
  | SessionCancelCleared _ => "session.cancel.cleared"
  | SessionSteered _ _ => "session.steered"
  | SessionSteersResolved _ _ _ _ => "session.steers.resolved"
  | OperatorCommandRecorded _ _ _ _ => "operator.command.recorded"
  | RawChunkPersisted _ _ _ _ => "raw_chunk.persisted"
  end.

Record EventEnvelope : Type := MkEventEnvelope {
  ev_seq_id : option Z;
  ev_event_id : EventId;
  ev_session_id : SessionId;
  ev_branch_id : BranchId;
  ev_turn_id : option TurnId;
  ev_span_id : SpanId;
  ev_parent_span_id : option SpanId;
  ev_span_kind : SpanKind;
  ev_occurred_at : OffsetDateTime;
  ev_payload : EventPayload;
  ev_attributes : gmap string Value;
}.

(** [EventEnvelope::new]: the generated identifiers and the clock are
    arguments. *)
Definition new_envelope (event_id : EventId) (span_id : SpanId) (now : OffsetDateTime)
    (session_id : SessionId) (branch_id : BranchId) (span_kind : SpanKind)
    (payload : EventPayload) : EventEnvelope :=
  {| ev_seq_id := None;
     ev_event_id := event_id;
     ev_session_id := session_id;
     ev_branch_id := branch_id;
     ev_turn_id := None;
     ev_span_id := span_id;
     ev_parent_span_id := None;
     ev_span_kind := span_kind;
     ev_occurred_at := now;
     ev_payload := payload;
     ev_attributes := ∅ |}.

(** [EventEnvelope::with_attribute] *)
Definition with_attribute (e : EventEnvelope) (key : string) (value : Value) : EventEnvelope :=
  {| ev_seq_id := ev_seq_id e;
     ev_event_id := ev_event_id e;
     ev_session_id := ev_session_id e;
     ev_branch_id := ev_branch_id e;
     ev_turn_id := ev_turn_id e;
     ev_span_id := ev_span_id e;
     ev_parent_span_id := ev_parent_span_id e;
     ev_span_kind := ev_span_kind e;
     ev_occurred_at := ev_occurred_at e;
     ev_payload := ev_payload e;
     ev_attributes := <[key := value]> (ev_attributes e) |}.

(** [EventEnvelope::with_turn_id]; [render_uuid] is [Uuid]'s display. *)
Definition with_turn_id (render_uuid : N -> string) (e : EventEnvelope) (turn_id : TurnId)
    : EventEnvelope :=
  with_attribute
    {| ev_seq_id := ev_seq_id e;
       ev_event_id := ev_event_id e;
       ev_session_id := ev_session_id e;
       ev_branch_id := ev_branch_id e;
       ev_turn_id := Some turn_id;
       ev_span_id := ev_span_id e;
       ev_parent_span_id := ev_parent_span_id e;
       ev_span_kind := ev_span_kind e;
       ev_occurred_at := ev_occurred_at e;
       ev_payload := ev_payload e;
       ev_attributes := ev_attributes e |}
    "turn.id" (VString (render_uuid (uuid turn_id))).
