(* ===== verification/Messages.v ===== *)
(** * Messages ([crates/bt-core/src/messages.rs])

    A message is a list of parts.  Streamed parts are pushed one at a time
    and adjacent parts of the same kind are merged, so that a message does
    not depend on how the provider cut its stream.  [coalesce_with] returns
    the merged part instead of mutating [self] and returning a flag. *)

From stdpp Require Import base list strings.
From Stdlib Require Import ZArith Lia.
From S2P Require Import Prelude Text Json Types.

#[local] Arguments String.append !_ _ / : simpl nomatch.

(** ** Operations *)

(** [MessagePart::visible_text] *)
Definition visible_text (p : MessagePart) : option string :=
  match p with
  | PText text => Some text
  | PRefusal (Some text) _ _ => Some text
  | _ => None
  end.

(** [MessagePart::can_coalesce_with] *)
Definition can_coalesce_with (self next : MessagePart) : bool :=
  match self, next with
  | PText _, PText _ => true
  | PReasoning _ left_redacted None, PReasoning _ right_redacted None =>
      Bool.eqb left_redacted right_redacted
  | _, _ => false
  end.

(** [MessagePart::coalesce_with] *)
Definition coalesce_with (self next : MessagePart) : option MessagePart :=
  if negb (can_coalesce_with self next) then None
  else match self, next with
       | PText text, PText next_text => Some (PText (text +:+ next_text))
       | PReasoning text redacted None, PReasoning next_text _ None =>
           Some (PReasoning
             match text, next_text with
             | Some current, Some next => Some (current +:+ next)
             | None, Some next => Some next
             | _, _ => text
             end redacted None)
       | _, _ => None
       end.

(** [push_message_part] *)
Fixpoint push_message_part (parts : list MessagePart) (part : MessagePart)
    : list MessagePart :=
  match parts with
  | [] => [part]
  | [current] =>
      match coalesce_with current part with
      | Some merged => [merged]
      | None => [current; part]
      end
  | p :: parts' => p :: push_message_part parts' part
  end.

(** [extend_message_parts] *)
Definition extend_message_parts (parts new_parts : list MessagePart) : list MessagePart :=
  fold_left push_message_part new_parts parts.

(** [Message::new], [Message::text], [Message::from_part]: the generated id
    and the clock are arguments. *)
Definition message_new (id : MessageId) (now : OffsetDateTime) (role : Role)
    (parts : list MessagePart) : Message :=
  {| msg_message_id := id;
     msg_role := role;
     msg_parts := extend_message_parts [] parts;
     msg_created_at := now |}.

Definition message_text id now role (text : string) : Message :=
  message_new id now role [PText text].

Definition message_from_part id now role (part : MessagePart) : Message :=
  message_new id now role [part].

(** [Message::push_part] *)
Definition push_part (m : Message) (part : MessagePart) : Message :=
  {| msg_message_id := msg_message_id m;
     msg_role := msg_role m;
     msg_parts := push_message_part (msg_parts m) part;
     msg_created_at := msg_created_at m |}.

(** [Message::tool_call], [Message::tool_result], [Message::text_parts] *)
Definition tool_call (m : Message) : option ToolCall :=
  find_map (fun p => match p with PToolCall call => Some call | _ => None end) (msg_parts m).

Definition tool_result (m : Message) : option ToolResultEnvelope :=
  find_map (fun p => match p with PToolResult r => Some r | _ => None end) (msg_parts m).

Definition text_parts (m : Message) : list string := omap visible_text (msg_parts m).

Section rendering.
(** [Value]'s [Display]. *)
Context (render_value : Value -> string).

(** [render_message_part_for_queue] *)
Definition render_message_part_for_queue (part : MessagePart) : string :=
  match part with
  | PText text => text
  | PReasoning text redacted _ =>
      if redacted then "[reasoning omitted]" else default "[reasoning]" text
  | PToolCall call =>
      "[tool call] " +:+ tc_tool_name call +:+ " " +:+ render_value (tc_arguments call)
  | PToolResult r => "[tool result] " +:+ tr_tool_name r
  | PRefusal text _ _ => default "[refusal]" text
  | PStructured schema_name value =>
      "[" +:+ default "structured" schema_name +:+ "] " +:+ render_value value
  end.

(** [render_queue_message_input] *)
Definition render_queue_message_input (m : Message) : string :=
  let rendered := join nl (List.map render_message_part_for_queue (msg_parts m)) in
  if is_empty rendered then "<empty message>" else rendered.
End rendering.

(** ** What a list of parts says, whatever its segmentation *)

(** The maximal runs of coalescible parts are single parts. *)
Fixpoint coalesced (parts : list MessagePart) : Prop :=
  match parts with
  | p :: ((q :: _) as rest) => can_coalesce_with p q = false /\ coalesced rest
  | _ => True
  end.

Definition text_of (p : MessagePart) : string :=
  match p with PText t => t | _ => "" end.
Definition reasoning_of (p : MessagePart) : string :=
  match p with PReasoning (Some t) _ _ => t | _ => "" end.

Definition all_text (parts : list MessagePart) : string :=
  concat_str (List.map text_of parts).
Definition all_reasoning (parts : list MessagePart) : string :=
  concat_str (List.map reasoning_of parts).

(** Parts that never merge: tool calls and results, refusals, structured
    output and opaque reasoning. *)
Definition is_atomic (p : MessagePart) : bool :=
  match p with
  | PText _ | PReasoning _ _ None => false
  | _ => true
  end.

(** ** Lemmas *)

Lemma coalesce_with_None p q : coalesce_with p q = None <-> can_coalesce_with p q = false.
Proof.
  unfold coalesce_with. destruct (can_coalesce_with p q) eqn:H; simpl; [|done].
  destruct p as [|? ? []| | | |], q as [|? ? []| | | |]; done.
Qed.

(** A merged part coalesces with exactly what its first part did. *)
Lemma coalesce_with_class p q r s :
  coalesce_with p q = Some r -> can_coalesce_with s r = can_coalesce_with s p.
Proof.
  unfold coalesce_with. destruct (can_coalesce_with p q) eqn:H; [|done]; simpl.
  destruct p as [|? ? []| | | |], q as [|? ? []| | | |]; intros [= <-];
    destruct s as [|? ? []| | | |]; done.
Qed.

Lemma coalesce_with_texts p q r :
  coalesce_with p q = Some r ->
  text_of r = text_of p +:+ text_of q /\ reasoning_of r = reasoning_of p +:+ reasoning_of q
  /\ is_atomic p = false /\ is_atomic q = false /\ is_atomic r = false.
Proof.
  unfold coalesce_with. destruct (can_coalesce_with p q) eqn:H; [|done]; simpl.
  destruct p as [|[] ? []| | | |], q as [|[] ? []| | | |]; intros [= <-]; simpl in *;
    by rewrite ?append_nil_r.
Qed.

(** Pushing to a list with a last part touches that part only. *)
Lemma push_message_part_snoc ps p q :
  push_message_part (ps ++ [p]) q =
  ps ++ match coalesce_with p q with Some r => [r] | None => [p; q] end.
Proof.
  induction ps as [|a ps IH]; simpl; [done|].
  destruct (ps ++ [p]) as [|b l] eqn:E; [by destruct ps|]. by rewrite <- IH, <- E.
Qed.

Lemma coalesced_snoc ps p :
  coalesced (ps ++ [p]) <->
  coalesced ps /\ (forall q, last ps = Some q -> can_coalesce_with q p = false).
Proof.
  induction ps as [|a ps IH]; simpl; [by split; [split|]|].
  destruct ps as [|b ps]; simpl in *.
  - split; [intros [? _]; split; [done|]; by intros q [= <-]|]. intros [_ H]; split; auto.
  - rewrite IH. split; intros H; [destruct H as (H1 & H2 & H3)|destruct H as ((H1 & H2) & H3)];
      done.
Qed.

Lemma coalesced_push ps q : coalesced ps -> coalesced (push_message_part ps q).
Proof.
  destruct (decide (ps = [])) as [->|Hne]; [done|].
  destruct (exists_last Hne) as (ps' & p & ->). rewrite push_message_part_snoc.
  destruct (coalesce_with p q) as [r|] eqn:E.
  - rewrite !coalesced_snoc. intros [H1 H2]; split; [done|]. intros s Hs.
    rewrite (coalesce_with_class _ _ _ _ E). by apply H2.
  - intros H. change [p; q] with ([p] ++ [q]). rewrite app_assoc, coalesced_snoc.
    split; [done|]. rewrite last_snoc. intros s [= <-]. by apply coalesce_with_None.
Qed.

Lemma coalesced_extend ps qs : coalesced ps -> coalesced (extend_message_parts ps qs).
Proof.
  unfold extend_message_parts. revert ps; induction qs as [|q qs IH]; simpl; intros ps H; [done|].
  by apply IH, coalesced_push.
Qed.

Lemma concat_map_snoc {A} (f : A -> string) ps p :
  concat_str (List.map f (ps ++ [p])) = concat_str (List.map f ps) +:+ f p.
Proof. rewrite map_app, concat_str_app. simpl. by rewrite append_nil_r. Qed.

Lemma push_preserves ps q :
  all_text (push_message_part ps q) = all_text ps +:+ text_of q
  /\ all_reasoning (push_message_part ps q) = all_reasoning ps +:+ reasoning_of q
  /\ List.filter is_atomic (push_message_part ps q)
     = List.filter is_atomic ps ++ List.filter is_atomic [q].
Proof.
  unfold all_text, all_reasoning.
  destruct (decide (ps = [])) as [->|Hne]; simpl.
  { by rewrite !append_nil_r. }
  destruct (exists_last Hne) as (ps' & p & ->). rewrite push_message_part_snoc.
  destruct (coalesce_with p q) as [r|] eqn:E.
  - destruct (coalesce_with_texts _ _ _ E) as (Ht & Hr & Ap & Aq & Ar).
    rewrite !concat_map_snoc, Ht, Hr, !append_assoc.
    rewrite !List.filter_app. simpl. rewrite Ap, Aq, Ar. by rewrite !app_nil_r.
  - change [p; q] with ([p] ++ [q]). rewrite app_assoc, !concat_map_snoc.
    by rewrite (List.filter_app _ (ps' ++ [p]) [q]).
Qed.

Lemma extend_preserves ps qs :
  all_text (extend_message_parts ps qs) = all_text ps +:+ all_text qs
  /\ all_reasoning (extend_message_parts ps qs) = all_reasoning ps +:+ all_reasoning qs
  /\ List.filter is_atomic (extend_message_parts ps qs)
     = List.filter is_atomic ps ++ List.filter is_atomic qs.
Proof.
  unfold extend_message_parts. revert ps; induction qs as [|q qs IH]; simpl; intros ps.
  { unfold all_text, all_reasoning; simpl. by rewrite !append_nil_r, app_nil_r. }
  destruct (IH (push_message_part ps q)) as (H1 & H2 & H3).
  destruct (push_preserves ps q) as (K1 & K2 & K3).
  rewrite H1, H2, H3, K1, K2, K3. unfold all_text, all_reasoning; simpl.
  rewrite !append_assoc, <- app_assoc. simpl. by destruct (is_atomic q).
Qed.

Lemma push_text_text ps a b :
  push_message_part (push_message_part ps (PText a)) (PText b)
  = push_message_part ps (PText (a +:+ b)).
Proof.
  destruct (decide (ps = [])) as [->|Hne]; [done|].
  destruct (exists_last Hne) as (ps' & p & ->). rewrite !push_message_part_snoc.
  destruct p as [t|? ? []| | | |]; cbn -[String.append];
    try (change [?x; PText a] with ([x] ++ [PText a]);
         rewrite app_assoc, push_message_part_snoc; cbn -[String.append];
         by rewrite <- app_assoc).
  rewrite push_message_part_snoc. cbn -[String.append]. by rewrite append_assoc.
Qed.

(** A list that is already coalesced is pushed unchanged. *)
Lemma extend_coalesced ps qs :
  coalesced (ps ++ qs) -> extend_message_parts ps qs = ps ++ qs.
Proof.
  unfold extend_message_parts. revert ps; induction qs as [|q qs IH]; simpl; intros ps H.
  { by rewrite app_nil_r. }
  assert (push_message_part ps q = ps ++ [q]) as ->; [|].
  - destruct (decide (ps = [])) as [->|Hne]; [done|].
    destruct (exists_last Hne) as (ps' & p & ->). rewrite push_message_part_snoc.
    assert (can_coalesce_with p q = false) as Hpq.
    { clear -H. rewrite <- app_assoc in H. simpl in H.
      induction ps' as [|a ps' IH]; simpl in *; [by destruct H|].
      apply IH. destruct (ps' ++ p :: q :: qs); [done|by destruct H]. }
    apply coalesce_with_None in Hpq. rewrite Hpq, <- app_assoc. done.
  - rewrite IH; rewrite <- app_assoc; done.
Qed.
