(* ===== verification/AgentStream.v ===== *)
(** * Collecting a streamed completion ([crates/bt-agent/src/lib.rs])

    A provider streams chunks of deltas.  Text, reasoning and refusals
    become message parts; a tool call is opened, receives argument fragments
    and is closed, several calls being open at once.  This file holds the
    accumulators and the pure fold of one chunk into the response; the
    driver that reads the stream, with its observers and cancellation, is in
    [AgentTurn]. *)

From stdpp Require Import base list strings.
From Stdlib Require Import ZArith Lia.
From S2P Require Import Prelude Text Json Types Messages.

#[local] Open Scope Z_scope.

(** ** Tool-call accumulators *)

Record CompletedToolCall : Type := MkCompletedToolCall {
  done_call_id : string;
  done_tool_name : string;
  done_arguments : Value;
}.

Record StreamingToolCallAccumulator : Type := MkAccumulator {
  acc_call_id : string;
  acc_tool_name : string;
  acc_initial_arguments : option Value;
  acc_partial_json : string;
}.

Definition has_call_id (call_id : string) (a : StreamingToolCallAccumulator) : bool :=
  String.eqb (acc_call_id a) call_id.

(** [if let Some(x) = v.iter_mut().find(p) { f(x) }]: the updated vector, or
    nothing when no element satisfies [p]. *)
Fixpoint update_first {A} (p : A -> bool) (f : A -> A) (l : list A) : option (list A) :=
  match l with
  | [] => None
  | a :: l' => if p a then Some (f a :: l') else cons a <$> update_first p f l'
  end.

(** [open_tool_call] *)
Definition open_tool_call (open_tool_calls : list StreamingToolCallAccumulator)
    (call_id tool_name : string) (arguments : option Value)
    : list StreamingToolCallAccumulator :=
  let reopen a :=
    {| acc_call_id := acc_call_id a;
       acc_tool_name := tool_name;
       acc_initial_arguments :=
         match arguments with Some _ => arguments | None => acc_initial_arguments a end;
       acc_partial_json := acc_partial_json a |} in
  match update_first (has_call_id call_id) reopen open_tool_calls with
  | Some updated => updated
  | None => open_tool_calls ++
      [{| acc_call_id := call_id;
          acc_tool_name := tool_name;
          acc_initial_arguments := arguments;
          acc_partial_json := "" |}]
  end.

(** [append_tool_call_arguments] *)
Definition append_tool_call_arguments (open_tool_calls : list StreamingToolCallAccumulator)
    (call_id partial_json : string) : Result (list StreamingToolCallAccumulator) :=
  let push a :=
    {| acc_call_id := acc_call_id a;
       acc_tool_name := acc_tool_name a;
       acc_initial_arguments := acc_initial_arguments a;
       acc_partial_json := acc_partial_json a +:+ partial_json |} in
  ok_or (InvalidState ("tool call `" +:+ call_id +:+ "` received arguments before open"))
    (update_first (has_call_id call_id) push open_tool_calls).

Section collect.
(** [serde_json::from_str] *)
Context (from_str : string -> option Value).

(** [finalize_tool_call] *)
Definition finalize_tool_call (a : StreamingToolCallAccumulator)
    : Result CompletedToolCall :=
  _ ← reject_if (is_blank (acc_call_id a)) (InvalidState "tool call missing `id`");
  _ ← reject_if (is_blank (acc_tool_name a)) (InvalidState "tool call missing `name`");
  let arguments :=
    if negb (is_blank (acc_partial_json a))
    then default (VString (acc_partial_json a)) (from_str (acc_partial_json a))
    else default (VObject []) (acc_initial_arguments a) in
  Ok {| done_call_id := acc_call_id a;
        done_tool_name := acc_tool_name a;
        done_arguments := arguments |}.

(** [close_tool_call]: the call and the calls still open. *)
Definition close_tool_call (open_tool_calls : list StreamingToolCallAccumulator)
    (call_id : string)
    : Result (CompletedToolCall * list StreamingToolCallAccumulator) :=
  match position (has_call_id call_id) open_tool_calls with
  | None => Err (InvalidState ("tool call `" +:+ call_id +:+ "` closed before open"))
  | Some index =>
      accumulator ← ok_or (InvalidState "") (open_tool_calls !! index);
      completed ← finalize_tool_call accumulator;
      Ok (completed, delete index open_tool_calls)
  end.

(** [finish_open_tool_calls] *)
Definition finish_open_tool_calls (open_tool_calls : list StreamingToolCallAccumulator)
    : Result (list CompletedToolCall) :=
  try_map finalize_tool_call open_tool_calls.

(** ** The fold of [collect_response] *)

Record CollectState : Type := MkCollectState {
  co_assistant_parts : list MessagePart;
  co_tool_calls : list CompletedToolCall;
  co_open_tool_calls : list StreamingToolCallAccumulator;
  co_chunks : list CompletionChunk;
  co_usage : option TokenUsage;
}.

Definition collect_start : CollectState := MkCollectState [] [] [] [] None.

Definition set_parts (st : CollectState) (parts : list MessagePart) : CollectState :=
  MkCollectState parts (co_tool_calls st) (co_open_tool_calls st) (co_chunks st) (co_usage st).
Definition set_open (st : CollectState) (open : list StreamingToolCallAccumulator)
    : CollectState :=
  MkCollectState (co_assistant_parts st) (co_tool_calls st) open (co_chunks st) (co_usage st).

Definition apply_delta (st : CollectState) (delta : CompletionDelta) : Result CollectState :=
  match delta with
  | AppendText text =>
      Ok (set_parts st (push_message_part (co_assistant_parts st) (PText text)))
  | AppendReasoning text redacted opaque_replay =>
      Ok (set_parts st (push_message_part (co_assistant_parts st)
            (PReasoning text redacted opaque_replay)))
  | AppendRefusal text provider_reason opaque_metadata =>
      Ok (set_parts st (push_message_part (co_assistant_parts st)
            (PRefusal text provider_reason opaque_metadata)))
  | SetStructuredOutput schema_name value =>
      Ok (set_parts st (co_assistant_parts st ++ [PStructured schema_name value]))
  | OpenToolCall call_id tool_name arguments =>
      Ok (set_open st (open_tool_call (co_open_tool_calls st) call_id tool_name arguments))
  | AppendToolCallArguments call_id partial_json =>
      open ← append_tool_call_arguments (co_open_tool_calls st) call_id partial_json;
      Ok (set_open st open)
  | CloseToolCall call_id =>
      closed ← close_tool_call (co_open_tool_calls st) call_id;
      Ok (MkCollectState (co_assistant_parts st) (co_tool_calls st ++ [closed.1]) closed.2
            (co_chunks st) (co_usage st))
  end.

Fixpoint apply_deltas (st : CollectState) (deltas : list CompletionDelta)
    : Result CollectState :=
  match deltas with
  | [] => Ok st
  | d :: ds => st' ← apply_delta st d; apply_deltas st' ds
  end.

(** [chunk.llm_call_ordinal = Some(llm_call_ordinal)] *)
Definition stamp_chunk (llm_call_ordinal : Z) (chunk : CompletionChunk) : CompletionChunk :=
  MkCompletionChunk (Some llm_call_ordinal) (ck_deltas chunk) (ck_usage chunk) (ck_raw chunk).

(** The body of the stream loop after [on_chunk]: the stamped chunk is
    recorded, its usage replaces the last one, its deltas are folded in. *)
Definition collect_chunk (st : CollectState) (chunk : CompletionChunk) : Result CollectState :=
  apply_deltas
    (MkCollectState (co_assistant_parts st) (co_tool_calls st) (co_open_tool_calls st)
       (co_chunks st ++ [chunk])
       match ck_usage chunk with Some u => Some u | None => co_usage st end)
    (ck_deltas chunk).

Record CollectedResponse : Type := MkCollectedResponse {
  rs_assistant_parts : list MessagePart;
  rs_tool_calls : list CompletedToolCall;
  rs_chunks : list CompletionChunk;
  rs_usage : option TokenUsage;
  rs_finish_reason : FinishReason;
}.

(** The end of [collect_response]. *)
Definition collect_finish (st : CollectState) : Result CollectedResponse :=
  remaining ← finish_open_tool_calls (co_open_tool_calls st);
  let tool_calls := co_tool_calls st ++ remaining in
  Ok {| rs_assistant_parts := co_assistant_parts st;
        rs_tool_calls := tool_calls;
        rs_chunks := co_chunks st;
        rs_usage := co_usage st;
        rs_finish_reason := match tool_calls with [] => FrStop | _ => FrToolUse end |}.

(** [collect_response] on a stream of chunks that all arrive, without the
    observer: the reference for the driver of [AgentTurn]. *)
Fixpoint collect_chunks (st : CollectState) (chunks : list CompletionChunk)
    : Result CollectState :=
  match chunks with
  | [] => Ok st
  | c :: cs => st' ← collect_chunk st c; collect_chunks st' cs
  end.

Definition collect_all (llm_call_ordinal : Z) (chunks : list CompletionChunk)
    : Result CollectedResponse :=
  st ← collect_chunks collect_start (List.map (stamp_chunk llm_call_ordinal) chunks);
  collect_finish st.

(** ** Invariant of the collector

    Call ids of the open calls are distinct, and the parts are coalesced. *)

Definition open_ids (open : list StreamingToolCallAccumulator) : list string :=
  List.map acc_call_id open.

Record collect_wf (st : CollectState) : Prop := {
  wf_open_ids : NoDup (open_ids (co_open_tool_calls st));
  wf_parts : coalesced (co_assistant_parts st);
}.

(** *** Lemmas on the accumulators *)

Lemma update_first_ids cid f open open' :
  (forall a, acc_call_id (f a) = acc_call_id a) ->
  update_first (has_call_id cid) f open = Some open' ->
  open_ids open' = open_ids open.
Proof.
  intros Hf. revert open'; induction open as [|a open IH]; simpl; intros open' H; [done|].
  destruct (has_call_id cid a).
  - injection H as <-. simpl. by rewrite Hf.
  - apply fmap_Some in H as (o & Ho & ->). simpl. f_equal. by apply IH.
Qed.

Lemma update_first_None cid f open :
  update_first (has_call_id cid) f open = None <-> ~ cid ∈ open_ids open.
Proof.
  induction open as [|a open IH]; simpl.
  { split; [intros _ H; by apply elem_of_nil in H|done]. }
  unfold has_call_id at 1. rewrite not_elem_of_cons.
  destruct (String.eqb_spec (acc_call_id a) cid) as [<-|Hne].
  - split; [done|intros []; done].
  - rewrite fmap_None, IH. naive_solver.
Qed.

Lemma position_has_call_id cid open :
  position (has_call_id cid) open = None <-> ~ cid ∈ open_ids open.
Proof.
  induction open as [|a open IH]; simpl.
  { split; [intros _ H; by apply elem_of_nil in H|done]. }
  unfold has_call_id at 1. rewrite not_elem_of_cons.
  destruct (String.eqb_spec (acc_call_id a) cid) as [<-|Hne].
  - split; [done|intros []; done].
  - rewrite fmap_None, IH. naive_solver.
Qed.

Lemma open_tool_call_ids open cid name args :
  open_ids (open_tool_call open cid name args) =
  if decide (cid ∈ open_ids open) then open_ids open else open_ids open ++ [cid].
Proof.
  unfold open_tool_call.
  destruct (update_first (has_call_id cid) _ open) as [open'|] eqn:E.
  - assert (open_ids open' = open_ids open) as ->
      by (by eapply update_first_ids; [|exact E]).
    rewrite decide_True; [done|].
    destruct (decide (cid ∈ open_ids open)) as [|Hn]; [done|].
    by rewrite (proj2 (update_first_None _ _ _) Hn) in E.
  - apply update_first_None in E. rewrite decide_False by done.
    unfold open_ids. by rewrite map_app.
Qed.

Lemma open_tool_call_NoDup open cid name args :
  NoDup (open_ids open) -> NoDup (open_ids (open_tool_call open cid name args)).
Proof.
  intros H. rewrite open_tool_call_ids. case_decide; [done|].
  apply NoDup_app; split_and!; [done| |apply NoDup_singleton].
  intros x Hx ->%list_elem_of_singleton. done.
Qed.

Lemma close_tool_call_Ok open cid done rest :
  close_tool_call open cid = Ok (done, rest) ->
  exists i a, open !! i = Some a /\ acc_call_id a = cid
    /\ finalize_tool_call a = Ok done /\ rest = delete i open.
Proof.
  unfold close_tool_call.
  destruct (position (has_call_id cid) open) as [i|] eqn:Hp; [|discriminate].
  apply position_Some in Hp as (a & Ha & Hid & _). rewrite Ha; simpl.
  intros H. invert_result.
  exists i, a. split_and!; try done. by apply String.eqb_eq.
Qed.

Lemma apply_delta_wf st d st' :
  collect_wf st -> apply_delta st d = Ok st' -> collect_wf st'.
Proof.
  intros [Hids Hparts] H. destruct d as [t|t r o|cid tn args|cid pj|cid|t pr om|sn v];
    simpl in H; invert_result; try (split; simpl; [done|by apply coalesced_push]).
  - split; simpl; [|done]. by apply open_tool_call_NoDup.
  - split; simpl; [|done]. unfold append_tool_call_arguments in Hr. invert_result.
    apply update_first_ids in Hr; [|done]. by rewrite Hr.
  - split; simpl; [|done]. destruct r as [c rest].
    apply close_tool_call_Ok in Hr as (i & a & _ & _ & _ & ->). simpl.
    unfold open_ids in *.
    change (NoDup (acc_call_id <$> delete i (co_open_tool_calls st))).
    rewrite list_fmap_delete. by apply NoDup_delete.
  - split; simpl; [done|]. apply coalesced_snoc. split; [done|].
    intros q _. by destruct q as [|? ? []| | | |].
Qed.

Lemma apply_deltas_wf ds st st' :
  collect_wf st -> apply_deltas st ds = Ok st' -> collect_wf st'.
Proof.
  revert st; induction ds as [|d ds IH]; simpl; intros st Hwf H.
  { by injection H as <-. }
  invert_result. eapply IH; [|exact H]. by eapply apply_delta_wf.
Qed.

Lemma collect_chunk_wf st c st' :
  collect_wf st -> collect_chunk st c = Ok st' -> collect_wf st'.
Proof. intros [H1 H2]. apply apply_deltas_wf. by split. Qed.

Lemma collect_start_wf : collect_wf collect_start.
Proof. split; [apply NoDup_nil_2|done]. Qed.

Lemma apply_deltas_chunks ds st st' :
  apply_deltas st ds = Ok st' -> co_chunks st' = co_chunks st /\ co_usage st' = co_usage st.
Proof.
  revert st; induction ds as [|d ds IH]; simpl; intros st H.
  { by injection H as <-. }
  invert_result. apply IH in H as [-> ->].
  destruct d; simpl in Hr; invert_result; done.
Qed.

Lemma collect_chunk_chunks st c st' :
  collect_chunk st c = Ok st' -> co_chunks st' = co_chunks st ++ [c].
Proof. unfold collect_chunk. by intros [-> _]%apply_deltas_chunks. Qed.

Lemma apply_deltas_app ds ds' st :
  apply_deltas st (ds ++ ds') = st' ← apply_deltas st ds; apply_deltas st' ds'.
Proof.
  revert st; induction ds as [|d ds IH]; simpl; intros st; [done|].
  destruct (apply_delta st d) as [st'|e]; simpl; [apply IH|done].
Qed.

(** *** One call, streamed on its own *)

Lemma update_first_last cid f open a :
  acc_call_id a = cid -> ~ cid ∈ open_ids open ->
  update_first (has_call_id cid) f (open ++ [a]) = Some (open ++ [f a]).
Proof.
  intros Ha. induction open as [|b open IH]; simpl; intros Hn.
  { unfold has_call_id. by rewrite Ha, String.eqb_refl. }
  apply not_elem_of_cons in Hn as [Hne Hn]. rewrite IH by done.
  unfold has_call_id. destruct (String.eqb_spec (acc_call_id b) cid); [congruence|done].
Qed.

Lemma append_fragments fragments st open cid name args partial :
  co_open_tool_calls st = open ++ [MkAccumulator cid name args partial] ->
  ~ cid ∈ open_ids open ->
  apply_deltas st (List.map (AppendToolCallArguments cid) fragments) =
  Ok (set_open st (open ++ [MkAccumulator cid name args (partial +:+ concat_str fragments)])).
Proof.
  revert st partial; induction fragments as [|f fs IH]; intros st partial Hopen Hid; simpl.
  { rewrite append_nil_r, <- Hopen. by destruct st. }
  unfold append_tool_call_arguments. rewrite Hopen, update_first_last by done. simpl.
  rewrite (IH _ (partial +:+ f)) by done. by rewrite append_assoc.
Qed.

Lemma close_last open cid name args partial done_call :
  ~ cid ∈ open_ids open ->
  finalize_tool_call (MkAccumulator cid name args partial) = Ok done_call ->
  close_tool_call (open ++ [MkAccumulator cid name args partial]) cid = Ok (done_call, open).
Proof.
  intros Hn Hf. unfold close_tool_call.
  assert (position (has_call_id cid) (open ++ [MkAccumulator cid name args partial])
          = Some (length open)) as ->.
  { clear Hf. induction open as [|b open IH]; simpl.
    { unfold has_call_id; simpl. by rewrite String.eqb_refl. }
    apply not_elem_of_cons in Hn as [Hne Hn]. rewrite IH by done.
    unfold has_call_id. destruct (String.eqb_spec (acc_call_id b) cid); [congruence|done]. }
  rewrite list_lookup_middle by done. simpl. rewrite Hf. simpl.
  by rewrite delete_middle, app_nil_r.
Qed.

Lemma apply_deltas_one ds1 ds2 st :
  apply_deltas st ds1 = apply_deltas st ds2 ->
  forall rest, apply_deltas st (ds1 ++ rest) = apply_deltas st (ds2 ++ rest).
Proof. intros H rest. by rewrite !apply_deltas_app, H. Qed.
End collect.

(** A tool call whose argument text arrives in any number of fragments is
    the call with the concatenated text: opening, filling and closing it adds
    the finalised call, and leaves the calls that were open as they were. *)
Theorem one_call_streamed from_str st cid name args fragments done_call :
  ~ cid ∈ open_ids (co_open_tool_calls st) ->
  finalize_tool_call from_str (MkAccumulator cid name args (concat_str fragments))
    = Ok done_call ->
  apply_deltas from_str st
    (OpenToolCall cid name args :: List.map (AppendToolCallArguments cid) fragments
       ++ [CloseToolCall cid])
  = Ok (MkCollectState (co_assistant_parts st) (co_tool_calls st ++ [done_call])
          (co_open_tool_calls st) (co_chunks st) (co_usage st)).
Proof.
  intros Hn Hf. simpl. unfold open_tool_call.
  rewrite (proj2 (update_first_None from_str _ _ _) Hn).
  rewrite apply_deltas_app, (append_fragments _ _ _ (co_open_tool_calls st) _ name args "")
    by done.
  simpl. rewrite (close_last _ _ _ _ _ _ done_call) by done. done.
Qed.

Lemma one_call_streamed_witness :
  apply_deltas (fun s => Some (VString s)) collect_start
    [OpenToolCall "c" "read" None; AppendToolCallArguments "c" "{";
     AppendToolCallArguments "c" "}"; CloseToolCall "c"]
  = Ok (MkCollectState [] [MkCompletedToolCall "c" "read" (VString "{}")] [] [] None).
Proof.
  refine (one_call_streamed (fun s => Some (VString s)) collect_start "c" "read" None ["{"; "}"]
    (MkCompletedToolCall "c" "read" (VString "{}")) _ _).
  - intros H. by apply elem_of_nil in H.
  - vm_compute. reflexivity.
Defined.

(** How the provider cuts its text into deltas does not matter: two text
    deltas and their concatenation lead to the same response, whatever comes
    before and after. *)
Theorem text_segmentation from_str st before a b after :
  apply_deltas from_str st (before ++ [AppendText a; AppendText b] ++ after)
  = apply_deltas from_str st (before ++ [AppendText (a +:+ b)] ++ after).
Proof.
  rewrite !(apply_deltas_app _ before). destruct (apply_deltas from_str st before); [|done].
  cbn [mbind result_bind]. apply apply_deltas_one.
  simpl. unfold set_parts. simpl. by rewrite push_text_text.
Qed.
