(* ===== verification/AgentTurn.v ===== *)
(** * The turn loop ([crates/bt-agent/src/lib.rs], [TurnLoop])

    One turn alternates provider calls and tool calls until the provider
    asks for no tool.  Everything outside the loop is behind the interface
    [TurnEnv]: the provider's stream, the tool registry and the tools, the
    approval evaluator, the caller's observers, the cancellation signal, the
    clock and the id generator.  Every operation reads and changes a world
    [W], so that an observer's state, an approval store or another thread's
    cancellation are all covered.

    The loop itself is a step function on the local variables of
    [run_turn_with_tool_observer_and_cancellation]; [run_turn] iterates it.
    The [biased select!] of the source is an operation of the interface that
    says whether the cancellation arm won ([None]). *)

From stdpp Require Import base list strings.
From Stdlib Require Import ZArith Lia.
From S2P Require Import Prelude Text Json Types Messages AgentStream.

#[local] Open Scope Z_scope.

(** ** Data *)

Record TurnRequest : Type := MkTurnRequest {
  tq_session_id : SessionId;
  tq_project_root : string;
  tq_request : CompletionRequest;
}.

Record TurnApproval : Type := MkTurnApproval {
  ta_call_id : ToolCallId;
  ta_tool_name : string;
  ta_request : ApprovalRequest;
  ta_decision : ApprovalDecision;
}.

Record TurnApprovalRequest : Type := MkTurnApprovalRequest {
  tar_call_id : ToolCallId;
  tar_tool_name : string;
  tar_request : ApprovalRequest;
}.

Record TurnInputRequest : Type := MkTurnInputRequest {
  tir_call_id : ToolCallId;
  tir_tool_name : string;
  tir_prompt : string;
  tir_choices : list string;
}.

Record TurnToolCallRequest : Type := MkTurnToolCallRequest {
  ttr_call_id : ToolCallId;
  ttr_tool_name : string;
  ttr_arguments : Value;
  ttr_metadata : ToolMetadata;
}.

Inductive ToolCallRequestDisposition : Type := Recorded | DispositionCancelled.

Record TurnResult : Type := MkTurnResult {
  res_messages : list Message;
  res_tool_results : list ToolResultEnvelope;
  res_completion_chunks : list CompletionChunk;
  res_usage : option TokenUsage;
  res_approvals : list TurnApproval;
  res_approval_requests : list TurnApprovalRequest;
  res_input_requests : list TurnInputRequest;
  res_finish_reason : FinishReason;
}.

Record LlmCallStarted : Type := MkLlmCallStarted {
  ls_ordinal : Z;
  ls_provider : string;
  ls_model : string;
  ls_message_count : Z;
  ls_request : CompletionRequest;
}.

Record LlmCallFinished : Type := MkLlmCallFinished {
  lf_ordinal : Z;
  lf_summary : CompletionSummary;
}.

Record ParsedToolCall : Type := MkParsedToolCall {
  pt_session_id : SessionId;
  pt_call_id : ToolCallId;
  pt_tool_name : string;
  pt_arguments : Value;
}.

Inductive ToolExecutionOutcome : Type :=
  | OutcomeFinished (r : ToolResultEnvelope)
  | OutcomeCancelled (r : ToolResultEnvelope)
  | OutcomeFailed (e : BelltowerError).

Inductive ApprovalOutcome : Type :=
  | NotNeeded
  | OutcomeApproved (request : ApprovalRequest) (decision : ApprovalDecision)
  | OutcomeDenied (request : ApprovalRequest) (decision : ApprovalDecision)
  | OutcomePending (request : ApprovalRequest).

(** ** Usage *)

Definition combine_optional_usage (existing next : option Z) : option Z :=
  match existing, next with
  | Some existing, Some next => Some (u64_add existing next)
  | Some existing, None => Some existing
  | None, Some next => Some next
  | None, None => None
  end.

Definition merge_turn_usage (existing next : option TokenUsage) : option TokenUsage :=
  match existing, next with
  | Some existing, Some next => Some
      {| tu_prompt_tokens := u64_add (tu_prompt_tokens existing) (tu_prompt_tokens next);
         tu_completion_tokens :=
           u64_add (tu_completion_tokens existing) (tu_completion_tokens next);
         tu_total_tokens := u64_add (tu_total_tokens existing) (tu_total_tokens next);
         tu_cache_read_tokens :=
           combine_optional_usage (tu_cache_read_tokens existing) (tu_cache_read_tokens next);
         tu_cache_write_tokens :=
           combine_optional_usage (tu_cache_write_tokens existing) (tu_cache_write_tokens next);
         tu_reasoning_tokens :=
           combine_optional_usage (tu_reasoning_tokens existing) (tu_reasoning_tokens next) |}
  | Some existing, None => Some existing
  | None, Some next => Some next
  | None, None => None
  end.

Definition zero_token_usage : TokenUsage := MkTokenUsage 0 0 0 None None None.

(** ** Tool calls: parsing, results and their messages *)

Definition normalize_tool_arguments (arguments : Value) : Value :=
  match arguments with
  | VObject m => VObject (map_remove "call_id" m)
  | other => other
  end.

Definition parse_tool_call (session_id : SessionId) (tool_call : CompletedToolCall)
    : Result ParsedToolCall :=
  Ok {| pt_session_id := session_id;
        pt_call_id := MkToolCallId (done_call_id tool_call);
        pt_tool_name := done_tool_name tool_call;
        pt_arguments := normalize_tool_arguments (done_arguments tool_call) |}.

Definition execution_arguments (t : ParsedToolCall) : Value :=
  match pt_arguments t with
  | VObject m => VObject (map_insert "call_id" (VString (call_name (pt_call_id t))) m)
  | value => VObject [("call_id", VString (call_name (pt_call_id t))); ("input", value)]
  end.

Definition cancelled_tool_result (t : ParsedToolCall) : ToolResultEnvelope :=
  {| tr_call_id := pt_call_id t;
     tr_tool_name := pt_tool_name t;
     tr_is_error := true;
     tr_output := VObject
       [("cancelled", VBool true);
        ("error", VObject
           [("code", VString "cancelled");
            ("message", VString "tool execution cancelled before completion")])];
     tr_duration_ms := None |}.

Definition tool_error_result (t : ParsedToolCall) (error : BelltowerError)
    : ToolResultEnvelope :=
  {| tr_call_id := pt_call_id t;
     tr_tool_name := pt_tool_name t;
     tr_is_error := true;
     tr_output := VObject [("error", VString (error_to_string error))];
     tr_duration_ms := None |}.

(** The terminal result [observe_tool_lifecycle_failure] reports. *)
Definition lifecycle_failure_result (t : ParsedToolCall) (error : BelltowerError)
    : ToolResultEnvelope :=
  {| tr_call_id := pt_call_id t;
     tr_tool_name := pt_tool_name t;
     tr_is_error := true;
     tr_output := VObject
       [("error", VObject
           [("class", VString (error_class_as_str (error_class error)));
            ("code", VString (error_code error));
            ("message", VString (error_to_string error));
            ("retryable", VBool (error_retryable error))])];
     tr_duration_ms := None |}.

Definition tool_call_message (id : MessageId) (now : OffsetDateTime) (t : ParsedToolCall)
    : Message :=
  {| msg_message_id := id;
     msg_role := RoleAssistant;
     msg_parts := [PToolCall {| tc_tool_name := pt_tool_name t;
                                tc_call_id := call_name (pt_call_id t);
                                tc_arguments := pt_arguments t |}];
     msg_created_at := now |}.

Definition tool_result_message (id : MessageId) (now : OffsetDateTime)
    (result : ToolResultEnvelope) : Message :=
  {| msg_message_id := id;
     msg_role := RoleTool;
     msg_parts := [PToolResult result];
     msg_created_at := now |}.

Definition parse_input_request (t : ParsedToolCall) : Result TurnInputRequest :=
  let prompt :=
    match value_get "question" (pt_arguments t) with
    | Some (VString question) => if is_blank question then None else Some (trim question)
    | _ => None
    end in
  let choices :=
    match value_get "choices" (pt_arguments t) with
    | Some (VArray values) => omap as_str values
    | _ => []
    end in
  prompt ← ok_or (Tool "ask tool call is missing `question`") prompt;
  Ok {| tir_call_id := pt_call_id t;
        tir_tool_name := pt_tool_name t;
        tir_prompt := prompt;
        tir_choices := choices |}.

(** ** The interface to the rest of the program *)

Definition Act (W A : Type) : Type := W -> A * W.

#[export] Instance act_ret {W} : MRet (Act W) := fun A a w => (a, w).
#[export] Instance act_bind {W} : MBind (Act W) := fun A B k m w =>
  let '(a, w') := m w in k a w'.

(** An action that can fail; [?] of the source. *)
Definition try_bind {W A B} (m : Act W (Result A)) (k : A -> Act W (Result B))
    : Act W (Result B) :=
  r ← m; match r with Ok a => k a | Err e => mret (Err e) end.

Declare Scope act_scope.
Delimit Scope act_scope with act.
Notation "x <-? m ; k" := (try_bind m (fun x => k))
  (at level 20, m at level 100, k at level 200, right associativity) : act_scope.
#[local] Open Scope act_scope.

(** [ToolExecutor]: a tool is run with its arguments and the project root. *)
Record ToolExecutor (W : Type) : Type := MkToolExecutor {
  te_spec : ToolSpec;
  te_approval_requirement : Value -> ApprovalRequirement;
  (** [execution.await] *)
  te_execute : Value -> string -> Act W (Result ToolResultEnvelope);
  (** the biased [select!] of [wait_for_cancellation] and [execution] *)
  te_execute_or_cancel : Value -> string -> Act W (option (Result ToolResultEnvelope));
}.
Arguments te_spec {W} _.
Arguments te_approval_requirement {W} _ _.
Arguments te_execute {W} _ _ _.
Arguments te_execute_or_cancel {W} _ _ _.

Class TurnEnv (W : Type) : Type := {
  (** the [Provider] *)
  provider_id : string;
  stream_completion : CompletionRequest -> Act W (Result (list (Result CompletionChunk)));
  completion_summary : CompletionSummary -> Result CompletionSummary;
  (** [BuiltInToolRegistry::get] *)
  tools_get : string -> option (ToolExecutor W);
  (** the [ApprovalEvaluator] *)
  evaluate : ApprovalRequest -> Act W (Result (option ApprovalDecision));
  (** the callbacks *)
  on_llm_call_started : LlmCallStarted -> Act W (Result unit);
  on_chunk : CompletionChunk -> Act W (Result unit);
  on_llm_call_finished : LlmCallFinished -> Act W (Result unit);
  (** the [ToolLifecycleObserver] *)
  tool_call_requested :
    TurnToolCallRequest -> Message -> Act W (Result ToolCallRequestDisposition);
  tool_approval_requested : TurnApprovalRequest -> Act W (Result unit);
  tool_approval_resolved : TurnApproval -> Act W (Result unit);
  tool_execution_finished : ToolResultEnvelope -> Message -> Act W (Result unit);
  (** [CancellationSignal::is_cancelled] of the caller's signal, and whether
      [wait_for_cancellation] is ready when the [select!] polls it *)
  is_cancelled : Act W bool;
  cancel_ready : Act W bool;
  (** [MessageId::new], [OffsetDateTime::now_utc], [started_at.elapsed] *)
  fresh_message_id : Act W MessageId;
  now_utc : Act W OffsetDateTime;
  elapsed_ms : Act W Z;
  (** [serde_json::from_str] *)
  from_str : string -> option Value;
}.

Section turn_loop.
Context {W : Type} `{env : !TurnEnv W}.
(** [cancellation.is_some()] *)
Context (cancellable : bool).

(** [cancellation.as_ref().is_some_and(is_cancelled)] *)
Definition poll_cancelled : Act W bool :=
  if cancellable then is_cancelled else mret false.

(** The local variables of the loop. *)
Record TurnState : Type := MkTurnState {
  st_turn : TurnRequest;
  st_emitted_messages : list Message;
  st_tool_results : list ToolResultEnvelope;
  st_completion_chunks : list CompletionChunk;
  st_usage : option TokenUsage;
  st_approvals : list TurnApproval;
  st_llm_call_ordinal : Z;
}.

Definition turn_start (turn : TurnRequest) : TurnState :=
  MkTurnState turn [] [] [] None [] 0.

(** What one step of the loop does: go on, or return from the function. *)
Inductive Flow : Type :=
  | Continue (st : TurnState)
  | Return (r : TurnResult).

Definition cancelled_turn_result (st : TurnState) : TurnResult :=
  {| res_messages := st_emitted_messages st;
     res_tool_results := st_tool_results st;
     res_completion_chunks := st_completion_chunks st;
     res_usage := st_usage st;
     res_approvals := st_approvals st;
     res_approval_requests := [];
     res_input_requests := [];
     res_finish_reason := FrCancelled |}.

(** The [TurnResult] literals of the other return statements. *)
Definition turn_result (st : TurnState) (approval_requests : list TurnApprovalRequest)
    (input_requests : list TurnInputRequest) (finish_reason : FinishReason) : TurnResult :=
  {| res_messages := st_emitted_messages st;
     res_tool_results := st_tool_results st;
     res_completion_chunks := st_completion_chunks st;
     res_usage := st_usage st;
     res_approvals := st_approvals st;
     res_approval_requests := approval_requests;
     res_input_requests := input_requests;
     res_finish_reason := finish_reason |}.

(** [turn.request.messages.push(m)] *)
Definition push_request (st : TurnState) (m : Message) : TurnState :=
  let q := tq_request (st_turn st) in
  MkTurnState
    {| tq_session_id := tq_session_id (st_turn st);
       tq_project_root := tq_project_root (st_turn st);
       tq_request :=
         {| cr_connection_id := cr_connection_id q;
            cr_model := cr_model q;
            cr_system_prompt := cr_system_prompt q;
            cr_messages := cr_messages q ++ [m];
            cr_tools := cr_tools q;
            cr_structured_output := cr_structured_output q;
            cr_max_tokens := cr_max_tokens q;
            cr_temperature := cr_temperature q;
            cr_thinking := cr_thinking q |} |}
    (st_emitted_messages st) (st_tool_results st) (st_completion_chunks st)
    (st_usage st) (st_approvals st) (st_llm_call_ordinal st).

(** [emitted_messages.push(m)], [tool_results.push(r)], [approvals.push(a)] *)
Definition push_emitted (st : TurnState) (m : Message) : TurnState :=
  MkTurnState (st_turn st) (st_emitted_messages st ++ [m]) (st_tool_results st)
    (st_completion_chunks st) (st_usage st) (st_approvals st) (st_llm_call_ordinal st).
Definition push_result (st : TurnState) (r : ToolResultEnvelope) : TurnState :=
  MkTurnState (st_turn st) (st_emitted_messages st) (st_tool_results st ++ [r])
    (st_completion_chunks st) (st_usage st) (st_approvals st) (st_llm_call_ordinal st).
Definition push_approval (st : TurnState) (a : TurnApproval) : TurnState :=
  MkTurnState (st_turn st) (st_emitted_messages st) (st_tool_results st)
    (st_completion_chunks st) (st_usage st) (st_approvals st ++ [a])
    (st_llm_call_ordinal st).

(** *** The provider call *)

(** Each [await] of the response future: the [select!] polls the
    cancellation arm first. *)
Definition await_point : Act W bool :=
  if cancellable then cancel_ready else mret false.

(** [collect_response]; [None] when the future was dropped because the
    cancellation arm won. *)
Fixpoint collect_stream (ordinal : Z) (st : CollectState)
    (stream : list (Result CompletionChunk)) : Act W (option (Result CollectedResponse)) :=
  dropped ← await_point;
  if dropped : bool then mret None else
  match stream with
  | [] => mret (Some (collect_finish from_str st))
  | Err e :: _ => mret (Some (Err e))
  | Ok chunk :: rest =>
      let chunk := stamp_chunk ordinal chunk in
      observed ← on_chunk chunk;
      match observed with
      | Err e => mret (Some (Err e))
      | Ok _ =>
          match collect_chunk from_str st chunk with
          | Err e => mret (Some (Err e))
          | Ok st' => collect_stream ordinal st' rest
          end
      end
  end.

Definition response_future (ordinal : Z) (request : CompletionRequest)
    : Act W (option (Result CollectedResponse)) :=
  dropped ← await_point;
  if dropped : bool then mret None else
  stream ← stream_completion request;
  match stream with
  | Err e => mret (Some (Err e))
  | Ok chunks => collect_stream ordinal collect_start chunks
  end.

(** [let response = if let Some(signal) = .. { select! .. } else { .. }] *)
Definition await_response (ordinal : Z) (request : CompletionRequest)
    : Act W (Result (option CollectedResponse)) :=
  response ← response_future ordinal request;
  match response with
  | None => mret (Ok None)
  | Some r =>
      cancelled ← poll_cancelled;
      if cancelled : bool then mret (Ok None) else mret (Some <$> r)
  end.

(** [completion_summary(..)?] followed by [on_llm_call_finished(..)?] *)
Definition finish_llm_call (ordinal : Z) (model : string) (finish_reason : FinishReason)
    (usage : TokenUsage) : Act W (Result CompletionSummary) :=
  latency ← elapsed_ms;
  summary <-? mret (completion_summary
    {| cs_provider := provider_id; cs_model := model; cs_finish_reason := finish_reason;
       cs_usage := usage; cs_cost := None; cs_latency_ms := latency |});
  _ <-? on_llm_call_finished {| lf_ordinal := ordinal; lf_summary := summary |};
  mret (Ok summary).

(** After the last cancellation check: the summary, the chunks, the usage
    and the assistant message. *)
Definition accept_response (st : TurnState) (ordinal : Z) (response : CollectedResponse)
    : Act W (Result TurnState) :=
  summary <-? finish_llm_call ordinal (cr_model (tq_request (st_turn st)))
    (rs_finish_reason response) (default zero_token_usage (rs_usage response));
  let st := MkTurnState (st_turn st) (st_emitted_messages st) (st_tool_results st)
    (st_completion_chunks st ++ rs_chunks response)
    (merge_turn_usage (st_usage st) (Some (cs_usage summary)))
    (st_approvals st) ordinal in
  match rs_assistant_parts response with
  | [] => mret (Ok st)
  | parts =>
      id ← fresh_message_id; now ← now_utc;
      let message := message_new id now RoleAssistant parts in
      mret (Ok (push_emitted (push_request st message) message))
  end.

(** The head of the loop up to the tool calls: the step returns, or hands
    over the calls the provider asked for. *)
Definition llm_step (st : TurnState)
    : Act W (Result (TurnResult + TurnState * list CompletedToolCall)) :=
  cancelled ← poll_cancelled;
  if cancelled : bool then mret (Ok (inl (cancelled_turn_result st))) else
  let request := tq_request (st_turn st) in
  let ordinal := u32_add (st_llm_call_ordinal st) 1 in
  _ <-? on_llm_call_started
    {| ls_ordinal := ordinal;
       ls_provider := provider_id;
       ls_model := cr_model request;
       ls_message_count := wrap32 (Z.of_nat (length (cr_messages request)));
       ls_request := request |};
  response <-? await_response ordinal request;
  match response with
  | None =>
      _ <-? finish_llm_call ordinal (cr_model request) FrCancelled zero_token_usage;
      mret (Ok (inl (cancelled_turn_result st)))
  | Some response =>
      cancelled ← poll_cancelled;
      if cancelled : bool then
        _ <-? finish_llm_call ordinal (cr_model request) FrCancelled
          (default zero_token_usage (rs_usage response));
        mret (Ok (inl (cancelled_turn_result st)))
      else
        st <-? accept_response st ordinal response;
        match rs_tool_calls response with
        | [] => mret (Ok (inl (turn_result st [] [] (rs_finish_reason response))))
        | tool_calls => mret (Ok (inr (st, tool_calls)))
        end
  end.

(** *** One tool call *)

(** [execute_tool_call] *)
Definition execute_tool_call (t : ParsedToolCall) (project_root : string)
    : Act W ToolExecutionOutcome :=
  match tools_get (pt_tool_name t) with
  | None => mret (OutcomeFailed (Unsupported ("unknown tool `" +:+ pt_tool_name t +:+ "`")))
  | Some tool =>
      let interrupt_behavior := tm_interrupt_behavior (ts_metadata (te_spec tool)) in
      cancelled ← poll_cancelled;
      if cancelled : bool then mret (OutcomeCancelled (cancelled_tool_result t)) else
      if bool_decide (interrupt_behavior = InterruptImmediate) && cancellable then
        outcome ← te_execute_or_cancel tool (execution_arguments t) project_root;
        match outcome with
        | None => mret (OutcomeCancelled (cancelled_tool_result t))
        | Some (Ok result) => mret (OutcomeFinished result)
        | Some (Err e) => mret (OutcomeFailed e)
        end
      else
        outcome ← te_execute tool (execution_arguments t) project_root;
        match outcome with
        | Err e => mret (OutcomeFailed e)
        | Ok result =>
            cancelled ← poll_cancelled;
            if cancelled : bool then mret (OutcomeCancelled result)
            else mret (OutcomeFinished result)
        end
  end.

(** [approval_outcome] *)
Definition approval_outcome (t : ParsedToolCall) (requirement : ApprovalRequirement)
    (tool_metadata : ToolMetadata) : Act W (Result ApprovalOutcome) :=
  match requirement with
  | ReqNever => mret (Ok NotNeeded)
  | _ =>
      now ← now_utc;
      let request :=
        {| rq_session_id := pt_session_id t;
           rq_call_id := pt_call_id t;
           rq_tool_name := pt_tool_name t;
           rq_arguments := pt_arguments t;
           rq_requirement := requirement;
           rq_tool_metadata := tool_metadata;
           rq_requested_at := now |} in
      decision <-? evaluate request;
      mret (Ok match decision with
               | Some (Approved _ _ _ _ as d) => OutcomeApproved request d
               | Some (Denied _ _ _ _ _ as d) => OutcomeDenied request d
               | None => OutcomePending request
               end)
  end.

(** [observe_tool_lifecycle_failure] *)
Definition observe_tool_lifecycle_failure (t : ParsedToolCall) (error : BelltowerError)
    : Act W (Result unit) :=
  let result := lifecycle_failure_result t error in
  id ← fresh_message_id; now ← now_utc;
  tool_execution_finished result (tool_result_message id now result).

(** [if let Err(error) = m { observe_tool_lifecycle_failure(..)?; return Err(error) }] *)
Definition or_observe {A} (t : ParsedToolCall) (m : Act W (Result A)) : Act W (Result A) :=
  r ← m;
  match r with
  | Ok a => mret (Ok a)
  | Err error =>
      _ <-? observe_tool_lifecycle_failure t error;
      mret (Err error)
  end.

(** A tool call up to the point where its approval is decided.  [inl]: the
    turn returns; [inr]: the request is recorded and its message is in the
    context. *)
Definition begin_tool_call (st : TurnState) (t : ParsedToolCall) (message : Message)
    (tool : ToolExecutor W) : Act W (Result (TurnResult + TurnState)) :=
  let metadata := ts_metadata (te_spec tool) in
  input_request <-? mret (
    match tm_execution_mode metadata with
    | UserInput => Some <$> parse_input_request t
    | ExecImmediate => Ok None
    end);
  disposition <-? tool_call_requested
    {| ttr_call_id := pt_call_id t;
       ttr_tool_name := pt_tool_name t;
       ttr_arguments := pt_arguments t;
       ttr_metadata := metadata |} message;
  match disposition with
  | DispositionCancelled => mret (Ok (inl (cancelled_turn_result st)))
  | Recorded =>
      let st := push_emitted (push_request st message) message in
      cancelled ← poll_cancelled;
      if cancelled : bool then
        let result := cancelled_tool_result t in
        id ← fresh_message_id; now ← now_utc;
        let message := tool_result_message id now result in
        _ <-? tool_execution_finished result message;
        mret (Ok (inl (cancelled_turn_result (push_result (push_emitted st message) result))))
      else
        match input_request with
        | Some input_request =>
            mret (Ok (inl (turn_result st [] [input_request] FrToolUse)))
        | None => mret (Ok (inr st))
        end
  end.

(** The approval of a recorded call: [inl] when it stays pending, [inr]
    with the outcome of the execution (or its denial). *)
Definition resolve_tool_call (st : TurnState) (t : ParsedToolCall) (tool : ToolExecutor W)
    : Act W (Result (TurnResult + TurnState * ToolExecutionOutcome)) :=
  outcome <-? or_observe t
    (approval_outcome t (te_approval_requirement tool (pt_arguments t))
       (ts_metadata (te_spec tool)));
  match outcome with
  | NotNeeded =>
      result ← execute_tool_call t (tq_project_root (st_turn st));
      mret (Ok (inr (st, result)))
  | OutcomeApproved request decision =>
      let approval := MkTurnApproval (pt_call_id t) (pt_tool_name t) request decision in
      _ <-? or_observe t (tool_approval_resolved approval);
      let st := push_approval st approval in
      result ← execute_tool_call t (tq_project_root (st_turn st));
      mret (Ok (inr (st, result)))
  | OutcomeDenied request decision =>
      let approval := MkTurnApproval (pt_call_id t) (pt_tool_name t) request decision in
      _ <-? or_observe t (tool_approval_resolved approval);
      mret (Ok (inr (push_approval st approval,
        OutcomeFinished (tool_error_result t
          (InvalidState ("tool `" +:+ pt_tool_name t +:+ "` was denied"))))))
  | OutcomePending request =>
      let approval_request := MkTurnApprovalRequest (pt_call_id t) (pt_tool_name t) request in
      _ <-? or_observe t (tool_approval_requested approval_request);
      mret (Ok (inl (turn_result st [approval_request] [] FrToolUse)))
  end.

(** The terminal result of a call enters the context after it is observed. *)
Definition conclude_tool_call (st : TurnState) (t : ParsedToolCall)
    (outcome : ToolExecutionOutcome) : Act W (Result Flow) :=
  let '(result, cancelled_during_tool) :=
    match outcome with
    | OutcomeFinished result => (result, false)
    | OutcomeCancelled result => (result, true)
    | OutcomeFailed error => (tool_error_result t error, false)
    end in
  id ← fresh_message_id; now ← now_utc;
  let message := tool_result_message id now result in
  _ <-? tool_execution_finished result message;
  let st := push_result (push_emitted (push_request st message) message) result in
  cancelled ← (if cancelled_during_tool : bool then mret true else poll_cancelled);
  if cancelled : bool then mret (Ok (Return (cancelled_turn_result st)))
  else mret (Ok (Continue st)).

Definition tool_call_step (st : TurnState) (tool_call : CompletedToolCall)
    : Act W (Result Flow) :=
  parsed <-? mret (parse_tool_call (tq_session_id (st_turn st)) tool_call);
  id ← fresh_message_id; now ← now_utc;
  let message := tool_call_message id now parsed in
  tool <-? mret (ok_or
    (Unsupported ("unknown tool `" +:+ pt_tool_name parsed +:+ "`"))
    (tools_get (pt_tool_name parsed)));
  begun <-? begin_tool_call st parsed message tool;
  match begun with
  | inl r => mret (Ok (Return r))
  | inr st =>
      resolved <-? resolve_tool_call st parsed tool;
      match resolved with
      | inl r => mret (Ok (Return r))
      | inr (st, outcome) => conclude_tool_call st parsed outcome
      end
  end.

(** [for tool_call in response.tool_calls { .. }] *)
Fixpoint tool_calls_loop (st : TurnState) (tool_calls : list CompletedToolCall)
    : Act W (Result Flow) :=
  match tool_calls with
  | [] => mret (Ok (Continue st))
  | call :: rest =>
      flow <-? tool_call_step st call;
      match flow with
      | Return r => mret (Ok (Return r))
      | Continue st => tool_calls_loop st rest
      end
  end.

(** *** The loop *)

Definition turn_step (st : TurnState) : Act W (Result Flow) :=
  next <-? llm_step st;
  match next with
  | inl r => mret (Ok (Return r))
  | inr (st, tool_calls) => tool_calls_loop st tool_calls
  end.

(** [None] when the fuel ran out: the loop is still running. *)
Fixpoint run_loop (fuel : nat) (st : TurnState) : Act W (option (Result TurnResult)) :=
  match fuel with
  | O => mret None
  | S fuel =>
      flow ← turn_step st;
      match flow with
      | Err e => mret (Some (Err e))
      | Ok (Return r) => mret (Some (Ok r))
      | Ok (Continue st) => run_loop fuel st
      end
  end.

(** [run_turn_with_tool_observer_and_cancellation] *)
Definition run_turn (fuel : nat) (turn : TurnRequest) : Act W (option (Result TurnResult)) :=
  run_loop fuel (turn_start turn).
End turn_loop.
