(* ===== verification/AgentLaws.v ===== *)
(** * Laws of the turn loop

    A weakest-precondition calculus for actions on a world, then the
    invariant of the loop's local variables: what the turn has emitted is
    exactly what it has added to the provider's context, tool results come
    from it in order, and every result answers the call before it. *)

From stdpp Require Import base list strings.
From Stdlib Require Import ZArith Lia.
From S2P Require Import Prelude Text Json Types Messages AgentStream AgentTurn.

#[local] Open Scope Z_scope.
#[local] Open Scope act_scope.

(** ** Weakest preconditions *)

Definition wp {W A} (m : Act W A) (Q : A -> W -> Prop) (w : W) : Prop :=
  Q (m w).1 (m w).2.

Lemma wp_ret {W A} (a : A) (Q : A -> W -> Prop) w : Q a w -> wp (mret a) Q w.
Proof. done. Qed.

Lemma wp_bind {W A B} (m : Act W A) (k : A -> Act W B) Q w :
  wp m (fun a => wp (k a) Q) w -> wp (m ≫= k) Q w.
Proof. unfold wp. simpl. unfold mbind, act_bind. by destruct (m w). Qed.

Lemma wp_try_bind {W A B} (m : Act W (Result A)) (k : A -> Act W (Result B)) Q w :
  wp m (fun r => match r with Ok a => wp (k a) Q | Err e => Q (Err e) end) w ->
  wp (try_bind m k) Q w.
Proof.
  intros H. unfold try_bind. apply wp_bind. unfold wp in *.
  destruct (m w) as [[a|e] w']; done.
Qed.

Lemma wp_mono {W A} (m : Act W A) (Q Q' : A -> W -> Prop) w :
  wp m Q w -> (forall a w', Q a w' -> Q' a w') -> wp m Q' w.
Proof. unfold wp. auto. Qed.

(** An action about which nothing is known. *)
Lemma wp_any {W A} (m : Act W A) (Q : A -> W -> Prop) w :
  (forall a w', Q a w') -> wp m Q w.
Proof. unfold wp. auto. Qed.

(** The postconditions of this file look at the value only. *)
Definition returns {W A} (m : Act W A) (Q : A -> Prop) : Prop :=
  forall w, wp m (fun a _ => Q a) w.

Lemma returns_ret {W A} (a : A) (Q : A -> Prop) : Q a -> returns (W := W) (mret a) Q.
Proof. intros H w. apply wp_ret, H. Qed.

Lemma returns_any {W A} (m : Act W A) (Q : A -> Prop) : (forall a, Q a) -> returns m Q.
Proof. intros H w. apply wp_any. auto. Qed.

Lemma returns_bind {W A B} (m : Act W A) (k : A -> Act W B) P Q :
  returns m P -> (forall a, P a -> returns (k a) Q) -> returns (m ≫= k) Q.
Proof.
  intros Hm Hk w. apply wp_bind. eapply wp_mono; [apply Hm|]. intros a w' Ha. by apply Hk.
Qed.

Lemma returns_bind_any {W A B} (m : Act W A) (k : A -> Act W B) Q :
  (forall a, returns (k a) Q) -> returns (m ≫= k) Q.
Proof. intros H. apply returns_bind with (P := fun _ => True); [by apply returns_any|auto]. Qed.

(** What a successful result satisfies; an error satisfies anything. *)
Definition on_ok {A} (Q : A -> Prop) (r : Result A) : Prop :=
  match r with Ok a => Q a | Err _ => True end.

Lemma returns_try {W A B} (m : Act W (Result A)) (k : A -> Act W (Result B)) P Q :
  returns m (on_ok P) -> (forall a, P a -> returns (k a) (on_ok Q)) ->
  returns (try_bind m k) (on_ok Q).
Proof.
  intros Hm Hk. unfold returns. intros w. apply wp_try_bind. eapply wp_mono; [apply Hm|].
  intros [a|e] w' Ha; [by apply Hk|done].
Qed.

Lemma returns_try_any {W A B} (m : Act W (Result A)) (k : A -> Act W (Result B)) Q :
  (forall a, returns (k a) (on_ok Q)) -> returns (try_bind m k) (on_ok Q).
Proof.
  intros H. apply returns_try with (P := fun _ => True); [|auto].
  apply returns_any. by intros [].
Qed.

(** ** Triples

    [triple s m Q]: started in a world whose observation is [s], [m] returns
    a value and ends in a world whose observation satisfies [Q] with it. *)

Section triples.
Context {W S : Type} (obs : W -> S -> Prop).

Definition triple {A} (s : S) (m : Act W A) (Q : A -> S -> Prop) : Prop :=
  forall w, obs w s -> wp m (fun a w' => exists s', obs w' s' /\ Q a s') w.

Definition at_ok {A} (Q : A -> S -> Prop) (r : Result A) (s : S) : Prop :=
  match r with Ok a => Q a s | Err _ => True end.

Lemma triple_ret {A} s (a : A) (Q : A -> S -> Prop) : Q a s -> triple s (mret a) Q.
Proof. intros H w Hw. by exists s. Qed.

Lemma triple_bind {A B} s (m : Act W A) (k : A -> Act W B) P Q :
  triple s m P -> (forall a s', P a s' -> triple s' (k a) Q) -> triple s (m ≫= k) Q.
Proof.
  intros Hm Hk w Hw. apply wp_bind. eapply wp_mono; [by apply Hm|].
  intros a w' (s' & Hs' & Ha). by eapply Hk.
Qed.

Lemma triple_try {A B} s (m : Act W (Result A)) (k : A -> Act W (Result B)) P Q :
  triple s m (at_ok P) -> (forall a s', P a s' -> triple s' (k a) (at_ok Q)) ->
  triple s (try_bind m k) (at_ok Q).
Proof.
  intros Hm Hk. unfold try_bind. eapply triple_bind; [exact Hm|].
  intros [a|e] s' Ha; [by apply Hk|by apply triple_ret].
Qed.

Lemma triple_mono {A} s (m : Act W A) (Q Q' : A -> S -> Prop) :
  triple s m Q -> (forall a s', Q a s' -> Q' a s') -> triple s m Q'.
Proof.
  intros H HQ w Hw. eapply wp_mono; [by apply H|]. intros a w' (s' & ? & ?). exists s'. auto.
Qed.
End triples.

(** ** The transcript of a turn *)

(** A part an assistant message can hold: not a tool call, not a result. *)
Definition is_content (p : MessagePart) : Prop :=
  match p with PToolCall _ | PToolResult _ => False | _ => True end.

(** Reads a transcript: the call that waits for its result, if any.
    [None]: a result without its call, a call while another one waits, or
    content in between. *)
Definition pairing_step (waiting : option string) (m : Message) : option (option string) :=
  match msg_parts m, waiting with
  | [PToolCall call], None => Some (Some (tc_call_id call))
  | [PToolResult result], Some id =>
      if String.eqb id (call_name (tr_call_id result)) then Some None else None
  | parts, None => if existsb (fun p => match p with
      PToolCall _ | PToolResult _ => true | _ => false end) parts then None else Some None
  | _, Some _ => None
  end.

Fixpoint pairing_from (waiting : option string) (ms : list Message)
    : option (option string) :=
  match ms with
  | [] => Some waiting
  | m :: ms' => match pairing_step waiting m with
                | Some waiting' => pairing_from waiting' ms'
                | None => None
                end
  end.

Definition pairing (ms : list Message) : option (option string) := pairing_from None ms.

Lemma pairing_snoc ms m :
  pairing (ms ++ [m]) = pairing ms ≫= fun waiting => pairing_step waiting m.
Proof.
  unfold pairing. generalize (@None string).
  induction ms as [|a ms IH]; intros o; simpl; [by destruct (pairing_step o m)|].
  destruct (pairing_step o a); simpl; [apply IH|done].
Qed.

Lemma push_content ps q :
  Forall is_content ps -> is_content q -> Forall is_content (push_message_part ps q).
Proof.
  intros Hps Hq. destruct (decide (ps = [])) as [->|Hne]; [by constructor|].
  destruct (exists_last Hne) as (ps' & p & ->). rewrite push_message_part_snoc.
  apply Forall_app in Hps as [Hps' Hp]. apply Forall_app; split; [done|].
  destruct (coalesce_with p q) as [r|] eqn:E.
  - constructor; [|done]. destruct (coalesce_with_texts _ _ _ E) as (_ & _ & _ & _ & Hr).
    by destruct r as [|? ? []| | | |].
  - inversion_clear Hp. by repeat constructor.
Qed.

Lemma extend_content ps qs :
  Forall is_content ps -> Forall is_content qs -> Forall is_content (extend_message_parts ps qs).
Proof.
  unfold extend_message_parts. intros Hps Hqs. revert ps Hps.
  induction Hqs as [|q qs Hq _ IH]; simpl; intros ps Hps; [done|].
  apply IH. by apply push_content.
Qed.

Lemma existsb_content ps :
  Forall is_content ps ->
  existsb (fun p => match p with PToolCall _ | PToolResult _ => true | _ => false end) ps = false.
Proof. induction 1 as [|p ps Hp _ IH]; simpl; [done|]. rewrite IH. by destruct p. Qed.

Lemma tool_result_content id now role ps :
  Forall is_content ps -> tool_result (message_new id now role ps) = None.
Proof.
  intros H. apply (extend_content [] ps) in H; [|done].
  unfold tool_result, message_new. cbn [msg_parts]. revert H.
  generalize (extend_message_parts [] ps). induction 1 as [|q qs Hq _ IH]; simpl; [done|].
  destruct q; first [exact IH|done].
Qed.

Lemma pairing_step_content id now role ps :
  Forall is_content ps ->
  pairing_step None (message_new id now role ps) = Some None.
Proof.
  intros H. apply (extend_content [] ps) in H; [|done].
  unfold pairing_step, message_new. cbn [msg_parts].
  pose proof (existsb_content _ H) as E. revert H E.
  generalize (extend_message_parts [] ps). intros [|p [|q qs]] H E; [done| |].
  2:{ destruct p; simpl in *; by rewrite ?E. }
  inversion_clear H. by destruct p.
Qed.

(** ** The invariant *)

Section laws.
Context {W : Type} `{env : !TurnEnv W}.
Context (cancellable : bool) (turn : TurnRequest).

Record turn_inv (waiting : option string) (st : TurnState) : Prop := {
  inv_context :
    cr_messages (tq_request (st_turn st))
    = cr_messages (tq_request turn) ++ st_emitted_messages st;
  inv_results : omap tool_result (st_emitted_messages st) = st_tool_results st;
  inv_pairing : pairing (st_emitted_messages st) = Some waiting;
}.

(** What a returned turn satisfies. *)
Record result_ok (r : TurnResult) : Prop := {
  ok_results : omap tool_result (res_messages r) = res_tool_results r;
  ok_pairing :
    pairing (res_messages r) = Some
      match res_approval_requests r, res_input_requests r with
      | [a], [] => Some (call_name (tar_call_id a))
      | [], [i] => Some (call_name (tir_call_id i))
      | _, _ => None
      end;
  ok_pauses :
    match res_approval_requests r, res_input_requests r with
    | [], [] => True
    | [_], [] | [], [_] => res_finish_reason r = FrToolUse
    | _, _ => False
    end;
}.

Definition flow_ok (f : Flow) : Prop :=
  match f with Continue st => turn_inv None st | Return r => result_ok r end.

Lemma turn_start_inv : turn_inv None (turn_start turn).
Proof. split; simpl; [by rewrite app_nil_r|done|done]. Qed.

Lemma cancelled_result_ok st : turn_inv None st -> result_ok (cancelled_turn_result st).
Proof. intros [H1 H2 H3]. by split. Qed.

(** A message that holds no result is emitted and added to the context. *)
Lemma push_message_inv waiting waiting' st m :
  turn_inv waiting st -> tool_result m = None ->
  pairing_step waiting m = Some waiting' ->
  turn_inv waiting' (push_emitted (push_request st m) m).
Proof.
  intros [H1 H2 H3] Hm Hs. split; simpl.
  - by rewrite H1, <- app_assoc.
  - rewrite omap_app, H2. simpl. rewrite Hm. apply app_nil_r.
  - rewrite pairing_snoc, H3. done.
Qed.

Lemma push_result_inv st id now r :
  turn_inv (Some (call_name (tr_call_id r))) st ->
  let m := tool_result_message id now r in
  turn_inv None (push_result (push_emitted (push_request st m) m) r).
Proof.
  intros [H1 H2 H3] m. split; simpl.
  - by rewrite H1, <- app_assoc.
  - rewrite omap_app, H2. done.
  - rewrite pairing_snoc, H3. unfold m, pairing_step. simpl. by rewrite String.eqb_refl.
Qed.

(** *** The collected parts are content *)

Lemma apply_delta_content st d st' :
  Forall is_content (co_assistant_parts st) -> apply_delta from_str st d = Ok st' ->
  Forall is_content (co_assistant_parts st').
Proof.
  intros Hst H. destruct d; simpl in H; invert_result; simpl;
    try (by apply push_content); try done.
  apply Forall_app; split; [done|]. by repeat constructor.
Qed.

Lemma apply_deltas_content ds st st' :
  Forall is_content (co_assistant_parts st) -> apply_deltas from_str st ds = Ok st' ->
  Forall is_content (co_assistant_parts st').
Proof.
  revert st; induction ds as [|d ds IH]; simpl; intros st Hst H; invert_result; [done|].
  eapply IH; [|exact H]. by eapply apply_delta_content.
Qed.

Definition content_response (r : CollectedResponse) : Prop :=
  Forall is_content (rs_assistant_parts r).

Lemma collect_stream_content ordinal stream st :
  Forall is_content (co_assistant_parts st) ->
  returns (collect_stream cancellable ordinal st stream)
    (fun o => match o with Some r => on_ok content_response r | None => True end).
Proof.
  revert st; induction stream as [|[chunk|e] stream IH]; intros st Hst; simpl;
    apply returns_bind_any; intros []; try by apply returns_ret.
  - apply returns_ret. unfold collect_finish, finish_open_tool_calls.
    destruct (try_map _ _); simpl; done.
  - apply returns_bind_any. intros [u|e]; [|by apply returns_ret].
    destruct (collect_chunk _ _ _) as [st'|e] eqn:E; [|by apply returns_ret].
    apply IH. eapply apply_deltas_content; [|exact E]. done.
Qed.

Lemma await_response_content ordinal request :
  returns (await_response cancellable ordinal request)
    (on_ok (fun o => match o with Some r => content_response r | None => True end)).
Proof.
  unfold await_response, response_future.
  apply returns_bind with (P := fun o => match o with
    Some r => on_ok content_response r | None => True end).
  { apply returns_bind_any. intros []; [by apply returns_ret|].
    apply returns_bind_any. intros [chunks|e]; [|by apply returns_ret].
    by apply collect_stream_content. }
  intros [r|] Hr; [|by apply returns_ret]. apply returns_bind_any.
  intros []; apply returns_ret; [done|]. by destruct r.
Qed.

(** *** The steps preserve the invariant *)

Lemma accept_response_inv st ordinal response :
  turn_inv None st -> content_response response ->
  returns (accept_response st ordinal response) (on_ok (turn_inv None)).
Proof.
  intros Hst Hc. unfold accept_response. apply returns_try_any. intros summary.
  set (st1 := MkTurnState _ _ _ _ _ _ _).
  assert (turn_inv None st1) as Hst1 by (destruct Hst; by split).
  destruct (rs_assistant_parts response) as [|p ps] eqn:Ep; [by apply returns_ret|].
  apply returns_bind_any; intros id. apply returns_bind_any; intros now.
  apply returns_ret. unfold content_response in Hc. rewrite Ep in Hc.
  apply push_message_inv with (waiting := None); [done| |by apply pairing_step_content].
  by apply tool_result_content.
Qed.

Lemma llm_step_ok st :
  turn_inv None st ->
  returns (llm_step cancellable st) (on_ok (fun x =>
    match x with inl r => result_ok r | inr (st', _) => turn_inv None st' end)).
Proof.
  intros Hst. unfold llm_step. apply returns_bind_any. intros [].
  { apply returns_ret. by apply cancelled_result_ok. }
  apply returns_try_any. intros _.
  eapply returns_try; [apply await_response_content|]. intros [response|] Hc.
  2:{ apply returns_try_any. intros _. apply returns_ret. by apply cancelled_result_ok. }
  apply returns_bind_any. intros [].
  { apply returns_try_any. intros _. apply returns_ret. by apply cancelled_result_ok. }
  eapply returns_try; [by apply accept_response_inv|]. intros st' Hst'.
  destruct (rs_tool_calls response); apply returns_ret; [|done].
  destruct Hst' as [H1 H2 H3]. by split.
Qed.

(** A turn that stops on a message nobody answered: the message and the
    result that closes it. *)
Lemma closed_result_ok st t id now id' now' :
  turn_inv None st ->
  let m := tool_call_message id now t in
  let r := cancelled_tool_result t in
  result_ok (cancelled_turn_result
    (push_result (push_emitted (push_emitted (push_request st m) m)
      (tool_result_message id' now' r)) r)).
Proof.
  intros [_ H2 H3] m r. split; simpl.
  - rewrite !omap_app, H2. simpl. by rewrite app_nil_r.
  - rewrite !pairing_snoc, H3. unfold m, r, pairing_step. simpl. by rewrite String.eqb_refl.
  - done.
Qed.

Lemma begin_tool_call_ok st t id now tool :
  turn_inv None st ->
  returns (begin_tool_call cancellable st t (tool_call_message id now t) tool)
    (on_ok (fun x => match x with
      | inl r => result_ok r
      | inr st' => turn_inv (Some (call_name (pt_call_id t))) st' end)).
Proof.
  intros Hst. unfold begin_tool_call.
  set (m := tool_call_message id now t).
  eapply returns_try with (P := fun o => match o with
    Some i => tir_call_id i = pt_call_id t | None => True end).
  { apply returns_ret. destruct (tm_execution_mode _); [done|].
    unfold parse_input_request.
    destruct (value_get "question" (pt_arguments t)) as [[| | |q| |]|]; simpl; try done.
    by destruct (is_blank q). }
  intros input Hinput. apply returns_try_any. intros [].
  2:{ apply returns_ret. by apply cancelled_result_ok. }
  assert (turn_inv (Some (call_name (pt_call_id t)))
            (push_emitted (push_request st m) m)) as Hst'.
  { by apply push_message_inv with (waiting := None). }
  apply returns_bind_any. intros [].
  - apply returns_bind_any; intros id'. apply returns_bind_any; intros now'.
    apply returns_try_any. intros _. apply returns_ret. by apply closed_result_ok.
  - destruct input as [i|]; apply returns_ret; [|done].
    destruct Hst' as [_ H2 H3]. split; simpl; [done| |done].
    by rewrite Hinput.
Qed.

(** *** The execution of a call *)

(** What the loop needs of a tool: it answers the call it was given. *)
Class ToolsEcho : Prop := {
  execute_echo name tool args root id :
    tools_get name = Some tool -> value_get "call_id" args = Some (VString id) ->
    returns (te_execute tool args root) (on_ok (fun r => call_name (tr_call_id r) = id));
  execute_or_cancel_echo name tool args root id :
    tools_get name = Some tool -> value_get "call_id" args = Some (VString id) ->
    returns (te_execute_or_cancel tool args root) (fun o =>
      match o with Some r => on_ok (fun r => call_name (tr_call_id r) = id) r | None => True end);
}.

Lemma execution_arguments_call_id t :
  value_get "call_id" (execution_arguments t) = Some (VString (call_name (pt_call_id t))).
Proof.
  unfold execution_arguments. destruct (pt_arguments t); try done. simpl.
  apply map_insert_get.
Qed.

Definition outcome_answers (id : string) (o : ToolExecutionOutcome) : Prop :=
  match o with
  | OutcomeFinished r | OutcomeCancelled r => call_name (tr_call_id r) = id
  | OutcomeFailed _ => True
  end.

Context `{echo : !ToolsEcho}.

Lemma execute_tool_call_answers t root :
  returns (execute_tool_call cancellable t root) (outcome_answers (call_name (pt_call_id t))).
Proof.
  unfold execute_tool_call. pose proof (execution_arguments_call_id t) as Ha.
  destruct (tools_get _) as [tool|] eqn:Et; [|by apply returns_ret].
  apply returns_bind_any. intros []; [by apply returns_ret|].
  destruct (_ && _).
  - eapply returns_bind; [by eapply execute_or_cancel_echo|].
    intros [[r|e]|] Hr; by apply returns_ret.
  - eapply returns_bind; [by eapply execute_echo|].
    intros [r|e] Hr; [|by apply returns_ret].
    apply returns_bind_any. intros []; by apply returns_ret.
Qed.

Lemma returns_or_observe {A} t (m : Act W (Result A)) P :
  returns m (on_ok P) -> returns (or_observe t m) (on_ok P).
Proof.
  intros Hm. eapply returns_bind; [exact Hm|]. intros [a|e] Ha; [by apply returns_ret|].
  apply returns_try_any. intros u. by apply returns_ret.
Qed.

Lemma push_approval_inv waiting st a :
  turn_inv waiting st -> turn_inv waiting (push_approval st a).
Proof. intros [H1 H2 H3]. by split. Qed.

Lemma resolve_tool_call_ok st t tool :
  turn_inv (Some (call_name (pt_call_id t))) st ->
  returns (resolve_tool_call cancellable st t tool)
    (on_ok (fun x => match x with
      | inl r => result_ok r
      | inr (st', o) => turn_inv (Some (call_name (pt_call_id t))) st'
                        /\ outcome_answers (call_name (pt_call_id t)) o end)).
Proof.
  intros Hst. unfold resolve_tool_call. apply returns_try_any.
  intros [|request decision|request decision|request].
  - eapply returns_bind; [apply execute_tool_call_answers|]. intros o Ho. by apply returns_ret.
  - apply returns_try_any. intros _.
    eapply returns_bind; [apply execute_tool_call_answers|]. intros o Ho.
    apply returns_ret. split; [by apply push_approval_inv|done].
  - apply returns_try_any. intros _. apply returns_ret.
    split; [by apply push_approval_inv|done].
  - apply returns_try_any. intros _. apply returns_ret.
    destruct Hst as [_ H2 H3]. by split.
Qed.

Lemma conclude_tool_call_ok st t o :
  turn_inv (Some (call_name (pt_call_id t))) st ->
  outcome_answers (call_name (pt_call_id t)) o ->
  returns (conclude_tool_call cancellable st t o) (on_ok flow_ok).
Proof.
  intros Hst Ho. unfold conclude_tool_call.
  set (rc := match o with OutcomeFinished _ => _ | _ => _ end).
  assert (call_name (tr_call_id rc.1) = call_name (pt_call_id t)) as Hr by by destruct o.
  destruct rc as [r cancelled]; simpl in Hr. rewrite <- Hr in Hst.
  apply returns_bind_any; intros id. apply returns_bind_any; intros now.
  apply returns_try_any. intros _.
  pose proof (push_result_inv st id now r Hst) as Hst'.
  apply returns_bind_any. intros []; apply returns_ret; [by apply cancelled_result_ok|done].
Qed.

Lemma tool_call_step_ok st call :
  turn_inv None st -> returns (tool_call_step cancellable st call) (on_ok flow_ok).
Proof.
  intros Hst. unfold tool_call_step. apply returns_try_any. intros t.
  apply returns_bind_any; intros id. apply returns_bind_any; intros now.
  apply returns_try_any. intros tool.
  eapply returns_try; [by apply begin_tool_call_ok|]. intros [r|st'] Hx; [by apply returns_ret|].
  eapply returns_try; [by apply resolve_tool_call_ok|].
  intros [r|[st'' o]]; [by intros; apply returns_ret|]. intros [H1 H2].
  by apply conclude_tool_call_ok.
Qed.

Lemma tool_calls_loop_ok st calls :
  turn_inv None st -> returns (tool_calls_loop cancellable st calls) (on_ok flow_ok).
Proof.
  revert st; induction calls as [|call calls IH]; intros st Hst; [by apply returns_ret|].
  eapply returns_try; [by apply tool_call_step_ok|]. intros [st'|r] Hf; [by apply IH|].
  by apply returns_ret.
Qed.

Lemma turn_step_ok st :
  turn_inv None st -> returns (turn_step cancellable st) (on_ok flow_ok).
Proof.
  intros Hst. eapply returns_try; [by apply llm_step_ok|].
  intros [r|[st' calls]] Hx; [by apply returns_ret|]. by apply tool_calls_loop_ok.
Qed.

Lemma run_loop_ok fuel st :
  turn_inv None st ->
  returns (run_loop cancellable fuel st) (fun o =>
    match o with Some r => on_ok result_ok r | None => True end).
Proof.
  revert st; induction fuel as [|fuel IH]; intros st Hst; [by apply returns_ret|].
  eapply returns_bind; [by apply turn_step_ok|].
  intros [[st'|r]|e] Hf; [by apply IH|by apply returns_ret|by apply returns_ret].
Qed.
End laws.
