(* ===== verification/AgentTrace.v ===== *)
(** * What the turn loop does to the world

    The effects of the turn loop are recorded in a trace by an instrumented
    environment, and a monitor reads the trace: the protocol of provider
    calls, and of each tool call from its request through the approval and
    the execution to its terminal result.  A trace the monitor rejects is a
    violation: a tool run before its request is recorded or without the
    approval it needs, with other arguments than the ones approved, twice,
    or with its result reported twice. *)

From stdpp Require Import base list strings.
From Stdlib Require Import ZArith Lia.
From S2P Require Import Prelude Text Json Types Messages AgentStream AgentTurn AgentLaws.

#[local] Open Scope Z_scope.
#[local] Open Scope act_scope.

(** ** Effects *)

Inductive Effect : Type :=
  | EffLlmStarted (ordinal : Z)
  | EffLlmFinished (ordinal : Z)
  | EffRequested (request : TurnToolCallRequest) (r : Result ToolCallRequestDisposition)
  | EffEvaluated (request : ApprovalRequest) (r : Result (option ApprovalDecision))
  | EffApprovalRequested (request : TurnApprovalRequest) (r : Result unit)
  | EffApprovalResolved (approval : TurnApproval) (r : Result unit)
  | EffExecuted (tool_name : string) (arguments : Value)
  | EffFinished (result : ToolResultEnvelope).

Definition silent {W A} (m : Act W A) : Act (W * list Effect) A := fun w =>
  let '(a, w') := m w.1 in (a, (w', w.2)).

Definition logged {W A} (m : Act W A) (f : A -> Effect) : Act (W * list Effect) A := fun w =>
  let '(a, w') := m w.1 in (a, (w', w.2 ++ [f a])).

Definition traced_tool {W} (tool : ToolExecutor W) : ToolExecutor (W * list Effect) :=
  let name := ts_name (te_spec tool) in
  {| te_spec := te_spec tool;
     te_approval_requirement := te_approval_requirement tool;
     te_execute args root := logged (te_execute tool args root) (fun _ => EffExecuted name args);
     te_execute_or_cancel args root :=
       logged (te_execute_or_cancel tool args root) (fun _ => EffExecuted name args) |}.

Instance traced {W} (env : TurnEnv W) : TurnEnv (W * list Effect) := {|
  provider_id := provider_id;
  stream_completion q := silent (stream_completion q);
  completion_summary := completion_summary;
  tools_get name := traced_tool <$> tools_get name;
  evaluate q := logged (evaluate q) (EffEvaluated q);
  on_llm_call_started s := logged (on_llm_call_started s) (fun _ => EffLlmStarted (ls_ordinal s));
  on_chunk c := silent (on_chunk c);
  on_llm_call_finished f :=
    logged (on_llm_call_finished f) (fun _ => EffLlmFinished (lf_ordinal f));
  tool_call_requested r m := logged (tool_call_requested r m) (EffRequested r);
  tool_approval_requested a := logged (tool_approval_requested a) (EffApprovalRequested a);
  tool_approval_resolved a := logged (tool_approval_resolved a) (EffApprovalResolved a);
  tool_execution_finished r m := logged (tool_execution_finished r m) (fun _ => EffFinished r);
  is_cancelled := silent is_cancelled;
  cancel_ready := silent cancel_ready;
  fresh_message_id := silent fresh_message_id;
  now_utc := silent now_utc;
  elapsed_ms := silent elapsed_ms;
  from_str := from_str;
|}.

(** ** The monitor *)

(** The phases of one tool call, with the ordinal of the last provider call. *)
Inductive Phase : Type :=
  | Ready
  | CallingProvider
  | CallRecorded (r : TurnToolCallRequest)
  | CallApproved (r : TurnToolCallRequest) (q : ApprovalRequest) (d : ApprovalDecision)
  | CallDenied (r : TurnToolCallRequest) (q : ApprovalRequest) (d : ApprovalDecision)
  | CallUndecided (r : TurnToolCallRequest) (q : ApprovalRequest)
  | CallCleared (r : TurnToolCallRequest)
  | CallRefused (r : TurnToolCallRequest)
  | CallRan (r : TurnToolCallRequest)
  | CallWaiting (r : TurnToolCallRequest) (q : ApprovalRequest)
  | CallFailing (r : TurnToolCallRequest)
  | Stopped.

(** A terminal result that was made without running the tool. *)
Definition closes (r : TurnToolCallRequest) (result : ToolResultEnvelope) : bool :=
  tr_is_error result && bool_decide (tr_call_id result = ttr_call_id r)
  && bool_decide (tr_tool_name result = ttr_tool_name r).

(** The approval request asks for the call that was recorded. *)
Definition asks_for (q : ApprovalRequest) (r : TurnToolCallRequest) : bool :=
  bool_decide (rq_call_id q = ttr_call_id r)
  && bool_decide (rq_tool_name q = ttr_tool_name r)
  && bool_decide (rq_arguments q = ttr_arguments r).

Definition call_of (r : TurnToolCallRequest) (session_id : SessionId) : ParsedToolCall :=
  MkParsedToolCall session_id (ttr_call_id r) (ttr_tool_name r) (ttr_arguments r).

Section monitor.
(** The tool registry: a tool's spec and its approval requirement. *)
Context (session_id : SessionId).
Context (requirement : string -> Value -> option ApprovalRequirement).
Context (spec_name : string -> option string).

(** The execution is the one of the recorded call: the tool the name
    resolves to, on the recorded arguments with the call id added. *)
Definition runs (r : TurnToolCallRequest) (tool_name : string) (arguments : Value) : bool :=
  bool_decide (spec_name (ttr_tool_name r) = Some tool_name)
  && bool_decide (arguments = execution_arguments (call_of r session_id)).

Definition exempt (r : TurnToolCallRequest) : bool :=
  bool_decide (requirement (ttr_tool_name r) (ttr_arguments r) = Some ReqNever).

Definition guard_phase (b : bool) (p : Phase) : option Phase := if b then Some p else None.

(** The protocol of one tool call. *)
Definition call_step (p : Phase) (e : Effect) : option Phase :=
  match p, e with
  | Ready, EffRequested r (Ok Recorded) => Some (CallRecorded r)
  | Ready, EffRequested r _ => Some Stopped
  | CallRecorded r, EffEvaluated q d =>
      guard_phase (asks_for q r)
        match d with
        | Ok (Some (Approved _ _ _ _ as d)) => CallApproved r q d
        | Ok (Some (Denied _ _ _ _ _ as d)) => CallDenied r q d
        | Ok None => CallUndecided r q
        | Err _ => CallFailing r
        end
  | CallApproved r q d, EffApprovalResolved a o =>
      guard_phase (bool_decide (ta_request a = q /\ ta_decision a = d))
        (if is_ok o then CallCleared r else CallFailing r)
  | CallDenied r q d, EffApprovalResolved a o =>
      guard_phase (bool_decide (ta_request a = q /\ ta_decision a = d))
        (if is_ok o then CallRefused r else CallFailing r)
  | CallUndecided r q, EffApprovalRequested a o =>
      guard_phase (bool_decide (tar_request a = q))
        (if is_ok o then CallWaiting r q else CallFailing r)
  | CallRecorded r, EffExecuted name args =>
      guard_phase (exempt r && runs r name args) (CallRan r)
  | CallCleared r, EffExecuted name args => guard_phase (runs r name args) (CallRan r)
  | (CallRecorded r | CallCleared r | CallRefused r), EffFinished result =>
      guard_phase (closes r result) Ready
  | CallRan _, EffFinished _ => Some Ready
  | CallFailing r, EffFinished result => guard_phase (closes r result) Stopped
  | _, _ => None
  end.

(** The second component is the ordinal of the last provider call. *)
Definition monitor_step (s : Phase * Z) (e : Effect) : option (Phase * Z) :=
  let '(p, n) := s in
  match e with
  | EffLlmStarted k =>
      match p with
      | Ready => if k =? u32_add n 1 then Some (CallingProvider, k) else None
      | _ => None
      end
  | EffLlmFinished k =>
      match p with
      | CallingProvider => if k =? n then Some (Ready, n) else None
      | _ => None
      end
  | _ => (fun p' => (p', n)) <$> call_step p e
  end.

Fixpoint monitor_from (s : Phase * Z) (tr : list Effect) : option (Phase * Z) :=
  match tr with
  | [] => Some s
  | e :: tr' => s' ← monitor_step s e; monitor_from s' tr'
  end.

Definition monitor (tr : list Effect) : option (Phase * Z) := monitor_from (Ready, 0) tr.

Lemma monitor_from_app s tr tr' :
  monitor_from s (tr ++ tr') = monitor_from s tr ≫= fun s' => monitor_from s' tr'.
Proof.
  revert s; induction tr as [|e tr IH]; intros s; simpl; [done|].
  destruct (monitor_step s e); simpl; [apply IH|done].
Qed.

Lemma monitor_snoc tr e :
  monitor (tr ++ [e]) = monitor tr ≫= fun s => monitor_step s e.
Proof.
  unfold monitor. rewrite monitor_from_app. destruct (monitor_from _ tr) as [s|]; simpl; [|done].
  by destruct (monitor_step s e).
Qed.
End monitor.

(** ** Triples over the monitor's state *)

Section traces.
Context {W : Type} {env : TurnEnv W}.
Context (cancellable : bool) (session_id : SessionId).

Definition tool_requirement (name : string) (args : Value) : option ApprovalRequirement :=
  (fun tool : ToolExecutor W => te_approval_requirement tool args) <$> tools_get name.

Definition tool_spec_name (name : string) : option string :=
  (fun tool : ToolExecutor W => ts_name (te_spec tool)) <$> tools_get name.

Definition watch (tr : list Effect) : option (Phase * Z) :=
  monitor session_id tool_requirement tool_spec_name tr.

Definition watch_step (s : Phase * Z) (e : Effect) : option (Phase * Z) :=
  monitor_step session_id tool_requirement tool_spec_name s e.

Definition watched (w : W * list Effect) (s : Phase * Z) : Prop := watch w.2 = Some s.

#[local] Notation triple := (AgentLaws.triple watched).

Lemma triple_logged {A} s (m : Act W A) f (Q : A -> Phase * Z -> Prop) :
  (forall a, exists s', watch_step s (f a) = Some s' /\ Q a s') -> triple s (logged m f) Q.
Proof.
  intros H [w tr] Hw. unfold wp, logged. simpl. unfold watched. destruct (m w) as [a w']; simpl.
  destruct (H a) as (s' & Hs' & Ha). exists s'. split; [|done].
  unfold watched, watch in *. simpl in Hw |- *. by rewrite monitor_snoc, Hw.
Qed.

(** Actions without an effect on the trace. *)
Definition quiet {A} (m : Act (W * list Effect) A) : Prop := forall w, (m w).2.2 = w.2.

Lemma quiet_ret {A} (a : A) : quiet (mret a).
Proof. done. Qed.

Lemma quiet_silent {A} (m : Act W A) : quiet (silent m).
Proof. intros [w tr]. unfold silent. simpl. by destruct (m w). Qed.

Lemma quiet_bind {A B} (m : Act _ A) (k : A -> Act _ B) :
  quiet m -> (forall a, quiet (k a)) -> quiet (m ≫= k).
Proof.
  intros Hm Hk w. unfold mbind, act_bind. specialize (Hm w). destruct (m w) as [a w'].
  simpl in Hm. by rewrite Hk, Hm.
Qed.

Lemma triple_quiet {A} s (m : Act _ A) (Q : A -> Phase * Z -> Prop) :
  quiet m -> (forall a, Q a s) -> triple s m Q.
Proof. intros Hm HQ w Hw. exists s. split; [by red; rewrite Hm|apply HQ]. Qed.

Lemma triple_quiet_bind {A B} s (m : Act _ A) (k : A -> Act _ B) Q :
  quiet m -> (forall a, triple s (k a) Q) -> triple s (m ≫= k) Q.
Proof.
  intros Hm Hk. eapply triple_bind with (P := fun _ s' => s' = s); [by apply triple_quiet|].
  intros a s' ->. apply Hk.
Qed.

Lemma quiet_poll : quiet (poll_cancelled cancellable).
Proof. unfold poll_cancelled. destruct cancellable; [apply quiet_silent|apply quiet_ret]. Qed.

Lemma quiet_await : quiet (await_point cancellable).
Proof. unfold await_point. destruct cancellable; [apply quiet_silent|apply quiet_ret]. Qed.

Create HintDb quiet.
Hint Resolve quiet_ret quiet_silent quiet_poll quiet_await : quiet.

Lemma quiet_collect_stream ordinal st stream :
  quiet (collect_stream cancellable ordinal st stream).
Proof.
  revert st; induction stream as [|[chunk|e] stream IH]; intros st; simpl;
    (apply quiet_bind; [auto with quiet|]; intros []; auto with quiet).
  apply quiet_bind; [apply quiet_silent|]. intros [u|e]; auto with quiet.
  destruct (collect_chunk _ _ _); auto with quiet.
Qed.

Lemma quiet_await_response ordinal request :
  quiet (await_response cancellable ordinal request).
Proof.
  unfold await_response, response_future. apply quiet_bind.
  - apply quiet_bind; [auto with quiet|]. intros []; auto with quiet.
    apply quiet_bind; [apply quiet_silent|]. intros []; auto with quiet.
    apply quiet_collect_stream.
  - intros [r|]; auto with quiet. apply quiet_bind; [auto with quiet|].
    intros []; auto with quiet.
Qed.

(** ** The provider call *)

Definition ready (st : TurnState) (s : Phase * Z) : Prop :=
  s = (Ready, st_llm_call_ordinal st) /\ tq_session_id (st_turn st) = session_id.

(** The phase a successful turn ends in. *)
Definition final_ok (r : TurnResult) (s : Phase * Z) : Prop :=
  match s.1 with
  | Ready => res_approval_requests r = [] /\ res_input_requests r = []
  | Stopped => res_finish_reason r = FrCancelled
  | CallRecorded c => exists i, res_input_requests r = [i] /\ tir_call_id i = ttr_call_id c
  | CallWaiting c q => exists a, res_approval_requests r = [a] /\ tar_request a = q
  | _ => False
  end.

Lemma finish_llm_call_triple n model reason usage :
  triple (CallingProvider, n) (finish_llm_call n model reason usage)
    (at_ok (fun _ s => s = (Ready, n))).
Proof.
  apply triple_quiet_bind; [apply quiet_silent|]. intros latency.
  apply triple_try with (P := fun _ s => s = (CallingProvider, n)).
  { apply triple_ret. by destruct (completion_summary _). }
  intros summary s ->. eapply triple_try with (P := fun _ s => s = (Ready, n)).
  - apply triple_logged. intros a. exists (Ready, n). unfold watch_step. simpl.
    rewrite Z.eqb_refl. split; [done|]. by destruct a.
  - intros _ s ->. by apply triple_ret.
Qed.

Lemma accept_response_triple st n response :
  tq_session_id (st_turn st) = session_id ->
  triple (CallingProvider, n) (accept_response st n response) (at_ok ready).
Proof.
  intros Hs. eapply triple_try; [apply finish_llm_call_triple|]. intros summary s ->.
  destruct (rs_assistant_parts response); [by apply triple_ret|].
  apply triple_quiet_bind; [apply quiet_silent|]; intros id.
  apply triple_quiet_bind; [apply quiet_silent|]; intros now.
  by apply triple_ret.
Qed.

Lemma llm_step_triple st s :
  ready st s ->
  triple s (llm_step cancellable st) (at_ok (fun x s' =>
    match x with inl r => final_ok r s' | inr (st', _) => ready st' s' end)).
Proof.
  intros [-> Hs]. unfold llm_step. apply triple_quiet_bind; [apply quiet_poll|].
  intros []; [by apply triple_ret|].
  set (n := u32_add (st_llm_call_ordinal st) 1).
  eapply triple_try with (P := fun _ s => s = (CallingProvider, n)).
  { apply triple_logged. intros a. exists (CallingProvider, n). unfold watch_step. simpl.
    fold n. rewrite Z.eqb_refl. split; [done|]. by destruct a. }
  intros _ s ->. eapply triple_try with (P := fun _ s => s = (CallingProvider, n)).
  { apply triple_quiet; [apply quiet_await_response|]. by intros []. }
  intros [response|] s ->.
  2:{ eapply triple_try; [apply finish_llm_call_triple|]. intros _ s ->. by apply triple_ret. }
  apply triple_quiet_bind; [apply quiet_poll|]. intros [].
  { eapply triple_try; [apply finish_llm_call_triple|]. intros _ s ->. by apply triple_ret. }
  eapply triple_try; [by apply accept_response_triple|]. intros st' s' [-> Hs'].
  by destruct (rs_tool_calls response); apply triple_ret.
Qed.
(** ** One tool call *)

Definition recorded (t : ParsedToolCall) (tool : ToolExecutor W) : TurnToolCallRequest :=
  MkTurnToolCallRequest (pt_call_id t) (pt_tool_name t) (pt_arguments t)
    (ts_metadata (te_spec tool)).

Definition in_call (p : Phase) (st : TurnState) (s : Phase * Z) : Prop :=
  s = (p, st_llm_call_ordinal st) /\ tq_session_id (st_turn st) = session_id.

Lemma closes_refl t tool result :
  tr_is_error result = true -> tr_call_id result = pt_call_id t ->
  tr_tool_name result = pt_tool_name t -> closes (recorded t tool) result = true.
Proof. intros H1 H2 H3. unfold closes. by rewrite H1, H2, H3, !bool_decide_true. Qed.

Lemma finished_triple p c n result message :
  watch_step (p, n) (EffFinished result) = Some (c, n) ->
  triple (p, n) (tool_execution_finished (TurnEnv := traced env) result message)
    (at_ok (fun _ s => s = (c, n))).
Proof.
  intros H. apply triple_logged. intros a. exists (c, n). split; [done|]. by destruct a.
Qed.

Lemma begin_tool_call_triple st s t message tool :
  in_call Ready st s ->
  triple s (begin_tool_call cancellable st t message (traced_tool tool))
    (at_ok (fun x s' => match x with
      | inl r => final_ok r s'
      | inr st' => in_call (CallRecorded (recorded t tool)) st' s' end)).
Proof.
  intros [-> Hs]. unfold begin_tool_call.
  eapply triple_try with (P := fun o s => s = (Ready, st_llm_call_ordinal st)
    /\ (forall i, o = Some i -> tir_call_id i = pt_call_id t)).
  { apply triple_ret. destruct (tm_execution_mode _); [done|].
    unfold parse_input_request. simpl.
    destruct (value_get "question" (pt_arguments t)) as [[| | |q| |]|]; simpl; try done.
    destruct (is_blank q); simpl; [done|]. split; [done|]. by intros ? [= <-]. }
  intros input s [-> Hinput].
  eapply triple_try with (P := fun d s => s = (match d with
    Recorded => CallRecorded (recorded t tool) | DispositionCancelled => Stopped end,
    st_llm_call_ordinal st)).
  { apply triple_logged. intros [[]|e]; eexists; (split; [done|]); done. }
  intros [] s ->; [|by apply triple_ret].
  apply triple_quiet_bind; [apply quiet_poll|]. intros [].
  - apply triple_quiet_bind; [apply quiet_silent|]; intros id'.
    apply triple_quiet_bind; [apply quiet_silent|]; intros now'.
    eapply triple_try; [apply (finished_triple _ Ready)|].
    { unfold watch_step. simpl. fold (recorded t tool). by rewrite closes_refl. }
    intros _ s ->. by apply triple_ret.
  - destruct input as [i|]; apply triple_ret; [|done].
    exists i. split; [done|]. by apply Hinput.
Qed.

Definition outcome_result (t : ParsedToolCall) (o : ToolExecutionOutcome) : ToolResultEnvelope :=
  match o with
  | OutcomeFinished result | OutcomeCancelled result => result
  | OutcomeFailed error => tool_error_result t error
  end.

(** The terminal result of the outcome may be reported in this phase. *)
Definition closable (t : ParsedToolCall) (tool : ToolExecutor W) (o : ToolExecutionOutcome)
    (p : Phase) : Prop :=
  match p with
  | CallRan _ => True
  | CallRecorded c | CallCleared c | CallRefused c =>
      c = recorded t tool /\ closes c (outcome_result t o) = true
  | _ => False
  end.

Lemma runs_recorded t tool :
  pt_session_id t = session_id -> tools_get (pt_tool_name t) = Some tool ->
  runs session_id tool_spec_name (recorded t tool) (ts_name (te_spec tool))
    (execution_arguments t) = true.
Proof.
  intros Hs Ht. unfold runs, tool_spec_name, recorded, call_of; simpl. rewrite Ht. simpl.
  subst session_id. rewrite !bool_decide_true; [done| |done]. by destruct t.
Qed.

Lemma execute_tool_call_triple p n t tool root :
  pt_session_id t = session_id -> tools_get (pt_tool_name t) = Some tool ->
  (p = CallCleared (recorded t tool)
   \/ p = CallRecorded (recorded t tool)
      /\ te_approval_requirement tool (pt_arguments t) = ReqNever) ->
  triple (p, n) (execute_tool_call cancellable t root)
    (fun o s => exists p', s = (p', n) /\ closable t tool o p').
Proof.
  intros Hs Ht Hp. unfold execute_tool_call. simpl. rewrite Ht. simpl.
  apply triple_quiet_bind; [apply quiet_poll|]. intros [].
  { apply triple_ret. exists p. split; [done|].
    destruct Hp as [->|[-> _]]; (split; [done|]; by apply closes_refl). }
  assert (forall A (m : Act W A), triple (p, n)
    (logged m (fun _ => EffExecuted (ts_name (te_spec tool)) (execution_arguments t)))
    (fun _ s => s = (CallRan (recorded t tool), n))) as Hrun.
  { intros A m. apply triple_logged. intros a. eexists. split; [|done].
    unfold watch_step. destruct Hp as [->|[-> Hn]]; simpl.
    - by rewrite runs_recorded.
    - rewrite runs_recorded by done. unfold exempt, tool_requirement. simpl.
      rewrite Ht. simpl. by rewrite Hn, bool_decide_true. }
  destruct (_ && _).
  - eapply triple_bind; [apply Hrun|]. intros [[r|e]|] s ->; apply triple_ret; by eexists.
  - eapply triple_bind; [apply Hrun|]. intros [r|e] s ->; [|apply triple_ret; by eexists].
    apply triple_quiet_bind; [apply quiet_poll|]. intros []; apply triple_ret; by eexists.
Qed.

(** The lifecycle failure is reported only in the failing phase. *)
Lemma or_observe_triple {A} s t tool n (m : Act _ (Result A)) (Q : A -> Phase * Z -> Prop) :
  triple s m (fun r s' => match r with
    | Ok a => Q a s' | Err _ => s' = (CallFailing (recorded t tool), n) end) ->
  triple s (or_observe t m) (at_ok Q).
Proof.
  intros Hm. eapply triple_bind; [exact Hm|]. intros [a|e] s'; [by intros; apply triple_ret|].
  intros ->. eapply triple_try with (P := fun _ _ => True).
  - apply triple_quiet_bind; [apply quiet_silent|]; intros id'.
    apply triple_quiet_bind; [apply quiet_silent|]; intros now'.
    eapply triple_mono; [apply (finished_triple _ Stopped)|by intros []].
    unfold watch_step. simpl. by rewrite closes_refl.
  - intros u s'' _. by apply triple_ret.
Qed.

Lemma approval_outcome_triple n t tool requirement metadata :
  let c := recorded t tool in
  triple (CallRecorded c, n) (approval_outcome t requirement metadata)
    (fun r s => match r with
      | Ok NotNeeded => s = (CallRecorded c, n) /\ requirement = ReqNever
      | Ok (OutcomeApproved q d) => s = (CallApproved c q d, n)
      | Ok (OutcomeDenied q d) => s = (CallDenied c q d, n)
      | Ok (OutcomePending q) => s = (CallUndecided c q, n)
      | Err _ => s = (CallFailing c, n)
      end).
Proof.
  intros c.
  (* the evaluator's answer decides the phase *)
  set (next := fun (q : ApprovalRequest) (r : Result (option ApprovalDecision)) =>
    match r with
    | Ok (Some (Approved _ _ _ _ as d)) => CallApproved c q d
    | Ok (Some (Denied _ _ _ _ _ as d)) => CallDenied c q d
    | Ok None => CallUndecided c q
    | Err _ => CallFailing c
    end).
  assert (forall q : ApprovalRequest, asks_for q c = true ->
    triple (CallRecorded c, n) (evaluate (TurnEnv := traced env) q)
      (fun r s => s = (next q r, n))) as Heval.
  { intros q Hq. apply triple_logged. intros r. eexists. split; [|done].
    unfold watch_step. simpl. rewrite Hq. by destruct r as [[[]|]|]. }
  unfold approval_outcome. destruct requirement; try by apply triple_ret.
  all: apply triple_quiet_bind; [apply quiet_silent|]; intros now.
  all: unfold try_bind; eapply triple_bind; [apply Heval|].
  all: try (unfold asks_for; simpl; by rewrite !bool_decide_true).
  all: intros [[[]|]|] s ->; by apply triple_ret.
Qed.

Lemma resolve_tool_call_triple st s t tool :
  pt_session_id t = session_id -> tools_get (pt_tool_name t) = Some tool ->
  in_call (CallRecorded (recorded t tool)) st s ->
  triple s (resolve_tool_call cancellable st t (traced_tool tool))
    (at_ok (fun x s' => match x with
      | inl r => final_ok r s'
      | inr (st', o) => exists p, in_call p st' s' /\ closable t tool o p end)).
Proof.
  intros Hs Ht [-> Hst]. unfold resolve_tool_call.
  eapply triple_try.
  { apply or_observe_triple with (tool := tool) (n := st_llm_call_ordinal st).
    eapply triple_mono; [apply approval_outcome_triple|].
    intros [o|e] s' H; [exact H|exact H]. }
  intros o s' Ho.
  assert (forall p st', st_llm_call_ordinal st' = st_llm_call_ordinal st ->
    tq_session_id (st_turn st') = session_id ->
    (p = CallCleared (recorded t tool)
     \/ p = CallRecorded (recorded t tool)
        /\ te_approval_requirement tool (pt_arguments t) = ReqNever) ->
    triple (p, st_llm_call_ordinal st)
      (result ← execute_tool_call cancellable t (tq_project_root (st_turn st'));
       mret (Ok (inr (st', result))))
      (at_ok (fun x s' => match x with
        | inl r => final_ok r s'
        | inr (st', o) => exists p, in_call p st' s' /\ closable t tool o p end))) as Hrun.
  { intros p st' Hn Hs' Hp. eapply triple_bind; [by apply execute_tool_call_triple|].
    intros out s'' (p' & -> & Hc). apply triple_ret. exists p'. by rewrite <- Hn. }
  destruct o as [|q d|q d|q].
  - destruct Ho as [-> Hn]. apply Hrun; auto.
  - subst s'. eapply triple_try with
      (P := fun _ s => s = (CallCleared (recorded t tool), st_llm_call_ordinal st)).
    { apply or_observe_triple with (tool := tool) (n := st_llm_call_ordinal st). apply triple_logged.
      intros r. eexists. unfold watch_step. simpl.
      rewrite bool_decide_true by done. split; [done|]. by destruct r. }
    intros _ s ->. apply Hrun; auto.
  - subst s'. eapply triple_try with
      (P := fun _ s => s = (CallRefused (recorded t tool), st_llm_call_ordinal st)).
    { apply or_observe_triple with (tool := tool) (n := st_llm_call_ordinal st). apply triple_logged.
      intros r. eexists. unfold watch_step. simpl.
      rewrite bool_decide_true by done. split; [done|]. by destruct r. }
    intros _ s ->. apply triple_ret. eexists. split; [done|]. simpl.
    split; [done|by apply closes_refl].
  - subst s'. eapply triple_try with
      (P := fun _ s => s = (CallWaiting (recorded t tool) q, st_llm_call_ordinal st)).
    { apply or_observe_triple with (tool := tool) (n := st_llm_call_ordinal st). apply triple_logged.
      intros r. eexists. unfold watch_step. simpl.
      rewrite bool_decide_true by done. split; [done|]. by destruct r. }
    intros _ s ->. apply triple_ret. by eexists.
Qed.

Definition flow_at (f : Flow) (s : Phase * Z) : Prop :=
  match f with Continue st => ready st s | Return r => final_ok r s end.

Lemma conclude_tool_call_triple st s p t tool o :
  in_call p st s -> closable t tool o p ->
  triple s (conclude_tool_call cancellable st t o) (at_ok flow_at).
Proof.
  intros [-> Hs] Hc. unfold conclude_tool_call.
  destruct (match o with OutcomeFinished _ => _ | _ => _ end) as [result cancelled] eqn:E.
  assert (result = outcome_result t o) as -> by (destruct o; by simplify_eq).
  apply triple_quiet_bind; [apply quiet_silent|]; intros id.
  apply triple_quiet_bind; [apply quiet_silent|]; intros now.
  eapply triple_try; [apply (finished_triple _ Ready)|].
  { unfold watch_step. destruct p; simpl in *; try done; destruct Hc as [_ ->]; done. }
  intros _ s ->. apply triple_quiet_bind; [destruct cancelled; auto with quiet|].
  intros []; by apply triple_ret.
Qed.

Lemma tool_call_step_triple st s call :
  ready st s -> triple s (tool_call_step cancellable st call) (at_ok flow_at).
Proof.
  intros Hst. unfold tool_call_step. unfold parse_tool_call.
  eapply triple_try with (P := fun t s' => s' = s /\ pt_session_id t = session_id).
  { apply triple_ret. split; [done|]. simpl. by destruct Hst. }
  intros t s' [-> Ht]. apply triple_quiet_bind; [apply quiet_silent|]; intros id.
  apply triple_quiet_bind; [apply quiet_silent|]; intros now.
  eapply triple_try with (P := fun traced s' => s' = s /\ exists tool,
    traced = traced_tool tool /\ tools_get (pt_tool_name t) = Some tool).
  { apply triple_ret. simpl. destruct (tools_get (pt_tool_name t)) as [tool|]; simpl; [|done].
    split; [done|]. by exists tool. }
  intros traced s' (-> & tool & -> & Hget).
  eapply triple_try; [by apply begin_tool_call_triple|].
  intros [r|st'] s' Hx; [by apply triple_ret|].
  eapply triple_try; [by apply resolve_tool_call_triple|].
  intros [r|[st'' o]] s''; [by intros; apply triple_ret|]. intros (p & Hp & Hc).
  by eapply conclude_tool_call_triple.
Qed.

(** ** The loop *)

Lemma tool_calls_loop_triple st s calls :
  ready st s -> triple s (tool_calls_loop cancellable st calls) (at_ok flow_at).
Proof.
  revert st s; induction calls as [|call calls IH]; intros st s Hst; [by apply triple_ret|].
  eapply triple_try; [by apply tool_call_step_triple|].
  intros [st'|r] s' Hf; [by apply IH|by apply triple_ret].
Qed.

Lemma run_loop_triple fuel st s :
  ready st s ->
  triple s (run_loop cancellable fuel st) (fun o s' =>
    match o with Some r => at_ok final_ok r s' | None => True end).
Proof.
  revert st s; induction fuel as [|fuel IH]; intros st s Hst; [by apply triple_ret|].
  eapply triple_bind with (P := at_ok flow_at).
  - eapply triple_try; [by apply llm_step_triple|].
    intros [r|[st' calls]] s' Hx; [by apply triple_ret|]. by apply tool_calls_loop_triple.
  - intros [[st'|r]|e] s' Hf; [by apply IH|by apply triple_ret|by apply triple_ret].
Qed.

(** ** Reading an accepted trace backwards *)

Lemma watch_snoc tr e s :
  watch (tr ++ [e]) = Some s -> exists s', watch tr = Some s' /\ watch_step s' e = Some s.
Proof.
  unfold watch. rewrite monitor_snoc. intros H. by apply bind_Some in H.
Qed.

(** The last effect that led to a phase, and the phase before it. *)
Lemma watch_last tr s :
  watch tr = Some s -> s <> (Ready, 0) ->
  exists tr' e s', tr = tr' ++ [e] /\ watch tr' = Some s' /\ watch_step s' e = Some s.
Proof.
  intros H Hs. destruct (decide (tr = [])) as [->|Hne].
  { exfalso. apply Hs. by injection H. }
  destruct (exists_last Hne) as (tr' & e & ->).
  apply watch_snoc in H as (s' & H1 & H2). by exists tr', e, s'.
Qed.

Lemma watch_step_inv p n e p' n' :
  watch_step (p, n) e = Some (p', n') ->
  match p' with
  | CallRecorded c => p = Ready /\ e = EffRequested c (Ok Recorded)
  | CallApproved c q d => p = CallRecorded c /\ asks_for q c = true
      /\ exists a b s o, d = Approved a b s o /\ e = EffEvaluated q (Ok (Some d))
  | CallCleared c => exists q d a, p = CallApproved c q d /\ ta_request a = q
      /\ ta_decision a = d /\ e = EffApprovalResolved a (Ok tt)
  | _ => True
  end.
Proof.
  unfold watch_step, monitor_step. intros H.
  destruct e as [k|k|r d|q d|a o|a o|name args|res].
  1,2: destruct p; repeat case_match; by simplify_eq.
  all: apply fmap_Some in H as (p'' & H & Heq); simplify_eq.
  all: destruct p; simpl in H; try discriminate; unfold guard_phase in H;
    repeat case_match; simplify_eq; try done.
  - split_and!; try done. by repeat eexists.
  - destruct o as [[]|]; [|done]. simpl in *. simplify_eq. apply bool_decide_eq_true in H0 as [].
    by repeat eexists.
Qed.

Lemma watch_recorded tr c n :
  watch tr = Some (CallRecorded c, n) ->
  exists tr', tr = tr' ++ [EffRequested c (Ok Recorded)].
Proof.
  intros (tr' & e & [p m] & -> & _ & [_ ->]%watch_step_inv)%watch_last; [|done].
  by exists tr'.
Qed.

Lemma watch_cleared tr c n :
  watch tr = Some (CallCleared c, n) ->
  exists tr' q a decided_at decided_by scope source,
    tr = tr' ++ [EffRequested c (Ok Recorded);
      EffEvaluated q (Ok (Some (Approved decided_at decided_by scope source)));
      EffApprovalResolved a (Ok tt)]
    /\ ta_request a = q /\ asks_for q c = true.
Proof.
  intros (tr1 & e1 & [p1 n1] & -> & H1 & S1)%watch_last; [|done].
  apply watch_step_inv in S1 as (q & d & a & -> & Hq & _ & ->).
  apply watch_last in H1 as (tr2 & e2 & [p2 n2] & -> & H2 & S2); [|done].
  apply watch_step_inv in S2 as (-> & Hask & t & b & s & o & -> & ->).
  apply watch_recorded in H2 as (tr3 & ->).
  exists tr3, q, a, t, b, s, o. by rewrite <- !app_assoc.
Qed.

Lemma watch_executed pre name args post s :
  watch (pre ++ EffExecuted name args :: post) = Some s ->
  exists c before,
    tool_spec_name (ttr_tool_name c) = Some name
    /\ args = execution_arguments (call_of c session_id)
    /\ ((pre = before ++ [EffRequested c (Ok Recorded)]
          /\ tool_requirement (ttr_tool_name c) (ttr_arguments c) = Some ReqNever)
        \/ exists q a decided_at decided_by scope source,
            pre = before ++ [EffRequested c (Ok Recorded);
              EffEvaluated q (Ok (Some (Approved decided_at decided_by scope source)));
              EffApprovalResolved a (Ok tt)]
            /\ ta_request a = q
            /\ rq_call_id q = ttr_call_id c /\ rq_tool_name q = ttr_tool_name c
            /\ rq_arguments q = ttr_arguments c).
Proof.
  assert (watch (pre ++ EffExecuted name args :: post) = watch pre ≫= fun s' =>
    monitor_from session_id tool_requirement tool_spec_name s'
      (EffExecuted name args :: post)) as -> by apply monitor_from_app.
  destruct (watch pre) as [[p n]|] eqn:Hpre; simpl; [|done].
  destruct p; simpl; try done; unfold guard_phase, runs, exempt.
  - destruct (_ && _) eqn:E; simpl; [|done]. intros _.
    apply andb_true_iff in E as [E1 [E2 E3]%andb_true_iff].
    apply bool_decide_eq_true in E1, E2, E3.
    apply watch_recorded in Hpre as (before & ->). exists r, before. auto.
  - destruct (_ && _) eqn:E; simpl; [|done]. intros _.
    apply andb_true_iff in E as [E2 E3]. apply bool_decide_eq_true in E2, E3.
    apply watch_cleared in Hpre as (before & q & a & t & b & s' & o & -> & Hq & Hask).
    exists r, before. split_and!; [done|done|]. right.
    unfold asks_for in Hask. apply andb_true_iff in Hask as [[A1 A2]%andb_true_iff A3].
    apply bool_decide_eq_true in A1, A2, A3. by exists q, a, t, b, s', o.
Qed.
End traces.
