(* ===== verification/AgentRun.v ===== *)
(** * Running the turn loop: erasure, termination, a scripted world

    The instrumented environment of [AgentTrace] changes nothing but the
    trace; the loop ends once the provider stops asking for tools; and a
    scripted world on which both can be run. *)

From stdpp Require Import base list strings.
From Stdlib Require Import ZArith Lia.
From S2P Require Import Prelude Text Json Types Messages AgentStream AgentTurn AgentLaws AgentTrace.

#[local] Open Scope Z_scope.
#[local] Open Scope act_scope.

(** ** Erasure of the trace *)

Section erasure.
Context {W : Type} (env : TurnEnv W) (cancellable : bool).

Definition erases {A} (m' : Act (W * list Effect) A) (m : Act W A) : Prop :=
  forall w, (m' w).1 = (m w.1).1 /\ (m' w).2.1 = (m w.1).2.

Lemma erases_ret {A} (a : A) : erases (mret a) (mret a).
Proof. done. Qed.

Lemma erases_silent {A} (m : Act W A) : erases (silent m) m.
Proof. intros [w tr]. unfold silent. simpl. by destruct (m w). Qed.

Lemma erases_logged {A} (m : Act W A) f : erases (logged m f) m.
Proof. intros [w tr]. unfold logged. simpl. by destruct (m w). Qed.

Lemma erases_bind {A B} (m' : Act _ A) m (k' : A -> Act _ B) k :
  erases m' m -> (forall a, erases (k' a) (k a)) -> erases (m' ≫= k') (m ≫= k).
Proof.
  intros Hm Hk w. unfold mbind, act_bind. destruct (Hm w) as [H1 H2].
  destruct (m' w) as [a' w'], (m w.1) as [a v]; simpl in *; subst. apply Hk.
Qed.

Lemma erases_try {A B} (m' : Act _ (Result A)) m (k' : A -> Act _ (Result B)) k :
  erases m' m -> (forall a, erases (k' a) (k a)) -> erases (try_bind m' k') (try_bind m k).
Proof. intros Hm Hk. apply erases_bind; [done|]. intros [a|e]; [apply Hk|apply erases_ret]. Qed.

(** A pure result that the two sides represent differently. *)
Lemma erases_ok {A' A B} (a' : A') (a : A) (k' : A' -> Act _ (Result B)) k :
  erases (k' a') (k a) -> erases (try_bind (mret (Ok a')) k') (try_bind (mret (Ok a)) k).
Proof. done. Qed.

(** Both sides run the same program: follow it. *)
Ltac follow :=
  repeat first
    [ progress intros
    | apply erases_ret | apply erases_silent | apply erases_logged
    | apply erases_try | apply erases_bind
    | case_match ].

Lemma erases_poll :
  erases (poll_cancelled (env := traced env) cancellable) (poll_cancelled cancellable).
Proof. unfold poll_cancelled. follow. Qed.

Lemma erases_await :
  erases (await_point (env := traced env) cancellable) (await_point cancellable).
Proof. unfold await_point. follow. Qed.

Lemma erases_collect_stream ordinal st stream :
  erases (collect_stream (env := traced env) cancellable ordinal st stream)
    (collect_stream cancellable ordinal st stream).
Proof.
  revert st; induction stream as [|[chunk|e] stream IH]; intros st; simpl;
    (apply erases_bind; [apply erases_await|]; intros []; follow).
  apply IH.
Qed.

Lemma erases_await_response ordinal request :
  erases (await_response (env := traced env) cancellable ordinal request)
    (await_response cancellable ordinal request).
Proof.
  unfold await_response, response_future. apply erases_bind; [apply erases_bind|].
  - apply erases_await.
  - intros []; [apply erases_ret|]. apply erases_bind; [apply erases_silent|].
    intros []; [apply erases_collect_stream|apply erases_ret].
  - intros [r|]; [|apply erases_ret]. apply erases_bind; [apply erases_poll|].
    intros []; apply erases_ret.
Qed.

Lemma erases_finish n model reason usage :
  erases (finish_llm_call (env := traced env) n model reason usage)
    (finish_llm_call n model reason usage).
Proof. unfold finish_llm_call. follow. Qed.

Lemma erases_llm_step st :
  erases (llm_step (env := traced env) cancellable st) (llm_step cancellable st).
Proof.
  unfold llm_step, accept_response.
  repeat first
    [ apply erases_poll | apply erases_await_response | apply erases_finish
    | apply erases_ret | apply erases_silent | apply erases_logged
    | apply erases_try | apply erases_bind | progress intros | case_match ].
Qed.

Lemma erases_execute t root :
  erases (execute_tool_call (env := traced env) cancellable t root)
    (execute_tool_call cancellable t root).
Proof.
  unfold execute_tool_call. simpl. destruct (tools_get (pt_tool_name t)) as [tool|]; simpl;
    [|apply erases_ret].
  repeat first [ apply erases_poll | apply erases_ret | apply erases_logged
    | apply erases_bind | progress intros | case_match ].
Qed.

Lemma erases_or_observe {A} t (m' : Act _ (Result A)) m :
  erases m' m -> erases (or_observe (env := traced env) t m') (or_observe t m).
Proof. intros Hm. unfold or_observe, observe_tool_lifecycle_failure. follow. done. Qed.

Lemma erases_approval t requirement metadata :
  erases (approval_outcome (env := traced env) t requirement metadata)
    (approval_outcome t requirement metadata).
Proof. unfold approval_outcome. destruct requirement; follow. Qed.

Lemma erases_begin st t message tool :
  erases (begin_tool_call (env := traced env) cancellable st t message (traced_tool tool))
    (begin_tool_call cancellable st t message tool).
Proof.
  unfold begin_tool_call. simpl.
  repeat first
    [ apply erases_poll | apply erases_ret | apply erases_silent | apply erases_logged
    | apply erases_try | apply erases_bind | progress intros | case_match ].
Qed.

Lemma erases_resolve st t tool :
  erases (resolve_tool_call (env := traced env) cancellable st t (traced_tool tool))
    (resolve_tool_call cancellable st t tool).
Proof.
  unfold resolve_tool_call. apply erases_try.
  { apply erases_or_observe, erases_approval. }
  repeat first
    [ apply erases_execute | apply erases_or_observe | apply erases_ret | apply erases_logged
    | apply erases_try | apply erases_bind | progress intros | case_match ].
Qed.

Lemma erases_tool_call_step st call :
  erases (tool_call_step (env := traced env) cancellable st call)
    (tool_call_step cancellable st call).
Proof.
  unfold tool_call_step. apply erases_try; [apply erases_ret|]. intros t.
  do 2 (apply erases_bind; [apply erases_silent|]; intros ?).
  simpl. destruct (tools_get (pt_tool_name t)) as [tool|]; simpl; [|apply erases_ret].
  apply erases_ok. apply erases_try; [apply erases_begin|]. intros [r|st']; [apply erases_ret|].
  apply erases_try; [apply erases_resolve|]. intros [r|[st'' o]]; [apply erases_ret|].
  unfold conclude_tool_call.
  repeat first
    [ apply erases_poll | apply erases_ret | apply erases_silent | apply erases_logged
    | apply erases_try | apply erases_bind | progress intros | case_match ].
Qed.

Lemma erases_tool_calls_loop st calls :
  erases (tool_calls_loop (env := traced env) cancellable st calls)
    (tool_calls_loop cancellable st calls).
Proof.
  revert st; induction calls as [|call calls IH]; intros st; simpl; [apply erases_ret|].
  apply erases_try; [apply erases_tool_call_step|]. intros []; [apply IH|apply erases_ret].
Qed.

Lemma erases_run_loop fuel st :
  erases (run_loop (env := traced env) cancellable fuel st) (run_loop cancellable fuel st).
Proof.
  revert st; induction fuel as [|fuel IH]; intros st; simpl; [apply erases_ret|].
  apply erases_bind.
  - apply erases_try; [apply erases_llm_step|].
    intros [r|[st' calls]]; [apply erases_ret|apply erases_tool_calls_loop].
  - intros [[]|]; [apply IH|apply erases_ret|apply erases_ret].
Qed.
End erasure.

(** ** Termination *)

(** A chunk that opens a call, the only way for a response to ask for one. *)
Definition opens_call (c : Result CompletionChunk) : bool :=
  match c with
  | Ok chunk => any (fun d => match d with OpenToolCall _ _ _ => true | _ => false end)
                  (ck_deltas chunk)
  | Err _ => false
  end.

Section termination.
Context {W : Type} {env : TurnEnv W} (cancellable : bool).
(** How often the provider can still ask for a tool. *)
Context (asks : W -> nat).

Definition calm {A} (m : Act W A) : Prop := forall w, (asks (m w).2 <= asks w)%nat.

(** The provider asks for tools only so often, and nothing refills it. *)
Class FiniteAsks : Prop := {
  stream_asks q w chunks :
    (stream_completion q w).1 = Ok chunks -> any opens_call chunks = true ->
    (asks (stream_completion q w).2 < asks w)%nat;
  stream_calm q : calm (stream_completion q);
  execute_calm name tool args root :
    tools_get name = Some tool -> calm (te_execute tool args root);
  execute_or_cancel_calm name tool args root :
    tools_get name = Some tool -> calm (te_execute_or_cancel tool args root);
  evaluate_calm q : calm (evaluate q);
  started_calm s : calm (on_llm_call_started s);
  chunk_calm c : calm (on_chunk c);
  finished_calm f : calm (on_llm_call_finished f);
  requested_calm r m : calm (tool_call_requested r m);
  approval_requested_calm a : calm (tool_approval_requested a);
  approval_resolved_calm a : calm (tool_approval_resolved a);
  execution_finished_calm r m : calm (tool_execution_finished r m);
  is_cancelled_calm : calm is_cancelled;
  cancel_ready_calm : calm cancel_ready;
  fresh_calm : calm fresh_message_id;
  now_calm : calm now_utc;
  elapsed_calm : calm elapsed_ms;
}.
Context `{finite : !FiniteAsks}.

Lemma calm_ret {A} (a : A) : calm (mret a).
Proof. intros w. simpl. lia. Qed.

Lemma calm_bind {A B} (m : Act W A) (k : A -> Act W B) :
  calm m -> (forall a, calm (k a)) -> calm (m ≫= k).
Proof.
  intros Hm Hk w. unfold mbind, act_bind. specialize (Hm w).
  destruct (m w) as [a w']; simpl in *. specialize (Hk a w'). lia.
Qed.

Lemma calm_try {A B} (m : Act W (Result A)) (k : A -> Act W (Result B)) :
  calm m -> (forall a, calm (k a)) -> calm (try_bind m k).
Proof. intros Hm Hk. apply calm_bind; [done|]. intros [a|e]; [apply Hk|apply calm_ret]. Qed.

Create HintDb calm.
Hint Resolve calm_ret evaluate_calm started_calm chunk_calm finished_calm requested_calm
  approval_requested_calm approval_resolved_calm execution_finished_calm is_cancelled_calm
  cancel_ready_calm fresh_calm now_calm elapsed_calm execute_calm execute_or_cancel_calm : calm.

Ltac calm :=
  repeat first
    [ solve [eauto with calm] | apply calm_try | apply calm_bind | progress intros | case_match ].

Lemma poll_calm : calm (poll_cancelled cancellable).
Proof. unfold poll_cancelled. calm. Qed.
Lemma await_calm : calm (await_point cancellable).
Proof. unfold await_point. calm. Qed.
Hint Resolve poll_calm await_calm : calm.

Lemma execute_tool_call_calm t root : calm (execute_tool_call cancellable t root).
Proof.
  unfold execute_tool_call. destruct (tools_get _) as [tool|] eqn:E; [|calm].
  apply calm_bind; [calm|]. intros []; [calm|].
  destruct (_ && _); (apply calm_bind; [by eauto with calm|]); calm.
Qed.
Hint Resolve execute_tool_call_calm : calm.

Lemma or_observe_calm {A} t (m : Act W (Result A)) : calm m -> calm (or_observe t m).
Proof. intros Hm. unfold or_observe, observe_tool_lifecycle_failure. calm. Qed.

Lemma approval_outcome_calm t requirement metadata :
  calm (approval_outcome t requirement metadata).
Proof. unfold approval_outcome. calm. Qed.
Hint Resolve or_observe_calm approval_outcome_calm : calm.

Lemma tool_calls_loop_calm st calls : calm (tool_calls_loop cancellable st calls).
Proof.
  revert st; induction calls as [|call calls IH]; intros st; simpl; [calm|].
  apply calm_try; [|intros []; [apply IH|calm]].
  unfold tool_call_step, begin_tool_call, resolve_tool_call, conclude_tool_call. calm.
Qed.

Lemma collect_stream_calm ordinal st stream :
  calm (collect_stream cancellable ordinal st stream).
Proof.
  revert st; induction stream as [|[chunk|e] stream IH]; intros st; simpl; calm; apply IH.
Qed.

(** *** A response without an opened call has no call *)

Definition callless (st : CollectState) : Prop :=
  co_tool_calls st = [] /\ co_open_tool_calls st = [].

Lemma apply_deltas_callless ds st st' :
  callless st -> any (fun d => match d with OpenToolCall _ _ _ => true | _ => false end) ds = false ->
  apply_deltas from_str st ds = Ok st' -> callless st'.
Proof.
  rewrite any_false. intros Hst Hds. revert st Hst.
  induction Hds as [|d ds Hd _ IH]; simpl; intros st Hst H; invert_result; [done|].
  eapply IH; [|exact H]. destruct Hst as [H1 H2].
  destruct d; simpl in Hr; unfold append_tool_call_arguments, close_tool_call in Hr;
    rewrite ?H2 in Hr; simpl in Hr; try discriminate; invert_result; done.
Qed.

Lemma collect_stream_callless ordinal st stream :
  callless st -> any opens_call stream = false ->
  returns (collect_stream cancellable ordinal st stream) (fun o =>
    match o with Some r => on_ok (fun r => rs_tool_calls r = []) r | None => True end).
Proof.
  rewrite any_false. intros Hst Hc. revert st Hst.
  induction Hc as [|c stream Hc _ IH]; intros st Hst; simpl;
    (apply returns_bind_any; intros []; [by apply returns_ret|]).
  - apply returns_ret. destruct Hst as [H1 H2]. unfold collect_finish. by rewrite H1, H2.
  - destruct c as [chunk|e]; [|by apply returns_ret].
    apply returns_bind_any. intros [u|e]; [|by apply returns_ret].
    destruct (collect_chunk _ _ _) as [st'|e] eqn:E; [|by apply returns_ret].
    apply IH. eapply apply_deltas_callless; [| |exact E]; [exact Hst|exact Hc].
Qed.
(** *** The rank of a world *)

Definition rank (w : W) (n : nat) : Prop := (asks w <= n)%nat.

Lemma triple_calm {A} n (m : Act W A) (Q : A -> nat -> Prop) :
  calm m -> (forall a, Q a n) -> triple rank n m Q.
Proof.
  intros Hm HQ w Hw. exists n. split; [|apply HQ]. unfold rank in *. specialize (Hm w). lia.
Qed.

Lemma triple_calm_bind {A B} n (m : Act W A) (k : A -> Act W B) Q :
  calm m -> (forall a, triple rank n (k a) Q) -> triple rank n (m ≫= k) Q.
Proof.
  intros Hm Hk. eapply triple_bind with (P := fun _ s => s = n); [by apply triple_calm|].
  intros a s ->. apply Hk.
Qed.

Lemma triple_calm_try {A B} n (m : Act W (Result A)) (k : A -> Act W (Result B)) Q :
  calm m -> (forall a, triple rank n (k a) (at_ok Q)) -> triple rank n (try_bind m k) (at_ok Q).
Proof.
  intros Hm Hk. apply triple_calm_bind; [done|]. intros [a|e]; [apply Hk|by apply triple_ret].
Qed.

(** The response asks for no tool, or a rank was spent on it. *)
Definition spent (n : nat) (r : CollectedResponse) (k : nat) : Prop :=
  rs_tool_calls r = [] \/ (k < n)%nat.

Lemma response_spent n ordinal request :
  triple rank n (response_future cancellable ordinal request)
    (fun o k => match o with Some r => at_ok (spent n) r k | None => True end).
Proof.
  unfold response_future. apply triple_calm_bind; [apply await_calm|].
  intros []; [by apply triple_ret|].
  intros w Hw. apply wp_bind. unfold wp.
  pose proof (stream_asks request w) as Hs. pose proof (stream_calm request w) as Hc.
  destruct (stream_completion request w) as [[chunks|e] w']; simpl in *.
  2:{ exists n. split; [unfold rank in *; lia|done]. }
  destruct (any opens_call chunks) eqn:E.
  - specialize (Hs chunks eq_refl E). exists (asks w'). split.
    + unfold rank. apply collect_stream_calm.
    + destruct (collect_stream _ _ _ _ _).1 as [[r|e]|]; simpl; [right|done|done].
      unfold rank in Hw. lia.
  - exists n. split.
    + pose proof (collect_stream_calm ordinal collect_start chunks w'). unfold rank in *. lia.
    + pose proof (collect_stream_callless ordinal collect_start chunks (conj eq_refl eq_refl) E w')
        as Hr. unfold wp in Hr.
      destruct (collect_stream _ _ _ _ _).1 as [[r|e]|]; simpl in *; [by left|done|done].
Qed.

Lemma llm_step_spent n st :
  triple rank n (llm_step cancellable st)
    (at_ok (fun x k => match x with inl _ => True | inr _ => (k < n)%nat end)).
Proof.
  unfold llm_step. apply triple_calm_bind; [apply poll_calm|].
  intros []; [by apply triple_ret|]. apply triple_calm_try; [apply started_calm|]. intros _.
  eapply triple_try with (P := fun o k => match o with Some r => spent n r k | None => True end).
  { unfold await_response. eapply triple_bind; [apply response_spent|].
    intros [[r|e]|] k Hr; [| |by apply triple_ret]; (apply triple_calm_bind; [apply poll_calm|]);
      intros []; by apply triple_ret. }
  intros [response|] k Hr.
  2:{ apply triple_calm_try; [unfold finish_llm_call; calm|]. intros _. by apply triple_ret. }
  apply triple_calm_bind; [apply poll_calm|]. intros [].
  { apply triple_calm_try; [unfold finish_llm_call; calm|]. intros _. by apply triple_ret. }
  apply triple_calm_try; [unfold accept_response, finish_llm_call; calm|]. intros st'.
  destruct (rs_tool_calls response) eqn:E; apply triple_ret; [done|].
  simpl. destruct Hr as [Hr|Hr]; [by rewrite Hr in E|done].
Qed.

Lemma run_loop_terminates fuel n st :
  (n < fuel)%nat -> triple rank n (run_loop cancellable fuel st) (fun o _ => o <> None).
Proof.
  revert n st; induction fuel as [|fuel IH]; intros n st Hf; [lia|].
  cbn [run_loop]. eapply triple_bind with (P := fun f k => match f with
    Ok (Continue _) => (k < n)%nat | _ => True end).
  - unfold turn_step. eapply triple_bind with (P := at_ok (fun x k =>
      match x with inl _ => True | inr _ => (k < n)%nat end)); [apply llm_step_spent|].
    intros [[r|[st' calls]]|e] k Hk; [by apply triple_ret| |by apply triple_ret].
    apply triple_calm; [apply tool_calls_loop_calm|]. by intros [[]|].
  - intros [[st'|r]|e] k Hk; [|by apply triple_ret|by apply triple_ret].
    apply IH. lia.
Qed.
End termination.

(** ** A scripted world

    The provider's responses and the approver's decisions are given in
    advance; the one tool echoes its arguments. *)

Record Script : Type := MkScript {
  sc_responses : list (list (Result CompletionChunk));
  sc_decisions : list (option ApprovalDecision);
  sc_next_id : N;
}.

Definition echo_metadata : ToolMetadata :=
  {| tm_risk_class := RiskSafe; tm_is_read_only := true; tm_is_concurrency_safe := true;
     tm_interrupt_behavior := InterruptImmediate; tm_execution_mode := ExecImmediate;
     tm_should_defer := false; tm_catalogue_tags := []; tm_display_group := Codebase |}.

Definition echo_execute (args : Value) : Result ToolResultEnvelope :=
  match value_get "call_id" args with
  | Some (VString id) => Ok {| tr_call_id := MkToolCallId id; tr_tool_name := "echo";
      tr_is_error := false; tr_output := args; tr_duration_ms := None |}
  | _ => Err (Tool "missing call_id")
  end.

Definition echo_tool : ToolExecutor Script :=
  {| te_spec := {| ts_name := "echo"; ts_description := ""; ts_parameters_schema := VNull;
                   ts_metadata := echo_metadata |};
     te_approval_requirement _ := ReqAlways;
     te_execute args _ := mret (echo_execute args);
     te_execute_or_cancel args _ := mret (Some (echo_execute args)) |}.

Instance script_env : TurnEnv Script := {|
  provider_id := "script";
  stream_completion _ w := match sc_responses w with
    | [] => (Ok [], w)
    | r :: rs => (Ok r, MkScript rs (sc_decisions w) (sc_next_id w)) end;
  completion_summary s := Ok s;
  tools_get name := if String.eqb name "echo" then Some echo_tool else None;
  evaluate _ w := match sc_decisions w with
    | [] => (Ok None, w)
    | d :: ds => (Ok d, MkScript (sc_responses w) ds (sc_next_id w)) end;
  on_llm_call_started _ := mret (Ok tt);
  on_chunk _ := mret (Ok tt);
  on_llm_call_finished _ := mret (Ok tt);
  tool_call_requested _ _ := mret (Ok Recorded);
  tool_approval_requested _ := mret (Ok tt);
  tool_approval_resolved _ := mret (Ok tt);
  tool_execution_finished _ _ := mret (Ok tt);
  is_cancelled := mret false;
  cancel_ready := mret false;
  fresh_message_id w := (MkUuid (sc_next_id w),
    MkScript (sc_responses w) (sc_decisions w) (sc_next_id w + 1));
  now_utc := mret 0;
  elapsed_ms := mret 0;
  from_str _ := None;
|}.

#[export] Instance script_echo : ToolsEcho.
Proof.
  split; intros name tool args root id Ht Hid w; simpl in Ht;
    destruct (String.eqb name "echo"); simplify_eq;
    unfold wp; simpl; unfold echo_execute; by rewrite Hid.
Qed.

#[export] Instance script_finite : FiniteAsks (fun w => length (sc_responses w)).
Proof.
  split; try (intros; intros w; simpl; lia).
  - intros q w chunks. simpl. destruct (sc_responses w) as [|r rs] eqn:E; simpl.
    + by intros [= <-].
    + lia.
  - intros q w. simpl. destruct (sc_responses w) as [|r rs] eqn:E; simpl; rewrite ?E; simpl; lia.
  - intros name tool args root Ht w. simpl in Ht.
    destruct (String.eqb name "echo"); simplify_eq. simpl. lia.
  - intros name tool args root Ht w. simpl in Ht.
    destruct (String.eqb name "echo"); simplify_eq. simpl. lia.
  - intros q w. simpl. destruct (sc_decisions w); simpl; lia.
Qed.

Definition script_chunk (deltas : list CompletionDelta) : Result CompletionChunk :=
  Ok (MkCompletionChunk None deltas None None).

Definition approve : ApprovalDecision := Approved 0 "human" ScopeOnce SourceHuman.

(** A call that is approved, its result, and a final answer. *)
Definition script_two_calls : Script := MkScript
  [[script_chunk [OpenToolCall "c1" "echo" (Some (VObject [])); CloseToolCall "c1"]];
   [script_chunk [AppendText "done"]]]
  [Some approve] 0.

Definition script_turn : TurnRequest :=
  {| tq_session_id := MkUuid 7; tq_project_root := "/";
     tq_request := {| cr_connection_id := MkConnectionId "conn"; cr_model := "m";
       cr_system_prompt := None; cr_messages := []; cr_tools := [];
       cr_structured_output := None; cr_max_tokens := None; cr_temperature := None;
       cr_thinking := None |} |}.

(** ** The theorems *)

(** C5. Every turn that returns a result returns a well-formed transcript:
    each tool result answers the call before it, in order and once; the
    results are the ones reported; and one call stays open exactly when the
    turn stops for that call's approval or input, with [ToolUse]. *)
Theorem turn_transcript {W} `{env : !TurnEnv W} `{!ToolsEcho} cancellable fuel turn w r :
  (run_turn cancellable fuel turn w).1 = Some (Ok r) ->
  omap tool_result (res_messages r) = res_tool_results r
  /\ match res_approval_requests r, res_input_requests r with
     | [], [] => pairing (res_messages r) = Some None
     | [a], [] => pairing (res_messages r) = Some (Some (call_name (tar_call_id a)))
                  /\ res_finish_reason r = FrToolUse
     | [], [i] => pairing (res_messages r) = Some (Some (call_name (tir_call_id i)))
                  /\ res_finish_reason r = FrToolUse
     | _, _ => False
     end.
Proof.
  intros Hrun. pose proof (run_loop_ok cancellable turn fuel (turn_start turn)
    (turn_start_inv turn) w) as Hok. unfold wp in Hok.
  unfold run_turn in Hrun. rewrite Hrun in Hok. destruct Hok as [H1 H2 H3]. split; [done|].
  destruct (res_approval_requests r) as [|? []], (res_input_requests r) as [|? []]; done.
Qed.

Definition script_result (o : option (Result TurnResult)) : TurnResult :=
  match o with Some (Ok r) => r | _ => cancelled_turn_result (turn_start script_turn) end.

Lemma turn_transcript_witness :
  let r := script_result (run_turn true 2 script_turn script_two_calls).1 in
  length (res_messages r) = 3%nat /\ length (res_tool_results r) = 1%nat
  /\ omap tool_result (res_messages r) = res_tool_results r.
Proof.
  split_and!; [vm_compute; reflexivity|vm_compute; reflexivity|].
  refine (proj1 (turn_transcript true 2 script_turn script_two_calls _ _)).
  vm_compute. reflexivity.
Defined.

(** C8. Whatever the provider, the tools, the approver and the observers do,
    the effects of a turn follow the protocol the monitor checks, and a turn
    that returns has no call left half-way: it is between calls, or stopped
    by a cancelled request, or waits for the input or the approval of the
    call it reports. *)
Theorem turn_effects {W} (env : TurnEnv W) cancellable fuel turn w :
  let run := run_turn (env := traced env) cancellable fuel turn (w, []) in
  exists s, watch (env := env) (tq_session_id turn) run.2.2 = Some s
    /\ match run.1 with Some (Ok r) => final_ok r s | _ => True end.
Proof.
  destruct (run_loop_triple (env := env) cancellable (tq_session_id turn) fuel (turn_start turn)
    (Ready, 0) (conj eq_refl eq_refl) (w, []) eq_refl) as (s & Hs & Hr).
  exists s. split; [exact Hs|]. revert Hr. unfold run_turn. clear Hs.
  by destruct (run_loop _ _ _ _) as [[[r|e]|] w'].
Qed.

(** C1. A tool runs only on the call that was just recorded, on exactly the
    recorded arguments plus the call id; and unless the tool's requirement
    for these arguments is [Never], the two steps before it are the
    evaluator's approval of a request for this very call and the observer's
    acknowledgement of that approval. *)
Theorem execution_needs_approval {W} (env : TurnEnv W) cancellable fuel turn w
    pre name args post :
  (run_turn (env := traced env) cancellable fuel turn (w, [])).2.2
    = pre ++ EffExecuted name args :: post ->
  exists c before,
    tool_spec_name (env := env) (ttr_tool_name c) = Some name
    /\ args = execution_arguments (call_of c (tq_session_id turn))
    /\ ((pre = before ++ [EffRequested c (Ok Recorded)]
          /\ tool_requirement (env := env) (ttr_tool_name c) (ttr_arguments c) = Some ReqNever)
        \/ exists q a decided_at decided_by scope source,
            pre = before ++ [EffRequested c (Ok Recorded);
              EffEvaluated q (Ok (Some (Approved decided_at decided_by scope source)));
              EffApprovalResolved a (Ok tt)]
            /\ ta_request a = q
            /\ rq_call_id q = ttr_call_id c /\ rq_tool_name q = ttr_tool_name c
            /\ rq_arguments q = ttr_arguments c).
Proof.
  intros Htr.
  destruct (run_loop_triple (env := env) cancellable (tq_session_id turn) fuel (turn_start turn)
    (Ready, 0) (conj eq_refl eq_refl) (w, []) eq_refl) as (s & Hs & _).
  unfold watched, run_turn in *. rewrite Htr in Hs. by eapply watch_executed.
Qed.

Definition script_trace : list Effect :=
  (run_turn (env := traced script_env) true 2 script_turn (script_two_calls, [])).2.2.

Lemma execution_needs_approval_witness :
  script_trace = take 5 script_trace
    ++ EffExecuted "echo" (VObject [("call_id", VString "c1")]) :: drop 6 script_trace
  /\ exists c, tool_spec_name (env := script_env) (ttr_tool_name c) = Some "echo"
       /\ VObject [("call_id", VString "c1")]
          = execution_arguments (call_of c (MkUuid 7)).
Proof.
  assert (script_trace = take 5 script_trace
    ++ EffExecuted "echo" (VObject [("call_id", VString "c1")]) :: drop 6 script_trace) as Hrun
    by (vm_compute; reflexivity).
  split; [exact Hrun|].
  destruct (execution_needs_approval script_env true 2 script_turn script_two_calls
    _ _ _ _ Hrun) as (c & before & H1 & H2 & _).
  exists c. split; [exact H1|exact H2].
Defined.

(** C18. The loop ends: when the provider asks for tools at most [asks w]
    more times, one iteration more than that is enough for [run_turn] to
    return. *)
Theorem turn_terminates {W} (env : TurnEnv W) (asks : W -> nat)
    (finite : FiniteAsks (env := env) asks) cancellable fuel turn w :
  (asks w < fuel)%nat -> (run_turn cancellable fuel turn w).1 <> None.
Proof.
  intros Hf. destruct (run_loop_terminates cancellable asks fuel (asks w) (turn_start turn) Hf w)
    as (_ & _ & H); [unfold rank; lia|exact H].
Qed.

Lemma turn_terminates_witness :
  (run_turn false 3 script_turn script_two_calls).1 <> None.
Proof.
  apply (turn_terminates script_env (fun w => length (sc_responses w)) script_finite).
  vm_compute. lia.
Defined.

(** Recording the effects changes nothing else: the instrumented loop
    returns the same result and ends in the same world as the loop itself. *)
Theorem traced_turn_erases {W} (env : TurnEnv W) cancellable fuel turn w tr :
  let traced_run := run_turn (env := traced env) cancellable fuel turn (w, tr) in
  let run := run_turn cancellable fuel turn w in
  traced_run.1 = run.1 /\ traced_run.2.1 = run.2.
Proof. apply (erases_run_loop env cancellable fuel (turn_start turn) (w, tr)). Qed.

Lemma collect_stream_pure {W} (env : TurnEnv W) ordinal chunks st w :
  (forall c v, (on_chunk c v).1 = Ok tt) ->
  (collect_stream false ordinal st (List.map Ok chunks) w).1
  = Some (st' ← collect_chunks from_str st (List.map (stamp_chunk ordinal) chunks);
          collect_finish from_str st').
Proof.
  intros Hc. revert st w; induction chunks as [|c chunks IH]; intros st w; simpl; [done|].
  assert (forall B (k : Result unit -> Act W B) a,
    ((on_chunk a ≫= k) w).1 = (k (Ok tt) (on_chunk a w).2).1) as Hbind.
  { intros B k a. specialize (Hc a w). unfold mbind, act_bind.
    destruct (on_chunk a w) as [o w']. simpl in Hc. by subst o. }
  unfold await_point. change (mret ?a ≫= ?k) with (k a). cbv beta iota. rewrite Hbind.
  destruct (collect_chunk from_str st (stamp_chunk ordinal c)) as [st'|e]; simpl; [apply IH|done].
Qed.

(** Without a cancellation signal and with observers that accept every
    chunk, the driver that reads the provider's stream computes exactly the
    pure fold of the chunks, errors included. *)
Theorem driver_computes_fold {W} (env : TurnEnv W) ordinal chunks w :
  (forall c v, (on_chunk c v).1 = Ok tt) ->
  (collect_stream false ordinal collect_start (List.map Ok chunks) w).1
  = Some (collect_all from_str ordinal chunks).
Proof. apply collect_stream_pure. Qed.

Lemma driver_computes_fold_witness :
  (collect_stream false 1 collect_start
     (List.map Ok [MkCompletionChunk None [AppendText "hi"] None None]) script_two_calls).1
  = Some (collect_all (fun _ => None) 1 [MkCompletionChunk None [AppendText "hi"] None None]).
Proof. apply (driver_computes_fold script_env). intros c v. reflexivity. Defined.
