(* ===== verification/Approvals.v ===== *)
(** * Approvals ([crates/bt-runtime/src/approval.rs])

    The runtime's memory of approval decisions: per call, per session and
    global, keyed by the fingerprint of a request; and the policy that
    answers some requests without a human.  The mutex of [ApprovalState] is
    a flag that makes every operation fail when it is poisoned; the registry
    of auto-approved sessions is only ever locked without panicking. *)

From stdpp Require Import base list strings gmap sets.
From Stdlib Require Import ZArith Lia Permutation.
From S2P Require Import Prelude Text Json Types.

(** ** The store *)

Record CallApproval : Type := MkCallApproval {
  ca_request_fingerprint : option string;
  ca_decision : ApprovalDecision;
}.

Record ApprovalStore : Type := MkApprovalStore {
  per_call : gmap (SessionId * ToolCallId) CallApproval;
  per_session : gmap (SessionId * string) ApprovalDecision;
  global : gmap string ApprovalDecision;
}.

Record ApprovalState : Type := MkApprovalState {
  poisoned : bool;
  inner : ApprovalStore;
}.

Definition approval_state_default : ApprovalState :=
  MkApprovalState false (MkApprovalStore ∅ ∅ ∅).

(** [decision_scope] *)
Definition decision_scope (decision : ApprovalDecision) : ApprovalScope :=
  match decision with Approved _ _ scope _ | Denied _ _ _ scope _ => scope end.

Definition is_approved (decision : ApprovalDecision) : bool :=
  match decision with Approved _ _ _ _ => true | Denied _ _ _ _ _ => false end.

(** [lock_store] *)
Definition lock_store (state : ApprovalState) : Result ApprovalStore :=
  _ ← reject_if (poisoned state) (InvalidState "approval lock poisoned");
  Ok (inner state).

(** Writing back through the guard. *)
Definition unlock (state : ApprovalState) (store : ApprovalStore) : ApprovalState :=
  MkApprovalState (poisoned state) store.

Definition insert_per_call (store : ApprovalStore) (k : SessionId * ToolCallId)
    (a : CallApproval) : ApprovalStore :=
  MkApprovalStore (<[k := a]> (per_call store)) (per_session store) (global store).

Definition remove_per_call (store : ApprovalStore) (k : SessionId * ToolCallId)
    : ApprovalStore :=
  MkApprovalStore (delete k (per_call store)) (per_session store) (global store).

(** [apply_reusable_decision] *)
Definition apply_reusable_decision (store : ApprovalStore) (session_id : SessionId)
    (fingerprint : string) (decision : ApprovalDecision) : ApprovalStore :=
  match decision_scope decision with
  | ScopeOnce => store
  | ScopeSession =>
      MkApprovalStore (per_call store)
        (<[(session_id, fingerprint) := decision]> (per_session store)) (global store)
  | ScopeAlways =>
      MkApprovalStore (per_call store) (per_session store)
        (<[fingerprint := decision]> (global store))
  end.

(** [record_call] *)
Definition record_call (state : ApprovalState) (session_id : SessionId)
    (call_id : ToolCallId) (decision : ApprovalDecision) : Result ApprovalState :=
  store ← lock_store state;
  Ok (unlock state (insert_per_call store (session_id, call_id) (MkCallApproval None decision))).

(** [seed_reusable_decision] *)
Definition seed_reusable_decision (state : ApprovalState) (session_id : SessionId)
    (fingerprint : string) (decision : ApprovalDecision) : Result ApprovalState :=
  store ← lock_store state;
  Ok (unlock state (apply_reusable_decision store session_id fingerprint decision)).

(** [get] *)
Definition approval_get (state : ApprovalState) (session_id : SessionId)
    (call_id : ToolCallId) : Result (option ApprovalDecision) :=
  store ← lock_store state;
  Ok (ca_decision <$> per_call store !! (session_id, call_id)).

(** ** Fingerprints ([types.rs]) *)

Section approvals.
(** [Number::to_string] and [serde_json::to_string] of a string. *)
Context (render_number : Number -> string) (render_string : string -> string).

(** [ApprovalRequest::fingerprint] *)
Definition fingerprint (request : ApprovalRequest) : string :=
  let normalized_arguments := normalize_approval_arguments (rq_arguments request) in
  rq_tool_name request +:+ ":"
    +:+ stable_hash (canonical_json render_number render_string normalized_arguments).

(** [ApprovalRequest::snapshot] *)
Definition snapshot (request : ApprovalRequest) (initiator : ToolOperationInitiator)
    (surface : string) (registry_schema_hash policy_rule : option string)
    : ApprovalRequestSnapshot :=
  let normalized_arguments := normalize_approval_arguments (rq_arguments request) in
  let canonical_arguments := canonical_json render_number render_string normalized_arguments in
  {| sn_session_id := rq_session_id request;
     sn_call_id := rq_call_id request;
     sn_tool_name := rq_tool_name request;
     sn_request_fingerprint := fingerprint request;
     sn_arguments_hash := stable_hash canonical_arguments;
     sn_redacted_arguments_preview := Some (redact_argument_preview normalized_arguments);
     sn_requirement := rq_requirement request;
     sn_tool_metadata := rq_tool_metadata request;
     sn_initiator := initiator;
     sn_surface := surface;
     sn_registry_schema_hash := registry_schema_hash;
     sn_policy_rule := policy_rule;
     sn_requested_at := rq_requested_at request |}.

(** [ApprovalRequest::from_snapshot_with_arguments] *)
Definition from_snapshot_with_arguments (s : ApprovalRequestSnapshot) (arguments : Value)
    : ApprovalRequest :=
  {| rq_session_id := sn_session_id s;
     rq_call_id := sn_call_id s;
     rq_tool_name := sn_tool_name s;
     rq_arguments := arguments;
     rq_requirement := sn_requirement s;
     rq_tool_metadata := sn_tool_metadata s;
     rq_requested_at := sn_requested_at s |}.

(** ** Recording and evaluating a request *)

Definition request_key (request : ApprovalRequest) : SessionId * ToolCallId :=
  (rq_session_id request, rq_call_id request).

(** [record_for_request] *)
Definition record_for_request (state : ApprovalState) (request : ApprovalRequest)
    (decision : ApprovalDecision) : Result ApprovalState :=
  let fp := fingerprint request in
  store ← lock_store state;
  let store := insert_per_call store (request_key request) (MkCallApproval (Some fp) decision) in
  Ok (unlock state (apply_reusable_decision store (rq_session_id request) fp decision)).

(** The store of [evaluate_request] after the lock. *)
Definition evaluate_store (store : ApprovalStore) (request : ApprovalRequest)
    : option ApprovalDecision * ApprovalStore :=
  let fp := fingerprint request in
  let key := request_key request in
  let matching (a : CallApproval) := bool_decide (ca_request_fingerprint a = Some fp) in
  match per_call store !! key ≫= fun a => if matching a then Some a else None with
  | Some existing =>
      (Some (ca_decision existing),
       if bool_decide (decision_scope (ca_decision existing) = ScopeOnce)
       then remove_per_call store key else store)
  | None =>
      match per_session store !! (rq_session_id request, fp) with
      | Some decision =>
          (Some decision, insert_per_call store key (MkCallApproval (Some fp) decision))
      | None =>
          match global store !! fp with
          | Some decision =>
              (Some decision, insert_per_call store key (MkCallApproval (Some fp) decision))
          | None => (None, store)
          end
      end
  end.

(** [evaluate_request] *)
Definition evaluate_request (state : ApprovalState) (request : ApprovalRequest)
    : Result (option ApprovalDecision * ApprovalState) :=
  store ← lock_store state;
  let '(decision, store') := evaluate_store store request in
  Ok (decision, unlock state store').

(** ** Shell patterns *)

(** [contains_shell_control_syntax] *)
Definition shell_control_chars : list string :=
  [";"; "&"; "|"; "<"; ">"; "`"; "$"; "\"; nl; String carriage_return ""].

Definition contains_shell_control_syntax (command : string) : bool :=
  any (fun ch => bool_decide (ch ∈ shell_control_chars)) (chars command).

(** [command_matches_pattern] *)
Definition command_matches_pattern (command pattern : string) : bool :=
  let command := trim command in
  let pattern := trim pattern in
  if is_empty pattern || contains_shell_control_syntax command then false
  else if String.eqb command pattern then true
  else match strip_prefix pattern command with
       | Some remainder =>
           match chars remainder with ch :: _ => is_whitespace ch | [] => false end
       | None => false
       end.

(** ** The policy *)

Record PolicyApprovalEvaluator : Type := MkPolicy {
  pol_state : ApprovalState;
  auto_approve_patterns : list string;
  auto_approve_sessions : gset SessionId;
}.

Definition set_session_auto_approval (p : PolicyApprovalEvaluator) (session_id : SessionId)
    (enabled : bool) : PolicyApprovalEvaluator :=
  MkPolicy (pol_state p) (auto_approve_patterns p)
    (if enabled then auto_approve_sessions p ∪ {[session_id]}
     else auto_approve_sessions p ∖ {[session_id]}).

Definition session_auto_approval (p : PolicyApprovalEvaluator) (session_id : SessionId) : bool :=
  bool_decide (session_id ∈ auto_approve_sessions p).

(** [auto_approve]; [now] is the clock's answer. *)
Definition auto_approve (p : PolicyApprovalEvaluator) (now : OffsetDateTime)
    (request : ApprovalRequest) : option ApprovalDecision :=
  if session_auto_approval p (rq_session_id request) then
    Some (Approved now "policy:session-auto-approve" ScopeOnce
            (SourcePolicy "session_auto_approve"))
  else if match rq_requirement request with ReqFirstUsePerSession => true | _ => false end
       && match tm_risk_class (rq_tool_metadata request) with
          | RiskSafe | RiskModerate => true | RiskHigh => false end
       && negb (bool_decide (tm_display_group (rq_tool_metadata request) = External)) then
    Some (Approved now "policy:first-use-session" ScopeSession (SourcePolicy "first_use_session"))
  else if bool_decide (tm_display_group (rq_tool_metadata request) = Execution) then
    let command := default "" (value_get "command" (rq_arguments request) ≫= as_str) in
    match find_first (command_matches_pattern command) (auto_approve_patterns p) with
    | Some pattern =>
        Some (Approved now "policy:shell-pattern" ScopeSession
                (SourcePolicy ("command_pattern:" +:+ pattern)))
    | None => None
    end
  else None.

(** [PolicyApprovalEvaluator::evaluate] *)
Definition policy_evaluate (p : PolicyApprovalEvaluator) (now : OffsetDateTime)
    (request : ApprovalRequest)
    : Result (option ApprovalDecision * PolicyApprovalEvaluator) :=
  evaluated ← evaluate_request (pol_state p) request;
  let '(existing, state) := evaluated in
  let p := MkPolicy state (auto_approve_patterns p) (auto_approve_sessions p) in
  match existing with
  | Some existing => Ok (Some existing, p)
  | None =>
      match auto_approve p now request with
      | Some decision =>
          state ← record_for_request (pol_state p) request decision;
          Ok (Some decision,
              MkPolicy state (auto_approve_patterns p) (auto_approve_sessions p))
      | None => Ok (None, p)
      end
  end.

(** ** Lemmas *)

Lemma lock_store_open state : poisoned state = false -> lock_store state = Ok (inner state).
Proof. intros H. unfold lock_store. by rewrite H. Qed.

Lemma evaluate_per_call store request d :
  per_call store !! request_key request = Some (MkCallApproval (Some (fingerprint request)) d) ->
  evaluate_store store request =
    (Some d, if bool_decide (decision_scope d = ScopeOnce)
             then remove_per_call store (request_key request) else store).
Proof. intros H. unfold evaluate_store. rewrite H. simpl. by rewrite bool_decide_true. Qed.

(** Without a matching decision for the call, only the reusable tables count. *)
Lemma evaluate_no_call store request :
  (forall d, per_call store !! request_key request
    <> Some (MkCallApproval (Some (fingerprint request)) d)) ->
  (evaluate_store store request).1 =
    match per_session store !! (rq_session_id request, fingerprint request) with
    | Some d => Some d
    | None => global store !! fingerprint request
    end.
Proof.
  intros Hn. unfold evaluate_store.
  destruct (per_call store !! request_key request) as [[fp d]|] eqn:E; simpl.
  - case_bool_decide as Hfp.
    + subst fp. by destruct (Hn d).
    + simpl. by repeat case_match.
  - by repeat case_match.
Qed.

(** *** Histories of operations *)

Inductive Op : Type :=
  | OpRecordCall (session_id : SessionId) (call_id : ToolCallId) (decision : ApprovalDecision)
  | OpRecord (request : ApprovalRequest) (decision : ApprovalDecision)
  | OpSeed (session_id : SessionId) (fp : string) (decision : ApprovalDecision)
  | OpEvaluate (request : ApprovalRequest).

Definition run_op (state : ApprovalState) (op : Op) : Result ApprovalState :=
  match op with
  | OpRecordCall s c d => record_call state s c d
  | OpRecord r d => record_for_request state r d
  | OpSeed s fp d => seed_reusable_decision state s fp d
  | OpEvaluate r => snd <$> evaluate_request state r
  end.

Fixpoint run_ops (state : ApprovalState) (ops : list Op) : Result ApprovalState :=
  match ops with
  | [] => Ok state
  | op :: ops' => state' ← run_op state op; run_ops state' ops'
  end.

(** The operation grants the decision to a call of the session with this
    fingerprint: a [Once] decision to the one call it was made for, a
    [Session] decision to its session, an [Always] decision to all. *)
Definition grants (op : Op) (s : SessionId) (c : ToolCallId) (fp : string)
    (d : ApprovalDecision) : Prop :=
  match op with
  | OpRecord r d' =>
      d' = d /\ fingerprint r = fp
      /\ match decision_scope d with
         | ScopeOnce => request_key r = (s, c)
         | ScopeSession => rq_session_id r = s
         | ScopeAlways => True
         end
  | OpSeed s' fp' d' =>
      d' = d /\ fp' = fp
      /\ match decision_scope d with
         | ScopeOnce => False
         | ScopeSession => s' = s
         | ScopeAlways => True
         end
  | OpRecordCall _ _ _ | OpEvaluate _ => False
  end.

Record justified (h : list Op) (store : ApprovalStore) : Prop := {
  just_call s c fp d :
    per_call store !! (s, c) = Some (MkCallApproval (Some fp) d) ->
    Exists (fun op => grants op s c fp d) h;
  just_session s fp d :
    per_session store !! (s, fp) = Some d -> forall c, Exists (fun op => grants op s c fp d) h;
  just_global fp d :
    global store !! fp = Some d -> forall s c, Exists (fun op => grants op s c fp d) h;
}.

Lemma justified_weaken h op store : justified h store -> justified (h ++ [op]) store.
Proof. intros [H1 H2 H3]. split; intros; apply Exists_app; left; eauto. Qed.

Lemma justified_insert h store s c a :
  justified h store ->
  (forall fp d, a = MkCallApproval (Some fp) d -> Exists (fun op => grants op s c fp d) h) ->
  justified h (insert_per_call store (s, c) a).
Proof.
  intros [H1 H2 H3] Ha. split; simpl; [|done|done]. intros s' c' fp d.
  rewrite lookup_insert_Some. intros [[[= <- <-] ->]|[_ ?]]; [by apply Ha|by apply H1].
Qed.

Lemma justified_reusable h store s fp d :
  justified h store ->
  (forall s' c, match decision_scope d with
     | ScopeOnce => True | ScopeSession => s' = s -> Exists (fun op => grants op s' c fp d) h
     | ScopeAlways => Exists (fun op => grants op s' c fp d) h end) ->
  justified h (apply_reusable_decision store s fp d).
Proof.
  intros [H1 H2 H3] Hd. unfold apply_reusable_decision.
  destruct (decision_scope d) eqn:E; split; simpl; try done.
  - intros s' fp' d'. rewrite lookup_insert_Some. intros [[[= <- <-] <-]|[_ ?]] c; [|by apply H2].
    by apply (Hd s c).
  - intros fp' d'. rewrite lookup_insert_Some. intros [[<- <-]|[_ ?]] s' c; [|by apply H3].
    apply (Hd s' c).
Qed.

Lemma justified_evaluate h store r :
  justified h store ->
  justified h (evaluate_store store r).2
  /\ forall d, (evaluate_store store r).1 = Some d ->
       Exists (fun op => grants op (rq_session_id r) (rq_call_id r) (fingerprint r) d) h.
Proof.
  intros Hj. pose proof Hj as [H1 H2 H3]. unfold evaluate_store.
  destruct (per_call store !! request_key r ≫= _) as [[fp d]|] eqn:E; simpl.
  - apply bind_Some in E as ([fp' d'] & E & Hm). case_bool_decide as Hfp; simplify_eq.
    simpl in Hfp. subst fp. split.
    + case_bool_decide; [|done]. split; simpl; [|done|done].
      intros s c fp d'. rewrite lookup_delete_Some. intros [_ ?]. by apply H1.
    + intros d' [= <-]. by apply H1.
  - destruct (per_session store !! _) as [d|] eqn:Es; simpl.
    + split; [|intros d' [= <-]; by apply H2].
      apply justified_insert; [done|]. intros fp d' [= <- <-]. by apply H2.
    + destruct (global store !! _) as [d|] eqn:Eg; simpl; [|done].
      split; [|intros d' [= <-]; by apply H3].
      apply justified_insert; [done|]. intros fp d' [= <- <-]. by apply H3.
Qed.

Lemma justified_run_op h state op state' :
  justified h (inner state) -> run_op state op = Ok state' ->
  justified (h ++ [op]) (inner state').
Proof.
  intros Hj%(justified_weaken h op) H.
  assert (forall s c fp d, grants op s c fp d -> Exists (fun op => grants op s c fp d) (h ++ [op]))
    as Hg by (intros; apply Exists_app; right; by constructor).
  destruct op as [s c d|r d|s fp d|r]; simpl in H;
    unfold record_call, record_for_request, seed_reusable_decision, evaluate_request, lock_store in H.
  - invert_result. apply justified_insert; [done|]. by intros.
  - invert_result. apply justified_reusable.
    + apply justified_insert; [done|]. intros fp d' [= <- <-]. apply Hg. simpl.
      by destruct (decision_scope d).
    + intros s' c. pose proof (Hg s' c (fingerprint r) d) as Hg'. simpl in Hg'.
      destruct (decision_scope d); [done| |by apply Hg'].
      intros ->. by apply Hg'.
  - invert_result. apply justified_reusable; [done|]. intros s' c.
    pose proof (Hg s' c fp d) as Hg'. simpl in Hg'.
    destruct (decision_scope d); [done| |by apply Hg']. intros ->. by apply Hg'.
  - destruct (poisoned state); [done|]. simpl in H. 
    destruct (evaluate_store (inner state) r) as [d store'] eqn:E. simpl in H.
    injection H as <-. simpl. pose proof (justified_evaluate _ _ r Hj) as [Hj' _].
    by rewrite E in Hj'.
Qed.

Lemma justified_run_ops ops h state state' :
  justified h (inner state) -> run_ops state ops = Ok state' ->
  justified (h ++ ops) (inner state').
Proof.
  revert h state; induction ops as [|op ops IH]; simpl; intros h state Hj H; invert_result.
  { by rewrite app_nil_r. }
  assert (h ++ op :: ops = (h ++ [op]) ++ ops) as -> by by rewrite <- app_assoc.
  eapply IH; [|exact H]. by eapply justified_run_op.
Qed.

Lemma justified_default : justified [] (inner approval_state_default).
Proof. by split. Qed.

(** *** Shell patterns *)

Lemma control_syntax_spec command :
  contains_shell_control_syntax command = false
  <-> Forall (fun ch => ~ ch ∈ shell_control_chars) (chars command).
Proof.
  unfold contains_shell_control_syntax. rewrite any_false, !Forall_forall.
  split; intros H ch Hch; specialize (H ch Hch); by case_bool_decide.
Qed.
End approvals.

(** ** Theorems *)

(** C3. A decision is only ever returned because it was granted: after any
    sequence of operations on a fresh store, a decision [evaluate_request]
    returns was recorded or seeded by one of them, for the same fingerprint,
    and, unless it was granted [Always], for the same session, and, if it was
    granted [Once], for the same call. *)
Theorem decision_was_granted render_number render_string ops state r d state' :
  run_ops render_number render_string approval_state_default ops = Ok state ->
  evaluate_request render_number render_string state r = Ok (Some d, state') ->
  Exists (fun op => grants render_number render_string op (rq_session_id r) (rq_call_id r)
            (fingerprint render_number render_string r) d) ops.
Proof.
  intros Hrun Hev.
  pose proof (justified_run_ops _ _ ops [] _ _ (justified_default _ _) Hrun) as Hj.
  destruct (justified_evaluate _ _ _ _ r Hj) as [_ Hd].
  unfold evaluate_request, lock_store in Hev. destruct (poisoned state); [done|]. simpl in Hev.
  destruct (evaluate_store _ _ (inner state) r) as [o store]. injection Hev as -> <-.
  by apply Hd.
Qed.

Definition sample_request : ApprovalRequest :=
  {| rq_session_id := MkUuid 1; rq_call_id := MkToolCallId "c"; rq_tool_name := "shell";
     rq_arguments := VObject [("command", VString "ls")]; rq_requirement := ReqAlways;
     rq_tool_metadata :=
       {| tm_risk_class := RiskHigh; tm_is_read_only := false; tm_is_concurrency_safe := false;
          tm_interrupt_behavior := InterruptImmediate; tm_execution_mode := ExecImmediate;
          tm_should_defer := false; tm_catalogue_tags := []; tm_display_group := Execution |};
     rq_requested_at := 0%Z |}.

Definition grant (scope : ApprovalScope) : ApprovalDecision :=
  Approved 0%Z "human" scope SourceHuman.

Definition sample_state : ApprovalState :=
  MkApprovalState false (MkApprovalStore
    {[ request_key sample_request := MkCallApproval
         (Some (fingerprint (fun _ => "0") (fun s => s) sample_request)) (grant ScopeOnce) ]}
    ∅ ∅).

Lemma decision_was_granted_witness :
  Exists (fun op => grants (fun _ => "0") (fun s => s) op (MkUuid 1) (MkToolCallId "c")
            (fingerprint (fun _ => "0") (fun s => s) sample_request) (grant ScopeOnce))
    [OpRecord sample_request (grant ScopeOnce)].
Proof.
  refine (decision_was_granted (fun _ => "0") (fun s => s)
    [OpRecord sample_request (grant ScopeOnce)] sample_state sample_request (grant ScopeOnce)
    (MkApprovalState false (MkApprovalStore ∅ ∅ ∅)) _ _); vm_compute; reflexivity.
Defined.

(** A [Once] approval is consumed by its first use: recording it for a
    request and evaluating that request returns it and leaves the store as it
    was, without any decision for that call. *)
Theorem once_is_consumed render_number render_string state r d :
  poisoned state = false -> decision_scope d = ScopeOnce ->
  (recorded ← record_for_request render_number render_string state r d;
   evaluate_request render_number render_string recorded r)
  = Ok (Some d, unlock state (remove_per_call (inner state) (request_key r))).
Proof.
  intros Hp Hd. unfold record_for_request, evaluate_request. rewrite lock_store_open by done.
  simpl. rewrite lock_store_open by done. simpl. unfold apply_reusable_decision. rewrite Hd.
  rewrite (evaluate_per_call _ _ _ _ d) by (simpl; by rewrite lookup_insert_eq).
  rewrite bool_decide_true by done. unfold remove_per_call, insert_per_call, unlock. simpl.
  by rewrite delete_insert_eq.
Qed.

Lemma once_is_consumed_witness :
  (recorded ← record_for_request (fun _ => "0") (fun s => s) approval_state_default
     sample_request (grant ScopeOnce);
   evaluate_request (fun _ => "0") (fun s => s) recorded sample_request)
  = Ok (Some (grant ScopeOnce), approval_state_default).
Proof. apply once_is_consumed; reflexivity. Defined.

Lemma stable_hash_length s : String.length (stable_hash s) = 24%nat.
Proof. unfold stable_hash. by rewrite length_append, hex_digits_length. Qed.

Lemma append_inj_length (a b s t : string) :
  String.length s = String.length t -> a +:+ s = b +:+ t -> a = b /\ s = t.
Proof.
  intros Hl. revert b. induction a as [|x a IH]; intros [|y b] E.
  - done.
  - apply (f_equal String.length) in E. rewrite !length_append in E. simpl in E. lia.
  - apply (f_equal String.length) in E. rewrite !length_append in E. simpl in E. lia.
  - injection E as -> E. by destruct (IH b E) as [-> ->].
Qed.

(** C20. Approvals are bound to what the tool is asked to do.  Two requests
    for one tool whose arguments agree up to the members named [call_id], at
    any depth, have one fingerprint.  And requests with one fingerprint are
    for one tool, and their arguments agree up to the members named
    [call_id], unless the canonical texts of these two arguments are
    different and have the same hash. *)
Theorem fingerprint_canonical render_number render_string r r' :
  json_rendering render_number render_string ->
  ordered (rq_arguments r) -> ordered (rq_arguments r') ->
  let text := fun r => canonical_json render_number render_string
                (normalize_approval_arguments (rq_arguments r)) in
  (rq_tool_name r = rq_tool_name r' -> same_request (rq_arguments r) (rq_arguments r') ->
   fingerprint render_number render_string r = fingerprint render_number render_string r')
  /\ (fingerprint render_number render_string r = fingerprint render_number render_string r' ->
      rq_tool_name r = rq_tool_name r'
      /\ (same_request (rq_arguments r) (rq_arguments r')
          \/ (text r <> text r' /\ stable_hash (text r) = stable_hash (text r')))).
Proof.
  intros Hlaws Ho Ho' text. unfold fingerprint. split.
  - intros -> ->%same_request_normal. done.
  - intros E. rewrite <- !append_assoc in E. apply append_inj_length in E as [Hname Hhash];
      [|by rewrite !stable_hash_length].
    apply append_inj_length in Hname as [Hname _]; [|done]. split; [done|].
    destruct (decide (text r = text r')) as [Htext|Hne]; [left|by right].
    apply same_request_normal, (canonical_inj _ _ Hlaws); [by apply ordered_normalize..|done].
Qed.

Definition with_arguments (r : ApprovalRequest) (v : Value) : ApprovalRequest :=
  MkApprovalRequest (rq_session_id r) (rq_call_id r) (rq_tool_name r) v (rq_requirement r)
    (rq_tool_metadata r) (rq_requested_at r).

(** A request as the provider writes it, and without its [call_id]. *)
Definition noted_request : ApprovalRequest :=
  with_arguments sample_request (VObject [("a", VNull); ("b", VBool true); ("call_id", VString "x")]).
Definition plain_request : ApprovalRequest :=
  with_arguments sample_request (VObject [("a", VNull); ("b", VBool true)]).

Lemma fingerprint_canonical_witness :
  fingerprint counted_number escaped_string noted_request
  = fingerprint counted_number escaped_string plain_request.
Proof.
  assert (ordered (rq_arguments noted_request) /\ ordered (rq_arguments plain_request)) as [H H'].
  { unfold noted_request, plain_request, key_lt. simpl.
    split; apply ordered_object; repeat constructor; simpl; done. }
  apply (proj1 (fingerprint_canonical _ _ _ _ escaped_rendering H H') eq_refl).
  simpl. apply same_object. simpl. repeat constructor.
Defined.

(** No member with a sensitive name keeps its value, at any depth. *)
Inductive redacted : Value -> Prop :=
  | redacted_null : redacted VNull
  | redacted_bool b : redacted (VBool b)
  | redacted_number n : redacted (VNumber n)
  | redacted_string s : redacted (VString s)
  | redacted_array l : Forall redacted l -> redacted (VArray l)
  | redacted_object m :
      Forall (fun kv => (is_sensitive_key kv.1 = true -> kv.2 = VString "[redacted]")
                        /\ redacted kv.2) m -> redacted (VObject m).

Lemma redact_redacted v : redacted (redact_argument_preview v).
Proof.
  induction v as [| | |s|l IH|m IH] using value_induction; try by constructor.
  - simpl. destruct (_ <? _)%Z; constructor.
  - simpl. constructor. by apply Forall_fmap.
  - simpl. constructor. apply Forall_fmap. eapply Forall_impl; [exact IH|].
    intros [k v] Hv. simpl in *. destruct (is_sensitive_key k); split; by try constructor.
Qed.

(** The snapshot of an approval request loses nothing it needs and shows
    nothing it should not: with the arguments it rebuilds the request it was
    taken of, it carries that request's fingerprint, and no member with a
    sensitive name, at any depth of its preview, keeps its value. *)
Theorem snapshot_faithful render_number render_string r initiator surface hash rule :
  let s := snapshot render_number render_string r initiator surface hash rule in
  from_snapshot_with_arguments s (rq_arguments r) = r
  /\ sn_request_fingerprint s
     = fingerprint render_number render_string (from_snapshot_with_arguments s (rq_arguments r))
  /\ exists preview, sn_redacted_arguments_preview s = Some preview /\ redacted preview.
Proof.
  split_and!; [by destruct r|by destruct r|]. eexists. split; [done|apply redact_redacted].
Qed.

(** A shell pattern approves a command only as a whole word and only
    when nothing can be chained to it: the command is the pattern, or starts
    with it followed by white space, and has no shell control character. *)
Theorem pattern_matches_spec command pattern :
  command_matches_pattern command pattern = true
  <-> trim pattern <> ""
      /\ Forall (fun ch => ~ ch ∈ shell_control_chars) (chars (trim command))
      /\ (trim command = trim pattern
          \/ exists rest ch cs, trim command = trim pattern +:+ rest
               /\ chars rest = ch :: cs /\ is_whitespace ch = true).
Proof.
  unfold command_matches_pattern. rewrite <- control_syntax_spec. unfold is_empty.
  destruct (String.eqb_spec (trim pattern) "") as [Hp|Hp]; simpl; [naive_solver|].
  destruct (contains_shell_control_syntax (trim command)); [naive_solver|].
  destruct (String.eqb_spec (trim command) (trim pattern)) as [He|He]; [naive_solver|].
  destruct (strip_prefix _ _) as [rest|] eqn:E.
  - apply strip_prefix_Some in E. split.
    + intros H. split_and!; [done|done|]. right.
      destruct (chars rest) as [|ch cs] eqn:Ec; [done|]. by exists rest, ch, cs.
    + intros (_ & _ & [?|(rest' & ch & cs & E' & Hc & Hw)]); [done|].
      rewrite E in E'. apply (inj (String.append (trim pattern))) in E' as ->. by rewrite Hc.
  - split; [done|]. intros (_ & _ & [?|(rest & ch & cs & E' & _)]); [done|].
    apply strip_prefix_Some in E'. by rewrite E' in E.
Qed.

(** Auto-approval mode leaves no reusable grant: it answers a request
    nobody decided with a [Once] approval by policy, touches neither the
    session's nor the global grants, and once the mode is off every request
    of another call is evaluated as if the mode had never been on. *)
Theorem auto_mode_leaves_no_grant render_number render_string p now r :
  poisoned (pol_state p) = false ->
  session_auto_approval p (rq_session_id r) = true ->
  (evaluate_store render_number render_string (inner (pol_state p)) r).1 = None ->
  exists d p',
    policy_evaluate render_number render_string p now r = Ok (Some d, p')
    /\ is_approved d = true /\ decision_scope d = ScopeOnce
    /\ per_session (inner (pol_state p')) = per_session (inner (pol_state p))
    /\ global (inner (pol_state p')) = global (inner (pol_state p))
    /\ forall q now',
         request_key q <> request_key r ->
         fst <$> policy_evaluate render_number render_string
                   (set_session_auto_approval p' (rq_session_id r) false) now' q
         = fst <$> policy_evaluate render_number render_string
                   (set_session_auto_approval p (rq_session_id r) false) now' q.
Proof.
  intros Hp Ha Hnone. unfold policy_evaluate at 1, evaluate_request at 1.
  rewrite lock_store_open by done. simpl.
  destruct (evaluate_store _ _ (inner (pol_state p)) r) as [o store'] eqn:E. simpl in Hnone. subst o.
  assert (store' = inner (pol_state p)) as ->.
  { revert E. unfold evaluate_store. repeat case_match; by intros [= <-]. }
  simpl. unfold auto_approve at 1, session_auto_approval at 1. simpl.
  unfold session_auto_approval in Ha. rewrite Ha.
  unfold record_for_request at 1. rewrite lock_store_open by done. simpl.
  eexists _, _. split; [done|]. split_and!; [done|done|done|done|].
  intros q now' Hq. unfold policy_evaluate, evaluate_request. simpl.
  rewrite !lock_store_open by done. simpl.
  unfold evaluate_store. simpl. rewrite lookup_insert_ne by done.
  destruct (per_call _ !! request_key q ≫= _) as [a|]; simpl; [done|].
  destruct (per_session _ !! _); simpl; [done|]. destruct (global _ !! _); simpl; [done|].
  unfold auto_approve, session_auto_approval. simpl.
  repeat case_match; simpl; try done; unfold record_for_request;
    rewrite !lock_store_open by done; done.
Qed.

Lemma auto_mode_leaves_no_grant_witness :
  let p := set_session_auto_approval (MkPolicy approval_state_default [] ∅) (MkUuid 1) true in
  exists d p',
    policy_evaluate (fun _ => "0") (fun s => s) p 5%Z sample_request = Ok (Some d, p')
    /\ decision_scope d = ScopeOnce /\ global (inner (pol_state p')) = ∅.
Proof.
  intros p.
  destruct (auto_mode_leaves_no_grant (fun _ => "0") (fun s => s) p 5%Z sample_request)
    as (d & p' & H1 & _ & H3 & _ & H5 & _); [reflexivity|vm_compute; reflexivity..|].
  exists d, p'. split; [exact H1|]. split; [exact H3|exact H5].
Defined.
