(* ===== verification/TurnProjection.v ===== *)
(** * The turn projection ([crates/bt-session/src/turn_projection.rs])

    One durable row per turn summarises the turn's events.  The fold of one
    event, the row codec, the refresh of the table inside the append
    transaction ([store/projections.rs]) and the rebuild of the table from
    the log ([migration.rs]).  The display and the parser of ids, of times
    and of the JSON of the tool calls are the interface [RowCodec]. *)

From stdpp Require Import base list strings gmap.
From Stdlib Require Import ZArith Lia.
From S2P Require Import Prelude Text Json Types.

#[local] Open Scope Z_scope.

(** ** The fold *)

(** [projected_turn_id] *)
Definition projected_turn_id (event : EventEnvelope) : option TurnId :=
  match ev_turn_id event with
  | Some turn_id => Some turn_id
  | None =>
      match ev_payload event with
      | TurnStarted turn_id _ _ _ _ _ _ | TurnFinished turn_id _ _ _ _ _ => Some turn_id
      | TurnInstructionProvenanceRecorded provenance => Some (pv_turn_id provenance)
      | _ => None
      end
  end.

(** [new_turn_projection] *)
Definition new_turn_projection (event : EventEnvelope) (turn_id : TurnId) (seq_id : Z)
    : TurnInspection :=
  {| ti_turn_id := turn_id;
     ti_branch_id := ev_branch_id event;
     ti_provider := "";
     ti_model := "";
     ti_message_count := 0;
     ti_settings_revision_id := default_settings_revision_id;
     ti_started_at := ev_occurred_at event;
     ti_finished_at := None;
     ti_status := None;
     ti_finish_reason := None;
     ti_latency_ms := None;
     ti_event_seq_start := Some seq_id;
     ti_event_seq_end := Some seq_id;
     ti_event_count := 0;
     ti_pending_approval_count := 0;
     ti_raw_chunk_count := 0;
     ti_tool_calls := [] |}.

(** [ensure_tool_call]: the summaries and the index of the one for the call. *)
Definition ensure_tool_call (tools : list TurnToolCallSummary) (call_id : ToolCallId)
    (tool_name : string) : list TurnToolCallSummary * nat :=
  match position (fun tool => bool_decide (ttc_call_id tool = call_id)) tools with
  | Some index => (tools, index)
  | None =>
      (tools ++ [{| ttc_call_id := call_id; ttc_tool_name := tool_name;
                    ttc_approval_status := None; ttc_execution_status := None |}],
       length tools)
  end.

(** [let tool = ensure_tool_call(..); *tool = f(tool)] *)
Definition update_tool_call (call_id : ToolCallId) (tool_name : string)
    (f : TurnToolCallSummary -> TurnToolCallSummary) (tools : list TurnToolCallSummary)
    : list TurnToolCallSummary :=
  let '(tools, index) := ensure_tool_call tools call_id tool_name in alter f index tools.

Definition set_tool_calls (turn : TurnInspection) (tools : list TurnToolCallSummary)
    (pending_approval_count : Z) : TurnInspection :=
  {| ti_turn_id := ti_turn_id turn; ti_branch_id := ti_branch_id turn;
     ti_provider := ti_provider turn; ti_model := ti_model turn;
     ti_message_count := ti_message_count turn;
     ti_settings_revision_id := ti_settings_revision_id turn;
     ti_started_at := ti_started_at turn; ti_finished_at := ti_finished_at turn;
     ti_status := ti_status turn; ti_finish_reason := ti_finish_reason turn;
     ti_latency_ms := ti_latency_ms turn; ti_event_seq_start := ti_event_seq_start turn;
     ti_event_seq_end := ti_event_seq_end turn; ti_event_count := ti_event_count turn;
     ti_pending_approval_count := pending_approval_count;
     ti_raw_chunk_count := ti_raw_chunk_count turn;
     ti_tool_calls := tools |}.

(** The head of [apply_turn_projection_event]. *)
Definition count_event (turn : TurnInspection) (seq_id : Z) : TurnInspection :=
  {| ti_turn_id := ti_turn_id turn; ti_branch_id := ti_branch_id turn;
     ti_provider := ti_provider turn; ti_model := ti_model turn;
     ti_message_count := ti_message_count turn;
     ti_settings_revision_id := ti_settings_revision_id turn;
     ti_started_at := ti_started_at turn; ti_finished_at := ti_finished_at turn;
     ti_status := ti_status turn; ti_finish_reason := ti_finish_reason turn;
     ti_latency_ms := ti_latency_ms turn;
     ti_event_seq_start := match ti_event_seq_start turn with
                           | None => Some seq_id | Some start => Some start end;
     ti_event_seq_end := Some seq_id;
     ti_event_count := u32_add (ti_event_count turn) 1;
     ti_pending_approval_count := ti_pending_approval_count turn;
     ti_raw_chunk_count := ti_raw_chunk_count turn;
     ti_tool_calls := ti_tool_calls turn |}.

(** [apply_turn_projection_event] *)
Definition apply_turn_projection_event (turn : TurnInspection) (event : EventEnvelope)
    (seq_id : Z) : TurnInspection :=
  let turn := count_event turn seq_id in
  match ev_payload event with
  | TurnStarted _ provider model message_count settings_revision_id _ _ =>
      {| ti_turn_id := ti_turn_id turn; ti_branch_id := ti_branch_id turn;
         ti_provider := provider; ti_model := model; ti_message_count := message_count;
         ti_settings_revision_id := settings_revision_id;
         ti_started_at := ev_occurred_at event; ti_finished_at := ti_finished_at turn;
         ti_status := ti_status turn; ti_finish_reason := ti_finish_reason turn;
         ti_latency_ms := ti_latency_ms turn; ti_event_seq_start := Some seq_id;
         ti_event_seq_end := ti_event_seq_end turn; ti_event_count := ti_event_count turn;
         ti_pending_approval_count := ti_pending_approval_count turn;
         ti_raw_chunk_count := ti_raw_chunk_count turn; ti_tool_calls := ti_tool_calls turn |}
  | CompletionRequested _ provider model message_count =>
      {| ti_turn_id := ti_turn_id turn; ti_branch_id := ti_branch_id turn;
         ti_provider := if is_empty (ti_provider turn) then provider else ti_provider turn;
         ti_model := if is_empty (ti_model turn) then model else ti_model turn;
         ti_message_count := if ti_message_count turn =? 0 then message_count
                             else ti_message_count turn;
         ti_settings_revision_id := ti_settings_revision_id turn;
         ti_started_at := ti_started_at turn; ti_finished_at := ti_finished_at turn;
         ti_status := ti_status turn; ti_finish_reason := ti_finish_reason turn;
         ti_latency_ms := ti_latency_ms turn; ti_event_seq_start := ti_event_seq_start turn;
         ti_event_seq_end := ti_event_seq_end turn; ti_event_count := ti_event_count turn;
         ti_pending_approval_count := ti_pending_approval_count turn;
         ti_raw_chunk_count := ti_raw_chunk_count turn; ti_tool_calls := ti_tool_calls turn |}
  | SessionError _ code _ _ =>
      {| ti_turn_id := ti_turn_id turn; ti_branch_id := ti_branch_id turn;
         ti_provider := ti_provider turn; ti_model := ti_model turn;
         ti_message_count := ti_message_count turn;
         ti_settings_revision_id := ti_settings_revision_id turn;
         ti_started_at := ti_started_at turn; ti_finished_at := ti_finished_at turn;
         ti_status := ti_status turn;
         ti_finish_reason := match ti_finish_reason turn with
                             | None => Some code | Some reason => Some reason end;
         ti_latency_ms := ti_latency_ms turn; ti_event_seq_start := ti_event_seq_start turn;
         ti_event_seq_end := ti_event_seq_end turn; ti_event_count := ti_event_count turn;
         ti_pending_approval_count := ti_pending_approval_count turn;
         ti_raw_chunk_count := ti_raw_chunk_count turn; ti_tool_calls := ti_tool_calls turn |}
  | TurnFinished _ provider model status finish_reason latency_ms =>
      {| ti_turn_id := ti_turn_id turn; ti_branch_id := ti_branch_id turn;
         ti_provider := provider; ti_model := model;
         ti_message_count := ti_message_count turn;
         ti_settings_revision_id := ti_settings_revision_id turn;
         ti_started_at := ti_started_at turn;
         ti_finished_at := Some (ev_occurred_at event);
         ti_status := Some status; ti_finish_reason := finish_reason;
         ti_latency_ms := Some latency_ms; ti_event_seq_start := ti_event_seq_start turn;
         ti_event_seq_end := ti_event_seq_end turn; ti_event_count := ti_event_count turn;
         ti_pending_approval_count := ti_pending_approval_count turn;
         ti_raw_chunk_count := ti_raw_chunk_count turn; ti_tool_calls := ti_tool_calls turn |}
  | RawChunkPersisted _ _ _ _ =>
      {| ti_turn_id := ti_turn_id turn; ti_branch_id := ti_branch_id turn;
         ti_provider := ti_provider turn; ti_model := ti_model turn;
         ti_message_count := ti_message_count turn;
         ti_settings_revision_id := ti_settings_revision_id turn;
         ti_started_at := ti_started_at turn; ti_finished_at := ti_finished_at turn;
         ti_status := ti_status turn; ti_finish_reason := ti_finish_reason turn;
         ti_latency_ms := ti_latency_ms turn; ti_event_seq_start := ti_event_seq_start turn;
         ti_event_seq_end := ti_event_seq_end turn; ti_event_count := ti_event_count turn;
         ti_pending_approval_count := ti_pending_approval_count turn;
         ti_raw_chunk_count := u32_add (ti_raw_chunk_count turn) 1;
         ti_tool_calls := ti_tool_calls turn |}
  | ToolCallRequested call_id tool_name _ =>
      set_tool_calls turn
        (update_tool_call call_id tool_name
           (fun tool => MkTurnToolCallSummary (ttc_call_id tool) tool_name None None)
           (ti_tool_calls turn))
        (ti_pending_approval_count turn)
  | ToolApprovalRequested call_id tool_name _ =>
      set_tool_calls turn
        (update_tool_call call_id tool_name
           (fun tool => MkTurnToolCallSummary (ttc_call_id tool) (ttc_tool_name tool)
              (Some "pending") (ttc_execution_status tool))
           (ti_tool_calls turn))
        (u32_add (ti_pending_approval_count turn) 1)
  | ToolApprovalResolved call_id tool_name _ _ decision =>
      set_tool_calls turn
        (update_tool_call call_id tool_name
           (fun tool => MkTurnToolCallSummary (ttc_call_id tool) (ttc_tool_name tool)
              (Some match decision with
                    | Approved _ _ _ _ => "approved" | Denied _ _ _ _ _ => "denied" end)
              (ttc_execution_status tool))
           (ti_tool_calls turn))
        (if 0 <? ti_pending_approval_count turn then ti_pending_approval_count turn - 1
         else ti_pending_approval_count turn)
  | ToolExecutionFinished call_id tool_name result =>
      set_tool_calls turn
        (update_tool_call call_id tool_name
           (fun tool => MkTurnToolCallSummary (ttc_call_id tool) (ttc_tool_name tool)
              (ttc_approval_status tool)
              (Some (if tr_is_error result then "error" else "completed")))
           (ti_tool_calls turn))
        (ti_pending_approval_count turn)
  | _ => turn
  end.

(** ** Rows *)

(** A row of [turn_projection]; SQLite integers are signed 64-bit. *)
Record TurnRow : Type := MkTurnRow {
  row_branch_id : string;
  row_turn_id : string;
  row_provider : string;
  row_model : string;
  row_message_count : Z;
  row_settings_revision_id : Z;
  row_started_at : string;
  row_finished_at : option string;
  row_status : option string;
  row_finish_reason : option string;
  row_latency_ms : option Z;
  row_event_seq_start : option Z;
  row_event_seq_end : option Z;
  row_event_count : Z;
  row_pending_approval_count : Z;
  row_raw_chunk_count : Z;
  row_tool_calls_json : string;
}.

(** Display and parsing of ids, RFC 3339 times and the tool calls' JSON, and
    the texts of an error of the database driver and of the time formatter. *)
Class RowCodec : Type := {
  show_uuid : N -> string;
  parse_uuid : string -> option N;
  format_time : OffsetDateTime -> option string;
  parse_time : string -> option OffsetDateTime;
  show_tool_calls : list TurnToolCallSummary -> option string;
  parse_tool_calls : string -> option (list TurnToolCallSummary);
  driver_error : string;
  format_error : string;
}.

(** What is written is read back. *)
Class RowCodecLaws `{RowCodec} : Prop := {
  parse_show_uuid n : parse_uuid (show_uuid n) = Some n;
  parse_format_time t s : format_time t = Some s -> parse_time s = Some t;
  parse_show_tool_calls l s : show_tool_calls l = Some s -> parse_tool_calls s = Some l;
}.

(** The primary key: the session's and the turn's rendered ids. *)
Abbreviation TurnTable := (gmap (string * string) TurnRow).

Section codec.
Context `{codec : RowCodec}.

(** The values [upsert_turn_projection] binds. *)
Definition encode_turn_projection (turn : TurnInspection) : option TurnRow :=
  started_at ← format_time (ti_started_at turn);
  finished_at ← match ti_finished_at turn with
                | None => Some None
                | Some t => Some <$> format_time t
                end;
  tool_calls_json ← show_tool_calls (ti_tool_calls turn);
  Some {| row_branch_id := show_uuid (uuid (ti_branch_id turn));
          row_turn_id := show_uuid (uuid (ti_turn_id turn));
          row_provider := ti_provider turn;
          row_model := ti_model turn;
          row_message_count := ti_message_count turn;
          row_settings_revision_id := u64_as_i64 (ti_settings_revision_id turn);
          row_started_at := started_at;
          row_finished_at := finished_at;
          row_status := ti_status turn;
          row_finish_reason := ti_finish_reason turn;
          row_latency_ms := u64_as_i64 <$> ti_latency_ms turn;
          row_event_seq_start := ti_event_seq_start turn;
          row_event_seq_end := ti_event_seq_end turn;
          row_event_count := ti_event_count turn;
          row_pending_approval_count := ti_pending_approval_count turn;
          row_raw_chunk_count := ti_raw_chunk_count turn;
          row_tool_calls_json := tool_calls_json |}.

Definition transpose {A} (o : option (option A)) : option (option A) :=
  match o with
  | None => Some None
  | Some (Some a) => Some (Some a)
  | Some None => None
  end.

(** [parse_turn_projection_row] *)
Definition parse_turn_projection_row (row : TurnRow) : option TurnInspection :=
  turn_id ← parse_uuid (row_turn_id row);
  branch_id ← parse_uuid (row_branch_id row);
  message_count ← u32_try_from (row_message_count row);
  settings_revision_id ← u64_try_from (row_settings_revision_id row);
  started_at ← parse_time (row_started_at row);
  finished_at ← transpose (parse_time <$> row_finished_at row);
  latency_ms ← transpose (u64_try_from <$> row_latency_ms row);
  event_count ← u32_try_from (row_event_count row);
  pending_approval_count ← u32_try_from (row_pending_approval_count row);
  raw_chunk_count ← u32_try_from (row_raw_chunk_count row);
  tool_calls ← parse_tool_calls (row_tool_calls_json row);
  Some {| ti_turn_id := MkUuid turn_id;
          ti_branch_id := MkUuid branch_id;
          ti_provider := row_provider row;
          ti_model := row_model row;
          ti_message_count := message_count;
          ti_settings_revision_id := settings_revision_id;
          ti_started_at := started_at;
          ti_finished_at := finished_at;
          ti_status := row_status row;
          ti_finish_reason := row_finish_reason row;
          ti_latency_ms := latency_ms;
          ti_event_seq_start := row_event_seq_start row;
          ti_event_seq_end := row_event_seq_end row;
          ti_event_count := event_count;
          ti_pending_approval_count := pending_approval_count;
          ti_raw_chunk_count := raw_chunk_count;
          ti_tool_calls := tool_calls |}.

(** ** The table: refresh and rebuild *)

Definition turn_key (session_id : SessionId) (turn_id : TurnId) : string * string :=
  (show_uuid (uuid session_id), show_uuid (uuid turn_id)).

(** [upsert_turn_projection] *)
Definition upsert_turn_projection (table : TurnTable) (session_key : string)
    (turn : TurnInspection) : option TurnTable :=
  row ← encode_turn_projection turn;
  Some (<[(session_key, row_turn_id row) := row]> table).

(** [load_turn_projection]: a missing row is not an error. *)
Definition load_turn_projection (table : TurnTable) (key : string * string)
    : option (option TurnInspection) :=
  match table !! key with
  | None => Some None
  | Some row => Some <$> parse_turn_projection_row row
  end.

Definition storage {A} (o : option A) : Result A := ok_or (Storage driver_error) o.

(** [refresh_turn_projection] *)
Definition refresh_turn_projection (table : TurnTable) (event : EventEnvelope) (seq_id : Z)
    : Result TurnTable :=
  match projected_turn_id event with
  | None => Ok table
  | Some turn_id =>
      loaded ← storage (load_turn_projection table (turn_key (ev_session_id event) turn_id));
      let turn := default (new_turn_projection event turn_id seq_id) loaded in
      let turn := apply_turn_projection_event turn event seq_id in
      storage (upsert_turn_projection table (show_uuid (uuid (ev_session_id event))) turn)
  end.

(** One iteration of the replay of [rebuild_turn_projection]. *)
Definition replay_event (turns : gmap (string * string) TurnInspection)
    (logged : Z * EventEnvelope) : gmap (string * string) TurnInspection :=
  let '(seq_id, event) := logged in
  match projected_turn_id event with
  | None => turns
  | Some turn_id =>
      let key := turn_key (ev_session_id event) turn_id in
      let turn := default (new_turn_projection event turn_id seq_id) (turns !! key) in
      <[key := apply_turn_projection_event turn event seq_id]> turns
  end.

(** [rebuild_turn_projection]: the new contents of the table; the order in
    which the map is iterated does not matter, its keys being distinct. *)
Definition rebuild_turn_projection (log : list (Z * EventEnvelope)) : option TurnTable :=
  let turns := fold_left replay_event log ∅ in
  foldr (fun kt table => table ← table; upsert_turn_projection table kt.1.1 kt.2)
    (Some ∅) (map_to_list turns).

Fixpoint refresh_log (table : TurnTable) (log : list (Z * EventEnvelope)) : Result TurnTable :=
  match log with
  | [] => Ok table
  | (seq_id, event) :: log' =>
      table' ← refresh_turn_projection table event seq_id; refresh_log table' log'
  end.

(** ** Ranges *)

(** The counters are 32-bit, and the two unsigned 64-bit values fit the
    signed column they are cast to. *)
Record turn_fits (turn : TurnInspection) : Prop := {
  fits_message_count : is_u32 (ti_message_count turn);
  fits_settings : is_i63 (ti_settings_revision_id turn);
  fits_latency l : ti_latency_ms turn = Some l -> is_i63 l;
  fits_event_count : is_u32 (ti_event_count turn);
  fits_pending : is_u32 (ti_pending_approval_count turn);
  fits_raw : is_u32 (ti_raw_chunk_count turn);
}.

Definition event_fits (event : EventEnvelope) : Prop :=
  match ev_payload event with
  | TurnStarted _ _ _ message_count settings_revision_id _ _ =>
      is_u32 message_count /\ is_i63 settings_revision_id
  | CompletionRequested _ _ _ message_count => is_u32 message_count
  | TurnFinished _ _ _ _ _ latency_ms => is_i63 latency_ms
  | _ => True
  end.

Lemma u32_add_range a b : is_u32 (u32_add a b).
Proof. unfold is_u32, u32_add, wrap32. apply Z.mod_pos_bound. done. Qed.

Lemma is_u32_0 : is_u32 0.
Proof. unfold is_u32, U32_MOD. lia. Qed.

Lemma is_i63_default : is_i63 default_settings_revision_id.
Proof. unfold is_i63, default_settings_revision_id, I64_MAX. lia. Qed.

Lemma new_turn_fits event turn_id seq_id : turn_fits (new_turn_projection event turn_id seq_id).
Proof. split; simpl; try apply is_u32_0; [apply is_i63_default|done]. Qed.

Lemma apply_event_fits turn event seq_id :
  turn_fits turn -> event_fits event ->
  turn_fits (apply_turn_projection_event turn event seq_id).
Proof.
  intros [H1 H2 H3 H4 H5 H6] He. unfold event_fits in He.
  unfold apply_turn_projection_event.
  destruct (ev_payload event); try (split; simpl; try done; apply u32_add_range).
  - destruct He. split; simpl; try done; apply u32_add_range.
  - split; simpl; try done; [|apply u32_add_range]. by destruct (_ =? 0).
  - split; simpl; try done; [|apply u32_add_range]. by intros l [= <-].
  - split; simpl; try done; [apply u32_add_range|].
    destruct (Z.ltb_spec 0 (ti_pending_approval_count turn)); [|done].
    unfold is_u32 in *. lia.
Qed.

(** The turn a row is stored under never changes. *)
Lemma apply_event_turn_id turn event seq_id :
  ti_turn_id (apply_turn_projection_event turn event seq_id) = ti_turn_id turn.
Proof. unfold apply_turn_projection_event. by destruct (ev_payload event). Qed.

(** ** The codec's round trip *)

Lemma u64_of_i63 z : is_i63 z -> u64_try_from (u64_as_i64 z) = Some z.
Proof.
  intros H. rewrite u64_as_i64_small by done. unfold u64_try_from, is_i63 in *.
  by destruct (Z.leb_spec 0 z); [|lia].
Qed.

Lemma u32_try_from_range z : is_u32 z -> u32_try_from z = Some z.
Proof.
  unfold is_u32, u32_try_from, U32_MAX. intros [].
  destruct (Z.leb_spec 0 z), (Z.leb_spec z (U32_MOD - 1)); simpl; try done; lia.
Qed.

Context `{laws : !RowCodecLaws}.

Lemma parse_encode turn row :
  turn_fits turn -> encode_turn_projection turn = Some row ->
  parse_turn_projection_row row = Some turn.
Proof.
  intros [H1 H2 H3 H4 H5 H6] H. unfold encode_turn_projection in H.
  destruct (format_time (ti_started_at turn)) as [started|] eqn:Es; simpl in H; [|done].
  destruct (match ti_finished_at turn with None => _ | _ => _ end) as [finished|] eqn:Ef;
    simpl in H; [|done].
  destruct (show_tool_calls (ti_tool_calls turn)) as [json|] eqn:Et; simpl in H; [|done].
  injection H as <-. unfold parse_turn_projection_row. simpl.
  rewrite !parse_show_uuid. simpl.
  rewrite !u32_try_from_range by done. rewrite u64_of_i63 by done. simpl.
  rewrite (parse_format_time _ _ Es), (parse_show_tool_calls _ _ Et). simpl.
  assert (transpose (parse_time <$> finished) = Some (ti_finished_at turn)) as ->.
  { destruct (ti_finished_at turn) as [t|]; simpl in Ef; [|by injection Ef as <-].
    apply fmap_Some in Ef as (s & Ef & ->). simpl. by rewrite (parse_format_time _ _ Ef). }
  assert (transpose (u64_try_from <$> (u64_as_i64 <$> ti_latency_ms turn))
          = Some (ti_latency_ms turn)) as Hl.
  { destruct (ti_latency_ms turn) as [l|]; simpl; [|done]. by rewrite u64_of_i63 by auto. }
  simpl. rewrite Hl. simpl. by destruct turn as [[] []].
Qed.

(** ** Refresh and replay agree *)

Definition agree (table : TurnTable) (turns : gmap (string * string) TurnInspection) : Prop :=
  forall key, match turns !! key with
    | None => table !! key = None
    | Some turn => turn_fits turn
        /\ exists row, encode_turn_projection turn = Some row
             /\ table !! key = Some row /\ row_turn_id row = key.2
             /\ show_uuid (uuid (ti_turn_id turn)) = key.2
    end.

Lemma encode_turn_id turn row :
  encode_turn_projection turn = Some row -> row_turn_id row = show_uuid (uuid (ti_turn_id turn)).
Proof.
  unfold encode_turn_projection. intros H.
  repeat (apply bind_Some in H as (? & _ & H)). by injection H as <-.
Qed.

Lemma refresh_agrees table turns event seq_id table' :
  agree table turns -> event_fits event ->
  refresh_turn_projection table event seq_id = Ok table' ->
  agree table' (replay_event turns (seq_id, event)).
Proof.
  intros Ha He. unfold refresh_turn_projection, replay_event.
  destruct (projected_turn_id event) as [turn_id|]; [|by intros [= <-]].
  set (key := turn_key (ev_session_id event) turn_id). intros H.
  invert_result. unfold storage in *. apply ok_or_Ok in H, Hr.
  set (old := default (new_turn_projection event turn_id seq_id) (turns !! key)).
  assert (turn_fits old /\ show_uuid (uuid (ti_turn_id old)) = key.2
          /\ default (new_turn_projection event turn_id seq_id) r = old) as (Hfit & Hid & Hold).
  { specialize (Ha key). unfold load_turn_projection in Hr. unfold old.
    destruct (turns !! key) as [turn|]; simpl.
    - destruct Ha as (Hfit & row & Henc & Hrow & Hk & Hid). rewrite Hrow in Hr.
      rewrite (parse_encode _ _ Hfit Henc) in Hr. simpl in Hr. injection Hr as <-. done.
    - rewrite Ha in Hr. injection Hr as <-. split_and!; [apply new_turn_fits|done|done]. }
  rewrite Hold in H. unfold upsert_turn_projection in H.
  apply bind_Some in H as (row & Henc & [= <-]).
  pose proof (encode_turn_id _ _ Henc) as Hrow. rewrite apply_event_turn_id in Hrow.
  intros k. destruct (decide (k = key)) as [->|Hne].
  - rewrite lookup_insert_eq. split; [by apply apply_event_fits|]. exists row.
    rewrite apply_event_turn_id. split_and!; [done| |congruence|done].
    rewrite Hrow, Hid. apply lookup_insert_eq.
  - assert (<[(show_uuid (uuid (ev_session_id event)), row_turn_id row) := row]> table !! k
            = table !! k) as ->.
    { rewrite Hrow, Hid. by apply lookup_insert_ne. }
    rewrite lookup_insert_ne by done. apply Ha.
Qed.

Lemma refresh_log_agrees log table turns table' :
  agree table turns -> Forall (fun se => event_fits se.2) log ->
  refresh_log table log = Ok table' -> agree table' (fold_left replay_event log turns).
Proof.
  revert table turns; induction log as [|[seq_id event] log IH]; simpl; intros table turns Ha Hf H.
  { by injection H as <-. }
  inversion_clear Hf. invert_result. eapply IH; [|done|exact H]. by eapply refresh_agrees.
Qed.

Lemma rebuild_agrees table turns :
  agree table turns ->
  foldr (fun kt table => table ← table; upsert_turn_projection table kt.1.1 kt.2)
    (Some ∅) (map_to_list turns) = Some table.
Proof.
  intros Ha.
  assert (forall l, (forall k t, (k, t) ∈ l -> turns !! k = Some t) -> NoDup l.*1 ->
    exists m, foldr (fun kt table => table ← table; upsert_turn_projection table kt.1.1 kt.2)
      (Some ∅) l = Some m
      /\ forall k, m !! k = if decide (k ∈ l.*1) then table !! k else None) as Hl.
  { induction l as [|[k t] l IH]; intros Hin Hnd; csimpl.
    { exists ∅. split; [done|]. intros k. apply lookup_empty. }
    apply NoDup_cons in Hnd as [Hk Hnd].
    destruct IH as (m & Hm & Hlook); [intros; apply Hin; by right|done|].
    rewrite Hm. simpl. pose proof (Ha k) as Hak.
    rewrite (Hin k t) in Hak by by left.
    destruct Hak as (_ & row & Henc & Hrow & Hid & _).
    unfold upsert_turn_projection. rewrite Henc. simpl. eexists. split; [done|].
    rewrite Hid. destruct k as [s t']; simpl in *. intros k'.
    destruct (decide (k' = (s, t'))) as [->|Hne].
    - rewrite lookup_insert_eq, decide_True by left. done.
    - rewrite lookup_insert_ne, Hlook by done.
      destruct (decide (k' ∈ l.*1)), (decide (k' ∈ (s, t') :: l.*1)) as [Hin'|Hin'];
        try done; exfalso.
      + apply Hin'. by right.
      + apply elem_of_cons in Hin' as [?|?]; done. }
  destruct (Hl (map_to_list turns)) as (m & -> & Hlook).
  - intros k t. apply elem_of_map_to_list.
  - apply NoDup_fst_map_to_list.
  - f_equal. apply map_eq. intros k. rewrite Hlook. case_decide as Hk; [done|].
    specialize (Ha k). destruct (turns !! k) as [t|] eqn:E; [|done].
    exfalso. apply Hk. apply list_elem_of_fmap. exists (k, t). split; [done|].
    by apply elem_of_map_to_list.
Qed.

(** *** Values that do not fit *)

Lemma parse_wide_latency turn row l :
  encode_turn_projection turn = Some row -> ti_latency_ms turn = Some l ->
  I64_MAX < l < U64_MOD -> parse_turn_projection_row row = None.
Proof.
  intros H Hl Hwide. unfold encode_turn_projection in H. rewrite Hl in H.
  repeat (apply bind_Some in H as (? & _ & H)). injection H as <-.
  assert (u64_try_from (u64_as_i64 l) = None) as Hnone.
  { pose proof (u64_as_i64_large _ Hwide). unfold u64_try_from.
    by destruct (Z.leb_spec 0 (u64_as_i64 l)); [lia|]. }
  unfold parse_turn_projection_row. simpl. rewrite Hnone. simpl.
  repeat match goal with |- (?m ≫= _) = None => destruct m; simpl; [|done] end. done.
Qed.
End codec.

(** ** Tool calls of a turn *)

Definition find_call (c : ToolCallId) (tools : list TurnToolCallSummary)
    : option TurnToolCallSummary :=
  find_first (fun tool => bool_decide (ttc_call_id tool = c)) tools.

Definition call_ids (tools : list TurnToolCallSummary) : list ToolCallId :=
  ttc_call_id <$> tools.

(** The summary of one call, from the events that name it. *)
Definition call_step (c : ToolCallId) (o : option TurnToolCallSummary) (event : EventEnvelope)
    : option TurnToolCallSummary :=
  let known name := default (MkTurnToolCallSummary c name None None) o in
  match ev_payload event with
  | ToolCallRequested c' name _ =>
      if bool_decide (c' = c) then Some (MkTurnToolCallSummary c name None None) else o
  | ToolApprovalRequested c' name _ =>
      if bool_decide (c' = c) then
        Some (MkTurnToolCallSummary c (ttc_tool_name (known name)) (Some "pending")
          (ttc_execution_status (known name)))
      else o
  | ToolApprovalResolved c' name _ _ decision =>
      if bool_decide (c' = c) then
        Some (MkTurnToolCallSummary c (ttc_tool_name (known name))
          (Some match decision with
                | Approved _ _ _ _ => "approved" | Denied _ _ _ _ _ => "denied" end)
          (ttc_execution_status (known name)))
      else o
  | ToolExecutionFinished c' name result =>
      if bool_decide (c' = c) then
        Some (MkTurnToolCallSummary c (ttc_tool_name (known name))
          (ttc_approval_status (known name))
          (Some (if tr_is_error result then "error" else "completed")))
      else o
  | _ => o
  end.

Definition fold_turn (turn : TurnInspection) (log : list (Z * EventEnvelope)) : TurnInspection :=
  fold_left (fun turn se => apply_turn_projection_event turn se.2 se.1) log turn.

Lemma find_call_id c tools tool : find_call c tools = Some tool -> ttc_call_id tool = c.
Proof. intros [_ H]%find_first_Some. by apply bool_decide_eq_true in H. Qed.

Lemma find_call_app c tools tools' :
  find_call c (tools ++ tools')
  = match find_call c tools with Some tool => Some tool | None => find_call c tools' end.
Proof.
  unfold find_call, find_first. induction tools as [|t tools IH]; simpl; [done|].
  by case_bool_decide.
Qed.

Lemma find_update_call c c' name f tools :
  (forall tool, ttc_call_id (f tool) = ttc_call_id tool) ->
  find_call c (update_tool_call c' name f tools)
  = if decide (c' = c) then
      Some (f (default (MkTurnToolCallSummary c' name None None) (find_call c' tools)))
    else find_call c tools.
Proof.
  intros Hf. unfold update_tool_call, ensure_tool_call.
  induction tools as [|t tools IH]; simpl.
  { unfold find_call, find_first. simpl. rewrite Hf. simpl.
    case_bool_decide; case_decide; done. }
  unfold find_call, find_first in *. simpl.
  destruct (bool_decide (ttc_call_id t = c')) eqn:E.
  - apply bool_decide_eq_true in E. simpl. rewrite Hf.
    case_decide as Hc.
    + rewrite bool_decide_true by congruence. done.
    + rewrite bool_decide_false by congruence. done.
  - apply bool_decide_eq_false in E.
    destruct (position _ tools) as [i|] eqn:Ep; simpl in *.
    + case_decide as Hc; [|by case_bool_decide].
      subst c'. rewrite bool_decide_false by done. exact IH.
    + case_decide as Hc.
      * subst c'. rewrite bool_decide_false by done. 
        rewrite <- IH. 
        change (length tools) with (0 + length tools)%nat. done.
      * case_bool_decide; [done|]. exact IH.
Qed.

Lemma apply_event_call c turn event seq_id :
  find_call c (ti_tool_calls (apply_turn_projection_event turn event seq_id))
  = call_step c (find_call c (ti_tool_calls turn)) event.
Proof.
  assert (forall tool c', find_call c' (ti_tool_calls turn) = Some tool ->
    ttc_call_id tool = c') as Hid by (intros tool c'; apply find_call_id).
  unfold apply_turn_projection_event, call_step.
  destruct (ev_payload event); simpl; try done;
    rewrite find_update_call by done; case_decide as Hc;
    try (by rewrite bool_decide_false); subst; rewrite bool_decide_true by done; f_equal;
    specialize (Hid (default (MkTurnToolCallSummary c tool_name None None)
      (find_call c (ti_tool_calls turn))) c);
    destruct (find_call c (ti_tool_calls turn)) as [tool|]; simpl in *; try done;
    f_equal; by apply Hid.
Qed.

Lemma call_ids_alter f i tools :
  (forall tool, ttc_call_id (f tool) = ttc_call_id tool) ->
  call_ids (alter f i tools) = call_ids tools.
Proof.
  intros Hf. unfold call_ids. revert i; induction tools as [|t tools IH]; intros [|i]; simpl;
    try done.
  - by rewrite Hf.
  - change (list_alter f i tools) with (alter f i tools). by rewrite IH.
Qed.

Lemma update_call_ids c name f tools :
  (forall tool, ttc_call_id (f tool) = ttc_call_id tool) ->
  call_ids (update_tool_call c name f tools)
  = if decide (c ∈ call_ids tools) then call_ids tools else call_ids tools ++ [c].
Proof.
  intros Hf. unfold update_tool_call, ensure_tool_call.
  destruct (position _ tools) as [i|] eqn:Ep; rewrite call_ids_alter by done; unfold call_ids.
  - apply position_Some in Ep as (t & Ht & Hc & _). apply bool_decide_eq_true in Hc as <-.
    rewrite decide_True; [done|]. apply list_elem_of_fmap. exists t. split; [done|].
    by eapply list_elem_of_lookup_2.
  - apply position_None in Ep. rewrite fmap_app, decide_False; [done|].
    intros (t & -> & Ht)%list_elem_of_fmap. rewrite Forall_forall in Ep.
    specialize (Ep t Ht). by rewrite bool_decide_true in Ep.
Qed.

Lemma apply_event_ids turn event seq_id :
  NoDup (call_ids (ti_tool_calls turn)) ->
  NoDup (call_ids (ti_tool_calls (apply_turn_projection_event turn event seq_id))).
Proof.
  intros H. assert (forall c name f, (forall tool, ttc_call_id (f tool) = ttc_call_id tool) ->
    NoDup (call_ids (update_tool_call c name f (ti_tool_calls turn)))) as Hu.
  { intros c name f Hf. rewrite update_call_ids by done. case_decide as Hc; [done|].
    apply NoDup_app; split_and!; [done| |apply NoDup_singleton].
    intros x Hx ->%list_elem_of_singleton. done. }
  unfold apply_turn_projection_event.
  destruct (ev_payload event); simpl; try done; by apply Hu.
Qed.

Lemma fold_turn_calls c turn log :
  find_call c (ti_tool_calls (fold_turn turn log))
  = fold_left (call_step c) (log.*2) (find_call c (ti_tool_calls turn)).
Proof.
  revert turn; induction log as [|[seq_id event] log IH]; intros turn; simpl; [done|].
  unfold fold_turn in *. simpl. by rewrite IH, apply_event_call.
Qed.

Lemma fold_turn_ids turn log :
  NoDup (call_ids (ti_tool_calls turn)) ->
  NoDup (call_ids (ti_tool_calls (fold_turn turn log))).
Proof.
  revert turn; induction log as [|[seq_id event] log IH]; intros turn H; simpl; [done|].
  unfold fold_turn in *. simpl. by apply IH, apply_event_ids.
Qed.

Lemma apply_event_counts turn event seq_id :
  ti_event_count (apply_turn_projection_event turn event seq_id) = u32_add (ti_event_count turn) 1
  /\ ti_event_seq_end (apply_turn_projection_event turn event seq_id) = Some seq_id.
Proof. unfold apply_turn_projection_event. by destruct (ev_payload event). Qed.

Lemma fold_turn_counts turn log :
  ti_event_count turn = wrap32 (ti_event_count turn) ->
  ti_event_count (fold_turn turn log) = wrap32 (ti_event_count turn + Z.of_nat (length log))
  /\ (forall seq_id event, last log = Some (seq_id, event) ->
        ti_event_seq_end (fold_turn turn log) = Some seq_id).
Proof.
  revert turn; induction log as [|[seq_id event] log IH]; intros turn Hw; unfold fold_turn in *; simpl.
  { by rewrite Z.add_0_r. }
  destruct (apply_event_counts turn event seq_id) as [Hc He].
  destruct (IH (apply_turn_projection_event turn event seq_id)) as [IH1 IH2].
  { rewrite Hc. unfold u32_add, wrap32. by rewrite Z.mod_mod. }
  rewrite IH1, Hc. split.
  - unfold u32_add, wrap32. rewrite Zplus_mod_idemp_l. f_equal. lia.
  - intros s e. destruct log as [|[s' e'] log]; simpl in *; [|apply IH2].
    intros [= <- <-]. done.
Qed.

(** *** A codec to run the model on *)

Fixpoint unary (n : nat) : string :=
  match n with O => "" | S n => String newline (unary n) end.

Lemma unary_length n : String.length (unary n) = n.
Proof. induction n as [|n IH]; simpl; [done|by rewrite IH]. Qed.

(** Ids and times are written in unary, and only empty lists of calls have a
    rendering. *)
#[export] Instance unary_codec : RowCodec := {|
  show_uuid n := unary (N.to_nat n);
  parse_uuid s := Some (N.of_nat (String.length s));
  format_time t := if 0 <=? t then Some (unary (Z.to_nat t)) else None;
  parse_time s := Some (Z.of_nat (String.length s));
  show_tool_calls l := match l with [] => Some "[]" | _ => None end;
  parse_tool_calls s := if String.eqb s "[]" then Some [] else None;
  driver_error := "driver";
  format_error := "format";
|}.

#[export] Instance unary_laws : RowCodecLaws.
Proof.
  split; simpl.
  - intros n. by rewrite unary_length, N2Nat.id.
  - intros t s. destruct (Z.leb_spec 0 t); [|done]. intros [= <-].
    by rewrite unary_length, Z2Nat.id.
  - intros [|] s; [by intros [= <-]|done].
Qed.

(** ** Theorems *)

(** Refreshing the table event by event leaves the table a replay rebuilds. *)
Lemma refresh_log_rebuild `{RowCodecLaws} log table :
  Forall (fun se => event_fits se.2) log ->
  refresh_log ∅ log = Ok table -> rebuild_turn_projection log = Some table.
Proof.
  intros Hf Hr. unfold rebuild_turn_projection. apply rebuild_agrees.
  eapply refresh_log_agrees; [|done|exact Hr]. by intros key; rewrite !lookup_empty.
Qed.

(** A turn's row is read back as it was written, for every turn whose
    counters and casts fit. *)
Theorem turn_row_roundtrip `{RowCodecLaws} turn row :
  turn_fits turn -> encode_turn_projection turn = Some row ->
  parse_turn_projection_row row = Some turn.
Proof. apply parse_encode. Qed.

Definition sample_turn (latency : Z) : TurnInspection :=
  {| ti_turn_id := MkUuid 3; ti_branch_id := MkUuid 2; ti_provider := "p"; ti_model := "m";
     ti_message_count := 4; ti_settings_revision_id := 1; ti_started_at := 5;
     ti_finished_at := Some 6; ti_status := Some "completed"; ti_finish_reason := None;
     ti_latency_ms := Some latency; ti_event_seq_start := Some 1; ti_event_seq_end := Some 3;
     ti_event_count := 3; ti_pending_approval_count := 0; ti_raw_chunk_count := 0;
     ti_tool_calls := [] |}.

Lemma turn_row_roundtrip_witness :
  exists row, encode_turn_projection (sample_turn 25) = Some row
    /\ parse_turn_projection_row row = Some (sample_turn 25).
Proof.
  eexists. split; [vm_compute; reflexivity|].
  apply turn_row_roundtrip; [|vm_compute; reflexivity].
  split; unfold is_u32, is_i63, U32_MOD, I64_MAX; simpl; try lia.
  intros l [= <-]. lia.
Defined.

(** A latency of 2^63 milliseconds or more is stored as a negative
    integer, and the row that holds it can no longer be read: the cast of
    [upsert_turn_projection] is not checked. *)
Theorem wide_latency_unreadable `{RowCodec} turn row l :
  encode_turn_projection turn = Some row -> ti_latency_ms turn = Some l ->
  I64_MAX < l < U64_MOD -> parse_turn_projection_row row = None.
Proof. apply parse_wide_latency. Qed.

Lemma wide_latency_unreadable_witness :
  exists row, encode_turn_projection (sample_turn (2 ^ 63)) = Some row
    /\ parse_turn_projection_row row = None.
Proof.
  eexists. split; [vm_compute; reflexivity|].
  refine (wide_latency_unreadable (sample_turn (2 ^ 63)) _ (2 ^ 63) _ eq_refl _);
    [vm_compute; reflexivity|vm_compute; split; reflexivity].
Defined.

(** The summary of a turn's tool calls is the per-call reading of its
    events: every call is listed once, and its name and statuses are those
    its own events give, however the events of several calls interleave; the
    row counts the events and ends at the last one. *)
Theorem turn_summary_by_call event turn_id seq_id log :
  let turn := fold_turn (new_turn_projection event turn_id seq_id) log in
  NoDup (call_ids (ti_tool_calls turn))
  /\ (forall c, find_call c (ti_tool_calls turn) = fold_left (call_step c) (log.*2) None)
  /\ ti_event_count turn = wrap32 (Z.of_nat (length log))
  /\ (forall s e, last log = Some (s, e) -> ti_event_seq_end turn = Some s).
Proof.
  cbv zeta.
  destruct (fold_turn_counts (new_turn_projection event turn_id seq_id) log) as [H1 H2]; [done|].
  split_and!; [|intros c; by rewrite fold_turn_calls|done|done].
  apply fold_turn_ids. simpl. apply NoDup_nil_2.
Qed.
