(* ===== verification/Store.v ===== *)
(** * The session store: tables and projections ([crates/bt-session])

    The tables of [migration.rs] as finite maps keyed by their primary keys,
    the event log as the list of its rows in [seq_id] order, transactions as
    functions that fail without a successor state, and the refresh of every
    projection from an appended event ([store/projections.rs]).

    Identifiers are stored as values, not as their (injective) text, except
    in [turn_projection], whose codec is modelled; a JSON column holds the
    value it encodes; times are the text of [format_time], which can fail.
    A [u64] cast to [i64] is [u64_as_i64]. *)

From stdpp Require Import base list strings gmap.
From Stdlib Require Import ZArith Lia SpecFloat.
From S2P Require Import Prelude Text Json Types TurnProjection.

#[local] Open Scope Z_scope.

(** ** Rows *)

Record SessionRow : Type := MkSessionRow {
  sr_project_root : string;
  sr_connection_id : string;
  sr_model_id : option string;
  sr_tool_mode : string;
  sr_settings_revision_id : Z;
  sr_created_at : string;
  sr_updated_at : string;
  sr_status : string;
  sr_display_name : option string;
  sr_objective : option string;
  sr_parent_session_id : option SessionId;
  sr_parent_branch_id : option BranchId;
  sr_parent_turn_id : option TurnId;
}.

Record BranchRow : Type := MkBranchRow {
  bw_session_id : SessionId;
  bw_parent_branch_id : option BranchId;
  bw_parent_event_id : option EventId;
  bw_head_event_id : option EventId;
  bw_summary : option string;
  bw_created_at : string;
  bw_is_default : bool;
}.

Record BranchHeadRow : Type := MkBranchHeadRow {
  bh_session_id : SessionId;
  bh_head_event_seq : Z;
  bh_updated_at : string;
}.

Record MessageRow : Type := MkMessageRow {
  mr_session_id : SessionId;
  mr_branch_id : BranchId;
  mr_message : Message;
  mr_created_at : string;
}.

(** The settlement columns are written together. *)
Record SettlementCols : Type := MkSettlementCols {
  sl_event_id : EventId;
  sl_reply_message_id : RelatedSessionMessageId;
  sl_reply_kind : RelatedSessionMessageKind;
  sl_settling_turn_id : TurnId;
  sl_seq : Z;
  sl_settled_at : string;
}.

Record RelatedRow : Type := MkRelatedRow {
  rr_event_id : EventId;
  rr_counterpart_event_id : EventId;
  rr_message : RelatedSessionMessage;
  rr_status : RelatedSessionMessageStatus;
  rr_source_seq : Z;
  rr_resulting_turn_id : option TurnId;
  rr_created_at : string;
  rr_resolved_at : option string;
  rr_settlement : option SettlementCols;
}.

Record ActiveTurnRow : Type := MkActiveTurnRow {
  at_branch_id : BranchId;
  at_turn_id : TurnId;
  at_started_seq_id : Z;
  at_started_at : string;
}.

Record ManifestRow : Type := MkManifestRow {
  mf_branch_id : BranchId;
  mf_provider : string;
  mf_model : string;
  mf_settings_revision_id : Z;
  mf_context_boundary_seq_id : option Z;
  mf_message_count : Z;
  mf_tool_count : Z;
  mf_attachment_count : Z;
  mf_compacted : bool;
  mf_manifest : ContextManifest;
  mf_recorded_event_id : EventId;
  mf_recorded_seq_id : Z;
  mf_recorded_at : string;
}.

Record ApprovalRow : Type := MkApprovalRow {
  aw_tool_name : string;
  aw_status : string;
  aw_branch_id : option BranchId;
  aw_turn_id : option TurnId;
  aw_requested_seq_id : option Z;
  aw_request_fingerprint : option string;
  aw_request_snapshot : option ApprovalRequestSnapshot;
  aw_decision : option ApprovalDecision;
  aw_resolution : option ApprovalResolution;
  aw_updated_at : string;
}.

Record ToolRunRow : Type := MkToolRunRow {
  tw_tool_name : string;
  tw_status : string;
  tw_branch_id : option BranchId;
  tw_turn_id : option TurnId;
  tw_requested_seq_id : option Z;
  tw_arguments : option Value;
  tw_result : option ToolResultEnvelope;
  tw_updated_at : string;
}.

Record PlanRow : Type := MkPlanRow { pl_items : list PlanItem; pl_updated_at : string }.

Record SettingsRow : Type := MkSettingsRow {
  sg_connection_id : string;
  sg_model_id : option string;
  sg_tool_mode : string;
  sg_updated_at : string;
}.

Record QueuedRow : Type := MkQueuedRow {
  qd_session_id : SessionId;
  qd_branch_id : BranchId;
  qd_message : Message;
  qd_settings_revision_id : Z;
  qd_status : string;
  qd_source_seq : Z;
  qd_enqueued_at : string;
  qd_resolved_at : option string;
}.

Record SteerRow : Type := MkSteerRow {
  sw_session_id : SessionId;
  sw_branch_id : BranchId;
  sw_message : string;
  sw_settings_revision_id : Z;
  sw_status : string;
  sw_source_seq : Z;
  sw_enqueued_at : string;
  sw_resolved_at : option string;
}.

(** An SQLite integer sum that overflows becomes a floating number. *)
Inductive SqlNumber : Type := SqlInt (z : Z) | SqlReal (f : f64).

Record CostRow : Type := MkCostRow {
  co_prompt_tokens : SqlNumber;
  co_completion_tokens : SqlNumber;
  co_total_tokens : SqlNumber;
  co_total_cost_usd : f64;
  co_unpriced_completion_count : SqlNumber;
  co_updated_at : string;
}.

Record BudgetRow : Type := MkBudgetRow {
  bu_max_wall_clock_seconds : option Z;
  bu_max_tokens : option Z;
  bu_max_turns : option Z;
  bu_max_cost_usd : option f64;
  bu_tokens_used : Z;
  bu_turns_used : Z;
  bu_elapsed_seconds : Z;
  bu_cost_used_usd : option f64;
  bu_updated_at : string;
}.

Record ControlRow : Type := MkControlRow { cw_cancel_requested : bool; cw_updated_at : string }.

(** The provider's raw bytes; the event id is a free text. *)
Record RawChunkRow : Type := MkRawChunkRow {
  rc_session_id : SessionId;
  rc_branch_id : option BranchId;
  rc_turn_id : option TurnId;
  rc_llm_call_ordinal : option Z;
  rc_event_id : option string;
  rc_provider : string;
  rc_stream_name : string;
  rc_content : string;
  rc_received_at : string;
}.

(** ** The database *)

Record Db : Type := MkDb {
  db_sessions : gmap SessionId SessionRow;
  db_branches : gmap BranchId BranchRow;
  db_events : list (Z * EventEnvelope);
  db_last_seq : Z;
  db_branch_heads : gmap BranchId BranchHeadRow;
  db_messages : gmap EventId MessageRow;
  db_related : gmap (SessionId * RelatedSessionMessageId * RelatedSessionMessageDirection) RelatedRow;
  db_active_turns : gmap SessionId ActiveTurnRow;
  db_turns : TurnTable;
  db_manifests : gmap (SessionId * TurnId * Z) ManifestRow;
  db_approvals : gmap (SessionId * ToolCallId) ApprovalRow;
  db_tool_runs : gmap (SessionId * ToolCallId) ToolRunRow;
  db_plans : gmap (SessionId * BranchId) PlanRow;
  db_settings : gmap (SessionId * Z) SettingsRow;
  db_queued : gmap EventId QueuedRow;
  db_steers : gmap EventId SteerRow;
  db_costs : gmap SessionId CostRow;
  db_budgets : gmap SessionId BudgetRow;
  db_control : gmap SessionId ControlRow;
  db_raw_chunks : gmap Z RawChunkRow;
  db_last_chunk : Z;
}.

Definition db_empty : Db := MkDb ∅ ∅ [] 0 ∅ ∅ ∅ ∅ ∅ ∅ ∅ ∅ ∅ ∅ ∅ ∅ ∅ ∅ ∅ ∅ 0.

Definition set_sessions (t : gmap SessionId SessionRow) (db : Db) : Db :=
  MkDb t (db_branches db) (db_events db) (db_last_seq db) (db_branch_heads db) (db_messages
    db) (db_related db) (db_active_turns db) (db_turns db) (db_manifests db) (db_approvals
    db) (db_tool_runs db) (db_plans db) (db_settings db) (db_queued db) (db_steers db)
    (db_costs db) (db_budgets db) (db_control db) (db_raw_chunks db) (db_last_chunk db).
Definition set_branches (t : gmap BranchId BranchRow) (db : Db) : Db :=
  MkDb (db_sessions db) t (db_events db) (db_last_seq db) (db_branch_heads db) (db_messages
    db) (db_related db) (db_active_turns db) (db_turns db) (db_manifests db) (db_approvals
    db) (db_tool_runs db) (db_plans db) (db_settings db) (db_queued db) (db_steers db)
    (db_costs db) (db_budgets db) (db_control db) (db_raw_chunks db) (db_last_chunk db).
Definition set_branch_heads (t : gmap BranchId BranchHeadRow) (db : Db) : Db :=
  MkDb (db_sessions db) (db_branches db) (db_events db) (db_last_seq db) t (db_messages db)
    (db_related db) (db_active_turns db) (db_turns db) (db_manifests db) (db_approvals db)
    (db_tool_runs db) (db_plans db) (db_settings db) (db_queued db) (db_steers db)
    (db_costs db) (db_budgets db) (db_control db) (db_raw_chunks db) (db_last_chunk db).
Definition set_messages (t : gmap EventId MessageRow) (db : Db) : Db :=
  MkDb (db_sessions db) (db_branches db) (db_events db) (db_last_seq db) (db_branch_heads db)
    t (db_related db) (db_active_turns db) (db_turns db) (db_manifests db) (db_approvals
    db) (db_tool_runs db) (db_plans db) (db_settings db) (db_queued db) (db_steers db)
    (db_costs db) (db_budgets db) (db_control db) (db_raw_chunks db) (db_last_chunk db).
Definition set_related (t : gmap (SessionId * RelatedSessionMessageId * RelatedSessionMessageDirection) RelatedRow) (db : Db) : Db :=
  MkDb (db_sessions db) (db_branches db) (db_events db) (db_last_seq db) (db_branch_heads db)
    (db_messages db) t (db_active_turns db) (db_turns db) (db_manifests db) (db_approvals
    db) (db_tool_runs db) (db_plans db) (db_settings db) (db_queued db) (db_steers db)
    (db_costs db) (db_budgets db) (db_control db) (db_raw_chunks db) (db_last_chunk db).
Definition set_active_turns (t : gmap SessionId ActiveTurnRow) (db : Db) : Db :=
  MkDb (db_sessions db) (db_branches db) (db_events db) (db_last_seq db) (db_branch_heads db)
    (db_messages db) (db_related db) t (db_turns db) (db_manifests db) (db_approvals db)
    (db_tool_runs db) (db_plans db) (db_settings db) (db_queued db) (db_steers db)
    (db_costs db) (db_budgets db) (db_control db) (db_raw_chunks db) (db_last_chunk db).
Definition set_turns (t : TurnTable) (db : Db) : Db :=
  MkDb (db_sessions db) (db_branches db) (db_events db) (db_last_seq db) (db_branch_heads db)
    (db_messages db) (db_related db) (db_active_turns db) t (db_manifests db)
    (db_approvals db) (db_tool_runs db) (db_plans db) (db_settings db) (db_queued db)
    (db_steers db) (db_costs db) (db_budgets db) (db_control db) (db_raw_chunks db) (db_last_chunk db).
Definition set_manifests (t : gmap (SessionId * TurnId * Z) ManifestRow) (db : Db) : Db :=
  MkDb (db_sessions db) (db_branches db) (db_events db) (db_last_seq db) (db_branch_heads db)
    (db_messages db) (db_related db) (db_active_turns db) (db_turns db) t (db_approvals
    db) (db_tool_runs db) (db_plans db) (db_settings db) (db_queued db) (db_steers db)
    (db_costs db) (db_budgets db) (db_control db) (db_raw_chunks db) (db_last_chunk db).
Definition set_approvals (t : gmap (SessionId * ToolCallId) ApprovalRow) (db : Db) : Db :=
  MkDb (db_sessions db) (db_branches db) (db_events db) (db_last_seq db) (db_branch_heads db)
    (db_messages db) (db_related db) (db_active_turns db) (db_turns db) (db_manifests db)
    t (db_tool_runs db) (db_plans db) (db_settings db) (db_queued db) (db_steers db)
    (db_costs db) (db_budgets db) (db_control db) (db_raw_chunks db) (db_last_chunk db).
Definition set_tool_runs (t : gmap (SessionId * ToolCallId) ToolRunRow) (db : Db) : Db :=
  MkDb (db_sessions db) (db_branches db) (db_events db) (db_last_seq db) (db_branch_heads db)
    (db_messages db) (db_related db) (db_active_turns db) (db_turns db) (db_manifests db)
    (db_approvals db) t (db_plans db) (db_settings db) (db_queued db) (db_steers db)
    (db_costs db) (db_budgets db) (db_control db) (db_raw_chunks db) (db_last_chunk db).
Definition set_plans (t : gmap (SessionId * BranchId) PlanRow) (db : Db) : Db :=
  MkDb (db_sessions db) (db_branches db) (db_events db) (db_last_seq db) (db_branch_heads db)
    (db_messages db) (db_related db) (db_active_turns db) (db_turns db) (db_manifests db)
    (db_approvals db) (db_tool_runs db) t (db_settings db) (db_queued db) (db_steers db)
    (db_costs db) (db_budgets db) (db_control db) (db_raw_chunks db) (db_last_chunk db).
Definition set_settings (t : gmap (SessionId * Z) SettingsRow) (db : Db) : Db :=
  MkDb (db_sessions db) (db_branches db) (db_events db) (db_last_seq db) (db_branch_heads db)
    (db_messages db) (db_related db) (db_active_turns db) (db_turns db) (db_manifests db)
    (db_approvals db) (db_tool_runs db) (db_plans db) t (db_queued db) (db_steers db)
    (db_costs db) (db_budgets db) (db_control db) (db_raw_chunks db) (db_last_chunk db).
Definition set_queued (t : gmap EventId QueuedRow) (db : Db) : Db :=
  MkDb (db_sessions db) (db_branches db) (db_events db) (db_last_seq db) (db_branch_heads db)
    (db_messages db) (db_related db) (db_active_turns db) (db_turns db) (db_manifests db)
    (db_approvals db) (db_tool_runs db) (db_plans db) (db_settings db) t (db_steers db)
    (db_costs db) (db_budgets db) (db_control db) (db_raw_chunks db) (db_last_chunk db).
Definition set_steers (t : gmap EventId SteerRow) (db : Db) : Db :=
  MkDb (db_sessions db) (db_branches db) (db_events db) (db_last_seq db) (db_branch_heads db)
    (db_messages db) (db_related db) (db_active_turns db) (db_turns db) (db_manifests db)
    (db_approvals db) (db_tool_runs db) (db_plans db) (db_settings db) (db_queued db) t
    (db_costs db) (db_budgets db) (db_control db) (db_raw_chunks db) (db_last_chunk db).
Definition set_costs (t : gmap SessionId CostRow) (db : Db) : Db :=
  MkDb (db_sessions db) (db_branches db) (db_events db) (db_last_seq db) (db_branch_heads db)
    (db_messages db) (db_related db) (db_active_turns db) (db_turns db) (db_manifests db)
    (db_approvals db) (db_tool_runs db) (db_plans db) (db_settings db) (db_queued db)
    (db_steers db) t (db_budgets db) (db_control db) (db_raw_chunks db) (db_last_chunk db).
Definition set_budgets (t : gmap SessionId BudgetRow) (db : Db) : Db :=
  MkDb (db_sessions db) (db_branches db) (db_events db) (db_last_seq db) (db_branch_heads db)
    (db_messages db) (db_related db) (db_active_turns db) (db_turns db) (db_manifests db)
    (db_approvals db) (db_tool_runs db) (db_plans db) (db_settings db) (db_queued db)
    (db_steers db) (db_costs db) t (db_control db) (db_raw_chunks db) (db_last_chunk db).
Definition set_control (t : gmap SessionId ControlRow) (db : Db) : Db :=
  MkDb (db_sessions db) (db_branches db) (db_events db) (db_last_seq db) (db_branch_heads db)
    (db_messages db) (db_related db) (db_active_turns db) (db_turns db) (db_manifests db)
    (db_approvals db) (db_tool_runs db) (db_plans db) (db_settings db) (db_queued db)
    (db_steers db) (db_costs db) (db_budgets db) t (db_raw_chunks db) (db_last_chunk db).
Definition set_log (log : list (Z * EventEnvelope)) (seq : Z) (db : Db) : Db :=
  MkDb (db_sessions db) (db_branches db) log seq (db_branch_heads db) (db_messages db)
    (db_related db) (db_active_turns db) (db_turns db) (db_manifests db) (db_approvals db)
    (db_tool_runs db) (db_plans db) (db_settings db) (db_queued db) (db_steers db)
    (db_costs db) (db_budgets db) (db_control db) (db_raw_chunks db) (db_last_chunk db).
Definition set_raw_chunks (t : gmap Z RawChunkRow) (last : Z) (db : Db) : Db :=
  MkDb (db_sessions db) (db_branches db) (db_events db) (db_last_seq db) (db_branch_heads db)
    (db_messages db) (db_related db) (db_active_turns db) (db_turns db) (db_manifests db)
    (db_approvals db) (db_tool_runs db) (db_plans db) (db_settings db) (db_queued db)
    (db_steers db) (db_costs db) (db_budgets db) (db_control db) t last.

(** ** Transactions *)

(** [&Transaction]: a statement that fails leaves the transaction to be
    dropped, which rolls it back. *)
Definition Tx (A : Type) : Type := Db -> Result (A * Db).

#[export] Instance tx_ret : MRet Tx := fun A a db => Ok (a, db).
#[export] Instance tx_bind : MBind Tx := fun A B k m db =>
  match m db with Ok (a, db') => k a db' | Err e => Err e end.

Definition tx_fail {A} (e : BelltowerError) : Tx A := fun _ => Err e.
Definition tx_lift {A} (r : Result A) : Tx A := fun db => a ← r; Ok (a, db).
Definition tx_get : Tx Db := fun db => Ok (db, db).
Definition tx_modify (f : Db -> Db) : Tx unit := fun db => Ok (tt, f db).

(** [let tx = connection.transaction()?; body; tx.commit()?]: the result and
    the database afterwards. *)
Definition transaction {A} (body : Tx A) (db : Db) : Result A * Db :=
  match body db with
  | Ok (a, db') => (Ok a, db')
  | Err e => (Err e, db)
  end.

(** [iter.map(f).collect::<Result<Vec<_>>>()] with [f] in the transaction. *)
Fixpoint tx_map {A B} (f : A -> Tx B) (l : list A) : Tx (list B) :=
  match l with
  | [] => mret []
  | a :: l' => b ← f a; bs ← tx_map f l'; mret (b :: bs)
  end.

Fixpoint tx_iter {A} (f : A -> Tx unit) (l : list A) : Tx unit :=
  match l with
  | [] => mret tt
  | a :: l' => _ ← f a; tx_iter f l'
  end.

Section projections.
Context `{codec : RowCodec}.

(** [storage_error] *)
Definition storage_error {A} : Tx A := tx_fail (Storage driver_error).

(** [format_time] *)
Definition time (t : OffsetDateTime) : Tx string :=
  tx_lift (ok_or (Storage format_error) (format_time t)).

(** Binding a [u64] parameter: the driver refuses what [i64] cannot hold. *)
Definition bind_u64 (z : Z) : Tx Z :=
  if z <=? I64_MAX then mret z else storage_error.

(** A floating parameter: the driver stores a NaN as [NULL]. *)
Definition bind_f64 (f : f64) : option f64 :=
  match f with S754_nan => None | _ => Some f end.

(** ** One projection per payload ([refresh_projections]) *)

Definition f64_of_Z (z : Z) : f64 := binary_normalize 53 1024 z 0 false.

(** The sum of an integer column and an integer parameter. *)
Definition sql_add (column : SqlNumber) (z : Z) : SqlNumber :=
  match column with
  | SqlInt a => if (- 2 ^ 63 <=? a + z) && (a + z <=? I64_MAX) then SqlInt (a + z)
                else SqlReal (f64_add (f64_of_Z a) (f64_of_Z z))
  | SqlReal f => SqlReal (f64_add f (f64_of_Z z))
  end.

(** [refresh_cost_summary_projection]: [total_cost_usd] is [NOT NULL]. *)
Definition refresh_cost_summary_projection (session_id : SessionId)
    (occurred_at : OffsetDateTime) (usage : TokenUsage) (cost : option CostBreakdown)
    : Tx unit :=
  let unpriced := match cost with None => 1 | Some _ => 0 end in
  let usd := match cost with None => f64_zero | Some c => cb_total_usd c end in
  prompt ← bind_u64 (tu_prompt_tokens usage);
  completion ← bind_u64 (tu_completion_tokens usage);
  total ← bind_u64 (tu_total_tokens usage);
  now ← time occurred_at;
  db ← tx_get;
  let summed :=
    match db_costs db !! session_id with
    | None => usd ← bind_f64 usd;
        Some (MkCostRow (SqlInt prompt) (SqlInt completion) (SqlInt total) usd
                (SqlInt unpriced) now)
    | Some row => usd ← bind_f64 usd; cost ← bind_f64 (f64_add (co_total_cost_usd row) usd);
        Some (MkCostRow (sql_add (co_prompt_tokens row) prompt)
                (sql_add (co_completion_tokens row) completion)
                (sql_add (co_total_tokens row) total) cost
                (sql_add (co_unpriced_completion_count row) unpriced) now)
    end in
  row ← tx_lift (ok_or (Storage driver_error) summed);
  tx_modify (set_costs (<[session_id := row]> (db_costs db))).

(** [refresh_budget_projection_from_config] *)
Definition refresh_budget_projection_from_config (session_id : SessionId)
    (occurred_at : OffsetDateTime) (budget : BudgetConfig) : Tx unit :=
  now ← time occurred_at;
  tx_modify (fun db =>
    let '(tokens, turns, elapsed, cost) :=
      match db_budgets db !! session_id with
      | None => (0, 0, 0, Some f64_zero)
      | Some row => (bu_tokens_used row, bu_turns_used row, bu_elapsed_seconds row,
                     bu_cost_used_usd row)
      end in
    set_budgets
      (<[session_id := MkBudgetRow
           (u64_as_i64 <$> bc_max_wall_clock_seconds budget)
           (u64_as_i64 <$> bc_max_tokens budget)
           (bc_max_turns budget) (bc_max_cost_usd budget ≫= bind_f64)
           tokens turns elapsed cost now]> (db_budgets db)) db).

(** [cost_regressed] *)
Definition cost_regressed (current next : option f64) : bool :=
  match current, next with
  | Some current, Some next => f64_lt next current
  | None, Some _ => true
  | Some _, None | None, None => false
  end.

(** [refresh_budget_projection_from_checkpoint] *)
Definition refresh_budget_projection_from_checkpoint (session_id : SessionId)
    (occurred_at : OffsetDateTime) (tokens_used turns_used elapsed_seconds : Z)
    (cost_used_usd : option f64) : Tx unit :=
  db ← tx_get;
  row ← tx_lift (ok_or
    (InvalidState "budget checkpoint requires a prior budget configuration")
    (db_budgets db !! session_id));
  if (tokens_used <? Z.max 0 (bu_tokens_used row))
     || (turns_used <? wrap32 (Z.max 0 (bu_turns_used row)))
     || (elapsed_seconds <? Z.max 0 (bu_elapsed_seconds row))
     || cost_regressed (bu_cost_used_usd row) cost_used_usd
  then tx_fail (InvalidState "budget checkpoint counters must be monotonic")
  else
    now ← time occurred_at;
    tx_modify (fun db => set_budgets
      (<[session_id := MkBudgetRow
           (bu_max_wall_clock_seconds row) (bu_max_tokens row) (bu_max_turns row)
           (bu_max_cost_usd row) (u64_as_i64 tokens_used) turns_used
           (u64_as_i64 elapsed_seconds) (cost_used_usd ≫= bind_f64) now]> (db_budgets db)) db).

(** The columns every event touches. *)
Definition refresh_branch_head (event : EventEnvelope) (seq_id : Z) : Tx unit :=
  now ← time (ev_occurred_at event);
  tx_modify (fun db => set_branch_heads
    (<[ev_branch_id event :=
        MkBranchHeadRow
          match db_branch_heads db !! ev_branch_id event with
          | Some row => bh_session_id row | None => ev_session_id event end
          seq_id now]> (db_branch_heads db)) db).

Definition refresh_branch_event (event : EventEnvelope) : Tx unit :=
  tx_modify (fun db => set_branches
    (alter (fun row => MkBranchRow (bw_session_id row) (bw_parent_branch_id row)
       (bw_parent_event_id row) (Some (ev_event_id event)) (bw_summary row)
       (bw_created_at row) (bw_is_default row)) (ev_branch_id event) (db_branches db)) db).

Definition touch_session (now : string) (row : SessionRow) : SessionRow :=
  MkSessionRow (sr_project_root row) (sr_connection_id row) (sr_model_id row)
    (sr_tool_mode row) (sr_settings_revision_id row) (sr_created_at row) now (sr_status row)
    (sr_display_name row) (sr_objective row) (sr_parent_session_id row)
    (sr_parent_branch_id row) (sr_parent_turn_id row).

Definition refresh_session_event (event : EventEnvelope) : Tx unit :=
  now ← time (ev_occurred_at event);
  tx_modify (fun db => set_sessions
    (alter (touch_session now) (ev_session_id event) (db_sessions db)) db).

Definition refresh_turn (event : EventEnvelope) (seq_id : Z) : Tx unit :=
  db ← tx_get;
  table ← tx_lift (refresh_turn_projection (db_turns db) event seq_id);
  tx_modify (set_turns table).

(** [MessageAppended]: a plain insert, the event id being the primary key. *)
Definition refresh_message (event : EventEnvelope) (message : Message) : Tx unit :=
  now ← time (msg_created_at message);
  db ← tx_get;
  match db_messages db !! ev_event_id event with
  | Some _ => storage_error
  | None => tx_modify (set_messages
      (<[ev_event_id event :=
          MkMessageRow (ev_session_id event) (ev_branch_id event) message now]>
         (db_messages db)))
  end.

(** [RelatedSessionMessageRecorded]: a message whose other copy was already
    resolved inherits that resolution. *)
Definition same_edge (message : RelatedSessionMessage) (row : RelatedRow) : bool :=
  bool_decide (rm_message_id (rr_message row) = rm_message_id message)
  && bool_decide (rm_source_session_id (rr_message row) = rm_source_session_id message)
  && bool_decide (rm_destination_session_id (rr_message row)
                  = rm_destination_session_id message).

Definition is_resolved (row : RelatedRow) : bool :=
  match rr_status row with Claimed | Dropped => true | Delivered | Pending => false end.

Definition refresh_related_recorded (event : EventEnvelope) (seq_id : Z)
    (direction : RelatedSessionMessageDirection) (counterpart_event_id : EventId)
    (message : RelatedSessionMessage) : Tx unit :=
  db ← tx_get;
  let rows := snd <$> map_to_list (db_related db) in
  let resolved_pair := find_first (fun row => same_edge message row && is_resolved row) rows in
  let default_status :=
    if bool_decide (direction = Received) && bool_decide (rm_delivery_mode message = Wake)
    then Pending else Delivered in
  let '(status, resulting_turn_id, resolved_at) :=
    match resolved_pair with
    | Some row => (rr_status row, rr_resulting_turn_id row, rr_resolved_at row)
    | None => (default_status, None, None)
    end in
  now ← time (rm_created_at message);
  let key := (ev_session_id event, rm_message_id message, direction) in
  if bool_decide (is_Some (db_related db !! key))
     || any (fun row => bool_decide (rr_event_id row = ev_event_id event)) rows
  then storage_error
  else tx_modify (set_related
    (<[key := MkRelatedRow (ev_event_id event) counterpart_event_id message status seq_id
                resulting_turn_id now resolved_at None]> (db_related db))).

(** [RelatedSessionMessageResolved]: both copies of the message. *)
Definition refresh_related_resolved (event : EventEnvelope)
    (message_id : RelatedSessionMessageId) (status : RelatedSessionMessageStatus)
    (resulting_turn_id : option TurnId) : Tx unit :=
  db ← tx_get;
  received ← tx_lift (ok_or
    (InvalidState ("related message " +:+ show_uuid (uuid message_id)
       +:+ " has no received projection in session "
       +:+ show_uuid (uuid (ev_session_id event))))
    (db_related db !! (ev_session_id event, message_id, Received)));
  now ← time (ev_occurred_at event);
  tx_modify (set_related ((fun row =>
    if same_edge (rr_message received) row then
      MkRelatedRow (rr_event_id row) (rr_counterpart_event_id row) (rr_message row) status
        (rr_source_seq row) resulting_turn_id (rr_created_at row) (Some now)
        (rr_settlement row)
    else row) <$> db_related db)).

Definition refresh_related_settled (event : EventEnvelope) (seq_id : Z)
    (message_id reply_message_id : RelatedSessionMessageId)
    (reply_kind : RelatedSessionMessageKind) (settling_turn_id : TurnId) : Tx unit :=
  now ← time (ev_occurred_at event);
  tx_modify (fun db => set_related
    (alter (fun row =>
       MkRelatedRow (rr_event_id row) (rr_counterpart_event_id row) (rr_message row)
         (rr_status row) (rr_source_seq row) (rr_resulting_turn_id row) (rr_created_at row)
         (rr_resolved_at row)
         (Some (MkSettlementCols (ev_event_id event) reply_message_id reply_kind
                  settling_turn_id seq_id now)))
       (ev_session_id event, message_id, Received) (db_related db)) db).

(** [TurnStarted]: a plain insert; the session is the primary key, so a
    session with an active turn refuses another. *)
Definition refresh_turn_started (event : EventEnvelope) (seq_id : Z) (turn_id : TurnId)
    : Tx unit :=
  now ← time (ev_occurred_at event);
  db ← tx_get;
  match db_active_turns db !! ev_session_id event with
  | Some _ => storage_error
  | None => tx_modify (set_active_turns
      (<[ev_session_id event := MkActiveTurnRow (ev_branch_id event) turn_id seq_id now]>
         (db_active_turns db)))
  end.

(** [TurnFinished]: [DELETE .. WHERE session_id = ? AND turn_id = ?] *)
Definition refresh_turn_finished (event : EventEnvelope) (turn_id : TurnId) : Tx unit :=
  tx_modify (fun db => set_active_turns
    match db_active_turns db !! ev_session_id event with
    | Some row => if bool_decide (at_turn_id row = turn_id)
                  then delete (ev_session_id event) (db_active_turns db)
                  else db_active_turns db
    | None => db_active_turns db
    end db).

Definition refresh_manifest (event : EventEnvelope) (seq_id : Z) (manifest : ContextManifest)
    : Tx unit :=
  now ← time (ev_occurred_at event);
  tx_modify (fun db => set_manifests
    (<[(ev_session_id event, cm_turn_id manifest, cm_llm_call_ordinal manifest) :=
        MkManifestRow (ev_branch_id event) (cm_provider manifest) (cm_model manifest)
          (u64_as_i64 (cm_settings_revision_id manifest))
          (cm_context_boundary_seq_id manifest)
          (Z.of_nat (length (cm_messages manifest))) (Z.of_nat (length (cm_tools manifest)))
          (Z.of_nat (length (cm_attachments manifest))) (cm_compacted manifest) manifest
          (ev_event_id event) seq_id now]> (db_manifests db)) db).

Definition refresh_approval_requested (event : EventEnvelope) (seq_id : Z)
    (call_id : ToolCallId) (tool_name : string) (snapshot : option ApprovalRequestSnapshot)
    : Tx unit :=
  now ← time (ev_occurred_at event);
  tx_modify (fun db => set_approvals
    (<[(ev_session_id event, call_id) :=
        MkApprovalRow tool_name "pending" (Some (ev_branch_id event)) (ev_turn_id event)
          (Some seq_id) (sn_request_fingerprint <$> snapshot) snapshot None None now]>
       (db_approvals db)) db).

(** [approval_status] *)
Definition approval_status (decision : ApprovalDecision) : string :=
  match decision with Approved _ _ _ _ => "approved" | Denied _ _ _ _ _ => "denied" end.

Definition refresh_approval_resolved (event : EventEnvelope) (call_id : ToolCallId)
    (tool_name : string) (request_fingerprint : option string)
    (resolution : option ApprovalResolution) (decision : ApprovalDecision) : Tx unit :=
  now ← time (ev_occurred_at event);
  let resolved_fingerprint :=
    match resolution with
    | Some resolution => Some (re_request_fingerprint resolution)
    | None => request_fingerprint
    end in
  tx_modify (fun db => set_approvals
    (<[(ev_session_id event, call_id) :=
        match db_approvals db !! (ev_session_id event, call_id) with
        | None => MkApprovalRow tool_name (approval_status decision) None None None
                    resolved_fingerprint None (Some decision) resolution now
        | Some row => MkApprovalRow (aw_tool_name row) (approval_status decision)
                        (aw_branch_id row) (aw_turn_id row) (aw_requested_seq_id row)
                        resolved_fingerprint (aw_request_snapshot row) (Some decision)
                        resolution now
        end]> (db_approvals db)) db).

Definition refresh_tool_requested (event : EventEnvelope) (seq_id : Z) (call_id : ToolCallId)
    (tool_name : string) (arguments : Value) : Tx unit :=
  _ ← tx_modify (fun db => set_approvals
        (delete (ev_session_id event, call_id) (db_approvals db)) db);
  now ← time (ev_occurred_at event);
  tx_modify (fun db => set_tool_runs
    (<[(ev_session_id event, call_id) :=
        MkToolRunRow tool_name "requested" (Some (ev_branch_id event)) (ev_turn_id event)
          (Some seq_id) (Some arguments) None now]> (db_tool_runs db)) db).

Definition refresh_tool_finished (event : EventEnvelope) (call_id : ToolCallId)
    (tool_name : string) (result : ToolResultEnvelope) : Tx unit :=
  now ← time (ev_occurred_at event);
  tx_modify (fun db => set_tool_runs
    (<[(ev_session_id event, call_id) :=
        match db_tool_runs db !! (ev_session_id event, call_id) with
        | None => MkToolRunRow tool_name "completed" None None None None (Some result) now
        | Some row => MkToolRunRow (tw_tool_name row) "completed" (tw_branch_id row)
                        (tw_turn_id row) (tw_requested_seq_id row) (tw_arguments row)
                        (Some result) now
        end]> (db_tool_runs db)) db).

Definition refresh_plan (event : EventEnvelope) (items : list PlanItem) : Tx unit :=
  now ← time (ev_occurred_at event);
  tx_modify (fun db => set_plans
    (<[(ev_session_id event, ev_branch_id event) := MkPlanRow items now]> (db_plans db)) db).

(** [SessionSettingsUpdated]: a revision is written once; a newer one becomes
    the session's. *)
Definition refresh_settings (event : EventEnvelope) (settings_revision_id : Z)
    (connection_id : string) (model_id : option string) (tool_mode : string) : Tx unit :=
  if settings_revision_id =? 0
  then tx_fail (InvalidState "session settings revision must be positive")
  else
    db ← tx_get;
    session ← tx_lift (ok_or (Storage driver_error) (db_sessions db !! ev_session_id event));
    let current := Z.max 1 (sr_settings_revision_id session) in
    let key := (ev_session_id event, u64_as_i64 settings_revision_id) in
    _ ← match db_settings db !! key with
        | Some existing =>
            if bool_decide (sg_connection_id existing = connection_id
                            /\ sg_model_id existing = model_id
                            /\ sg_tool_mode existing = tool_mode)
            then mret tt
            else tx_fail (InvalidState ("session settings revision "
                   +:+ show_Z settings_revision_id +:+ " is immutable"))
        | None =>
            now ← time (ev_occurred_at event);
            tx_modify (set_settings
              (<[key := MkSettingsRow connection_id model_id tool_mode now]> (db_settings db)))
        end;
    if current <? settings_revision_id then
      now ← time (ev_occurred_at event);
      tx_modify (fun db => set_sessions
        (alter (fun row =>
           MkSessionRow (sr_project_root row) connection_id model_id tool_mode
             (u64_as_i64 settings_revision_id) (sr_created_at row) now (sr_status row)
             (sr_display_name row) (sr_objective row) (sr_parent_session_id row)
             (sr_parent_branch_id row) (sr_parent_turn_id row))
           (ev_session_id event) (db_sessions db)) db)
    else mret tt.

Definition refresh_queued (event : EventEnvelope) (seq_id : Z) (message : Message)
    (settings_revision_id : Z) : Tx unit :=
  now ← time (ev_occurred_at event);
  tx_modify (fun db => set_queued
    (<[ev_event_id event :=
        match db_queued db !! ev_event_id event with
        | None => MkQueuedRow (ev_session_id event) (ev_branch_id event) message
                    (u64_as_i64 settings_revision_id) "pending" seq_id now None
        | Some row => MkQueuedRow (qd_session_id row) (qd_branch_id row) message
                        (u64_as_i64 settings_revision_id) "pending" seq_id now None
        end]> (db_queued db)) db).

(** [queued_message_resolution_status], [steer_resolution_status] *)
Definition queued_message_resolution_status (outcome : QueuedMessageResolutionOutcome)
    : string :=
  match outcome with QueueDispatched => "dispatched" | QueueDropped => "dropped" end.
Definition steer_resolution_status (outcome : SteerResolutionOutcome) : string :=
  match outcome with SteerApplied => "applied" | SteerDropped => "dropped" end.

Definition refresh_queue_resolved (event : EventEnvelope) (queue_event_id : EventId)
    (outcome : QueuedMessageResolutionOutcome) : Tx unit :=
  now ← time (ev_occurred_at event);
  tx_modify (fun db => set_queued
    (alter (fun row =>
       MkQueuedRow (qd_session_id row) (qd_branch_id row) (qd_message row)
         (qd_settings_revision_id row) (queued_message_resolution_status outcome)
         (qd_source_seq row) (qd_enqueued_at row) (Some now))
       queue_event_id (db_queued db)) db).

Definition set_cancel_requested (event : EventEnvelope) (requested : bool) : Tx unit :=
  now ← time (ev_occurred_at event);
  tx_modify (fun db => set_control
    (<[ev_session_id event := MkControlRow requested now]> (db_control db)) db).

Definition refresh_steered (event : EventEnvelope) (seq_id : Z) (message : string)
    (settings_revision_id : Z) : Tx unit :=
  now ← time (ev_occurred_at event);
  tx_modify (fun db => set_steers
    (<[ev_event_id event :=
        match db_steers db !! ev_event_id event with
        | None => MkSteerRow (ev_session_id event) (ev_branch_id event) message
                    (u64_as_i64 settings_revision_id) "pending" seq_id now None
        | Some row => MkSteerRow (sw_session_id row) (sw_branch_id row) message
                        (u64_as_i64 settings_revision_id) "pending" seq_id now None
        end]> (db_steers db)) db).

Definition refresh_steers_resolved (event : EventEnvelope) (steer_event_ids : list EventId)
    (outcome : SteerResolutionOutcome) : Tx unit :=
  tx_iter (fun steer_event_id =>
    now ← time (ev_occurred_at event);
    tx_modify (fun db => set_steers
      (alter (fun row =>
         MkSteerRow (sw_session_id row) (sw_branch_id row) (sw_message row)
           (sw_settings_revision_id row) (steer_resolution_status outcome)
           (sw_source_seq row) (sw_enqueued_at row) (Some now))
         steer_event_id (db_steers db)) db)) steer_event_ids.

Definition refresh_branch_summary (branch_id : BranchId) (summary : string) : Tx unit :=
  tx_modify (fun db => set_branches
    (alter (fun row => MkBranchRow (bw_session_id row) (bw_parent_branch_id row)
       (bw_parent_event_id row) (bw_head_event_id row) (Some summary)
       (bw_created_at row) (bw_is_default row)) branch_id (db_branches db)) db).

Definition refresh_session_ended (event : EventEnvelope) (reason : string) : Tx unit :=
  now ← time (ev_occurred_at event);
  let status := if eq_ignore_ascii_case reason "completed" then "completed" else "failed" in
  tx_modify (fun db => set_sessions
    (alter (fun row =>
       MkSessionRow (sr_project_root row) (sr_connection_id row) (sr_model_id row)
         (sr_tool_mode row) (sr_settings_revision_id row) (sr_created_at row) now status
         (sr_display_name row) (sr_objective row) (sr_parent_session_id row)
         (sr_parent_branch_id row) (sr_parent_turn_id row))
       (ev_session_id event) (db_sessions db)) db).

(** The [match] of [refresh_projections]. *)
Definition refresh_payload (event : EventEnvelope) (seq_id : Z) : Tx unit :=
  match ev_payload event with
  | MessageAppended message => refresh_message event message
  | RelatedSessionMessageRecorded direction counterpart_event_id message =>
      refresh_related_recorded event seq_id direction counterpart_event_id message
  | RelatedSessionMessageResolved message_id status resulting_turn_id _ =>
      refresh_related_resolved event message_id status resulting_turn_id
  | RelatedSessionMessageSettled message_id reply_message_id reply_kind settling_turn_id =>
      refresh_related_settled event seq_id message_id reply_message_id reply_kind
        settling_turn_id
  | TurnStarted turn_id _ _ _ _ _ _ => refresh_turn_started event seq_id turn_id
  | TurnFinished turn_id _ _ _ _ _ => refresh_turn_finished event turn_id
  | TurnContextManifestRecorded manifest => refresh_manifest event seq_id manifest
  | ToolApprovalRequested call_id tool_name snapshot =>
      refresh_approval_requested event seq_id call_id tool_name snapshot
  | ToolApprovalResolved call_id tool_name request_fingerprint resolution decision =>
      refresh_approval_resolved event call_id tool_name request_fingerprint resolution decision
  | ToolCallRequested call_id tool_name arguments =>
      refresh_tool_requested event seq_id call_id tool_name arguments
  | ToolExecutionFinished call_id tool_name result =>
      refresh_tool_finished event call_id tool_name result
  | PlanUpdated items => refresh_plan event items
  | SessionSettingsUpdated settings_revision_id connection_id model_id tool_mode =>
      refresh_settings event settings_revision_id connection_id model_id tool_mode
  | SessionQueuedMessageEnqueued message settings_revision_id =>
      refresh_queued event seq_id message settings_revision_id
  | SessionQueuedMessageResolved queue_event_id outcome _ =>
      refresh_queue_resolved event queue_event_id outcome
  | CompletionFinished _ _ _ usage cost _ _ =>
      refresh_cost_summary_projection (ev_session_id event) (ev_occurred_at event) usage cost
  | BudgetConfigured budget =>
      refresh_budget_projection_from_config (ev_session_id event) (ev_occurred_at event) budget
  | BudgetCheckpoint tokens_used turns_used elapsed_seconds cost_used_usd =>
      refresh_budget_projection_from_checkpoint (ev_session_id event) (ev_occurred_at event)
        tokens_used turns_used elapsed_seconds cost_used_usd
  | SessionCancelled _ => set_cancel_requested event true
  | SessionCancelCleared _ => set_cancel_requested event false
  | SessionSteered message settings_revision_id =>
      refresh_steered event seq_id message settings_revision_id
  | SessionSteersResolved steer_event_ids outcome _ _ =>
      refresh_steers_resolved event steer_event_ids outcome
  | BranchSummarized branch_id summary _ _ => refresh_branch_summary branch_id summary
  | SessionEnded reason => refresh_session_ended event reason
  | _ => mret tt
  end.

(** [refresh_projections] *)
Definition refresh_projections (event : EventEnvelope) (seq_id : Z) : Tx unit :=
  _ ← refresh_branch_head event seq_id;
  _ ← refresh_branch_event event;
  _ ← refresh_session_event event;
  _ ← refresh_turn event seq_id;
  refresh_payload event seq_id.

(** ** Appending *)

Definition event_id_taken (db : Db) (event_id : EventId) : bool :=
  any (fun row => bool_decide (ev_event_id row.2 = event_id)) (db_events db).

(** The insert into [events]: the event id is unique, the session and the
    branch exist, and [AUTOINCREMENT] never reuses a sequence number. *)
Definition insert_event (event : EventEnvelope) : Tx Z :=
  _ ← time (ev_occurred_at event);
  db ← tx_get;
  if event_id_taken db (ev_event_id event)
     || negb (bool_decide (is_Some (db_sessions db !! ev_session_id event)))
     || negb (bool_decide (is_Some (db_branches db !! ev_branch_id event)))
     || (I64_MAX <=? db_last_seq db)
  then storage_error
  else
    let seq_id := db_last_seq db + 1 in
    _ ← tx_modify (set_log (db_events db ++ [(seq_id, event)]) seq_id);
    mret seq_id.

(** [append_event_in_tx] *)
Definition append_event_in_tx (event : EventEnvelope) : Tx Z :=
  seq_id ← insert_event event;
  _ ← refresh_projections event seq_id;
  mret seq_id.

(** [append_events_in_tx] *)
Definition append_events_in_tx (events : list EventEnvelope) : Tx (list Z) :=
  tx_map append_event_in_tx events.
End projections.
