(* ===== verification/StoreOps.v ===== *)
(** * The session store: operations ([crates/bt-session/src/store.rs])

    The validators of [store/admission.rs] and the transactions built on the
    projections of [Store]: appending, turn transitions, budgets, settings,
    admission and the claims of continuations.  Each operation maps a
    database to a result and the next database; an error rolls back. *)

From stdpp Require Import base list strings gmap sorting.
From Stdlib Require Import ZArith Lia.
From S2P Require Import Prelude Text Json Types TurnProjection Store.

#[local] Open Scope Z_scope.

(** ** Validators ([store/admission.rs]) *)

Definition in_scope (session_id : SessionId) (branch_id : BranchId) (event : EventEnvelope)
    : bool :=
  bool_decide (ev_session_id event = session_id) && bool_decide (ev_branch_id event = branch_id).

(** [validate_event_scope] *)
Definition validate_event_scope (session_id : SessionId) (branch_id : BranchId)
    (events : list EventEnvelope) : Result unit :=
  reject_if (any (fun event => negb (in_scope session_id branch_id event)) events)
    (InvalidState "control-plane transition events must share one session and branch").

Record StartedTurn : Type := MkStartedTurn {
  sd_branch_id : BranchId;
  sd_turn_id : TurnId;
  sd_settings_revision_id : Z;
  sd_source : TurnStartSource;
}.

(** The loop of [validate_message_and_turn_start]: the turn of the user
    message, once one was seen, and the turn that was started. *)
Definition message_and_start_step (acc : option (option TurnId) * option StartedTurn)
    (event : EventEnvelope) : Result (option (option TurnId) * option StartedTurn) :=
  let '(message_turn_id, started) := acc in
  match ev_payload event with
  | MessageAppended message =>
      _ ← reject_if (negb (bool_decide (msg_role message = RoleUser)))
            (InvalidState "turn transition may contain only its user input message");
      _ ← reject_if (bool_decide (is_Some message_turn_id)
                     || bool_decide (ev_turn_id event = None))
            (InvalidState "turn transition must contain exactly one turn-bound user message");
      Ok (Some (ev_turn_id event), started)
  | TurnStarted turn_id _ _ _ settings_revision_id source _ =>
      _ ← reject_if (bool_decide (is_Some started)
                     || negb (bool_decide (ev_turn_id event = Some turn_id)))
            (InvalidState
               "turn transition must contain exactly one self-consistent turn.started event");
      Ok (message_turn_id,
          Some (MkStartedTurn (ev_branch_id event) turn_id settings_revision_id source))
  | _ => Ok acc
  end.

Fixpoint try_fold {A B} (f : B -> A -> Result B) (b : B) (l : list A) : Result B :=
  match l with
  | [] => Ok b
  | a :: l' => b' ← f b a; try_fold f b' l'
  end.

(** [validate_message_and_turn_start] *)
Definition validate_message_and_turn_start (events : list EventEnvelope)
    (expected_revision_id : option Z) (expected_source : TurnStartSource)
    : Result (BranchId * TurnId) :=
  acc ← try_fold message_and_start_step (None, None) events;
  message_turn_id ← ok_or
    (InvalidState "turn transition is missing its turn-bound user message") (mjoin acc.1);
  started ← ok_or (InvalidState "turn transition is missing its turn.started event") acc.2;
  _ ← reject_if (negb (bool_decide (message_turn_id = sd_turn_id started)))
        (InvalidState
           "turn transition message and turn.started event use different turn ids");
  _ ← reject_if (negb (bool_decide (sd_source started = expected_source)))
        (InvalidState "turn transition uses an unexpected start source");
  _ ← reject_if (is_some_and (fun expected => negb (expected =? sd_settings_revision_id started))
                   expected_revision_id)
        (InvalidState "turn transition uses an unexpected settings revision");
  Ok (sd_branch_id started, sd_turn_id started).

(** The loop over the queued events of [validate_turn_admission_events]. *)
Definition queued_admission_step (expected_settings_revision_id : Z) (queued_count : Z)
    (event : EventEnvelope) : Result Z :=
  match ev_payload event with
  | SessionQueuedMessageEnqueued _ settings_revision_id =>
      _ ← reject_if (negb (settings_revision_id =? expected_settings_revision_id))
            (InvalidState "queued admission uses an unexpected settings revision");
      Ok (queued_count + 1)
  | OperatorCommandRecorded _ _ _ _ => Ok queued_count
  | _ => Err (InvalidState "queued admission contains an unexpected event")
  end.

Definition is_message_or_start (event : EventEnvelope) : bool :=
  match ev_payload event with
  | MessageAppended _ | TurnStarted _ _ _ _ _ _ _ => true
  | _ => false
  end.

(** [validate_turn_admission_events] *)
Definition validate_turn_admission_events (session_id : SessionId)
    (expected_settings_revision_id : Z) (cancel_clear_event : EventEnvelope)
    (started_events queued_events : list EventEnvelope) : Result unit :=
  start ← validate_message_and_turn_start started_events
    (Some expected_settings_revision_id) UserMessage;
  let branch_id := start.1 in
  _ ← validate_event_scope session_id branch_id started_events;
  _ ← validate_event_scope session_id branch_id queued_events;
  _ ← validate_event_scope session_id branch_id [cancel_clear_event];
  _ ← reject_if match ev_payload cancel_clear_event with
                | SessionCancelCleared _ => false | _ => true end
        (InvalidState "turn admission cancel event must be session.cancel.cleared");
  queued_count ← try_fold (queued_admission_step expected_settings_revision_id) 0 queued_events;
  _ ← reject_if (negb (queued_count =? 1))
        (InvalidState
           "queued admission must contain one queued message and optional operator audit events");
  reject_if (any (fun event => negb (is_message_or_start event)) started_events)
    (InvalidState "started admission may contain only its user message and turn.started event").

Definition queued_continuation_step (queue_event_id : EventId) (resolution_count : Z)
    (event : EventEnvelope) : Result Z :=
  match ev_payload event with
  | SessionQueuedMessageResolved resolved_id outcome _ =>
      if bool_decide (resolved_id = queue_event_id)
         && match outcome with QueueDispatched => true | QueueDropped => false end
      then Ok (resolution_count + 1)
      else Err (InvalidState "queued continuation resolves an unexpected source or outcome")
  | OperatorCommandRecorded _ _ _ _ | MessageAppended _ | TurnStarted _ _ _ _ _ _ _ =>
      Ok resolution_count
  | _ => Err (InvalidState "queued continuation contains an unexpected event")
  end.

(** [validate_queued_continuation_events] *)
Definition validate_queued_continuation_events (session_id : SessionId)
    (queue_event_id : EventId) (expected_settings_revision_id : Z)
    (events : list EventEnvelope) : Result unit :=
  start ← validate_message_and_turn_start events
    (Some expected_settings_revision_id) QueuedFollowUp;
  _ ← validate_event_scope session_id start.1 events;
  resolution_count ← try_fold (queued_continuation_step queue_event_id) 0 events;
  reject_if (negb (resolution_count =? 1))
    (InvalidState "queued continuation must resolve its source and start exactly one turn").

Definition steer_continuation_step (steer_event_ids : list EventId) (resolution_count : Z)
    (event : EventEnvelope) : Result Z :=
  match ev_payload event with
  | SessionSteersResolved resolved_ids outcome _ _ =>
      if bool_decide (resolved_ids = steer_event_ids)
         && match outcome with SteerApplied => true | SteerDropped => false end
      then Ok (resolution_count + 1)
      else Err (InvalidState "steer continuation resolves unexpected sources or outcome")
  | MessageAppended _ | TurnStarted _ _ _ _ _ _ _ => Ok resolution_count
  | _ => Err (InvalidState "steer continuation contains an unexpected event")
  end.

(** [validate_steer_continuation_events] *)
Definition validate_steer_continuation_events (session_id : SessionId) (branch_id : BranchId)
    (steer_event_ids : list EventId) (expected_settings_revision_id : Z)
    (events : list EventEnvelope) : Result unit :=
  start ← validate_message_and_turn_start events
    (Some expected_settings_revision_id) SteerFollowUp;
  _ ← reject_if (negb (bool_decide (start.1 = branch_id)))
        (InvalidState "steer continuation events target the wrong branch");
  _ ← validate_event_scope session_id branch_id events;
  resolution_count ← try_fold (steer_continuation_step steer_event_ids) 0 events;
  reject_if (negb (resolution_count =? 1))
    (InvalidState "steer continuation must resolve its exact sources and start one turn").

Inductive ResumedContinuationKind : Type := ResumeApproval | ResumeInput.
#[export] Instance ResumedContinuationKind_eq_dec : EqDecision ResumedContinuationKind.
Proof. solve_decision. Defined.

Definition resumed_continuation_step (call_id : ToolCallId) (expected_settings_revision_id : Z)
    (kind : ResumedContinuationKind) (expected_source : TurnStartSource)
    (acc : option TurnId * Z) (event : EventEnvelope) : Result (option TurnId * Z) :=
  let '(turn_id, resolution_count) := acc in
  let unexpected := Err (InvalidState "resumed continuation contains an unexpected event") in
  match ev_payload event with
  | TurnStarted started_turn_id _ _ _ settings_revision_id source resumed_from_call_id =>
      _ ← reject_if
            (bool_decide (is_Some turn_id)
             || negb (bool_decide (ev_turn_id event = Some started_turn_id))
             || negb (settings_revision_id =? expected_settings_revision_id)
             || negb (bool_decide (source = expected_source))
             || negb (bool_decide (resumed_from_call_id = Some call_id)))
            (InvalidState "resumed continuation has an inconsistent turn.started event");
      Ok (Some started_turn_id, resolution_count)
  | ToolApprovalResolved resolved_call_id _ _ _ _ =>
      if bool_decide (kind = ResumeApproval) && bool_decide (resolved_call_id = call_id)
      then Ok (turn_id, resolution_count + 1) else unexpected
  | ToolExecutionFinished resolved_call_id _ _ =>
      if bool_decide (kind = ResumeInput) && bool_decide (resolved_call_id = call_id)
      then Ok (turn_id, resolution_count + 1) else unexpected
  | SessionSteersResolved _ _ _ _ | MessageAppended _ => Ok acc
  | _ => unexpected
  end.

(** [validate_resumed_continuation_events] *)
Definition validate_resumed_continuation_events (session_id : SessionId)
    (branch_id : BranchId) (call_id : ToolCallId) (expected_settings_revision_id : Z)
    (kind : ResumedContinuationKind) (events : list EventEnvelope) : Result unit :=
  _ ← validate_event_scope session_id branch_id events;
  let expected_source :=
    match kind with ResumeApproval => ApprovalResume | ResumeInput => InputResume end in
  acc ← try_fold (resumed_continuation_step call_id expected_settings_revision_id kind
                    expected_source) (None, 0) events;
  let '(turn_id, resolution_count) := acc in
  turn_id ← ok_or (InvalidState "resumed continuation is missing its turn.started event") turn_id;
  reject_if (negb (resolution_count =? 1)
             || any (fun event => negb (bool_decide (ev_turn_id event = Some turn_id))) events)
    (InvalidState "resumed continuation must resolve one pending call into exactly one turn").

Section operations.
Context `{codec : RowCodec}.

(** ** Queries inside a transaction *)

Definition query {A} (f : Db -> A) : Tx A := fun db => Ok (f db, db).

(** [active_turn_exists_in_tx] *)
Definition active_turn_exists (session_id : SessionId) (db : Db) : bool :=
  bool_decide (is_Some (db_active_turns db !! session_id)).

Definition owns_active_turn (session_id : SessionId) (branch_id : BranchId) (turn_id : TurnId)
    (db : Db) : bool :=
  match db_active_turns db !! session_id with
  | Some row => bool_decide (at_branch_id row = branch_id) && bool_decide (at_turn_id row = turn_id)
  | None => false
  end.

(** [ensure_active_turn_owner_in_tx] *)
Definition ensure_active_turn_owner_in_tx (session_id : SessionId) (branch_id : BranchId)
    (turn_id : TurnId) : Tx unit :=
  owns ← query (owns_active_turn session_id branch_id turn_id);
  tx_lift (reject_if (negb owns)
    (InvalidState "terminal transition does not own the active turn")).

(** [cancel_requested_in_tx] *)
Definition cancel_requested (session_id : SessionId) (db : Db) : bool :=
  match db_control db !! session_id with
  | Some row => cw_cancel_requested row
  | None => false
  end.

(** The limits of a stored row: a negative one, or a turn limit beyond [u32],
    cannot be read. *)
Definition budget_limits (row : BudgetRow) : option BudgetConfig :=
  wall ← transpose (u64_try_from <$> bu_max_wall_clock_seconds row);
  tokens ← transpose (u64_try_from <$> bu_max_tokens row);
  turns ← transpose (u32_try_from <$> bu_max_turns row);
  Some (MkBudgetConfig wall tokens turns (bu_max_cost_usd row)).

(** [session_budget_exhausted_in_tx] *)
Definition session_budget_exhausted_in_tx (session_id : SessionId) : Tx bool :=
  db ← tx_get;
  match db_budgets db !! session_id with
  | None => mret false
  | Some row =>
      budget ← tx_lift (ok_or (Storage driver_error) (budget_limits row));
      mret (is_exhausted budget (Z.max 0 (bu_tokens_used row))
              (wrap32 (Z.max 0 (bu_turns_used row))) (Z.max 0 (bu_elapsed_seconds row))
              (bu_cost_used_usd row))
  end.

(** [EXISTS (SELECT 1 FROM table WHERE p)] *)
Definition table_any {K V} `{Countable K} (p : K -> V -> bool) (m : gmap K V) : bool :=
  any (fun kv => p kv.1 kv.2) (map_to_list m).

(** [session_has_pending_work_in_tx] *)
Definition session_has_pending_work (session_id : SessionId) (db : Db) : bool :=
  active_turn_exists session_id db
  || table_any (fun k row => bool_decide (k.1 = session_id)
                             && String.eqb (aw_status row) "pending") (db_approvals db)
  || table_any (fun k row => bool_decide (k.1 = session_id)
                             && String.eqb (tw_tool_name row) "ask"
                             && String.eqb (tw_status row) "requested") (db_tool_runs db)
  || table_any (fun _ row => bool_decide (qd_session_id row = session_id)
                             && String.eqb (qd_status row) "pending") (db_queued db)
  || table_any (fun _ row => bool_decide (sw_session_id row = session_id)
                             && String.eqb (sw_status row) "pending") (db_steers db).

(** [SELECT .. WHERE session_id = ? AND status = 'pending' ORDER BY
    source_seq ASC] *)
Definition queued_le (a b : EventId * QueuedRow) : Prop := qd_source_seq a.2 <= qd_source_seq b.2.
#[export] Instance queued_le_dec a b : Decision (queued_le a b).
Proof. unfold queued_le. apply _. Defined.

Definition is_pending_queued (session_id : SessionId) (kv : EventId * QueuedRow) : bool :=
  bool_decide (qd_session_id kv.2 = session_id) && String.eqb (qd_status kv.2) "pending".

Definition pending_queued (session_id : SessionId) (db : Db) : list (EventId * QueuedRow) :=
  merge_sort queued_le
    (List.filter (is_pending_queued session_id) (map_to_list (db_queued db))).

Definition steer_le (a b : EventId * SteerRow) : Prop := sw_source_seq a.2 <= sw_source_seq b.2.
#[export] Instance steer_le_dec a b : Decision (steer_le a b).
Proof. unfold steer_le. apply _. Defined.

Definition is_pending_steer (session_id : SessionId) (branch_id : BranchId)
    (kv : EventId * SteerRow) : bool :=
  bool_decide (sw_session_id kv.2 = session_id) && bool_decide (sw_branch_id kv.2 = branch_id)
  && String.eqb (sw_status kv.2) "pending".

Definition pending_steers (session_id : SessionId) (branch_id : BranchId) (db : Db)
    : list (EventId * SteerRow) :=
  merge_sort steer_le
    (List.filter (is_pending_steer session_id branch_id) (map_to_list (db_steers db))).

(** ** Creating sessions and branches *)

Definition session_status_to_str (status : SessionStatus) : string :=
  match status with
  | StatusActive => "active" | StatusCompleted => "completed"
  | StatusFailed => "failed" | StatusAbandoned => "abandoned"
  end.

Definition session_tool_mode_to_str (mode : SessionToolMode) : string :=
  match mode with Standard => "standard" | Extended => "extended" end.

Definition parse_session_tool_mode (value : string) : SessionToolMode :=
  if String.eqb value "standard" then Standard else Extended.

(** [parse_status] *)
Definition parse_status (value : string) : SessionStatus :=
  if String.eqb value "completed" then StatusCompleted
  else if String.eqb value "failed" then StatusFailed
  else if String.eqb value "abandoned" then StatusAbandoned
  else StatusActive.

(** [parse_session_record] *)
Definition parse_session_record (session_id : SessionId) (row : SessionRow)
    : option SessionRecord :=
  created_at ← parse_time (sr_created_at row);
  updated_at ← parse_time (sr_updated_at row);
  Some {| se_session_id := session_id;
          se_project_root := sr_project_root row;
          se_connection_id := MkConnectionId (sr_connection_id row);
          se_model_id := sr_model_id row;
          se_tool_mode := parse_session_tool_mode (sr_tool_mode row);
          se_settings_revision_id := Z.max 1 (sr_settings_revision_id row);
          se_created_at := created_at;
          se_updated_at := updated_at;
          se_status := parse_status (sr_status row);
          se_display_name := sr_display_name row;
          se_objective := sr_objective row;
          se_parent_session_id := sr_parent_session_id row;
          se_parent_branch_id := sr_parent_branch_id row;
          se_parent_turn_id := sr_parent_turn_id row |}.

(** [load_session]: a row that does not parse is a storage error. *)
Definition load_session (session_id : SessionId) (db : Db) : Result (option SessionRecord) :=
  match db_sessions db !! session_id with
  | None => Ok None
  | Some row => session ← storage (parse_session_record session_id row); Ok (Some session)
  end.

(** [insert_session_in_tx] *)
Definition insert_session_in_tx (session : SessionRecord) : Tx unit :=
  created_at ← time (se_created_at session);
  updated_at ← time (se_updated_at session);
  db ← tx_get;
  match db_sessions db !! se_session_id session with
  | Some _ => storage_error
  | None => tx_modify (set_sessions
      (<[se_session_id session :=
          MkSessionRow (se_project_root session) (connection_name (se_connection_id session))
            (se_model_id session) (session_tool_mode_to_str (se_tool_mode session))
            (u64_as_i64 (se_settings_revision_id session)) created_at updated_at
            (session_status_to_str (se_status session)) (se_display_name session)
            (se_objective session) (se_parent_session_id session)
            (se_parent_branch_id session) (se_parent_turn_id session)]> (db_sessions db)))
  end.

(** [insert_session_settings_revision_in_tx] *)
Definition insert_session_settings_revision_in_tx (session : SessionRecord) : Tx unit :=
  updated_at ← time (se_updated_at session);
  db ← tx_get;
  let key := (se_session_id session, u64_as_i64 (se_settings_revision_id session)) in
  match db_settings db !! key with
  | Some _ => storage_error
  | None => tx_modify (set_settings
      (<[key := MkSettingsRow (connection_name (se_connection_id session)) (se_model_id session)
                  (session_tool_mode_to_str (se_tool_mode session)) updated_at]>
         (db_settings db)))
  end.

(** [insert_branch_in_tx], [insert_branch_in_connection] *)
Definition insert_branch_in_tx (branch : BranchRecord) : Tx unit :=
  created_at ← time (br_created_at branch);
  db ← tx_get;
  if bool_decide (is_Some (db_branches db !! br_branch_id branch))
     || negb (bool_decide (is_Some (db_sessions db !! br_session_id branch)))
  then storage_error
  else tx_modify (set_branches
    (<[br_branch_id branch :=
        MkBranchRow (br_session_id branch) (br_parent_branch_id branch)
          (br_parent_event_id branch) (br_head_event_id branch) (br_summary branch)
          created_at (br_is_default branch)]> (db_branches db))).

(** [create_session] *)
Definition create_session (session : SessionRecord) (branch : BranchRecord)
    : Db -> Result unit * Db :=
  transaction (
    _ ← insert_session_in_tx session;
    _ ← insert_session_settings_revision_in_tx session;
    insert_branch_in_tx branch).

(** [create_branch] *)
Definition create_branch (branch : BranchRecord) : Db -> Result unit * Db :=
  transaction (insert_branch_in_tx branch).

(** [set_default_branch_in_tx] *)
Definition set_default_branch_in_tx (session_id : SessionId) (branch_id : BranchId) : Tx unit :=
  db ← tx_get;
  let branch_exists :=
    match db_branches db !! branch_id with
    | Some row => bool_decide (bw_session_id row = session_id)
    | None => false
    end in
  _ ← tx_lift (reject_if (negb branch_exists)
        (InvalidState ("branch " +:+ show_uuid (uuid branch_id) +:+ " not found in session "
           +:+ show_uuid (uuid session_id))));
  tx_modify (set_branches (map_imap (fun id row => Some
    (if bool_decide (bw_session_id row = session_id) then
       MkBranchRow (bw_session_id row) (bw_parent_branch_id row) (bw_parent_event_id row)
         (bw_head_event_id row) (bw_summary row) (bw_created_at row)
         (bool_decide (id = branch_id))
     else row)) (db_branches db))).

Definition set_default_branch (session_id : SessionId) (branch_id : BranchId)
    : Db -> Result unit * Db :=
  transaction (set_default_branch_in_tx session_id branch_id).

(** [set_default_branch_with_event] *)
Definition set_default_branch_with_event (session_id : SessionId) (branch_id : BranchId)
    (event : EventEnvelope) : Db -> Result Z * Db :=
  transaction (_ ← set_default_branch_in_tx session_id branch_id; append_event_in_tx event).

(** [create_branch_with_event_and_default] *)
Definition create_branch_with_event_and_default (branch : BranchRecord) (event : EventEnvelope)
    : Db -> Result Z * Db :=
  transaction (
    _ ← insert_branch_in_tx branch;
    seq_id ← append_event_in_tx event;
    _ ← set_default_branch_in_tx (br_session_id branch) (br_branch_id branch);
    mret seq_id).

(** ** Appending *)

(** [append_event], [append_events] *)
Definition append_event (event : EventEnvelope) : Db -> Result Z * Db :=
  transaction (append_event_in_tx event).

Definition append_events (events : list EventEnvelope) : Db -> Result (list Z) * Db :=
  transaction (append_events_in_tx events).

(** ** Turn transitions *)

Definition of_turn (session_id : SessionId) (branch_id : BranchId) (turn_id : TurnId)
    (event : EventEnvelope) : bool :=
  in_scope session_id branch_id event && bool_decide (ev_turn_id event = Some turn_id).

Definition is_turn_finished (event : EventEnvelope) : bool :=
  match ev_payload event with TurnFinished _ _ _ _ _ _ => true | _ => false end.

(** [validate_active_turn_events] *)
Definition validate_active_turn_events (session_id : SessionId) (branch_id : BranchId)
    (turn_id : TurnId) (events : list EventEnvelope) : Result unit :=
  reject_if (bool_decide (events = [])
             || any (fun event => negb (of_turn session_id branch_id turn_id event)
                                  || is_turn_finished event) events)
    (InvalidState "active turn transition must contain non-terminal events for exactly one turn").

Definition finishes_turn (turn_id : TurnId) (event : EventEnvelope) : bool :=
  match ev_payload event with
  | TurnFinished finished_turn_id _ _ _ _ _ => bool_decide (finished_turn_id = turn_id)
  | _ => false
  end.

(** [validate_turn_terminal_events] *)
Definition validate_turn_terminal_events (session_id : SessionId) (branch_id : BranchId)
    (turn_id : TurnId) (terminal_events : list EventEnvelope) : Result unit :=
  reject_if (any (fun event => negb (of_turn session_id branch_id turn_id event)) terminal_events
             || negb (is_some_and (finishes_turn turn_id) (last terminal_events)))
    (InvalidState "terminal transition must contain one turn and end with turn.finished").

(** [commit_active_turn_events] *)
Definition commit_active_turn_events (session_id : SessionId) (branch_id : BranchId)
    (turn_id : TurnId) (events : list EventEnvelope) : Db -> Result (list Z) * Db :=
  transaction (
    _ ← tx_lift (validate_active_turn_events session_id branch_id turn_id events);
    _ ← ensure_active_turn_owner_in_tx session_id branch_id turn_id;
    append_events_in_tx events).

(** [commit_turn_terminal_transition] *)
Definition commit_turn_terminal_transition (session_id : SessionId) (branch_id : BranchId)
    (turn_id : TurnId) (terminal_events : list EventEnvelope) : Db -> Result (list Z) * Db :=
  transaction (
    _ ← tx_lift (validate_turn_terminal_events session_id branch_id turn_id terminal_events);
    _ ← ensure_active_turn_owner_in_tx session_id branch_id turn_id;
    append_events_in_tx terminal_events).

(** ** Budgets *)

Record CommittedBudgetCheckpoint : Type := MkCommittedBudgetCheckpoint {
  cbc_checkpoint_seq_id : Z;
  cbc_cancellation_seq_id : option Z;
  cbc_terminal_seq_ids : list Z;
  cbc_exhausted : bool;
}.

Definition is_session_cancelled (event : EventEnvelope) : bool :=
  match ev_payload event with SessionCancelled _ => true | _ => false end.

Definition is_budget_checkpoint (event : EventEnvelope) : bool :=
  match ev_payload event with BudgetCheckpoint _ _ _ _ => true | _ => false end.

Definition is_budget_configured (event : EventEnvelope) : bool :=
  match ev_payload event with BudgetConfigured _ => true | _ => false end.

(** [exhausted.then(|| append(cancellation)).transpose()] *)
Definition cancel_if (exhausted : bool) (cancellation : EventEnvelope) : Tx (option Z) :=
  if exhausted then seq ← append_event_in_tx cancellation; mret (Some seq) else mret None.

(** The checks of [commit_budget_checkpoint_transition] before it opens its
    transaction: the turn the checkpoint belongs to. *)
Definition validate_budget_checkpoint (checkpoint cancellation : EventEnvelope)
    (terminal_events : list EventEnvelope) (require_terminal_finish : bool) : Result TurnId :=
  _ ← reject_if
        (negb (bool_decide (ev_session_id checkpoint = ev_session_id cancellation))
         || negb (bool_decide (ev_branch_id checkpoint = ev_branch_id cancellation))
         || negb (is_budget_checkpoint checkpoint) || negb (is_session_cancelled cancellation))
        (InvalidState "budget checkpoint transition contains inconsistent events");
  _ ← reject_if
        (any (fun event =>
           negb (in_scope (ev_session_id checkpoint) (ev_branch_id checkpoint) event)
           || negb (bool_decide (ev_turn_id event = ev_turn_id checkpoint))) terminal_events)
        (InvalidState "budget terminal transition contains events outside the checkpoint turn");
  _ ← reject_if
        (require_terminal_finish
         && negb (is_some_and (fun event =>
              match ev_payload event with
              | TurnFinished turn_id _ _ _ _ _ =>
                  bool_decide (Some turn_id = ev_turn_id checkpoint)
              | _ => false
              end) (last terminal_events)))
        (InvalidState "budget terminal transition must end with turn.finished");
  turn_id ← ok_or (InvalidState "budget checkpoint transition is missing a turn id")
              (ev_turn_id checkpoint);
  _ ← (if require_terminal_finish
       then validate_turn_terminal_events (ev_session_id checkpoint) (ev_branch_id checkpoint)
              turn_id terminal_events
       else Ok tt);
  Ok turn_id.

(** [commit_budget_checkpoint_transition] *)
Definition commit_budget_checkpoint_transition (checkpoint cancellation : EventEnvelope)
    (terminal_events : list EventEnvelope) (require_terminal_finish : bool)
    : Db -> Result CommittedBudgetCheckpoint * Db :=
  transaction (
    turn_id ← tx_lift (validate_budget_checkpoint checkpoint cancellation terminal_events
                         require_terminal_finish);
    _ ← ensure_active_turn_owner_in_tx (ev_session_id checkpoint) (ev_branch_id checkpoint)
          turn_id;
    checkpoint_seq_id ← append_event_in_tx checkpoint;
    exhausted ← session_budget_exhausted_in_tx (ev_session_id checkpoint);
    cancellation_seq_id ← cancel_if exhausted cancellation;
    terminal_seq_ids ← append_events_in_tx terminal_events;
    mret (MkCommittedBudgetCheckpoint checkpoint_seq_id cancellation_seq_id terminal_seq_ids
            exhausted)).

Definition commit_budget_checkpoint (checkpoint cancellation : EventEnvelope) :=
  commit_budget_checkpoint_transition checkpoint cancellation [] false.

Definition commit_budget_terminal_transition (checkpoint cancellation : EventEnvelope)
    (terminal_events : list EventEnvelope) :=
  commit_budget_checkpoint_transition checkpoint cancellation terminal_events true.

Record CommittedBudgetConfiguration : Type := MkCommittedBudgetConfiguration {
  cbg_configuration_seq_id : Z;
  cbg_cancellation_seq_id : option Z;
  cbg_exhausted : bool;
}.

(** [commit_budget_configuration] *)
Definition commit_budget_configuration (configuration cancellation : EventEnvelope)
    : Db -> Result CommittedBudgetConfiguration * Db :=
  transaction (
    _ ← tx_lift (reject_if
          (negb (bool_decide (ev_session_id configuration = ev_session_id cancellation))
           || negb (bool_decide (ev_branch_id configuration = ev_branch_id cancellation))
           || negb (is_budget_configured configuration)
           || negb (is_session_cancelled cancellation))
          (InvalidState "budget configuration transition contains inconsistent events"));
    active ← query (active_turn_exists (ev_session_id configuration));
    _ ← tx_lift (reject_if active
          (InvalidState "session budget can only be configured while the session is idle"));
    configuration_seq_id ← append_event_in_tx configuration;
    exhausted ← session_budget_exhausted_in_tx (ev_session_id configuration);
    cancellation_seq_id ← cancel_if exhausted cancellation;
    mret (MkCommittedBudgetConfiguration configuration_seq_id cancellation_seq_id exhausted)).

(** ** Settings *)

(** [commit_session_settings_update]: the generated identifiers and the clock
    of [EventEnvelope::new] are arguments; the session as it is now stored,
    the event and its sequence number are returned. *)
Definition commit_session_settings_update (event_id : EventId) (span_id : SpanId)
    (now : OffsetDateTime) (session_id : SessionId) (branch_id : BranchId)
    (connection_id : option ConnectionId) (model_id : option (option string))
    (tool_mode : option SessionToolMode)
    : Db -> Result (SessionRecord * EventEnvelope * Z) * Db :=
  transaction (
    db ← tx_get;
    current ← tx_lift (ok_or (InvalidState "session not found") (db_sessions db !! session_id));
    let revision := Z.max 1 (sr_settings_revision_id current) in
    _ ← tx_lift (reject_if (I64_MAX <? revision + 1)
          (InvalidState "session settings revision exhausted"));
    let settings_revision_id := revision + 1 in
    let connection_id := default (MkConnectionId (sr_connection_id current)) connection_id in
    let model_id := default (sr_model_id current) model_id in
    let tool_mode := default (parse_session_tool_mode (sr_tool_mode current)) tool_mode in
    let event := new_envelope event_id span_id now session_id branch_id SpanSession
      (SessionSettingsUpdated settings_revision_id (connection_name connection_id) model_id
         (session_tool_mode_to_str tool_mode)) in
    seq_id ← append_event_in_tx event;
    loaded ← query (load_session session_id);
    session ← tx_lift (loaded ≫= ok_or (Storage driver_error));
    mret (session, event, seq_id)).

(** ** Admission and continuations *)

Inductive SessionTurnAdmission : Type :=
  | AdmissionStarted (seq_ids : list Z)
  | AdmissionQueued (seq_ids : list Z) (position : nat)
  | RetryWithSettings (settings_revision_id : Z)
  | AdmissionBudgetExhausted.

(** [admit_turn_or_queue] *)
Definition admit_turn_or_queue (session_id : SessionId) (expected_settings_revision_id : Z)
    (cancel_clear_event : EventEnvelope) (started_events queued_events : list EventEnvelope)
    : Db -> Result SessionTurnAdmission * Db :=
  transaction (
    db ← tx_get;
    session ← tx_lift (ok_or (InvalidState "session not found") (db_sessions db !! session_id));
    let current := Z.max 1 (sr_settings_revision_id session) in
    if negb (current =? expected_settings_revision_id) then mret (RetryWithSettings current) else
    _ ← tx_lift (validate_turn_admission_events session_id expected_settings_revision_id
                   cancel_clear_event started_events queued_events);
    exhausted ← session_budget_exhausted_in_tx session_id;
    if exhausted : bool then mret AdmissionBudgetExhausted else
    pending ← query (session_has_pending_work session_id);
    if pending : bool then
      seq_ids ← append_events_in_tx queued_events;
      position ← query (fun db => length (pending_queued session_id db));
      mret (AdmissionQueued seq_ids position)
    else
      cancelled ← query (cancel_requested session_id);
      cleared ← (if cancelled : bool
                 then seq ← append_event_in_tx cancel_clear_event; mret [seq]
                 else mret []);
      seq_ids ← append_events_in_tx started_events;
      mret (AdmissionStarted (cleared ++ seq_ids))).

Inductive ContinuationClaim : Type :=
  | ClaimClaimed (seq_ids : list Z)
  | ClaimBusy
  | ClaimBudgetExhausted
  | ClaimCancelPending
  | ClaimStale.

(** [claim_queued_continuation] *)
Definition claim_queued_continuation (session_id : SessionId) (queue_event_id : EventId)
    (events : list EventEnvelope) : Db -> Result ContinuationClaim * Db :=
  transaction (
    cancelled ← query (cancel_requested session_id);
    if cancelled : bool then mret ClaimCancelPending else
    active ← query (active_turn_exists session_id);
    if active : bool then mret ClaimBusy else
    exhausted ← session_budget_exhausted_in_tx session_id;
    if exhausted : bool then mret ClaimBudgetExhausted else
    pending ← query (pending_queued session_id);
    match pending with
    | [] => mret ClaimStale
    | (next_queue_event_id, row) :: _ =>
        if negb (bool_decide (next_queue_event_id = queue_event_id)) then mret ClaimStale else
        _ ← tx_lift (validate_queued_continuation_events session_id queue_event_id
                       (Z.max 1 (qd_settings_revision_id row)) events);
        seq_ids ← append_events_in_tx events;
        mret (ClaimClaimed seq_ids)
    end).

(** [claim_steer_continuation] *)
Definition claim_steer_continuation (session_id : SessionId) (branch_id : BranchId)
    (steer_event_ids : list EventId) (events : list EventEnvelope)
    : Db -> Result ContinuationClaim * Db :=
  transaction (
    cancelled ← query (cancel_requested session_id);
    if cancelled : bool then mret ClaimCancelPending else
    active ← query (active_turn_exists session_id);
    if active : bool then mret ClaimBusy else
    exhausted ← session_budget_exhausted_in_tx session_id;
    if exhausted : bool then mret ClaimBudgetExhausted else
    pending_sources ← query (pending_steers session_id branch_id);
    if negb (bool_decide (pending_sources.*1 = steer_event_ids)) then mret ClaimStale else
    match last pending_sources with
    | None => mret ClaimStale
    | Some (_, row) =>
        _ ← tx_lift (validate_steer_continuation_events session_id branch_id steer_event_ids
                       (Z.max 1 (sw_settings_revision_id row)) events);
        seq_ids ← append_events_in_tx events;
        mret (ClaimClaimed seq_ids)
    end).

Definition call_is_pending (session_id : SessionId) (branch_id : BranchId)
    (call_id : ToolCallId) (tool_name : string) (expected_turn_id : TurnId)
    (expected_request_seq_id : Z) (kind : ResumedContinuationKind) (db : Db) : bool :=
  match kind with
  | ResumeApproval =>
      match db_approvals db !! (session_id, call_id) with
      | Some row =>
          String.eqb (aw_tool_name row) tool_name && String.eqb (aw_status row) "pending"
          && bool_decide (aw_branch_id row = Some branch_id)
          && bool_decide (aw_turn_id row = Some expected_turn_id)
          && bool_decide (aw_requested_seq_id row = Some expected_request_seq_id)
      | None => false
      end
  | ResumeInput =>
      match db_tool_runs db !! (session_id, call_id) with
      | Some row =>
          String.eqb (tw_tool_name row) tool_name && String.eqb (tw_status row) "requested"
          && bool_decide (tw_branch_id row = Some branch_id)
          && bool_decide (tw_turn_id row = Some expected_turn_id)
          && bool_decide (tw_requested_seq_id row = Some expected_request_seq_id)
      | None => false
      end
  end.

(** [claim_resumed_continuation] *)
Definition claim_resumed_continuation (session_id : SessionId) (branch_id : BranchId)
    (call_id : ToolCallId) (tool_name : string) (expected_turn_id : TurnId)
    (expected_request_seq_id expected_settings_revision_id : Z)
    (kind : ResumedContinuationKind) (events : list EventEnvelope)
    : Db -> Result ContinuationClaim * Db :=
  transaction (
    exhausted ← session_budget_exhausted_in_tx session_id;
    if exhausted : bool then mret ClaimBudgetExhausted else
    cancelled ← query (cancel_requested session_id);
    if cancelled : bool then mret ClaimCancelPending else
    active ← query (active_turn_exists session_id);
    if active : bool then mret ClaimBusy else
    pending ← query (call_is_pending session_id branch_id call_id tool_name expected_turn_id
                       expected_request_seq_id kind);
    if negb pending then mret ClaimStale else
    _ ← tx_lift (validate_resumed_continuation_events session_id branch_id call_id
                   expected_settings_revision_id kind events);
    seq_ids ← append_events_in_tx events;
    mret (ClaimClaimed seq_ids)).
End operations.
