(* ===== verification/StoreRelated.v ===== *)
(** * The session store: related sessions and raw chunks
      ([crates/bt-session/src/store.rs])

    Sessions form trees through their parent links.  This file holds the
    transactions that spawn a child session within the bounds of its tree,
    deliver a message between two sessions of one tree, settle a message that
    asks for a reply, and claim messages for a turn; and those that store the
    provider's raw chunks or import a session. *)

From stdpp Require Import base list strings gmap sorting.
From Stdlib Require Import ZArith Lia.
From S2P Require Import Prelude Text Json Types TurnProjection Store StoreOps.

#[local] Open Scope Z_scope.

(** ** Data ([related_sessions.rs]) *)

Record RelatedSessionMessageReceipt : Type := MkReceipt {
  rt_message_id : RelatedSessionMessageId;
  rt_sent_event_id : EventId;
  rt_sent_seq_id : Z;
  rt_received_event_id : EventId;
  rt_received_seq_id : Z;
  rt_status : RelatedSessionMessageStatus;
}.

Record RelatedSessionMessageSettlement : Type := MkSettlement {
  rs_obligation_message_id : RelatedSessionMessageId;
  rs_reply_message_id : RelatedSessionMessageId;
  rs_reply_kind : RelatedSessionMessageKind;
  rs_settling_turn_id : TurnId;
  rs_settlement_event_id : EventId;
  rs_settlement_seq_id : Z;
  rs_settled_at : OffsetDateTime;
}.

Record RelatedSessionSettlementReceipt : Type := MkSettlementReceipt {
  ss_settlement : RelatedSessionMessageSettlement;
  ss_reply : RelatedSessionMessageReceipt;
  ss_newly_committed : bool;
}.

Record RelatedSessionMessageRecord : Type := MkRelatedRecord {
  rd_message : RelatedSessionMessage;
  rd_direction : RelatedSessionMessageDirection;
  rd_status : RelatedSessionMessageStatus;
  rd_event_id : EventId;
  rd_counterpart_event_id : EventId;
  rd_seq_id : Z;
  rd_resulting_turn_id : option TurnId;
  rd_resolved_at : option OffsetDateTime;
  rd_settlement : option RelatedSessionMessageSettlement;
}.

(** ** Lineage *)

(** The [parent_session_id] column: [None] for a session that is not stored. *)
Definition parent_of (db : Db) (session_id : SessionId) : option (option SessionId) :=
  sr_parent_session_id <$> db_sessions db !! session_id.

Section related.
Context `{codec : RowCodec}.

(** A query that can fail. *)
Definition query_result {A} (f : Db -> Result A) : Tx A := db ← tx_get; tx_lift (f db).

(** [parent_session_id_in_tx] *)
Definition parent_session_id_in_tx (session_id : SessionId) (db : Db)
    : Result (option SessionId) :=
  ok_or (NotFound ("session `" +:+ show_uuid (uuid session_id) +:+ "`"))
    (parent_of db session_id).

(** The loop of [lineage_root_in_tx]; [None] when it is still running. *)
Fixpoint lineage_root_loop (fuel : nat) (db : Db) (visited : gset SessionId)
    (cursor : SessionId) : option (Result SessionId) :=
  match fuel with
  | O => None
  | S fuel =>
      match parent_session_id_in_tx cursor db with
      | Err e => Some (Err e)
      | Ok None => Some (Ok cursor)
      | Ok (Some parent) =>
          if bool_decide (parent ∈ visited)
          then Some (Err (InvalidState "session lineage contains a cycle"))
          else lineage_root_loop fuel db ({[parent]} ∪ visited) parent
      end
  end.

(** Each turn of the loop visits another session, and all of them but the
    last are stored. *)
Definition lineage_fuel (db : Db) : nat := S (S (size (db_sessions db))).

(** [lineage_root_in_tx] *)
Definition lineage_root_in_tx (session_id : SessionId) (db : Db) : Result SessionId :=
  default (Err (Storage driver_error))
    (lineage_root_loop (lineage_fuel db) db {[session_id]} session_id).

(** The rows of [ancestors]: each session with its parent, from the given one
    up; [UNION] drops a row that is already there, which ends a cycle. *)
Fixpoint ancestors_from (fuel : nat) (db : Db) (seen : gset SessionId) (cursor : SessionId)
    : list (SessionId * option SessionId) :=
  match fuel with
  | O => []
  | S fuel =>
      match parent_of db cursor with
      | None => []
      | Some None => [(cursor, None)]
      | Some (Some parent) =>
          (cursor, Some parent) ::
          (if bool_decide (parent ∈ {[cursor]} ∪ seen) then []
           else ancestors_from fuel db ({[cursor]} ∪ seen) parent)
      end
  end.

Definition ancestors (session_id : SessionId) (db : Db) : list (SessionId * option SessionId) :=
  ancestors_from (lineage_fuel db) db ∅ session_id.

(** One step of [lineage]: the sessions whose parent is already there. *)
Definition add_children (db : Db) (lineage : gset SessionId) : gset SessionId :=
  lineage ∪ dom (filter (fun kv : SessionId * SessionRow =>
    is_some_and (fun parent => bool_decide (parent ∈ lineage)) (sr_parent_session_id kv.2) = true)
    (db_sessions db)).

Definition lineage_of (root : SessionId) (db : Db) : gset SessionId :=
  Nat.iter (size (db_sessions db)) (add_children db) {[root]}.

(** [ensure_child_spawn_bounds_in_tx] *)
Definition ensure_child_spawn_bounds_in_tx (parent_session_id : SessionId) (db : Db)
    : Result unit :=
  let rows := ancestors parent_session_id db in
  root ← ok_or (InvalidState "session lineage has no reachable root session")
           (find_first (fun row => bool_decide (row.2 = None)) rows);
  let depth := (length rows - 1)%nat in
  _ ← reject_if (MAX_RELATED_SESSION_DEPTH <=? depth)%nat
        (Protocol "subagent depth limit of 4 reached");
  let descendants := (size (lineage_of root.1 db) - 1)%nat in
  reject_if (MAX_RELATED_SESSION_DESCENDANTS <=? descendants)%nat
    (Protocol "subagent lineage limit of 8 reached").

(** [ensure_branch_owner_in_tx] *)
Definition owns_branch (session_id : SessionId) (branch_id : BranchId) (db : Db) : bool :=
  match db_branches db !! branch_id with
  | Some row => bool_decide (bw_session_id row = session_id)
  | None => false
  end.

Definition ensure_branch_owner_in_tx (session_id : SessionId) (branch_id : BranchId) (db : Db)
    : Result unit :=
  reject_if (negb (owns_branch session_id branch_id db))
    (Protocol ("branch `" +:+ show_uuid (uuid branch_id) +:+ "` does not belong to session `"
       +:+ show_uuid (uuid session_id) +:+ "`")).

(** ** Delivery *)

(** The turn is the sender's active turn or a turn it has run. *)
Definition owns_turn (session_id : SessionId) (branch_id : BranchId) (turn_id : TurnId) (db : Db)
    : bool :=
  owns_active_turn session_id branch_id turn_id db
  || match db_turns db !! turn_key session_id turn_id with
     | Some row => String.eqb (row_branch_id row) (show_uuid (uuid branch_id))
     | None => false
     end.

(** [ensure_related_session_message_constraints_in_tx] *)
Definition ensure_related_session_message_constraints_in_tx (message : RelatedSessionMessage)
    (db : Db) : Result unit :=
  let other_tree := Protocol "related-session messages are limited to sessions in the same lineage tree" in
  _ ← reject_if (bool_decide (rm_source_session_id message = rm_destination_session_id message))
        other_tree;
  source_root ← lineage_root_in_tx (rm_source_session_id message) db;
  destination_root ← lineage_root_in_tx (rm_destination_session_id message) db;
  _ ← reject_if (negb (bool_decide (source_root = destination_root))) other_tree;
  _ ← ensure_branch_owner_in_tx (rm_source_session_id message) (rm_source_branch_id message) db;
  _ ← ensure_branch_owner_in_tx (rm_destination_session_id message)
        (rm_destination_branch_id message) db;
  _ ← reject_if
        (is_some_and (fun turn_id =>
           negb (owns_turn (rm_source_session_id message) (rm_source_branch_id message) turn_id db))
           (rm_caused_by_turn_id message))
        (Protocol "related-session message causal turn does not belong to the sender");
  match rm_in_reply_to message with
  | None => Ok tt
  | Some reply_id =>
      original ← ok_or (Protocol "related-session reply target was not received by the sender")
        (rr_message <$> db_related db !! (rm_source_session_id message, reply_id, Received));
      reject_if
        (negb (bool_decide (rm_source_session_id message = rm_destination_session_id original))
         || negb (bool_decide (rm_source_branch_id message = rm_destination_branch_id original))
         || negb (bool_decide (rm_destination_session_id message = rm_source_session_id original))
         || negb (bool_decide (rm_destination_branch_id message = rm_source_branch_id original)))
        (Protocol "related-session reply must reverse the original session and branch edge")
  end.

(** [validate_related_session_message_envelopes] *)
Definition validate_related_session_message_envelopes (sent received : EventEnvelope)
    : Result RelatedSessionMessage :=
  match ev_payload sent, ev_payload received with
  | RelatedSessionMessageRecorded Sent sent_counterpart sent_message,
    RelatedSessionMessageRecorded Received received_counterpart received_message =>
      _ ← reject_if
        (negb (bool_decide (sent_message = received_message))
         || negb (bool_decide (ev_event_id sent = received_counterpart))
         || negb (bool_decide (ev_event_id received = sent_counterpart))
         || negb (bool_decide (ev_session_id sent = rm_source_session_id sent_message))
         || negb (bool_decide (ev_branch_id sent = rm_source_branch_id sent_message))
         || negb (bool_decide (ev_turn_id sent = rm_caused_by_turn_id sent_message))
         || negb (bool_decide (ev_session_id received = rm_destination_session_id sent_message))
         || negb (bool_decide (ev_branch_id received = rm_destination_branch_id sent_message))
         || bool_decide (is_Some (ev_turn_id received))
         || is_blank (rm_text sent_message))
        (InvalidState "related-session delivery envelopes do not match the canonical message");
      Ok sent_message
  | _, _ => Err (InvalidState "related-session delivery requires one sent and one received event")
  end.

(** [load_related_message_receipt_in_tx] *)
Definition load_related_message_receipt_in_tx
    (source_session_id destination_session_id : SessionId)
    (message_id : RelatedSessionMessageId) (expected : option RelatedSessionMessage) (db : Db)
    : Result (option RelatedSessionMessageReceipt) :=
  match db_related db !! (source_session_id, message_id, Sent) with
  | None => Ok None
  | Some sent =>
      _ ← reject_if
            (is_some_and (fun expected => negb (bool_decide (expected = rr_message sent))) expected)
            (Protocol ("related-session message id `" +:+ show_uuid (uuid message_id)
               +:+ "` was reused with different content"));
      received ← storage (db_related db !! (destination_session_id, message_id, Received));
      Ok (Some (MkReceipt message_id (rr_event_id sent) (rr_source_seq sent)
                  (rr_counterpart_event_id sent) (rr_source_seq received) (rr_status received)))
  end.

Definition delivery_status (message : RelatedSessionMessage) : RelatedSessionMessageStatus :=
  match rm_delivery_mode message with Wake => Pending | Notify => Delivered end.

(** [commit_related_session_message] *)
Definition commit_related_session_message (sent received : EventEnvelope)
    : Db -> Result RelatedSessionMessageReceipt * Db :=
  transaction (
    message ← tx_lift (validate_related_session_message_envelopes sent received);
    existing ← query_result (load_related_message_receipt_in_tx (rm_source_session_id message)
      (rm_destination_session_id message) (rm_message_id message) (Some message));
    match existing with
    | Some receipt => mret receipt
    | None =>
        _ ← query_result (ensure_related_session_message_constraints_in_tx message);
        sent_seq_id ← append_event_in_tx sent;
        received_seq_id ← append_event_in_tx received;
        mret (MkReceipt (rm_message_id message) (ev_event_id sent) sent_seq_id
                (ev_event_id received) received_seq_id (delivery_status message))
    end).

(** ** Settlement *)

(** [parse_related_message_record] *)
Definition parse_related_message_record (direction : RelatedSessionMessageDirection)
    (row : RelatedRow) : option RelatedSessionMessageRecord :=
  settlement ← match rr_settlement row with
    | None => Some None
    | Some cols =>
        settled_at ← parse_time (sl_settled_at cols);
        Some (Some (MkSettlement (rm_message_id (rr_message row)) (sl_reply_message_id cols)
                (sl_reply_kind cols) (sl_settling_turn_id cols) (sl_event_id cols) (sl_seq cols)
                settled_at))
    end;
  resolved_at ← match rr_resolved_at row with
    | None => Some None
    | Some text => t ← parse_time text; Some (Some t)
    end;
  Some (MkRelatedRecord (rr_message row) direction (rr_status row) (rr_event_id row)
          (rr_counterpart_event_id row) (rr_source_seq row) (rr_resulting_turn_id row)
          resolved_at settlement).

(** The checks of [settle_related_session_message] on its arguments: the
    settling turn. *)
Definition validate_settlement (obligation_message_id : RelatedSessionMessageId)
    (reply : RelatedSessionMessage) (settlement_event : EventEnvelope) : Result TurnId :=
  match ev_payload settlement_event with
  | RelatedSessionMessageSettled message_id reply_message_id reply_kind settling_turn_id =>
      _ ← reject_if
        (negb (bool_decide (message_id = obligation_message_id))
         || negb (bool_decide (reply_message_id = rm_message_id reply))
         || negb (bool_decide (reply_kind = rm_kind reply))
         || negb (bool_decide (ev_session_id settlement_event = rm_source_session_id reply))
         || negb (bool_decide (ev_branch_id settlement_event = rm_source_branch_id reply))
         || negb (bool_decide (ev_turn_id settlement_event = Some settling_turn_id))
         || negb (bool_decide (rm_caused_by_turn_id reply = Some settling_turn_id))
         || negb (bool_decide (rm_in_reply_to reply = Some obligation_message_id))
         || negb (bool_decide (rm_kind reply = KResult) || bool_decide (rm_kind reply = KError)))
        (InvalidState "related-session settlement events do not describe one terminal reply");
      Ok settling_turn_id
  | _ => Err (InvalidState "related-session settlement requires a settlement event")
  end.

(** The obligation is claimed, asks for a reply, and the reply goes back
    along its edge. *)
Definition is_claimed_obligation (reply : RelatedSessionMessage)
    (obligation : RelatedSessionMessageRecord) : bool :=
  bool_decide (rd_status obligation = Claimed)
  && bool_decide (is_Some (rd_resulting_turn_id obligation))
  && (bool_decide (rm_kind (rd_message obligation) = KInstruction)
      || bool_decide (rm_kind (rd_message obligation) = KQuestion))
  && bool_decide (rm_source_session_id reply = rm_destination_session_id (rd_message obligation))
  && bool_decide (rm_source_branch_id reply = rm_destination_branch_id (rd_message obligation))
  && bool_decide (rm_destination_session_id reply = rm_source_session_id (rd_message obligation))
  && bool_decide (rm_destination_branch_id reply = rm_source_branch_id (rd_message obligation)).

(** [settle_related_session_message] *)
Definition settle_related_session_message (obligation_message_id : RelatedSessionMessageId)
    (reply_sent reply_received settlement_event : EventEnvelope)
    : Db -> Result RelatedSessionSettlementReceipt * Db :=
  transaction (
    reply ← tx_lift (validate_related_session_message_envelopes reply_sent reply_received);
    settling_turn_id ← tx_lift (validate_settlement obligation_message_id reply settlement_event);
    row ← query (fun db =>
      db_related db !! (ev_session_id settlement_event, obligation_message_id, Received));
    parsed ← tx_lift (match row with
      | None => Ok None
      | Some row => record ← storage (parse_related_message_record Received row); Ok (Some record)
      end);
    obligation ← tx_lift (ok_or
      (InvalidState ("related-session obligation " +:+ show_uuid (uuid obligation_message_id)
         +:+ " was not received by session " +:+ show_uuid (uuid (ev_session_id settlement_event))))
      parsed);
    match rd_settlement obligation with
    | Some existing =>
        found ← query_result (load_related_message_receipt_in_tx
          (rm_destination_session_id (rd_message obligation))
          (rm_source_session_id (rd_message obligation)) (rs_reply_message_id existing) None);
        reply_receipt ← tx_lift (ok_or
          (InvalidState ("settlement for " +:+ show_uuid (uuid obligation_message_id)
             +:+ " references missing reply " +:+ show_uuid (uuid (rs_reply_message_id existing))))
          found);
        mret (MkSettlementReceipt existing reply_receipt false)
    | None =>
        _ ← tx_lift (reject_if (negb (is_claimed_obligation reply obligation))
          (InvalidState ("related-session message " +:+ show_uuid (uuid obligation_message_id)
             +:+ " is not a claimed reply obligation")));
        _ ← query_result (ensure_related_session_message_constraints_in_tx reply);
        sent_seq_id ← append_event_in_tx reply_sent;
        received_seq_id ← append_event_in_tx reply_received;
        settlement_seq_id ← append_event_in_tx settlement_event;
        mret (MkSettlementReceipt
          (MkSettlement obligation_message_id (rm_message_id reply) (rm_kind reply)
             settling_turn_id (ev_event_id settlement_event) settlement_seq_id
             (ev_occurred_at settlement_event))
          (MkReceipt (rm_message_id reply) (ev_event_id reply_sent) sent_seq_id
             (ev_event_id reply_received) received_seq_id (delivery_status reply))
          true)
    end).

(** ** Spawning a child *)

(** The checks of [commit_child_session_spawn_transition] on its arguments:
    the parent of the child. *)
Definition validate_child_spawn (child_session : SessionRecord) (child_branch : BranchRecord)
    (spawn_requested child_started child_handoff spawn_completed : EventEnvelope)
    : Result (SessionId * BranchId) :=
  objective ← ok_or (InvalidState "child session spawn requires an objective")
    (se_objective child_session);
  parent_session_id ← ok_or (InvalidState "child session spawn requires a parent session")
    (se_parent_session_id child_session);
  parent_branch_id ← ok_or (InvalidState "child session spawn requires a parent branch")
    (se_parent_branch_id child_session);
  let connection := connection_name (se_connection_id child_session) in
  let parent_turn_id := se_parent_turn_id child_session in
  let valid_scope :=
    bool_decide (br_session_id child_branch = se_session_id child_session)
    && in_scope parent_session_id parent_branch_id spawn_requested
    && bool_decide (ev_turn_id spawn_requested = parent_turn_id)
    && in_scope (se_session_id child_session) (br_branch_id child_branch) child_started
    && bool_decide (ev_turn_id child_started = None)
    && in_scope (se_session_id child_session) (br_branch_id child_branch) child_handoff
    && bool_decide (ev_turn_id child_handoff = None)
    && in_scope parent_session_id parent_branch_id spawn_completed
    && bool_decide (ev_turn_id spawn_completed = parent_turn_id) in
  let valid_payloads :=
    match ev_payload spawn_requested with
    | SessionSpawnRequested child_session_id event_objective connection_id model_id =>
        bool_decide (child_session_id = se_session_id child_session)
        && String.eqb event_objective objective && String.eqb connection_id connection
        && bool_decide (model_id = se_model_id child_session)
    | _ => false
    end
    && match ev_payload child_started with
       | SessionStarted project_root connection_id =>
           String.eqb project_root (se_project_root child_session)
           && String.eqb connection_id connection
       | _ => false
       end
    && match ev_payload child_handoff with
       | SessionHandoffRecorded event_parent event_branch event_turn event_objective summary =>
           bool_decide (event_parent = parent_session_id)
           && bool_decide (event_branch = parent_branch_id)
           && bool_decide (event_turn = parent_turn_id)
           && String.eqb event_objective objective && String.eqb summary objective
       | _ => false
       end
    && match ev_payload spawn_completed with
       | SessionSpawned child_session_id child_branch_id event_objective =>
           bool_decide (child_session_id = se_session_id child_session)
           && bool_decide (child_branch_id = br_branch_id child_branch)
           && String.eqb event_objective objective
       | _ => false
       end in
  _ ← reject_if (negb valid_scope || negb valid_payloads)
        (InvalidState
           "child session spawn events do not match the canonical parent/child records");
  Ok (parent_session_id, parent_branch_id).

Definition validate_initial_message (child_session : SessionRecord) (child_branch : BranchRecord)
    (parent : SessionId * BranchId) (sent received : EventEnvelope) : Result RelatedSessionMessage :=
  message ← validate_related_session_message_envelopes sent received;
  _ ← reject_if
    (negb (bool_decide (rm_source_session_id message = parent.1))
     || negb (bool_decide (rm_source_branch_id message = parent.2))
     || negb (bool_decide (rm_destination_session_id message = se_session_id child_session))
     || negb (bool_decide (rm_destination_branch_id message = br_branch_id child_branch))
     || negb (bool_decide (rm_delivery_mode message = Wake)))
    (InvalidState "initial child message does not match the canonical spawn");
  Ok message.

(** [commit_child_session_spawn_transition] *)
Definition commit_child_session_spawn_transition (child_session : SessionRecord)
    (child_branch : BranchRecord)
    (spawn_requested child_started child_handoff spawn_completed : EventEnvelope)
    (initial_message : option (EventEnvelope * EventEnvelope)) : Db -> Result (list Z) * Db :=
  transaction (
    parent ← tx_lift (validate_child_spawn child_session child_branch spawn_requested
      child_started child_handoff spawn_completed);
    message ← tx_lift (match initial_message with
      | None => Ok None
      | Some (sent, received) =>
          message ← validate_initial_message child_session child_branch parent sent received;
          Ok (Some message)
      end);
    _ ← query_result (ensure_child_spawn_bounds_in_tx parent.1);
    _ ← insert_session_in_tx child_session;
    _ ← insert_session_settings_revision_in_tx child_session;
    _ ← insert_branch_in_tx child_branch;
    _ ← (match message with
         | None => mret tt
         | Some message =>
             query_result (ensure_related_session_message_constraints_in_tx message)
         end);
    append_events_in_tx
      ([spawn_requested; child_started; child_handoff; spawn_completed]
       ++ match initial_message with None => [] | Some (sent, received) => [sent; received] end)).

(** [commit_child_session_spawn] *)
Definition commit_child_session_spawn (child_session : SessionRecord) (child_branch : BranchRecord)
    (spawn_requested child_started child_handoff spawn_completed : EventEnvelope) :=
  commit_child_session_spawn_transition child_session child_branch spawn_requested child_started
    child_handoff spawn_completed None.

(** [commit_child_session_spawn_with_initial_message] *)
Definition commit_child_session_spawn_with_initial_message (child_session : SessionRecord)
    (child_branch : BranchRecord)
    (spawn_requested child_started child_handoff spawn_completed sent received : EventEnvelope) :=
  commit_child_session_spawn_transition child_session child_branch spawn_requested child_started
    child_handoff spawn_completed (Some (sent, received)).

(** ** Claims *)

(** [SELECT .. WHERE session_id = ? AND direction = 'received' AND status =
    'pending' ORDER BY source_seq] *)
Abbreviation RelatedKey := (SessionId * RelatedSessionMessageId * RelatedSessionMessageDirection)%type.

Definition related_le (a b : RelatedKey * RelatedRow) : Prop :=
  rr_source_seq a.2 <= rr_source_seq b.2.
#[export] Instance related_le_dec a b : Decision (related_le a b).
Proof. unfold related_le. apply _. Defined.

Definition is_pending_related (session_id : SessionId) (kv : RelatedKey * RelatedRow) : bool :=
  bool_decide (kv.1.1.1 = session_id) && bool_decide (kv.1.2 = Received)
  && bool_decide (rr_status kv.2 = Pending).

Definition pending_related (session_id : SessionId) (db : Db) : list (RelatedKey * RelatedRow) :=
  merge_sort related_le
    (List.filter (is_pending_related session_id) (map_to_list (db_related db))).

(** [row.get::<_, u64>]: a negative revision cannot be read. *)
Definition settings_revision_in_tx (session_id : SessionId) (db : Db) : Result (option Z) :=
  match db_sessions db !! session_id with
  | None => Ok None
  | Some row => revision ← storage (u64_try_from (sr_settings_revision_id row)); Ok (Some revision)
  end.

(** The turn a [RelatedSessionMessageResolved] event claims a message for. *)
Definition claims_related (message_id : RelatedSessionMessageId) (event : EventEnvelope)
    : option TurnId :=
  match ev_payload event with
  | RelatedSessionMessageResolved event_message_id Claimed (Some turn_id) _ =>
      if bool_decide (event_message_id = message_id) then Some turn_id else None
  | _ => None
  end.

(** The check of [claim_related_message_continuation] on its events. *)
Definition related_continuation_ok (session_id : SessionId)
    (message_id : RelatedSessionMessageId) (expected_settings_revision_id : Z)
    (message : RelatedSessionMessage) (events : list EventEnvelope) : bool :=
  match events with
  | [resolved; started] =>
      let claimed_turn_id := claims_related message_id resolved in
      bool_decide (rm_delivery_mode message = Wake)
      && forallb (in_scope session_id (rm_destination_branch_id message)) events
      && bool_decide (ev_turn_id resolved = None)
      && bool_decide (is_Some claimed_turn_id)
      && bool_decide (ev_turn_id started = claimed_turn_id)
      && match ev_payload started with
         | TurnStarted turn_id _ _ _ settings_revision_id source _ =>
             bool_decide (source = RelatedSessionMessageStart)
             && bool_decide (Some turn_id = claimed_turn_id)
             && (settings_revision_id =? expected_settings_revision_id)
         | _ => false
         end
  | _ => false
  end.

(** [claim_related_message_continuation] *)
Definition claim_related_message_continuation (session_id : SessionId)
    (message_id : RelatedSessionMessageId) (expected_settings_revision_id : Z)
    (events : list EventEnvelope) : Db -> Result ContinuationClaim * Db :=
  transaction (
    cancelled ← query (cancel_requested session_id);
    if cancelled : bool then mret ClaimCancelPending else
    busy ← query (session_has_pending_work session_id);
    if busy : bool then mret ClaimBusy else
    exhausted ← session_budget_exhausted_in_tx session_id;
    if exhausted : bool then mret ClaimBudgetExhausted else
    revision ← query_result (settings_revision_in_tx session_id);
    if negb (bool_decide (revision = Some expected_settings_revision_id)) then mret ClaimStale else
    pending ← query (pending_related session_id);
    match pending with
    | [] => mret ClaimStale
    | ((_, pending_message_id, _), row) :: _ =>
        if negb (bool_decide (pending_message_id = message_id)) then mret ClaimStale else
        _ ← tx_lift (reject_if
              (negb (related_continuation_ok session_id message_id expected_settings_revision_id
                       (rr_message row) events))
              (InvalidState "related-session continuation events are malformed"));
        seq_ids ← append_events_in_tx events;
        mret (ClaimClaimed seq_ids)
    end).

(** The loop of [claim_related_messages_for_active_turn]: whether every
    message can be claimed. *)
Fixpoint check_related_claims (session_id : SessionId) (branch_id : BranchId) (turn_id : TurnId)
    (pairs : list (RelatedSessionMessageId * EventEnvelope)) (db : Db) : Result bool :=
  match pairs with
  | [] => Ok true
  | (message_id, event) :: pairs =>
      _ ← reject_if
        (negb (of_turn session_id branch_id turn_id event)
         || negb (bool_decide (claims_related message_id event = Some turn_id)))
        (InvalidState
           "active-turn related-message claim contains a malformed resolution event");
      match db_related db !! (session_id, message_id, Received) with
      | None => Ok false
      | Some row =>
          if negb (bool_decide (rr_status row = Pending))
             || negb (bool_decide (rm_delivery_mode (rr_message row) = Wake))
             || negb (bool_decide (rm_destination_session_id (rr_message row) = session_id))
             || negb (bool_decide (rm_destination_branch_id (rr_message row) = branch_id))
          then Ok false
          else check_related_claims session_id branch_id turn_id pairs db
      end
  end.

(** [claim_related_messages_for_active_turn] *)
Definition claim_related_messages_for_active_turn (session_id : SessionId)
    (branch_id : BranchId) (turn_id : TurnId) (message_ids : list RelatedSessionMessageId)
    (events : list EventEnvelope) : Db -> Result ContinuationClaim * Db :=
  transaction (
    _ ← tx_lift (reject_if
          (bool_decide (message_ids = []) || negb (length message_ids =? length events)%nat)
          (InvalidState
             "active-turn related-message claim requires one resolution event per message"));
    _ ← tx_lift (reject_if (negb (bool_decide (NoDup message_ids)))
          (InvalidState "active-turn related-message claim contains duplicate message ids"));
    owns ← query (owns_active_turn session_id branch_id turn_id);
    if negb owns then mret ClaimBusy else
    claimable ← query_result
      (check_related_claims session_id branch_id turn_id (zip message_ids events));
    if negb claimable then mret ClaimStale else
    seq_ids ← append_events_in_tx events;
    mret (ClaimClaimed seq_ids)).

(** ** Raw chunks *)

(** [append_raw_chunk_in_tx] and the inserts like it; [AUTOINCREMENT] does not
    reuse an id. *)
Definition insert_raw_chunk (now : OffsetDateTime) (session_id : SessionId)
    (branch_id : BranchId) (turn_id : option TurnId) (llm_call_ordinal : option Z)
    (event_id : option string) (provider stream_name content : string) : Tx Z :=
  received_at ← time now;
  db ← tx_get;
  if I64_MAX <=? db_last_chunk db then storage_error else
  let chunk_id := db_last_chunk db + 1 in
  _ ← tx_modify (set_raw_chunks
    (<[chunk_id := MkRawChunkRow session_id (Some branch_id) turn_id llm_call_ordinal event_id
                     provider stream_name content received_at]> (db_raw_chunks db)) chunk_id);
  mret chunk_id.

(** [UPDATE raw_chunks SET event_id = ? WHERE chunk_id = ?] *)
Definition link_raw_chunk (chunk_id : Z) (event : EventEnvelope) : Tx unit :=
  tx_modify (fun db => set_raw_chunks
    (alter (fun row => MkRawChunkRow (rc_session_id row) (rc_branch_id row) (rc_turn_id row)
       (rc_llm_call_ordinal row) (Some (show_uuid (uuid (ev_event_id event)))) (rc_provider row)
       (rc_stream_name row) (rc_content row) (rc_received_at row)) chunk_id (db_raw_chunks db))
    (db_last_chunk db) db).

Definition ensure_chunk_owner (session_id : SessionId) (branch_id : BranchId)
    (turn_id : option TurnId) : Tx unit :=
  match turn_id with
  | Some turn_id => ensure_active_turn_owner_in_tx session_id branch_id turn_id
  | None => mret tt
  end.

(** [append_raw_chunk] *)
Definition append_raw_chunk (now : OffsetDateTime) (session_id : SessionId)
    (branch_id : BranchId) (turn_id : option TurnId) (llm_call_ordinal : option Z)
    (event_id : option string) (provider stream_name content : string) : Db -> Result Z * Db :=
  transaction (
    _ ← ensure_chunk_owner session_id branch_id turn_id;
    insert_raw_chunk now session_id branch_id turn_id llm_call_ordinal event_id provider
      stream_name content).

(** [append_raw_chunk_with_event] *)
Definition append_raw_chunk_with_event (now : OffsetDateTime) (session_id : SessionId)
    (branch_id : BranchId) (turn_id : option TurnId) (llm_call_ordinal : option Z)
    (provider stream_name content : string) (build_event : Z -> Result EventEnvelope)
    : Db -> Result (Z * EventEnvelope * Z) * Db :=
  transaction (
    _ ← ensure_chunk_owner session_id branch_id turn_id;
    chunk_id ← insert_raw_chunk now session_id branch_id turn_id llm_call_ordinal None provider
      stream_name content;
    event ← tx_lift (build_event chunk_id);
    _ ← link_raw_chunk chunk_id event;
    seq_id ← append_event_in_tx event;
    mret (chunk_id, event, seq_id)).

Definition with_seq_id (event : EventEnvelope) (seq_id : Z) : EventEnvelope :=
  MkEventEnvelope (Some seq_id) (ev_event_id event) (ev_session_id event) (ev_branch_id event)
    (ev_turn_id event) (ev_span_id event) (ev_parent_span_id event) (ev_span_kind event)
    (ev_occurred_at event) (ev_payload event) (ev_attributes event).

(** [append_live_completion_chunk] *)
Definition append_live_completion_chunk (now : OffsetDateTime) (session_id : SessionId)
    (branch_id : BranchId) (turn_id : option TurnId) (llm_call_ordinal : option Z)
    (provider stream_name : string) (raw_content : option string)
    (build_raw_event : Z -> Result EventEnvelope)
    (build_chunk_event : option Z -> Result EventEnvelope)
    : Db -> Result (option Z * list EventEnvelope) * Db :=
  transaction (
    _ ← ensure_chunk_owner session_id branch_id turn_id;
    raw ← (match raw_content with
      | None => mret (None, [])
      | Some content =>
          chunk_id ← insert_raw_chunk now session_id branch_id turn_id llm_call_ordinal None
            provider stream_name content;
          raw_event ← tx_lift (build_raw_event chunk_id);
          _ ← link_raw_chunk chunk_id raw_event;
          seq_id ← append_event_in_tx raw_event;
          mret (Some chunk_id, [with_seq_id raw_event seq_id])
      end);
    chunk_event ← tx_lift (build_chunk_event raw.1);
    seq_id ← append_event_in_tx chunk_event;
    mret (raw.1, raw.2 ++ [with_seq_id chunk_event seq_id])).

Record RawChunkInsert : Type := MkRawChunkInsert {
  ri_received_at : OffsetDateTime;
  ri_session_id : SessionId;
  ri_branch_id : BranchId;
  ri_turn_id : option TurnId;
  ri_llm_call_ordinal : option Z;
  ri_event_id : option string;
  ri_provider : string;
  ri_stream_name : string;
  ri_content : string;
}.

(** [append_raw_chunk_in_tx]; the clock's reading is part of the chunk. *)
Definition append_raw_chunk_in_tx (chunk : RawChunkInsert) : Tx Z :=
  insert_raw_chunk (ri_received_at chunk) (ri_session_id chunk) (ri_branch_id chunk)
    (ri_turn_id chunk) (ri_llm_call_ordinal chunk) (ri_event_id chunk) (ri_provider chunk)
    (ri_stream_name chunk) (ri_content chunk).

(** [import_session_with_raw_chunks_and_events] *)
Definition import_session_with_raw_chunks_and_events (session : SessionRecord)
    (branches : list BranchRecord) (raw_chunks : list RawChunkInsert)
    (build_events : list Z -> Result (list EventEnvelope))
    : Db -> Result (list Z * list Z) * Db :=
  transaction (
    _ ← insert_session_in_tx session;
    _ ← insert_session_settings_revision_in_tx session;
    _ ← tx_map insert_branch_in_tx branches;
    raw_chunk_ids ← tx_map append_raw_chunk_in_tx raw_chunks;
    events ← tx_lift (build_events raw_chunk_ids);
    seq_ids ← append_events_in_tx events;
    mret (raw_chunk_ids, seq_ids)).

(** ** Updates of a row *)

(** [update_session_parent] *)
Definition set_session_parent (now : OffsetDateTime) (session_id parent_session_id : SessionId)
    (parent_branch_id : BranchId) (parent_turn_id : option TurnId) : Tx unit :=
  updated_at ← time now;
  tx_modify (fun db => set_sessions
    (alter (fun row => MkSessionRow (sr_project_root row) (sr_connection_id row)
       (sr_model_id row) (sr_tool_mode row) (sr_settings_revision_id row) (sr_created_at row)
       updated_at (sr_status row) (sr_display_name row) (sr_objective row)
       (Some parent_session_id) (Some parent_branch_id) parent_turn_id)
       session_id (db_sessions db)) db).

Definition update_session_parent (now : OffsetDateTime) (session_id parent_session_id : SessionId)
    (parent_branch_id : BranchId) (parent_turn_id : option TurnId) : Db -> Result unit * Db :=
  transaction (set_session_parent now session_id parent_session_id parent_branch_id parent_turn_id).

(** [update_branch_summary] *)
Definition set_branch_summary (branch_id : BranchId) (summary : option string) : Tx unit :=
  tx_modify (fun db => set_branches
    (alter (fun row => MkBranchRow (bw_session_id row) (bw_parent_branch_id row)
       (bw_parent_event_id row) (bw_head_event_id row) summary (bw_created_at row)
       (bw_is_default row)) branch_id (db_branches db)) db).

Definition update_branch_summary (branch_id : BranchId) (summary : option string)
    : Db -> Result unit * Db :=
  transaction (set_branch_summary branch_id summary).
End related.
