(* ===== verification/StoreLaws.v ===== *)
(** * Laws of the store's transactions

    What a committed append does to every table, the operations of
    [StoreOps] as values, and the rule that a property of the database kept
    by the primitive writes is kept by every operation. *)

From stdpp Require Import base list strings gmap sorting.
From Stdlib Require Import ZArith Lia.
From S2P Require Import Prelude Text Json Types TurnProjection Store StoreOps StoreRelated.

#[local] Open Scope Z_scope.

(** ** Running a transaction *)

Lemma tx_bind_Ok {A B} (m : Tx A) (k : A -> Tx B) db b db' :
  (m ≫= k) db = Ok (b, db') <-> exists a db1, m db = Ok (a, db1) /\ k a db1 = Ok (b, db').
Proof.
  unfold mbind, tx_bind. destruct (m db) as [[a db1]|e]; split.
  - intros H. by exists a, db1.
  - by intros (a' & db1' & [= <- <-] & H).
  - done.
  - by intros (a' & db1' & H & _).
Qed.

Lemma tx_lift_Ok {A} (r : Result A) db a db' : tx_lift r db = Ok (a, db') <-> r = Ok a /\ db' = db.
Proof. unfold tx_lift. destruct r; simpl; naive_solver. Qed.

Lemma tx_get_Ok db d db' : tx_get db = Ok (d, db') <-> d = db /\ db' = db.
Proof. unfold tx_get. naive_solver. Qed.

Lemma query_Ok {A} (f : Db -> A) db a db' : query f db = Ok (a, db') <-> a = f db /\ db' = db.
Proof. unfold query. naive_solver. Qed.

Lemma tx_modify_Ok f db u db' : tx_modify f db = Ok (u, db') <-> db' = f db.
Proof. unfold tx_modify. destruct u. naive_solver. Qed.

Lemma tx_ret_Ok {A} (a b : A) (db db' : Db) :
  (mret a : Tx A) db = Ok (b, db') <-> b = a /\ db' = db.
Proof. unfold mret, tx_ret. naive_solver. Qed.

Lemma tx_fail_Ok {A} e db (a : A) db' : tx_fail e db = Ok (a, db') <-> False.
Proof. unfold tx_fail. naive_solver. Qed.

Lemma storage_error_Ok `{codec : RowCodec} {A} db (a : A) db' :
  storage_error db = Ok (a, db') <-> False.
Proof. apply tx_fail_Ok. Qed.

Lemma time_Ok `{codec : RowCodec} t db s db' :
  time t db = Ok (s, db') <-> format_time t = Some s /\ db' = db.
Proof. unfold time. by rewrite tx_lift_Ok, ok_or_Ok. Qed.

Lemma bind_u64_Ok `{codec : RowCodec} z db a db' :
  bind_u64 z db = Ok (a, db') <-> z <= I64_MAX /\ a = z /\ db' = db.
Proof.
  unfold bind_u64. destruct (Z.leb_spec z I64_MAX); rewrite ?tx_ret_Ok, ?storage_error_Ok;
    [naive_solver|]. split; [done|lia].
Qed.

(** Takes a committed transaction apart, statement by statement. *)
Ltac invert_tx :=
  repeat match goal with
  | H : (mbind _ _) _ = Ok (_, _) |- _ =>
      let a := fresh "a" in let d := fresh "d" in let H1 := fresh "Htx" in
      apply tx_bind_Ok in H as (a & d & H1 & H)
  | H : tx_lift _ _ = Ok (_, _) |- _ => apply tx_lift_Ok in H as [H ->]
  | H : tx_get _ = Ok (_, _) |- _ => apply tx_get_Ok in H as [-> ->]
  | H : query _ _ = Ok (_, _) |- _ => apply query_Ok in H as [-> ->]
  | H : tx_modify _ _ = Ok (_, _) |- _ => apply tx_modify_Ok in H; subst
  | H : (mret _ : Tx _) _ = Ok (_, _) |- _ => apply tx_ret_Ok in H as [-> ->]
  | H : tx_ret _ _ _ = Ok (_, _) |- _ => apply tx_ret_Ok in H as [-> ->]
  | H : tx_fail _ _ = Ok (_, _) |- _ => by apply tx_fail_Ok in H
  | H : storage_error _ = Ok (_, _) |- _ => by apply storage_error_Ok in H
  | H : time _ _ = Ok (_, _) |- _ => apply time_Ok in H as [H ->]
  | H : bind_u64 _ _ = Ok (_, _) |- _ => apply bind_u64_Ok in H as (H & -> & ->)
  | H : ok_or _ _ = Ok _ |- _ => apply ok_or_Ok in H
  | H : reject_if _ _ = Ok _ |- _ => apply reject_if_Ok in H
  end.

(** Two readings of one partial value agree. *)
Ltac same_value :=
  repeat match goal with
  | H1 : ?x = Some ?a, H2 : ?x = Some ?b |- _ =>
      assert (a = b) by congruence; subst; clear H2
  end.

(** A failed transaction leaves the database as it was. *)
Lemma transaction_Err {A} (body : Tx A) db e db' :
  transaction body db = (Err e, db') -> db' = db.
Proof. unfold transaction. destruct (body db) as [[]|]; naive_solver. Qed.

Lemma transaction_Ok {A} (body : Tx A) db a db' :
  transaction body db = (Ok a, db') <-> body db = Ok (a, db').
Proof. unfold transaction. destruct (body db) as [[]|]; naive_solver. Qed.

(** ** What an append does *)

Section append.
Context `{codec : RowCodec}.

(** The database after the statements every event runs. *)
Definition touched (event : EventEnvelope) (seq_id : Z) (now : string) (turns : TurnTable)
    (db : Db) : Db :=
  set_turns turns
   (set_sessions (alter (touch_session now) (ev_session_id event) (db_sessions db))
    (set_branches
      (alter (fun row => MkBranchRow (bw_session_id row) (bw_parent_branch_id row)
         (bw_parent_event_id row) (Some (ev_event_id event)) (bw_summary row)
         (bw_created_at row) (bw_is_default row)) (ev_branch_id event) (db_branches db))
     (set_branch_heads
       (<[ev_branch_id event :=
           MkBranchHeadRow
             match db_branch_heads db !! ev_branch_id event with
             | Some row => bh_session_id row | None => ev_session_id event end
             seq_id now]> (db_branch_heads db))
      (set_log (db_events db ++ [(seq_id, event)]) seq_id db)))).

(** What [insert_event] demands. *)
Record admissible (event : EventEnvelope) (db : Db) : Prop := {
  adm_fresh : event_id_taken db (ev_event_id event) = false;
  adm_session : is_Some (db_sessions db !! ev_session_id event);
  adm_branch : is_Some (db_branches db !! ev_branch_id event);
  adm_room : db_last_seq db < I64_MAX;
  adm_time : is_Some (format_time (ev_occurred_at event));
}.

Lemma insert_event_Ok event db seq_id db' :
  insert_event event db = Ok (seq_id, db') ->
  admissible event db /\ seq_id = db_last_seq db + 1
  /\ db' = set_log (db_events db ++ [(seq_id, event)]) seq_id db.
Proof.
  unfold insert_event. intros H. invert_tx.
  destruct (_ || _ || _ || _) eqn:E; invert_tx.
  rewrite !orb_false_iff, !negb_false_iff, !bool_decide_eq_true, Z.leb_gt in E.
  destruct E as [[[]]]. split; [split; eauto|done].
Qed.

Lemma append_event_Ok event db seq_id db' :
  append_event_in_tx event db = Ok (seq_id, db') ->
  admissible event db /\ seq_id = db_last_seq db + 1
  /\ exists now turns,
       format_time (ev_occurred_at event) = Some now
       /\ refresh_turn_projection (db_turns db) event seq_id = Ok turns
       /\ refresh_payload event seq_id (touched event seq_id now turns db) = Ok (tt, db').
Proof.
  unfold append_event_in_tx, refresh_projections. intros H. invert_tx.
  apply insert_event_Ok in Htx as (Hadm & -> & ->). split; [done|]. split; [done|].
  unfold refresh_branch_head, refresh_branch_event, refresh_session_event, refresh_turn in *.
  invert_tx. simpl in *. same_value. destruct a0. eauto 6.
Qed.

(** ** One payload, one table *)

Lemma steers_resolved_Ok event ids outcome db u db' :
  refresh_steers_resolved event ids outcome db = Ok (u, db') -> exists t, db' = set_steers t db.
Proof.
  unfold refresh_steers_resolved. revert db; induction ids as [|id ids IH]; simpl; intros db H.
  - invert_tx. exists (db_steers db). by destruct db.
  - invert_tx. apply IH in H as [t ->]. by exists t.
Qed.
End append.

(** The cases of a successful [refresh_payload], by payload and by branch. *)
Ltac payload_cases H :=
  unfold refresh_payload in H;
  destruct (ev_payload _) eqn:?;
  unfold refresh_message, refresh_related_recorded, refresh_related_resolved,
    refresh_related_settled, refresh_turn_started, refresh_turn_finished, refresh_manifest,
    refresh_approval_requested, refresh_approval_resolved, refresh_tool_requested,
    refresh_tool_finished, refresh_plan, refresh_settings, refresh_queued,
    refresh_queue_resolved, refresh_cost_summary_projection,
    refresh_budget_projection_from_config, refresh_budget_projection_from_checkpoint,
    set_cancel_requested, refresh_steered, refresh_branch_summary, refresh_session_ended in H;
  try (apply steers_resolved_Ok in H as [? ->]);
  invert_tx;
  repeat (case_match; invert_tx); subst.

Section effects.
Context `{codec : RowCodec}.

Lemma payload_frame event seq_id db u db' :
  refresh_payload event seq_id db = Ok (u, db') ->
  db_events db' = db_events db /\ db_last_seq db' = db_last_seq db
  /\ db_branch_heads db' = db_branch_heads db /\ db_turns db' = db_turns db.
Proof. intros H. payload_cases H; done. Qed.

(** The identity of sessions and branches outlives every refresh. *)
Lemma payload_sessions event seq_id db u db' s :
  refresh_payload event seq_id db = Ok (u, db') ->
  is_Some (db_sessions db !! s) -> is_Some (db_sessions db' !! s).
Proof.
  intros H. payload_cases H; try done; simpl; rewrite lookup_alter_is_Some; done.
Qed.

Lemma payload_branches event seq_id db u db' b row :
  refresh_payload event seq_id db = Ok (u, db') ->
  db_branches db !! b = Some row ->
  exists row', db_branches db' !! b = Some row' /\ bw_session_id row' = bw_session_id row.
Proof.
  intros H Hb. payload_cases H; simpl; eauto.
  match goal with |- context [alter _ ?k _ !! _] => destruct (decide (b = k)) as [->|] end.
  - rewrite lookup_alter_eq, Hb. simpl. eauto.
  - rewrite lookup_alter_ne by done. eauto.
Qed.

(** An append adds one row to the log. *)
Lemma append_log event db seq_id db' :
  append_event_in_tx event db = Ok (seq_id, db') ->
  admissible event db /\ seq_id = db_last_seq db + 1
  /\ db_events db' = db_events db ++ [(seq_id, event)] /\ db_last_seq db' = seq_id
  /\ refresh_turn_projection (db_turns db) event seq_id = Ok (db_turns db').
Proof.
  intros (Hadm & -> & now & turns & _ & Ht & H)%append_event_Ok.
  apply payload_frame in H as (-> & -> & _ & ->). done.
Qed.

Lemma append_sessions event db seq_id db' s :
  append_event_in_tx event db = Ok (seq_id, db') ->
  is_Some (db_sessions db !! s) -> is_Some (db_sessions db' !! s).
Proof.
  intros (_ & _ & now & turns & _ & _ & H)%append_event_Ok Hs.
  eapply payload_sessions; [done|]. simpl. by rewrite lookup_alter_is_Some.
Qed.

Lemma append_branches event db seq_id db' b row :
  append_event_in_tx event db = Ok (seq_id, db') -> db_branches db !! b = Some row ->
  exists row', db_branches db' !! b = Some row' /\ bw_session_id row' = bw_session_id row.
Proof.
  intros (_ & _ & now & turns & _ & _ & H)%append_event_Ok Hb.
  assert (exists row', db_branches (touched event (db_last_seq db + 1) now turns db) !! b
            = Some row' /\ bw_session_id row' = bw_session_id row) as (row' & Hb' & <-).
  { simpl. destruct (decide (b = ev_branch_id event)) as [->|].
    - rewrite lookup_alter_eq, Hb. simpl. eauto.
    - rewrite lookup_alter_ne by done. eauto. }
  by eapply payload_branches in H.
Qed.
End effects.

(** ** The operations *)

(** A call of the store: its arguments. *)
Inductive StoreOp : Type :=
  | OpCreateSession (session : SessionRecord) (branch : BranchRecord)
  | OpCreateBranch (branch : BranchRecord)
  | OpSetDefaultBranch (session_id : SessionId) (branch_id : BranchId)
  | OpSetDefaultBranchWithEvent (session_id : SessionId) (branch_id : BranchId)
      (event : EventEnvelope)
  | OpCreateBranchWithEvent (branch : BranchRecord) (event : EventEnvelope)
  | OpAppend (event : EventEnvelope)
  | OpAppendMany (events : list EventEnvelope)
  | OpActiveTurnEvents (session_id : SessionId) (branch_id : BranchId) (turn_id : TurnId)
      (events : list EventEnvelope)
  | OpTurnTerminal (session_id : SessionId) (branch_id : BranchId) (turn_id : TurnId)
      (events : list EventEnvelope)
  | OpBudgetCheckpoint (checkpoint cancellation : EventEnvelope)
      (terminal_events : list EventEnvelope) (require_terminal_finish : bool)
  | OpBudgetConfiguration (configuration cancellation : EventEnvelope)
  | OpSettingsUpdate (event_id : EventId) (span_id : SpanId) (now : OffsetDateTime)
      (session_id : SessionId) (branch_id : BranchId) (connection_id : option ConnectionId)
      (model_id : option (option string)) (tool_mode : option SessionToolMode)
  | OpAdmit (session_id : SessionId) (expected_settings_revision_id : Z)
      (cancel_clear_event : EventEnvelope) (started_events queued_events : list EventEnvelope)
  | OpClaimQueued (session_id : SessionId) (queue_event_id : EventId)
      (events : list EventEnvelope)
  | OpClaimSteer (session_id : SessionId) (branch_id : BranchId)
      (steer_event_ids : list EventId) (events : list EventEnvelope)
  | OpClaimResumed (session_id : SessionId) (branch_id : BranchId) (call_id : ToolCallId)
      (tool_name : string) (expected_turn_id : TurnId)
      (expected_request_seq_id expected_settings_revision_id : Z)
      (kind : ResumedContinuationKind) (events : list EventEnvelope)
  | OpSpawnChild (child_session : SessionRecord) (child_branch : BranchRecord)
      (spawn_requested child_started child_handoff spawn_completed : EventEnvelope)
      (initial_message : option (EventEnvelope * EventEnvelope))
  | OpRelatedMessage (sent received : EventEnvelope)
  | OpSettleRelated (obligation_message_id : RelatedSessionMessageId)
      (reply_sent reply_received settlement_event : EventEnvelope)
  | OpClaimRelated (session_id : SessionId) (message_id : RelatedSessionMessageId)
      (expected_settings_revision_id : Z) (events : list EventEnvelope)
  | OpClaimRelatedActive (session_id : SessionId) (branch_id : BranchId) (turn_id : TurnId)
      (message_ids : list RelatedSessionMessageId) (events : list EventEnvelope)
  | OpRawChunk (now : OffsetDateTime) (session_id : SessionId) (branch_id : BranchId)
      (turn_id : option TurnId) (llm_call_ordinal : option Z) (event_id : option string)
      (provider stream_name content : string)
  | OpRawChunkWithEvent (now : OffsetDateTime) (session_id : SessionId) (branch_id : BranchId)
      (turn_id : option TurnId) (llm_call_ordinal : option Z)
      (provider stream_name content : string) (build_event : Z -> Result EventEnvelope)
  | OpLiveChunk (now : OffsetDateTime) (session_id : SessionId) (branch_id : BranchId)
      (turn_id : option TurnId) (llm_call_ordinal : option Z) (provider stream_name : string)
      (raw_content : option string) (build_raw_event : Z -> Result EventEnvelope)
      (build_chunk_event : option Z -> Result EventEnvelope)
  | OpImport (session : SessionRecord) (branches : list BranchRecord)
      (raw_chunks : list RawChunkInsert)
      (build_events : list Z -> Result (list EventEnvelope))
  | OpUpdateParent (now : OffsetDateTime) (session_id parent_session_id : SessionId)
      (parent_branch_id : BranchId) (parent_turn_id : option TurnId)
  | OpBranchSummary (branch_id : BranchId) (summary : option string).

Section operations.
Context `{codec : RowCodec}.

(** The database after a call, whatever it returned. *)
Definition run_op (op : StoreOp) (db : Db) : Db :=
  match op with
  | OpCreateSession session branch => (create_session session branch db).2
  | OpCreateBranch branch => (create_branch branch db).2
  | OpSetDefaultBranch s b => (set_default_branch s b db).2
  | OpSetDefaultBranchWithEvent s b event => (set_default_branch_with_event s b event db).2
  | OpCreateBranchWithEvent branch event =>
      (create_branch_with_event_and_default branch event db).2
  | OpAppend event => (append_event event db).2
  | OpAppendMany events => (append_events events db).2
  | OpActiveTurnEvents s b t events => (commit_active_turn_events s b t events db).2
  | OpTurnTerminal s b t events => (commit_turn_terminal_transition s b t events db).2
  | OpBudgetCheckpoint c x events finish =>
      (commit_budget_checkpoint_transition c x events finish db).2
  | OpBudgetConfiguration c x => (commit_budget_configuration c x db).2
  | OpSettingsUpdate e x n s b c m t =>
      (commit_session_settings_update e x n s b c m t db).2
  | OpAdmit s r c started queued => (admit_turn_or_queue s r c started queued db).2
  | OpClaimQueued s q events => (claim_queued_continuation s q events db).2
  | OpClaimSteer s b ids events => (claim_steer_continuation s b ids events db).2
  | OpClaimResumed s b c n t q r k events =>
      (claim_resumed_continuation s b c n t q r k events db).2
  | OpSpawnChild c b e1 e2 e3 e4 m =>
      (commit_child_session_spawn_transition c b e1 e2 e3 e4 m db).2
  | OpRelatedMessage sent received => (commit_related_session_message sent received db).2
  | OpSettleRelated o sent received settled =>
      (settle_related_session_message o sent received settled db).2
  | OpClaimRelated s m r events => (claim_related_message_continuation s m r events db).2
  | OpClaimRelatedActive s b t ids events =>
      (claim_related_messages_for_active_turn s b t ids events db).2
  | OpRawChunk n s b t o e p x c => (append_raw_chunk n s b t o e p x c db).2
  | OpRawChunkWithEvent n s b t o p x c f => (append_raw_chunk_with_event n s b t o p x c f db).2
  | OpLiveChunk n s b t o p x c f g => (append_live_completion_chunk n s b t o p x c f g db).2
  | OpImport session branches chunks f =>
      (import_session_with_raw_chunks_and_events session branches chunks f db).2
  | OpUpdateParent n s p b t => (update_session_parent n s p b t db).2
  | OpBranchSummary b summary => (update_branch_summary b summary db).2
  end.

(** A history of the store: calls one after the other, the connection being
    behind a mutex. *)
Definition run_ops (ops : list StoreOp) (db : Db) : Db := fold_left (fun db op => run_op op db) ops db.

(** What the writes to [sessions], [branches], [raw_chunks] and the first
    settings revision leave alone. *)
Record structural (db db' : Db) : Prop := {
  st_events : db_events db' = db_events db;
  st_seq : db_last_seq db' = db_last_seq db;
  st_messages : db_messages db' = db_messages db;
  st_related : db_related db' = db_related db;
  st_active : db_active_turns db' = db_active_turns db;
  st_turns : db_turns db' = db_turns db;
  st_approvals : db_approvals db' = db_approvals db;
  st_tool_runs : db_tool_runs db' = db_tool_runs db;
  st_queued : db_queued db' = db_queued db;
  st_steers : db_steers db' = db_steers db;
  st_costs : db_costs db' = db_costs db;
  st_budgets : db_budgets db' = db_budgets db;
  st_control : db_control db' = db_control db;
  st_sessions s row : db_sessions db !! s = Some row ->
    exists row', db_sessions db' !! s = Some row'
      /\ sr_settings_revision_id row' = sr_settings_revision_id row;
  st_settings : db_settings db ⊆ db_settings db';
  st_branches b row : db_branches db !! b = Some row ->
    exists row', db_branches db' !! b = Some row' /\ bw_session_id row' = bw_session_id row;
}.

(** ** Relations every operation respects *)

Definition keeps (R : Db -> Db -> Prop) {A} (m : Tx A) : Prop :=
  forall db a db', m db = Ok (a, db') -> R db db'.

Section keeps.
Context (R : Db -> Db -> Prop) `{!PreOrder R}.

Lemma keeps_ret {A} (a : A) : keeps R (mret a : Tx A).
Proof. intros db b db' [_ ->]%tx_ret_Ok. done. Qed.

Lemma keeps_bind {A B} (m : Tx A) (k : A -> Tx B) :
  keeps R m -> (forall a, keeps R (k a)) -> keeps R (m ≫= k).
Proof. intros Hm Hk db b db' (a & db1 & H1 & H2)%tx_bind_Ok. etrans; [by eapply Hm|by eapply Hk]. Qed.

Lemma keeps_lift {A} (r : Result A) : keeps R (tx_lift r).
Proof. intros db b db' [_ ->]%tx_lift_Ok. done. Qed.

Lemma keeps_get : keeps R tx_get.
Proof. intros db b db' [_ ->]%tx_get_Ok. done. Qed.

Lemma keeps_query {A} (f : Db -> A) : keeps R (query f).
Proof. intros db b db' [_ ->]%query_Ok. done. Qed.

Lemma keeps_fail {A} e : keeps R (tx_fail e : Tx A).
Proof. intros db b db' []%tx_fail_Ok. Qed.

Lemma keeps_map {A B} (f : A -> Tx B) l : (forall a, keeps R (f a)) -> keeps R (tx_map f l).
Proof.
  intros Hf. induction l as [|a l IH]; simpl; [apply keeps_ret|].
  apply keeps_bind; [apply Hf|intros b]. apply keeps_bind; [apply IH|intros bs]. apply keeps_ret.
Qed.

Lemma keeps_transaction {A} (m : Tx A) db : keeps R m -> R db (transaction m db).2.
Proof.
  intros Hm. unfold transaction. destruct (m db) as [[a db']|] eqn:E; simpl; [by eapply Hm|done].
Qed.
End keeps.
End operations.

(** [keeps] goals by the shape of the transaction. *)
Ltac keeps_step :=
  match goal with
  | |- keeps _ (_ ≫= _) => apply (keeps_bind _); [|intros ?]
  | |- keeps _ (mret _) => apply (keeps_ret _)
  | |- keeps _ (tx_lift _) => apply (keeps_lift _)
  | |- keeps _ tx_get => apply (keeps_get _)
  | |- keeps _ (query _) => apply (keeps_query _)
  | |- keeps _ (tx_fail _) => apply (keeps_fail _)
  | |- keeps _ (tx_map _ _) => apply (keeps_map _); intros ?
  | |- keeps _ (if ?b then _ else _) => destruct b
  | |- keeps _ (match ?x with _ => _ end) => destruct x
  | |- keeps _ (let _ := _ in _) => cbv zeta
  end.

Section kept.
Context `{codec : RowCodec}.

Lemma structural_sessions t db :
  (forall s row, db_sessions db !! s = Some row ->
     exists row', t !! s = Some row'
       /\ sr_settings_revision_id row' = sr_settings_revision_id row) ->
  structural db (set_sessions t db).
Proof. intros H. split; try done; simpl; eauto. Qed.

Lemma structural_chunks t n db : structural db (set_raw_chunks t n db).
Proof. split; try done; simpl; eauto. Qed.

Lemma structural_settings t db : db_settings db ⊆ t -> structural db (set_settings t db).
Proof. intros H. split; try done; simpl; eauto. Qed.

Lemma structural_branches t db :
  (forall b row, db_branches db !! b = Some row ->
     exists row', t !! b = Some row' /\ bw_session_id row' = bw_session_id row) ->
  structural db (set_branches t db).
Proof. intros H. split; try done; simpl; eauto. Qed.

Lemma insert_session_structural session : keeps structural (insert_session_in_tx session).
Proof.
  intros db u db' H. unfold insert_session_in_tx in H. invert_tx.
  destruct (_ !! _) eqn:E; invert_tx. apply structural_sessions.
  intros s row Hs. exists row. rewrite lookup_insert_ne by congruence. done.
Qed.

Lemma insert_settings_structural session :
  keeps structural (insert_session_settings_revision_in_tx session).
Proof.
  intros db u db' H. unfold insert_session_settings_revision_in_tx in H. invert_tx.
  destruct (_ !! _) eqn:E; invert_tx. apply structural_settings. by apply insert_subseteq.
Qed.

Lemma insert_branch_structural branch : keeps structural (insert_branch_in_tx branch).
Proof.
  intros db u db' H. unfold insert_branch_in_tx in H. invert_tx.
  destruct (_ || _) eqn:E; invert_tx.
  apply orb_false_iff in E as [E _]. apply bool_decide_eq_false in E.
  apply structural_branches. intros b row Hb. exists row.
  rewrite lookup_insert_ne; [done|]. intros <-. destruct E. eauto.
Qed.

Lemma set_default_structural s b : keeps structural (set_default_branch_in_tx s b).
Proof.
  intros db u db' H. unfold set_default_branch_in_tx in H. invert_tx.
  apply structural_branches. intros b' row Hb. rewrite map_lookup_imap, Hb. simpl.
  case_bool_decide; eauto.
Qed.

Lemma set_parent_structural now s p b t : keeps structural (set_session_parent now s p b t).
Proof.
  intros db u db' H. unfold set_session_parent in H. invert_tx.
  apply structural_sessions. intros s' row Hs. destruct (decide (s' = s)) as [->|].
  - rewrite lookup_alter_eq, Hs. simpl. eauto.
  - rewrite lookup_alter_ne by done. eauto.
Qed.

Lemma set_summary_structural b summary : keeps structural (set_branch_summary b summary).
Proof.
  intros db u db' H. unfold set_branch_summary in H. invert_tx.
  apply structural_branches. intros b' row Hb. destruct (decide (b' = b)) as [->|].
  - rewrite lookup_alter_eq, Hb. simpl. eauto.
  - rewrite lookup_alter_ne by done. eauto.
Qed.

Lemma insert_chunk_structural now s b t o e p x c :
  keeps structural (insert_raw_chunk now s b t o e p x c).
Proof.
  intros db u db' H. unfold insert_raw_chunk in H. invert_tx.
  destruct (_ <=? _); invert_tx. apply structural_chunks.
Qed.

Lemma link_chunk_structural c event : keeps structural (link_raw_chunk c event).
Proof. intros db u db' H. unfold link_raw_chunk in H. invert_tx. apply structural_chunks. Qed.

(** The parents of the stored sessions. *)
Definition tree (db : Db) : gmap SessionId (option SessionId) :=
  sr_parent_session_id <$> db_sessions db.

(** A structural write that leaves the sessions' parents alone. *)
Definition treewise (db db' : Db) : Prop := structural db db' /\ tree db' = tree db.

(** The session a call inserts. *)
Definition op_creates (op : StoreOp) : option SessionRecord :=
  match op with
  | OpCreateSession session _ | OpSpawnChild session _ _ _ _ _ _ | OpImport session _ _ _ =>
      Some session
  | _ => None
  end.

Definition reparents (op : StoreOp) : bool :=
  match op with OpUpdateParent _ _ _ _ _ => true | _ => false end.

Lemma keeps_weaken (R R' : Db -> Db -> Prop) {A} (m : Tx A) :
  (forall db db', R db db' -> R' db db') -> keeps R m -> keeps R' m.
Proof. intros HR Hm db a db' H. by eapply HR, Hm. Qed.

Lemma treewise_writes :
  (forall session, keeps treewise (insert_session_settings_revision_in_tx session))
  /\ (forall branch, keeps treewise (insert_branch_in_tx branch))
  /\ (forall s b, keeps treewise (set_default_branch_in_tx s b))
  /\ (forall b x, keeps treewise (set_branch_summary b x))
  /\ (forall n s b t o e p x c, keeps treewise (insert_raw_chunk n s b t o e p x c))
  /\ (forall c e, keeps treewise (link_raw_chunk c e)).
Proof.
  split_and!; intros; intros db a db' H; split;
    [by eapply insert_settings_structural| |by eapply insert_branch_structural|
    |by eapply set_default_structural| |by eapply set_summary_structural|
    |by eapply insert_chunk_structural| |by eapply link_chunk_structural|];
    unfold insert_session_settings_revision_in_tx, insert_branch_in_tx, set_default_branch_in_tx,
      set_branch_summary, insert_raw_chunk, link_raw_chunk in H;
    invert_tx; repeat (case_match; invert_tx); done.
Qed.

(** A relation that holds across appends, treewise writes, and the session
    writes of a call holds across the call, failed or not. *)
Lemma run_op_keeps_parts (R : Db -> Db -> Prop) (op : StoreOp) :
  PreOrder R ->
  (forall event, keeps R (append_event_in_tx event)) ->
  (forall db db', treewise db db' -> R db db') ->
  (forall session, op_creates op = Some session -> keeps R (insert_session_in_tx session)) ->
  (reparents op = true -> forall n s p b t, keeps R (set_session_parent n s p b t)) ->
  forall db, R db (run_op op db).
Proof.
  intros HR Happ Hstr H1 H5 db. destruct treewise_writes as (H2 & H3 & H4 & H6 & H7 & H8).
  pose proof (fun session => keeps_weaken _ R _ Hstr (H2 session)) as H2'.
  pose proof (fun branch => keeps_weaken _ R _ Hstr (H3 branch)) as H3'.
  pose proof (fun s b => keeps_weaken _ R _ Hstr (H4 s b)) as H4'.
  pose proof (fun b x => keeps_weaken _ R _ Hstr (H6 b x)) as H6'.
  pose proof (fun n s b t o e p x c => keeps_weaken _ R _ Hstr (H7 n s b t o e p x c)) as H7'.
  pose proof (fun c e => keeps_weaken _ R _ Hstr (H8 c e)) as H8'.
  clear H2 H3 H4 H6 H7 H8.
  destruct op; cbn [run_op op_creates reparents] in *;
    try (specialize (H1 _ eq_refl)); try (specialize (H5 eq_refl));
    unfold create_session, create_branch, set_default_branch, set_default_branch_with_event,
      create_branch_with_event_and_default, append_event, append_events,
      commit_active_turn_events, commit_turn_terminal_transition,
      commit_budget_checkpoint_transition, commit_budget_configuration,
      commit_session_settings_update, admit_turn_or_queue, claim_queued_continuation,
      claim_steer_continuation, claim_resumed_continuation, commit_child_session_spawn_transition,
      commit_related_session_message, settle_related_session_message,
      claim_related_message_continuation, claim_related_messages_for_active_turn,
      append_raw_chunk, append_raw_chunk_with_event, append_live_completion_chunk,
      import_session_with_raw_chunks_and_events, update_session_parent, update_branch_summary;
    apply (keeps_transaction R); auto;
    unfold append_events_in_tx, ensure_chunk_owner, ensure_active_turn_owner_in_tx,
      session_budget_exhausted_in_tx, cancel_if, query_result, append_raw_chunk_in_tx;
    repeat (keeps_step || auto).
Qed.

(** A relation that appends and structural writes respect holds across every
    call, failed or not. *)
Lemma run_op_keeps (R : Db -> Db -> Prop) :
  PreOrder R ->
  (forall event, keeps R (append_event_in_tx event)) ->
  (forall db db', structural db db' -> R db db') ->
  forall op db, R db (run_op op db).
Proof.
  intros HR Happ Hstr op. apply run_op_keeps_parts; [done|done|by intros ?? [? _]; auto| |].
  - intros session _. eapply keeps_weaken; [exact Hstr|apply insert_session_structural].
  - intros _ n s p b t. eapply keeps_weaken; [exact Hstr|apply set_parent_structural].
Qed.

Lemma run_ops_keeps (R : Db -> Db -> Prop) :
  PreOrder R ->
  (forall event, keeps R (append_event_in_tx event)) ->
  (forall db db', structural db db' -> R db db') ->
  forall ops db, R db (run_ops ops db).
Proof.
  intros HR Happ Hstr ops. unfold run_ops. induction ops as [|op ops IH]; simpl; intros db; [done|].
  etrans; [by apply (run_op_keeps R)|apply IH].
Qed.

(** ** Reachable databases *)

Definition reachable (db : Db) : Prop := exists ops, db = run_ops ops db_empty.

Lemma reachable_op op db : reachable db -> reachable (run_op op db).
Proof. intros [ops ->]. exists (ops ++ [op]). unfold run_ops. by rewrite fold_left_app. Qed.

(** Induction on the appends behind a reachable database. *)
Lemma reachable_ind (P : Db -> Prop) :
  P db_empty ->
  (forall db db', structural db db' -> P db -> P db') ->
  (forall event db seq_id db', P db -> append_event_in_tx event db = Ok (seq_id, db') -> P db') ->
  forall db, reachable db -> P db.
Proof.
  intros H0 Hs Ha db [ops ->].
  assert (PreOrder (fun db db' => P db -> P db')) as HR.
  { split; [by intros ?|intros x y z; eauto]. }
  apply (run_ops_keeps (fun db db' => P db -> P db')); [done| |by eauto|done].
  intros event db1 seq_id db2 H HP. by eapply Ha.
Qed.
End kept.
