(* ===== verification/StoreReplay.v ===== *)
(** * Rebuilding the projections from the log

    The replays of [migration.rs] and [store.rs] that recompute a projection
    from the event log, against the projections the transactions keep:
    [rebuild_active_turn_projection], [rebuild_tool_and_approval_projections],
    [reproject_session_budget] and [reproject_completion_costs]; and the
    invariants of the log itself. *)

From stdpp Require Import base list strings gmap sorting.
From Stdlib Require Import ZArith Lia SpecFloat.
From S2P Require Import Prelude Text Json Types TurnProjection Store StoreOps StoreLaws.

#[local] Open Scope Z_scope.

(** ** Replays *)

Record ReprojectionReport : Type := MkReprojectionReport {
  events_scanned : Z;
  completion_events_scanned : Z;
  completion_costs_changed : Z;
}.

(** The derived [PartialEq] of [CostBreakdown], with the equality of floats. *)
Definition f64_eqb (a b : f64) : bool := SFeqb a b.
Definition opt_eqb {A} (eqb : A -> A -> bool) (a b : option A) : bool :=
  match a, b with
  | Some a, Some b => eqb a b
  | None, None => true
  | _, _ => false
  end.
Definition cost_eqb (a b : CostBreakdown) : bool :=
  f64_eqb (cb_prompt_usd a) (cb_prompt_usd b)
  && f64_eqb (cb_completion_usd a) (cb_completion_usd b)
  && f64_eqb (cb_total_usd a) (cb_total_usd b)
  && opt_eqb f64_eqb (cb_cache_read_usd a) (cb_cache_read_usd b)
  && opt_eqb f64_eqb (cb_cache_write_usd a) (cb_cache_write_usd b)
  && opt_eqb f64_eqb (cb_reasoning_usd a) (cb_reasoning_usd b).

Abbreviation ActiveTurns := (gmap SessionId ActiveTurnRow).
Abbreviation ApprovalTable := (gmap (SessionId * ToolCallId) ApprovalRow).
Abbreviation ToolRunTable := (gmap (SessionId * ToolCallId) ToolRunRow).

Section replays.
Context `{codec : RowCodec}.

(** [WHERE event_kind IN ('turn.started', 'turn.finished')] *)
Definition is_turn_boundary (event : EventEnvelope) : bool :=
  String.eqb (kind (ev_payload event)) "turn.started"
  || String.eqb (kind (ev_payload event)) "turn.finished".

(** The loop of [rebuild_active_turn_projection]. *)
Definition replay_boundary (active : ActiveTurns) (logged : Z * EventEnvelope)
    : option ActiveTurns :=
  let '(seq_id, event) := logged in
  match ev_payload event with
  | TurnStarted turn_id _ _ _ _ _ _ =>
      started_at ← format_time (ev_occurred_at event);
      Some (<[ev_session_id event :=
                MkActiveTurnRow (ev_branch_id event) turn_id seq_id started_at]> active)
  | TurnFinished turn_id _ _ _ _ _ =>
      Some (if is_some_and (fun row => bool_decide (at_turn_id row = turn_id))
                 (active !! ev_session_id event)
            then delete (ev_session_id event) active else active)
  | _ => Some active
  end.

(** [rebuild_active_turn_projection]: the new contents of the table. *)
Definition rebuild_active_turn_projection (log : list (Z * EventEnvelope))
    : option ActiveTurns :=
  opt_fold replay_boundary ∅ (List.filter (fun logged => is_turn_boundary logged.2) log).

(** The loop of [rebuild_tool_and_approval_projections]. *)
Definition replay_tool_event (tables : ApprovalTable * ToolRunTable)
    (logged : Z * EventEnvelope) : option (ApprovalTable * ToolRunTable) :=
  let '(seq_id, event) := logged in
  let '(approvals, tool_runs) := tables in
  updated_at ← format_time (ev_occurred_at event);
  Some match ev_payload event with
  | ToolApprovalRequested call_id tool_name snapshot =>
      (<[(ev_session_id event, call_id) :=
          MkApprovalRow tool_name "pending" (Some (ev_branch_id event)) (ev_turn_id event)
            (Some seq_id) (sn_request_fingerprint <$> snapshot) snapshot None None updated_at]>
         approvals, tool_runs)
  | ToolApprovalResolved call_id tool_name request_fingerprint resolution decision =>
      let resolved_fingerprint :=
        match resolution with
        | Some resolution => Some (re_request_fingerprint resolution)
        | None => request_fingerprint
        end in
      let inserted := MkApprovalRow tool_name (approval_status decision) None None None
                        resolved_fingerprint None (Some decision) resolution updated_at in
      (<[(ev_session_id event, call_id) :=
          match approvals !! (ev_session_id event, call_id) with
          | None => inserted
          | Some row =>
              MkApprovalRow (aw_tool_name row) (aw_status inserted) (aw_branch_id row)
                (aw_turn_id row) (aw_requested_seq_id row) (aw_request_fingerprint inserted)
                (aw_request_snapshot row) (aw_decision inserted) (aw_resolution inserted)
                (aw_updated_at inserted)
          end]> approvals, tool_runs)
  | ToolCallRequested call_id tool_name arguments =>
      (approvals,
       <[(ev_session_id event, call_id) :=
          MkToolRunRow tool_name "requested" (Some (ev_branch_id event)) (ev_turn_id event)
            (Some seq_id) (Some arguments) None updated_at]> tool_runs)
  | ToolExecutionFinished call_id tool_name result =>
      (approvals,
       <[(ev_session_id event, call_id) :=
          match tool_runs !! (ev_session_id event, call_id) with
          | None => MkToolRunRow tool_name "completed" None None None None (Some result)
                      updated_at
          | Some row => MkToolRunRow (tw_tool_name row) "completed" (tw_branch_id row)
                          (tw_turn_id row) (tw_requested_seq_id row) (tw_arguments row)
                          (Some result) updated_at
          end]> tool_runs)
  | _ => (approvals, tool_runs)
  end.

(** [rebuild_tool_and_approval_projections], into the recreated tables. *)
Definition rebuild_tool_and_approval_projections (log : list (Z * EventEnvelope))
    : option (ApprovalTable * ToolRunTable) :=
  opt_fold replay_tool_event (∅, ∅) log.

(** [event.seq_id = Some(seq_id)] *)
Definition stored_event (logged : Z * EventEnvelope) : Z * EventEnvelope :=
  let '(seq_id, e) := logged in
  (seq_id, MkEventEnvelope (Some seq_id) (ev_event_id e) (ev_session_id e) (ev_branch_id e)
     (ev_turn_id e) (ev_span_id e) (ev_parent_span_id e) (ev_span_kind e) (ev_occurred_at e)
     (ev_payload e) (ev_attributes e)).

Definition in_session (session_id : SessionId) (logged : Z * EventEnvelope) : bool :=
  bool_decide (ev_session_id logged.2 = session_id).

(** [load_session_event_log_from_connection] *)
Definition load_session_event_log (session_id : SessionId) (db : Db)
    : list (Z * EventEnvelope) :=
  map stored_event (List.filter (in_session session_id) (db_events db)).

(** The [match] of [reproject_session_budget]. *)
Definition reproject_budget_event (event : EventEnvelope) : Tx unit :=
  match ev_payload event with
  | BudgetConfigured budget =>
      refresh_budget_projection_from_config (ev_session_id event) (ev_occurred_at event) budget
  | BudgetCheckpoint tokens_used turns_used elapsed_seconds cost_used_usd =>
      refresh_budget_projection_from_checkpoint (ev_session_id event) (ev_occurred_at event)
        tokens_used turns_used elapsed_seconds cost_used_usd
  | _ => mret tt
  end.

(** [reproject_session_budget] *)
Definition reproject_session_budget (session_id : SessionId) : Db -> Result unit * Db :=
  transaction (
    events ← query (load_session_event_log session_id);
    _ ← tx_modify (fun db => set_budgets (delete session_id (db_budgets db)) db);
    tx_iter (fun logged => reproject_budget_event logged.2) events).

Section costs.
(** The [CompletionCostReprojector], a closure with a state of its own. *)
Context {S : Type}
  (reproject_completion_cost : string -> string -> TokenUsage -> option CostBreakdown -> S ->
     Result (option CostBreakdown * S)).

(** The loop body of [reproject_completion_costs]. *)
Definition reproject_cost_event (acc : ReprojectionReport * S) (logged : Z * EventEnvelope)
    : Tx (ReprojectionReport * S) :=
  let '(report, s) := acc in
  let scanned := u64_add (events_scanned report) 1 in
  match ev_payload logged.2 with
  | CompletionFinished _ provider model usage cost _ _ =>
      projected ← tx_lift (reproject_completion_cost provider model usage cost s);
      let '(projected_cost, s) := projected in
      let changed :=
        if opt_eqb cost_eqb projected_cost cost then completion_costs_changed report
        else u64_add (completion_costs_changed report) 1 in
      _ ← refresh_cost_summary_projection (ev_session_id logged.2) (ev_occurred_at logged.2)
            usage projected_cost;
      mret (MkReprojectionReport scanned (u64_add (completion_events_scanned report) 1) changed,
            s)
  | _ => mret (MkReprojectionReport scanned (completion_events_scanned report)
                 (completion_costs_changed report), s)
  end.

Fixpoint tx_fold {A B} (f : B -> A -> Tx B) (b : B) (l : list A) : Tx B :=
  match l with
  | [] => mret b
  | a :: l' => b' ← f b a; tx_fold f b' l'
  end.

(** [reproject_completion_costs] *)
Definition reproject_completion_costs (session_id : SessionId) (s : S)
    : Db -> Result (ReprojectionReport * S) * Db :=
  transaction (
    events ← query (load_session_event_log session_id);
    _ ← tx_modify (fun db => set_costs (delete session_id (db_costs db)) db);
    tx_fold reproject_cost_event (MkReprojectionReport 0 0 0, s) events).
End costs.
End replays.

(** ** The log *)

Section log.
Context `{codec : RowCodec}.

(** Sequence numbers increase up to the last one given out, event ids are
    distinct, and every event names a session and a branch that exist. *)
Record log_ok (db : Db) : Prop := {
  lo_sorted : StronglySorted Z.lt (db_events db).*1;
  lo_range : Forall (fun logged => 0 < logged.1 <= db_last_seq db) (db_events db);
  lo_last : 0 <= db_last_seq db <= I64_MAX;
  lo_ids : NoDup ((fun logged => ev_event_id logged.2) <$> db_events db);
  lo_refs : Forall (fun logged =>
    is_Some (db_sessions db !! ev_session_id logged.2)
    /\ is_Some (db_branches db !! ev_branch_id logged.2)
    /\ is_Some (format_time (ev_occurred_at logged.2))) (db_events db);
}.

Lemma StronglySorted_snoc (l : list Z) z :
  StronglySorted Z.lt l -> Forall (fun x => x < z) l -> StronglySorted Z.lt (l ++ [z]).
Proof.
  induction 1 as [|a l Hl IH Ha]; simpl; intros Hz; [by repeat constructor|].
  inversion_clear Hz. constructor; [by apply IH|]. apply Forall_app. by repeat constructor.
Qed.

Lemma event_id_fresh event db :
  event_id_taken db (ev_event_id event) = false ->
  ev_event_id event ∉ ((fun logged => ev_event_id logged.2) <$> db_events db).
Proof.
  unfold event_id_taken. rewrite any_false, Forall_forall. intros Hf Hin.
  apply list_elem_of_fmap in Hin as (row & Heq & Hin). apply Hf in Hin.
  apply bool_decide_eq_false in Hin. by rewrite Heq in Hin.
Qed.

Lemma structural_branch_some db db' b :
  structural db db' -> is_Some (db_branches db !! b) -> is_Some (db_branches db' !! b).
Proof. intros Hs [row Hb]. destruct (st_branches _ _ Hs b row Hb) as (row' & -> & _). eauto. Qed.

Lemma log_ok_structural db db' : structural db db' -> log_ok db -> log_ok db'.
Proof.
  intros Hs [Hsort Hrange Hlast Hids Hrefs]. split; rewrite ?(st_events _ _ Hs), ?(st_seq _ _ Hs); try done.
  eapply Forall_impl; [exact Hrefs|]. intros logged (H1 & H2 & H3). split_and!; [| |done].
  - destruct H1 as [row H1]. destruct (st_sessions _ _ Hs _ _ H1) as (row' & Hrow' & _). by exists row'.
  - by eapply structural_branch_some.
Qed.

Lemma log_ok_append event db seq_id db' :
  log_ok db -> append_event_in_tx event db = Ok (seq_id, db') -> log_ok db'.
Proof.
  intros [Hsort Hrange Hlast Hids Hrefs] H.
  pose proof (append_log _ _ _ _ H) as (Hadm & -> & Hlog & Hseq & _).
  pose proof (fun s => append_sessions _ _ _ _ s H) as Hses.
  pose proof (fun b row => append_branches _ _ _ _ b row H) as Hbr.
  destruct Hadm as [Hfresh Hs Hb Hroom Ht].
  split; rewrite ?Hlog, ?Hseq, ?fmap_app; simpl.
  - apply StronglySorted_snoc; [done|]. apply Forall_fmap. eapply Forall_impl; [exact Hrange|].
    intros logged [? ?]; simpl in *; lia.
  - apply Forall_app; split.
    + eapply Forall_impl; [exact Hrange|]. intros logged [? ?]; simpl in *; lia.
    + constructor; [simpl; lia|done].
  - lia.
  - apply NoDup_app. split_and!; [done| |apply NoDup_singleton].
    intros i Hi Hin. apply list_elem_of_singleton in Hin as ->. by eapply event_id_fresh.
  - apply Forall_app; split.
    + eapply Forall_impl; [exact Hrefs|]. intros logged (H1 & [row H2] & H3). split_and!; [by auto| |done].
      destruct (Hbr _ _ H2) as (row' & -> & _). eauto.
    + constructor; [|done]. simpl. split_and!; [by auto| |done].
      destruct Hb as [row Hb]. destruct (Hbr _ _ Hb) as (row' & -> & _). eauto.
Qed.

Lemma log_ok_empty : log_ok db_empty.
Proof. split; simpl; try constructor; unfold I64_MAX; lia. Qed.

Lemma reachable_log_ok db : reachable db -> log_ok db.
Proof.
  apply reachable_ind; [apply log_ok_empty|intros; by eapply log_ok_structural|].
  intros. by eapply log_ok_append.
Qed.

(** A call extends the log. *)
Lemma run_op_log op db : db_events db `prefix_of` db_events (run_op op db).
Proof.
  apply (run_op_keeps (fun db db' => db_events db `prefix_of` db_events db')).
  - split; [by intros ?|intros x y z; apply transitivity].
  - intros event db1 seq_id db2 (_ & _ & -> & _)%append_log. by apply prefix_app_r.
  - intros db1 db2 Hs. by rewrite (st_events _ _ Hs).
Qed.
End log.

(** ** The active turns *)

Section active.
Context `{codec : RowCodec}.

Lemma payload_active event seq_id db u db' :
  refresh_payload event seq_id db = Ok (u, db') ->
  replay_boundary (db_active_turns db) (seq_id, event) = Some (db_active_turns db')
  /\ (forall turn_id p m n r src c, ev_payload event = TurnStarted turn_id p m n r src c ->
        db_active_turns db !! ev_session_id event = None).
Proof.
  intros H. unfold replay_boundary. payload_cases H; simpl; try (split; [done|by intros]).
  - match goal with Hf : format_time _ = Some _ |- _ => rewrite Hf end. by split.
  - split; [|by intros]. simplify_option_eq; done.
  - split; [|by intros]. simplify_option_eq; done.
Qed.

Lemma append_active event db seq_id db' :
  append_event_in_tx event db = Ok (seq_id, db') ->
  replay_boundary (db_active_turns db) (seq_id, event) = Some (db_active_turns db')
  /\ (forall turn_id p m n r src c, ev_payload event = TurnStarted turn_id p m n r src c ->
        db_active_turns db !! ev_session_id event = None).
Proof. intros (_ & -> & now & turns & _ & _ & H)%append_event_Ok. by apply payload_active in H. Qed.

Lemma not_boundary_replay active logged :
  is_turn_boundary logged.2 = false -> replay_boundary active logged = Some active.
Proof. destruct logged as [seq_id event]. unfold is_turn_boundary. simpl. by destruct (ev_payload event). Qed.

Lemma rebuild_active_snoc log logged active :
  rebuild_active_turn_projection log = Some active ->
  rebuild_active_turn_projection (log ++ [logged]) = replay_boundary active logged.
Proof.
  unfold rebuild_active_turn_projection. intros H. rewrite List.filter_app. simpl.
  destruct (is_turn_boundary logged.2) eqn:E; [by apply opt_fold_snoc|].
  by rewrite app_nil_r, H, not_boundary_replay.
Qed.

Lemma reachable_active db :
  reachable db -> rebuild_active_turn_projection (db_events db) = Some (db_active_turns db).
Proof.
  apply (reachable_ind (fun db =>
    rebuild_active_turn_projection (db_events db) = Some (db_active_turns db)));
    [done|intros db1 db2 Hs; by rewrite (st_events _ _ Hs), (st_active _ _ Hs)|].
  intros event db1 seq_id db2 IH H. pose proof (append_active _ _ _ _ H) as [Ha _].
  apply append_log in H as (_ & _ & -> & _). by rewrite (rebuild_active_snoc _ _ _ IH).
Qed.

(** Starting and finishing a turn of a session. *)
Definition starts_turn (s : SessionId) (turn_id : TurnId) (event : EventEnvelope) : Prop :=
  ev_session_id event = s
  /\ match ev_payload event with TurnStarted t _ _ _ _ _ _ => t = turn_id | _ => False end.

Definition finishes (s : SessionId) (turn_id : TurnId) (event : EventEnvelope) : Prop :=
  ev_session_id event = s
  /\ match ev_payload event with TurnFinished t _ _ _ _ _ => t = turn_id | _ => False end.

(** A turn that was started and not finished is the active one. *)
Definition open_turn_active (db : Db) : Prop :=
  forall s t l1 q e l2, db_events db = l1 ++ (q, e) :: l2 -> starts_turn s t e ->
    Forall (fun logged => ~ finishes s t logged.2) l2 ->
    exists row, db_active_turns db !! s = Some row /\ at_turn_id row = t
      /\ at_started_seq_id row = q /\ at_branch_id row = ev_branch_id e.

Lemma replay_started active q e s t active' :
  starts_turn s t e -> replay_boundary active (q, e) = Some active' ->
  exists row, active' !! s = Some row /\ at_turn_id row = t /\ at_started_seq_id row = q
    /\ at_branch_id row = ev_branch_id e.
Proof.
  intros [<- Ht] H. unfold replay_boundary in H. destruct (ev_payload e); try done. subst.
  destruct (format_time _) as [now|]; simpl in H; [|done]. injection H as <-.
  eexists. rewrite lookup_insert_eq. done.
Qed.

Lemma replay_keeps_open active q e s row active' :
  active !! s = Some row ->
  (forall t p m n r src c, ev_payload e = TurnStarted t p m n r src c ->
     active !! ev_session_id e = None) ->
  ~ finishes s (at_turn_id row) e ->
  replay_boundary active (q, e) = Some active' -> active' !! s = Some row.
Proof.
  intros Hrow Hidle Hfin H. unfold replay_boundary in H.
  destruct (ev_payload e) eqn:Hp; try by injection H as <-.
  - destruct (format_time _) as [now|]; simpl in H; [|done]. injection H as <-.
    rewrite lookup_insert_ne; [done|]. intros Heq. specialize (Hidle _ _ _ _ _ _ _ eq_refl).
    by rewrite Heq, Hrow in Hidle.
  - injection H as <-. destruct (is_some_and _ _) eqn:E; [|done].
    rewrite lookup_delete_ne; [done|]. intros <-. rewrite Hrow in E. simpl in E.
    apply bool_decide_eq_true in E. apply Hfin. split; [done|]. by rewrite Hp.
Qed.

Lemma open_structural db db' : structural db db' -> open_turn_active db -> open_turn_active db'.
Proof. intros Hs IH s t l1 q e l2. rewrite (st_events _ _ Hs), (st_active _ _ Hs). apply IH. Qed.

Lemma open_append event db seq_id db' :
  open_turn_active db -> append_event_in_tx event db = Ok (seq_id, db') -> open_turn_active db'.
Proof.
  intros IH H s t l1 q e l2. pose proof (append_active _ _ _ _ H) as [Ha Hidle].
  apply append_log in H as (_ & _ & -> & _). intros Hl Hst Hl2.
  destruct l2 as [|last l2' _] using rev_ind.
  - apply app_inj_tail in Hl as [<- [= <- <-]]. by eapply replay_started.
  - rewrite app_comm_cons, app_assoc in Hl. apply app_inj_tail in Hl as [Hl <-].
    apply Forall_app in Hl2 as [Hl2 Hlast]. inversion_clear Hlast as [|? ? Hnot _].
    destruct (IH s t l1 q e l2' Hl Hst Hl2) as (row & Hrow & Ht & Hq).
    exists row. split; [|done]. eapply replay_keeps_open;
      [exact Hrow|exact Hidle| |exact Ha]. by rewrite Ht.
Qed.

(** A turn starts only in a session whose earlier turns are finished. *)
Definition turns_bracketed (log : list (Z * EventEnvelope)) : Prop :=
  forall s t t' l1 q e l2 q' e' l3,
    log = l1 ++ (q, e) :: l2 ++ (q', e') :: l3 -> starts_turn s t e -> starts_turn s t' e' ->
    Exists (fun logged => finishes s t logged.2) l2.

#[local] Instance finishes_dec s t e : Decision (finishes s t e).
Proof. unfold finishes. destruct (ev_payload e); apply _. Defined.

Lemma bracketed_append event db seq_id db' :
  open_turn_active db -> turns_bracketed (db_events db) ->
  append_event_in_tx event db = Ok (seq_id, db') -> turns_bracketed (db_events db').
Proof.
  intros Hopen IH H s t t' l1 q e l2 q' e' l3. pose proof (append_active _ _ _ _ H) as [_ Hidle].
  apply append_log in H as (_ & _ & -> & _). intros Hl Hst Hst'.
  destruct l3 as [|last l3' _] using rev_ind.
  - rewrite app_comm_cons, app_assoc in Hl. apply app_inj_tail in Hl as [Hl [= <- <-]].
    destruct (decide (Exists (fun logged => finishes s t logged.2) l2)) as [|Hn]; [done|].
    apply not_Exists_Forall in Hn; [|apply _].
    destruct (Hopen s t l1 q e l2 Hl Hst Hn) as (row & Hrow & _).
    destruct Hst' as [<- Hp]. destruct (ev_payload event) eqn:E; try done.
    specialize (Hidle _ _ _ _ _ _ _ eq_refl). congruence.
  - assert (l1 ++ (q, e) :: l2 ++ (q', e') :: l3' ++ [last]
            = (l1 ++ (q, e) :: l2 ++ (q', e') :: l3') ++ [last]) as Heq.
    { rewrite <-app_assoc. simpl. by rewrite <-app_assoc. }
    rewrite Heq in Hl. apply app_inj_tail in Hl as [Hl _]. by eapply IH.
Qed.

Lemma reachable_open_bracketed db :
  reachable db -> open_turn_active db /\ turns_bracketed (db_events db).
Proof.
  apply (reachable_ind (fun db => open_turn_active db /\ turns_bracketed (db_events db))).
  - split; [by intros s t [|] q e l2|by intros s t t' [|] q e l2].
  - intros db1 db2 Hs [IH1 IH2]. split; [by eapply open_structural|].
    by rewrite (st_events _ _ Hs).
  - intros event db1 seq_id db2 [IH1 IH2] H.
    split; [by eapply open_append|by eapply bracketed_append].
Qed.
End active.

(** ** The turn table, the tool runs and the approvals *)

Section tables.
Context `{codec : RowCodec}.

Lemma refresh_log_snoc log table table1 q e :
  refresh_log table log = Ok table1 ->
  refresh_log table (log ++ [(q, e)]) = refresh_turn_projection table1 e q.
Proof.
  revert table; induction log as [|[q' e'] log IH]; simpl; intros table H.
  - injection H as ->. by destruct (refresh_turn_projection _ _ _).
  - invert_result. rewrite Hr. simpl. by apply IH.
Qed.

Lemma reachable_turns db : reachable db -> refresh_log ∅ (db_events db) = Ok (db_turns db).
Proof.
  apply (reachable_ind (fun db => refresh_log ∅ (db_events db) = Ok (db_turns db))); [done| |].
  - intros db1 db2 Hs. by rewrite (st_events _ _ Hs), (st_turns _ _ Hs).
  - intros event db1 seq_id db2 IH (_ & _ & -> & _ & H)%append_log.
    by rewrite (refresh_log_snoc _ _ _ _ _ IH).
Qed.

Definition requests_call (s : SessionId) (c : ToolCallId) (event : EventEnvelope) : Prop :=
  ev_session_id event = s
  /\ match ev_payload event with ToolCallRequested c' _ _ => c' = c | _ => False end.

Definition approval_of (s : SessionId) (c : ToolCallId) (event : EventEnvelope) : Prop :=
  ev_session_id event = s
  /\ match ev_payload event with
     | ToolApprovalRequested c' _ _ | ToolApprovalResolved c' _ _ _ _ => c' = c
     | _ => False
     end.

(** No call id is requested again after an approval for it was recorded. *)
Definition requests_first (log : list (Z * EventEnvelope)) : Prop :=
  forall s c l1 q e l2, log = l1 ++ (q, e) :: l2 -> requests_call s c e ->
    Forall (fun logged => ~ approval_of s c logged.2) l1.

Definition is_call_request (event : EventEnvelope) : bool :=
  match ev_payload event with ToolCallRequested _ _ _ => true | _ => false end.

Lemma no_requests_first log :
  Forall (fun logged => is_call_request logged.2 = false) log -> requests_first log.
Proof.
  intros Hn s c l1 q e l2 -> [_ Hp]. apply Forall_app in Hn as [_ Hn].
  inversion_clear Hn as [|? ? He _]. unfold is_call_request in He. simpl in He.
  by destruct (ev_payload e).
Qed.

Lemma requests_first_prefix log log' : requests_first (log ++ log') -> requests_first log.
Proof. intros H s c l1 q e l2 ->. apply (H s c l1 q e (l2 ++ log')). by rewrite <-app_assoc. Qed.

Lemma payload_tool_runs event seq_id db u db' approvals :
  refresh_payload event seq_id db = Ok (u, db') -> is_Some (format_time (ev_occurred_at event)) ->
  exists approvals',
    replay_tool_event (approvals, db_tool_runs db) (seq_id, event)
      = Some (approvals', db_tool_runs db').
Proof.
  intros H [now Ht]. unfold replay_tool_event. rewrite Ht. simpl.
  payload_cases H; simpl; same_value; simplify_option_eq; eauto.
Qed.

Lemma payload_approvals event seq_id db u db' tool_runs :
  refresh_payload event seq_id db = Ok (u, db') -> is_Some (format_time (ev_occurred_at event)) ->
  exists approvals' tool_runs',
    replay_tool_event (db_approvals db, tool_runs) (seq_id, event)
      = Some (approvals', tool_runs')
    /\ (forall c n a, ev_payload event = ToolCallRequested c n a ->
          db_approvals db' = delete (ev_session_id event, c) (db_approvals db)
          /\ approvals' = db_approvals db)
    /\ ((forall c n a, ev_payload event <> ToolCallRequested c n a) ->
          approvals' = db_approvals db').
Proof.
  intros H [now Ht]. unfold replay_tool_event. rewrite Ht. simpl.
  payload_cases H; simpl; same_value; simplify_option_eq; do 2 eexists;
    (split; [reflexivity|]); split; try done; try (by intros ? ? ? [= <- <- <-]);
    intros Hn; by destruct (Hn _ _ _ eq_refl).
Qed.

Lemma payload_approval_keys event seq_id db u db' s c :
  refresh_payload event seq_id db = Ok (u, db') ->
  is_Some (db_approvals db' !! (s, c)) ->
  is_Some (db_approvals db !! (s, c)) \/ approval_of s c event.
Proof.
  intros H. unfold approval_of. payload_cases H; simpl; auto;
  repeat match goal with
  | |- is_Some (delete _ _ !! _) -> _ => rewrite lookup_delete_is_Some; naive_solver
  | |- is_Some (<[?k := _]> _ !! _) -> _ =>
      destruct (decide (k = (s, c))) as [[= <- <-]|];
      [by right|rewrite lookup_insert_ne by done; by left]
  end.
Qed.

(** What the replay of the log knows of the two tables. *)
Record tools_replayed (db : Db) : Prop := {
  tr_rebuilt : exists approvals,
    rebuild_tool_and_approval_projections (db_events db) = Some (approvals, db_tool_runs db)
    /\ (requests_first (db_events db) -> approvals = db_approvals db);
  tr_keys s c : is_Some (db_approvals db !! (s, c)) ->
    Exists (fun logged => approval_of s c logged.2) (db_events db);
}.

Lemma requested_now_absent event db seq_id s c :
  tools_replayed db -> requests_first (db_events db ++ [(seq_id, event)]) ->
  requests_call s c event -> db_approvals db !! (s, c) = None.
Proof.
  intros [_ Hk] Hf Hreq. destruct (db_approvals db !! (s, c)) as [row|] eqn:E; [|done].
  specialize (Hf s c (db_events db) seq_id event [] eq_refl Hreq).
  exfalso. apply Forall_Exists_neg in Hf. apply Hf, Hk. eauto.
Qed.

Lemma tools_append event db seq_id db' :
  tools_replayed db -> append_event_in_tx event db = Ok (seq_id, db') -> tools_replayed db'.
Proof.
  intros Htr H. pose proof (append_log _ _ _ _ H) as (Hadm & -> & Hlog & _).
  apply append_event_Ok in H as (_ & _ & now & turns & Ht & _ & H).
  pose proof Htr as [(approvals & Hreb & Heq) Hk]. split.
  - rewrite Hlog. unfold rebuild_tool_and_approval_projections.
    destruct (payload_tool_runs _ _ _ _ _ approvals H) as [approvals' Hstep]; [by eauto|].
    exists approvals'. split; [rewrite (opt_fold_snoc _ _ _ _ _ Hreb); exact Hstep|].
    intros Hf. specialize (Heq (requests_first_prefix _ _ Hf)). subst approvals.
    destruct (payload_approvals _ _ _ _ _ (db_tool_runs db) H)
      as (a' & t' & Hstep' & Hreq & Hother); [by eauto|].
    simpl in Hstep, Hstep'. rewrite Hstep in Hstep'. injection Hstep' as <- <-.
    destruct (ev_payload event) eqn:Hp; try by apply Hother.
    destruct (Hreq _ _ _ eq_refl) as [-> ->]. symmetry. apply delete_id. simpl.
    eapply requested_now_absent; [done|done|]. split; [done|]. by rewrite Hp.
  - intros s c Hs. rewrite Hlog. apply Exists_app.
    eapply payload_approval_keys in H as [Hold|Hnew]; [| |exact Hs]; [left; by apply Hk|].
    right. by constructor.
Qed.

Lemma reachable_tools db : reachable db -> tools_replayed db.
Proof.
  apply reachable_ind.
  - split; [by exists ∅|]. intros s c. simpl. rewrite lookup_empty. by intros [].
  - intros db1 db2 Hs [(a & Hr & Heq) Hk]. split; rewrite (st_events _ _ Hs).
    + exists a. rewrite (st_approvals _ _ Hs), (st_tool_runs _ _ Hs). done.
    + intros s c. rewrite (st_approvals _ _ Hs). apply Hk.
  - intros. by eapply tools_append.
Qed.
End tables.

(** ** Tables with one row per session, written by their own events *)

Section keyed.
Context `{codec : RowCodec} {V : Type}
  (get : Db -> gmap SessionId V) (put : gmap SessionId V -> Db -> Db)
  (step : EventEnvelope -> Tx unit)
  (row : EventEnvelope -> option V -> Result (option V)).

(** [step] reads and writes the row of the event's session. *)
Definition with_row (s : SessionId) (o : option V) (db : Db) : Db :=
  match o with Some v => put (<[s := v]> (get db)) db | None => db end.

Record keyed : Prop := {
  k_get_put t db : get (put t db) = t;
  k_put_put t t' db : put t (put t' db) = put t db;
  k_put_get db : put (get db) db = db;
  k_step event db :
    step event db = (o ← row event (get db !! ev_session_id event);
                     Ok (tt, with_row (ev_session_id event) o db));
  k_kept event o o' : row event o = Ok o' -> is_Some o -> is_Some o';
  k_refresh event seq_id db u db' : refresh_payload event seq_id db = Ok (u, db') ->
    exists db1, step event db = Ok (tt, db1) /\ get db' = get db1;
  k_touched event seq_id now turns db : get (touched event seq_id now turns db) = get db;
  k_structural db db' : structural db db' -> get db' = get db;
  k_empty : get db_empty = ∅;
}.

Context (Hk : keyed).

Lemma with_row_get s s' o db :
  get (with_row s o db) !! s' = if decide (s' = s) then
    match o with Some v => Some v | None => get db !! s' end else get db !! s'.
Proof.
  destruct o as [v|]; simpl; [|by case_decide]. rewrite (k_get_put Hk).
  case_decide as Hs; [subst; by rewrite lookup_insert_eq|by rewrite lookup_insert_ne].
Qed.

Lemma with_row_same s o o' db :
  (is_Some o -> is_Some o') -> with_row s o' (with_row s o db) = with_row s o' db.
Proof.
  destruct o as [v|], o' as [v'|]; simpl; intros Ho; try done.
  - by rewrite (k_put_put Hk), (k_get_put Hk), insert_insert_eq.
  - by destruct (Ho (mk_is_Some _ _ eq_refl)).
Qed.

(** Replaying the session's events from a database without its row gives
    back the session's row. *)
Definition row_replayed (db : Db) : Prop :=
  forall s d, get d !! s = None ->
    tx_iter (fun logged => step logged.2) (List.filter (in_session s) (db_events db)) d
      = Ok (tt, with_row s (get db !! s) d).

Lemma tx_iter_app {A} (f : A -> Tx unit) l l' d d1 :
  tx_iter f l d = Ok (tt, d1) -> tx_iter f (l ++ l') d = tx_iter f l' d1.
Proof.
  revert d; induction l as [|a l IH]; simpl; intros d H; [by injection H as ->|].
  unfold mbind, tx_bind in *. destruct (f a d) as [[]|]; [by apply IH|done].
Qed.

Lemma row_replayed_append event db seq_id db' :
  row_replayed db -> append_event_in_tx event db = Ok (seq_id, db') -> row_replayed db'.
Proof.
  intros IH H s d Hd. pose proof (append_log _ _ _ _ H) as (_ & _ & -> & _).
  apply append_event_Ok in H as (_ & _ & now & turns & _ & _ & H).
  destruct (k_refresh Hk _ _ _ _ _ H) as (db1 & Hstep & ->).
  rewrite (k_step Hk), (k_touched Hk) in Hstep.
  apply result_bind_Ok in Hstep as (o & Hrow & [= <-]).
  rewrite with_row_get, (k_touched Hk), List.filter_app. simpl. unfold in_session at 2. simpl.
  case_bool_decide as Hs.
  - subst s. rewrite decide_True by done. rewrite (tx_iter_app _ _ _ _ _ (IH _ _ Hd)). simpl.
    unfold mbind, tx_bind. rewrite (k_step Hk), with_row_get, decide_True, Hd by done.
    assert (match get db !! ev_session_id event with Some v => Some v | None => None end
            = get db !! ev_session_id event) as -> by (by destruct (get db !! ev_session_id event)).
    rewrite Hrow. simpl. rewrite with_row_same by (by apply (k_kept Hk _ _ _ Hrow)).
    destruct o as [v|]; [done|].
    destruct (get db !! ev_session_id event) eqn:E; [|done].
    by destruct (k_kept Hk _ _ _ Hrow (mk_is_Some _ _ eq_refl)).
  - rewrite decide_False by done. rewrite app_nil_r. by apply IH.
Qed.

Lemma reachable_rows db : reachable db -> row_replayed db.
Proof.
  apply reachable_ind.
  - intros s d Hd. simpl. rewrite (k_empty Hk), lookup_empty. done.
  - intros db1 db2 Hs IH s d. rewrite (st_events _ _ Hs), (k_structural Hk _ _ Hs). apply IH.
  - intros. by eapply row_replayed_append.
Qed.

(** Deleting the row and replaying the session's events is no change. *)
Lemma replay_no_change db s :
  reachable db ->
  tx_iter (fun logged => step logged.2) (List.filter (in_session s) (db_events db))
    (put (delete s (get db)) db) = Ok (tt, db).
Proof.
  intros Hr. rewrite (reachable_rows db Hr) by (by rewrite (k_get_put Hk), lookup_delete_eq).
  f_equal. f_equal. destruct (get db !! s) as [v|] eqn:E; simpl.
  - by rewrite (k_put_put Hk), (k_get_put Hk), insert_delete_id, (k_put_get Hk).
  - by rewrite delete_id, (k_put_get Hk).
Qed.
End keyed.

(** ** Budgets and costs *)

Section accounts.
Context `{codec : RowCodec}.

Definition formatted (t : OffsetDateTime) : Result string :=
  ok_or (Storage format_error) (format_time t).

(** The budget row of a session as a function of its event. *)
Definition budget_row (event : EventEnvelope) (o : option BudgetRow)
    : Result (option BudgetRow) :=
  match ev_payload event with
  | BudgetConfigured budget =>
      now ← formatted (ev_occurred_at event);
      let used f := match o with Some row => f row | None => 0 end in
      Ok (Some (MkBudgetRow
        (u64_as_i64 <$> bc_max_wall_clock_seconds budget) (u64_as_i64 <$> bc_max_tokens budget)
        (bc_max_turns budget) (bc_max_cost_usd budget ≫= bind_f64)
        (used bu_tokens_used) (used bu_turns_used) (used bu_elapsed_seconds)
        match o with Some row => bu_cost_used_usd row | None => Some f64_zero end now))
  | BudgetCheckpoint tokens_used turns_used elapsed_seconds cost_used_usd =>
      row ← ok_or (InvalidState "budget checkpoint requires a prior budget configuration") o;
      if (tokens_used <? Z.max 0 (bu_tokens_used row))
         || (turns_used <? wrap32 (Z.max 0 (bu_turns_used row)))
         || (elapsed_seconds <? Z.max 0 (bu_elapsed_seconds row))
         || cost_regressed (bu_cost_used_usd row) cost_used_usd
      then Err (InvalidState "budget checkpoint counters must be monotonic")
      else
        now ← formatted (ev_occurred_at event);
        Ok (Some (MkBudgetRow (bu_max_wall_clock_seconds row) (bu_max_tokens row)
          (bu_max_turns row) (bu_max_cost_usd row) (u64_as_i64 tokens_used) turns_used
          (u64_as_i64 elapsed_seconds) (cost_used_usd ≫= bind_f64) now))
  | _ => Ok o
  end.

Lemma with_same_row {V} (get : Db -> gmap SessionId V) put s db :
  (forall db, put (get db) db = db) -> with_row get put s (get db !! s) db = db.
Proof.
  intros Hp. unfold with_row. destruct (get db !! s) as [v|] eqn:E; [|done].
  by rewrite insert_id, Hp.
Qed.

Definition is_budget_event (event : EventEnvelope) : bool :=
  match ev_payload event with
  | BudgetConfigured _ | BudgetCheckpoint _ _ _ _ => true
  | _ => false
  end.

Definition is_completion_event (event : EventEnvelope) : bool :=
  match ev_payload event with CompletionFinished _ _ _ _ _ _ _ => true | _ => false end.

Lemma payload_budgets event seq_id db u db' :
  is_budget_event event = false -> refresh_payload event seq_id db = Ok (u, db') ->
  db_budgets db' = db_budgets db.
Proof.
  unfold is_budget_event. intros Hb H. payload_cases H; done.
Qed.

Lemma payload_costs event seq_id db u db' :
  is_completion_event event = false -> refresh_payload event seq_id db = Ok (u, db') ->
  db_costs db' = db_costs db.
Proof.
  unfold is_completion_event. intros Hb H. payload_cases H; done.
Qed.

Lemma budgets_keyed : keyed db_budgets set_budgets reproject_budget_event budget_row.
Proof.
  split; try done.
  - by intros [].
  - intros event db. unfold reproject_budget_event, budget_row.
    destruct (ev_payload event); simpl; try by rewrite with_same_row by (by intros []).
    + unfold refresh_budget_projection_from_config, time, formatted, tx_lift, tx_modify,
        mbind, tx_bind.
      destruct (format_time _); simpl; [|done]. by destruct (db_budgets db !! _).
    + unfold refresh_budget_projection_from_checkpoint, time, formatted, tx_lift, tx_modify,
        tx_get, tx_fail, mbind, tx_bind.
      destruct (db_budgets db !! _); simpl; [|done].
      destruct (_ || _); [done|]. by destruct (format_time _).
  - intros event o o' H Ho. unfold budget_row in H. destruct (ev_payload event);
      try (injection H as <-; exact Ho); invert_result; [done|].
    case_match; [done|]. invert_result. done.
  - intros event seq_id db u db' H. destruct (is_budget_event event) eqn:E.
    + exists db'. split; [|done]. unfold is_budget_event in E.
      unfold refresh_payload in H. unfold reproject_budget_event.
      destruct u. by destruct (ev_payload event).
    + exists db. split; [|by eapply payload_budgets]. unfold is_budget_event in E.
      unfold reproject_budget_event. by destruct (ev_payload event).
  - intros db db' Hs. apply Hs.
Qed.

(** The cost row of a session as a function of its event. *)
Definition cost_row (event : EventEnvelope) (o : option CostRow) : Result (option CostRow) :=
  match ev_payload event with
  | CompletionFinished _ _ _ usage cost _ _ =>
      let unpriced := match cost with None => 1 | Some _ => 0 end in
      let fits z := reject_if (negb (z <=? I64_MAX)) (Storage driver_error) in
      _ ← fits (tu_prompt_tokens usage);
      _ ← fits (tu_completion_tokens usage);
      _ ← fits (tu_total_tokens usage);
      now ← formatted (ev_occurred_at event);
      usd ← ok_or (Storage driver_error)
        (bind_f64 match cost with None => f64_zero | Some c => cb_total_usd c end);
      match o with
      | None =>
          Ok (Some (MkCostRow (SqlInt (tu_prompt_tokens usage))
            (SqlInt (tu_completion_tokens usage)) (SqlInt (tu_total_tokens usage)) usd
            (SqlInt unpriced) now))
      | Some row =>
          total ← ok_or (Storage driver_error) (bind_f64 (f64_add (co_total_cost_usd row) usd));
          Ok (Some (MkCostRow (sql_add (co_prompt_tokens row) (tu_prompt_tokens usage))
            (sql_add (co_completion_tokens row) (tu_completion_tokens usage))
            (sql_add (co_total_tokens row) (tu_total_tokens usage)) total
            (sql_add (co_unpriced_completion_count row) unpriced) now))
      end
  | _ => Ok o
  end.

(** The cost projection of one event, with the cost it carries. *)
Definition project_cost (event : EventEnvelope) : Tx unit :=
  match ev_payload event with
  | CompletionFinished _ _ _ usage cost _ _ =>
      refresh_cost_summary_projection (ev_session_id event) (ev_occurred_at event) usage cost
  | _ => mret tt
  end.

Lemma costs_keyed : keyed db_costs set_costs project_cost cost_row.
Proof.
  split; try done.
  - by intros [].
  - intros event db. unfold project_cost, cost_row.
    destruct (ev_payload event); simpl; try by rewrite with_same_row by (by intros []).
    unfold refresh_cost_summary_projection, bind_u64, storage_error, tx_fail, time, formatted,
      tx_lift, tx_modify, tx_get, mret, tx_ret, mbind, tx_bind, reject_if.
    repeat (destruct (_ <=? _); simpl; [|done]).
    destruct (format_time _); simpl; [|done].
    destruct (db_costs db !! _) as [row|]; destruct (bind_f64 _); simpl; try done.
    by destruct (bind_f64 _).
  - intros event o o' H Ho. unfold cost_row in H. destruct (ev_payload event);
      try (injection H as <-; exact Ho). invert_result.
    case_match; invert_result; done.
  - intros event seq_id db u db' H. destruct (ev_payload event) eqn:E;
    try (exists db; unfold project_cost; rewrite E; split; [done|];
         eapply payload_costs; [|exact H]; unfold is_completion_event; by rewrite E).
    exists db'. split; [|done]. unfold refresh_payload in H. unfold project_cost.
    rewrite E in *. by destruct u.
  - intros db db' Hs. apply Hs.
Qed.
End accounts.

(** ** Reprojecting costs *)

Section recosting.
Context `{codec : RowCodec} {St : Type}
  (reproject : string -> string -> TokenUsage -> option CostBreakdown -> St ->
     Result (option CostBreakdown * St)).

(** A reprojector that leaves every cost as it is. *)
Hypothesis reproject_same : forall p m u c s, exists s', reproject p m u c s = Ok (c, s').

Definition cost_reflexive (event : EventEnvelope) : bool :=
  match ev_payload event with
  | CompletionFinished _ _ _ _ cost _ _ => opt_eqb cost_eqb cost cost
  | _ => true
  end.

(** One event: the projection it causes, and a report that counts it and
    changes no cost. *)
Lemma recost_event logged d d' report s :
  cost_reflexive logged.2 = true -> project_cost logged.2 d = Ok (tt, d') ->
  exists report' s',
    reproject_cost_event reproject (report, s) (stored_event logged) d = Ok ((report', s'), d')
    /\ events_scanned report' = u64_add (events_scanned report) 1
    /\ completion_costs_changed report' = completion_costs_changed report.
Proof.
  destruct logged as [q e]. unfold cost_reflexive, project_cost, reproject_cost_event. simpl.
  intros Hc H. destruct (ev_payload e) as
    [| | | | | | | | | | | | | | | | | | | |ordinal provider model usage cost finish latency
     | | | | | | | | | | | | | | | | | | |];
    try (apply tx_ret_Ok in H as [_ ->]; by do 2 eexists).
  destruct (reproject_same provider model usage cost s) as [s' Hs].
  unfold tx_lift, mbind, tx_bind. rewrite Hs. simpl. rewrite H, Hc. by do 2 eexists.
Qed.

Lemma u64_add_S a n : u64_add (u64_add a 1) (Z.of_nat n) = u64_add a (Z.of_nat (S n)).
Proof. unfold u64_add, wrap64. rewrite Zplus_mod_idemp_l. f_equal. lia. Qed.

Lemma recost_same log d d' report s :
  Forall (fun logged => cost_reflexive logged.2 = true) log ->
  is_u64 (events_scanned report) ->
  tx_iter (fun logged => project_cost logged.2) log d = Ok (tt, d') ->
  exists report' s',
    tx_fold (reproject_cost_event reproject) (report, s) (map stored_event log) d
      = Ok ((report', s'), d')
    /\ events_scanned report' = u64_add (events_scanned report) (Z.of_nat (length log))
    /\ completion_costs_changed report' = completion_costs_changed report.
Proof.
  revert d report s; induction log as [|logged log IH]; intros d report s Hc Hr H;
    cbn [tx_fold map tx_iter length] in *.
  { injection H as ->. exists report, s. split_and!; [done| |done].
    unfold u64_add, wrap64, is_u64 in *. rewrite Z.add_0_r, Z.mod_small; done. }
  inversion_clear Hc as [|? ? Hc1 Hc2].
  apply tx_bind_Ok in H as ([] & d1 & H1 & H2).
  destruct (recost_event logged d d1 report s Hc1 H1) as (r1 & s1 & Hstep & Hscan & Hch).
  unfold mbind, tx_bind. rewrite Hstep.
  destruct (IH d1 r1 s1 Hc2) as (r2 & s2 & -> & Hscan2 & Hch2); [|done|].
  - rewrite Hscan. apply u64_add_range.
  - exists r2, s2. split_and!; [done| |by rewrite Hch2].
    by rewrite Hscan2, Hscan, u64_add_S.
Qed.
End recosting.

(** ** A history to run the theorems on *)

Definition sample_session : SessionRecord :=
  {| se_session_id := MkUuid 1; se_project_root := "/p"; se_connection_id := MkConnectionId "c";
     se_model_id := Some "m"; se_tool_mode := Standard; se_settings_revision_id := 1;
     se_created_at := 1; se_updated_at := 1; se_status := StatusActive;
     se_display_name := None; se_objective := None; se_parent_session_id := None;
     se_parent_branch_id := None; se_parent_turn_id := None |}.

Definition sample_branch : BranchRecord :=
  {| br_branch_id := MkUuid 2; br_session_id := MkUuid 1; br_parent_branch_id := None;
     br_parent_event_id := None; br_head_event_id := None; br_summary := None;
     br_created_at := 1; br_is_default := true |}.

Definition sample_event (n : Z) (p : EventPayload) : EventEnvelope :=
  new_envelope (MkUuid (Z.to_N n)) (MkUuid 0) n (MkUuid 1) (MkUuid 2) SpanAgent p.

Definition sample_turn_started (n : Z) (turn : N) : EventEnvelope :=
  sample_event n (TurnStarted (MkUuid turn) "p" "m" 4 1 UserMessage None).
Definition sample_turn_finished (n : Z) (turn : N) : EventEnvelope :=
  sample_event n (TurnFinished (MkUuid turn) "p" "m" "completed" (Some "stop") 25).

(** A turn with an accounted completion, a tool call waiting for approval, and
    a second turn after the first. *)
Definition sample_history : list StoreOp :=
  [OpCreateSession sample_session sample_branch;
   OpBudgetConfiguration
     (sample_event 1 (BudgetConfigured (MkBudgetConfig None (Some 100) (Some 3) None)))
     (sample_event 2 (SessionCancelled "budget"));
   OpAppend (sample_turn_started 3 7);
   OpAppendMany
     [sample_event 4 (CompletionFinished 0 "p" "m" (MkTokenUsage 1 2 3 None None None)
        None "tool_use" 5);
      sample_event 5 (ToolCallRequested (MkToolCallId "c") "shell" VNull);
      sample_event 6 (ToolApprovalRequested (MkToolCallId "c") "shell" None)];
   OpAppend (sample_event 8 (BudgetCheckpoint 3 1 9 (Some f64_zero)));
   OpAppend (sample_turn_finished 9 7);
   OpAppend (sample_turn_started 10 8)].

Definition sample_db : Db := run_ops sample_history db_empty.

Lemma sample_reachable : reachable sample_db.
Proof. by exists sample_history. Qed.

Example sample_log_length : length (db_events sample_db) = 8%nat.
Proof. vm_compute. reflexivity. Qed.

(** ** Theorems *)

(** C21. The event log is canonical: in every reachable database sequence
    numbers increase strictly up to the last one given out, event ids are
    distinct, and every event names an existing session and branch; and every
    call, whatever it returns, only appends to the log and keeps these. *)
Theorem log_append_only `{RowCodec} op db :
  reachable db ->
  log_ok db /\ db_events db `prefix_of` db_events (run_op op db) /\ log_ok (run_op op db).
Proof.
  intros Hr. split_and!; [by apply reachable_log_ok|apply run_op_log|].
  by apply reachable_log_ok, reachable_op.
Qed.

Lemma log_append_only_witness :
  length (db_events (run_op (OpAppend (sample_turn_finished 11 8)) sample_db)) = 9%nat
  /\ log_ok (run_op (OpAppend (sample_turn_finished 11 8)) sample_db).
Proof.
  split; [vm_compute; reflexivity|].
  exact (proj2 (proj2 (log_append_only (OpAppend (sample_turn_finished 11 8)) sample_db
    sample_reachable))).
Defined.

(** C2. One turn at a time: in every reachable log two turns of one session
    never overlap, the first is finished before the second starts; and the
    turn started last and not finished is the one [active_turn_projection]
    holds, with its branch and its sequence number. *)
Theorem one_turn_at_a_time `{RowCodec} db :
  reachable db -> turns_bracketed (db_events db) /\ open_turn_active db.
Proof. intros Hr. by destruct (reachable_open_bracketed db Hr). Qed.

Lemma one_turn_at_a_time_witness :
  bool_decide (is_Some (db_active_turns sample_db !! MkUuid 1)) = true
  /\ turns_bracketed (db_events sample_db).
Proof.
  split; [vm_compute; reflexivity|]. exact (proj1 (one_turn_at_a_time sample_db sample_reachable)).
Defined.

(** The active turns kept by the transactions are the ones
    [rebuild_active_turn_projection] reads off the log, although the rebuild
    overwrites a running turn where the transaction refuses the second. *)
Lemma active_turns_replayed `{RowCodec} db :
  reachable db -> rebuild_active_turn_projection (db_events db) = Some (db_active_turns db).
Proof. apply reachable_active. Qed.

(** The turn table refreshed event by event is the table
    [rebuild_turn_projection] computes from the whole log, for every reachable
    database whose events fit the columns. *)
Lemma turn_table_replayed `{RowCodecLaws} db :
  reachable db -> Forall (fun logged => event_fits logged.2) (db_events db) ->
  rebuild_turn_projection (db_events db) = Some (db_turns db).
Proof. intros Hr Hf. apply refresh_log_rebuild; [done|]. by apply reachable_turns. Qed.

(** The tool runs and approvals kept by the transactions are those
    [rebuild_tool_and_approval_projections] recomputes, as long as no call id
    is requested again after an approval for it was recorded; the tool runs
    agree in every case. *)
Lemma tool_tables_replayed `{RowCodec} db :
  reachable db ->
  exists approvals,
    rebuild_tool_and_approval_projections (db_events db) = Some (approvals, db_tool_runs db)
    /\ (requests_first (db_events db) -> approvals = db_approvals db).
Proof. intros Hr. by apply tr_rebuilt, reachable_tools. Qed.

(** C26. Replaying the log rebuilds what the transactions keep, for every
    reachable database: the active turns; the turn table, when the numbers of
    the log fit the columns; the tool runs; and the approvals, when no call id
    is requested again after an approval for it was recorded. *)
Theorem projections_replayed `{codec : RowCodec} {laws : RowCodecLaws} db :
  reachable db ->
  rebuild_active_turn_projection (db_events db) = Some (db_active_turns db)
  /\ (Forall (fun logged => event_fits logged.2) (db_events db) ->
      rebuild_turn_projection (db_events db) = Some (db_turns db))
  /\ exists approvals,
       rebuild_tool_and_approval_projections (db_events db) = Some (approvals, db_tool_runs db)
       /\ (requests_first (db_events db) -> approvals = db_approvals db).
Proof.
  intros Hr. split_and!.
  - by apply active_turns_replayed.
  - by apply turn_table_replayed.
  - by apply tool_tables_replayed.
Qed.

Lemma projections_replayed_witness :
  size (db_turns sample_db) = 2%nat /\ size (db_approvals sample_db) = 1%nat
  /\ rebuild_active_turn_projection (db_events sample_db) = Some (db_active_turns sample_db)
  /\ rebuild_turn_projection (db_events sample_db) = Some (db_turns sample_db)
  /\ exists approvals,
       rebuild_tool_and_approval_projections (db_events sample_db)
         = Some (approvals, db_tool_runs sample_db)
       /\ (requests_first (db_events sample_db) -> approvals = db_approvals sample_db).
Proof.
  destruct (projections_replayed sample_db sample_reachable) as (Ha & Ht & Htools).
  split; [vm_compute; reflexivity|]. split; [vm_compute; reflexivity|].
  split; [exact Ha|]. split; [|exact Htools]. apply Ht.
  assert (db_events sample_db = _) as -> by (vm_compute; reflexivity).
  repeat constructor; unfold is_u32, is_i63, U32_MOD, I64_MAX; simpl; lia.
Defined.

(** C22. The two disagree otherwise: a request that reuses a call id drops its
    pending approval from the live table, and the rebuild, which has no such
    step, brings the dropped approval back. *)
Theorem rebuild_revives_approval `{RowCodec} db event seq_id db' call_id tool_name arguments row :
  reachable db -> requests_first (db_events db) ->
  ev_payload event = ToolCallRequested call_id tool_name arguments ->
  db_approvals db !! (ev_session_id event, call_id) = Some row ->
  append_event_in_tx event db = Ok (seq_id, db') ->
  db_approvals db' !! (ev_session_id event, call_id) = None
  /\ exists approvals,
       rebuild_tool_and_approval_projections (db_events db') = Some (approvals, db_tool_runs db')
       /\ approvals !! (ev_session_id event, call_id) = Some row.
Proof.
  intros Hr Hf Hp Hrow Happ. pose proof (append_log _ _ _ _ Happ) as (Hadm & -> & Hlog & _).
  assert (reachable db') as Hr'.
  { replace db' with (run_op (OpAppend event) db); [by apply reachable_op|].
    simpl. unfold append_event, transaction. by rewrite Happ. }
  destruct (reachable_tools db Hr) as [(a & Hreb & Ha) _]. rewrite (Ha Hf) in Hreb.
  destruct (reachable_tools db' Hr') as [(a' & Hreb' & _) _].
  apply append_event_Ok in Happ as (_ & _ & now & turns & Ht & _ & Happ).
  destruct (payload_approvals _ _ _ _ _ (db_tool_runs db) Happ)
    as (a1 & t1 & Hstep & Hreq & _); [by eauto|].
  destruct (Hreq _ _ _ Hp) as [-> ->].
  split; [apply lookup_delete_eq|].
  change (db_approvals (touched _ _ _ _ db)) with (db_approvals db) in Hstep.
  exists a'. split; [done|]. unfold rebuild_tool_and_approval_projections in *.
  rewrite Hlog, (opt_fold_snoc _ _ _ _ _ Hreb) in Hreb'. rewrite Hstep in Hreb'.
  by injection Hreb' as <- _.
Qed.

Definition reused_call_history : list StoreOp :=
  [OpCreateSession sample_session sample_branch;
   OpAppend (sample_event 3 (ToolApprovalRequested (MkToolCallId "c") "shell" None))].
Definition reused_call_db : Db := run_ops reused_call_history db_empty.

Lemma rebuild_revives_approval_witness :
  let event := sample_event 4 (ToolCallRequested (MkToolCallId "c") "shell" VNull) in
  let row := MkApprovalRow "shell" "pending" (Some (MkUuid 2)) None (Some 1) None None None None
               (unary 3) in
  is_ok (append_event_in_tx event reused_call_db) = true
  /\ forall seq_id db', append_event_in_tx event reused_call_db = Ok (seq_id, db') ->
       db_approvals db' !! (MkUuid 1, MkToolCallId "c") = None
       /\ exists approvals,
            rebuild_tool_and_approval_projections (db_events db')
              = Some (approvals, db_tool_runs db')
            /\ approvals !! (MkUuid 1, MkToolCallId "c") = Some row.
Proof.
  intros event row. split; [vm_compute; reflexivity|]. intros seq_id db' Happ.
  refine (rebuild_revives_approval reused_call_db event seq_id db' (MkToolCallId "c") "shell"
    VNull row _ _ eq_refl _ Happ).
  - by exists reused_call_history.
  - apply no_requests_first. vm_compute. repeat constructor.
  - vm_compute. reflexivity.
Defined.

(** [reproject_session_budget] is no change: deleting the session's budget
    and replaying its configurations and checkpoints gives the same database,
    and no checkpoint that was accepted is refused in the replay. *)
Lemma budget_reprojection_no_change `{RowCodec} db session_id :
  reachable db -> reproject_session_budget session_id db = (Ok tt, db).
Proof.
  intros Hr. unfold reproject_session_budget, transaction, query, tx_modify.
  unfold mbind, tx_bind, load_session_event_log.
  pose proof (replay_no_change _ _ _ _ budgets_keyed db session_id Hr) as Hn.
  assert (forall l d, tx_iter (fun logged => reproject_budget_event logged.2) (map stored_event l) d
            = tx_iter (fun logged => reproject_budget_event logged.2) l d) as Hmap.
  { induction l as [|[q e] l IH]; intros d; [done|]. simpl. unfold mbind, tx_bind.
    change (reproject_budget_event _ d) with (reproject_budget_event e d).
    destruct (reproject_budget_event e d) as [[]|]; [apply IH|done]. }
  by rewrite Hmap, Hn.
Qed.

(** [reproject_completion_costs] with a reprojector that leaves every cost
    as it is changes nothing: it scans all of the session's events, reports no
    changed cost and leaves the database as it was, no cost being NaN. *)
Lemma cost_reprojection_no_change `{RowCodec} {St : Type} reproject db session_id (s : St) :
  (forall p m u c s, exists s', reproject p m u c s = Ok (c, s')) ->
  reachable db -> Forall (fun logged => cost_reflexive logged.2 = true) (db_events db) ->
  exists report s',
    reproject_completion_costs reproject session_id s db = (Ok (report, s'), db)
    /\ events_scanned report = wrap64 (Z.of_nat (length (load_session_event_log session_id db)))
    /\ completion_costs_changed report = 0.
Proof.
  intros Hsame Hr Hc. unfold reproject_completion_costs, transaction, query, tx_modify.
  unfold mbind, tx_bind, load_session_event_log.
  destruct (recost_same reproject Hsame (List.filter (in_session session_id) (db_events db))
    (set_costs (delete session_id (db_costs db)) db) db (MkReprojectionReport 0 0 0) s)
    as (report & s' & -> & Hscan & Hch).
  - apply Forall_forall. intros logged Hin. apply list_elem_of_In, filter_In in Hin as [Hin _].
    rewrite Forall_forall in Hc. apply Hc. by apply list_elem_of_In.
  - split; done.
  - exact (replay_no_change _ _ _ _ costs_keyed db session_id Hr).
  - exists report, s'. split_and!; [done| |done]. rewrite Hscan. unfold u64_add. simpl.
    by rewrite length_map.
Qed.

(** Both reprojections are idempotent on what the transactions wrote:
    reprojecting a session's budget from the log changes nothing, and
    [reproject_completion_costs] with a reprojector that leaves every cost as
    it is scans all of the session's events, reports no changed cost and leaves
    the database as it was, no cost being NaN. *)
Theorem reprojection_no_change `{codec : RowCodec} {St : Type} reproject db session_id (s : St) :
  reachable db ->
  reproject_session_budget session_id db = (Ok tt, db)
  /\ ((forall p m u c s, exists s', reproject p m u c s = Ok (c, s')) ->
      Forall (fun logged => cost_reflexive logged.2 = true) (db_events db) ->
      exists report s',
        reproject_completion_costs reproject session_id s db = (Ok (report, s'), db)
        /\ events_scanned report = wrap64 (Z.of_nat (length (load_session_event_log session_id db)))
        /\ completion_costs_changed report = 0).
Proof.
  intros Hr. split; [by apply budget_reprojection_no_change|].
  intros Hsame Hc. by apply cost_reprojection_no_change.
Qed.

Lemma reprojection_no_change_witness :
  bool_decide (is_Some (db_costs sample_db !! MkUuid 1)) = true
  /\ bool_decide (is_Some (db_budgets sample_db !! MkUuid 1)) = true
  /\ reproject_session_budget (MkUuid 1) sample_db = (Ok tt, sample_db)
  /\ exists report s',
       reproject_completion_costs (fun _ _ _ c (s : unit) => Ok (c, s)) (MkUuid 1) tt sample_db
         = (Ok (report, s'), sample_db)
       /\ events_scanned report
          = wrap64 (Z.of_nat (length (load_session_event_log (MkUuid 1) sample_db)))
       /\ completion_costs_changed report = 0.
Proof.
  destruct (reprojection_no_change (fun _ _ _ c (s : unit) => Ok (c, s)) sample_db (MkUuid 1) tt
    sample_reachable) as [Hb Hc].
  split; [vm_compute; reflexivity|]. split; [vm_compute; reflexivity|].
  split; [exact Hb|]. apply Hc; [intros; eexists; reflexivity|].
  assert (db_events sample_db = _) as -> by (vm_compute; reflexivity).
  repeat constructor.
Defined.
