(* ===== verification/StoreQueue.v ===== *)
(** * The follow-up queue as a reading of the log

    The pending queued messages and steers of a branch, in the order of their
    sequence numbers, are functions of the event log; every operation of the
    store keeps the tables equal to them. *)

From stdpp Require Import base list strings gmap sorting.
From Stdlib Require Import ZArith Lia.
From S2P Require Import Prelude Text Json Types TurnProjection Store StoreOps StoreLaws StoreReplay.

#[local] Open Scope Z_scope.

(** ** Pending rows in order *)

Section ordered.
Context {K V : Type} `{Countable K} (seq : V -> Z) (p : K * V -> bool)
  (le : K * V -> K * V -> Prop) `{!forall a b, Decision (le a b)}
  (le_seq : forall a b, le a b <-> seq a.2 <= seq b.2).

Definition ordered (m : gmap K V) : list (K * V) :=
  merge_sort le (List.filter p (map_to_list m)).

Lemma le_transitive : Transitive le.
Proof. intros a b c. rewrite !le_seq. lia. Qed.
Lemma le_total : Total le.
Proof. intros a b. rewrite !le_seq. lia. Qed.

Lemma ordered_sorted m : StronglySorted le (ordered m).
Proof. apply StronglySorted_merge_sort; [apply le_transitive|apply le_total]. Qed.

Lemma filter_Permutation {A} (q : A -> bool) l l' :
  l ≡ₚ l' -> List.filter q l ≡ₚ List.filter q l'.
Proof.
  induction 1; simpl; repeat case_match; try done; try by constructor.
  by etrans.
Qed.

Lemma elem_of_ordered m kv : kv ∈ ordered m <-> m !! kv.1 = Some kv.2 /\ p kv = true.
Proof.
  unfold ordered. rewrite merge_sort_Permutation, list_elem_of_In, filter_In, <-list_elem_of_In.
  destruct kv. by rewrite elem_of_map_to_list.
Qed.

Definition seq_distinct (m : gmap K V) : Prop :=
  forall k k' v v', m !! k = Some v -> m !! k' = Some v' -> seq v = seq v' -> k = k'.

(** The only sorted listing of the pending rows. *)
Lemma ordered_unique m l :
  seq_distinct m -> StronglySorted le l -> l ≡ₚ List.filter p (map_to_list m) -> ordered m = l.
Proof.
  intros Hd Hs Hp. apply (StronglySorted_unique_strong le); [|apply ordered_sorted|done|].
  - intros [k v] [k' v'] H1 H2. rewrite elem_of_ordered in H1.
    rewrite Hp, list_elem_of_In, filter_In, <-list_elem_of_In, elem_of_map_to_list in H2.
    simpl in *. rewrite !le_seq. simpl. intros. destruct H1 as [H1 _], H2 as [H2 _].
    assert (k = k') as -> by (eapply Hd; [done|done|lia]). congruence.
  - unfold ordered. by rewrite merge_sort_Permutation.
Qed.

(** A new row with a larger sequence number comes last. *)
Lemma ordered_insert m k v :
  seq_distinct (<[k := v]> m) -> m !! k = None ->
  (forall k' v', m !! k' = Some v' -> seq v' <= seq v) ->
  ordered (<[k := v]> m) = ordered m ++ (if p (k, v) then [(k, v)] else []).
Proof.
  intros Hd Hk Hmax. apply ordered_unique; [done| |].
  - destruct (p (k, v)); [|rewrite app_nil_r; apply ordered_sorted].
    apply StronglySorted_app. split_and!; [|apply ordered_sorted|by repeat constructor].
    intros [k1 v1] x2 H1 ->%list_elem_of_singleton. apply elem_of_ordered in H1 as [H1 _].
    apply le_seq. simpl in *. eauto.
  - rewrite (filter_Permutation _ _ _ (map_to_list_insert _ _ v Hk)). simpl.
    unfold ordered. rewrite merge_sort_Permutation.
    destruct (p (k, v)); [by rewrite Permutation_app_comm|by rewrite app_nil_r].
Qed.

(** A row that stops being pending leaves the listing; the others keep their
    order. *)
Lemma ordered_remove m m' k :
  seq_distinct m ->
  (forall k' v', m' !! k' = Some v' -> exists v, m !! k' = Some v /\ seq v' = seq v) ->
  (forall k' v', (m' !! k' = Some v' /\ p (k', v') = true)
     <-> (k' <> k /\ m !! k' = Some v' /\ p (k', v') = true)) ->
  ordered m' = List.filter (fun kv => negb (bool_decide (kv.1 = k))) (ordered m).
Proof.
  intros Hd Hseq Hp. apply ordered_unique.
  - intros k1 k2 v1 v2 (w1 & H1 & E1)%Hseq (w2 & H2 & E2)%Hseq Heq.
    rewrite E1, E2 in Heq. by eapply Hd.
  - assert (forall l, StronglySorted le l ->
      StronglySorted le (List.filter (fun kv => negb (bool_decide (kv.1 = k))) l)) as Hf.
    { induction 1 as [|x l Hl IH Hx]; simpl; [constructor|].
      case_match; [|done]. constructor; [done|]. rewrite Forall_forall in *.
      intros y Hy. apply Hx. by apply list_elem_of_In, filter_In in Hy as [?%list_elem_of_In _]. }
    apply Hf, ordered_sorted.
  - unfold ordered. rewrite (filter_Permutation _ _ _ (merge_sort_Permutation _ _)).
    apply NoDup_Permutation.
    + apply NoDup_ListNoDup, List.NoDup_filter, List.NoDup_filter, NoDup_ListNoDup, NoDup_map_to_list.
    + apply NoDup_ListNoDup, List.NoDup_filter, NoDup_ListNoDup, NoDup_map_to_list.
    + intros [k1 v1].
      rewrite !list_elem_of_In, !filter_In, <-!list_elem_of_In, !elem_of_map_to_list,
        negb_true_iff, bool_decide_eq_false. simpl. rewrite Hp. tauto.
Qed.

Lemma ordered_resolve m k f :
  seq_distinct m -> (forall v, seq (f v) = seq v) -> (forall v, p (k, f v) = false) ->
  ordered (alter f k m) = List.filter (fun kv => negb (bool_decide (kv.1 = k))) (ordered m).
Proof.
  intros Hd Hseq Hp. apply ordered_remove; [done| |].
  - intros k' v'. rewrite lookup_alter_Some. intros [(-> & v & Hv & ->)|[_ Hv]]; eauto.
  - intros k' v'. rewrite lookup_alter_Some. split.
    + intros [[(-> & v & _ & ->)|[? ?]] Hpt]; [by rewrite Hp in Hpt|done].
    + intros (? & ? & ?). split; [by right|done].
Qed.

Lemma ordered_NoDup m : NoDup (ordered m).*1.
Proof.
  unfold ordered. rewrite merge_sort_Permutation.
  apply NoDup_fmap_fst.
  - intros k v v'. rewrite !list_elem_of_In, !filter_In, <-!list_elem_of_In, !elem_of_map_to_list.
    naive_solver.
  - apply NoDup_ListNoDup, List.NoDup_filter, NoDup_ListNoDup, NoDup_map_to_list.
Qed.
End ordered.

(** Removing ids from a listing. *)
Definition drop_id (id : EventId) (l : list EventId) : list EventId :=
  List.filter (fun x => negb (bool_decide (x = id))) l.
Definition drop_ids (ids : list EventId) (l : list EventId) : list EventId :=
  fold_left (fun l id => drop_id id l) ids l.

Lemma drop_id_fst {V} k (l : list (EventId * V)) :
  (List.filter (fun kv => negb (bool_decide (kv.1 = k))) l).*1 = drop_id k l.*1.
Proof.
  induction l as [|[x v] l IH]; [done|]. unfold drop_id in *. csimpl. by case_match; csimpl; rewrite IH.
Qed.

Lemma seq_distinct_alter {K V} `{Countable K} (seq : V -> Z) (m : gmap K V) k f :
  seq_distinct seq m -> (forall v, seq (f v) = seq v) -> seq_distinct seq (alter f k m).
Proof.
  intros Hd Hseq k1 k2 v1 v2 H1 H2 Heq. apply lookup_alter_Some in H1, H2.
  destruct H1 as [(-> & w1 & H1 & ->)|[_ H1]], H2 as [(-> & w2 & H2 & ->)|[_ H2]];
    rewrite ?Hseq in Heq; by eapply Hd.
Qed.

(** ** The queue and the steers as readings of the log *)

(** The follow-ups of a session waiting after an event. *)
Definition queue_step (s : SessionId) (q : list EventId) (event : EventEnvelope) : list EventId :=
  match ev_payload event with
  | SessionQueuedMessageEnqueued _ _ =>
      if bool_decide (ev_session_id event = s) then q ++ [ev_event_id event] else q
  | SessionQueuedMessageResolved id _ _ => drop_id id q
  | _ => q
  end.

Definition queue_of_log (s : SessionId) (log : list (Z * EventEnvelope)) : list EventId :=
  fold_left (fun q logged => queue_step s q logged.2) log [].

(** The steers of a branch waiting after an event. *)
Definition steer_step (s : SessionId) (b : BranchId) (q : list EventId) (event : EventEnvelope)
    : list EventId :=
  match ev_payload event with
  | SessionSteered _ _ => if in_scope s b event then q ++ [ev_event_id event] else q
  | SessionSteersResolved ids _ _ _ => drop_ids ids q
  | _ => q
  end.

Definition steers_of_log (s : SessionId) (b : BranchId) (log : list (Z * EventEnvelope))
    : list EventId :=
  fold_left (fun q logged => steer_step s b q logged.2) log [].

Section queues.
Context `{codec : RowCodec}.

Lemma pending_queued_ordered s db :
  pending_queued s db = ordered (is_pending_queued s) queued_le (db_queued db).
Proof. done. Qed.

Lemma pending_steers_ordered s b db :
  pending_steers s b db = ordered (is_pending_steer s b) steer_le (db_steers db).
Proof. done. Qed.

Lemma log_seq_inj db q e e' :
  log_ok db -> (q, e) ∈ db_events db -> (q, e') ∈ db_events db -> e = e'.
Proof.
  intros [Hs _ _ _ _]. induction (db_events db) as [|[q1 e1] l IH]; [by intros ?%not_elem_of_nil|].
  inversion Hs as [|? ? Hl Hx]; subst. rewrite Forall_fmap, Forall_forall in Hx.
  rewrite !elem_of_cons. intros [[= -> ->]|H1] [[= He]|H2]; subst; try done.
  - apply Hx in H2. simpl in H2. lia.
  - apply Hx in H1. simpl in H1. lia.
  - by apply IH.
Qed.

(** Every row of the queue is the row of a logged event. *)
Definition queued_rows_ok (db : Db) : Prop :=
  forall id row, db_queued db !! id = Some row ->
    exists e r, (qd_source_seq row, e) ∈ db_events db /\ ev_event_id e = id
      /\ ev_session_id e = qd_session_id row /\ ev_branch_id e = qd_branch_id row
      /\ ev_payload e = SessionQueuedMessageEnqueued (qd_message row) r
      /\ qd_settings_revision_id row = u64_as_i64 r.

Definition steer_rows_ok (db : Db) : Prop :=
  forall id row, db_steers db !! id = Some row ->
    exists e r, (sw_source_seq row, e) ∈ db_events db /\ ev_event_id e = id
      /\ ev_session_id e = sw_session_id row /\ ev_branch_id e = sw_branch_id row
      /\ ev_payload e = SessionSteered (sw_message row) r
      /\ sw_settings_revision_id row = u64_as_i64 r.

Lemma queued_distinct db :
  log_ok db -> queued_rows_ok db -> seq_distinct qd_source_seq (db_queued db).
Proof.
  intros Hl Hr k k' v v' H1 H2 Heq.
  destruct (Hr _ _ H1) as (e & r & Hin & <- & _), (Hr _ _ H2) as (e' & r' & Hin' & <- & _).
  rewrite Heq in Hin. by rewrite (log_seq_inj db _ _ _ Hl Hin Hin').
Qed.

Lemma steers_distinct db :
  log_ok db -> steer_rows_ok db -> seq_distinct sw_source_seq (db_steers db).
Proof.
  intros Hl Hr k k' v v' H1 H2 Heq.
  destruct (Hr _ _ H1) as (e & r & Hin & <- & _), (Hr _ _ H2) as (e' & r' & Hin' & <- & _).
  rewrite Heq in Hin. by rewrite (log_seq_inj db _ _ _ Hl Hin Hin').
Qed.

Definition resolve_queued (outcome : QueuedMessageResolutionOutcome) (now : string)
    (row : QueuedRow) : QueuedRow :=
  MkQueuedRow (qd_session_id row) (qd_branch_id row) (qd_message row)
    (qd_settings_revision_id row) (queued_message_resolution_status outcome)
    (qd_source_seq row) (qd_enqueued_at row) (Some now).

Definition resolve_steer (outcome : SteerResolutionOutcome) (now : string)
    (row : SteerRow) : SteerRow :=
  MkSteerRow (sw_session_id row) (sw_branch_id row) (sw_message row)
    (sw_settings_revision_id row) (steer_resolution_status outcome)
    (sw_source_seq row) (sw_enqueued_at row) (Some now).

Lemma payload_queued event seq_id db u db' :
  refresh_payload event seq_id db = Ok (u, db') -> db_queued db !! ev_event_id event = None ->
  match ev_payload event with
  | SessionQueuedMessageEnqueued message r => exists now,
      db_queued db' = <[ev_event_id event :=
        MkQueuedRow (ev_session_id event) (ev_branch_id event) message (u64_as_i64 r) "pending"
          seq_id now None]> (db_queued db)
  | SessionQueuedMessageResolved id outcome _ => exists now,
      db_queued db' = alter (resolve_queued outcome now) id (db_queued db)
  | _ => db_queued db' = db_queued db
  end.
Proof. intros H Hn. payload_cases H; try done; eexists; by rewrite ?Hn. Qed.

Lemma steers_resolved_table event ids outcome now db u db' :
  format_time (ev_occurred_at event) = Some now ->
  refresh_steers_resolved event ids outcome db = Ok (u, db') ->
  db_steers db' = fold_left (fun t id => alter (resolve_steer outcome now) id t) ids (db_steers db).
Proof.
  intros Ht. unfold refresh_steers_resolved. revert db.
  induction ids as [|id ids IH]; simpl; intros db H; invert_tx; [done|].
  same_value. by apply IH in H.
Qed.

Lemma payload_steers event seq_id db u db' now :
  format_time (ev_occurred_at event) = Some now ->
  refresh_payload event seq_id db = Ok (u, db') -> db_steers db !! ev_event_id event = None ->
  match ev_payload event with
  | SessionSteered message r =>
      db_steers db' = <[ev_event_id event :=
        MkSteerRow (ev_session_id event) (ev_branch_id event) message (u64_as_i64 r) "pending"
          seq_id now None]> (db_steers db)
  | SessionSteersResolved ids outcome _ _ =>
      db_steers db' = fold_left (fun t id => alter (resolve_steer outcome now) id t) ids
        (db_steers db)
  | _ => db_steers db' = db_steers db
  end.
Proof.
  intros Ht H Hn. pose proof H as Hcopy. payload_cases H; try done; try congruence;
    try (same_value; done).
  - unfold refresh_payload in Hcopy. simplify_option_eq.
    match goal with Hp : ev_payload event = _ |- _ => rewrite Hp in Hcopy end.
    by eapply steers_resolved_table in Hcopy.
Qed.

(** *** The invariant *)

Record queues_ok (db : Db) : Prop := {
  qo_queued : queued_rows_ok db;
  qo_steers : steer_rows_ok db;
  qo_queue s : (pending_queued s db).*1 = queue_of_log s (db_events db);
  qo_steer s b : (pending_steers s b db).*1 = steers_of_log s b (db_events db);
}.

Lemma fresh_queued event db :
  queued_rows_ok db -> event_id_taken db (ev_event_id event) = false ->
  db_queued db !! ev_event_id event = None.
Proof.
  intros Hr Hf. destruct (db_queued db !! _) as [row|] eqn:E; [|done].
  destruct (Hr _ _ E) as (e & r & Hin & Hid & _). apply event_id_fresh in Hf.
  destruct Hf. apply list_elem_of_fmap. by exists (qd_source_seq row, e).
Qed.

Lemma fresh_steer event db :
  steer_rows_ok db -> event_id_taken db (ev_event_id event) = false ->
  db_steers db !! ev_event_id event = None.
Proof.
  intros Hr Hf. destruct (db_steers db !! _) as [row|] eqn:E; [|done].
  destruct (Hr _ _ E) as (e & r & Hin & Hid & _). apply event_id_fresh in Hf.
  destruct Hf. apply list_elem_of_fmap. by exists (sw_source_seq row, e).
Qed.

Lemma log_le db q e : log_ok db -> (q, e) ∈ db_events db -> q <= db_last_seq db.
Proof. intros [_ Hr _ _ _] Hin. rewrite Forall_forall in Hr. apply Hr in Hin. simpl in Hin. lia. Qed.

Lemma queued_rows_append event seq_id db db' :
  queued_rows_ok db -> db_queued db !! ev_event_id event = None ->
  db_events db' = db_events db ++ [(seq_id, event)] ->
  match ev_payload event with
  | SessionQueuedMessageEnqueued message r => exists now,
      db_queued db' = <[ev_event_id event :=
        MkQueuedRow (ev_session_id event) (ev_branch_id event) message (u64_as_i64 r) "pending"
          seq_id now None]> (db_queued db)
  | SessionQueuedMessageResolved id outcome _ => exists now,
      db_queued db' = alter (resolve_queued outcome now) id (db_queued db)
  | _ => db_queued db' = db_queued db
  end -> queued_rows_ok db'.
Proof.
  intros Hr Hfresh Hlog Hq id row Hrow.
  assert (forall row0, db_queued db !! id = Some row0 -> exists e r,
    (qd_source_seq row0, e) ∈ db_events db' /\ ev_event_id e = id
      /\ ev_session_id e = qd_session_id row0 /\ ev_branch_id e = qd_branch_id row0
      /\ ev_payload e = SessionQueuedMessageEnqueued (qd_message row0) r
      /\ qd_settings_revision_id row0 = u64_as_i64 r) as Hold.
  { intros row0 H0. destruct (Hr _ _ H0) as (e & r & Hin & H). exists e, r. split; [|done].
    rewrite Hlog. apply elem_of_app. by left. }
  destruct (ev_payload event) eqn:Hp; try (rewrite Hq in Hrow; by apply Hold).
  - destruct Hq as [now Hq]. rewrite Hq in Hrow. apply lookup_insert_Some in Hrow as [[<- <-]|[_ ?]];
      [|by apply Hold].
    exists event, settings_revision_id. simpl. split_and!; try done.
    rewrite Hlog. apply elem_of_app. right. by apply list_elem_of_singleton.
  - destruct Hq as [now Hq]. rewrite Hq in Hrow.
    apply lookup_alter_Some in Hrow as [(-> & w & Hw & ->)|[_ ?]];
      [exact (Hold _ Hw)|by apply Hold].
Qed.

Lemma fold_alter_lookup {V} (f : V -> V) ids (m : gmap EventId V) k v :
  fold_left (fun t id => alter f id t) ids m !! k = Some v ->
  exists n v0, m !! k = Some v0 /\ v = Nat.iter n f v0.
Proof.
  revert m; induction ids as [|id ids IH]; simpl; intros m H; [by exists O, v|].
  destruct (IH _ H) as (n & v1 & H1 & ->). apply lookup_alter_Some in H1 as [(-> & w & Hw & ->)|[_ ?]].
  - exists (S n), w. split; [done|]. by rewrite Nat.iter_succ_r.
  - by exists n, v1.
Qed.

Lemma resolve_steer_iter outcome now n row :
  let row' := Nat.iter n (resolve_steer outcome now) row in
  sw_source_seq row' = sw_source_seq row /\ sw_session_id row' = sw_session_id row
  /\ sw_branch_id row' = sw_branch_id row /\ sw_message row' = sw_message row
  /\ sw_settings_revision_id row' = sw_settings_revision_id row.
Proof. induction n as [|n IH]; simpl; [done|exact IH]. Qed.

Lemma steer_rows_append event seq_id db db' now :
  steer_rows_ok db -> db_steers db !! ev_event_id event = None ->
  db_events db' = db_events db ++ [(seq_id, event)] ->
  match ev_payload event with
  | SessionSteered message r =>
      db_steers db' = <[ev_event_id event :=
        MkSteerRow (ev_session_id event) (ev_branch_id event) message (u64_as_i64 r) "pending"
          seq_id now None]> (db_steers db)
  | SessionSteersResolved ids outcome _ _ =>
      db_steers db' = fold_left (fun t id => alter (resolve_steer outcome now) id t) ids
        (db_steers db)
  | _ => db_steers db' = db_steers db
  end -> steer_rows_ok db'.
Proof.
  intros Hr Hfresh Hlog Hq id row Hrow.
  assert (forall row0, db_steers db !! id = Some row0 -> exists e r,
    (sw_source_seq row0, e) ∈ db_events db' /\ ev_event_id e = id
      /\ ev_session_id e = sw_session_id row0 /\ ev_branch_id e = sw_branch_id row0
      /\ ev_payload e = SessionSteered (sw_message row0) r
      /\ sw_settings_revision_id row0 = u64_as_i64 r) as Hold.
  { intros row0 H0. destruct (Hr _ _ H0) as (e & r & Hin & H). exists e, r. split; [|done].
    rewrite Hlog. apply elem_of_app. by left. }
  destruct (ev_payload event) eqn:Hp; try (rewrite Hq in Hrow; by apply Hold).
  - rewrite Hq in Hrow. apply lookup_insert_Some in Hrow as [[<- <-]|[_ ?]]; [|by apply Hold].
    exists event, settings_revision_id. simpl. split_and!; try done.
    rewrite Hlog. apply elem_of_app. right. by apply list_elem_of_singleton.
  - rewrite Hq in Hrow. apply fold_alter_lookup in Hrow as (n & row0 & H0 & ->).
    destruct (resolve_steer_iter outcome now n row0) as (-> & -> & -> & -> & ->).
    by apply Hold.
Qed.

Lemma queued_le_seq a b : queued_le a b <-> qd_source_seq a.2 <= qd_source_seq b.2.
Proof. done. Qed.
Lemma steer_le_seq a b : steer_le a b <-> sw_source_seq a.2 <= sw_source_seq b.2.
Proof. done. Qed.

Lemma queue_append s event db db' :
  log_ok db -> queued_rows_ok db -> log_ok db' -> queued_rows_ok db' ->
  db_queued db !! ev_event_id event = None ->
  match ev_payload event with
  | SessionQueuedMessageEnqueued message r => exists now,
      db_queued db' = <[ev_event_id event :=
        MkQueuedRow (ev_session_id event) (ev_branch_id event) message (u64_as_i64 r) "pending"
          (db_last_seq db + 1) now None]> (db_queued db)
  | SessionQueuedMessageResolved id outcome _ => exists now,
      db_queued db' = alter (resolve_queued outcome now) id (db_queued db)
  | _ => db_queued db' = db_queued db
  end ->
  (pending_queued s db').*1 = queue_step s (pending_queued s db).*1 event.
Proof.
  intros Hl Hr Hl' Hr' Hfresh Hq. pose proof (queued_distinct _ Hl' Hr') as Hd'.
  unfold queue_step. rewrite !pending_queued_ordered.
  destruct (ev_payload event); try by rewrite Hq.
  - destruct Hq as [now Hq]. rewrite Hq in Hd' |- *.
    rewrite (ordered_insert qd_source_seq _ _ queued_le_seq); [|done|done|].
    + rewrite fmap_app. unfold is_pending_queued at 2. simpl. rewrite andb_true_r.
      case_bool_decide; simpl; [done|by rewrite app_nil_r].
    + intros k' v' Hk'. destruct (Hr _ _ Hk') as (e & r & Hin & _).
      apply (log_le _ _ _ Hl) in Hin. simpl. lia.
  - destruct Hq as [now Hq]. rewrite Hq.
    rewrite (ordered_resolve qd_source_seq _ _ queued_le_seq); [apply drop_id_fst| |done|].
    + by apply queued_distinct.
    + intros v. unfold is_pending_queued. simpl. rewrite andb_comm. by destruct outcome.
Qed.

Lemma steers_resolve s b outcome now ids m :
  seq_distinct sw_source_seq m ->
  (ordered (is_pending_steer s b) steer_le
     (fold_left (fun t id => alter (resolve_steer outcome now) id t) ids m)).*1
  = drop_ids ids (ordered (is_pending_steer s b) steer_le m).*1.
Proof.
  revert m; induction ids as [|id ids IH]; simpl; intros m Hd; [done|].
  rewrite IH by (by apply seq_distinct_alter).
  rewrite (ordered_resolve sw_source_seq _ _ steer_le_seq); [by rewrite drop_id_fst|done|done|].
  intros v. unfold is_pending_steer. simpl. rewrite andb_comm. by destruct outcome.
Qed.

Lemma steers_append s b event db db' now :
  log_ok db -> steer_rows_ok db -> log_ok db' -> steer_rows_ok db' ->
  db_steers db !! ev_event_id event = None ->
  match ev_payload event with
  | SessionSteered message r =>
      db_steers db' = <[ev_event_id event :=
        MkSteerRow (ev_session_id event) (ev_branch_id event) message (u64_as_i64 r) "pending"
          (db_last_seq db + 1) now None]> (db_steers db)
  | SessionSteersResolved ids outcome _ _ =>
      db_steers db' = fold_left (fun t id => alter (resolve_steer outcome now) id t) ids
        (db_steers db)
  | _ => db_steers db' = db_steers db
  end ->
  (pending_steers s b db').*1 = steer_step s b (pending_steers s b db).*1 event.
Proof.
  intros Hl Hr Hl' Hr' Hfresh Hq. pose proof (steers_distinct _ Hl' Hr') as Hd'.
  unfold steer_step. rewrite !pending_steers_ordered.
  destruct (ev_payload event); try by rewrite Hq.
  - rewrite Hq in Hd' |- *. rewrite (ordered_insert sw_source_seq _ _ steer_le_seq); [|done|done|].
    + rewrite fmap_app. unfold is_pending_steer at 2, in_scope. simpl. rewrite andb_true_r.
      case_match; simpl; [done|by rewrite app_nil_r].
    + intros k' v' Hk'. destruct (Hr _ _ Hk') as (e & r & Hin & _).
      apply (log_le _ _ _ Hl) in Hin. simpl. lia.
  - rewrite Hq. apply steers_resolve. by apply steers_distinct.
Qed.

Lemma queues_append event db seq_id db' :
  log_ok db -> queues_ok db -> append_event_in_tx event db = Ok (seq_id, db') -> queues_ok db'.
Proof.
  intros Hl [Hq Hst Hqueue Hsteer] H. pose proof (log_ok_append _ _ _ _ Hl H) as Hl'.
  pose proof (append_log _ _ _ _ H) as ([Hfresh _ _ _ _] & -> & Hlog & _).
  apply append_event_Ok in H as (_ & _ & now & turns & Ht & _ & H).
  pose proof (fresh_queued _ _ Hq Hfresh) as Hfq. pose proof (fresh_steer _ _ Hst Hfresh) as Hfs.
  pose proof (payload_queued _ _ _ _ _ H Hfq) as Hpq.
  pose proof (payload_steers _ _ _ _ _ _ Ht H Hfs) as Hps.
  assert (queued_rows_ok db') as Hq' by (by eapply queued_rows_append).
  assert (steer_rows_ok db') as Hst' by (by eapply steer_rows_append).
  split; [done|done|intros s|intros s b]; rewrite Hlog.
  - unfold queue_of_log. rewrite fold_left_app. simpl.
    rewrite (queue_append s event db db') by done. by rewrite Hqueue.
  - unfold steers_of_log. rewrite fold_left_app. simpl.
    rewrite (steers_append s b event db db' now) by done. by rewrite Hsteer.
Qed.

Lemma reachable_queues db : reachable db -> queues_ok db.
Proof.
  intros Hr. enough (log_ok db /\ queues_ok db) as [_ ?]; [done|]. revert db Hr.
  apply (reachable_ind (fun db => log_ok db /\ queues_ok db)).
  - split; [apply log_ok_empty|].
    split; [by intros id row|by intros id row|done|done].
  - intros db1 db2 Hs [Hl [Hq Hst Hqueue Hsteer]]. split; [by eapply log_ok_structural|].
    split.
    + unfold queued_rows_ok. rewrite (st_queued _ _ Hs), (st_events _ _ Hs). done.
    + unfold steer_rows_ok. rewrite (st_steers _ _ Hs), (st_events _ _ Hs). done.
    + intros s. unfold pending_queued. rewrite (st_queued _ _ Hs), (st_events _ _ Hs). apply Hqueue.
    + intros s b. unfold pending_steers. rewrite (st_steers _ _ Hs), (st_events _ _ Hs). apply Hsteer.
  - intros event db1 seq_id db2 [Hl Hq] H. split; [by eapply log_ok_append|by eapply queues_append].
Qed.
End queues.
