(* ===== verification/StoreAdmission.v ===== *)
(** * Admission and the claims of continuations

    What the validators accept, what [admit_turn_or_queue] and the claims of
    queued and steered continuations commit on every branch, and sample
    sessions on which the theorems are run. *)

From stdpp Require Import base list strings gmap sorting.
From Stdlib Require Import ZArith Lia SpecFloat.
From S2P Require Import Prelude Text Json Types TurnProjection Store StoreOps StoreLaws.
From S2P Require Import StoreReplay StoreQueue Messages.

#[local] Open Scope Z_scope.

(** ** Readings of an event *)

(** The cancel flag of a session after an event. *)
Definition cancel_step (s : SessionId) (flag : bool) (event : EventEnvelope) : bool :=
  match ev_payload event with
  | SessionCancelled _ => if bool_decide (ev_session_id event = s) then true else flag
  | SessionCancelCleared _ => if bool_decide (ev_session_id event = s) then false else flag
  | _ => flag
  end.

Definition is_turn_started (event : EventEnvelope) : bool :=
  match ev_payload event with TurnStarted _ _ _ _ _ _ _ => true | _ => false end.

(** The session's current settings revision. *)
Definition session_revision (s : SessionId) (db : Db) : option Z :=
  (fun row => Z.max 1 (sr_settings_revision_id row)) <$> db_sessions db !! s.

Section batches.
Context `{codec : RowCodec}.

(** ** A batch of appends *)

Lemma append_events_cons event events db seqs db' :
  append_events_in_tx (event :: events) db = Ok (seqs, db') ->
  exists seq_id db1 seqs', append_event_in_tx event db = Ok (seq_id, db1)
    /\ append_events_in_tx events db1 = Ok (seqs', db') /\ seqs = seq_id :: seqs'.
Proof. unfold append_events_in_tx. simpl. intros H. invert_tx. eauto 10. Qed.

Lemma append_events_nil db seqs db' :
  append_events_in_tx [] db = Ok (seqs, db') -> seqs = [] /\ db' = db.
Proof. unfold append_events_in_tx. simpl. intros H. by invert_tx. Qed.

(** The events of a batch are logged in order, under consecutive numbers. *)
Lemma append_events_log events db seqs db' :
  append_events_in_tx events db = Ok (seqs, db') ->
  seqs = seqZ (db_last_seq db + 1) (Z.of_nat (length events))
  /\ db_events db' = db_events db ++ zip seqs events.
Proof.
  revert db seqs; induction events as [|event events IH]; intros db seqs H.
  - apply append_events_nil in H as [-> ->]. by rewrite app_nil_r.
  - apply append_events_cons in H as (seq_id & db1 & seqs' & H1 & H2 & ->).
    apply append_log in H1 as (_ & -> & Hlog & Hseq & _).
    apply IH in H2 as [-> ->]. rewrite Hlog, Hseq, <-app_assoc. split; [|done].
    simpl length. rewrite (seqZ_cons _ (Z.of_nat (S _))) by lia. f_equal. f_equal; lia.
Qed.

(** A fold over the log, kept by every append, is kept by a batch. *)
Lemma append_events_fold {A} (f : Db -> A) (step : A -> EventEnvelope -> A) :
  (forall event db seq_id db', append_event_in_tx event db = Ok (seq_id, db') ->
     f db' = step (f db) event) ->
  forall events db seqs db', append_events_in_tx events db = Ok (seqs, db') ->
    f db' = fold_left step events (f db).
Proof.
  intros Hstep events. induction events as [|event events IH]; intros db seqs db' H.
  - by apply append_events_nil in H as [_ ->].
  - apply append_events_cons in H as (seq_id & db1 & seqs' & H1 & H2 & _).
    apply IH in H2. simpl. by rewrite <-(Hstep _ _ _ _ H1).
Qed.

Lemma payload_cancel s event seq_id db u db' :
  refresh_payload event seq_id db = Ok (u, db') ->
  cancel_requested s db' = cancel_step s (cancel_requested s db) event.
Proof.
  intros H. unfold cancel_step. payload_cases H; try done; unfold cancel_requested; simpl;
  match goal with
  | Hb : bool_decide _ = true |- _ => apply bool_decide_eq_true in Hb as <-
  | Hb : bool_decide _ = false |- _ => apply bool_decide_eq_false in Hb
  end; rewrite ?lookup_insert_eq, ?lookup_insert_ne by done; done.
Qed.

Lemma append_cancel s event db seq_id db' :
  append_event_in_tx event db = Ok (seq_id, db') ->
  cancel_requested s db' = cancel_step s (cancel_requested s db) event.
Proof. intros (_ & -> & now & turns & _ & _ & H)%append_event_Ok. by apply (payload_cancel s) in H. Qed.

Lemma append_events_cancel s events db seqs db' :
  append_events_in_tx events db = Ok (seqs, db') ->
  cancel_requested s db' = fold_left (cancel_step s) events (cancel_requested s db).
Proof. apply (append_events_fold (cancel_requested s) (cancel_step s)), append_cancel. Qed.

Definition not_cancelled (event : EventEnvelope) : Prop :=
  is_session_cancelled event = false.

(** Nothing but a cancellation raises the flag. *)
Lemma cancel_fold_false s events :
  Forall not_cancelled events -> fold_left (cancel_step s) events false = false.
Proof.
  induction 1 as [|event events He _ IH]; simpl; [done|].
  assert (cancel_step s false event = false) as ->; [|done].
  unfold not_cancelled, is_session_cancelled, cancel_step in *.
  destruct (ev_payload event); try done. by case_bool_decide.
Qed.

Lemma append_reachable event db seq_id db' :
  reachable db -> append_event_in_tx event db = Ok (seq_id, db') -> reachable db'.
Proof.
  intros Hr H. replace db' with (run_op (OpAppend event) db); [by apply reachable_op|].
  simpl. unfold append_event, transaction. by rewrite H.
Qed.

Lemma append_events_reachable events db seqs db' :
  reachable db -> append_events_in_tx events db = Ok (seqs, db') -> reachable db'.
Proof.
  intros Hr H. replace db' with (run_op (OpAppendMany events) db); [by apply reachable_op|].
  simpl. unfold append_events, transaction. by rewrite H.
Qed.

Lemma append_queue s event db seq_id db' :
  append_event_in_tx event db = Ok (seq_id, db') ->
  queue_of_log s (db_events db') = queue_step s (queue_of_log s (db_events db)) event.
Proof.
  intros (_ & _ & -> & _)%append_log. unfold queue_of_log. by rewrite fold_left_app.
Qed.

Lemma append_events_queue s events db seqs db' :
  append_events_in_tx events db = Ok (seqs, db') ->
  queue_of_log s (db_events db')
  = fold_left (queue_step s) events (queue_of_log s (db_events db)).
Proof.
  apply (append_events_fold (fun db => queue_of_log s (db_events db)) (queue_step s)), append_queue.
Qed.

(** The turn started by a batch that finishes none is the active one. *)
Lemma batch_starts_turn events db seqs db' s t l1 e l2 :
  reachable db -> append_events_in_tx events db = Ok (seqs, db') ->
  events = l1 ++ e :: l2 -> starts_turn s t e ->
  Forall (fun event => is_turn_finished event = false) l2 ->
  exists row, db_active_turns db' !! s = Some row /\ at_turn_id row = t
    /\ at_branch_id row = ev_branch_id e.
Proof.
  intros Hr H -> Hst Hl2. pose proof (append_events_reachable _ _ _ _ Hr H) as Hr'.
  destruct (reachable_open_bracketed db' Hr') as [Hopen _].
  apply append_events_log in H as [Hseqs Hlog].
  assert (length seqs = length (l1 ++ e :: l2)) as Hlen.
  { rewrite Hseqs, length_seqZ. lia. }
  rewrite length_app in Hlen. simpl in Hlen.
  destruct (lookup_lt_is_Some_2 seqs (length l1)) as [q Hq]; [lia|].
  rewrite <-(take_drop_middle _ _ _ Hq) in Hlog.
  rewrite zip_with_app in Hlog by (rewrite length_take; lia). simpl in Hlog.
  rewrite app_assoc in Hlog.
  destruct (Hopen s t _ q e _ Hlog Hst) as (row & Hrow & Ht & _ & Hb); [|by exists row].
  apply Forall_forall. intros [q' e'] Hin. apply elem_of_zip_r in Hin.
  rewrite Forall_forall in Hl2. apply Hl2 in Hin. intros [_ Hf]. simpl in Hf.
  unfold is_turn_finished in Hin. by destruct (ev_payload e').
Qed.
End batches.

(** ** What the validators admit *)

Lemma try_fold_Forall {A B} (f : B -> A -> Result B) (Q : A -> Prop) :
  (forall b a b', f b a = Ok b' -> Q a) -> forall l b c, try_fold f b l = Ok c -> Forall Q l.
Proof.
  intros Hf l. induction l as [|a l IH]; simpl; intros b c H; [constructor|].
  apply result_bind_Ok in H as (b' & H1 & H2). constructor; eauto.
Qed.

(** The start of a turn among the events of a transition. *)
Record start_found (events : list EventEnvelope) (branch_id : BranchId) (turn_id : TurnId)
    (revision : Z) (source : TurnStartSource) : Prop := {
  sf_split : exists l1 e l2, events = l1 ++ e :: l2 /\ ev_branch_id e = branch_id
    /\ ev_turn_id e = Some turn_id
    /\ exists p m n c, ev_payload e = TurnStarted turn_id p m n revision source c;
  sf_once : length (List.filter is_turn_started events) = 1%nat;
}.

Definition step_events (acc : option (option TurnId) * option StartedTurn) : nat :=
  match acc.2 with Some _ => 1 | None => 0 end.

Lemma message_step_keeps acc event acc' sd :
  message_and_start_step acc event = Ok acc' -> acc.2 = Some sd ->
  acc'.2 = Some sd /\ is_turn_started event = false.
Proof.
  destruct acc as [m st]. simpl. intros H ->. unfold is_turn_started.
  destruct (ev_payload event); simpl in *; invert_result; try done.
Qed.

Lemma message_fold_keeps events acc acc' sd :
  try_fold message_and_start_step acc events = Ok acc' -> acc.2 = Some sd ->
  acc'.2 = Some sd /\ List.filter is_turn_started events = [].
Proof.
  revert acc; induction events as [|event events IH]; cbn [try_fold List.filter]; intros acc H Hs;
    [by injection H as <-|].
  apply result_bind_Ok in H as (acc1 & H1 & H2).
  destruct (message_step_keeps _ _ _ _ H1 Hs) as [Hs1 ->]. by eapply IH.
Qed.

Lemma message_fold_start events m acc' sd :
  try_fold message_and_start_step (m, None) events = Ok acc' -> acc'.2 = Some sd ->
  start_found events (sd_branch_id sd) (sd_turn_id sd) (sd_settings_revision_id sd) (sd_source sd).
Proof.
  revert m; induction events as [|event events IH]; cbn [try_fold]; intros m H Hs;
    [by injection H as <-|].
  apply result_bind_Ok in H as ([m1 st1] & H1 & H2).
  destruct (is_turn_started event) eqn:E.
  - unfold is_turn_started in E. unfold message_and_start_step in H1.
    destruct (ev_payload event) eqn:Hp; try done. invert_result.
    destruct (message_fold_keeps _ _ _ _ H2 eq_refl) as [Hs' Hnone]. rewrite Hs in Hs'.
    injection Hs' as ->. rewrite orb_false_iff, negb_false_iff, bool_decide_eq_true in Hr.
    destruct Hr as [_ Ht]. split.
    + exists [], event, events. simpl. split_and!; [done|done|done|]. rewrite Hp. by do 4 eexists.
    + cbn [List.filter]. unfold is_turn_started at 1. rewrite Hp. simpl. by rewrite Hnone.
  - assert (st1 = None) as ->.
    { unfold is_turn_started in E. unfold message_and_start_step in H1.
      destruct (ev_payload event); invert_result; done. }
    destruct (IH _ H2 Hs) as [(l1 & e & l2 & -> & He) Hone]. split.
    + exists (event :: l1), e, l2. done.
    + cbn [List.filter]. by rewrite E.
Qed.

Lemma validate_start_Ok events expected source b t :
  validate_message_and_turn_start events expected source = Ok (b, t) ->
  exists r, start_found events b t r source /\ forall r', expected = Some r' -> r = r'.
Proof.
  unfold validate_message_and_turn_start. intros H. invert_result.
  exists (sd_settings_revision_id r1). split.
  - apply negb_false_iff, bool_decide_eq_true in Hr3. rewrite <-Hr3.
    by eapply message_fold_start.
  - intros r' ->. simpl in Hr4. apply negb_false_iff, Z.eqb_eq in Hr4. done.
Qed.

Lemma validate_scope_Ok s b events :
  validate_event_scope s b events = Ok tt -> Forall (fun event => in_scope s b event = true) events.
Proof.
  unfold validate_event_scope. rewrite reject_if_Ok, any_false. intros H.
  eapply Forall_impl; [exact H|]. intros event. by rewrite negb_false_iff.
Qed.

Lemma in_scope_session s b event : in_scope s b event = true -> ev_session_id event = s.
Proof. unfold in_scope. rewrite andb_true_iff, bool_decide_eq_true. tauto. Qed.

Section admission.
Context `{codec : RowCodec}.

Lemma started_active pre events db seqs db' s b t r src :
  reachable db -> append_events_in_tx (pre ++ events) db = Ok (seqs, db') ->
  start_found events b t r src ->
  Forall (fun event => ev_session_id event = s) events ->
  Forall (fun event => is_turn_finished event = false) events ->
  exists row, db_active_turns db' !! s = Some row /\ at_turn_id row = t /\ at_branch_id row = b.
Proof.
  intros Hr H [(l1 & e & l2 & -> & Hb & _ & p & m & n & c & Hp) _] Hs Hf.
  apply Forall_app in Hs as [_ Hs], Hf as [_ Hf].
  inversion_clear Hs as [|? ? He _]. inversion_clear Hf as [|? ? _ Hl2].
  rewrite <-Hb. rewrite app_assoc in H. eapply batch_starts_turn; [done|done|done| |done].
  split; [done|]. by rewrite Hp.
Qed.

Lemma append_other_active events db seqs db' :
  append_events_in_tx events db = Ok (seqs, db') ->
  Forall (fun event => is_turn_boundary event = false) events ->
  db_active_turns db' = db_active_turns db.
Proof.
  revert db seqs; induction events as [|event events IH]; intros db seqs H Hb.
  - by apply append_events_nil in H as [_ ->].
  - apply append_events_cons in H as (q & db1 & seqs' & H1 & H2 & _).
    inversion_clear Hb as [|? ? Hb1 Hb2]. rewrite (IH _ _ H2 Hb2).
    apply append_active in H1 as [H1 _].
    rewrite not_boundary_replay in H1 by done. by injection H1 as <-.
Qed.

(** The events of a queued admission enqueue as many follow-ups as counted. *)
Lemma queued_admission_queue s rev events n k q :
  try_fold (queued_admission_step rev) n events = Ok k ->
  Forall (fun event => ev_session_id event = s) events ->
  exists ids, fold_left (queue_step s) events q = q ++ ids /\ k = n + Z.of_nat (length ids)
    /\ (forall id, id ∈ ids -> exists event m, event ∈ events /\ ev_event_id event = id
          /\ ev_payload event = SessionQueuedMessageEnqueued m rev).
Proof.
  revert n q; induction events as [|event events IH]; cbn [try_fold fold_left]; intros n q H Hs.
  { injection H as <-. exists []. rewrite app_nil_r. split_and!; [done|simpl; lia|].
    by intros id ?%not_elem_of_nil. }
  inversion_clear Hs as [|? ? Hs1 Hs2]. apply result_bind_Ok in H as (n1 & H1 & H2).
  unfold queued_admission_step in H1. unfold queue_step at 2.
  destruct (ev_payload event) eqn:Hp; try done.
  - apply result_bind_Ok in H1 as (? & Hrev & [= <-]).
    apply reject_if_Ok, negb_false_iff, Z.eqb_eq in Hrev. subst settings_revision_id.
    rewrite bool_decide_eq_true_2 by done.
    destruct (IH _ (q ++ [ev_event_id event]) H2 Hs2) as (ids & -> & -> & Hids).
    exists (ev_event_id event :: ids). rewrite <-app_assoc. split_and!; [done|simpl; lia|].
    intros id [->|Hin]%elem_of_cons.
    + exists event, message. split_and!; [by left|done|done].
    + destruct (Hids id Hin) as (e & m & He & ?). exists e, m. split; [by right|done].
  - injection H1 as <-. destruct (IH _ q H2 Hs2) as (ids & -> & -> & Hids).
    exists ids. split_and!; [done|done|]. intros id Hin.
    destruct (Hids id Hin) as (e & m & He & ?). exists e, m. split; [by right|done].
Qed.

Lemma queued_admission_quiet rev n events k :
  try_fold (queued_admission_step rev) n events = Ok k ->
  Forall (fun event => is_turn_boundary event = false) events.
Proof.
  apply try_fold_Forall. intros b event b'. unfold queued_admission_step, is_turn_boundary.
  by destruct (ev_payload event).
Qed.

(** ** What an admission's events are *)

Record admissible_batches (s : SessionId) (rev : Z) (clear : EventEnvelope)
    (started queued : list EventEnvelope) : Prop := {
  ab_start : exists b t, start_found started b t rev UserMessage;
  ab_started_session : Forall (fun event => ev_session_id event = s) started;
  ab_started_kinds : Forall (fun event => is_message_or_start event = true) started;
  ab_clear : cancel_step s true clear = false;
  ab_clear_queue q : queue_step s q clear = q;
  ab_queued_session : Forall (fun event => ev_session_id event = s) queued;
  ab_queued : try_fold (queued_admission_step rev) 0 queued = Ok 1;
}.

Lemma scoped_sessions s b events :
  validate_event_scope s b events = Ok tt -> Forall (fun event => ev_session_id event = s) events.
Proof.
  intros H. apply validate_scope_Ok in H. eapply Forall_impl; [exact H|].
  intros event. apply in_scope_session.
Qed.

Lemma validate_admission_Ok s rev clear started queued :
  validate_turn_admission_events s rev clear started queued = Ok tt ->
  admissible_batches s rev clear started queued.
Proof.
  unfold validate_turn_admission_events. intros H. invert_result.
  destruct r as [b t], r0, r1, r2. simpl in *.
  apply scoped_sessions in Hr0, Hr1, Hr2. inversion_clear Hr2 as [|? ? Hc _].
  destruct (validate_start_Ok _ _ _ _ _ Hr) as (r & Hst & Hrev).
  rewrite (Hrev _ eq_refl) in Hst. split; try done.
  - by exists b, t.
  - apply any_false in H. eapply Forall_impl; [exact H|]. intros event. by rewrite negb_false_iff.
  - unfold cancel_step. destruct (ev_payload clear); try done. by rewrite bool_decide_eq_true_2.
  - intros q. unfold queue_step. by destruct (ev_payload clear).
  - rewrite Hr4. by apply negb_false_iff, Z.eqb_eq in Hr5 as ->.
Qed.

Lemma message_or_start_kinds event :
  is_message_or_start event = true ->
  is_turn_finished event = false /\ not_cancelled event
  /\ forall s q, queue_step s q event = q.
Proof.
  unfold is_message_or_start, is_turn_finished, not_cancelled, is_session_cancelled, queue_step.
  by destruct (ev_payload event).
Qed.

Lemma fold_queue_same s events q :
  Forall (fun event => forall s q, queue_step s q event = q) events ->
  fold_left (queue_step s) events q = q.
Proof. induction 1 as [|event events He _ IH]; simpl; [done|]. by rewrite He. Qed.
End admission.

Section outcomes.
Context `{codec : RowCodec}.

Lemma pending_work_queue s db :
  reachable db -> session_has_pending_work s db = false -> queue_of_log s (db_events db) = [].
Proof.
  intros Hr H. rewrite <-(qo_queue _ (reachable_queues db Hr)).
  destruct (pending_queued s db) as [|kv l] eqn:E; [done|exfalso].
  assert (kv ∈ pending_queued s db) as Hin by (rewrite E; by left).
  rewrite pending_queued_ordered in Hin. apply elem_of_ordered in Hin as [Hin Hp].
  unfold session_has_pending_work in H. rewrite !orb_false_iff in H.
  destruct H as [[_ H] _]. unfold table_any in H. apply any_false in H.
  rewrite Forall_forall in H. specialize (H kv). destruct kv as [id row]. simpl in *.
  rewrite elem_of_map_to_list in H. specialize (H Hin).
  unfold is_pending_queued in Hp. simpl in Hp. by rewrite Hp in H.
Qed.

Lemma exhausted_db s db b db' : session_budget_exhausted_in_tx s db = Ok (b, db') -> db' = db.
Proof.
  unfold session_budget_exhausted_in_tx. intros H. invert_tx.
  destruct (db_budgets db !! s); invert_tx; done.
Qed.

(** The clearing of a stale cancellation before a turn. *)
Lemma clear_then_start s clear started db seqs0 db1 seqs db2 :
  (if cancel_requested s db
   then seq ← append_event_in_tx clear; mret [seq] else mret [] : Tx (list Z)) db
    = Ok (seqs0, db1) ->
  append_events_in_tx started db1 = Ok (seqs, db2) ->
  append_events_in_tx ((if cancel_requested s db then [clear] else []) ++ started) db
    = Ok (seqs0 ++ seqs, db2).
Proof.
  intros H1 H2. destruct (cancel_requested s db); invert_tx; [|done].
  unfold append_events_in_tx in *. simpl. unfold mbind, tx_bind. rewrite Htx.
  unfold append_events_in_tx in H2. by rewrite H2.
Qed.

(** The outcomes of [admit_turn_or_queue]. *)
Inductive admitted (s : SessionId) (rev : Z) (clear : EventEnvelope)
    (started queued : list EventEnvelope) (db : Db) : SessionTurnAdmission -> Db -> Prop :=
  | admitted_started seqs db' :
      session_revision s db = Some rev ->
      session_has_pending_work s db = false ->
      admissible_batches s rev clear started queued ->
      session_budget_exhausted_in_tx s db = Ok (false, db) ->
      append_events_in_tx ((if cancel_requested s db then [clear] else []) ++ started) db
        = Ok (seqs, db') ->
      admitted s rev clear started queued db (AdmissionStarted seqs) db'
  | admitted_queued seqs db' :
      session_revision s db = Some rev ->
      session_has_pending_work s db = true ->
      admissible_batches s rev clear started queued ->
      session_budget_exhausted_in_tx s db = Ok (false, db) ->
      append_events_in_tx queued db = Ok (seqs, db') ->
      admitted s rev clear started queued db
        (AdmissionQueued seqs (length (pending_queued s db'))) db'
  | admitted_retry rev' :
      session_revision s db = Some rev' -> rev' <> rev ->
      admitted s rev clear started queued db (RetryWithSettings rev') db
  | admitted_exhausted :
      session_revision s db = Some rev ->
      session_budget_exhausted_in_tx s db = Ok (true, db) ->
      admitted s rev clear started queued db AdmissionBudgetExhausted db.

Lemma admit_cases s rev clear started queued db r db' :
  admit_turn_or_queue s rev clear started queued db = (Ok r, db') ->
  admitted s rev clear started queued db r db'.
Proof.
  unfold admit_turn_or_queue. rewrite transaction_Ok. intros H. invert_tx.
  assert (session_revision s db = Some (Z.max 1 (sr_settings_revision_id a0))) as Hrev.
  { unfold session_revision. by rewrite Htx0. }
  destruct (Z.eqb_spec (Z.max 1 (sr_settings_revision_id a0)) rev) as [Heq|Hne]; simpl in H;
    [|invert_tx; by constructor].
  rewrite Heq in Hrev. invert_tx. destruct a as [].
  pose proof (exhausted_db _ _ _ _ Htx1) as ->. apply validate_admission_Ok in Htx.
  destruct a1; [invert_tx; by constructor|]. invert_tx.
  destruct (session_has_pending_work s db) eqn:Hp; invert_tx.
  - by eapply admitted_queued.
  - eapply admitted_started; try done. by eapply clear_then_start.
Qed.

(** The outcomes of [claim_queued_continuation]. *)
Inductive queue_claimed (s : SessionId) (queue_event_id : EventId)
    (events : list EventEnvelope) (db : Db) : ContinuationClaim -> Db -> Prop :=
  | queue_claimed_claimed seqs db' row rest :
      cancel_requested s db = false -> active_turn_exists s db = false ->
      session_budget_exhausted_in_tx s db = Ok (false, db) ->
      pending_queued s db = (queue_event_id, row) :: rest ->
      validate_queued_continuation_events s queue_event_id
        (Z.max 1 (qd_settings_revision_id row)) events = Ok tt ->
      append_events_in_tx events db = Ok (seqs, db') ->
      queue_claimed s queue_event_id events db (ClaimClaimed seqs) db'
  | queue_claimed_cancel :
      cancel_requested s db = true -> queue_claimed s queue_event_id events db ClaimCancelPending db
  | queue_claimed_busy :
      active_turn_exists s db = true -> queue_claimed s queue_event_id events db ClaimBusy db
  | queue_claimed_exhausted :
      session_budget_exhausted_in_tx s db = Ok (true, db) ->
      queue_claimed s queue_event_id events db ClaimBudgetExhausted db
  | queue_claimed_stale :
      head (pending_queued s db).*1 <> Some queue_event_id ->
      queue_claimed s queue_event_id events db ClaimStale db.

Lemma claim_queued_cases s id events db r db' :
  claim_queued_continuation s id events db = (Ok r, db') -> queue_claimed s id events db r db'.
Proof.
  unfold claim_queued_continuation. rewrite transaction_Ok. intros H. invert_tx.
  destruct (cancel_requested s db) eqn:Hc; [invert_tx; by constructor|]. invert_tx.
  destruct (active_turn_exists s db) eqn:Ha; [invert_tx; by constructor|]. invert_tx.
  pose proof (exhausted_db _ _ _ _ Htx) as ->.
  destruct a; [invert_tx; by constructor|]. invert_tx.
  destruct (pending_queued s db) as [|[next row] rest] eqn:Hq.
  - invert_tx. apply queue_claimed_stale. by rewrite Hq.
  - case_bool_decide as Hn; simpl in H; invert_tx.
    + subst next. destruct a. by eapply queue_claimed_claimed.
    + apply queue_claimed_stale. rewrite Hq. simpl. congruence.
Qed.

Lemma queued_continuation_quiet id events n k :
  try_fold (queued_continuation_step id) n events = Ok k ->
  Forall (fun event => is_turn_finished event = false /\ not_cancelled event) events.
Proof.
  apply try_fold_Forall. intros b event b'.
  unfold queued_continuation_step, is_turn_finished, not_cancelled, is_session_cancelled.
  by destruct (ev_payload event).
Qed.

(** Exactly the claimed follow-up leaves the queue. *)
Lemma queued_continuation_queue s id events n k q :
  try_fold (queued_continuation_step id) n events = Ok k ->
  fold_left (queue_step s) events q = Nat.iter (Z.to_nat (k - n)) (drop_id id) q
  /\ n <= k.
Proof.
  revert n q; induction events as [|event events IH]; cbn [try_fold fold_left]; intros n q H.
  { injection H as <-. rewrite Z.sub_diag. split; [done|lia]. }
  apply result_bind_Ok in H as (n1 & H1 & H2). unfold queued_continuation_step in H1.
  unfold queue_step at 2. destruct (ev_payload event); try done;
    try (injection H1 as <-; by apply IH).
  case_bool_decide as Hid; [|done]. destruct outcome; [|done]. injection H1 as <-. subst.
  destruct (IH _ (drop_id id q) H2) as [-> Hle]. split; [|lia].
  replace (Z.to_nat (k - n)) with (S (Z.to_nat (k - (n + 1)))) by lia.
  by rewrite Nat.iter_succ_r.
Qed.

Lemma drop_head id l : id ∉ l -> drop_id id (id :: l) = l.
Proof.
  intros Hn. unfold drop_id. simpl. rewrite bool_decide_eq_true_2 by done. simpl.
  induction l as [|x l IH]; simpl; [done|].
  rewrite not_elem_of_cons in Hn. destruct Hn as [Hx Hn].
  rewrite bool_decide_eq_false_2 by congruence. simpl. by rewrite IH.
Qed.

Lemma pending_NoDup s db : NoDup (pending_queued s db).*1.
Proof.
  unfold pending_queued. rewrite merge_sort_Permutation.
  pose proof (NoDup_fst_map_to_list (db_queued db)) as Hn. revert Hn.
  induction (map_to_list (db_queued db)) as [|[k v] l IH]; [done|]. csimpl. intros [Hk Hn]%NoDup_cons.
  case_match; csimpl; [|by apply IH]. apply NoDup_cons. split; [|by apply IH].
  intros Hin. apply Hk. apply list_elem_of_fmap in Hin as ([k' v'] & -> & Hin).
  apply list_elem_of_In, filter_In in Hin as [Hin%list_elem_of_In _].
  apply list_elem_of_fmap. by exists (k', v').
Qed.
End outcomes.

(** ** Steer continuations *)

Section steers.
Context `{codec : RowCodec}.

Inductive steer_claimed (s : SessionId) (b : BranchId) (steer_event_ids : list EventId)
    (events : list EventEnvelope) (db : Db) : ContinuationClaim -> Db -> Prop :=
  | steer_claimed_claimed seqs db' r :
      cancel_requested s db = false -> active_turn_exists s db = false ->
      session_budget_exhausted_in_tx s db = Ok (false, db) ->
      (pending_steers s b db).*1 = steer_event_ids -> steer_event_ids <> [] ->
      validate_steer_continuation_events s b steer_event_ids r events = Ok tt ->
      append_events_in_tx events db = Ok (seqs, db') ->
      steer_claimed s b steer_event_ids events db (ClaimClaimed seqs) db'
  | steer_claimed_cancel :
      cancel_requested s db = true ->
      steer_claimed s b steer_event_ids events db ClaimCancelPending db
  | steer_claimed_busy :
      active_turn_exists s db = true -> steer_claimed s b steer_event_ids events db ClaimBusy db
  | steer_claimed_exhausted :
      session_budget_exhausted_in_tx s db = Ok (true, db) ->
      steer_claimed s b steer_event_ids events db ClaimBudgetExhausted db
  | steer_claimed_stale :
      (pending_steers s b db).*1 <> steer_event_ids \/ steer_event_ids = [] ->
      steer_claimed s b steer_event_ids events db ClaimStale db.

Lemma claim_steer_cases s b ids events db r db' :
  claim_steer_continuation s b ids events db = (Ok r, db') -> steer_claimed s b ids events db r db'.
Proof.
  unfold claim_steer_continuation. rewrite transaction_Ok. intros H. invert_tx.
  destruct (cancel_requested s db) eqn:Hc; [invert_tx; by constructor|]. invert_tx.
  destruct (active_turn_exists s db) eqn:Ha; [invert_tx; by constructor|]. invert_tx.
  pose proof (exhausted_db _ _ _ _ Htx) as ->.
  destruct a; [invert_tx; by constructor|]. invert_tx.
  case_bool_decide as Hids; simpl in H; [|invert_tx; apply steer_claimed_stale; by left].
  destruct (last (pending_steers s b db)) as [[k row]|] eqn:Hl.
  - invert_tx. destruct a. eapply steer_claimed_claimed; try done.
    intros ->. apply fmap_nil_inv in Hids. by rewrite Hids in Hl.
  - invert_tx. apply steer_claimed_stale. right. apply last_None in Hl. by rewrite <-Hids, Hl.
Qed.

Lemma steer_continuation_quiet ids events n k :
  try_fold (steer_continuation_step ids) n events = Ok k ->
  Forall (fun event => is_turn_finished event = false /\ not_cancelled event) events.
Proof.
  apply try_fold_Forall. intros a event a'.
  unfold steer_continuation_step, is_turn_finished, not_cancelled, is_session_cancelled.
  by destruct (ev_payload event).
Qed.

Lemma steer_continuation_steers s b ids events n k q :
  try_fold (steer_continuation_step ids) n events = Ok k ->
  fold_left (steer_step s b) events q = Nat.iter (Z.to_nat (k - n)) (drop_ids ids) q /\ n <= k.
Proof.
  revert n q; induction events as [|event events IH]; cbn [try_fold fold_left]; intros n q H.
  { injection H as <-. rewrite Z.sub_diag. split; [done|lia]. }
  apply result_bind_Ok in H as (n1 & H1 & H2). unfold steer_continuation_step in H1.
  unfold steer_step at 2. destruct (ev_payload event); try done;
    try (injection H1 as <-; by apply IH).
  case_bool_decide as Hid; [|done]. destruct outcome; [|done]. injection H1 as <-. subst.
  destruct (IH _ (drop_ids ids q) H2) as [-> Hle]. split; [|lia].
  replace (Z.to_nat (k - n)) with (S (Z.to_nat (k - (n + 1)))) by lia.
  by rewrite Nat.iter_succ_r.
Qed.

Lemma drop_id_not id l : id ∉ drop_id id l.
Proof.
  unfold drop_id. intros Hin. apply list_elem_of_In, filter_In in Hin as [_ Hb].
  by rewrite negb_true_iff, bool_decide_eq_false in Hb.
Qed.

Lemma drop_id_sub id l x : x ∈ drop_id id l -> x ∈ l.
Proof. unfold drop_id. intros Hin. by apply list_elem_of_In, filter_In in Hin as [?%list_elem_of_In _]. Qed.

Lemma drop_ids_sub ids l x : x ∈ drop_ids ids l -> x ∈ l /\ x ∉ ids.
Proof.
  revert l; induction ids as [|id ids IH]; simpl; intros l H; [split; [done|apply not_elem_of_nil]|].
  apply IH in H as [H Hn]. split; [by eapply drop_id_sub|].
  apply not_elem_of_cons. split; [|done]. intros ->. by eapply drop_id_not.
Qed.

Lemma drop_ids_all l : drop_ids l l = [].
Proof.
  destruct (drop_ids l l) as [|x l'] eqn:E; [done|exfalso].
  assert (x ∈ drop_ids l l) as Hin by (rewrite E; by left).
  by apply drop_ids_sub in Hin as [H1 H2].
Qed.

Lemma append_steers_log s b event db seq_id db' :
  append_event_in_tx event db = Ok (seq_id, db') ->
  steers_of_log s b (db_events db') = steer_step s b (steers_of_log s b (db_events db)) event.
Proof.
  intros (_ & _ & -> & _)%append_log. unfold steers_of_log. by rewrite fold_left_app.
Qed.

Lemma append_events_steers s b events db seqs db' :
  append_events_in_tx events db = Ok (seqs, db') ->
  steers_of_log s b (db_events db')
  = fold_left (steer_step s b) events (steers_of_log s b (db_events db)).
Proof.
  apply (append_events_fold (fun db => steers_of_log s b (db_events db)) (steer_step s b)),
    append_steers_log.
Qed.
End steers.

(** ** A session with work to admit *)

Definition quiet_history : list StoreOp := [OpCreateSession sample_session sample_branch].
Definition idle_db : Db := run_ops quiet_history db_empty.
Lemma idle_reachable : reachable idle_db.
Proof. by exists quiet_history. Qed.

Definition sample_message (n : Z) : Message :=
  message_text (MkUuid (Z.to_N n)) n RoleUser "go".

Definition in_turn (turn : N) (e : EventEnvelope) : EventEnvelope :=
  with_turn_id (fun _ => "t") e (MkUuid turn).

(** The batches of an admission whose events are numbered from [n]. *)
Definition sample_clear (n : Z) : EventEnvelope := sample_event n (SessionCancelCleared "new turn").
Definition sample_started (n : Z) (turn : N) : list EventEnvelope :=
  [in_turn turn (sample_event (n + 1) (MessageAppended (sample_message (n + 1))));
   in_turn turn (sample_turn_started (n + 2) turn)].
Definition sample_queued (n : Z) : list EventEnvelope :=
  [sample_event (n + 3) (SessionQueuedMessageEnqueued (sample_message (n + 3)) 1)].
Definition sample_admission (n : Z) (turn : N) : StoreOp :=
  OpAdmit (MkUuid 1) 1 (sample_clear n) (sample_started n turn) (sample_queued n).

(** A turn running, a follow-up queued behind it, and the turn finished. *)
Definition queued_history : list StoreOp :=
  quiet_history ++ [sample_admission 10 20; sample_admission 14 21;
                    OpAppend (sample_turn_finished 18 20)].
Definition queued_db : Db := run_ops queued_history db_empty.
Lemma queued_reachable : reachable queued_db.
Proof. by exists queued_history. Qed.

Example queued_db_queue : queue_of_log (MkUuid 1) (db_events queued_db) = [MkUuid 17].
Proof. vm_compute. reflexivity. Qed.

(** ** Theorems *)

(** C4. A turn is admitted only into an idle session: [Started] means that the
    settings revision was the expected one, that the session had no active
    turn, approval, question, follow-up or steer pending, that its budget was
    not exhausted; afterwards the log has the clearing of a stale
    cancellation, if one was requested, and the turn's events, the started
    turn is the session's active one, and no cancellation is pending. *)
Theorem admission_starts_turn `{RowCodec} s rev clear started queued db seqs db' :
  reachable db ->
  admit_turn_or_queue s rev clear started queued db = (Ok (AdmissionStarted seqs), db') ->
  session_revision s db = Some rev /\ session_has_pending_work s db = false
  /\ session_budget_exhausted_in_tx s db = Ok (false, db)
  /\ db_events db' = db_events db
       ++ zip seqs ((if cancel_requested s db then [clear] else []) ++ started)
  /\ cancel_requested s db' = false
  /\ queue_of_log s (db_events db') = []
  /\ exists b t row, start_found started b t rev UserMessage
       /\ db_active_turns db' !! s = Some row /\ at_turn_id row = t /\ at_branch_id row = b.
Proof.
  intros Hr Hadm. apply admit_cases in Hadm. inversion Hadm as [? ? Hrev Hp Hab Hex Happ| | |]; subst.
  destruct Hab as [(b & t & Hst) Hses Hkinds Hclear Hcq _ _].
  assert (Forall (fun event => is_turn_finished event = false /\ not_cancelled event
            /\ forall s q, queue_step s q event = q) started) as Hquiet.
  { eapply Forall_impl; [exact Hkinds|]. intros event. apply message_or_start_kinds. }
  pose proof (append_events_queue s _ _ _ _ Happ) as Hq.
  pose proof (append_events_cancel s _ _ _ _ Happ) as Hc.
  split_and!; try done.
  - by apply append_events_log in Happ as [_ ->].
  - rewrite Hc, fold_left_app.
    assert (fold_left (cancel_step s) (if cancel_requested s db then [clear] else [])
              (cancel_requested s db) = false) as -> by (by destruct (cancel_requested s db)).
    apply cancel_fold_false. by eapply Forall_impl; [exact Hquiet|]; intros ? (? & ? & ?).
  - rewrite Hq, (pending_work_queue _ _ Hr Hp), fold_left_app.
    rewrite fold_queue_same; [destruct (cancel_requested s db); simpl; [apply Hcq|done]|].
    by eapply Forall_impl; [exact Hquiet|]; intros ? (? & ? & ?).
  - destruct (started_active _ _ _ _ _ s b t rev UserMessage Hr Happ) as (row & Hrow);
      [done|done|by eapply Forall_impl; [exact Hquiet|]; intros ? [? _]|].
    by exists b, t, row.
Qed.

Lemma admission_starts_turn_witness :
  let op db := admit_turn_or_queue (MkUuid 1) 1 (sample_clear 10) (sample_started 10 20)
                 (sample_queued 10) db in
  (op idle_db).1 = Ok (AdmissionStarted [1; 2])
  /\ exists b t row, start_found (sample_started 10 20) b t 1 UserMessage
       /\ db_active_turns (op idle_db).2 !! MkUuid 1 = Some row
       /\ at_turn_id row = t /\ at_branch_id row = b.
Proof.
  cbv zeta. assert ((admit_turn_or_queue (MkUuid 1) 1 (sample_clear 10) (sample_started 10 20)
    (sample_queued 10) idle_db).1 = Ok (AdmissionStarted [1; 2])) as Hres
    by (vm_compute; reflexivity).
  split; [exact Hres|].
  destruct (admission_starts_turn (MkUuid 1) 1 (sample_clear 10) (sample_started 10 20)
    (sample_queued 10) idle_db [1; 2] _ idle_reachable
    (eq_trans (surjective_pairing _) (f_equal (fun r => (r, _)) Hres)))
    as (_ & _ & _ & _ & _ & _ & H). exact H.
Defined.

(** A session with work pending queues the message: [Queued] means the
    session had work pending, and afterwards the log has the queued events,
    exactly one follow-up joined the end of the session's queue, its position
    is the length of that queue, and no turn was started or ended. *)
Theorem admission_queues `{RowCodec} s rev clear started queued db seqs position db' :
  reachable db ->
  admit_turn_or_queue s rev clear started queued db = (Ok (AdmissionQueued seqs position), db') ->
  session_revision s db = Some rev /\ session_has_pending_work s db = true
  /\ db_events db' = db_events db ++ zip seqs queued
  /\ db_active_turns db' = db_active_turns db
  /\ position = length (queue_of_log s (db_events db'))
  /\ exists event message,
       event ∈ queued /\ ev_payload event = SessionQueuedMessageEnqueued message rev
       /\ queue_of_log s (db_events db') = queue_of_log s (db_events db) ++ [ev_event_id event].
Proof.
  intros Hr Hadm. apply admit_cases in Hadm. inversion Hadm as [|? ? Hrev Hp Hab Hex Happ| |]; subst.
  destruct Hab as [_ _ _ _ _ Hses Hcount].
  pose proof (append_events_reachable _ _ _ _ Hr Happ) as Hr'.
  destruct (queued_admission_queue s rev queued 0 1 (queue_of_log s (db_events db)) Hcount Hses)
    as (ids & Hids & Hlen & Hin).
  rewrite <-(append_events_queue s _ _ _ _ Happ) in Hids.
  split_and!; [done|done|by apply append_events_log in Happ as [_ ->]| | |].
  - eapply append_other_active; [done|]. by eapply queued_admission_quiet.
  - by rewrite <-(qo_queue _ (reachable_queues db' Hr')), length_fmap.
  - destruct ids as [|id [|]]; simpl in Hlen; try lia.
    destruct (Hin id) as (event & m & ? & <- & ?); [by left|]. by exists event, m.
Qed.

Definition busy_db : Db := run_ops (quiet_history ++ [sample_admission 10 20]) db_empty.
Lemma busy_reachable : reachable busy_db.
Proof. by exists (quiet_history ++ [sample_admission 10 20]). Qed.

Lemma admission_queues_witness :
  let r := admit_turn_or_queue (MkUuid 1) 1 (sample_clear 14) (sample_started 14 21)
             (sample_queued 14) busy_db in
  r.1 = Ok (AdmissionQueued [3] 1)
  /\ 1%nat = length (queue_of_log (MkUuid 1) (db_events r.2)).
Proof.
  cbv zeta. assert ((admit_turn_or_queue (MkUuid 1) 1 (sample_clear 14) (sample_started 14 21)
    (sample_queued 14) busy_db).1 = Ok (AdmissionQueued [3] 1)) as Hres
    by (vm_compute; reflexivity).
  split; [exact Hres|].
  destruct (admission_queues (MkUuid 1) 1 (sample_clear 14) (sample_started 14 21)
    (sample_queued 14) busy_db [3] 1%nat _ busy_reachable
    (eq_trans (surjective_pairing _) (f_equal (fun r => (r, _)) Hres)))
    as (_ & _ & _ & _ & H & _). exact H.
Defined.

(** C7. Follow-ups leave the queue in the order they joined it: a claim of a
    queued continuation commits only for the oldest pending follow-up of a
    session that is idle, not cancelled and within its budget; exactly that
    follow-up leaves the queue, and its turn is the session's active one.
    Every other outcome, refusals and errors, leaves the database as it was,
    and is reported for its reason. *)
Theorem queue_is_fifo `{RowCodec} s id events db r db' :
  reachable db -> claim_queued_continuation s id events db = (r, db') ->
  match r with
  | Ok (ClaimClaimed seqs) =>
      cancel_requested s db = false /\ active_turn_exists s db = false
      /\ (exists rest, queue_of_log s (db_events db) = id :: rest
            /\ queue_of_log s (db_events db') = rest)
      /\ db_events db' = db_events db ++ zip seqs events
      /\ exists b t row revision, start_found events b t revision QueuedFollowUp
           /\ db_active_turns db' !! s = Some row /\ at_turn_id row = t /\ at_branch_id row = b
  | Ok ClaimCancelPending => db' = db /\ cancel_requested s db = true
  | Ok ClaimBusy => db' = db /\ active_turn_exists s db = true
  | Ok ClaimBudgetExhausted => db' = db /\ session_budget_exhausted_in_tx s db = Ok (true, db)
  | Ok ClaimStale => db' = db /\ head (queue_of_log s (db_events db)) <> Some id
  | Err _ => db' = db
  end.
Proof.
  intros Hr Hcl. destruct r as [r|e]; [|by apply transaction_Err in Hcl].
  apply claim_queued_cases in Hcl. pose proof (qo_queue _ (reachable_queues db Hr) s) as Hqueue.
  destruct Hcl as [seqs db' row rest Hc Ha Hex Hpend Hval Happ| | | |Hstale]; try done;
    [|by rewrite Hqueue in Hstale].
  unfold validate_queued_continuation_events in Hval. invert_result. destruct r as [b t], r0.
  destruct (validate_start_Ok _ _ _ _ _ Hr0) as (revision & Hst & _).
  apply negb_false_iff, Z.eqb_eq in Hval. subst r1.
  pose proof (queued_continuation_quiet _ _ _ _ Hr2) as Hquiet.
  split_and!; [done|done| | |].
  - rewrite Hpend in Hqueue. csimpl in Hqueue. exists rest.*1. split; [done|].
    rewrite (append_events_queue s _ _ _ _ Happ), <-Hqueue.
    destruct (queued_continuation_queue s id events 0 1 (id :: rest.*1) Hr2) as [-> _]. simpl.
    apply drop_head. pose proof (pending_NoDup s db) as Hnd. rewrite Hpend in Hnd.
    by apply NoDup_cons in Hnd as [? _].
  - by apply append_events_log in Happ as [_ ->].
  - destruct (started_active [] events db seqs db' s b t revision QueuedFollowUp) as (row' & Hrow);
      [done|done|done|by eapply scoped_sessions| |by exists b, t, row', revision].
    by eapply Forall_impl; [exact Hquiet|]; intros ? [? _].
Qed.

Definition sample_continuation (n : Z) (turn : N) (id : EventId) : list EventEnvelope :=
  [in_turn turn (sample_event n (SessionQueuedMessageResolved id QueueDispatched None));
   in_turn turn (sample_event (n + 1) (MessageAppended (sample_message (n + 1))));
   in_turn turn (sample_event (n + 2)
     (TurnStarted (MkUuid turn) "p" "m" 4 1 QueuedFollowUp None))].

Lemma queue_is_fifo_witness :
  let r := claim_queued_continuation (MkUuid 1) (MkUuid 17)
             (sample_continuation 19 21 (MkUuid 17)) queued_db in
  r.1 = Ok (ClaimClaimed [5; 6; 7])
  /\ exists rest, queue_of_log (MkUuid 1) (db_events queued_db) = MkUuid 17 :: rest
       /\ queue_of_log (MkUuid 1) (db_events r.2) = rest.
Proof.
  cbv zeta. assert ((claim_queued_continuation (MkUuid 1) (MkUuid 17)
    (sample_continuation 19 21 (MkUuid 17)) queued_db).1 = Ok (ClaimClaimed [5; 6; 7])) as Hres
    by (vm_compute; reflexivity).
  split; [exact Hres|].
  destruct (queue_is_fifo (MkUuid 1) (MkUuid 17) (sample_continuation 19 21 (MkUuid 17))
    queued_db (Ok (ClaimClaimed [5; 6; 7])) _ queued_reachable
    (eq_trans (surjective_pairing _) (f_equal (fun r => (r, _)) Hres)))
    as (_ & _ & Hq & _). exact Hq.
Defined.

(** A steer continuation takes every pending steer of its branch, in the
    order they were recorded, and leaves none behind; any other outcome leaves
    the database as it was. *)
Theorem steers_are_drained `{RowCodec} s b ids events db r db' :
  reachable db -> claim_steer_continuation s b ids events db = (r, db') ->
  match r with
  | Ok (ClaimClaimed seqs) =>
      cancel_requested s db = false /\ active_turn_exists s db = false
      /\ ids <> [] /\ steers_of_log s b (db_events db) = ids
      /\ steers_of_log s b (db_events db') = []
      /\ db_events db' = db_events db ++ zip seqs events
      /\ exists t row revision, start_found events b t revision SteerFollowUp
           /\ db_active_turns db' !! s = Some row /\ at_turn_id row = t /\ at_branch_id row = b
  | Ok ClaimCancelPending => db' = db /\ cancel_requested s db = true
  | Ok ClaimBusy => db' = db /\ active_turn_exists s db = true
  | Ok ClaimBudgetExhausted => db' = db /\ session_budget_exhausted_in_tx s db = Ok (true, db)
  | Ok ClaimStale => db' = db /\ (steers_of_log s b (db_events db) <> ids \/ ids = [])
  | Err _ => db' = db
  end.
Proof.
  intros Hr Hcl. destruct r as [r|e]; [|by apply transaction_Err in Hcl].
  apply claim_steer_cases in Hcl. pose proof (qo_steer _ (reachable_queues db Hr) s b) as Hsteers.
  destruct Hcl as [seqs db' rev Hc Ha Hex Hpend Hne Hval Happ| | | |Hstale]; try done;
    [|by rewrite Hsteers in Hstale].
  unfold validate_steer_continuation_events in Hval. invert_result. destruct r as [b' t], r1.
  destruct (validate_start_Ok _ _ _ _ _ Hr0) as (revision & Hst & _).
  apply negb_false_iff, Z.eqb_eq in Hval. subst r2.
  apply negb_false_iff, bool_decide_eq_true in Hr1. simpl in Hr1. subst b'.
  pose proof (steer_continuation_quiet _ _ _ _ Hr3) as Hquiet.
  split_and!; try done.
  - by rewrite <-Hsteers.
  - rewrite (append_events_steers s b _ _ _ _ Happ), <-Hsteers, Hpend.
    destruct (steer_continuation_steers s b ids events 0 1 ids Hr3) as [-> _]. simpl.
    apply drop_ids_all.
  - by apply append_events_log in Happ as [_ ->].
  - destruct (started_active [] events db seqs db' s b t revision SteerFollowUp) as (row' & Hrow);
      [done|done|done|by eapply scoped_sessions| |by exists t, row', revision].
    by eapply Forall_impl; [exact Hquiet|]; intros ? [? _].
Qed.

Definition steered_history : list StoreOp :=
  quiet_history ++ [sample_admission 10 20;
    OpAppend (sample_event 14 (SessionSteered "left" 1));
    OpAppend (sample_event 15 (SessionSteered "right" 1));
    OpAppend (sample_turn_finished 16 20)].
Definition steered_db : Db := run_ops steered_history db_empty.
Lemma steered_reachable : reachable steered_db.
Proof. by exists steered_history. Qed.

Definition sample_steer_continuation : list EventEnvelope :=
  [in_turn 21 (sample_event 17 (SessionSteersResolved [MkUuid 14; MkUuid 15] SteerApplied
     None None));
   in_turn 21 (sample_event 18 (MessageAppended (sample_message 18)));
   in_turn 21 (sample_event 19 (TurnStarted (MkUuid 21) "p" "m" 4 1 SteerFollowUp None))].

Lemma steers_are_drained_witness :
  let r := claim_steer_continuation (MkUuid 1) (MkUuid 2) [MkUuid 14; MkUuid 15]
             sample_steer_continuation steered_db in
  r.1 = Ok (ClaimClaimed [6; 7; 8])
  /\ steers_of_log (MkUuid 1) (MkUuid 2) (db_events r.2) = [].
Proof.
  cbv zeta. assert ((claim_steer_continuation (MkUuid 1) (MkUuid 2) [MkUuid 14; MkUuid 15]
    sample_steer_continuation steered_db).1 = Ok (ClaimClaimed [6; 7; 8])) as Hres
    by (vm_compute; reflexivity).
  split; [exact Hres|].
  destruct (steers_are_drained (MkUuid 1) (MkUuid 2) [MkUuid 14; MkUuid 15]
    sample_steer_continuation steered_db (Ok (ClaimClaimed [6; 7; 8])) _ steered_reachable
    (eq_trans (surjective_pairing _) (f_equal (fun r => (r, _)) Hres)))
    as (_ & _ & _ & _ & Hq & _). exact Hq.
Defined.
