(* ===== verification/StoreLifecycle.v ===== *)
(** * Turn transitions, budgets and settings revisions of the store

    [commit_active_turn_events] and [commit_turn_terminal_transition], the
    counters of [session_budget_projection], the transitions that exhaust a
    budget, and the revisions of a session's settings. *)

From stdpp Require Import base list strings gmap.
From Stdlib Require Import ZArith Lia SpecFloat.
From S2P Require Import Prelude Text Json Types TurnProjection Store StoreOps StoreLaws.
From S2P Require Import StoreReplay StoreQueue StoreAdmission.

#[local] Open Scope Z_scope.

(** ** Turn transitions *)

Section turns.
Context `{codec : RowCodec}.

Lemma append_events_active events db seqs db' :
  append_events_in_tx events db = Ok (seqs, db') ->
  opt_fold replay_boundary (db_active_turns db) (zip seqs events) = Some (db_active_turns db').
Proof.
  revert db seqs; induction events as [|event events IH]; intros db seqs H.
  - by apply append_events_nil in H as [-> ->].
  - apply append_events_cons in H as (q & db1 & seqs' & H1 & H2 & ->).
    apply append_log in H1 as Hl. destruct Hl as (_ & Hq & _).
    apply append_active in H1 as [H1 _]. cbn [zip_with opt_fold]. rewrite H1. by apply IH.
Qed.

Lemma replay_no_start active q e active' s t :
  is_turn_started e = false ->
  (forall row, active !! s = Some row -> at_turn_id row = t) ->
  replay_boundary active (q, e) = Some active' ->
  (forall row, active' !! s = Some row -> at_turn_id row = t)
  /\ (finishes s t e -> active' !! s = None)
  /\ (forall s', s' <> ev_session_id e -> active' !! s' = active !! s').
Proof.
  unfold is_turn_started, replay_boundary, finishes. intros Hns Ha H.
  destruct (ev_payload e); try done; try (injection H as <-; split_and!; by auto || intros []).
  injection H as <-. destruct (is_some_and _ _) eqn:E; split_and!; try done.
  - intros row Hrow. apply Ha. by apply lookup_delete_Some in Hrow as [_ ?].
  - intros [<- ->]. apply lookup_delete_eq.
  - intros s' Hs. by apply lookup_delete_ne.
  - intros [<- ->]. destruct (active !! ev_session_id e) as [row|] eqn:Hrow; [|done].
    simpl in E. apply bool_decide_eq_false in E. by destruct E; apply Ha.
Qed.

Lemma replay_no_starts log active active' s t :
  Forall (fun logged => is_turn_started logged.2 = false /\ ev_session_id logged.2 = s) log ->
  (forall row, active !! s = Some row -> at_turn_id row = t) ->
  opt_fold replay_boundary active log = Some active' ->
  (forall row, active' !! s = Some row -> at_turn_id row = t)
  /\ (forall s', s' <> s -> active' !! s' = active !! s').
Proof.
  intros Hl. revert active. induction Hl as [|[q e] log [Hns <-] Hl IH]; intros active Ha H.
  - injection H as <-. done.
  - cbn [opt_fold] in H. destruct (replay_boundary active (q, e)) as [a1|] eqn:E; [|done].
    destruct (replay_no_start _ _ _ _ _ _ Hns Ha E) as (H1 & _ & H2).
    destruct (IH a1 H1 H) as [H3 H4]. split; [done|]. intros s' Hs. rewrite H4 by done. by apply H2.
Qed.

Lemma owns_Ok s b t db u db' :
  ensure_active_turn_owner_in_tx s b t db = Ok (u, db') ->
  db' = db /\ exists row, db_active_turns db !! s = Some row /\ at_branch_id row = b
    /\ at_turn_id row = t.
Proof.
  unfold ensure_active_turn_owner_in_tx, owns_active_turn. intros H. invert_tx. split; [done|].
  apply negb_false_iff in H. destruct (db_active_turns db !! s) as [row|]; [|done].
  apply andb_true_iff in H as [?%bool_decide_eq_true ?%bool_decide_eq_true]. eauto.
Qed.

Lemma of_turn_session s b t event : of_turn s b t event = true -> ev_session_id event = s.
Proof. unfold of_turn. intros [H _]%andb_true_iff. by apply in_scope_session in H. Qed.

(** The events of a terminal transition stay in its session and end with the
    finish of its turn. *)
Lemma terminal_events_Ok s b t events :
  validate_turn_terminal_events s b t events = Ok tt ->
  Forall (fun event => ev_session_id event = s) events
  /\ exists pre last, events = pre ++ [last] /\ finishes s t last.
Proof.
  unfold validate_turn_terminal_events. rewrite reject_if_Ok, orb_false_iff, any_false.
  intros [Hof Hlast].
  assert (Forall (fun event => ev_session_id event = s) events) as Hs.
  { eapply Forall_impl; [exact Hof|]. intros event Hb.
    by apply negb_false_iff, of_turn_session in Hb. }
  split; [done|]. apply negb_false_iff in Hlast.
  destruct events as [|last events _] using rev_ind; [done|].
  rewrite last_snoc in Hlast. simpl in Hlast. exists events, last. split; [done|].
  apply Forall_app in Hs as [_ Hs]. inversion_clear Hs. split; [done|].
  unfold finishes_turn in Hlast. destruct (ev_payload last); try done.
  by apply bool_decide_eq_true in Hlast.
Qed.

(** A batch that starts no turn and ends with the finish of the session's
    turn leaves the session idle. *)
Lemma terminal_batch s t events db seqs db' :
  Forall (fun event => is_turn_started event = false) events ->
  Forall (fun event => ev_session_id event = s) events ->
  (exists pre last, events = pre ++ [last] /\ finishes s t last) ->
  (forall row, db_active_turns db !! s = Some row -> at_turn_id row = t) ->
  append_events_in_tx events db = Ok (seqs, db') ->
  db_active_turns db' !! s = None
  /\ forall s', s' <> s -> db_active_turns db' !! s' = db_active_turns db !! s'.
Proof.
  intros Hns Hs (pre & last & -> & Hfin) Hrow Happ.
  assert (exists db1 seqs1 q, append_events_in_tx pre db = Ok (seqs1, db1)
            /\ append_event_in_tx last db1 = Ok (q, db')) as (db1 & seqs1 & q & H1 & H2).
  { clear -Happ. revert db seqs Happ. induction pre as [|e pre IH]; simpl; intros db seqs Happ.
    - apply append_events_cons in Happ as (q & db1 & seqs' & H1 & [_ ->]%append_events_nil & _).
      by exists db, [], q.
    - apply append_events_cons in Happ as (q & db1 & seqs' & H1 & H2 & _).
      destruct (IH _ _ H2) as (db2 & seqs2 & q2 & H3 & H4). exists db2, (q :: seqs2), q2.
      split; [|done]. unfold append_events_in_tx in *. simpl. unfold mbind, tx_bind.
      by rewrite H1, H3. }
  apply Forall_app in Hns as [Hns1 Hns2], Hs as [Hs1 Hs2].
  inversion_clear Hns2 as [|? ? Hl _]. inversion_clear Hs2 as [|? ? Hls _].
  apply append_events_active in H1. apply append_active in H2 as [H2 _].
  destruct (replay_no_starts (zip seqs1 pre) (db_active_turns db) (db_active_turns db1) s t)
    as [H3 H4]; [|done|done|].
  { apply Forall_forall. intros [q' e] He%elem_of_zip_r. rewrite Forall_forall in Hns1, Hs1.
    split; [by apply Hns1|by apply Hs1]. }
  destruct (replay_no_start _ _ _ _ s t Hl H3 H2) as (_ & H5 & H6). split; [by apply H5|].
  intros s' Hne. rewrite H6 by congruence. by apply H4.
Qed.
End turns.

(** ** Budgets *)

(** A checkpoint whose counters fit the signed columns. *)
Definition checkpoint_fits (event : EventEnvelope) : Prop :=
  match ev_payload event with
  | BudgetCheckpoint tokens_used turns_used elapsed_seconds _ =>
      is_i63 tokens_used /\ is_u32 turns_used /\ is_i63 elapsed_seconds
  | _ => True
  end.

Definition counters_ok (row : BudgetRow) : Prop :=
  is_i63 (bu_tokens_used row) /\ is_u32 (bu_turns_used row) /\ is_i63 (bu_elapsed_seconds row).

Definition counters_le (row row' : BudgetRow) : Prop :=
  bu_tokens_used row <= bu_tokens_used row' /\ bu_turns_used row <= bu_turns_used row'
  /\ bu_elapsed_seconds row <= bu_elapsed_seconds row'.

#[export] Instance counters_le_preorder : PreOrder counters_le.
Proof. split; [by intros row|]. unfold counters_le. intros a b c. lia. Qed.

Section budgets.
Context `{codec : RowCodec}.

(** One event: the session's row grows, or appears. *)
Lemma budget_row_grows event o o' :
  checkpoint_fits event -> (forall row, o = Some row -> counters_ok row) ->
  budget_row event o = Ok o' ->
  (forall row', o' = Some row' -> counters_ok row')
  /\ (forall row, o = Some row -> exists row', o' = Some row' /\ counters_le row row').
Proof.
  unfold checkpoint_fits, budget_row. intros Hf Ho H.
  destruct (ev_payload event); try (injection H as <-; split; [done|by intros row ->; exists row]).
  - invert_result. destruct o as [row|]; simpl.
    + specialize (Ho _ eq_refl). split; [by intros ? [= <-]|]. intros ? [= <-].
      eexists. split; [done|]. unfold counters_le. simpl. lia.
    + split; [|done]. intros ? [= <-]. unfold counters_ok, is_i63, is_u32, I64_MAX, U32_MOD. simpl. lia.
  - invert_result. destruct (_ || _) eqn:E; [done|]. invert_result.
    destruct Hf as (Ht & Hn & He), (Ho _ eq_refl) as (Ht0 & Hn0 & He0).
    rewrite !orb_false_iff, !Z.ltb_ge in E. destruct E as [[[E1 E2] E3] _].
    rewrite !u64_as_i64_small by done. split; [by intros ? [= <-]|].
    intros ? [= <-]. eexists. split; [done|]. unfold counters_le. simpl.
    unfold wrap32, is_u32, is_i63 in *. rewrite Z.max_r, Z.mod_small in E2 by (rewrite ?Z.max_r; lia).
    lia.
Qed.

Lemma append_budget event db seq_id db' :
  append_event_in_tx event db = Ok (seq_id, db') ->
  exists o, budget_row event (db_budgets db !! ev_session_id event) = Ok o
    /\ forall s, db_budgets db' !! s = if decide (s = ev_session_id event)
         then o else db_budgets db !! s.
Proof.
  intros (_ & _ & now & turns & _ & _ & H)%append_event_Ok.
  destruct (k_refresh _ _ _ _ budgets_keyed _ _ _ _ _ H) as (db1 & Hstep & ->).
  rewrite (k_step _ _ _ _ budgets_keyed) in Hstep.
  apply result_bind_Ok in Hstep as (o & Hrow & [= <-]). exists o. split; [exact Hrow|].
  intros s. rewrite (with_row_get _ _ _ _ budgets_keyed).
  destruct (decide (s = ev_session_id event)) as [->|]; [|done].
  destruct o as [v|]; [done|].
  destruct (db_budgets (touched event seq_id now turns db) !! ev_session_id event) eqn:E; [|done].
  by destruct (k_kept _ _ _ _ budgets_keyed _ _ _ Hrow (mk_is_Some _ _ eq_refl)).
Qed.

Definition budgets_ok (db : Db) : Prop :=
  forall s row, db_budgets db !! s = Some row -> counters_ok row.

(** What a history of calls with fitting checkpoints does to the budgets. *)
Definition budgets_grow (db db' : Db) : Prop :=
  db_events db `prefix_of` db_events db'
  /\ (Forall (fun logged => checkpoint_fits logged.2) (db_events db') -> budgets_ok db ->
      budgets_ok db' /\ forall s row, db_budgets db !! s = Some row ->
        exists row', db_budgets db' !! s = Some row' /\ counters_le row row').

Lemma budgets_grow_preorder : PreOrder budgets_grow.
Proof.
  split.
  - intros db. split; [done|]. intros _ Hok. split; [done|]. intros s row Hrow. by exists row.
  - intros x y z [P1 H1] [P2 H2]. split; [by etrans|]. intros Hf Hok.
    assert (Forall (fun logged => checkpoint_fits logged.2) (db_events y)) as Hfy.
    { destruct P2 as [k Hk]. rewrite Hk in Hf. by apply Forall_app in Hf as [? _]. }
    destruct (H1 Hfy Hok) as [Hy Hg1], (H2 Hf) as [Hz Hg2]; [done|]. split; [done|].
    intros s row Hrow. destruct (Hg1 s row Hrow) as (row1 & Hrow1 & Hle1).
    destruct (Hg2 s row1 Hrow1) as (row2 & Hrow2 & Hle2). exists row2. split; [done|by etrans].
Qed.

Lemma append_budgets_grow event : keeps budgets_grow (append_event_in_tx event).
Proof.
  intros db seq_id db' H. pose proof (append_log _ _ _ _ H) as (_ & -> & Hlog & _).
  split; [rewrite Hlog; by apply prefix_app_r|]. rewrite Hlog. intros Hf Hok.
  apply Forall_app in Hf as [_ Hf]. inversion_clear Hf as [|? ? Hfe _]. simpl in Hfe.
  destruct (append_budget _ _ _ _ H) as (o & Hrow & Hlook).
  destruct (budget_row_grows _ _ _ Hfe (Hok _) Hrow) as [H1 H2]. split.
  - intros s row. rewrite Hlook. case_decide; [by apply H1|by apply Hok].
  - intros s row Hs. rewrite Hlook. case_decide; [subst; by apply H2|by exists row].
Qed.

Lemma structural_budgets_grow db db' : structural db db' -> budgets_grow db db'.
Proof.
  intros Hs. split; [by rewrite (st_events _ _ Hs)|]. intros _ Hok. unfold budgets_ok.
  rewrite (st_budgets _ _ Hs). split; [done|]. intros s row Hrow. by exists row.
Qed.

Lemma run_ops_budgets_grow ops db : budgets_grow db (run_ops ops db).
Proof.
  apply run_ops_keeps; [apply budgets_grow_preorder|apply append_budgets_grow|].
  apply structural_budgets_grow.
Qed.
End budgets.

(** ** Settings revisions *)

Section settings.
Context `{codec : RowCodec}.

Definition revision_fits (event : EventEnvelope) : Prop :=
  match ev_payload event with
  | SessionSettingsUpdated settings_revision_id _ _ _ => is_i63 settings_revision_id
  | _ => True
  end.

Lemma payload_settings event seq_id db u db' :
  refresh_payload event seq_id db = Ok (u, db') -> db_settings db ⊆ db_settings db'.
Proof.
  intros H. payload_cases H; try done; simpl; by apply insert_subseteq.
Qed.

Lemma append_settings event : keeps (fun db db' => db_settings db ⊆ db_settings db')
  (append_event_in_tx event).
Proof.
  intros db seq_id db' (_ & _ & now & turns & _ & _ & H)%append_event_Ok.
  by apply payload_settings in H.
Qed.

(** The revision of a session only grows. *)
Definition revision_grows (db db' : Db) : Prop :=
  db_events db `prefix_of` db_events db'
  /\ (Forall (fun logged => revision_fits logged.2) (db_events db') ->
      forall s r, session_revision s db = Some r ->
        exists r', session_revision s db' = Some r' /\ r <= r').

Lemma revision_grows_preorder : PreOrder revision_grows.
Proof.
  split.
  - intros db. split; [done|]. intros _ s r Hr. by exists r.
  - intros x y z [P1 H1] [P2 H2]. split; [by etrans|]. intros Hf s r Hr.
    assert (Forall (fun logged => revision_fits logged.2) (db_events y)) as Hfy.
    { destruct P2 as [k Hk]. rewrite Hk in Hf. by apply Forall_app in Hf as [? _]. }
    destruct (H1 Hfy s r Hr) as (r1 & Hr1 & Hle1), (H2 Hf s r1 Hr1) as (r2 & Hr2 & Hle2).
    exists r2. split; [done|lia].
Qed.

Lemma session_revision_alter f k s db :
  (forall row, Z.max 1 (sr_settings_revision_id row) <= Z.max 1 (sr_settings_revision_id (f row))) ->
  forall r, session_revision s db = Some r ->
  exists r', session_revision s (set_sessions (alter f k (db_sessions db)) db) = Some r' /\ r <= r'.
Proof.
  intros Hf r. unfold session_revision. simpl. rewrite !fmap_Some. intros (row & Hrow & ->).
  destruct (decide (s = k)) as [->|].
  - exists (Z.max 1 (sr_settings_revision_id (f row))). rewrite lookup_alter_eq, Hrow. split; [|apply Hf].
    apply fmap_Some. by exists (f row).
  - exists (Z.max 1 (sr_settings_revision_id row)). rewrite lookup_alter_ne by done. split; [|done].
    apply fmap_Some. by exists row.
Qed.

Lemma payload_revision event seq_id db u db' :
  revision_fits event -> refresh_payload event seq_id db = Ok (u, db') ->
  forall s r, session_revision s db = Some r ->
  exists r', session_revision s db' = Some r' /\ r <= r'.
Proof.
  intros Hf H s r Hr. unfold revision_fits in Hf.
  payload_cases H; try (exists r; split; [exact Hr|lia]).
  3, 4: by revert Hr; apply session_revision_alter.
  all: match goal with Hs : db_sessions _ !! _ = Some ?row |- _ =>
         rename Hs into Hsess; rename row into row0 end;
    unfold session_revision in *; simpl; apply fmap_Some in Hr as (row & Hrow & ->);
    (destruct (decide (s = ev_session_id event)) as [->|];
     [rewrite lookup_alter_eq, Hrow; rewrite Hrow in Hsess; injection Hsess as <-;
      eexists; split; [done|]; simpl; rewrite u64_as_i64_small by done;
      rewrite Z.ltb_lt in *; lia
     |rewrite lookup_alter_ne, Hrow by done; eexists; split; [done|lia]]).
Qed.

Lemma append_revision_grows event : keeps revision_grows (append_event_in_tx event).
Proof.
  intros db seq_id db' H. pose proof (append_log _ _ _ _ H) as (_ & -> & Hlog & _).
  split; [rewrite Hlog; by apply prefix_app_r|]. rewrite Hlog. intros Hf s r Hr.
  apply Forall_app in Hf as [_ Hf]. inversion_clear Hf as [|? ? Hfe _]. simpl in Hfe.
  apply append_event_Ok in H as (_ & _ & now & turns & _ & _ & H).
  eapply (session_revision_alter (touch_session now) (ev_session_id event)) in Hr
    as (r1 & Hr1 & Hle); [|done].
  destruct (payload_revision _ _ _ _ _ Hfe H s r1 Hr1) as (r2 & Hr2 & Hle2).
  exists r2. split; [done|lia].
Qed.

Lemma structural_revision_grows db db' : structural db db' -> revision_grows db db'.
Proof.
  intros Hs. split; [by rewrite (st_events _ _ Hs)|]. intros _ s r Hr. exists r. split; [|done].
  unfold session_revision in *. apply fmap_Some in Hr as (row & Hrow & ->).
  destruct (st_sessions _ _ Hs s row Hrow) as (row' & -> & <-). done.
Qed.
End settings.

(** ** What a settings update commits *)

Section updates.
Context `{codec : RowCodec}.

Lemma payload_settings_update event seq_id db u db' r c m t row :
  ev_payload event = SessionSettingsUpdated r c m t ->
  refresh_payload event seq_id db = Ok (u, db') ->
  db_sessions db !! ev_session_id event = Some row ->
  Z.max 1 (sr_settings_revision_id row) < r -> is_i63 r ->
  (exists now, db_sessions db' !! ev_session_id event = Some
     (MkSessionRow (sr_project_root row) c m t r (sr_created_at row) now (sr_status row)
        (sr_display_name row) (sr_objective row) (sr_parent_session_id row)
        (sr_parent_branch_id row) (sr_parent_turn_id row)))
  /\ exists now, db_settings db' !! (ev_session_id event, r) = Some (MkSettingsRow c m t now)
       \/ db_settings db !! (ev_session_id event, r) = Some (MkSettingsRow c m t now)
          /\ db_settings db' = db_settings db.
Proof.
  intros Hp H Hrow Hlt Hfit. unfold refresh_payload in H. rewrite Hp in H.
  unfold refresh_settings in H. rewrite (u64_as_i64_small r Hfit) in H.
  destruct (r =? 0) eqn:E0; [by invert_tx|]. invert_tx. rewrite Hrow in Htx0. injection Htx0 as <-.
  rewrite (proj2 (Z.ltb_lt _ _) Hlt) in H.
  destruct (db_settings db !! (ev_session_id event, r)) as [[c0 m0 t0 n0]|] eqn:E.
  - case_bool_decide as Hsame; [|invert_tx]. simpl in Hsame. destruct Hsame as (-> & -> & ->).
    invert_tx. simpl. split; [exists a; by rewrite lookup_alter_eq, Hrow|].
    exists n0. right. done.
  - invert_tx. simpl. same_value. split; [eexists; by rewrite lookup_alter_eq, Hrow|].
    eexists. left. apply lookup_insert_eq.
Qed.

Lemma append_settings_update event db seq_id db' r c m t row :
  ev_payload event = SessionSettingsUpdated r c m t ->
  append_event_in_tx event db = Ok (seq_id, db') ->
  db_sessions db !! ev_session_id event = Some row ->
  Z.max 1 (sr_settings_revision_id row) < r -> is_i63 r ->
  (exists now row', db_sessions db' !! ev_session_id event = Some row'
     /\ row' = MkSessionRow (sr_project_root row) c m t r (sr_created_at row) now
          (sr_status row) (sr_display_name row) (sr_objective row) (sr_parent_session_id row)
          (sr_parent_branch_id row) (sr_parent_turn_id row))
  /\ exists now, db_settings db' !! (ev_session_id event, r) = Some (MkSettingsRow c m t now).
Proof.
  intros Hp (_ & _ & now & turns & _ & _ & H)%append_event_Ok Hrow Hlt Hfit.
  eapply (payload_settings_update _ _ _ _ _ _ _ _ _ (touch_session now row)) in H
    as [[n1 H1] [n2 H2]]; [|exact Hp|simpl; by rewrite lookup_alter_eq, Hrow|exact Hlt|exact Hfit].
  split; [by exists n1; eexists|]. exists n2. destruct H2 as [H2|[H2 ->]]; exact H2.
Qed.

Lemma tool_mode_roundtrip mode : parse_session_tool_mode (session_tool_mode_to_str mode) = mode.
Proof. by destruct mode. Qed.

Lemma status_roundtrip status : parse_status (session_status_to_str status) = status.
Proof. by destruct status. Qed.
End updates.

(** ** Theorems *)

(** A terminal transition is the owner's last word: it commits only for
    the session's active turn, appends exactly its events, and, as none of
    them starts a turn, leaves the session without an active turn and every
    other session's turn alone. *)
Theorem terminal_ends_turn `{RowCodec} s b t events db seqs db' :
  Forall (fun event => is_turn_started event = false) events ->
  commit_turn_terminal_transition s b t events db = (Ok seqs, db') ->
  (exists row, db_active_turns db !! s = Some row /\ at_branch_id row = b /\ at_turn_id row = t)
  /\ db_events db' = db_events db ++ zip seqs events
  /\ db_active_turns db' !! s = None
  /\ forall s', s' <> s -> db_active_turns db' !! s' = db_active_turns db !! s'.
Proof.
  intros Hns. unfold commit_turn_terminal_transition. rewrite transaction_Ok. intros Hc. invert_tx.
  destruct a. apply owns_Ok in Htx0 as (-> & row & Hrow & Hb & Ht).
  apply terminal_events_Ok in Htx as [Hs Hlast].
  split; [by exists row|]. split; [by apply append_events_log in Hc as [_ ->]|].
  eapply terminal_batch; [done|done|exact Hlast| |exact Hc].
  intros row' Hrow'. rewrite Hrow in Hrow'. by injection Hrow' as <-.
Qed.

Lemma terminal_ends_turn_witness :
  let events := [in_turn 20 (sample_turn_finished 14 20)] in
  let r := commit_turn_terminal_transition (MkUuid 1) (MkUuid 2) (MkUuid 20) events busy_db in
  r.1 = Ok [3] /\ db_active_turns r.2 !! MkUuid 1 = None.
Proof.
  cbv zeta. assert ((commit_turn_terminal_transition (MkUuid 1) (MkUuid 2) (MkUuid 20)
    [in_turn 20 (sample_turn_finished 14 20)] busy_db).1 = Ok [3]) as Hres
    by (vm_compute; reflexivity).
  split; [exact Hres|].
  destruct (terminal_ends_turn (MkUuid 1) (MkUuid 2) (MkUuid 20)
    [in_turn 20 (sample_turn_finished 14 20)] busy_db [3] _ ltac:(by repeat constructor)
    (eq_trans (surjective_pairing _) (f_equal (fun r => (r, _)) Hres))) as (_ & _ & H & _).
  exact H.
Defined.

(** C23. The counters of a session's budget never decrease and never wrap,
    over any history of calls whose checkpoints fit the signed columns; a
    configured budget is never lost. *)
Theorem budget_monotone `{RowCodec} ops ops' s row :
  let db := run_ops ops db_empty in
  let db' := run_ops ops' db in
  Forall (fun logged => checkpoint_fits logged.2) (db_events db') ->
  db_budgets db !! s = Some row ->
  exists row', db_budgets db' !! s = Some row' /\ counters_le row row' /\ counters_ok row'.
Proof.
  cbv zeta. intros Hf Hrow. destruct (run_ops_budgets_grow ops' (run_ops ops db_empty)) as [P Hg].
  assert (budgets_ok (run_ops ops db_empty)) as Hok.
  { apply (run_ops_budgets_grow ops db_empty); [|by intros s' row'].
    destruct P as [k Hk]. rewrite Hk in Hf. by apply Forall_app in Hf as [? _]. }
  destruct (Hg Hf Hok) as [Hok' Hgrow]. destruct (Hgrow s row Hrow) as (row' & Hrow' & Hle).
  exists row'. split_and!; [done|done|by apply (Hok' s)].
Qed.

Lemma budget_monotone_witness :
  exists row, db_budgets (run_ops (take 2 sample_history) db_empty) !! MkUuid 1 = Some row
  /\ exists row',
       db_budgets (run_ops (drop 2 sample_history) (run_ops (take 2 sample_history) db_empty))
         !! MkUuid 1 = Some row'
       /\ counters_le row row' /\ counters_ok row'.
Proof.
  assert (is_Some (db_budgets (run_ops (take 2 sample_history) db_empty) !! MkUuid 1))
    as [row Hrow] by (vm_compute; eexists; reflexivity).
  exists row. split; [exact Hrow|].
  apply (budget_monotone (take 2 sample_history) (drop 2 sample_history) (MkUuid 1) row);
    [|exact Hrow].
  assert (db_events (run_ops (drop 2 sample_history) (run_ops (take 2 sample_history) db_empty))
    = _) as -> by (vm_compute; reflexivity).
  repeat constructor; vm_compute; discriminate.
Defined.

Section exhaustion.
Context `{codec : RowCodec}.

Lemma append_events_app_cons event events db q db1 seqs db' :
  append_event_in_tx event db = Ok (q, db1) -> append_events_in_tx events db1 = Ok (seqs, db') ->
  append_events_in_tx (event :: events) db = Ok (q :: seqs, db').
Proof.
  unfold append_events_in_tx. simpl. unfold mbind, tx_bind. intros H1 H2. by rewrite H1, H2.
Qed.

(** The steps of a committed budget checkpoint. *)
Lemma budget_transition_Ok checkpoint cancellation terminal finish db c db' :
  commit_budget_checkpoint_transition checkpoint cancellation terminal finish db = (Ok c, db') ->
  exists turn_id row db1 seqs,
    validate_budget_checkpoint checkpoint cancellation terminal finish = Ok turn_id
    /\ db_active_turns db !! ev_session_id checkpoint = Some row /\ at_turn_id row = turn_id
    /\ append_event_in_tx checkpoint db = Ok (cbc_checkpoint_seq_id c, db1)
    /\ session_budget_exhausted_in_tx (ev_session_id checkpoint) db1 = Ok (cbc_exhausted c, db1)
    /\ append_events_in_tx
         (checkpoint :: (if cbc_exhausted c then [cancellation] else []) ++ terminal) db
       = Ok (seqs, db').
Proof.
  unfold commit_budget_checkpoint_transition. rewrite transaction_Ok. intros H. invert_tx.
  apply owns_Ok in Htx0 as (-> & row & Hrow & _ & Ht). pose proof (exhausted_db _ _ _ _ Htx2) as ->.
  exists a, row, d1. unfold cancel_if in Htx3. simpl. destruct a2; invert_tx.
  - eexists. split_and!; try done.
    eapply append_events_app_cons; [exact Htx1|]. by eapply append_events_app_cons.
  - eexists. split_and!; try done. by eapply append_events_app_cons.
Qed.

(** The budget read after a checkpoint is exhausted exactly when the
    checkpoint's counters exhaust the limits. *)
Lemma checkpoint_exhausts checkpoint db q db1 b tokens turns elapsed cost row limits :
  ev_payload checkpoint = BudgetCheckpoint tokens turns elapsed cost ->
  checkpoint_fits checkpoint ->
  db_budgets db !! ev_session_id checkpoint = Some row -> budget_limits row = Some limits ->
  append_event_in_tx checkpoint db = Ok (q, db1) ->
  session_budget_exhausted_in_tx (ev_session_id checkpoint) db1 = Ok (b, db1) ->
  b = is_exhausted limits tokens turns elapsed (cost ≫= bind_f64).
Proof.
  intros Hp Hfit Hrow Hlim Happ Hex. destruct (append_budget _ _ _ _ Happ) as (o & Ho & Hlook).
  rewrite Hrow in Ho. unfold budget_row in Ho. unfold checkpoint_fits in Hfit. rewrite Hp in Ho, Hfit.
  destruct Hfit as (Ht & Hn & He). rewrite !u64_as_i64_small in Ho by done.
  simpl in Ho. destruct (_ || _); [done|]. invert_result.
  unfold session_budget_exhausted_in_tx in Hex. invert_tx. rewrite Hlook, decide_True in Hex by done.
  apply tx_bind_Ok in Hex as (limits' & d & Htx & Hex). apply tx_lift_Ok in Htx as [Htx ->].
  apply tx_ret_Ok in Hex as [-> _]. apply ok_or_Ok in Htx.
  unfold budget_limits in *. simpl in Htx. rewrite Hlim in Htx. injection Htx as <-. simpl.
  unfold is_i63, is_u32, wrap32 in *. rewrite !Z.max_r, Z.mod_small by lia. done.
Qed.

(** What a checked terminal transition is made of. *)
Lemma budget_terminal_shape checkpoint cancellation terminal t :
  validate_budget_checkpoint checkpoint cancellation terminal true = Ok t ->
  is_turn_started cancellation = false
  /\ (forall flag, cancel_step (ev_session_id checkpoint) flag cancellation = true)
  /\ ev_session_id cancellation = ev_session_id checkpoint
  /\ Forall (fun event => ev_session_id event = ev_session_id checkpoint) terminal
  /\ exists pre last, terminal = pre ++ [last] /\ finishes (ev_session_id checkpoint) t last.
Proof.
  unfold validate_budget_checkpoint. intros H. invert_result. destruct r3.
  rewrite !orb_false_iff, !negb_false_iff, !bool_decide_eq_true in Hr.
  destruct Hr as [[[Hs _] _] Hc]. unfold is_session_cancelled in Hc.
  apply terminal_events_Ok in Hr3 as [Hall Hlast].
  split_and!; [| |done|done|done].
  - unfold is_turn_started. by destruct (ev_payload cancellation).
  - intros flag. unfold cancel_step. destruct (ev_payload cancellation); try done.
    by rewrite bool_decide_eq_true_2.
Qed.

Lemma cancel_fold_true s events :
  Forall (fun event => forall s, cancel_step s true event = true) events ->
  fold_left (cancel_step s) events true = true.
Proof. induction 1 as [|event events He _ IH]; simpl; [done|]. by rewrite He. Qed.
End exhaustion.

(** C9. The end of a budgeted turn is one transition: the checkpoint, the
    cancellation exactly when the checkpointed counters exhaust the limits,
    and the terminal events are appended together; afterwards the counters
    are the checkpoint's, the session has no active turn, and an exhausted
    session has a cancellation pending. *)
Theorem budget_terminal_transition `{RowCodec} checkpoint cancellation terminal db c db'
    tokens turns elapsed cost row limits :
  ev_payload checkpoint = BudgetCheckpoint tokens turns elapsed cost ->
  checkpoint_fits checkpoint ->
  Forall (fun event => is_turn_started event = false
                       /\ forall s, cancel_step s true event = true) terminal ->
  db_budgets db !! ev_session_id checkpoint = Some row -> budget_limits row = Some limits ->
  commit_budget_terminal_transition checkpoint cancellation terminal db = (Ok c, db') ->
  cbc_exhausted c = is_exhausted limits tokens turns elapsed (cost ≫= bind_f64)
  /\ (exists seqs, db_events db' = db_events db
       ++ zip seqs (checkpoint :: (if cbc_exhausted c then [cancellation] else []) ++ terminal))
  /\ db_active_turns db' !! ev_session_id checkpoint = None
  /\ (cbc_exhausted c = true -> cancel_requested (ev_session_id checkpoint) db' = true).
Proof.
  intros Hp Hfit Hterm Hrow Hlim Hc. apply budget_transition_Ok in Hc
    as (t & turn & db1 & seqs & Hval & Hturn & Ht & Hcp & Hex & Happ).
  split; [by eapply checkpoint_exhausts|].
  split; [exists seqs; by apply append_events_log in Happ as [_ ->]|].
  destruct (budget_terminal_shape _ _ _ _ Hval) as (Hns & Hcancel & Hs & Hall & pre & last & Hlast & Hfin).
  split.
  - eapply (terminal_batch (ev_session_id checkpoint) t); [| | | |exact Happ].
    + constructor; [unfold is_turn_started; by rewrite Hp|]. apply Forall_app. split.
      * destruct (cbc_exhausted c); by repeat constructor.
      * by eapply Forall_impl; [exact Hterm|]; intros ? [? _].
    + constructor; [done|]. apply Forall_app. split; [|done].
      destruct (cbc_exhausted c); by repeat constructor.
    + exists (checkpoint :: (if cbc_exhausted c then [cancellation] else []) ++ pre), last.
      split; [|done]. rewrite Hlast. simpl. by rewrite <-app_assoc.
    + intros row' Hrow'. rewrite Hturn in Hrow'. by injection Hrow' as <-.
  - intros He. rewrite He in Happ. rewrite (append_events_cancel _ _ _ _ _ Happ). simpl.
    rewrite Hcancel. apply cancel_fold_true.
    by eapply Forall_impl; [exact Hterm|]; intros ? [_ ?].
Qed.

Definition budgeted_history : list StoreOp :=
  quiet_history ++
  [OpBudgetConfiguration
     (sample_event 1 (BudgetConfigured (MkBudgetConfig None None (Some 1) None)))
     (sample_event 2 (SessionCancelled "budget_exhausted")); sample_admission 10 20].
Definition budgeted_db : Db := run_ops budgeted_history db_empty.

Definition sample_checkpoint : EventEnvelope :=
  in_turn 20 (sample_event 14 (BudgetCheckpoint 3 1 2 (Some f64_zero))).
Definition sample_cancellation : EventEnvelope :=
  sample_event 15 (SessionCancelled "budget_exhausted").
Definition sample_terminal : list EventEnvelope := [in_turn 20 (sample_turn_finished 16 20)].

Lemma budget_terminal_transition_witness :
  let r := commit_budget_terminal_transition sample_checkpoint sample_cancellation
             sample_terminal budgeted_db in
  r.1 = Ok (MkCommittedBudgetCheckpoint 4 (Some 5) [6] true)
  /\ cancel_requested (MkUuid 1) r.2 = true
  /\ db_active_turns r.2 !! MkUuid 1 = None.
Proof.
  cbv zeta. assert ((commit_budget_terminal_transition sample_checkpoint sample_cancellation
    sample_terminal budgeted_db).1 = Ok (MkCommittedBudgetCheckpoint 4 (Some 5) [6] true)) as Hres
    by (vm_compute; reflexivity).
  split; [exact Hres|].
  assert (checkpoint_fits sample_checkpoint) as Hfit
    by (unfold checkpoint_fits, is_i63, is_u32, I64_MAX, U32_MOD; simpl; lia).
  assert (Forall (fun event => is_turn_started event = false
            /\ forall s, cancel_step s true event = true) sample_terminal) as Hterm
    by (constructor; [split; reflexivity|constructor]).
  assert (db_budgets budgeted_db !! ev_session_id sample_checkpoint
            = Some (MkBudgetRow None None (Some 1) None 0 0 0 (Some f64_zero) (unary 1))) as Hrow
    by (vm_compute; reflexivity).
  destruct (budget_terminal_transition sample_checkpoint sample_cancellation sample_terminal
    budgeted_db (MkCommittedBudgetCheckpoint 4 (Some 5) [6] true)
    (commit_budget_terminal_transition sample_checkpoint sample_cancellation sample_terminal
       budgeted_db).2 3 1 2 (Some f64_zero) _
    (MkBudgetConfig None None (Some 1) None) eq_refl Hfit Hterm Hrow eq_refl
    (eq_trans (surjective_pairing _) (f_equal (fun r => (r, _)) Hres)))
    as (_ & _ & Hidle & Hcancel).
  split; [exact (Hcancel eq_refl)|exact Hidle].
Defined.

(** A settings revision is written once: no call ever changes or removes
    a recorded revision, and a session's current revision never goes back, as
    long as the revisions logged fit the signed column. *)
Theorem settings_revisions_immutable `{RowCodec} ops db :
  db_settings db ⊆ db_settings (run_ops ops db)
  /\ (Forall (fun logged => revision_fits logged.2) (db_events (run_ops ops db)) ->
      forall s r, session_revision s db = Some r ->
        exists r', session_revision s (run_ops ops db) = Some r' /\ r <= r').
Proof.
  split.
  - apply (run_ops_keeps (fun db db' => db_settings db ⊆ db_settings db')).
    + split; [by intros ?|intros x y z; apply transitivity].
    + intros event. apply append_settings.
    + intros db1 db2 Hs. apply Hs.
  - apply (run_ops_keeps revision_grows).
    + apply revision_grows_preorder.
    + intros event. apply append_revision_grows.
    + apply structural_revision_grows.
Qed.

(** A settings update makes the next revision: on success the session is
    at its old revision plus one, with the values asked for and the old ones
    where none was asked, the revision is recorded with these values, and the
    session returned is the one stored. *)
Theorem settings_update_next_revision `{RowCodec} e x now s b connection model mode db r
    session event seq_id db' :
  session_revision s db = Some r ->
  commit_session_settings_update e x now s b connection model mode db
    = (Ok (session, event, seq_id), db') ->
  r + 1 <= I64_MAX /\ session_revision s db' = Some (r + 1)
  /\ load_session s db' = Ok (Some session)
  /\ se_settings_revision_id session = r + 1
  /\ (forall c, connection = Some c -> se_connection_id session = c)
  /\ (forall m, model = Some m -> se_model_id session = m)
  /\ (forall t, mode = Some t -> se_tool_mode session = t)
  /\ exists stamp, db_settings db' !! (s, r + 1)
       = Some (MkSettingsRow (connection_name (se_connection_id session)) (se_model_id session)
                 (session_tool_mode_to_str (se_tool_mode session)) stamp).
Proof.
  unfold commit_session_settings_update. rewrite transaction_Ok. intros Hrev Hc.
  invert_tx. apply tx_ret_Ok in Hc as [Hc ->]. injection Hc as -> -> ->.
  unfold session_revision in Hrev. rewrite Htx0 in Hrev. injection Hrev as <-.
  apply Z.ltb_ge in Htx1.
  assert (is_i63 (Z.max 1 (sr_settings_revision_id a0) + 1)) as Hfit by (unfold is_i63; lia).
  edestruct append_settings_update with (2 := Htx2) as [(stamp & row' & Hrow' & ->) Hset];
    [reflexivity|exact Htx0|simpl; lia|exact Hfit|]. simpl in Hrow', Hset.
  apply result_bind_Ok in Htx4 as ([loaded|] & Hload & [= ->]).
  unfold session_revision, load_session in *. rewrite Hrow' in *. simpl in *.
  apply result_bind_Ok in Hload as (parsed & Hparse & [= <-]). rewrite Hparse. simpl.
  apply ok_or_Ok in Hparse. unfold parse_session_record in Hparse. simpl in Hparse.
  destruct (parse_time (sr_created_at a0)); [|done]. simpl in Hparse.
  destruct (parse_time stamp); [|done]. injection Hparse as <-. simpl.
  split_and!; try done; try lia.
  - f_equal. lia.
  - by intros [c] ->.
  - by intros m ->.
  - intros t ->. simpl. apply tool_mode_roundtrip.
  - destruct Hset as [n Hn]. exists n. rewrite tool_mode_roundtrip. exact Hn.
Qed.

Lemma settings_update_next_revision_witness :
  let r := commit_session_settings_update (MkUuid 40) (MkUuid 0) 40 (MkUuid 1) (MkUuid 2) None
             (Some None) (Some Extended) idle_db in
  is_ok r.1 = true
  /\ forall session event seq_id db', r = (Ok (session, event, seq_id), db') ->
       session_revision (MkUuid 1) db' = Some 2 /\ se_model_id session = None.
Proof.
  intros r. split; [vm_compute; reflexivity|]. intros session event seq_id db' Hr.
  assert (session_revision (MkUuid 1) idle_db = Some 1) as Hrev by (vm_compute; reflexivity).
  destruct (settings_update_next_revision (MkUuid 40) (MkUuid 0) 40 (MkUuid 1) (MkUuid 2) None
    (Some None) (Some Extended) idle_db 1 session event seq_id db' Hrev Hr)
    as (_ & H & _ & _ & _ & Hm & _).
  split; [exact H|exact (Hm None eq_refl)].
Defined.

(** A session is read back as it was created: after [create_session]
    succeeds, [load_session] returns the record, whose revision is positive
    and fits the signed column. *)
Theorem session_roundtrip `{RowCodecLaws} session branch db db' :
  1 <= se_settings_revision_id session <= I64_MAX ->
  create_session session branch db = (Ok tt, db') ->
  load_session (se_session_id session) db' = Ok (Some session).
Proof.
  intros Hrev. unfold create_session, insert_session_in_tx,
    insert_session_settings_revision_in_tx, insert_branch_in_tx.
  rewrite transaction_Ok. intros Hc. invert_tx.
  destruct (db_sessions db !! _); invert_tx. destruct (db_settings _ !! _); invert_tx.
  destruct (_ || _); invert_tx. same_value. unfold load_session. simpl. rewrite lookup_insert_eq.
  unfold parse_session_record. simpl.
  do 2 (erewrite parse_format_time by done; simpl).
  rewrite tool_mode_roundtrip, status_roundtrip, u64_as_i64_small, Z.max_r
    by (unfold is_i63; lia).
  by destruct session as [? ? [?]].
Qed.

Lemma session_roundtrip_witness :
  (create_session sample_session sample_branch db_empty).1 = Ok tt
  /\ load_session (MkUuid 1) (create_session sample_session sample_branch db_empty).2
     = Ok (Some sample_session).
Proof.
  assert ((create_session sample_session sample_branch db_empty).1 = Ok tt) as Hres
    by (vm_compute; reflexivity).
  split; [exact Hres|].
  apply (session_roundtrip sample_session sample_branch db_empty);
    [unfold I64_MAX; simpl; lia|].
  exact (eq_trans (surjective_pairing _) (f_equal (fun r => (r, _)) Hres)).
Defined.

(** A session whose cost is unknown stays unknown: once a checkpoint has
    recorded no cost, every later checkpoint that carries one is refused, and
    with it the whole terminal transition, which leaves the turn active. *)
Theorem priced_checkpoint_after_unpriced_refused `{RowCodec} checkpoint cancellation terminal
    finish db tokens turns elapsed cost row :
  ev_payload checkpoint = BudgetCheckpoint tokens turns elapsed (Some cost) ->
  db_budgets db !! ev_session_id checkpoint = Some row -> bu_cost_used_usd row = None ->
  exists e, commit_budget_checkpoint_transition checkpoint cancellation terminal finish db
    = (Err e, db).
Proof.
  intros Hp Hrow Hcost.
  destruct (commit_budget_checkpoint_transition checkpoint cancellation terminal finish db)
    as [[c|e] db'] eqn:E; [exfalso|].
  - apply budget_transition_Ok in E as (t & turn & db1 & seqs & _ & _ & _ & Hcp & _).
    destruct (append_budget _ _ _ _ Hcp) as (o & Ho & _). unfold budget_row in Ho.
    rewrite Hp, Hrow in Ho. simpl in Ho. rewrite Hcost, orb_true_r in Ho. done.
  - exists e. by apply transaction_Err in E as ->.
Qed.

(** A running turn in a session whose last checkpoint had no cost. *)
Definition unpriced_history : list StoreOp :=
  quiet_history ++
  [OpBudgetConfiguration
     (sample_event 1 (BudgetConfigured (MkBudgetConfig None (Some 100) None None)))
     (sample_event 2 (SessionCancelled "budget_exhausted"));
   sample_admission 10 20;
   OpBudgetCheckpoint (in_turn 20 (sample_event 14 (BudgetCheckpoint 3 1 2 None)))
     sample_cancellation sample_terminal true;
   sample_admission 20 21].
Definition unpriced_db : Db := run_ops unpriced_history db_empty.

Lemma priced_checkpoint_after_unpriced_refused_witness :
  bool_decide (is_Some (db_active_turns unpriced_db !! MkUuid 1)) = true
  /\ exists e, commit_budget_checkpoint_transition
       (in_turn 21 (sample_event 24 (BudgetCheckpoint 6 2 4 (Some f64_zero))))
       (sample_event 25 (SessionCancelled "budget_exhausted"))
       [in_turn 21 (sample_turn_finished 26 21)] true unpriced_db = (Err e, unpriced_db).
Proof.
  split; [vm_compute; reflexivity|].
  eapply (priced_checkpoint_after_unpriced_refused _ _ _ true unpriced_db 6 2 4 f64_zero
    (MkBudgetRow None (Some 100) None None 3 1 2 None (unary 14)));
    [reflexivity|vm_compute; reflexivity|reflexivity].
Defined.
