(* ===== verification/StoreLineage.v ===== *)
(** * Session trees: lineage, depth and the bounds on spawning

    The parent links of the stored sessions as a map.  The executable walks of
    [StoreRelated] (the root loop and the two recursive queries) compute the
    root, the depth and the descendants of a session; their fuel is enough on
    every database; and sessions created by spawning stay within the bounds of
    [related_sessions.rs]. *)

From stdpp Require Import base list strings gmap sorting.
From Stdlib Require Import ZArith Lia.
From S2P Require Import Prelude Text Json Types TurnProjection Store StoreOps StoreRelated StoreLaws.
From S2P Require Import StoreReplay.

#[local] Open Scope nat_scope.

(** ** Trees *)

Lemma fmap_alter_same {K A B} `{Countable K} (f : A -> B) g k (m : gmap K A) :
  (forall a, f (g a) = f a) -> f <$> alter g k m = f <$> m.
Proof.
  intros Hfg. apply map_eq. intros i. rewrite !lookup_fmap.
  destruct (decide (k = i)) as [->|].
  - rewrite lookup_alter_eq. destruct (m !! i); simpl; by rewrite ?Hfg.
  - by rewrite lookup_alter_ne by done.
Qed.

Abbreviation Tree := (gmap SessionId (option SessionId)).

(** [child] was spawned by [parent]. *)
Definition spawned (t : Tree) (parent child : SessionId) : Prop := t !! child = Some (Some parent).

(** How many ancestors a session has. *)
Inductive depth (t : Tree) : SessionId -> nat -> Prop :=
  | depth_root s : t !! s = Some None -> depth t s 0
  | depth_child s p n : t !! s = Some (Some p) -> depth t p n -> depth t s (S n).

Lemma depth_stored t s n : depth t s n -> is_Some (t !! s).
Proof. destruct 1; eauto. Qed.

Lemma depth_unique t s n m : depth t s n -> depth t s m -> n = m.
Proof.
  intros H. revert m. induction H as [s Hs|s p n Hs _ IH]; intros m Hm;
    inversion Hm as [? Hs'|? p' m' Hs' Hm']; subst; try congruence.
  f_equal. apply IH. congruence.
Qed.

Lemma depth_mono t t' s n : t ⊆ t' -> depth t s n -> depth t' s n.
Proof.
  intros Hsub. induction 1 as [s Hs|s p n Hs _ IH];
    [apply depth_root|eapply depth_child; [|exact IH]]; by eapply lookup_weaken.
Qed.

(** A session of depth [n] has [n + 1] distinct stored ancestors, itself
    included. *)
Lemma depth_bounded t s n : depth t s n -> n < size t.
Proof.
  intros H. assert (exists X : gset SessionId, size X = S n /\ X ⊆ dom t
    /\ forall x, x ∈ X -> exists m, m <= n /\ depth t x m) as (X & HX & Hsub & _).
  { induction H as [s Hs|s p n Hs Hp IH].
    - exists {[s]}. split_and!; [apply size_singleton| |].
      + intros x ->%elem_of_singleton. apply elem_of_dom. eauto.
      + intros x ->%elem_of_singleton. exists 0. split; [lia|by constructor].
    - destruct IH as (X & HX & Hsub & Hd).
      assert (s ∉ X) as Hnew.
      { intros (m & Hm & Hdm)%Hd. assert (m = S n); [|lia].
        eapply depth_unique; [done|by econstructor]. }
      exists ({[s]} ∪ X). split_and!.
      + rewrite size_union, size_singleton by set_solver. lia.
      + apply union_subseteq. split; [|done]. intros x ->%elem_of_singleton. apply elem_of_dom. eauto.
      + intros x [->%elem_of_singleton|(m & Hm & Hdm)%Hd]%elem_of_union.
        * exists (S n). split; [lia|by econstructor].
        * exists m. split; [lia|done]. }
  apply subseteq_size in Hsub. rewrite size_dom in Hsub. lia.
Qed.

(** A session lies below one root. *)
Lemma root_of_depth t s n : depth t s n -> exists r, t !! r = Some None /\ rtc (spawned t) r s.
Proof.
  induction 1 as [s Hs|s p n Hs _ (r & Hr & IH)]; [by exists s|].
  exists r. split; [done|]. by eapply rtc_r.
Qed.

Lemma root_unique t s r r' :
  t !! r = Some None -> t !! r' = Some None -> rtc (spawned t) r s -> rtc (spawned t) r' s -> r = r'.
Proof.
  intros Hr Hr' H. revert r' Hr'. pattern s. revert s H. apply rtc_ind_r.
  - intros r' Hr' H'. apply rtc_inv_r in H' as [->|(z & _ & Hz)]; [done|].
    unfold spawned in Hz. congruence.
  - intros x y _ Hy IH r' Hr' H'.
    apply rtc_inv_r in H' as [->|(z & H' & Hz)]; unfold spawned in *; [congruence|].
    assert (z = x) as -> by congruence. by apply IH.
Qed.

Lemma spawned_mono t t' a b : t ⊆ t' -> rtc (spawned t) a b -> rtc (spawned t') a b.
Proof.
  intros Hsub. apply rtc_congruence with (f := id). intros x y H. by eapply lookup_weaken.
Qed.

(** ** The walks compute the tree *)

Section walks.
Context `{codec : RowCodec}.

Lemma parent_of_tree db s : parent_of db s = tree db !! s.
Proof. unfold parent_of, tree. by rewrite lookup_fmap. Qed.

Lemma tree_size db : size (tree db) = size (db_sessions db).
Proof. unfold tree. by rewrite map_size_fmap. Qed.

(** [ancestors]: when it finds a root, the rows are the session's ancestors. *)
Lemma ancestors_from_sound fuel db seen s r :
  find_first (fun row => bool_decide (row.2 = None)) (ancestors_from fuel db seen s) = Some r ->
  tree db !! r.1 = Some None /\ rtc (spawned (tree db)) r.1 s
  /\ depth (tree db) s (length (ancestors_from fuel db seen s) - 1).
Proof.
  revert seen s; induction fuel as [|fuel IH]; intros seen s; simpl; [done|].
  rewrite parent_of_tree. destruct (tree db !! s) as [[p|]|] eqn:E; simpl; [|intros [= <-]|done].
  - case_bool_decide as Hseen; [done|]. intros H. destruct (IH _ _ H) as (Hr & Hp & Hd).
    split_and!; [done|by eapply rtc_r|].
    destruct (ancestors_from fuel db _ p) as [|row rows] eqn:E2; [done|].
    simpl in *. rewrite Nat.sub_0_r in *. by eapply depth_child.
  - simpl. split_and!; [done|done|by constructor].
Qed.

Lemma ancestors_from_complete fuel db seen s n :
  depth (tree db) s n -> n < fuel ->
  (forall x m, x ∈ seen -> depth (tree db) x m -> n < m) ->
  length (ancestors_from fuel db seen s) = S n
  /\ is_Some (find_first (fun row => bool_decide (row.2 = None)) (ancestors_from fuel db seen s)).
Proof.
  intros H. revert fuel seen. induction H as [s Hs|s p n Hs Hp IH]; intros [|fuel] seen Hf Hseen;
    try lia; simpl; rewrite parent_of_tree, Hs; [simpl; eauto|].
  rewrite bool_decide_eq_false_2.
  - destruct (IH fuel ({[s]} ∪ seen)) as [Hl Hr]; [lia| |].
    + intros x m [->%elem_of_singleton|Hx]%elem_of_union Hm.
      * assert (m = S n) as ->; [|lia]. eapply depth_unique; [done|by econstructor].
      * specialize (Hseen x m Hx Hm). lia.
    + simpl. by rewrite Hl.
  - intros [->%elem_of_singleton|Hx]%elem_of_union.
    + assert (S n = n); [|lia]. eapply depth_unique; [by econstructor|]. done.
    + specialize (Hseen p n Hx Hp). lia.
Qed.

Lemma ancestors_complete db s n :
  depth (tree db) s n ->
  length (ancestors s db) = S n
  /\ is_Some (find_first (fun row => bool_decide (row.2 = None)) (ancestors s db)).
Proof.
  intros H. apply (ancestors_from_complete _ _ _ _ n); [done| |by intros ?? ?%elem_of_empty].
  apply depth_bounded in H. rewrite tree_size in H. unfold lineage_fuel. lia.
Qed.

(** [lineage_root_in_tx] always returns: a session that was visited is stored,
    or is the last one. *)
Lemma lineage_root_loop_returns fuel db visited cursor :
  cursor ∈ visited -> S (size (dom (tree db) ∖ visited)) < fuel ->
  exists r, lineage_root_loop fuel db visited cursor = Some r.
Proof.
  revert visited cursor; induction fuel as [|fuel IH]; intros visited cursor Hc Hf; [lia|].
  simpl. unfold parent_session_id_in_tx. rewrite parent_of_tree.
  destruct (tree db !! cursor) as [[p|]|] eqn:E; simpl; [|eauto|eauto].
  case_bool_decide as Hp; [eauto|]. destruct (decide (p ∈ dom (tree db))) as [Hd|Hd].
  - apply IH; [set_solver|].
    assert (size (dom (tree db) ∖ ({[p]} ∪ visited)) < size (dom (tree db) ∖ visited)); [|lia].
    apply subset_size. set_solver.
  - destruct fuel as [|fuel]; [lia|]. simpl. unfold parent_session_id_in_tx.
    rewrite parent_of_tree. apply not_elem_of_dom in Hd as ->. simpl. eauto.
Qed.

Lemma lineage_root_loop_root fuel db visited cursor r :
  lineage_root_loop fuel db visited cursor = Some (Ok r) ->
  tree db !! r = Some None /\ rtc (spawned (tree db)) r cursor.
Proof.
  revert visited cursor; induction fuel as [|fuel IH]; intros visited cursor; simpl; [done|].
  unfold parent_session_id_in_tx. rewrite parent_of_tree.
  destruct (tree db !! cursor) as [[p|]|] eqn:E; simpl; [|naive_solver|done].
  case_bool_decide; [done|]. intros [Hr Hp]%IH. split; [done|]. by eapply rtc_r.
Qed.

Lemma lineage_root_loop_depth fuel db visited cursor n :
  depth (tree db) cursor n -> n < fuel ->
  (forall x m, x ∈ visited -> depth (tree db) x m -> n <= m) ->
  exists r, lineage_root_loop fuel db visited cursor = Some (Ok r).
Proof.
  intros H. revert fuel visited. induction H as [s Hs|s p n Hs Hp IH]; intros [|fuel] visited Hf Hv;
    try lia; simpl; unfold parent_session_id_in_tx; rewrite parent_of_tree, Hs; simpl; [eauto|].
  rewrite bool_decide_eq_false_2 by (intros Hx; specialize (Hv p n Hx Hp); lia).
  apply IH; [lia|]. intros x m [->%elem_of_singleton|Hx]%elem_of_union Hm.
  - assert (n = m); [by eapply depth_unique|lia].
  - specialize (Hv x m Hx Hm). lia.
Qed.

Lemma lineage_root_depth db s n :
  depth (tree db) s n -> exists r, lineage_root_in_tx s db = Ok r
    /\ tree db !! r = Some None /\ rtc (spawned (tree db)) r s.
Proof.
  intros H. destruct (lineage_root_loop_depth (lineage_fuel db) db {[s]} s n) as [r Hr]; [done| | |].
  - apply depth_bounded in H. rewrite tree_size in H. unfold lineage_fuel. lia.
  - intros x m ->%elem_of_singleton Hm. assert (n = m); [by eapply depth_unique|lia].
  - exists r. unfold lineage_root_in_tx. rewrite Hr. split; [done|].
    by apply lineage_root_loop_root in Hr.
Qed.

(** [lineage]: the descendants of a root, itself included. *)
Lemma elem_of_add_children db X x :
  x ∈ add_children db X <-> x ∈ X \/ exists p, p ∈ X /\ spawned (tree db) p x.
Proof.
  unfold add_children, spawned, tree. rewrite elem_of_union, elem_of_dom.
  setoid_rewrite lookup_fmap. split; (intros [Hx|Hx]; [by left|right]).
  - destruct Hx as [row [Hx Hp]%map_lookup_filter_Some]. simpl in Hp.
    destruct (sr_parent_session_id row) as [p|] eqn:E; [|done]. simpl in Hp.
    apply bool_decide_eq_true in Hp. exists p. rewrite Hx. simpl. by rewrite E.
  - destruct Hx as (p & Hp & Hx). destruct (db_sessions db !! x) as [row|] eqn:E; [|done].
    exists row. apply map_lookup_filter_Some. split; [done|]. simpl in *.
    injection Hx as ->. simpl. by apply bool_decide_eq_true.
Qed.

Lemma lineage_iter_sound db n root x :
  x ∈ Nat.iter n (add_children db) {[root]} -> rtc (spawned (tree db)) root x.
Proof.
  revert x; induction n as [|n IH]; intros x.
  { cbn. intros ->%elem_of_singleton. done. }
  rewrite Nat.iter_succ. intros [H|(p & Hp & Hx)]%elem_of_add_children; [by apply IH|].
  eapply rtc_r; [by apply IH|done].
Qed.

(** The iteration has reached its fixpoint, or grows by a session a step. *)
Lemma lineage_iter_grows db n root :
  let X := Nat.iter n (add_children db) {[root]} in
  add_children db X ⊆ X \/ n < size X.
Proof.
  induction n as [|n IH]; intros X.
  - right. unfold X. cbn -[size]. rewrite size_singleton. lia.
  - unfold X. rewrite Nat.iter_succ. set (Y := Nat.iter n _ _) in *.
    destruct (decide (add_children db Y ⊆ Y)) as [Hfix|Hgrow].
    + left. assert (add_children db Y ≡ Y) as HY.
      { intros x. split; [apply Hfix|intros; apply elem_of_add_children; by left]. }
      apply leibniz_equiv in HY. by rewrite HY, HY.
    + right. destruct IH as [IH|IH]; [done|].
      assert (size Y < size (add_children db Y)); [|lia]. apply subset_size. split; [|done].
      intros x Hx. apply elem_of_add_children. by left.
Qed.

Lemma elem_of_lineage_of db root x :
  x ∈ lineage_of root db <-> rtc (spawned (tree db)) root x.
Proof.
  split; [apply lineage_iter_sound|].
  assert (add_children db (lineage_of root db) ⊆ lineage_of root db) as Hfix.
  { destruct (lineage_iter_grows db (size (db_sessions db)) root) as [H|H]; [done|].
    fold (lineage_of root db) in H.
    assert (lineage_of root db ⊆ {[root]} ∪ dom (tree db)) as Hsub.
    { intros y Hy%lineage_iter_sound. apply rtc_inv_r in Hy as [->|(z & _ & Hz)]; [set_solver|].
      apply elem_of_union_r, elem_of_dom. by eexists. }
    assert (lineage_of root db ≡ {[root]} ∪ dom (tree db)) as Heq.
    { apply set_subseteq_size_equiv; [done|].
      rewrite size_union_alt, size_singleton.
      assert (size (dom (tree db) ∖ {[root]}) <= size (dom (tree db))) as Hle
        by (apply subseteq_size; set_solver).
      rewrite size_dom, tree_size in Hle. lia. }
    intros y [Hy|(p & _ & Hy)]%elem_of_add_children; [done|].
    rewrite Heq. apply elem_of_union_r, elem_of_dom. by eexists. }
  intros H. revert x H. apply rtc_ind_r.
  - unfold lineage_of. generalize (size (db_sessions db)). intros n.
    induction n as [|n IH]; [set_solver|]. rewrite Nat.iter_succ. apply elem_of_add_children. by left.
  - intros x y _ Hxy Hx. apply Hfix, elem_of_add_children. right. by exists x.
Qed.
End walks.

(** ** Bounded trees *)

(** Parents are stored, no session is too deep, and no root has too many
    descendants (itself counted). *)
Record bounded_tree (t : Tree) : Prop := {
  bt_closed s p : t !! s = Some (Some p) -> is_Some (t !! p);
  bt_shallow s : is_Some (t !! s) -> exists n, depth t s n /\ n <= MAX_RELATED_SESSION_DEPTH;
  bt_narrow r (X : gset SessionId) : t !! r = Some None ->
    (forall x, x ∈ X -> rtc (spawned t) r x) -> size X <= S MAX_RELATED_SESSION_DESCENDANTS;
}.

Section inserts.
Context (t : Tree) (c : SessionId) (Hfresh : t !! c = None) (Ht : bounded_tree t).

Lemma fresh_childless x parent : rtc (spawned (<[c := parent]> t)) c x -> x = c.
Proof.
  apply (rtc_ind_r (fun x => x = c)); [done|]. intros y z _ Hyz ->. unfold spawned in Hyz.
  destruct (decide (z = c)) as [->|Hne]; [done|]. rewrite lookup_insert_ne in Hyz by done.
  apply (bt_closed _ Ht) in Hyz as [? Hc]. by rewrite Hfresh in Hc.
Qed.

(** Nothing new lies below an old session but the new one. *)
Lemma below_insert parent r x :
  r <> c -> rtc (spawned (<[c := parent]> t)) r x ->
  rtc (spawned t) r x \/ (x = c /\ exists p, parent = Some p /\ rtc (spawned t) r p).
Proof.
  intros Hr. apply (rtc_ind_r (fun x => rtc (spawned t) r x
    \/ (x = c /\ exists p, parent = Some p /\ rtc (spawned t) r p))); [by left|].
  intros y z _ Hyz Hy. unfold spawned in Hyz.
  destruct (decide (z = c)) as [->|Hne].
  - rewrite lookup_insert_eq in Hyz. injection Hyz as ->. right. split; [done|].
    exists y. split; [done|]. destruct Hy as [Hy|(-> & p & Hp & Hrp)]; [done|].
    injection Hp as <-. apply rtc_inv_r in Hrp as [->|(w & _ & Hw)]; [done|].
    unfold spawned in Hw. congruence.
  - rewrite lookup_insert_ne in Hyz by done. left. destruct Hy as [Hy|[-> _]].
    + by eapply rtc_r.
    + apply (bt_closed _ Ht) in Hyz as [? Hc]. by rewrite Hfresh in Hc.
Qed.

Lemma insert_old_depth parent s n :
  depth t s n -> depth (<[c := parent]> t) s n.
Proof. apply depth_mono. by apply insert_subseteq. Qed.

Lemma bounded_insert_root : bounded_tree (<[c := None]> t).
Proof.
  split.
  - intros s p. destruct (decide (s = c)) as [->|Hs]; [by rewrite lookup_insert_eq|].
    rewrite lookup_insert_ne by done. intros H%(bt_closed _ Ht).
    rewrite lookup_insert_is_Some'. by right.
  - intros s. destruct (decide (s = c)) as [->|Hs].
    + exists 0. split; [|lia]. apply depth_root, lookup_insert_eq.
    + rewrite lookup_insert_ne by done. intros (n & Hn & Hle)%(bt_shallow _ Ht).
      exists n. split; [by apply insert_old_depth|done].
  - intros r X Hr HX. destruct (decide (r = c)) as [->|Hne].
    + assert (X ⊆ {[c]}) as Hsub by (intros x Hx%HX%fresh_childless; set_solver).
      apply subseteq_size in Hsub. rewrite size_singleton in Hsub. lia.
    + rewrite lookup_insert_ne in Hr by done. apply (bt_narrow _ Ht r); [done|].
      intros x Hx%HX. by apply below_insert in Hx as [?|(_ & ? & ? & _)].
Qed.

Lemma bounded_insert_child p r n :
  depth t p n -> n < MAX_RELATED_SESSION_DEPTH ->
  t !! r = Some None -> rtc (spawned t) r p ->
  (forall X : gset SessionId, (forall x, x ∈ X -> rtc (spawned t) r x) ->
     size X <= MAX_RELATED_SESSION_DESCENDANTS) ->
  bounded_tree (<[c := Some p]> t).
Proof.
  intros Hp Hn Hroot Hrp Hroom. split.
  - intros s q. rewrite lookup_insert_is_Some'. destruct (decide (s = c)) as [->|Hs].
    + rewrite lookup_insert_eq. intros [= <-]. right. by eapply depth_stored.
    + rewrite lookup_insert_ne by done. intros H%(bt_closed _ Ht). by right.
  - intros s. destruct (decide (s = c)) as [->|Hs].
    + exists (S n). split; [|lia]. eapply depth_child; [apply lookup_insert_eq|].
      by apply insert_old_depth.
    + rewrite lookup_insert_ne by done. intros (m & Hm & Hle)%(bt_shallow _ Ht).
      exists m. split; [by apply insert_old_depth|done].
  - intros r' X Hr' HX. destruct (decide (r' = c)) as [->|Hne]; [by rewrite lookup_insert_eq in Hr'|].
    rewrite lookup_insert_ne in Hr' by done.
    destruct (decide (c ∈ X)) as [Hc|Hc].
    + assert (rtc (spawned t) r' p) as Hr'p.
      { apply HX, below_insert in Hc as [Hc|(_ & ? & [= <-] & ?)]; [|done|done].
        apply rtc_inv_r in Hc as [->|(z & _ & Hz)]; [done|]. unfold spawned in Hz. congruence. }
      assert (r' = r) as -> by (by eapply root_unique).
      assert (size (X ∖ {[c]}) <= MAX_RELATED_SESSION_DESCENDANTS) as Hle.
      { apply Hroom. intros x [Hx Hxc]%elem_of_difference.
        apply HX, below_insert in Hx as [?|[-> _]]; [done|set_solver|done]. }
      rewrite size_difference_alt in Hle.
      assert (X ∩ {[c]} ⊆ {[c]}) as Hsub by set_solver.
      apply subseteq_size in Hsub. rewrite size_singleton in Hsub. lia.
    + apply (bt_narrow _ Ht r'); [done|]. intros x Hx.
      pose proof (HX x Hx) as Hx'. apply below_insert in Hx' as [?|[-> _]]; done.
Qed.
End inserts.

Section spawning.
Context `{codec : RowCodec}.

(** Exactly when a child may be spawned. *)
Lemma spawn_bounds_Ok p db :
  ensure_child_spawn_bounds_in_tx p db = Ok tt <->
  exists n r, depth (tree db) p n /\ n < MAX_RELATED_SESSION_DEPTH
    /\ tree db !! r = Some None /\ rtc (spawned (tree db)) r p
    /\ size (lineage_of r db) <= MAX_RELATED_SESSION_DESCENDANTS.
Proof.
  unfold ensure_child_spawn_bounds_in_tx. cbv zeta. rewrite result_bind_Ok.
  setoid_rewrite ok_or_Ok. setoid_rewrite result_bind_Ok. setoid_rewrite reject_if_Ok.
  setoid_rewrite Nat.leb_gt. split.
  - intros (root & E & _ & Hdepth & Hsize). apply ancestors_from_sound in E as (Hr & Hp & Hd).
    fold (ancestors p db) in Hd. exists (length (ancestors p db) - 1), root.1.
    split_and!; [done|done|done|done|lia].
  - intros (n & r & Hd & Hn & Hr & Hp & Hs).
    destruct (ancestors_complete db p n Hd) as [Hl [root Hroot]]. exists root. split; [done|].
    apply ancestors_from_sound in Hroot as (Hr' & Hp' & _).
    assert (root.1 = r) as -> by (by eapply root_unique). rewrite Hl.
    unfold MAX_RELATED_SESSION_DESCENDANTS in *. exists tt. split; lia.
Qed.

Lemma payload_tree event seq_id db u db' :
  refresh_payload event seq_id db = Ok (u, db') -> tree db' = tree db.
Proof.
  intros H. payload_cases H; try done; unfold tree; simpl; by apply fmap_alter_same.
Qed.

Lemma append_tree event : keeps (fun db db' => tree db' = tree db) (append_event_in_tx event).
Proof.
  intros db seq_id db' (_ & _ & now & turns & _ & _ & ->%payload_tree)%append_event_Ok.
  unfold tree. simpl. by apply fmap_alter_same.
Qed.

(** ** The calls that plant and grow trees *)

Definition same_tree (db db' : Db) : Prop := tree db' = tree db.

#[local] Instance same_tree_preorder : PreOrder same_tree.
Proof. split; [by intros ?|intros x y z Hx Hy]. unfold same_tree in *. congruence. Qed.

Lemma insert_session_tree session db u db' :
  insert_session_in_tx session db = Ok (u, db') ->
  tree db !! se_session_id session = None
  /\ tree db' = <[se_session_id session := se_parent_session_id session]> (tree db).
Proof.
  unfold insert_session_in_tx. intros H. invert_tx.
  destruct (db_sessions db !! _) eqn:E; invert_tx. unfold tree. simpl.
  by rewrite lookup_fmap, E, fmap_insert.
Qed.

Lemma tx_map_tree {A B} (f : A -> Tx B) l :
  (forall a, keeps same_tree (f a)) -> keeps same_tree (tx_map f l).
Proof. intros Hf. by apply keeps_map; [apply _|]. Qed.

(** What follows the insertion of a session does not change the tree. *)
Lemma grows_by_insert session {A} (rest : Tx A) db a db' :
  keeps same_tree rest -> bounded_tree (tree db) ->
  (se_parent_session_id session = None
   \/ exists p, se_parent_session_id session = Some p
        /\ ensure_child_spawn_bounds_in_tx p db = Ok tt) ->
  (insert_session_in_tx session ;; rest) db = Ok (a, db') ->
  bounded_tree (tree db').
Proof.
  intros Hrest Ht Hparent H. invert_tx. apply Hrest in H as ->.
  apply insert_session_tree in Htx as [Hfresh ->].
  destruct Hparent as [->|(p & -> & (n & r & Hd & Hn & Hr & Hp & Hs)%spawn_bounds_Ok)].
  - by apply bounded_insert_root.
  - eapply (bounded_insert_child _ _ Hfresh Ht p r); [done|done|done|done|].
    intros X HX. etrans; [|exact Hs]. apply subseteq_size.
    intros x Hx. apply elem_of_lineage_of. auto.
Qed.

Lemma transaction_ind {A} (P : Db -> Prop) (body : Tx A) db :
  P db -> (forall a db', body db = Ok (a, db') -> P db') -> P (transaction body db).2.
Proof.
  intros H0 H. unfold transaction. destruct (body db) as [[a db']|] eqn:E; simpl; [by eapply H|done].
Qed.

(** A call that gives no session a parent but by spawning it. *)
Definition plants_roots (op : StoreOp) : Prop :=
  match op with
  | OpCreateSession session _ | OpImport session _ _ _ => se_parent_session_id session = None
  | OpUpdateParent _ _ _ _ _ => False
  | _ => True
  end.

Lemma validate_child_spawn_parent child branch e1 e2 e3 e4 parent :
  validate_child_spawn child branch e1 e2 e3 e4 = Ok parent ->
  se_parent_session_id child = Some parent.1 /\ se_parent_branch_id child = Some parent.2.
Proof.
  unfold validate_child_spawn. rewrite result_bind_Ok. intros (objective & _ & H).
  apply result_bind_Ok in H as (p & Hp & H). apply result_bind_Ok in H as (b & Hb & H).
  apply ok_or_Ok in Hp, Hb. apply result_bind_Ok in H as (_ & _ & [= <-]). done.
Qed.

Lemma run_op_bounded op db :
  plants_roots op -> bounded_tree (tree db) -> bounded_tree (tree (run_op op db)).
Proof.
  intros Hop Ht.
  destruct (op_creates op) as [session|] eqn:Ec.
  - destruct treewise_writes as (H2 & H3 & _ & _ & H7 & _).
    assert (forall A (m : Tx A), keeps treewise m -> keeps same_tree m) as Hk.
    { intros A m. apply keeps_weaken. by intros ?? [_ ?]. }
    assert (forall event, keeps same_tree (append_event_in_tx event)) as Ha by apply append_tree.
    destruct op; try done; injection Ec as ->; cbn [plants_roots run_op] in *;
      apply (transaction_ind (fun db => bounded_tree (tree db))); try done; intros a db' E.
    + eapply grows_by_insert in E; [done| |done|by left].
      apply keeps_bind; [apply _|by apply Hk|intros _; by apply Hk].
    + apply tx_bind_Ok in E as (parent & d1 & [Hv ->]%tx_lift_Ok & E).
      apply validate_child_spawn_parent in Hv as [Hp _].
      apply tx_bind_Ok in E as (message & d2 & [_ ->]%tx_lift_Ok & E).
      apply tx_bind_Ok in E as ([] & d3 & Hb & E).
      apply tx_bind_Ok in Hb as (d & d4 & [-> ->]%tx_get_Ok & [Hb ->]%tx_lift_Ok).
      eapply grows_by_insert in E; [done| |done|right; by exists parent.1].
      unfold append_events_in_tx, query_result. repeat (keeps_step || auto).
    + eapply grows_by_insert in E; [done| |done|by left].
      unfold append_events_in_tx, append_raw_chunk_in_tx. repeat (keeps_step || auto).
  - rewrite (run_op_keeps_parts same_tree op); [done|apply _|apply append_tree|by intros ?? [_ ?]| |].
    + intros session. by rewrite Ec.
    + by destruct op.
Qed.

Lemma run_ops_bounded ops : Forall plants_roots ops -> bounded_tree (tree (run_ops ops db_empty)).
Proof.
  assert (bounded_tree (tree db_empty)) as H0.
  { unfold tree. simpl. rewrite fmap_empty. split; intros s *; rewrite ?lookup_empty; [done| |done].
    by intros [x ?]. }
  revert H0. generalize db_empty. unfold run_ops. induction ops as [|op ops IH]; simpl; [done|].
  intros db H0 [Hop Hops]%Forall_cons. apply IH; [|done]. by apply run_op_bounded.
Qed.
End spawning.

(** ** A family of two sessions *)

#[local] Open Scope Z_scope.

Definition child_session : SessionRecord :=
  {| se_session_id := MkUuid 100; se_project_root := "/p"; se_connection_id := MkConnectionId "c";
     se_model_id := Some "m"; se_tool_mode := Standard; se_settings_revision_id := 1;
     se_created_at := 3; se_updated_at := 3; se_status := StatusActive;
     se_display_name := None; se_objective := Some "o"; se_parent_session_id := Some (MkUuid 1);
     se_parent_branch_id := Some (MkUuid 2); se_parent_turn_id := None |}.

Definition child_branch : BranchRecord :=
  {| br_branch_id := MkUuid 101; br_session_id := MkUuid 100; br_parent_branch_id := None;
     br_parent_event_id := None; br_head_event_id := None; br_summary := None;
     br_created_at := 3; br_is_default := true |}.

Definition child_event (n : Z) (p : EventPayload) : EventEnvelope :=
  new_envelope (MkUuid (Z.to_N n)) (MkUuid 0) n (MkUuid 100) (MkUuid 101) SpanAgent p.

(** The parent instructs the child, which is to be woken. *)
Definition instruction : RelatedSessionMessage :=
  {| rm_message_id := MkUuid 200; rm_context_message_id := MkUuid 201;
     rm_source_session_id := MkUuid 1; rm_source_branch_id := MkUuid 2;
     rm_caused_by_turn_id := None; rm_destination_session_id := MkUuid 100;
     rm_destination_branch_id := MkUuid 101; rm_kind := KInstruction; rm_delivery_mode := Wake;
     rm_in_reply_to := None; rm_text := "do it"; rm_artifact_refs := []; rm_created_at := 14 |}.

Definition instruction_sent : EventEnvelope :=
  sample_event 24 (RelatedSessionMessageRecorded Sent (MkUuid 25) instruction).
Definition instruction_received : EventEnvelope :=
  child_event 25 (RelatedSessionMessageRecorded Received (MkUuid 24) instruction).

Definition spawn_child (message : option (EventEnvelope * EventEnvelope)) : StoreOp :=
  OpSpawnChild child_session child_branch
    (sample_event 20 (SessionSpawnRequested (MkUuid 100) "o" "c" (Some "m")))
    (child_event 21 (SessionStarted "/p" "c"))
    (child_event 22 (SessionHandoffRecorded (MkUuid 1) (MkUuid 2) None "o" "o"))
    (sample_event 23 (SessionSpawned (MkUuid 100) (MkUuid 101) "o")) message.

Definition family_history : list StoreOp :=
  [OpCreateSession sample_session sample_branch;
   spawn_child (Some (instruction_sent, instruction_received))].
Definition family_db : Db := run_ops family_history db_empty.

Example family_log_length : length (db_events family_db) = 6%nat.
Proof. vm_compute. reflexivity. Qed.

Example family_ancestors :
  ancestors (MkUuid 100) family_db = [(MkUuid 100, Some (MkUuid 1)); (MkUuid 1, None)].
Proof. vm_compute. reflexivity. Qed.

(** ** Theorems *)

#[local] Open Scope nat_scope.

(** C24. Wherever sessions are created as roots or spawned, every session lies
    at most [MAX_RELATED_SESSION_DEPTH] levels below one root, which the walk
    to the root finds, and no root has more than
    [MAX_RELATED_SESSION_DESCENDANTS] descendants. *)
Theorem lineage_bounded `{RowCodec} ops s :
  Forall plants_roots ops ->
  is_Some (db_sessions (run_ops ops db_empty) !! s) ->
  let db := run_ops ops db_empty in
  exists r n, lineage_root_in_tx s db = Ok r /\ parent_of db r = Some None
  /\ depth (tree db) s n /\ length (ancestors s db) = S n
  /\ n <= MAX_RELATED_SESSION_DEPTH
  /\ s ∈ lineage_of r db /\ size (lineage_of r db) <= S MAX_RELATED_SESSION_DESCENDANTS.
Proof.
  intros Hops Hs db. pose proof (run_ops_bounded ops Hops) as Ht. fold db in Ht.
  destruct (bt_shallow _ Ht s) as (n & Hd & Hn).
  { unfold tree. rewrite lookup_fmap. by apply fmap_is_Some. }
  destruct (lineage_root_depth db s n Hd) as (r & Hr & Hroot & Hrs). exists r, n.
  split_and!; [done|by rewrite parent_of_tree|done|by apply ancestors_complete|done| |].
  - by apply elem_of_lineage_of.
  - apply (bt_narrow _ Ht r); [done|]. intros x. apply elem_of_lineage_of.
Qed.

Lemma lineage_bounded_witness :
  bool_decide (is_Some (db_sessions family_db !! MkUuid 100)) = true
  /\ exists r n, lineage_root_in_tx (MkUuid 100) family_db = Ok r
  /\ parent_of family_db r = Some None
  /\ depth (tree family_db) (MkUuid 100) n /\ length (ancestors (MkUuid 100) family_db) = S n
  /\ n <= MAX_RELATED_SESSION_DEPTH
  /\ MkUuid 100 ∈ lineage_of r family_db
  /\ size (lineage_of r family_db) <= S MAX_RELATED_SESSION_DESCENDANTS.
Proof.
  assert (bool_decide (is_Some (db_sessions family_db !! MkUuid 100)) = true) as Hs
    by (vm_compute; reflexivity).
  split; [exact Hs|]. apply (lineage_bounded family_history (MkUuid 100)).
  - by repeat constructor.
  - by apply bool_decide_eq_true in Hs.
Defined.

(** On every database, cyclic parent links included, the walk to the root
    of a session ends within its fuel, and it returns a session exactly when
    that is the root the session descends from. *)
Theorem lineage_root_exact `{RowCodec} db s :
  (exists res, lineage_root_loop (lineage_fuel db) db {[s]} s = Some res)
  /\ forall r, lineage_root_in_tx s db = Ok r <->
       parent_of db r = Some None /\ rtc (spawned (tree db)) r s.
Proof.
  assert (exists res, lineage_root_loop (lineage_fuel db) db {[s]} s = Some res) as [res Hres].
  { apply lineage_root_loop_returns; [set_solver|]. unfold lineage_fuel.
    assert (size (dom (tree db) ∖ {[s]}) <= size (dom (tree db))) as Hle
      by (apply subseteq_size; set_solver).
    rewrite size_dom, tree_size in Hle. lia. }
  split; [by exists res|]. intros r. rewrite parent_of_tree. split.
  - unfold lineage_root_in_tx. rewrite Hres. intros Hr. simpl in Hr. subst res.
    by apply lineage_root_loop_root in Hres.
  - intros [Hr Hrs]. assert (exists n, depth (tree db) s n) as [n Hn].
    { clear Hres. revert s Hrs. apply (rtc_ind_r (fun s => exists n, depth (tree db) s n)).
      - exists 0. by constructor.
      - intros x y _ Hxy [n Hn]. exists (S n). by econstructor. }
    destruct (lineage_root_depth db s n Hn) as (r' & Hr' & Hroot & Hr's). rewrite Hr'.
    f_equal. by eapply root_unique.
Qed.
