(* ===== verification/StoreMessaging.v ===== *)
(** * Messages between related sessions

    What the deliveries, settlements and claims of [StoreRelated] commit: a
    delivery writes both copies of a message once however often it is retried,
    an obligation is settled once, and a waking message is claimed in the
    order of arrival by the turn it starts. *)

From stdpp Require Import base list strings gmap sorting.
From Stdlib Require Import ZArith Lia.
From S2P Require Import Prelude Text Json Types TurnProjection Store StoreOps StoreRelated StoreLaws.
From S2P Require Import StoreReplay StoreQueue StoreAdmission StoreLineage.

#[local] Open Scope Z_scope.

(** ** The message table under appends *)

Section table.
Context `{codec : RowCodec}.

(** A recorded message is one new row. *)
Record recorded (event : EventEnvelope) (c : EventId) (m : RelatedSessionMessage) (seq_id : Z)
    (row : RelatedRow) : Prop := {
  rec_event : rr_event_id row = ev_event_id event;
  rec_counterpart : rr_counterpart_event_id row = c;
  rec_message : rr_message row = m;
  rec_seq : rr_source_seq row = seq_id;
  rec_settlement : rr_settlement row = None;
}.

Lemma append_recorded event db seq_id db' d c m :
  append_event_in_tx event db = Ok (seq_id, db') ->
  ev_payload event = RelatedSessionMessageRecorded d c m ->
  db_related db !! (ev_session_id event, rm_message_id m, d) = None
  /\ exists row, recorded event c m seq_id row
       /\ db_related db' = <[(ev_session_id event, rm_message_id m, d) := row]> (db_related db).
Proof.
  intros (_ & -> & now & turns & _ & _ & H)%append_event_Ok Hp.
  unfold refresh_payload in H. rewrite Hp in H. unfold refresh_related_recorded in H. invert_tx.
  repeat case_match; invert_tx.
  all: match goal with E : _ || _ = false |- _ => apply orb_false_iff in E as [E _] end.
  all: match goal with E : bool_decide _ = false |- _ => apply bool_decide_eq_false in E end.
  all: match goal with E : ~ is_Some _ |- _ => apply eq_None_not_Some in E; simpl in E end.
  all: split; [done|eexists; split; [|reflexivity]; by split].
Qed.

(** No copy of the message has been claimed or dropped. *)
Definition unresolved (m : RelatedSessionMessage) (db : Db) : Prop :=
  forall k row, db_related db !! k = Some row -> same_edge m row = true -> is_resolved row = false.

(** The status of the new row. *)
Lemma append_recorded_status event db seq_id db' d c m row :
  append_event_in_tx event db = Ok (seq_id, db') ->
  ev_payload event = RelatedSessionMessageRecorded d c m -> unresolved m db ->
  db_related db' !! (ev_session_id event, rm_message_id m, d) = Some row ->
  rr_status row = match d with Sent => Delivered | Received => delivery_status m end.
Proof.
  intros (_ & -> & now & turns & _ & _ & H)%append_event_Ok Hp Hu Hrow.
  unfold refresh_payload in H. rewrite Hp in H. unfold refresh_related_recorded in H.
  apply tx_bind_Ok in H as (db0 & d0 & [-> ->]%tx_get_Ok & H).
  assert (find_first (fun row => same_edge m row && is_resolved row)
    (snd <$> map_to_list (db_related db)) = None) as Hnone.
  { destruct (find_first _ _) as [x|] eqn:E; [exfalso|done].
    apply find_first_Some in E as [([k x'] & -> & Hin%elem_of_map_to_list)%list_elem_of_fmap E].
    simpl in E. apply andb_true_iff in E as [E1 E2]. by rewrite (Hu k x') in E2. }
  cbv zeta in H. change (db_related (touched _ _ _ _ db)) with (db_related db) in H.
  rewrite Hnone in H. invert_tx.
  repeat case_match; invert_tx; simpl in Hrow; rewrite lookup_insert_eq in Hrow;
    injection Hrow as <-; unfold delivery_status; simpl; by repeat case_match.
Qed.

Definition is_related_event (event : EventEnvelope) : bool :=
  match ev_payload event with
  | RelatedSessionMessageRecorded _ _ _ | RelatedSessionMessageResolved _ _ _ _
  | RelatedSessionMessageSettled _ _ _ _ => true
  | _ => false
  end.

Lemma payload_related event seq_id db u db' :
  is_related_event event = false ->
  refresh_payload event seq_id db = Ok (u, db') -> db_related db' = db_related db.
Proof. unfold is_related_event. intros Hn H. payload_cases H; done. Qed.

Lemma append_other event db seq_id db' :
  is_related_event event = false ->
  append_event_in_tx event db = Ok (seq_id, db') -> db_related db' = db_related db.
Proof.
  intros Hn (_ & _ & now & turns & _ & _ & H)%append_event_Ok. by apply payload_related in H.
Qed.

(** A settlement fills the columns of one row. *)
Definition settle_row (cols : SettlementCols) (row : RelatedRow) : RelatedRow :=
  MkRelatedRow (rr_event_id row) (rr_counterpart_event_id row) (rr_message row)
    (rr_status row) (rr_source_seq row) (rr_resulting_turn_id row) (rr_created_at row)
    (rr_resolved_at row) (Some cols).

Lemma append_settled event db seq_id db' id reply kind turn :
  append_event_in_tx event db = Ok (seq_id, db') ->
  ev_payload event = RelatedSessionMessageSettled id reply kind turn ->
  exists now, format_time (ev_occurred_at event) = Some now
  /\ db_related db' = alter
       (settle_row (MkSettlementCols (ev_event_id event) reply kind turn seq_id now))
       (ev_session_id event, id, Received) (db_related db).
Proof.
  intros (_ & -> & now & turns & Hnow & _ & H)%append_event_Ok Hp.
  unfold refresh_payload in H. rewrite Hp in H. unfold refresh_related_settled in H. invert_tx.
  same_value. eauto.
Qed.

(** A resolution maps the rows of one edge. *)
Lemma append_resolved event db seq_id db' id status turn reason :
  append_event_in_tx event db = Ok (seq_id, db') ->
  ev_payload event = RelatedSessionMessageResolved id status turn reason ->
  exists received now, format_time (ev_occurred_at event) = Some now
  /\ db_related db !! (ev_session_id event, id, Received) = Some received
  /\ db_related db' = (fun row =>
      if same_edge (rr_message received) row then
        MkRelatedRow (rr_event_id row) (rr_counterpart_event_id row) (rr_message row) status
          (rr_source_seq row) turn (rr_created_at row) (Some now) (rr_settlement row)
      else row) <$> db_related db.
Proof.
  intros (_ & -> & now & turns & Hnow & _ & H)%append_event_Ok Hp.
  unfold refresh_payload in H. rewrite Hp in H. unfold refresh_related_resolved in H. invert_tx.
  same_value. simpl in *. eauto.
Qed.

(** Rows are keyed by the id of their message, and their sequence numbers are
    in the log's range and tell them apart. *)
Record related_ok (db : Db) : Prop := {
  ro_keyed k row : db_related db !! k = Some row -> k.1.2 = rm_message_id (rr_message row);
  ro_range k row : db_related db !! k = Some row -> rr_source_seq row <= db_last_seq db;
  ro_distinct k k' row row' : db_related db !! k = Some row -> db_related db !! k' = Some row' ->
    rr_source_seq row = rr_source_seq row' -> k = k';
}.

(** Rewriting rows without touching messages and sequence numbers. *)
Lemma related_ok_map db db' :
  related_ok db -> db_last_seq db <= db_last_seq db' ->
  (forall k row', db_related db' !! k = Some row' -> exists row,
     db_related db !! k = Some row /\ rr_message row' = rr_message row
     /\ rr_source_seq row' = rr_source_seq row) ->
  related_ok db'.
Proof.
  intros [Hk Hr Hd] Hle Hrows. split.
  - intros k row' (row & H & -> & _)%Hrows. by apply Hk.
  - intros k row' (row & H & _ & ->)%Hrows. apply Hr in H. lia.
  - intros k1 k2 row1' row2' (row1 & H1 & _ & ->)%Hrows (row2 & H2 & _ & ->)%Hrows. by apply Hd.
Qed.

Lemma related_ok_append event db seq_id db' :
  related_ok db -> append_event_in_tx event db = Ok (seq_id, db') -> related_ok db'.
Proof.
  intros Hok H. pose proof (append_log _ _ _ _ H) as (_ & Hseq & _ & Hlast & _).
  destruct (is_related_event event) eqn:E.
  - unfold is_related_event in E. destruct (ev_payload event) eqn:Hp; try done.
    + destruct (append_recorded _ _ _ _ _ _ _ H Hp) as (Hf & row & [_ _ Hm Hs _] & Hr).
      destruct Hok as [Hk Hrg Hd]. split.
      * intros k row'. rewrite Hr, lookup_insert_Some. intros [[<- <-]|[_ ?]]; [by rewrite Hm|by apply Hk].
      * intros k row'. rewrite Hr, lookup_insert_Some. intros [[<- <-]|[_ Hx%Hrg]]; subst; lia.
      * intros k k' row1 row2. rewrite Hr, !lookup_insert_Some.
        intros [[<- <-]|[_ H1]] [[<- <-]|[_ H2]] Heq; [done| | |by eapply Hd].
        -- apply Hrg in H2. lia.
        -- apply Hrg in H1. lia.
    + destruct (append_resolved _ _ _ _ _ _ _ _ H Hp) as (received & now & _ & _ & Hr).
      eapply related_ok_map; [done|lia|]. intros k row'. rewrite Hr, lookup_fmap.
      intros (row & -> & ->)%fmap_Some. exists row. split; [done|]. by case_match.
    + destruct (append_settled _ _ _ _ _ _ _ _ H Hp) as (now & _ & Hr).
      eapply related_ok_map; [done|lia|]. intros k row'. rewrite Hr, lookup_alter_Some.
      intros [(<- & row & Hrow & ->)|[_ Hrow]]; eauto.
  - eapply related_ok_map; [done|lia|]. rewrite (append_other _ _ _ _ E H). eauto.
Qed.

Lemma related_ok_reachable db : reachable db -> related_ok db.
Proof.
  apply (reachable_ind related_ok).
  - split; intros *; unfold db_empty; simpl; by rewrite ?lookup_empty.
  - intros db1 db2 Hs Hok. eapply related_ok_map; [done|by rewrite (st_seq _ _ Hs)|].
    rewrite (st_related _ _ Hs). eauto.
  - intros event db1 seq_id db2 Hok H. by eapply related_ok_append.
Qed.

Lemma related_keyed db (Hr : reachable db) s id d row :
  db_related db !! (s, id, d) = Some row -> rm_message_id (rr_message row) = id.
Proof. intros H. symmetry. by apply (ro_keyed _ (related_ok_reachable db Hr) (s, id, d)). Qed.

(** ** What the validators say *)

Lemma envelopes_Ok sent received m :
  validate_related_session_message_envelopes sent received = Ok m ->
  ev_payload sent = RelatedSessionMessageRecorded Sent (ev_event_id received) m
  /\ ev_payload received = RelatedSessionMessageRecorded Received (ev_event_id sent) m
  /\ ev_session_id sent = rm_source_session_id m
  /\ ev_session_id received = rm_destination_session_id m.
Proof.
  unfold validate_related_session_message_envelopes. intros H.
  repeat (case_match; try done). apply result_bind_Ok in H as (u & Hc & [= <-]).
  apply reject_if_Ok in Hc. rewrite !orb_false_iff, !negb_false_iff, !bool_decide_eq_true in Hc.
  destruct Hc as [[[[[[[[[? ?] ?] ?] ?] ?] ?] ?] ?] ?]. subst. by split_and!.
Qed.

(** A delivery's receipt, read back from the two rows. *)
Lemma receipt_of_rows db src dst id expected sent received :
  db_related db !! (src, id, Sent) = Some sent ->
  db_related db !! (dst, id, Received) = Some received ->
  (forall m, expected = Some m -> rr_message sent = m) ->
  load_related_message_receipt_in_tx src dst id expected db
    = Ok (Some (MkReceipt id (rr_event_id sent) (rr_source_seq sent) (rr_counterpart_event_id sent)
                  (rr_source_seq received) (rr_status received))).
Proof.
  intros Hs Hr Hm. unfold load_related_message_receipt_in_tx. rewrite Hs, Hr.
  assert (is_some_and (fun m => negb (bool_decide (m = rr_message sent))) expected = false) as ->.
  { destruct expected as [m|]; [|done]. simpl. by rewrite bool_decide_eq_true_2 by (by rewrite <-(Hm m)). }
  done.
Qed.

Lemma receipt_Ok db src dst id expected r :
  load_related_message_receipt_in_tx src dst id expected db = Ok (Some r) ->
  exists sent received,
    db_related db !! (src, id, Sent) = Some sent
    /\ db_related db !! (dst, id, Received) = Some received
    /\ (forall m, expected = Some m -> rr_message sent = m)
    /\ r = MkReceipt id (rr_event_id sent) (rr_source_seq sent) (rr_counterpart_event_id sent)
             (rr_source_seq received) (rr_status received).
Proof.
  unfold load_related_message_receipt_in_tx. destruct (_ !! (src, id, Sent)) as [sent|]; [|done].
  rewrite result_bind_Ok. intros (u & Hm & H). apply reject_if_Ok in Hm.
  apply result_bind_Ok in H as (received & Hr & [= <-]). apply ok_or_Ok in Hr.
  exists sent, received. split_and!; [done|done| |done]. intros m ->. simpl in Hm.
  by apply negb_false_iff, bool_decide_eq_true in Hm.
Qed.

Lemma receipt_none db src dst id expected :
  load_related_message_receipt_in_tx src dst id expected db = Ok None ->
  db_related db !! (src, id, Sent) = None.
Proof.
  unfold load_related_message_receipt_in_tx. destruct (_ !! (src, id, Sent)) as [sent|]; [|done].
  rewrite result_bind_Ok. intros (u & _ & H). by apply result_bind_Ok in H as (? & _ & ?).
Qed.

(** Both copies of a message, written by two appends. *)
Lemma deliver sent received m db n1 d1 n2 db' :
  validate_related_session_message_envelopes sent received = Ok m ->
  append_event_in_tx sent db = Ok (n1, d1) -> append_event_in_tx received d1 = Ok (n2, db') ->
  db_events db' = db_events db ++ [(n1, sent); (n2, received)]
  /\ exists row row',
    recorded sent (ev_event_id received) m n1 row /\ recorded received (ev_event_id sent) m n2 row'
    /\ db_related db !! (rm_source_session_id m, rm_message_id m, Sent) = None
    /\ db_related db !! (rm_destination_session_id m, rm_message_id m, Received) = None
    /\ db_related db' = <[(rm_destination_session_id m, rm_message_id m, Received) := row']>
         (<[(rm_source_session_id m, rm_message_id m, Sent) := row]> (db_related db)).
Proof.
  intros (Hp1 & Hp2 & Hs1 & Hs2)%envelopes_Ok H1 H2. split.
  - apply append_log in H1 as (_ & _ & H1 & _), H2 as (_ & _ & -> & _). by rewrite H1, <-app_assoc.
  - destruct (append_recorded _ _ _ _ _ _ _ H1 Hp1) as (Hf1 & row & Hr1 & E1).
    destruct (append_recorded _ _ _ _ _ _ _ H2 Hp2) as (Hf2 & row' & Hr2 & E2).
    rewrite Hs1 in *. rewrite Hs2 in *. rewrite E1, lookup_insert_ne in Hf2 by done.
    exists row, row'. by rewrite E2, E1.
Qed.

(** The receiver's copy has the status of a new delivery. *)
Lemma delivered_status sent received m db n1 d1 n2 db' row' :
  validate_related_session_message_envelopes sent received = Ok m ->
  append_event_in_tx sent db = Ok (n1, d1) -> append_event_in_tx received d1 = Ok (n2, db') ->
  unresolved m db ->
  db_related db' !! (rm_destination_session_id m, rm_message_id m, Received) = Some row' ->
  rr_status row' = delivery_status m.
Proof.
  intros (Hp1 & Hp2 & Hs1 & Hs2)%envelopes_Ok H1 H2 Hu Hrow'.
  destruct (append_recorded _ _ _ _ _ _ _ H1 Hp1) as (_ & row & _ & E1).
  assert (rr_status row = Delivered) as Hrow.
  { apply (append_recorded_status _ _ _ _ _ _ _ _ H1 Hp1 Hu). by rewrite E1, lookup_insert_eq. }
  apply (append_recorded_status _ _ _ _ _ _ _ _ H2 Hp2); [|by rewrite Hs2].
  intros k x. rewrite E1, lookup_insert_Some. intros [[_ <-]|[_ Hx]] Hedge; [|by eapply Hu].
  unfold is_resolved. by rewrite Hrow.
Qed.

(** What a sender needs: another session of its tree, and branches that
    belong to the two. *)
Record same_tree_edge (m : RelatedSessionMessage) (db : Db) : Prop := {
  edge_distinct : rm_source_session_id m <> rm_destination_session_id m;
  edge_root : exists root, lineage_root_in_tx (rm_source_session_id m) db = Ok root
    /\ lineage_root_in_tx (rm_destination_session_id m) db = Ok root;
  edge_source : owns_branch (rm_source_session_id m) (rm_source_branch_id m) db = true;
  edge_destination :
    owns_branch (rm_destination_session_id m) (rm_destination_branch_id m) db = true;
}.

Lemma constraints_Ok m db u :
  ensure_related_session_message_constraints_in_tx m db = Ok u -> same_tree_edge m db.
Proof.
  unfold ensure_related_session_message_constraints_in_tx, ensure_branch_owner_in_tx. intros H.
  apply result_bind_Ok in H as ([] & H1%reject_if_Ok & H). apply bool_decide_eq_false in H1.
  apply result_bind_Ok in H as (root & Hroot & H). apply result_bind_Ok in H as (root' & Hroot' & H).
  apply result_bind_Ok in H as ([] & H2%reject_if_Ok & H).
  apply negb_false_iff, bool_decide_eq_true in H2 as ->.
  apply result_bind_Ok in H as ([] & H3%reject_if_Ok%negb_false_iff & H).
  apply result_bind_Ok in H as ([] & H4%reject_if_Ok%negb_false_iff & H).
  split; [done|by exists root'|done|done].
Qed.

(** A delivery whose copies are stored is answered from them. *)
Lemma redeliver sent received m db row row' :
  validate_related_session_message_envelopes sent received = Ok m ->
  db_related db !! (rm_source_session_id m, rm_message_id m, Sent) = Some row ->
  rr_message row = m ->
  db_related db !! (rm_destination_session_id m, rm_message_id m, Received) = Some row' ->
  commit_related_session_message sent received db
    = (Ok (MkReceipt (rm_message_id m) (rr_event_id row) (rr_source_seq row)
             (rr_counterpart_event_id row) (rr_source_seq row') (rr_status row')), db).
Proof.
  intros Hv Hs Hm Hr. unfold commit_related_session_message. rewrite Hv. apply transaction_Ok.
  unfold query_result. do 2 (unfold mbind, tx_bind; simpl).
  by rewrite (receipt_of_rows _ _ _ _ _ _ _ Hs Hr) by (by intros ? [= <-]).
Qed.

(** ** Settlements *)

Lemma validate_settlement_Ok o reply event t :
  validate_settlement o reply event = Ok t ->
  ev_payload event = RelatedSessionMessageSettled o (rm_message_id reply) (rm_kind reply) t
  /\ ev_session_id event = rm_source_session_id reply.
Proof.
  unfold validate_settlement. intros H. case_match; try done.
  apply result_bind_Ok in H as (u & Hc%reject_if_Ok & [= <-]).
  rewrite !orb_false_iff, !negb_false_iff, !bool_decide_eq_true in Hc.
  destruct Hc as [[[[[[[[? ?] ?] ?] ?] ?] ?] ?] ?]. by subst.
Qed.

Lemma claimed_obligation reply obligation :
  is_claimed_obligation reply obligation = true ->
  rd_status obligation = Claimed /\ is_Some (rd_resulting_turn_id obligation)
  /\ rm_source_session_id reply = rm_destination_session_id (rd_message obligation)
  /\ rm_destination_session_id reply = rm_source_session_id (rd_message obligation).
Proof.
  unfold is_claimed_obligation. rewrite !andb_true_iff, !bool_decide_eq_true. tauto.
Qed.

(** The record of a row that is settled, from the record of the row before. *)
Lemma parse_settled `{laws : !RowCodecLaws} direction row record cols t :
  parse_related_message_record direction row = Some record -> rd_settlement record = None ->
  format_time t = Some (sl_settled_at cols) ->
  rr_settlement row = None /\ rd_status record = rr_status row
  /\ rd_message record = rr_message row
  /\ exists record', parse_related_message_record direction (settle_row cols row) = Some record'
     /\ rd_message record' = rr_message row
     /\ rd_settlement record' = Some (MkSettlement (rm_message_id (rr_message row))
          (sl_reply_message_id cols) (sl_reply_kind cols) (sl_settling_turn_id cols)
          (sl_event_id cols) (sl_seq cols) t).
Proof.
  intros Hp Hs Ht. unfold parse_related_message_record in *. simpl.
  rewrite (parse_format_time _ _ Ht). simpl.
  destruct (rr_settlement row) as [c|]; simpl in *.
  - destruct (parse_time (sl_settled_at c)); simpl in *; [|done].
    destruct (rr_resolved_at row) as [x|]; simpl in *; [destruct (parse_time x); simpl in *; [|done]|];
      by injection Hp as <-.
  - destruct (rr_resolved_at row) as [x|]; simpl in *; [destruct (parse_time x); simpl in *; [|done]|];
      injection Hp as <-; split_and!; try done; by eexists.
Qed.

(** An obligation that carries a settlement is answered with it. *)
Lemma resettle o sent received event reply t db row obligation existing r :
  validate_related_session_message_envelopes sent received = Ok reply ->
  validate_settlement o reply event = Ok t ->
  db_related db !! (ev_session_id event, o, Received) = Some row ->
  parse_related_message_record Received row = Some obligation ->
  rd_settlement obligation = Some existing ->
  load_related_message_receipt_in_tx (rm_destination_session_id (rd_message obligation))
    (rm_source_session_id (rd_message obligation)) (rs_reply_message_id existing) None db
    = Ok (Some r) ->
  settle_related_session_message o sent received event db
    = (Ok (MkSettlementReceipt existing r false), db).
Proof.
  intros Hv Ht Hrow Hp Hs Hr. unfold settle_related_session_message. rewrite Hv.
  apply transaction_Ok. unfold query_result, query. do 4 (unfold mbind, tx_bind; simpl).
  rewrite Ht. simpl. unfold tx_get. rewrite Hrow. simpl. unfold storage. rewrite Hp. simpl.
  rewrite Hs. do 2 (unfold mbind, tx_bind; simpl). by rewrite Hr.
Qed.

(** The two ways a settlement succeeds. *)
Lemma settle_Ok o sent received event db receipt db' :
  settle_related_session_message o sent received event db = (Ok receipt, db') ->
  exists reply t row obligation,
    validate_related_session_message_envelopes sent received = Ok reply
    /\ validate_settlement o reply event = Ok t
    /\ db_related db !! (ev_session_id event, o, Received) = Some row
    /\ parse_related_message_record Received row = Some obligation
    /\ match rd_settlement obligation with
       | Some existing => exists r,
           load_related_message_receipt_in_tx (rm_destination_session_id (rd_message obligation))
             (rm_source_session_id (rd_message obligation)) (rs_reply_message_id existing) None db
             = Ok (Some r)
           /\ receipt = MkSettlementReceipt existing r false /\ db' = db
       | None => exists n1 d1 n2 d2 n3,
           is_claimed_obligation reply obligation = true
           /\ append_event_in_tx sent db = Ok (n1, d1)
           /\ append_event_in_tx received d1 = Ok (n2, d2)
           /\ append_event_in_tx event d2 = Ok (n3, db')
           /\ receipt = MkSettlementReceipt
                (MkSettlement o (rm_message_id reply) (rm_kind reply) t (ev_event_id event) n3
                   (ev_occurred_at event))
                (MkReceipt (rm_message_id reply) (ev_event_id sent) n1 (ev_event_id received) n2
                   (delivery_status reply)) true
       end.
Proof.
  unfold settle_related_session_message, query_result. rewrite transaction_Ok. intros Hc.
  apply tx_bind_Ok in Hc as (reply & d & [Hv ->]%tx_lift_Ok & Hc).
  apply tx_bind_Ok in Hc as (t & d & [Ht ->]%tx_lift_Ok & Hc).
  apply tx_bind_Ok in Hc as (row & d & [-> ->]%query_Ok & Hc).
  apply tx_bind_Ok in Hc as (parsed & d & [Hparsed ->]%tx_lift_Ok & Hc).
  apply tx_bind_Ok in Hc as (obligation & d & [Hob%ok_or_Ok ->]%tx_lift_Ok & Hc).
  rewrite Hob in Hparsed. clear parsed Hob. destruct (db_related db !! _) as [row|] eqn:Hrow; [|done].
  apply result_bind_Ok in Hparsed as (record & Hp%ok_or_Ok & [= ->]).
  exists reply, t, row, obligation. do 4 (split; [done|]).
  destruct (rd_settlement obligation) as [existing|]; invert_tx; subst.
  - by eexists.
  - by do 5 eexists; split_and!; try done; apply negb_false_iff.
Qed.

(** The rows a new settlement leaves: the settled obligation and the copies of
    the reply. *)
Lemma settled_rows sent received event reply o t db n1 d1 n2 d2 n3 db' row :
  validate_related_session_message_envelopes sent received = Ok reply ->
  validate_settlement o reply event = Ok t ->
  append_event_in_tx sent db = Ok (n1, d1) -> append_event_in_tx received d1 = Ok (n2, d2) ->
  append_event_in_tx event d2 = Ok (n3, db') ->
  db_related db !! (ev_session_id event, o, Received) = Some row ->
  db_events db' = db_events db ++ [(n1, sent); (n2, received); (n3, event)]
  /\ exists now r1 r2, format_time (ev_occurred_at event) = Some now
    /\ db_related db' !! (ev_session_id event, o, Received)
       = Some (settle_row (MkSettlementCols (ev_event_id event) (rm_message_id reply)
           (rm_kind reply) t n3 now) row)
    /\ db_related db' !! (rm_source_session_id reply, rm_message_id reply, Sent) = Some r1
    /\ db_related db' !! (rm_destination_session_id reply, rm_message_id reply, Received) = Some r2
    /\ recorded sent (ev_event_id received) reply n1 r1
    /\ recorded received (ev_event_id sent) reply n2 r2.
Proof.
  intros Hv Ht H1 H2 H3 Hrow.
  destruct (deliver _ _ _ _ _ _ _ _ Hv H1 H2) as (Hlog & r1 & r2 & Hr1 & Hr2 & Hf1 & Hf2 & E).
  destruct (validate_settlement_Ok _ _ _ _ Ht) as [Hpay Hses].
  destruct (append_settled _ _ _ _ _ _ _ _ H3 Hpay) as (now & Hnow & E').
  assert ((ev_session_id event, o, Received)
    <> (rm_destination_session_id reply, rm_message_id reply, Received)) as Hne by congruence.
  split.
  - apply append_log in H3 as (_ & _ & -> & _). by rewrite Hlog, <-app_assoc.
  - exists now, r1, r2. split_and!; try done.
    + by rewrite E', lookup_alter_eq, E, !lookup_insert_ne, Hrow by done.
    + by rewrite E', lookup_alter_ne, E, lookup_insert_ne, lookup_insert_eq by done.
    + by rewrite E', lookup_alter_ne, E, lookup_insert_eq by done.
Qed.

(** ** Claims *)

Lemma pending_related_ordered s db :
  pending_related s db = ordered (is_pending_related s) related_le (db_related db).
Proof. done. Qed.

Lemma pending_related_NoDup s db : NoDup (pending_related s db).*1.
Proof. rewrite pending_related_ordered. by apply (ordered_NoDup rr_source_seq). Qed.

Lemma filter_head {K V} `{EqDecision K} (k : K) (v : V) (rest : list (K * V)) :
  NoDup ((k, v) :: rest).*1 ->
  List.filter (fun kv => negb (bool_decide (kv.1 = k))) ((k, v) :: rest) = rest.
Proof.
  csimpl. intros [Hk Hnd]%NoDup_cons. rewrite bool_decide_eq_true_2 by done. simpl.
  clear Hnd. induction rest as [|[k' v'] rest IH]; [done|]. csimpl in *.
  apply not_elem_of_cons in Hk as [Hne Hk]. rewrite bool_decide_eq_false_2 by done. simpl.
  by rewrite IH.
Qed.

(** Claiming a message takes its row, and no other, off the pending ones. *)
Lemma claim_resolves event db seq_id db' id turn :
  related_ok db -> append_event_in_tx event db = Ok (seq_id, db') ->
  claims_related id event = Some turn ->
  let key := (ev_session_id event, id, Received) in
  pending_related (ev_session_id event) db'
    = List.filter (fun kv => negb (bool_decide (kv.1 = key)))
        (pending_related (ev_session_id event) db)
  /\ exists row, db_related db' !! key = Some row
     /\ rr_status row = Claimed /\ rr_resulting_turn_id row = Some turn.
Proof.
  intros Hok H Hc key. unfold claims_related in Hc. destruct (ev_payload event) eqn:Hp; try done.
  repeat (case_match; try done). injection Hc as ->.
  match goal with E : bool_decide _ = true |- _ => apply bool_decide_eq_true in E as -> end.
  subst. destruct (append_resolved _ _ _ _ _ _ _ _ H Hp) as (received & now & _ & Hrow & E).
  assert (forall r, db_related db !! key = Some r -> same_edge (rr_message received) r = true) as Hsame.
  { intros r Hr. fold key in Hrow. assert (r = received) as -> by congruence.
    unfold same_edge. by rewrite !bool_decide_eq_true_2. }
  split.
  - rewrite !pending_related_ordered, E.
    apply (ordered_remove rr_source_seq); [done|intros k k' v v'; apply (ro_distinct _ Hok)| |].
    + intros k v'. rewrite lookup_fmap. intros (v & -> & ->)%fmap_Some. exists v. by case_match.
    + intros [[s i] d] v'. rewrite lookup_fmap. unfold is_pending_related. simpl. split.
      * intros [(v & Hv & ->)%fmap_Some Hpd]. destruct (same_edge (rr_message received) v) eqn:Ee.
        { simpl in Hpd. by rewrite andb_false_r in Hpd. }
        split_and!; [|done|done]. intros Heq. rewrite Heq in Hv. by rewrite (Hsame _ Hv) in Ee.
      * intros (Hne & Hv & Hpd). split; [|done]. rewrite Hv. simpl.
        destruct (same_edge (rr_message received) v') eqn:Ee; [|done]. destruct Hne.
        rewrite !andb_true_iff, !bool_decide_eq_true in Hpd. destruct Hpd as [[-> ->] _].
        unfold same_edge in Ee. rewrite !andb_true_iff, !bool_decide_eq_true in Ee.
        apply (ro_keyed _ Hok) in Hv, Hrow. simpl in *. unfold key.
        destruct Ee as [[Ee _] _]. congruence.
  - eexists. rewrite E, lookup_fmap. fold key in Hrow. rewrite Hrow. simpl.
    by rewrite (Hsame _ Hrow).
Qed.

Lemma related_continuation_Ok s id revision message events :
  related_continuation_ok s id revision message events = true ->
  exists resolved started turn p m n c,
    events = [resolved; started] /\ claims_related id resolved = Some turn
    /\ ev_session_id resolved = s /\ ev_session_id started = s
    /\ ev_branch_id started = rm_destination_branch_id message
    /\ ev_payload started
       = TurnStarted turn p m n revision RelatedSessionMessageStart c.
Proof.
  unfold related_continuation_ok, in_scope. intros H.
  destruct events as [|resolved [|started []]]; try done. simpl in H.
  destruct (ev_payload started) eqn:Hp; try (by rewrite !andb_false_r in H).
  rewrite !andb_true_iff, !bool_decide_eq_true, Z.eqb_eq in H.
  destruct H as [[[[[_ [[Hs1 _] [[Hs2 Hb2] _]]] _] [t Ht]] _] [[-> Hturn] ->]].
  rewrite Ht in Hturn. injection Hturn as <-. naive_solver.
Qed.

(** A committed claim: the pending message, and the two appends. *)
Lemma related_claim_Ok s id revision events db seqs db' :
  claim_related_message_continuation s id revision events db = (Ok (ClaimClaimed seqs), db') ->
  exists k d row rest, pending_related s db = ((k, id, d), row) :: rest
    /\ related_continuation_ok s id revision (rr_message row) events = true
    /\ append_events_in_tx events db = Ok (seqs, db').
Proof.
  unfold claim_related_message_continuation, query_result. rewrite transaction_Ok. intros Hc.
  apply tx_bind_Ok in Hc as (? & ? & [-> ->]%query_Ok & Hc). case_match; [by invert_tx|].
  apply tx_bind_Ok in Hc as (? & ? & [-> ->]%query_Ok & Hc). case_match; [by invert_tx|].
  apply tx_bind_Ok in Hc as (exhausted & d & Hex & Hc).
  assert (d = db) as -> by (by eapply exhausted_db).
  destruct exhausted; [by invert_tx|].
  apply tx_bind_Ok in Hc as (revision' & d & Hrev & Hc).
  apply tx_bind_Ok in Hrev as (? & ? & [-> ->]%tx_get_Ok & [_ ->]%tx_lift_Ok).
  case_match; [by invert_tx|].
  apply tx_bind_Ok in Hc as (? & ? & [-> ->]%query_Ok & Hc).
  destruct (pending_related s db) as [|[[[k id'] dir] row] rest]; [by invert_tx|].
  destruct (negb (bool_decide (id' = id))) eqn:E; [by invert_tx|]. apply negb_false_iff, bool_decide_eq_true in E as ->.
  apply tx_bind_Ok in Hc as (u & d & [Hok%reject_if_Ok ->]%tx_lift_Ok & Hc).
  apply tx_bind_Ok in Hc as (seqs' & d & Happ & [[= ->] ->]%tx_ret_Ok).
  apply negb_false_iff in Hok. by exists k, dir, row, rest.
Qed.
End table.

(** ** A family at work: the child is woken and answers *)

Definition in_turn (event : EventEnvelope) : EventEnvelope :=
  with_turn_id (fun _ => "t") event (MkUuid 50).

Definition wake_events : list EventEnvelope :=
  [child_event 26 (RelatedSessionMessageResolved (MkUuid 200) Claimed (Some (MkUuid 50)) None);
   in_turn (child_event 27 (TurnStarted (MkUuid 50) "p" "m" 1 1 RelatedSessionMessageStart None))].

Definition woken_history : list StoreOp :=
  family_history ++ [OpClaimRelated (MkUuid 100) (MkUuid 200) 1 wake_events].
Definition woken_db : Db := run_ops woken_history db_empty.

Lemma woken_reachable : reachable woken_db.
Proof. by exists woken_history. Qed.

Lemma family_reachable : reachable family_db.
Proof. by exists family_history. Qed.

Definition answer : RelatedSessionMessage :=
  {| rm_message_id := MkUuid 300; rm_context_message_id := MkUuid 301;
     rm_source_session_id := MkUuid 100; rm_source_branch_id := MkUuid 101;
     rm_caused_by_turn_id := Some (MkUuid 50); rm_destination_session_id := MkUuid 1;
     rm_destination_branch_id := MkUuid 2; rm_kind := KResult; rm_delivery_mode := Notify;
     rm_in_reply_to := Some (MkUuid 200); rm_text := "done"; rm_artifact_refs := [];
     rm_created_at := 30 |}.

Definition answer_sent : EventEnvelope :=
  in_turn (child_event 30 (RelatedSessionMessageRecorded Sent (MkUuid 31) answer)).
Definition answer_received : EventEnvelope :=
  sample_event 31 (RelatedSessionMessageRecorded Received (MkUuid 30) answer).
Definition answer_settles : EventEnvelope :=
  in_turn (child_event 32
    (RelatedSessionMessageSettled (MkUuid 200) (MkUuid 300) KResult (MkUuid 50))).

(** The receipt of a retried delivery: everything but the status is as first
    committed; the status is the one the receiver's copy has by then. *)
Definition same_delivery (r r' : RelatedSessionMessageReceipt) : Prop :=
  rt_message_id r' = rt_message_id r /\ rt_sent_event_id r' = rt_sent_event_id r
  /\ rt_sent_seq_id r' = rt_sent_seq_id r /\ rt_received_event_id r' = rt_received_event_id r
  /\ rt_received_seq_id r' = rt_received_seq_id r.

(** ** Theorems *)

(** C25. A delivery that succeeds has left both copies of the message, linked
    to each other's events.  Either the message had been delivered before and
    the database is as it was, or its two sessions are distinct sessions of one
    tree, each owning the branch it uses, and exactly the two events were
    appended.  Delivering the same events again changes nothing and returns the
    same receipt, with the status the receiver's copy has; a message of which
    no copy had been claimed or dropped before has the very same receipt. *)
Theorem message_delivered_once `{codec : RowCodec} sent received db r db' :
  commit_related_session_message sent received db = (Ok r, db') ->
  exists m sent_row received_row,
    validate_related_session_message_envelopes sent received = Ok m
    /\ db_related db' !! (rm_source_session_id m, rm_message_id m, Sent) = Some sent_row
    /\ rr_message sent_row = m
    /\ db_related db' !! (rm_destination_session_id m, rm_message_id m, Received)
         = Some received_row
    /\ (db' = db
        \/ (same_tree_edge m db /\ rr_message received_row = m
            /\ db_events db' = db_events db
                 ++ [(rt_sent_seq_id r, sent); (rt_received_seq_id r, received)]))
    /\ exists r', commit_related_session_message sent received db' = (Ok r', db')
         /\ same_delivery r r' /\ rt_status r' = rr_status received_row
         /\ (unresolved m db -> r' = r).
Proof.
  unfold commit_related_session_message at 1, query_result. rewrite transaction_Ok. intros H.
  apply tx_bind_Ok in H as (m & d & [Hv ->]%tx_lift_Ok & H).
  apply tx_bind_Ok in H as (existing & d & Hq & H). invert_tx.
  destruct existing as [receipt|].
  - invert_tx. destruct (receipt_Ok _ _ _ _ _ _ Hq) as (row & row' & Hs & Hr & Hm & Heq).
    exists m, row, row'. split_and!; [done|done|by apply Hm|done|by left|].
    exists receipt. split; [|by rewrite Heq].
    rewrite (redeliver _ _ _ _ _ _ Hv Hs (Hm _ eq_refl) Hr). by rewrite Heq.
  - apply receipt_none in Hq. invert_tx.
    destruct (deliver _ _ _ _ _ _ _ _ Hv Htx0 Htx1) as (Hlog & row & row' & Hr & Hr' & _ & _ & E).
    assert (db_related d1 !! (rm_source_session_id m, rm_message_id m, Sent) = Some row) as Hrow
      by (by rewrite E, lookup_insert_ne, lookup_insert_eq by done).
    assert (db_related d1 !! (rm_destination_session_id m, rm_message_id m, Received) = Some row')
      as Hrow' by (by rewrite E, lookup_insert_eq).
    assert (unresolved m db -> rr_status row' = delivery_status m) as Hstatus
      by (intros Hu; eapply delivered_status; eauto).
    destruct Hr as [He1 Hc1 Hm1 Hq1 _], Hr' as [_ _ Hm2 Hq2 _].
    exists m, row, row'. split_and!; try done.
    + right. split_and!; [by eapply constraints_Ok|done|done].
    + eexists. split; [by apply (redeliver _ _ _ _ _ _ Hv Hrow Hm1 Hrow')|].
      split; [split_and!; simpl; congruence|]. split; [done|]. intros Hu. by rewrite Hstatus, He1, Hc1, Hq1, Hq2.
Qed.

Lemma message_delivered_once_witness :
  let db' := (commit_related_session_message answer_sent answer_received woken_db).2 in
  length (db_events db') = 10%nat
  /\ exists r, (exists r', commit_related_session_message answer_sent answer_received db' = (Ok r', db')
    /\ same_delivery r r').
Proof.
  cbv zeta. set (run := commit_related_session_message answer_sent answer_received woken_db).
  split; [vm_compute; reflexivity|].
  assert (exists r, run.1 = Ok r) as [r Hr] by (vm_compute; by eexists).
  destruct (message_delivered_once answer_sent answer_received woken_db r run.2
    (eq_trans (surjective_pairing _) (f_equal (fun x => (x, _)) Hr)))
    as (m & row & row' & _ & _ & _ & _ & _ & Hretry).
  exists r. destruct Hretry as (r' & H1 & H2 & _). exists r'. exact (conj H1 H2).
Defined.

(** An obligation is settled once.  A settlement that succeeds either found
    the obligation settled and changed nothing, or it found it claimed and
    unsettled and appended exactly the two copies of the reply and the
    settlement; and every later attempt for the same obligation, with whatever
    valid reply, changes nothing and returns the first settlement and reply. *)
Theorem obligation_settled_once `{laws : RowCodecLaws} o sent received event db receipt db' :
  reachable db ->
  settle_related_session_message o sent received event db = (Ok receipt, db') ->
  ((ss_newly_committed receipt = false /\ db' = db)
   \/ (ss_newly_committed receipt = true
       /\ (exists row, db_related db !! (ev_session_id event, o, Received) = Some row
           /\ rr_status row = Claimed /\ rr_settlement row = None)
       /\ db_events db' = db_events db
            ++ [(rt_sent_seq_id (ss_reply receipt), sent);
                (rt_received_seq_id (ss_reply receipt), received);
                (rs_settlement_seq_id (ss_settlement receipt), event)]))
  /\ forall sent' received' event' reply' t',
       validate_related_session_message_envelopes sent' received' = Ok reply' ->
       validate_settlement o reply' event' = Ok t' ->
       ev_session_id event' = ev_session_id event ->
       exists r, settle_related_session_message o sent' received' event' db'
           = (Ok (MkSettlementReceipt (ss_settlement receipt) r false), db')
         /\ same_delivery (ss_reply receipt) r.
Proof.
  intros Hreach (reply & t & row & obligation & Hv & Ht & Hrow & Hp & Hcase)%settle_Ok.
  destruct (rd_settlement obligation) as [existing|] eqn:Hs.
  - destruct Hcase as (r & Hr & -> & ->). split; [by left|].
    intros sent' received' event' reply' t' Hv' Ht' Hsame. exists r. split; [|done].
    rewrite <-Hsame in Hrow. by eapply resettle.
  - destruct Hcase as (n1 & d1 & n2 & d2 & n3 & Hcl & H1 & H2 & H3 & ->).
    destruct (claimed_obligation _ _ Hcl) as (Hst & _ & Hsrc & Hdst).
    destruct (settled_rows _ _ _ _ _ _ _ _ _ _ _ _ _ _ Hv Ht H1 H2 H3 Hrow)
      as (Hlog & now & r1 & r2 & Hnow & Hrow' & Hl1 & Hl2 & Hr1 & Hr2).
    destruct (parse_settled _ _ _ (MkSettlementCols (ev_event_id event) (rm_message_id reply)
      (rm_kind reply) t n3 now) _ Hp Hs Hnow) as (Hset & Hfs & Hmsg & record & Hp' & Hm' & Hs').
    split; [right; split_and!; [done|exists row; split_and!; [done|congruence|done]|done]|].
    intros sent' received' event' reply' t' Hv' Ht' Hsame. rewrite <-Hsame in Hrow'.
    pose proof (receipt_of_rows _ _ _ _ None _ _ Hl1 Hl2 (fun m => ltac:(done))) as Hrec.
    rewrite Hsrc, Hdst, Hmsg, <-Hm' in Hrec. eexists. split.
    + rewrite (resettle _ _ _ _ _ _ _ _ _ _ _ Hv' Ht' Hrow' Hp' Hs' Hrec). simpl.
      by rewrite (related_keyed _ Hreach _ _ _ _ Hrow).
    + destruct Hr1 as [He1 Hc1 _ Hq1 _], Hr2 as [_ _ _ Hq2 _]. split_and!; simpl; congruence.
Qed.

Lemma obligation_settled_once_witness :
  let run := settle_related_session_message (MkUuid 200) answer_sent answer_received answer_settles
               woken_db in
  length (db_events run.2) = 11%nat
  /\ exists receipt r, ss_newly_committed receipt = true
  /\ settle_related_session_message (MkUuid 200) answer_sent answer_received answer_settles run.2
    = (Ok (MkSettlementReceipt (ss_settlement receipt) r false), run.2)
  /\ same_delivery (ss_reply receipt) r.
Proof.
  intros run. split; [vm_compute; reflexivity|].
  assert (exists receipt, run.1 = Ok receipt /\ ss_newly_committed receipt = true)
    as (receipt & Hr & Hnew) by (vm_compute; by eexists).
  destruct (obligation_settled_once (MkUuid 200) answer_sent answer_received answer_settles woken_db
    receipt run.2 woken_reachable (eq_trans (surjective_pairing _) (f_equal (fun x => (x, _)) Hr)))
    as [_ Hretry].
  destruct (Hretry answer_sent answer_received answer_settles answer (MkUuid 50)) as (r & Hr2 & Hsame);
    [vm_compute; reflexivity|vm_compute; reflexivity|done|].
  exists receipt, r. exact (conj Hnew (conj Hr2 Hsame)).
Defined.

(** A waking message starts its turn in the order of arrival: a claim that
    succeeds took the oldest pending message of the session, which is off the
    pending ones afterwards and marked as claimed by the turn; that turn is the
    session's active turn, on the branch the message was sent to; and exactly
    the two events were appended. *)
Theorem related_claim_is_fifo `{codec : RowCodec} s id revision events db seqs db' :
  reachable db ->
  claim_related_message_continuation s id revision events db = (Ok (ClaimClaimed seqs), db') ->
  exists row rest turn claimed active,
    pending_related s db = ((s, id, Received), row) :: rest
    /\ pending_related s db' = rest
    /\ db_related db' !! (s, id, Received) = Some claimed
    /\ rr_status claimed = Claimed /\ rr_resulting_turn_id claimed = Some turn
    /\ db_active_turns db !! s = None /\ db_active_turns db' !! s = Some active
    /\ at_turn_id active = turn
    /\ at_branch_id active = rm_destination_branch_id (rr_message row)
    /\ db_events db' = db_events db ++ zip seqs events.
Proof.
  intros Hreach (k & d & row & rest & Hpend & Hev & Happ)%related_claim_Ok.
  destruct (related_continuation_Ok _ _ _ _ _ Hev)
    as (resolved & started & turn & p & m & n & c & -> & Hcl & Hs1 & Hs2 & Hb & Hp).
  assert (k = s /\ d = Received) as [-> ->].
  { assert (((k, id, d), row) ∈ pending_related s db) as Hin by (rewrite Hpend; by left).
    apply elem_of_ordered in Hin as [_ Hin]. unfold is_pending_related in Hin. simpl in Hin.
    rewrite !andb_true_iff, !bool_decide_eq_true in Hin. tauto. }
  pose proof (append_events_log _ _ _ _ Happ) as [_ Hlog].
  apply append_events_cons in Happ as (n1 & d1 & seqs1 & H1 & Happ & ->).
  apply append_events_cons in Happ as (n2 & d2 & seqs2 & H2 & Happ & ->).
  apply append_events_nil in Happ as [-> ->].
  destruct (claim_resolves _ _ _ _ _ _ (related_ok_reachable _ Hreach) H1 Hcl)
    as (Hrest & claimed & Hrow & Hst & Ht). rewrite Hs1 in *.
  assert (db_related d2 = db_related d1) as Hrel.
  { eapply append_other; [|exact H2]. unfold is_related_event. by rewrite Hp. }
  destruct (append_active _ _ _ _ H2) as [Hact Hnone].
  assert (db_active_turns d1 = db_active_turns db) as Ha1.
  { apply append_active in H1 as [H1 _]. unfold replay_boundary in H1.
    unfold claims_related in Hcl. destruct (ev_payload resolved); congruence. }
  specialize (Hnone _ _ _ _ _ _ _ Hp). rewrite Ha1, Hs2 in *.
  destruct (replay_started _ _ _ s turn _ ltac:(by split; [|rewrite Hp]) Hact)
    as (active & Hactive & Hturn & _ & Hbranch).
  exists row, rest, turn, claimed, active. split_and!; try done.
  - unfold pending_related in *. rewrite Hrel, Hrest, Hpend. apply filter_head.
    rewrite <-Hpend. apply (pending_related_NoDup s db).
  - by rewrite Hrel.
  - congruence.
Qed.

Lemma related_claim_is_fifo_witness :
  length (pending_related (MkUuid 100) family_db) = 1%nat
  /\ exists active, db_active_turns woken_db !! MkUuid 100 = Some active
     /\ at_branch_id active = MkUuid 101.
Proof.
  split; [vm_compute; reflexivity|].
  set (run := claim_related_message_continuation (MkUuid 100) (MkUuid 200) 1 wake_events family_db).
  assert (exists seqs, run.1 = Ok (ClaimClaimed seqs)) as [seqs Hr] by (vm_compute; by eexists).
  destruct (related_claim_is_fifo (MkUuid 100) (MkUuid 200) 1 wake_events family_db seqs run.2
    family_reachable (eq_trans (surjective_pairing _) (f_equal (fun x => (x, _)) Hr)))
    as (row & rest & turn & claimed & active & Hpend & _ & _ & _ & _ & _ & Hact & _ & Hb & _).
  exists active. split; [exact Hact|]. rewrite Hb.
  assert (Hh : (fun kv => rm_destination_branch_id (rr_message kv.2))
    <$> head (pending_related (MkUuid 100) family_db) = Some (MkUuid 101)) by (vm_compute; reflexivity).
  rewrite Hpend in Hh. by injection Hh.
Defined.
