(* ===== verification/StoreQueries.v ===== *)
(** * The session store: queries ([crates/bt-session/src/store.rs])

    The read-only methods the runtime builds on: the log and its windows, the
    active turn, the pending controls, the settings and the budget of a
    session, and the scans that recovery makes of the whole log.  A row that
    does not parse is a storage error; events are stored as values.

    The laws say what recovery relies on: the turns found unfinished in the
    log are the active ones, and a window of the log continues the one
    before it. *)

From stdpp Require Import base list strings gmap sorting.
From Stdlib Require Import ZArith Lia.
From S2P Require Import Prelude Text Json Types TurnProjection Store StoreOps StoreRelated.
From S2P Require Import StoreLaws StoreReplay StoreQueue.

#[local] Open Scope Z_scope.

(** ** Records ([store/types.rs], [branches.rs]) *)

Record TurnRecoveryRecord : Type := MkTurnRecoveryRecord {
  tv_session_id : SessionId;
  tv_branch_id : BranchId;
  tv_turn_id : TurnId;
  tv_provider : string;
  tv_model : string;
  tv_source : TurnStartSource;
  tv_resumed_from_call_id : option ToolCallId;
  tv_started_seq_id : Z;
}.

Record ToolOperationRecoveryRecord : Type := MkToolOperationRecoveryRecord {
  ov_session_id : SessionId;
  ov_branch_id : BranchId;
  ov_call_id : ToolCallId;
  ov_tool_name : string;
  ov_operation : ToolOperationContext;
  ov_requested_seq_id : Z;
}.

(** [ToolRunProjection], [ApprovalProjection] *)
Record ToolRunProjection : Type := MkToolRunProjection {
  tq_call_id : ToolCallId;
  tq_session_id : SessionId;
  tq_tool_name : string;
  tq_status : string;
  tq_branch_id : option BranchId;
  tq_turn_id : option TurnId;
  tq_requested_seq_id : option Z;
  tq_arguments : option Value;
  tq_result : option ToolResultEnvelope;
  tq_updated_at : OffsetDateTime;
}.

Record ApprovalProjection : Type := MkApprovalProjection {
  ap_call_id : ToolCallId;
  ap_session_id : SessionId;
  ap_tool_name : string;
  ap_status : string;
  ap_branch_id : option BranchId;
  ap_turn_id : option TurnId;
  ap_requested_seq_id : option Z;
  ap_request_fingerprint : option string;
  ap_request_snapshot : option ApprovalRequestSnapshot;
  ap_decision : option ApprovalDecision;
  ap_resolution : option ApprovalResolution;
  ap_updated_at : OffsetDateTime;
}.

Record SessionControlProjection : Type := MkSessionControlProjection {
  ct_session_id : SessionId;
  ct_cancel_requested : bool;
  ct_updated_at : OffsetDateTime;
}.

Record QueuedMessageProjection : Type := MkQueuedMessageProjection {
  qp_queue_event_id : EventId;
  qp_session_id : SessionId;
  qp_branch_id : BranchId;
  qp_message : Message;
  qp_settings_revision_id : Z;
  qp_status : string;
  qp_source_seq : Z;
  qp_enqueued_at : OffsetDateTime;
  qp_resolved_at : option OffsetDateTime;
}.

Record SteerProjection : Type := MkSteerProjection {
  sp_steer_event_id : EventId;
  sp_session_id : SessionId;
  sp_branch_id : BranchId;
  sp_message : string;
  sp_settings_revision_id : Z;
  sp_status : string;
  sp_source_seq : Z;
  sp_enqueued_at : OffsetDateTime;
  sp_resolved_at : option OffsetDateTime;
}.

Record ReusableApprovalProjection : Type := MkReusableApprovalProjection {
  ra_session_id : SessionId;
  ra_request_fingerprint : string;
  ra_decision : ApprovalDecision;
}.

Record SessionBudgetProjection : Type := MkSessionBudgetProjection {
  bp_session_id : SessionId;
  bp_budget : BudgetConfig;
  bp_tokens_used : Z;
  bp_turns_used : Z;
  bp_elapsed_seconds : Z;
  bp_cost_used_usd : option f64;
  bp_updated_at : OffsetDateTime;
}.

Record PlanProjection : Type := MkPlanProjection {
  pp_session_id : SessionId;
  pp_branch_id : BranchId;
  pp_items : list PlanItem;
  pp_updated_at : OffsetDateTime;
}.

Record SessionSettingsSnapshot : Type := MkSessionSettingsSnapshot {
  ss_session_id : SessionId;
  ss_settings_revision_id : Z;
  ss_connection_id : ConnectionId;
  ss_model_id : option string;
  ss_tool_mode : SessionToolMode;
  ss_updated_at : OffsetDateTime;
}.

(** [SessionRecord::settings_snapshot] *)
Definition settings_snapshot (session : SessionRecord) : SessionSettingsSnapshot :=
  {| ss_session_id := se_session_id session;
     ss_settings_revision_id := se_settings_revision_id session;
     ss_connection_id := se_connection_id session;
     ss_model_id := se_model_id session;
     ss_tool_mode := se_tool_mode session;
     ss_updated_at := se_updated_at session |}.

(** [SessionRecord::with_settings_snapshot] *)
Definition with_settings_snapshot (session : SessionRecord) (snapshot : SessionSettingsSnapshot)
    : SessionRecord :=
  {| se_session_id := se_session_id session;
     se_project_root := se_project_root session;
     se_connection_id := ss_connection_id snapshot;
     se_model_id := ss_model_id snapshot;
     se_tool_mode := ss_tool_mode snapshot;
     se_settings_revision_id := ss_settings_revision_id snapshot;
     se_created_at := se_created_at session;
     se_updated_at := ss_updated_at snapshot;
     se_status := se_status session;
     se_display_name := se_display_name session;
     se_objective := se_objective session;
     se_parent_session_id := se_parent_session_id session;
     se_parent_branch_id := se_parent_branch_id session;
     se_parent_turn_id := se_parent_turn_id session |}.

Definition default_operation_context : ToolOperationContext :=
  {| to_initiator := InitAgent; to_risk_class := None; to_is_read_only := None;
     to_execution_mode := None; to_artifact_refs := [] |}.

(** ** The log *)

(** An event of the log, with its sequence number set. *)
Definition stored (logged : Z * EventEnvelope) : EventEnvelope :=
  with_seq_id logged.2 logged.1.

(** [LIMIT ?] with a [usize] cast to [i64]: a negative limit is none. *)
Definition sql_limit {A} (limit : Z) (l : list A) : list A :=
  if u64_as_i64 limit <? 0 then l else take (Z.to_nat (u64_as_i64 limit)) l.

(** [session_has_events] *)
Definition session_has_events (session_id : SessionId) (db : Db) : bool :=
  any (in_session session_id) (db_events db).

(** [load_all_events] *)
Definition load_all_events (session_id : SessionId) (db : Db) : list EventEnvelope :=
  map stored (List.filter (in_session session_id) (db_events db)).

(** [load_events_after] *)
Definition load_events_after (session_id : SessionId) (after_seq_id : option Z) (limit : Z)
    (db : Db) : list EventEnvelope :=
  map stored (sql_limit limit
    (List.filter (fun logged => in_session session_id logged
                                && (default 0 after_seq_id <? logged.1)) (db_events db))).

(** [load_event] *)
Definition load_event (session_id : SessionId) (event_id : EventId) (db : Db)
    : option EventEnvelope :=
  stored <$> find_first (fun logged => in_session session_id logged
                                       && bool_decide (ev_event_id logged.2 = event_id))
    (db_events db).

(** [load_events_of_kind] *)
Definition load_events_of_kind (session_id : SessionId) (event_kind : string)
    (branch_id : option BranchId) (db : Db) : list EventEnvelope :=
  map stored (List.filter (fun logged =>
    in_session session_id logged && String.eqb (kind (ev_payload logged.2)) event_kind
    && match branch_id with
       | None => true
       | Some branch_id => bool_decide (ev_branch_id logged.2 = branch_id)
       end) (db_events db)).

(** [active_turn_claim] *)
Definition active_turn_claim (session_id : SessionId) (db : Db) : option (BranchId * TurnId) :=
  row ← db_active_turns db !! session_id; Some (at_branch_id row, at_turn_id row).

(** ** Scans of the whole log *)

(** The loop of [load_unfinished_turns], over the boundaries of turns. *)
Definition unfinished_step (unfinished : gmap TurnId TurnRecoveryRecord)
    (logged : Z * EventEnvelope) : gmap TurnId TurnRecoveryRecord :=
  let '(seq_id, event) := logged in
  match ev_payload event with
  | TurnStarted turn_id provider model _ _ source resumed_from_call_id =>
      <[turn_id := {| tv_session_id := ev_session_id event;
                      tv_branch_id := ev_branch_id event;
                      tv_turn_id := turn_id;
                      tv_provider := provider;
                      tv_model := model;
                      tv_source := source;
                      tv_resumed_from_call_id := resumed_from_call_id;
                      tv_started_seq_id := seq_id |}]> unfinished
  | TurnFinished turn_id _ _ _ _ _ => delete turn_id unfinished
  | _ => unfinished
  end.

Definition started_le (a b : TurnRecoveryRecord) : Prop :=
  tv_started_seq_id a <= tv_started_seq_id b.
#[export] Instance started_le_dec a b : Decision (started_le a b).
Proof. unfold started_le. apply _. Defined.

(** [load_unfinished_turns]: the values of the map, in the order of their
    starts. *)
Definition load_unfinished_turns (db : Db) : list TurnRecoveryRecord :=
  merge_sort started_le
    (map_to_list (fold_left unfinished_step (db_events db) ∅)).*2.

(** [load_unfinished_resumed_turns] *)
Definition load_unfinished_resumed_turns (db : Db) : list TurnRecoveryRecord :=
  List.filter (fun record => match tv_source record with
                             | ApprovalResume | InputResume => true
                             | _ => false
                             end) (load_unfinished_turns db).

(** [load_reusable_approvals] *)
Definition reusable_approval (logged : Z * EventEnvelope) : option ReusableApprovalProjection :=
  match ev_payload logged.2 with
  | ToolApprovalResolved _ _ request_fingerprint resolution decision =>
      let fingerprint := match resolution with
                         | Some resolution => Some (re_request_fingerprint resolution)
                         | None => request_fingerprint
                         end in
      let scope := match decision with
                   | Approved _ _ scope _ => scope
                   | Denied _ _ _ scope _ => scope
                   end in
      match scope with
      | ScopeSession | ScopeAlways =>
          request_fingerprint ← fingerprint;
          Some {| ra_session_id := ev_session_id logged.2;
                  ra_request_fingerprint := request_fingerprint;
                  ra_decision := decision |}
      | _ => None
      end
  | _ => None
  end.

Definition load_reusable_approvals (db : Db) : list ReusableApprovalProjection :=
  omap reusable_approval (db_events db).

(** The loop of [load_unfinished_unbound_tool_operations]: the operations
    under way and the contexts recorded for calls. *)
Definition unbound_step
    (st : gmap (SessionId * ToolCallId) ToolOperationRecoveryRecord
          * gmap (SessionId * ToolCallId) ToolOperationContext)
    (logged : Z * EventEnvelope) :=
  let '(operations, contexts) := st in
  let '(seq_id, event) := logged in
  match ev_turn_id event with
  | Some _ => st
  | None =>
      match ev_payload event with
      | ToolOperationRecorded call_id _ operation =>
          (operations, <[(ev_session_id event, call_id) := operation]> contexts)
      | ToolCallRequested call_id tool_name _ =>
          let key := (ev_session_id event, call_id) in
          (<[key := {| ov_session_id := ev_session_id event;
                       ov_branch_id := ev_branch_id event;
                       ov_call_id := call_id;
                       ov_tool_name := tool_name;
                       ov_operation := default default_operation_context (contexts !! key);
                       ov_requested_seq_id := seq_id |}]> operations, contexts)
      | ToolExecutionFinished call_id _ _ =>
          (delete (ev_session_id event, call_id) operations, contexts)
      | _ => st
      end
  end.

Definition requested_le (a b : ToolOperationRecoveryRecord) : Prop :=
  ov_requested_seq_id a <= ov_requested_seq_id b.
#[export] Instance requested_le_dec a b : Decision (requested_le a b).
Proof. unfold requested_le. apply _. Defined.

(** [load_unfinished_unbound_tool_operations] *)
Definition load_unfinished_unbound_tool_operations (db : Db)
    : list ToolOperationRecoveryRecord :=
  merge_sort requested_le
    (map_to_list (fold_left unbound_step (db_events db) (∅, ∅)).1).*2.

Section queries.
Context `{codec : RowCodec}.

(** ** Rows of one session *)

(** [load_session_control] *)
Definition load_session_control (session_id : SessionId) (db : Db)
    : Result (option SessionControlProjection) :=
  match db_control db !! session_id with
  | None => Ok None
  | Some row =>
      updated_at ← storage (parse_time (cw_updated_at row));
      Ok (Some {| ct_session_id := session_id;
                  ct_cancel_requested := cw_cancel_requested row;
                  ct_updated_at := updated_at |})
  end.

Definition parse_queued (kv : EventId * QueuedRow) : Result QueuedMessageProjection :=
  let '(queue_event_id, row) := kv in
  enqueued_at ← storage (parse_time (qd_enqueued_at row));
  resolved_at ← storage (transpose (parse_time <$> qd_resolved_at row));
  Ok {| qp_queue_event_id := queue_event_id;
        qp_session_id := qd_session_id row;
        qp_branch_id := qd_branch_id row;
        qp_message := qd_message row;
        qp_settings_revision_id := Z.max 1 (qd_settings_revision_id row);
        qp_status := qd_status row;
        qp_source_seq := qd_source_seq row;
        qp_enqueued_at := enqueued_at;
        qp_resolved_at := resolved_at |}.

(** [load_pending_queued_messages] *)
Definition load_pending_queued_messages (session_id : SessionId) (db : Db)
    : Result (list QueuedMessageProjection) :=
  try_map parse_queued (pending_queued session_id db).

Definition parse_steer (kv : EventId * SteerRow) : Result SteerProjection :=
  let '(steer_event_id, row) := kv in
  enqueued_at ← storage (parse_time (sw_enqueued_at row));
  resolved_at ← storage (transpose (parse_time <$> sw_resolved_at row));
  Ok {| sp_steer_event_id := steer_event_id;
        sp_session_id := sw_session_id row;
        sp_branch_id := sw_branch_id row;
        sp_message := sw_message row;
        sp_settings_revision_id := Z.max 1 (sw_settings_revision_id row);
        sp_status := sw_status row;
        sp_source_seq := sw_source_seq row;
        sp_enqueued_at := enqueued_at;
        sp_resolved_at := resolved_at |}.

(** [load_pending_steers] *)
Definition load_pending_steers (session_id : SessionId) (db : Db)
    : Result (list SteerProjection) :=
  try_map parse_steer (merge_sort steer_le (List.filter (fun kv =>
    bool_decide (sw_session_id kv.2 = session_id) && String.eqb (sw_status kv.2) "pending")
    (map_to_list (db_steers db)))).

(** [load_pending_steers_for_branch] *)
Definition load_pending_steers_for_branch (session_id : SessionId) (branch_id : BranchId)
    (db : Db) : Result (list SteerProjection) :=
  try_map parse_steer (pending_steers session_id branch_id db).

(** [load_session_settings_revision], [load_session_settings_snapshot] *)
Definition load_session_settings_snapshot (session_id : SessionId) (settings_revision_id : Z)
    (db : Db) : Result (option SessionSettingsSnapshot) :=
  let key := (session_id, u64_as_i64 settings_revision_id) in
  match db_settings db !! key with
  | None => Ok None
  | Some row =>
      updated_at ← storage (parse_time (sg_updated_at row));
      Ok (Some {| ss_session_id := session_id;
                  ss_settings_revision_id := Z.max 1 key.2;
                  ss_connection_id := MkConnectionId (sg_connection_id row);
                  ss_model_id := sg_model_id row;
                  ss_tool_mode := parse_session_tool_mode (sg_tool_mode row);
                  ss_updated_at := updated_at |})
  end.

(** [load_session_budget] *)
Definition load_session_budget (session_id : SessionId) (db : Db)
    : Result (option SessionBudgetProjection) :=
  match db_budgets db !! session_id with
  | None => Ok None
  | Some row =>
      budget ← storage (budget_limits row);
      updated_at ← storage (parse_time (bu_updated_at row));
      Ok (Some {| bp_session_id := session_id;
                  bp_budget := budget;
                  bp_tokens_used := Z.max 0 (bu_tokens_used row);
                  bp_turns_used := wrap32 (Z.max 0 (bu_turns_used row));
                  bp_elapsed_seconds := Z.max 0 (bu_elapsed_seconds row);
                  bp_cost_used_usd := bu_cost_used_usd row;
                  bp_updated_at := updated_at |})
  end.

(** [load_branch_plan] *)
Definition load_branch_plan (session_id : SessionId) (branch_id : BranchId) (db : Db)
    : Result (option PlanProjection) :=
  match db_plans db !! (session_id, branch_id) with
  | None => Ok None
  | Some row =>
      updated_at ← storage (parse_time (pl_updated_at row));
      Ok (Some {| pp_session_id := session_id; pp_branch_id := branch_id;
                  pp_items := pl_items row; pp_updated_at := updated_at |})
  end.

(** [parse_branch_record] *)
Definition parse_branch_record (branch_id : BranchId) (row : BranchRow) : option BranchRecord :=
  created_at ← parse_time (bw_created_at row);
  Some {| br_branch_id := branch_id;
          br_session_id := bw_session_id row;
          br_parent_branch_id := bw_parent_branch_id row;
          br_parent_event_id := bw_parent_event_id row;
          br_head_event_id := bw_head_event_id row;
          br_summary := bw_summary row;
          br_created_at := created_at;
          br_is_default := bw_is_default row |}.

(** [load_branch] *)
Definition load_branch (session_id : SessionId) (branch_id : BranchId) (db : Db)
    : Result (option BranchRecord) :=
  match db_branches db !! branch_id with
  | Some row =>
      if bool_decide (bw_session_id row = session_id)
      then branch ← storage (parse_branch_record branch_id row); Ok (Some branch)
      else Ok None
  | None => Ok None
  end.

(** ** Related-session messages *)

Definition load_related_where
    (p : SessionId * RelatedSessionMessageId * RelatedSessionMessageDirection * RelatedRow -> bool) (db : Db)
    : Result (list RelatedSessionMessageRecord) :=
  try_map (fun kv => storage (parse_related_message_record kv.1.2 kv.2))
    (merge_sort related_le (List.filter p (map_to_list (db_related db)))).

(** [load_related_session_messages] *)
Definition load_related_session_messages (session_id : SessionId) (db : Db) :=
  load_related_where (fun kv => bool_decide (kv.1.1.1 = session_id)) db.

(** [load_pending_related_session_messages] *)
Definition load_pending_related_session_messages (session_id : SessionId) (db : Db) :=
  load_related_where (is_pending_related session_id) db.
(** [load_all_pending_related_session_messages] *)
Definition load_all_pending_related_session_messages (db : Db) :=
  load_related_where (fun kv => bool_decide (kv.1.2 = Received)
    && bool_decide (rr_status kv.2 = Pending)) db.

(** [load_all_unsettled_related_session_obligations] *)
Definition load_all_unsettled_related_session_obligations (db : Db) :=
  load_related_where (fun kv => bool_decide (kv.1.2 = Received)
    && bool_decide (rr_status kv.2 = Claimed)
    && match rr_settlement kv.2 with None => true | Some _ => false end) db.

(** ** Children, tool runs, approvals and turns, in the order of the query *)

Definition child_le (a b : SessionId * SessionRow) : Prop :=
  str_leb (sr_created_at a.2) (sr_created_at b.2) = true.
#[export] Instance child_le_dec a b : Decision (child_le a b).
Proof. unfold child_le. apply _. Defined.

(** [load_child_sessions] *)
Definition load_child_sessions (parent_session_id : SessionId) (db : Db)
    : Result (list SessionRecord) :=
  try_map (fun kv => storage (parse_session_record kv.1 kv.2))
    (merge_sort child_le (List.filter (fun kv =>
       bool_decide (sr_parent_session_id kv.2 = Some parent_session_id))
       (map_to_list (db_sessions db)))).

Definition tool_run_le (a b : SessionId * ToolCallId * ToolRunRow) : Prop :=
  str_leb (tw_updated_at a.2) (tw_updated_at b.2) = true.
#[export] Instance tool_run_le_dec a b : Decision (tool_run_le a b).
Proof. unfold tool_run_le. apply _. Defined.

Definition parse_tool_run (kv : SessionId * ToolCallId * ToolRunRow) : Result ToolRunProjection :=
  let '(session_id, call_id, row) := kv in
  updated_at ← storage (parse_time (tw_updated_at row));
  Ok {| tq_call_id := call_id; tq_session_id := session_id; tq_tool_name := tw_tool_name row;
        tq_status := tw_status row; tq_branch_id := tw_branch_id row;
        tq_turn_id := tw_turn_id row; tq_requested_seq_id := tw_requested_seq_id row;
        tq_arguments := tw_arguments row; tq_result := tw_result row;
        tq_updated_at := updated_at |}.

(** [load_tool_runs] *)
Definition load_tool_runs (session_id : SessionId) (db : Db) : Result (list ToolRunProjection) :=
  try_map parse_tool_run (merge_sort tool_run_le (List.filter (fun kv =>
    bool_decide (kv.1.1 = session_id)) (map_to_list (db_tool_runs db)))).

Definition approval_le (a b : SessionId * ToolCallId * ApprovalRow) : Prop :=
  str_leb (aw_updated_at a.2) (aw_updated_at b.2) = true.
#[export] Instance approval_le_dec a b : Decision (approval_le a b).
Proof. unfold approval_le. apply _. Defined.

Definition parse_approval (kv : SessionId * ToolCallId * ApprovalRow) : Result ApprovalProjection :=
  let '(session_id, call_id, row) := kv in
  updated_at ← storage (parse_time (aw_updated_at row));
  Ok {| ap_call_id := call_id; ap_session_id := session_id; ap_tool_name := aw_tool_name row;
        ap_status := aw_status row; ap_branch_id := aw_branch_id row;
        ap_turn_id := aw_turn_id row; ap_requested_seq_id := aw_requested_seq_id row;
        ap_request_fingerprint := aw_request_fingerprint row;
        ap_request_snapshot := aw_request_snapshot row; ap_decision := aw_decision row;
        ap_resolution := aw_resolution row; ap_updated_at := updated_at |}.

(** [load_approvals] *)
Definition load_approvals (session_id : SessionId) (db : Db) : Result (list ApprovalProjection) :=
  try_map parse_approval (merge_sort approval_le (List.filter (fun kv =>
    bool_decide (kv.1.1 = session_id)) (map_to_list (db_approvals db)))).

(** [NULL] comes first in an ascending order. *)
Definition turn_row_le (a b : string * string * TurnRow) : Prop :=
  match row_event_seq_start a.2, row_event_seq_start b.2 with
  | None, _ => True
  | Some _, None => False
  | Some x, Some y => x <= y
  end.
#[export] Instance turn_row_le_dec a b : Decision (turn_row_le a b).
Proof. unfold turn_row_le. repeat case_match; apply _. Defined.

(** [load_turn_projections] *)
Definition load_turn_projections (session_id : SessionId) (db : Db)
    : Result (list TurnInspection) :=
  try_map (fun kv => storage (parse_turn_projection_row kv.2))
    (merge_sort turn_row_le (List.filter (fun kv =>
       String.eqb kv.1.1 (show_uuid (uuid session_id))) (map_to_list (db_turns db)))).
End queries.

(** ** What recovery finds *)

(** Every turn belongs to one session. *)
Definition turns_owned (owner : TurnId -> SessionId) (log : list (Z * EventEnvelope)) : Prop :=
  Forall (fun logged =>
    match ev_payload logged.2 with
    | TurnStarted t _ _ _ _ _ _ | TurnFinished t _ _ _ _ _ => owner t = ev_session_id logged.2
    | _ => True
    end) log.

(** The record describes the active turn of its session. *)
Definition recovers (active : ActiveTurns) (record : TurnRecoveryRecord) : Prop :=
  exists row, active !! tv_session_id record = Some row
    /\ at_branch_id row = tv_branch_id record /\ at_turn_id row = tv_turn_id record
    /\ at_started_seq_id row = tv_started_seq_id record.

Record unfinished_ok (owner : TurnId -> SessionId) (active : ActiveTurns)
    (unfinished : gmap TurnId TurnRecoveryRecord) : Prop := {
  uo_sound t r : unfinished !! t = Some r ->
    tv_turn_id r = t /\ owner t = tv_session_id r /\ recovers active r;
  uo_complete s row : active !! s = Some row ->
    exists r, unfinished !! at_turn_id row = Some r /\ tv_session_id r = s;
}.

Section recovery.
Context `{codec : RowCodec}.

Lemma unfinished_ok_step owner active active' unfinished logged :
  turns_owned owner [logged] ->
  replay_boundary active logged = Some active' ->
  (forall t p m n r src c, ev_payload logged.2 = TurnStarted t p m n r src c ->
     active !! ev_session_id logged.2 = None) ->
  unfinished_ok owner active unfinished ->
  unfinished_ok owner active' (unfinished_step unfinished logged).
Proof.
  unfold turns_owned. rewrite Forall_singleton. intros Hown Hstep Hidle [Hs Hc]. destruct logged as [q e]. simpl in *.
  destruct (ev_payload e) as
    [| | | | | | | | | | | | | | |t p m n r src c| | | | | | |t p m status reason latency
     | | | | | | | | | | | | | | | | |]; try by injection Hstep as <-.
  - destruct (format_time _) as [started|]; [|done]. injection Hstep as <-.
    specialize (Hidle _ _ _ _ _ _ _ eq_refl). split.
    + intros t' r' [[<- <-]|[Hne H]]%lookup_insert_Some.
      * simpl. split_and!; [done|done|]. eexists. simpl. by rewrite lookup_insert_eq.
      * destruct (Hs _ _ H) as (? & ? & row & Hrow & ?). split_and!; [done|done|].
        exists row. rewrite lookup_insert_ne; [done|]. congruence.
    + intros s row [[<- <-]|[Hne H]]%lookup_insert_Some.
      * eexists. simpl. by rewrite lookup_insert_eq.
      * destruct (Hc _ _ H) as (r' & Hr & Hsr). exists r'. rewrite lookup_insert_ne; [done|].
        intros Heq. subst. destruct (Hs _ _ Hr) as (_ & Ho & _). congruence.
  - injection Hstep as <-. destruct (active !! ev_session_id e) as [row|] eqn:Hrow; simpl.
    + case_bool_decide as Ht.
      * split.
        -- intros t' r' [Hne H]%lookup_delete_Some.
           destruct (Hs _ _ H) as (? & ? & row' & Hrow' & Hb & Ht' & ?). split_and!; [done|done|].
           exists row'. rewrite lookup_delete_ne; [done|]. intros Heq. rewrite <- Heq in Hrow'.
           congruence.
        -- intros s row' [Hne H]%lookup_delete_Some. destruct (Hc _ _ H) as (r' & Hr & Hsr).
           exists r'. rewrite lookup_delete_ne; [done|]. intros Heq.
           destruct (Hs _ _ Hr) as (_ & Ho & _). congruence.
      * assert (unfinished !! t = None) as Hnone.
        { destruct (unfinished !! t) as [r'|] eqn:Hr; [|done].
          destruct (Hs _ _ Hr) as (Ht' & Ho & row' & Hrow' & _ & ? & _). congruence. }
        by rewrite delete_id.
    + assert (unfinished !! t = None) as Hnone.
      { destruct (unfinished !! t) as [r'|] eqn:Hr; [|done].
        destruct (Hs _ _ Hr) as (Ht' & Ho & row' & Hrow' & _). congruence. }
      by rewrite delete_id.
Qed.

Lemma reachable_unfinished owner db :
  reachable db -> turns_owned owner (db_events db) ->
  unfinished_ok owner (db_active_turns db) (fold_left unfinished_step (db_events db) ∅).
Proof.
  revert db. apply (reachable_ind (fun db => turns_owned owner (db_events db) ->
    unfinished_ok owner (db_active_turns db) (fold_left unfinished_step (db_events db) ∅))).
  - intros _. by split.
  - intros db1 db2 Hs. by rewrite (st_events _ _ Hs), (st_active _ _ Hs).
  - intros event db1 seq_id db2 IH H Hown. pose proof (append_active _ _ _ _ H) as [Hr Hidle].
    apply append_log in H as (_ & _ & Hlog & _). rewrite Hlog in *.
    apply Forall_app in Hown as [Hown Hown1]. rewrite fold_left_app.
    eapply unfinished_ok_step; [done|done|exact Hidle|by apply IH].
Qed.

Lemma started_le_total : Total started_le.
Proof. intros a b. unfold started_le. lia. Qed.
Lemma started_le_trans : Transitive started_le.
Proof. intros a b c. unfold started_le. lia. Qed.

Lemma elem_of_unfinished db r :
  r ∈ load_unfinished_turns db
  <-> exists t, fold_left unfinished_step (db_events db) ∅ !! t = Some r.
Proof.
  unfold load_unfinished_turns. rewrite merge_sort_Permutation, list_elem_of_fmap. split.
  - intros ([t r'] & -> & H%elem_of_map_to_list). by exists t.
  - intros (t & H). exists (t, r). split; [done|]. by apply elem_of_map_to_list.
Qed.

(** The turns the log leaves unfinished are exactly the active ones: where no
    turn id is shared between sessions, [load_unfinished_turns] returns, in
    the order of their starts, one record for every row of the active-turn
    table, with its session, branch, turn and sequence number, and no other. *)
Theorem unfinished_turns_are_active owner db :
  reachable db -> turns_owned owner (db_events db) ->
  Forall (recovers (db_active_turns db)) (load_unfinished_turns db)
  /\ StronglySorted started_le (load_unfinished_turns db)
  /\ forall s row, db_active_turns db !! s = Some row ->
       exists r, r ∈ load_unfinished_turns db /\ tv_session_id r = s
         /\ tv_branch_id r = at_branch_id row /\ tv_turn_id r = at_turn_id row
         /\ tv_started_seq_id r = at_started_seq_id row.
Proof.
  intros Hr Hown. destruct (reachable_unfinished owner db Hr Hown) as [Hs Hc]. split_and!.
  - apply Forall_forall. intros r (t & Ht)%elem_of_unfinished. by destruct (Hs _ _ Ht) as (_ & _ & ?).
  - apply (@StronglySorted_merge_sort _ started_le _ started_le_trans started_le_total).
  - intros s row Hrow. destruct (Hc _ _ Hrow) as (r & Hlook & <-). exists r.
    destruct (Hs _ _ Hlook) as (_ & _ & row' & Hrow' & ? & ? & ?).
    rewrite Hrow in Hrow'. injection Hrow' as <-.
    split; [by apply elem_of_unfinished; eauto|]. done.
Qed.
End recovery.
