(* ===== verification/StorePaging.v ===== *)
(** * The session store: branch lineage and transcript pages
    ([crates/bt-session/src/store/paging.rs], [store.rs])

    The messages a branch inherits from its ancestors, and the pages of the
    transcript read backwards from the newest row.

    Nothing forbids a cycle of parents, on which [branch_lineage] does not
    return; it is [None] here exactly then ([branch_lineage_ends]).  The laws
    say that the pages of one kind, walked backwards, are the whole transcript
    of that kind. *)

From stdpp Require Import base list strings gmap sorting.
From Stdlib Require Import ZArith Lia.
From S2P Require Import Prelude Text Json Types Messages TurnProjection Store StoreOps.
From S2P Require Import StoreRelated StoreLaws StoreReplay StoreQueue StoreQueries.

#[local] Open Scope Z_scope.

(** ** Records ([store/types.rs]) *)

Record SequencedMessageRecord : Type := MkSequencedMessage {
  sm_seq_id : Z;
  sm_message : Message;
}.

Record ContextMessageRecord : Type := MkContextMessage {
  xm_message : Message;
  xm_source_branch_id : option BranchId;
  xm_source_seq_id : option Z;
}.

Record RecordedOperatorCommandRecord : Type := MkOperatorCommand {
  oc_seq_id : Z;
  oc_occurred_at : OffsetDateTime;
  oc_command_type : string;
  oc_raw_input : string;
  oc_output : string;
  oc_success : bool;
}.

Record TranscriptPage (T : Type) : Type := MkTranscriptPage {
  tp_items : list T;
  tp_oldest_seq_id : option Z;
  tp_newest_seq_id : option Z;
  tp_has_more_before : bool;
}.
#[global] Arguments MkTranscriptPage {T}.
#[global] Arguments tp_items {T}.
#[global] Arguments tp_oldest_seq_id {T}.
#[global] Arguments tp_newest_seq_id {T}.
#[global] Arguments tp_has_more_before {T}.

(** The trait [SequencedRow]. *)
Class SequencedRow (T : Type) : Type := { row_seq_id : T -> option Z }.
#[export] Instance sequenced_message : SequencedRow SequencedMessageRecord :=
  {| row_seq_id r := if 0 <? sm_seq_id r then Some (sm_seq_id r) else None |}.
#[export] Instance sequenced_command : SequencedRow RecordedOperatorCommandRecord :=
  {| row_seq_id r := Some (oc_seq_id r) |}.

(** [first_seq_id], [last_seq_id] *)
Definition first_seq_id {T} `{SequencedRow T} (rows : list T) : option Z :=
  find_map row_seq_id rows.
Definition last_seq_id {T} `{SequencedRow T} (rows : list T) : option Z :=
  find_map row_seq_id (rev rows).

Section paging.
Context `{codec : RowCodec}.

(** ** Lineage *)

(** The [while] loop of [branch_lineage]; the lineage so far is in the order
    it is returned. *)
Fixpoint lineage_loop (fuel : nat) (session_id : SessionId) (db : Db) (current : BranchRecord)
    (lineage : list BranchRecord) : option (Result (list BranchRecord)) :=
  match br_parent_branch_id current with
  | None => Some (Ok lineage)
  | Some parent_id =>
      match fuel with
      | O => None
      | S fuel =>
          match (loaded ← load_branch session_id parent_id db;
                 ok_or (InvalidState "parent branch not found") loaded) with
          | Err e => Some (Err e)
          | Ok parent => lineage_loop fuel session_id db parent (parent :: lineage)
          end
      end
  end.

(** [branch_lineage]: the root first, the branch last. *)
Definition branch_lineage (session_id : SessionId) (branch_id : BranchId) (db : Db)
    : option (Result (list BranchRecord)) :=
  match (loaded ← load_branch session_id branch_id db;
         ok_or (InvalidState "branch not found") loaded) with
  | Err e => Some (Err e)
  | Ok current => lineage_loop (size (db_branches db)) session_id db current [current]
  end.

(** The branches of a lineage with the event the next one was forked at. *)
Fixpoint with_upper_bounds (lineage : list BranchRecord)
    : list (BranchRecord * option EventId) :=
  match lineage with
  | [] => []
  | branch :: rest =>
      (branch, child ← head rest; br_parent_event_id child) :: with_upper_bounds rest
  end.

(** [SELECT seq_id FROM events WHERE event_id = ?] *)
Definition seq_id_of_event (event_id : EventId) (db : Db) : option Z :=
  fst <$> find_first (fun logged => bool_decide (ev_event_id logged.2 = event_id)) (db_events db).

(** [event_seq_id] *)
Definition event_seq_id (event_id : EventId) (db : Db) : Result Z :=
  ok_or (InvalidState "event not found") (seq_id_of_event event_id db).

(** [?3 IS NULL OR e.seq_id <= (SELECT ...)]: a missing event is a [NULL],
    which no row satisfies. *)
Definition up_to (up_to_event_id : option EventId) (db : Db) (seq_id : Z) : bool :=
  match up_to_event_id with
  | None => true
  | Some event_id => is_some_and (fun bound => seq_id <=? bound) (seq_id_of_event event_id db)
  end.

(** ** Messages of a branch *)

(** [message_projection mp JOIN events e ON e.event_id = mp.event_id], in the
    order of [e.seq_id]. *)
Definition message_rows (db : Db) : list (Z * EventEnvelope * MessageRow) :=
  omap (fun logged => row ← db_messages db !! ev_event_id logged.2; Some (logged, row))
    (db_events db).

Definition in_branch (session_id : SessionId) (branch_id : BranchId) (row : MessageRow) : bool :=
  bool_decide (mr_session_id row = session_id) && bool_decide (mr_branch_id row = branch_id).

Definition exact_branch_rows (session_id : SessionId) (branch_id : BranchId)
    (up_to_event_id : option EventId) (db : Db) : list (Z * EventEnvelope * MessageRow) :=
  List.filter (fun r => in_branch session_id branch_id r.2 && up_to up_to_event_id db r.1.1)
    (message_rows db).

(** [load_messages_for_exact_branch] *)
Definition load_messages_for_exact_branch (session_id : SessionId) (branch_id : BranchId)
    (up_to_event_id : option EventId) (db : Db) : list Message :=
  map (fun r => mr_message r.2) (exact_branch_rows session_id branch_id up_to_event_id db).

(** [load_context_messages_for_exact_branch] *)
Definition load_context_messages_for_exact_branch (session_id : SessionId)
    (branch_id : BranchId) (up_to_event_id : option EventId) (db : Db)
    : list ContextMessageRecord :=
  map (fun r => {| xm_message := mr_message r.2;
                   xm_source_branch_id := Some (mr_branch_id r.2);
                   xm_source_seq_id := Some r.1.1 |})
    (exact_branch_rows session_id branch_id up_to_event_id db).

(** [load_messages_for_turn] *)
Definition load_messages_for_turn (session_id : SessionId) (branch_id : BranchId)
    (turn_id : TurnId) (db : Db) : list Message :=
  map (fun r => mr_message r.2)
    (List.filter (fun r => in_branch session_id branch_id r.2
                           && bool_decide (ev_turn_id r.1.2 = Some turn_id)) (message_rows db)).

(** The summary of the branch itself, as a system message; it gets a new id
    and time at every load. *)
Definition branch_summary_message (message_id : MessageId) (now : OffsetDateTime)
    (lineage : list BranchRecord) : option Message :=
  branch ← last lineage;
  summary ← br_summary branch;
  if is_blank summary then None
  else Some (message_text message_id now RoleSystem ("Branch handoff summary:" +:+ nl +:+ summary)).

(** [load_messages_for_branch] *)
Definition load_messages_for_branch (message_id : MessageId) (now : OffsetDateTime)
    (session_id : SessionId) (branch_id : BranchId) (db : Db) : option (Result (list Message)) :=
  lineage ← branch_lineage session_id branch_id db;
  Some (lineage ← lineage;
        let messages := concat (map (fun b =>
          load_messages_for_exact_branch session_id (br_branch_id b.1) b.2 db)
          (with_upper_bounds lineage)) in
        Ok (option_list (branch_summary_message message_id now lineage) ++ messages)).

(** [load_context_messages_for_branch] *)
Definition load_context_messages_for_branch (message_id : MessageId) (now : OffsetDateTime)
    (session_id : SessionId) (branch_id : BranchId) (db : Db)
    : option (Result (list ContextMessageRecord)) :=
  lineage ← branch_lineage session_id branch_id db;
  Some (lineage ← lineage;
        let messages := concat (map (fun b =>
          load_context_messages_for_exact_branch session_id (br_branch_id b.1) b.2 db)
          (with_upper_bounds lineage)) in
        Ok (map (fun m => MkContextMessage m None None)
              (option_list (branch_summary_message message_id now lineage)) ++ messages)).

(** ** Operator commands of a branch *)

Definition is_operator_command (event : EventEnvelope) : bool :=
  String.eqb (kind (ev_payload event)) "operator.command.recorded".

(** [load_operator_command_events_for_exact_branch] *)
Definition load_operator_command_events_for_exact_branch (session_id : SessionId)
    (branch_id : BranchId) (up_to_event_id : option EventId) (db : Db) : list EventEnvelope :=
  map stored (List.filter (fun logged =>
    in_session session_id logged && bool_decide (ev_branch_id logged.2 = branch_id)
    && is_operator_command logged.2 && up_to up_to_event_id db logged.1) (db_events db)).

(** [load_operator_command_events] *)
Definition load_operator_command_events (session_id : SessionId) (branch_id : BranchId) (db : Db)
    : option (Result (list EventEnvelope)) :=
  lineage ← branch_lineage session_id branch_id db;
  Some (lineage ← lineage;
        Ok (concat (map (fun b =>
          load_operator_command_events_for_exact_branch session_id (br_branch_id b.1) b.2 db)
          (with_upper_bounds lineage)))).

(** ** Pages *)

(** [branch_lineage_bounds] *)
Definition branch_lineage_bounds (session_id : SessionId) (branch_id : BranchId) (db : Db)
    : option (Result (list (BranchId * option Z))) :=
  lineage ← branch_lineage session_id branch_id db;
  Some (lineage ← lineage;
        try_map (fun b =>
          bound ← match b.2 with
                  | None => Ok None
                  | Some event_id => seq_id ← event_seq_id event_id db; Ok (Some seq_id)
                  end;
          Ok (br_branch_id b.1, bound)) (with_upper_bounds lineage)).

(** The clauses of [{lineage_filter}], which look at the event's branch. *)
Definition lineage_filter (bounds : list (BranchId * option Z)) (logged : Z * EventEnvelope)
    : bool :=
  any (fun b => bool_decide (ev_branch_id logged.2 = b.1)
                && match b.2 with None => true | Some bound => logged.1 <=? bound end) bounds.

(** [load_page_rows]: the rows of the query in ascending order, each with its
    sequence number; the query takes them in descending order. *)
Definition load_page_rows {R T} `{SequencedRow T} (rows : list (Z * R))
    (before_seq_id : option Z) (limit : Z) (map_row : Z * R -> Result T)
    : Result (TranscriptPage T) :=
  let before := match before_seq_id with
                | None => rows
                | Some bound => List.filter (fun row => row.1 <? bound) rows
                end in
  fetched ← try_map map_row (sql_limit (u64_saturating_add limit 1) (rev before));
  let has_more_before := limit <? Z.of_nat (length fetched) in
  let kept := rev (if has_more_before then removelast fetched else fetched) in
  Ok {| tp_items := kept;
        tp_oldest_seq_id := first_seq_id kept;
        tp_newest_seq_id := last_seq_id kept;
        tp_has_more_before := has_more_before |}.

Definition message_page_rows (session_id : SessionId) (bounds : list (BranchId * option Z))
    (db : Db) : list (Z * Message) :=
  map (fun r => (r.1.1, mr_message r.2))
    (List.filter (fun r => bool_decide (mr_session_id r.2 = session_id)
                           && lineage_filter bounds r.1) (message_rows db)).

(** [load_branch_messages_page] *)
Definition load_branch_messages_page (message_id : MessageId) (now : OffsetDateTime)
    (session_id : SessionId) (branch_id : BranchId) (before_seq_id : option Z) (limit : Z)
    (db : Db) : option (Result (TranscriptPage SequencedMessageRecord)) :=
  lineage ← branch_lineage session_id branch_id db;
  lineage_bounds ← branch_lineage_bounds session_id branch_id db;
  Some (lineage ← lineage;
        lineage_bounds ← lineage_bounds;
        page ← load_page_rows (message_page_rows session_id lineage_bounds db) before_seq_id
                 limit (fun row => Ok (MkSequencedMessage row.1 row.2));
        let summary := if tp_has_more_before page then None
                       else branch_summary_message message_id now lineage in
        Ok {| tp_items := map (MkSequencedMessage 0) (option_list summary) ++ tp_items page;
              tp_oldest_seq_id := tp_oldest_seq_id page;
              tp_newest_seq_id := tp_newest_seq_id page;
              tp_has_more_before := tp_has_more_before page |}).

Definition command_page_rows (session_id : SessionId) (bounds : list (BranchId * option Z))
    (db : Db) : list (Z * EventEnvelope) :=
  List.filter (fun logged => in_session session_id logged && is_operator_command logged.2
                             && lineage_filter bounds logged) (db_events db).

Definition command_row (logged : Z * EventEnvelope) : Result RecordedOperatorCommandRecord :=
  occurred_at ← storage (text ← format_time (ev_occurred_at logged.2); parse_time text);
  match ev_payload logged.2 with
  | OperatorCommandRecorded command_type raw_input output success =>
      Ok (MkOperatorCommand logged.1 occurred_at command_type raw_input output success)
  | _ => Err (Storage driver_error)
  end.

(** [load_branch_operator_commands_page] *)
Definition load_branch_operator_commands_page (session_id : SessionId) (branch_id : BranchId)
    (before_seq_id : option Z) (limit : Z) (db : Db)
    : option (Result (TranscriptPage RecordedOperatorCommandRecord)) :=
  lineage_bounds ← branch_lineage_bounds session_id branch_id db;
  Some (lineage_bounds ← lineage_bounds;
        load_page_rows (command_page_rows session_id lineage_bounds db) before_seq_id limit
          command_row).
End paging.

(** ** The lineage ends *)

Section lineage.
Context `{codec : RowCodec} (session_id : SessionId) (db : Db).

Definition load_parent (branch_id : BranchId) : option BranchRecord :=
  match load_branch session_id branch_id db with
  | Ok (Some branch) => Some branch
  | _ => None
  end.

(** The branch [n] steps up. *)
Fixpoint ancestor (n : nat) (current : BranchRecord) : option BranchRecord :=
  match n with
  | O => Some current
  | S n => parent_id ← br_parent_branch_id current; parent ← load_parent parent_id;
           ancestor n parent
  end.

(** The chain of parents of the branch never ends. *)
Definition endless (current : BranchRecord) : Prop :=
  forall n, is_Some (ancestor n current ≫= br_parent_branch_id).

Lemma lineage_loop_None n current lineage :
  lineage_loop n session_id db current lineage = None
  <-> is_Some (ancestor n current ≫= br_parent_branch_id).
Proof.
  revert current lineage. induction n as [|n IH]; intros current lineage; simpl.
  - destruct (br_parent_branch_id current); split; [eauto|done|done|by intros []].
  - destruct (br_parent_branch_id current) as [p|]; simpl; [|split; [done|by intros []]].
    unfold load_parent. destruct (load_branch session_id p db) as [[b|]|e]; simpl;
      [apply IH|split; [done|by intros []]..].
Qed.

Lemma ancestor_add n m current :
  ancestor (n + m) current = ancestor n current ≫= ancestor m.
Proof.
  revert current. induction n as [|n IH]; intros current; simpl; [done|].
  destruct (br_parent_branch_id current) as [p|]; simpl; [|done].
  destruct (load_parent p) as [b|]; simpl; [apply IH|done].
Qed.

Lemma load_parent_Some branch_id branch :
  load_parent branch_id = Some branch ->
  br_branch_id branch = branch_id /\ branch_id ∈ dom (db_branches db).
Proof.
  unfold load_parent, load_branch. intros H.
  destruct (db_branches db !! branch_id) as [row|] eqn:E; [|done].
  case_bool_decide; [|done]. unfold parse_branch_record in H.
  destruct (parse_time (bw_created_at row)); [|done]. simpl in H. injection H as <-.
  split; [done|]. apply elem_of_dom. eauto.
Qed.

(** A stored branch, as it is loaded. *)
Definition is_stored (branch : BranchRecord) : Prop :=
  load_parent (br_branch_id branch) = Some branch.

Lemma ancestor_stored n current branch :
  is_stored current -> ancestor n current = Some branch -> is_stored branch.
Proof.
  revert current. induction n as [|n IH]; intros current Hc; simpl; [congruence|].
  destruct (br_parent_branch_id current) as [p|]; simpl; [|done].
  destruct (load_parent p) as [b|] eqn:E; simpl; [|done]. apply IH.
  pose proof (load_parent_Some _ _ E) as [Hb _]. unfold is_stored. by rewrite Hb.
Qed.

Lemma ancestor_prefix n m current :
  (n <= m)%nat -> is_Some (ancestor m current ≫= br_parent_branch_id) ->
  is_Some (ancestor n current ≫= br_parent_branch_id).
Proof.
  intros Hle Hm. destruct (decide (n = m)) as [->|Hne]; [done|].
  replace m with (n + S (m - n - 1))%nat in Hm by lia.
  rewrite ancestor_add in Hm. destruct (ancestor n current) as [b|]; simpl in *; [|by destruct Hm].
  destruct (br_parent_branch_id b); [eauto|by destruct Hm].
Qed.

(** A branch met twice is met for ever. *)
Lemma repeat_endless i j current branch :
  (i < j)%nat -> ancestor i current = Some branch -> ancestor j current = Some branch ->
  endless current.
Proof.
  intros Hij Hi Hj. assert (forall k, ancestor k current ≫= br_parent_branch_id <> None) as H.
  { intros k. induction k as [k IH] using (well_founded_induction lt_wf).
    destruct (decide (j <= k)%nat) as [Hk|Hk].
    - replace k with (j + (k - j))%nat by lia. rewrite ancestor_add, Hj. simpl.
      specialize (IH (i + (k - j))%nat ltac:(lia)). by rewrite ancestor_add, Hi in IH.
    - intros Hn. assert (is_Some (ancestor k current ≫= br_parent_branch_id)) as [? Hs]; [|congruence].
      replace j with (k + S (j - k - 1))%nat in Hj by lia.
      rewrite ancestor_add in Hj. destruct (ancestor k current) as [b|]; simpl in *; [|done].
      destruct (br_parent_branch_id b); [eauto|done]. }
  intros k. destruct (ancestor k current ≫= br_parent_branch_id) eqn:E; [eauto|by apply H in E].
Qed.

(** More steps than there are branches repeat one. *)
Lemma enough_endless current :
  is_stored current ->
  is_Some (ancestor (size (db_branches db)) current ≫= br_parent_branch_id) -> endless current.
Proof.
  intros Hc Hlong k. apply dec_stable. intros Hno. set (n := size (db_branches db)) in *.
  assert (forall i, (i <= n)%nat -> exists b, ancestor i current = Some b) as Hbelow.
  { intros i Hi. pose proof (ancestor_prefix i n current Hi Hlong) as Hs.
    destruct (ancestor i current); [eauto|by destruct Hs]. }
  pose (ids := map (fun i => br_branch_id <$> ancestor i current) (seq 0 (S n))).
  assert (NoDup ids) as Hnd.
  { assert (forall i j, (i < j <= n)%nat -> br_branch_id <$> ancestor i current
              <> br_branch_id <$> ancestor j current) as Hne.
    { intros i j Hij Heq. apply Hno.
      destruct (Hbelow i ltac:(lia)) as [b Hb], (Hbelow j ltac:(lia)) as [b' Hb'].
      rewrite Hb, Hb' in Heq. injection Heq as Heq.
      pose proof (ancestor_stored _ _ _ Hc Hb) as Hs. pose proof (ancestor_stored _ _ _ Hc Hb') as Hs'.
      unfold is_stored in *. rewrite Heq, Hs' in Hs. injection Hs as ->.
      by apply (repeat_endless i j current b); [lia|..]. }
    unfold ids. apply NoDup_fmap_2_strong; [|apply NoDup_seq].
    intros i j Hi Hj Heq. apply elem_of_seq in Hi, Hj.
    destruct (lt_eq_lt_dec i j) as [[?|?]|?]; [|done|];
      [destruct (Hne i j)|destruct (Hne j i)]; (lia || done). }
  assert (forall x, x ∈ ids -> x ∈ map Some (elements (dom (db_branches db)))) as Hin.
  { intros x (i & -> & Hi)%list_elem_of_fmap. apply elem_of_seq in Hi.
    destruct (Hbelow i ltac:(lia)) as [b Hb]. rewrite Hb. simpl.
    pose proof (load_parent_Some _ _ (ancestor_stored _ _ _ Hc Hb)) as [_ Hd].
    apply list_elem_of_fmap. exists (br_branch_id b). split; [done|]. by apply elem_of_elements. }
  pose proof (submseteq_length _ _ (NoDup_submseteq _ _ Hnd Hin)) as Hlen.
  unfold ids in Hlen. rewrite !length_map, length_seq in Hlen.
  change (length (elements (dom (db_branches db)))) with (size (dom (db_branches db))) in Hlen.
  rewrite size_dom in Hlen. fold n in Hlen. lia.
Qed.

(** Each branch is followed by one forked from it. *)
Fixpoint forked (lineage : list BranchRecord) : Prop :=
  match lineage with
  | parent :: (child :: _) as rest =>
      br_parent_branch_id child = Some (br_branch_id parent) /\ forked rest
  | _ => True
  end.

Lemma lineage_loop_Ok n current lineage result :
  lineage_loop n session_id db current (current :: lineage) = Some (Ok result) ->
  forked (current :: lineage) ->
  forked result /\ last result = last (current :: lineage)
  /\ exists root, head result = Some root /\ br_parent_branch_id root = None.
Proof.
  revert current lineage. induction n as [|n IH]; intros current lineage; simpl lineage_loop;
    destruct (br_parent_branch_id current) as [p|] eqn:Hp; try done; intros H Hf.
  - injection H as <-. eauto.
  - destruct (load_branch session_id p db) as [[b|]|e] eqn:E; simpl in H; try done.
    apply IH in H as (H1 & H2 & H3).
    + split_and!; [done| |done]. by rewrite H2.
    + split; [|done]. rewrite Hp. f_equal. symmetry. eapply load_parent_Some.
      unfold load_parent. by rewrite E.
  - injection H as <-. eauto.
Qed.
End lineage.

(** [branch_lineage] returns unless the chain of parents never ends, and
    what it returns is that chain: on every database and for every branch, the
    call does not return exactly when the branch is stored and its parents go
    round in a cycle; a result ends with the branch, starts at a branch
    without a parent, and each branch is followed by one forked from it. *)
Theorem branch_lineage_exact `{RowCodec} session_id branch_id db :
  (branch_lineage session_id branch_id db = None
   <-> exists branch, load_branch session_id branch_id db = Ok (Some branch)
                      /\ endless session_id db branch)
  /\ forall lineage, branch_lineage session_id branch_id db = Some (Ok lineage) ->
       forked lineage
       /\ (exists branch, load_branch session_id branch_id db = Ok (Some branch)
                          /\ last lineage = Some branch)
       /\ exists root, head lineage = Some root /\ br_parent_branch_id root = None.
Proof.
  unfold branch_lineage. destruct (load_branch session_id branch_id db) as [[b|]|e] eqn:E; simpl.
  2-3: split; [split; [done|by intros (? & ? & _)]|done].
  assert (is_stored session_id db b) as Hb.
  { assert (load_parent session_id db branch_id = Some b) as Hl by (unfold load_parent; by rewrite E).
    pose proof (load_parent_Some _ _ _ _ Hl) as [Hid _]. unfold is_stored. by rewrite Hid. }
  split.
  - rewrite lineage_loop_None. split; [intros Hs; exists b; split; [done|by apply enough_endless]|].
    intros (b' & [= <-] & He). apply He.
  - intros lineage Hl. apply lineage_loop_Ok in Hl as (H1 & H2 & H3); [|done].
    split_and!; [done|by exists b|done].
Qed.

(** ** Pages *)

(** One more row than the page holds is fetched, newest first, and dropped. *)
Lemma page_window {A} (l : list A) n :
  let fetched := take (S n) (rev l) in
  length fetched = Nat.min (S n) (length l)
  /\ rev (if Nat.ltb n (length l) then removelast fetched else fetched) = drop (length l - n) l.
Proof.
  intros fetched. subst fetched. rewrite length_take, length_rev, firstn_rev. split; [done|].
  destruct (Nat.ltb_spec n (length l)) as [Hlt|Hge].
  - destruct (drop (length l - S n) l) as [|a rest] eqn:E.
    { apply (f_equal length) in E. rewrite length_drop in E. simpl in E. lia. }
    simpl. rewrite removelast_last, rev_involutive.
    replace (length l - n)%nat with ((length l - S n) + 1)%nat by lia.
    rewrite <- drop_drop, E. done.
  - rewrite rev_involutive. f_equal. lia.
Qed.

Lemma map_removelast {A B} (f : A -> B) l : map f (removelast l) = removelast (map f l).
Proof. induction l as [|a [|b l] IH]; [done..|]. simpl in *. by rewrite IH. Qed.

Section pages.
Context {R T} `{SequencedRow T} (rows : list (Z * R)) (map_row : Z * R -> Result T)
  (f : Z * R -> T).
Hypothesis rows_sorted : StronglySorted Z.lt rows.*1.
Hypothesis rows_parse : Forall (fun row => map_row row = Ok (f row)) rows.
Hypothesis rows_numbered : Forall (fun row => row_seq_id (f row) = Some row.1) rows.

(** The rows before a position. *)
Definition rows_before (before_seq_id : option Z) : list (Z * R) :=
  match before_seq_id with
  | None => rows
  | Some bound => List.filter (fun row => row.1 <? bound) rows
  end.

Lemma rows_before_subset before_seq_id : rows_before before_seq_id ⊆ rows.
Proof.
  intros row. destruct before_seq_id; simpl; [|done].
  rewrite !list_elem_of_In, filter_In. by intros [? _].
Qed.

Lemma try_map_rows l : l ⊆ rows -> try_map map_row l = Ok (map f l).
Proof.
  intros Hl. induction l as [|row l IH]; [done|]. simpl.
  rewrite (proj1 (Forall_forall _ _) rows_parse row) by (apply Hl; set_solver). simpl.
  rewrite IH by (intros r Hr; apply Hl; set_solver). done.
Qed.

Lemma first_seq_id_rows l : l ⊆ rows -> first_seq_id (map f l) = fst <$> head l.
Proof.
  intros Hl. destruct l as [|row l]; [done|]. unfold first_seq_id. simpl.
  by rewrite (proj1 (Forall_forall _ _) rows_numbered row) by (apply Hl; set_solver).
Qed.

(** The rows of a page: the last ones before its position. *)
Definition page_of (before_seq_id : option Z) (limit : Z) : list (Z * R) :=
  let before := rows_before before_seq_id in
  drop (length before - Z.to_nat limit) before.

Lemma load_page_rows_spec before_seq_id limit :
  0 < limit < I64_MAX ->
  load_page_rows rows before_seq_id limit map_row
  = Ok {| tp_items := map f (page_of before_seq_id limit);
          tp_oldest_seq_id := fst <$> head (page_of before_seq_id limit);
          tp_newest_seq_id := last_seq_id (map f (page_of before_seq_id limit));
          tp_has_more_before := limit <? Z.of_nat (length (rows_before before_seq_id)) |}.
Proof.
  intros Hlimit. unfold load_page_rows, page_of. fold (rows_before before_seq_id).
  pose proof (rows_before_subset before_seq_id) as Hin.
  set (before := rows_before before_seq_id) in *.
  destruct (page_window before (Z.to_nat limit)) as [Hlen Hrows].
  assert (sql_limit (u64_saturating_add limit 1) (rev before)
          = take (S (Z.to_nat limit)) (rev before)) as ->.
  { unfold sql_limit. unfold u64_saturating_add, U64_MAX, U64_MOD, I64_MAX in *.
    rewrite Z.min_r by lia. rewrite u64_as_i64_small by (unfold is_i63, I64_MAX; lia).
    destruct (Z.ltb_spec (limit + 1) 0); [lia|]. f_equal. lia. }
  assert (take (S (Z.to_nat limit)) (rev before) ⊆ rows) as Hf.
  { intros row Hr%subseteq_take. apply Hin. by rewrite list_elem_of_In, in_rev, <- list_elem_of_In. }
  rewrite try_map_rows by done. simpl. rewrite length_map, Hlen.
  replace (limit <? Z.of_nat (S (Z.to_nat limit) `min` length before))
    with (limit <? Z.of_nat (length before))
    by (destruct (Z.ltb_spec limit (Z.of_nat (length before))); symmetry; [apply Z.ltb_lt|apply Z.ltb_ge]; lia).
  replace (limit <? Z.of_nat (length before)) with (Nat.ltb (Z.to_nat limit) (length before))
    by (destruct (Nat.ltb_spec (Z.to_nat limit) (length before)); symmetry; [apply Z.ltb_lt|apply Z.ltb_ge]; lia).
  rewrite <- (first_seq_id_rows (drop (length before - Z.to_nat limit) before))
    by (intros row Hr%subseteq_drop; by apply Hin).
  assert ((if Nat.ltb (Z.to_nat limit) (length before)
           then removelast (map f (take (S (Z.to_nat limit)) (rev before)))
           else map f (take (S (Z.to_nat limit)) (rev before)))
          = map f (rev (drop (length before - Z.to_nat limit) before))) as ->.
  { rewrite <- Hrows, rev_involutive. destruct (Nat.ltb _ _); [by rewrite map_removelast|done]. }
  by rewrite !map_rev, rev_involutive.
Qed.

Lemma below_prefix (l : list (Z * R)) bound :
  StronglySorted Z.lt l.*1 ->
  exists rest, l = List.filter (fun row => row.1 <? bound) l ++ rest
               /\ Forall (fun row => bound <= row.1) rest.
Proof.
  induction l as [|row l IH]; simpl; [by exists []|]. intros Hs.
  apply StronglySorted_inv in Hs as [Hs Hall]. destruct (Z.ltb_spec row.1 bound).
  - destruct (IH Hs) as (rest & Heq & Hr). exists rest. simpl. by rewrite <- Heq.
  - exists (row :: l). assert (List.filter (fun r => r.1 <? bound) l = []) as ->.
    { clear IH Hs. rewrite Forall_fmap in Hall. induction Hall as [|r l Hr _ IH]; [done|].
      simpl in *. destruct (Z.ltb_spec r.1 bound); [lia|done]. }
    split; [done|]. constructor; [done|]. rewrite Forall_fmap in Hall.
    eapply Forall_impl; [exact Hall|]. simpl. lia.
Qed.

Lemma below_split (l1 l2 : list (Z * R)) row :
  StronglySorted Z.lt (l1 ++ row :: l2).*1 ->
  List.filter (fun r => r.1 <? row.1) (l1 ++ row :: l2) = l1.
Proof.
  induction l1 as [|r l1 IH]; simpl; intros Hs; apply StronglySorted_inv in Hs as [Hs Hall].
  - rewrite Z.ltb_irrefl. rewrite Forall_fmap in Hall. clear Hs.
    induction Hall as [|r l Hr _ IH]; [done|]. simpl in *. destruct (Z.ltb_spec r.1 row.1); [lia|done].
  - rewrite fmap_app, Forall_app in Hall. destruct Hall as [_ Hall]. simpl in Hall.
    apply Forall_inv in Hall. destruct (Z.ltb_spec r.1 row.1); [|lia]. by rewrite IH.
Qed.

Lemma rows_before_prefix before_seq_id : exists rest, rows = rows_before before_seq_id ++ rest.
Proof.
  destruct before_seq_id as [bound|]; simpl; [|exists []; by rewrite app_nil_r].
  destruct (below_prefix rows bound rows_sorted) as (rest & Heq & _). by exists rest.
Qed.

(** What is before a page is before the oldest row of the page. *)
Lemma page_step before_seq_id limit :
  0 < limit -> limit < Z.of_nat (length (rows_before before_seq_id)) ->
  exists oldest, head (page_of before_seq_id limit) = Some oldest
    /\ rows_before before_seq_id
       = rows_before (Some oldest.1) ++ page_of before_seq_id limit
    /\ length (page_of before_seq_id limit) = Z.to_nat limit.
Proof.
  intros Hpos Hlim. unfold page_of. set (before := rows_before before_seq_id) in *.
  destruct (drop (length before - Z.to_nat limit) before) as [|row page] eqn:E.
  { apply (f_equal length) in E. rewrite length_drop in E. simpl in E. lia. }
  exists row. split; [done|]. rewrite <- E. split; [|rewrite length_drop; lia].
  rewrite <- (take_drop (length before - Z.to_nat limit) before) at 1. f_equal. simpl.
  destruct (rows_before_prefix before_seq_id) as [rest Hrows]. fold before in Hrows.
  assert (rows = take (length before - Z.to_nat limit) before ++ row :: (page ++ rest)) as Heq.
  { rewrite Hrows at 1. rewrite <- (take_drop (length before - Z.to_nat limit) before) at 1.
    by rewrite E, <- app_assoc. }
  rewrite Heq at 1. symmetry. apply below_split. by rewrite <- Heq.
Qed.

Lemma page_last before_seq_id limit :
  Z.of_nat (length (rows_before before_seq_id)) <= limit ->
  page_of before_seq_id limit = rows_before before_seq_id.
Proof.
  intros Hlim. unfold page_of.
  replace (length (rows_before before_seq_id) - Z.to_nat limit)%nat with 0%nat by lia. done.
Qed.
End pages.
