(* ===== verification/Transcript.v ===== *)
(** * The transcript of a branch, whole and by pages ([bt-session], [bt-server],
    [bt-tui])

    [message_projection] holds exactly the messages of the log, so the two
    ways of reading a branch can be compared: the unpaged
    [load_messages_for_branch], and [load_full_transcript] of
    [bt-tui/src/session_loader.rs], which asks the server for one page of
    messages and one page of operator commands at a time and moves both
    positions to the oldest row of either page. *)

From stdpp Require Import base list strings gmap sorting.
From Stdlib Require Import ZArith Lia.
From S2P Require Import Prelude Text Json Types Messages TurnProjection Store StoreOps.
From S2P Require Import StoreRelated StoreLaws StoreReplay StoreQueue StoreQueries StorePaging.

#[local] Open Scope Z_scope.

(** ** The message table is the log's messages *)

Section messages.
Context `{codec : RowCodec}.

(** The row an event of the log has in the table. *)
Definition logged_message (event : EventEnvelope) (row : MessageRow) : Prop :=
  mr_session_id row = ev_session_id event /\ mr_branch_id row = ev_branch_id event
  /\ ev_payload event = MessageAppended (mr_message row).

Definition messages_logged (db : Db) : Prop :=
  forall event_id row, db_messages db !! event_id = Some row ->
    exists logged, logged ∈ db_events db /\ ev_event_id logged.2 = event_id
      /\ logged_message logged.2 row.

Lemma payload_messages event seq_id db u db' :
  refresh_payload event seq_id db = Ok (u, db') ->
  db_messages db' = db_messages db
  \/ exists row, db_messages db' = <[ev_event_id event := row]> (db_messages db)
       /\ logged_message event row.
Proof.
  intros H. payload_cases H; try by left.
  right. eexists. split; [done|]. by repeat split.
Qed.

Lemma reachable_messages db : reachable db -> messages_logged db.
Proof.
  revert db. apply (reachable_ind messages_logged).
  - intros id row H. done.
  - intros db db' Hs H id row. rewrite (st_messages _ _ Hs), (st_events _ _ Hs). apply H.
  - intros event db seq_id db' IH H id row Hrow. pose proof (append_log _ _ _ _ H) as (_ & _ & Hlog & _).
    apply append_event_Ok in H as (_ & _ & now & turns & _ & _ & H).
    apply payload_messages in H as [Heq|(row' & Heq & Hm)]; rewrite Heq in Hrow; simpl in Hrow.
    + destruct (IH _ _ Hrow) as (l & Hl & ?). exists l. split; [|done].
      rewrite Hlog. apply elem_of_app. by left.
    + apply lookup_insert_Some in Hrow as [[<- <-]|[_ Hrow]].
      * exists (seq_id, event). split; [|done]. rewrite Hlog. apply elem_of_app. right. by left.
      * destruct (IH _ _ Hrow) as (l & Hl & ?). exists l. split; [|done].
        rewrite Hlog. apply elem_of_app. by left.
Qed.

(** The join never pairs an event with another event's row. *)
Lemma message_rows_logged db r :
  reachable db -> r ∈ message_rows db -> r.1 ∈ db_events db /\ logged_message r.1.2 r.2.
Proof.
  intros Hr Hin. unfold message_rows in Hin. apply list_elem_of_omap in Hin as (l & Hl & Heq).
  destruct (db_messages db !! ev_event_id l.2) as [row|] eqn:E; simpl in Heq; [|done].
  injection Heq as <-. simpl. split; [done|].
  destruct (reachable_messages db Hr _ _ E) as (l' & Hl' & Hid & Hm).
  replace l' with l in Hm; [done|].
  destruct (reachable_log_ok db Hr) as [_ _ _ Hids _].
  apply list_elem_of_lookup in Hl as [i Hi], Hl' as [j Hj].
  assert (i = j) as ->; [|congruence].
  eapply NoDup_lookup; [exact Hids|rewrite list_lookup_fmap, Hi; done|].
  rewrite list_lookup_fmap, Hj. simpl. by rewrite Hid.
Qed.

Lemma sorted_sublist (l l' : list Z) :
  l' `sublist_of` l -> StronglySorted Z.lt l -> StronglySorted Z.lt l'.
Proof.
  induction 1 as [|x l1 l2 Hsub IH|x l1 l2 Hsub IH]; intros Hs; [done| |];
    apply StronglySorted_inv in Hs as [Hs Hall]; [|by apply IH].
  constructor; [by apply IH|]. rewrite Forall_forall in *. intros y Hy. apply Hall.
  by eapply sublist_subseteq.
Qed.

Lemma filter_sublist {A} (p : A -> bool) (l : list A) : List.filter p l `sublist_of` l.
Proof. induction l as [|a l IH]; simpl; [constructor|]. destruct (p a); by constructor. Qed.

Definition row_seq (r : Z * EventEnvelope * MessageRow) : Z := r.1.1.

Lemma message_rows_sublist db : (row_seq <$> message_rows db) `sublist_of` (db_events db).*1.
Proof.
  unfold message_rows. induction (db_events db) as [|x l IH]; simpl; [constructor|].
  destruct (db_messages db !! ev_event_id x.2); simpl; by constructor.
Qed.

(** Rows that are filtered stay in the order of the log. *)
Lemma filtered_rows_sorted db p :
  reachable db -> StronglySorted Z.lt (row_seq <$> List.filter p (message_rows db)).
Proof.
  intros Hr. eapply sorted_sublist; [|exact (lo_sorted _ (reachable_log_ok db Hr))].
  etrans; [|apply message_rows_sublist]. apply fmap_sublist, filter_sublist.
Qed.

Lemma sorted_same_elements {A} (key : A -> Z) l l' :
  StronglySorted Z.lt (key <$> l) -> StronglySorted Z.lt (key <$> l') ->
  (forall a, a ∈ l <-> a ∈ l') -> l = l'.
Proof.
  intros Hl Hl' Hin. pose (R a b := key a < key b).
  assert (forall k, StronglySorted Z.lt (key <$> k) -> StronglySorted R k /\ NoDup k) as Hboth.
  { intros k. induction k as [|a k IH]; intros Hs; [by repeat constructor|].
    simpl in Hs. apply StronglySorted_inv in Hs as [Hs Hall]. rewrite Forall_fmap in Hall.
    destruct (IH Hs). split; constructor; try done.
    intros Ha. rewrite Forall_forall in Hall. specialize (Hall _ Ha). simpl in Hall. lia. }
  destruct (Hboth l Hl) as [H1 H2], (Hboth l' Hl') as [H3 H4].
  apply (StronglySorted_unique_strong R); [unfold R; lia|done..|].
  by apply NoDup_Permutation.
Qed.
End messages.

(** ** The rows of a lineage *)

Section lineage.
Context `{codec : RowCodec}.

(** A fork of [parent] as the runtime makes one: at an event of the parent,
    before all events of its own. *)
Definition fork_in_order (db : Db) (parent child : BranchRecord) : Prop :=
  exists seq_id event,
    br_parent_event_id child = Some (ev_event_id event)
    /\ (seq_id, event) ∈ db_events db /\ ev_branch_id event = br_branch_id parent
    /\ forall logged, logged ∈ db_events db -> ev_branch_id logged.2 = br_branch_id child ->
         seq_id < logged.1.

Fixpoint forks_in_order (db : Db) (lineage : list BranchRecord) : Prop :=
  match lineage with
  | parent :: (child :: _) as rest => fork_in_order db parent child /\ forks_in_order db rest
  | _ => True
  end.

(** The rows [load_messages_for_branch] goes through. *)
Definition lineage_rows (session_id : SessionId) (lineage : list BranchRecord) (db : Db)
    : list (Z * EventEnvelope * MessageRow) :=
  concat (map (fun b => exact_branch_rows session_id (br_branch_id b.1) b.2 db)
    (with_upper_bounds lineage)).

Lemma seq_id_of_logged db seq_id event :
  reachable db -> (seq_id, event) ∈ db_events db ->
  seq_id_of_event (ev_event_id event) db = Some seq_id.
Proof.
  intros Hr Hin. unfold seq_id_of_event. destruct (reachable_log_ok db Hr) as [_ _ _ Hids _].
  destruct (find_first _ _) as [l|] eqn:E; simpl.
  - apply find_first_Some in E as [Hl Hid]. apply bool_decide_eq_true in Hid.
    apply list_elem_of_lookup in Hin as [i Hi], Hl as [j Hj].
    assert (i = j) as ->; [|rewrite Hi in Hj; by injection Hj as <-].
    eapply NoDup_lookup; [exact Hids|rewrite list_lookup_fmap, Hi; done|].
    rewrite list_lookup_fmap, Hj. simpl. by rewrite Hid.
  - exfalso. induction (db_events db) as [|x l IH]; [by apply elem_of_nil in Hin|].
    unfold find_first in *. simpl in *. case_bool_decide as Hx; [done|].
    apply elem_of_cons in Hin as [<-|Hin]; [by destruct Hx|]. apply IH; try done.
    by apply NoDup_cons in Hids as [_ ?].
Qed.

Lemma elem_of_exact_rows db session_id branch_id bound r :
  reachable db ->
  r ∈ exact_branch_rows session_id branch_id bound db <->
  r ∈ message_rows db /\ mr_session_id r.2 = session_id /\ ev_branch_id r.1.2 = branch_id
  /\ up_to bound db (row_seq r) = true.
Proof.
  intros Hr. unfold exact_branch_rows, in_branch.
  rewrite list_elem_of_In, filter_In, <- list_elem_of_In, !andb_true_iff, !bool_decide_eq_true.
  split.
  - intros (Hin & [Hs Hb] & Hup). destruct (message_rows_logged _ _ Hr Hin) as (_ & _ & <- & _).
    done.
  - intros (Hin & Hs & Hb & Hup). destruct (message_rows_logged _ _ Hr Hin) as (_ & _ & -> & _).
    done.
Qed.

(** The rows of a lineage whose forks are in order are in order. *)
Lemma lineage_rows_sorted db session_id lineage :
  reachable db -> forks_in_order db lineage ->
  StronglySorted Z.lt (row_seq <$> lineage_rows session_id lineage db)
  /\ forall low, (forall logged, logged ∈ db_events db ->
                    (branch ← head lineage; Some (br_branch_id branch))
                      = Some (ev_branch_id logged.2) -> low < logged.1) ->
       Forall (fun r => low < row_seq r) (lineage_rows session_id lineage db).
Proof.
  intros Hr. induction lineage as [|parent [|child rest] IH]; intros Hforks.
  - split; constructor.
  - unfold lineage_rows. simpl. rewrite app_nil_r. split; [by apply filtered_rows_sorted|].
    intros low Hlow. apply Forall_forall. intros r Hin. apply elem_of_exact_rows in Hin as (Hin & _ & Hb & _); [|done].
    destruct (message_rows_logged _ _ Hr Hin) as [Hlog _]. apply (Hlow _ Hlog). simpl. by rewrite Hb.
  - destruct Hforks as [(q & event & Hparent & Hlog & Hbranch & Hafter) Hforks].
    destruct (IH Hforks) as [Hs Hlow]. clear IH.
    assert (lineage_rows session_id (parent :: child :: rest) db
            = exact_branch_rows session_id (br_branch_id parent) (Some (ev_event_id event)) db
              ++ lineage_rows session_id (child :: rest) db) as ->.
    { unfold lineage_rows. simpl. by rewrite Hparent. }
    assert (Forall (fun r => q < row_seq r) (lineage_rows session_id (child :: rest) db)) as Hrest.
    { apply Hlow. intros l Hl [= Hb]. by apply Hafter. }
    assert (forall r, r ∈ exact_branch_rows session_id (br_branch_id parent)
              (Some (ev_event_id event)) db -> row_seq r <= q) as Hfirst.
    { intros r Hin. apply elem_of_exact_rows in Hin as (_ & _ & _ & Hup); [|done]. simpl in Hup.
      rewrite (seq_id_of_logged _ _ _ Hr Hlog) in Hup. simpl in Hup. by apply Z.leb_le. }
    split.
    + rewrite fmap_app. apply StronglySorted_app. split_and!; [|by apply filtered_rows_sorted|done].
      intros x y (r & -> & Hx)%list_elem_of_fmap (r' & -> & Hy)%list_elem_of_fmap.
      apply Hfirst in Hx. rewrite Forall_forall in Hrest. apply Hrest in Hy. simpl in *. lia.
    + intros low Hl. apply Forall_app. split.
      * apply Forall_forall. intros r Hin. apply elem_of_exact_rows in Hin as (Hin & _ & Hb & _); [|done].
        destruct (message_rows_logged _ _ Hr Hin) as [Hin' _]. apply (Hl _ Hin'). simpl. by rewrite Hb.
      * eapply Forall_impl; [exact Hrest|]. simpl. intros r Hq.
        specialize (Hl _ Hlog). simpl in Hl. rewrite Hbranch in Hl. specialize (Hl eq_refl). lia.
Qed.

(** The bound of a branch as [branch_lineage_bounds] resolves it. *)
Definition resolved (db : Db) (b : BranchRecord * option EventId) : BranchId * option Z :=
  (br_branch_id b.1, event_id ← b.2; seq_id_of_event event_id db).

Lemma forks_bounded db lineage :
  reachable db -> forks_in_order db lineage ->
  Forall (fun b => forall event_id, b.2 = Some event_id ->
            is_Some (seq_id_of_event event_id db)) (with_upper_bounds lineage).
Proof.
  intros Hr. induction lineage as [|parent [|child rest] IH]; intros Hforks; simpl.
  - constructor.
  - constructor; [done|constructor].
  - destruct Hforks as [(q & event & Hparent & Hlog & _) Hforks].
    constructor; [|by apply IH]. simpl. rewrite Hparent. intros _ [= <-].
    rewrite (seq_id_of_logged _ _ _ Hr Hlog). eauto.
Qed.

Lemma bounds_resolved db bounded :
  Forall (fun b : BranchRecord * option EventId => forall event_id, b.2 = Some event_id ->
            is_Some (seq_id_of_event event_id db)) bounded ->
  try_map (fun b : BranchRecord * option EventId =>
    bound ← match b.2 with
            | None => Ok None
            | Some event_id => seq_id ← event_seq_id event_id db; Ok (Some seq_id)
            end;
    Ok (br_branch_id b.1, bound)) bounded = Ok (map (resolved db) bounded).
Proof.
  induction 1 as [|[branch bound] l Hb _ IH]; [done|]. simpl. rewrite IH. simpl.
  destruct bound as [event_id|]; simpl; [|done].
  destruct (Hb _ eq_refl) as [q Hq]. simpl in *. unfold event_seq_id, resolved. simpl.
  by rewrite Hq.
Qed.

Lemma lineage_filter_resolved db bounded logged :
  Forall (fun b : BranchRecord * option EventId => forall event_id, b.2 = Some event_id ->
            is_Some (seq_id_of_event event_id db)) bounded ->
  lineage_filter (map (resolved db) bounded) logged = true
  <-> exists b, b ∈ bounded /\ ev_branch_id logged.2 = br_branch_id b.1
                /\ up_to b.2 db logged.1 = true.
Proof.
  intros Hall. unfold lineage_filter, any. rewrite existsb_exists. split.
  - intros (r & Hin & Hb). rewrite <- list_elem_of_In in Hin.
    apply list_elem_of_fmap in Hin as (b & -> & Hin).
    apply andb_true_iff in Hb as [Hbr%bool_decide_eq_true Hup]. exists b. split_and!; [done|done|].
    unfold up_to. unfold resolved in Hup. simpl in Hup.
    rewrite Forall_forall in Hall. specialize (Hall _ Hin).
    destruct b.2 as [event_id|]; [|done]. destruct (Hall _ eq_refl) as [q Hq].
    simpl in Hup. rewrite Hq in *. simpl in *. exact Hup.
  - intros (b & Hin & Hbr & Hup). exists (resolved db b). rewrite <- list_elem_of_In. split.
    { apply list_elem_of_fmap. by exists b. }
    apply andb_true_iff. rewrite bool_decide_eq_true. split; [done|].
    unfold up_to in Hup. unfold resolved. simpl.
    destruct b.2 as [event_id|]; [|done]. simpl in *. destruct (seq_id_of_event event_id db); simpl in *; [exact Hup|discriminate].
Qed.

Lemma elem_of_concat {A} (l : list (list A)) a : a ∈ concat l <-> exists k, k ∈ l /\ a ∈ k.
Proof.
  rewrite list_elem_of_In, in_concat.
  split; intros (k & Hk & Ha); exists k; rewrite ?list_elem_of_In in *; done.
Qed.

(** The query of the pages and the loop of [load_messages_for_branch] go
    through the same rows in the same order. *)
Lemma page_rows_are_lineage_rows db session_id branch_id lineage :
  reachable db -> branch_lineage session_id branch_id db = Some (Ok lineage) ->
  forks_in_order db lineage ->
  exists bounds, branch_lineage_bounds session_id branch_id db = Some (Ok bounds)
    /\ message_page_rows session_id bounds db
       = map (fun r => (row_seq r, mr_message r.2)) (lineage_rows session_id lineage db).
Proof.
  intros Hr Hlineage Hforks. pose proof (forks_bounded _ _ Hr Hforks) as Hb.
  exists (map (resolved db) (with_upper_bounds lineage)). split.
  { unfold branch_lineage_bounds. rewrite Hlineage. simpl. by rewrite bounds_resolved. }
  unfold message_page_rows. f_equal. apply (sorted_same_elements row_seq).
  - by apply filtered_rows_sorted.
  - by apply lineage_rows_sorted.
  - intros r. rewrite list_elem_of_In, filter_In, <- list_elem_of_In, andb_true_iff,
      bool_decide_eq_true, lineage_filter_resolved by done.
    unfold lineage_rows. rewrite elem_of_concat. split.
    + intros (Hin & Hs & b & Hbin & Hbr & Hup).
      exists (exact_branch_rows session_id (br_branch_id b.1) b.2 db).
      split; [apply list_elem_of_fmap; by exists b|by apply elem_of_exact_rows].
    + intros (rows & (b & -> & Hbin)%list_elem_of_fmap & Hin).
      apply elem_of_exact_rows in Hin as (? & ? & ? & ?); [|done].
      split_and!; [done|done|]. by exists b.
Qed.

Lemma load_messages_is_rows db message_id now session_id branch_id lineage :
  branch_lineage session_id branch_id db = Some (Ok lineage) ->
  load_messages_for_branch message_id now session_id branch_id db
  = Some (Ok (option_list (branch_summary_message message_id now lineage)
              ++ map (fun r => mr_message r.2) (lineage_rows session_id lineage db))).
Proof.
  intros H. unfold load_messages_for_branch. rewrite H. simpl. do 3 f_equal.
  unfold lineage_rows. rewrite concat_map, map_map. done.
Qed.
End lineage.

(** ** The server's pages ([bt-server/src/main.rs], [runtime/queries.rs]) *)

Definition DEFAULT_TRANSCRIPT_PAGE_LIMIT : Z := 200.
Definition MAX_TRANSCRIPT_PAGE_LIMIT : Z := 500.

Definition transcript_page_limit (limit : option string) : Z :=
  clamp 1 MAX_TRANSCRIPT_PAGE_LIMIT
    (default DEFAULT_TRANSCRIPT_PAGE_LIMIT (limit ≫= parse_unsigned U64_MAX)).

(** [load_session_inspection_metrics(session_id)?.last_seq_id] *)
Definition last_session_seq_id (session_id : SessionId) (db : Db) : option Z :=
  fst <$> last (List.filter (in_session session_id) (db_events db)).

(** ** The client's loader ([bt-tui/src/session_loader.rs],
    [transcript_helpers.rs], [transcript_view.rs]) *)

Definition TRANSCRIPT_PAGE_LIMIT : Z := 200.

Record RecordedOperatorCommand : Type := MkRecordedOperatorCommand {
  rc_seq_id : option Z;
  rc_occurred_at : OffsetDateTime;
  rc_command_type : string;
  rc_raw_input : string;
  rc_output : string;
  rc_success : bool;
}.

Record LoadedTranscriptPage : Type := MkLoadedTranscriptPage {
  lt_messages : list Message;
  lt_message_seq_ids : list (option Z);
  lt_operator_commands : list RecordedOperatorCommand;
  lt_has_more_before : bool;
  lt_last_event_id : option Z;
}.

(** [compare_transcript_seq_ids], not [Greater] *)
Definition seq_ids_le (older newer : option Z) : Prop :=
  match older, newer with
  | Some older, Some newer => older <= newer
  | _, None => True
  | None, Some _ => False
  end.
#[export] Instance seq_ids_le_dec older newer : Decision (seq_ids_le older newer).
Proof. destruct older, newer; simpl; apply _. Defined.

Definition transcript_entry_le (a b : option Z * Message) : Prop := seq_ids_le a.1 b.1.
#[export] Instance transcript_entry_le_dec a b : Decision (transcript_entry_le a b).
Proof. unfold transcript_entry_le. apply _. Defined.

Definition command_le (a b : RecordedOperatorCommand) : Prop :=
  seq_ids_le (rc_seq_id a) (rc_seq_id b).
#[export] Instance command_le_dec a b : Decision (command_le a b).
Proof. unfold command_le. apply _. Defined.

Definition same_seq_id (older newer : option Z) : bool :=
  bool_decide (is_Some older) && bool_decide (older = newer).

Definition same_entry (older newer : option Z * Message) : bool :=
  same_seq_id older.1 newer.1 || bool_decide (msg_message_id older.2 = msg_message_id newer.2).

(** [merge_messages] without an optimistic user text; the messages and their
    sequence numbers. *)
Definition merge_messages (existing_messages : list Message) (existing_seq_ids : list (option Z))
    (incoming_messages : list Message) (incoming_seq_ids : list (option Z))
    : list Message * list (option Z) :=
  let drained_seq_ids := resize (length existing_messages) None existing_seq_ids in
  let entries := zip drained_seq_ids existing_messages
                 ++ zip incoming_seq_ids incoming_messages in
  let entries := dedup_by same_entry (merge_sort transcript_entry_le entries) in
  (entries.*2, entries.*1).

(** [merge_operator_commands] *)
Definition merge_operator_commands (existing incoming : list RecordedOperatorCommand)
    : list RecordedOperatorCommand :=
  dedup_by (fun older newer => same_seq_id (rc_seq_id older) (rc_seq_id newer))
    (merge_sort command_le (existing ++ incoming)).

Section loader.
Context `{codec : RowCodec}.
(** The id and the time of a branch's summary, which the server renews at
    every load; a client knows the summary by its sequence number. *)
Context (message_id : MessageId) (now : OffsetDateTime).

(** [load_transcript_page], with both requests served from one state of the
    database; [None] when the server does not answer. *)
Definition load_transcript_page (session_id : SessionId) (branch_id : BranchId)
    (before_seq : option Z) (db : Db) : option (Result LoadedTranscriptPage) :=
  let limit := transcript_page_limit (Some (show_Z TRANSCRIPT_PAGE_LIMIT)) in
  messages ← load_branch_messages_page message_id now session_id branch_id before_seq limit db;
  commands ← load_branch_operator_commands_page session_id branch_id before_seq limit db;
  Some (messages ← messages;
        commands ← commands;
        Ok {| lt_messages := map sm_message (tp_items messages);
              lt_message_seq_ids := map (fun entry => Some (sm_seq_id entry)) (tp_items messages);
              lt_operator_commands :=
                map (fun c => MkRecordedOperatorCommand (Some (oc_seq_id c)) (oc_occurred_at c)
                                (oc_command_type c) (oc_raw_input c) (oc_output c)
                                (oc_success c)) (tp_items commands);
              lt_has_more_before := tp_has_more_before messages || tp_has_more_before commands;
              lt_last_event_id := last_session_seq_id session_id db |}).

Definition min_seq (l : list Z) : option Z :=
  match l with [] => None | z :: l => Some (fold_left Z.min l z) end.

(** [oldest_seq] of a page: the older of its oldest message and its oldest
    command. *)
Definition page_oldest_seq (page : LoadedTranscriptPage) : option Z :=
  let oldest_message := min_seq (omap id (lt_message_seq_ids page)) in
  let oldest_command := min_seq (omap rc_seq_id (lt_operator_commands page)) in
  match oldest_message, oldest_command with
  | Some older, Some newer => Some (Z.min older newer)
  | Some older, None => Some older
  | None, Some newer => Some newer
  | None, None => None
  end.

(** One turn of the [loop], before the tests that end it. *)
Definition merge_page (combined page : LoadedTranscriptPage) : LoadedTranscriptPage :=
  let '(messages, seq_ids) :=
    merge_messages (lt_messages combined) (lt_message_seq_ids combined) (lt_messages page)
      (lt_message_seq_ids page) in
  {| lt_messages := messages;
     lt_message_seq_ids := seq_ids;
     lt_operator_commands :=
       merge_operator_commands (lt_operator_commands combined) (lt_operator_commands page);
     lt_has_more_before := false;
     lt_last_event_id := match lt_last_event_id combined with
                         | None => lt_last_event_id page
                         | Some id => Some id
                         end |}.

Fixpoint load_transcript_loop (fuel : nat) (session_id : SessionId) (branch_id : BranchId)
    (db : Db) (combined : LoadedTranscriptPage) (before_seq : option Z)
    : option (Result LoadedTranscriptPage) :=
  match fuel with
  | O => None
  | S fuel =>
      loaded ← load_transcript_page session_id branch_id before_seq db;
      match loaded with
      | Err e => Some (Err e)
      | Ok page =>
          let combined := merge_page combined page in
          if lt_has_more_before page
          then match page_oldest_seq page with
               | Some next => load_transcript_loop fuel session_id branch_id db combined (Some next)
               | None => Some (Ok combined)
               end
          else Some (Ok combined)
      end
  end.

Definition empty_transcript : LoadedTranscriptPage :=
  {| lt_messages := []; lt_message_seq_ids := []; lt_operator_commands := [];
     lt_has_more_before := false; lt_last_event_id := None |}.

(** [load_full_transcript] *)
Definition load_full_transcript (session_id : SessionId) (branch_id : BranchId) (db : Db)
    : option (Result LoadedTranscriptPage) :=
  load_transcript_loop (S (length (db_events db) + length (db_events db))) session_id branch_id db empty_transcript
    None.
End loader.

(** ** What the loader returns *)

Section loaded.
Context `{codec : RowCodec} {laws : RowCodecLaws}.
Context (message_id : MessageId) (now : OffsetDateTime).
Context (db : Db) (session_id : SessionId) (branch_id : BranchId).
Context (lineage : list BranchRecord) (bounds : list (BranchId * option Z)).
Hypothesis db_reachable : reachable db.
Hypothesis has_lineage : branch_lineage session_id branch_id db = Some (Ok lineage).
Hypothesis has_bounds : branch_lineage_bounds session_id branch_id db = Some (Ok bounds).

Let messages := message_page_rows session_id bounds db.
Let commands := command_page_rows session_id bounds db.
Let summary := branch_summary_message message_id now lineage.

Lemma message_rows_sorted : StronglySorted Z.lt messages.*1.
Proof.
  subst messages. unfold message_page_rows. rewrite <- list_fmap_compose.
  by apply filtered_rows_sorted.
Qed.

Lemma message_rows_positive : Forall (fun row => 0 < row.1) messages.
Proof.
  apply Forall_forall. intros row (r & -> & Hin)%list_elem_of_fmap.
  rewrite list_elem_of_In, filter_In, <- list_elem_of_In in Hin. destruct Hin as [Hin _].
  apply message_rows_logged in Hin as [Hlog _]; [|done].
  destruct (reachable_log_ok db db_reachable) as [_ Hrange _ _ _].
  rewrite Forall_forall in Hrange. simpl. apply (Hrange _ Hlog).
Qed.

Lemma command_rows_logged row : row ∈ commands -> row ∈ db_events db.
Proof. unfold commands, command_page_rows. rewrite !list_elem_of_In, filter_In. by intros [? _]. Qed.

Lemma command_rows_sorted : StronglySorted Z.lt commands.*1.
Proof.
  eapply sorted_sublist; [|exact (lo_sorted _ (reachable_log_ok db db_reachable))].
  apply fmap_sublist, filter_sublist.
Qed.

Lemma command_rows_positive : Forall (fun row => 0 < row.1) commands.
Proof.
  apply Forall_forall. intros row Hin%command_rows_logged.
  destruct (reachable_log_ok db db_reachable) as [_ Hrange _ _ _].
  rewrite Forall_forall in Hrange. apply (Hrange _ Hin).
Qed.

Definition message_record (row : Z * Message) : SequencedMessageRecord :=
  MkSequencedMessage row.1 row.2.

Definition command_record (logged : Z * EventEnvelope) : RecordedOperatorCommandRecord :=
  match ev_payload logged.2 with
  | OperatorCommandRecorded command_type raw_input output success =>
      MkOperatorCommand logged.1 (ev_occurred_at logged.2) command_type raw_input output success
  | _ => MkOperatorCommand logged.1 (ev_occurred_at logged.2) "" "" "" false
  end.

Lemma command_record_seq logged : oc_seq_id (command_record logged) = logged.1.
Proof. unfold command_record. by destruct (ev_payload logged.2). Qed.

Lemma command_rows_parse : Forall (fun row => command_row row = Ok (command_record row)) commands.
Proof.
  apply Forall_forall. intros row Hin. pose proof (command_rows_logged _ Hin) as Hlog.
  unfold commands, command_page_rows in Hin. rewrite list_elem_of_In, filter_In in Hin.
  destruct Hin as [_ Hp]. rewrite !andb_true_iff in Hp. destruct Hp as [[_ Hk] _].
  destruct (reachable_log_ok db db_reachable) as [_ _ _ _ Hrefs].
  rewrite Forall_forall in Hrefs. destruct (Hrefs _ Hlog) as (_ & _ & [s Hs]).
  unfold command_row, command_record. rewrite Hs. simpl. rewrite (parse_format_time _ _ Hs). simpl.
  unfold is_operator_command in Hk. by destruct (ev_payload row.2).
Qed.

(** The sequence numbers a page of messages carries. *)
Definition page_seq_ids (before : option Z) : list (option Z) :=
  map (fun row => Some row.1) (page_of messages before TRANSCRIPT_PAGE_LIMIT).

Definition is_last_page (before : option Z) : bool :=
  Z.of_nat (length (rows_before messages before)) <=? TRANSCRIPT_PAGE_LIMIT.

Definition client_command (logged : Z * EventEnvelope) : RecordedOperatorCommand :=
  let c := command_record logged in
  MkRecordedOperatorCommand (Some (oc_seq_id c)) (oc_occurred_at c) (oc_command_type c)
    (oc_raw_input c) (oc_output c) (oc_success c).

Lemma load_transcript_page_spec before :
  let shown := if is_last_page before then option_list summary else [] in
  load_transcript_page message_id now session_id branch_id before db
  = Some (Ok
      {| lt_messages := shown ++ map snd (page_of messages before TRANSCRIPT_PAGE_LIMIT);
         lt_message_seq_ids := map (fun _ => Some 0) shown ++ page_seq_ids before;
         lt_operator_commands :=
           map client_command (page_of commands before TRANSCRIPT_PAGE_LIMIT);
         lt_has_more_before :=
           (TRANSCRIPT_PAGE_LIMIT <? Z.of_nat (length (rows_before messages before)))
           || (TRANSCRIPT_PAGE_LIMIT <? Z.of_nat (length (rows_before commands before)));
         lt_last_event_id := last_session_seq_id session_id db |}).
Proof.
  intros shown. unfold load_transcript_page.
  replace (transcript_page_limit (Some (show_Z TRANSCRIPT_PAGE_LIMIT)))
    with TRANSCRIPT_PAGE_LIMIT by (vm_compute; reflexivity).
  unfold load_branch_messages_page, load_branch_operator_commands_page.
  rewrite has_lineage, has_bounds. simpl.
  fold messages commands.
  rewrite (load_page_rows_spec messages _ message_record); cycle 1.
  { apply message_rows_sorted. }
  { apply Forall_forall. done. }
  { eapply Forall_impl; [exact message_rows_positive|]. intros row Hrow. simpl in *.
    destruct (Z.ltb_spec 0 row.1); [done|lia]. }
  { unfold TRANSCRIPT_PAGE_LIMIT, I64_MAX. lia. }
  rewrite (load_page_rows_spec commands _ command_record); cycle 1.
  { apply command_rows_sorted. }
  { apply command_rows_parse. }
  { apply Forall_forall. intros row _. simpl. by rewrite command_record_seq. }
  { unfold TRANSCRIPT_PAGE_LIMIT, I64_MAX. lia. }
  simpl. fold summary.
  assert ((if TRANSCRIPT_PAGE_LIMIT <? Z.of_nat (length (rows_before messages before))
           then None else summary) = (if is_last_page before then summary else None)) as ->.
  { unfold is_last_page. rewrite Z.leb_antisym. by destruct (_ <? _). }
  subst shown. unfold page_seq_ids. destruct (is_last_page before); simpl.
  - destruct summary; simpl; rewrite ?map_map; reflexivity.
  - rewrite ?map_map. reflexivity.
Qed.

(** The rows still to be read before a position. *)
Definition rows_left (before : option Z) : nat :=
  length (rows_before messages before) + length (rows_before commands before).

Lemma min_seq_Some l : min_seq l = None <-> l = [].
Proof. by destruct l. Qed.

Lemma min_seq_spec l z : min_seq l = Some z -> z ∈ l /\ Forall (fun y => z <= y) l.
Proof.
  destruct l as [|x l]; [done|]. simpl. intros [= <-]. revert x.
  induction l as [|y l IH]; intros x; simpl.
  - split; [by left|]. by repeat constructor.
  - destruct (IH (Z.min x y)) as [Hin Hall]. apply Forall_cons in Hall as [Hx Hall]. split.
    + apply elem_of_cons in Hin as [->|Hin]; [|right; by right].
      destruct (Z.min_spec x y) as [[_ ->]|[_ ->]]; [by left|right; by left].
    + repeat constructor; [lia|lia|]. done.
Qed.

(** [oldest_seq] of a page is one of its rows, or the summary's number, and
    no row of the page is older. *)
Lemma page_oldest_seq_spec page :
  match page_oldest_seq page with
  | None => omap id (lt_message_seq_ids page) = []
            /\ omap rc_seq_id (lt_operator_commands page) = []
  | Some z => (z ∈ omap id (lt_message_seq_ids page)
               \/ z ∈ omap rc_seq_id (lt_operator_commands page))
              /\ Forall (fun y => z <= y) (omap id (lt_message_seq_ids page))
              /\ Forall (fun y => z <= y) (omap rc_seq_id (lt_operator_commands page))
  end.
Proof.
  unfold page_oldest_seq.
  destruct (min_seq (omap id (lt_message_seq_ids page))) as [a|] eqn:Ha;
    destruct (min_seq (omap rc_seq_id (lt_operator_commands page))) as [b|] eqn:Hb;
    rewrite ?min_seq_Some in *;
    repeat match goal with H : min_seq _ = Some _ |- _ => apply min_seq_spec in H as [? ?] end.
  - split_and!.
    + destruct (Z.min_spec a b) as [[_ ->]|[_ ->]]; [by left|by right].
    + eapply Forall_impl; [eassumption|]. simpl. lia.
    + eapply Forall_impl; [eassumption|]. simpl. lia.
  - rewrite Hb. split_and!; [by left|done|constructor].
  - rewrite Ha. split_and!; [by right|constructor|done].
  - done.
Qed.

Lemma omap_seq_ids (l : list (Z * Message)) : omap id (map (fun row => Some row.1) l) = l.*1.
Proof. induction l as [|row l IH]; [done|]. simpl. f_equal. exact IH. Qed.

Lemma omap_command_ids (l : list (Z * EventEnvelope)) :
  omap rc_seq_id (map client_command l) = l.*1.
Proof.
  induction l as [|row l IH]; [done|]. simpl. rewrite command_record_seq. f_equal. exact IH.
Qed.

Lemma rows_before_mono {R} (rows : list (Z * R)) a b :
  a <= b -> (length (rows_before rows (Some a)) <= length (rows_before rows (Some b)))%nat.
Proof.
  intros Hab. simpl. induction rows as [|row rows IH]; simpl; [done|].
  destruct (Z.ltb_spec row.1 a), (Z.ltb_spec row.1 b); simpl; lia.
Qed.

Lemma rows_before_all {R} (rows : list (Z * R)) before :
  (length (rows_before rows before) <= length rows)%nat.
Proof.
  destruct before as [b|]; simpl; [|done]. induction rows as [|row rows IH]; simpl; [done|].
  destruct (Z.ltb_spec row.1 b); simpl; lia.
Qed.

Lemma rows_before_zero {R} (rows : list (Z * R)) :
  Forall (fun row => 0 < row.1) rows -> rows_before rows (Some 0) = [].
Proof.
  simpl. induction 1 as [|row rows Hrow _ IH]; simpl; [done|].
  destruct (Z.ltb_spec row.1 0); [lia|done].
Qed.

Lemma page_of_before {R} (rows : list (Z * R)) before limit row :
  row ∈ page_of rows before limit ->
  match before with None => True | Some b => row.1 < b end.
Proof.
  unfold page_of. intros Hin%subseteq_drop. destruct before as [b|]; [|done]. simpl in Hin.
  rewrite list_elem_of_In, filter_In in Hin. destruct Hin as [_ Hb]. by apply Z.ltb_lt.
Qed.

(** Moving a position to something no newer than the oldest row of a page
    that is not the last leaves fewer rows. *)
Lemma rows_before_decrease {R} (rows : list (Z * R)) before z :
  StronglySorted Z.lt rows.*1 ->
  TRANSCRIPT_PAGE_LIMIT < Z.of_nat (length (rows_before rows before)) ->
  Forall (fun y => z <= y) (page_of rows before TRANSCRIPT_PAGE_LIMIT).*1 ->
  (length (rows_before rows (Some z)) < length (rows_before rows before))%nat.
Proof.
  intros Hs Hlong Hall.
  destruct (page_step rows Hs before TRANSCRIPT_PAGE_LIMIT) as (oldest & Hhead & Hsplit & Hlen);
    [done|done|].
  destruct (page_of rows before TRANSCRIPT_PAGE_LIMIT) as [|o page] eqn:E; [done|].
  injection Hhead as ->. apply Forall_cons in Hall as [Hz _].
  pose proof (rows_before_mono rows _ _ Hz).
  apply (f_equal length) in Hsplit. rewrite length_app in Hsplit. simpl in *. lia.
Qed.

Lemma rows_before_no_more {R} (rows : list (Z * R)) before z :
  Forall (fun row => 0 < row.1) rows ->
  z = 0 \/ match before with None => True | Some b => z < b end ->
  (length (rows_before rows (Some z)) <= length (rows_before rows before))%nat.
Proof.
  intros Hpos [->|Hz].
  - rewrite rows_before_zero by done. simpl. lia.
  - destruct before as [b|]; [apply rows_before_mono; lia|apply rows_before_all].
Qed.

(** The next position of the loop: it leaves fewer rows, and is the number of
    a row of the page, or of the summary. *)
Lemma next_position before page z :
  load_transcript_page message_id now session_id branch_id before db = Some (Ok page) ->
  lt_has_more_before page = true -> page_oldest_seq page = Some z ->
  (rows_left (Some z) < rows_left before)%nat
  /\ (z = 0 \/ match before with None => True | Some b => z < b end).
Proof.
  rewrite load_transcript_page_spec. intros [= <-]. simpl. intros Hmore Hz.
  pose proof (page_oldest_seq_spec
    {| lt_messages := (if is_last_page before then option_list summary else [])
                        ++ map snd (page_of messages before TRANSCRIPT_PAGE_LIMIT);
       lt_message_seq_ids := map (fun _ => Some 0)
                               (if is_last_page before then option_list summary else [])
                             ++ page_seq_ids before;
       lt_operator_commands := map client_command (page_of commands before TRANSCRIPT_PAGE_LIMIT);
       lt_has_more_before :=
         (TRANSCRIPT_PAGE_LIMIT <? Z.of_nat (length (rows_before messages before)))
         || (TRANSCRIPT_PAGE_LIMIT <? Z.of_nat (length (rows_before commands before)));
       lt_last_event_id := last_session_seq_id session_id db |}) as Hspec.
  rewrite Hz in Hspec. simpl in Hspec. unfold page_seq_ids in Hspec.
  rewrite omap_command_ids, omap_app, omap_seq_ids in Hspec.
  destruct Hspec as (Hin & Hm & Hc). apply Forall_app in Hm as [_ Hm].
  assert (z = 0 \/ match before with None => True | Some b => z < b end) as Hpos.
  { destruct Hin as [Hin|Hin].
    - apply elem_of_app in Hin as [Hin|Hin].
      + left. destruct (is_last_page before), summary; simpl in Hin;
          try (by apply elem_of_nil in Hin). by apply list_elem_of_singleton in Hin.
      + right. apply list_elem_of_fmap in Hin as (row & -> & Hin).
        by apply page_of_before in Hin.
    - right. apply list_elem_of_fmap in Hin as (row & -> & Hin). by apply page_of_before in Hin. }
  split; [|done]. unfold rows_left.
  pose proof (rows_before_no_more messages before z message_rows_positive Hpos).
  pose proof (rows_before_no_more commands before z command_rows_positive Hpos).
  apply orb_true_iff in Hmore as [Hmore%Z.ltb_lt|Hmore%Z.ltb_lt].
  - pose proof (rows_before_decrease messages before z message_rows_sorted Hmore Hm). lia.
  - pose proof (rows_before_decrease commands before z command_rows_sorted Hmore Hc). lia.
Qed.

Lemma loop_returns fuel combined before :
  (rows_left before < fuel)%nat ->
  exists t, load_transcript_loop message_id now fuel session_id branch_id db combined before
              = Some (Ok t).
Proof.
  revert combined before. induction fuel as [|fuel IH]; intros combined before Hfuel; [lia|].
  cbn [load_transcript_loop].
  destruct (load_transcript_page message_id now session_id branch_id before db) as [[page|e]|] eqn:E;
    [|by rewrite load_transcript_page_spec in E..].
  cbn [mbind option_bind]. destruct (lt_has_more_before page) eqn:Hmore; [|eauto].
  destruct (page_oldest_seq page) as [z|] eqn:Hz; [|eauto].
  destruct (next_position _ _ _ E Hmore Hz). apply IH. lia.
Qed.

Lemma rows_fit before : (rows_left before <= length (db_events db) + length (db_events db))%nat.
Proof.
  unfold rows_left. pose proof (rows_before_all messages before).
  pose proof (rows_before_all commands before).
  assert (length messages <= length (db_events db))%nat.
  { pose proof (sublist_length _ _ (message_rows_sublist db)) as Hlen. rewrite !length_fmap in Hlen.
    unfold messages, message_page_rows. rewrite length_map. etrans; [|exact Hlen].
    apply sublist_length, filter_sublist. }
  assert (length commands <= length (db_events db))%nat.
  { apply sublist_length, filter_sublist. }
  lia.
Qed.

(** ** Merging *)

Lemma dedup_by_id {A} (same : A -> A -> bool) l :
  StronglySorted (fun a b => same b a = false) l -> dedup_by same l = l.
Proof.
  destruct l as [|a l]; [done|]. simpl. intros H. f_equal. revert a H.
  induction l as [|b l IH]; intros a H; simpl; [done|].
  apply StronglySorted_inv in H as [H Hall]. apply Forall_cons in Hall as [-> _].
  f_equal. by apply IH.
Qed.

(** Merging adds no number that neither side has. *)
Lemma merge_seq_ids_Forall (P : option Z -> Prop) ms ids ms' ids' :
  P None -> Forall P ids -> Forall P ids' -> Forall P (merge_messages ms ids ms' ids').2.
Proof.
  intros Hnone Hids Hids'. unfold merge_messages. simpl. apply Forall_forall.
  intros x (e & -> & He)%list_elem_of_fmap. apply dedup_by_elem in He.
  rewrite merge_sort_Permutation in He. apply elem_of_app in He as [He|He].
  - destruct e as [q m]. apply elem_of_zip_l in He. simpl.
    assert (Forall P (resize (length ms) None ids)) as Hr by (apply Forall_resize; done).
    rewrite Forall_forall in Hr. by apply Hr.
  - destruct e as [q m]. apply elem_of_zip_l in He. simpl. rewrite Forall_forall in Hids'. by apply Hids'.
Qed.

(** The entries of rows. *)
Definition entries (rows : list (Z * Message)) : list (option Z * Message) :=
  map (fun row => (Some row.1, row.2)) rows.

Lemma entries_zip rows : zip (map (fun row => Some row.1) rows) (map snd rows) = entries rows.
Proof. induction rows as [|row rows IH]; [done|]. simpl. by rewrite IH. Qed.

#[local] Instance transcript_entry_le_total : Total transcript_entry_le.
Proof. intros [[a|] m] [[b|] n]; unfold transcript_entry_le; simpl; lia || auto. Qed.
#[local] Instance transcript_entry_le_trans : Transitive transcript_entry_le.
Proof. intros [[a|] m] [[b|] n] [[c|] k]; unfold transcript_entry_le; simpl; lia || tauto. Qed.

(** Older rows come before the rows already there, and none is taken for
    another. *)
Lemma merge_older older newer :
  StronglySorted Z.lt (older ++ newer).*1 ->
  NoDup (map (fun row => msg_message_id row.2) (older ++ newer)) ->
  merge_messages (map snd newer) (map (fun row => Some row.1) newer)
    (map snd older) (map (fun row => Some row.1) older)
  = (map snd (older ++ newer), map (fun row => Some row.1) (older ++ newer)).
Proof.
  intros Hs Hids. unfold merge_messages. rewrite resize_all_alt by (by rewrite !length_map).
  rewrite !entries_zip.
  assert (merge_sort transcript_entry_le (entries newer ++ entries older) = entries (older ++ newer)) as ->.
  { apply (StronglySorted_unique_strong transcript_entry_le).
    - intros x y Hx Hy. rewrite merge_sort_Permutation in Hx.
      assert (x ∈ entries (older ++ newer)) as Hx'
        by (unfold entries in *; rewrite map_app; set_solver).
      apply list_elem_of_fmap in Hx' as (r & -> & Hr), Hy as (r' & -> & Hr').
      unfold transcript_entry_le. simpl. intros H1 H2. assert (r.1 = r'.1) as Heq by lia.
      assert (r = r') as ->; [|done].
      apply list_elem_of_lookup in Hr as [i Hi], Hr' as [j Hj].
      assert (NoDup (older ++ newer).*1) as Hnd.
      { clear -Hs. induction (older ++ newer) as [|a l IH]; simpl in *; [constructor|].
        apply StronglySorted_inv in Hs as [Hs Hall]. constructor; [|by apply IH].
        intros Hin. rewrite Forall_forall in Hall. specialize (Hall _ Hin). simpl in Hall. lia. }
      assert (i = j) as ->; [|congruence].
      eapply NoDup_lookup; [exact Hnd|by rewrite list_lookup_fmap, Hi|].
      rewrite list_lookup_fmap, Hj. simpl. by rewrite Heq.
    - apply StronglySorted_merge_sort; apply _.
    - clear Hids. induction (older ++ newer) as [|a l IH]; simpl in *; [constructor|].
      apply StronglySorted_inv in Hs as [Hs Hall]. constructor; [by apply IH|].
      unfold entries. apply Forall_forall. intros x (r & -> & Hr)%list_elem_of_fmap.
      rewrite Forall_fmap, Forall_forall in Hall. specialize (Hall _ Hr). unfold transcript_entry_le.
      simpl in *. lia.
    - rewrite merge_sort_Permutation. unfold entries. rewrite map_app. apply Permutation_app_comm. }
  rewrite dedup_by_id.
  - unfold entries. f_equal; rewrite <- list_fmap_compose; done.
  - induction (older ++ newer) as [|a l IH]; simpl in *; [constructor|].
    apply StronglySorted_inv in Hs as [Hs Hall]. apply NoDup_cons in Hids as [Hni Hids].
    constructor; [by apply IH|]. apply Forall_forall. intros x (r & -> & Hr)%list_elem_of_fmap.
    unfold same_entry, same_seq_id. simpl. rewrite Forall_fmap, Forall_forall in Hall.
    specialize (Hall _ Hr). simpl in Hall. rewrite (bool_decide_eq_false_2 (Some r.1 = Some a.1)) by (intros [= Hq]; lia).
    rewrite ?andb_false_r. simpl. apply bool_decide_eq_false. intros Heq. apply Hni.
    rewrite <- Heq. apply list_elem_of_fmap. by exists r.
Qed.

(** ** Without operator commands the loader is complete *)

(** The rows shown on a page: the summary is numbered 0. *)
Definition shown_rows : list (Z * Message) := map (fun m => (0, m)) (option_list summary).

Definition transcript_of (rows : list (Z * Message)) (last_id : option Z)
    : LoadedTranscriptPage :=
  {| lt_messages := map snd rows;
     lt_message_seq_ids := map (fun row => Some row.1) rows;
     lt_operator_commands := [];
     lt_has_more_before := false;
     lt_last_event_id := last_id |}.

Lemma shown_rows_sorted : StronglySorted Z.lt (shown_rows ++ messages).*1.
Proof.
  rewrite fmap_app. apply StronglySorted_app. split_and!; [|..].
  - intros x y (r & -> & Hx)%list_elem_of_fmap (r' & -> & Hy)%list_elem_of_fmap.
    pose proof message_rows_positive as Hp. rewrite Forall_forall in Hp. specialize (Hp _ Hy).
    apply list_elem_of_fmap in Hx as (m & -> & _). simpl in *. lia.
  - unfold shown_rows. destruct summary; simpl; repeat constructor.
  - apply message_rows_sorted.
Qed.

Lemma loop_complete fuel before newer last_id :
  commands = [] ->
  NoDup (map (fun row => msg_message_id row.2) (shown_rows ++ messages)) ->
  messages = rows_before messages before ++ newer ->
  (rows_left before < fuel)%nat ->
  exists last_id',
    load_transcript_loop message_id now fuel session_id branch_id db
      (transcript_of newer last_id) before
    = Some (Ok (transcript_of (shown_rows ++ messages) last_id')).
Proof.
  intros Hc Hids. revert before newer last_id.
  induction fuel as [|fuel IH]; intros before newer last_id Hsplit Hfuel; [lia|].
  cbn [load_transcript_loop].
  destruct (load_transcript_page message_id now session_id branch_id before db) as [[page|e]|] eqn:E;
    [|by rewrite load_transcript_page_spec in E..].
  cbn [mbind option_bind]. pose proof E as E'. rewrite load_transcript_page_spec in E'.
  injection E' as E'.
  assert (forall b, rows_before commands b = []) as Hnone.
  { intros b. rewrite Hc. by destruct b. }
  assert (exists older, rows_before messages before
              = older ++ page_of messages before TRANSCRIPT_PAGE_LIMIT) as [older Hold].
  { unfold page_of. eexists. symmetry. apply take_drop. }
  set (shown := if is_last_page before then shown_rows else []).
  assert (merge_page (transcript_of newer last_id) page
          = transcript_of (shown ++ page_of messages before TRANSCRIPT_PAGE_LIMIT ++ newer)
              (lt_last_event_id (merge_page (transcript_of newer last_id) page))) as Hmerge.
  { unfold merge_page, transcript_of at 1. cbn [lt_messages lt_message_seq_ids lt_operator_commands].
    assert (lt_messages page = map snd (shown ++ page_of messages before TRANSCRIPT_PAGE_LIMIT)
      /\ lt_message_seq_ids page
         = map (fun row => Some row.1) (shown ++ page_of messages before TRANSCRIPT_PAGE_LIMIT)
      /\ lt_operator_commands page = []) as (-> & -> & ->).
    { rewrite <- E'. simpl. unfold page_seq_ids, shown, shown_rows. rewrite !map_app.
      replace (page_of commands before TRANSCRIPT_PAGE_LIMIT) with (@nil (Z * EventEnvelope))
        by (unfold page_of; by rewrite Hnone).
      destruct (is_last_page before); [|done]. rewrite !map_map. simpl. by rewrite map_id. }
    change (lt_messages (transcript_of newer last_id)) with (map snd newer).
    change (lt_message_seq_ids (transcript_of newer last_id))
      with (map (fun row : Z * Message => Some row.1) newer).
    assert ((shown ++ page_of messages before TRANSCRIPT_PAGE_LIMIT) ++ newer
              `sublist_of` shown_rows ++ messages) as Hsub.
    { rewrite <- app_assoc. apply sublist_app; [unfold shown; destruct (is_last_page before); [done|apply sublist_nil_l]|].
      etrans; [by apply (sublist_inserts_l older)|].
      assert (older ++ page_of messages before TRANSCRIPT_PAGE_LIMIT ++ newer = messages) as ->; [|done].
      by rewrite app_assoc, <- Hold. }
    rewrite merge_older.
    - rewrite <- app_assoc. reflexivity.
    - eapply sorted_sublist; [by apply fmap_sublist|apply shown_rows_sorted].
    - eapply sublist_NoDup; [exact Hids|]. by apply fmap_sublist. }
  rewrite Hmerge. clear Hmerge.
  assert (lt_has_more_before page
          = (TRANSCRIPT_PAGE_LIMIT <? Z.of_nat (length (rows_before messages before)))) as Hmore.
  { rewrite <- E'. simpl. rewrite Hnone. simpl. by rewrite orb_false_r. }
  assert (is_last_page before = false -> omap id (lt_message_seq_ids page)
            = (page_of messages before TRANSCRIPT_PAGE_LIMIT).*1) as Hmids.
  { intros Hl. rewrite <- E', Hl. simpl. apply omap_seq_ids. }
  assert (omap rc_seq_id (lt_operator_commands page) = []) as Hcids.
  { rewrite <- E'. simpl. rewrite omap_command_ids. unfold page_of. by rewrite Hnone. }
  rewrite Hmore. subst shown. unfold is_last_page in Hmids |- *. rewrite Z.leb_antisym in Hmids |- *.
  destruct (Z.ltb_spec TRANSCRIPT_PAGE_LIMIT (Z.of_nat (length (rows_before messages before))))
    as [Hlong|Hshort]; cbn [negb app].
  - destruct (page_step messages message_rows_sorted before TRANSCRIPT_PAGE_LIMIT)
      as (oldest & Hhead & Hstep & Hlen); [done|done|].
    assert (page_oldest_seq page = Some oldest.1) as Holdest.
    { assert (StronglySorted Z.lt (page_of messages before TRANSCRIPT_PAGE_LIMIT).*1) as Hps.
      { eapply sorted_sublist; [|apply message_rows_sorted]. apply fmap_sublist.
        assert (older ++ page_of messages before TRANSCRIPT_PAGE_LIMIT ++ newer = messages)
          as Hall by (by rewrite app_assoc, <- Hold).
        assert (page_of messages before TRANSCRIPT_PAGE_LIMIT `sublist_of`
          older ++ page_of messages before TRANSCRIPT_PAGE_LIMIT ++ newer) as Hsub
          by (apply sublist_inserts_l; by apply sublist_inserts_r).
        by rewrite Hall in Hsub. }
      pose proof (page_oldest_seq_spec page) as Hspec. rewrite Hmids, Hcids in Hspec by done.
      destruct (page_of messages before TRANSCRIPT_PAGE_LIMIT) as [|o rest]; [done|].
      injection Hhead as ->. destruct (page_oldest_seq page) as [z|]; [|by destruct Hspec].
      destruct Hspec as (Hin & Hall & _). f_equal. simpl in *.
      apply Forall_cons in Hall as [Hz _]. destruct Hin as [Hin|Hin]; [|by apply elem_of_nil in Hin].
      apply elem_of_cons in Hin as [->|Hin]; [done|].
      simpl in Hps. apply StronglySorted_inv in Hps as [_ Hps].
      rewrite Forall_forall in Hps. specialize (Hps _ Hin). simpl in Hps. lia. }
    rewrite Holdest. apply IH.
    + rewrite app_assoc, <- Hstep. exact Hsplit.
    + destruct (next_position _ _ _ E Hmore Holdest). lia.
  - rewrite page_last by done. rewrite <- Hsplit. eauto.
Qed.

(** ** With an old operator command it is not *)

(** The numbers of a page are those of its rows, or the summary's. *)
Lemma page_seq_ids_from before page (P : option Z -> Prop) :
  load_transcript_page message_id now session_id branch_id before db = Some (Ok page) ->
  P (Some 0) ->
  (forall row, row ∈ page_of messages before TRANSCRIPT_PAGE_LIMIT -> P (Some row.1)) ->
  Forall P (lt_message_seq_ids page).
Proof.
  rewrite load_transcript_page_spec. intros [= <-] H0 Hrows. simpl. apply Forall_app. split.
  - apply Forall_forall. intros x (m & -> & _)%list_elem_of_fmap. done.
  - apply Forall_forall. intros x (row & -> & Hin)%list_elem_of_fmap. by apply Hrows.
Qed.

(** Once the position is at [low] or before, no message from [low] on is
    added. *)
Lemma loop_below fuel combined before low t (P : option Z -> Prop) :
  load_transcript_loop message_id now fuel session_id branch_id db combined (Some before)
    = Some (Ok t) ->
  P None -> (forall z, z < low -> P (Some z)) -> 0 < low -> before <= low ->
  Forall P (lt_message_seq_ids combined) -> Forall P (lt_message_seq_ids t).
Proof.
  intros H Hnone Hlow Hpos. revert combined before H.
  induction fuel as [|fuel IH]; intros combined before H Hbefore Hall; [done|].
  cbn [load_transcript_loop] in H.
  destruct (load_transcript_page message_id now session_id branch_id (Some before) db)
    as [[page|e]|] eqn:E; [|by rewrite load_transcript_page_spec in E..].
  cbn [mbind option_bind] in H.
  assert (Forall P (lt_message_seq_ids (merge_page combined page))) as Hmerged.
  { change (lt_message_seq_ids (merge_page combined page))
      with (merge_messages (lt_messages combined) (lt_message_seq_ids combined)
              (lt_messages page) (lt_message_seq_ids page)).2.
    apply merge_seq_ids_Forall; [done|done|].
    eapply page_seq_ids_from; [exact E|by apply Hlow|].
    intros row Hrow%page_of_before. apply Hlow. lia. }
  destruct (lt_has_more_before page) eqn:Hmore; [|by injection H as <-].
  destruct (page_oldest_seq page) as [z|] eqn:Hz; [|by injection H as <-].
  destruct (next_position _ _ _ E Hmore Hz) as [_ Hnext].
  eapply IH; [exact H|destruct Hnext; lia|done].
Qed.

(** A transcript is returned as complete. *)
Lemma loop_done fuel combined before t :
  load_transcript_loop message_id now fuel session_id branch_id db combined before = Some (Ok t) ->
  lt_has_more_before t = false.
Proof.
  assert (forall a b, lt_has_more_before (merge_page a b) = false) as Hmerge.
  { intros a b. unfold merge_page. by destruct (merge_messages _ _ _ _). }
  revert combined before. induction fuel as [|fuel IH]; intros combined before H; [done|].
  cbn [load_transcript_loop] in H.
  destruct (load_transcript_page message_id now session_id branch_id before db)
    as [[page|e]|]; [|done..]. cbn [mbind option_bind] in H.
  destruct (lt_has_more_before page); [|injection H as <-; apply Hmerge].
  destruct (page_oldest_seq page); [by eapply IH|injection H as <-; apply Hmerge].
Qed.

Lemma loader_skips (oldest_message : Z * Message) (oldest_command : Z * EventEnvelope) :
  TRANSCRIPT_PAGE_LIMIT < Z.of_nat (length messages) ->
  messages !! (length messages - Z.to_nat TRANSCRIPT_PAGE_LIMIT)%nat = Some oldest_message ->
  Z.of_nat (length commands) <= TRANSCRIPT_PAGE_LIMIT ->
  head commands = Some oldest_command -> oldest_command.1 < oldest_message.1 ->
  exists t, load_full_transcript message_id now session_id branch_id db = Some (Ok t)
    /\ forall z, oldest_command.1 <= z < oldest_message.1 -> Some z ∉ lt_message_seq_ids t.
Proof.
  intros Hlong Hm Hshort Hc Hlt. unfold load_full_transcript.
  destruct (loop_returns (S (length (db_events db) + length (db_events db))) empty_transcript None)
    as [t Ht]; [pose proof (rows_fit None); lia|].
  exists t. split; [done|]. cbn [load_transcript_loop] in Ht.
  destruct (load_transcript_page message_id now session_id branch_id None db)
    as [[page|e]|] eqn:E; [|by rewrite load_transcript_page_spec in E..].
  cbn [mbind option_bind] in Ht.
  set (P z := match z with
              | None => True
              | Some z => ~ (oldest_command.1 <= z < oldest_message.1)
              end).
  assert (0 < oldest_command.1) as Hpos.
  { pose proof command_rows_positive as Hp. destruct commands as [|c rest]; [done|].
    injection Hc as ->. by apply Forall_cons in Hp as [? _]. }
  assert (page_of messages None TRANSCRIPT_PAGE_LIMIT
          = oldest_message :: drop (S (length messages - Z.to_nat TRANSCRIPT_PAGE_LIMIT)) messages)
    as Hpage by (unfold page_of; simpl; by apply drop_S).
  assert (StronglySorted Z.lt (page_of messages None TRANSCRIPT_PAGE_LIMIT).*1) as Hps.
  { eapply sorted_sublist; [|apply message_rows_sorted]. apply fmap_sublist.
    unfold page_of. simpl. apply sublist_drop. }
  assert (forall row, row ∈ page_of messages None TRANSCRIPT_PAGE_LIMIT ->
            oldest_message.1 <= row.1) as Hfrom.
  { intros row Hin. rewrite Hpage in Hin, Hps. simpl in Hps.
    apply StronglySorted_inv in Hps as [_ Hps]. apply elem_of_cons in Hin as [->|Hin]; [lia|].
    rewrite Forall_fmap, Forall_forall in Hps. specialize (Hps _ Hin). simpl in Hps. lia. }
  assert (Forall P (lt_message_seq_ids t)) as Hall.
  2: { intros z Hz Hin. rewrite Forall_forall in Hall. by apply (Hall _ Hin). }
  assert (Forall P (lt_message_seq_ids (merge_page empty_transcript page))) as Hmerged.
  { change (lt_message_seq_ids (merge_page empty_transcript page))
      with (merge_messages [] [] (lt_messages page) (lt_message_seq_ids page)).2.
    apply merge_seq_ids_Forall; [done|constructor|].
    eapply page_seq_ids_from; [exact E|simpl; lia|].
    intros row Hrow%Hfrom. simpl. lia. }
  pose proof (page_oldest_seq_spec page) as Hspec.
  pose proof E as E'. rewrite load_transcript_page_spec in E'. injection E' as E'.
  assert (oldest_command.1 ∈ omap rc_seq_id (lt_operator_commands page)) as Hcin.
  { rewrite <- E'. simpl. rewrite omap_command_ids, page_last by done. simpl.
    destruct commands as [|c rest]; [done|]. injection Hc as ->. by left. }
  destruct (lt_has_more_before page) eqn:Hmore.
  2: { rewrite <- E' in Hmore. simpl in Hmore. apply orb_false_iff in Hmore as [Hmore%Z.ltb_ge _]. lia. }
  destruct (page_oldest_seq page) as [z|] eqn:Hz.
  2: { destruct Hspec as [_ Hnil]. rewrite Hnil in Hcin. by apply elem_of_nil in Hcin. }
  destruct Hspec as (_ & _ & Hmin). rewrite Forall_forall in Hmin. specialize (Hmin _ Hcin).
  eapply (loop_below _ _ _ oldest_command.1 t P Ht); [done|intros y Hy; simpl; lia|done|done|done].
Qed.
End loaded.

(** Read by pages or whole, a branch is the same: where forks are made as
    the runtime makes them, at an event of the parent and before the events of
    the fork, and nothing but messages is paged, [load_full_transcript] ends
    and returns exactly the messages [load_messages_for_branch] returns, the
    summary of the branch first, in the same order and each once. *)
Theorem full_transcript_is_branch `{codec : RowCodec} {laws : RowCodecLaws} message_id now db
    session_id branch_id lineage msgs :
  reachable db ->
  branch_lineage session_id branch_id db = Some (Ok lineage) ->
  forks_in_order db lineage ->
  Forall (fun logged => is_operator_command logged.2 = false) (db_events db) ->
  load_messages_for_branch message_id now session_id branch_id db = Some (Ok msgs) ->
  NoDup (map msg_message_id msgs) ->
  exists t, load_full_transcript message_id now session_id branch_id db = Some (Ok t)
    /\ lt_messages t = msgs /\ lt_operator_commands t = [] /\ lt_has_more_before t = false.
Proof.
  intros Hr Hlineage Hforks Hnone Hmsgs Hids.
  destruct (page_rows_are_lineage_rows _ _ _ _ Hr Hlineage Hforks) as (bounds & Hbounds & Hrows).
  rewrite (load_messages_is_rows _ _ _ _ _ _ Hlineage) in Hmsgs. injection Hmsgs as <-.
  assert (command_page_rows session_id bounds db = []) as Hc.
  { unfold command_page_rows. induction Hnone as [|l log Hl _ IH]; [done|]. simpl.
    by rewrite Hl, andb_false_r. }
  assert (map snd (shown_rows message_id now lineage ++ message_page_rows session_id bounds db)
          = option_list (branch_summary_message message_id now lineage)
            ++ map (fun r => mr_message r.2) (lineage_rows session_id lineage db)) as Hall.
  { rewrite map_app, Hrows, map_map. f_equal. unfold shown_rows. rewrite map_map. apply map_id. }
  destruct (loop_complete message_id now db session_id branch_id lineage bounds Hr Hlineage Hbounds
    (S (length (db_events db) + length (db_events db))) None [] None Hc) as [last_id Ht].
  - rewrite <- Hall, map_map in Hids. exact Hids.
  - simpl. by rewrite app_nil_r.
  - pose proof (rows_fit db session_id bounds None). lia.
  - eexists. split; [exact Ht|]. split_and!; [exact Hall|done|done].
Qed.

(** [load_full_transcript] moves both positions to the oldest row of
    either page, so an operator command older than a page of messages makes it
    skip the messages in between: whenever a branch has more than a page of
    messages, at most a page of operator commands, and the first command is
    older than the first page of messages, the loader returns a transcript
    that it reports as complete and that has none of the messages between. *)
Theorem full_transcript_skips `{codec : RowCodec} {laws : RowCodecLaws} message_id now db
    session_id branch_id bounds oldest_message oldest_command :
  reachable db ->
  branch_lineage_bounds session_id branch_id db = Some (Ok bounds) ->
  let messages := message_page_rows session_id bounds db in
  let commands := command_page_rows session_id bounds db in
  TRANSCRIPT_PAGE_LIMIT < Z.of_nat (length messages) ->
  messages !! (length messages - Z.to_nat TRANSCRIPT_PAGE_LIMIT)%nat = Some oldest_message ->
  Z.of_nat (length commands) <= TRANSCRIPT_PAGE_LIMIT ->
  head commands = Some oldest_command -> oldest_command.1 < oldest_message.1 ->
  exists t, load_full_transcript message_id now session_id branch_id db = Some (Ok t)
    /\ lt_has_more_before t = false
    /\ forall row, row ∈ messages -> oldest_command.1 < row.1 < oldest_message.1 ->
         Some row.1 ∉ lt_message_seq_ids t.
Proof.
  intros Hr Hbounds messages commands Hlong Hm Hshort Hc Hlt.
  destruct (branch_lineage session_id branch_id db) as [[lineage|e]|] eqn:Hlineage;
    unfold branch_lineage_bounds in Hbounds; rewrite Hlineage in Hbounds; try done.
  destruct (loader_skips message_id now db session_id branch_id lineage bounds Hr Hlineage)
    with (oldest_message := oldest_message) (oldest_command := oldest_command) as (t & Ht & Hskip);
    try done.
  - unfold branch_lineage_bounds. by rewrite Hlineage.
  - exists t. split_and!; [done|by eapply loop_done|]. intros row _ Hrow. apply Hskip. lia.
Qed.

(** ** Runs *)

Definition message_at (n : Z) : EventPayload :=
  MessageAppended (MkMessage (MkUuid (Z.to_N (n + 1000))) RoleUser [PText "hi"] n).

Definition on_branch (branch : N) (event : EventEnvelope) : EventEnvelope :=
  MkEventEnvelope (ev_seq_id event) (ev_event_id event) (ev_session_id event) (MkUuid branch)
    (ev_turn_id event) (ev_span_id event) (ev_parent_span_id event) (ev_span_kind event)
    (ev_occurred_at event) (ev_payload event) (ev_attributes event).

(** A branch with a summary, forked after the second message of its parent. *)
Definition fork_branch : BranchRecord :=
  {| br_branch_id := MkUuid 3; br_session_id := MkUuid 1; br_parent_branch_id := Some (MkUuid 2);
     br_parent_event_id := Some (MkUuid 11); br_head_event_id := None;
     br_summary := Some "so far"; br_created_at := 1; br_is_default := false |}.

Definition forked_db : Db := run_ops
  [OpCreateSession sample_session sample_branch;
   OpAppendMany [sample_event 10 (message_at 10); sample_event 11 (message_at 11)];
   OpCreateBranch fork_branch;
   OpAppendMany [sample_event 12 (message_at 12); on_branch 3 (sample_event 13 (message_at 13))]]
  db_empty.

Lemma full_transcript_is_branch_witness :
  exists t, load_full_transcript (MkUuid 5000) 0 (MkUuid 1) (MkUuid 3) forked_db = Some (Ok t)
    /\ length (lt_messages t) = 4%nat.
Proof.
  destruct (branch_lineage (MkUuid 1) (MkUuid 3) forked_db) as [[lineage|]|] eqn:Hl;
    [|by vm_compute in Hl..].
  destruct (load_messages_for_branch (MkUuid 5000) 0 (MkUuid 1) (MkUuid 3) forked_db)
    as [[msgs|]|] eqn:Hm; [|by vm_compute in Hm..].
  destruct (full_transcript_is_branch (MkUuid 5000) 0 forked_db (MkUuid 1) (MkUuid 3) lineage msgs)
    as (t & Ht & Hmsgs & _).
  - by eexists.
  - exact Hl.
  - vm_compute in Hl. injection Hl as <-. split; [|done].
    exists 2, (sample_event 11 (message_at 11)). split_and!; [done| |done|].
    + vm_compute. right. left.
    + apply (proj1 (Forall_forall (fun logged =>
        ev_branch_id logged.2 = br_branch_id fork_branch -> 2 < logged.1) _)).
      vm_compute. repeat constructor; intros Hb; congruence || reflexivity.
  - vm_compute. repeat constructor.
  - exact Hm.
  - vm_compute in Hm. injection Hm as <-. apply (bool_decide_unpack _). vm_compute. exact I.
  - exists t. split; [exact Ht|]. rewrite Hmsgs. vm_compute in Hm. by injection Hm as <-.
Defined.

(** One operator command, then 202 messages. *)
Definition long_db : Db := run_ops
  [OpCreateSession sample_session sample_branch;
   OpAppend (sample_event 10 (OperatorCommandRecorded "status" "/status" "ok" true));
   OpAppendMany (map (fun n => sample_event (Z.of_nat n) (message_at (Z.of_nat n))) (seq 11 202))]
  db_empty.

Lemma full_transcript_skips_witness :
  exists t, load_full_transcript (MkUuid 5000) 0 (MkUuid 1) (MkUuid 2) long_db = Some (Ok t)
    /\ lt_has_more_before t = false /\ (Some 2 ∉ lt_message_seq_ids t) /\ (Some 3 ∉ lt_message_seq_ids t).
Proof.
  destruct (full_transcript_skips (MkUuid 5000) 0 long_db (MkUuid 1) (MkUuid 2)
    [(MkUuid 2, None)]
    (4, MkMessage (MkUuid 1013) RoleUser [PText "hi"] 13)
    (1, sample_event 10 (OperatorCommandRecorded "status" "/status" "ok" true)))
    as (t & Ht & Hdone & Hskip).
  - by eexists.
  - vm_compute. reflexivity.
  - vm_compute. reflexivity.
  - vm_compute. reflexivity.
  - vm_compute. discriminate.
  - vm_compute. reflexivity.
  - done.
  - exists t. split_and!; [exact Ht|exact Hdone| |].
    + apply (Hskip (2, MkMessage (MkUuid 1011) RoleUser [PText "hi"] 11)); [|simpl; lia].
      vm_compute. left.
    + apply (Hskip (3, MkMessage (MkUuid 1012) RoleUser [PText "hi"] 12)); [|simpl; lia].
      vm_compute. right. left.
Defined.
