(* ===== verification/Bundle.v ===== *)
(** * Portable session bundles: data ([bt-core/src/bundle.rs], [bt-session/src/export.rs])

    A bundle is a directory: a manifest, the session's events and raw chunk
    references one JSON value a line, the chunks' bytes and the artifacts as
    files named by their hash, and the checksums of all of these.  Local
    numbers do not leave the store: a raw chunk is named by the hash of its
    bytes, and sequence numbers are left out.

    SHA-256 and the JSON forms of the records are library code and stand as
    parameters ([BundleCodec]); so is the trip of a payload through
    [serde_json::Value].  A directory is the map from the components of a
    file's path to its bytes: it holds regular files with UTF-8 names only,
    and nothing but the code writes to it. *)

From stdpp Require Import base list strings gmap sorting.
From Stdlib Require Import ZArith Lia Ascii.
From S2P Require Import Prelude Text Json Types TurnProjection Store.

#[local] Open Scope Z_scope.

(** ** Hashes *)

Definition SHA256_PREFIX : string := "sha256:".
Definition SHA256_HEX_LEN : nat := 64.

(** [PortableHash] *)
Record PortableHash : Type := MkPortableHash { hash_str : string }.
#[export] Instance PortableHash_eq_dec : EqDecision PortableHash.
Proof. solve_decision. Defined.
#[export] Instance PortableHash_countable : Countable PortableHash.
Proof. by refine (inj_countable' hash_str MkPortableHash _); intros []. Defined.

(** The order of the strings. *)
Definition hash_le (a b : PortableHash) : Prop := str_leb (hash_str a) (hash_str b) = true.
#[export] Instance hash_le_dec a b : Decision (hash_le a b).
Proof. unfold hash_le. apply _. Defined.

Definition is_lower_hex (a : ascii) : bool := byte_is 48 57 a || byte_is 97 102 a.

Fixpoint all_bytes (p : ascii -> bool) (s : string) : bool :=
  match s with
  | EmptyString => true
  | String a s => p a && all_bytes p s
  end.

(** [validate_portable_hash] *)
Definition validate_portable_hash (value : string) : option unit :=
  hex ← strip_prefix SHA256_PREFIX value;
  if negb (Nat.eqb (byte_len hex) SHA256_HEX_LEN) then None
  else if negb (all_bytes is_lower_hex hex) then None else Some tt.

(** [PortableHash::new] *)
Definition portable_hash_new (value : string) : option PortableHash :=
  _ ← validate_portable_hash value; Some (MkPortableHash value).

(** [PortableHash::from_sha256_hex] *)
Definition from_sha256_hex (hex : string) : PortableHash :=
  MkPortableHash (SHA256_PREFIX +:+ to_ascii_lowercase hex).

(** [PortableHash::sha256_hex] *)
Definition sha256_hex (hash : PortableHash) : string :=
  default (hash_str hash) (strip_prefix SHA256_PREFIX (hash_str hash)).

(** ** The manifest *)

Record SessionNodeRef : Type := MkSessionNodeRef {
  nr_bundle_hash : option PortableHash;
  nr_session_id : SessionId;
  nr_branch_id : BranchId;
  nr_bundle_event_ordinal : Z;
  nr_store_seq_id : option Z;
  nr_event_id : EventId;
  nr_event_hash : PortableHash;
}.

Record ContentRef : Type := MkContentRef {
  cr_hash : PortableHash;
  cr_media_type : option string;
  cr_size_bytes : Z;
  cr_path : option string;
}.

Record EventRange : Type := MkEventRange {
  eg_branch_id : BranchId;
  eg_ordinal_start : Z;
  eg_ordinal_end : Z;
  eg_first_event_hash : PortableHash;
  eg_last_event_hash : PortableHash;
  eg_exported_store_seq_start : option Z;
  eg_exported_store_seq_end : option Z;
}.

Record BundleArtifactRef : Type := MkBundleArtifactRef {
  ba_artifact_id : string;
  ba_kind : string;
  ba_source_node : SessionNodeRef;
  ba_content : ContentRef;
}.

Record BranchManifest : Type := MkBranchManifest {
  bm_branch_id : BranchId;
  bm_parent_branch_id : option BranchId;
  bm_parent_event_id : option EventId;
  bm_head : option SessionNodeRef;
  bm_is_default : bool;
  bm_summary : option string;
}.

Record ProducerInfo : Type := MkProducerInfo { pf_name : string; pf_version : string }.

Inductive RedactionPolicy : Type := RedactNone.
#[export] Instance RedactionPolicy_eq_dec : EqDecision RedactionPolicy.
Proof. solve_decision. Defined.

Inductive SessionBundleArtifactMode : Type :=
  | TraceOnly | TracePlusPatches | TracePlusArtifacts.

Definition is_trace_only (mode : SessionBundleArtifactMode) : bool :=
  match mode with TraceOnly => true | _ => false end.

Record SessionBundleManifest : Type := MkSessionBundleManifest {
  mf_schema_version : Z;
  mf_bundle_hash : PortableHash;
  mf_session : SessionRecord;
  mf_branches : list BranchManifest;
  mf_event_ranges : list EventRange;
  mf_producer : ProducerInfo;
  mf_redaction : RedactionPolicy;
  mf_artifact_mode : SessionBundleArtifactMode;
  mf_contents : list ContentRef;
  mf_artifacts : list BundleArtifactRef;
}.

(** ** Portable events *)

Record PortableContextMessageRef : Type := MkPortableContextMessageRef {
  pm_message_id : MessageId;
  pm_role : Role;
  pm_source_branch_id : option BranchId;
  pm_part_count : Z;
  pm_visible_text_chars : Z;
}.

Record PortableContextManifest : Type := MkPortableContextManifest {
  pn_turn_id : TurnId;
  pn_branch_id : BranchId;
  pn_llm_call_ordinal : Z;
  pn_provider : string;
  pn_model : string;
  pn_settings_revision_id : Z;
  pn_system_prompt : ContextSystemPromptRef;
  pn_messages : list PortableContextMessageRef;
  pn_tools : list ContextToolRef;
  pn_attachments : list ContextAttachment;
  pn_max_tokens : option Z;
  pn_thinking : option ThinkingConfig;
  pn_compacted : bool;
}.

(** The fields of the portable [ContextCompacted]. *)
Record PortableContextCompacted : Type := MkPortableContextCompacted {
  px_compaction_id : CompactionId;
  px_window_number : option Z;
  px_previous_compaction_id : option CompactionId;
  px_first_compaction_id : option CompactionId;
  px_trigger : ContextCompactionTrigger;
  px_phase : ContextCompactionPhase;
  px_status : ContextCompactionStatus;
  px_reason : option string;
  px_provider : option string;
  px_model : option string;
  px_summary_message_id : option MessageId;
  px_first_kept_message_id : option MessageId;
  px_first_kept_branch_id : option BranchId;
  px_latency_ms : option Z;
  px_summary : string;
  px_messages_before : Z;
  px_messages_after : Z;
  px_tokens_before : Z;
  px_tokens_after : Z;
  px_files_read : list string;
  px_files_modified : list string;
}.

(** [PortableEventPayload]: four variants differ from the live ones; the
    other thirty-six have the same names and fields, and are converted as
    JSON values. They are the live payload here. *)
Inductive PortableEventPayload : Type :=
  | PortableCompletionChunk (llm_call_ordinal : option Z) (deltas : list CompletionDelta)
      (raw_chunk_content_ref : option PortableHash)
  | PortableRawChunkPersisted (provider : string) (raw_chunk_content_ref : PortableHash)
      (stream : string) (llm_call_ordinal : option Z)
  | PortableManifestRecorded (manifest : PortableContextManifest)
  | PortableCompacted (compaction : PortableContextCompacted)
  | PortableSame (payload : EventPayload).

Record PortableEventEnvelope : Type := MkPortableEventEnvelope {
  pe_event_id : EventId;
  pe_session_id : SessionId;
  pe_branch_id : BranchId;
  pe_turn_id : option TurnId;
  pe_span_id : SpanId;
  pe_parent_span_id : option SpanId;
  pe_span_kind : SpanKind;
  pe_occurred_at : OffsetDateTime;
  pe_payload : PortableEventPayload;
  pe_attributes : gmap string Value;
}.

Record SessionBundleEventRecord : Type := MkEventRecord {
  er_bundle_event_ordinal : Z;
  er_event_kind : string;
  er_event_hash : PortableHash;
  er_event : PortableEventEnvelope;
}.

Record SessionBundleRawChunkRef : Type := MkRawChunkRef {
  rx_chunk_ordinal : Z;
  rx_session_id : SessionId;
  rx_branch_id : option BranchId;
  rx_turn_id : option TurnId;
  rx_llm_call_ordinal : option Z;
  rx_event_id : option string;
  rx_provider : string;
  rx_stream_name : string;
  rx_content : ContentRef;
}.

Record SessionBundleChecksumEntry : Type := MkChecksumEntry {
  ck_path : string;
  ck_hash : PortableHash;
  ck_size_bytes : Z;
}.

Record SessionBundleChecksums : Type := MkChecksums {
  cs_schema_version : Z;
  cs_files : list SessionBundleChecksumEntry;
}.

(** ** Library code *)

Class BundleCodec : Type := {
  sha256 : string -> string;
  (** [serde_json::from_value(serde_json::to_value(payload)?)?] *)
  payload_trip : EventPayload -> Result EventPayload;
  (** the bytes of [serde_json::to_value(event)] *)
  canonical_event_bytes : PortableEventEnvelope -> Result string;
  (** the decimal texts of the record's numbers are read back as the same
      numbers: [serde_json]'s default parser is not correctly rounded *)
  exact_event : SessionBundleEventRecord -> Prop;
  write_event : SessionBundleEventRecord -> Result string;
  read_event : string -> Result SessionBundleEventRecord;
  write_raw_ref : SessionBundleRawChunkRef -> Result string;
  read_raw_ref : string -> Result SessionBundleRawChunkRef;
  write_checksums : SessionBundleChecksums -> Result string;
  read_checksums : string -> Result SessionBundleChecksums;
  write_manifest : SessionBundleManifest -> Result string;
  read_manifest : string -> Result SessionBundleManifest;
  (** [serde_json::to_value(node)] *)
  node_value : SessionNodeRef -> Result Value;
}.

Definition SESSION_BT_SCHEMA_VERSION : Z := 1.
Definition SESSION_BT_MANIFEST : string := "manifest.json".
Definition SESSION_BT_EVENTS : string := "events.jsonl".
Definition SESSION_BT_RAW_CHUNK_REFS : string := "raw_chunk_refs.jsonl".
Definition SESSION_BT_CHECKSUMS : string := "checksums.json".
Definition SESSION_BT_RAW_CHUNKS_DIR : string := "raw_chunks".
Definition SESSION_BT_ARTIFACTS_DIR : string := "artifacts".
Definition SESSION_BT_PARENT_NODE_REF_ATTR : string := "belltower.session.parent_external_ref".

(** [invalid_bundle] *)
Definition invalid_bundle (message : string) : BelltowerError :=
  Protocol ("invalid session bundle: " +:+ message).

Definition show_id {tag} (id : UuidId tag) `{RowCodec} : string := show_uuid (uuid id).

(** ** Hashing *)

Fixpoint to_lower_hex (bytes : string) : string :=
  match bytes with
  | EmptyString => EmptyString
  | String byte bytes =>
      let n := Z.of_N (byte_val byte) in
      String (hex_digit (n / 16)) (String (hex_digit (n mod 16)) (to_lower_hex bytes))
  end.

Section hashing.
Context `{bundle : BundleCodec}.

Definition hash_bytes (bytes : string) : PortableHash :=
  from_sha256_hex (to_lower_hex (sha256 bytes)).

(** [canonical_event_hash], with [hash_canonical_event_value] *)
Definition canonical_event_hash (portable_event : PortableEventEnvelope) : Result PortableHash :=
  bytes ← canonical_event_bytes portable_event;
  Ok (hash_bytes bytes).
End hashing.
