(* ===== verification/BundleFiles.v ===== *)
(** * The files of a bundle ([bt-session/src/export.rs])

    Relative paths, reading and writing of a bundle's directory, JSON lines,
    checksums, and the check that the directory holds exactly the listed
    files.  Error texts leave out the operating system's part. *)

From stdpp Require Import base list strings gmap sorting.
From Stdlib Require Import ZArith Lia Ascii.
From S2P Require Import Prelude Text Utf8 Json Types TurnProjection Store Bundle.

#[local] Open Scope Z_scope.

(** ** Paths *)

Definition slash : ascii := "/"%char.

(** [Path::components] of a relative path: empty pieces and [.] are not
    components. *)
Definition path_components (path : string) : list string :=
  List.filter (fun c => negb (String.eqb c "") && negb (String.eqb c ".")) (split_char slash path).

(** [validate_bundle_relative_path] *)
Definition validate_bundle_relative_path (path : string) : Result unit :=
  _ ← reject_if (is_empty path || starts_with "/" path)
        (invalid_bundle ("bundle path must be relative: " +:+ path));
  reject_if (existsb (String.eqb "..") (path_components path))
    (invalid_bundle ("bundle path must not escape bundle root: " +:+ path)).

(** [path.split('/').next()] *)
Definition first_piece (path : string) : string := default "" (head (split_char slash path)).

(** ** Directories *)

Abbreviation Dir := (gmap (list string) string).

(** A file cannot be opened under a name that ends as a directory's. *)
Definition names_directory (path : string) : bool :=
  match last (split_char slash path) with
  | Some c => String.eqb c "" || String.eqb c "."
  | None => true
  end.

(** [fs::read(dir.join(path))] *)
Definition fs_read (dir : Dir) (path : string) : option string :=
  if names_directory path then None else dir !! path_components path.

(** [fs::write(dir.join(path), bytes)] *)
Definition fs_write (dir : Dir) (path : string) (bytes : string) : Dir :=
  <[path_components path := bytes]> dir.

Definition file_path (components : list string) : string := join "/" components.

Definition io_error (path : string) : BelltowerError := Io path.

Section files.
Context `{bundle : BundleCodec}.

(** [read_json] *)
Definition read_json {A} (parse : string -> Result A) (dir : Dir) (path label : string)
    : Result A :=
  bytes ← ok_or (Protocol ("failed to read " +:+ label +:+ " at " +:+ path)) (fs_read dir path);
  parse bytes.

(** The loop of [read_jsonl]; blank lines are skipped, an error names the
    line. *)
Fixpoint parse_lines {A} (parse : string -> Result A) (label : string) (index : Z)
    (ls : list string) : Result (list A) :=
  match ls with
  | [] => Ok []
  | line :: ls =>
      if is_blank line then parse_lines parse label (index + 1) ls
      else
        item ← match parse line with
               | Ok item => Ok item
               | Err _ => Err (Protocol ("failed to parse " +:+ label +:+ " line "
                                 +:+ show_Z (index + 1)))
               end;
        items ← parse_lines parse label (index + 1) ls;
        Ok (item :: items)
  end.

(** [read_jsonl] *)
Definition read_jsonl {A} (parse : string -> Result A) (dir : Dir) (path label : string)
    : Result (list A) :=
  content ← ok_or (Protocol ("failed to read " +:+ label +:+ " at " +:+ path))
    (content ← fs_read dir path; if valid_utf8 content then Some content else None);
  parse_lines parse label 0 (lines content).

(** [jsonl_bytes] *)
Definition jsonl_bytes {A} (write : A -> Result string) (items : list A) : Result string :=
  written ← try_map write items;
  Ok (concat_str (List.map (fun line => line +:+ nl) written)).

(** [write_bundle_file] *)
Definition write_bundle_file (dir : Dir) (relative_path bytes : string)
    : Result (SessionBundleChecksumEntry * Dir) :=
  _ ← validate_bundle_relative_path relative_path;
  Ok (MkChecksumEntry relative_path (hash_bytes bytes) (Z.of_nat (byte_len bytes)),
      fs_write dir relative_path bytes).

(** [verify_file_checksum] *)
Definition verify_file_checksum (dir : Dir) (entry : SessionBundleChecksumEntry) : Result unit :=
  _ ← validate_bundle_relative_path (ck_path entry);
  bytes ← ok_or (invalid_bundle ("checksum entry " +:+ ck_path entry +:+ " cannot be read"))
            (fs_read dir (ck_path entry));
  _ ← reject_if (negb (bool_decide (hash_bytes bytes = ck_hash entry)))
        (invalid_bundle ("checksum mismatch for " +:+ ck_path entry +:+ ": expected "
           +:+ hash_str (ck_hash entry) +:+ ", got " +:+ hash_str (hash_bytes bytes)));
  reject_if (negb (Z.of_nat (byte_len bytes) =? ck_size_bytes entry))
    (invalid_bundle ("size mismatch for " +:+ ck_path entry +:+ ": expected "
       +:+ show_Z (ck_size_bytes entry) +:+ ", got " +:+ show_Z (Z.of_nat (byte_len bytes)))).

(** Each element in turn; the first error ends the loop. *)
Fixpoint try_iter {A} (f : A -> Result unit) (l : list A) : Result unit :=
  match l with
  | [] => Ok tt
  | a :: l => _ ← f a; try_iter f l
  end.

(** A loop with early return. *)
Fixpoint try_fold {A S} (step : S -> A -> Result S) (st : S) (l : list A) : Result S :=
  match l with
  | [] => Ok st
  | a :: l => st ← step st a; try_fold step st l
  end.

(** [collect_bundle_files], which walks the whole tree; each name found is
    checked. *)
Definition collect_bundle_files (dir : Dir) : Result (gset string) :=
  let files := List.map (fun kv => file_path kv.1) (map_to_list dir) in
  _ ← try_iter validate_bundle_relative_path files;
  Ok (list_to_set files).

(** The paths a manifest's contents name. *)
Definition content_paths (contents : list ContentRef) : list string := omap cr_path contents.

(** Distinct checksum paths, as a set. *)
Fixpoint insert_checksum_paths (seen : gset string) (entries : list SessionBundleChecksumEntry)
    : Result (gset string) :=
  match entries with
  | [] => Ok seen
  | entry :: entries =>
      _ ← validate_bundle_relative_path (ck_path entry);
      _ ← reject_if (bool_decide (ck_path entry ∈ seen))
            (invalid_bundle ("duplicate checksum entry " +:+ ck_path entry));
      insert_checksum_paths ({[ck_path entry]} ∪ seen) entries
  end.

(** The first element, in the order of the set, that is not in the other. *)
Definition require_subset (message : string -> string) (left right : gset string) : Result unit :=
  try_iter (fun path => reject_if (bool_decide (path ∉ right)) (invalid_bundle (message path)))
    (sorted_elements left).

(** [validate_bundle_inventory_is_closed] *)
Definition validate_bundle_inventory_is_closed (dir : Dir) (manifest : SessionBundleManifest)
    (checksums : SessionBundleChecksums) : Result unit :=
  _ ← try_iter validate_bundle_relative_path (content_paths (mf_contents manifest));
  let expected : gset string :=
    {[SESSION_BT_EVENTS; SESSION_BT_RAW_CHUNK_REFS]}
      ∪ list_to_set (content_paths (mf_contents manifest)) in
  checksum_paths ← insert_checksum_paths ∅ (cs_files checksums);
  _ ← require_subset (fun path => "checksum manifest is missing required path " +:+ path) expected checksum_paths;
  _ ← require_subset (fun path => "checksum manifest contains unreferenced path " +:+ path) checksum_paths expected;
  collected ← collect_bundle_files dir;
  let actual_files := collected ∖ {[SESSION_BT_MANIFEST; SESSION_BT_CHECKSUMS]} in
  _ ← require_subset (fun path => "bundle contains untracked file " +:+ path) actual_files checksum_paths;
  require_subset (fun path => "checksum path " +:+ path +:+ " does not exist in bundle") checksum_paths actual_files.
End files.

(** A line of JSON: UTF-8 without line breaks, and not blank. *)
Fixpoint no_newline (s : string) : bool :=
  match s with
  | EmptyString => true
  | String a s => negb (Ascii.eqb a newline) && no_newline s
  end.

Definition one_line (s : string) : Prop :=
  valid_utf8 s = true /\ no_newline s = true /\ is_blank s = false
  /\ strip_carriage_return s = s.

(** The four variants with a portable form of their own have no other. *)
Definition has_own_form (payload : EventPayload) : bool :=
  match payload with
  | CompletionChunkEvent _ _ _ | RawChunkPersisted _ _ _ _
  | TurnContextManifestRecorded _ | ContextCompacted _ => true
  | _ => false
  end.

Definition portable_ok (payload : PortableEventPayload) : bool :=
  match payload with PortableSame payload => negb (has_own_form payload) | _ => true end.

(** What is written is read back; an event, when its numbers are. *)
Class BundleCodecLaws `{BundleCodec} : Prop := {
  payload_trip_same p q : payload_trip p = Ok q -> q = p;
  read_write_event r s : exact_event r -> write_event r = Ok s -> read_event s = Ok r;
  read_event_portable s r : read_event s = Ok r -> portable_ok (pe_payload (er_event r)) = true;
  write_event_line r s : write_event r = Ok s -> one_line s;
  read_write_raw_ref r s : write_raw_ref r = Ok s -> read_raw_ref s = Ok r;
  write_raw_ref_line r s : write_raw_ref r = Ok s -> one_line s;
  read_write_checksums c s : write_checksums c = Ok s -> read_checksums s = Ok c;
  read_write_manifest m s : write_manifest m = Ok s -> read_manifest s = Ok m;
}.
