(* ===== verification/BundleExport.v ===== *)
(** * Exporting a session as a bundle ([bt-session/src/export.rs])

    Live events become portable ones, raw chunks and artifacts become files
    named by their hash, and the manifest records branches, the runs of the
    log that belong to one branch, and what was written. *)

From stdpp Require Import base list strings gmap sorting.
From Stdlib Require Import ZArith Lia Ascii.
From S2P Require Import Prelude Text Json Types TurnProjection Store StoreOps StoreRelated.
From S2P Require Import StoreReplay StoreQueries Bundle BundleFiles.

#[local] Open Scope Z_scope.

(** ** Rows read by the export *)

Record RawChunkRecord : Type := MkRawChunkRecord {
  rk_chunk_id : Z;
  rk_session_id : SessionId;
  rk_branch_id : option BranchId;
  rk_turn_id : option TurnId;
  rk_llm_call_ordinal : option Z;
  rk_event_id : option string;
  rk_provider : string;
  rk_stream_name : string;
  rk_content : string;
  rk_received_at : OffsetDateTime;
}.

Definition chunk_id_le (a b : Z * RawChunkRow) : Prop := a.1 <= b.1.
#[export] Instance chunk_id_le_dec a b : Decision (chunk_id_le a b).
Proof. unfold chunk_id_le. apply _. Defined.

Definition branch_created_le (a b : BranchId * BranchRow) : Prop :=
  str_leb (bw_created_at a.2) (bw_created_at b.2) = true.
#[export] Instance branch_created_le_dec a b : Decision (branch_created_le a b).
Proof. unfold branch_created_le. apply _. Defined.

(** ** Between live and portable *)

(** [RawChunkEventRef] *)
Record RawChunkEventRef : Type := MkRawChunkEventRef {
  re_local_chunk_id : Z;
  re_content_hash : PortableHash;
}.

(** [From<&ContextMessageRef>], [PortableContextMessageRef::to_live] *)
Definition portable_message_ref (value : ContextMessageRef) : PortableContextMessageRef :=
  MkPortableContextMessageRef (mr_message_id value) (mr_role value) (mr_source_branch_id value)
    (mr_part_count value) (mr_visible_text_chars value).

Definition message_ref_to_live (value : PortableContextMessageRef) : ContextMessageRef :=
  MkContextMessageRef (pm_message_id value) (pm_role value) (pm_source_branch_id value) None
    (pm_part_count value) (pm_visible_text_chars value).

(** [From<&ContextManifest>], [PortableContextManifest::to_live] *)
Definition portable_manifest (value : ContextManifest) : PortableContextManifest :=
  {| pn_turn_id := cm_turn_id value; pn_branch_id := cm_branch_id value;
     pn_llm_call_ordinal := cm_llm_call_ordinal value; pn_provider := cm_provider value;
     pn_model := cm_model value; pn_settings_revision_id := cm_settings_revision_id value;
     pn_system_prompt := cm_system_prompt value;
     pn_messages := List.map portable_message_ref (cm_messages value);
     pn_tools := cm_tools value; pn_attachments := cm_attachments value;
     pn_max_tokens := cm_max_tokens value; pn_thinking := cm_thinking value;
     pn_compacted := cm_compacted value |}.

Definition manifest_to_live (value : PortableContextManifest) : ContextManifest :=
  {| cm_turn_id := pn_turn_id value; cm_branch_id := pn_branch_id value;
     cm_llm_call_ordinal := pn_llm_call_ordinal value; cm_provider := pn_provider value;
     cm_model := pn_model value; cm_settings_revision_id := pn_settings_revision_id value;
     cm_context_boundary_seq_id := None;
     cm_system_prompt := pn_system_prompt value;
     cm_messages := List.map message_ref_to_live (pn_messages value);
     cm_tools := pn_tools value; cm_attachments := pn_attachments value;
     cm_max_tokens := pn_max_tokens value; cm_thinking := pn_thinking value;
     cm_compacted := pn_compacted value |}.

Definition portable_compacted (value : ContextCompactedPayload) : PortableContextCompacted :=
  {| px_compaction_id := cc_compaction_id value; px_window_number := cc_window_number value;
     px_previous_compaction_id := cc_previous_compaction_id value;
     px_first_compaction_id := cc_first_compaction_id value; px_trigger := cc_trigger value;
     px_phase := cc_phase value; px_status := cc_status value; px_reason := cc_reason value;
     px_provider := cc_provider value; px_model := cc_model value;
     px_summary_message_id := cc_summary_message_id value;
     px_first_kept_message_id := cc_first_kept_message_id value;
     px_first_kept_branch_id := cc_first_kept_branch_id value;
     px_latency_ms := cc_latency_ms value; px_summary := cc_summary value;
     px_messages_before := cc_messages_before value; px_messages_after := cc_messages_after value;
     px_tokens_before := cc_tokens_before value; px_tokens_after := cc_tokens_after value;
     px_files_read := cc_files_read value; px_files_modified := cc_files_modified value |}.

Definition compacted_to_live (value : PortableContextCompacted) : ContextCompactedPayload :=
  {| cc_compaction_id := px_compaction_id value; cc_window_number := px_window_number value;
     cc_previous_compaction_id := px_previous_compaction_id value;
     cc_first_compaction_id := px_first_compaction_id value; cc_trigger := px_trigger value;
     cc_phase := px_phase value; cc_status := px_status value; cc_reason := px_reason value;
     cc_provider := px_provider value; cc_model := px_model value;
     cc_context_boundary_seq_id := None;
     cc_summary_message_id := px_summary_message_id value;
     cc_first_kept_message_id := px_first_kept_message_id value;
     cc_first_kept_branch_id := px_first_kept_branch_id value;
     cc_first_kept_seq_id := None;
     cc_latency_ms := px_latency_ms value; cc_summary := px_summary value;
     cc_messages_before := px_messages_before value; cc_messages_after := px_messages_after value;
     cc_tokens_before := px_tokens_before value; cc_tokens_after := px_tokens_after value;
     cc_files_read := px_files_read value; cc_files_modified := px_files_modified value |}.

(** ** Records of the export *)

(** [EventRecordInfo]; the two sets of references have at most one element. *)
Record EventRecordInfo : Type := MkEventRecordInfo {
  ei_ordinal : Z;
  ei_event_id : EventId;
  ei_branch_id : BranchId;
  ei_event_hash : PortableHash;
  ei_raw_chunk_content_refs : list PortableHash;
  ei_raw_chunk_refs : list RawChunkEventRef;
}.

Record ExportedRawChunkInfo : Type := MkExportedRawChunkInfo {
  xr_chunk_ordinal : Z;
  xr_session_id : SessionId;
  xr_branch_id : option BranchId;
  xr_turn_id : option TurnId;
  xr_llm_call_ordinal : option Z;
  xr_provider : string;
  xr_stream_name : string;
  xr_content : ContentRef;
  xr_bytes : string;
}.

Record ExportedArtifact : Type := MkExportedArtifact {
  xa_artifact_id : string;
  xa_kind : string;
  xa_content : ContentRef;
}.

Inductive SessionBundleArtifactSource : Type :=
  | ArtifactFile (path : string)
  | ArtifactBytes (display_name bytes : string) (media_type : option string).

Record SessionBundleArtifactInput : Type := MkArtifactInput {
  ai_artifact_id : option string;
  ai_kind : string;
  ai_source : SessionBundleArtifactSource;
}.

Record SessionBundleExportOptions : Type := MkExportOptions {
  xo_artifact_mode : SessionBundleArtifactMode;
  xo_artifacts : list SessionBundleArtifactInput;
}.

(** [SessionBundleExportOptions::default] *)
Definition default_export_options : SessionBundleExportOptions := MkExportOptions TraceOnly [].

(** The output path before the export. *)
Inductive OutputPath : Type :=
  | OutputMissing
  | OutputNotDirectory
  | OutputDirectory (entries : list string).

(** The files of the host, outside the bundle: [Path::canonicalize] as the
    components of an absolute path, the kind of a file ([None] when it has no
    metadata), and its bytes. *)
Class HostFiles : Type := {
  canonicalize : string -> option (list string);
  is_regular_file : list string -> option bool;
  host_read : list string -> option string;
}.

(** [ensure_empty_output_dir] *)
Definition ensure_empty_output_dir (output_dir : string) (output : OutputPath) : Result unit :=
  match output with
  | OutputMissing => Ok tt
  | OutputNotDirectory =>
      Err (InvalidState ("bundle output path is not a directory: " +:+ output_dir))
  | OutputDirectory [] => Ok tt
  | OutputDirectory (_ :: _) =>
      Err (InvalidState ("bundle output directory must be empty: " +:+ output_dir))
  end.

(** ** Names of artifacts *)

(** [str::trim_matches('.')] of a list of characters *)
Definition trim_dots (cs : list string) : list string :=
  drop_while_end (String.eqb ".") (drop_while (String.eqb ".") cs).

Definition sanitize_char (c : string) : string :=
  match c with
  | String a "" =>
      if byte_is 48 57 a || byte_is 65 90 a || byte_is 97 122 a
         || byte_is 45 46 a || byte_is 95 95 a
      then c else "_"
  | _ => "_"
  end.

(** [sanitize_bundle_filename] *)
Definition sanitize_bundle_filename (value : string) : string :=
  let sanitized := concat_str (trim_dots (List.map sanitize_char (chars value))) in
  if is_empty sanitized then "artifact" else sanitized.

(** [Path::file_name] *)
Definition file_name (path : string) : option string :=
  match last (path_components path) with
  | Some c => if String.eqb c ".." then None else Some c
  | None => None
  end.

(** [Path::extension]: what follows the last dot, when something comes before
    it. *)
Definition extension (path : string) : option string :=
  name ← file_name path;
  match reverse (split_char "."%char name) with
  | after :: ((_ :: _) as before) =>
      if is_empty (join "." (reverse before)) then None else Some after
  | _ => None
  end.

Definition one_of (names : list string) (s : string) : bool := existsb (String.eqb s) names.

(** [infer_media_type] *)
Definition infer_media_type (name : string) : option string :=
  found ← extension name;
  let ext := to_ascii_lowercase found in
  Some (
    if one_of ["json"] ext then "application/json"
    else if one_of ["jsonl"; "ndjson"] ext then "application/x-ndjson"
    else if one_of ["md"; "markdown"] ext then "text/markdown"
    else if one_of ["txt"; "log"] ext then "text/plain"
    else if one_of ["html"; "htm"] ext then "text/html"
    else if one_of ["patch"; "diff"] ext then "text/x-patch"
    else if one_of ["csv"] ext then "text/csv"
    else if one_of ["tsv"] ext then "text/tab-separated-values"
    else if one_of ["svg"] ext then "image/svg+xml"
    else if one_of ["png"] ext then "image/png"
    else if one_of ["jpg"; "jpeg"] ext then "image/jpeg"
    else if one_of ["pdf"] ext then "application/pdf"
    else "application/octet-stream").

(** ** Runs of the log *)

Definition info_le (a b : EventRecordInfo) : Prop := ei_ordinal a <= ei_ordinal b.
#[export] Instance info_le_dec a b : Decision (info_le a b).
Proof. unfold info_le. apply _. Defined.

(** [event_range_from_run] *)
Definition event_range_from_run (first last : EventRecordInfo) : EventRange :=
  {| eg_branch_id := ei_branch_id first;
     eg_ordinal_start := ei_ordinal first;
     eg_ordinal_end := ei_ordinal last;
     eg_first_event_hash := ei_event_hash first;
     eg_last_event_hash := ei_event_hash last;
     eg_exported_store_seq_start := None;
     eg_exported_store_seq_end := None |}.

(** The loop of [build_event_ranges]: a run ends where the branch changes or
    an ordinal is missing, and is kept when its branch is exported. *)
Fixpoint event_runs (branch_ids : gset BranchId) (first last : EventRecordInfo)
    (infos : list EventRecordInfo) : list EventRange :=
  match infos with
  | [] =>
      if bool_decide (ei_branch_id first ∈ branch_ids) then [event_range_from_run first last]
      else []
  | info :: infos =>
      if negb (bool_decide (ei_branch_id info = ei_branch_id first))
         || negb (ei_ordinal info =? ei_ordinal last + 1)
      then
        (if bool_decide (ei_branch_id first ∈ branch_ids) then [event_range_from_run first last]
         else []) ++ event_runs branch_ids info info infos
      else event_runs branch_ids first info infos
  end.

(** [build_event_ranges] *)
Definition build_event_ranges (branches : list BranchRecord)
    (event_infos : list EventRecordInfo) : list EventRange :=
  match merge_sort info_le event_infos with
  | [] => []
  | first :: infos => event_runs (list_to_set (List.map br_branch_id branches)) first first infos
  end.

(** ** Branches *)

(** The branch's recorded head, or else its latest event. *)
Definition head_info (branch : BranchRecord) (event_infos : list EventRecordInfo)
    : option EventRecordInfo :=
  let latest := List.find (fun info => bool_decide (ei_branch_id info = br_branch_id branch))
                  (reverse event_infos) in
  match br_head_event_id branch with
  | Some event_id =>
      match List.find (fun info => bool_decide (ei_event_id info = event_id)) event_infos with
      | Some info => Some info
      | None => latest
      end
  | None => latest
  end.

(** [build_branch_manifests] *)
Definition build_branch_manifests (branches : list BranchRecord)
    (event_infos : list EventRecordInfo) (bundle_hash : option PortableHash)
    : list BranchManifest :=
  List.map (fun branch =>
    {| bm_branch_id := br_branch_id branch;
       bm_parent_branch_id := br_parent_branch_id branch;
       bm_parent_event_id := br_parent_event_id branch;
       bm_head := (fun info =>
         {| nr_bundle_hash := bundle_hash;
            nr_session_id := br_session_id branch;
            nr_branch_id := br_branch_id branch;
            nr_bundle_event_ordinal := ei_ordinal info;
            nr_store_seq_id := None;
            nr_event_id := ei_event_id info;
            nr_event_hash := ei_event_hash info |}) <$> head_info branch event_infos;
       bm_is_default := br_is_default branch;
       bm_summary := br_summary branch |}) branches.

(** [default_artifact_source_node] *)
Definition default_artifact_source_node (session : SessionRecord) (branches : list BranchRecord)
    (event_infos : list EventRecordInfo) (bundle_hash : PortableHash) : Result SessionNodeRef :=
  default_branch ← ok_or (invalid_bundle "cannot attach artifact without a branch")
    (match List.find br_is_default branches with
     | Some branch => Some branch
     | None => head branches
     end);
  selected ← ok_or (invalid_bundle "cannot attach artifact without an event source node")
    (match head_info default_branch event_infos with
     | Some info => Some info
     | None => last event_infos
     end);
  Ok {| nr_bundle_hash := Some bundle_hash;
        nr_session_id := se_session_id session;
        nr_branch_id := ei_branch_id selected;
        nr_bundle_event_ordinal := ei_ordinal selected;
        nr_store_seq_id := None;
        nr_event_id := ei_event_id selected;
        nr_event_hash := ei_event_hash selected |}.

(** [build_artifact_refs] *)
Definition build_artifact_refs (session : SessionRecord) (branches : list BranchRecord)
    (event_infos : list EventRecordInfo) (artifacts : list ExportedArtifact)
    (bundle_hash : PortableHash) : Result (list BundleArtifactRef) :=
  match artifacts with
  | [] => Ok []
  | _ =>
      source_node ← default_artifact_source_node session branches event_infos bundle_hash;
      Ok (List.map (fun artifact =>
            MkBundleArtifactRef (xa_artifact_id artifact) (xa_kind artifact) source_node
              (xa_content artifact)) artifacts)
  end.

Section export.
Context `{codec : RowCodec} `{bundle : BundleCodec} `{host : HostFiles}.

(** [parse_raw_chunk_record] *)
Definition parse_raw_chunk_record (kv : Z * RawChunkRow) : option RawChunkRecord :=
  let '(chunk_id, row) := kv in
  received_at ← parse_time (rc_received_at row);
  Some (MkRawChunkRecord chunk_id (rc_session_id row) (rc_branch_id row) (rc_turn_id row)
          (rc_llm_call_ordinal row) (rc_event_id row) (rc_provider row) (rc_stream_name row)
          (rc_content row) received_at).

(** [load_all_raw_chunks] *)
Definition load_all_raw_chunks (session_id : SessionId) (db : Db) : Result (list RawChunkRecord) :=
  try_map (fun kv => storage (parse_raw_chunk_record kv))
    (merge_sort chunk_id_le (List.filter (fun kv =>
       bool_decide (rc_session_id kv.2 = session_id)) (map_to_list (db_raw_chunks db)))).

(** [load_branches] *)
Definition load_branches (session_id : SessionId) (db : Db) : Result (list BranchRecord) :=
  try_map (fun kv => storage (parse_branch_record kv.1 kv.2))
    (merge_sort branch_created_le (List.filter (fun kv =>
       bool_decide (bw_session_id kv.2 = session_id)) (map_to_list (db_branches db)))).

(** [raw_chunk_ref] *)
Definition raw_chunk_ref (local_chunk_id : Z) (hashes : gmap Z PortableHash) (label : string)
    : Result RawChunkEventRef :=
  content_hash ← ok_or (invalid_bundle (label +:+ " references missing raw chunk "
                   +:+ show_Z local_chunk_id)) (hashes !! local_chunk_id);
  Ok (MkRawChunkEventRef local_chunk_id content_hash).

(** [PortableEventPayload::from_live]; the set of references has at most one
    element. *)
Definition payload_from_live (payload : EventPayload) (hashes : gmap Z PortableHash)
    : Result (PortableEventPayload * list RawChunkEventRef) :=
  match payload with
  | CompletionChunkEvent llm_call_ordinal deltas raw_chunk_index =>
      match raw_chunk_index with
      | Some local_chunk_id =>
          raw_ref ← raw_chunk_ref local_chunk_id hashes "completion chunk";
          Ok (PortableCompletionChunk llm_call_ordinal deltas (Some (re_content_hash raw_ref)),
              [raw_ref])
      | None => Ok (PortableCompletionChunk llm_call_ordinal deltas None, [])
      end
  | RawChunkPersisted provider chunk_index stream llm_call_ordinal =>
      raw_ref ← raw_chunk_ref chunk_index hashes "raw chunk persisted event";
      Ok (PortableRawChunkPersisted provider (re_content_hash raw_ref) stream llm_call_ordinal,
          [raw_ref])
  | TurnContextManifestRecorded manifest => Ok (PortableManifestRecorded (portable_manifest manifest), [])
  | ContextCompacted compaction => Ok (PortableCompacted (portable_compacted compaction), [])
  | _ =>
      payload ← payload_trip payload;
      Ok (PortableSame payload, [])
  end.

(** [PortableEventEnvelope::from_live] *)
Definition event_from_live (event : EventEnvelope) (hashes : gmap Z PortableHash)
    : Result (PortableEventEnvelope * list RawChunkEventRef) :=
  converted ← payload_from_live (ev_payload event) hashes;
  let '(payload, raw_chunk_refs) := converted in
  Ok (MkPortableEventEnvelope (ev_event_id event) (ev_session_id event) (ev_branch_id event)
        (ev_turn_id event) (ev_span_id event) (ev_parent_span_id event) (ev_span_kind event)
        (ev_occurred_at event) payload (ev_attributes event), raw_chunk_refs).

(** [PortableEventPayload::kind] *)
Definition portable_kind (payload : PortableEventPayload) : string :=
  match payload with
  | PortableCompletionChunk _ _ _ => "completion.chunk"
  | PortableRawChunkPersisted _ _ _ _ => "raw_chunk.persisted"
  | PortableManifestRecorded _ => "turn.context_manifest.recorded"
  | PortableCompacted _ => "context.compacted"
  | PortableSame payload => kind payload
  end.

(** [raw_chunk_content_refs]: a set of at most one element *)
Definition raw_chunk_content_refs (payload : PortableEventPayload) : list PortableHash :=
  match payload with
  | PortableCompletionChunk _ _ (Some content_hash) => [content_hash]
  | PortableRawChunkPersisted _ content_hash _ _ => [content_hash]
  | _ => []
  end.

(** [build_event_records], from the ordinal of the first event. *)
Fixpoint build_event_records_from (ordinal : Z) (stored_events : list (Z * EventEnvelope))
    (hashes : gmap Z PortableHash)
    : Result (list SessionBundleEventRecord * list EventRecordInfo) :=
  match stored_events with
  | [] => Ok ([], [])
  | (_, event) :: stored_events =>
      converted ← event_from_live event hashes;
      let '(portable_event, raw_chunk_refs) := converted in
      event_hash ← canonical_event_hash portable_event;
      rest ← build_event_records_from (ordinal + 1) stored_events hashes;
      Ok (MkEventRecord ordinal (kind (ev_payload event)) event_hash portable_event :: rest.1,
          MkEventRecordInfo ordinal (ev_event_id event) (ev_branch_id event) event_hash
            (raw_chunk_content_refs (pe_payload portable_event)) raw_chunk_refs :: rest.2)
  end.
Definition build_event_records := build_event_records_from 0.

(** ** Raw chunks *)

Definition raw_chunk_path (content_hash : PortableHash) : string :=
  SESSION_BT_RAW_CHUNKS_DIR +:+ "/" +:+ sha256_hex content_hash +:+ ".bin".

Definition exported_chunk (chunk_ordinal : Z) (raw_chunk : RawChunkRecord) : ExportedRawChunkInfo :=
  let content_hash := hash_bytes (rk_content raw_chunk) in
  {| xr_chunk_ordinal := chunk_ordinal;
     xr_session_id := rk_session_id raw_chunk;
     xr_branch_id := rk_branch_id raw_chunk;
     xr_turn_id := rk_turn_id raw_chunk;
     xr_llm_call_ordinal := rk_llm_call_ordinal raw_chunk;
     xr_provider := rk_provider raw_chunk;
     xr_stream_name := rk_stream_name raw_chunk;
     xr_content := {| cr_hash := content_hash;
                      cr_media_type := Some "application/octet-stream";
                      cr_size_bytes := Z.of_nat (byte_len (rk_content raw_chunk));
                      cr_path := Some (raw_chunk_path content_hash) |};
     xr_bytes := rk_content raw_chunk |}.

(** [prepare_raw_chunks] *)
Fixpoint prepare_raw_chunks_from (chunk_ordinal : Z) (raw_chunks : list RawChunkRecord)
    (by_local_id : gmap Z ExportedRawChunkInfo) (hashes : gmap Z PortableHash)
    : gmap Z ExportedRawChunkInfo * gmap Z PortableHash :=
  match raw_chunks with
  | [] => (by_local_id, hashes)
  | raw_chunk :: raw_chunks =>
      prepare_raw_chunks_from (chunk_ordinal + 1) raw_chunks
        (<[rk_chunk_id raw_chunk := exported_chunk chunk_ordinal raw_chunk]> by_local_id)
        (<[rk_chunk_id raw_chunk := hash_bytes (rk_content raw_chunk)]> hashes)
  end.
Definition prepare_raw_chunks (raw_chunks : list RawChunkRecord) :=
  prepare_raw_chunks_from 0 raw_chunks ∅ ∅.

(** What the export has written: the directory and its checksums. *)
Record Written : Type := MkWritten {
  wr_dir : Dir;
  wr_checksums : list SessionBundleChecksumEntry;
}.

(** [checksums.push(write_bundle_file(..)?)] *)
Definition push_file (relative_path bytes : string) (w : Written) : Result Written :=
  written ← write_bundle_file (wr_dir w) relative_path bytes;
  let '(entry, dir) := written in
  Ok (MkWritten dir (wr_checksums w ++ [entry])).

(** The locals of [build_raw_chunk_refs]. *)
Record RawRefs : Type := MkRawRefs {
  rr_refs : list SessionBundleRawChunkRef;
  rr_written_hashes : gset PortableHash;
  rr_contents_by_hash : gmap PortableHash ContentRef;
  rr_written : Written;
}.

(** One reference of one event. *)
Definition add_raw_chunk_ref (by_local_id : gmap Z ExportedRawChunkInfo)
    (event_info : EventRecordInfo) (st : RawRefs) (event_ref : RawChunkEventRef)
    : Result RawRefs :=
  let event := "event " +:+ show_id (ei_event_id event_info) in
  let chunk_id := show_Z (re_local_chunk_id event_ref) in
  raw_chunk ← ok_or (invalid_bundle (event +:+ " references missing raw chunk " +:+ chunk_id))
                (by_local_id !! re_local_chunk_id event_ref);
  let content := xr_content raw_chunk in
  _ ← reject_if (negb (bool_decide (cr_hash content = re_content_hash event_ref)))
        (invalid_bundle (event +:+ " raw chunk " +:+ chunk_id +:+ " hash mismatch: expected "
           +:+ hash_str (re_content_hash event_ref) +:+ ", got " +:+ hash_str (cr_hash content)));
  written ← (if bool_decide (cr_hash content ∈ rr_written_hashes st) then Ok (rr_written st)
             else
               relative_path ← ok_or (invalid_bundle ("raw chunk " +:+ chunk_id
                                        +:+ " is missing a content path")) (cr_path content);
               push_file relative_path (xr_bytes raw_chunk) (rr_written st));
  Ok {| rr_refs := rr_refs st ++
          [{| rx_chunk_ordinal := xr_chunk_ordinal raw_chunk;
              rx_session_id := xr_session_id raw_chunk;
              rx_branch_id := xr_branch_id raw_chunk;
              rx_turn_id := xr_turn_id raw_chunk;
              rx_llm_call_ordinal := xr_llm_call_ordinal raw_chunk;
              rx_event_id := Some (show_id (ei_event_id event_info));
              rx_provider := xr_provider raw_chunk;
              rx_stream_name := xr_stream_name raw_chunk;
              rx_content := content |}];
        rr_written_hashes := {[cr_hash content]} ∪ rr_written_hashes st;
        rr_contents_by_hash :=
          match rr_contents_by_hash st !! cr_hash content with
          | Some _ => rr_contents_by_hash st
          | None => <[cr_hash content := content]> (rr_contents_by_hash st)
          end;
        rr_written := written |}.

(** [build_raw_chunk_refs] *)
Definition build_raw_chunk_refs (by_local_id : gmap Z ExportedRawChunkInfo)
    (event_infos : list EventRecordInfo) (w : Written)
    : Result (list SessionBundleRawChunkRef * list ContentRef * Written) :=
  st ← try_fold (fun st event_info =>
         try_fold (add_raw_chunk_ref by_local_id event_info) st (ei_raw_chunk_refs event_info))
       (MkRawRefs [] ∅ ∅ w) event_infos;
  Ok (rr_refs st,
      List.map snd (merge_sort (fun a b => hash_le a.1 b.1) (map_to_list (rr_contents_by_hash st))),
      rr_written st).

(** ** Artifacts *)

Definition show_path (components : list string) : string := "/" +:+ join "/" components.

(** [resolve_artifact_path]; the errors leave out the system's part. *)
Definition resolve_artifact_path (session : SessionRecord) (path : string)
    : Result (list string) :=
  project_root ← ok_or (Config ("cannot resolve session project root " +:+ se_project_root session))
                   (canonicalize (se_project_root session));
  let candidate := if starts_with "/" path then path
                   else show_path project_root +:+ "/" +:+ path in
  resolved ← ok_or (Config ("cannot resolve session bundle artifact " +:+ candidate))
               (canonicalize candidate);
  _ ← reject_if (negb (bool_decide (project_root `prefix_of` resolved)))
        (Config ("session bundle artifact " +:+ show_path resolved +:+ " escapes project root "
           +:+ show_path project_root));
  Ok resolved.

(** [artifact_source_bytes]: the name, the bytes and the media type. *)
Definition artifact_source_bytes (session : SessionRecord) (source : SessionBundleArtifactSource)
    : Result (string * string * option string) :=
  match source with
  | ArtifactBytes display_name bytes media_type =>
      Ok (display_name, bytes,
          match media_type with
          | Some media_type => Some media_type
          | None => infer_media_type display_name
          end)
  | ArtifactFile path =>
      resolved ← resolve_artifact_path session path;
      regular ← ok_or (io_error (show_path resolved)) (is_regular_file resolved);
      _ ← reject_if (negb regular)
            (Config ("session bundle artifact is not a file: " +:+ show_path resolved));
      bytes ← ok_or (io_error (show_path resolved)) (host_read resolved);
      let display_name := default "artifact" (last resolved) in
      Ok (display_name, bytes, infer_media_type display_name)
  end.

Definition artifact_path (artifact_id display_name : string) : string :=
  SESSION_BT_ARTIFACTS_DIR +:+ "/" +:+ sanitize_bundle_filename artifact_id +:+ "-"
    +:+ sanitize_bundle_filename display_name.

(** The loop body of [export_artifacts], with the ids seen so far. *)
Definition export_artifact (session : SessionRecord)
    (st : list ExportedArtifact * gset string * Written) (artifact : SessionBundleArtifactInput)
    : Result (list ExportedArtifact * gset string * Written) :=
  let '(exported, artifact_ids, w) := st in
  _ ← reject_if (is_blank (ai_kind artifact)) (Config "session bundle artifact kind must not be empty");
  source ← artifact_source_bytes session (ai_source artifact);
  let '(display_name, bytes, media_type) := source in
  let content_hash := hash_bytes bytes in
  let artifact_id := default (sanitize_bundle_filename (ai_kind artifact) +:+ "-"
                        +:+ String.substring 0 12 (sha256_hex content_hash))
                       (ai_artifact_id artifact) in
  _ ← reject_if (bool_decide (artifact_id ∈ artifact_ids))
        (Config ("duplicate session bundle artifact id " +:+ artifact_id));
  let relative_path := artifact_path artifact_id display_name in
  w ← push_file relative_path bytes w;
  Ok (exported ++
        [MkExportedArtifact artifact_id (ai_kind artifact)
           (MkContentRef content_hash media_type (Z.of_nat (byte_len bytes)) (Some relative_path))],
      {[artifact_id]} ∪ artifact_ids, w).

Definition is_nil {A} (l : list A) : bool := match l with [] => true | _ => false end.

(** [export_artifacts] *)
Definition export_artifacts (session : SessionRecord) (options : SessionBundleExportOptions)
    (w : Written) : Result (list ExportedArtifact * Written) :=
  _ ← reject_if (is_trace_only (xo_artifact_mode options) && negb (is_nil (xo_artifacts options)))
        (Config "trace-only session bundle export cannot include artifacts");
  st ← try_fold (export_artifact session) ([], ∅, w) (xo_artifacts options);
  let '(exported, _, w) := st in Ok (exported, w).

(** ** The export *)

Definition checksum_le (a b : SessionBundleChecksumEntry) : Prop := str_le (ck_path a) (ck_path b).
#[export] Instance checksum_le_dec a b : Decision (checksum_le a b).
Proof. unfold checksum_le. apply _. Defined.

Definition content_le (a b : ContentRef) : Prop := hash_le (cr_hash a) (cr_hash b).
#[export] Instance content_le_dec a b : Decision (content_le a b).
Proof. unfold content_le. apply _. Defined.

Definition CARGO_PKG_VERSION : string := "0.1.0".

(** [export_session_bundle_directory]: the manifest and the files of the
    directory.  An export that fails leaves what it wrote before, which is
    not described. *)
Definition export_session_bundle_directory (db : Db) (session_id : SessionId)
    (output_dir : string) (output : OutputPath) (options : SessionBundleExportOptions)
    : Result (SessionBundleManifest * Dir) :=
  _ ← ensure_empty_output_dir output_dir output;
  found ← load_session session_id db;
  session ← ok_or (NotFound ("session " +:+ show_id session_id)) found;
  branches ← load_branches session_id db;
  let stored_events := load_session_event_log session_id db in
  raw_chunks ← load_all_raw_chunks session_id db;
  let '(by_local_id, hashes) := prepare_raw_chunks raw_chunks in
  records ← build_event_records stored_events hashes;
  let '(event_records, event_infos) := records in
  built ← build_raw_chunk_refs by_local_id event_infos (MkWritten ∅ []);
  let '(raw_chunk_refs, contents, w) := built in
  exported ← export_artifacts session options w;
  let '(exported_artifacts, w) := exported in
  events_bytes ← jsonl_bytes write_event event_records;
  w ← push_file SESSION_BT_EVENTS events_bytes w;
  raw_refs_bytes ← jsonl_bytes write_raw_ref raw_chunk_refs;
  w ← push_file SESSION_BT_RAW_CHUNK_REFS raw_refs_bytes w;
  checksum_bytes ← write_checksums (MkChecksums SESSION_BT_SCHEMA_VERSION
                     (merge_sort checksum_le (wr_checksums w)));
  let bundle_hash := hash_bytes checksum_bytes in
  written ← write_bundle_file (wr_dir w) SESSION_BT_CHECKSUMS checksum_bytes;
  artifacts ← build_artifact_refs session branches event_infos exported_artifacts bundle_hash;
  let manifest :=
    {| mf_schema_version := SESSION_BT_SCHEMA_VERSION;
       mf_bundle_hash := bundle_hash;
       mf_session := session;
       mf_branches := build_branch_manifests branches event_infos (Some bundle_hash);
       mf_event_ranges := build_event_ranges branches event_infos;
       mf_producer := MkProducerInfo "belltower" CARGO_PKG_VERSION;
       mf_redaction := RedactNone;
       mf_artifact_mode := xo_artifact_mode options;
       mf_contents := merge_sort content_le (contents ++ List.map xa_content exported_artifacts);
       mf_artifacts := artifacts |} in
  manifest_bytes ← write_manifest manifest;
  Ok (manifest, fs_write written.2 SESSION_BT_MANIFEST manifest_bytes).
End export.
