(* ===== verification/BundleImport.v ===== *)
(** * Validating and importing a bundle ([bt-session/src/export.rs])

    A bundle is trusted after every file is hashed, the directory is closed,
    and the events, raw chunk references, branches, ranges and artifacts
    agree with one another.  Only then is it imported, in one transaction,
    continued, or compared. *)

From stdpp Require Import base list strings gmap sorting.
From Stdlib Require Import ZArith Lia Ascii.
From S2P Require Import Prelude Text Json Types TurnProjection Store StoreOps StoreRelated.
From S2P Require Import StoreReplay StoreQueries Bundle BundleFiles BundleExport.

#[local] Open Scope Z_scope.

Record SessionBundleValidationReport : Type := MkValidationReport {
  vr_bundle_hash : PortableHash;
  vr_session_id : SessionId;
  vr_event_count : Z;
  vr_raw_chunk_reference_count : Z;
  vr_raw_chunk_content_count : Z;
  vr_content_count : Z;
  vr_artifact_count : Z;
}.

Record SessionBundleImportReport : Type := MkImportReport {
  im_bundle_hash : PortableHash;
  im_session_id : SessionId;
  im_branch_count : Z;
  im_event_count : Z;
  im_raw_chunk_reference_count : Z;
  im_raw_chunk_content_count : Z;
}.

Record RawChunkRefIdentity : Type := MkRawChunkRefIdentity {
  ri_chunk_ordinal : Z;
  ri_session : SessionId;
  ri_branch : option BranchId;
  ri_turn : option TurnId;
  ri_llm_ordinal : option Z;
  ri_provider_name : string;
  ri_stream : string;
  ri_content_hash : PortableHash;
  ri_content_size_bytes : Z;
  ri_content_path : option string;
}.
#[export] Instance RawChunkRefIdentity_eq_dec : EqDecision RawChunkRefIdentity.
Proof. solve_decision. Defined.

Abbreviation RawChunkImportKey := (EventId * PortableHash)%type.

Definition len {A} (l : list A) : Z := Z.of_nat (length l).
Definition branch_set (branches : list BranchManifest) : gset BranchId :=
  list_to_set (List.map bm_branch_id branches).

(** [event_infos_by_id], [info_by_ordinal]: a later entry replaces an earlier
    one. *)
Definition infos_by_id (infos : list EventRecordInfo) : gmap EventId EventRecordInfo :=
  foldl (fun m info => <[ei_event_id info := info]> m) ∅ infos.
Definition infos_by_ordinal (infos : list EventRecordInfo) : gmap Z EventRecordInfo :=
  foldl (fun m info => <[ei_ordinal info := info]> m) ∅ infos.
Definition latest_infos (infos : list EventRecordInfo) : gmap BranchId EventRecordInfo :=
  foldl (fun m info => <[ei_branch_id info := info]> m) ∅ infos.

(** Distinct elements, as a set. *)
Definition insert_distinct {A} `{Countable A} (message : A -> string) (seen : gset A) (a : A)
    : Result (gset A) :=
  _ ← reject_if (bool_decide (a ∈ seen)) (invalid_bundle (message a));
  Ok ({[a]} ∪ seen).

Definition ordinal_le {A} (a b : Z * A) : Prop := a.1 <= b.1.
#[export] Instance ordinal_le_dec {A} (a b : Z * A) : Decision (ordinal_le a b).
Proof. unfold ordinal_le. apply _. Defined.

Section import.
Context `{codec : RowCodec} `{bundle : BundleCodec}.

(** ** Validation *)

(** The loop body of [validate_event_records]. *)
Definition validate_event_record (manifest_content_hashes raw_chunk_content_hashes : gset PortableHash)
    (manifest : SessionBundleManifest) (expected_ordinal : Z) (event_ids : gset EventId)
    (record : SessionBundleEventRecord) : Result (EventRecordInfo * gset EventId) :=
  let ordinal := show_Z (er_bundle_event_ordinal record) in
  _ ← reject_if (negb (er_bundle_event_ordinal record =? expected_ordinal))
        (invalid_bundle ("event ordinal gap: expected " +:+ show_Z expected_ordinal +:+ ", got "
           +:+ ordinal));
  event_hash ← canonical_event_hash (er_event record);
  _ ← reject_if (negb (bool_decide (event_hash = er_event_hash record)))
        (invalid_bundle ("event " +:+ ordinal +:+ " hash mismatch: expected "
           +:+ hash_str (er_event_hash record) +:+ ", got " +:+ hash_str event_hash));
  let payload_kind := portable_kind (pe_payload (er_event record)) in
  _ ← reject_if (negb (String.eqb (er_event_kind record) payload_kind))
        (invalid_bundle ("event " +:+ ordinal +:+ " kind mismatch: declared "
           +:+ er_event_kind record +:+ ", payload " +:+ payload_kind));
  let content_refs := raw_chunk_content_refs (pe_payload (er_event record)) in
  _ ← try_iter (fun content_ref =>
        let content := "event " +:+ ordinal +:+ " references raw chunk content "
                         +:+ hash_str content_ref +:+ " missing from " in
        _ ← reject_if (bool_decide (content_ref ∉ manifest_content_hashes))
              (invalid_bundle (content +:+ "manifest contents"));
        reject_if (bool_decide (content_ref ∉ raw_chunk_content_hashes))
          (invalid_bundle (content +:+ "raw_chunk_refs"))) content_refs;
  let event_id := pe_event_id (er_event record) in
  event_ids ← insert_distinct (fun id => "duplicate event_id " +:+ show_id id) event_ids event_id;
  _ ← reject_if (negb (bool_decide (pe_session_id (er_event record)
                                    = se_session_id (mf_session manifest))))
        (invalid_bundle ("event " +:+ ordinal +:+ " belongs to session "
           +:+ show_id (pe_session_id (er_event record)) +:+ ", expected "
           +:+ show_id (se_session_id (mf_session manifest))));
  Ok (MkEventRecordInfo (er_bundle_event_ordinal record) event_id
        (pe_branch_id (er_event record)) event_hash content_refs [], event_ids).

(** [validate_event_records], from an expected ordinal. *)
Fixpoint validate_event_records_from (manifest_content_hashes raw_chunk_content_hashes : gset PortableHash)
    (manifest : SessionBundleManifest) (expected_ordinal : Z) (event_ids : gset EventId)
    (event_records : list SessionBundleEventRecord) : Result (list EventRecordInfo) :=
  match event_records with
  | [] => Ok []
  | record :: event_records =>
      checked ← validate_event_record manifest_content_hashes raw_chunk_content_hashes manifest
                  expected_ordinal event_ids record;
      infos ← validate_event_records_from manifest_content_hashes raw_chunk_content_hashes
                manifest (expected_ordinal + 1) checked.2 event_records;
      Ok (checked.1 :: infos)
  end.
Definition validate_event_records (event_records : list SessionBundleEventRecord)
    (manifest_content_hashes raw_chunk_content_hashes : gset PortableHash)
    (manifest : SessionBundleManifest) : Result (list EventRecordInfo) :=
  validate_event_records_from manifest_content_hashes raw_chunk_content_hashes manifest 0 ∅
    event_records.

Definition raw_ref_identity (raw_ref : SessionBundleRawChunkRef) : RawChunkRefIdentity :=
  {| ri_chunk_ordinal := rx_chunk_ordinal raw_ref;
     ri_session := rx_session_id raw_ref;
     ri_branch := rx_branch_id raw_ref;
     ri_turn := rx_turn_id raw_ref;
     ri_llm_ordinal := rx_llm_call_ordinal raw_ref;
     ri_provider_name := rx_provider raw_ref;
     ri_stream := rx_stream_name raw_ref;
     ri_content_hash := cr_hash (rx_content raw_ref);
     ri_content_size_bytes := cr_size_bytes (rx_content raw_ref);
     ri_content_path := cr_path (rx_content raw_ref) |}.

Definition raw_chunk_label (raw_ref : SessionBundleRawChunkRef) : string :=
  "raw chunk " +:+ show_Z (rx_chunk_ordinal raw_ref).

(** [raw_ref.event_id ... .parse()]; the error leaves out the parser's text. *)
Definition raw_ref_event_id (raw_ref : SessionBundleRawChunkRef) : Result EventId :=
  text ← ok_or (invalid_bundle (raw_chunk_label raw_ref +:+ " does not include an event_id"))
           (rx_event_id raw_ref);
  id ← ok_or (invalid_bundle (raw_chunk_label raw_ref +:+ " has invalid event_id"))
         (parse_uuid text);
  Ok (MkUuid id).

Abbreviation RefState := (gmap Z RawChunkRefIdentity * gset RawChunkImportKey)%type.

Definition duplicate_ref (key : RawChunkImportKey) : string :=
  "duplicate raw chunk ref for event " +:+ show_id key.1 +:+ " content " +:+ hash_str key.2.

(** The loop body of [validate_raw_chunk_refs]. *)
Definition validate_raw_chunk_ref (manifest : SessionBundleManifest)
    (by_id : gmap EventId EventRecordInfo) (st : RefState) (raw_ref : SessionBundleRawChunkRef)
    : Result RefState :=
  let '(identities, refs_by_event_content) := st in
  let chunk := raw_chunk_label raw_ref in
  _ ← reject_if (negb (bool_decide (rx_session_id raw_ref = se_session_id (mf_session manifest))))
        (invalid_bundle (chunk +:+ " belongs to session " +:+ show_id (rx_session_id raw_ref)
           +:+ ", expected " +:+ show_id (se_session_id (mf_session manifest))));
  branch_id ← ok_or (invalid_bundle (chunk +:+ " does not include a branch_id"))
                (rx_branch_id raw_ref);
  _ ← reject_if (bool_decide (branch_id ∉ branch_set (mf_branches manifest)))
        (invalid_bundle (chunk +:+ " references missing branch " +:+ show_id branch_id));
  let identity := raw_ref_identity raw_ref in
  _ ← (match identities !! rx_chunk_ordinal raw_ref with
       | Some existing => reject_if (negb (bool_decide (existing = identity)))
                            (invalid_bundle (chunk +:+ " has inconsistent refs"))
       | None => Ok tt
       end);
  event_id ← raw_ref_event_id raw_ref;
  event_info ← ok_or (invalid_bundle (chunk +:+ " references missing event " +:+ show_id event_id))
                 (by_id !! event_id);
  _ ← reject_if (negb (bool_decide (ei_branch_id event_info = branch_id)))
        (invalid_bundle (chunk +:+ " branch " +:+ show_id branch_id +:+ " does not match event "
           +:+ show_id event_id +:+ " branch " +:+ show_id (ei_branch_id event_info)));
  let content_hash := cr_hash (rx_content raw_ref) in
  _ ← reject_if (negb (bool_decide (content_hash ∈ ei_raw_chunk_content_refs event_info)))
        (invalid_bundle (chunk +:+ " content " +:+ hash_str content_hash
           +:+ " is not referenced by event " +:+ show_id event_id));
  refs_by_event_content ← insert_distinct duplicate_ref refs_by_event_content
                            (event_id, content_hash);
  Ok (<[rx_chunk_ordinal raw_ref := identity]> identities, refs_by_event_content).

(** [validate_raw_chunk_refs] *)
Definition validate_raw_chunk_refs (raw_chunk_refs : list SessionBundleRawChunkRef)
    (manifest : SessionBundleManifest) (event_infos : list EventRecordInfo) : Result unit :=
  st ← try_fold (validate_raw_chunk_ref manifest (infos_by_id event_infos)) (∅, ∅) raw_chunk_refs;
  try_iter (fun event_info =>
    try_iter (fun content_hash =>
      reject_if (bool_decide ((ei_event_id event_info, content_hash) ∉ (st.2 : gset RawChunkImportKey)))
        (invalid_bundle ("event " +:+ show_id (ei_event_id event_info)
           +:+ " references raw chunk content " +:+ hash_str content_hash
           +:+ " missing from raw_chunk_refs for that event")))
      (ei_raw_chunk_content_refs event_info)) event_infos.

(** The parent of a branch. *)
Definition validate_branch_parent (branch_ids : gset BranchId)
    (by_id : gmap EventId EventRecordInfo) (branch : BranchManifest) : Result unit :=
  let name := "branch " +:+ show_id (bm_branch_id branch) in
  _ ← (match bm_parent_branch_id branch with
       | Some parent => reject_if (bool_decide (parent ∉ branch_ids))
           (invalid_bundle (name +:+ " references missing parent branch " +:+ show_id parent))
       | None => Ok tt
       end);
  match bm_parent_event_id branch with
  | None => Ok tt
  | Some parent_event_id =>
      parent_info ← ok_or (invalid_bundle (name +:+ " references missing parent event "
                             +:+ show_id parent_event_id)) (by_id !! parent_event_id);
      match bm_parent_branch_id branch with
      | Some parent => reject_if (negb (bool_decide (ei_branch_id parent_info = parent)))
          (invalid_bundle (name +:+ " parent event " +:+ show_id parent_event_id
             +:+ " belongs to branch " +:+ show_id (ei_branch_id parent_info) +:+ ", expected "
             +:+ show_id parent))
      | None => Ok tt
      end
  end.

(** The head of a branch. *)
Definition validate_branch_head (manifest : SessionBundleManifest)
    (by_id : gmap EventId EventRecordInfo) (latest : gmap BranchId EventRecordInfo)
    (branch : BranchManifest) : Result unit :=
  let name := "branch " +:+ show_id (bm_branch_id branch) in
  match bm_head branch with
  | Some head =>
      _ ← reject_if (negb (bool_decide (nr_session_id head = se_session_id (mf_session manifest))))
            (invalid_bundle (name +:+ " head points to session " +:+ show_id (nr_session_id head)));
      _ ← reject_if (negb (bool_decide (nr_branch_id head = bm_branch_id branch)))
            (invalid_bundle (name +:+ " head points to branch " +:+ show_id (nr_branch_id head)));
      _ ← reject_if (negb (bool_decide (nr_bundle_hash head = Some (mf_bundle_hash manifest))))
            (invalid_bundle (name +:+ " head has wrong bundle hash"));
      _ ← reject_if (bool_decide (is_Some (nr_store_seq_id head)))
            (invalid_bundle (name +:+ " head carries a local store_seq_id"));
      head_info ← ok_or (invalid_bundle (name +:+ " head references missing event "
                           +:+ show_id (nr_event_id head))) (by_id !! nr_event_id head);
      _ ← reject_if (negb (bool_decide (ei_branch_id head_info = bm_branch_id branch))
                     || negb (ei_ordinal head_info =? nr_bundle_event_ordinal head)
                     || negb (bool_decide (ei_event_hash head_info = nr_event_hash head)))
            (invalid_bundle (name +:+ " head does not match event " +:+ show_id (nr_event_id head)
               +:+ " tuple"));
      match latest !! bm_branch_id branch with
      | Some info => reject_if (negb (bool_decide (ei_event_id info = nr_event_id head)))
                       (invalid_bundle (name +:+ " head is not the branch tip"))
      | None => Ok tt
      end
  | None => reject_if (bool_decide (is_Some (latest !! bm_branch_id branch)))
              (invalid_bundle (name +:+ " has events but no head"))
  end.

(** [validate_manifest_branches] *)
Definition validate_manifest_branches (manifest : SessionBundleManifest)
    (event_infos : list EventRecordInfo) : Result unit :=
  branch_ids ← try_fold (insert_distinct (fun id => "duplicate branch_id " +:+ show_id id)) ∅
                 (List.map bm_branch_id (mf_branches manifest));
  let default_branch_count := len (List.filter bm_is_default (mf_branches manifest)) in
  _ ← reject_if (negb (default_branch_count =? 1))
        (invalid_bundle ("bundle must have exactly one default branch, found "
           +:+ show_Z default_branch_count));
  let by_id := infos_by_id event_infos in
  let latest := latest_infos event_infos in
  _ ← try_iter (fun branch =>
        _ ← validate_branch_parent branch_ids by_id branch;
        validate_branch_head manifest by_id latest branch) (mf_branches manifest);
  try_iter (fun info => reject_if (bool_decide (ei_branch_id info ∉ branch_ids))
    (invalid_bundle ("event " +:+ show_Z (ei_ordinal info) +:+ " references missing branch "
       +:+ show_id (ei_branch_id info)))) event_infos.

(** The ordinals of a range, as the loop [start..=end] meets them. *)
Definition range_ordinals (range : EventRange) : list Z :=
  seqZ (eg_ordinal_start range) (eg_ordinal_end range - eg_ordinal_start range + 1).

(** One ordinal of a range. *)
Definition cover_ordinal (by_ordinal : gmap Z EventRecordInfo) (range : EventRange)
    (covered : gset Z) (ordinal : Z) : Result (gset Z) :=
  let name := "range for branch " +:+ show_id (eg_branch_id range) in
  info ← ok_or (invalid_bundle (name +:+ " includes missing ordinal " +:+ show_Z ordinal))
           (by_ordinal !! ordinal);
  _ ← reject_if (negb (bool_decide (ei_branch_id info = eg_branch_id range)))
        (invalid_bundle (name +:+ " crosses branch boundary at ordinal " +:+ show_Z ordinal));
  insert_distinct (fun ordinal => "event ordinal " +:+ show_Z ordinal
    +:+ " is covered by more than one range") covered ordinal.

(** The loop body of [validate_event_ranges]. *)
Definition validate_event_range (by_ordinal : gmap Z EventRecordInfo) (covered : gset Z)
    (range : EventRange) : Result (gset Z) :=
  let name := "range for branch " +:+ show_id (eg_branch_id range) in
  _ ← reject_if (eg_ordinal_end range <? eg_ordinal_start range)
        (invalid_bundle (name +:+ " has invalid ordinal bounds "
           +:+ show_Z (eg_ordinal_start range) +:+ ".." +:+ show_Z (eg_ordinal_end range)));
  first ← ok_or (invalid_bundle (name +:+ " starts at missing ordinal "
                   +:+ show_Z (eg_ordinal_start range))) (by_ordinal !! eg_ordinal_start range);
  last ← ok_or (invalid_bundle (name +:+ " ends at missing ordinal "
                  +:+ show_Z (eg_ordinal_end range))) (by_ordinal !! eg_ordinal_end range);
  covered ← try_fold (cover_ordinal by_ordinal range) covered (range_ordinals range);
  _ ← reject_if (negb (bool_decide (ei_event_hash first = eg_first_event_hash range))
                 || negb (bool_decide (ei_event_hash last = eg_last_event_hash range)))
        (invalid_bundle (name +:+ " has mismatched boundary hashes"));
  _ ← reject_if (bool_decide (is_Some (eg_exported_store_seq_start range))
                 || bool_decide (is_Some (eg_exported_store_seq_end range)))
        (invalid_bundle (name +:+ " carries local exported seq ids"));
  Ok covered.

(** [validate_event_ranges] *)
Definition validate_event_ranges (manifest : SessionBundleManifest)
    (event_infos : list EventRecordInfo) : Result unit :=
  covered ← try_fold (validate_event_range (infos_by_ordinal event_infos)) ∅
              (mf_event_ranges manifest);
  try_iter (fun info => reject_if (bool_decide (ei_ordinal info ∉ covered))
    (invalid_bundle ("event ordinal " +:+ show_Z (ei_ordinal info)
       +:+ " is not covered by an event range"))) event_infos.

Definition sorted_hashes (hashes : gset PortableHash) : list PortableHash :=
  merge_sort hash_le (elements hashes).

(** [validate_manifest_raw_chunk_inventory] *)
Definition validate_manifest_raw_chunk_inventory
    (raw_chunk_content_hashes manifest_content_hashes : gset PortableHash)
    (contents : list ContentRef) : Result unit :=
  _ ← try_iter (fun hash => reject_if (bool_decide (hash ∉ manifest_content_hashes))
        (invalid_bundle ("raw chunk content " +:+ hash_str hash
           +:+ " is missing from manifest contents"))) (sorted_hashes raw_chunk_content_hashes);
  try_iter (fun content => match cr_path content with
    | Some path => reject_if (String.eqb (first_piece path) SESSION_BT_RAW_CHUNKS_DIR
                              && bool_decide (cr_hash content ∉ raw_chunk_content_hashes))
        (invalid_bundle ("manifest raw chunk content " +:+ hash_str (cr_hash content)
           +:+ " is missing from raw_chunk_refs"))
    | None => Ok tt
    end) contents.

(** The content and the path of an artifact. *)
Definition validate_artifact_content (manifest : SessionBundleManifest)
    (manifest_content_hashes : gset PortableHash) (artifact : BundleArtifactRef) : Result unit :=
  let name := "artifact " +:+ ba_artifact_id artifact in
  let missing := invalid_bundle (name +:+ " content " +:+ hash_str (cr_hash (ba_content artifact))
                   +:+ " missing from manifest contents") in
  _ ← reject_if (bool_decide (cr_hash (ba_content artifact) ∉ manifest_content_hashes)) missing;
  path ← ok_or (invalid_bundle (name +:+ " has no content path")) (cr_path (ba_content artifact));
  _ ← validate_bundle_relative_path path;
  _ ← reject_if (negb (String.eqb (first_piece path) SESSION_BT_ARTIFACTS_DIR))
        (invalid_bundle (name +:+ " content path must be under " +:+ SESSION_BT_ARTIFACTS_DIR
           +:+ "/"));
  content ← ok_or missing
    (List.find (fun content => bool_decide (cr_hash content = cr_hash (ba_content artifact))
                 && bool_decide (cr_path content = cr_path (ba_content artifact)))
       (mf_contents manifest));
  reject_if (negb (bool_decide (cr_path content = cr_path (ba_content artifact)))
             || negb (cr_size_bytes content =? cr_size_bytes (ba_content artifact)))
    (invalid_bundle (name +:+ " content ref does not match manifest contents")).

Abbreviation EventKey := (BranchId * EventId * Z * PortableHash)%type.

Definition info_key (info : EventRecordInfo) : EventKey :=
  (ei_branch_id info, ei_event_id info, ei_ordinal info, ei_event_hash info).
Definition node_key (node : SessionNodeRef) : EventKey :=
  (nr_branch_id node, nr_event_id node, nr_bundle_event_ordinal node, nr_event_hash node).

(** The node an artifact comes from. *)
Definition validate_artifact_source (manifest : SessionBundleManifest)
    (event_keys : list EventKey) (artifact : BundleArtifactRef) : Result unit :=
  let name := "artifact " +:+ ba_artifact_id artifact +:+ " source node " in
  let source := ba_source_node artifact in
  _ ← reject_if (negb (bool_decide (nr_bundle_hash source = Some (mf_bundle_hash manifest))))
        (invalid_bundle (name +:+ "has wrong bundle hash"));
  _ ← reject_if (negb (bool_decide (nr_session_id source = se_session_id (mf_session manifest))))
        (invalid_bundle (name +:+ "points to session " +:+ show_id (nr_session_id source)));
  _ ← reject_if (bool_decide (is_Some (nr_store_seq_id source)))
        (invalid_bundle (name +:+ "carries a local store_seq_id"));
  reject_if (negb (bool_decide (node_key source ∈ event_keys)))
    (invalid_bundle (name +:+ "does not resolve to an event")).

(** The loop body of [validate_manifest_artifacts]. *)
Definition validate_manifest_artifact (manifest : SessionBundleManifest)
    (manifest_content_hashes : gset PortableHash) (event_keys : list EventKey)
    (artifact_ids : gset string) (artifact : BundleArtifactRef) : Result (gset string) :=
  _ ← reject_if (is_blank (ba_artifact_id artifact)) (invalid_bundle "artifact id must not be empty");
  _ ← reject_if (is_blank (ba_kind artifact))
        (invalid_bundle ("artifact " +:+ ba_artifact_id artifact +:+ " kind must not be empty"));
  artifact_ids ← insert_distinct (fun id => "duplicate artifact id " +:+ id) artifact_ids
                   (ba_artifact_id artifact);
  _ ← validate_artifact_content manifest manifest_content_hashes artifact;
  _ ← validate_artifact_source manifest event_keys artifact;
  Ok artifact_ids.

(** [validate_manifest_artifacts] *)
Definition validate_manifest_artifacts (manifest : SessionBundleManifest)
    (manifest_content_hashes : gset PortableHash) (event_infos : list EventRecordInfo)
    : Result unit :=
  _ ← reject_if (is_trace_only (mf_artifact_mode manifest) && negb (is_nil (mf_artifacts manifest)))
        (invalid_bundle "trace_only artifact mode must not include artifact refs");
  _ ← try_fold (validate_manifest_artifact manifest manifest_content_hashes
                  (List.map info_key event_infos)) ∅ (mf_artifacts manifest);
  Ok tt.

(** A file against the hash and the size that name it. *)
Definition verify_content (dir : Dir) (path : string) (content : ContentRef)
    (mismatch : PortableHash -> string) (size : Z -> string) : Result unit :=
  _ ← validate_bundle_relative_path path;
  bytes ← ok_or (io_error path) (fs_read dir path);
  _ ← reject_if (negb (bool_decide (hash_bytes bytes = cr_hash content)))
        (invalid_bundle (mismatch (hash_bytes bytes)));
  reject_if (negb (Z.of_nat (byte_len bytes) =? cr_size_bytes content))
    (invalid_bundle (size (Z.of_nat (byte_len bytes)))).

(** One raw chunk reference of [validate_session_bundle_directory]. *)
Definition verify_raw_chunk (dir : Dir) (hashes : gset PortableHash)
    (raw_ref : SessionBundleRawChunkRef) : Result (gset PortableHash) :=
  let content := rx_content raw_ref in
  path ← ok_or (invalid_bundle ("raw chunk ref " +:+ show_Z (rx_chunk_ordinal raw_ref)
                  +:+ " has no content path")) (cr_path content);
  _ ← verify_content dir path content
        (fun got => raw_chunk_label raw_ref +:+ " hash mismatch: expected "
           +:+ hash_str (cr_hash content) +:+ ", got " +:+ hash_str got)
        (fun got => raw_chunk_label raw_ref +:+ " size mismatch: expected "
           +:+ show_Z (cr_size_bytes content) +:+ ", got " +:+ show_Z got);
  Ok ({[cr_hash content]} ∪ hashes).

(** One of the manifest's contents. *)
Definition verify_manifest_content (dir : Dir) (content : ContentRef) : Result unit :=
  match cr_path content with
  | None => Ok tt
  | Some path => verify_content dir path content
      (fun got => "content ref " +:+ hash_str (cr_hash content) +:+ " hash mismatch: got "
         +:+ hash_str got)
      (fun got => "content ref " +:+ hash_str (cr_hash content) +:+ " size mismatch: expected "
         +:+ show_Z (cr_size_bytes content) +:+ ", got " +:+ show_Z got)
  end.

Definition content_hashes (contents : list ContentRef) : gset PortableHash :=
  list_to_set (List.map cr_hash contents).

Definition set_len {A} `{Countable A} (s : gset A) : Z := Z.of_nat (size s).

(** [validate_session_bundle_directory] *)
Definition validate_session_bundle_directory (dir : Dir) : Result SessionBundleValidationReport :=
  manifest ← read_json read_manifest dir SESSION_BT_MANIFEST "manifest";
  _ ← reject_if (negb (mf_schema_version manifest =? SESSION_BT_SCHEMA_VERSION))
        (invalid_bundle ("unsupported manifest schema version "
           +:+ show_Z (mf_schema_version manifest)));
  checksums_bytes ← ok_or (io_error SESSION_BT_CHECKSUMS) (fs_read dir SESSION_BT_CHECKSUMS);
  let bundle_hash := hash_bytes checksums_bytes in
  _ ← reject_if (negb (bool_decide (mf_bundle_hash manifest = bundle_hash)))
        (invalid_bundle ("manifest bundle_hash " +:+ hash_str (mf_bundle_hash manifest)
           +:+ " does not match checksum tree " +:+ hash_str bundle_hash));
  checksums ← read_checksums checksums_bytes;
  _ ← reject_if (negb (cs_schema_version checksums =? SESSION_BT_SCHEMA_VERSION))
        (invalid_bundle ("unsupported checksum schema version "
           +:+ show_Z (cs_schema_version checksums)));
  _ ← validate_bundle_inventory_is_closed dir manifest checksums;
  _ ← try_iter (verify_file_checksum dir) (cs_files checksums);
  raw_chunk_refs ← read_jsonl read_raw_ref dir SESSION_BT_RAW_CHUNK_REFS "raw chunk refs";
  raw_chunk_content_hashes ← try_fold (verify_raw_chunk dir) ∅ raw_chunk_refs;
  _ ← try_iter (verify_manifest_content dir) (mf_contents manifest);
  let manifest_content_hashes := content_hashes (mf_contents manifest) in
  _ ← validate_manifest_raw_chunk_inventory raw_chunk_content_hashes manifest_content_hashes
        (mf_contents manifest);
  event_records ← read_jsonl read_event dir SESSION_BT_EVENTS "event records";
  event_infos ← validate_event_records event_records manifest_content_hashes
                  raw_chunk_content_hashes manifest;
  _ ← validate_raw_chunk_refs raw_chunk_refs manifest event_infos;
  _ ← validate_manifest_branches manifest event_infos;
  _ ← validate_event_ranges manifest event_infos;
  _ ← validate_manifest_artifacts manifest manifest_content_hashes event_infos;
  Ok {| vr_bundle_hash := bundle_hash;
        vr_session_id := se_session_id (mf_session manifest);
        vr_event_count := len event_records;
        vr_raw_chunk_reference_count := len raw_chunk_refs;
        vr_raw_chunk_content_count := set_len raw_chunk_content_hashes;
        vr_content_count := set_len manifest_content_hashes;
        vr_artifact_count := len (mf_artifacts manifest) |}.

(** ** Import *)

(** [imported_raw_chunk_id] *)
Definition imported_raw_chunk_id (event_id : EventId) (content_hash : PortableHash)
    (local_ids : gmap RawChunkImportKey Z) (label : string) : Result Z :=
  ok_or (invalid_bundle (label +:+ " event " +:+ show_id event_id
           +:+ " references raw chunk content " +:+ hash_str content_hash
           +:+ " that was not imported"))
    (local_ids !! (event_id, content_hash)).

(** [PortableEventPayload::to_live] *)
Definition payload_to_live (payload : PortableEventPayload) (event_id : EventId)
    (local_ids : gmap RawChunkImportKey Z) : Result EventPayload :=
  match payload with
  | PortableCompletionChunk llm_call_ordinal deltas None =>
      Ok (CompletionChunkEvent llm_call_ordinal deltas None)
  | PortableCompletionChunk llm_call_ordinal deltas (Some content_hash) =>
      id ← imported_raw_chunk_id event_id content_hash local_ids "completion chunk";
      Ok (CompletionChunkEvent llm_call_ordinal deltas (Some id))
  | PortableRawChunkPersisted provider content_hash stream llm_call_ordinal =>
      id ← imported_raw_chunk_id event_id content_hash local_ids "raw chunk persisted event";
      Ok (RawChunkPersisted provider id stream llm_call_ordinal)
  | PortableManifestRecorded manifest => Ok (TurnContextManifestRecorded (manifest_to_live manifest))
  | PortableCompacted compaction => Ok (ContextCompacted (compacted_to_live compaction))
  | PortableSame payload => payload_trip payload
  end.

(** [PortableEventEnvelope::to_live], [import_event_value] *)
Definition import_event_value (event : PortableEventEnvelope)
    (local_ids : gmap RawChunkImportKey Z) : Result EventEnvelope :=
  payload ← payload_to_live (pe_payload event) (pe_event_id event) local_ids;
  Ok (MkEventEnvelope None (pe_event_id event) (pe_session_id event) (pe_branch_id event)
        (pe_turn_id event) (pe_span_id event) (pe_parent_span_id event) (pe_span_kind event)
        (pe_occurred_at event) payload (pe_attributes event)).

(** [branch_records_from_manifest] *)
Definition branch_records_from_manifest (manifest : SessionBundleManifest) : list BranchRecord :=
  List.map (fun branch =>
    {| br_branch_id := bm_branch_id branch;
       br_session_id := se_session_id (mf_session manifest);
       br_parent_branch_id := bm_parent_branch_id branch;
       br_parent_event_id := bm_parent_event_id branch;
       br_head_event_id := nr_event_id <$> bm_head branch;
       br_summary := bm_summary branch;
       br_created_at := se_created_at (mf_session manifest);
       br_is_default := bm_is_default branch |}) (mf_branches manifest).

(** The chunk a reference names: what is inserted, and the key its events
    find it by.  The clock is read when the chunk is inserted: [now] gives
    the reading by the chunk's ordinal. *)
Definition import_raw_ref (now : Z -> OffsetDateTime) (dir : Dir) (raw_ref : SessionBundleRawChunkRef)
    : Result (Z * RawChunkImportKey * RawChunkInsert) :=
  branch_id ← ok_or (invalid_bundle (raw_chunk_label raw_ref +:+ " does not include a branch_id"))
                (rx_branch_id raw_ref);
  event_id ← raw_ref_event_id raw_ref;
  path ← ok_or (invalid_bundle "raw chunk content is missing a path") (cr_path (rx_content raw_ref));
  _ ← validate_bundle_relative_path path;
  content ← ok_or (io_error path) (fs_read dir path);
  Ok (rx_chunk_ordinal raw_ref, (event_id, cr_hash (rx_content raw_ref)),
      {| ri_received_at := now (rx_chunk_ordinal raw_ref);
         ri_session_id := rx_session_id raw_ref;
         ri_branch_id := branch_id;
         ri_turn_id := rx_turn_id raw_ref;
         ri_llm_call_ordinal := rx_llm_call_ordinal raw_ref;
         ri_event_id := rx_event_id raw_ref;
         ri_provider := rx_provider raw_ref;
         ri_stream_name := rx_stream_name raw_ref;
         ri_content := content |}).

(** [raw_chunk_inserts_by_ordinal], in the order of the ordinals: the first
    reference of a chunk says what is inserted. *)
Definition inserts_by_ordinal (imported : list (Z * RawChunkImportKey * RawChunkInsert))
    : list (Z * RawChunkInsert) :=
  let by_ordinal : gmap Z RawChunkInsert := foldl (fun m '(ordinal, _, insert) =>
    match m !! ordinal with Some _ => m | None => <[ordinal := insert]> m end) ∅ imported in
  merge_sort ordinal_le (map_to_list by_ordinal).

(** The closure of the import: keys to the new ids, then the events. *)
Definition imported_events (ordinals : list Z) (imported : list (Z * RawChunkImportKey * RawChunkInsert))
    (event_records : list SessionBundleEventRecord) (local_raw_chunk_ids : list Z)
    : Result (list EventEnvelope) :=
  let by_ordinal : gmap Z Z := list_to_map (zip ordinals local_raw_chunk_ids) in
  local_ids ← try_fold (fun (ids : gmap RawChunkImportKey Z) '(chunk_ordinal, key, _) =>
      local_id ← ok_or (invalid_bundle ("raw chunk ordinal " +:+ show_Z chunk_ordinal
                          +:+ " was not imported")) (by_ordinal !! chunk_ordinal);
      _ ← reject_if (bool_decide (is_Some (ids !! key))) (invalid_bundle (duplicate_ref key));
      Ok (<[key := local_id]> ids)) ∅ imported;
  try_map (fun record => import_event_value (er_event record) local_ids) event_records.

(** [import_session_bundle_directory] *)
Definition import_session_bundle_directory (now : Z -> OffsetDateTime) (dir : Dir) (db : Db)
    : Result SessionBundleImportReport * Db :=
  let prepared :=
    report ← validate_session_bundle_directory dir;
    manifest ← read_json read_manifest dir SESSION_BT_MANIFEST "manifest";
    existing ← load_session (se_session_id (mf_session manifest)) db;
    _ ← reject_if (bool_decide (is_Some existing))
          (InvalidState ("session " +:+ show_id (se_session_id (mf_session manifest))
             +:+ " already exists"));
    let branches := branch_records_from_manifest manifest in
    _ ← reject_if (is_nil branches) (invalid_bundle "bundle has no branches to import");
    raw_chunk_refs ← read_jsonl read_raw_ref dir SESSION_BT_RAW_CHUNK_REFS "raw chunk refs";
    imported ← try_map (import_raw_ref now dir) raw_chunk_refs;
    event_records ← read_jsonl read_event dir SESSION_BT_EVENTS "event records";
    Ok (report, manifest, branches, raw_chunk_refs, imported, event_records) in
  match prepared with
  | Err e => (Err e, db)
  | Ok (report, manifest, branches, raw_chunk_refs, imported, event_records) =>
      let inserts := inserts_by_ordinal imported in
      let '(stored, db) := import_session_with_raw_chunks_and_events (mf_session manifest) branches
        (List.map snd inserts) (imported_events (List.map fst inserts) imported event_records) db in
      (ids ← stored;
       Ok {| im_bundle_hash := vr_bundle_hash report;
             im_session_id := se_session_id (mf_session manifest);
             im_branch_count := len branches;
             im_event_count := len (snd ids);
             im_raw_chunk_reference_count := len raw_chunk_refs;
             im_raw_chunk_content_count := vr_raw_chunk_content_count report |}, db)
  end.
End import.
