(* ===== verification/BundleDiff.v ===== *)
(** * Continuing and comparing bundles ([bt-session/src/export.rs])

    A bundle is continued by a new branch whose parent is one of its events,
    after the session was imported or when the local event is the bundle's.
    Two bundles are compared by the hashes of their events, in order, and by
    their inventories. *)

From stdpp Require Import base list strings gmap sorting.
From Stdlib Require Import ZArith Lia Ascii.
From S2P Require Import Prelude Text Json Types TurnProjection Store StoreOps StoreRelated.
From S2P Require Import StoreReplay StoreQueries Bundle BundleFiles BundleExport BundleImport.

#[local] Open Scope Z_scope.

(** ** Comparison *)

Inductive SessionBundleDiffRelationship : Type :=
  | Equivalent | SameLineageUpdate | ForkDivergence | DifferentLineage
  | RedactionDifference | StructuralDifference.
#[export] Instance SessionBundleDiffRelationship_eq_dec : EqDecision SessionBundleDiffRelationship.
Proof. solve_decision. Defined.

(** [SessionBundleDiffRelationship::as_str] *)
Definition relationship_str (relationship : SessionBundleDiffRelationship) : string :=
  match relationship with
  | Equivalent => "equivalent"
  | SameLineageUpdate => "same_lineage_update"
  | ForkDivergence => "fork_divergence"
  | DifferentLineage => "different_lineage"
  | RedactionDifference => "redaction_difference"
  | StructuralDifference => "structural_difference"
  end.

Record SessionBundleDiffSide : Type := MkDiffSide {
  ds_bundle_hash : PortableHash;
  ds_session_id : SessionId;
  ds_event_count : Z;
  ds_branch_count : Z;
  ds_raw_chunk_reference_count : Z;
  ds_raw_chunk_content_count : Z;
  ds_content_count : Z;
}.

Record SessionBundleDiffReport : Type := MkDiffReport {
  dr_relationship : SessionBundleDiffRelationship;
  dr_left : SessionBundleDiffSide;
  dr_right : SessionBundleDiffSide;
  dr_common_event_count : nat;
  dr_left_only_event_count : nat;
  dr_right_only_event_count : nat;
  dr_left_only_branch_ids : list BranchId;
  dr_right_only_branch_ids : list BranchId;
  dr_left_only_content_hashes : list PortableHash;
  dr_right_only_content_hashes : list PortableHash;
  dr_left_only_artifact_ids : list string;
  dr_right_only_artifact_ids : list string;
  dr_redaction_changed : bool;
}.

Record DiffBundle : Type := MkDiffBundle {
  db_manifest : SessionBundleManifest;
  db_event_hashes : list PortableHash;
  db_branch_ids : gset BranchId;
  db_content_hashes : gset PortableHash;
  db_artifact_ids : gset string;
}.

(** [common_prefix_len] *)
Fixpoint common_prefix_len (left_hashes right_hashes : list PortableHash) : nat :=
  match left_hashes, right_hashes with
  | a :: left_hashes, b :: right_hashes =>
      if bool_decide (a = b) then S (common_prefix_len left_hashes right_hashes) else 0
  | _, _ => 0
  end.

(** [set_difference]: in the order of the set. *)
Definition set_difference {A} `{Countable A} (le : A -> A -> Prop) `{!forall a b, Decision (le a b)}
    (left right : gset A) : list A := merge_sort le (elements (left ∖ right)).

Definition id_le {tag} (a b : UuidId tag) : Prop := (uuid a <= uuid b)%N.
#[export] Instance id_le_dec {tag} (a b : UuidId tag) : Decision (id_le a b).
Proof. unfold id_le. apply _. Defined.

(** [classify_bundle_diff] *)
Definition classify_bundle_diff (left_event_hashes right_event_hashes : list PortableHash)
    (common_event_count : nat) (redaction_changed same_non_event_inventory : bool)
    : SessionBundleDiffRelationship :=
  if bool_decide (left_event_hashes = right_event_hashes) then
    if redaction_changed then RedactionDifference
    else if same_non_event_inventory then Equivalent
    else StructuralDifference
  else
    let shorter_len := Nat.min (length left_event_hashes) (length right_event_hashes) in
    if Nat.eqb common_event_count shorter_len then SameLineageUpdate
    else if Nat.ltb 0 common_event_count then ForkDivergence
    else DifferentLineage.

Section diff.
Context `{codec : RowCodec} `{bundle : BundleCodec}.

(** [read_diff_bundle] *)
Definition read_diff_bundle (dir : Dir) : Result DiffBundle :=
  manifest ← read_json read_manifest dir SESSION_BT_MANIFEST "manifest";
  event_records ← read_jsonl read_event dir SESSION_BT_EVENTS "event records";
  Ok {| db_manifest := manifest;
        db_event_hashes := List.map er_event_hash event_records;
        db_branch_ids := branch_set (mf_branches manifest);
        db_content_hashes := content_hashes (mf_contents manifest);
        db_artifact_ids := list_to_set (List.map ba_artifact_id (mf_artifacts manifest)) |}.

Definition diff_side (report : SessionBundleValidationReport) (bundle : DiffBundle)
    : SessionBundleDiffSide :=
  {| ds_bundle_hash := vr_bundle_hash report;
     ds_session_id := vr_session_id report;
     ds_event_count := vr_event_count report;
     ds_branch_count := len (mf_branches (db_manifest bundle));
     ds_raw_chunk_reference_count := vr_raw_chunk_reference_count report;
     ds_raw_chunk_content_count := vr_raw_chunk_content_count report;
     ds_content_count := vr_content_count report |}.

(** The comparison of two bundles that were read. *)
Definition diff_report (left_report right_report : SessionBundleValidationReport)
    (left right : DiffBundle) : SessionBundleDiffReport :=
  let common_event_count := common_prefix_len (db_event_hashes left) (db_event_hashes right) in
  let left_only_branch_ids := set_difference id_le (db_branch_ids left) (db_branch_ids right) in
  let right_only_branch_ids := set_difference id_le (db_branch_ids right) (db_branch_ids left) in
  let left_only_content_hashes :=
    set_difference hash_le (db_content_hashes left) (db_content_hashes right) in
  let right_only_content_hashes :=
    set_difference hash_le (db_content_hashes right) (db_content_hashes left) in
  let left_only_artifact_ids :=
    set_difference str_le (db_artifact_ids left) (db_artifact_ids right) in
  let right_only_artifact_ids :=
    set_difference str_le (db_artifact_ids right) (db_artifact_ids left) in
  let redaction_changed := negb (bool_decide (mf_redaction (db_manifest left)
                                              = mf_redaction (db_manifest right))) in
  {| dr_relationship := classify_bundle_diff (db_event_hashes left) (db_event_hashes right)
       common_event_count redaction_changed
       (is_nil left_only_branch_ids && is_nil right_only_branch_ids
        && is_nil left_only_content_hashes && is_nil right_only_content_hashes
        && is_nil left_only_artifact_ids && is_nil right_only_artifact_ids);
     dr_left := diff_side left_report left;
     dr_right := diff_side right_report right;
     dr_common_event_count := common_event_count;
     dr_left_only_event_count := length (db_event_hashes left) - common_event_count;
     dr_right_only_event_count := length (db_event_hashes right) - common_event_count;
     dr_left_only_branch_ids := left_only_branch_ids;
     dr_right_only_branch_ids := right_only_branch_ids;
     dr_left_only_content_hashes := left_only_content_hashes;
     dr_right_only_content_hashes := right_only_content_hashes;
     dr_left_only_artifact_ids := left_only_artifact_ids;
     dr_right_only_artifact_ids := right_only_artifact_ids;
     dr_redaction_changed := redaction_changed |}.

(** [diff_session_bundle_directories_inner] *)
Definition diff_session_bundle_directories (left_dir right_dir : Dir)
    : Result SessionBundleDiffReport :=
  left_report ← validate_session_bundle_directory left_dir;
  right_report ← validate_session_bundle_directory right_dir;
  left ← read_diff_bundle left_dir;
  right ← read_diff_bundle right_dir;
  Ok (diff_report left_report right_report left right).

(** ** Continuation *)

Record SessionBundleContinuationReport : Type := MkContinuationReport {
  cn_bundle_hash : PortableHash;
  cn_session_id : SessionId;
  cn_branch_id : BranchId;
  cn_parent_branch_id : BranchId;
  cn_parent_event_id : EventId;
  cn_parent_event_hash : PortableHash;
  cn_imported_session : bool;
}.

(** The default branch's head, or else the first head there is. *)
Definition bundle_head (branches : list BranchManifest) : option SessionNodeRef :=
  match (branch ← List.find bm_is_default branches; bm_head branch) with
  | Some node => Some node
  | None => head (omap bm_head branches)
  end.

Definition record_with_hash (event_records : list SessionBundleEventRecord)
    (event_hash : PortableHash) : option SessionBundleEventRecord :=
  List.find (fun record => bool_decide (er_event_hash record = event_hash)) event_records.

(** [resolve_continuation_parent_node] *)
Definition resolve_continuation_parent_node (manifest : SessionBundleManifest)
    (event_records : list SessionBundleEventRecord) (bundle_hash : PortableHash)
    (event_hash : option PortableHash) : Result SessionNodeRef :=
  record ← (match event_hash with
    | Some event_hash =>
        ok_or (invalid_bundle ("event hash " +:+ hash_str event_hash +:+ " not found"))
          (record_with_hash event_records event_hash)
    | None =>
        node ← ok_or (invalid_bundle "bundle has no branch head to continue from")
                 (bundle_head (mf_branches manifest));
        ok_or (invalid_bundle ("branch head event hash " +:+ hash_str (nr_event_hash node)
                 +:+ " not found"))
          (record_with_hash event_records (nr_event_hash node))
    end);
  Ok {| nr_bundle_hash := Some bundle_hash;
        nr_session_id := pe_session_id (er_event record);
        nr_branch_id := pe_branch_id (er_event record);
        nr_bundle_event_ordinal := er_bundle_event_ordinal record;
        nr_store_seq_id := None;
        nr_event_id := pe_event_id (er_event record);
        nr_event_hash := er_event_hash record |}.

(** [assert_parent_node_imported] *)
Definition assert_parent_node_imported (parent_node : SessionNodeRef) (db : Db) : Result unit :=
  found ← load_branch (nr_session_id parent_node) (nr_branch_id parent_node) db;
  branch ← ok_or (InvalidState ("bundle parent branch " +:+ show_id (nr_branch_id parent_node)
                    +:+ " was not imported")) found;
  raw_chunks ← load_all_raw_chunks (nr_session_id parent_node) db;
  let hashes : gmap Z PortableHash :=
    foldl (fun m chunk => <[rk_chunk_id chunk := hash_bytes (rk_content chunk)]> m) ∅ raw_chunks in
  event ← ok_or (InvalidState ("bundle parent event " +:+ show_id (nr_event_id parent_node)
                   +:+ " was not imported"))
    (List.find (fun event => bool_decide (ev_branch_id event = br_branch_id branch)
                 && bool_decide (ev_event_id event = nr_event_id parent_node))
       (load_all_events (nr_session_id parent_node) db));
  converted ← event_from_live event hashes;
  local_event_hash ← canonical_event_hash converted.1;
  reject_if (negb (bool_decide (local_event_hash = nr_event_hash parent_node)))
    (InvalidState ("local parent event " +:+ show_id (nr_event_id parent_node) +:+ " hash "
       +:+ hash_str local_event_hash +:+ " does not match bundle parent hash "
       +:+ hash_str (nr_event_hash parent_node))).

(** The ids and the times a continuation draws. *)
Record Fresh : Type := MkFresh {
  fr_branch_id : BranchId;
  fr_created_at : OffsetDateTime;
  fr_event_id : EventId;
  fr_span_id : SpanId;
  fr_occurred_at : OffsetDateTime;
}.

(** The branch and the event of a continuation. *)
Definition continuation_branch (fresh : Fresh) (bundle_hash : PortableHash)
    (parent_node : SessionNodeRef) : BranchRecord :=
  {| br_branch_id := fr_branch_id fresh;
     br_session_id := nr_session_id parent_node;
     br_parent_branch_id := Some (nr_branch_id parent_node);
     br_parent_event_id := Some (nr_event_id parent_node);
     br_head_event_id := None;
     br_summary := Some ("Continuation from bundle " +:+ hash_str bundle_hash +:+ " event "
                     +:+ hash_str (nr_event_hash parent_node));
     br_created_at := fr_created_at fresh;
     br_is_default := false |}.

Definition continuation_event (fresh : Fresh) (parent_node : SessionNodeRef) (node : Value)
    : EventEnvelope :=
  with_attribute
    (new_envelope (fr_event_id fresh) (fr_span_id fresh) (fr_occurred_at fresh)
       (nr_session_id parent_node) (fr_branch_id fresh) SpanChain
       (BranchCreated (Some (nr_branch_id parent_node)) (Some (nr_event_id parent_node))))
    SESSION_BT_PARENT_NODE_REF_ATTR node.

(** [continue_session_bundle_directory_inner] *)
Definition continue_session_bundle_directory (now : Z -> OffsetDateTime) (fresh : Fresh)
    (dir : Dir) (event_hash : option PortableHash) (db : Db)
    : Result SessionBundleContinuationReport * Db :=
  let prepared : Result (PortableHash * SessionNodeRef * bool) :=
    report ← validate_session_bundle_directory dir;
    manifest ← read_json read_manifest dir SESSION_BT_MANIFEST "manifest";
    event_records ← read_jsonl read_event dir SESSION_BT_EVENTS "event records";
    parent_node ← resolve_continuation_parent_node manifest event_records (vr_bundle_hash report)
                    event_hash;
    existing ← load_session (se_session_id (mf_session manifest)) db;
    Ok (vr_bundle_hash report, parent_node, bool_decide (is_Some existing)) in
  match prepared with
  | Err e => (Err e, db)
  | Ok (bundle_hash, parent_node, exists_locally) =>
      let '(imported, db) :=
        if exists_locally then ((Ok false : Result bool), db)
        else
          let '(report, db) := import_session_bundle_directory now dir db in
          (_ ← report; Ok true, db) in
      let checked :=
        imported_session ← (imported : Result bool);
        _ ← assert_parent_node_imported parent_node db;
        node ← node_value parent_node;
        Ok (imported_session, node) in
      match checked with
      | Err e => (Err e, db)
      | Ok (imported_session, node) =>
          let '(created, db) := create_branch_with_event_and_default
            (continuation_branch fresh bundle_hash parent_node)
            (continuation_event fresh parent_node node) db in
          (_ ← created;
           Ok {| cn_bundle_hash := bundle_hash;
                 cn_session_id := nr_session_id parent_node;
                 cn_branch_id := fr_branch_id fresh;
                 cn_parent_branch_id := nr_branch_id parent_node;
                 cn_parent_event_id := nr_event_id parent_node;
                 cn_parent_event_hash := nr_event_hash parent_node;
                 cn_imported_session := imported_session |}, db)
      end
  end.
End diff.
