(* ===== verification/BundleLaws.v ===== *)
(** * Bundles: paths, inventories and hashes

    Loops that stop at the first error, the paths of a directory, and what
    the validation of a bundle's inventory establishes.  Two theorems follow:
    a bundle's hash fixes the contents of all its files, and the comparison
    of two bundles classifies their event histories by their common prefix. *)

From stdpp Require Import base list strings gmap sorting.
From Stdlib Require Import ZArith Lia Ascii.
From S2P Require Import Prelude Text Json Types TurnProjection Store StoreOps StoreRelated.
From S2P Require Import StoreReplay StoreQueries Bundle BundleFiles BundleExport BundleImport BundleDiff.

#[local] Open Scope Z_scope.

(** ** Loops *)

Lemma reject_unless {E} (P : Prop) `{!Decision P} (e : E) u :
  reject_if (negb (bool_decide P)) e = Ok u <-> P.
Proof. rewrite reject_if_Ok, negb_false_iff. apply bool_decide_eq_true. Qed.

Lemma reject_when {E} (P : Prop) `{!Decision P} (e : E) u :
  reject_if (bool_decide P) e = Ok u <-> ~ P.
Proof. rewrite reject_if_Ok. apply bool_decide_eq_false. Qed.

Lemma try_iter_Ok {A} (f : A -> Result unit) l u :
  try_iter f l = Ok u <-> Forall (fun a => f a = Ok tt) l.
Proof.
  destruct u. induction l as [|a l IH]; simpl; [by split|].
  rewrite Forall_cons, <- IH. destruct (f a) as [[]|]; simpl; naive_solver.
Qed.

Lemma try_fold_app {A S} (step : S -> A -> Result S) st l l' :
  try_fold step st (l ++ l') = (st ← try_fold step st l; try_fold step st l').
Proof.
  revert st; induction l as [|a l IH]; intros st; simpl; [done|].
  destruct (step st a); simpl; [apply IH|done].
Qed.

(** An invariant of a loop that stops at the first error. *)
Lemma try_fold_inv {A S} (I : list A -> S -> Prop) (step : S -> A -> Result S) l st st' :
  (forall done_l a s s', done_l ++ [a] `prefix_of` l -> I done_l s -> step s a = Ok s' ->
     I (done_l ++ [a]) s') ->
  I [] st -> try_fold step st l = Ok st' -> I l st'.
Proof.
  intros Hstep H0 Hf. enough (forall l2 l1 s, l1 ++ l2 = l -> I l1 s ->
    try_fold step s l2 = Ok st' -> I l st') as H by (by eapply (H l [] st)).
  clear st H0 Hf. intros l2. induction l2 as [|a l2 IH]; intros l1 s Hl HI Hf; simpl in Hf.
  { injection Hf as <-. rewrite app_nil_r in Hl. by subst. }
  apply result_bind_Ok in Hf as (s' & Hs & Hf).
  eapply (IH (l1 ++ [a])); [|eapply Hstep; [|exact HI|exact Hs]|exact Hf].
  - by rewrite <- (assoc_L (++)).
  - exists l2. by rewrite <- Hl, <- (assoc_L (++)).
Qed.

Lemma insert_distinct_Ok {A} `{Countable A} (message : A -> string) seen a seen' :
  insert_distinct message seen a = Ok seen' <-> a ∉ seen /\ seen' = {[a]} ∪ seen.
Proof.
  unfold insert_distinct. case_bool_decide; simpl; [|naive_solver].
  split; [done|by intros []].
Qed.

Lemma insert_all_distinct {A} `{Countable A} (message : A -> string) l (seen seen' : gset A) :
  try_fold (insert_distinct message) seen l = Ok seen'
  <-> NoDup l /\ (forall a, a ∈ l -> a ∉ seen) /\ seen' = list_to_set l ∪ seen.
Proof.
  revert seen; induction l as [|a l IH]; intros seen; simpl.
  { split; [intros [= <-]; split_and!; [constructor|by intros ? ?%elem_of_nil|set_solver]|].
    intros (_ & _ & ->). f_equal. set_solver. }
  rewrite NoDup_cons. split.
  - intros (s & (Hs & ->)%insert_distinct_Ok & (Hn & Hd & ->)%IH)%result_bind_Ok.
    split_and!; [|done| |set_solver].
    + intros Hin. apply (Hd a Hin). set_solver.
    + intros b [->|Hb]%elem_of_cons; [done|]. specialize (Hd b Hb). set_solver.
  - intros ((Ha & Hn) & Hd & ->). apply result_bind_Ok. exists ({[a]} ∪ seen).
    split; [apply insert_distinct_Ok; split; [apply Hd; left|done]|]. apply IH. split_and!; [done| |set_solver].
    intros b Hb. specialize (Hd b (list_elem_of_further _ _ _ Hb)).
    assert (b <> a) by (intros ->; done). set_solver.
Qed.

(** ** Text *)

Fixpoint has_char (c : ascii) (s : string) : bool :=
  match s with
  | EmptyString => false
  | String a s => Ascii.eqb a c || has_char c s
  end.

Lemma has_char_app c s t : has_char c (s +:+ t) = has_char c s || has_char c t.
Proof. induction s as [|a s IH]; simpl; [done|]. by rewrite IH, orb_assoc. Qed.

Lemma split_char_none c s : has_char c s = false -> split_char c s = [s].
Proof.
  induction s as [|a s IH]; simpl; [done|]. intros [Ha Hs]%orb_false_iff.
  by rewrite Ha, (IH Hs).
Qed.

Lemma split_char_cons c s t :
  has_char c s = false -> split_char c (s +:+ String c t) = s :: split_char c t.
Proof.
  induction s as [|a s IH]; simpl; [by rewrite Ascii.eqb_refl|].
  intros [Ha Hs]%orb_false_iff. by rewrite Ha, (IH Hs).
Qed.

Lemma split_char_join cs :
  cs <> [] -> Forall (fun c => has_char slash c = false) cs ->
  split_char slash (join "/" cs) = cs.
Proof.
  unfold join. intros Hne Hcs. induction Hcs as [|c cs Hc Hcs IH]; [done|].
  destruct cs as [|d cs]; simpl; [by apply split_char_none|].
  assert (forall s, "/" +:+ s = String slash s) as -> by done.
  rewrite split_char_cons by done. f_equal. by apply IH.
Qed.

(** ** Paths *)

(** A component of a path. *)
Definition proper (c : string) : Prop := c <> "" /\ c <> "." /\ has_char slash c = false.

(** The keys of a directory are paths. *)
Definition dir_ok (dir : Dir) : Prop :=
  map_Forall (fun components _ => components <> [] /\ Forall proper components) dir.

Lemma path_components_file_path cs :
  cs <> [] -> Forall proper cs -> path_components (file_path cs) = cs.
Proof.
  intros Hne Hcs. unfold path_components, file_path. rewrite split_char_join; [|done|].
  - induction Hcs as [|c cs (H1 & H2 & _) Hcs IH]; simpl; [done|].
    apply String.eqb_neq in H1 as ->, H2 as ->. simpl. destruct cs; [done|]. by rewrite IH.
  - eapply Forall_impl; [exact Hcs|]. by intros c (_ & _ & ?).
Qed.

(** Where [fs_read] finds a file. *)
Lemma fs_read_Some dir path bytes :
  fs_read dir path = Some bytes -> dir !! path_components path = Some bytes.
Proof. unfold fs_read. by destruct (names_directory path). Qed.

(** ** Sets in order *)

Lemma require_subset_Ok message (s t : gset string) u :
  require_subset message s t = Ok u <-> s ⊆ t.
Proof.
  unfold require_subset. rewrite try_iter_Ok, Forall_forall. split.
  - intros H path Hpath. destruct (decide (path ∈ t)) as [|Hn]; [done|exfalso].
    assert (path ∈ sorted_elements s) as Hin.
    { unfold sorted_elements. rewrite merge_sort_Permutation. by apply elem_of_elements. }
    specialize (H _ Hin). by apply reject_when in H.
  - intros H path Hin. apply reject_when. intros Hn. apply Hn, H.
    unfold sorted_elements in Hin. rewrite merge_sort_Permutation in Hin. by apply elem_of_elements.
Qed.

Lemma subset_both (s t : gset string) : s ⊆ t -> t ⊆ s -> s = t.
Proof. intros. by apply leibniz_equiv, (anti_symm (⊆)). Qed.

Section laws.
Context `{codec : RowCodec} `{bundle : BundleCodec}.

(** ** The inventory *)

Lemma insert_checksum_paths_Ok entries (seen seen' : gset string) :
  insert_checksum_paths seen entries = Ok seen' <->
  Forall (fun entry => validate_bundle_relative_path (ck_path entry) = Ok tt) entries
  /\ NoDup (List.map ck_path entries)
  /\ (forall entry, entry ∈ entries -> ck_path entry ∉ seen)
  /\ seen' = list_to_set (List.map ck_path entries) ∪ seen.
Proof.
  revert seen; induction entries as [|entry entries IH]; intros seen; simpl.
  { split; [intros [= <-]; split_and!; try constructor; [by intros ? ?%elem_of_nil|set_solver]|].
    intros (_ & _ & _ & ->). f_equal. set_solver. }
  rewrite Forall_cons, NoDup_cons. split.
  - intros ([] & Hv & ([] & Hs%reject_when & (Hf & Hn & Hd & ->)%IH)%result_bind_Ok)%result_bind_Ok.
    split_and!; try done; [| |set_solver].
    + intros (e & He & Hin)%list_elem_of_fmap. apply (Hd e Hin). rewrite <- He. set_solver.
    + intros e [->|He]%elem_of_cons; [done|]. specialize (Hd e He). set_solver.
  - intros ((Hv & Hf) & (Ha & Hn) & Hd & ->). rewrite Hv. simpl.
    apply result_bind_Ok. exists tt. split; [apply reject_when, Hd; left|].
    apply IH. split_and!; [done|done| |set_solver].
    intros e He. specialize (Hd e (list_elem_of_further _ _ _ He)).
    assert (ck_path e <> ck_path entry); [|set_solver].
    intros E. apply Ha. rewrite <- E. apply list_elem_of_fmap. by exists e.
Qed.

(** The files of a directory, by their paths. *)
Definition dir_files (dir : Dir) : gset string :=
  list_to_set (List.map (fun kv => file_path kv.1) (map_to_list dir)).

Lemma elem_of_dir_files dir path :
  path ∈ dir_files dir <-> exists cs bytes, dir !! cs = Some bytes /\ path = file_path cs.
Proof.
  unfold dir_files. rewrite elem_of_list_to_set. split.
  - intros ([cs bytes] & -> & Hin)%list_elem_of_fmap. apply elem_of_map_to_list in Hin. eauto.
  - intros (cs & bytes & Hcs & ->). apply list_elem_of_fmap. exists (cs, bytes). split; [done|].
    by apply elem_of_map_to_list.
Qed.

(** What a closed inventory is. *)
Record closed_inventory (dir : Dir) (manifest : SessionBundleManifest)
    (checksums : SessionBundleChecksums) : Prop := {
  ci_contents : Forall (fun path => validate_bundle_relative_path path = Ok tt)
                  (content_paths (mf_contents manifest));
  ci_entries : Forall (fun entry => validate_bundle_relative_path (ck_path entry) = Ok tt)
                 (cs_files checksums);
  ci_distinct : NoDup (List.map ck_path (cs_files checksums));
  ci_listed : list_to_set (List.map ck_path (cs_files checksums))
              =@{gset string} {[SESSION_BT_EVENTS; SESSION_BT_RAW_CHUNK_REFS]}
                 ∪ list_to_set (content_paths (mf_contents manifest));
  ci_paths : Forall (fun path => validate_bundle_relative_path path = Ok tt)
               (List.map (fun kv => file_path kv.1) (map_to_list dir));
  ci_files : dir_files dir ∖ {[SESSION_BT_MANIFEST; SESSION_BT_CHECKSUMS]}
             =@{gset string} list_to_set (List.map ck_path (cs_files checksums));
}.

Lemma inventory_is_closed dir manifest checksums u :
  validate_bundle_inventory_is_closed dir manifest checksums = Ok u
  <-> closed_inventory dir manifest checksums.
Proof.
  unfold validate_bundle_inventory_is_closed, collect_bundle_files. fold (dir_files dir). split.
  - intros ([] & Hc%try_iter_Ok & (s & Hs & ([] & H1%require_subset_Ok & ([] & H2%require_subset_Ok
      & H)%result_bind_Ok)%result_bind_Ok)%result_bind_Ok)%result_bind_Ok.
    apply insert_checksum_paths_Ok in Hs as (Hf & Hn & _ & ->).
    apply result_bind_Ok in H as (files & ([] & Hp%try_iter_Ok & [= <-])%result_bind_Ok & H).
    apply result_bind_Ok in H as ([] & H3%require_subset_Ok & H4%require_subset_Ok).
    rewrite (right_id_L ∅ (∪)) in *. split; try done; by apply subset_both.
  - intros []. destruct u.
    assert (try_iter validate_bundle_relative_path (content_paths (mf_contents manifest)) = Ok tt)
      as -> by (by apply try_iter_Ok). simpl.
    assert (insert_checksum_paths ∅ (cs_files checksums)
            = Ok (list_to_set (List.map ck_path (cs_files checksums)) ∪ ∅)) as ->
      by (apply insert_checksum_paths_Ok; split_and!; [done|done|by intros ? _ ?%elem_of_empty|done]). simpl.
    rewrite (right_id_L ∅ (∪)).
    apply result_bind_Ok. exists tt. split; [apply require_subset_Ok; by rewrite ci_listed0|].
    apply result_bind_Ok. exists tt. split; [apply require_subset_Ok; by rewrite ci_listed0|].
    assert (try_iter validate_bundle_relative_path
              (List.map (fun kv => file_path kv.1) (map_to_list dir)) = Ok tt) as ->
      by (by apply try_iter_Ok). simpl.
    apply result_bind_Ok. exists tt. split; apply require_subset_Ok;
      fold (dir_files dir); by rewrite ci_files0.
Qed.

(** ** Validation, taken apart *)

(** Everything the validation of a directory reads and checks. *)
Record validated (dir : Dir) (manifest : SessionBundleManifest) (checksums_bytes : string)
    (checksums : SessionBundleChecksums) (raw_chunk_refs : list SessionBundleRawChunkRef)
    (chunk_hashes : gset PortableHash) (event_records : list SessionBundleEventRecord)
    (event_infos : list EventRecordInfo) : Prop := {
  vd_manifest : read_json read_manifest dir SESSION_BT_MANIFEST "manifest" = Ok manifest;
  vd_version : mf_schema_version manifest = SESSION_BT_SCHEMA_VERSION;
  vd_bytes : fs_read dir SESSION_BT_CHECKSUMS = Some checksums_bytes;
  vd_hash : mf_bundle_hash manifest = hash_bytes checksums_bytes;
  vd_checksums : read_checksums checksums_bytes = Ok checksums;
  vd_checksums_version : cs_schema_version checksums = SESSION_BT_SCHEMA_VERSION;
  vd_closed : closed_inventory dir manifest checksums;
  vd_entries : Forall (fun entry => verify_file_checksum dir entry = Ok tt) (cs_files checksums);
  vd_refs : read_jsonl read_raw_ref dir SESSION_BT_RAW_CHUNK_REFS "raw chunk refs"
            = Ok raw_chunk_refs;
  vd_chunks : try_fold (verify_raw_chunk dir) ∅ raw_chunk_refs = Ok chunk_hashes;
  vd_contents : Forall (fun content => verify_manifest_content dir content = Ok tt)
                  (mf_contents manifest);
  vd_chunk_inventory : validate_manifest_raw_chunk_inventory chunk_hashes
    (content_hashes (mf_contents manifest)) (mf_contents manifest) = Ok tt;
  vd_records : read_jsonl read_event dir SESSION_BT_EVENTS "event records" = Ok event_records;
  vd_infos : validate_event_records event_records (content_hashes (mf_contents manifest))
    chunk_hashes manifest = Ok event_infos;
  vd_raw_refs : validate_raw_chunk_refs raw_chunk_refs manifest event_infos = Ok tt;
  vd_branches : validate_manifest_branches manifest event_infos = Ok tt;
  vd_ranges : validate_event_ranges manifest event_infos = Ok tt;
  vd_artifacts : validate_manifest_artifacts manifest (content_hashes (mf_contents manifest))
    event_infos = Ok tt;
}.

Lemma validate_Ok dir report :
  validate_session_bundle_directory dir = Ok report <->
  exists manifest bytes checksums refs chunks records infos,
    validated dir manifest bytes checksums refs chunks records infos
    /\ report = {| vr_bundle_hash := hash_bytes bytes;
                   vr_session_id := se_session_id (mf_session manifest);
                   vr_event_count := len records;
                   vr_raw_chunk_reference_count := len refs;
                   vr_raw_chunk_content_count := set_len chunks;
                   vr_content_count := set_len (content_hashes (mf_contents manifest));
                   vr_artifact_count := len (mf_artifacts manifest) |}.
Proof.
  unfold validate_session_bundle_directory. split.
  - intros (m & Hm & ([] & Hv%reject_if_Ok & (bytes & Hb%ok_or_Ok & H)%result_bind_Ok)
      %result_bind_Ok)%result_bind_Ok.
    apply result_bind_Ok in H as ([] & Hh%reject_unless & (cs & Hcs & ([] & Hcv%reject_if_Ok
      & ([] & Hi%inventory_is_closed & ([] & He%try_iter_Ok & H)%result_bind_Ok)
      %result_bind_Ok)%result_bind_Ok)%result_bind_Ok).
    apply result_bind_Ok in H as (refs & Hr & (chunks & Hch & ([] & Hct%try_iter_Ok
      & ([] & Hinv & (records & Hrec & H)%result_bind_Ok)%result_bind_Ok)%result_bind_Ok)
      %result_bind_Ok).
    apply result_bind_Ok in H as (infos & Hin & ([] & Hrr & ([] & Hbr & ([] & Hra & ([] & Har
      & [= <-])%result_bind_Ok)%result_bind_Ok)%result_bind_Ok)%result_bind_Ok).
    apply negb_false_iff, Z.eqb_eq in Hv, Hcv.
    exists m, bytes, cs, refs, chunks, records, infos. split; [by split|done].
  - intros (m & bytes & cs & refs & chunks & records & infos & [] & ->).
    rewrite vd_manifest0. simpl. rewrite vd_version0. simpl. rewrite vd_bytes0. simpl.
    rewrite bool_decide_true by done. simpl. rewrite vd_checksums0. simpl.
    rewrite vd_checksums_version0. simpl.
    apply inventory_is_closed with (u := tt) in vd_closed0. rewrite vd_closed0. simpl.
    apply try_iter_Ok with (u := tt) in vd_entries0, vd_contents0. rewrite vd_entries0. simpl.
    rewrite vd_refs0. simpl. rewrite vd_chunks0. simpl. rewrite vd_contents0. simpl.
    rewrite vd_chunk_inventory0. simpl. rewrite vd_records0. simpl. rewrite vd_infos0. simpl.
    rewrite vd_raw_refs0. simpl. rewrite vd_branches0. simpl. rewrite vd_ranges0. simpl.
    by rewrite vd_artifacts0.
Qed.

(** A checked entry is a file of the directory, with the listed hash. *)
Lemma checked_entry dir entry :
  verify_file_checksum dir entry = Ok tt ->
  exists bytes, dir !! path_components (ck_path entry) = Some bytes
    /\ hash_bytes bytes = ck_hash entry.
Proof.
  unfold verify_file_checksum.
  intros (? & _ & (bytes & Hb%ok_or_Ok%fs_read_Some & (? & Hh%reject_unless & _)%result_bind_Ok)
    %result_bind_Ok)%result_bind_Ok. eauto.
Qed.

(** ** Hashes *)

(** A property of the sixteen digits. *)
Lemma sixteen (P : Z -> Prop) :
  Forall P [0; 1; 2; 3; 4; 5; 6; 7; 8; 9; 10; 11; 12; 13; 14; 15] -> forall z, 0 <= z < 16 -> P z.
Proof.
  rewrite Forall_forall. intros H z Hz. apply H. rewrite !elem_of_cons. lia.
Qed.

Lemma hex_digit_lower z : 0 <= z < 16 -> ascii_lower (hex_digit z) = hex_digit z.
Proof. apply (sixteen (fun z => ascii_lower (hex_digit z) = hex_digit z)). by repeat constructor. Qed.

(** The value of a digit. *)
Definition hex_val (c : ascii) : Z :=
  let n := Z.of_N (byte_val c) in if n <? 58 then n - 48 else n - 87.

Lemma hex_val_digit z : 0 <= z < 16 -> hex_val (hex_digit z) = z.
Proof. apply (sixteen (fun z => hex_val (hex_digit z) = z)). by repeat constructor. Qed.

Lemma byte_range a : 0 <= Z.of_N (byte_val a) < 256.
Proof. unfold byte_val. pose proof (N_ascii_bounded a). lia. Qed.

Lemma lower_hex_lower s : to_ascii_lowercase (to_lower_hex s) = to_lower_hex s.
Proof.
  induction s as [|a s IH]; simpl; [done|]. pose proof (byte_range a).
  rewrite !hex_digit_lower, IH; [done|apply Z.mod_pos_bound; lia|].
  split; [apply Z.div_pos; lia|apply Z.div_lt_upper_bound; lia].
Qed.

Lemma to_lower_hex_inj s t : to_lower_hex s = to_lower_hex t -> s = t.
Proof.
  revert t; induction s as [|a s IH]; intros [|b t]; simpl; try done.
  pose proof (byte_range a). pose proof (byte_range b).
  intros [= H1 H2 H3%IH]. subst. f_equal.
  apply (f_equal hex_val) in H1, H2.
  rewrite !hex_val_digit in H1 by (split; [apply Z.div_pos; lia|apply Z.div_lt_upper_bound; lia]).
  rewrite !hex_val_digit in H2 by (apply Z.mod_pos_bound; lia).
  assert (byte_val a = byte_val b) as E.
  { apply N2Z.inj. rewrite (Z.div_mod (Z.of_N (byte_val a)) 16), H1, H2 by done.
    symmetry. by apply Z.div_mod. }
  unfold byte_val in E. rewrite <- (ascii_N_embedding a), <- (ascii_N_embedding b). by rewrite E.
Qed.

Lemma append_inj_r (p s t : string) : p +:+ s = p +:+ t -> s = t.
Proof. induction p as [|a p IH]; simpl; [done|]. intros [= ?]. auto. Qed.

Lemma hash_bytes_sha256 a b : hash_bytes a = hash_bytes b -> sha256 a = sha256 b.
Proof.
  unfold hash_bytes, from_sha256_hex. intros [= H]. apply append_inj_r in H.
  rewrite !lower_hex_lower in H. by apply to_lower_hex_inj.
Qed.

(** Two texts that are different and have one digest. *)
Definition collide (a b : string) : Prop := a <> b /\ sha256 a = sha256 b.

Lemma same_hash_same_bytes a b : hash_bytes a = hash_bytes b -> a = b \/ collide a b.
Proof.
  intros H%hash_bytes_sha256. destruct (decide (a = b)); [by left|]. right. by split.
Qed.

(** A file of a validated directory is listed in the checksums. *)
Lemma listed_file dir manifest bytes checksums refs chunks records infos cs content :
  validated dir manifest bytes checksums refs chunks records infos -> dir_ok dir ->
  dir !! cs = Some content -> cs <> [SESSION_BT_MANIFEST] -> cs <> [SESSION_BT_CHECKSUMS] ->
  exists entry, entry ∈ cs_files checksums /\ path_components (ck_path entry) = cs.
Proof.
  intros Hd Hok Hcs Hm Hc. destruct (Hok _ _ Hcs) as [Hne Hproper].
  assert (forall name, cs <> [name] -> proper name -> file_path cs <> name) as Hname.
  { intros name Hn Hp E. apply Hn. rewrite <- (path_components_file_path cs) by done. rewrite E.
    apply (path_components_file_path [name]); [done|by apply Forall_singleton]. }
  assert (file_path cs ∈ dir_files dir ∖ {[SESSION_BT_MANIFEST; SESSION_BT_CHECKSUMS]}) as Hin.
  { apply elem_of_difference. split; [apply elem_of_dir_files; eauto|].
    rewrite elem_of_union, !elem_of_singleton. intros [E|E]; revert E; by apply Hname. }
  rewrite (ci_files _ _ _ (vd_closed _ _ _ _ _ _ _ _ Hd)) in Hin.
  apply elem_of_list_to_set, list_elem_of_fmap in Hin as (entry & Hp & Hin).
  exists entry. split; [done|]. rewrite <- Hp. by apply path_components_file_path.
Qed.

(** A bundle's hash fixes the bytes of its files.  Two directories that
    validate with the same bundle hash hold the same files with the same
    bytes, the manifest apart, unless a file of the two directories has
    different bytes with the same SHA-256 digest in them. *)
Theorem bundle_hash_pins_files dir1 dir2 report1 report2 cs :
  dir_ok dir1 -> dir_ok dir2 ->
  validate_session_bundle_directory dir1 = Ok report1 ->
  validate_session_bundle_directory dir2 = Ok report2 ->
  vr_bundle_hash report1 = vr_bundle_hash report2 ->
  cs <> [SESSION_BT_MANIFEST] ->
  dir1 !! cs = dir2 !! cs
  \/ exists cs' a b, dir1 !! cs' = Some a /\ dir2 !! cs' = Some b /\ collide a b.
Proof.
  intros Hok1 Hok2 (m1 & b1 & c1 & r1 & h1 & e1 & i1 & Hd1 & ->)%validate_Ok
    (m2 & b2 & c2 & r2 & h2 & e2 & i2 & Hd2 & ->)%validate_Ok Hhash Hcs. simpl in Hhash.
  pose proof (fs_read_Some _ _ _ (vd_bytes _ _ _ _ _ _ _ _ Hd1)) as E1.
  pose proof (fs_read_Some _ _ _ (vd_bytes _ _ _ _ _ _ _ _ Hd2)) as E2.
  destruct (same_hash_same_bytes _ _ Hhash) as [->|]; [|right; by eexists _, b1, b2].
  assert (c1 = c2) as -> by (pose proof (vd_checksums _ _ _ _ _ _ _ _ Hd1) as Hc1;
    pose proof (vd_checksums _ _ _ _ _ _ _ _ Hd2) as Hc2; congruence).
  destruct (decide (cs = [SESSION_BT_CHECKSUMS])) as [->|Hc].
  { left. exact (eq_trans E1 (eq_sym E2)). }
  clear E1 E2.
  enough (forall entry, entry ∈ cs_files c2 -> path_components (ck_path entry) = cs ->
    dir1 !! cs = dir2 !! cs
    \/ exists cs' a b, dir1 !! cs' = Some a /\ dir2 !! cs' = Some b /\ collide a b) as Hentry.
  { destruct (dir1 !! cs) eqn:E1.
    - destruct (listed_file _ _ _ _ _ _ _ _ _ _ Hd1 Hok1 E1 Hcs Hc) as (? & ? & ?). eauto.
    - destruct (dir2 !! cs) eqn:E2; [|by left].
      destruct (listed_file _ _ _ _ _ _ _ _ _ _ Hd2 Hok2 E2 Hcs Hc) as (? & ? & ?). eauto. }
  intros entry Hin <-.
  pose proof (vd_entries _ _ _ _ _ _ _ _ Hd1) as H1. pose proof (vd_entries _ _ _ _ _ _ _ _ Hd2) as H2.
  rewrite Forall_forall in H1, H2.
  destruct (checked_entry _ _ (H1 _ Hin)) as (x1 & E1 & Hx1).
  destruct (checked_entry _ _ (H2 _ Hin)) as (x2 & E2 & Hx2).
  destruct (same_hash_same_bytes x1 x2) as [->|]; [by rewrite Hx1|left; by rewrite E1, E2|right; eauto 7].
Qed.

(** ** Comparison *)

Lemma common_prefix_spec l r :
  exists l' r', let p := take (common_prefix_len l r) l in
    l = p ++ l' /\ r = p ++ r' /\ length p = common_prefix_len l r
    /\ forall a b, head l' = Some a -> head r' = Some b -> a <> b.
Proof.
  revert r; induction l as [|a l IH]; intros [|b r]; simpl; try (by eexists _, _).
  case_bool_decide as E; simpl.
  - subst. destruct (IH r) as (l' & r' & Hl & Hr & Hlen & Hne). exists l', r'.
    split_and!; [by f_equal|by f_equal|by f_equal|done].
  - exists (a :: l), (b :: r). split_and!; try done. by intros ? ? [= <-] [= <-].
Qed.

Lemma set_difference_nil {A} `{Countable A} (le : A -> A -> Prop) `{!forall a b, Decision (le a b)}
    (s t : gset A) : is_nil (set_difference le s t) = true <-> s ⊆ t.
Proof.
  unfold set_difference. split.
  - intros Hn. assert (elements (s ∖ t) = []) as He.
    { apply Permutation_nil_r. rewrite <- (merge_sort_Permutation le).
      by destruct (merge_sort _ _). }
    apply elements_empty_iff in He. set_solver.
  - intros Hs. assert (s ∖ t = ∅) as -> by (apply leibniz_equiv; set_solver).
    by rewrite elements_empty.
Qed.

(** How two histories relate: by a first difference after a common part. *)
Definition diverge_after (p l r : list PortableHash) : Prop :=
  exists a b l' r', a <> b /\ l = p ++ a :: l' /\ r = p ++ b :: r'.

Lemma diverge_common p l r : diverge_after p l r -> common_prefix_len l r = length p.
Proof.
  intros (a & b & l' & r' & Hab & -> & ->). induction p as [|c p IH]; simpl.
  - by rewrite bool_decide_false.
  - by rewrite bool_decide_true, IH.
Qed.

Lemma prefix_common l r : l `prefix_of` r -> common_prefix_len l r = length l.
Proof.
  intros [k ->]. induction l as [|c l IH]; simpl; [by destruct k|]. by rewrite bool_decide_true, IH.
Qed.

Lemma common_prefix_comm l r : common_prefix_len l r = common_prefix_len r l.
Proof.
  revert r; induction l as [|a l IH]; intros [|b r]; simpl; try done.
  rewrite IH. case_bool_decide; case_bool_decide; congruence.
Qed.

(** Two histories are one, or one continues the other, or they diverge. *)
Lemma histories l r :
  (l `prefix_of` r \/ r `prefix_of` l) \/ exists p, diverge_after p l r.
Proof.
  destruct (common_prefix_spec l r) as (l' & r' & Hl & Hr & _ & Hne).
  destruct l' as [|a l']; [|destruct r' as [|b r']].
  - left. left. rewrite app_nil_r in Hl. exists r'. by rewrite Hl at 1.
  - left. right. rewrite app_nil_r in Hr. exists (a :: l'). by rewrite Hr.
  - right. eexists _, a, b, l', r'. split_and!; [by apply Hne|exact Hl|exact Hr].
Qed.

Lemma diverging_not_prefix p l r :
  diverge_after p l r -> ~ (l `prefix_of` r) /\ ~ (r `prefix_of` l).
Proof.
  intros (a & b & l' & r' & Hab & -> & ->).
  split; intros [k E]; rewrite <- (assoc_L (++)) in E; apply app_inv_head in E; by injection E.
Qed.

(** The relationship of two different histories. *)
Lemma classify_different l r redaction inventory :
  l <> r ->
  let rel := classify_bundle_diff l r (common_prefix_len l r) redaction inventory in
  (l `prefix_of` r \/ r `prefix_of` l -> rel = SameLineageUpdate)
  /\ (forall p, diverge_after p l r ->
        rel = match p with [] => DifferentLineage | _ => ForkDivergence end).
Proof.
  intros Hlr. unfold classify_bundle_diff. rewrite bool_decide_false by done. split.
  - intros Hp. assert (Nat.eqb (common_prefix_len l r) (Nat.min (length l) (length r)) = true) as ->;
      [|done]. apply Nat.eqb_eq.
    destruct Hp as [Hp|Hp]; [|rewrite common_prefix_comm]; rewrite prefix_common by done;
      apply prefix_length in Hp; lia.
  - intros p Hp. rewrite (diverge_common _ _ _ Hp).
    destruct Hp as (a & b & l' & r' & _ & -> & ->). rewrite !length_app. simpl.
    destruct (Nat.eqb_spec (length p) (Nat.min (length p + S (length l')) (length p + S (length r'))));
      [lia|]. by destruct p.
Qed.

(** The comparison of two bundles says how their histories relate.  It
    answers [Equivalent] for equal event hashes with the same branches,
    contents, artifacts and redaction; an update of the same lineage when one
    history properly continues the other; a fork when they share a beginning
    and then differ; and different lineages when the first events differ. *)
Theorem diff_classifies_histories left_report right_report left_bundle right_bundle :
  let report := diff_report left_report right_report left_bundle right_bundle in
  let l := db_event_hashes left_bundle in
  let r := db_event_hashes right_bundle in
  (dr_relationship report = Equivalent <->
     l = r /\ mf_redaction (db_manifest left_bundle) = mf_redaction (db_manifest right_bundle)
     /\ db_branch_ids left_bundle = db_branch_ids right_bundle
     /\ db_content_hashes left_bundle = db_content_hashes right_bundle
     /\ db_artifact_ids left_bundle = db_artifact_ids right_bundle)
  /\ (dr_relationship report = SameLineageUpdate <->
        l <> r /\ (l `prefix_of` r \/ r `prefix_of` l))
  /\ (dr_relationship report = ForkDivergence <-> exists p, p <> [] /\ diverge_after p l r)
  /\ (dr_relationship report = DifferentLineage <-> diverge_after [] l r).
Proof.
  intros report l r.
  destruct (decide (l = r)) as [E|Hne].
  - assert (forall p, ~ diverge_after p l r) as Hnd.
    { intros p Hp. apply diverging_not_prefix in Hp as [Hp _]. apply Hp. by rewrite E. }
    unfold report, diff_report, classify_bundle_diff, l, r in *. simpl.
    rewrite bool_decide_true by done.
    case_bool_decide as Hred; simpl; [|by destruct Hred; do 2 destruct (mf_redaction _)].
    rewrite <- !andb_assoc.
    match goal with |- context [if ?c then _ else _] => destruct c eqn:Hc end.
    + rewrite !andb_true_iff, !set_difference_nil in Hc. destruct Hc as (? & ? & ? & ? & ? & ?).
      split_and!; (split; [|naive_solver]); try done.
      intros _. split_and!; try done; by apply leibniz_equiv, (anti_symm (⊆)).
    + split_and!; (split; [done|]); [|naive_solver|naive_solver|naive_solver].
      intros (_ & _ & H1 & H2 & H3). exfalso. revert Hc. rewrite H1, H2, H3.
      by rewrite !(proj2 (set_difference_nil _ _ _) (reflexivity _)).
  - destruct (classify_different l r (dr_redaction_changed report)
      (is_nil (dr_left_only_branch_ids report) && is_nil (dr_right_only_branch_ids report)
       && is_nil (dr_left_only_content_hashes report) && is_nil (dr_right_only_content_hashes report)
       && is_nil (dr_left_only_artifact_ids report) && is_nil (dr_right_only_artifact_ids report)) Hne)
      as [Hup Hdiv].
    change (classify_bundle_diff _ _ _ _ _) with (dr_relationship report) in Hup, Hdiv.
    destruct (histories l r) as [Hp|[p Hp]].
    + rewrite (Hup Hp). assert (forall p, ~ diverge_after p l r) as Hnd.
      { intros p [H1 H2]%diverging_not_prefix. by destruct Hp. }
      split_and!; (split; [try done|]); try done.
      * by intros [? _].
      * by intros (p & _ & []%Hnd).
      * by intros []%Hnd.
    + rewrite (Hdiv _ Hp). destruct (diverging_not_prefix _ _ _ Hp) as [H1 H2].
      pose proof (diverge_common _ _ _ Hp) as Hlen.
      destruct p as [|c p]; (split_and!; [by split; [|intros [? _]]| | |]).
      * split; [done|]. by intros [_ []].
      * split; [done|]. intros (q & Hq & Hdq%diverge_common). destruct q; [done|].
        simpl in *. congruence.
      * done.
      * split; [done|]. by intros [_ []].
      * split; [|done]. intros _. by exists (c :: p).
      * split; [done|]. intros Hd%diverge_common. simpl in *. congruence.
Qed.
End laws.
