(* ===== verification/BundleWritten.v ===== *)
(** * What an export writes

    The files of an exported directory, as the list of the paths and bytes
    written; JSON lines are read back; and the export taken apart into its
    steps. *)

From stdpp Require Import base list strings gmap sorting.
From Stdlib Require Import ZArith Lia Ascii.
From S2P Require Import Prelude Text Utf8 Json Types TurnProjection Store StoreOps StoreRelated.
From S2P Require Import StoreReplay StoreQueries Bundle BundleFiles BundleExport BundleImport BundleLaws.

#[local] Open Scope Z_scope.

(** ** Good paths *)

Record good_path (path : string) : Prop := {
  gp_valid : validate_bundle_relative_path path = Ok tt;
  gp_file : file_path (path_components path) = path;
  gp_nonempty : path_components path <> [];
  gp_proper : Forall proper (path_components path);
  gp_names : names_directory path = false;
}.

Lemma proper_not_empty cs : cs <> [] -> Forall proper cs -> is_empty (file_path cs) = false.
Proof.
  intros Hne Hcs. destruct Hcs as [|c cs (Hc & _) _]; [done|]. unfold is_empty. apply String.eqb_neq.
  unfold file_path, join. destruct c; [done|]. by destruct cs.
Qed.

Lemma proper_relative cs : cs <> [] -> Forall proper cs -> starts_with "/" (file_path cs) = false.
Proof.
  intros Hne Hcs. destruct Hcs as [|c cs (Hc & _ & Hs) _]; [done|].
  unfold file_path, join. destruct c as [|a c]; [done|]. cbn [has_char] in Hs. apply orb_false_iff in Hs as [Ha _].
  assert (forall s, starts_with "/" (String a s) = false) as H.
  { intros s. unfold starts_with. cbn [strip_prefix]. rewrite Ascii.eqb_sym. unfold slash in Ha.
    by rewrite Ha. }
  destruct cs; apply H.
Qed.

(** Proper components other than [..] make a good path. *)
Lemma good_components cs :
  cs <> [] -> Forall proper cs -> ".." ∉ cs -> good_path (file_path cs).
Proof.
  intros Hne Hcs Hdd. pose proof (path_components_file_path cs Hne Hcs) as Hpc.
  split; rewrite ?Hpc; try done.
  - unfold validate_bundle_relative_path.
    rewrite proper_not_empty, proper_relative, Hpc by done.
    assert (existsb (String.eqb "..") cs = false) as ->; [|done].
    apply not_true_iff_false. intros (c & Hin & Hc%String.eqb_eq)%existsb_exists. apply Hdd.
    rewrite Hc. by apply list_elem_of_In.
  - unfold names_directory, file_path. rewrite split_char_join; [|done|].
    + destruct (last cs) as [c|] eqn:Hl; [|by apply last_None in Hl].
      apply last_Some in Hl as [l' ->]. apply Forall_app in Hcs as [_ Hc].
      apply Forall_cons in Hc as [(H1 & H2 & _) _].
      by apply String.eqb_neq in H1 as ->, H2 as ->.
    + eapply Forall_impl; [exact Hcs|]. by intros c (_ & _ & ?).
Qed.

(** ** Directories by what was written *)

Abbreviation FileLog := (list (string * string)).

Definition dir_of (log : FileLog) : Dir := foldl (fun dir file => fs_write dir file.1 file.2) ∅ log.

Lemma dir_of_snoc log file : dir_of (log ++ [file]) = fs_write (dir_of log) file.1 file.2.
Proof. unfold dir_of. by rewrite foldl_app. Qed.

(** Each path is good and was written once. *)
Record good_log (log : FileLog) : Prop := {
  gl_good : Forall good_path log.*1;
  gl_once : NoDup log.*1;
}.

Lemma good_path_inj p q :
  good_path p -> good_path q -> path_components p = path_components q -> p = q.
Proof. intros [_ Hp _ _ _] [_ Hq _ _ _] E. by rewrite <- Hp, <- Hq, E. Qed.

Lemma good_log_snoc log file :
  good_log (log ++ [file]) -> good_log log /\ good_path file.1 /\ file.1 ∉ log.*1.
Proof.
  intros [Hg Hn]. rewrite fmap_app in Hg, Hn. apply Forall_app in Hg as [Hg Hf].
  apply NoDup_app in Hn as (Hn & Hd & _). simpl in Hf. apply Forall_cons in Hf as [Hf _].
  split_and!; [by split|done|]. intros Hin. apply (Hd _ Hin). by apply list_elem_of_singleton.
Qed.

Lemma dir_of_lookup log cs bytes :
  good_log log ->
  dir_of log !! cs = Some bytes <-> exists path, (path, bytes) ∈ log /\ path_components path = cs.
Proof.
  induction log as [|[p b] log IH] using rev_ind; intros Hg.
  { split; [done|]. by intros (? & ?%elem_of_nil & _). }
  apply good_log_snoc in Hg as (Hg & Hp & Hn). rewrite dir_of_snoc. unfold fs_write.
  specialize (IH Hg). simpl in *. setoid_rewrite elem_of_app. setoid_rewrite list_elem_of_singleton.
  destruct (decide (path_components p = cs)) as [E|Hne].
  - rewrite E, lookup_insert_eq. split; [intros [= ->]; eauto|].
    intros (path & [Hin|[= -> ->]] & Hc); [|done]. exfalso. apply Hn.
    rewrite (good_path_inj p path); [by apply (list_elem_of_fmap_2 fst) in Hin|done| |congruence].
    pose proof (gl_good _ Hg) as Hall. rewrite Forall_forall in Hall.
    apply Hall. by apply (list_elem_of_fmap_2 fst) in Hin.
  - rewrite lookup_insert_ne, IH by done. naive_solver.
Qed.

Lemma fs_read_dir_of log path bytes :
  good_log log -> (path, bytes) ∈ log -> fs_read (dir_of log) path = Some bytes.
Proof.
  intros Hg Hin. unfold fs_read. pose proof (gl_good _ Hg) as Hall. rewrite Forall_forall in Hall.
  rewrite (gp_names path) by (apply Hall; by apply (list_elem_of_fmap_2 fst) in Hin).
  apply dir_of_lookup; eauto.
Qed.

(** The paths of the directory are the paths written. *)
Lemma dir_files_of log : good_log log -> dir_files (dir_of log) = list_to_set log.*1.
Proof.
  intros Hg. apply leibniz_equiv. intros path. rewrite elem_of_dir_files, elem_of_list_to_set.
  pose proof (gl_good _ Hg) as Hall. rewrite Forall_forall in Hall. split.
  - intros (cs & bytes & (p & Hin & <-)%dir_of_lookup & ->); [|done].
    apply (list_elem_of_fmap_2 fst) in Hin. simpl in Hin. by rewrite (gp_file p) by auto.
  - intros ([p b] & -> & Hin)%list_elem_of_fmap. exists (path_components p), b.
    split; [apply dir_of_lookup; eauto|]. simpl. symmetry. apply gp_file, Hall.
    by apply (list_elem_of_fmap_2 fst) in Hin.
Qed.

Lemma dir_of_paths_valid log :
  good_log log ->
  Forall (fun path => validate_bundle_relative_path path = Ok tt)
    (List.map (fun kv => file_path kv.1) (map_to_list (dir_of log))).
Proof.
  intros Hg. apply Forall_forall. intros path Hin.
  assert (path ∈ dir_files (dir_of log)) as Hf by (unfold dir_files; by apply elem_of_list_to_set).
  rewrite dir_files_of, elem_of_list_to_set in Hf by done.
  pose proof (gl_good _ Hg) as Hall. rewrite Forall_forall in Hall. by apply gp_valid, Hall.
Qed.

(** ** JSON lines *)

Lemma split_newlines_line s t :
  no_newline s = true -> split_newlines (s +:+ nl +:+ t) = s :: split_newlines t.
Proof.
  induction s as [|a s IH]; simpl; [done|]. intros [Ha Hs]%andb_true_iff.
  apply negb_true_iff in Ha. by rewrite Ha, (IH Hs).
Qed.

Lemma written_lines ls :
  Forall one_line ls ->
  let content := concat_str (List.map (fun line => line +:+ nl) ls) in
  lines content = ls /\ valid_utf8 content = true.
Proof.
  intros Hls content. unfold content, lines. clear content.
  induction Hls as [|s ls (Hu & Hn & _ & Hr) _ [IH1 IH2]]; [done|].
  simpl. rewrite append_assoc. rewrite split_newlines_line by done. split.
  - rewrite <- IH1 at 2. simpl. rewrite Hr.
    assert (split_newlines (concat_str (List.map (fun line => line +:+ nl) ls)) <> []) as Hne.
    { destruct (concat_str _) as [|a u]; [done|]. simpl. destruct (Ascii.eqb a newline); [done|].
      by destruct (split_newlines u). }
    by destruct (split_newlines _).
  - by apply valid_utf8_app, (valid_utf8_app nl).
Qed.

Section written.
Context `{codec : RowCodec} `{bundle : BundleCodec}.

Lemma parse_written {A} (parse : string -> Result A) label index ls items :
  Forall2 (fun line item => is_blank line = false /\ parse line = Ok item) ls items ->
  parse_lines parse label index ls = Ok items.
Proof.
  intros H. revert index. induction H as [|line item ls items [Hb Hp] _ IH]; intros index; simpl; [done|].
  rewrite Hb, Hp. simpl. by rewrite IH.
Qed.

(** A file of JSON lines gives its items back. *)
Lemma read_written {A} (write : A -> Result string) (parse : string -> Result A) dir path label
    items bytes :
  jsonl_bytes write items = Ok bytes -> fs_read dir path = Some bytes ->
  (forall item line, item ∈ items -> write item = Ok line -> one_line line /\ parse line = Ok item) ->
  read_jsonl parse dir path label = Ok items.
Proof.
  intros (ls & Hls%try_map_Ok_Forall2 & [= <-])%result_bind_Ok Hread Hlaw.
  unfold read_jsonl. rewrite Hread. simpl.
  assert (Forall2 (fun line item => one_line line /\ parse line = Ok item) ls items) as H2.
  { clear Hread. induction Hls as [|item line items ls Hw _ IH]; constructor.
    - apply Hlaw; [left|done].
    - apply IH. intros. apply Hlaw; [by right|done]. }
  destruct (written_lines ls) as [Hl Hu].
  { clear -H2. by induction H2 as [|??? ? []]; constructor. }
  rewrite Hu. simpl. rewrite Hl. apply parse_written. eapply Forall2_impl; [exact H2|].
  by intros line item [(_ & _ & ? & _) ?].
Qed.

(** ** Pushing files *)

Definition entry_of (file : string * string) : SessionBundleChecksumEntry :=
  MkChecksumEntry file.1 (hash_bytes file.2) (Z.of_nat (byte_len file.2)).

Record wrote (w : Written) (log : FileLog) : Prop := {
  wo_dir : wr_dir w = dir_of log;
  wo_checksums : wr_checksums w = List.map entry_of log;
}.

Lemma push_file_Ok path bytes w log w' :
  wrote w log -> push_file path bytes w = Ok w' ->
  validate_bundle_relative_path path = Ok tt /\ wrote w' (log ++ [(path, bytes)]).
Proof.
  intros [Hd Hc] ([entry dir] & Hw & [= <-])%result_bind_Ok.
  apply result_bind_Ok in Hw as ([] & Hv & [= <- <-]). split; [done|].
  split; simpl; [by rewrite dir_of_snoc, Hd|by rewrite map_app, Hc].
Qed.

(** ** The export, taken apart *)

Context `{host : HostFiles}.

(** Everything an export reads and writes. *)
Record exported (db : Db) (session_id : SessionId) (options : SessionBundleExportOptions)
    (manifest : SessionBundleManifest) (dir : Dir) (session : SessionRecord)
    (branches : list BranchRecord) (chunks : list RawChunkRecord)
    (records : list SessionBundleEventRecord) (infos : list EventRecordInfo)
    (refs : list SessionBundleRawChunkRef) (contents : list ContentRef)
    (artifacts : list ExportedArtifact) (w1 w2 : Written)
    (events_bytes refs_bytes checksums_bytes manifest_bytes : string) : Prop := {
  xp_session : load_session session_id db = Ok (Some session);
  xp_branches : load_branches session_id db = Ok branches;
  xp_chunks : load_all_raw_chunks session_id db = Ok chunks;
  xp_records : build_event_records (load_session_event_log session_id db)
                 (prepare_raw_chunks chunks).2 = Ok (records, infos);
  xp_refs : build_raw_chunk_refs (prepare_raw_chunks chunks).1 infos (MkWritten ∅ [])
            = Ok (refs, contents, w1);
  xp_artifacts : export_artifacts session options w1 = Ok (artifacts, w2);
  xp_events_bytes : jsonl_bytes write_event records = Ok events_bytes;
  xp_refs_bytes : jsonl_bytes write_raw_ref refs = Ok refs_bytes;
  xp_checksums_bytes : write_checksums (MkChecksums SESSION_BT_SCHEMA_VERSION
      (merge_sort checksum_le (wr_checksums w2
         ++ List.map entry_of [(SESSION_BT_EVENTS, events_bytes);
                               (SESSION_BT_RAW_CHUNK_REFS, refs_bytes)]))) = Ok checksums_bytes;
  xp_refs_of_artifacts : exists source_nodes,
    build_artifact_refs session branches infos artifacts (hash_bytes checksums_bytes)
      = Ok source_nodes
    /\ manifest =
      {| mf_schema_version := SESSION_BT_SCHEMA_VERSION;
         mf_bundle_hash := hash_bytes checksums_bytes;
         mf_session := session;
         mf_branches := build_branch_manifests branches infos (Some (hash_bytes checksums_bytes));
         mf_event_ranges := build_event_ranges branches infos;
         mf_producer := MkProducerInfo "belltower" CARGO_PKG_VERSION;
         mf_redaction := RedactNone;
         mf_artifact_mode := xo_artifact_mode options;
         mf_contents := merge_sort content_le (contents ++ List.map xa_content artifacts);
         mf_artifacts := source_nodes |};
  xp_manifest_bytes : write_manifest manifest = Ok manifest_bytes;
  xp_dir : forall log, wrote w2 log ->
    dir = dir_of (log ++ [(SESSION_BT_EVENTS, events_bytes); (SESSION_BT_RAW_CHUNK_REFS, refs_bytes);
                          (SESSION_BT_CHECKSUMS, checksums_bytes);
                          (SESSION_BT_MANIFEST, manifest_bytes)]);
}.

Lemma dir_of_app log log' : dir_of (log ++ log') = foldl (fun dir file => fs_write dir file.1 file.2) (dir_of log) log'.
Proof. unfold dir_of. by rewrite foldl_app. Qed.

Lemma push_file_inv path bytes w w' :
  push_file path bytes w = Ok w' ->
  w' = MkWritten (fs_write (wr_dir w) path bytes) (wr_checksums w ++ [entry_of (path, bytes)]).
Proof.
  intros ([entry dir] & Hw & [= <-])%result_bind_Ok.
  by apply result_bind_Ok in Hw as ([] & _ & [= <- <-]).
Qed.

Lemma export_Ok db session_id output_dir output options manifest dir :
  export_session_bundle_directory db session_id output_dir output options = Ok (manifest, dir) ->
  exists session branches chunks records infos refs contents artifacts w1 w2 b1 b2 b3 b4,
    exported db session_id options manifest dir session branches chunks records infos refs
      contents artifacts w1 w2 b1 b2 b3 b4.
Proof.
  unfold export_session_bundle_directory.
  intros ([] & _ & (found & Hf & (session & Hs%ok_or_Ok & (branches & Hb & (chunks & Hc & H)
    %result_bind_Ok)%result_bind_Ok)%result_bind_Ok)%result_bind_Ok)%result_bind_Ok. subst found.
  destruct (prepare_raw_chunks chunks) as [by_id hashes] eqn:Hp.
  apply result_bind_Ok in H as ([records infos] & Hr & ([[refs contents] w1] & Hrr
    & ([artifacts w2] & Ha & (b1 & Hb1 & (w3 & Hw3%push_file_inv & H)%result_bind_Ok)%result_bind_Ok)
    %result_bind_Ok)%result_bind_Ok).
  apply result_bind_Ok in H as (b2 & Hb2 & (w4 & Hw4%push_file_inv & (b3 & Hb3 & ([e5 d5] & Hw5 & H)
    %result_bind_Ok)%result_bind_Ok)%result_bind_Ok).
  apply result_bind_Ok in Hw5 as ([] & _ & [= <- <-]).
  apply result_bind_Ok in H as (nodes & Hn & (b4 & Hb4 & [= <- <-])%result_bind_Ok). subst w3 w4. simpl in *.
  exists session, branches, chunks, records, infos, refs, contents, artifacts, w1, w2, b1, b2, b3, b4.
  split; rewrite ?Hp; simpl; try done.
  - by rewrite <- (assoc_L (++)) in Hb3.
  - by exists nodes.
  - intros log [Hd _]. by rewrite dir_of_app, <- Hd.
Qed.

(** ** The files of an export *)

Lemma push_file_log path bytes w log w' :
  wrote w log -> push_file path bytes w = Ok w' -> wrote w' (log ++ [(path, bytes)]).
Proof. intros Hw H. by eapply push_file_Ok. Qed.

Lemma add_ref_log by_id info st ref st' log :
  wrote (rr_written st) log -> add_raw_chunk_ref by_id info st ref = Ok st' ->
  exists log', wrote (rr_written st') (log ++ log').
Proof.
  intros Hw (chunk & _ & ([] & _ & (w & H & [= <-])%result_bind_Ok)%result_bind_Ok)%result_bind_Ok.
  simpl. case_bool_decide.
  - injection H as <-. exists []. by rewrite app_nil_r.
  - apply result_bind_Ok in H as (path & _ & H). eauto using push_file_log.
Qed.

Lemma raw_refs_log by_id infos w refs contents w' log :
  wrote w log -> build_raw_chunk_refs by_id infos w = Ok (refs, contents, w') ->
  exists log', wrote w' (log ++ log').
Proof.
  intros Hw (st & H & [= _ _ <-])%result_bind_Ok. revert H.
  apply (try_fold_inv (fun _ st => exists log', wrote (rr_written st) (log ++ log'))).
  - intros _ info s s' _ [log1 H1] Hs. revert Hs.
    apply (try_fold_inv (fun _ st => exists log', wrote (rr_written st) (log ++ log'))); [|by exists log1].
    intros _ ref s1 s2 _ [log2 H2] (log3 & H3)%(add_ref_log _ _ _ _ _ _ H2).
    exists (log2 ++ log3). by rewrite (assoc_L (++)).
  - exists []. by rewrite app_nil_r.
Qed.

(** The path an artifact given as bytes, under an id, is written to. *)
Definition named_path (input : SessionBundleArtifactInput) (path : string) : Prop :=
  forall id kind name bytes media_type,
    input = MkArtifactInput (Some id) kind (ArtifactBytes name bytes media_type) ->
    path = artifact_path id name.

Lemma artifacts_log session options w artifacts w' log :
  wrote w log -> export_artifacts session options w = Ok (artifacts, w') ->
  exists log', wrote w' (log ++ log')
    /\ Forall2 (fun input file => named_path input file.1) (xo_artifacts options) log'.
Proof.
  intros Hw ([] & _ & ([[arts ids] w2] & H & [= _ <-])%result_bind_Ok)%result_bind_Ok. revert H.
  apply (try_fold_inv (fun inputs st => exists log', wrote st.2 (log ++ log')
    /\ Forall2 (fun input file => named_path input file.1) inputs log')).
  - intros inputs input [[a1 i1] w1] [[a2 i2] w3] _ (log' & H1 & Hf) H. simpl in *.
    apply result_bind_Ok in H as ([] & _ & ([[name bytes] media] & Hs & ([] & _ & (w4 & Hp & [= _ _ <-])
      %result_bind_Ok)%result_bind_Ok)%result_bind_Ok).
    eexists. rewrite (assoc_L (++)). split; [by eapply push_file_log|].
    apply Forall2_app; [done|]. constructor; [|constructor].
    intros id kind n b t ->. simpl in *. by injection Hs as <- _ _.
  - exists []. by rewrite app_nil_r.
Qed.

Lemma wrote_nothing : wrote (MkWritten ∅ []) [].
Proof. by split. Qed.

(** The log of an export, and the checksums file it ends with. *)
Lemma exported_log db session_id options manifest dir session branches chunks records infos refs
    contents artifacts w1 w2 b1 b2 b3 b4 :
  exported db session_id options manifest dir session branches chunks records infos refs
    contents artifacts w1 w2 b1 b2 b3 b4 ->
  exists log1 log2, wrote w1 log1 /\ wrote w2 (log1 ++ log2)
    /\ Forall2 (fun input file => named_path input file.1) (xo_artifacts options) log2.
Proof.
  intros []. destruct (raw_refs_log _ _ _ _ _ _ [] wrote_nothing xp_refs0) as (log1 & H1).
  destruct (artifacts_log _ _ _ _ _ _ H1 xp_artifacts0) as (log2 & H2 & Hf). by exists log1, log2.
Qed.

Lemma checksums_file log b1 b2 b3 b4 :
  fs_read (dir_of (log ++ [(SESSION_BT_EVENTS, b1); (SESSION_BT_RAW_CHUNK_REFS, b2);
                           (SESSION_BT_CHECKSUMS, b3); (SESSION_BT_MANIFEST, b4)]))
    SESSION_BT_CHECKSUMS = Some b3.
Proof.
  rewrite dir_of_app. cbn [foldl]. unfold fs_read, fs_write.
  change (names_directory SESSION_BT_CHECKSUMS) with false. cbv iota.
  rewrite lookup_insert_ne by (intros E; vm_compute in E; discriminate E). by rewrite lookup_insert_eq.
Qed.

(** Artifacts whose names collide make a bundle that is refused.  The
    file of an artifact is named by its sanitised id and display name, and
    only the ids themselves are checked to be distinct; when two artifacts
    get one path, the export succeeds with the second file in place of the
    first, and no validation accepts what it wrote. *)
Theorem colliding_artifacts_refused `{!BundleCodecLaws} db session_id output_dir output options
    manifest dir i j id1 id2 kind1 kind2 name1 name2 bytes1 bytes2 media1 media2 :
  xo_artifacts options !! i = Some (MkArtifactInput (Some id1) kind1 (ArtifactBytes name1 bytes1 media1)) ->
  xo_artifacts options !! j = Some (MkArtifactInput (Some id2) kind2 (ArtifactBytes name2 bytes2 media2)) ->
  i <> j -> artifact_path id1 name1 = artifact_path id2 name2 ->
  export_session_bundle_directory db session_id output_dir output options = Ok (manifest, dir) ->
  forall report, validate_session_bundle_directory dir <> Ok report.
Proof.
  intros Hi Hj Hij Hpath (se & br & ch & rec & inf & refs & ct & ar & w1 & w2 & b1 & b2 & b3 & b4 & Hx)
    %export_Ok report (m & bytes & cs & rs & hs & evs & ins & Hd & _)%validate_Ok.
  destruct (exported_log _ _ _ _ _ _ _ _ _ _ _ _ _ _ _ _ _ _ _ Hx) as (log1 & log2 & _ & Hw & Hf).
  destruct Hx. destruct Hd. rewrite (xp_dir0 _ Hw), checksums_file in vd_bytes. injection vd_bytes as <-.
  rewrite (read_write_checksums _ _ xp_checksums_bytes0) in vd_checksums. injection vd_checksums as <-.
  destruct vd_closed. simpl in *.
  pose proof ci_distinct as Hn.
  rewrite (fmap_Permutation ck_path _ _ (merge_sort_Permutation checksum_le _)) in Hn.
  rewrite (wo_checksums _ _ Hw) in Hn.
  destruct (Forall2_lookup_l _ _ _ _ _ Hf Hi) as ([p1 c1] & H1 & Hp1).
  destruct (Forall2_lookup_l _ _ _ _ _ Hf Hj) as ([p2 c2] & H2 & Hp2).
  specialize (Hp1 _ _ _ _ _ eq_refl). specialize (Hp2 _ _ _ _ _ eq_refl). simpl in *.
  assert (forall k p c, log2 !! k = Some (p, c) ->
    (ck_path <$> List.map entry_of (log1 ++ log2) ++ [entry_of (SESSION_BT_EVENTS, b1);
       entry_of (SESSION_BT_RAW_CHUNK_REFS, b2)]) !! (length log1 + k)%nat = Some p) as Hlook.
  { intros k p c Hk. rewrite fmap_app. apply lookup_app_l_Some.
    change (List.map entry_of (log1 ++ log2)) with (entry_of <$> log1 ++ log2).
    rewrite !list_lookup_fmap, lookup_app_r by lia.
    replace (length log1 + k - length log1)%nat with k by lia. by rewrite Hk. }
  apply Hij. enough (length log1 + i = length log1 + j)%nat by lia.
  eapply (NoDup_lookup _ _ _ p1 Hn); [by eapply Hlook|]. rewrite Hp1, Hpath, <- Hp2. by eapply Hlook.
Qed.
End written.
