(* ===== verification/BundleChecks.v ===== *)
(** * Exported events and raw chunks

    What the events, the raw chunks and the references of an export are, and
    the files the references are written to. *)

From stdpp Require Import base list strings gmap sorting.
From Stdlib Require Import ZArith Lia Ascii.
From S2P Require Import Prelude Text Json Types TurnProjection Store StoreOps StoreRelated.
From S2P Require Import StoreReplay StoreQueries Bundle BundleFiles BundleExport BundleImport BundleLaws.
From S2P Require Import BundleWritten.

#[local] Open Scope Z_scope.

Section checks.
Context `{codec : RowCodec} `{bundle : BundleCodec} `{blaws : !BundleCodecLaws}.

(** ** Events *)

Lemma raw_chunk_ref_Ok id hashes label ref :
  raw_chunk_ref id hashes label = Ok ref ->
  hashes !! id = Some (re_content_hash ref) /\ re_local_chunk_id ref = id.
Proof. by intros (h & Hh%ok_or_Ok & [= <-])%result_bind_Ok. Qed.

Lemma payload_from_live_Ok payload hashes portable refs :
  payload_from_live payload hashes = Ok (portable, refs) ->
  portable_kind portable = kind payload
  /\ raw_chunk_content_refs portable = List.map re_content_hash refs
  /\ Forall (fun ref => hashes !! re_local_chunk_id ref = Some (re_content_hash ref)) refs
  /\ (length refs <= 1)%nat.
Proof.
  intros H. destruct payload; simpl in H;
    try (apply result_bind_Ok in H as (q & ->%payload_trip_same & [= <- <-]);
         split_and!; simpl; first [done | lia | by constructor]);
    try (injection H as <- <-; split_and!; simpl; first [done | lia | by constructor]).
  - destruct raw_chunk_index as [id|]; [|injection H as <- <-; split_and!; simpl; first [done | lia | by constructor]].
    apply result_bind_Ok in H as (ref & [Hh <-]%raw_chunk_ref_Ok & [= <- <-]).
    split_and!; simpl; first [done | lia | by apply Forall_cons].
  - apply result_bind_Ok in H as (ref & [Hh <-]%raw_chunk_ref_Ok & [= <- <-]).
    split_and!; simpl; first [done | lia | by apply Forall_cons].
Qed.

(** One event, with its record and what is remembered of it. *)
Definition built_one (hashes : gmap Z PortableHash) (ordinal : Z) (stored : Z * EventEnvelope)
    (record : SessionBundleEventRecord) (info : EventRecordInfo) : Prop :=
  exists portable refs event_hash,
    event_from_live stored.2 hashes = Ok (portable, refs)
    /\ canonical_event_hash portable = Ok event_hash
    /\ record = MkEventRecord ordinal (kind (ev_payload stored.2)) event_hash portable
    /\ info = MkEventRecordInfo ordinal (ev_event_id stored.2) (ev_branch_id stored.2) event_hash
                (raw_chunk_content_refs (pe_payload portable)) refs.

Inductive built (hashes : gmap Z PortableHash) : Z -> list (Z * EventEnvelope) ->
    list SessionBundleEventRecord -> list EventRecordInfo -> Prop :=
  | built_nil o : built hashes o [] [] []
  | built_cons o stored events record records info infos :
      built_one hashes o stored record info -> built hashes (o + 1) events records infos ->
      built hashes o (stored :: events) (record :: records) (info :: infos).

Lemma build_records_built hashes events o records infos :
  build_event_records_from o events hashes = Ok (records, infos) -> built hashes o events records infos.
Proof.
  revert o records infos. induction events as [|[seq event] events IH]; intros o records infos; simpl.
  { intros [= <- <-]. constructor. }
  intros ([pe refs] & He & (h & Hh & ([rs is_] & Hr & [= <- <-])%result_bind_Ok)%result_bind_Ok)%result_bind_Ok.
  constructor; [|by apply IH]. by exists pe, refs, h.
Qed.

Lemma built_ordinals hashes o events records infos :
  built hashes o events records infos -> List.map ei_ordinal infos = seqZ o (len infos).
Proof.
  induction 1 as [o|o s es r rs i is_ (pe & refs & h & _ & _ & _ & ->) _ IH]; [done|].
  unfold len in *. simpl. rewrite IH.
  rewrite (seqZ_cons o (Z.of_nat (S (length is_)))) by lia. f_equal. f_equal; lia.
Qed.

Lemma built_ids hashes o events records infos :
  built hashes o events records infos ->
  List.map ei_event_id infos = List.map (fun stored => ev_event_id stored.2) events
  /\ List.map ei_branch_id infos = List.map (fun stored => ev_branch_id stored.2) events
  /\ length records = length infos.
Proof.
  induction 1 as [o|o s es r rs i is_ (pe & refs & h & _ & _ & _ & ->) _ (IH1 & IH2 & IH3)]; [done|].
  simpl. by rewrite IH1, IH2, IH3.
Qed.

(** The references of the events. *)
Lemma built_refs hashes o events records infos :
  built hashes o events records infos ->
  Forall (fun info => ei_raw_chunk_content_refs info = List.map re_content_hash (ei_raw_chunk_refs info)
    /\ Forall (fun ref => hashes !! re_local_chunk_id ref = Some (re_content_hash ref)) (ei_raw_chunk_refs info)
    /\ (length (ei_raw_chunk_refs info) <= 1)%nat) infos.
Proof.
  induction 1 as [o|o s es r rs i is_ (pe & refs & h & He & _ & _ & ->) _ IH]; constructor; [|done].
  apply result_bind_Ok in He as ([pp rr] & Hp & [= <- <-]). simpl.
  apply payload_from_live_Ok in Hp as (_ & -> & ? & ?). done.
Qed.

(** An event whose stored form refers to a chunk. *)
Definition refers_to (event : EventEnvelope) (chunk_id : Z) : Prop :=
  match ev_payload event with
  | CompletionChunkEvent _ _ (Some id) => id = chunk_id
  | RawChunkPersisted _ id _ _ => id = chunk_id
  | _ => False
  end.

Lemma built_refers hashes o events records infos info ref :
  built hashes o events records infos -> info ∈ infos -> ref ∈ ei_raw_chunk_refs info ->
  exists stored, stored ∈ events /\ refers_to stored.2 (re_local_chunk_id ref)
    /\ ev_event_id stored.2 = ei_event_id info /\ ev_branch_id stored.2 = ei_branch_id info.
Proof.
  induction 1 as [o|o s es r rs i is_ (pe & refs & h & He & _ & _ & ->) _ IH]; [by intros ?%elem_of_nil|].
  intros [->|Hin]%elem_of_cons Hr; [|destruct (IH Hin Hr) as (? & ? & ?); eexists; split; [by right|done]].
  exists s. split; [left|]. split; [|done]. simpl in Hr.
  apply result_bind_Ok in He as ([pp rr] & Hp & [= <- ->]). unfold refers_to.
  destruct (ev_payload s.2); simpl in Hp;
    try (apply result_bind_Ok in Hp as (q & _ & [= <- <-]); by apply elem_of_nil in Hr);
    try (injection Hp as <- <-; by apply elem_of_nil in Hr).
  - destruct raw_chunk_index as [id|]; [|injection Hp as <- <-; by apply elem_of_nil in Hr].
    apply result_bind_Ok in Hp as (ref' & [_ <-]%raw_chunk_ref_Ok & [= <- <-]).
    by apply list_elem_of_singleton in Hr as ->.
  - apply result_bind_Ok in Hp as (ref' & [_ <-]%raw_chunk_ref_Ok & [= <- <-]).
    by apply list_elem_of_singleton in Hr as ->.
Qed.

(** What validation remembers of an event. *)
Definition strip (info : EventRecordInfo) : EventRecordInfo :=
  MkEventRecordInfo (ei_ordinal info) (ei_event_id info) (ei_branch_id info) (ei_event_hash info)
    (ei_raw_chunk_content_refs info) [].

Lemma insert_distinct_new {A} `{Countable A} (message : A -> string) (seen : gset A) a :
  a ∉ seen -> insert_distinct message seen a = Ok ({[a]} ∪ seen).
Proof. intros. by apply insert_distinct_Ok. Qed.

Lemma validate_built hashes o events records infos mh ch manifest ids :
  built hashes o events records infos ->
  Forall (fun stored => ev_session_id stored.2 = se_session_id (mf_session manifest)) events ->
  NoDup (List.map ei_event_id infos) ->
  (forall info, info ∈ infos -> ei_event_id info ∉ ids) ->
  (forall info h, info ∈ infos -> h ∈ ei_raw_chunk_content_refs info -> h ∈ mh /\ h ∈ ch) ->
  validate_event_records_from mh ch manifest o ids records = Ok (List.map strip infos).
Proof.
  intros Hb. revert ids. induction Hb as [o|o s es r rs i is_ (pe & refs & h & He & Hh & -> & ->) _ IH];
    intros ids Hs Hn Hi Hc; simpl; [done|].
  apply Forall_cons in Hs as [Hs Hss]. apply NoDup_cons in Hn as [Hn Hns]. simpl in Hn.
  apply result_bind_Ok in He as ([pp rr] & Hp & [= <- <-]).
  apply payload_from_live_Ok in Hp as (Hk & _). unfold validate_event_record. simpl in *.
  rewrite Z.eqb_refl. simpl. rewrite Hh. simpl. rewrite bool_decide_true by done. simpl.
  rewrite Hk, String.eqb_refl. simpl.
  assert (forall x, x ∈ raw_chunk_content_refs pp -> x ∈ mh /\ x ∈ ch) as Hrefs
    by (intros x Hx; by apply (Hc _ x (list_elem_of_here _ _))).
  match goal with |- context [try_iter ?f ?l] => assert (try_iter f l = Ok tt) as -> end.
  { apply try_iter_Ok, Forall_forall. intros x [H1 H2]%Hrefs.
    rewrite !bool_decide_false by (intros Hx; by apply Hx). done. }
  simpl. rewrite insert_distinct_new by (by apply (Hi _ (list_elem_of_here _ _))). simpl.
  rewrite bool_decide_true by done. simpl. rewrite IH; [done|done|done| |].
  - intros info Hin. specialize (Hi info (list_elem_of_further _ _ _ Hin)).
    assert (ei_event_id info <> ev_event_id s.2); [|set_solver].
    intros E. apply Hn. rewrite <- E. by apply (list_elem_of_fmap_2 ei_event_id).
  - intros info x Hin. apply Hc. by right.
Qed.

(** ** Chunks *)

Definition same_hashes (by_id : gmap Z ExportedRawChunkInfo) (hashes : gmap Z PortableHash) : Prop :=
  forall id, (cr_hash ∘ xr_content) <$> by_id !! id = hashes !! id.

Lemma prepare_sound o chunks by_id hashes :
  same_hashes by_id hashes ->
  same_hashes (prepare_raw_chunks_from o chunks by_id hashes).1
    (prepare_raw_chunks_from o chunks by_id hashes).2
  /\ forall id x, (prepare_raw_chunks_from o chunks by_id hashes).1 !! id = Some x ->
       by_id !! id = Some x \/ exists k chunk, chunks !! k = Some chunk
         /\ rk_chunk_id chunk = id /\ x = exported_chunk (o + Z.of_nat k) chunk.
Proof.
  revert o by_id hashes. induction chunks as [|chunk chunks IH]; intros o by_id hashes Hm; simpl; [by eauto|].
  destruct (IH (o + 1) (<[rk_chunk_id chunk := exported_chunk o chunk]> by_id)
    (<[rk_chunk_id chunk := hash_bytes (rk_content chunk)]> hashes)) as [H1 H2].
  { intros id. specialize (Hm id). destruct (decide (rk_chunk_id chunk = id)) as [->|].
    - by rewrite !lookup_insert_eq.
    - by rewrite !lookup_insert_ne. }
  split; [done|]. intros id x [Hx|(k & c & Hk & Hid & ->)]%H2.
  - apply lookup_insert_Some in Hx as [[<- <-]|[_ Hx]]; [|by left]. right. exists 0%nat, chunk.
    split_and!; try done. f_equal. lia.
  - right. exists (S k), c. split_and!; try done. f_equal. lia.
Qed.

Lemma prepared_chunk chunks id h :
  (prepare_raw_chunks chunks).2 !! id = Some h ->
  exists k chunk, chunks !! k = Some chunk /\ rk_chunk_id chunk = id
    /\ (prepare_raw_chunks chunks).1 !! id = Some (exported_chunk (Z.of_nat k) chunk)
    /\ h = hash_bytes (rk_content chunk).
Proof.
  intros Hh. destruct (prepare_sound 0 chunks ∅ ∅) as [H1 H2]; [by intros i; rewrite !lookup_empty|].
  fold (prepare_raw_chunks chunks) in H1, H2. specialize (H1 id). rewrite Hh in H1.
  destruct ((prepare_raw_chunks chunks).1 !! id) as [x|] eqn:Hx; [|done]. simpl in H1.
  injection H1 as <-. destruct (H2 _ _ Hx) as [?|(k & chunk & Hk & Hid & ->)]; [done|]. by exists k, chunk.
Qed.

Lemma prepared_sound chunks id x :
  (prepare_raw_chunks chunks).1 !! id = Some x ->
  exists k chunk, chunks !! k = Some chunk /\ rk_chunk_id chunk = id
    /\ x = exported_chunk (Z.of_nat k) chunk.
Proof.
  intros Hx. destruct (prepare_sound 0 chunks ∅ ∅) as [_ H2]; [by intros i; rewrite !lookup_empty|].
  by destruct (H2 _ _ Hx) as [?|?].
Qed.

Lemma load_branches_In session_id db branches branch :
  load_branches session_id db = Ok branches ->
  branch ∈ branches <-> exists row, db_branches db !! br_branch_id branch = Some row
    /\ bw_session_id row = session_id /\ parse_branch_record (br_branch_id branch) row = Some branch.
Proof.
  intros H%try_map_Ok_Forall2.
  assert (forall id row, (id, row) ∈ merge_sort branch_created_le (List.filter (fun kv =>
    bool_decide (bw_session_id kv.2 = session_id)) (map_to_list (db_branches db)))
    <-> db_branches db !! id = Some row /\ bw_session_id row = session_id) as Hin.
  { intros id row. rewrite merge_sort_Permutation, list_elem_of_In, filter_In, <- list_elem_of_In, elem_of_map_to_list.
    simpl. by rewrite bool_decide_eq_true. }
  split.
  - intros (i & Hi)%list_elem_of_lookup.
    destruct (Forall2_lookup_r _ _ _ _ _ H Hi) as ([id row] & Hk & Hp%ok_or_Ok).
    apply list_elem_of_lookup_2, Hin in Hk as [Hk Hs]. simpl in Hp.
    assert (br_branch_id branch = id) as <- by
      (by apply bind_Some in Hp as (? & _ & [= <-])). eauto.
  - intros (row & Hrow & Hs & Hp). pose proof (proj2 (Hin _ _) (conj Hrow Hs)) as Hk.
    apply list_elem_of_lookup in Hk as (i & Hi).
    destruct (Forall2_lookup_l _ _ _ _ _ H Hi) as (b & Hb & Hpb%ok_or_Ok). simpl in Hpb.
    assert (b = branch) as -> by congruence. by apply list_elem_of_lookup_2 in Hb.
Qed.

Lemma load_branches_complete session_id db branches b row :
  load_branches session_id db = Ok branches -> db_branches db !! b = Some row ->
  bw_session_id row = session_id -> parse_branch_record b row <> None.
Proof.
  intros H%try_map_Ok_Forall2 Hb Hs Hp.
  assert ((b, row) ∈ merge_sort branch_created_le (List.filter (fun kv =>
    bool_decide (bw_session_id kv.2 = session_id)) (map_to_list (db_branches db)))) as Hin.
  { rewrite merge_sort_Permutation, list_elem_of_In, filter_In, <- list_elem_of_In, elem_of_map_to_list.
    simpl. by rewrite bool_decide_eq_true. }
  apply list_elem_of_lookup in Hin as (i & Hi).
  destruct (Forall2_lookup_l _ _ _ _ _ H Hi) as (branch & _ & Hpb%ok_or_Ok). simpl in Hpb. congruence.
Qed.

Lemma load_branches_NoDup session_id db branches :
  load_branches session_id db = Ok branches -> NoDup (List.map br_branch_id branches).
Proof.
  intros H%try_map_Ok_Forall2.
  set (rows := merge_sort _ _) in H.
  assert (NoDup (List.map fst rows)) as Hn.
  { unfold rows. rewrite (fmap_Permutation fst _ _ (merge_sort_Permutation branch_created_le _)).
    apply NoDup_fmap_fst.
    - intros id r1 r2 H1 H2. apply list_elem_of_In, filter_In in H1 as [H1 _], H2 as [H2 _].
      apply list_elem_of_In, elem_of_map_to_list in H1, H2. congruence.
    - apply NoDup_ListNoDup, List.NoDup_filter, NoDup_ListNoDup, NoDup_map_to_list. }
  assert (List.map br_branch_id branches = List.map fst rows) as ->; [|done].
  clear Hn. clearbody rows. induction H as [|[id row] b rows branches Hp%ok_or_Ok _ IH]; simpl; [done|].
  rewrite IH. f_equal. by apply bind_Some in Hp as (? & _ & [= <-]).
Qed.

Lemma load_chunks_In session_id db chunks chunk :
  load_all_raw_chunks session_id db = Ok chunks -> chunk ∈ chunks ->
  exists row, db_raw_chunks db !! rk_chunk_id chunk = Some row /\ rc_session_id row = session_id
    /\ parse_raw_chunk_record (rk_chunk_id chunk, row) = Some chunk.
Proof.
  intros H%try_map_Ok_Forall2 (i & Hi)%list_elem_of_lookup.
  destruct (Forall2_lookup_r _ _ _ _ _ H Hi) as ([id row] & Hk & Hp%ok_or_Ok).
  apply list_elem_of_lookup_2 in Hk. rewrite merge_sort_Permutation, list_elem_of_In, filter_In, <- list_elem_of_In,
    elem_of_map_to_list in Hk. destruct Hk as [Hk Hs%bool_decide_eq_true]. simpl in *.
  assert (rk_chunk_id chunk = id) as -> by (by apply bind_Some in Hp as (? & _ & [= <-])). eauto.
Qed.

(** ** References and their files *)

(** The references of the events, in order. *)
Definition event_refs (infos : list EventRecordInfo) : list (EventRecordInfo * RawChunkEventRef) :=
  flat_map (fun info => List.map (pair info) (ei_raw_chunk_refs info)) infos.

Lemma elem_of_event_refs infos info ref :
  (info, ref) ∈ event_refs infos <-> info ∈ infos /\ ref ∈ ei_raw_chunk_refs info.
Proof.
  unfold event_refs. rewrite !list_elem_of_In, in_flat_map. split.
  - intros (i & Hi & (r & [= -> ->] & Hr)%in_map_iff). done.
  - intros [Hi Hr]. exists info. split; [done|]. apply in_map_iff. eauto.
Qed.

Lemma fold_event_refs {S} (step : EventRecordInfo -> S -> RawChunkEventRef -> Result S) st infos :
  try_fold (fun st info => try_fold (step info) st (ei_raw_chunk_refs info)) st infos
  = try_fold (fun st p => step p.1 st p.2) st (event_refs infos).
Proof.
  revert st. induction infos as [|info infos IH]; intros st; simpl; [done|].
  unfold event_refs in *. simpl. rewrite try_fold_app.
  assert (forall st l, try_fold (fun st p => step p.1 st p.2) st (List.map (pair info) l)
    = try_fold (step info) st l) as ->.
  { intros s l. revert s. induction l as [|r l IHl]; intros s; simpl; [done|].
    destruct (step info s r); simpl; [apply IHl|done]. }
  destruct (try_fold (step info) st _); simpl; [apply IH|done].
Qed.

(** The reference the export writes for an event and its chunk. *)
Definition ref_of (info : EventRecordInfo) (chunk : ExportedRawChunkInfo) : SessionBundleRawChunkRef :=
  {| rx_chunk_ordinal := xr_chunk_ordinal chunk;
     rx_session_id := xr_session_id chunk;
     rx_branch_id := xr_branch_id chunk;
     rx_turn_id := xr_turn_id chunk;
     rx_llm_call_ordinal := xr_llm_call_ordinal chunk;
     rx_event_id := Some (show_id (ei_event_id info));
     rx_provider := xr_provider chunk;
     rx_stream_name := xr_stream_name chunk;
     rx_content := xr_content chunk |}.

(** A reference of an event, and what is written for it. *)
Definition written_ref (by_id : gmap Z ExportedRawChunkInfo)
    (p : EventRecordInfo * RawChunkEventRef) (raw_ref : SessionBundleRawChunkRef) : Prop :=
  exists chunk, by_id !! re_local_chunk_id p.2 = Some chunk
    /\ cr_hash (xr_content chunk) = re_content_hash p.2 /\ raw_ref = ref_of p.1 chunk.

(** Chunks carry their own hash and path. *)
Definition sound_chunks (by_id : gmap Z ExportedRawChunkInfo) : Prop :=
  forall id chunk, by_id !! id = Some chunk -> exists o record, chunk = exported_chunk o record.

(** Chunks with one hash have the same bytes. *)
Definition no_clash (by_id : gmap Z ExportedRawChunkInfo) : Prop :=
  forall id1 id2 chunk1 chunk2, by_id !! id1 = Some chunk1 -> by_id !! id2 = Some chunk2 ->
    cr_hash (xr_content chunk1) = cr_hash (xr_content chunk2) -> xr_bytes chunk1 = xr_bytes chunk2.

Definition chunk_files (files : list string) : FileLog :=
  List.map (fun bytes => (raw_chunk_path (hash_bytes bytes), bytes)) files.

(** The state of the references after some of them. *)
Record refs_state (by_id : gmap Z ExportedRawChunkInfo)
    (pairs : list (EventRecordInfo * RawChunkEventRef)) (st : RawRefs) (files : list string) : Prop := {
  rs_refs : Forall2 (written_ref by_id) pairs (rr_refs st);
  rs_log : wrote (rr_written st) (chunk_files files);
  rs_once : NoDup (List.map hash_bytes files);
  rs_written : forall h, h ∈ rr_written_hashes st <-> h ∈ List.map hash_bytes files;
  rs_files : forall bytes, bytes ∈ files <->
    exists p chunk, p ∈ pairs /\ by_id !! re_local_chunk_id p.2 = Some chunk /\ xr_bytes chunk = bytes;
  rs_contents : forall h c, rr_contents_by_hash st !! h = Some c <->
    exists bytes, bytes ∈ files /\ h = hash_bytes bytes
      /\ c = MkContentRef h (Some "application/octet-stream") (Z.of_nat (byte_len bytes))
               (Some (raw_chunk_path h));
}.

(** The content of a sound chunk. *)
Lemma sound_content o record :
  xr_content (exported_chunk o record)
  = MkContentRef (hash_bytes (xr_bytes (exported_chunk o record))) (Some "application/octet-stream")
      (Z.of_nat (byte_len (xr_bytes (exported_chunk o record))))
      (Some (raw_chunk_path (hash_bytes (xr_bytes (exported_chunk o record))))).
Proof. done. Qed.

Lemma add_ref_state by_id pairs st files p st' :
  sound_chunks by_id -> no_clash by_id -> refs_state by_id pairs st files ->
  add_raw_chunk_ref by_id p.1 st p.2 = Ok st' ->
  exists files', refs_state by_id (pairs ++ [p]) st' files'.
Proof.
  intros Hsound Hclash [Hr Hl Ho Hw Hf Hc] H.
  apply result_bind_Ok in H as (chunk & Hchunk%ok_or_Ok & ([] & Hh%reject_unless & (w & Hput & [= <-])
    %result_bind_Ok)%result_bind_Ok).
  destruct (Hsound _ _ Hchunk) as (o & record & E). pose proof (sound_content o record) as Hcontent.
  rewrite <- E in Hcontent.
  assert (Forall2 (written_ref by_id) (pairs ++ [p]) (rr_refs st ++ [ref_of p.1 chunk])) as Hr'.
  { apply Forall2_app; [done|]. constructor; [|constructor]. by exists chunk. }
  set (bytes := xr_bytes chunk) in *. rewrite Hcontent in Hput. simpl in Hput.
  destruct (decide (bytes ∈ files)) as [Hin|Hnin].
  - (* written before *)
    assert (hash_bytes bytes ∈ rr_written_hashes st) as Hwr
      by (apply Hw; by apply (list_elem_of_fmap_2 hash_bytes)).
    rewrite bool_decide_true in Hput by done. injection Hput as <-.
    exists files. split; [exact Hr'|exact Hl|exact Ho| | |]; simpl; rewrite ?Hcontent; simpl.
    + intros h. rewrite <- Hw. set_solver.
    + intros b. rewrite Hf. split.
      * intros (q & x & Hq & Hx & Hb). exists q, x. split_and!; [apply elem_of_app; by left|done|done].
      * intros (q & x & [Hq|Hq%list_elem_of_singleton]%elem_of_app & Hx & Hb); [by exists q, x|].
        subst q. apply Hf. assert (x = chunk) as -> by congruence. by rewrite <- Hb.
    + by rewrite (proj2 (Hc (hash_bytes bytes) _) (ex_intro _ bytes (conj Hin (conj eq_refl eq_refl)))).
  - (* a new file *)
    assert (hash_bytes bytes ∉ rr_written_hashes st) as Hnw.
    { intros (b & Hb & Hbin)%Hw%list_elem_of_fmap. apply Hnin.
      destruct (proj1 (Hf b) Hbin) as (q & x & _ & Hx & Hxb).
      destruct (Hsound _ _ Hx) as (o' & record' & E').
      assert (bytes = b) as ->; [|done]. rewrite <- Hxb. apply (Hclash _ _ _ _ Hchunk Hx).
      rewrite Hcontent. rewrite E', sound_content, <- E', Hxb. done. }
    rewrite bool_decide_false in Hput by done. simpl in Hput.
    apply (push_file_log _ _ _ _ _ Hl) in Hput.
    exists (files ++ [bytes]). split; [exact Hr'| | | | |]; simpl; rewrite ?Hcontent; simpl.
    + unfold chunk_files. by rewrite map_app.
    + rewrite map_app. apply NoDup_app. split_and!; [done| |apply NoDup_singleton].
      intros h Hh' ->%list_elem_of_singleton. by apply Hnw, Hw.
    + intros h. rewrite map_app, elem_of_app, <- Hw, elem_of_union, elem_of_singleton.
      simpl. rewrite list_elem_of_singleton. naive_solver.
    + intros b. rewrite elem_of_app, Hf, list_elem_of_singleton. split.
      * intros [(q & x & Hq & Hx & Hb)| ->].
        -- exists q, x. split_and!; [apply elem_of_app; by left|done|done].
        -- exists p, chunk. split_and!; [apply elem_of_app; right; left|done|done].
      * intros (q & x & [Hq|Hq%list_elem_of_singleton]%elem_of_app & Hx & Hb); [left; by exists q, x|].
        subst q. right. assert (x = chunk) as -> by congruence. done.
    + destruct (rr_contents_by_hash st !! hash_bytes bytes) as [c|] eqn:Hlook.
      { apply Hc in Hlook as (b & Hb & Hhb & _). exfalso. apply Hnw, Hw. rewrite Hhb.
        by apply (list_elem_of_fmap_2 hash_bytes). }
      intros h c. rewrite lookup_insert_Some, Hc. setoid_rewrite elem_of_app.
      setoid_rewrite list_elem_of_singleton. split.
      * intros [[<- <-]|[Hne (b & Hb & -> & ->)]]; [exists bytes; naive_solver|exists b; naive_solver].
      * intros (b & [Hb| ->] & -> & ->); [right|by left].
        split; [|by exists b]. intros Eh. apply Hnw, Hw. rewrite Eh.
        by apply (list_elem_of_fmap_2 hash_bytes).
Qed.

(** The references, the contents and the files of an export. *)
Lemma raw_refs_state by_id infos refs contents w :
  sound_chunks by_id -> no_clash by_id ->
  build_raw_chunk_refs by_id infos (MkWritten ∅ []) = Ok (refs, contents, w) ->
  exists st files, refs_state by_id (event_refs infos) st files
    /\ refs = rr_refs st /\ w = rr_written st
    /\ forall c, c ∈ contents <-> exists h, rr_contents_by_hash st !! h = Some c.
Proof.
  intros Hsound Hclash (st & Hst & [= <- <- <-])%result_bind_Ok.
  rewrite fold_event_refs in Hst.
  assert (exists files, refs_state by_id (event_refs infos) st files) as [files Hfiles].
  { revert Hst. apply (try_fold_inv (fun pairs st => exists files, refs_state by_id pairs st files)).
    - intros pairs p s s' _ [files Hf] H. by eapply add_ref_state.
    - exists []. split; simpl; try done; [constructor|by intros; rewrite elem_of_nil| |].
      + intros b. split; [by intros ?%elem_of_nil|]. by intros (? & ? & ?%elem_of_nil & _).
      + intros h c. rewrite lookup_empty. split; [done|]. by intros (? & ?%elem_of_nil & _). }
  exists st, files. split_and!; [done|done|done|]. intros c.
  rewrite (fmap_Permutation snd _ _ (merge_sort_Permutation _ _)), list_elem_of_fmap. split.
  - intros ([h c'] & -> & Hin%elem_of_map_to_list). by exists h.
  - intros [h Hin%elem_of_map_to_list]. by exists (h, c).
Qed.

(** ** Infos by key *)

Lemma insert_all_lookup {A K} `{Countable K} (f : A -> K) (m : gmap K A) l k :
  foldl (fun m x => <[f x := x]> m) m l !! k
  = match List.find (fun x => bool_decide (f x = k)) (reverse l) with
    | Some x => Some x
    | None => m !! k
    end.
Proof.
  induction l as [|x l IH] using rev_ind; simpl; [done|].
  rewrite foldl_app, reverse_app. simpl. case_bool_decide as E.
  - by rewrite E, lookup_insert_eq.
  - by rewrite lookup_insert_ne.
Qed.

Lemma find_unique {A K} `{EqDecision K} (f : A -> K) l x :
  NoDup (f <$> l) -> x ∈ l -> List.find (fun y => bool_decide (f y = f x)) l = Some x.
Proof.
  induction l as [|y l IH]; intros Hn Hx; [by apply elem_of_nil in Hx|]. simpl in *.
  apply NoDup_cons in Hn as [Hy Hn]. apply elem_of_cons in Hx as [->|Hx]; [by rewrite bool_decide_true|].
  rewrite bool_decide_false; [by apply IH|]. intros E. apply Hy. rewrite E.
  by apply (list_elem_of_fmap_2 f).
Qed.

Lemma insert_all_unique {A K} `{Countable K} (f : A -> K) (m : gmap K A) l x :
  NoDup (f <$> l) -> x ∈ l -> foldl (fun m x => <[f x := x]> m) m l !! f x = Some x.
Proof.
  intros Hn Hx. rewrite insert_all_lookup, (find_unique f _ x); [done| |].
  - by rewrite fmap_reverse, (reverse_Permutation (f <$> l)).
  - by apply elem_of_reverse.
Qed.
End checks.

(** A loop whose steps all succeed. *)
Lemma try_fold_total {A S} (I : list A -> S -> Prop) (step : S -> A -> Result S) l st :
  (forall done_l a s, done_l ++ [a] `prefix_of` l -> I done_l s ->
     exists s', step s a = Ok s' /\ I (done_l ++ [a]) s') ->
  I [] st -> exists st', try_fold step st l = Ok st' /\ I l st'.
Proof.
  intros Hstep H0. enough (forall l2 l1 s, l1 ++ l2 = l -> I l1 s ->
    exists st', try_fold step s l2 = Ok st' /\ I l st') as H by (by eapply (H l [] st)).
  clear st H0. intros l2. induction l2 as [|a l2 IH]; intros l1 s Hl HI; simpl.
  { exists s. split; [done|]. rewrite app_nil_r in Hl. by subst. }
  destruct (Hstep l1 a s) as (s' & Hs & HI'); [exists l2; by rewrite <- Hl, <- (assoc_L (++))|done|].
  rewrite Hs. simpl. eapply (IH (l1 ++ [a])); [|done]. by rewrite <- (assoc_L (++)).
Qed.
