(* ===== verification/BundleExportLaws.v ===== *)
(** * What is exported is valid

    The manifest of an export passes the checks of the validation one by one:
    event ranges, branches, raw chunk references, inventory. *)

From stdpp Require Import base list strings gmap sorting.
From Stdlib Require Import ZArith Lia Ascii.
From S2P Require Import Prelude Text Json Types TurnProjection Store StoreOps StoreRelated StoreLaws.
From S2P Require Import StoreReplay StoreQueries Bundle BundleFiles BundleExport BundleImport BundleLaws.
From S2P Require Import BundleWritten BundleChecks.

#[local] Open Scope Z_scope.

Section ranges.
Context `{codec : RowCodec} `{bundle : BundleCodec}.

(** ** Event ranges *)

Lemma cover_range by_ordinal range (covered : gset Z) :
  (forall o, eg_ordinal_start range <= o <= eg_ordinal_end range ->
     (exists info, by_ordinal !! o = Some info /\ ei_branch_id info = eg_branch_id range)
     /\ o ∉ covered) ->
  exists covered', try_fold (cover_ordinal by_ordinal range) covered (range_ordinals range) = Ok covered'
    /\ forall o, o ∈ covered' <-> o ∈ covered \/ o ∈ range_ordinals range.
Proof.
  intros Hall. apply (try_fold_total (fun ordinals s => forall o, o ∈ s <-> o ∈ covered \/ o ∈ ordinals)).
  - intros ordinals o s [k Hpre] Hs.
    assert (NoDup (ordinals ++ [o])) as Hn.
    { pose proof (NoDup_seqZ (eg_ordinal_start range) (eg_ordinal_end range - eg_ordinal_start range + 1)) as Hn.
      change (NoDup (range_ordinals range)) in Hn. rewrite Hpre in Hn. by apply NoDup_app in Hn as (? & _). }
    assert (eg_ordinal_start range <= o <= eg_ordinal_end range) as Ho.
    { assert (o ∈ range_ordinals range) as Hin.
      { rewrite Hpre. apply elem_of_app. left. apply elem_of_app. right. left. }
      apply elem_of_seqZ in Hin. lia. }
    destruct (Hall o Ho) as [(info & Hi & Hb) Hc]. exists ({[o]} ∪ s).
    unfold cover_ordinal. rewrite Hi. simpl. rewrite bool_decide_true by done. simpl. split.
    + apply insert_distinct_Ok. split; [|done]. rewrite Hs. intros [?|Hin]; [done|].
      apply NoDup_app in Hn as (_ & Hd & _). by apply (Hd o Hin), list_elem_of_here.
    + intros o'. rewrite elem_of_union, elem_of_singleton, Hs, elem_of_app, list_elem_of_singleton. tauto.
  - intros o. rewrite elem_of_nil. tauto.
Qed.

(** A run of one branch. *)
Lemma run_valid by_ordinal (covered : gset Z) first last :
  by_ordinal !! ei_ordinal first = Some (strip first) ->
  by_ordinal !! ei_ordinal last = Some (strip last) ->
  ei_ordinal first <= ei_ordinal last ->
  (forall o, ei_ordinal first <= o <= ei_ordinal last ->
     exists info, by_ordinal !! o = Some info /\ ei_branch_id info = ei_branch_id first) ->
  (forall o, o ∈ covered -> o < ei_ordinal first) ->
  exists covered', validate_event_range by_ordinal covered (event_range_from_run first last) = Ok covered'
    /\ forall o, o ∈ covered' <-> o ∈ covered \/ ei_ordinal first <= o <= ei_ordinal last.
Proof.
  intros Hf Hl Hle Hrun Hc.
  destruct (cover_range by_ordinal (event_range_from_run first last) covered) as (covered' & Hcov & Hmem).
  { intros o Ho. simpl in *. split; [by apply Hrun|]. intros Hin%Hc. lia. }
  exists covered'. split.
  - unfold validate_event_range. simpl.
    destruct (Z.ltb_spec (ei_ordinal last) (ei_ordinal first)); [lia|]. simpl.
    rewrite Hf, Hl. simpl. rewrite Hcov. simpl. by rewrite !bool_decide_true by done.
  - intros o. rewrite Hmem. unfold range_ordinals. rewrite elem_of_seqZ. simpl. 
    split; intros [?|?]; (by left) || (right; lia).
Qed.

Lemma runs_valid by_ordinal (branch_ids : gset BranchId) first last infos (covered : gset Z) :
  by_ordinal !! ei_ordinal first = Some (strip first) ->
  by_ordinal !! ei_ordinal last = Some (strip last) ->
  ei_ordinal first <= ei_ordinal last ->
  (forall o, ei_ordinal first <= o <= ei_ordinal last ->
     exists info, by_ordinal !! o = Some info /\ ei_branch_id info = ei_branch_id first) ->
  ei_branch_id first ∈ branch_ids ->
  List.map ei_ordinal infos = seqZ (ei_ordinal last + 1) (len infos) ->
  Forall (fun info => by_ordinal !! ei_ordinal info = Some (strip info)
                      /\ ei_branch_id info ∈ branch_ids) infos ->
  (forall o, o ∈ covered -> o < ei_ordinal first) ->
  exists covered', try_fold (validate_event_range by_ordinal) covered (event_runs branch_ids first last infos)
      = Ok covered'
    /\ forall o, o ∈ covered' <-> o ∈ covered \/ ei_ordinal first <= o < ei_ordinal last + 1 + len infos.
Proof.
  revert first last covered. induction infos as [|info infos IH];
    intros first last covered Hf Hl Hle Hrun Hb Hord Hall Hc; simpl.
  - rewrite bool_decide_true by done. simpl.
    destruct (run_valid _ _ _ _ Hf Hl Hle Hrun Hc) as (covered' & -> & Hmem).
    exists covered'. split; [done|]. intros o. rewrite Hmem. unfold len. simpl.
    split; intros [?|?]; (by left) || (right; lia).
  - apply Forall_cons in Hall as [[Hi Hib] Hall]. unfold len in Hord. simpl in Hord.
    rewrite seqZ_cons in Hord by lia. injection Hord as Ho Hord.
    assert (List.map ei_ordinal infos = seqZ (ei_ordinal info + 1) (len infos)) as Hord'.
    { rewrite Hord, Ho. unfold len. f_equal; lia. }
    rewrite Ho, Z.eqb_refl. simpl. rewrite orb_false_r.
    assert (len (info :: infos) = len infos + 1) as Hlen by (unfold len; simpl; lia).
    case_bool_decide as Hsame; simpl.
    + destruct (IH first info covered) as (covered' & Hv & Hmem); try done; [lia| |].
      { intros o Ho'. destruct (decide (o = ei_ordinal info)) as [->|].
        - eexists. split; [exact Hi|]. done.
        - apply Hrun. lia. }
      exists covered'. split; [done|]. intros o. rewrite Hmem, Hlen. split; intros [?|?]; (by left) || (right; lia).
    + rewrite bool_decide_true by done. simpl.
      destruct (run_valid _ _ _ _ Hf Hl Hle Hrun Hc) as (covered1 & Hv1 & Hmem1). rewrite Hv1. simpl.
      assert (0 <= len infos) by (unfold len; lia).
      destruct (IH info info covered1) as (covered' & Hv & Hmem); try done; [|intros o [?|?]%Hmem1|].
      * intros o Ho'. assert (o = ei_ordinal info) as -> by lia. eexists. split; [exact Hi|done].
      * assert (o < ei_ordinal first) by auto. lia.
      * lia.
      * exists covered'. split; [done|]. intros o. rewrite Hmem, Hmem1, Hlen.
        split; [intros [[?|?]|?]|intros [?|?]]; try (by left; left); try (by left); try (right; lia).
        destruct (decide (o < ei_ordinal info)); [left; right; lia|right; lia].
Qed.

#[local] Instance info_le_trans : Transitive info_le.
Proof. intros a b c. unfold info_le. lia. Qed.
#[local] Instance info_le_total : Total info_le.
Proof. intros a b. unfold info_le. lia. Qed.

(** Infos numbered in order are sorted already. *)
Lemma sort_numbered infos o :
  List.map ei_ordinal infos = seqZ o (len infos) -> merge_sort info_le infos = infos.
Proof.
  intros Hord. apply (Sorted_unique_strong info_le).
  - intros x y Hx Hy H1 H2. rewrite merge_sort_Permutation in Hx.
    assert (NoDup (List.map ei_ordinal infos)) as Hn by (rewrite Hord; apply NoDup_seqZ).
    apply list_elem_of_lookup in Hx as (i & Hi), Hy as (j & Hj).
    assert (i = j) as ->; [|congruence].
    eapply (NoDup_lookup _ i j _ Hn); change (List.map ei_ordinal infos) with (ei_ordinal <$> infos);
      rewrite list_lookup_fmap, ?Hi, ?Hj; [done|]. simpl. f_equal. unfold info_le in *. lia.
  - apply (Sorted_merge_sort info_le).
  - revert o Hord. induction infos as [|x infos IH]; intros o Hord; [constructor|].
    unfold len in Hord. simpl in Hord. rewrite seqZ_cons in Hord by lia. injection Hord as Hx Hord.
    constructor.
    + apply (IH (Z.succ o)). rewrite Hord. unfold len. f_equal. lia.
    + destruct infos as [|y infos]; [constructor|]. constructor. unfold info_le. simpl in Hord.
      rewrite seqZ_cons in Hord by lia. injection Hord as Hy _. lia.
  - apply merge_sort_Permutation.
Qed.

Lemma infos_by_ordinal_strip infos info :
  NoDup (List.map ei_ordinal infos) -> info ∈ infos ->
  infos_by_ordinal (List.map strip infos) !! ei_ordinal info = Some (strip info).
Proof.
  intros Hn Hi. change (ei_ordinal info) with (ei_ordinal (strip info)).
  unfold infos_by_ordinal. apply insert_all_unique.
  - by rewrite <- list_fmap_compose.
  - by apply (list_elem_of_fmap_2 strip).
Qed.

(** The exported ranges cover every event once. *)
Lemma ranges_valid branches infos manifest :
  List.map ei_ordinal infos = seqZ 0 (len infos) ->
  (forall info, info ∈ infos -> ei_branch_id info ∈ List.map br_branch_id branches) ->
  mf_event_ranges manifest = build_event_ranges branches infos ->
  validate_event_ranges manifest (List.map strip infos) = Ok tt.
Proof.
  intros Hord Hb Hm. unfold validate_event_ranges. rewrite Hm. unfold build_event_ranges.
  rewrite (sort_numbered _ _ Hord).
  assert (NoDup (List.map ei_ordinal infos)) as Hn by (rewrite Hord; apply NoDup_seqZ).
  assert (forall info, info ∈ infos ->
    infos_by_ordinal (List.map strip infos) !! ei_ordinal info = Some (strip info)) as Hby
    by (intros; by apply infos_by_ordinal_strip).
  set (by_ordinal := infos_by_ordinal (List.map strip infos)) in *. clearbody by_ordinal.
  destruct infos as [|first infos]; [done|].
  unfold len in Hord. simpl in Hord. rewrite seqZ_cons in Hord by lia. injection Hord as Ho Hord.
  destruct (runs_valid by_ordinal (list_to_set (List.map br_branch_id branches)) first first infos ∅)
    as (covered & -> & Hmem); try done.
  - apply Hby. left.
  - apply Hby. left.
  - intros o Ho'. assert (o = ei_ordinal first) as -> by lia. eexists. split; [apply Hby; left|done].
  - apply elem_of_list_to_set, Hb. left.
  - rewrite Hord, Ho. unfold len. f_equal; lia.
  - apply Forall_forall. intros info Hi. split; [apply Hby; by right|].
    apply elem_of_list_to_set, Hb. by right.
  - change (try_iter (fun info => reject_if (bool_decide (ei_ordinal info ∉ covered))
      (invalid_bundle ("event ordinal " +:+ show_Z (ei_ordinal info)
        +:+ " is not covered by an event range"))) (strip <$> first :: infos) = Ok tt).
    apply try_iter_Ok, Forall_forall. intros x (info & -> & Hi)%list_elem_of_fmap.
    apply reject_when. intros Hx. apply Hx, Hmem. right. simpl.
    assert (ei_ordinal info ∈ List.map ei_ordinal (first :: infos)) as Hin
      by (by apply (list_elem_of_fmap_2 ei_ordinal)).
    simpl in Hin. rewrite Hord in Hin. unfold len.
    apply elem_of_cons in Hin as [->|Hin%elem_of_seqZ]; lia.
Qed.
End ranges.

Section branches.
Context `{codec : RowCodec} `{bundle : BundleCodec}.

(** ** Branches *)

Definition latest_of (infos : list EventRecordInfo) (branch_id : BranchId) : option EventRecordInfo :=
  List.find (fun info => bool_decide (ei_branch_id info = branch_id)) (reverse infos).

(** Branches as appends leave them: the head is the latest event, parents
    are in the session, and one branch is the default. *)
Record exportable_branches (session_id : SessionId) (branches : list BranchRecord)
    (infos : list EventRecordInfo) : Prop := {
  eb_distinct : NoDup (List.map br_branch_id branches);
  eb_default : len (List.filter br_is_default branches) = 1;
  eb_session : Forall (fun branch => br_session_id branch = session_id) branches;
  eb_heads : Forall (fun branch =>
    br_head_event_id branch = ei_event_id <$> latest_of infos (br_branch_id branch)) branches;
  eb_parents : Forall (fun branch => forall parent, br_parent_branch_id branch = Some parent ->
    parent ∈ List.map br_branch_id branches) branches;
  eb_parent_events : Forall (fun branch => forall event_id,
    br_parent_event_id branch = Some event_id ->
    exists info, info ∈ infos /\ ei_event_id info = event_id
      /\ forall parent, br_parent_branch_id branch = Some parent -> ei_branch_id info = parent) branches;
  eb_ids : NoDup (List.map ei_event_id infos);
  eb_events : forall info, info ∈ infos -> ei_branch_id info ∈ List.map br_branch_id branches;
}.

Lemma count_default branches branch :
  NoDup (List.map br_branch_id branches) -> branch ∈ branches -> br_is_default branch = true ->
  (forall branch', branch' ∈ branches -> br_is_default branch' = true ->
     br_branch_id branch' = br_branch_id branch) ->
  len (List.filter br_is_default branches) = 1.
Proof.
  intros Hn Hin Hd Huniq. induction branches as [|x branches IH]; [by apply elem_of_nil in Hin|].
  apply NoDup_cons in Hn as [Hx Hn]. simpl.
  assert (forall l, (forall y, y ∈ l -> br_is_default y = false) -> List.filter br_is_default l = []) as Hnil.
  { intros l Hl. induction l as [|y l IHl]; simpl; [done|]. rewrite (Hl y) by left.
    apply IHl. intros z Hz. apply Hl. by right. }
  destruct (br_is_default x) eqn:Hdx.
  - rewrite Hnil; [done|]. intros y Hy. destruct (br_is_default y) eqn:Hdy; [|done]. exfalso. apply Hx.
    rewrite (Huniq x) by (left || done). rewrite <- (Huniq y) by (done || by right).
    by apply (list_elem_of_fmap_2 br_branch_id).
  - apply elem_of_cons in Hin as [->|Hin]; [congruence|]. apply IH; [done|done|].
    intros y Hy. apply Huniq. by right.
Qed.

Lemma find_fmap {A B} (f : A -> B) (p : B -> bool) l :
  List.find p (f <$> l) = f <$> List.find (fun a => p (f a)) l.
Proof. induction l as [|a l IH]; simpl; [done|]. by destruct (p (f a)). Qed.

Lemma latest_strip infos branch_id :
  latest_infos (List.map strip infos) !! branch_id = strip <$> latest_of infos branch_id.
Proof.
  unfold latest_infos, latest_of. rewrite insert_all_lookup, lookup_empty.
  change (List.map strip infos) with (strip <$> infos).
  rewrite <- fmap_reverse, find_fmap. simpl. by destruct (List.find _ _).
Qed.

Lemma find_Some {A} (p : A -> bool) l x : List.find p l = Some x -> x ∈ l /\ p x = true.
Proof. intros H%List.find_some. by rewrite list_elem_of_In. Qed.

Lemma latest_of_Some infos branch_id info :
  latest_of infos branch_id = Some info -> info ∈ infos /\ ei_branch_id info = branch_id.
Proof.
  intros [H1 H2]%find_Some. rewrite elem_of_reverse in H1.
  cbv beta in H2. by apply bool_decide_eq_true in H2.
Qed.

Lemma by_id_strip infos info :
  NoDup (List.map ei_event_id infos) -> info ∈ infos ->
  infos_by_id (List.map strip infos) !! ei_event_id info = Some (strip info).
Proof.
  intros Hn Hi. change (ei_event_id info) with (ei_event_id (strip info)).
  unfold infos_by_id. apply insert_all_unique.
  - by rewrite <- list_fmap_compose.
  - by apply (list_elem_of_fmap_2 strip).
Qed.

(** The head an exported branch gets. *)
Lemma exported_head session_id branches infos branch :
  exportable_branches session_id branches infos -> branch ∈ branches ->
  head_info branch infos = latest_of infos (br_branch_id branch).
Proof.
  intros Hx Hb. pose proof (eb_heads _ _ _ Hx) as Hh. rewrite Forall_forall in Hh. specialize (Hh _ Hb).
  unfold head_info. fold (latest_of infos (br_branch_id branch)).
  destruct (latest_of infos (br_branch_id branch)) as [info|] eqn:Hl; rewrite Hh; simpl; [|done].
  rewrite (find_unique ei_event_id); [done|apply Hx|]. by apply latest_of_Some in Hl as [? _].
Qed.

Lemma branch_names branches infos bundle_hash :
  List.map bm_branch_id (build_branch_manifests branches infos bundle_hash) = List.map br_branch_id branches.
Proof. unfold build_branch_manifests. rewrite map_map. by apply map_ext. Qed.

Lemma default_count branches infos bundle_hash :
  len (List.filter bm_is_default (build_branch_manifests branches infos bundle_hash))
  = len (List.filter br_is_default branches).
Proof.
  unfold len. f_equal. unfold build_branch_manifests.
  induction branches as [|branch branches IH]; simpl; [done|].
  destruct (br_is_default branch); simpl; by rewrite IH.
Qed.

(** The exported branches are accepted. *)
Lemma branches_valid session_id branches infos manifest :
  exportable_branches session_id branches infos ->
  se_session_id (mf_session manifest) = session_id ->
  mf_branches manifest = build_branch_manifests branches infos (Some (mf_bundle_hash manifest)) ->
  validate_manifest_branches manifest (List.map strip infos) = Ok tt.
Proof.
  intros Hx Hsid Hm. unfold validate_manifest_branches. rewrite Hm, branch_names, default_count.
  rewrite (eb_default _ _ _ Hx). simpl.
  assert (try_fold (insert_distinct (fun id : BranchId => "duplicate branch_id " +:+ show_id id)) ∅
    (List.map br_branch_id branches) = Ok (list_to_set (List.map br_branch_id branches) ∪ ∅)) as ->.
  { apply insert_all_distinct. split_and!; [apply Hx|set_solver|done]. }
  simpl. set (ids := list_to_set (List.map br_branch_id branches) ∪ ∅).
  assert (forall b, b ∈ ids <-> b ∈ List.map br_branch_id branches) as Hids.
  { intros b. unfold ids. rewrite elem_of_union, elem_of_list_to_set. set_solver. }
  apply result_bind_Ok. exists tt. split.
  - apply try_iter_Ok, Forall_forall. intros bm (branch & -> & Hb)%list_elem_of_fmap.
    apply result_bind_Ok. exists tt. split.
    + unfold validate_branch_parent. simpl.
      pose proof (eb_parents _ _ _ Hx) as Hp. pose proof (eb_parent_events _ _ _ Hx) as He.
      rewrite Forall_forall in Hp, He. specialize (Hp _ Hb). specialize (He _ Hb).
      apply result_bind_Ok. exists tt. split.
      * destruct (br_parent_branch_id branch) as [parent|]; [|done].
        apply reject_when. intros Hn. by apply Hn, Hids, Hp.
      * destruct (br_parent_event_id branch) as [event_id|]; [|done].
        destruct (He _ eq_refl) as (info & Hi & <- & Hpar).
        rewrite by_id_strip by (done || apply Hx). simpl.
        destruct (br_parent_branch_id branch) as [parent|]; [|done]. by apply reject_unless, Hpar.
    + unfold validate_branch_head. simpl. rewrite latest_strip, (exported_head _ _ _ _ Hx Hb).
      destruct (latest_of infos (br_branch_id branch)) as [info|] eqn:Hl; simpl; [|done].
      pose proof (latest_of_Some _ _ _ Hl) as [Hi Hbr].
      pose proof (eb_session _ _ _ Hx) as Hs. rewrite Forall_forall in Hs. rewrite (Hs _ Hb), Hsid.
      rewrite !(bool_decide_true (_ = _)) by done. simpl.
      rewrite by_id_strip by (done || apply Hx). simpl.
      rewrite Z.eqb_refl. simpl. by repeat (rewrite bool_decide_true by done; simpl).
  - apply try_iter_Ok, Forall_forall. intros x (info & -> & Hi)%list_elem_of_fmap.
    apply reject_when. intros Hn. apply Hn, Hids. exact (eb_events _ _ _ Hx _ Hi).
Qed.
End branches.

Section refs.
Context `{laws : RowCodecLaws} `{bundle : BundleCodec}.

(** ** Raw chunk references *)

Lemma NoDup_event_refs infos :
  NoDup (List.map ei_event_id infos) ->
  Forall (fun info => (length (ei_raw_chunk_refs info) <= 1)%nat) infos ->
  NoDup (List.map (fun p => (ei_event_id p.1, re_content_hash p.2)) (event_refs infos)).
Proof.
  intros Hn Hone. induction infos as [|info infos IH]; [constructor|].
  apply NoDup_cons in Hn as [Hi Hn]. apply Forall_cons in Hone as [H1 Hone].
  unfold event_refs. simpl. fold (event_refs infos). rewrite map_app. apply NoDup_app. split_and!.
  - destruct (ei_raw_chunk_refs info) as [|r [|r' rs]]; simpl in *; [constructor| |lia].
    apply NoDup_singleton.
  - intros x (p & -> & (r & <- & Hr)%list_elem_of_In%in_map_iff)%list_elem_of_fmap
      ([i r'] & [= He _] & [Hi' _]%elem_of_event_refs)%list_elem_of_fmap. simpl in *.
    apply Hi. rewrite He. by apply (list_elem_of_fmap_2 ei_event_id).
  - by apply IH.
Qed.

(** Chunks that belong to the session, and to the branch of every event that
    refers to them. *)
Record exportable_chunks (session_id : SessionId) (by_id : gmap Z ExportedRawChunkInfo)
    (infos : list EventRecordInfo) : Prop := {
  ec_session : forall id chunk, by_id !! id = Some chunk -> xr_session_id chunk = session_id;
  ec_branch : forall info ref chunk, info ∈ infos -> ref ∈ ei_raw_chunk_refs info ->
    by_id !! re_local_chunk_id ref = Some chunk -> xr_branch_id chunk = Some (ei_branch_id info);
  ec_ordinals : forall id1 id2 chunk1 chunk2, by_id !! id1 = Some chunk1 -> by_id !! id2 = Some chunk2 ->
    xr_chunk_ordinal chunk1 = xr_chunk_ordinal chunk2 -> chunk1 = chunk2;
  ec_refs : Forall (fun info =>
    ei_raw_chunk_content_refs info = List.map re_content_hash (ei_raw_chunk_refs info)
    /\ (length (ei_raw_chunk_refs info) <= 1)%nat) infos;
}.

(** The identities seen, and the contents of the events seen. *)
Record refs_seen (by_id : gmap Z ExportedRawChunkInfo) (pairs : list (EventRecordInfo * RawChunkEventRef))
    (st : gmap Z RawChunkRefIdentity * gset RawChunkImportKey) : Prop := {
  sn_identities : forall o identity, st.1 !! o = Some identity ->
    exists id chunk info, by_id !! id = Some chunk /\ xr_chunk_ordinal chunk = o
      /\ identity = raw_ref_identity (ref_of info chunk);
  sn_contents : forall key, key ∈ st.2 <-> key ∈ List.map (fun p => (ei_event_id p.1, re_content_hash p.2)) pairs;
}.

Lemma uuid_eta {tag} (id : UuidId tag) : MkUuid (uuid id) = id.
Proof. by destruct id. Qed.

Lemma parse_show_id {tag} (id : UuidId tag) : parse_uuid (show_id id) = Some (uuid id).
Proof. apply parse_show_uuid. Qed.

Lemma raw_ref_valid manifest session_id by_id branches infos pairs st info ref chunk :
  exportable_chunks session_id by_id infos ->
  se_session_id (mf_session manifest) = session_id ->
  branch_set (mf_branches manifest) = list_to_set (List.map br_branch_id branches) ->
  NoDup (List.map ei_event_id infos) ->
  (forall info, info ∈ infos -> ei_branch_id info ∈ List.map br_branch_id branches) ->
  info ∈ infos -> ref ∈ ei_raw_chunk_refs info ->
  by_id !! re_local_chunk_id ref = Some chunk -> cr_hash (xr_content chunk) = re_content_hash ref ->
  refs_seen by_id pairs st ->
  (ei_event_id info, re_content_hash ref) ∉ List.map (fun p => (ei_event_id p.1, re_content_hash p.2)) pairs ->
  exists st', validate_raw_chunk_ref manifest (infos_by_id (List.map strip infos)) st (ref_of info chunk) = Ok st'
    /\ refs_seen by_id (pairs ++ [(info, ref)]) st'.
Proof.
  intros Hx Hsid Hbs Hn Hb Hi Hr Hc Hh [Hid Hseen] Hnew. destruct st as [identities seen]. simpl in *.
  pose proof (ec_branch _ _ _ Hx _ _ _ Hi Hr Hc) as Hbr. pose proof (ec_refs _ _ _ Hx) as Hrefs.
  rewrite Forall_forall in Hrefs. destruct (Hrefs _ Hi) as [Hcr _].
  exists (<[xr_chunk_ordinal chunk := raw_ref_identity (ref_of info chunk)]> identities,
          {[(ei_event_id info, re_content_hash ref)]} ∪ seen). split.
  - unfold validate_raw_chunk_ref. simpl. rewrite (ec_session _ _ _ Hx _ _ Hc), Hsid, Hbr.
    rewrite bool_decide_true by done. simpl. rewrite Hbs.
    rewrite bool_decide_false by (intros Hnb; by apply Hnb, elem_of_list_to_set, Hb). simpl.
    assert ((match identities !! xr_chunk_ordinal chunk with
       | Some existing => reject_if (negb (bool_decide (existing = raw_ref_identity (ref_of info chunk))))
           (invalid_bundle (raw_chunk_label (ref_of info chunk) +:+ " has inconsistent refs"))
       | None => Ok tt
       end) = Ok tt) as ->.
    { destruct (identities !! xr_chunk_ordinal chunk) as [identity|] eqn:E; [|done].
      apply Hid in E as (id' & chunk' & info' & Hc' & Ho & ->). apply reject_unless.
      by rewrite (ec_ordinals _ _ _ Hx _ _ _ _ Hc' Hc Ho). }
    simpl. unfold raw_ref_event_id. simpl. rewrite parse_show_id. simpl.
    rewrite uuid_eta.
    rewrite by_id_strip by done. simpl. rewrite (bool_decide_true (ei_branch_id info = ei_branch_id info)) by done. simpl.
    rewrite Hh, Hcr, bool_decide_true by (by apply (list_elem_of_fmap_2 re_content_hash)). simpl.
    by rewrite insert_distinct_new by (by rewrite Hseen).
  - split; simpl.
    + intros o identity [[<- <-]|[_ Ho]]%lookup_insert_Some; [by exists (re_local_chunk_id ref), chunk, info|].
      by apply Hid in Ho.
    + intros key. rewrite map_app, elem_of_app, <- Hseen, elem_of_union, elem_of_singleton. simpl.
      rewrite list_elem_of_singleton. tauto.
Qed.

(** The exported references are accepted. *)
Lemma raw_refs_valid manifest session_id by_id branches infos refs :
  exportable_chunks session_id by_id infos ->
  se_session_id (mf_session manifest) = session_id ->
  branch_set (mf_branches manifest) = list_to_set (List.map br_branch_id branches) ->
  NoDup (List.map ei_event_id infos) ->
  (forall info, info ∈ infos -> ei_branch_id info ∈ List.map br_branch_id branches) ->
  Forall2 (written_ref by_id) (event_refs infos) refs ->
  validate_raw_chunk_refs refs manifest (List.map strip infos) = Ok tt.
Proof.
  intros Hx Hsid Hbs Hn Hb Hrefs. unfold validate_raw_chunk_refs.
  assert (NoDup (List.map (fun p => (ei_event_id p.1, re_content_hash p.2)) (event_refs infos))) as Hkeys.
  { apply NoDup_event_refs; [done|]. eapply Forall_impl; [apply (ec_refs _ _ _ Hx)|]. by intros ? [_ ?]. }
  destruct (try_fold_total (fun done_refs st => refs_seen by_id (take (length done_refs) (event_refs infos)) st)
    (validate_raw_chunk_ref manifest (infos_by_id (List.map strip infos))) refs (∅, ∅)) as (st & -> & Hst).
  - intros done_refs raw_ref st [rest Hpre] Hst.
    destruct (Forall2_lookup_r _ _ _ (length done_refs) raw_ref Hrefs) as ([info ref] & Hp & chunk & Hc & Hh & Hraw).
    { rewrite Hpre, <- (assoc_L (++)), lookup_app_r, Nat.sub_diag by lia. done. }
    simpl in *. destruct (proj1 (elem_of_event_refs _ _ _) (list_elem_of_lookup_2 _ _ _ Hp)) as [Hi Hr].
    rewrite length_app, Nat.add_1_r, (take_S_r _ _ _ Hp), Hraw.
    eapply raw_ref_valid; try done. intros Hin.
    rewrite <- (take_drop_middle _ _ _ Hp), map_app in Hkeys. apply NoDup_app in Hkeys as (_ & Hd & _).
    apply (Hd _ Hin). simpl. left.
  - split; simpl; [by intros|]. intros key. by rewrite elem_of_nil, elem_of_empty.
  - simpl. apply try_iter_Ok, Forall_forall. intros x (info & -> & Hi)%list_elem_of_fmap.
    apply try_iter_Ok, Forall_forall. intros h Hh. simpl in Hh. apply reject_when. intros Hno. apply Hno.
    apply (sn_contents _ _ _ Hst). rewrite <- (Forall2_length _ _ _ Hrefs), firstn_all. simpl.
    pose proof (ec_refs _ _ _ Hx) as Hall. rewrite Forall_forall in Hall. destruct (Hall _ Hi) as [Hcr _].
    rewrite Hcr in Hh. apply list_elem_of_fmap in Hh as (ref & -> & Hr).
    apply list_elem_of_fmap. exists (info, ref). split; [done|]. by apply elem_of_event_refs.
Qed.
End refs.
