(* ===== verification/BundleSample.v ===== *)
(** * A codec for bundles to run the model on

    Records are written as their position in a table: what is written is read
    back, and only the records of the table have a text.  The digest is the
    text itself. *)

From stdpp Require Import base list strings gmap sorting.
From Stdlib Require Import ZArith Lia Ascii SpecFloat.
From S2P Require Import Prelude Text Utf8 Json Types TurnProjection Store StoreOps StoreRelated StoreLaws.
From S2P Require Import StoreReplay StoreQueries Bundle BundleFiles BundleExport.

#[local] Open Scope Z_scope.

(** ** Equality of records *)

#[export] Instance spec_float_eq_dec : EqDecision spec_float.
Proof. solve_decision. Defined.
#[export] Instance CostBreakdown_eq_dec : EqDecision CostBreakdown.
Proof. solve_decision. Defined.
#[export] Instance TokenUsage_eq_dec : EqDecision TokenUsage.
Proof. solve_decision. Defined.
#[export] Instance ThinkingConfig_eq_dec : EqDecision ThinkingConfig.
Proof. solve_decision. Defined.
#[export] Instance BudgetConfig_eq_dec : EqDecision BudgetConfig.
Proof. solve_decision. Defined.
#[export] Instance PlanStatus_eq_dec : EqDecision PlanStatus.
Proof. solve_decision. Defined.
#[export] Instance PlanItem_eq_dec : EqDecision PlanItem.
Proof. solve_decision. Defined.
#[export] Instance ToolOperationInitiator_eq_dec : EqDecision ToolOperationInitiator.
Proof. solve_decision. Defined.
#[export] Instance ToolOperationContext_eq_dec : EqDecision ToolOperationContext.
Proof. solve_decision. Defined.
#[export] Instance ApprovalRequestSnapshot_eq_dec : EqDecision ApprovalRequestSnapshot.
Proof. solve_decision. Defined.
#[export] Instance ApprovalResolution_eq_dec : EqDecision ApprovalResolution.
Proof. solve_decision. Defined.
#[export] Instance CompletionDelta_eq_dec : EqDecision CompletionDelta.
Proof. solve_decision. Defined.
#[export] Instance ContextSystemPromptRef_eq_dec : EqDecision ContextSystemPromptRef.
Proof. solve_decision. Defined.
#[export] Instance ContextMessageRef_eq_dec : EqDecision ContextMessageRef.
Proof. solve_decision. Defined.
#[export] Instance ContextMessageSourceRef_eq_dec : EqDecision ContextMessageSourceRef.
Proof. solve_decision. Defined.
#[export] Instance ContextToolRef_eq_dec : EqDecision ContextToolRef.
Proof. solve_decision. Defined.
#[export] Instance ContextAttachmentType_eq_dec : EqDecision ContextAttachmentType.
Proof. solve_decision. Defined.
#[export] Instance ContextAttachmentProducer_eq_dec : EqDecision ContextAttachmentProducer.
Proof. solve_decision. Defined.
#[export] Instance ContextAttachmentVisibility_eq_dec : EqDecision ContextAttachmentVisibility.
Proof. solve_decision. Defined.
#[export] Instance ContextPromptPlacement_eq_dec : EqDecision ContextPromptPlacement.
Proof. solve_decision. Defined.
#[export] Instance ContextTruncationStatus_eq_dec : EqDecision ContextTruncationStatus.
Proof. solve_decision. Defined.
#[export] Instance ContextAttachment_eq_dec : EqDecision ContextAttachment.
Proof. solve_decision. Defined.
#[export] Instance ContextCompactionPhase_eq_dec : EqDecision ContextCompactionPhase.
Proof. solve_decision. Defined.
#[export] Instance ContextCompactionStatus_eq_dec : EqDecision ContextCompactionStatus.
Proof. solve_decision. Defined.
#[export] Instance ContextManifest_eq_dec : EqDecision ContextManifest.
Proof. solve_decision. Defined.
#[export] Instance InstructionDocument_eq_dec : EqDecision InstructionDocument.
Proof. solve_decision. Defined.
#[export] Instance TurnInstructionProvenance_eq_dec : EqDecision TurnInstructionProvenance.
Proof. solve_decision. Defined.
#[export] Instance SessionRecord_eq_dec : EqDecision SessionRecord.
Proof. solve_decision. Defined.
#[export] Instance QueuedMessageResolutionOutcome_eq_dec : EqDecision QueuedMessageResolutionOutcome.
Proof. solve_decision. Defined.
#[export] Instance SteerResolutionOutcome_eq_dec : EqDecision SteerResolutionOutcome.
Proof. solve_decision. Defined.
#[export] Instance ContextCompactedPayload_eq_dec : EqDecision ContextCompactedPayload.
Proof. solve_decision. Defined.
#[export] Instance EventPayload_eq_dec : EqDecision EventPayload.
Proof. solve_decision. Defined.
#[export] Instance ContentRef_eq_dec : EqDecision ContentRef.
Proof. solve_decision. Defined.
#[export] Instance SessionNodeRef_eq_dec : EqDecision SessionNodeRef.
Proof. solve_decision. Defined.
#[export] Instance EventRange_eq_dec : EqDecision EventRange.
Proof. solve_decision. Defined.
#[export] Instance BundleArtifactRef_eq_dec : EqDecision BundleArtifactRef.
Proof. solve_decision. Defined.
#[export] Instance BranchManifest_eq_dec : EqDecision BranchManifest.
Proof. solve_decision. Defined.
#[export] Instance ProducerInfo_eq_dec : EqDecision ProducerInfo.
Proof. solve_decision. Defined.
#[export] Instance SessionBundleArtifactMode_eq_dec : EqDecision SessionBundleArtifactMode.
Proof. solve_decision. Defined.
#[export] Instance SessionBundleManifest_eq_dec : EqDecision SessionBundleManifest.
Proof. solve_decision. Defined.
#[export] Instance PortableContextMessageRef_eq_dec : EqDecision PortableContextMessageRef.
Proof. solve_decision. Defined.
#[export] Instance PortableContextManifest_eq_dec : EqDecision PortableContextManifest.
Proof. solve_decision. Defined.
#[export] Instance PortableContextCompacted_eq_dec : EqDecision PortableContextCompacted.
Proof. solve_decision. Defined.
#[export] Instance PortableEventPayload_eq_dec : EqDecision PortableEventPayload.
Proof. solve_decision. Defined.
#[export] Instance PortableEventEnvelope_eq_dec : EqDecision PortableEventEnvelope.
Proof. solve_decision. Defined.
#[export] Instance SessionBundleEventRecord_eq_dec : EqDecision SessionBundleEventRecord.
Proof. solve_decision. Defined.
#[export] Instance SessionBundleRawChunkRef_eq_dec : EqDecision SessionBundleRawChunkRef.
Proof. solve_decision. Defined.
#[export] Instance SessionBundleChecksumEntry_eq_dec : EqDecision SessionBundleChecksumEntry.
Proof. solve_decision. Defined.
#[export] Instance SessionBundleChecksums_eq_dec : EqDecision SessionBundleChecksums.
Proof. solve_decision. Defined.

(** ** Tables *)

Fixpoint letters (n : nat) : string :=
  match n with O => "" | S n => String "a" (letters n) end.

Definition line_of (i : nat) : string := String "l" (letters i).

Definition no_text {A} : Result A := Err (Protocol "not in the table").

Section table.
Context {A} `{EqDecision A} (table : list A).

Definition write_in (a : A) : Result string :=
  match position (fun b => bool_decide (b = a)) table with
  | Some i => Ok (line_of i)
  | None => no_text
  end.

Definition read_in (s : string) : Result A :=
  match table !! (String.length s - 1)%nat with Some a => Ok a | None => no_text end.

Lemma line_length i : (String.length (line_of i) - 1)%nat = i.
Proof. simpl. rewrite Nat.sub_0_r. induction i as [|i IH]; simpl; [done|by rewrite IH]. Qed.

Lemma read_write_in a s : write_in a = Ok s -> read_in s = Ok a.
Proof.
  unfold write_in, read_in. destruct (position _ table) as [i|] eqn:Hi; [|done]. intros [= <-].
  apply position_Some in Hi as (b & Hb & Heq & _). apply bool_decide_eq_true in Heq as ->.
  by rewrite line_length, Hb.
Qed.

Lemma write_in_line a s : write_in a = Ok s -> exists i, s = line_of i.
Proof. unfold write_in. destruct (position _ table) as [i|]; [|done]. intros [= <-]. by exists i. Qed.
End table.

Lemma letters_chars n : utf8_split (letters n) = ("", repeat "a" n).
Proof. induction n as [|n IH]; simpl; [done|]. by rewrite IH. Qed.

Lemma strip_letters a s :
  Ascii.eqb a carriage_return = false -> strip_carriage_return s = s ->
  strip_carriage_return (String a s) = String a s.
Proof. intros Ha Hs. destruct s as [|b s]; cbn [strip_carriage_return] in *; [by rewrite Ha|]. by rewrite Hs. Qed.

Lemma line_of_one_line i : one_line (line_of i).
Proof.
  split_and!.
  - unfold valid_utf8, line_of. simpl. induction i as [|i IH]; simpl; [done|exact IH].
  - unfold line_of. simpl. induction i as [|i IH]; simpl; [done|exact IH].
  - unfold is_blank, trim, chars, line_of. simpl. rewrite letters_chars. simpl.
    unfold drop_while_end. rewrite reverse_cons.
    enough (forall l, drop_while is_whitespace (l ++ ["l"]) <> []) as H.
    { destruct (drop_while is_whitespace _) as [|c cs] eqn:E; [by apply H in E|].
      apply String.eqb_neq. intros E'. revert E. clear -E'.
      assert (forall l, Forall (fun c => c <> "") l -> concat_str l = "" -> l = []) as Hc.
      { intros l [|d ds Hd _]; simpl; [done|]. by destruct d. }
      intros E. apply Hc in E'; [by apply (f_equal length) in E'; rewrite length_reverse in E'|].
      rewrite Forall_reverse, <- E. clear.
      assert (Forall (fun c => c <> "") (reverse (repeat "a" i) ++ ["l"])) as Hall.
      { apply Forall_app. split; [|by repeat constructor]. rewrite Forall_reverse.
        induction i; simpl; by constructor. }
      induction Hall as [|d ds Hd Hds IH]; simpl; [constructor|].
      destruct (is_whitespace d); [done|by constructor]. }
    intros l. induction l as [|d ds IH]; simpl; [done|]. by destruct (is_whitespace d).
  - apply strip_letters; [done|]. induction i as [|i IH]; [done|]. by apply strip_letters.
Qed.

(** ** The codec *)

Definition sample_event_bytes (event : PortableEventEnvelope) : Result string :=
  Ok ("e" +:+ letters (N.to_nat (uuid (pe_event_id event)))).

(** The digest is the text; every text is [l]. *)
#[local] Instance draft_codec : BundleCodec := {|
  sha256 s := s;
  payload_trip p := Ok p;
  canonical_event_bytes := sample_event_bytes;
  exact_event _ := True;
  write_event _ := Ok "l"; read_event _ := no_text;
  write_raw_ref _ := Ok "l"; read_raw_ref _ := no_text;
  write_checksums _ := Ok "l"; read_checksums _ := no_text;
  write_manifest _ := Ok "l"; read_manifest _ := no_text;
  node_value _ := Ok VNull;
|}.

Definition table_codec (events : list SessionBundleEventRecord)
    (refs : list SessionBundleRawChunkRef) (checksums : list SessionBundleChecksums)
    (manifests : list SessionBundleManifest) : BundleCodec := {|
  sha256 s := s;
  payload_trip p := Ok p;
  canonical_event_bytes := sample_event_bytes;
  exact_event _ := True;
  write_event := write_in events; read_event := read_in events;
  write_raw_ref := write_in refs; read_raw_ref := read_in refs;
  write_checksums := write_in checksums; read_checksums := read_in checksums;
  write_manifest := write_in manifests; read_manifest := read_in manifests;
  node_value _ := Ok VNull;
|}.

Definition portable_events (events : list SessionBundleEventRecord) : bool :=
  forallb (fun record => portable_ok (pe_payload (er_event record))) events.

Lemma table_laws events refs checksums manifests :
  portable_events events = true -> @BundleCodecLaws (table_codec events refs checksums manifests).
Proof.
  intros Hp. split; simpl.
  - by intros p q [= ->].
  - intros r s _. apply read_write_in.
  - unfold read_in. intros s r Hr. destruct (events !! _) as [r'|] eqn:E; [|done].
    injection Hr as ->. apply list_elem_of_lookup_2, list_elem_of_In in E.
    exact (proj1 (forallb_forall _ _) Hp _ E).
  - intros r s [i ->]%write_in_line. apply line_of_one_line.
  - apply read_write_in.
  - intros r s [i ->]%write_in_line. apply line_of_one_line.
  - apply read_write_in.
  - apply read_write_in.
Qed.

#[local] Existing Instance unary_codec.

(** No file of the host is read. *)
#[export] Instance no_host : HostFiles := {|
  canonicalize _ := None; is_regular_file _ := None; host_read _ := None |}.

(** ** Tables for an export *)

Section tables.
Context (db : Db) (session_id : SessionId) (options : SessionBundleExportOptions).

(** The event records and raw chunk references of the export. *)
Definition draft_records : Result (list SessionBundleEventRecord * list SessionBundleRawChunkRef) :=
  raw_chunks ← load_all_raw_chunks session_id db;
  let '(by_local_id, hashes) := prepare_raw_chunks raw_chunks in
  records ← build_event_records (load_session_event_log session_id db) hashes;
  built ← build_raw_chunk_refs by_local_id records.2 (MkWritten ∅ []);
  Ok (records.1, built.1.1).

Definition events_table : list SessionBundleEventRecord :=
  match draft_records with Ok (events, _) => events | Err _ => [] end.
Definition refs_table : list SessionBundleRawChunkRef :=
  match draft_records with Ok (_, refs) => refs | Err _ => [] end.

(** The checksums of the export. *)
Definition draft_checksums : Result SessionBundleChecksums :=
  found ← load_session session_id db;
  session ← ok_or (NotFound "") found;
  raw_chunks ← load_all_raw_chunks session_id db;
  let '(by_local_id, hashes) := prepare_raw_chunks raw_chunks in
  records ← build_event_records (load_session_event_log session_id db) hashes;
  built ← build_raw_chunk_refs by_local_id records.2 (MkWritten ∅ []);
  exported ← export_artifacts session options built.2;
  events_bytes ← jsonl_bytes (write_in events_table) records.1;
  w ← push_file SESSION_BT_EVENTS events_bytes exported.2;
  raw_refs_bytes ← jsonl_bytes (write_in refs_table) built.1.1;
  w ← push_file SESSION_BT_RAW_CHUNK_REFS raw_refs_bytes w;
  Ok (MkChecksums SESSION_BT_SCHEMA_VERSION (merge_sort checksum_le (wr_checksums w))).

Definition checksums_table : list SessionBundleChecksums :=
  match draft_checksums with Ok checksums => [checksums] | Err _ => [] end.

Definition manifests_table : list SessionBundleManifest :=
  match export_session_bundle_directory db session_id "/out" OutputMissing options with
  | Ok (manifest, _) => [manifest]
  | Err _ => []
  end.

(** The codec in which this export has a text. *)
Definition export_codec : BundleCodec :=
  table_codec events_table refs_table checksums_table manifests_table.
End tables.

(** ** A session to export *)

(** A chunk two events refer to. *)
Definition bundle_history : list StoreOp :=
  [OpCreateSession sample_session sample_branch;
   OpRawChunkWithEvent 3 (MkUuid 1) (MkUuid 2) None None "p" "s" "abc"
     (fun chunk_id => Ok (sample_event 1 (RawChunkPersisted "p" chunk_id "s" None)));
   OpAppend (sample_event 2 (CompletionChunkEvent None [] (Some 1)));
   OpAppend (sample_event 3 (OperatorCommandRecorded "c" "i" "o" true))].
Definition bundle_db : Db := run_ops bundle_history db_empty.

Lemma bundle_db_reachable : reachable bundle_db.
Proof. by exists bundle_history. Qed.

Definition sample_export : Result (SessionBundleManifest * Dir) :=
  @export_session_bundle_directory _ (export_codec bundle_db (MkUuid 1) default_export_options) _
    bundle_db (MkUuid 1) "/out" OutputMissing default_export_options.
