(* ===== verification/BundleRoundtrip.v ===== *)
(** * Exported bundles validate

    The files an export writes have distinct paths inside the bundle, hold
    what the checksums say, and are all listed; together with the checks of
    the manifest this makes every exported bundle valid. *)

From stdpp Require Import base list strings gmap sorting.
From Stdlib Require Import ZArith Lia Ascii.
From S2P Require Import Prelude Text Json Types TurnProjection Store StoreOps StoreRelated StoreLaws.
From S2P Require Import StoreReplay StoreQueries Bundle BundleFiles BundleExport BundleImport BundleLaws.
From S2P Require Import BundleWritten BundleChecks BundleExportLaws BundleSample.

#[local] Open Scope Z_scope.

Section paths.
Context `{bundle : BundleCodec}.

(** ** Paths of raw chunks *)

Lemma sha256_hex_hash b : sha256_hex (hash_bytes b) = to_lower_hex (sha256 b).
Proof.
  unfold sha256_hex, hash_bytes, from_sha256_hex. simpl hash_str.
  by rewrite (proj2 (strip_prefix_Some _ _ _) eq_refl), lower_hex_lower.
Qed.

Lemma hex_no_slash s : has_char slash (to_lower_hex s) = false.
Proof.
  assert (forall z, 0 <= z < 16 -> Ascii.eqb (hex_digit z) slash = false) as H.
  { apply (sixteen (fun z => Ascii.eqb (hex_digit z) slash = false)). by repeat constructor. }
  induction s as [|a s IH]; simpl; [done|]. pose proof (byte_range a).
  rewrite !H, IH; [done|apply Z.mod_pos_bound; lia|].
  split; [apply Z.div_pos; lia|apply Z.div_lt_upper_bound; lia].
Qed.

Definition chunk_name (b : string) : string := to_lower_hex (sha256 b) +:+ ".bin".

Lemma chunk_path_components b :
  raw_chunk_path (hash_bytes b) = file_path [SESSION_BT_RAW_CHUNKS_DIR; chunk_name b].
Proof. unfold raw_chunk_path. by rewrite sha256_hex_hash. Qed.

Lemma append_length_inj (s t u : string) : s +:+ u = t +:+ u -> s = t.
Proof.
  intros H. assert (String.length s = String.length t) as Hlen.
  { apply (f_equal String.length) in H. rewrite !length_append in H. lia. }
  revert t H Hlen. induction s as [|a s IH]; intros [|b t] H Hlen; simpl in *; try done.
  injection H as -> H. injection Hlen as Hlen. f_equal. by apply IH.
Qed.

Lemma chunk_name_proper b : proper (chunk_name b) /\ chunk_name b <> "..".
Proof.
  assert (forall s, (String.length s < 4)%nat -> chunk_name b <> s) as H.
  { intros s Hs E. apply (f_equal String.length) in E. unfold chunk_name in E.
    rewrite length_append in E. simpl in E. lia. }
  split; [|apply H; simpl; lia]. split_and!; [apply H; simpl; lia|apply H; simpl; lia|].
  unfold chunk_name. by rewrite has_char_app, hex_no_slash.
Qed.

Lemma raw_chunk_path_good b : good_path (raw_chunk_path (hash_bytes b)).
Proof.
  rewrite chunk_path_components. destruct (chunk_name_proper b) as [Hp Hd].
  apply good_components; [done| |].
  - apply Forall_cons. split; [done|]. by apply Forall_singleton.
  - rewrite !elem_of_cons. intros [E|[E|E%elem_of_nil]]; [done|by symmetry in E|done].
Qed.

Lemma raw_chunk_path_pieces b :
  split_char slash (raw_chunk_path (hash_bytes b)) = [SESSION_BT_RAW_CHUNKS_DIR; chunk_name b].
Proof.
  rewrite chunk_path_components. unfold file_path. apply split_char_join; [done|].
  apply Forall_cons. split; [done|]. apply Forall_singleton. by apply chunk_name_proper.
Qed.

Lemma raw_chunk_path_inj a b :
  raw_chunk_path (hash_bytes a) = raw_chunk_path (hash_bytes b) -> hash_bytes a = hash_bytes b.
Proof.
  intros E. apply (f_equal (split_char slash)) in E. rewrite !raw_chunk_path_pieces in E.
  injection E as E. apply append_length_inj, to_lower_hex_inj in E.
  unfold hash_bytes. by rewrite E.
Qed.

Lemma raw_chunk_path_ne b name : has_char slash name = false -> raw_chunk_path (hash_bytes b) <> name.
Proof.
  intros Hs E. apply (f_equal (split_char slash)) in E.
  by rewrite raw_chunk_path_pieces, split_char_none in E.
Qed.

(** ** The log of an export *)

Definition full_log (files : list string) (b1 b2 b3 b4 : string) : FileLog :=
  chunk_files files ++ [(SESSION_BT_EVENTS, b1); (SESSION_BT_RAW_CHUNK_REFS, b2);
                        (SESSION_BT_CHECKSUMS, b3); (SESSION_BT_MANIFEST, b4)].

Lemma chunk_paths files : (chunk_files files).*1 = List.map (fun b => raw_chunk_path (hash_bytes b)) files.
Proof. unfold chunk_files. by rewrite <- list_fmap_compose. Qed.

Lemma root_file_good name :
  name ∈ [SESSION_BT_EVENTS; SESSION_BT_RAW_CHUNK_REFS; SESSION_BT_CHECKSUMS; SESSION_BT_MANIFEST] ->
  good_path name /\ has_char slash name = false.
Proof.
  rewrite !elem_of_cons. intros [->|[->|[->|[->|E%elem_of_nil]]]]; try done;
    (split; [|done]); (split; [done|done|done| |done]);
    apply Forall_singleton; (split_and!; done).
Qed.

Lemma full_log_good files b1 b2 b3 b4 :
  NoDup (List.map hash_bytes files) -> good_log (full_log files b1 b2 b3 b4).
Proof.
  intros Hn. unfold full_log. split; rewrite fmap_app, chunk_paths; simpl.
  - apply Forall_app. split.
    + apply Forall_forall. intros p (b & -> & _)%list_elem_of_fmap. apply raw_chunk_path_good.
    + apply Forall_forall. intros p Hp. by apply root_file_good.
  - apply NoDup_app. split_and!.
    + clear -Hn. induction files as [|b files IH]; simpl; [constructor|].
      apply NoDup_cons in Hn as [Hb Hn]. apply NoDup_cons. split; [|by apply IH].
      intros (b' & E%raw_chunk_path_inj & Hin)%list_elem_of_fmap. apply Hb. rewrite E.
      by apply (list_elem_of_fmap_2 hash_bytes).
    + intros p (b & -> & _)%list_elem_of_fmap Hin.
      destruct (root_file_good _ Hin) as [_ Hs]. by apply (raw_chunk_path_ne b _ Hs).
    + apply (bool_decide_eq_true_1 _). by vm_compute.
Qed.
End paths.

Section files.
Context `{codec : RowCodec} `{bundle : BundleCodec}.

(** The content reference of some bytes. *)
Definition content_of (b : string) : ContentRef :=
  MkContentRef (hash_bytes b) (Some "application/octet-stream") (Z.of_nat (byte_len b))
    (Some (raw_chunk_path (hash_bytes b))).

(** ** Files against their hashes *)

Lemma verify_entry log file :
  good_log log -> file ∈ log -> verify_file_checksum (dir_of log) (entry_of file) = Ok tt.
Proof.
  intros Hg Hin. destruct file as [path bytes]. unfold verify_file_checksum. simpl.
  pose proof (gl_good _ Hg) as Hall. rewrite Forall_forall in Hall.
  rewrite (gp_valid path) by (apply Hall; by apply (list_elem_of_fmap_2 fst) in Hin). simpl.
  rewrite (fs_read_dir_of _ _ _ Hg Hin). simpl. by rewrite bool_decide_true, Z.eqb_refl by done.
Qed.

Lemma verify_content_of dir b mismatch size :
  fs_read dir (raw_chunk_path (hash_bytes b)) = Some b ->
  verify_content dir (raw_chunk_path (hash_bytes b)) (content_of b) mismatch size = Ok tt.
Proof.
  intros Hr. unfold verify_content. rewrite (gp_valid _ (raw_chunk_path_good b)). simpl. rewrite Hr. simpl.
  by rewrite bool_decide_true, Z.eqb_refl by done.
Qed.

Lemma verify_chunks dir refs (hashes : gset PortableHash) :
  Forall (fun raw_ref => exists b, rx_content raw_ref = content_of b
    /\ fs_read dir (raw_chunk_path (hash_bytes b)) = Some b) refs ->
  exists hashes', try_fold (verify_raw_chunk dir) hashes refs = Ok hashes'
    /\ forall h, h ∈ hashes' <-> h ∈ hashes \/ h ∈ List.map (fun raw_ref => cr_hash (rx_content raw_ref)) refs.
Proof.
  intros Hall. revert hashes. induction Hall as [|raw_ref refs (b & Hc & Hr) _ IH]; intros hashes; simpl.
  - exists hashes. split; [done|]. intros h. rewrite elem_of_nil. tauto.
  - assert (verify_raw_chunk dir hashes raw_ref = Ok ({[hash_bytes b]} ∪ hashes)) as ->.
    { unfold verify_raw_chunk. rewrite Hc. apply result_bind_Ok. eexists. split; [done|].
      apply result_bind_Ok. exists tt. split; [by apply verify_content_of|done]. }
    rewrite Hc. simpl. destruct (IH ({[hash_bytes b]} ∪ hashes)) as (hashes' & -> & Hmem). exists hashes'. split; [done|].
    intros h. rewrite Hmem, elem_of_cons, elem_of_union, elem_of_singleton. tauto.
Qed.

(** ** The inventory of an export *)

Lemma elem_of_map_files files h : h ∈ List.map hash_bytes files <-> exists b, b ∈ files /\ h = hash_bytes b.
Proof. split; [intros (b & -> & ?)%list_elem_of_fmap; eauto|intros (b & ? & ->); by apply (list_elem_of_fmap_2 hash_bytes)]. Qed.

Lemma export_closed files manifest b1 b2 b3 b4 :
  NoDup (List.map hash_bytes files) ->
  (forall c, c ∈ mf_contents manifest <-> exists b, b ∈ files /\ c = content_of b) ->
  closed_inventory (dir_of (full_log files b1 b2 b3 b4)) manifest
    (MkChecksums SESSION_BT_SCHEMA_VERSION (merge_sort checksum_le
       (List.map entry_of (chunk_files files)
        ++ List.map entry_of [(SESSION_BT_EVENTS, b1); (SESSION_BT_RAW_CHUNK_REFS, b2)]))).
Proof.
  intros Hn Hc. pose proof (full_log_good files b1 b2 b3 b4 Hn) as Hg.
  set (listed := chunk_files files ++ [(SESSION_BT_EVENTS, b1); (SESSION_BT_RAW_CHUNK_REFS, b2)]).
  assert (full_log files b1 b2 b3 b4
    = listed ++ [(SESSION_BT_CHECKSUMS, b3); (SESSION_BT_MANIFEST, b4)]) as Hlog
    by (unfold full_log, listed; by rewrite <- (assoc_L (++))).
  rewrite <- map_app. fold listed.
  assert (good_log listed) as Hgl.
  { rewrite Hlog in Hg. destruct Hg as [H1 H2]. rewrite fmap_app in H1, H2. split.
    - by apply Forall_app in H1 as [? _].
    - by apply NoDup_app in H2 as (? & _). }
  assert (forall entry, entry ∈ merge_sort checksum_le (List.map entry_of listed)
    <-> exists file, file ∈ listed /\ entry = entry_of file) as Hentries.
  { intros entry. rewrite merge_sort_Permutation. split.
    - intros (file & -> & ?)%list_elem_of_fmap. eauto.
    - intros (file & ? & ->). by apply (list_elem_of_fmap_2 entry_of). }
  assert (ck_path <$> List.map entry_of listed = listed.*1) as Hpaths
    by (change (List.map entry_of listed) with (entry_of <$> listed); by rewrite <- list_fmap_compose).
  assert (list_to_set (List.map ck_path (merge_sort checksum_le (List.map entry_of listed)))
    =@{gset string} list_to_set listed.*1) as Hset.
  { apply leibniz_equiv. intros p. rewrite !elem_of_list_to_set, <- Hpaths.
    by rewrite (fmap_Permutation ck_path _ _ (merge_sort_Permutation checksum_le _)). }
  pose proof (gl_good _ Hgl) as Hall. rewrite Forall_forall in Hall.
  split; simpl.
  - apply Forall_forall. intros path Hp. apply list_elem_of_omap in Hp as (c & (b & _ & ->)%Hc & [= <-]).
    apply gp_valid, raw_chunk_path_good.
  - apply Forall_forall. intros entry (file & Hin & ->)%Hentries. apply gp_valid, Hall.
    by apply (list_elem_of_fmap_2 fst).
  - rewrite (fmap_Permutation ck_path _ _ (merge_sort_Permutation checksum_le _)), Hpaths. apply Hgl.
  - rewrite Hset. unfold listed. rewrite fmap_app, list_to_set_app_L, chunk_paths. simpl.
    apply leibniz_equiv. intros p.
    assert (p ∈ List.map (fun b => raw_chunk_path (hash_bytes b)) files
      <-> p ∈ content_paths (mf_contents manifest)) as Hp.
    { unfold content_paths. rewrite list_elem_of_omap. split.
      - intros (b & -> & Hb)%list_elem_of_fmap. exists (content_of b). split; [apply Hc; eauto|done].
      - intros (c & (b & Hb & ->)%Hc & [= <-]).
        by apply (list_elem_of_fmap_2 (fun b => raw_chunk_path (hash_bytes b))). }
    rewrite !elem_of_union, !elem_of_list_to_set, !elem_of_singleton, elem_of_empty, Hp. tauto.
  - by apply dir_of_paths_valid.
  - rewrite dir_files_of, Hset, Hlog, fmap_app, list_to_set_app_L by done. simpl.
    rewrite Hlog in Hg. destruct Hg as [_ Hno]. rewrite fmap_app in Hno.
    apply NoDup_app in Hno as (_ & Hd & _). simpl in Hd.
    apply leibniz_equiv. intros p. rewrite elem_of_difference, !elem_of_union, !elem_of_singleton, !elem_of_list_to_set.
    rewrite elem_of_empty. split; [tauto|]. intros Hp. specialize (Hd _ Hp).
    rewrite !elem_of_cons in Hd. tauto.
Qed.
End files.

Section theorem.
Context `{laws : RowCodecLaws} `{bundle : BundleCodec} `{blaws : !BundleCodecLaws} `{host : HostFiles}.

(** ** Sessions that can be exported *)

Definition session_log (session_id : SessionId) (db : Db) : list (Z * EventEnvelope) :=
  load_session_event_log session_id db.

(** The latest event of a branch. *)
Definition latest_event (session_id : SessionId) (branch_id : BranchId) (db : Db) : option EventId :=
  (fun stored => ev_event_id stored.2) <$>
    List.find (fun stored => bool_decide (ev_branch_id stored.2 = branch_id))
      (reverse (session_log session_id db)).

(** A session whose branches are as appends through the runtime leave them:
    every event is on a branch of the session, the head of a branch is its
    latest event, parents are in the session, one branch is the default, and
    a chunk belongs to the branch of the events that refer to it. *)
Record exportable (session_id : SessionId) (db : Db) : Prop := {
  xb_events : forall stored, stored ∈ session_log session_id db ->
    exists row, db_branches db !! ev_branch_id stored.2 = Some row /\ bw_session_id row = session_id;
  xb_heads : forall b row, db_branches db !! b = Some row -> bw_session_id row = session_id ->
    bw_head_event_id row = latest_event session_id b db;
  xb_default : exists b row, db_branches db !! b = Some row /\ bw_session_id row = session_id
    /\ bw_is_default row = true
    /\ forall b' row', db_branches db !! b' = Some row' -> bw_session_id row' = session_id ->
         bw_is_default row' = true -> b' = b;
  xb_parents : forall b row parent, db_branches db !! b = Some row -> bw_session_id row = session_id ->
    bw_parent_branch_id row = Some parent ->
    exists row', db_branches db !! parent = Some row' /\ bw_session_id row' = session_id;
  xb_parent_events : forall b row event_id, db_branches db !! b = Some row ->
    bw_session_id row = session_id -> bw_parent_event_id row = Some event_id ->
    exists stored, stored ∈ session_log session_id db /\ ev_event_id stored.2 = event_id
      /\ forall parent, bw_parent_branch_id row = Some parent -> ev_branch_id stored.2 = parent;
  xb_chunks : forall stored chunk_id row, stored ∈ session_log session_id db ->
    refers_to stored.2 chunk_id -> db_raw_chunks db !! chunk_id = Some row ->
    rc_branch_id row = Some (ev_branch_id stored.2);
}.

(** The records of the export. *)
Definition session_records (session_id : SessionId) (db : Db) : Result (list SessionBundleEventRecord) :=
  chunks ← load_all_raw_chunks session_id db;
  built ← build_event_records (session_log session_id db) (prepare_raw_chunks chunks).2;
  Ok built.1.

Lemma session_log_ids session_id db :
  reachable db -> NoDup ((fun stored => ev_event_id stored.2) <$> session_log session_id db).
Proof.
  intros Hr%reachable_log_ok. pose proof (lo_ids _ Hr) as Hn. unfold session_log, load_session_event_log.
  change (map stored_event) with (fmap (M:=list) stored_event). rewrite <- list_fmap_compose.
  assert (forall l, NoDup ((fun logged : Z * EventEnvelope => ev_event_id logged.2) <$> l) ->
    NoDup (((fun stored : Z * EventEnvelope => ev_event_id stored.2) ∘ stored_event)
      <$> List.filter (in_session session_id) l)) as Hsub; [|by apply Hsub].
  clear. intros l. induction l as [|[seq e] l IH]; simpl; [constructor|].
  intros [Hn Hl]%NoDup_cons. destruct (in_session _ _); simpl; [|by apply IH].
  apply NoDup_cons. split; [|by apply IH]. intros ([seq' e'] & He & Hin)%list_elem_of_fmap.
  apply Hn. simpl in He. rewrite He. apply list_elem_of_In, filter_In in Hin as [Hin _].
  by apply (list_elem_of_fmap_2 (fun logged : Z * EventEnvelope => ev_event_id logged.2) _ (seq', e')), list_elem_of_In.
Qed.

Lemma session_log_session session_id db stored :
  stored ∈ session_log session_id db -> ev_session_id stored.2 = session_id.
Proof.
  unfold session_log, load_session_event_log. intros ([seq e] & -> & Hin)%list_elem_of_fmap.
  apply list_elem_of_In, filter_In in Hin as [_ Hs]. by apply bool_decide_eq_true in Hs.
Qed.

Lemma built_latest hashes o events records infos branch_id :
  built hashes o events records infos ->
  ei_event_id <$> latest_of infos branch_id
  = (fun stored : Z * EventEnvelope => ev_event_id stored.2) <$>
      List.find (fun stored => bool_decide (ev_branch_id stored.2 = branch_id)) (reverse events).
Proof.
  intros Hb. unfold latest_of.
  induction Hb as [o|o s es r rs i is_ (pe & refs & h & _ & _ & _ & ->) _ IH]; [done|].
  rewrite !reverse_cons.
  assert (forall {A} (p : A -> bool) l a, List.find p (l ++ [a])
    = match List.find p l with Some x => Some x | None => if p a then Some a else None end) as Hsnoc.
  { intros A p l a. induction l as [|x l IHl]; simpl; [done|]. by destruct (p x). }
  rewrite !Hsnoc. simpl. revert IH.
  destruct (List.find _ (reverse is_)), (List.find _ (reverse es)); simpl; try done.
  intros _. by case_bool_decide.
Qed.

Lemma built_elem hashes o events records infos info :
  built hashes o events records infos -> info ∈ infos ->
  exists stored, stored ∈ events /\ ev_event_id stored.2 = ei_event_id info
    /\ ev_branch_id stored.2 = ei_branch_id info.
Proof.
  induction 1 as [o|o s es r rs i is_ (pe & refs & h & _ & _ & _ & ->) _ IH]; [by intros ?%elem_of_nil|].
  intros [->|Hi]%elem_of_cons; [exists s; split; [left|done]|].
  destruct (IH Hi) as (x & ? & ?). exists x. split; [by right|done].
Qed.

Lemma built_elem_r hashes o events records infos stored :
  built hashes o events records infos -> stored ∈ events ->
  exists info, info ∈ infos /\ ei_event_id info = ev_event_id stored.2
    /\ ei_branch_id info = ev_branch_id stored.2.
Proof.
  induction 1 as [o|o s es r rs i is_ (pe & refs & h & _ & _ & _ & ->) _ IH]; [by intros ?%elem_of_nil|].
  intros [->|Hi]%elem_of_cons; [eexists; split; [left|done]|].
  destruct (IH Hi) as (x & ? & ?). exists x. split; [by right|done].
Qed.

Lemma parse_branch_Some id row branch :
  parse_branch_record id row = Some branch ->
  br_branch_id branch = id /\ br_session_id branch = bw_session_id row
  /\ br_parent_branch_id branch = bw_parent_branch_id row
  /\ br_parent_event_id branch = bw_parent_event_id row
  /\ br_head_event_id branch = bw_head_event_id row /\ br_is_default branch = bw_is_default row.
Proof. by intros (? & _ & [= <-])%bind_Some. Qed.

(** Rows that can be exported load as branches that can. *)
Lemma branches_exportable session_id db branches hashes records infos :
  reachable db -> exportable session_id db -> load_branches session_id db = Ok branches ->
  built hashes 0 (session_log session_id db) records infos ->
  exportable_branches session_id branches infos.
Proof.
  intros Hr [He Hh Hd Hp Hpe _] Hl Hb.
  assert (forall branch, branch ∈ branches -> exists row, db_branches db !! br_branch_id branch = Some row
    /\ bw_session_id row = session_id
    /\ parse_branch_record (br_branch_id branch) row = Some branch) as Hrow
    by (intros branch Hin; by apply (load_branches_In _ _ _ _ Hl)).
  assert (forall b row, db_branches db !! b = Some row -> bw_session_id row = session_id ->
    exists branch, branch ∈ branches /\ br_branch_id branch = b
      /\ parse_branch_record b row = Some branch) as Hbranch.
  { intros b row Hrow' Hs. destruct (parse_branch_record b row) as [branch|] eqn:Hparse.
    - destruct (parse_branch_Some _ _ _ Hparse) as (Hid & _). exists branch. split_and!; [|done|done].
      apply (load_branches_In _ _ _ _ Hl). exists row. by rewrite Hid.
    - exfalso. eapply (load_branches_complete _ _ _ _ _ Hl); eauto. }
  assert (forall b row, db_branches db !! b = Some row -> bw_session_id row = session_id ->
    b ∈ List.map br_branch_id branches) as Hname.
  { intros b row H1 H2. destruct (Hbranch _ _ H1 H2) as (branch & Hin & <- & _).
    by apply (list_elem_of_fmap_2 br_branch_id). }
  destruct (built_ids _ _ _ _ _ Hb) as (Hids & _ & _).
  split.
  - by eapply load_branches_NoDup.
  - destruct Hd as (b & row & Hb1 & Hs & Hdef & Huniq).
    destruct (Hbranch _ _ Hb1 Hs) as (branch & Hin & <- & Hparse).
    apply (count_default branches branch); [by eapply load_branches_NoDup|done| |].
    + apply parse_branch_Some in Hparse as (_ & _ & _ & _ & _ & ->). done.
    + intros branch' Hin' Hdef'. destruct (Hrow _ Hin') as (row' & Hr1 & Hr2 & Hr3).
      apply (Huniq _ _ Hr1 Hr2). apply parse_branch_Some in Hr3 as (_ & _ & _ & _ & _ & <-). done.
  - apply Forall_forall. intros branch (row & _ & <- & Hparse)%Hrow. by apply parse_branch_Some in Hparse as (_ & ? & _).
  - apply Forall_forall. intros branch (row & Hr1 & Hr2 & Hparse)%Hrow.
    rewrite (built_latest _ _ _ _ _ _ Hb). fold (latest_event session_id (br_branch_id branch) db).
    rewrite <- (Hh _ _ Hr1 Hr2). by apply parse_branch_Some in Hparse as (_ & _ & _ & _ & ? & _).
  - apply Forall_forall. intros branch (row & Hr1 & Hr2 & Hparse)%Hrow parent Hpar.
    apply parse_branch_Some in Hparse as (_ & _ & E & _). rewrite Hpar in E.
    destruct (Hp _ _ parent Hr1 Hr2) as (row' & H1 & H2); [done|]. by eapply Hname.
  - apply Forall_forall. intros branch (row & Hr1 & Hr2 & Hparse)%Hrow event_id Hev.
    apply parse_branch_Some in Hparse as (_ & _ & E1 & E2 & _). rewrite Hev in E2.
    destruct (Hpe _ _ event_id Hr1 Hr2) as (stored & Hs & <- & Hpar); [done|].
    destruct (built_elem_r _ _ _ _ _ _ Hb Hs) as (info & Hi & Hid & Hbr).
    exists info. split_and!; [done|done|]. intros parent Hparent. rewrite Hbr. apply Hpar. congruence.
  - rewrite Hids. by apply session_log_ids.
  - intros info Hi. destruct (built_elem _ _ _ _ _ _ Hb Hi) as (stored & Hs & _ & <-).
    destruct (He _ Hs) as (row & H1 & H2). by eapply Hname.
Qed.

Lemma chunks_sound chunks : sound_chunks (prepare_raw_chunks chunks).1.
Proof. intros id chunk (k & c & _ & _ & ->)%prepared_sound. by exists (Z.of_nat k), c. Qed.

(** Rows that can be exported give chunks that can. *)
Lemma chunks_exportable session_id db chunks records infos :
  exportable session_id db -> load_all_raw_chunks session_id db = Ok chunks ->
  built (prepare_raw_chunks chunks).2 0 (session_log session_id db) records infos ->
  exportable_chunks session_id (prepare_raw_chunks chunks).1 infos.
Proof.
  intros Hx Hl Hb. pose proof (built_refs _ _ _ _ _ Hb) as Hrefs. split.
  - intros id chunk (k & c & Hk & _ & ->)%prepared_sound.
    apply list_elem_of_lookup_2 in Hk. destruct (load_chunks_In _ _ _ _ Hl Hk) as (row & _ & Hs & Hp).
    apply bind_Some in Hp as (? & _ & [= <-]). done.
  - intros info ref chunk Hi Hr Hc. destruct (prepared_sound _ _ _ Hc) as (k & c & Hk & Hid & ->).
    destruct (built_refers _ _ _ _ _ _ _ Hb Hi Hr) as (stored & Hs & Href & _ & Hbr).
    apply list_elem_of_lookup_2 in Hk. destruct (load_chunks_In _ _ _ _ Hl Hk) as (row & Hrow & _ & Hp).
    rewrite Hid in Hrow. pose proof (xb_chunks _ _ Hx _ _ _ Hs Href Hrow) as E.
    apply bind_Some in Hp as (? & _ & [= <-]). simpl. by rewrite E, Hbr.
  - intros id1 id2 chunk1 chunk2 H1 H2 Ho.
    destruct (prepared_sound _ _ _ H1) as (k1 & c1 & Hk1 & _ & ->).
    destruct (prepared_sound _ _ _ H2) as (k2 & c2 & Hk2 & _ & ->). simpl in Ho.
    apply Nat2Z.inj in Ho as <-. congruence.
  - eapply Forall_impl; [exact Hrefs|]. by intros info (? & _ & ?).
Qed.

(** Two chunks of the session have different bytes with one digest. *)
Definition chunks_collide (session_id : SessionId) (db : Db) : Prop :=
  exists id1 id2 row1 row2,
    db_raw_chunks db !! id1 = Some row1 /\ rc_session_id row1 = session_id
    /\ db_raw_chunks db !! id2 = Some row2 /\ rc_session_id row2 = session_id
    /\ collide (rc_content row1) (rc_content row2).

(** The bytes of a prepared chunk are those of a row of the session. *)
Lemma prepared_bytes session_id db chunks id x :
  load_all_raw_chunks session_id db = Ok chunks -> (prepare_raw_chunks chunks).1 !! id = Some x ->
  xr_content x = content_of (xr_bytes x)
  /\ exists row, db_raw_chunks db !! id = Some row /\ rc_session_id row = session_id
       /\ rc_content row = xr_bytes x.
Proof.
  intros Hl (k & c & Hk & <- & ->)%prepared_sound. split; [done|].
  destruct (load_chunks_In _ _ _ _ Hl (list_elem_of_lookup_2 _ _ _ Hk)) as (row & Hrow & Hs & Hp).
  exists row. split_and!; [done|done|]. by apply bind_Some in Hp as (? & _ & [= <-]).
Qed.

(** Either equal hashes mean equal bytes, or two chunks collide. *)
Lemma clash_or_collision session_id db chunks :
  load_all_raw_chunks session_id db = Ok chunks ->
  no_clash (prepare_raw_chunks chunks).1 \/ chunks_collide session_id db.
Proof.
  intros Hl. set (by_id := (prepare_raw_chunks chunks).1).
  destruct (decide (map_Forall (fun _ a => map_Forall (fun _ b =>
    cr_hash (xr_content a) = cr_hash (xr_content b) -> xr_bytes a = xr_bytes b) by_id) by_id))
    as [Hall|Hno].
  - left. intros id1 id2 a b Ha Hb. exact (Hall id1 a Ha id2 b Hb).
  - right. apply map_not_Forall in Hno as (id1 & a & Ha & Hno); [|apply _].
    apply map_not_Forall in Hno as (id2 & b & Hb & Hno); [|apply _].
    destruct (decide (cr_hash (xr_content a) = cr_hash (xr_content b))) as [E|Hne];
      [|by exfalso; apply Hno].
    destruct (prepared_bytes _ _ _ _ _ Hl Ha) as (Hca & row1 & H1 & Hs1 & Hc1).
    destruct (prepared_bytes _ _ _ _ _ Hl Hb) as (Hcb & row2 & H2 & Hs2 & Hc2).
    exists id1, id2, row1, row2. split_and!; try done. rewrite Hc1, Hc2.
    rewrite Hca, Hcb in E. destruct (same_hash_same_bytes _ _ E) as [Hsame|]; [|done].
    by exfalso; apply Hno.
Qed.

(** Nothing is exported besides the trace by default. *)
Lemma default_artifacts session w artifacts w' :
  export_artifacts session default_export_options w = Ok (artifacts, w') -> artifacts = [] /\ w' = w.
Proof. unfold export_artifacts. simpl. by intros [= <- <-]. Qed.


(** ** The references against the files *)

Section state.
Context (by_id : gmap Z ExportedRawChunkInfo) (infos : list EventRecordInfo) (st : RawRefs)
  (files : list string) (Hsound : sound_chunks by_id)
  (Hst : refs_state by_id (event_refs infos) st files).

Lemma sound_content_of id chunk : by_id !! id = Some chunk -> xr_content chunk = content_of (xr_bytes chunk).
Proof. intros (o & record & ->)%Hsound. apply sound_content. Qed.

Lemma ref_contents :
  Forall (fun raw_ref => exists b, rx_content raw_ref = content_of b /\ b ∈ files) (rr_refs st).
Proof.
  apply Forall_forall. intros raw_ref (i & Hi)%list_elem_of_lookup.
  destruct (Forall2_lookup_r _ _ _ _ _ (rs_refs _ _ _ _ Hst) Hi) as (p & Hp & chunk & Hc & _ & ->).
  exists (xr_bytes chunk). split; [by apply (sound_content_of _ _ Hc)|].
  apply (rs_files _ _ _ _ Hst). exists p, chunk. split_and!; [by apply list_elem_of_lookup_2 in Hp|done|done].
Qed.

Lemma ref_hashes h :
  h ∈ List.map (fun raw_ref => cr_hash (rx_content raw_ref)) (rr_refs st)
  <-> exists b, b ∈ files /\ h = hash_bytes b.
Proof.
  split.
  - intros (raw_ref & -> & Hin)%list_elem_of_fmap. pose proof ref_contents as Hall.
    rewrite Forall_forall in Hall. destruct (Hall _ Hin) as (b & -> & Hb). by exists b.
  - intros (b & (p & chunk & Hp & Hc & <-)%(rs_files _ _ _ _ Hst) & ->).
    apply list_elem_of_lookup in Hp as (i & Hi).
    destruct (Forall2_lookup_l _ _ _ _ _ (rs_refs _ _ _ _ Hst) Hi) as (raw_ref & Hraw & chunk' & Hc' & _ & ->).
    assert (chunk' = chunk) as -> by congruence.
    apply list_elem_of_fmap. exists (ref_of p.1 chunk). split; [|by apply list_elem_of_lookup_2 in Hraw].
    simpl. by rewrite (sound_content_of _ _ Hc).
Qed.

Lemma stored_contents c :
  (exists h, rr_contents_by_hash st !! h = Some c) <-> exists b, b ∈ files /\ c = content_of b.
Proof.
  split.
  - intros (h & (b & Hb & -> & ->)%(rs_contents _ _ _ _ Hst)). by exists b.
  - intros (b & Hb & ->). exists (hash_bytes b). apply (rs_contents _ _ _ _ Hst). by exists b.
Qed.
End state.

(** The contents the events refer to are files. *)
Lemma content_refs_stored chunks o events records infos st files info h :
  built (prepare_raw_chunks chunks).2 o events records infos ->
  refs_state (prepare_raw_chunks chunks).1 (event_refs infos) st files ->
  info ∈ infos -> h ∈ ei_raw_chunk_content_refs info -> exists b, b ∈ files /\ h = hash_bytes b.
Proof.
  intros Hb Hst Hi Hh. pose proof (built_refs _ _ _ _ _ Hb) as Hall. rewrite Forall_forall in Hall.
  destruct (Hall _ Hi) as (Hcr & Hrefs & _). rewrite Hcr in Hh.
  apply list_elem_of_fmap in Hh as (ref & -> & Hr). rewrite Forall_forall in Hrefs.
  destruct (prepared_chunk _ _ _ (Hrefs _ Hr)) as (k & c & _ & _ & Hc & ->).
  exists (rk_content c). split; [|done]. apply (rs_files _ _ _ _ Hst).
  exists (info, ref), (exported_chunk (Z.of_nat k) c). split_and!; [by apply elem_of_event_refs|done|done].
Qed.

Lemma load_session_id session_id db session :
  load_session session_id db = Ok (Some session) -> se_session_id session = session_id.
Proof.
  unfold load_session. destruct (db_sessions db !! session_id) as [row|]; [|done].
  intros (s & Hs%ok_or_Ok & [= <-])%result_bind_Ok. unfold parse_session_record in Hs.
  apply bind_Some in Hs as (? & _ & (? & _ & Hs)%bind_Some). by repeat (case_match || simplify_eq/=).
Qed.

(** The steps of a default export, as what validation needs. *)
Lemma export_validated db session_id manifest dir session branches chunks records infos refs contents
    artifacts w1 w2 b1 b2 b3 b4 :
  reachable db -> exportable session_id db -> Forall exact_event records ->
  exported db session_id default_export_options manifest dir session branches chunks records infos
    refs contents artifacts w1 w2 b1 b2 b3 b4 ->
  (exists checksums hashes, validated dir manifest b3 checksums refs hashes records (List.map strip infos)
     /\ mf_bundle_hash manifest = hash_bytes b3 /\ se_session_id (mf_session manifest) = session_id
     /\ length records = length (session_log session_id db)) \/ chunks_collide session_id db.
Proof.
  intros Hr Hx Hexact [].
  pose proof (build_records_built _ _ _ _ _ xp_records) as Hb.
  destruct (clash_or_collision _ _ _ xp_chunks) as [Hclash|]; [left|by right].
  destruct (raw_refs_state _ _ _ _ _ (chunks_sound chunks) Hclash xp_refs)
    as (st & files & Hst & -> & -> & Hcontents).
  destruct (default_artifacts _ _ _ _ xp_artifacts) as [-> ->].
  destruct xp_refs_of_artifacts as (nodes & [= <-] & Hmanifest).
  pose proof (branches_exportable _ _ _ _ _ _ Hr Hx xp_branches Hb) as Hbr.
  pose proof (chunks_exportable _ _ _ _ _ Hx xp_chunks Hb) as Hch.
  pose proof (xp_dir _ (rs_log _ _ _ _ Hst)) as Hdir. fold (full_log files b1 b2 b3 b4) in Hdir.
  pose proof (full_log_good files b1 b2 b3 b4 (rs_once _ _ _ _ Hst)) as Hg.
  pose proof (load_session_id _ _ _ xp_session) as Hsid.
  assert (forall c, c ∈ mf_contents manifest <-> exists b, b ∈ files /\ c = content_of b) as Hmc.
  { intros c. rewrite Hmanifest. simpl. rewrite merge_sort_Permutation, app_nil_r, Hcontents.
    apply (stored_contents _ _ _ _ Hst). }
  assert (forall h, h ∈ content_hashes (mf_contents manifest) <-> exists b, b ∈ files /\ h = hash_bytes b) as Hmh.
  { intros h. unfold content_hashes. rewrite elem_of_list_to_set. split.
    - intros (c & -> & (b & Hb' & ->)%Hmc)%list_elem_of_fmap. by exists b.
    - intros (b & Hb' & ->). apply list_elem_of_fmap. exists (content_of b). split; [done|]. apply Hmc. by exists b. }
  assert (forall file, file ∈ full_log files b1 b2 b3 b4 -> fs_read dir file.1 = Some file.2) as Hread.
  { intros [path bytes] Hin. rewrite Hdir. by apply fs_read_dir_of. }
  assert (forall b, b ∈ files -> fs_read dir (raw_chunk_path (hash_bytes b)) = Some b) as Hfile.
  { intros b Hb'. apply (Hread (raw_chunk_path (hash_bytes b), b)). apply elem_of_app. left.
    by apply (list_elem_of_fmap_2 (fun b => (raw_chunk_path (hash_bytes b), b))). }
  destruct (verify_chunks dir (rr_refs st) ∅) as (hashes & Hhashes & Hmem).
  { eapply Forall_impl; [apply (ref_contents _ _ _ _ (chunks_sound chunks) Hst)|].
    intros raw_ref (b & Hc & Hb'). exists b. split; [done|by apply Hfile]. }
  assert (forall h, h ∈ hashes <-> exists b, b ∈ files /\ h = hash_bytes b) as Hh.
  { intros h. rewrite Hmem, elem_of_empty, (ref_hashes _ _ _ _ (chunks_sound chunks) Hst). tauto. }
  pose proof xp_checksums_bytes as Hck. rewrite (wo_checksums _ _ (rs_log _ _ _ _ Hst)) in Hck.
  assert (forall file, file ∈ [(SESSION_BT_EVENTS, b1); (SESSION_BT_RAW_CHUNK_REFS, b2);
    (SESSION_BT_CHECKSUMS, b3); (SESSION_BT_MANIFEST, b4)] -> fs_read dir file.1 = Some file.2) as Hroot
    by (intros file Hin; apply Hread, elem_of_app; by right).
  rewrite Forall_forall in Hexact.
  destruct (built_ids _ _ _ _ _ Hb) as (Hids & _ & Hlen).
  eexists _, hashes. split; [|rewrite Hmanifest; split_and!; [done|done|]].
  2: { rewrite Hlen. apply (f_equal length) in Hids. by rewrite !length_map in Hids. }
  split.
  - unfold read_json. rewrite (Hroot (SESSION_BT_MANIFEST, b4) ltac:(rewrite !elem_of_cons; tauto) : fs_read dir SESSION_BT_MANIFEST = Some b4).
    simpl. by apply read_write_manifest.
  - by rewrite Hmanifest.
  - apply (Hroot (SESSION_BT_CHECKSUMS, b3)). rewrite !elem_of_cons. tauto.
  - by rewrite Hmanifest.
  - by apply read_write_checksums.
  - done.
  - rewrite Hdir. apply export_closed; [apply Hst|done].
  - cbn [cs_files]. apply Forall_forall. intros entry Hin. rewrite merge_sort_Permutation, <- map_app in Hin.
    apply list_elem_of_fmap in Hin as (file & -> & Hin). rewrite Hdir. apply verify_entry; [done|].
    unfold full_log. apply elem_of_app. apply elem_of_app in Hin as [?|Hin]; [by left|right].
    rewrite !elem_of_cons in *. tauto.
  - eapply read_written; [exact xp_refs_bytes| |].
    + apply (Hroot (SESSION_BT_RAW_CHUNK_REFS, b2)). rewrite !elem_of_cons. tauto.
    + intros item line _ Hw. split; [by eapply write_raw_ref_line|by apply read_write_raw_ref].
  - done.
  - apply Forall_forall. intros c (b & Hb' & ->)%Hmc. unfold verify_manifest_content. simpl.
    apply verify_content_of. by apply Hfile.
  - apply result_bind_Ok. exists tt. split.
    + apply try_iter_Ok, Forall_forall. intros h Hin. unfold sorted_hashes in Hin.
      rewrite merge_sort_Permutation, elem_of_elements in Hin. apply reject_when. intros Hno.
      by apply Hno, Hmh, Hh.
    + apply try_iter_Ok, Forall_forall. intros c (b & Hb' & ->)%Hmc. cbn [content_of cr_path].
      apply reject_if_Ok, andb_false_iff. right. apply bool_decide_eq_false. intros Hno.
      apply Hno, Hh. by exists b.
  - eapply read_written; [exact xp_events_bytes| |].
    + apply (Hroot (SESSION_BT_EVENTS, b1)). rewrite !elem_of_cons. tauto.
    + intros item line Hin Hw. split; [by eapply write_event_line|apply read_write_event; auto].
  - unfold validate_event_records. eapply validate_built; [exact Hb| | | |].
    + apply Forall_forall. intros stored Hin%session_log_session. by rewrite Hmanifest, Hin.
    + apply Hbr.
    + by intros info _ ?%elem_of_empty.
    + intros info h Hi Hhh. rewrite Hmh, Hh. split; by eapply content_refs_stored.
  - eapply raw_refs_valid; [exact Hch|by rewrite Hmanifest| |apply Hbr|apply Hbr|apply Hst].
    rewrite Hmanifest. unfold branch_set. simpl. by rewrite branch_names.
  - eapply branches_valid; [exact Hbr|by rewrite Hmanifest|by rewrite Hmanifest].
  - eapply ranges_valid; [by eapply built_ordinals|apply Hbr|by rewrite Hmanifest].
  - rewrite Hmanifest. unfold validate_manifest_artifacts. simpl. done.
Qed.

(** C17. Every exported bundle is valid.  When the branches of a session are
    as the runtime leaves them, the directory an export of its trace writes
    passes the whole validation, with the bundle hash of the returned
    manifest and all the events of the session, unless two chunks of this
    session have different bytes with the same SHA-256 digest.  As the runtime
    leaves them ([exportable]): every event is on a branch of the session, a
    branch's head is its latest event, its parents are in the session, one
    branch is the default, and a chunk is on the branch of the events that
    refer to it.  And the numbers of the records must survive being written
    and read as JSON ([exact_event]). *)
Theorem exported_bundle_validates db session_id output_dir output manifest dir :
  reachable db -> exportable session_id db ->
  (forall records, session_records session_id db = Ok records -> Forall exact_event records) ->
  export_session_bundle_directory db session_id output_dir output default_export_options
    = Ok (manifest, dir) ->
  (exists report, validate_session_bundle_directory dir = Ok report
     /\ vr_bundle_hash report = mf_bundle_hash manifest
     /\ vr_session_id report = session_id
     /\ vr_event_count report = len (session_log session_id db))
  \/ chunks_collide session_id db.
Proof.
  intros Hr Hx Hexact (session & branches & chunks & records & infos & refs & contents & artifacts
    & w1 & w2 & b1 & b2 & b3 & b4 & Hexp)%export_Ok.
  assert (Forall exact_event records) as Hrec.
  { apply Hexact. unfold session_records, session_log. destruct Hexp.
    rewrite xp_chunks. simpl. by rewrite xp_records. }
  destruct (export_validated _ _ _ _ _ _ _ _ _ _ _ _ _ _ _ _ _ _ Hr Hx Hrec Hexp)
    as [(checksums & hashes & Hv & Hh & Hs & Hlen)|]; [left|by right].
  eexists. split; [apply validate_Ok; eauto 10|]. simpl. split_and!; [done|done|].
  unfold len. by rewrite Hlen.
Qed.
End theorem.

(** ** An export to run the theorems on *)

#[local] Existing Instance unary_codec.
#[local] Instance sample_bundle_codec : BundleCodec :=
  export_codec bundle_db (MkUuid 1) default_export_options.
#[local] Instance sample_bundle_laws : BundleCodecLaws.
Proof. apply table_laws. vm_compute. reflexivity. Qed.

Definition bundle_branch_row : BranchRow :=
  MkBranchRow (MkUuid 1) None None (Some (MkUuid 3)) None (unary 1) true.

Lemma bundle_branches : db_branches bundle_db = {[MkUuid 2 := bundle_branch_row]}.
Proof. vm_compute. reflexivity. Qed.

Lemma bundle_exportable : exportable (MkUuid 1) bundle_db.
Proof.
  assert (Forall (fun stored => ev_branch_id stored.2 = MkUuid 2) (session_log (MkUuid 1) bundle_db)) as Hlog
    by (vm_compute; repeat (apply List.Forall_cons; [reflexivity|]); apply List.Forall_nil).
  rewrite Forall_forall in Hlog.
  split; rewrite ?bundle_branches.
  - intros stored ->%Hlog. exists bundle_branch_row. by rewrite lookup_singleton_eq.
  - intros b row [<- <-]%lookup_singleton_Some _. vm_compute. reflexivity.
  - exists (MkUuid 2), bundle_branch_row. rewrite lookup_singleton_eq. split_and!; try done.
    by intros b' row' [<- <-]%lookup_singleton_Some.
  - by intros b row parent [<- <-]%lookup_singleton_Some.
  - by intros b row event_id [<- <-]%lookup_singleton_Some.
  - intros stored chunk_id row ->%Hlog _ Hrow.
    assert (map_Forall (fun _ row => rc_branch_id row = Some (MkUuid 2)) (db_raw_chunks bundle_db)) as Hall.
    { apply map_Forall_to_list. vm_compute. apply List.Forall_cons; [reflexivity|apply List.Forall_nil]. }
    by apply (Hall _ _ Hrow).
Qed.

Lemma exported_bundle_validates_witness :
  exists manifest dir report, sample_export = Ok (manifest, dir)
    /\ validate_session_bundle_directory dir = Ok report /\ vr_event_count report = 3.
Proof.
  assert (is_ok sample_export = true) as Hok by (vm_compute; reflexivity).
  destruct sample_export as [[manifest dir]|e] eqn:E; [|discriminate Hok].
  destruct (exported_bundle_validates bundle_db (MkUuid 1) "/out" OutputMissing manifest dir
    bundle_db_reachable bundle_exportable) as [(report & Hv & _ & _ & Hc)|(i & j & r1 & r2 & _ & _ & _ & _ & Hne & Hab)].
  - intros records _. apply Forall_forall. intros record _. exact I.
  - exact E.
  - exists manifest, dir, report. split; [reflexivity|]. split; [exact Hv|].
    rewrite Hc. vm_compute. reflexivity.
  - destruct (Hne Hab).
Defined.

(** Two artifacts with different ids and one file name. *)
Definition colliding_options : SessionBundleExportOptions :=
  MkExportOptions TracePlusArtifacts
    [MkArtifactInput (Some "a/b") "k" (ArtifactBytes "n" "first" None);
     MkArtifactInput (Some "a_b") "k" (ArtifactBytes "n" "second" None)].

Definition colliding_export : Result (SessionBundleManifest * Dir) :=
  @export_session_bundle_directory _ (export_codec bundle_db (MkUuid 1) colliding_options) _
    bundle_db (MkUuid 1) "/out" OutputMissing colliding_options.

Lemma colliding_artifacts_refused_witness :
  exists manifest dir, colliding_export = Ok (manifest, dir)
    /\ forall report, @validate_session_bundle_directory _
         (export_codec bundle_db (MkUuid 1) colliding_options) dir <> Ok report.
Proof.
  assert (is_ok colliding_export = true) as Hok by (vm_compute; reflexivity).
  destruct colliding_export as [[manifest dir]|e] eqn:E; [|discriminate Hok].
  exists manifest, dir. split; [reflexivity|].
  refine (@colliding_artifacts_refused _ (export_codec bundle_db (MkUuid 1) colliding_options) _
    (table_laws _ _ _ _ _) bundle_db (MkUuid 1) "/out" OutputMissing colliding_options manifest dir
    0%nat 1%nat "a/b" "a_b" "k" "k" "n" "n" "first" "second" None None _ _ _ _ E);
    [vm_compute; reflexivity|reflexivity|reflexivity|discriminate|vm_compute; reflexivity].
Defined.

(** The exported directory, and one whose manifest names another producer. *)
Definition sample_manifests : list SessionBundleManifest :=
  match sample_export with
  | Ok (m, _) =>
      [m; MkSessionBundleManifest (mf_schema_version m) (mf_bundle_hash m) (mf_session m)
            (mf_branches m) (mf_event_ranges m) (MkProducerInfo "other" "1") (mf_redaction m)
            (mf_artifact_mode m) (mf_contents m) (mf_artifacts m)]
  | Err _ => []
  end.
Definition two_producers : BundleCodec :=
  table_codec (events_table bundle_db (MkUuid 1)) (refs_table bundle_db (MkUuid 1))
    (checksums_table bundle_db (MkUuid 1) default_export_options) sample_manifests.
Definition sample_dir : Dir := match sample_export with Ok (_, dir) => dir | Err _ => ∅ end.
Definition other_dir : Dir := <[[SESSION_BT_MANIFEST] := line_of 1]> sample_dir.

#[local] Instance proper_dec c : Decision (proper c).
Proof. unfold proper. apply _. Defined.
#[local] Instance dir_ok_dec dir : Decision (dir_ok dir).
Proof. unfold dir_ok. apply _. Defined.

Lemma bundle_hash_pins_files_witness :
  sample_dir <> other_dir
  /\ exists report1 report2,
       @validate_session_bundle_directory _ two_producers sample_dir = Ok report1
       /\ @validate_session_bundle_directory _ two_producers other_dir = Ok report2
       /\ sample_dir !! [SESSION_BT_EVENTS] = other_dir !! [SESSION_BT_EVENTS].
Proof.
  split.
  { intros E. apply (f_equal (lookup [SESSION_BT_MANIFEST])) in E. vm_compute in E. discriminate E. }
  assert (is_ok (@validate_session_bundle_directory _ two_producers sample_dir) = true) as H1
    by (vm_compute; reflexivity).
  assert (is_ok (@validate_session_bundle_directory _ two_producers other_dir) = true) as H2
    by (vm_compute; reflexivity).
  assert (vr_bundle_hash <$> @validate_session_bundle_directory _ two_producers sample_dir
    = vr_bundle_hash <$> @validate_session_bundle_directory _ two_producers other_dir) as H3
    by (vm_compute; reflexivity).
  destruct (@validate_session_bundle_directory _ two_producers sample_dir) as [report1|] eqn:E1; [|discriminate H1].
  destruct (@validate_session_bundle_directory _ two_producers other_dir) as [report2|] eqn:E2; [|discriminate H2].
  exists report1, report2. split; [reflexivity|]. split; [reflexivity|].
  destruct (@bundle_hash_pins_files _ two_producers sample_dir other_dir report1 report2 [SESSION_BT_EVENTS])
    as [H|(cs & a & b & _ & _ & Hne & Hab)].
  - apply (bool_decide_eq_true_1 _). vm_compute. reflexivity.
  - apply (bool_decide_eq_true_1 _). vm_compute. reflexivity.
  - exact E1.
  - exact E2.
  - injection H3 as H3. exact H3.
  - discriminate.
  - exact H.
  - destruct (Hne Hab).
Defined.
