(* ===== verification/BundleImportLaws.v ===== *)
(** * Importing a bundle

    Chunks get new local numbers and events new sequence numbers, and both
    are exported again as what the bundle held: a round trip through another
    store keeps every event record, and with it every event hash. *)

From stdpp Require Import base list strings gmap sorting.
From Stdlib Require Import ZArith Lia Ascii.
From S2P Require Import Prelude Text Json Types TurnProjection Store StoreOps StoreRelated StoreLaws.
From S2P Require Import StoreReplay StoreQueries Bundle BundleFiles BundleExport BundleImport BundleLaws.
From S2P Require Import BundleWritten BundleChecks BundleExportLaws BundleSample BundleRoundtrip.

#[local] Open Scope Z_scope.

Section writes.
Context `{codec : RowCodec}.

(** ** The transaction *)

Lemma payload_chunks event seq_id db u db' :
  refresh_payload event seq_id db = Ok (u, db') -> db_raw_chunks db' = db_raw_chunks db.
Proof. intros H. payload_cases H; done. Qed.

Lemma append_chunks event db seq_id db' :
  append_event_in_tx event db = Ok (seq_id, db') -> db_raw_chunks db' = db_raw_chunks db.
Proof. by intros (_ & _ & now & turns & _ & _ & ->%payload_chunks)%append_event_Ok. Qed.

Lemma append_all events db seqs db' :
  append_events_in_tx events db = Ok (seqs, db') ->
  db_raw_chunks db' = db_raw_chunks db /\ length seqs = length events
  /\ db_events db' = db_events db ++ zip seqs events.
Proof.
  unfold append_events_in_tx. revert db seqs. induction events as [|event events IH]; intros db seqs H.
  - simpl in H. invert_tx. by rewrite app_nil_r.
  - cbn [tx_map] in H. apply tx_bind_Ok in H as (seq & d & H1 & H).
    apply tx_bind_Ok in H as (rest & d' & H & [-> ->]%tx_ret_Ok). apply IH in H as (Hc & Hl & He).
    pose proof (append_chunks _ _ _ _ H1) as Hc'. apply append_log in H1 as (_ & _ & He' & _).
    rewrite Hc, Hc', He, He'. simpl. rewrite Hl, <- (assoc_L (++)). done.
Qed.

(** A row of [raw_chunks] that holds an inserted chunk. *)
Definition holds_chunk (row : RawChunkRow) (insert : RawChunkInsert) : Prop :=
  rc_session_id row = ri_session_id insert /\ rc_content row = ri_content insert
  /\ is_Some (format_time (ri_received_at insert))
  /\ format_time (ri_received_at insert) = Some (rc_received_at row).

Lemma insert_chunk_Ok insert db id db' :
  append_raw_chunk_in_tx insert db = Ok (id, db') ->
  id = db_last_chunk db + 1 /\ db_last_chunk db' = id /\ db_events db' = db_events db
  /\ exists row, db_raw_chunks db' = <[id := row]> (db_raw_chunks db) /\ holds_chunk row insert.
Proof.
  unfold append_raw_chunk_in_tx, insert_raw_chunk. intros H. invert_tx.
  case_match; invert_tx. split_and!; try done. eexists. split; [done|]. split_and!; eauto.
Qed.

Lemma insert_chunks_keep inserts db ids db' id :
  tx_map append_raw_chunk_in_tx inserts db = Ok (ids, db') -> id ∉ ids ->
  db_raw_chunks db' !! id = db_raw_chunks db !! id.
Proof.
  revert db ids. induction inserts as [|insert inserts IH]; intros db ids H Hid.
  - by apply tx_ret_Ok in H as [-> ->].
  - cbn [tx_map] in H. apply tx_bind_Ok in H as (i & d & (_ & _ & _ & row & Hrow & _)%insert_chunk_Ok & H).
    apply tx_bind_Ok in H as (rest & d' & H & [-> ->]%tx_ret_Ok).
    rewrite not_elem_of_cons in Hid. destruct Hid as [Hne Hid].
    by rewrite (IH _ _ H Hid), Hrow, lookup_insert_ne.
Qed.

Lemma insert_chunks_Ok inserts db ids db' :
  tx_map append_raw_chunk_in_tx inserts db = Ok (ids, db') ->
  db_events db' = db_events db /\ Forall (fun id => db_last_chunk db < id) ids
  /\ Forall2 (fun insert id => exists row, db_raw_chunks db' !! id = Some row /\ holds_chunk row insert)
       inserts ids
  /\ forall id row, db_raw_chunks db' !! id = Some row ->
       db_raw_chunks db !! id = Some row \/ exists insert, insert ∈ inserts /\ holds_chunk row insert.
Proof.
  revert db ids. induction inserts as [|insert inserts IH]; intros db ids H.
  - apply tx_ret_Ok in H as [-> ->]. split_and!; [done|constructor|constructor|].
    intros id row Hr. by left.
  - cbn [tx_map] in H. apply tx_bind_Ok in H as (i & d & (-> & Hlast & He & row & Hrow & Hh)%insert_chunk_Ok & H).
    apply tx_bind_Ok in H as (rest & d' & H & [-> ->]%tx_ret_Ok).
    pose proof (insert_chunks_keep _ _ _ _ (db_last_chunk db + 1) H) as Hkeep.
    apply IH in H as (He' & Hids & Hall & Hsrc). rewrite Hlast in Hids. split_and!.
    + by rewrite He', He.
    + constructor; [lia|]. eapply Forall_impl; [exact Hids|]. simpl. intros. lia.
    + constructor; [|done]. exists row. split; [|done].
      rewrite Hkeep, Hrow, lookup_insert_eq; [done|]. intros Hin. rewrite Forall_forall in Hids.
      apply Hids in Hin. lia.
    + intros id row' [Hr|(x & Hx & Hr)]%Hsrc; [|right; exists x; split; [by right|done]].
      rewrite Hrow in Hr. apply lookup_insert_Some in Hr as [[_ <-]|[_ Hr]]; [|by left].
      right. exists insert. split; [left|done].
Qed.

(** Sessions, settings and branches leave the log and the chunks alone. *)
Lemma import_frame session branches db u1 db1 u2 db2 l db3 :
  insert_session_in_tx session db = Ok (u1, db1) ->
  insert_session_settings_revision_in_tx session db1 = Ok (u2, db2) ->
  tx_map insert_branch_in_tx branches db2 = Ok (l, db3) ->
  db_events db3 = db_events db /\ db_raw_chunks db3 = db_raw_chunks db.
Proof.
  intros H1 H2 H3.
  assert (db_events db2 = db_events db /\ db_raw_chunks db2 = db_raw_chunks db) as [<- <-].
  { unfold insert_session_in_tx in H1. unfold insert_session_settings_revision_in_tx in H2.
    invert_tx. by repeat (case_match; invert_tx). }
  clear H1 H2. revert db2 l H3. induction branches as [|branch branches IH]; intros db2 l H.
  - by apply tx_ret_Ok in H as [_ ->].
  - cbn [tx_map] in H. apply tx_bind_Ok in H as (v & d & Hb & H).
    apply tx_bind_Ok in H as (rest & d' & H & [-> ->]%tx_ret_Ok). apply IH in H as [-> ->].
    unfold insert_branch_in_tx in Hb. invert_tx. by case_match; invert_tx.
Qed.
End writes.

Section events.
Context `{codec : RowCodec} `{bundle : BundleCodec} `{blaws : !BundleCodecLaws}.

(** ** Events, there and back *)

Lemma manifest_trip manifest : portable_manifest (manifest_to_live manifest) = manifest.
Proof.
  destruct manifest. unfold portable_manifest, manifest_to_live. simpl. f_equal.
  rewrite map_map. induction pn_messages as [|m ms IH]; simpl; [done|]. rewrite IH. by destruct m.
Qed.

Lemma compacted_trip compaction : portable_compacted (compacted_to_live compaction) = compaction.
Proof. by destruct compaction. Qed.

(** A payload imported and exported again: the chunk is named by its hash. *)
Lemma payload_trip_back portable event_id local_ids payload hashes :
  portable_ok portable = true -> payload_to_live portable event_id local_ids = Ok payload ->
  (forall h id, h ∈ raw_chunk_content_refs portable -> local_ids !! (event_id, h) = Some id ->
     hashes !! id = Some h) ->
  exists refs, payload_from_live payload hashes = Ok (portable, refs).
Proof.
  intros Hok H Hh. destruct portable as [o ds [h|]|p h s o|m|c|p]; simpl in H.
  - apply result_bind_Ok in H as (id & Hid%ok_or_Ok & [= <-]). simpl.
    unfold raw_chunk_ref. rewrite (Hh h id) by (done || left). simpl. eauto.
  - injection H as <-. simpl. eauto.
  - apply result_bind_Ok in H as (id & Hid%ok_or_Ok & [= <-]). simpl.
    unfold raw_chunk_ref. rewrite (Hh h id) by (done || left). simpl. eauto.
  - injection H as <-. simpl. rewrite manifest_trip. eauto.
  - injection H as <-. simpl. rewrite compacted_trip. eauto.
  - pose proof (payload_trip_same _ _ H) as ->. exists [].
    destruct p; try (simpl; rewrite H; done); done.
Qed.

(** What validation establishes of a record. *)
Definition record_ok (session_id : SessionId) (ordinal : Z) (record : SessionBundleEventRecord) : Prop :=
  er_bundle_event_ordinal record = ordinal
  /\ canonical_event_hash (er_event record) = Ok (er_event_hash record)
  /\ er_event_kind record = portable_kind (pe_payload (er_event record))
  /\ pe_session_id (er_event record) = session_id.

Fixpoint records_ok (session_id : SessionId) (ordinal : Z) (records : list SessionBundleEventRecord) : Prop :=
  match records with
  | [] => True
  | record :: records => record_ok session_id ordinal record /\ records_ok session_id (ordinal + 1) records
  end.

Lemma validate_records_ok mh ch manifest o ids records infos :
  validate_event_records_from mh ch manifest o ids records = Ok infos ->
  records_ok (se_session_id (mf_session manifest)) o records.
Proof.
  revert o ids infos. induction records as [|record records IH]; intros o ids infos; simpl; [done|].
  intros ([info ids'] & H & (rest & Hr & _)%result_bind_Ok)%result_bind_Ok. split; [|by eapply IH].
  apply result_bind_Ok in H as ([] & Ho%reject_if_Ok & (h & Hh & ([] & He%reject_unless & H)%result_bind_Ok)
    %result_bind_Ok).
  apply result_bind_Ok in H as ([] & Hk%reject_if_Ok & ([] & _ & (ids2 & _ & ([] & Hs%reject_unless & _)
    %result_bind_Ok)%result_bind_Ok)%result_bind_Ok).
  apply negb_false_iff in Ho, Hk. apply Z.eqb_eq in Ho. apply String.eqb_eq in Hk.
  split_and!; [done|by rewrite Hh, He|done|done].
Qed.

(** A live event and the record it came from. *)
Definition imported_as (hashes : gmap Z PortableHash) (record : SessionBundleEventRecord)
    (event : EventEnvelope) : Prop :=
  exists local_ids, import_event_value (er_event record) local_ids = Ok event
    /\ portable_ok (pe_payload (er_event record)) = true
    /\ forall h id, h ∈ raw_chunk_content_refs (pe_payload (er_event record)) ->
         local_ids !! (pe_event_id (er_event record), h) = Some id -> hashes !! id = Some h.

Lemma imported_event_back hashes record event seq_id :
  imported_as hashes record event ->
  exists refs, event_from_live (stored_event (seq_id, event)).2 hashes = Ok (er_event record, refs)
    /\ kind (ev_payload event) = portable_kind (pe_payload (er_event record))
    /\ ev_session_id event = pe_session_id (er_event record).
Proof.
  intros (ids & Hi & Hok & Hh). apply result_bind_Ok in Hi as (payload & Hp & [= <-]).
  destruct (payload_trip_back _ _ _ _ _ Hok Hp Hh) as [refs Hback].
  exists refs. unfold event_from_live. simpl. rewrite Hback. simpl.
  split_and!; [|by apply payload_from_live_Ok in Hback as [-> _]|done].
  by destruct record as [? ? ? []].
Qed.

(** The records of imported events are the records they came from. *)
Lemma rebuild_records hashes session_id o records events seqs :
  records_ok session_id o records -> Forall2 (imported_as hashes) records events ->
  length seqs = length events ->
  exists infos, build_event_records_from o (List.map stored_event (zip seqs events)) hashes
    = Ok (records, infos).
Proof.
  intros Hok H. revert o seqs Hok. induction H as [|record event records events Hi _ IH];
    intros o [|seq seqs] Hok Hl; simpl in *; try done; [by exists []|].
  destruct Hok as [(Ho & Hh & Hk & _) Hok]. injection Hl as Hl.
  destruct (imported_event_back _ _ _ seq Hi) as (refs & Hback & Hkind & _). simpl in Hback.
  destruct (IH (o + 1) seqs Hok Hl) as (infos & Hrest).
  rewrite Hback. simpl. rewrite Hh. simpl. rewrite Hrest. simpl.
  eexists. f_equal. f_equal. f_equal. rewrite Hkind, <- Hk, <- Ho. by destruct record.
Qed.
End events.

Section chunks.
Context `{codec : RowCodec} {laws : RowCodecLaws} `{bundle : BundleCodec}.

(** ** Chunks, by their ordinals *)

Abbreviation RefState := (gmap Z RawChunkRefIdentity * gset RawChunkImportKey)%type.

Lemma raw_ref_step (manifest : SessionBundleManifest) (by_id : gmap EventId EventRecordInfo)
    (st st' : RefState) (raw_ref : SessionBundleRawChunkRef) :
  validate_raw_chunk_ref manifest by_id st raw_ref = Ok st' ->
  (st.1 !! rx_chunk_ordinal raw_ref = None
   \/ st.1 !! rx_chunk_ordinal raw_ref = Some (raw_ref_identity raw_ref))
  /\ st'.1 = <[rx_chunk_ordinal raw_ref := raw_ref_identity raw_ref]> st.1
  /\ rx_session_id raw_ref = se_session_id (mf_session manifest).
Proof.
  destruct st as [identities seen]. intros ([] & Hs%reject_unless & (b & _ & ([] & _ & ([] & Hi & H)%result_bind_Ok)
    %result_bind_Ok)%result_bind_Ok)%result_bind_Ok.
  apply result_bind_Ok in H as (e & _ & (info & _ & ([] & _ & ([] & _ & (seen' & _ & [= <-])
    %result_bind_Ok)%result_bind_Ok)%result_bind_Ok)%result_bind_Ok). simpl in *.
  split_and!; [|done|done]. destruct (identities !! rx_chunk_ordinal raw_ref) as [i|]; [right|by left].
  by apply reject_unless in Hi as ->.
Qed.

(** References with one ordinal agree, and belong to the session. *)
Lemma refs_agree refs manifest infos :
  validate_raw_chunk_refs refs manifest infos = Ok tt ->
  Forall (fun raw_ref => rx_session_id raw_ref = se_session_id (mf_session manifest)) refs
  /\ forall r1 r2, r1 ∈ refs -> r2 ∈ refs -> rx_chunk_ordinal r1 = rx_chunk_ordinal r2 ->
       cr_hash (rx_content r1) = cr_hash (rx_content r2).
Proof.
  intros (st & Hf & _)%result_bind_Ok.
  assert (Forall (fun raw_ref => rx_session_id raw_ref = se_session_id (mf_session manifest)
    /\ st.1 !! rx_chunk_ordinal raw_ref = Some (raw_ref_identity raw_ref)) refs) as Hall.
  { revert Hf. apply (try_fold_inv (fun refs (st : RefState) =>
      Forall (fun raw_ref => rx_session_id raw_ref = se_session_id (mf_session manifest)
        /\ st.1 !! rx_chunk_ordinal raw_ref = Some (raw_ref_identity raw_ref)) refs)); [|constructor].
    intros seen r s s' _ Hseen (Hold & Hnew & Hsession)%raw_ref_step. rewrite Hnew. apply Forall_app. split.
    - eapply Forall_impl; [exact Hseen|]. intros r' [Hs' Hr']. split; [done|].
      destruct (decide (rx_chunk_ordinal r = rx_chunk_ordinal r')) as [E|]; [|by rewrite lookup_insert_ne].
      rewrite E, lookup_insert_eq. rewrite E, Hr' in Hold. by destruct Hold as [|Hold]; [|rewrite Hold].
    - constructor; [|constructor]. split; [done|]. by rewrite lookup_insert_eq. }
  split; [by eapply Forall_impl; [exact Hall|intros r []]|].
  rewrite Forall_forall in Hall. intros r1 r2 [_ H1]%Hall [_ H2]%Hall E. rewrite E, H2 in H1.
  by injection H1.
Qed.

Lemma chunks_verified dir refs (hashes hashes' : gset PortableHash) :
  try_fold (verify_raw_chunk dir) hashes refs = Ok hashes' ->
  Forall (fun raw_ref => forall path bytes, cr_path (rx_content raw_ref) = Some path ->
    fs_read dir path = Some bytes -> hash_bytes bytes = cr_hash (rx_content raw_ref)) refs.
Proof.
  revert hashes. induction refs as [|r refs IH]; intros hashes; simpl; [constructor|].
  intros (h & (path & Hp%ok_or_Ok & ([] & Hv & _)%result_bind_Ok)%result_bind_Ok & H)%result_bind_Ok.
  constructor; [|by eapply IH]. intros path' bytes Hp' Hr.
  apply result_bind_Ok in Hv as ([] & _ & (b & Hb%ok_or_Ok & ([] & Hh%reject_unless & _)%result_bind_Ok)
    %result_bind_Ok). congruence.
Qed.

Abbreviation Imported := (Z * RawChunkImportKey * RawChunkInsert)%type.

(** An imported chunk holds what its key's hash names. *)
Lemma imported_chunks now dir refs (imported : list Imported) :
  try_map (import_raw_ref now dir) refs = Ok imported ->
  Forall (fun raw_ref => forall path bytes, cr_path (rx_content raw_ref) = Some path ->
    fs_read dir path = Some bytes -> hash_bytes bytes = cr_hash (rx_content raw_ref)) refs ->
  Forall (fun i : Imported => exists raw_ref, raw_ref ∈ refs /\ i.1.1 = rx_chunk_ordinal raw_ref
    /\ i.1.2.2 = cr_hash (rx_content raw_ref) /\ hash_bytes (ri_content i.2) = cr_hash (rx_content raw_ref)
    /\ ri_session_id i.2 = rx_session_id raw_ref) imported.
Proof.
  intros H%try_map_Ok_Forall2. induction H as [|r i refs imported Hi _ IH]; intros Hall; [constructor|].
  apply Forall_cons in Hall as [Hr Hall]. constructor.
  - exists r. split; [left|]. apply result_bind_Ok in Hi as (b & _ & (e & _ & (path & Hp%ok_or_Ok & ([] & _
      & (content & Hc%ok_or_Ok & [= <-])%result_bind_Ok)%result_bind_Ok)%result_bind_Ok)%result_bind_Ok).
    simpl. split_and!; [done|done|by eapply Hr|done].
  - eapply Forall_impl; [by apply IH|]. intros j (r' & ? & ?). exists r'. split; [by right|done].
Qed.

Lemma inserts_sound (imported : list Imported) o insert :
  (o, insert) ∈ inserts_by_ordinal imported -> exists key, (o, key, insert) ∈ imported.
Proof.
  unfold inserts_by_ordinal. rewrite merge_sort_Permutation, elem_of_map_to_list.
  assert (forall m : gmap Z RawChunkInsert, foldl (fun (m : gmap Z RawChunkInsert) '(ordinal, _, insert) =>
    match m !! ordinal with Some _ => m | None => <[ordinal := insert]> m end) m imported !! o = Some insert ->
    m !! o = Some insert \/ exists key, (o, key, insert) ∈ imported) as H;
    [|by intros [?|?]%H].
  induction imported as [|[[o' key'] i'] imported IH]; intros m; simpl; [by left|].
  intros [Hm|[key Hin]]%IH; [|right; exists key; by right].
  destruct (m !! o') eqn:E; [by left|]. apply lookup_insert_Some in Hm as [[<- <-]|[_ Hm]]; [|by left].
  right. exists key'. left.
Qed.

Lemma inserts_distinct (imported : list Imported) : NoDup (List.map fst (inserts_by_ordinal imported)).
Proof.
  unfold inserts_by_ordinal. rewrite (fmap_Permutation fst _ _ (merge_sort_Permutation ordinal_le _)).
  apply NoDup_fst_map_to_list.
Qed.

(** The local ids the events are given. *)
Lemma imported_events_Ok ordinals (imported : list Imported) records ids events :
  imported_events ordinals imported records ids = Ok events ->
  exists local_ids, Forall2 (fun record event => import_event_value (er_event record) local_ids = Ok event)
      records events
    /\ forall key id, local_ids !! key = Some id ->
         exists o insert, (o, key, insert) ∈ imported /\ (o, id) ∈ zip ordinals ids.
Proof.
  intros (local_ids & Hf & He%try_map_Ok_Forall2)%result_bind_Ok. exists local_ids. split; [done|].
  revert Hf. apply (try_fold_inv (fun (done_l : list Imported) (local_ids : gmap RawChunkImportKey Z) =>
    forall key id, local_ids !! key = Some id ->
      exists o insert, (o, key, insert) ∈ done_l /\ (o, id) ∈ zip ordinals ids)); [|by intros].
  intros done_l [[o key] insert] s s' _ Hs (id & Hid%ok_or_Ok & ([] & _ & [= <-])%result_bind_Ok)%result_bind_Ok.
  apply elem_of_list_to_map_2 in Hid. intros key' id' [[<- <-]|[_ Hk]]%lookup_insert_Some.
  - exists o, insert. split; [apply elem_of_app; right; left|done].
  - destruct (Hs _ _ Hk) as (o' & i' & ? & ?). exists o', i'. split; [apply elem_of_app; by left|done].
Qed.

(** ** Loading the chunks again *)

Lemma load_chunks_total session_id db :
  (forall id row, db_raw_chunks db !! id = Some row -> rc_session_id row = session_id ->
     is_Some (parse_time (rc_received_at row))) ->
  exists chunks, load_all_raw_chunks session_id db = Ok chunks
    /\ NoDup (List.map rk_chunk_id chunks)
    /\ forall id row, db_raw_chunks db !! id = Some row -> rc_session_id row = session_id ->
         exists chunk, chunk ∈ chunks /\ rk_chunk_id chunk = id /\ rk_content chunk = rc_content row.
Proof.
  intros Hp. unfold load_all_raw_chunks. set (rows := merge_sort _ _).
  assert (forall id row, (id, row) ∈ rows <-> db_raw_chunks db !! id = Some row /\ rc_session_id row = session_id) as Hin.
  { intros id row. unfold rows. rewrite merge_sort_Permutation, list_elem_of_In, filter_In, <- list_elem_of_In,
      elem_of_map_to_list. simpl. by rewrite bool_decide_eq_true. }
  assert (NoDup (List.map fst rows)) as Hn.
  { unfold rows. rewrite (fmap_Permutation fst _ _ (merge_sort_Permutation chunk_id_le _)).
    apply NoDup_fmap_fst.
    - intros id r1 r2 H1 H2. apply list_elem_of_In, filter_In in H1 as [H1 _], H2 as [H2 _].
      apply list_elem_of_In, elem_of_map_to_list in H1, H2. congruence.
    - apply NoDup_ListNoDup, List.NoDup_filter, NoDup_ListNoDup, NoDup_map_to_list. }
  assert (exists chunks, try_map (fun kv => storage (parse_raw_chunk_record kv)) rows = Ok chunks
    /\ List.map rk_chunk_id chunks = List.map fst rows
    /\ forall id row, (id, row) ∈ rows ->
         exists chunk, chunk ∈ chunks /\ rk_chunk_id chunk = id /\ rk_content chunk = rc_content row)
    as (chunks & Hok & Hids & Hall).
  { assert (forall id row, (id, row) ∈ rows -> is_Some (parse_time (rc_received_at row))) as Hparse
      by (intros id row [H1 H2]%Hin; by eapply Hp).
    clear Hin Hn. clearbody rows. induction rows as [|[id row] rows IH]; simpl.
    { exists []. split_and!; [done|done|]. by intros ? ? ?%elem_of_nil. }
    destruct (Hparse id row) as [t Ht]; [left|]. rewrite Ht. simpl.
    destruct IH as (chunks & -> & Hids & Hall); [intros i r Hir; apply (Hparse i); by right|]. simpl.
    eexists. split; [done|]. split; [by rewrite <- Hids|].
    intros i r [[= -> ->]|Hir]%elem_of_cons.
    - eexists. split; [left|done].
    - destruct (Hall _ _ Hir) as (c & ? & ?). exists c. split; [by right|done]. }
  exists chunks. split_and!; [done|by rewrite Hids|]. intros id row H1 H2. apply Hall, Hin. done.
Qed.

Lemma prepared_complete chunks chunk :
  NoDup (List.map rk_chunk_id chunks) -> chunk ∈ chunks ->
  (prepare_raw_chunks chunks).2 !! rk_chunk_id chunk = Some (hash_bytes (rk_content chunk)).
Proof.
  intros Hn Hin. unfold prepare_raw_chunks.
  enough (forall o by_id hashes, (forall c, c ∈ chunks ->
      (prepare_raw_chunks_from o chunks by_id hashes).2 !! rk_chunk_id c = Some (hash_bytes (rk_content c)))
    /\ forall id, id ∉ List.map rk_chunk_id chunks ->
      (prepare_raw_chunks_from o chunks by_id hashes).2 !! id = hashes !! id) as H by (by apply H).
  clear Hin. induction chunks as [|c chunks IH]; intros o by_id hashes; simpl.
  { split; [by intros ? ?%elem_of_nil|done]. }
  apply NoDup_cons in Hn as [Hc Hn].
  destruct (IH Hn (o + 1) (<[rk_chunk_id c := exported_chunk o c]> by_id)
    (<[rk_chunk_id c := hash_bytes (rk_content c)]> hashes)) as [H1 H2]. split.
  - intros d [->|Hd]%elem_of_cons; [|by apply H1]. rewrite H2 by done. by rewrite lookup_insert_eq.
  - intros id Hid. rewrite not_elem_of_cons in Hid. destruct Hid. by rewrite H2, lookup_insert_ne.
Qed.
End chunks.

Section roundtrip.
Context `{codec : RowCodec} {laws : RowCodecLaws} `{bundle : BundleCodec} `{blaws : !BundleCodecLaws}.

(** ** The round trip *)

Lemma parse_lines_portable label n ls records :
  parse_lines read_event label n ls = Ok records ->
  Forall (fun record => portable_ok (pe_payload (er_event record)) = true) records.
Proof.
  revert n records. induction ls as [|l ls IH]; intros n records; simpl; [by intros [= <-]|].
  destruct (is_blank l); [apply IH|].
  intros (r & Hr & (rs & Hrs & [= <-])%result_bind_Ok)%result_bind_Ok. constructor; [|by eapply IH].
  destruct (read_event l) eqn:E; simpl in Hr; [|done]. injection Hr as <-. by eapply read_event_portable.
Qed.

Lemma records_portable dir path label records :
  read_jsonl read_event dir path label = Ok records ->
  Forall (fun record => portable_ok (pe_payload (er_event record)) = true) records.
Proof. intros (content & _ & H)%result_bind_Ok. by eapply parse_lines_portable. Qed.

(** A session without a row has no events. *)
Lemma unknown_session_log session_id db :
  reachable db -> load_session session_id db = Ok None ->
  List.filter (in_session session_id) (db_events db) = [].
Proof.
  intros Hrefs%reachable_log_ok%lo_refs Hl.
  assert (db_sessions db !! session_id = None) as Hnone.
  { unfold load_session in Hl. destruct (_ !! _); [|done]. by apply result_bind_Ok in Hl as (? & _ & ?). }
  induction Hrefs as [|logged l (Hs & _) _ IH]; simpl; [done|]. rewrite IH.
  unfold in_session. rewrite bool_decide_false; [done|]. intros E. rewrite E, Hnone in Hs. by destruct Hs.
Qed.

Lemma filter_keeps {A} (f : A -> bool) l : Forall (fun x => f x = true) l -> List.filter f l = l.
Proof. induction 1 as [|x l Hx _ IH]; simpl; [done|]. by rewrite Hx, IH. Qed.

Lemma imported_log session_id db db' seqs events :
  reachable db -> load_session session_id db = Ok None ->
  db_events db' = db_events db ++ zip seqs events -> length seqs = length events ->
  Forall (fun event => ev_session_id event = session_id) events ->
  session_log session_id db' = List.map stored_event (zip seqs events).
Proof.
  intros Hr Hl He Hlen Hall. unfold session_log, load_session_event_log.
  rewrite He, List.filter_app, (unknown_session_log _ _ Hr Hl). simpl. f_equal. apply filter_keeps.
  clear He. revert seqs Hlen. induction Hall as [|e es Hs _ IH]; intros [|q seqs] Hlen; simpl in *; try done.
  injection Hlen as Hlen. constructor; [|by apply IH]. unfold in_session. simpl. by rewrite bool_decide_true.
Qed.

(** ** The new numbers of the chunks *)

(** The chunks of an imported session, numbered again on a new export. *)
Lemma chunks_found session_id inserts ids db db1 db2 :
  tx_map append_raw_chunk_in_tx inserts db = Ok (ids, db1) ->
  (forall id row, db_raw_chunks db !! id = Some row -> rc_session_id row <> session_id) ->
  db_raw_chunks db2 = db_raw_chunks db1 ->
  exists chunks, load_all_raw_chunks session_id db2 = Ok chunks
    /\ Forall2 (fun insert id => ri_session_id insert = session_id ->
         (prepare_raw_chunks chunks).2 !! id = Some (hash_bytes (ri_content insert))) inserts ids.
Proof.
  intros (_ & _ & Hall & Hsrc)%insert_chunks_Ok Hnone Hsame.
  destruct (load_chunks_total session_id db2) as (chunks & Hload & Hdistinct & Hin).
  { intros id row Hrow Hs. rewrite Hsame in Hrow.
    apply Hsrc in Hrow as [Hold|(insert & _ & _ & _ & _ & Ht)]; [by apply Hnone in Hold|].
    exists (ri_received_at insert). by apply parse_format_time. }
  exists chunks. split; [done|]. eapply Forall2_impl; [exact Hall|].
  intros insert id (row & Hrow & Hs & Hc & _) Hi. rewrite Hsame in Hin.
  destruct (Hin id row Hrow) as (chunk & Hch & <- & Hcc); [by rewrite Hs|].
  by rewrite (prepared_complete _ _ Hdistinct Hch), Hcc, Hc.
Qed.

(** A key of the import leads to a chunk with the hash it names. *)
Lemma local_id_hash dir now manifest infos refs (hashes0 hashes1 : gset PortableHash)
    (imported : list (Z * RawChunkImportKey * RawChunkInsert)) ids
    (hashes : gmap Z PortableHash) o e h insert id :
  validate_raw_chunk_refs refs manifest infos = Ok tt ->
  try_fold (verify_raw_chunk dir) hashes0 refs = Ok hashes1 ->
  try_map (import_raw_ref now dir) refs = Ok imported ->
  Forall2 (fun insert id => ri_session_id insert = se_session_id (mf_session manifest) ->
    hashes !! id = Some (hash_bytes (ri_content insert)))
    (List.map snd (inserts_by_ordinal imported)) ids ->
  (o, (e, h), insert) ∈ imported -> (o, id) ∈ zip (List.map fst (inserts_by_ordinal imported)) ids ->
  hashes !! id = Some h.
Proof.
  intros [Hsess Hagree]%refs_agree Hv%chunks_verified Himp Hids Hin Hzip.
  pose proof (imported_chunks _ _ _ _ Himp Hv) as Hall. rewrite Forall_forall in Hall. rewrite Forall_forall in Hsess.
  assert (exists insert', (o, insert') ∈ inserts_by_ordinal imported
    /\ (ri_session_id insert' = se_session_id (mf_session manifest) ->
        hashes !! id = Some (hash_bytes (ri_content insert')))) as (insert' & Hins & Hid).
  { clear -Hids Hzip. revert ids Hids Hzip. induction (inserts_by_ordinal imported) as [|[o' i'] l IH];
      intros ids Hids Hzip; [by apply elem_of_nil in Hzip|].
    simpl in Hids. apply Forall2_cons_inv_l in Hids as (id' & ids' & Hid & Hids & ->).
    simpl in Hzip. apply elem_of_cons in Hzip as [[= -> ->]|Hzip]; [exists i'; split; [left|done]|].
    destruct (IH _ Hids Hzip) as (i & ? & ?). exists i. split; [by right|done]. }
  apply inserts_sound in Hins as ([e' h'] & Hins).
  destruct (Hall _ Hin) as (r1 & Hr1 & Ho1 & Hh1 & _), (Hall _ Hins) as (r2 & Hr2 & Ho2 & Hh2 & Hb & Hs).
  simpl in *. rewrite Hid; [|by rewrite Hs, (Hsess _ Hr2)]. rewrite Hb, Hh1. f_equal.
  apply Hagree; [done..|]. by rewrite <- Ho1, <- Ho2.
Qed.

(** What a successful import did. *)
Lemma import_Ok now dir db report db' :
  import_session_bundle_directory now dir db = (Ok report, db') ->
  exists vreport manifest refs (imported : list (Z * RawChunkImportKey * RawChunkInsert)) records ids events
      seqs db1 db2 db3,
    validate_session_bundle_directory dir = Ok vreport
    /\ read_json read_manifest dir SESSION_BT_MANIFEST "manifest" = Ok manifest
    /\ load_session (se_session_id (mf_session manifest)) db = Ok None
    /\ read_jsonl read_raw_ref dir SESSION_BT_RAW_CHUNK_REFS "raw chunk refs" = Ok refs
    /\ try_map (import_raw_ref now dir) refs = Ok imported
    /\ read_jsonl read_event dir SESSION_BT_EVENTS "event records" = Ok records
    /\ db_events db1 = db_events db /\ db_raw_chunks db1 = db_raw_chunks db
    /\ tx_map append_raw_chunk_in_tx (List.map snd (inserts_by_ordinal imported)) db1 = Ok (ids, db2)
    /\ imported_events (List.map fst (inserts_by_ordinal imported)) imported records ids = Ok events
    /\ append_events_in_tx events db2 = Ok (seqs, db3) /\ db' = db3
    /\ im_session_id report = se_session_id (mf_session manifest) /\ im_event_count report = len seqs.
Proof.
  unfold import_session_bundle_directory. case_match eqn:E; [|done].
  apply result_bind_Ok in E as (vreport & Hv & (m & Hm & (existing & Hl & ([] & Hn%reject_if_Ok & E)
    %result_bind_Ok)%result_bind_Ok)%result_bind_Ok).
  apply result_bind_Ok in E as ([] & _ & (refs & Hr & (imported & Hi & (records & He & [= <-])
    %result_bind_Ok)%result_bind_Ok)%result_bind_Ok).
  apply bool_decide_eq_false in Hn. destruct existing; [exfalso; eauto|].
  destruct (import_session_with_raw_chunks_and_events _ _ _ _ db) as [stored d] eqn:Etx.
  intros [= H ->]. apply result_bind_Ok in H as ([ids seqs] & -> & [= <-]).
  apply transaction_Ok in Etx. apply tx_bind_Ok in Etx as (u1 & d1 & H1 & Etx).
  apply tx_bind_Ok in Etx as (u2 & d2 & H2 & (u3 & d3 & H3 & Etx)%tx_bind_Ok).
  apply tx_bind_Ok in Etx as (ids' & d4 & H4 & (events & d5 & H5 & Etx)%tx_bind_Ok).
  apply tx_bind_Ok in Etx as (seqs' & d6 & H6 & [[= -> ->] ->]%tx_ret_Ok).
  destruct (import_frame _ _ _ _ _ _ _ _ _ H1 H2 H3) as [Hev Hch].
  exists vreport, m, refs, imported, records, ids', events, seqs', d3, d4, d6.
  unfold tx_lift in H5. destruct (imported_events _ _ _ _) eqn:Ee; [|done]. injection H5 as -> ->.
  split_and!; done.
Qed.

Lemma imported_sessions session_id o records events local_ids :
  records_ok session_id o records ->
  Forall2 (fun record event => import_event_value (er_event record) local_ids = Ok event) records events ->
  Forall (fun event => ev_session_id event = session_id) events.
Proof.
  intros Hok H. revert o Hok. induction H as [|record event records events Hi _ IH]; intros o Hok; [constructor|].
  destruct Hok as [(_ & _ & _ & Hs) Hok]. constructor; [|by eapply IH].
  by apply result_bind_Ok in Hi as (payload & _ & [= <-]).
Qed.

Lemma imported_all (hashes : gmap Z PortableHash) (local_ids : gmap RawChunkImportKey Z) records events :
  Forall (fun record => portable_ok (pe_payload (er_event record)) = true) records ->
  Forall2 (fun record event => import_event_value (er_event record) local_ids = Ok event) records events ->
  (forall e h id, local_ids !! (e, h) = Some id -> hashes !! id = Some h) ->
  Forall2 (imported_as hashes) records events.
Proof.
  intros Hp H Hk. induction H as [|record event records events Hi _ IH]; constructor.
  - exists local_ids. apply Forall_cons in Hp as [Hp _]. split_and!; [done|done|]. intros h id _. apply Hk.
  - apply IH. by apply Forall_cons in Hp as [_ Hp].
Qed.

(** C16. Import and export are inverse on the history.  When a directory is
    imported into a store that has neither the session nor a raw chunk of it,
    the records an export of the imported session writes are the records of
    the directory: every event with its ordinal, its kind and its hash, though
    chunks and events have got new numbers.  The number of stored events the
    report names is theirs. *)
Theorem import_then_export_keeps_records now dir db report db' records :
  reachable db ->
  (forall id row, db_raw_chunks db !! id = Some row -> rc_session_id row <> im_session_id report) ->
  import_session_bundle_directory now dir db = (Ok report, db') ->
  read_jsonl read_event dir SESSION_BT_EVENTS "event records" = Ok records ->
  session_records (im_session_id report) db' = Ok records
  /\ im_event_count report = len records.
Proof.
  intros Hr Hnone (vr & m & refs & imported & records' & ids & events & seqs & db1 & db2 & db3
    & Hv & Hm & Hl & Href & Himp & Hrec & Hev1 & Hch1 & Hins & Hie & Happ & -> & Hs & Hc)%import_Ok Hrec'.
  rewrite Hrec in Hrec'. injection Hrec' as ->. rewrite Hs in *.
  apply validate_Ok in Hv as (m' & bytes & cs & refs' & hs & records' & infos & Hv & _).
  destruct Hv. rewrite Hm in vd_manifest. rewrite Href in vd_refs. rewrite Hrec in vd_records.
  injection vd_manifest as <-. injection vd_refs as <-. injection vd_records as <-.
  pose proof (validate_records_ok _ _ _ _ _ _ _ vd_infos) as Hok.
  destruct (append_all _ _ _ _ Happ) as (Hch3 & Hlen & Hev3).
  destruct (insert_chunks_Ok _ _ _ _ Hins) as (Hev2 & _).
  rewrite <- Hch1 in Hnone. destruct (chunks_found _ _ _ _ _ _ Hins Hnone Hch3) as (chunks & Hload & Hids).
  apply imported_events_Ok in Hie as (local_ids & He & Hkeys).
  rewrite Hev2, Hev1 in Hev3.
  pose proof (imported_log _ _ _ _ _ Hr Hl Hev3 Hlen (imported_sessions _ _ _ _ _ Hok He)) as Hlog.
  assert (Forall2 (imported_as (prepare_raw_chunks chunks).2) records events) as Has.
  { eapply imported_all; [by eapply records_portable|exact He|].
    intros e h id (o & insert & Hin & Hzip)%Hkeys. by eapply local_id_hash. }
  destruct (rebuild_records _ _ _ _ _ seqs Hok Has Hlen) as (infos' & Hbuild).
  split; [|by rewrite Hc; unfold len; rewrite Hlen, (Forall2_length _ _ _ He)].
  unfold session_records. rewrite Hload. simpl. rewrite Hlog. unfold build_event_records. by rewrite Hbuild.
Qed.
End roundtrip.

#[local] Existing Instance unary_codec.
#[local] Instance import_bundle_codec : BundleCodec :=
  export_codec bundle_db (MkUuid 1) default_export_options.
#[local] Instance import_bundle_laws : BundleCodecLaws.
Proof. apply table_laws. vm_compute. reflexivity. Qed.

(** The sample bundle, imported into an empty store. *)
Definition sample_import : Result SessionBundleImportReport * Db :=
  import_session_bundle_directory (fun _ => 1) sample_dir db_empty.

Lemma import_then_export_keeps_records_witness :
  exists report db' records, sample_import = (Ok report, db')
    /\ session_records (im_session_id report) db' = Ok records
    /\ im_event_count report = 3.
Proof.
  assert (is_ok sample_import.1 = true) as Hok by (vm_compute; reflexivity).
  assert (is_ok (read_jsonl read_event sample_dir SESSION_BT_EVENTS "event records") = true) as Hrec
    by (vm_compute; reflexivity).
  assert (im_event_count <$> match sample_import.1 with Ok r => Some r | Err _ => None end = Some 3) as Hc
    by (vm_compute; reflexivity).
  destruct (read_jsonl read_event sample_dir SESSION_BT_EVENTS "event records") as [records|] eqn:E2;
    [|discriminate Hrec].
  destruct sample_import as [[report|e] db'] eqn:E1; [|discriminate Hok].
  exists report, db', records. split; [reflexivity|].
  destruct (import_then_export_keeps_records (fun _ => 1) sample_dir db_empty report db' records) as [H _].
  - exists []. reflexivity.
  - intros id row Hrow. discriminate Hrow.
  - exact E1.
  - exact E2.
  - split; [exact H|]. injection Hc as Hc. exact Hc.
Defined.
