(* ===== verification/EventStream.v ===== *)
(** * The event stream of a session ([stream_session_events] of
    [crates/bt-server/src/main.rs]) among the writers of the store

    A subscriber replays the log after the last event it knows, in windows of
    500, then follows the broadcast channel, skipping what it has already
    seen and replaying again when the channel reports a lag.  Writers hold the
    store's lock while they commit; most publish before they release it, but
    the methods that store provider chunks, spawn a child, or claim and settle
    related-session messages publish after.  The steps of writers and of one subscriber interleave here in any
    order the locks allow.

    The channel keeps the order of publication, and may at any time report
    that it dropped its oldest events, which covers every capacity.  The laws
    say that the subscriber gets every event of its session once and in order
    as long as events are published under the lock, and that one published
    after it may be lost for good. *)

From stdpp Require Import base list strings gmap sorting relations.
From Stdlib Require Import ZArith Lia.
From S2P Require Import Prelude Text Json Types TurnProjection Store StoreOps StoreRelated.
From S2P Require Import StoreLaws StoreReplay StoreQueue StoreQueries.

#[local] Open Scope Z_scope.

(** ** The subscriber *)

(** The locals of the [stream!] block, with what it has yielded. *)
Record StreamState : Type := MkStreamState {
  es_last_seen : option Z;
  es_replay_required : bool;
  es_yielded : list EventEnvelope;
}.

Definition REPLAY_WINDOW : Z := 500.

Section stream.
Context `{codec : RowCodec}.
Context (session_id : SessionId).

(** [BelltowerRuntime::replay_events_after]: under the store's lock. *)
Definition replay_events_after (after_seq_id : option Z) (limit : Z) (db : Db)
    : list EventEnvelope :=
  load_events_after session_id after_seq_id limit db.

(** [last_seen = event.seq_id.or(last_seen); yield event] *)
Definition yield_event (st : StreamState) (event : EventEnvelope) : StreamState :=
  {| es_last_seen := match ev_seq_id event with
                     | Some seq_id => Some seq_id
                     | None => es_last_seen st
                     end;
     es_replay_required := es_replay_required st;
     es_yielded := es_yielded st ++ [event] |}.

Definition with_replay (replay_required : bool) (st : StreamState) : StreamState :=
  {| es_last_seen := es_last_seen st;
     es_replay_required := replay_required;
     es_yielded := es_yielded st |}.

(** One turn of the inner [loop]. *)
Definition replay_window (db : Db) (st : StreamState) : StreamState :=
  let replay := replay_events_after (es_last_seen st) REPLAY_WINDOW db in
  with_replay (negb (Z.of_nat (length replay) <? REPLAY_WINDOW)) (fold_left yield_event replay st).

(** [receiver.recv()] returned an event. *)
Definition receive (event : EventEnvelope) (st : StreamState) : StreamState :=
  if negb (bool_decide (ev_session_id event = session_id)) then st
  else match es_last_seen st, ev_seq_id event with
       | Some seen, Some seq_id => if seq_id <=? seen then st else yield_event st event
       | _, _ => yield_event st event
       end.

(** [receiver.recv()] returned [Lagged]. *)
Definition lagged (st : StreamState) : StreamState := with_replay true st.

(** [let mut last_seen = last_event_id; let mut replay_required = true;] *)
Definition subscribed (last_event_id : option Z) : StreamState :=
  MkStreamState last_event_id true [].

(** ** The system *)

(** The database; the events the holder of the lock has committed and not yet
    published; those of the methods that have released the lock; what the
    channel holds for the subscriber; and the subscriber. *)
Record System : Type := MkSystem {
  sy_db : Db;
  sy_pending : list EventEnvelope;
  sy_late : list (list EventEnvelope);
  sy_channel : list EventEnvelope;
  sy_stream : StreamState;
}.

(** The calls whose events are published after the lock is released:
    [record_raw_chunk], [record_live_completion_chunk],
    [spawn_child_session_transition], [record_related_reply_obligations],
    [claim_related_messages_for_active_turn] and
    [claim_next_related_session_message]. *)
Definition published_late (op : StoreOp) : bool :=
  match op with
  | OpRawChunkWithEvent _ _ _ _ _ _ _ _ _ | OpLiveChunk _ _ _ _ _ _ _ _ _ _
  | OpSpawnChild _ _ _ _ _ _ _ | OpSettleRelated _ _ _ _ | OpClaimRelated _ _ _ _
  | OpClaimRelatedActive _ _ _ _ _ => true
  | _ => false
  end.

(** A bundle is imported by the command line, in a process without
    subscribers. *)
Definition by_runtime (op : StoreOp) : bool :=
  match op with OpImport _ _ _ _ => false | _ => true end.

(** The events a call appended, as they are published. *)
Definition appended (db db' : Db) : list EventEnvelope :=
  map stored (drop (length (db_events db)) (db_events db')).

(** Steps of the writers. *)
Inductive writer_step : System -> System -> Prop :=
  | step_commit db late channel st op :
      by_runtime op = true -> published_late op = false ->
      writer_step (MkSystem db [] late channel st)
        (MkSystem (run_op op db) (appended db (run_op op db)) late channel st)
  | step_publish db event pending late channel st :
      writer_step (MkSystem db (event :: pending) late channel st)
        (MkSystem db pending late (channel ++ [event]) st).

Inductive late_writer_step : System -> System -> Prop :=
  | step_commit_late db late channel st op :
      by_runtime op = true -> published_late op = true ->
      late_writer_step (MkSystem db [] late channel st)
        (MkSystem (run_op op db) [] (late ++ [appended db (run_op op db)]) channel st)
  | step_publish_late db pending event events before after channel st :
      late_writer_step (MkSystem db pending (before ++ (event :: events) :: after) channel st)
        (MkSystem db pending (before ++ events :: after) (channel ++ [event]) st).

(** Steps of the subscriber: the replay takes the lock. *)
Inductive reader_step : System -> System -> Prop :=
  | step_replay db late channel st :
      es_replay_required st = true ->
      reader_step (MkSystem db [] late channel st)
        (MkSystem db [] late channel (replay_window db st))
  | step_receive db pending late event channel st :
      es_replay_required st = false ->
      reader_step (MkSystem db pending late (event :: channel) st)
        (MkSystem db pending late channel (receive event st)).

Inductive lag_step : System -> System -> Prop :=
  | step_lagged db pending late dropped channel st :
      es_replay_required st = false ->
      lag_step (MkSystem db pending late (dropped ++ channel) st)
        (MkSystem db pending late channel (lagged st)).

(** The steps when everyone publishes under the lock, and all steps. *)
Definition locked_step (s t : System) : Prop :=
  writer_step s t \/ reader_step s t \/ lag_step s t.
Definition step (s t : System) : Prop := locked_step s t \/ late_writer_step s t.

(** The steps that bring nothing new: publishing what was committed under the
    lock, and the subscriber's own. *)
Inductive publish_step : System -> System -> Prop :=
  | publish_pending db event pending late channel st :
      publish_step (MkSystem db (event :: pending) late channel st)
        (MkSystem db pending late (channel ++ [event]) st).
Definition settle_step (s t : System) : Prop := publish_step s t \/ reader_step s t.

(** A subscription to a database at rest. *)
Definition start_system (db : Db) (last_event_id : option Z) : System :=
  MkSystem db [] [] [] (subscribed last_event_id).

(** Nothing is left for the subscriber to do. *)
Definition quiescent (s : System) : Prop :=
  sy_pending s = [] /\ concat (sy_late s) = [] /\ sy_channel s = []
  /\ es_replay_required (sy_stream s) = false.

(** The session's events after [low] and up to [high]. *)
Definition in_window (low high : Z) (logged : Z * EventEnvelope) : bool :=
  in_session session_id logged && (low <? logged.1) && (logged.1 <=? high).

Definition session_events (low high : Z) (db : Db) : list EventEnvelope :=
  map stored (List.filter (in_window low high) (db_events db)).

Definition seen (st : StreamState) : Z := default 0 (es_last_seen st).
End stream.

(** ** The subscriber among writers that publish under the lock *)

Section laws.
Context `{codec : RowCodec} (session_id : SessionId).

Lemma filter_all {A} (p q : A -> bool) l :
  Forall (fun a => p a = q a) l -> List.filter p l = List.filter q l.
Proof. induction 1 as [|a l Ha _ IH]; simpl; [done|]. by rewrite Ha, IH. Qed.

Lemma filter_none {A} (p : A -> bool) l : Forall (fun a => p a = false) l -> List.filter p l = [].
Proof. induction 1 as [|a l Ha _ IH]; simpl; [done|]. by rewrite Ha. Qed.

Lemma sorted_app_lt (l l' : list (Z * EventEnvelope)) a b :
  StronglySorted Z.lt (l ++ l').*1 -> a ∈ l -> b ∈ l' -> a.1 < b.1.
Proof.
  rewrite fmap_app. intros Hs Ha Hb. eapply StronglySorted_app_1_elem_of; [exact Hs|..];
    by apply list_elem_of_fmap_2.
Qed.

Lemma in_window_eq low high l :
  in_window session_id low high l
  = in_session session_id l && (low <? l.1) && (l.1 <=? high).
Proof. done. Qed.

(** Moving the upper end of the window over rows of a sorted log. *)
Lemma window_extend low mid high log :
  low <= mid <= high -> StronglySorted Z.lt log.*1 ->
  List.filter (in_window session_id low high) log
  = List.filter (in_window session_id low mid) log ++ List.filter (in_window session_id mid high) log.
Proof.
  intros Hle. induction log as [|l log IH]; intros Hs; [done|]. simpl in Hs.
  apply StronglySorted_inv in Hs as [Hs Hall]. simpl. rewrite (IH Hs). clear IH.
  rewrite !in_window_eq.
  destruct (in_session session_id l); simpl; [|done].
  destruct (Z.ltb_spec low l.1), (Z.leb_spec l.1 high), (Z.leb_spec l.1 mid), (Z.ltb_spec mid l.1);
    simpl; try lia; try done.
  assert (List.filter (in_window session_id low mid) log = []) as ->; [|done].
  apply filter_none. rewrite Forall_fmap in Hall. eapply Forall_impl; [exact Hall|].
  intros x Hx. simpl in Hx. rewrite in_window_eq. destruct (Z.leb_spec x.1 mid); [lia|]. by rewrite andb_false_r.
Qed.

Record stream_ok (low : Z) (s : System) : Prop := {
  so_reachable : reachable (sy_db s);
  so_late : sy_late s = [];
  so_published : exists old rest, db_events (sy_db s) = old ++ rest
    /\ sy_channel s ++ sy_pending s = map stored rest
    /\ (es_replay_required (sy_stream s) = false ->
        forall l, l ∈ old -> in_session session_id l = true -> l.1 <= seen (sy_stream s));
  so_yielded : es_yielded (sy_stream s) = session_events session_id low (seen (sy_stream s)) (sy_db s);
  so_low : low <= seen (sy_stream s);
  so_top : seen (sy_stream s) = low
    \/ exists l, l ∈ db_events (sy_db s) /\ l.1 = seen (sy_stream s);
}.

Lemma log_sorted db : reachable db -> StronglySorted Z.lt (db_events db).*1.
Proof. intros Hr. apply (lo_sorted _ (reachable_log_ok db Hr)). Qed.

Lemma log_positive db l : reachable db -> l ∈ db_events db -> 0 < l.1.
Proof.
  intros Hr Hin. destruct (reachable_log_ok db Hr) as [_ Hrange _ _ _].
  rewrite Forall_forall in Hrange. apply (Hrange _ Hin).
Qed.

Lemma start_ok db last_event_id :
  reachable db -> stream_ok (default 0 last_event_id) (start_system db last_event_id).
Proof.
  intros Hr. split; simpl; unfold seen; simpl; try done; [|..].
  - exists (db_events db), []. split_and!; [by rewrite app_nil_r|done|done].
  - unfold session_events. symmetry. rewrite filter_none; [done|]. apply Forall_forall.
    intros l _. rewrite in_window_eq. destruct (Z.ltb_spec (default 0 last_event_id) l.1), (Z.leb_spec l.1 (default 0 last_event_id));
      rewrite ?andb_false_r; done || lia.
  - by left.
Qed.

(** A call adds events that are newer than everything in the log. *)
Lemma run_op_newer op db : reachable db ->
  exists new, db_events (run_op op db) = db_events db ++ new
    /\ appended db (run_op op db) = map stored new
    /\ forall l l', l ∈ db_events db -> l' ∈ new -> l.1 < l'.1.
Proof.
  intros Hr. destruct (run_op_log op db) as [new Hnew]. exists new. split_and!; [done| |].
  - unfold appended. by rewrite Hnew, drop_app_length.
  - intros l l' Hl Hl'. eapply sorted_app_lt; [|exact Hl|exact Hl'].
    rewrite <- Hnew. apply log_sorted. by apply reachable_op.
Qed.

Lemma writer_ok low s t : writer_step s t -> stream_ok low s -> stream_ok low t.
Proof.
  intros Hstep [Hr Hlate (old & rest & Hlog & Hpub & Hcaught) Hout Hlow Htop].
  destruct Hstep as [db late channel st op _ _|db event pending late channel st]; simpl in *.
  - destruct (run_op_newer op db Hr) as (new & Hnew & Happ & Hnewer). split; simpl; try done.
    + by apply reachable_op.
    + exists old, (rest ++ new). rewrite Hnew, Hlog, Happ. split_and!; [by rewrite app_assoc| |done].
      rewrite app_nil_r in Hpub. by rewrite Hpub, map_app.
    + rewrite Hout. unfold session_events. rewrite Hnew, List.filter_app, map_app.
      assert (List.filter (in_window session_id low (seen st)) new = []) as ->; [|by rewrite app_nil_r].
      apply filter_none. apply Forall_forall. intros l Hl. rewrite in_window_eq.
      destruct Htop as [->|(top & Htop & <-)].
      * destruct (Z.ltb_spec low l.1), (Z.leb_spec l.1 low); rewrite ?andb_false_r; done || lia.
      * specialize (Hnewer _ _ Htop Hl). destruct (Z.leb_spec l.1 top.1); [lia|]. by rewrite andb_false_r.
    + destruct Htop as [->|(top & Htop & Heq)]; [by left|right]. exists top. split; [|done].
      rewrite Hnew. apply elem_of_app. by left.
  - split; simpl; try done. exists old, rest. split_and!; [done| |done]. by rewrite <- app_assoc.
Qed.

(** A replayed window. *)
Lemma yield_all events st :
  Forall (fun e => is_Some (ev_seq_id e)) events ->
  fold_left yield_event events st
  = MkStreamState (from_option ev_seq_id (es_last_seen st) (last events))
      (es_replay_required st) (es_yielded st ++ events).
Proof.
  intros H. revert st. induction H as [|e events [q Hq] Hall IH]; intros [seen0 r out]; simpl.
  - by rewrite app_nil_r.
  - rewrite IH. unfold yield_event. simpl. rewrite Hq, <- app_assoc. simpl. f_equal.
    rewrite last_cons. by destruct (last events).
Qed.

Lemma stored_seq l : ev_seq_id (stored l) = Some l.1.
Proof. by destruct l. Qed.

Lemma stored_session l : ev_session_id (stored l) = ev_session_id l.2.
Proof. by destruct l. Qed.

(** What is after a position, cut to a window. *)
Definition after (low : Z) (db : Db) : list (Z * EventEnvelope) :=
  List.filter (fun l => in_session session_id l && (low <? l.1)) (db_events db).

Lemma replayed_window st db :
  replay_events_after session_id (es_last_seen st) REPLAY_WINDOW db
  = map stored (take 500 (after (seen st) db)).
Proof.
  unfold replay_events_after, load_events_after, after, seen. by destruct (es_last_seen st).
Qed.

Lemma window_end low mid high log :
  (forall l, l ∈ log -> in_session session_id l = true -> l.1 <= mid -> l.1 <= high) ->
  (forall l, l ∈ log -> in_session session_id l = true -> mid < l.1 -> high < l.1) ->
  List.filter (in_window session_id low mid) log = List.filter (in_window session_id low high) log.
Proof.
  intros H1 H2. apply filter_all. apply Forall_forall. intros l Hl. rewrite !in_window_eq.
  destruct (in_session session_id l) eqn:Hs; simpl; [|done]. f_equal.
  specialize (H1 _ Hl Hs). specialize (H2 _ Hl Hs).
  destruct (Z.leb_spec l.1 mid), (Z.leb_spec l.1 high); done || lia.
Qed.

(** Cutting a sorted list: what is kept is below what is cut. *)
Lemma take_window low n db last_row :
  reachable db -> last (take n (after low db)) = Some last_row ->
  map stored (take n (after low db)) = session_events session_id low last_row.1 db
  /\ low < last_row.1 /\ last_row ∈ db_events db.
Proof.
  intros Hr Hlast. pose proof (log_sorted db Hr) as Hs.
  assert (last_row ∈ after low db) as Hin.
  { eapply subseteq_take. by apply last_Some_elem_of in Hlast. }
  assert (StronglySorted Z.lt (after low db).*1) as Hsa.
  { clear -Hs. unfold after. induction (db_events db) as [|l log IH]; simpl in *; [constructor|].
    apply StronglySorted_inv in Hs as [Hs Hall]. destruct (_ && _); [|by apply IH].
    simpl. constructor; [by apply IH|]. rewrite Forall_fmap in *.
    rewrite Forall_forall in *. intros x. rewrite list_elem_of_In, filter_In, <- list_elem_of_In.
    intros [Hx _]. by apply Hall. }
  pose proof Hin as Hin'. unfold after in Hin'. rewrite list_elem_of_In, filter_In, <- list_elem_of_In in Hin'.
  destruct Hin' as [Hlog [_ Hlow%Z.ltb_lt]%andb_true_iff].
  split_and!; [|done|done]. unfold session_events. f_equal.
  assert (List.filter (in_window session_id low last_row.1) (db_events db)
          = List.filter (fun l => l.1 <=? last_row.1) (after low db)) as ->.
  { unfold after. clear. induction (db_events db) as [|l log IH]; simpl; [done|].
    rewrite in_window_eq. destruct (in_session session_id l && (low <? l.1)); simpl; by rewrite IH. }
  rewrite <- (take_drop n (after low db)) at 2. rewrite List.filter_app.
  rewrite <- (take_drop n (after low db)) in Hsa.
  assert (List.filter (fun l => l.1 <=? last_row.1) (drop n (after low db)) = []) as ->.
  { apply filter_none. apply Forall_forall. intros l Hl.
    assert (last_row.1 < l.1); [|by apply Z.leb_gt].
    eapply sorted_app_lt; [exact Hsa| |exact Hl]. by apply last_Some_elem_of. }
  rewrite app_nil_r. apply last_Some in Hlast as [init Hinit]. rewrite Hinit in *.
  symmetry. rewrite (filter_all _ (fun _ => true)).
  - clear. induction (init ++ [last_row]) as [|l k IH]; simpl; [done|]. by rewrite IH.
  - rewrite fmap_app in Hsa. apply StronglySorted_app_1_l in Hsa.
    apply Forall_app. split; [|by repeat constructor; apply Z.leb_refl].
    apply Forall_forall. intros l Hl. apply Z.leb_le.
    assert (l.1 < last_row.1); [|lia].
    eapply sorted_app_lt; [exact Hsa|exact Hl|by left].
Qed.

Lemma replay_ok low db late channel st :
  stream_ok low (MkSystem db [] late channel st) ->
  stream_ok low (MkSystem db [] late channel (replay_window session_id db st)).
Proof.
  intros [Hr Hlate (old & rest & Hlog & Hpub & Hcaught) Hout Hlow Htop]. simpl in *.
  unfold replay_window. rewrite replayed_window, yield_all.
  2: { apply Forall_forall. intros e (l & -> & _)%list_elem_of_fmap. rewrite stored_seq. eauto. }
  rewrite length_map.
  assert (Z.of_nat (length (take 500 (after (seen st) db))) < REPLAY_WINDOW ->
          forall l, l ∈ db_events db -> in_session session_id l = true -> seen st < l.1 ->
            l ∈ take 500 (after (seen st) db)) as Hrest.
  { rewrite length_take. unfold REPLAY_WINDOW. intros Hlen l Hl Hs Hlt.
    rewrite take_ge by lia. unfold after. rewrite list_elem_of_In, filter_In, <- list_elem_of_In.
    by rewrite Hs, (proj2 (Z.ltb_lt _ _) Hlt). }
  assert (forall r, last (take 500 (after (seen st) db)) = Some r ->
    map stored (take 500 (after (seen st) db)) = session_events session_id (seen st) r.1 db
    /\ seen st < r.1 /\ r ∈ db_events db) as Hwindow by (intros r; by apply take_window).
  set (w := take 500 (after (seen st) db)) in *. clearbody w.
  destruct (last w) as [r|] eqn:Hlast.
  - destruct (Hwindow _ eq_refl) as (Hwin & Hgt & Hin).
    assert (from_option ev_seq_id (es_last_seen st) (last (map stored w)) = Some r.1) as ->.
    { change (map stored w) with (stored <$> w). rewrite fmap_last, Hlast. simpl. apply stored_seq. }
    split; unfold seen; simpl; try done.
    + exists old, rest. split_and!; [done|done|]. intros Hfull%negb_false_iff%Z.ltb_lt l Hl Hs.
      destruct (Z.le_gt_cases l.1 (seen st)); [lia|].
      assert (l ∈ db_events db) as Hlin by (rewrite Hlog; apply elem_of_app; by left).
      specialize (Hrest Hfull l Hlin Hs). 
      assert (stored l ∈ session_events session_id (seen st) r.1 db) as Hsl.
      { rewrite <- Hwin. apply list_elem_of_fmap. exists l. split; [done|]. apply Hrest. lia. }
      apply list_elem_of_fmap in Hsl as (l' & Heq & Hl').
      rewrite list_elem_of_In, filter_In in Hl'. destruct Hl' as [_ Hb].
      rewrite in_window_eq in Hb. apply andb_true_iff in Hb as [_ Hb%Z.leb_le].
      apply (f_equal ev_seq_id) in Heq. rewrite !stored_seq in Heq. injection Heq as ->. done.
    + rewrite Hout, Hwin. unfold session_events. rewrite <- map_app. f_equal. symmetry.
      apply window_extend; [lia|by apply log_sorted].
    + lia.
    + right. by exists r.
  - apply last_None in Hlast as ->. simpl. rewrite app_nil_r.
    split; unfold seen in *; simpl; try done.
    exists old, rest. split_and!; [done|done|]. intros _ l Hl Hs.
    destruct (Z.le_gt_cases l.1 (seen st)); [done|].
    assert (l ∈ db_events db) as Hlin by (rewrite Hlog; apply elem_of_app; by left).
    assert (l ∈ []) as Hnil by (apply Hrest; [simpl; unfold REPLAY_WINDOW; lia|done|done|unfold seen in *; lia]).
    by apply elem_of_nil in Hnil.
Qed.

Lemma receive_stored st l :
  receive session_id (stored l) st
  = if negb (in_session session_id l) then st
    else if match es_last_seen st with Some s => l.1 <=? s | None => false end then st
    else MkStreamState (Some l.1) (es_replay_required st) (es_yielded st ++ [stored l]).
Proof.
  unfold receive, in_session. rewrite stored_session.
  destruct (bool_decide (ev_session_id l.2 = session_id)); simpl; [|done].
  unfold yield_event. rewrite stored_seq. by destruct (es_last_seen st).
Qed.

Lemma receive_ok low db pending late event channel st :
  es_replay_required st = false ->
  stream_ok low (MkSystem db pending late (event :: channel) st) ->
  stream_ok low (MkSystem db pending late channel (receive session_id event st)).
Proof.
  intros Hreplay [Hr Hlate (old & rest & Hlog & Hpub & Hcaught) Hout Hlow Htop]. simpl in *.
  destruct rest as [|l rest]; [done|]. simpl in Hpub. injection Hpub as -> Hpub.
  specialize (Hcaught Hreplay).
  assert (l ∈ db_events db) as Hlin by (rewrite Hlog; apply elem_of_app; right; by left).
  assert (forall st', es_replay_required st' = false -> seen st <= seen st' ->
    (in_session session_id l = true -> l.1 <= seen st') ->
    es_yielded st' = session_events session_id low (seen st') db ->
    (seen st' = low \/ exists r, r ∈ db_events db /\ r.1 = seen st') ->
    stream_ok low (MkSystem db pending late channel st')) as Hbuild.
  { intros st' Hrep Hge Hl Hy Ht. split; simpl; try done; [|lia].
    exists (old ++ [l]), rest. split_and!; [by rewrite <- app_assoc|done|].
    intros _ r [Hin|Hin%list_elem_of_singleton]%elem_of_app Hs; [|subst; by apply Hl].
    specialize (Hcaught _ Hin Hs). lia. }
  rewrite receive_stored. destruct (in_session session_id l) eqn:Hs; simpl.
  2: { apply Hbuild; done. }
  destruct (match es_last_seen st with Some s => l.1 <=? s | None => false end) eqn:Hseen.
  - apply Hbuild; try done. intros _. unfold seen. destruct (es_last_seen st); [|done].
    simpl. by apply Z.leb_le.
  - assert (seen st < l.1) as Hlt.
    { unfold seen. destruct (es_last_seen st); simpl; [by apply Z.leb_gt|].
      by apply (log_positive db). }
    apply Hbuild; unfold seen in *; simpl; try done; [lia| |].
    + rewrite Hout. unfold session_events. change [stored l] with (map stored [l]).
      rewrite <- map_app. f_equal. symmetry.
      pose proof (log_sorted db Hr) as Hsorted.
      rewrite (window_extend low (default 0 (es_last_seen st)) l.1); [|lia|done].
      f_equal. rewrite Hlog in *. rewrite List.filter_app. simpl.
      rewrite in_window_eq, Hs, (proj2 (Z.ltb_lt _ _) Hlt), Z.leb_refl. simpl.
      rewrite filter_none; [simpl; f_equal; apply filter_none|].
      * apply Forall_forall. intros r Hrin. rewrite in_window_eq.
        assert (l.1 < r.1); [|destruct (Z.leb_spec r.1 l.1); [lia|by rewrite andb_false_r]].
        rewrite cons_middle, app_assoc in Hsorted.
        eapply sorted_app_lt; [exact Hsorted| |exact Hrin]. apply elem_of_app. right. by left.
      * apply Forall_forall. intros r Hrin. rewrite in_window_eq.
        destruct (in_session session_id r) eqn:Hrs; simpl; [|done].
        specialize (Hcaught _ Hrin Hrs). unfold seen in Hcaught.
        destruct (Z.ltb_spec (default 0 (es_last_seen st)) r.1); [lia|done].
    + right. by exists l.
Qed.

Lemma locked_ok low s t : locked_step session_id s t -> stream_ok low s -> stream_ok low t.
Proof.
  intros [Hw|[Hr|Hl]] Hok; [by eapply writer_ok|..].
  - destruct Hr; [by apply replay_ok|by apply receive_ok].
  - destruct Hl as [db pending late dropped channel st Hrep].
    destruct Hok as [Hr Hlate (old & rest & Hlog & Hpub & Hcaught) Hout Hlow Htop]. simpl in *.
    split; simpl; try done. rewrite <- app_assoc in Hpub. symmetry in Hpub.
    apply fmap_app_inv in Hpub as (dropped' & kept & -> & Hpub & ->).
    exists (old ++ dropped'), kept. split_and!; [by rewrite <- app_assoc|done|done].
Qed.

Lemma locked_reachable_ok db last_event_id s :
  reachable db -> rtc (locked_step session_id) (start_system db last_event_id) s ->
  stream_ok (default 0 last_event_id) s.
Proof.
  intros Hr H. eapply (rtc_ind_r (fun s => stream_ok (default 0 last_event_id) s)); [|..|exact H].
  - by apply start_ok.
  - intros x y _ Hxy Hx. by eapply locked_ok.
Qed.

(** Everything yielded, at rest. *)
Lemma quiescent_all low s :
  stream_ok low s -> quiescent s ->
  es_yielded (sy_stream s)
  = map stored (List.filter (fun l => in_session session_id l && (low <? l.1)) (db_events (sy_db s))).
Proof.
  intros [Hr Hlate (old & rest & Hlog & Hpub & Hcaught) Hout Hlow Htop] (Hp & _ & Hc & Hrep).
  rewrite Hp, Hc in Hpub. destruct rest; [|done]. rewrite app_nil_r in Hlog.
  rewrite Hout. unfold session_events. f_equal. apply filter_all. apply Forall_forall.
  intros l Hl. rewrite in_window_eq. destruct (in_session session_id l) eqn:Hs; simpl; [|done].
  specialize (Hcaught Hrep l). rewrite Hlog in Hl. specialize (Hcaught Hl Hs).
  rewrite (proj2 (Z.leb_le _ _) Hcaught). by rewrite andb_true_r.
Qed.

(** ** The subscriber catches up *)

(** How many steps can follow without a new commit or a lag. *)
Definition settle_bound (s : System) : nat :=
  2 * length (sy_pending s) + length (sy_channel s)
  + if es_replay_required (sy_stream s)
    then S (length (after (seen (sy_stream s)) (sy_db s))) else 0.

Lemma settle_is_locked s t : settle_step session_id s t -> locked_step session_id s t.
Proof. intros [[]|H]; [left; constructor|by right; left]. Qed.

Lemma receive_replay event st :
  es_replay_required (receive session_id event st) = es_replay_required st.
Proof. unfold receive, yield_event. by repeat case_match. Qed.

Lemma after_shrinks low high db :
  low <= high -> (length (after high db) <= length (after low db))%nat
  /\ ((exists l, l ∈ after low db /\ l.1 <= high) ->
      (length (after high db) < length (after low db))%nat).
Proof.
  intros Hle. unfold after. induction (db_events db) as [|l log [IH1 IH2]]; simpl.
  - split; [lia|]. intros (l & Hl & _). by apply elem_of_nil in Hl.
  - destruct (in_session session_id l); simpl; [|done].
    destruct (Z.ltb_spec high l.1), (Z.ltb_spec low l.1); simpl; try lia.
    + split; [lia|]. intros (r & [->|Hr]%elem_of_cons & Hhigh); [lia|].
      assert (exists l, l ∈ List.filter (fun l => in_session session_id l && (low <? l.1)) log
                        /\ l.1 <= high) as Hex by (by exists r). specialize (IH2 Hex). lia.
    + by split.
Qed.

Lemma settle_decreases low s t :
  stream_ok low s -> settle_step session_id s t -> (settle_bound t < settle_bound s)%nat.
Proof.
  intros Hok Hstep. revert Hok.
  destruct Hstep as [[db event pending late channel st]
                    |[db late channel st Hrep|db pending late event channel st Hrep]];
    intros Hok; unfold settle_bound; simpl.
  - rewrite length_app. simpl. lia.
  - rewrite Hrep. unfold replay_window. rewrite replayed_window, yield_all.
    2: { apply Forall_forall. intros e (l & -> & _)%list_elem_of_fmap. rewrite stored_seq. eauto. }
    rewrite length_map.
    assert (length (take 500 (after (seen st) db)) = Nat.min 500 (length (after (seen st) db))) as Hlen
      by apply length_take.
    assert (forall r, last (take 500 (after (seen st) db)) = Some r ->
      seen st < r.1 /\ r ∈ after (seen st) db) as Hwindow.
    { intros r Hlast. pose proof (take_window _ _ _ _ (so_reachable _ _ Hok) Hlast) as (_ & Hgt & _).
      split; [done|].
      eapply subseteq_take. by apply last_Some_elem_of in Hlast. }
    set (w := take 500 (after (seen st) db)) in *. clearbody w.
    destruct (Z.ltb_spec (Z.of_nat (length w)) REPLAY_WINDOW) as [|Hfull]; simpl; [lia|].
    destruct (last w) as [r|] eqn:Hlast.
    + destruct (Hwindow _ eq_refl) as [Hgt Hin]. unfold seen at 1. simpl.
      change (map stored w) with (stored <$> w). rewrite fmap_last, Hlast. cbn [fmap option_fmap option_map from_option]. rewrite stored_seq. cbn [default from_option id].
      destruct (after_shrinks (seen st) r.1 db) as [_ Hs]; [lia|].
      assert (length (after r.1 db) < length (after (seen st) db))%nat by (apply Hs; by exists r). lia.
    + apply last_None in Hlast as ->. unfold REPLAY_WINDOW in Hfull. simpl in Hfull. lia.
  - rewrite receive_replay, Hrep. lia.
Qed.

Lemma settle_progress s :
  sy_late s = [] -> quiescent s \/ exists t, settle_step session_id s t.
Proof.
  destruct s as [db [|event pending] late channel st]; simpl; intros ->.
  - destruct (es_replay_required st) eqn:Hrep; [right; eexists; right; by constructor|].
    destruct channel as [|event channel]; [by left|right; eexists; right; by constructor].
  - right. eexists. left. constructor.
Qed.

Lemma settles low s :
  stream_ok low s -> exists t, rtc (settle_step session_id) s t /\ quiescent t /\ stream_ok low t
    /\ sy_db t = sy_db s.
Proof.
  remember (settle_bound s) as n eqn:Hn. revert s Hn.
  induction n as [n IH] using (well_founded_induction lt_wf). intros s -> Hok.
  destruct (settle_progress s) as [Hq|[t Hst]]; [apply Hok|by exists s|].
  destruct (IH _ (settle_decreases _ _ _ Hok Hst) t eq_refl) as (u & Htu & Hq & Hu & Hdb).
  { eapply locked_ok; [by apply settle_is_locked|done]. }
  exists u. split_and!; [by eapply rtc_l|done|done|]. rewrite Hdb. by destruct Hst as [[]|[]].
Qed.

(** ** What is published late *)

(** An event at or before the last one seen that was not yielded. *)
Definition missed (logged : Z * EventEnvelope) (s : System) : Prop :=
  logged.1 <= seen (sy_stream s) /\ stored logged ∉ es_yielded (sy_stream s).

Lemma missed_replay logged db st :
  logged.1 <= seen st -> stored logged ∉ es_yielded st ->
  logged.1 <= seen (replay_window session_id db st)
  /\ stored logged ∉ es_yielded (replay_window session_id db st).
Proof.
  intros Hle Hnot. unfold replay_window. rewrite replayed_window, yield_all.
  2: { apply Forall_forall. intros e (l & -> & _)%list_elem_of_fmap. rewrite stored_seq. eauto. }
  assert (forall l, l ∈ take 500 (after (seen st) db) -> seen st < l.1) as Habove.
  { intros l Hl%subseteq_take. unfold after in Hl. rewrite list_elem_of_In, filter_In in Hl.
    destruct Hl as [_ [_ Hl]%andb_true_iff]. by apply Z.ltb_lt. }
  set (w := take 500 (after (seen st) db)) in *. clearbody w. split.
  - unfold seen at 1. simpl. change (map stored w) with (stored <$> w). rewrite fmap_last.
    destruct (last w) as [r|] eqn:Hr; simpl; [|done].
    apply last_Some_elem_of, Habove in Hr. lia.
  - simpl. rewrite elem_of_app. intros [|(l & Heq & Hl)%list_elem_of_fmap]; [done|].
    apply (f_equal ev_seq_id) in Heq. rewrite !stored_seq in Heq. injection Heq as Heq.
    apply Habove in Hl. lia.
Qed.

Lemma missed_receive logged event st :
  0 < logged.1 -> logged.1 <= seen st -> stored logged ∉ es_yielded st ->
  logged.1 <= seen (receive session_id event st)
  /\ stored logged ∉ es_yielded (receive session_id event st).
Proof.
  intros Hpos Hle Hnot. unfold receive. case_bool_decide; simpl; [|done].
  unfold seen in *. destruct (es_last_seen st) as [last_seen|] eqn:Hs; simpl in *; [|lia].
  destruct (ev_seq_id event) as [q|] eqn:Hq; unfold yield_event; rewrite ?Hq; simpl; rewrite ?Hs; simpl.
  - destruct (Z.leb_spec q last_seen); simpl; rewrite ?Hs; simpl; [done|]. split; [lia|].
    rewrite elem_of_app. intros [|Heq%list_elem_of_singleton]; [done|].
    apply (f_equal ev_seq_id) in Heq. rewrite stored_seq, Hq in Heq. injection Heq as Heq. lia.
  - split; [done|]. rewrite elem_of_app. intros [|Heq%list_elem_of_singleton]; [done|].
    apply (f_equal ev_seq_id) in Heq. by rewrite stored_seq, Hq in Heq.
Qed.

(** It stays missed. *)
Lemma missed_step logged s t :
  0 < logged.1 -> step session_id s t -> missed logged s -> missed logged t.
Proof.
  intros Hpos [[Hw|[Hr|Hl]]|Hlate] [Hle Hnot].
  - by destruct Hw.
  - destruct Hr; [by apply missed_replay|by apply missed_receive].
  - by destruct Hl.
  - by destruct Hlate.
Qed.
End laws.

Section theorems.
Context `{codec : RowCodec}.

(** C30. While every method publishes under the store's lock, a subscriber
    misses nothing: whatever the interleaving of commits, publications,
    replays, receptions and lags, it has yielded exactly the events of its
    session after the last event it knew, up to the last it has seen, each
    once and in the order of the log; and all of them whenever nothing is
    left to do. *)
Theorem stream_is_log session_id db last_event_id s :
  reachable db -> rtc (locked_step session_id) (start_system db last_event_id) s ->
  let low := default 0 last_event_id in
  es_yielded (sy_stream s) = session_events session_id low (seen (sy_stream s)) (sy_db s)
  /\ (quiescent s ->
      es_yielded (sy_stream s)
      = map stored (List.filter (fun l => in_session session_id l && (low <? l.1))
                      (db_events (sy_db s)))).
Proof.
  intros Hr Hs low. pose proof (locked_reachable_ok session_id db last_event_id s Hr Hs) as Hok.
  split; [by apply Hok|by apply quiescent_all].
Qed.

(** C31. And it catches up: when no new call commits and the channel does not
    lag, only a bounded number of steps can follow, whatever their order, and
    they cannot stop before the subscriber has yielded every event of its
    session after the last one it knew. *)
Theorem stream_catches_up session_id db last_event_id s n t :
  reachable db -> rtc (locked_step session_id) (start_system db last_event_id) s ->
  nsteps (settle_step session_id) n s t ->
  (n + settle_bound session_id t <= settle_bound session_id s)%nat
  /\ sy_db t = sy_db s
  /\ ((exists t', settle_step session_id t t')
      \/ es_yielded (sy_stream t)
         = map stored (List.filter (fun l => in_session session_id l
             && (default 0 last_event_id <? l.1)) (db_events (sy_db s)))).
Proof.
  intros Hr Hs Hn. pose proof (locked_reachable_ok session_id db last_event_id s Hr Hs) as Hok.
  clear Hs. assert (stream_ok session_id (default 0 last_event_id) t
    /\ (n + settle_bound session_id t <= settle_bound session_id s)%nat /\ sy_db t = sy_db s)
    as (Hokt & Hbound & Hdb).
  { induction Hn as [s|n x y z Hxy Hyz IH]; [split_and!; [done|simpl; lia|done]|].
    destruct IH as (Hz & Hb & Hd); [eapply locked_ok; [by apply settle_is_locked|done]|].
    pose proof (settle_decreases _ _ _ _ Hok Hxy). split_and!; [done|lia|].
    rewrite Hd. by destruct Hxy as [[]|[]]. }
  split_and!; [done|done|]. destruct (settle_progress session_id t) as [Hq|]; [apply Hokt| |by left].
  right. rewrite <- Hdb. by apply quiescent_all.
Qed.

(** An event published after the lock is released can be lost for good:
    whenever one of the methods that publish late appends an event of the
    session and another call then appends one, there is a run that ends with
    nothing left to do, both events in the log, and the first never yielded,
    then or however the run continues, whatever is replayed. *)
Theorem late_publication_lost session_id db last_event_id op1 op2 logged1 logged2 :
  reachable db -> by_runtime op1 = true -> published_late op1 = true ->
  by_runtime op2 = true -> published_late op2 = false ->
  db_events (run_op op1 db) = db_events db ++ [logged1] ->
  db_events (run_op op2 (run_op op1 db)) = db_events (run_op op1 db) ++ [logged2] ->
  in_session session_id logged1 = true -> in_session session_id logged2 = true ->
  default 0 last_event_id < logged1.1 ->
  exists s, rtc (step session_id) (start_system db last_event_id) s
    /\ quiescent s /\ sy_db s = run_op op2 (run_op op1 db)
    /\ forall t, rtc (step session_id) s t -> stored logged1 ∉ es_yielded (sy_stream t).
Proof.
  intros Hr Hr1 Hl1 Hr2 Hl2 Hlog1 Hlog2 Hs1 Hs2 Hlow.
  destruct (settles session_id _ _ (start_ok session_id db last_event_id Hr))
    as (s0 & Hrun & (Hp & Hlate & Hc & Hrep) & Hok & Hdb).
  pose proof (so_late _ _ _ Hok) as Hlate0. pose proof (so_top _ _ _ Hok) as Htop.
  pose proof (so_yielded _ _ _ Hok) as Hy.
  destruct s0 as [db0 pending late channel st]. simpl in *. subst db0 pending late channel.
  assert (forall l, l ∈ db_events db -> l.1 < logged1.1) as Hold.
  { intros l Hl. pose proof (log_sorted (run_op op1 db) (reachable_op _ _ Hr)) as Hsort.
    rewrite Hlog1 in Hsort. eapply sorted_app_lt; [exact Hsort|exact Hl|by left]. }
  assert (logged1.1 < logged2.1) as H12.
  { pose proof (log_sorted _ (reachable_op op2 _ (reachable_op op1 _ Hr))) as Hsort.
    rewrite Hlog2, Hlog1 in Hsort. eapply sorted_app_lt; [exact Hsort| |by left].
    apply elem_of_app. right. by left. }
  assert (0 < logged1.1) as Hpos.
  { apply (log_positive (run_op op1 db)); [by apply reachable_op|]. rewrite Hlog1.
    apply elem_of_app. right. by left. }
  assert (seen st < logged1.1) as Hseen.
  { destruct Htop as [->|(l & Hl & <-)]; [done|by apply Hold]. }
  assert (stored logged1 ∉ es_yielded st) as Hnot.
  { rewrite Hy. unfold session_events. intros (l & Heq & Hl)%list_elem_of_fmap.
    rewrite list_elem_of_In, filter_In, <- list_elem_of_In in Hl. destruct Hl as [Hl _].
    apply (f_equal ev_seq_id) in Heq. rewrite !stored_seq in Heq. injection Heq as Heq.
    apply Hold in Hl. lia. }
  set (db1 := run_op op1 db) in *. set (db2 := run_op op2 db1) in *.
  assert (appended db db1 = [stored logged1] /\ appended db1 db2 = [stored logged2]) as [Ha1 Ha2].
  { unfold appended. by rewrite Hlog2, Hlog1, !drop_app_length. }
  assert (receive session_id (stored logged2) st
          = MkStreamState (Some logged2.1) false (es_yielded st ++ [stored logged2])) as Hrec2.
  { rewrite receive_stored, Hs2, Hrep. simpl. unfold seen in Hseen.
    destruct (es_last_seen st) as [q|]; simpl in *; [|done].
    destruct (Z.leb_spec logged2.1 q); [lia|done]. }
  set (st2 := MkStreamState (Some logged2.1) false (es_yielded st ++ [stored logged2])) in *.
  assert (receive session_id (stored logged1) st2 = st2) as Hrec1.
  { rewrite receive_stored, Hs1. simpl. destruct (Z.leb_spec logged1.1 logged2.1); [done|lia]. }
  exists (MkSystem db2 [] [[]] [] st2). split_and!; [|done..|].
  - etrans.
    { eapply rtc_subrel; [|exact Hrun]. intros x y Hxy. left. by apply settle_is_locked. }
    eapply rtc_l; [right; by apply (step_commit_late db [] [] st op1)|]. fold db1. rewrite Ha1.
    eapply rtc_l; [left; left; by apply (step_commit db1 [[stored logged1]] [] st op2)|].
    fold db2. rewrite Ha2.
    eapply rtc_l; [left; left; apply step_publish|]. simpl.
    eapply rtc_l; [left; right; left; by apply step_receive|]. rewrite Hrec2.
    eapply rtc_l; [right; apply (step_publish_late db2 [] (stored logged1) [] [] [])|]. simpl.
    eapply rtc_l; [left; right; left; by apply step_receive|]. by rewrite Hrec1.
  - assert (missed logged1 (MkSystem db2 [] [[]] [] st2)) as Hm.
    { split; unfold seen; simpl; [lia|]. rewrite elem_of_app.
      intros [|Heq%list_elem_of_singleton]; [done|].
      apply (f_equal ev_seq_id) in Heq. rewrite !stored_seq in Heq. injection Heq as Heq. lia. }
    intros t Ht. assert (missed logged1 t) as [_ ?]; [|done].
    revert Ht. apply (rtc_ind_r (missed logged1)); [done|].
    intros y z _ Hyz Hmy. by eapply missed_step.
Qed.
End theorems.

(** ** Runs *)

Definition replayed_system : System :=
  MkSystem sample_db [] [] []
    (replay_window (MkUuid 1) sample_db (subscribed (Some 3))).

Lemma replayed_run :
  rtc (locked_step (MkUuid 1)) (start_system sample_db (Some 3)) replayed_system.
Proof.
  eapply rtc_l; [|apply rtc_refl]. right. left.
  apply (step_replay (MkUuid 1) sample_db [] [] (subscribed (Some 3))). reflexivity.
Qed.

Lemma stream_is_log_witness :
  length (es_yielded (sy_stream replayed_system)) = 5%nat
  /\ es_yielded (sy_stream replayed_system)
     = map stored (List.filter (fun l => in_session (MkUuid 1) l && (default 0 (Some 3) <? l.1))
         (db_events (sy_db replayed_system))).
Proof.
  split; [vm_compute; reflexivity|].
  destruct (stream_is_log (MkUuid 1) sample_db (Some 3) replayed_system sample_reachable
    replayed_run) as [_ Hall].
  apply Hall. split; [reflexivity|]. split; [reflexivity|]. split; [reflexivity|].
  vm_compute. reflexivity.
Defined.

Lemma stream_catches_up_witness :
  (1 + settle_bound (MkUuid 1) replayed_system
   <= settle_bound (MkUuid 1) (start_system sample_db (Some 3%Z)))%nat.
Proof.
  destruct (stream_catches_up (MkUuid 1) sample_db (Some 3)
    (start_system sample_db (Some 3)) 1 replayed_system sample_reachable) as [Hbound _].
  - apply rtc_refl.
  - eapply nsteps_l; [|apply nsteps_O]. right.
    apply (step_replay (MkUuid 1) sample_db [] [] (subscribed (Some 3))). reflexivity.
  - exact Hbound.
Defined.

(** A chunk of the running turn, and a cancellation by the operator. *)
Definition chunk_op : StoreOp :=
  OpRawChunkWithEvent 20 (MkUuid 1) (MkUuid 2) (Some (MkUuid 8)) None "p" "completion" "data"
    (fun chunk_index =>
       Ok (sample_event 20 (RawChunkPersisted "p" chunk_index "completion" None))).
Definition cancel_op : StoreOp := OpAppend (sample_event 21 (SessionCancelled "operator")).

Lemma late_publication_lost_witness :
  exists s, quiescent s
    /\ stored (9, sample_event 20 (RawChunkPersisted "p" 1 "completion" None))
         ∈ load_all_events (MkUuid 1) (sy_db s)
    /\ forall t, rtc (step (MkUuid 1)) s t ->
         stored (9, sample_event 20 (RawChunkPersisted "p" 1 "completion" None))
           ∉ es_yielded (sy_stream t).
Proof.
  destruct (late_publication_lost (MkUuid 1) sample_db (Some 3) chunk_op cancel_op
    (9, sample_event 20 (RawChunkPersisted "p" 1 "completion" None))
    (10, sample_event 21 (SessionCancelled "operator"))) as (s & _ & Hq & Hdb & Hlost).
  - apply sample_reachable.
  - reflexivity.
  - reflexivity.
  - reflexivity.
  - reflexivity.
  - vm_compute. reflexivity.
  - vm_compute. reflexivity.
  - reflexivity.
  - reflexivity.
  - reflexivity.
  - exists s. split; [exact Hq|]. split; [|exact Hlost]. rewrite Hdb.
    apply list_elem_of_lookup. exists 8%nat. vm_compute. reflexivity.
Defined.
