(* ===== verification/Runtime.v ===== *)
(** * The runtime: state and event records ([crates/bt-runtime/src/runtime])

    [BelltowerRuntime] puts a session store, the broadcast of events, the
    in-memory cancellation signals and the approval decisions behind
    mutexes; its methods build events and commit them.  Here a method is a
    function of the state that returns a result and the next state ([Rt]):
    an error keeps what was done before it.  The locks of one call are taken
    one after the other, so a call alone runs as its sections in sequence;
    [EventStream] interleaves the sections of several calls.

    Generated identifiers and the clock are read from a supply ([Entropy])
    indexed by a counter.  A lock is never poisoned here, since no section
    panics; the test fault and the telemetry mirror have no effect on the
    state and are left out. *)

From stdpp Require Import base list strings gmap.
From Stdlib Require Import ZArith Lia.
From S2P Require Import Prelude Text Json Types Messages TurnProjection Approvals Store StoreOps.
From S2P Require Import StoreRelated StoreQueries.

#[local] Open Scope Z_scope.

(** ** State *)

(** [Uuid::new_v4] and [OffsetDateTime::now_utc], by the number of readings. *)
Class Entropy : Type := {
  fresh_uuid : nat -> N;
  clock : nat -> OffsetDateTime;
}.

(** [ConnectionDescriptor], the fields the runtime reads. *)
Record ConnectionDescriptor : Type := MkConnectionDescriptor {
  cd_id : ConnectionId;
  cd_provider : string;
  cd_default_model : string;
}.

(** The signal is shared, so an entry holds its address. *)
Record ActiveCancellationEntry : Type := MkActiveCancellationEntry {
  ac_branch_id : BranchId;
  ac_turn_id : TurnId;
  ac_signal : nat;
}.

Record Runtime : Type := MkRuntime {
  rt_store : Db;
  rt_bus : list EventEnvelope;
  rt_active : gmap SessionId ActiveCancellationEntry;
  rt_signals : list bool;
  rt_approvals : ApprovalState;
  rt_connections : list ConnectionDescriptor;
  rt_ticks : nat;
}.

Definition set_store (db : Db) (rt : Runtime) : Runtime :=
  MkRuntime db (rt_bus rt) (rt_active rt) (rt_signals rt) (rt_approvals rt) (rt_connections rt)
    (rt_ticks rt).
Definition set_bus (bus : list EventEnvelope) (rt : Runtime) : Runtime :=
  MkRuntime (rt_store rt) bus (rt_active rt) (rt_signals rt) (rt_approvals rt)
    (rt_connections rt) (rt_ticks rt).
Definition set_active (active : gmap SessionId ActiveCancellationEntry) (rt : Runtime)
    : Runtime :=
  MkRuntime (rt_store rt) (rt_bus rt) active (rt_signals rt) (rt_approvals rt)
    (rt_connections rt) (rt_ticks rt).
Definition set_signals (signals : list bool) (rt : Runtime) : Runtime :=
  MkRuntime (rt_store rt) (rt_bus rt) (rt_active rt) signals (rt_approvals rt)
    (rt_connections rt) (rt_ticks rt).
Definition set_approval_state (approvals : ApprovalState) (rt : Runtime) : Runtime :=
  MkRuntime (rt_store rt) (rt_bus rt) (rt_active rt) (rt_signals rt) approvals
    (rt_connections rt) (rt_ticks rt).
Definition tick (rt : Runtime) : Runtime :=
  MkRuntime (rt_store rt) (rt_bus rt) (rt_active rt) (rt_signals rt) (rt_approvals rt)
    (rt_connections rt) (S (rt_ticks rt)).

(** ** Methods *)

Definition Rt (A : Type) : Type := Runtime -> Result A * Runtime.

#[export] Instance rt_ret : MRet Rt := fun A a rt => (Ok a, rt).
#[export] Instance rt_bind : MBind Rt := fun A B k m rt =>
  match m rt with
  | (Ok a, rt') => k a rt'
  | (Err e, rt') => (Err e, rt')
  end.

Definition rt_fail {A} (e : BelltowerError) : Rt A := fun rt => (Err e, rt).
Definition rt_lift {A} (r : Result A) : Rt A := fun rt => (r, rt).
Definition rt_modify (f : Runtime -> Runtime) : Rt unit := fun rt => (Ok tt, f rt).

(** A section of the store lock that only reads. *)
Definition read {A} (f : Db -> A) : Rt A := fun rt => (Ok (f (rt_store rt)), rt).
Definition read_result {A} (f : Db -> Result A) : Rt A := fun rt => (f (rt_store rt), rt).

(** A transaction of the store. *)
Definition commit {A} (f : Db -> Result A * Db) : Rt A := fun rt =>
  let '(r, db) := f (rt_store rt) in (r, set_store db rt).

Fixpoint rt_iter {A} (f : A -> Rt unit) (l : list A) : Rt unit :=
  match l with
  | [] => mret tt
  | a :: l' => _ ← f a; rt_iter f l'
  end.

(** ** Attribute names ([oi_attrs] of [bt-core/src/events.rs]) *)

Definition INPUT_VALUE : string := "input.value".
Definition OUTPUT_VALUE : string := "output.value".
Definition LLM_PROVIDER : string := "llm.provider".
Definition LLM_MODEL_NAME : string := "llm.model_name".

(** ** Steering *)

(** [combine_steer_messages] *)
Definition combine_steer_messages (messages : list string) : string := join (nl +:+ nl) messages.

Section runtime.
Context `{codec : RowCodec} `{entropy : Entropy}.

(** ** The supply *)

Definition fresh_id {tag} : Rt (UuidId tag) := fun rt =>
  (Ok (MkUuid (fresh_uuid (rt_ticks rt))), tick rt).

Definition now_utc : Rt OffsetDateTime := fun rt => (Ok (clock (rt_ticks rt)), tick rt).

(** [EventEnvelope::new] *)
Definition new_event (session_id : SessionId) (branch_id : BranchId) (span_kind : SpanKind)
    (payload : EventPayload) : Rt EventEnvelope :=
  event_id ← fresh_id;
  span_id ← fresh_id;
  now ← now_utc;
  mret (new_envelope event_id span_id now session_id branch_id span_kind payload).

(** [Message::text], [Message::from_part] *)
Definition new_text_message (role : Role) (text : string) : Rt Message :=
  id ← fresh_id; now ← now_utc; mret (message_text id now role text).
Definition new_part_message (role : Role) (part : MessagePart) : Rt Message :=
  id ← fresh_id; now ← now_utc; mret (message_from_part id now role part).

(** [tool_result_message] *)
Definition rt_tool_result_message (result : ToolResultEnvelope) : Rt Message :=
  new_part_message RoleTool (PToolResult result).

(** [EventEnvelope::with_turn_id], [apply_turn_id] *)
Definition bind_turn (event : EventEnvelope) (turn_id : TurnId) : EventEnvelope :=
  with_turn_id show_uuid event turn_id.
Definition apply_turn_id (event : EventEnvelope) (turn_id : option TurnId) : EventEnvelope :=
  match turn_id with Some turn_id => bind_turn event turn_id | None => event end.

(** An event of a turn, if there is one. *)
Definition turn_event (session_id : SessionId) (branch_id : BranchId) (span_kind : SpanKind)
    (payload : EventPayload) (turn_id : option TurnId) : Rt EventEnvelope :=
  event ← new_event session_id branch_id span_kind payload;
  mret (apply_turn_id event turn_id).

(** ** Publishing ([records.rs]) *)

(** [publish_committed_event]: the broadcast never fails the caller. *)
Definition publish_committed_event (event : EventEnvelope) (seq_id : Z) : Rt unit :=
  rt_modify (fun rt => set_bus (rt_bus rt ++ [with_seq_id event seq_id]) rt).

(** [for (event, seq_id) in events.zip(seq_ids)] *)
Definition publish_all (events : list EventEnvelope) (seq_ids : list Z) : Rt unit :=
  rt_iter (fun p => publish_committed_event p.1 p.2) (zip events seq_ids).

(** [ensure_session_started_for]: one section of the store lock. *)
Definition ensure_session_started_for (session_id : SessionId) (branch_id : BranchId)
    : Rt unit :=
  has_events ← read (session_has_events session_id);
  if has_events : bool then mret tt else
  loaded ← read_result (load_session session_id);
  session ← rt_lift (ok_or (InvalidState "session not found") loaded);
  started_event ← new_event (se_session_id session) branch_id SpanSession
    (SessionStarted (se_project_root session) (connection_name (se_connection_id session)));
  seq_id ← commit (append_event started_event);
  publish_committed_event started_event seq_id.

(** [ensure_session_started] *)
Definition ensure_session_started (event : EventEnvelope) : Rt unit :=
  ensure_session_started_for (ev_session_id event) (ev_branch_id event).

Definition is_session_started (event : EventEnvelope) : bool :=
  match ev_payload event with SessionStarted _ _ => true | _ => false end.

Definition ensure_started_unless_start (event : EventEnvelope) : Rt unit :=
  if is_session_started event then mret tt else ensure_session_started event.

(** [append_event_with_store_mutation], with the store's call *)
Definition append_event_with_store_mutation (event : EventEnvelope)
    (mutation : EventEnvelope -> Db -> Result Z * Db) : Rt Z :=
  _ ← ensure_started_unless_start event;
  seq_id ← commit (mutation event);
  _ ← publish_committed_event event seq_id;
  mret seq_id.

(** [append_event] *)
Definition rt_append_event (event : EventEnvelope) : Rt Z :=
  append_event_with_store_mutation event append_event.

(** [append_events] *)
Definition rt_append_events (events : list EventEnvelope) : Rt (list Z) :=
  _ ← rt_iter ensure_started_unless_start events;
  seq_ids ← commit (append_events events);
  _ ← publish_all events seq_ids;
  mret seq_ids.

(** [append_active_turn_events] *)
Definition append_active_turn_events (session_id : SessionId) (branch_id : BranchId)
    (turn_id : TurnId) (events : list EventEnvelope) : Rt (list Z) :=
  _ ← rt_iter ensure_session_started events;
  seq_ids ← commit (commit_active_turn_events session_id branch_id turn_id events);
  _ ← publish_all events seq_ids;
  mret seq_ids.

(** [append_optional_active_turn_events] *)
Definition append_optional_active_turn_events (session_id : SessionId) (branch_id : BranchId)
    (turn_id : option TurnId) (events : list EventEnvelope) : Rt (list Z) :=
  match turn_id with
  | Some turn_id => append_active_turn_events session_id branch_id turn_id events
  | None => rt_append_events events
  end.

(** The [expect] on the one sequence id of a one-event transition; the
    default is not reached, as the store returns one id per event. *)
Definition only_seq_id (seq_ids : list Z) : Z := default 0 (head seq_ids).

(** [append_optional_active_turn_event] *)
Definition append_optional_active_turn_event (event : EventEnvelope) (turn_id : option TurnId)
    : Rt Z :=
  seq_ids ← append_optional_active_turn_events (ev_session_id event) (ev_branch_id event)
              turn_id [event];
  mret (only_seq_id seq_ids).

(** [is_cancelled]: the canonical control state *)
Definition is_cancelled (session_id : SessionId) : Rt bool :=
  control ← read_result (load_session_control session_id);
  mret (is_some_and ct_cancel_requested control).

(** ** Admission and continuations ([records.rs]) *)

(** [commit_turn_admission]: what was committed is published, the
    cancellation's clearing first when there is one id more than events. *)
Definition commit_turn_admission (session_id : SessionId) (expected_settings_revision_id : Z)
    (cancel_clear_event : EventEnvelope) (started_events queued_events : list EventEnvelope)
    : Rt SessionTurnAdmission :=
  _ ← match head started_events, head queued_events with
      | Some event, _ | None, Some event => ensure_session_started event
      | None, None => mret tt
      end;
  outcome ← commit (admit_turn_or_queue session_id expected_settings_revision_id
                      cancel_clear_event started_events queued_events);
  _ ← match outcome with
      | AdmissionStarted seq_ids =>
          publish_all
            ((if Nat.eqb (length seq_ids) (length started_events + 1)
              then [cancel_clear_event] else []) ++ started_events) seq_ids
      | AdmissionQueued seq_ids _ => publish_all queued_events seq_ids
      | RetryWithSettings _ | AdmissionBudgetExhausted => mret tt
      end;
  mret outcome.

Definition publish_claim (events : list EventEnvelope) (outcome : ContinuationClaim) : Rt unit :=
  match outcome with
  | ClaimClaimed seq_ids => publish_all events seq_ids
  | _ => mret tt
  end.

(** [commit_queued_continuation] *)
Definition commit_queued_continuation (session_id : SessionId) (queue_event_id : EventId)
    (events : list EventEnvelope) : Rt ContinuationClaim :=
  outcome ← commit (claim_queued_continuation session_id queue_event_id events);
  _ ← publish_claim events outcome;
  mret outcome.

(** [commit_steer_continuation] *)
Definition commit_steer_continuation (session_id : SessionId) (branch_id : BranchId)
    (steer_event_ids : list EventId) (events : list EventEnvelope) : Rt ContinuationClaim :=
  outcome ← commit (claim_steer_continuation session_id branch_id steer_event_ids events);
  _ ← publish_claim events outcome;
  mret outcome.

(** [commit_resumed_continuation] *)
Definition commit_resumed_continuation (session_id : SessionId) (branch_id : BranchId)
    (call_id : ToolCallId) (tool_name : string) (expected_turn_id : TurnId)
    (expected_request_seq_id settings_revision_id : Z) (kind : ResumedContinuationKind)
    (events : list EventEnvelope) : Rt ContinuationClaim :=
  outcome ← commit (claim_resumed_continuation session_id branch_id call_id tool_name
                      expected_turn_id expected_request_seq_id settings_revision_id kind events);
  _ ← publish_claim events outcome;
  mret outcome.
End runtime.

(** ** A concrete supply *)

(** Identifiers and times that count up. *)
Definition counting_entropy : Entropy :=
  {| fresh_uuid := fun n => N.of_nat (100 + n); clock := Z.of_nat |}.

Definition sample_connection : ConnectionDescriptor :=
  MkConnectionDescriptor (MkConnectionId "c") "p" "m".
