(* ===== verification/RuntimeBudget.v ===== *)
(** * The runtime: usage, prices and budget windows

    [runtime/budget.rs], the accounting helpers of [runtime/support.rs], and
    the terminal transitions of [runtime/sessions.rs]: what a turn used since
    its last checkpoint, the checkpoint made of it, and the commit that ends
    the turn, which a pending cancellation turns into a cancelled one. *)

From stdpp Require Import base list strings gmap.
From Stdlib Require Import ZArith Lia SpecFloat.
From S2P Require Import Prelude Text Json Types Messages TurnProjection Approvals Store StoreOps.
From S2P Require Import StoreRelated StoreQueries Runtime.

#[local] Open Scope Z_scope.

(** ** Prices ([runtime/support.rs]) *)

Definition f64_div (a b : f64) : f64 := SFdiv 53 1024 a b.
Definition f64_million : f64 := u64_as_f64 1000000.

(** [PricingEntry] of [bt-core/src/config.rs] *)
Record PricingEntry : Type := MkPricingEntry {
  pe_provider : string;
  pe_model_pattern : string;
  pe_prompt_usd_per_million : f64;
  pe_completion_usd_per_million : f64;
  pe_cache_read_usd_per_million : option f64;
  pe_cache_write_usd_per_million : option f64;
  pe_reasoning_usd_per_million : option f64;
}.

(** [token_class_cost_usd]: [None] when the class was used but has no price. *)
Definition token_class_cost_usd (tokens : option Z) (usd_per_million : option f64)
    : option (option f64) :=
  match tokens with
  | None => Some None
  | Some tokens =>
      if tokens =? 0 then Some (Some f64_zero)
      else (fun rate => Some (f64_div (f64_mul (u64_as_f64 tokens) rate) f64_million))
             <$> usd_per_million
  end.

Definition prices (provider model : string) (entry : PricingEntry) : bool :=
  String.eqb (pe_provider entry) provider && starts_with (pe_model_pattern entry) model.

(** [max_by_key] returns the last of the greatest. *)
Definition longer_pattern (best : option PricingEntry) (entry : PricingEntry)
    : option PricingEntry :=
  match best with
  | Some b => if Nat.ltb (byte_len (pe_model_pattern entry)) (byte_len (pe_model_pattern b))
              then best else Some entry
  | None => Some entry
  end.

(** [best_pricing_entry] *)
Definition best_pricing_entry (entries : list PricingEntry) (provider model : string)
    : option PricingEntry :=
  fold_left longer_pattern (List.filter (prices provider model) entries) None.

(** [completion_cost_breakdown]; [catalog] is [BelltowerConfig::pricing_catalog]. *)
Definition completion_cost_breakdown (catalog : Result (list PricingEntry))
    (provider model : string) (usage : TokenUsage) : Result (option CostBreakdown) :=
  if tu_total_tokens usage =? 0 then Ok None else
  entries ← catalog;
  Ok (pricing ← best_pricing_entry entries provider model;
      let prompt_usd :=
        f64_div (f64_mul (u64_as_f64 (tu_prompt_tokens usage))
                   (pe_prompt_usd_per_million pricing)) f64_million in
      let completion_usd :=
        f64_div (f64_mul (u64_as_f64 (tu_completion_tokens usage))
                   (pe_completion_usd_per_million pricing)) f64_million in
      cache_read_usd ← token_class_cost_usd (tu_cache_read_tokens usage)
                         (pe_cache_read_usd_per_million pricing);
      cache_write_usd ← token_class_cost_usd (tu_cache_write_tokens usage)
                          (pe_cache_write_usd_per_million pricing);
      reasoning_usd ← token_class_cost_usd (tu_reasoning_tokens usage)
                        (pe_reasoning_usd_per_million pricing);
      let token_class_total :=
        f64_add (f64_add (default f64_zero cache_read_usd) (default f64_zero cache_write_usd))
          (default f64_zero reasoning_usd) in
      Some {| cb_prompt_usd := prompt_usd;
              cb_completion_usd := completion_usd;
              cb_total_usd := f64_add (f64_add prompt_usd completion_usd) token_class_total;
              cb_cache_read_usd := cache_read_usd;
              cb_cache_write_usd := cache_write_usd;
              cb_reasoning_usd := reasoning_usd |}).

(** ** Usage *)

(** [payload_turn_id] *)
Definition payload_turn_id (payload : EventPayload) : option TurnId :=
  match payload with
  | TurnStarted turn_id _ _ _ _ _ _ | TurnFinished turn_id _ _ _ _ _ => Some turn_id
  | TurnInstructionProvenanceRecorded provenance => Some (pv_turn_id provenance)
  | _ => None
  end.

Definition zero_usage : TokenUsage := MkTokenUsage 0 0 0 (Some 0) (Some 0) (Some 0).

Definition sum_token_usage (existing next : TokenUsage) : TokenUsage :=
  let sum f := Some (u64_add (default 0 (f existing)) (default 0 (f next))) in
  {| tu_prompt_tokens := u64_add (tu_prompt_tokens existing) (tu_prompt_tokens next);
     tu_completion_tokens := u64_add (tu_completion_tokens existing) (tu_completion_tokens next);
     tu_total_tokens := u64_add (tu_total_tokens existing) (tu_total_tokens next);
     tu_cache_read_tokens := sum tu_cache_read_tokens;
     tu_cache_write_tokens := sum tu_cache_write_tokens;
     tu_reasoning_tokens := sum tu_reasoning_tokens |}.

Definition merge_cost_totals (existing delta : option f64) : option f64 :=
  match existing, delta with
  | Some existing, Some delta => Some (f64_add existing delta)
  | Some existing, None => Some existing
  | None, Some delta => Some delta
  | None, None => None
  end.

(** [rounded_elapsed_seconds]: times are nanoseconds; a part of a second
    counts as one. *)
Definition rounded_elapsed_seconds (started_at : OffsetDateTime)
    (finished_at : option OffsetDateTime) : Z :=
  match finished_at with
  | None => 0
  | Some finished_at =>
      let elapsed := finished_at - started_at in
      if elapsed <? 0 then 0
      else
        let whole_seconds := elapsed / 1000000000 in
        if elapsed mod 1000000000 =? 0 then whole_seconds else whole_seconds + 1
  end.

(** ** The window of a turn ([runtime/budget.rs]) *)

(** [TurnBudgetWindow] of [runtime/types.rs] *)
Record TurnBudgetWindow : Type := MkTurnBudgetWindow {
  tb_base_tokens_used : Z;
  tb_base_turns_used : Z;
  tb_base_elapsed_seconds : Z;
  tb_base_cost_used_usd : option f64;
  tb_anchor_time : OffsetDateTime;
  tb_delta_usage : TokenUsage;
  tb_delta_cost_used_usd : option f64;
  tb_delta_cost_is_unknown : bool;
  tb_finished_at : option OffsetDateTime;
  tb_already_checkpointed : bool;
}.

Definition window_usage (w : TurnBudgetWindow) (usage : TokenUsage)
    (cost : option CostBreakdown) : TurnBudgetWindow :=
  {| tb_base_tokens_used := tb_base_tokens_used w;
     tb_base_turns_used := tb_base_turns_used w;
     tb_base_elapsed_seconds := tb_base_elapsed_seconds w;
     tb_base_cost_used_usd := tb_base_cost_used_usd w;
     tb_anchor_time := tb_anchor_time w;
     tb_delta_usage := sum_token_usage (tb_delta_usage w) usage;
     tb_delta_cost_used_usd :=
       match cost with
       | Some cost => Some (f64_add (default f64_zero (tb_delta_cost_used_usd w)) (cb_total_usd cost))
       | None => tb_delta_cost_used_usd w
       end;
     tb_delta_cost_is_unknown :=
       match cost with Some _ => tb_delta_cost_is_unknown w | None => true end;
     tb_finished_at := tb_finished_at w;
     tb_already_checkpointed := tb_already_checkpointed w |}.

Definition window_finished (w : TurnBudgetWindow) (finished_at : option OffsetDateTime)
    : TurnBudgetWindow :=
  {| tb_base_tokens_used := tb_base_tokens_used w;
     tb_base_turns_used := tb_base_turns_used w;
     tb_base_elapsed_seconds := tb_base_elapsed_seconds w;
     tb_base_cost_used_usd := tb_base_cost_used_usd w;
     tb_anchor_time := tb_anchor_time w;
     tb_delta_usage := tb_delta_usage w;
     tb_delta_cost_used_usd := tb_delta_cost_used_usd w;
     tb_delta_cost_is_unknown := tb_delta_cost_is_unknown w;
     tb_finished_at := finished_at;
     tb_already_checkpointed := tb_already_checkpointed w |}.

Definition window_anchor (w : TurnBudgetWindow) (anchor : OffsetDateTime) : TurnBudgetWindow :=
  {| tb_base_tokens_used := tb_base_tokens_used w;
     tb_base_turns_used := tb_base_turns_used w;
     tb_base_elapsed_seconds := tb_base_elapsed_seconds w;
     tb_base_cost_used_usd := tb_base_cost_used_usd w;
     tb_anchor_time := anchor;
     tb_delta_usage := tb_delta_usage w;
     tb_delta_cost_used_usd := tb_delta_cost_used_usd w;
     tb_delta_cost_is_unknown := tb_delta_cost_is_unknown w;
     tb_finished_at := tb_finished_at w;
     tb_already_checkpointed := tb_already_checkpointed w |}.

(** One event of the loop; the state is the window and [started_at]. *)
Definition window_step (turn_id : TurnId) (st : TurnBudgetWindow * option OffsetDateTime)
    (event : EventEnvelope) : TurnBudgetWindow * option OffsetDateTime :=
  let '(window, started_at) := st in
  let event_turn_id := match ev_turn_id event with
                       | Some t => Some t
                       | None => payload_turn_id (ev_payload event)
                       end in
  if negb (bool_decide (event_turn_id = Some turn_id)) then st
  else match ev_payload event with
       | TurnStarted _ _ _ _ _ _ _ => (window, Some (ev_occurred_at event))
       | CompletionFinished _ _ _ usage cost _ _ => (window_usage window usage cost, started_at)
       | TurnFinished _ _ _ _ _ _ =>
           (window_finished window (Some (ev_occurred_at event)), started_at)
       | BudgetCheckpoint tokens_used turns_used elapsed_seconds cost_used_usd =>
           ({| tb_base_tokens_used := tokens_used;
               tb_base_turns_used := turns_used;
               tb_base_elapsed_seconds := elapsed_seconds;
               tb_base_cost_used_usd := cost_used_usd;
               tb_anchor_time := ev_occurred_at event;
               tb_delta_usage := zero_usage;
               tb_delta_cost_used_usd := None;
               tb_delta_cost_is_unknown := false;
               tb_finished_at := tb_finished_at window;
               tb_already_checkpointed := true |}, started_at)
       | _ => st
       end.

Definition initial_window (projection : SessionBudgetProjection) : TurnBudgetWindow :=
  {| tb_base_tokens_used := bp_tokens_used projection;
     tb_base_turns_used := bp_turns_used projection;
     tb_base_elapsed_seconds := bp_elapsed_seconds projection;
     tb_base_cost_used_usd := bp_cost_used_usd projection;
     tb_anchor_time := bp_updated_at projection;
     tb_delta_usage := zero_usage;
     tb_delta_cost_used_usd := None;
     tb_delta_cost_is_unknown := false;
     tb_finished_at := None;
     tb_already_checkpointed := false |}.

Section budget.
Context `{codec : RowCodec} `{entropy : Entropy}.

(** [turn_budget_window], over the session's events *)
Definition turn_budget_window (events : list EventEnvelope) (turn_id : TurnId)
    (projection : SessionBudgetProjection) (terminal_at : option OffsetDateTime)
    : Result TurnBudgetWindow :=
  let '(window, started_at) :=
    fold_left (window_step turn_id) events (initial_window projection, None) in
  let turn := show_uuid (uuid turn_id) in
  window ← (if tb_already_checkpointed window then Ok window
            else started_at ← ok_or
                   (InvalidState ("turn `" +:+ turn
                      +:+ "` has no durable start event for budget checkpointing")) started_at;
                 Ok (window_anchor window started_at));
  let window := match tb_finished_at window with
                | None => window_finished window terminal_at
                | Some _ => window
                end in
  _ ← reject_if (negb (bool_decide (is_Some (tb_finished_at window))))
        (InvalidState ("turn `" +:+ turn
           +:+ "` has neither a durable finish nor an active terminal timestamp for budget checkpointing"));
  Ok window.

(** The counters of the checkpoint; the sums wrap. *)
Definition checkpoint_payload (w : TurnBudgetWindow) : EventPayload :=
  let elapsed_delta := rounded_elapsed_seconds (tb_anchor_time w) (tb_finished_at w) in
  let tokens_used := u64_add (tb_base_tokens_used w) (tu_total_tokens (tb_delta_usage w)) in
  let turns_used := u32_add (tb_base_turns_used w) (if tb_already_checkpointed w then 0 else 1) in
  let elapsed_seconds := u64_add (tb_base_elapsed_seconds w) elapsed_delta in
  let cost_used_usd :=
    if tb_delta_cost_is_unknown w then None
    else merge_cost_totals (tb_base_cost_used_usd w) (tb_delta_cost_used_usd w) in
  BudgetCheckpoint tokens_used turns_used elapsed_seconds cost_used_usd.

(** [budget_checkpoint_transition_at]: the checkpoint and the cancellation,
    when the session has a budget. *)
Definition budget_checkpoint_transition_at (session_id : SessionId) (branch_id : BranchId)
    (turn_id : TurnId) (terminal_at : option OffsetDateTime)
    : Rt (option (EventEnvelope * EventEnvelope)) :=
  loaded ← read_result (load_session_budget session_id);
  match loaded with
  | None => mret None
  | Some projection =>
      events ← read (load_all_events session_id);
      window ← rt_lift (turn_budget_window events turn_id projection terminal_at);
      checkpoint ← new_event session_id branch_id SpanAgent (checkpoint_payload window);
      cancellation ← new_event session_id branch_id SpanAgent
                       (SessionCancelled "budget_exhausted");
      mret (Some (bind_turn checkpoint turn_id, cancellation))
  end.

(** ** The end of a turn ([runtime/sessions.rs]) *)

Inductive BudgetEnforcementOutcome : Type := NotConfigured | WithinBudget | Exhausted.

Record ActiveTurnFinishOutcome : Type := MkActiveTurnFinishOutcome {
  af_budget : BudgetEnforcementOutcome;
  af_cancelled : bool;
}.

(** [apply_cancel_precedence]: a pending cancellation turns the finishing
    event, which is the last one, into a cancelled one. *)
Definition cancelled_finish (finish : EventEnvelope) : option EventEnvelope :=
  match ev_payload finish with
  | TurnFinished turn_id provider model _ _ latency_ms =>
      Some (with_attribute
        (with_attribute
          (MkEventEnvelope (ev_seq_id finish) (ev_event_id finish) (ev_session_id finish)
             (ev_branch_id finish) (ev_turn_id finish) (ev_span_id finish)
             (ev_parent_span_id finish) (ev_span_kind finish) (ev_occurred_at finish)
             (TurnFinished turn_id provider model "cancelled" (Some "Cancelled") latency_ms)
             (ev_attributes finish))
          "turn.status" (VString "cancelled"))
        "turn.finish_reason" (VString "Cancelled"))
  | _ => None
  end.

Definition apply_cancel_precedence (session_id : SessionId) (terminal_events : list EventEnvelope)
    (db : Db) : Result (bool * list EventEnvelope) :=
  control ← load_session_control session_id db;
  if negb (is_some_and ct_cancel_requested control) then Ok (false, terminal_events)
  else Ok match last terminal_events with
          | None => (false, terminal_events)
          | Some finish =>
              match cancelled_finish finish with
              | None => (false, terminal_events)
              | Some cancelled => (true, removelast terminal_events ++ [cancelled])
              end
          end.

Definition publish_optional (event : EventEnvelope) (seq_id : option Z) : Rt unit :=
  match seq_id with Some seq_id => publish_committed_event event seq_id | None => mret tt end.

(** [commit_active_turn_terminal_events] *)
Definition commit_active_turn_terminal_events (session_id : SessionId) (branch_id : BranchId)
    (turn_id : TurnId) (terminal_at : OffsetDateTime) (terminal_events : list EventEnvelope)
    : Rt ActiveTurnFinishOutcome :=
  transition ← budget_checkpoint_transition_at session_id branch_id turn_id (Some terminal_at);
  match transition with
  | None =>
      _ ← ensure_session_started_for session_id branch_id;
      precedence ← read_result (apply_cancel_precedence session_id terminal_events);
      seq_ids ← commit (commit_turn_terminal_transition session_id branch_id turn_id precedence.2);
      _ ← publish_all precedence.2 seq_ids;
      mret (MkActiveTurnFinishOutcome NotConfigured precedence.1)
  | Some (checkpoint, cancellation) =>
      precedence ← read_result (apply_cancel_precedence session_id terminal_events);
      committed ← commit (commit_budget_terminal_transition checkpoint cancellation precedence.2);
      _ ← publish_committed_event checkpoint (cbc_checkpoint_seq_id committed);
      _ ← publish_optional cancellation (cbc_cancellation_seq_id committed);
      _ ← publish_all precedence.2 (cbc_terminal_seq_ids committed);
      mret (MkActiveTurnFinishOutcome
              (if cbc_exhausted committed then Exhausted else WithinBudget) precedence.1)
  end.

(** [configure_session_budget] *)
Definition configure_session_budget (session_id : SessionId) (branch_id : BranchId)
    (budget : BudgetConfig) : Rt Z :=
  configuration ← new_event session_id branch_id SpanAgent (BudgetConfigured budget);
  cancellation ← new_event session_id branch_id SpanAgent (SessionCancelled "budget_exhausted");
  _ ← ensure_session_started_for session_id branch_id;
  committed ← commit (commit_budget_configuration configuration cancellation);
  _ ← publish_committed_event configuration (cbg_configuration_seq_id committed);
  _ ← publish_optional cancellation (cbg_cancellation_seq_id committed);
  mret (cbg_configuration_seq_id committed).
End budget.
