(* ===== verification/RuntimeRecords.v ===== *)
(** * The runtime: recording what a turn does

    [runtime/records.rs], [runtime/cancellation.rs] and the event builders of
    [runtime/control_plane.rs]: one method per fact of a turn, each an event
    committed for the active turn; the cancellation signals; and the guarded
    transitions that a committed cancellation refuses. *)

From stdpp Require Import base list strings gmap.
From Stdlib Require Import ZArith Lia.
From S2P Require Import Prelude Text Json Types Messages TurnProjection Approvals Store StoreOps.
From S2P Require Import StoreRelated StoreQueries Runtime RuntimeBudget.

#[local] Open Scope Z_scope.

(** [format!("{finish_reason:?}")] *)
Definition finish_reason_debug (reason : FinishReason) : string :=
  match reason with
  | FrStop => "Stop" | FrToolUse => "ToolUse" | FrMaxTokens => "MaxTokens"
  | FrCancelled => "Cancelled" | FrError => "Error"
  end.

Section records.
Context `{codec : RowCodec} `{entropy : Entropy}.
Context (render_number : Number -> string) (render_string : string -> string).
(** [BelltowerConfig::pricing_catalog] *)
Context (catalog : Result (list PricingEntry)).

(** ** Event builders *)

Definition with_error_attributes (event : EventEnvelope) (error : BelltowerError)
    : EventEnvelope :=
  with_attribute
    (with_attribute
      (with_attribute event "error.class"
         (VString (error_class_as_str (error_class error))))
      "error.code" (VString (error_code error)))
    "error.retryable" (VBool (error_retryable error)).

Definition session_error_payload (error : BelltowerError) : EventPayload :=
  SessionError (error_class error) (error_code error) (error_to_string error)
    (error_retryable error).

(** [session_error_event] *)
Definition session_error_event (session_id : SessionId) (branch_id : BranchId)
    (turn_id : option TurnId) (span_kind : SpanKind) (error : BelltowerError)
    : Rt EventEnvelope :=
  event ← new_event session_id branch_id span_kind (session_error_payload error);
  mret (apply_turn_id (with_error_attributes event error) turn_id).

(** [operator_command_event] *)
Definition operator_command_event (session_id : SessionId) (branch_id : BranchId)
    (command_type raw_input output : string) (success : bool) : Rt EventEnvelope :=
  event ← new_event session_id branch_id SpanAgent
            (OperatorCommandRecorded command_type raw_input output success);
  mret (with_attribute (with_attribute event INPUT_VALUE (VString raw_input))
          OUTPUT_VALUE (VString output)).

(** [tool_execution_finished_event] *)
Definition tool_execution_finished_event (session_id : SessionId) (branch_id : BranchId)
    (turn_id : option TurnId) (result : ToolResultEnvelope) : Rt EventEnvelope :=
  turn_event session_id branch_id SpanTool
    (ToolExecutionFinished (tr_call_id result) (tr_tool_name result) result) turn_id.

(** [tool_terminal_events] *)
Definition tool_terminal_events (session_id : SessionId) (branch_id : BranchId)
    (turn_id : TurnId) (result : ToolResultEnvelope) (message : Message)
    : Rt (list EventEnvelope) :=
  finished ← tool_execution_finished_event session_id branch_id (Some turn_id) result;
  appended ← turn_event session_id branch_id SpanAgent (MessageAppended message) (Some turn_id);
  mret [finished; appended].

(** [tool_operation_request_events] *)
Definition tool_operation_request_events (session_id : SessionId) (branch_id : BranchId)
    (call_id : ToolCallId) (tool_name : string) (arguments : Value)
    (operation : ToolOperationContext) (turn_id : option TurnId) : Rt (list EventEnvelope) :=
  recorded ← turn_event session_id branch_id SpanTool
               (ToolOperationRecorded call_id tool_name operation) turn_id;
  requested ← turn_event session_id branch_id SpanTool
                (ToolCallRequested call_id tool_name arguments) turn_id;
  mret [recorded; requested].

(** [tool_request_events] *)
Definition tool_request_events (session_id : SessionId) (branch_id : BranchId)
    (turn_id : TurnId) (call_id : ToolCallId) (tool_name : string) (arguments : Value)
    (operation : ToolOperationContext) (message : Message) : Rt (list EventEnvelope) :=
  events ← tool_operation_request_events session_id branch_id call_id tool_name arguments
             operation (Some turn_id);
  appended ← turn_event session_id branch_id SpanAgent (MessageAppended message) (Some turn_id);
  mret (events ++ [appended]).

Definition with_model_attributes (event : EventEnvelope) (provider model : string)
    : EventEnvelope :=
  with_attribute (with_attribute event LLM_PROVIDER (VString provider))
    LLM_MODEL_NAME (VString model).

(** [turn_started_event] *)
Definition turn_started_event (session_id : SessionId) (branch_id : BranchId)
    (turn_id : TurnId) (provider model : string) (message_count settings_revision_id : Z)
    (source : TurnStartSource) (resumed_from_call_id : option ToolCallId) : Rt EventEnvelope :=
  event ← new_event session_id branch_id SpanAgent
            (TurnStarted turn_id provider model message_count settings_revision_id source
               resumed_from_call_id);
  mret (with_model_attributes (bind_turn event turn_id) provider model).

(** [turn_finished_event] *)
Definition turn_finished_event (session_id : SessionId) (branch_id : BranchId)
    (turn_id : TurnId) (provider model status : string) (finish_reason : option string)
    (latency_ms : Z) : Rt EventEnvelope :=
  event ← new_event session_id branch_id SpanAgent
            (TurnFinished turn_id provider model status finish_reason latency_ms);
  let event := with_attribute (with_model_attributes (bind_turn event turn_id) provider model)
                 "turn.status" (VString status) in
  mret match finish_reason with
       | Some finish_reason => with_attribute event "turn.finish_reason" (VString finish_reason)
       | None => event
       end.

(** ** One event for a fact ([records.rs]) *)

(** A new event of a session, and of a turn if there is one, appended. *)
Definition record (session_id : SessionId) (branch_id : BranchId) (span_kind : SpanKind)
    (payload : EventPayload) (turn_id : option TurnId) : Rt Z :=
  event ← turn_event session_id branch_id span_kind payload turn_id;
  append_optional_active_turn_event event turn_id.

(** The same through [append_event] when there is no turn. *)
Definition record_alone (session_id : SessionId) (branch_id : BranchId) (span_kind : SpanKind)
    (payload : EventPayload) (turn_id : option TurnId) : Rt Z :=
  event ← turn_event session_id branch_id span_kind payload turn_id;
  match turn_id with
  | Some turn_id =>
      seq_ids ← append_active_turn_events session_id branch_id turn_id [event];
      mret (only_seq_id seq_ids)
  | None => rt_append_event event
  end.

(** [append_message] *)
Definition append_message (session_id : SessionId) (branch_id : BranchId) (role : Role)
    (text : string) : Rt Z :=
  message ← new_text_message role text;
  event ← new_event session_id branch_id SpanAgent (MessageAppended message);
  rt_append_event event.

(** [append_raw_message] *)
Definition append_raw_message (session_id : SessionId) (branch_id : BranchId)
    (message : Message) (turn_id : option TurnId) : Rt Z :=
  record session_id branch_id SpanAgent (MessageAppended message) turn_id.

(** [record_session_spawn_requested], [record_session_spawned] *)
Definition record_session_spawn_requested (session_id : SessionId) (branch_id : BranchId)
    (child_session_id : SessionId) (objective connection_id : string) (model_id : option string)
    (turn_id : option TurnId) : Rt Z :=
  record session_id branch_id SpanChain
    (SessionSpawnRequested child_session_id objective connection_id model_id) turn_id.

Definition record_session_spawned (session_id : SessionId) (branch_id : BranchId)
    (child_session_id : SessionId) (child_branch_id : BranchId) (objective : string)
    (turn_id : option TurnId) : Rt Z :=
  record session_id branch_id SpanChain
    (SessionSpawned child_session_id child_branch_id objective) turn_id.

(** [record_session_handoff] *)
Definition record_session_handoff (session_id : SessionId) (branch_id : BranchId)
    (parent_session_id : SessionId) (parent_branch_id : BranchId)
    (parent_turn_id : option TurnId) (objective summary : string) : Rt Z :=
  event ← new_event session_id branch_id SpanChain
    (SessionHandoffRecorded parent_session_id parent_branch_id parent_turn_id objective summary);
  rt_append_event event.

(** [record_approval]: the decision is kept in memory once it is committed. *)
Definition keep_approval (f : ApprovalState -> Result ApprovalState) : Rt unit := fun rt =>
  match f (rt_approvals rt) with
  | Ok state => (Ok tt, set_approval_state state rt)
  | Err e => (Err e, rt)
  end.

Definition record_approval (session_id : SessionId) (branch_id : BranchId)
    (call_id : ToolCallId) (tool_name : string) (decision : ApprovalDecision)
    (turn_id : option TurnId) : Rt Z :=
  seq_id ← record session_id branch_id SpanTool
             (ToolApprovalResolved call_id tool_name None None decision) turn_id;
  _ ← keep_approval (fun state => record_call state session_id call_id decision);
  mret seq_id.

(** [persist_approval_for_request] *)
Definition persist_approval_for_request (session_id : SessionId) (branch_id : BranchId)
    (request : ApprovalRequest) (decision : ApprovalDecision) (turn_id : option TurnId)
    : Rt (Z * string) :=
  let request_fingerprint := fingerprint render_number render_string request in
  seq_id ← record_alone session_id branch_id SpanTool
    (ToolApprovalResolved (rq_call_id request) (rq_tool_name request)
       (Some request_fingerprint) (Some (MkApprovalResolution request_fingerprint decision))
       decision) turn_id;
  mret (seq_id, request_fingerprint).

(** [record_approval_for_request] *)
Definition record_approval_for_request (session_id : SessionId) (branch_id : BranchId)
    (request : ApprovalRequest) (decision : ApprovalDecision) (turn_id : option TurnId) : Rt Z :=
  persisted ← persist_approval_for_request session_id branch_id request decision turn_id;
  _ ← keep_approval (fun state =>
        record_for_request render_number render_string state request decision);
  mret persisted.1.

(** [record_evaluated_approval_for_request] *)
Definition record_evaluated_approval_for_request (session_id : SessionId)
    (branch_id : BranchId) (request : ApprovalRequest) (decision : ApprovalDecision)
    (turn_id : option TurnId) : Rt Z :=
  persisted ← persist_approval_for_request session_id branch_id request decision turn_id;
  _ ← keep_approval (fun state =>
        seed_reusable_decision state (rq_session_id request) persisted.2 decision);
  mret persisted.1.

(** [record_approval_requested], [record_approval_requested_for_request] *)
Definition record_approval_requested (session_id : SessionId) (branch_id : BranchId)
    (call_id : ToolCallId) (tool_name : string) (turn_id : option TurnId) : Rt Z :=
  record_alone session_id branch_id SpanTool (ToolApprovalRequested call_id tool_name None) turn_id.

Definition record_approval_requested_for_request (session_id : SessionId)
    (branch_id : BranchId) (request : ApprovalRequest) (turn_id : option TurnId) : Rt Z :=
  record_alone session_id branch_id SpanTool
    (ToolApprovalRequested (rq_call_id request) (rq_tool_name request)
       (Some (snapshot render_number render_string request InitAgent "agent_turn" None None)))
    turn_id.

(** [record_tool_call_requested_with_context], [record_tool_call_requested] *)
Definition record_tool_call_requested_with_context (session_id : SessionId)
    (branch_id : BranchId) (call_id : ToolCallId) (tool_name : string) (arguments : Value)
    (operation : ToolOperationContext) (turn_id : option TurnId) : Rt Z :=
  events ← tool_operation_request_events session_id branch_id call_id tool_name arguments
             operation turn_id;
  seq_ids ← append_optional_active_turn_events session_id branch_id turn_id events;
  mret (default 0 (last seq_ids)).

Definition record_tool_call_requested (session_id : SessionId) (branch_id : BranchId)
    (call_id : ToolCallId) (tool_name : string) (arguments : Value) (turn_id : option TurnId)
    : Rt Z :=
  record_tool_call_requested_with_context session_id branch_id call_id tool_name arguments
    default_operation_context turn_id.

(** [record_tool_operation], [record_tool_execution] *)
Definition record_tool_operation (session_id : SessionId) (branch_id : BranchId)
    (call_id : ToolCallId) (tool_name : string) (operation : ToolOperationContext)
    (turn_id : option TurnId) : Rt Z :=
  record session_id branch_id SpanTool (ToolOperationRecorded call_id tool_name operation) turn_id.

Definition record_tool_execution (session_id : SessionId) (branch_id : BranchId)
    (result : ToolResultEnvelope) (turn_id : option TurnId) : Rt Z :=
  record session_id branch_id SpanTool
    (ToolExecutionFinished (tr_call_id result) (tr_tool_name result) result) turn_id.

(** [record_plan_updated] *)
Definition record_plan_updated (session_id : SessionId) (branch_id : BranchId)
    (items : list PlanItem) (turn_id : option TurnId) : Rt Z :=
  record session_id branch_id SpanChain (PlanUpdated items) turn_id.

(** [record_context_compacted]; a report is the payload it becomes. *)
Definition record_context_compacted (session_id : SessionId) (branch_id : BranchId)
    (report : ContextCompactedPayload) (turn_id : option TurnId) : Rt (Z * EventId) :=
  event ← turn_event session_id branch_id SpanChain (ContextCompacted report) turn_id;
  seq_id ← append_optional_active_turn_event event turn_id;
  mret (seq_id, ev_event_id event).

(** ** Completions *)

(** [record_completion_requested], [record_completion_chunk],
    [record_raw_chunk_persisted] *)
Definition record_completion_requested (session_id : SessionId) (branch_id : BranchId)
    (llm_call_ordinal : Z) (provider model : string) (message_count : Z) (turn_id : TurnId)
    : Rt Z :=
  record session_id branch_id SpanLlm
    (CompletionRequested llm_call_ordinal provider model message_count) (Some turn_id).

Definition record_completion_chunk (session_id : SessionId) (branch_id : BranchId)
    (llm_call_ordinal : option Z) (deltas : list CompletionDelta) (raw_chunk_index : option Z)
    (turn_id : option TurnId) : Rt Z :=
  record session_id branch_id SpanLlm
    (CompletionChunkEvent llm_call_ordinal deltas raw_chunk_index) turn_id.

Definition record_raw_chunk_persisted (session_id : SessionId) (branch_id : BranchId)
    (provider : string) (chunk_index : Z) (stream : string) (llm_call_ordinal : option Z)
    (turn_id : option TurnId) : Rt Z :=
  record session_id branch_id SpanLlm
    (RawChunkPersisted provider chunk_index stream llm_call_ordinal) turn_id.

(** [record_context_manifest] *)
Definition record_context_manifest (session_id : SessionId) (branch_id : BranchId)
    (manifest : ContextManifest) : Rt Z :=
  let turn_id := cm_turn_id manifest in
  event ← new_event session_id branch_id SpanLlm (TurnContextManifestRecorded manifest);
  append_optional_active_turn_event
    (with_attribute
      (with_model_attributes (bind_turn event turn_id) (cm_provider manifest) (cm_model manifest))
      "settings.revision_id" (VNumber (PosInt (cm_settings_revision_id manifest))))
    (Some turn_id).

(** [record_completion_finished]: a completion without a cost is priced from
    the catalog. *)
Definition record_completion_finished (session_id : SessionId) (branch_id : BranchId)
    (summary : CompletionSummary) (llm_call_ordinal : Z) (turn_id : TurnId) : Rt Z :=
  cost ← match cs_cost summary with
         | Some cost => mret (Some cost)
         | None => rt_lift (completion_cost_breakdown catalog (cs_provider summary)
                              (cs_model summary) (cs_usage summary))
         end;
  record session_id branch_id SpanLlm
    (CompletionFinished llm_call_ordinal (cs_provider summary) (cs_model summary)
       (cs_usage summary) cost (finish_reason_debug (cs_finish_reason summary))
       (cs_latency_ms summary)) (Some turn_id).

(** [record_session_error] *)
Definition record_session_error (session_id : SessionId) (branch_id : BranchId)
    (error : BelltowerError) (turn_id : option TurnId) (span_kind : SpanKind) : Rt Z :=
  event ← session_error_event session_id branch_id turn_id span_kind error;
  append_optional_active_turn_event event turn_id.

(** [record_turn_instruction_provenance] *)
Definition record_turn_instruction_provenance (session_id : SessionId) (branch_id : BranchId)
    (provenance : TurnInstructionProvenance) : Rt Z :=
  let turn_id := pv_turn_id provenance in
  event ← new_event session_id branch_id SpanAgent
            (TurnInstructionProvenanceRecorded provenance);
  append_optional_active_turn_event
    (with_attribute
      (with_model_attributes (bind_turn event turn_id) (pv_provider provenance)
         (pv_model provenance))
      "settings.revision_id" (VNumber (PosInt (pv_settings_revision_id provenance))))
    (Some turn_id).

(** ** Raw chunks: the lock is released before the events are published *)

(** The section of [record_raw_chunk] that holds the store lock; the
    identifiers and the clock of the event are read inside it. *)
Definition commit_raw_chunk (session_id : SessionId) (branch_id : BranchId)
    (provider stream : string) (llm_call_ordinal : option Z) (content : string)
    (turn_id : option TurnId) : Rt (Z * EventEnvelope * Z) :=
  now ← now_utc;
  template ← turn_event session_id branch_id SpanLlm
               (RawChunkPersisted provider 0 stream llm_call_ordinal) turn_id;
  commit (append_raw_chunk_with_event now session_id branch_id turn_id llm_call_ordinal
            provider stream content
            (fun chunk_index => Ok (apply_turn_id
               (new_envelope (ev_event_id template) (ev_span_id template)
                  (ev_occurred_at template) session_id branch_id SpanLlm
                  (RawChunkPersisted provider chunk_index stream llm_call_ordinal)) turn_id))).

(** [record_raw_chunk] *)
Definition record_raw_chunk (session_id : SessionId) (branch_id : BranchId)
    (provider stream : string) (llm_call_ordinal : option Z) (content : string)
    (turn_id : option TurnId) : Rt Z :=
  _ ← ensure_session_started_for session_id branch_id;
  committed ← commit_raw_chunk session_id branch_id provider stream llm_call_ordinal content
                turn_id;
  let '(chunk_index, event, seq_id) := committed in
  _ ← publish_committed_event event seq_id;
  mret chunk_index.

(** The section of [record_live_completion_chunk] that holds the lock: the
    raw bytes with their event, when there are any, and the chunk's event. *)
Definition commit_live_completion_chunk (session_id : SessionId) (branch_id : BranchId)
    (provider : string) (turn_id : TurnId) (llm_call_ordinal : option Z)
    (deltas : list CompletionDelta) (raw_content : option string)
    : Rt (option Z * list EventEnvelope) :=
  now ← now_utc;
  raw ← new_event session_id branch_id SpanLlm
          (RawChunkPersisted provider 0 "completion" llm_call_ordinal);
  chunk ← new_event session_id branch_id SpanLlm
            (CompletionChunkEvent llm_call_ordinal deltas None);
  commit (append_live_completion_chunk now session_id branch_id (Some turn_id)
            llm_call_ordinal provider "completion" raw_content
            (fun chunk_index => Ok (bind_turn
               (new_envelope (ev_event_id raw) (ev_span_id raw) (ev_occurred_at raw)
                  session_id branch_id SpanLlm
                  (RawChunkPersisted provider chunk_index "completion" llm_call_ordinal))
               turn_id))
            (fun raw_chunk_index => Ok (bind_turn
               (new_envelope (ev_event_id chunk) (ev_span_id chunk) (ev_occurred_at chunk)
                  session_id branch_id SpanLlm
                  (CompletionChunkEvent llm_call_ordinal deltas raw_chunk_index)) turn_id))).

(** The events come back with their sequence numbers set. *)
Definition broadcast_events (events : list EventEnvelope) : Rt unit :=
  rt_modify (fun rt => set_bus (rt_bus rt ++ events) rt).

(** [record_live_completion_chunk] *)
Definition record_live_completion_chunk (session_id : SessionId) (branch_id : BranchId)
    (provider : string) (turn_id : TurnId) (llm_call_ordinal : option Z)
    (deltas : list CompletionDelta) (raw_content : option string) : Rt unit :=
  _ ← ensure_session_started_for session_id branch_id;
  committed ← commit_live_completion_chunk session_id branch_id provider turn_id
                llm_call_ordinal deltas raw_content;
  broadcast_events committed.2.

(** ** Cancellation ([runtime/cancellation.rs]) *)

(** [CancellationSignal::cancel] sets the shared flag. *)
Definition cancel_signal (signal : nat) : Rt unit :=
  rt_modify (fun rt => set_signals (<[signal := true]> (rt_signals rt)) rt).

Definition signal_of (rt : Runtime) (signal : nat) : bool :=
  default false (rt_signals rt !! signal).

(** [cancel_session]: the event is committed first; then the signal of
    exactly the turn that was active at the append is set. *)
Definition cancel_session (session_id : SessionId) (branch_id : BranchId) (reason : string)
    : Rt Z :=
  event ← new_event session_id branch_id SpanAgent (SessionCancelled reason);
  _ ← ensure_session_started_for session_id branch_id;
  active_claim ← read (active_turn_claim session_id);
  _ ← rt_lift match active_claim with
      | Some (active_branch_id, _) =>
          reject_if (negb (bool_decide (active_branch_id = branch_id)))
            (Protocol ("branch " +:+ show_uuid (uuid branch_id)
               +:+ " does not own the active turn on branch "
               +:+ show_uuid (uuid active_branch_id)))
      | None => Ok tt
      end;
  seq_id ← commit (append_event event);
  rt ← (fun rt => (Ok rt, rt));
  _ ← match active_claim, rt_active rt !! session_id with
      | Some (active_branch_id, active_turn_id), Some entry =>
          if bool_decide (ac_branch_id entry = active_branch_id)
             && bool_decide (ac_turn_id entry = active_turn_id)
          then cancel_signal (ac_signal entry) else mret tt
      | _, _ => mret tt
      end;
  _ ← publish_committed_event event seq_id;
  mret seq_id.

(** [begin_active_turn_cancellation]: a new signal for the active turn, set
    at once when a cancellation is already pending; the result is the
    guard's signal. *)
Definition begin_active_turn_cancellation (session_id : SessionId) (branch_id : BranchId)
    (turn_id : TurnId) : Rt nat :=
  active_claim ← read (active_turn_claim session_id);
  _ ← rt_lift (reject_if (negb (bool_decide (active_claim = Some (branch_id, turn_id))))
        (InvalidState ("turn " +:+ show_uuid (uuid turn_id) +:+ " on branch "
           +:+ show_uuid (uuid branch_id) +:+ " is not the active owner")));
  control ← read_result (load_session_control session_id);
  rt ← (fun rt => (Ok rt, rt));
  let signal := length (rt_signals rt) in
  _ ← rt_modify (fun rt => set_signals
        (rt_signals rt ++ [is_some_and ct_cancel_requested control]) rt);
  _ ← rt_modify (fun rt => set_active
        (<[session_id := MkActiveCancellationEntry branch_id turn_id signal]> (rt_active rt)) rt);
  mret signal.

(** [active_turn_cancellation_signal] *)
Definition active_turn_cancellation_signal (session_id : SessionId) (branch_id : BranchId)
    (turn_id : TurnId) (rt : Runtime) : option nat :=
  entry ← rt_active rt !! session_id;
  if bool_decide (ac_branch_id entry = branch_id) && bool_decide (ac_turn_id entry = turn_id)
  then Some (ac_signal entry) else None.

(** [ActiveTurnCancellation::drop] *)
Definition drop_active_turn_cancellation (session_id : SessionId) (branch_id : BranchId)
    (turn_id : TurnId) : Rt unit :=
  rt_modify (fun rt =>
    match active_turn_cancellation_signal session_id branch_id turn_id rt with
    | Some _ => set_active (delete session_id (rt_active rt)) rt
    | None => rt
    end).

(** Events committed for the active turn unless a cancellation is pending:
    whether one was. *)
Definition commit_unless_cancelled (session_id : SessionId) (branch_id : BranchId)
    (turn_id : TurnId) (events : list EventEnvelope) : Rt bool :=
  _ ← ensure_session_started_for session_id branch_id;
  cancelled ← is_cancelled session_id;
  if cancelled : bool then mret true else
  seq_ids ← commit (commit_active_turn_events session_id branch_id turn_id events);
  _ ← publish_all events seq_ids;
  mret false.

(** [record_tool_request_transition] *)
Definition record_tool_request_transition (session_id : SessionId) (branch_id : BranchId)
    (turn_id : TurnId) (call_id : ToolCallId) (tool_name : string) (arguments : Value)
    (operation : ToolOperationContext) (message : Message) : Rt bool :=
  events ← tool_request_events session_id branch_id turn_id call_id tool_name arguments
             operation message;
  cancelled ← commit_unless_cancelled session_id branch_id turn_id events;
  mret (negb cancelled).

(** [record_tool_operation_request_transition] *)
Definition record_tool_operation_request_transition (session_id : SessionId)
    (branch_id : BranchId) (call_id : ToolCallId) (tool_name : string) (arguments : Value)
    (operation : ToolOperationContext) (turn_id : option TurnId) : Rt unit :=
  events ← tool_operation_request_events session_id branch_id call_id tool_name arguments
             operation turn_id;
  _ ← rt_append_events events;
  mret tt.

Fixpoint message_events (session_id : SessionId) (branch_id : BranchId) (turn_id : TurnId)
    (messages : list Message) : Rt (list EventEnvelope) :=
  match messages with
  | [] => mret []
  | message :: rest =>
      event ← turn_event session_id branch_id SpanAgent (MessageAppended message) (Some turn_id);
      events ← message_events session_id branch_id turn_id rest;
      mret (event :: events)
  end.

(** [append_turn_result_messages_unless_cancelled]: whether a cancellation
    won. *)
Definition append_turn_result_messages_unless_cancelled (session_id : SessionId)
    (branch_id : BranchId) (turn_id : TurnId) (messages : list Message) : Rt bool :=
  events ← message_events session_id branch_id turn_id messages;
  match events with
  | [] => is_cancelled session_id
  | _ => commit_unless_cancelled session_id branch_id turn_id events
  end.

(** [record_tool_terminal_transition] *)
Definition record_tool_terminal_transition (session_id : SessionId) (branch_id : BranchId)
    (turn_id : TurnId) (result : ToolResultEnvelope) (message : Message) : Rt unit :=
  events ← tool_terminal_events session_id branch_id turn_id result message;
  _ ← append_active_turn_events session_id branch_id turn_id events;
  mret tt.

(** [record_operator_tool_terminal_transition] *)
Definition record_operator_tool_terminal_transition (session_id : SessionId)
    (branch_id : BranchId) (result : ToolResultEnvelope)
    (command_type raw_input output : string) (success : bool) : Rt unit :=
  finished ← tool_execution_finished_event session_id branch_id None result;
  command ← operator_command_event session_id branch_id command_type raw_input output success;
  _ ← rt_append_events [finished; command];
  mret tt.

(** [recover_operator_tool_terminal_transition] *)
Definition recover_operator_tool_terminal_transition (session_id : SessionId)
    (branch_id : BranchId) (result : ToolResultEnvelope)
    (command_type raw_input output : string) (success : bool)
    (persistence_error : BelltowerError) : Rt unit :=
  finished ← tool_execution_finished_event session_id branch_id None result;
  command ← operator_command_event session_id branch_id command_type raw_input output success;
  error ← session_error_event session_id branch_id None SpanTool persistence_error;
  _ ← rt_append_events [finished; command; error];
  mret tt.

(** [record_operator_command] *)
Definition record_operator_command (session_id : SessionId) (branch_id : BranchId)
    (command_type raw_input output : string) (success : bool) : Rt Z :=
  event ← operator_command_event session_id branch_id command_type raw_input output success;
  rt_append_event event.
End records.
