(* ===== verification/RuntimeSessions.v ===== *)
(** * The runtime: sessions, branches, settings and the end of a turn

    [runtime/sessions.rs], the settings of [runtime/control_plane.rs], its
    failure transitions, and the inspection of a tool call
    ([runtime/inspection.rs]) with the identity under which it can be
    resumed. *)

From stdpp Require Import base list strings gmap sorting.
From Stdlib Require Import ZArith Lia.
From S2P Require Import Prelude Text Json Types Messages TurnProjection Approvals Store StoreOps.
From S2P Require Import StoreRelated StoreQueries StorePaging Runtime RuntimeBudget.
From S2P Require Import RuntimeRecords.

#[local] Open Scope Z_scope.

(** ** Data ([runtime/types.rs], [bt-core/src/types.rs]) *)

Record AdmittedTurn : Type := MkAdmittedTurn {
  ad_session_id : SessionId;
  ad_branch_id : BranchId;
  ad_turn_id : TurnId;
  ad_settings_revision_id : Z;
}.

Inductive ResumableToolCallKind : Type := ResumableApproval | ResumableInput.

Record ResumableToolCall : Type := MkResumableToolCall {
  rb_session : SessionRecord;
  rb_branch : BranchRecord;
  rb_turn_id : TurnId;
  rb_requested_seq_id : Z;
  rb_settings_revision_id : Z;
  rb_tool_call : ToolCall;
  rb_approval_request_snapshot : option ApprovalRequestSnapshot;
}.

(** [SessionToolCallInspection] *)
Record SessionToolCallInspection : Type := MkToolCallInspection {
  tci_session_id : SessionId;
  tci_call_id : ToolCallId;
  tci_tool_name : string;
  tci_branch_id : option BranchId;
  tci_turn_id : option TurnId;
  tci_requested_seq_id : option Z;
  tci_completed_seq_id : option Z;
  tci_requested_at : option OffsetDateTime;
  tci_completed_at : option OffsetDateTime;
  tci_approval_status : option string;
  tci_approval_decision : option ApprovalDecision;
  tci_approval_request_snapshot : option ApprovalRequestSnapshot;
  tci_approval_resolution : option ApprovalResolution;
  tci_approval_updated_at : option OffsetDateTime;
  tci_execution_status : option string;
  tci_arguments : option Value;
  tci_result : option ToolResultEnvelope;
}.

(** What the scan of the log knows of a call. *)
Record CallScan : Type := MkCallScan {
  cn_branch_id : option BranchId;
  cn_turn_id : option TurnId;
  cn_requested_seq_id : option Z;
  cn_completed_seq_id : option Z;
  cn_requested_at : option OffsetDateTime;
  cn_completed_at : option OffsetDateTime;
  cn_tool_name : option string;
}.

(** [Option::or], and [get_or_insert] *)
Definition or_else {A} (o : option A) (o' : option A) : option A :=
  match o with Some _ => o | None => o' end.

(** One event of the loop of [inspect_tool_call]. *)
Definition call_scan_step (call_id : ToolCallId) (s : CallScan) (event : EventEnvelope)
    : CallScan :=
  match ev_payload event with
  | ToolCallRequested c tool_name _ =>
      if bool_decide (c = call_id)
      then MkCallScan (Some (ev_branch_id event)) (ev_turn_id event) (ev_seq_id event) None
             (Some (ev_occurred_at event)) None (Some tool_name)
      else s
  | ToolApprovalRequested c tool_name _ | ToolApprovalResolved c tool_name _ _ _ =>
      if bool_decide (c = call_id)
      then MkCallScan (or_else (cn_branch_id s) (Some (ev_branch_id event)))
             (or_else (cn_turn_id s) (ev_turn_id event)) (cn_requested_seq_id s)
             (cn_completed_seq_id s) (cn_requested_at s) (cn_completed_at s)
             (or_else (cn_tool_name s) (Some tool_name))
      else s
  | ToolExecutionFinished c tool_name _ =>
      if bool_decide (c = call_id)
         && match cn_requested_seq_id s with
            | None => true
            | Some requested => is_some_and (fun completed => requested <? completed)
                                  (ev_seq_id event)
            end
      then MkCallScan (or_else (cn_branch_id s) (Some (ev_branch_id event)))
             (or_else (cn_turn_id s) (ev_turn_id event)) (cn_requested_seq_id s)
             (ev_seq_id event) (cn_requested_at s) (Some (ev_occurred_at event))
             (or_else (cn_tool_name s) (Some tool_name))
      else s
  | _ => s
  end.

Definition error_span_kind (error : BelltowerError) : SpanKind :=
  match error_class error with
  | EcProvider | EcProtocol => SpanLlm
  | EcTool => SpanTool
  | _ => SpanAgent
  end.

Section sessions.
Context `{codec : RowCodec} `{entropy : Entropy}.

Definition session_not_found : BelltowerError := InvalidState "session not found".

(** ** Reads through the store lock *)

Definition rt_load_session (session_id : SessionId) : Rt (option SessionRecord) :=
  read_result (load_session session_id).

Definition require_loaded (session_id : SessionId) : Rt SessionRecord :=
  loaded ← rt_load_session session_id;
  rt_lift (ok_or session_not_found loaded).

(** [connection]: the registry is a map, so a later descriptor replaces an
    earlier one of the same id. *)
Definition connection (id : ConnectionId) : Rt (option ConnectionDescriptor) := fun rt =>
  (Ok (find_map (fun c => if bool_decide (cd_id c = id) then Some c else None)
         (rev (rt_connections rt))), rt).

(** [messages] of a branch; the walk up a cycle of parents, which does not
    end, is an error here. *)
Definition rt_messages (session_id : SessionId) (branch_id : BranchId) : Rt (list Message) :=
  message_id ← fresh_id;
  now ← now_utc;
  read_result (fun db => default (Err (Types.Runtime "branch lineage does not end"))
    (load_messages_for_branch message_id now session_id branch_id db)).

Definition string_le (a b : string) : Prop := str_leb a b = true.
#[local] Instance string_le_dec a b : Decision (string_le a b).
Proof. unfold string_le. apply _. Defined.

(** [ensure_connection_configured] names the configured connections. *)
Definition ensure_connection_configured (connection_id : ConnectionId) : Rt unit :=
  found ← connection connection_id;
  match found with
  | Some _ => mret tt
  | None => fun rt =>
      let configured := merge_sort string_le
        (remove_dups (List.map (fun c => connection_name (cd_id c)) (rt_connections rt))) in
      (Err (Config ("connection `" +:+ connection_name connection_id
              +:+ "` is not configured (configured connections: "
              +:+ join ", " configured +:+ ")")), rt)
  end.

(** ** Sessions and branches ([sessions.rs]) *)

(** [create_session] *)
Definition rt_create_session (project_root : string) (connection_id : ConnectionId)
    (model_id : option string) (tool_mode : SessionToolMode)
    (display_name objective : option string) : Rt (SessionRecord * BranchRecord) :=
  _ ← ensure_connection_configured connection_id;
  session_id ← fresh_id;
  created_at ← now_utc;
  updated_at ← now_utc;
  branch_id ← fresh_id;
  branch_created_at ← now_utc;
  let session := MkSessionRecord session_id project_root connection_id model_id tool_mode
    default_settings_revision_id created_at updated_at StatusActive display_name objective
    None None None in
  let branch := MkBranchRecord branch_id session_id None None None None branch_created_at true in
  _ ← commit (create_session session branch);
  mret (session, branch).

(** [update_session_settings] *)
Definition update_session_settings (session_id : SessionId) (branch_id : BranchId)
    (connection_id : option ConnectionId) (model_id : option (option string))
    (tool_mode : option SessionToolMode) : Rt SessionRecord :=
  target ← match connection_id with
           | Some connection_id => mret connection_id
           | None => session ← require_loaded session_id; mret (se_connection_id session)
           end;
  _ ← ensure_connection_configured target;
  _ ← ensure_session_started_for session_id branch_id;
  event_id ← fresh_id;
  span_id ← fresh_id;
  now ← now_utc;
  committed ← commit (commit_session_settings_update event_id span_id now session_id branch_id
                        connection_id model_id tool_mode);
  let '(session, event, seq_id) := committed in
  _ ← publish_committed_event event seq_id;
  mret session.

(** [update_session_parent] *)
Definition rt_update_session_parent (session_id parent_session_id : SessionId)
    (parent_branch_id : BranchId) (parent_turn_id : option TurnId) : Rt SessionRecord :=
  now ← now_utc;
  _ ← commit (update_session_parent now session_id parent_session_id parent_branch_id
                parent_turn_id);
  require_loaded session_id.

(** The fork point: the given event, which must be of the source branch, or
    the branch's head. *)
Definition fork_point (session_id : SessionId) (from_branch_id : BranchId)
    (from_event_id : option EventId) (db : Db) : Result (BranchRecord * option EventId) :=
  loaded ← load_branch session_id from_branch_id db;
  source ← ok_or (InvalidState "source branch not found") loaded;
  match from_event_id with
  | None => Ok (source, br_head_event_id source)
  | Some event_id =>
      event ← ok_or (NotFound ("fork event " +:+ show_uuid (uuid event_id)))
                (load_event session_id event_id db);
      _ ← reject_if (negb (bool_decide (ev_branch_id event = br_branch_id source)))
            (InvalidState ("fork event " +:+ show_uuid (uuid event_id) +:+ " belongs to branch "
               +:+ show_uuid (uuid (ev_branch_id event)) +:+ ", not source branch "
               +:+ show_uuid (uuid (br_branch_id source))));
      Ok (source, Some event_id)
  end.

(** [create_branch]: the branch is inserted in one transaction and made the
    default in another; the plan is copied and the fork recorded after both. *)
Definition rt_create_branch (session_id : SessionId) (from_branch_id : BranchId)
    (from_event_id : option EventId) (activate : bool) (summary : option string)
    : Rt BranchRecord :=
  fork ← read_result (fork_point session_id from_branch_id from_event_id);
  let '(source, parent_event_id) := fork in
  branch_id ← fresh_id;
  created_at ← now_utc;
  let branch := MkBranchRecord branch_id session_id (Some (br_branch_id source))
    parent_event_id None summary created_at false in
  _ ← commit (create_branch branch);
  _ ← (if activate then commit (set_default_branch session_id branch_id) else mret tt);
  plan ← read_result (load_branch_plan session_id (br_branch_id source));
  _ ← match plan with
      | Some plan =>
          _ ← record_plan_updated session_id branch_id (pp_items plan) None; mret tt
      | None => mret tt
      end;
  event ← new_event session_id branch_id SpanChain
            (BranchCreated (br_parent_branch_id branch) (br_parent_event_id branch));
  _ ← rt_append_event event;
  mret (MkBranchRecord branch_id session_id (br_parent_branch_id branch)
          (br_parent_event_id branch) (br_head_event_id branch) (br_summary branch)
          (br_created_at branch) activate).

(** [activate_branch] *)
Definition activate_branch (session_id : SessionId) (branch_id : BranchId) : Rt unit :=
  event ← new_event session_id branch_id SpanChain (BranchActivated branch_id);
  _ ← append_event_with_store_mutation event
        (fun event => set_default_branch_with_event session_id branch_id event);
  mret tt.

(** [record_branch_summary] *)
Definition record_branch_summary (session_id : SessionId) (branch_id : BranchId)
    (summary : string) (files_read files_modified : list string) : Rt Z :=
  event ← new_event session_id branch_id SpanChain
            (BranchSummarized branch_id summary files_read files_modified);
  rt_append_event event.

(** ** Settings ([control_plane.rs]) *)

(** [current_settings_revision] *)
Definition current_settings_revision (session_id : SessionId) : Rt Z :=
  session ← require_loaded session_id; mret (se_settings_revision_id session).

Definition revision_not_found (session_id : SessionId) (settings_revision_id : Z)
    : BelltowerError :=
  InvalidState ("settings revision " +:+ show_Z settings_revision_id
    +:+ " not found for session " +:+ show_uuid (uuid session_id)).

(** [resolve_turn_settings]: the connection and the model of a revision. *)
Definition resolve_turn_settings (session_id : SessionId) (settings_revision_id : Z)
    : Rt (ConnectionDescriptor * string) :=
  stored_snapshot ← read_result (load_session_settings_snapshot session_id settings_revision_id);
  snapshot ← match stored_snapshot with
             | Some snapshot => mret snapshot
             | None =>
                 session ← require_loaded session_id;
                 _ ← rt_lift (reject_if
                       (negb (se_settings_revision_id session =? settings_revision_id))
                       (revision_not_found session_id settings_revision_id));
                 mret (settings_snapshot session)
             end;
  found ← connection (ss_connection_id snapshot);
  descriptor ← rt_lift (ok_or
    (Config ("connection `" +:+ connection_name (ss_connection_id snapshot)
       +:+ "` is not configured")) found);
  mret (descriptor, default (cd_default_model descriptor) (ss_model_id snapshot)).

(** [session_for_settings_revision] *)
Definition session_for_settings_revision (session : SessionRecord) (settings_revision_id : Z)
    : Rt SessionRecord :=
  stored_snapshot ← read_result
    (load_session_settings_snapshot (se_session_id session) settings_revision_id);
  snapshot ← rt_lift match stored_snapshot with
    | Some snapshot => Ok snapshot
    | None =>
        if se_settings_revision_id session =? settings_revision_id
        then Ok (settings_snapshot session)
        else Err (revision_not_found (se_session_id session) settings_revision_id)
    end;
  mret (with_settings_snapshot session snapshot).

(** [settings_revision_for_turn] *)
Definition settings_revision_for_turn (session_id : SessionId) (turn_id : TurnId) : Rt Z :=
  events ← read (load_all_events session_id);
  rt_lift (ok_or
    (InvalidState ("turn `" +:+ show_uuid (uuid turn_id)
       +:+ "` is missing turn.started settings revision"))
    (find_map (fun event =>
       match ev_payload event with
       | TurnStarted event_turn_id _ _ _ settings_revision_id _ _ =>
           if bool_decide (event_turn_id = turn_id) then Some settings_revision_id else None
       | _ => None
       end) events)).

(** ** A tool call and its resumption *)

(** [inspect_tool_call] *)
Definition inspect_tool_call (session_id : SessionId) (call_id : ToolCallId)
    : Rt (option SessionToolCallInspection) :=
  loaded ← rt_load_session session_id;
  match loaded with
  | None => mret None
  | Some _ =>
      runs ← read_result (load_tool_runs session_id);
      approvals ← read_result (load_approvals session_id);
      let tool_run := find_map (fun run =>
        if bool_decide (tq_call_id run = call_id) then Some run else None) runs in
      let approval := find_map (fun a =>
        if bool_decide (ap_call_id a = call_id) then Some a else None) approvals in
      events ← read (load_all_events session_id);
      let scan := fold_left (call_scan_step call_id) events
                    (MkCallScan None None None None None None None) in
      let tool_name := or_else (tq_tool_name <$> tool_run)
                         (or_else (ap_tool_name <$> approval) (cn_tool_name scan)) in
      mret ((fun tool_name =>
        {| tci_session_id := session_id; tci_call_id := call_id; tci_tool_name := tool_name;
           tci_branch_id := cn_branch_id scan; tci_turn_id := cn_turn_id scan;
           tci_requested_seq_id := cn_requested_seq_id scan;
           tci_completed_seq_id := cn_completed_seq_id scan;
           tci_requested_at := cn_requested_at scan; tci_completed_at := cn_completed_at scan;
           tci_approval_status := ap_status <$> approval;
           tci_approval_decision := approval ≫= ap_decision;
           tci_approval_request_snapshot := approval ≫= ap_request_snapshot;
           tci_approval_resolution := approval ≫= ap_resolution;
           tci_approval_updated_at := ap_updated_at <$> approval;
           tci_execution_status := tq_status <$> tool_run;
           tci_arguments := tool_run ≫= tq_arguments;
           tci_result := tool_run ≫= tq_result |}) <$> tool_name)
  end.

(** The identity of the pending request, from the row that is pending. *)
Definition request_identity (session_id : SessionId) (call_id : ToolCallId) (tool_name : string)
    (kind : ResumableToolCallKind) (db : Db)
    : Result (option (option BranchId * option TurnId * option Z)) :=
  match kind with
  | ResumableApproval =>
      approvals ← load_approvals session_id db;
      Ok (find_map (fun a =>
        if bool_decide (ap_call_id a = call_id) && String.eqb (ap_tool_name a) tool_name
           && String.eqb (ap_status a) "pending"
        then Some (ap_branch_id a, ap_turn_id a, ap_requested_seq_id a) else None) approvals)
  | ResumableInput =>
      runs ← load_tool_runs session_id db;
      Ok (find_map (fun run =>
        if bool_decide (tq_call_id run = call_id) && String.eqb (tq_tool_name run) tool_name
           && String.eqb (tq_status run) "requested"
        then Some (tq_branch_id run, tq_turn_id run, tq_requested_seq_id run) else None) runs)
  end.

(** [resumable_tool_call] *)
Definition resumable_tool_call (session_id : SessionId) (call_id : ToolCallId)
    (tool_name : string) (kind : ResumableToolCallKind) : Rt (option ResumableToolCall) :=
  found ← inspect_tool_call session_id call_id;
  match found with
  | None => mret None
  | Some inspection =>
      let status := match kind with
                    | ResumableApproval => tci_approval_status inspection
                    | ResumableInput => tci_execution_status inspection
                    end in
      let waiting := match kind with
                     | ResumableApproval => "pending"
                     | ResumableInput => "requested"
                     end in
      if negb (String.eqb (tci_tool_name inspection) tool_name)
         || negb (bool_decide (status = Some waiting))
         || bool_decide (is_Some (tci_completed_seq_id inspection))
         || match tci_result inspection with Some _ => true | None => false end
      then mret None
      else
        session ← require_loaded session_id;
        identity ← read_result (request_identity session_id call_id tool_name kind);
        let missing (what : string) := InvalidState
          ("tool call `" +:+ call_name call_id +:+ "` " +:+ what) in
        identity ← rt_lift (ok_or (missing "changed before resume identity could be loaded")
                              identity);
        let '(branch_id, turn_id, requested_seq_id) := identity in
        branch_id ← rt_lift (ok_or (missing "is missing canonical branch metadata") branch_id);
        turn_id ← rt_lift (ok_or (missing "is missing canonical turn metadata") turn_id);
        settings_revision_id ← settings_revision_for_turn session_id turn_id;
        requested_seq_id ← rt_lift (ok_or
          (missing "is missing canonical request sequence metadata") requested_seq_id);
        arguments ← rt_lift (ok_or (missing "is missing canonical arguments")
                               (tci_arguments inspection));
        loaded_branch ← read_result (load_branch session_id branch_id);
        branch ← rt_lift (ok_or
          (InvalidState ("branch `" +:+ show_uuid (uuid branch_id)
             +:+ "` not found for tool call `" +:+ call_name call_id +:+ "`")) loaded_branch);
        session ← session_for_settings_revision session settings_revision_id;
        mret (Some {| rb_session := session; rb_branch := branch; rb_turn_id := turn_id;
                      rb_requested_seq_id := requested_seq_id;
                      rb_settings_revision_id := settings_revision_id;
                      rb_tool_call := MkToolCall (tci_tool_name inspection) (call_name call_id)
                                        arguments;
                      rb_approval_request_snapshot :=
                        tci_approval_request_snapshot inspection |})
  end.

(** ** The end of a turn *)

(** [record_active_turn_finished_with_cancel_precedence] *)
Definition record_active_turn_finished_with_cancel_precedence (session_id : SessionId)
    (branch_id : BranchId) (turn_id : TurnId) (provider model status : string)
    (finish_reason : option string) (latency_ms : Z) : Rt ActiveTurnFinishOutcome :=
  terminal_at ← now_utc;
  finish ← turn_finished_event session_id branch_id turn_id provider model status finish_reason
             latency_ms;
  commit_active_turn_terminal_events session_id branch_id turn_id terminal_at [finish].

(** [record_active_turn_finished] *)
Definition record_active_turn_finished (session_id : SessionId) (branch_id : BranchId)
    (turn_id : TurnId) (provider model status : string) (finish_reason : option string)
    (latency_ms : Z) : Rt BudgetEnforcementOutcome :=
  outcome ← record_active_turn_finished_with_cancel_precedence session_id branch_id turn_id
              provider model status finish_reason latency_ms;
  mret (af_budget outcome).

(** The finish and the result message of each terminal tool result. *)
Fixpoint terminal_result_events (session_id : SessionId) (branch_id : BranchId)
    (turn_id : TurnId) (results : list ToolResultEnvelope) : Rt (list EventEnvelope) :=
  match results with
  | [] => mret []
  | result :: results =>
      message ← rt_tool_result_message result;
      events ← tool_terminal_events session_id branch_id turn_id result message;
      rest ← terminal_result_events session_id branch_id turn_id results;
      mret (events ++ rest)
  end.

(** [record_turn_failure_transition_with_reason_outcome] *)
Definition record_turn_failure_transition_with_reason_outcome (session_id : SessionId)
    (branch_id : BranchId) (provider model_id : string) (turn_id : TurnId)
    (terminal_results : list ToolResultEnvelope) (error : BelltowerError)
    (finish_reason : string) (latency_ms : Z) : Rt ActiveTurnFinishOutcome :=
  terminal_at ← now_utc;
  results ← terminal_result_events session_id branch_id turn_id terminal_results;
  failure ← session_error_event session_id branch_id (Some turn_id) (error_span_kind error) error;
  finish ← turn_finished_event session_id branch_id turn_id provider model_id "failed"
             (Some finish_reason) latency_ms;
  commit_active_turn_terminal_events session_id branch_id turn_id terminal_at
    (results ++ [failure; finish]).

(** [record_turn_failure_transition_with_outcome] *)
Definition record_turn_failure_transition_with_outcome (session_id : SessionId)
    (branch_id : BranchId) (provider model_id : string) (turn_id : TurnId)
    (terminal_results : list ToolResultEnvelope) (error : BelltowerError) (latency_ms : Z)
    : Rt ActiveTurnFinishOutcome :=
  record_turn_failure_transition_with_reason_outcome session_id branch_id provider model_id
    turn_id terminal_results error (error_code error) latency_ms.

(** [record_resumed_tool_failure] *)
Definition record_resumed_tool_failure (session : SessionRecord) (branch : BranchRecord)
    (descriptor : ConnectionDescriptor) (model_id : string) (turn_id : TurnId)
    (tool_call : ToolCall) (error : BelltowerError) (latency_ms : Z)
    : Rt ActiveTurnFinishOutcome :=
  let result := MkToolResultEnvelope (MkToolCallId (tc_call_id tool_call)) (tc_tool_name tool_call)
    true
    (VObject [("error", VObject
       [("class", VString (error_class_as_str (error_class error)));
        ("code", VString (error_code error));
        ("message", VString (error_to_string error));
        ("retryable", VBool (error_retryable error))])])
    (Some latency_ms) in
  record_turn_failure_transition_with_outcome (se_session_id session) (br_branch_id branch)
    (cd_provider descriptor) model_id turn_id [result] error latency_ms.
End sessions.
