(* ===== verification/RuntimeRelated.v ===== *)
(** * The runtime: related sessions ([runtime/related_sessions.rs])

    Messages between sessions of one tree, the replies a finished turn owes,
    the claims that wake a session, and the spawn of a child session
    ([runtime/sessions.rs]). *)

From stdpp Require Import base list strings gmap sorting.
From Stdlib Require Import ZArith Lia.
From S2P Require Import Prelude Text Json Types Messages TurnProjection Approvals Store StoreOps.
From S2P Require Import StoreRelated StoreQueries StorePaging Runtime RuntimeBudget.
From S2P Require Import RuntimeRecords RuntimeSessions.

#[local] Open Scope Z_scope.

(** [TurnRunStopReason] of [turn_orchestrator.rs] *)
Inductive TurnRunStopReason : Type :=
  | StopComplete | StopAwaitingApproval | StopAwaitingInput | StopBudgetExhausted
  | StopCancelled.

Section related.
Context `{codec : RowCodec} `{entropy : Entropy}.

Definition lineage_cycle : BelltowerError := InvalidState "session lineage contains a cycle".

(** ** The bounds of a tree ([validate_subagent_spawn]) *)

(** The walk to the root: every step adds a stored session to [ancestors],
    so the fuel is not used up. *)
Fixpoint spawn_depth (fuel : nat) (db : Db) (ancestors : gset SessionId)
    (cursor : SessionRecord) (depth : nat) : Result (SessionRecord * nat) :=
  match se_parent_session_id cursor with
  | None => Ok (cursor, depth)
  | Some parent_id =>
      match fuel with
      | O => Err lineage_cycle
      | S fuel =>
          if bool_decide (parent_id ∈ ancestors) then Err lineage_cycle
          else
            loaded ← load_session parent_id db;
            parent ← ok_or (InvalidState ("session lineage references missing parent `"
                       +:+ show_uuid (uuid parent_id) +:+ "`")) loaded;
            spawn_depth fuel db ({[parent_id]} ∪ ancestors) parent (S depth)
      end
  end.

(** The walk over the tree from its root; the head of [stack] is the top. *)
Fixpoint count_descendants (fuel : nat) (db : Db) (visited : gset SessionId)
    (stack : list SessionId) (descendants : nat) : Result nat :=
  match stack with
  | [] => Ok descendants
  | session_id :: stack =>
      match fuel with
      | O => Err lineage_cycle
      | S fuel =>
          if bool_decide (session_id ∈ visited) then Err lineage_cycle
          else
            children ← load_child_sessions session_id db;
            count_descendants fuel db ({[session_id]} ∪ visited)
              (rev (List.map se_session_id children) ++ stack)
              (descendants + length children)
      end
  end.

(** [validate_subagent_spawn] *)
Definition validate_subagent_spawn (parent_session_id : SessionId) (db : Db) : Result unit :=
  loaded ← load_session parent_session_id db;
  parent ← ok_or (NotFound ("session `" +:+ show_uuid (uuid parent_session_id) +:+ "`")) loaded;
  walked ← spawn_depth (lineage_fuel db) db {[se_session_id parent]} parent 0;
  let '(root, depth) := walked in
  _ ← reject_if (Nat.leb MAX_RELATED_SESSION_DEPTH depth)
        (Protocol ("subagent depth limit of " +:+ show_Z (Z.of_nat MAX_RELATED_SESSION_DEPTH)
           +:+ " reached"));
  descendants ← count_descendants (lineage_fuel db) db ∅ [se_session_id root] 0;
  reject_if (Nat.leb MAX_RELATED_SESSION_DESCENDANTS descendants)
    (Protocol ("subagent lineage limit of " +:+ show_Z (Z.of_nat MAX_RELATED_SESSION_DESCENDANTS)
       +:+ " reached")).

(** ** Messages *)

Definition with_event_id (event : EventEnvelope) (event_id : EventId) : EventEnvelope :=
  MkEventEnvelope (ev_seq_id event) event_id (ev_session_id event) (ev_branch_id event)
    (ev_turn_id event) (ev_span_id event) (ev_parent_span_id event) (ev_span_kind event)
    (ev_occurred_at event) (ev_payload event) (ev_attributes event).

(** [related_session_message_events]: the message and its two copies, each
    naming the other. *)
Definition related_session_message_events (source_session_id : SessionId)
    (source_branch_id : BranchId) (caused_by_turn_id : option TurnId)
    (destination_session_id : SessionId) (destination_branch_id : BranchId)
    (kind : RelatedSessionMessageKind) (delivery_mode : RelatedSessionDeliveryMode)
    (in_reply_to : option RelatedSessionMessageId) (text : string)
    (artifact_refs : list ArtifactRef)
    : Rt (RelatedSessionMessage * EventEnvelope * EventEnvelope) :=
  let text := trim text in
  _ ← rt_lift (reject_if (is_empty text) (Protocol "related-session message cannot be empty"));
  message_id ← fresh_id;
  context_message_id ← fresh_id;
  created_at ← now_utc;
  let message := MkRelatedSessionMessage message_id context_message_id source_session_id
    source_branch_id caused_by_turn_id destination_session_id destination_branch_id kind
    delivery_mode in_reply_to text artifact_refs created_at in
  sent_event_id ← fresh_id;
  received_event_id ← fresh_id;
  sent ← turn_event source_session_id source_branch_id SpanChain
           (RelatedSessionMessageRecorded Sent received_event_id message) caused_by_turn_id;
  received ← new_event destination_session_id destination_branch_id SpanChain
               (RelatedSessionMessageRecorded Received sent_event_id message);
  mret (message, with_event_id sent sent_event_id, with_event_id received received_event_id).

(** [resolve_related_session_destination_branch]: a reply must reverse the
    edge of the message it answers. *)
Definition reply_destination (source_session_id : SessionId) (source_branch_id : BranchId)
    (destination_session_id : SessionId) (requested : BranchId)
    (in_reply_to : option RelatedSessionMessageId) (db : Db) : Result BranchId :=
  match in_reply_to with
  | None => Ok requested
  | Some reply_id =>
      records ← load_related_session_messages source_session_id db;
      original ← ok_or (Protocol "related-session reply target was not received by the sender")
        (find_map (fun r =>
           if bool_decide (rd_direction r = Received)
              && bool_decide (rm_message_id (rd_message r) = reply_id)
           then Some (rd_message r) else None) records);
      _ ← reject_if
            (negb (bool_decide (rm_destination_session_id original = source_session_id))
             || negb (bool_decide (rm_destination_branch_id original = source_branch_id))
             || negb (bool_decide (rm_source_session_id original = destination_session_id)))
            (Protocol "related-session reply must reverse the original session and branch edge");
      _ ← reject_if (negb (bool_decide (requested = rm_source_branch_id original)))
            (Protocol "target_branch_id conflicts with the original related-session message");
      Ok (rm_source_branch_id original)
  end.

Definition resolve_related_session_destination_branch (source_session_id : SessionId)
    (source_branch_id : BranchId) (destination_session_id : SessionId) (requested : BranchId)
    (in_reply_to : option RelatedSessionMessageId) : Rt BranchId :=
  destination_branch_id ← read_result (reply_destination source_session_id source_branch_id
                            destination_session_id requested in_reply_to);
  loaded ← read_result (load_branch destination_session_id destination_branch_id);
  _ ← rt_lift (ok_or (NotFound ("branch `" +:+ show_uuid (uuid destination_branch_id)
        +:+ "` in session `" +:+ show_uuid (uuid destination_session_id) +:+ "`")) loaded);
  mret destination_branch_id.

(** [send_related_session_message] *)
Definition send_related_session_message (source_session_id : SessionId)
    (source_branch_id : BranchId) (caused_by_turn_id : option TurnId)
    (destination_session_id : SessionId) (destination_branch_id : BranchId)
    (kind : RelatedSessionMessageKind) (delivery_mode : RelatedSessionDeliveryMode)
    (in_reply_to : option RelatedSessionMessageId) (text : string)
    (artifact_refs : list ArtifactRef) : Rt RelatedSessionMessageReceipt :=
  let text := trim text in
  _ ← rt_lift (reject_if (is_empty text) (Protocol "related-session message cannot be empty"));
  destination_branch_id ← resolve_related_session_destination_branch source_session_id
    source_branch_id destination_session_id destination_branch_id in_reply_to;
  built ← related_session_message_events source_session_id source_branch_id caused_by_turn_id
            destination_session_id destination_branch_id kind delivery_mode in_reply_to text
            artifact_refs;
  let '(message, sent, received) := built in
  receipt ← commit (commit_related_session_message sent received);
  _ ← publish_committed_event sent (rt_sent_seq_id receipt);
  _ ← publish_committed_event received (rt_received_seq_id receipt);
  mret receipt.

(** ** What a turn owes ([record_related_reply_obligations]) *)

Definition is_request (kind : RelatedSessionMessageKind) : bool :=
  bool_decide (kind = KInstruction) || bool_decide (kind = KQuestion).

(** The claimed requests of a branch that have no reply yet. *)
Definition is_obligation (branch_id : BranchId) (r : RelatedSessionMessageRecord) : bool :=
  bool_decide (rd_direction r = Received) && bool_decide (rd_status r = Claimed)
  && match rd_settlement r with None => true | Some _ => false end
  && bool_decide (rm_destination_branch_id (rd_message r) = branch_id)
  && is_request (rm_kind (rd_message r)).

Definition answers (message_id : RelatedSessionMessageId) (kind : RelatedSessionMessageKind)
    (text : string) (r : RelatedSessionMessageRecord) : bool :=
  bool_decide (rd_direction r = Sent)
  && bool_decide (rm_in_reply_to (rd_message r) = Some message_id)
  && bool_decide (rm_kind (rd_message r) = kind) && String.eqb (rm_text (rd_message r)) text.

(** One obligation: a progress note unless the same was sent, or the reply
    that settles it. The reply is published after the store lock is
    released; the count is what was recorded. *)
Definition reply_to_obligation (session_id : SessionId) (branch_id : BranchId)
    (turn_id : TurnId) (kind : RelatedSessionMessageKind) (text : string)
    (records : list RelatedSessionMessageRecord) (obligation : RelatedSessionMessageRecord)
    : Rt nat :=
  let message := rd_message obligation in
  if negb (bool_decide (kind = KResult) || bool_decide (kind = KError)) then
    if existsb (answers (rm_message_id message) kind text) records then mret O
    else
      _ ← send_related_session_message session_id branch_id (Some turn_id)
            (rm_source_session_id message) (rm_source_branch_id message) kind Notify
            (Some (rm_message_id message)) text [];
      mret 1%nat
  else
    built ← related_session_message_events session_id branch_id (Some turn_id)
              (rm_source_session_id message) (rm_source_branch_id message) kind Wake
              (Some (rm_message_id message)) text [];
    let '(reply, sent, received) := built in
    settlement_event ← turn_event session_id branch_id SpanChain
      (RelatedSessionMessageSettled (rm_message_id message) (rm_message_id reply) kind turn_id)
      (Some turn_id);
    receipt ← commit (settle_related_session_message (rm_message_id message) sent received
                        settlement_event);
    if ss_newly_committed receipt then
      _ ← publish_committed_event sent (rt_sent_seq_id (ss_reply receipt));
      _ ← publish_committed_event received (rt_received_seq_id (ss_reply receipt));
      _ ← publish_committed_event settlement_event (rs_settlement_seq_id (ss_settlement receipt));
      mret 1%nat
    else mret O.

Fixpoint reply_to_obligations (session_id : SessionId) (branch_id : BranchId)
    (turn_id : TurnId) (kind : RelatedSessionMessageKind) (text : string)
    (records obligations : list RelatedSessionMessageRecord) : Rt nat :=
  match obligations with
  | [] => mret O
  | obligation :: rest =>
      n ← reply_to_obligation session_id branch_id turn_id kind text records obligation;
      m ← reply_to_obligations session_id branch_id turn_id kind text records rest;
      mret (n + m)%nat
  end.

(** [record_related_reply_obligations] *)
Definition record_related_reply_obligations (session_id : SessionId) (branch_id : BranchId)
    (turn_id : TurnId) (kind : RelatedSessionMessageKind) (text : string) : Rt nat :=
  records ← read_result (load_related_session_messages session_id);
  reply_to_obligations session_id branch_id turn_id kind text records
    (List.filter (is_obligation branch_id) records).

(** The last thing the assistant said in the turn. *)
Definition turn_result_text (messages : list Message) : string :=
  let said := find_map (fun m => if bool_decide (msg_role m = RoleAssistant)
                                 then Some (join nl (text_parts m)) else None)
                (rev messages) in
  match said with
  | Some text => if is_blank text then "Related-session turn completed." else text
  | None => "Related-session turn completed."
  end.

(** [record_related_turn_outcome] *)
Definition record_related_turn_outcome (session_id : SessionId) (branch_id : BranchId)
    (turn_id : TurnId) (stop_reason : TurnRunStopReason) : Rt nat :=
  reply ← match stop_reason with
    | StopComplete =>
        messages ← read (load_messages_for_turn session_id branch_id turn_id);
        mret (KResult, turn_result_text messages)
    | StopAwaitingApproval =>
        mret (KProgress, "Related-session turn is waiting for tool approval.")
    | StopAwaitingInput =>
        mret (KProgress, "Related-session turn is waiting for operator input.")
    | StopBudgetExhausted =>
        mret (KError, "Related-session turn stopped because its budget was exhausted.")
    | StopCancelled => mret (KError, "Related-session turn was cancelled.")
    end;
  record_related_reply_obligations session_id branch_id turn_id reply.1 reply.2.

(** [record_related_turn_failure] *)
Definition record_related_turn_failure (session_id : SessionId) (branch_id : BranchId)
    (turn_id : TurnId) (error : BelltowerError) : Rt nat :=
  record_related_reply_obligations session_id branch_id turn_id KError
    ("Related-session turn failed: " +:+ error_to_string error).

(** A second attempt when the first fails; what the first did is kept. *)
Definition rt_or_retry {A} (m : Rt A) : Rt A := fun rt =>
  match m rt with
  | (Ok a, rt') => (Ok a, rt')
  | (Err _, rt') => m rt'
  end.

(** [fail_admitted_related_turn] *)
Definition fail_admitted_related_turn (admitted : AdmittedTurn) (error : BelltowerError)
    : Rt unit :=
  settings ← resolve_turn_settings (ad_session_id admitted) (ad_settings_revision_id admitted);
  let '(descriptor, model) := settings in
  _ ← record_turn_failure_transition_with_outcome (ad_session_id admitted)
        (ad_branch_id admitted) (cd_provider descriptor) model (ad_turn_id admitted) [] error 0;
  _ ← rt_or_retry (record_related_turn_failure (ad_session_id admitted) (ad_branch_id admitted)
                     (ad_turn_id admitted) error);
  mret tt.

(** ** Claims *)

Fixpoint resolution_events (session_id : SessionId) (branch_id : BranchId) (turn_id : TurnId)
    (message_ids : list RelatedSessionMessageId) : Rt (list EventEnvelope) :=
  match message_ids with
  | [] => mret []
  | message_id :: rest =>
      event ← turn_event session_id branch_id SpanChain
                (RelatedSessionMessageResolved message_id Claimed (Some turn_id)
                   (Some "Observed by wait_agent in the active turn.")) (Some turn_id);
      events ← resolution_events session_id branch_id turn_id rest;
      mret (event :: events)
  end.

(** [claim_related_messages_for_active_turn] *)
Definition rt_claim_related_messages_for_active_turn (session_id : SessionId)
    (branch_id : BranchId) (turn_id : TurnId) (message_ids : list RelatedSessionMessageId)
    : Rt bool :=
  events ← resolution_events session_id branch_id turn_id message_ids;
  claim ← commit (claim_related_messages_for_active_turn session_id branch_id turn_id message_ids
                    events);
  match claim with
  | ClaimClaimed seq_ids => _ ← publish_all events seq_ids; mret true
  | ClaimStale => mret false
  | ClaimBusy => rt_fail (InvalidState "wait_agent caller no longer owns the active turn")
  | ClaimBudgetExhausted | ClaimCancelPending =>
      rt_fail (InvalidState
        "active-turn related-message claim returned an impossible control state")
  end.

Definition MAX_STALE_RETRIES : nat := 8.

(** The claim of one message: [None] is a stale claim, to be tried again. *)
Definition try_claim_related (session_id : SessionId) (pending : RelatedSessionMessageRecord)
    : Rt (option (option AdmittedTurn)) :=
  loaded ← rt_load_session session_id;
  session ← rt_lift (ok_or (NotFound ("session `" +:+ show_uuid (uuid session_id) +:+ "`"))
                       loaded);
  let settings_revision_id := se_settings_revision_id session in
  settings ← resolve_turn_settings session_id settings_revision_id;
  let '(descriptor, model_id) := settings in
  turn_id ← fresh_id;
  let branch_id := rm_destination_branch_id (rd_message pending) in
  messages ← rt_messages session_id branch_id;
  records ← read_result (load_related_session_messages session_id);
  let received := List.filter (fun r => bool_decide (rd_direction r = Received)
    && bool_decide (rm_destination_branch_id (rd_message r) = branch_id)) records in
  resolved ← new_event session_id branch_id SpanChain
    (RelatedSessionMessageResolved (rm_message_id (rd_message pending)) Claimed (Some turn_id)
       (Some "Dispatched to the destination session."));
  started ← turn_started_event session_id branch_id turn_id (cd_provider descriptor) model_id
    (wrap32 (Z.of_nat (length messages + length received))) settings_revision_id
    RelatedSessionMessageStart None;
  let events := [resolved; started] in
  claim ← commit (claim_related_message_continuation session_id
                    (rm_message_id (rd_message pending)) settings_revision_id events);
  match claim with
  | ClaimClaimed seq_ids =>
      _ ← publish_all events seq_ids;
      mret (Some (Some (MkAdmittedTurn session_id branch_id turn_id settings_revision_id)))
  | ClaimStale => mret None
  | ClaimBusy | ClaimBudgetExhausted | ClaimCancelPending => mret (Some None)
  end.

Fixpoint claim_next_loop (retries : nat) (session_id : SessionId) : Rt (option AdmittedTurn) :=
  match retries with
  | O => rt_fail (InvalidState ("related-session wake for `" +:+ show_uuid (uuid session_id)
           +:+ "` could not stabilize its settings revision"))
  | S retries =>
      pending ← read_result (load_pending_related_session_messages session_id);
      match pending with
      | [] => mret None
      | first :: _ =>
          claimed ← try_claim_related session_id first;
          match claimed with
          | Some result => mret result
          | None => claim_next_loop retries session_id
          end
      end
  end.

(** [claim_next_related_session_message] *)
Definition claim_next_related_session_message (session_id : SessionId)
    : Rt (option AdmittedTurn) :=
  claim_next_loop MAX_STALE_RETRIES session_id.

(** ** Spawning ([sessions.rs]) *)

Definition started_turn_ids (events : list EventEnvelope) : list TurnId :=
  omap (fun event => match ev_payload event with
                     | TurnStarted turn_id _ _ _ _ _ _ => Some turn_id
                     | _ => None
                     end) events.

(** The turn a spawn is charged to: the given one, which must have started
    on the branch, or the last one started there. *)
Definition origin_turn (branch_turn_ids : list TurnId) (parent_turn_id : option TurnId)
    : Result (option TurnId) :=
  match parent_turn_id with
  | Some turn_id =>
      if bool_decide (turn_id ∈ branch_turn_ids) then Ok (Some turn_id)
      else Err (InvalidState "parent turn does not belong to the selected branch")
  | None => Ok (last branch_turn_ids)
  end.

(** The model of a child: the given one, the parent's on the same
    connection, or the connection's default. *)
Definition child_model (parent : SessionRecord) (connection_id : ConnectionId)
    (model_id : option string) : option string :=
  match model_id with
  | Some model_id => Some model_id
  | None => if bool_decide (connection_id = se_connection_id parent) then se_model_id parent
            else None
  end.

(** [spawn_child_session_transition]; the events are published after the
    store lock is released. *)
Definition spawn_child_session_transition (parent_session_id : SessionId)
    (parent_branch_id : BranchId) (parent_turn_id : option TurnId) (objective : string)
    (display_name : option string) (connection_id : option ConnectionId)
    (model_id : option string) (include_initial_objective : bool)
    : Rt (SessionRecord * BranchRecord * option RelatedSessionMessageReceipt) :=
  _ ← read_result (validate_subagent_spawn parent_session_id);
  let objective := trim objective in
  _ ← rt_lift (reject_if (is_empty objective) (Protocol "spawn objective cannot be empty"));
  parent ← require_loaded parent_session_id;
  loaded_branch ← read_result (load_branch parent_session_id parent_branch_id);
  parent_branch ← rt_lift (ok_or (InvalidState "branch not found") loaded_branch);
  turn_events ← read (load_events_of_kind parent_session_id "turn.started" (Some parent_branch_id));
  origin_turn_id ← rt_lift (origin_turn (started_turn_ids turn_events) parent_turn_id);
  let child_connection_id := default (se_connection_id parent) connection_id in
  let child_model_id := child_model parent child_connection_id model_id in
  _ ← ensure_connection_configured child_connection_id;
  session_id ← fresh_id;
  created_at ← now_utc;
  updated_at ← now_utc;
  branch_id ← fresh_id;
  branch_created_at ← now_utc;
  let child_session := MkSessionRecord session_id (se_project_root parent) child_connection_id
    child_model_id (se_tool_mode parent) default_settings_revision_id created_at updated_at
    StatusActive display_name (Some objective) (Some (se_session_id parent))
    (Some (br_branch_id parent_branch)) origin_turn_id in
  let child_branch := MkBranchRecord branch_id session_id None None None None branch_created_at
    true in
  _ ← ensure_session_started_for (se_session_id parent) (br_branch_id parent_branch);
  spawn_requested ← turn_event (se_session_id parent) (br_branch_id parent_branch) SpanChain
    (SessionSpawnRequested session_id objective (connection_name child_connection_id)
       child_model_id) origin_turn_id;
  child_started ← new_event session_id branch_id SpanSession
    (SessionStarted (se_project_root parent) (connection_name child_connection_id));
  child_handoff ← new_event session_id branch_id SpanChain
    (SessionHandoffRecorded (se_session_id parent) (br_branch_id parent_branch) origin_turn_id
       objective objective);
  spawn_completed ← turn_event (se_session_id parent) (br_branch_id parent_branch) SpanChain
    (SessionSpawned session_id branch_id objective) origin_turn_id;
  if include_initial_objective then
    built ← related_session_message_events (se_session_id parent) (br_branch_id parent_branch)
              origin_turn_id session_id branch_id KInstruction Wake None objective [];
    let '(message, sent, received) := built in
    seq_ids ← commit (commit_child_session_spawn_with_initial_message child_session child_branch
                        spawn_requested child_started child_handoff spawn_completed sent received);
    let receipt := MkReceipt (rm_message_id message) (ev_event_id sent)
      (nth 4 seq_ids 0) (ev_event_id received) (nth 5 seq_ids 0) Pending in
    _ ← publish_all [spawn_requested; child_started; child_handoff; spawn_completed; sent;
                     received] seq_ids;
    mret (child_session, child_branch, Some receipt)
  else
    seq_ids ← commit (commit_child_session_spawn child_session child_branch spawn_requested
                        child_started child_handoff spawn_completed);
    _ ← publish_all [spawn_requested; child_started; child_handoff; spawn_completed] seq_ids;
    mret (child_session, child_branch, None).
End related.
