(* ===== verification/RuntimeControl.v ===== *)
(** * The runtime: admission, queues and resumptions ([runtime/control_plane.rs])

    Steering, queueing and admitting messages; the follow-up a finished turn
    starts, chosen among pending steers, related messages and the queue; and
    the turns that resume an approved call or an answered question. *)

From stdpp Require Import base list strings gmap.
From Stdlib Require Import ZArith Lia.
From S2P Require Import Prelude Text Json Types Messages TurnProjection Approvals Store StoreOps.
From S2P Require Import StoreRelated StoreQueries StorePaging Runtime RuntimeBudget.
From S2P Require Import RuntimeRecords RuntimeSessions RuntimeRelated.

#[local] Open Scope Z_scope.

(** ** Data ([runtime/types.rs], [bt-core/src/types.rs]) *)

Inductive UserMessageAdmission : Type :=
  | UserStarted (admitted : AdmittedTurn)
  | UserQueued (position : nat).

Record QueuedDispatch : Type := MkQueuedDispatch {
  qx_branch_id : BranchId;
  qx_turn_id : TurnId;
  qx_settings_revision_id : Z;
}.

Inductive PostTurnControlAction : Type :=
  | ControlStop
  | ContinueCurrentBranch (dispatch : QueuedDispatch)
  | ContinueQueuedBranch (dispatch : QueuedDispatch)
  | ContinueRelatedSessionBranch (dispatch : QueuedDispatch).

Record QueuedMessageInspection : Type := MkQueuedMessageInspection {
  qi_branch_id : BranchId;
  qi_message : Message;
  qi_settings_revision_id : Z;
  qi_enqueued_at : OffsetDateTime;
}.

(** [require_resumed_continuation_claim] *)
Definition require_resumed_continuation_claim (outcome : ContinuationClaim) : Result unit :=
  match outcome with
  | ClaimClaimed _ => Ok tt
  | ClaimBudgetExhausted => Err (Protocol
      "session budget exhausted; adjust the session budget before resuming work")
  | ClaimCancelPending => Err (Protocol
      "session cancellation is pending; resumed work was not started")
  | ClaimBusy => Err (InvalidState
      "session already has an active turn; resumed work was not started")
  | ClaimStale => Err (InvalidState
      "pending tool call changed before resumed work could start")
  end.

Section control.
Context `{codec : RowCodec} `{entropy : Entropy}.
Context (render_value : Value -> string).
Context (render_number : Number -> string) (render_string : string -> string).

(** ** Steering and queueing *)

(** [append_branch_owned_control_event] *)
Definition append_branch_owned_control_event (event : EventEnvelope) : Rt Z :=
  _ ← ensure_session_started_for (ev_session_id event) (ev_branch_id event);
  active_claim ← read (active_turn_claim (ev_session_id event));
  _ ← rt_lift match active_claim with
      | Some (active_branch_id, _) =>
          reject_if (negb (bool_decide (active_branch_id = ev_branch_id event)))
            (Protocol ("branch " +:+ show_uuid (uuid (ev_branch_id event))
               +:+ " does not own the active turn on branch "
               +:+ show_uuid (uuid active_branch_id)))
      | None => Ok tt
      end;
  seq_id ← commit (append_event event);
  _ ← publish_committed_event event seq_id;
  mret seq_id.

(** [steer_session] *)
Definition steer_session (session_id : SessionId) (branch_id : BranchId) (message : string)
    : Rt Z :=
  settings_revision_id ← current_settings_revision session_id;
  event ← new_event session_id branch_id SpanAgent (SessionSteered message settings_revision_id);
  append_branch_owned_control_event event.

(** [queue_message]: the number of queued messages *)
Definition queue_message (session_id : SessionId) (branch_id : BranchId) (message : Message)
    : Rt nat :=
  settings_revision_id ← current_settings_revision session_id;
  event ← new_event session_id branch_id SpanAgent
            (SessionQueuedMessageEnqueued message settings_revision_id);
  _ ← rt_append_event event;
  pending ← read_result (load_pending_queued_messages session_id);
  mret (length pending).

Definition render_input (message : Message) : string :=
  render_queue_message_input render_value message.

(** One round of [admit_user_message]: the new revision when the settings
    have changed. *)
Definition try_admit (session : SessionRecord) (branch : BranchRecord) (message : Message)
    (settings_revision_id : Z) : Rt (UserMessageAdmission + Z) :=
  let session_id := se_session_id session in
  let branch_id := br_branch_id branch in
  turn_session ← session_for_settings_revision session settings_revision_id;
  settings ← resolve_turn_settings session_id settings_revision_id;
  let '(descriptor, model_id) := settings in
  turn_id ← fresh_id;
  messages ← rt_messages session_id branch_id;
  cancel_clear_event ← new_event session_id branch_id SpanAgent
    (SessionCancelCleared "superseded by direct user message");
  message_event ← turn_event session_id branch_id SpanAgent (MessageAppended message)
    (Some turn_id);
  started ← turn_started_event (se_session_id turn_session) branch_id turn_id
    (cd_provider descriptor) model_id (wrap32 (Z.of_nat (length messages + 1)))
    settings_revision_id UserMessage None;
  queued ← new_event session_id branch_id SpanAgent
    (SessionQueuedMessageEnqueued message settings_revision_id);
  audit ← operator_command_event session_id branch_id "queued_message" (render_input message)
    "Queued behind active session work." true;
  outcome ← commit_turn_admission session_id settings_revision_id cancel_clear_event
    [message_event; started] [queued; audit];
  match outcome with
  | AdmissionStarted _ =>
      mret (inl (UserStarted (MkAdmittedTurn session_id branch_id turn_id settings_revision_id)))
  | AdmissionQueued _ position => mret (inl (UserQueued position))
  | RetryWithSettings current => mret (inr current)
  | AdmissionBudgetExhausted => rt_fail (Protocol
      "session budget exhausted; adjust the session budget before sending more work")
  end.

Fixpoint admit_loop (rounds : nat) (session : SessionRecord) (branch : BranchRecord)
    (message : Message) (settings_revision_id : Z) : Rt UserMessageAdmission :=
  match rounds with
  | O => rt_fail (InvalidState "session settings changed repeatedly during turn admission")
  | S rounds =>
      admitted ← try_admit session branch message settings_revision_id;
      match admitted with
      | inl admission => mret admission
      | inr current => admit_loop rounds session branch message current
      end
  end.

(** [admit_user_message]: eight rounds *)
Definition admit_user_message (session : SessionRecord) (branch : BranchRecord)
    (message : Message) : Rt UserMessageAdmission :=
  admit_loop 8 session branch message (se_settings_revision_id session).

(** The two events that resolve a queued message and record it. *)
Definition queue_resolution_events (session_id : SessionId) (queued : QueuedMessageProjection)
    (outcome : QueuedMessageResolutionOutcome) (reason command_type output : string)
    (success : bool) : Rt (list EventEnvelope) :=
  resolved ← new_event session_id (qp_branch_id queued) SpanAgent
    (SessionQueuedMessageResolved (qp_queue_event_id queued) outcome (Some reason));
  audit ← operator_command_event session_id (qp_branch_id queued) command_type
    (render_input (qp_message queued)) output success;
  mret [resolved; audit].

Fixpoint queue_drop_events (session_id : SessionId) (reason output : string) (success : bool)
    (pending : list QueuedMessageProjection) : Rt (list EventEnvelope) :=
  match pending with
  | [] => mret []
  | queued :: pending =>
      events ← queue_resolution_events session_id queued QueueDropped reason "queue_drop" output
                 success;
      rest ← queue_drop_events session_id reason output success pending;
      mret (events ++ rest)
  end.

Definition inspect_queued (queued : QueuedMessageProjection) : QueuedMessageInspection :=
  MkQueuedMessageInspection (qp_branch_id queued) (qp_message queued)
    (qp_settings_revision_id queued) (qp_enqueued_at queued).

(** [clear_queued_messages] *)
Definition clear_queued_messages (session_id : SessionId) (reason audit_output : string)
    (audit_success : bool) : Rt (list QueuedMessageInspection) :=
  pending ← read_result (load_pending_queued_messages session_id);
  match pending with
  | [] => mret []
  | _ =>
      events ← queue_drop_events session_id reason audit_output audit_success pending;
      _ ← rt_append_events events;
      mret (List.map inspect_queued pending)
  end.

(** [clear_cancel_request] *)
Definition clear_cancel_request (session_id : SessionId) (branch_id : BranchId)
    (reason : string) : Rt bool :=
  cancelled ← is_cancelled session_id;
  if negb cancelled then mret false else
  event ← new_event session_id branch_id SpanAgent (SessionCancelCleared reason);
  _ ← rt_append_event event;
  mret true.

(** ** The follow-up of a finished turn *)

Definition claimed_dispatch (dispatch : QueuedDispatch) (claim : ContinuationClaim)
    : option QueuedDispatch :=
  match claim with ClaimClaimed _ => Some dispatch | _ => None end.

Definition rt_new_turn_message (session_id : SessionId) (branch_id : BranchId)
    (turn_id : TurnId) (message : Message) : Rt EventEnvelope :=
  turn_event session_id branch_id SpanAgent (MessageAppended message) (Some turn_id).

(** [apply_pending_steers]: all pending steers of the branch, as one message *)
Definition apply_pending_steers (session : SessionRecord) (branch : BranchRecord)
    : Rt (option QueuedDispatch) :=
  let session_id := se_session_id session in
  let branch_id := br_branch_id branch in
  pending ← read_result (load_pending_steers_for_branch session_id branch_id);
  match last pending with
  | None => mret None
  | Some latest =>
      let settings_revision_id := sp_settings_revision_id latest in
      let combined := combine_steer_messages (List.map sp_message pending) in
      let steer_event_ids := List.map sp_steer_event_id pending in
      turn_id ← fresh_id;
      settings ← resolve_turn_settings session_id settings_revision_id;
      let '(descriptor, model_id) := settings in
      messages ← rt_messages session_id branch_id;
      resolved ← new_event session_id branch_id SpanAgent
        (SessionSteersResolved steer_event_ids SteerApplied (Some combined) None);
      message ← new_text_message RoleUser combined;
      appended ← rt_new_turn_message session_id branch_id turn_id message;
      started ← turn_started_event session_id branch_id turn_id (cd_provider descriptor) model_id
        (wrap32 (Z.of_nat (length messages + 1))) settings_revision_id SteerFollowUp None;
      claim ← commit_steer_continuation session_id branch_id steer_event_ids
        [resolved; appended; started];
      mret (claimed_dispatch (MkQueuedDispatch branch_id turn_id settings_revision_id) claim)
  end.

(** [dispatch_next_queued_message]: the oldest one *)
Definition dispatch_next_queued_message (session : SessionRecord) : Rt (option QueuedDispatch) :=
  let session_id := se_session_id session in
  pending ← read_result (load_pending_queued_messages session_id);
  match pending with
  | [] => mret None
  | queued :: _ =>
      loaded ← read_result (load_branch session_id (qp_branch_id queued));
      branch ← rt_lift (ok_or (InvalidState "queued branch not found") loaded);
      turn_id ← fresh_id;
      settings ← resolve_turn_settings session_id (qp_settings_revision_id queued);
      let '(descriptor, model_id) := settings in
      messages ← rt_messages session_id (qp_branch_id queued);
      resolution ← queue_resolution_events session_id queued QueueDispatched
        "Dispatched from the session queue." "queue_dispatch"
        "Dispatched from the session queue." true;
      appended ← rt_new_turn_message session_id (qp_branch_id queued) turn_id (qp_message queued);
      started ← turn_started_event session_id (br_branch_id branch) turn_id
        (cd_provider descriptor) model_id (wrap32 (Z.of_nat (length messages + 1)))
        (qp_settings_revision_id queued) QueuedFollowUp None;
      claim ← commit_queued_continuation session_id (qp_queue_event_id queued)
        (resolution ++ [appended; started]);
      mret (claimed_dispatch (MkQueuedDispatch (br_branch_id branch) turn_id
              (qp_settings_revision_id queued)) claim)
  end.

Definition DROPPED_BY_CANCEL : string := "Dropped because the active turn was cancelled.".

(** The events that consume a cancellation: it is cleared, and what waited
    behind the turn is dropped. *)
Definition cancel_consumed_events (session_id : SessionId) (branch_id : BranchId)
    (steers : list SteerProjection) (queue : list QueuedMessageProjection)
    : Rt (list EventEnvelope) :=
  cleared ← new_event session_id branch_id SpanAgent
    (SessionCancelCleared "cancel request consumed after turn completion");
  dropped ← match steers with
    | [] => mret []
    | _ =>
        event ← new_event session_id branch_id SpanAgent
          (SessionSteersResolved (List.map sp_steer_event_id steers) SteerDropped None
             (Some DROPPED_BY_CANCEL));
        mret [event]
    end;
  rest ← queue_drop_events session_id DROPPED_BY_CANCEL DROPPED_BY_CANCEL false queue;
  mret (cleared :: dropped ++ rest).

(** [consume_post_turn_controls]: a pending cancellation drops what waits;
    otherwise the branch's steers come before related messages, and those
    before the queue. *)
Definition consume_post_turn_controls (session : SessionRecord) (branch : BranchRecord)
    : Rt PostTurnControlAction :=
  let session_id := se_session_id session in
  cancelled ← is_cancelled session_id;
  if cancelled : bool then
    pending_steers ← read_result (load_pending_steers session_id);
    pending_queue ← read_result (load_pending_queued_messages session_id);
    events ← cancel_consumed_events session_id (br_branch_id branch) pending_steers pending_queue;
    _ ← rt_append_events events;
    mret ControlStop
  else
    steered ← apply_pending_steers session branch;
    match steered with
    | Some dispatch => mret (ContinueCurrentBranch dispatch)
    | None =>
        related ← claim_next_related_session_message session_id;
        match related with
        | Some admitted => mret (ContinueRelatedSessionBranch
            (MkQueuedDispatch (ad_branch_id admitted) (ad_turn_id admitted)
               (ad_settings_revision_id admitted)))
        | None =>
            dispatched ← dispatch_next_queued_message session;
            match dispatched with
            | Some dispatch => mret (ContinueQueuedBranch dispatch)
            | None => mret ControlStop
            end
        end
    end.

(** ** Resumptions *)

(** [append_resumed_control_events]: the branch's pending steers join the
    resumed turn as one message. *)
Definition resumed_control_events (session_id : SessionId) (branch_id : BranchId)
    (turn_id : TurnId) (steers : list SteerProjection) : Rt (list EventEnvelope) :=
  match steers with
  | [] => mret []
  | _ =>
      let combined := combine_steer_messages (List.map sp_message steers) in
      resolved ← turn_event session_id branch_id SpanAgent
        (SessionSteersResolved (List.map sp_steer_event_id steers) SteerApplied (Some combined)
           None) (Some turn_id);
      message ← new_text_message RoleUser combined;
      appended ← rt_new_turn_message session_id branch_id turn_id message;
      mret [resolved; appended]
  end.

(** [current_message_count as u32 + 1 + u32::from(steered)] *)
Definition resumed_message_count (messages : list Message) (steers : list SteerProjection) : Z :=
  let steered := match steers with [] => 0 | _ => 1 end in
  u32_add (u32_add (wrap32 (Z.of_nat (length messages))) 1) steered.

(** What both resumptions do with the events that follow the start. *)
Definition resume_turn (resumable : ResumableToolCall) (call_id : ToolCallId)
    (tool_name : string) (source : TurnStartSource) (kind : ResumedContinuationKind)
    (resumed_events : SessionId -> BranchId -> TurnId -> Rt (list EventEnvelope))
    : Rt AdmittedTurn :=
  let session_id := se_session_id (rb_session resumable) in
  let branch_id := br_branch_id (rb_branch resumable) in
  let settings_revision_id := rb_settings_revision_id resumable in
  turn_id ← fresh_id;
  settings ← resolve_turn_settings session_id settings_revision_id;
  let '(descriptor, model_id) := settings in
  messages ← rt_messages session_id branch_id;
  steers ← read_result (load_pending_steers_for_branch session_id branch_id);
  started ← turn_started_event session_id branch_id turn_id (cd_provider descriptor) model_id
    (resumed_message_count messages steers) settings_revision_id source (Some call_id);
  resumed ← resumed_events session_id branch_id turn_id;
  controls ← resumed_control_events session_id branch_id turn_id steers;
  claim ← commit_resumed_continuation session_id branch_id call_id tool_name
    (rb_turn_id resumable) (rb_requested_seq_id resumable) settings_revision_id kind
    (started :: resumed ++ controls);
  _ ← rt_lift (require_resumed_continuation_claim claim);
  mret (MkAdmittedTurn session_id branch_id turn_id settings_revision_id).

(** [bootstrap_resumed_approval_turn] *)
Definition bootstrap_resumed_approval_turn (resumable : ResumableToolCall)
    (request : ApprovalRequest) (decision : ApprovalDecision) : Rt AdmittedTurn :=
  let request_fingerprint := fingerprint render_number render_string request in
  admitted ← resume_turn resumable (rq_call_id request) (rq_tool_name request) ApprovalResume
    ResumeApproval (fun session_id branch_id turn_id =>
      resolved ← turn_event session_id branch_id SpanTool
        (ToolApprovalResolved (rq_call_id request) (rq_tool_name request)
           (Some request_fingerprint) (Some (MkApprovalResolution request_fingerprint decision))
           decision) (Some turn_id);
      mret [resolved]);
  _ ← keep_approval (fun state =>
        seed_reusable_decision state (rq_session_id request) request_fingerprint decision);
  mret admitted.

(** [bootstrap_resumed_input_turn] *)
Definition bootstrap_resumed_input_turn (resumable : ResumableToolCall)
    (tool_result : ToolResultEnvelope) : Rt AdmittedTurn :=
  resume_turn resumable (MkToolCallId (tc_call_id (rb_tool_call resumable)))
    (tc_tool_name (rb_tool_call resumable)) InputResume ResumeInput
    (fun session_id branch_id turn_id =>
       message ← rt_tool_result_message tool_result;
       tool_terminal_events session_id branch_id turn_id tool_result message).
End control.
