(* ===== verification/RuntimeRecovery.v ===== *)
(** * The runtime: opening and recovery ([runtime/lifecycle.rs])

    A process that starts over a store finds turns that were running when
    the last one stopped.  Each is ended as failed, with a terminal result for
    every tool call whose outcome is unknown; the replies such turns owe are
    settled; and operator tools that were running are closed. *)

From stdpp Require Import base list strings gmap sorting.
From Stdlib Require Import ZArith Lia.
From S2P Require Import Prelude Text Json Types Messages TurnProjection Approvals Store StoreOps.
From S2P Require Import StoreRelated StoreQueries StorePaging Runtime RuntimeBudget.
From S2P Require Import RuntimeRecords RuntimeSessions RuntimeRelated RuntimeControl.

#[local] Open Scope Z_scope.

(** ** The tool calls of an interrupted turn ([interrupted_tool_results]) *)

Record Candidate : Type := MkCandidate {
  ca_call_id : ToolCallId;
  ca_tool_name : string;
  ca_request_seq_id : Z;
  ca_request_turn_id : option TurnId;
}.

(** A request event as a candidate. *)
Definition requested_candidate (event : EventEnvelope) : option Candidate :=
  match ev_payload event with
  | ToolCallRequested call_id tool_name _ =>
      seq_id ← ev_seq_id event;
      Some (MkCandidate call_id tool_name seq_id (ev_turn_id event))
  | _ => None
  end.

Definition turn_candidates (turn_id : TurnId) (events : list EventEnvelope) : list Candidate :=
  omap (fun event => if bool_decide (ev_turn_id event = Some turn_id)
                     then requested_candidate event else None) events.

(** [max_by_key]: the last of the greatest. *)
Definition later_request (best : option Candidate) (c : Candidate) : option Candidate :=
  match best with
  | Some b => if ca_request_seq_id c <? ca_request_seq_id b then best else Some c
  | None => Some c
  end.

(** The request that a resumed turn took up. *)
Definition resumed_candidate (call_id : ToolCallId) (started_seq_id : Z)
    (events : list EventEnvelope) : option Candidate :=
  fold_left later_request
    (List.filter (fun c => bool_decide (ca_call_id c = call_id)
                           && (ca_request_seq_id c <? started_seq_id))
       (omap requested_candidate events)) None.

Definition candidate_le (a b : Candidate) : Prop := ca_request_seq_id a <= ca_request_seq_id b.
#[export] Instance candidate_le_dec a b : Decision (candidate_le a b).
Proof. unfold candidate_le. apply _. Defined.

Definition interrupted_candidates (events : list EventEnvelope) (turn : TurnRecoveryRecord)
    : list Candidate :=
  let candidates := turn_candidates (tv_turn_id turn) events in
  let resumed := call_id ← tv_resumed_from_call_id turn;
                 resumed_candidate call_id (tv_started_seq_id turn) events in
  merge_sort candidate_le
    match resumed with
    | Some c =>
        if existsb (fun e => ca_request_seq_id e =? ca_request_seq_id c) candidates
        then candidates else candidates ++ [c]
    | None => candidates
    end.

(** What later events say of a candidate: whether it finished, and the last
    approval request and resolution. *)
Record CandidateState : Type := MkCandidateState {
  cz_terminal_recorded : bool;
  cz_approval_request : option Z;
  cz_approval_resolution : option (Z * ApprovalDecision);
}.

(** The turn of an approval event is the request's or the interrupted one. *)
Definition concerns (turn_id : TurnId) (c : Candidate) (event : EventEnvelope) : bool :=
  match ev_turn_id event with
  | Some event_turn_id =>
      bool_decide (Some event_turn_id = ca_request_turn_id c)
      || bool_decide (event_turn_id = turn_id)
  | None => false
  end.

Definition candidate_step (turn_id : TurnId) (c : Candidate) (s : CandidateState)
    (event : EventEnvelope) : CandidateState :=
  match ev_payload event with
  | ToolExecutionFinished call_id _ _ =>
      if bool_decide (call_id = ca_call_id c) && bool_decide (ev_turn_id event = Some turn_id)
      then MkCandidateState true (cz_approval_request s) (cz_approval_resolution s) else s
  | ToolApprovalRequested call_id _ _ =>
      if bool_decide (call_id = ca_call_id c) && concerns turn_id c event
      then MkCandidateState (cz_terminal_recorded s) (ev_seq_id event) (cz_approval_resolution s)
      else s
  | ToolApprovalResolved call_id _ _ _ decision =>
      if bool_decide (call_id = ca_call_id c) && concerns turn_id c event
      then MkCandidateState (cz_terminal_recorded s) (cz_approval_request s)
             ((fun seq_id => (seq_id, decision)) <$> ev_seq_id event)
      else s
  | _ => s
  end.

Definition candidate_state (turn_id : TurnId) (events : list EventEnvelope) (c : Candidate)
    : CandidateState :=
  fold_left (candidate_step turn_id c)
    (List.filter (fun event => is_some_and (fun seq_id => ca_request_seq_id c <? seq_id)
                                 (ev_seq_id event)) events)
    (MkCandidateState false None None).

Definition approval_pending (s : CandidateState) : bool :=
  match cz_approval_request s with
  | None => false
  | Some requested =>
      match cz_approval_resolution s with
      | None => true
      | Some (resolved, _) => resolved <? requested
      end
  end.

Definition is_denied (s : CandidateState) : bool :=
  match cz_approval_resolution s with Some (_, Denied _ _ _ _ _) => true | _ => false end.

Definition error_object (class code message : string) (retryable : bool) : Value :=
  VObject [("class", VString class); ("code", VString code); ("message", VString message);
           ("retryable", VBool retryable)].

Definition UNKNOWN_OUTCOME : string := "tool_outcome_unknown_after_restart".

(** The result recorded for a candidate: none when it finished, still waits
    for an approval, or is a question. *)
Definition candidate_result (turn_id : TurnId) (events : list EventEnvelope) (c : Candidate)
    : option ToolResultEnvelope :=
  let s := candidate_state turn_id events c in
  if cz_terminal_recorded s || approval_pending s || String.eqb (ca_tool_name c) "ask"
  then None
  else Some (MkToolResultEnvelope (ca_call_id c) (ca_tool_name c) true
    (VObject [("error",
       if is_denied s
       then VString ("invalid state: tool `" +:+ ca_tool_name c +:+ "` was denied")
       else error_object "runtime" UNKNOWN_OUTCOME
         "runtime restarted after tool execution began; the side effect may have occurred and the tool will not be retried automatically"
         false)]) None).

(** [interrupted_tool_results] *)
Definition interrupted_tool_results (events : list EventEnvelope) (turn : TurnRecoveryRecord)
    : list ToolResultEnvelope :=
  omap (candidate_result (tv_turn_id turn) events) (interrupted_candidates events turn).

Definition is_human (initiator : ToolOperationInitiator) : bool :=
  match initiator with InitHuman => true | _ => false end.

Section recovery.
Context `{codec : RowCodec} `{entropy : Entropy}.

(** ** Turns *)

Definition recovery_reason (source : TurnStartSource) : string * string :=
  match source with
  | ApprovalResume | InputResume =>
      ("resumed turn interrupted before completion; recovered as failed during runtime startup",
       "interrupted_after_resume")
  | _ =>
      ("turn interrupted before completion; recovered as failed during runtime startup",
       "interrupted_after_restart")
  end.

(** One turn of the loop of [recover_interrupted_turns]. *)
Definition recover_turn (turn : TurnRecoveryRecord) : Rt unit :=
  let '(message, finish_reason) := recovery_reason (tv_source turn) in
  events ← read (load_all_events (tv_session_id turn));
  _ ← record_turn_failure_transition_with_reason_outcome (tv_session_id turn) (tv_branch_id turn)
        (tv_provider turn) (tv_model turn) (tv_turn_id turn)
        (interrupted_tool_results events turn) (Types.Runtime message) finish_reason 0;
  mret tt.

(** ** Replies owed ([repair_related_session_reply_settlements]) *)

(** The last turn of the branch from the original one on; the original is
    one of them. *)
Fixpoint turns_from (turn_id : TurnId) (turns : list TurnInspection) : list TurnInspection :=
  match turns with
  | [] => []
  | turn :: rest =>
      if bool_decide (ti_turn_id turn = turn_id) then turns else turns_from turn_id rest
  end.

Definition terminal_turn (branch_id : BranchId) (turns : list TurnInspection)
    : option TurnInspection :=
  find_map (fun t => if bool_decide (ti_branch_id t = branch_id) then Some t else None)
    (rev turns).

(** One obligation of the loop; the panic of its [expect] is an error here. *)
Definition repair_obligation (obligation : RelatedSessionMessageRecord) : Rt unit :=
  let message := rd_message obligation in
  let shown := show_uuid (uuid (rm_message_id message)) in
  original_turn_id ← rt_lift (ok_or
    (InvalidState ("claimed related-session obligation " +:+ shown +:+ " has no resulting turn"))
    (rd_resulting_turn_id obligation));
  turns ← read_result (load_turn_projections (rm_destination_session_id message));
  _ ← rt_lift (reject_if (bool_decide (turns_from original_turn_id turns = []))
        (InvalidState ("claimed related-session obligation " +:+ shown
           +:+ " references missing turn " +:+ show_uuid (uuid original_turn_id))));
  match terminal_turn (rm_destination_branch_id message) (turns_from original_turn_id turns) with
  | None => rt_fail (Types.Runtime "the original turn is on the obligation branch")
  | Some terminal =>
      match ti_status terminal with
      | None => mret tt
      | Some status =>
          if String.eqb status "awaiting_approval" || String.eqb status "awaiting_input"
          then mret tt
          else
            _ ← (if String.eqb status "completed" then
                   record_related_turn_outcome (rm_destination_session_id message)
                     (ti_branch_id terminal) (ti_turn_id terminal) StopComplete
                 else if String.eqb status "cancelled" then
                   record_related_turn_outcome (rm_destination_session_id message)
                     (ti_branch_id terminal) (ti_turn_id terminal) StopCancelled
                 else
                   record_related_turn_failure (rm_destination_session_id message)
                     (ti_branch_id terminal) (ti_turn_id terminal)
                     (Types.Runtime ("turn recovered with terminal status `" +:+ status +:+ "` ("
                        +:+ default "unknown" (ti_finish_reason terminal)
                        +:+ "); it was not retried because side effects may have occurred")));
            mret tt
      end
  end.

(** [repair_related_session_reply_settlements] *)
Definition repair_related_session_reply_settlements : Rt unit :=
  unsettled ← read_result load_all_unsettled_related_session_obligations;
  rt_iter repair_obligation
    (List.filter (fun r => is_request (rm_kind (rd_message r))) unsettled).

(** [recover_interrupted_turns] *)
Definition recover_interrupted_turns : Rt unit :=
  interrupted_turns ← read load_unfinished_turns;
  _ ← rt_iter recover_turn interrupted_turns;
  repair_related_session_reply_settlements.

(** ** Operator tools *)

Definition recover_operator_tool (operation : ToolOperationRecoveryRecord) : Rt unit :=
  let result := MkToolResultEnvelope (ov_call_id operation) (ov_tool_name operation) true
    (VObject [("error", error_object "runtime" UNKNOWN_OUTCOME
       "runtime restarted after operator tool execution began; the side effect may have occurred and the tool will not be retried automatically"
       false)]) None in
  finished ← new_event (ov_session_id operation) (ov_branch_id operation) SpanTool
    (ToolExecutionFinished (tr_call_id result) (tr_tool_name result) result);
  error ← new_event (ov_session_id operation) (ov_branch_id operation) SpanSession
    (SessionError EcRuntime UNKNOWN_OUTCOME
       ("operator tool `" +:+ ov_tool_name operation
          +:+ "` outcome is unknown after runtime restart") false);
  _ ← rt_append_events [finished; error];
  mret tt.

(** [recover_interrupted_operator_tools] *)
Definition recover_interrupted_operator_tools : Rt unit :=
  interrupted ← read load_unfinished_unbound_tool_operations;
  rt_iter recover_operator_tool
    (List.filter (fun o => is_human (to_initiator (ov_operation o))) interrupted).

(** ** Opening ([BelltowerRuntime::open]) *)

(** [rehydrate_approval_state] of [runtime/support.rs] *)
Definition rehydrate_approval_state : Rt unit :=
  approvals ← read load_reusable_approvals;
  rt_iter (fun a => keep_approval (fun state =>
    seed_reusable_decision state (ra_session_id a) (ra_request_fingerprint a) (ra_decision a)))
    approvals.

(** A runtime over an opened store: nothing in memory but the reusable
    approvals, which the store gives back. *)
Definition fresh_runtime (db : Db) (connections : list ConnectionDescriptor) : Runtime :=
  MkRuntime db [] ∅ [] approval_state_default connections 0.

(** [BelltowerRuntime::open] *)
Definition open (db : Db) (connections : list ConnectionDescriptor) : Result unit * Runtime :=
  (_ ← rehydrate_approval_state;
   _ ← recover_interrupted_turns;
   recover_interrupted_operator_tools) (fresh_runtime db connections).
End recovery.
