(* ===== verification/ContextPrompt.v ===== *)
(** * Requests: thinking defaults and the system prompt

    [crates/bt-core/src/model_capability.rs] (what a model accepts, read off
    its name) and the part of [crates/bt-context/src/lib.rs] that builds a
    session's system prompt and picks the thinking configuration of a
    request.  The file system the prompt builder scans for validation
    surfaces is a parameter: [read_dir] lists a directory, [strip_path]
    makes a path relative to the project root ([camino]). *)

From stdpp Require Import base list strings gmap sorting.
From Stdlib Require Import ZArith Lia Ascii.
From S2P Require Import Prelude Text Json Types.

#[local] Open Scope Z_scope.

(** ** Model capabilities ([model_capability.rs]) *)

Definition openai_reasoning_family (model : string) : bool :=
  let model := to_ascii_lowercase model in
  starts_with "o1" model || starts_with "o3" model || starts_with "o4" model
  || starts_with "gpt-5" model.

Definition openai_default_reasoning_effort (model : string) : option ThinkingEffort :=
  if negb (openai_reasoning_family model) then None
  else if contains "codex-max" (to_ascii_lowercase model) then Some EffortXHigh
  else Some EffortHigh.

Definition clamp_openai_chat_reasoning_effort (effort : ThinkingEffort) : ThinkingEffort :=
  match effort with
  | EffortXHigh => EffortHigh
  | other => other
  end.

Definition anthropic_supports_thinking (model : string) : bool :=
  let model := to_ascii_lowercase model in
  match strip_prefix "claude-" model with
  | None => false
  | Some rest =>
      is_some_and (fun major => 4 <=? major)
        (find_map (parse_unsigned U32_MAX) (split_char "-"%char rest))
  end.

(** ** Thinking defaults *)

Definition openai_reasoning_effort (model : string) : option ThinkingEffort :=
  openai_default_reasoning_effort model.

Definition supports_anthropic_thinking (model : string) : bool :=
  anthropic_supports_thinking model.

Definition default_anthropic_thinking_budget (reserve_tokens : Z) : Z :=
  let upper := u64_saturating_sub reserve_tokens 1 in
  if upper <? 1024 then Z.max upper 1
  else Z.min (clamp 1024 32768 (u64_saturating_sub reserve_tokens 1024)) upper.

Definition effective_thinking_config (connection_id : ConnectionId) (provider model : string)
    (reserve_tokens : Z) (requested : option ThinkingConfig) : option ThinkingConfig :=
  match requested with
  | Some _ => requested
  | None =>
      if String.eqb provider "openai-chatgpt" && bool_decide (is_Some (openai_reasoning_effort model))
      then Some {| th_enabled := true;
                   th_effort := openai_reasoning_effort model;
                   th_budget_tokens := None;
                   th_include_summaries := true |}
      else if String.eqb provider "openai-compatible"
              && String.eqb (connection_name connection_id) "openai"
              && bool_decide (is_Some (openai_reasoning_effort model))
      then Some {| th_enabled := true;
                   th_effort := openai_reasoning_effort model;
                   th_budget_tokens := None;
                   th_include_summaries := true |}
      else if String.eqb provider "anthropic" && supports_anthropic_thinking model
      then Some {| th_enabled := true;
                   th_effort := Some EffortHigh;
                   th_budget_tokens := Some (default_anthropic_thinking_budget reserve_tokens);
                   th_include_summaries := true |}
      else None
  end.

(** ** Validation surfaces *)

Definition MAX_VALIDATION_SURFACES : nat := 12.
Definition MAX_VALIDATION_SCAN_DEPTH : nat := 3.
Definition MAX_VALIDATION_SCAN_ENTRIES : nat := 256.

(** One entry of a directory: its name ([to_string_lossy]), its path when
    that is valid UTF-8, and whether it is a directory. *)
Record DirEntry : Type := MkDirEntry {
  de_name : string;
  de_path : option string;
  de_is_dir : bool;
}.

Definition one_of (names : list string) (s : string) : bool := existsb (String.eqb s) names.

Definition validation_dir_names : list string :=
  ["test"; "tests"; "spec"; "specs"; "fixture"; "fixtures"; "schema"; "schemas";
   "expected"; "golden"].

Definition should_skip_validation_scan_entry (name : string) : bool :=
  one_of [".git"; ".belltower"; "target"; "node_modules"; ".venv"; "venv"; "__pycache__"] name
  || starts_with "." name.

Definition should_descend_validation_scan (name : string) (depth : nat) : bool :=
  Nat.eqb depth 0 || one_of validation_dir_names (to_ascii_lowercase name).

Definition is_validation_surface_name (name : string) (is_dir : bool) : bool :=
  let lower := to_ascii_lowercase name in
  if is_dir then one_of validation_dir_names lower
  else one_of ["agents.md"; "readme.md"; "makefile"; "justfile"; "pyproject.toml";
               "package.json"] lower
       || contains "test" lower || contains "spec" lower || contains "schema" lower
       || contains "fixture" lower || contains "expected" lower || contains "golden" lower.

Section prompt.
Context (read_dir : string -> option (list DirEntry)).
Context (strip_path : string -> string -> option string).

Definition relative_surface_path (project_root path : string) (is_dir : bool)
    : option string :=
  rendered ← strip_path path project_root;
  if is_empty rendered then None
  else if is_dir && negb (ends_with "/" rendered) then Some (rendered +:+ "/")
  else Some rendered.

Definition entry_name_le (a b : DirEntry) : Prop := str_le (de_name a) (de_name b).
#[export] Instance entry_name_le_dec a b : Decision (entry_name_le a b).
Proof. unfold entry_name_le. apply _. Defined.

(** The scan's state: the entries visited and the surfaces found. *)
Definition ScanState : Type := nat * gset string.

(** The body of the [for entry in entries] loop; [descend] is the recursive
    call on the entry's path. *)
Definition scan_entry (project_root : string) (depth : nat)
    (descend : string -> ScanState -> ScanState) (entry : DirEntry) (st : ScanState)
    : ScanState :=
  let visited_entries := S st.1 in
  if should_skip_validation_scan_entry (de_name entry) then (visited_entries, st.2)
  else match de_path entry with
       | None => (visited_entries, st.2)
       | Some path =>
           let surfaces :=
             if is_validation_surface_name (de_name entry) (de_is_dir entry) then
               match relative_surface_path project_root path (de_is_dir entry) with
               | Some surface => {[ surface ]} ∪ st.2
               | None => st.2
               end
             else st.2 in
           if de_is_dir entry && should_descend_validation_scan (de_name entry) depth
           then descend path (visited_entries, surfaces)
           else (visited_entries, surfaces)
       end.

Fixpoint scan_entries (project_root : string) (depth : nat)
    (descend : string -> ScanState -> ScanState) (entries : list DirEntry) (st : ScanState)
    : ScanState :=
  match entries with
  | [] => st
  | entry :: entries' =>
      if Nat.leb MAX_VALIDATION_SCAN_ENTRIES st.1 then st
      else scan_entries project_root depth descend entries'
             (scan_entry project_root depth descend entry st)
  end.

(** [scan_validation_surfaces]: [levels] is the number of levels the depth
    bound still allows, [depth = MAX_VALIDATION_SCAN_DEPTH + 1 - levels]. *)
Fixpoint scan_validation_surfaces (levels : nat) (project_root dir : string) (st : ScanState)
    : ScanState :=
  match levels with
  | O => st
  | S levels' =>
      if Nat.leb MAX_VALIDATION_SCAN_ENTRIES st.1 then st
      else match read_dir dir with
           | None => st
           | Some entries =>
               scan_entries project_root (MAX_VALIDATION_SCAN_DEPTH - levels')
                 (fun path => scan_validation_surfaces levels' project_root path)
                 (merge_sort entry_name_le entries) st
           end
  end.

Definition validation_surfaces_for_project (project_root : string) : list string :=
  take MAX_VALIDATION_SURFACES
    (sorted_elements
       (scan_validation_surfaces (S MAX_VALIDATION_SCAN_DEPTH) project_root project_root
          (O, ∅)).2).

(** ** Sections of the system prompt *)

Definition render_runtime_context (session : SessionRecord) : string :=
  let validation_surfaces := validation_surfaces_for_project (se_project_root session) in
  join nl
    (["Runtime context:";
      "- cwd: " +:+ se_project_root session;
      "- connection: " +:+ connection_name (se_connection_id session)]
     ++ match se_model_id session with
        | Some model_id => if is_blank model_id then [] else ["- model: " +:+ model_id]
        | None => []
        end
     ++ ["- tool mode: "
           +:+ match se_tool_mode session with
               | Standard => "standard"
               | Extended => "extended"
               end;
         "- shell commands run from this cwd/project root."]
     ++ match validation_surfaces with
        | [] => []
        | _ => "- validation surfaces detected:"
                 :: List.map (fun surface => "  - " +:+ surface) validation_surfaces
        end).

Definition TOOL_GUIDANCE_ORDER : list (string * string) :=
  [("search", "discover files or matching content");
   ("read", "inspect a known file");
   ("list", "inspect directory structure");
   ("edit", "make deliberate local file changes");
   ("write", "create or replace a file intentionally");
   ("shell", "use only when the structured tools are not the right fit");
   ("web_search", "discover external web sources before fetching specific URLs");
   ("web_fetch", "retrieve public URL content with source and truncation metadata");
   ("plan", "track multi-step work explicitly when it helps");
   ("ask", "pause and ask the human when required input is missing");
   ("inspect", "check prior harness state instead of guessing")].

Definition render_tool_guidance (tools : list ToolSpec) : option string :=
  let tool_names : gset string := list_to_set (List.map ts_name tools) in
  let lines :=
    omap (fun '(name, description) =>
            if bool_decide (name ∈ tool_names)
            then Some ("- `" +:+ name +:+ "`: " +:+ description) else None)
      TOOL_GUIDANCE_ORDER
    ++ (if bool_decide ("catalogue" ∈ tool_names)
        then ["- `catalogue`: discover additional external tools when the visible set is not enough."]
        else []) in
  match lines with
  | [] => None
  | _ => Some ("Tool guidance:" +:+ nl +:+ join nl lines)
  end.

Definition render_instruction_documents (instructions : list InstructionDocument) : string :=
  join (nl +:+ nl)
    (List.map (fun doc => "## " +:+ id_title doc +:+ nl +:+ trim (id_body doc)) instructions).

Definition render_plan_status (status : PlanStatus) : string :=
  match status with
  | PlanPending => "pending"
  | PlanInProgress => "in_progress"
  | PlanCompleted => "completed"
  | PlanBlocked => "blocked"
  end.

Record PlanInspection : Type := MkPlanInspection {
  pn_session_id : SessionId;
  pn_branch_id : BranchId;
  pn_items : list PlanItem;
  pn_updated_at : OffsetDateTime;
}.

Definition render_active_plan (plan : PlanInspection) : string :=
  "Active plan:" +:+ nl
  +:+ join nl
        (List.map (fun item => "- [" +:+ render_plan_status (pi_status item) +:+ "] "
                               +:+ pi_id item +:+ ": " +:+ pi_content item) (pn_items plan)).

Record SystemPromptInput : Type := MkSystemPromptInput {
  si_session : SessionRecord;
  si_provider_family : string;
  si_core_prompt : InstructionDocument;
  si_provider_overlay : option InstructionDocument;
  si_instructions : list InstructionDocument;
  si_plan : option PlanInspection;
  si_tools : list ToolSpec;
}.

(** [SystemPromptBuilder::build], section by section *)
Definition prompt_sections (input : SystemPromptInput) : list string :=
  [trim (id_body (si_core_prompt input))]
  ++ match se_objective (si_session input) with
     | Some objective =>
         if is_blank objective then [] else ["Objective:" +:+ nl +:+ trim objective]
     | None => []
     end
  ++ [render_runtime_context (si_session input)]
  ++ match render_tool_guidance (si_tools input) with
     | Some tool_guidance => [tool_guidance]
     | None => []
     end
  ++ match si_provider_overlay input with
     | Some overlay =>
         if is_blank (id_body overlay) then []
         else ["Provider notes (" +:+ si_provider_family input +:+ "):" +:+ nl
               +:+ trim (id_body overlay)]
     | None => []
     end
  ++ match si_instructions input with
     | [] => []
     | instructions => [render_instruction_documents instructions]
     end
  ++ match si_plan input with
     | Some plan => match pn_items plan with [] => [] | _ => [render_active_plan plan] end
     | None => []
     end.

Definition build (input : SystemPromptInput) : string :=
  join (nl +:+ nl) (prompt_sections input).
End prompt.

(** ** Laws *)

(** An Anthropic request leaves room for an answer: the default thinking
    budget is positive and stays below the request's [max_tokens], whatever
    the reserve, as soon as there is a token to spare. *)
Lemma default_anthropic_thinking_budget_fits reserve_tokens :
  2 <= reserve_tokens ->
  1 <= default_anthropic_thinking_budget reserve_tokens < reserve_tokens
  /\ default_anthropic_thinking_budget reserve_tokens <= 32768.
Proof.
  intros Hr. unfold default_anthropic_thinking_budget, u64_saturating_sub, clamp.
  destruct (Z.ltb_spec (Z.max 0 (reserve_tokens - 1)) 1024); lia.
Qed.

(** The scan visits at most [MAX_VALIDATION_SCAN_ENTRIES] entries, whatever
    the file system holds (a cyclic one included), and only adds surfaces. *)
Section scan_bound.
Context (read_dir : string -> option (list DirEntry)).
Context (strip_path : string -> string -> option string).

Definition scan_ok (st st' : ScanState) : Prop :=
  (st'.1 <= MAX_VALIDATION_SCAN_ENTRIES)%nat /\ st.2 ⊆ st'.2.

#[local] Opaque MAX_VALIDATION_SCAN_ENTRIES.

Lemma scan_entry_ok project_root depth descend entry st :
  (forall path st, (st.1 <= MAX_VALIDATION_SCAN_ENTRIES)%nat -> scan_ok st (descend path st)) ->
  (st.1 < MAX_VALIDATION_SCAN_ENTRIES)%nat ->
  scan_ok st (scan_entry strip_path project_root depth descend entry st).
Proof.
  intros Hdesc Hst. unfold scan_entry.
  destruct (should_skip_validation_scan_entry _); [by split|].
  destruct (de_path entry) as [path|]; [|by split].
  set (surfaces := if is_validation_surface_name _ _ then _ else _).
  assert (st.2 ⊆ surfaces) as Hsub.
  { subst surfaces. destruct (is_validation_surface_name _ _); [|done].
    destruct (relative_surface_path _ _ _ _); set_solver. }
  destruct (de_is_dir entry && _); [|by split].
  destruct (Hdesc path (S st.1, surfaces)) as [H1 H2]; [exact Hst|].
  split; [exact H1|]. cbn [snd] in H2. set_solver.
Qed.

Lemma scan_entries_ok project_root depth descend entries st :
  (forall path st, (st.1 <= MAX_VALIDATION_SCAN_ENTRIES)%nat -> scan_ok st (descend path st)) ->
  (st.1 <= MAX_VALIDATION_SCAN_ENTRIES)%nat ->
  scan_ok st (scan_entries strip_path project_root depth descend entries st).
Proof.
  intros Hdesc. revert st. induction entries as [|entry entries IH]; intros st Hst; [by split|].
  cbn [scan_entries]. destruct (Nat.leb_spec MAX_VALIDATION_SCAN_ENTRIES st.1); [by split|].
  destruct (scan_entry_ok project_root depth descend entry st Hdesc) as [H1 H2]; [done|].
  destruct (IH _ H1) as [H3 H4]. split; [done|]. set_solver.
Qed.

Lemma scan_validation_surfaces_ok levels project_root dir st :
  (st.1 <= MAX_VALIDATION_SCAN_ENTRIES)%nat ->
  scan_ok st (scan_validation_surfaces read_dir strip_path levels project_root dir st).
Proof.
  revert dir st; induction levels as [|levels IH]; intros dir st Hst; [by split|].
  cbn [scan_validation_surfaces]. destruct (Nat.leb _ _); [by split|].
  destruct (read_dir dir) as [entries|]; [|by split].
  apply scan_entries_ok; [|done]. intros path st' Hst'. by apply IH.
Qed.
End scan_bound.
