(* ===== verification/Sse.v ===== *)
(** * Server-sent events ([bt-providers/src/sse.rs])

    The parser that the streaming providers feed with the bytes of a
    response.  It keeps what has not been ended by an empty line, and hands
    out an event for every frame that has data. *)

From stdpp Require Import base list strings.
From Stdlib Require Import ZArith Lia Ascii.
From S2P Require Import Prelude Text Utf8.

Record SseEvent : Type := MkSseEvent {
  sse_event : option string;
  sse_data : string;
}.

(** ** Operations *)

(** [s.replace("\r\n", "\n")] *)
Fixpoint crlf_to_lf (s : string) : string :=
  match s with
  | String a (String b s'' as s') =>
      if Ascii.eqb a carriage_return && Ascii.eqb b newline then String newline (crlf_to_lf s'')
      else String a (crlf_to_lf s')
  | _ => s
  end.

(** [s.find(p)], as what is before and after the first occurrence. *)
Fixpoint split_once (p s : string) : option (string * string) :=
  match strip_prefix p s with
  | Some rest => Some ("", rest)
  | None =>
      match s with
      | "" => None
      | String a s => '(before, after) ← split_once p s; Some (String a before, after)
      end
  end.

(** The lines of a frame: the event's type and its data. *)
Definition parse_line (st : option string * list string) (line : string) : option string * list string :=
  let '(event_type, data) := st in
  match strip_prefix "event:" line with
  | Some value => (Some (trim value), data)
  | None =>
      match strip_prefix "data:" line with
      | Some value => (event_type, data ++ [trim value])
      | None => (event_type, data)
      end
  end.

Definition parse_frame (frame : string) : list SseEvent :=
  if is_empty frame then []
  else
    let '(event_type, data) := fold_left parse_line (lines frame) (None, []) in
    match data with
    | [] => []
    | _ => [MkSseEvent event_type (join nl data)]
    end.

(** The loop [while let Some(boundary) = self.buffer.find("\n\n")]: the
    complete frames and what is left.  Every frame takes two bytes, so the
    length of the buffer is fuel enough. *)
Fixpoint take_frames (fuel : nat) (buffer : string) : list string * string :=
  match fuel with
  | O => ([], buffer)
  | S fuel =>
      match split_once (nl +:+ nl) buffer with
      | None => ([], buffer)
      | Some (frame, rest) =>
          let '(frames, buffer) := take_frames fuel rest in (frame :: frames, buffer)
      end
  end.

(** [SseParser::push]: the events, and the new buffer. *)
Definition push (buffer chunk : string) : list SseEvent * string :=
  let buffer := crlf_to_lf (buffer +:+ from_utf8_lossy chunk) in
  let '(frames, buffer) := take_frames (String.length buffer) buffer in
  (List.concat (List.map parse_frame frames), buffer).

(** The chunks of a response, in the order they arrive. *)
Fixpoint push_all (buffer : string) (chunks : list string) : list SseEvent * string :=
  match chunks with
  | [] => ([], buffer)
  | chunk :: chunks =>
      let '(events, buffer) := push buffer chunk in
      let '(more, buffer) := push_all buffer chunks in
      (events ++ more, buffer)
  end.

Example split_events :
  push_all "" ["event: message" +:+ nl +:+ "data: {a:"; "1}" +:+ nl +:+ nl]
  = ([MkSseEvent (Some "message") "{a:1}"], "").
Proof. vm_compute. reflexivity. Qed.

(** ** Searching *)

Lemma strip_prefix_app p t : strip_prefix p (p +:+ t) = Some t.
Proof. by apply strip_prefix_Some. Qed.

(** Whether a prefix is there is decided by as many bytes as it has. *)
Lemma strip_prefix_None_app p u s t :
  String.length p <= String.length u ->
  strip_prefix p (u +:+ s) = None -> strip_prefix p (u +:+ t) = None.
Proof.
  revert u. induction p as [|a p IH]; intros [|b u]; simpl; intros Hl; try done; try lia.
  destruct (Ascii.eqb a b); [|done]. apply IH. lia.
Qed.

Lemma split_once_Some p s x y : split_once p s = Some (x, y) -> s = x +:+ p +:+ y.
Proof.
  revert x. induction s as [|a s IH]; intros x; simpl.
  - destruct (strip_prefix p "") eqn:E; [|done]. intros [= <- <-]. by apply strip_prefix_Some in E.
  - destruct (strip_prefix p (String a s)) eqn:E.
    + intros [= <- <-]. by apply strip_prefix_Some in E.
    + destruct (split_once p s) as [[x' y']|]; [|done]. simpl. intros [= <- <-].
      change (String a s = String a (x' +:+ p +:+ y')). f_equal. by apply IH.
Qed.

(** What follows the first occurrence does not matter. *)
Lemma split_once_rest p s x y t :
  split_once p s = Some (x, y) -> split_once p (x +:+ p +:+ t) = Some (x, t).
Proof.
  revert x. induction s as [|a s IH]; intros x H.
  - simpl in H. destruct (strip_prefix p "") eqn:E; [|done]. injection H as <- <-.
    destruct p; [|done]. simpl. by destruct t.
  - cbn [split_once] in H. destruct (strip_prefix p (String a s)) eqn:E.
    + injection H as <- <-. simpl. destruct (p +:+ t) eqn:Ep; simpl; rewrite <- Ep, strip_prefix_app; done.
    + destruct (split_once p s) as [[x' y']|] eqn:Es; [|done]. simpl in H. injection H as <- <-.
      pose proof (split_once_Some _ _ _ _ Es) as ->.
      change (String a x' +:+ p +:+ t) with (String a (x' +:+ p +:+ t)). cbn [split_once].
      assert (strip_prefix p (String a (x' +:+ p +:+ t)) = None) as ->.
      { change (String a (x' +:+ p +:+ t)) with (String a x' +:+ p +:+ t). rewrite <- append_assoc.
        apply (strip_prefix_None_app _ _ y'); [simpl; rewrite length_append; lia|].
        by rewrite append_assoc. }
      by rewrite (IH x' eq_refl).
Qed.

(** ** Frames *)

Definition frames_of (s : string) : list string * string := take_frames (String.length s) s.

Lemma split_frame_shorter s x y :
  split_once (nl +:+ nl) s = Some (x, y) -> String.length y < String.length s.
Proof. intros ->%split_once_Some. rewrite !length_append. simpl. lia. Qed.

Lemma take_frames_fuel n m s :
  String.length s <= n -> String.length s <= m -> take_frames n s = take_frames m s.
Proof.
  revert m s. induction n as [|n IH]; intros [|m] s Hn Hm; cbn [take_frames].
  - done.
  - destruct s; [done|simpl in Hn; lia].
  - destruct s; [done|simpl in Hm; lia].
  - destruct (split_once _ s) as [[x y]|] eqn:E; [|done]. apply split_frame_shorter in E.
    by rewrite (IH m y) by lia.
Qed.

Lemma frames_of_eq s :
  frames_of s = match split_once (nl +:+ nl) s with
                | None => ([], s)
                | Some (frame, rest) =>
                    let '(frames, buffer) := frames_of rest in (frame :: frames, buffer)
                end.
Proof.
  unfold frames_of. destruct (String.length s) as [|n] eqn:E; cbn [take_frames].
  - by destruct s.
  - destruct (split_once _ s) as [[x y]|] eqn:Es; [|done]. apply split_frame_shorter in Es.
    by rewrite (take_frames_fuel n (String.length y) y) by lia.
Qed.

(** What is left holds no empty line: the loop ends because there is none. *)
Lemma frames_of_rest s : split_once (nl +:+ nl) (frames_of s).2 = None.
Proof.
  remember (String.length s) as n eqn:Hn. assert (String.length s <= n) as Hl by lia. clear Hn.
  revert s Hl. induction n as [|n IH]; intros s Hl; rewrite frames_of_eq;
    destruct (split_once _ s) as [[x y]|] eqn:E; try done; apply split_frame_shorter in E; [lia|].
  specialize (IH y ltac:(lia)). by destruct (frames_of y).
Qed.

(** ** Line ends *)

Definition CRLF : string := String carriage_return nl.

(** The text nowhere has the given bytes. *)
Definition free_of (p s : string) : Prop := forall u v, s <> u +:+ p +:+ v.

Lemma contains_free p s : contains p s = false -> free_of p s.
Proof.
  intros Hc u v ->. revert Hc. induction u as [|a u IH]; intros Hc.
  - assert (starts_with p (p +:+ v) = true) as H by (apply starts_with_prefix; eauto).
    change ("" +:+ p +:+ v) with (p +:+ v) in Hc. destruct (p +:+ v); cbn [contains] in Hc; by rewrite H in Hc.
  - apply IH. cbn in Hc. by apply orb_false_iff in Hc as [_ Hc].
Qed.

Lemma free_of_l p s t : free_of p (s +:+ t) -> free_of p s.
Proof. intros H u v ->. apply (H u (v +:+ t)). by rewrite !append_assoc. Qed.

Lemma free_of_r p s t : free_of p (s +:+ t) -> free_of p t.
Proof. intros H u v ->. apply (H (s +:+ u) v). by rewrite !append_assoc. Qed.

Lemma free_of_cons p a s : free_of p (String a s) -> free_of p s.
Proof. apply (free_of_r p (String a "")). Qed.

(** The text starts with a line feed. *)
Definition starts_lf (s : string) : bool :=
  match s with String a _ => Ascii.eqb a newline | "" => false end.

Definition rest_of (s : string) : string := match s with String _ s => s | "" => "" end.

Lemma crlf_to_lf_cons a s :
  crlf_to_lf (String a s)
  = if Ascii.eqb a carriage_return && starts_lf s then String newline (crlf_to_lf (rest_of s))
    else String a (crlf_to_lf s).
Proof. destruct s as [|b s]; simpl; [by rewrite andb_false_r|done]. Qed.

Lemma crlf_to_lf_other a s :
  Ascii.eqb a carriage_return && starts_lf s = false ->
  crlf_to_lf (String a s) = String a (crlf_to_lf s).
Proof. intros H. by rewrite crlf_to_lf_cons, H. Qed.

Lemma crlf_to_lf_pair s : crlf_to_lf (CRLF +:+ s) = String newline (crlf_to_lf s).
Proof. done. Qed.

(** Induction over the pairs and the other bytes. *)
Lemma crlf_ind (P : string -> Prop) :
  P "" -> (forall s, P s -> P (CRLF +:+ s)) ->
  (forall a s, Ascii.eqb a carriage_return && starts_lf s = false -> P s -> P (String a s)) ->
  forall s, P s.
Proof.
  intros H0 H2 H1 s. remember (String.length s) as n eqn:Hn.
  assert (String.length s <= n) as Hl by lia. clear Hn.
  revert s Hl. induction n as [|n IH]; intros [|a s] Hl; simpl in Hl; try done; try lia.
  destruct (Ascii.eqb a carriage_return && starts_lf s) eqn:E.
  - destruct s as [|b s]; [by rewrite andb_false_r in E|].
    apply andb_true_iff in E as [->%Ascii.eqb_eq ->%Ascii.eqb_eq]. apply H2, IH. simpl in Hl. lia.
  - apply H1, IH; [done|lia].
Qed.

Lemma starts_lf_crlf_to_lf s : starts_lf (crlf_to_lf s) = starts_lf s || starts_with CRLF s.
Proof.
  destruct s as [|a s]; [done|]. rewrite crlf_to_lf_cons. unfold starts_with, CRLF.
  cbn [strip_prefix]. destruct (Ascii.eqb_spec a carriage_return) as [->|Hne]; simpl starts_lf.
  - destruct s as [|b s]; [done|]. cbn [starts_lf andb strip_prefix nl].
    destruct (Ascii.eqb_spec b newline) as [->|Hb]; [done|].
    destruct (Ascii.eqb_spec newline b); [congruence|done].
  - destruct (Ascii.eqb_spec carriage_return a); [congruence|]. by rewrite orb_false_r.
Qed.

Lemma starts_crlf s : starts_with CRLF s = true -> exists t, s = CRLF +:+ t.
Proof. by intros [t ->]%starts_with_prefix; eauto. Qed.

Definition CRCRLF : string := String carriage_return CRLF.

(** No carriage return gets next to a line feed by the replacement. *)
Lemma kept_apart a s :
  free_of CRCRLF (String a s) -> Ascii.eqb a carriage_return && starts_lf s = false ->
  Ascii.eqb a carriage_return && starts_lf (crlf_to_lf s) = false.
Proof.
  intros Hf H. rewrite starts_lf_crlf_to_lf.
  destruct (Ascii.eqb_spec a carriage_return) as [->|]; [|done]. simpl in *. rewrite H. simpl.
  destruct (starts_with CRLF s) eqn:E; [|done]. apply starts_crlf in E as [t ->].
  by destruct (Hf "" t).
Qed.

Lemma crlf_to_lf_free s : free_of CRLF s -> crlf_to_lf s = s.
Proof.
  induction s as [|s _|a s H IH] using crlf_ind; intros Hf; [done|by destruct (Hf "" s)|].
  rewrite crlf_to_lf_other by done. f_equal. apply IH. by eapply free_of_cons.
Qed.

Lemma free_crlf_cons a s :
  Ascii.eqb a carriage_return && starts_lf s = false -> free_of CRLF s -> free_of CRLF (String a s).
Proof.
  intros H Hs [|b u] v E; simpl in E.
  - injection E as -> ->. done.
  - injection E as _ ->. by apply (Hs u v).
Qed.

Lemma crlf_to_lf_clean s : free_of CRCRLF s -> free_of CRLF (crlf_to_lf s).
Proof.
  induction s as [|s IH|a s H IH] using crlf_ind; intros Hf.
  - intros [|b u] v; done.
  - rewrite crlf_to_lf_pair. apply free_crlf_cons; [done|]. apply IH. by eapply free_of_r.
  - rewrite crlf_to_lf_other by done. apply free_crlf_cons; [by apply kept_apart|].
    apply IH. by eapply free_of_cons.
Qed.

Lemma starts_lf_app s t : s <> "" -> starts_lf (s +:+ t) = starts_lf s.
Proof. by destruct s. Qed.

(** Replacing twice is replacing once: a pair may be cut in two. *)
Lemma crlf_to_lf_twice s t :
  free_of CRCRLF (s +:+ t) -> crlf_to_lf (crlf_to_lf s +:+ t) = crlf_to_lf (s +:+ t).
Proof.
  induction s as [|s IH|a s H IH] using crlf_ind; intros Hf; [done| |].
  - rewrite crlf_to_lf_pair, append_assoc, crlf_to_lf_pair.
    change (String newline (crlf_to_lf s) +:+ t) with (String newline (crlf_to_lf s +:+ t)).
    rewrite crlf_to_lf_other by done. f_equal. apply IH. rewrite append_assoc in Hf. by eapply free_of_r.
  - rewrite crlf_to_lf_other by done.
    change (String a (crlf_to_lf s) +:+ t) with (String a (crlf_to_lf s +:+ t)).
    change (String a s +:+ t) with (String a (s +:+ t)) in *.
    specialize (IH (free_of_cons _ _ _ Hf)).
    destruct s as [|b s]; [done|].
    rewrite (crlf_to_lf_other a (String b s +:+ t)) by done.
    rewrite crlf_to_lf_other; [by rewrite IH|].
    assert (crlf_to_lf (String b s) <> "") as Hn by (rewrite crlf_to_lf_cons; by case_match).
    rewrite starts_lf_app by done. apply kept_apart; [|done].
    by eapply (free_of_l _ (String a (String b s)) t).
Qed.

Lemma crlf_to_lf_app x y : free_of CRLF (x +:+ nl) -> crlf_to_lf (x +:+ nl +:+ y) = x +:+ nl +:+ crlf_to_lf y.
Proof.
  induction x as [|a x IH]; intros Hf; [by apply crlf_to_lf_other|].
  change (String a x +:+ nl +:+ y) with (String a (x +:+ nl +:+ y)).
  rewrite crlf_to_lf_other.
  - rewrite IH by (by eapply free_of_cons). done.
  - destruct (Ascii.eqb_spec a carriage_return) as [->|]; [|done]. simpl.
    destruct x as [|b x]; simpl; [by destruct (Hf "" "")|].
    destruct (Ascii.eqb_spec b newline) as [->|]; [|done]. by destruct (Hf "" (x +:+ nl)).
Qed.

(** ** Any cut into chunks *)

Lemma frames_of_extend z y :
  free_of CRLF z ->
  frames_of (crlf_to_lf (z +:+ y))
  = let '(frames, buffer) := frames_of z in
    let '(more, buffer) := frames_of (crlf_to_lf (buffer +:+ y)) in (frames ++ more, buffer).
Proof.
  remember (String.length z) as n eqn:Hn. assert (String.length z <= n) as Hl by lia. clear Hn.
  revert z Hl. induction n as [|n IH]; intros z Hl Hf; rewrite (frames_of_eq z);
    destruct (split_once _ z) as [[f r]|] eqn:E; try (by destruct (frames_of _));
    pose proof (split_frame_shorter _ _ _ E); [lia|].
  pose proof (split_once_Some _ _ _ _ E) as ->.
  assert (crlf_to_lf ((f +:+ (nl +:+ nl) +:+ r) +:+ y) = f +:+ (nl +:+ nl) +:+ crlf_to_lf (r +:+ y)) as ->.
  { replace ((f +:+ (nl +:+ nl) +:+ r) +:+ y) with ((f +:+ nl) +:+ nl +:+ r +:+ y) by (by rewrite !append_assoc).
    rewrite crlf_to_lf_app by (apply (free_of_l _ _ r); by rewrite !append_assoc in *).
    by rewrite !append_assoc. }
  rewrite frames_of_eq, (split_once_rest _ _ _ _ _ E). rewrite (IH r) by
    (try lia; apply (free_of_r _ (f +:+ nl +:+ nl)); by rewrite !append_assoc in * ).
  destruct (frames_of r) as [fs b]. by destruct (frames_of (crlf_to_lf (b +:+ y))).
Qed.

Definition read_all (text : string) : list SseEvent * string :=
  let '(frames, buffer) := frames_of (crlf_to_lf text) in (List.concat (List.map parse_frame frames), buffer).

Lemma push_eq buffer chunk : push buffer chunk = read_all (buffer +:+ from_utf8_lossy chunk).
Proof. done. Qed.

Lemma push_valid buffer chunk : valid_utf8 chunk = true -> push buffer chunk = read_all (buffer +:+ chunk).
Proof. intros H. by rewrite push_eq, (lossy_valid _ H). Qed.

Lemma read_more x y :
  free_of CRCRLF (x +:+ y) ->
  read_all (x +:+ y)
  = let '(events, buffer) := read_all x in
    let '(more, buffer) := read_all (buffer +:+ y) in (events ++ more, buffer).
Proof.
  intros Hf. unfold read_all. rewrite <- (crlf_to_lf_twice x y Hf).
  rewrite frames_of_extend by (apply crlf_to_lf_clean; by eapply free_of_l).
  destruct (frames_of (crlf_to_lf x)) as [fs b].
  destruct (frames_of (crlf_to_lf (b +:+ y))) as [gs c]. by rewrite map_app, concat_app.
Qed.

(** Reading on from what a first part left. *)
Lemma push_all_from x chunks :
  Forall (fun chunk => valid_utf8 chunk = true) chunks -> free_of CRCRLF (x +:+ concat_str chunks) ->
  (let '(events, buffer) := read_all x in
   let '(more, buffer) := push_all buffer chunks in (events ++ more, buffer))
  = read_all (x +:+ concat_str chunks).
Proof.
  intros Hv. revert x. induction Hv as [|chunk chunks Hc _ IH]; intros x Hf; simpl.
  - rewrite append_nil_r. destruct (read_all x) as [e b]. by rewrite app_nil_r.
  - change (foldr String.append "" chunks) with (concat_str chunks).
    specialize (IH (x +:+ chunk)). rewrite append_assoc in IH. rewrite <- (IH Hf).
    rewrite read_more by (simpl in Hf; rewrite <- append_assoc in Hf; by eapply free_of_l).
    destruct (read_all x) as [e b]. rewrite (push_valid _ _ Hc).
    destruct (read_all (b +:+ chunk)) as [e' b']. destruct (push_all b' chunks). by rewrite app_assoc.
Qed.

(** The events of a response do not depend on how the network cut it.
    When every chunk ends where a character ends, the events, and what is
    left in the buffer, are those of the whole text in one piece: a pair of
    CR and LF or an empty line may be cut in two.  The text is not to have two
    carriage returns before a line feed. *)
Theorem events_ignore_cuts chunks :
  Forall (fun chunk => valid_utf8 chunk = true) chunks -> free_of CRCRLF (concat_str chunks) ->
  push_all "" chunks = push "" (concat_str chunks).
Proof.
  intros Hv Hf. rewrite push_valid.
  - rewrite <- (push_all_from "" chunks Hv Hf). simpl. by destruct (push_all "" chunks).
  - clear Hf. induction Hv as [|c cs Hc _ IH]; [done|]. by apply valid_utf8_app.
Qed.

(** ** A character cut in two *)

(** Text within one line. *)
Definition within_line (s : string) : Prop :=
  Forall (fun a => a <> newline /\ a <> carriage_return) (String.list_ascii_of_string s).

Lemma within_line_app s t : within_line (s +:+ t) <-> within_line s /\ within_line t.
Proof.
  unfold within_line. rewrite <- Forall_app.
  enough (String.list_ascii_of_string (s +:+ t)
          = String.list_ascii_of_string s ++ String.list_ascii_of_string t) as -> by done.
  induction s as [|a s IH]; simpl; [done|]. by rewrite <- IH.
Qed.

Lemma within_line_crlf s t : within_line s -> crlf_to_lf (s +:+ t) = s +:+ crlf_to_lf t.
Proof.
  induction s as [|a s IH]; [done|]. intros [[_ Ha] Hs]%Forall_cons.
  change (String a s +:+ t) with (String a (s +:+ t)). rewrite crlf_to_lf_other, IH; [done..|].
  by destruct (Ascii.eqb_spec a carriage_return).
Qed.

Lemma within_line_split s t :
  within_line s -> split_once (nl +:+ nl) (s +:+ t)
                   = '(frame, rest) ← split_once (nl +:+ nl) t; Some (s +:+ frame, rest).
Proof.
  induction s as [|a s IH]; intros Hs.
  - change ("" +:+ t) with t. by destruct (split_once _ t) as [[]|].
  - apply Forall_cons in Hs as [[Ha _] Hs]. change (String a s +:+ t) with (String a (s +:+ t)).
    cbn [split_once]. assert (strip_prefix (nl +:+ nl) (String a (s +:+ t)) = None) as ->.
    { change (nl +:+ nl) with (String newline nl). cbn [strip_prefix]. destruct (Ascii.eqb_spec newline a); [congruence|done]. }
    rewrite (IH Hs). by destruct (split_once _ t) as [[]|].
Qed.

Lemma within_line_lines s : within_line s -> s <> "" -> lines s = [s].
Proof.
  intros Hs Hn. unfold lines. assert (split_newlines s = [s]) as ->.
  { clear Hn. induction s as [|a s IH]; [done|]. apply Forall_cons in Hs as [[Ha _] Hs].
    simpl. destruct (Ascii.eqb_spec a newline); [done|]. by rewrite (IH Hs). }
  by destruct s.
Qed.

(** One frame with one line of data, in two chunks. *)
Lemma push_line first rest data :
  from_utf8_lossy first +:+ from_utf8_lossy rest = "data:" +:+ data +:+ nl +:+ nl ->
  within_line (from_utf8_lossy first) -> within_line data ->
  push_all "" [first; rest] = ([MkSseEvent None (trim data)], "").
Proof.
  intros E Hf Hd. cbn [push_all]. rewrite push_eq. change ("" +:+ from_utf8_lossy first) with (from_utf8_lossy first).
  assert (read_all (from_utf8_lossy first) = ([], from_utf8_lossy first)) as ->.
  { unfold read_all. rewrite <- (append_nil_r (from_utf8_lossy first)) at 1. rewrite within_line_crlf by done.
    rewrite frames_of_eq, within_line_split by done. simpl. by rewrite append_nil_r. }
  rewrite push_eq, E. unfold read_all.
  assert (within_line ("data:" +:+ data)) as Hdata
    by (apply within_line_app; split; [repeat constructor; discriminate|done]).
  rewrite <- append_assoc, within_line_crlf by done. change (crlf_to_lf (nl +:+ nl)) with (nl +:+ nl).
  rewrite frames_of_eq, within_line_split by done. simpl split_once. cbn [mbind option_bind].
  change (frames_of "") with (([] : list string), ""). cbn iota beta.
  rewrite append_nil_r. unfold parse_frame. simpl map. rewrite within_line_lines by done. done.
Qed.

(** ** Frames as a server writes them *)

(** [event: name] when the event has a name, [data: ..] on one line, and an
    empty line. *)
Definition wire (event : SseEvent) : string :=
  match sse_event event with Some name => "event: " +:+ name +:+ nl | None => "" end
  +:+ "data: " +:+ sse_data event +:+ nl +:+ nl.

(** A name or data that fits in a line and has no blanks around it. *)
Definition line_value (s : string) : Prop := within_line s /\ trim (" " +:+ s) = s.
Definition wire_ok (event : SseEvent) : Prop :=
  line_value (sse_data event)
  /\ match sse_event event with Some name => line_value name | None => True end.

Lemma split_newlines_within s t :
  within_line s -> split_newlines (s +:+ nl +:+ t) = s :: split_newlines t.
Proof.
  induction s as [|a s IH]; intros Hs; [done|]. apply Forall_cons in Hs as [[Ha _] Hs].
  change (String a s +:+ nl +:+ t) with (String a (s +:+ nl +:+ t)). cbn [split_newlines].
  destruct (Ascii.eqb_spec a newline); [done|]. by rewrite (IH Hs).
Qed.

Lemma within_line_no_return s : within_line s -> strip_carriage_return s = s.
Proof.
  induction s as [|a s IH]; intros Hs; [done|]. apply Forall_cons in Hs as [[_ Ha] Hs].
  specialize (IH Hs). destruct s as [|b s]; cbn [strip_carriage_return] in *; [|by rewrite IH].
  by destruct (Ascii.eqb_spec a carriage_return).
Qed.

Lemma lines_line s t : within_line s -> lines (s +:+ nl +:+ t) = s :: lines t.
Proof.
  intros Hs. unfold lines. rewrite split_newlines_within by done.
  destruct (split_newlines t) as [|l ls] eqn:E.
  - exfalso. destruct t as [|a t]; [done|]. cbn in E. destruct (Ascii.eqb a newline); [done|]. by case_match.
  - cbn [lines_of]. by rewrite within_line_no_return.
Qed.

Lemma within_line_literal s : forallb (fun a => negb (Ascii.eqb a newline) && negb (Ascii.eqb a carriage_return))
  (String.list_ascii_of_string s) = true -> within_line s.
Proof.
  intros H. apply Forall_forall. intros a Ha. rewrite forallb_forall in H.
  specialize (H a (proj1 (list_elem_of_In _ _) Ha)). apply andb_true_iff in H as [H1 H2].
  by destruct (Ascii.eqb_spec a newline), (Ascii.eqb_spec a carriage_return).
Qed.

Lemma within_data data : within_line data -> within_line ("data: " +:+ data).
Proof. intros H. apply within_line_app. split; [by apply within_line_literal|done]. Qed.
Lemma within_name name : within_line name -> within_line ("event: " +:+ name).
Proof. intros H. apply within_line_app. split; [by apply within_line_literal|done]. Qed.

Lemma parse_frame_wire event :
  wire_ok event ->
  parse_frame (match sse_event event with Some name => "event: " +:+ name +:+ nl | None => "" end
               +:+ "data: " +:+ sse_data event) = [event].
Proof.
  destruct event as [[name|] data]; intros [[Hd Td] Hn]; cbn [sse_event sse_data] in *; unfold parse_frame.
  - destruct Hn as [Hn Tn]. rewrite !append_assoc. change (is_empty ("event: " +:+ _)) with false. cbn match.
    change ("event: " +:+ name +:+ nl +:+ "data: " +:+ data) with ("event: " +:+ (name +:+ nl +:+ "data: " +:+ data)).
    rewrite <- append_assoc, lines_line by (by apply within_name).
    rewrite within_line_lines by (done || apply within_data, Hd).
    cbn [fold_left]. unfold parse_line.
    change (strip_prefix "event:" ("event: " +:+ name)) with (strip_prefix "event:" ("event:" +:+ (" " +:+ name))).
    rewrite strip_prefix_app, Tn. change (strip_prefix "event:" ("data: " +:+ data)) with (None : option string).
    change (strip_prefix "data:" ("data: " +:+ data)) with (strip_prefix "data:" ("data:" +:+ (" " +:+ data))).
    by rewrite strip_prefix_app, Td.
  - change ("" +:+ "data: " +:+ data) with ("data: " +:+ data). change (is_empty ("data: " +:+ _)) with false. cbn match.
    rewrite within_line_lines by (done || apply within_data, Hd).
    cbn [fold_left]. unfold parse_line. change (strip_prefix "event:" ("data: " +:+ data)) with (None : option string).
    change (strip_prefix "data:" ("data: " +:+ data)) with (strip_prefix "data:" ("data:" +:+ (" " +:+ data))).
    by rewrite strip_prefix_app, Td.
Qed.

Lemma crlf_to_lf_newline s : crlf_to_lf (nl +:+ s) = nl +:+ crlf_to_lf s.
Proof. change (nl +:+ s) with (String newline s). by rewrite crlf_to_lf_other. Qed.

(** A line that is not the last of a frame. *)
Lemma split_once_line s t :
  within_line s -> starts_lf t = false ->
  split_once (nl +:+ nl) (s +:+ nl +:+ t)
  = '(frame, rest) ← split_once (nl +:+ nl) t; Some (s +:+ nl +:+ frame, rest).
Proof.
  intros Hs Ht. rewrite within_line_split by done.
  assert (split_once (nl +:+ nl) (nl +:+ t) = '(frame, rest) ← split_once (nl +:+ nl) t; Some (nl +:+ frame, rest)) as ->.
  { change (nl +:+ t) with (String newline t). cbn [split_once].
    assert (strip_prefix (nl +:+ nl) (String newline t) = None) as ->.
    { change (strip_prefix (nl +:+ nl) (String newline t)) with (strip_prefix nl t).
      destruct t as [|b t]; [reflexivity|]. cbn in Ht |- *. destruct (Ascii.eqb_spec newline b) as [<-|]; done. }
    by destruct (split_once _ t) as [[]|]. }
  by destruct (split_once _ t) as [[]|].
Qed.

Lemma read_all_wire event rest :
  wire_ok event -> read_all (wire event +:+ rest) = (event :: (read_all rest).1, (read_all rest).2).
Proof.
  intros H. unfold read_all, wire.
  set (head := match sse_event event with Some name => "event: " +:+ name +:+ nl | None => "" end).
  assert (within_line ("data: " +:+ sse_data event)) as Hd
    by (apply within_line_app; split; [by apply within_line_literal|apply H]).
  assert (crlf_to_lf ((head +:+ "data: " +:+ sse_data event +:+ nl +:+ nl) +:+ rest)
    = (head +:+ "data: " +:+ sse_data event) +:+ nl +:+ nl +:+ crlf_to_lf rest) as ->.
  { rewrite !append_assoc. unfold head. destruct (sse_event event) as [name|] eqn:E.
    - assert (within_line ("event: " +:+ name)) as Hn.
      { destruct H as [_ H]. rewrite E in H. apply within_line_app; split; [by apply within_line_literal|apply H]. }
      rewrite !append_assoc, <- (append_assoc "event: "), within_line_crlf, crlf_to_lf_newline by done.
      rewrite <- (append_assoc "data: "), within_line_crlf, !crlf_to_lf_newline by done. by rewrite !append_assoc.
    - change ("" +:+ ?x) with x. rewrite <- (append_assoc "data: "), within_line_crlf, !crlf_to_lf_newline by done.
      by rewrite !append_assoc. }
  rewrite frames_of_eq.
  assert (split_once (nl +:+ nl) ((head +:+ "data: " +:+ sse_data event) +:+ nl +:+ nl +:+ crlf_to_lf rest)
    = Some (head +:+ "data: " +:+ sse_data event, crlf_to_lf rest)) as ->.
  { assert (split_once (nl +:+ nl) (("data: " +:+ sse_data event) +:+ nl +:+ nl +:+ crlf_to_lf rest)
      = Some ("data: " +:+ sse_data event, crlf_to_lf rest)) as Hs.
    { rewrite within_line_split by done.
      change (split_once (nl +:+ nl) (nl +:+ nl +:+ crlf_to_lf rest)) with (Some ("", crlf_to_lf rest)).
      cbn [mbind option_bind]. by rewrite append_nil_r. }
    unfold head. destruct (sse_event event) as [name|] eqn:E; [|exact Hs].
    assert (within_line ("event: " +:+ name)) as Hn.
    { destruct H as [_ H]. rewrite E in H. apply within_line_app; split; [by apply within_line_literal|apply H]. }
    rewrite <- !(append_assoc "event: " name), !(append_assoc ("event: " +:+ name)), (append_assoc nl).
    rewrite split_once_line, Hs by done. reflexivity. }
  destruct (frames_of (crlf_to_lf rest)) as [frames buffer] eqn:E. cbn [fst snd List.map List.concat].
  unfold head. by rewrite parse_frame_wire.
Qed.

Lemma read_all_wires events :
  Forall wire_ok events -> read_all (concat_str (List.map wire events)) = (events, "").
Proof.
  induction 1 as [|event events He _ IH]; [done|]. cbn [List.map]. 
  change (concat_str (wire event :: List.map wire events)) with (wire event +:+ concat_str (List.map wire events)).
  by rewrite read_all_wire, IH.
Qed.

Lemma no_return_free s :
  Forall (fun a => a <> carriage_return) (String.list_ascii_of_string s) -> free_of CRCRLF s.
Proof.
  intros H u v ->. induction u as [|a u IH]; simpl in H; apply Forall_cons in H as [H1 H2]; auto.
Qed.

Lemma wires_free events : Forall wire_ok events -> free_of CRCRLF (concat_str (List.map wire events)).
Proof.
  intros H. apply no_return_free. induction H as [|event events [[Hd _] Hn] _ IH]; [constructor|].
  assert (forall s t, Forall (fun a => a <> carriage_return) (String.list_ascii_of_string s) ->
    Forall (fun a => a <> carriage_return) (String.list_ascii_of_string t) ->
    Forall (fun a => a <> carriage_return) (String.list_ascii_of_string (s +:+ t))) as Happ.
  { intros s t Hs Ht. induction s as [|a s IHs]; [done|]. apply Forall_cons in Hs as [? ?].
    apply List.Forall_cons; [done|by apply IHs]. }
  assert (forall s, within_line s -> Forall (fun a => a <> carriage_return) (String.list_ascii_of_string s)) as Hl.
  { intros s Hs. eapply Forall_impl; [exact Hs|]. by intros a []. }
  change (concat_str (List.map wire (event :: events))) with (wire event +:+ concat_str (List.map wire events)).
  apply Happ; [|done]. unfold wire. destruct (sse_event event); repeat apply Happ; 
    try (by apply Hl); try (by apply Hl, Hn); repeat (constructor; [discriminate|]); constructor.
Qed.

(** However the network cuts a response of frames, between characters, the
    parser reads its events. *)
Lemma push_all_wires events chunks :
  Forall wire_ok events -> concat_str chunks = concat_str (List.map wire events) ->
  Forall (fun chunk => valid_utf8 chunk = true) chunks ->
  push_all "" chunks = (events, "").
Proof.
  intros He Hc Hv. assert (free_of CRCRLF ("" +:+ concat_str chunks)) as Hf
    by (change (free_of CRCRLF (concat_str chunks)); rewrite Hc; by apply wires_free).
  pose proof (push_all_from "" chunks Hv Hf) as H. change ("" +:+ concat_str chunks) with (concat_str chunks) in H.
  rewrite Hc, read_all_wires in H by done. rewrite <- H. change (read_all "") with (([] : list SseEvent), "").
  cbn beta iota. by destruct (push_all "" chunks).
Qed.

(** A character that the network cuts in two is lost.  When the bytes of
    one character of an event arrive in two chunks, the event has replacement
    characters in its place, one for the start and one for every byte of the
    end; in one chunk, the event has the character. *)
Theorem cut_character_lost before c1 c2 after :
  valid_utf8 before = true -> valid_utf8 after = true -> within_line before -> within_line after ->
  is_scalar (c1 +:+ c2) -> c1 <> "" -> c2 <> "" ->
  push_all "" ["data:" +:+ before +:+ c1; c2 +:+ after +:+ nl +:+ nl]
  = ([MkSseEvent None (trim (before +:+ replacements (S (String.length c2)) +:+ after))], "").
Proof.
  intros Hb Ha Hlb Hla Hc H1 H2. destruct (lossy_character_cut c1 c2 (after +:+ nl +:+ nl) Hc H1 H2) as [E1 E2].
  assert (valid_utf8 ("data:" +:+ before) = true) as Hd by (by apply valid_utf8_app).
  assert (forall n, within_line (replacements n)) as Hr.
  { induction n as [|n IH]; [constructor|]. apply within_line_app. split; [|done].
    repeat (constructor; [split; discriminate|]). constructor. }
  assert (from_utf8_lossy ("data:" +:+ before +:+ c1) = "data:" +:+ before +:+ REPLACEMENT_CHARACTER) as E3
    by (rewrite <- append_assoc, lossy_app, E1 by done; by rewrite append_assoc).
  apply push_line.
  - rewrite E3, E2, (lossy_app after) by done. change (from_utf8_lossy (nl +:+ nl)) with (nl +:+ nl).
    cbn [replacements]. by rewrite !append_assoc.
  - rewrite E3. rewrite !within_line_app. split_and!; [repeat constructor; discriminate|done|exact (Hr 1)].
  - by rewrite !within_line_app.
Qed.

Lemma events_ignore_cuts_witness :
  push_all "" ["event: m" +:+ String carriage_return ""; nl +:+ "data: 1" +:+ nl; nl +:+ "data"]
  = ([MkSseEvent (Some "m") "1"], "data").
Proof.
  assert (free_of CRCRLF (concat_str ["event: m" +:+ String carriage_return ""; nl +:+ "data: 1" +:+ nl;
    nl +:+ "data"])) as Hf by (apply contains_free; reflexivity).
  refine (eq_trans (events_ignore_cuts _ _ Hf) _); [repeat constructor|reflexivity].
Defined.

(** The euro sign, cut after its second byte. *)
Lemma cut_character_lost_witness :
  let c1 := String (ascii_of_nat 226) (String (ascii_of_nat 130) "") in
  let c2 := String (ascii_of_nat 172) "" in
  push_all "" ["data:" +:+ "1" +:+ c1; c2 +:+ "." +:+ nl +:+ nl]
  = ([MkSseEvent None ("1" +:+ REPLACEMENT_CHARACTER +:+ REPLACEMENT_CHARACTER +:+ ".")], "")
  /\ push_all "" ["data:" +:+ "1" +:+ c1 +:+ c2 +:+ "." +:+ nl +:+ nl]
     = ([MkSseEvent None ("1" +:+ c1 +:+ c2 +:+ ".")], "").
Proof.
  intros c1 c2. split; [|reflexivity].
  refine (cut_character_lost "1" c1 c2 "." _ _ _ _ _ _ _);
    try reflexivity; try discriminate; repeat constructor; discriminate.
Defined.
