(* ===== verification/ProviderStream.v ===== *)
(** * Streams of completions ([bt-providers])

    What the streaming providers share: accessors of JSON values, and the
    loop that feeds the bytes of a response to the parser of events and the
    events to the provider's state, and flushes the state at the end. *)

From stdpp Require Import base list strings gmap sorting.
From Stdlib Require Import ZArith Lia.
From S2P Require Import Prelude Text Utf8 Json Types Messages AgentStream Sse.

#[local] Open Scope Z_scope.

(** ** JSON *)

(** [Value::as_u64], [Value::as_bool] *)
Definition as_u64 (v : Value) : option Z :=
  match v with VNumber (PosInt n) => Some n | _ => None end.
Definition as_bool (v : Value) : option bool :=
  match v with VBool b => Some b | _ => None end.

(** [value.get(key).and_then(Value::as_str)] and [as_u64] *)
Definition get_str (key : string) (v : Value) : option string := v ← value_get key v; as_str v.
Definition get_u64 (key : string) (v : Value) : option Z := v ← value_get key v; as_u64 v.

(** [json!({..})]: a map keeps its members ordered by key. *)
Definition json_object (members : list (string * Value)) : Value :=
  VObject (fold_right (fun kv m => map_insert kv.1 kv.2 m) [] members).

Definition is_some {A} (o : option A) : bool := match o with Some _ => true | None => false end.

(** A [BTreeMap]'s keys, in order. *)
Definition sorted_keys {A} (m : gmap Z A) : list Z := merge_sort Z.le (List.map fst (map_to_list m)).

(** ** Chunks *)

Definition chunk_of (deltas : list CompletionDelta) : CompletionChunk := MkCompletionChunk None deltas None None.
Definition usage_chunk (usage : TokenUsage) : CompletionChunk := MkCompletionChunk None [] (Some usage) None.

(** [attach_raw_to_all] *)
Definition attach_raw_to_all (chunks : list CompletionChunk) (raw : Value) : list CompletionChunk :=
  List.map (fun chunk => match ck_raw chunk with
    | None => MkCompletionChunk (ck_llm_call_ordinal chunk) (ck_deltas chunk) (ck_usage chunk) (Some raw)
    | Some _ => chunk
    end) chunks.

(** ** The loop *)

Section stream.
Context {S : Type}.
(** The chunks an event yields and the provider's next state, and the chunks
    the end of the response yields; an error ends the stream after the chunks
    yielded before it. *)
Context (handle : SseEvent -> S -> list CompletionChunk * Result S).
Context (finish : S -> list CompletionChunk * Result unit).

Fixpoint run_events (events : list SseEvent) (state : S) : list CompletionChunk * Result S :=
  match events with
  | [] => ([], Ok state)
  | event :: events =>
      match handle event state with
      | (chunks, Err e) => (chunks, Err e)
      | (chunks, Ok state) => let '(more, result) := run_events events state in (chunks ++ more, result)
      end
  end.

(** The [try_stream!] of [stream_completion], over what arrives from the
    network. *)
Fixpoint run_stream (buffer : string) (state : S) (arrivals : list (Result string))
    : list CompletionChunk * Result unit :=
  match arrivals with
  | [] => finish state
  | Err e :: _ => ([], Err e)
  | Ok chunk :: arrivals =>
      let '(events, buffer) := push buffer chunk in
      match run_events events state with
      | (chunks, Err e) => (chunks, Err e)
      | (chunks, Ok state) =>
          let '(more, result) := run_stream buffer state arrivals in (chunks ++ more, result)
      end
  end.

(** ** Laws of the loop *)

Lemma run_events_app e1 e2 state :
  run_events (e1 ++ e2) state
  = match run_events e1 state with
    | (chunks, Err e) => (chunks, Err e)
    | (chunks, Ok state) => let '(more, result) := run_events e2 state in (chunks ++ more, result)
    end.
Proof.
  revert state. induction e1 as [|e e1 IH]; intros state; simpl; [by destruct (run_events e2 state)|].
  destruct (handle e state) as [c [s|err]]; [|done]. rewrite IH.
  destruct (run_events e1 s) as [c1 [s1|err1]]; [|done].
  destruct (run_events e2 s1). by rewrite app_assoc.
Qed.

(** A stream that arrives without an error is its events, then the end. *)
Lemma run_stream_events buffer state chunks :
  run_stream buffer state (List.map Ok chunks)
  = match run_events (push_all buffer chunks).1 state with
    | (chunks, Err e) => (chunks, Err e)
    | (chunks, Ok state) => let '(more, result) := finish state in (chunks ++ more, result)
    end.
Proof.
  revert buffer state. induction chunks as [|chunk chunks IH]; intros buffer state; simpl;
    [by destruct (finish state)|].
  destruct (push buffer chunk) as [events b]. destruct (push_all b chunks) as [more b'] eqn:E. simpl.
  rewrite run_events_app. destruct (run_events events state) as [c [s|e]]; [|done].
  rewrite IH, E. simpl. destruct (run_events more s) as [c' [s'|e']]; [|done].
  destruct (finish s'). by rewrite app_assoc.
Qed.
End stream.

(** ** What the agent collects of a stream *)

Definition deltas_of (chunks : list CompletionChunk) : list CompletionDelta :=
  List.concat (List.map ck_deltas chunks).

(** The last usage reported. *)
Definition usage_of (chunks : list CompletionChunk) (before : option TokenUsage) : option TokenUsage :=
  fold_left (fun u chunk => match ck_usage chunk with Some u' => Some u' | None => u end) chunks before.

Lemma deltas_of_app a b : deltas_of (a ++ b) = deltas_of a ++ deltas_of b.
Proof. unfold deltas_of. by rewrite map_app, concat_app. Qed.

Lemma deltas_of_attach chunks raw : deltas_of (attach_raw_to_all chunks raw) = deltas_of chunks.
Proof.
  unfold deltas_of, attach_raw_to_all. rewrite map_map. f_equal. apply map_ext. intros chunk. by case_match.
Qed.

Lemma usage_of_attach chunks raw u : usage_of (attach_raw_to_all chunks raw) u = usage_of chunks u.
Proof.
  unfold usage_of, attach_raw_to_all. revert u.
  induction chunks as [|chunk chunks IH]; intros u; simpl; [done|]. rewrite IH. by destruct (ck_raw chunk).
Qed.

Lemma usage_of_app a b u : usage_of (a ++ b) u = usage_of b (usage_of a u).
Proof. unfold usage_of. by rewrite fold_left_app. Qed.

(** Chunks that report none. *)
Lemma usage_of_none chunks u : Forall (fun chunk => ck_usage chunk = None) chunks -> usage_of chunks u = u.
Proof. unfold usage_of. intros H. revert u. induction H as [|c cs Hc _ IH]; intros u; simpl; [done|]. by rewrite Hc. Qed.

(** The collector's state, but for the record of the chunks. *)
Definition same_but_chunks (st st' : CollectState) : Prop :=
  co_assistant_parts st = co_assistant_parts st' /\ co_tool_calls st = co_tool_calls st'
  /\ co_open_tool_calls st = co_open_tool_calls st'.

Section collect.
Context (from_str : string -> option Value).

Lemma apply_delta_same st st' d r :
  same_but_chunks st st' -> apply_delta from_str st d = Ok r ->
  exists r', apply_delta from_str st' d = Ok r' /\ same_but_chunks r r'.
Proof.
  intros (H1 & H2 & H3) H. unfold same_but_chunks.
  destruct d; simpl in *; rewrite <- ?H1, <- ?H2, <- ?H3; try (injection H as <-; by eexists).
  - destruct (append_tool_call_arguments _ _ _); [|done]. injection H as <-. by eexists.
  - destruct (close_tool_call _ _ _); [|done]. injection H as <-. by eexists.
Qed.

Lemma apply_deltas_same st st' ds r :
  same_but_chunks st st' -> apply_deltas from_str st ds = Ok r ->
  exists r', apply_deltas from_str st' ds = Ok r' /\ same_but_chunks r r'.
Proof.
  revert st st'. induction ds as [|d ds IH]; intros st st' Hs H; simpl in *; [injection H as <-; by exists st'|].
  destruct (apply_delta from_str st d) as [s|] eqn:E; [|done].
  destruct (apply_delta_same _ _ _ _ Hs E) as (s' & -> & Hs'). simpl. by eapply IH.
Qed.

(** Collecting a stream is folding its deltas. *)
Lemma collect_chunks_deltas ordinal chunks st r :
  apply_deltas from_str st (deltas_of chunks) = Ok r ->
  exists r', collect_chunks from_str st (List.map (stamp_chunk ordinal) chunks) = Ok r'
    /\ same_but_chunks r r' /\ co_usage r' = usage_of chunks (co_usage st).
Proof.
  revert st r. induction chunks as [|chunk chunks IH]; intros st r H; [injection H as <-; by exists st|].
  cbn [deltas_of List.map List.concat] in H. fold (deltas_of chunks) in H. rewrite apply_deltas_app in H.
  destruct (apply_deltas from_str st (ck_deltas chunk)) as [s|] eqn:E; [|done]. cbn [mbind] in H. simpl in H.
  cbn [List.map collect_chunks]. unfold collect_chunk.
  set (st0 := MkCollectState _ _ _ _ _).
  destruct (apply_deltas_same st st0 _ _ ltac:(done) E) as (s0 & E0 & Hs0).
  change (ck_deltas (stamp_chunk ordinal chunk)) with (ck_deltas chunk). rewrite E0. simpl.
  destruct (apply_deltas_same _ _ _ _ Hs0 H) as (r0 & Hr0 & Hrr).
  destruct (IH _ _ Hr0) as (r' & -> & Hrr' & Hu). exists r'. split; [done|].
  destruct Hrr as (A1 & A2 & A3), Hrr' as (B1 & B2 & B3). split.
  - unfold same_but_chunks. by rewrite A1, A2, A3.
  - rewrite Hu. apply apply_deltas_chunks in E0 as [_ ->]. done.
Qed.

(** What the agent makes of a stream. *)
Lemma collect_all_deltas ordinal chunks r remaining :
  apply_deltas from_str collect_start (deltas_of chunks) = Ok r ->
  finish_open_tool_calls from_str (co_open_tool_calls r) = Ok remaining ->
  exists response, collect_all from_str ordinal chunks = Ok response
    /\ rs_assistant_parts response = co_assistant_parts r
    /\ rs_tool_calls response = co_tool_calls r ++ remaining
    /\ rs_usage response = usage_of chunks None.
Proof.
  intros H Hrem. destruct (collect_chunks_deltas ordinal _ _ _ H) as (r' & Hr' & (H1 & H2 & H3) & Hu).
  unfold collect_all. rewrite Hr'. simpl. unfold collect_finish. rewrite <- H3, Hrem. simpl.
  eexists. split; [done|]. simpl. by rewrite H1, H2, Hu.
Qed.
End collect.
