(* ===== verification/StreamedCalls.v ===== *)
(** * Tool calls streamed side by side

    What opening, filling and closing a call does to the collector of
    [AgentStream] while other calls are open, in whatever order they were
    opened.  The providers that stream several calls at once are related to
    the collector by these lemmas. *)

From stdpp Require Import base list strings.
From Stdlib Require Import ZArith Lia.
From S2P Require Import Prelude Text Json Types Messages AgentStream ProviderStream.

(** ** Parts and calls added to what was collected *)

Definition with_calls (st : CollectState) (calls : list CompletedToolCall) (open : list StreamingToolCallAccumulator) :=
  MkCollectState (co_assistant_parts st) (co_tool_calls st ++ calls) open (co_chunks st) (co_usage st).

Definition add_parts (st : CollectState) (parts : list MessagePart) : CollectState :=
  set_parts st (extend_message_parts (co_assistant_parts st) parts).

Lemma with_calls_app st c1 o1 c2 o2 : with_calls (with_calls st c1 o1) c2 o2 = with_calls st (c1 ++ c2) o2.
Proof. unfold with_calls. simpl. by rewrite app_assoc. Qed.

Lemma add_parts_app st a b : add_parts (add_parts st a) b = add_parts st (a ++ b).
Proof. unfold add_parts, extend_message_parts. simpl. by rewrite fold_left_app. Qed.

(** An event without chunks yields an empty one. *)
Lemma deltas_of_default chunks :
  deltas_of match chunks with [] => [chunk_of []] | _ => chunks end = deltas_of chunks.
Proof. by destruct chunks. Qed.
Lemma usage_of_default chunks u :
  usage_of match chunks with [] => [chunk_of []] | _ => chunks end u = usage_of chunks u.
Proof. by destruct chunks. Qed.
Section calls.
Context (from_str : string -> option Value).

Lemma update_first_middle f open1 a open2 :
  ~ acc_call_id a ∈ open_ids open1 ->
  update_first (has_call_id (acc_call_id a)) f (open1 ++ a :: open2) = Some (open1 ++ f a :: open2).
Proof.
  induction open1 as [|b open1 IH]; simpl; intros Hn.
  { unfold has_call_id. by rewrite String.eqb_refl. }
  apply not_elem_of_cons in Hn as [Hne Hn]. rewrite IH by done.
  unfold has_call_id. destruct (String.eqb_spec (acc_call_id b) (acc_call_id a)); [congruence|done].
Qed.

Lemma position_middle open1 a open2 :
  ~ acc_call_id a ∈ open_ids open1 ->
  position (has_call_id (acc_call_id a)) (open1 ++ a :: open2) = Some (length open1).
Proof.
  induction open1 as [|b open1 IH]; simpl; intros Hn.
  { unfold has_call_id. by rewrite String.eqb_refl. }
  apply not_elem_of_cons in Hn as [Hne Hn]. rewrite IH by done.
  unfold has_call_id. destruct (String.eqb_spec (acc_call_id b) (acc_call_id a)); [congruence|done].
Qed.

(** An open call is somewhere in the list, and its id nowhere before it. *)
Lemma open_split open a rest :
  open ≡ₚ a :: rest -> NoDup (open_ids open) ->
  exists open1 open2, open = open1 ++ a :: open2 /\ ~ acc_call_id a ∈ open_ids open1 /\ open1 ++ open2 ≡ₚ rest.
Proof.
  intros Hp Hnd. assert (a ∈ open) as Ha by (rewrite Hp; by apply list_elem_of_here).
  apply list_elem_of_split in Ha as (open1 & open2 & ->). exists open1, open2. split_and!; [done| |].
  - unfold open_ids in Hnd. rewrite map_app in Hnd. apply NoDup_app in Hnd as (_ & H & _).
    intros Hin. apply (H _ Hin). by apply list_elem_of_here.
  - rewrite <- Permutation_middle in Hp. by apply Permutation_cons_inv in Hp.
Qed.

Lemma open_fresh_call st cid name args :
  ~ cid ∈ open_ids (co_open_tool_calls st) ->
  apply_delta from_str st (OpenToolCall cid name args)
  = Ok (set_open st (co_open_tool_calls st ++ [MkAccumulator cid name args ""])).
Proof. intros Hn. simpl. unfold open_tool_call. by rewrite (proj2 (update_first_None from_str _ _ _) Hn). Qed.

(** Text for a call reaches that call. *)
Lemma append_to_call st cid name args partial text rest :
  co_open_tool_calls st ≡ₚ MkAccumulator cid name args partial :: rest ->
  NoDup (open_ids (co_open_tool_calls st)) ->
  exists open, apply_delta from_str st (AppendToolCallArguments cid text) = Ok (set_open st open)
    /\ open ≡ₚ MkAccumulator cid name args (partial +:+ text) :: rest.
Proof.
  intros Hp Hnd. destruct (open_split _ _ _ Hp Hnd) as (open1 & open2 & E & Hn & Hr).
  simpl. unfold append_tool_call_arguments. rewrite E.
  erewrite (update_first_middle _ open1 (MkAccumulator cid name args partial) open2 Hn). simpl.
  eexists. split; [done|]. by rewrite <- Permutation_middle, Hr.
Qed.

Lemma append_all_to_call texts st cid name args partial rest :
  co_open_tool_calls st ≡ₚ MkAccumulator cid name args partial :: rest ->
  NoDup (open_ids (co_open_tool_calls st)) ->
  exists open, apply_deltas from_str st (List.map (AppendToolCallArguments cid) texts) = Ok (set_open st open)
    /\ open ≡ₚ MkAccumulator cid name args (partial +:+ concat_str texts) :: rest.
Proof.
  revert st partial. induction texts as [|text texts IH]; intros st partial Hp Hnd.
  { exists (co_open_tool_calls st). simpl. rewrite append_nil_r. by destruct st. }
  destruct (append_to_call st cid name args partial text rest Hp Hnd) as (open & E & Ho).
  cbn [List.map apply_deltas]. rewrite E. cbn [mbind result_bind].
  destruct (IH (set_open st open) (partial +:+ text)) as (open' & E' & Ho').
  - done.
  - cbn [set_open co_open_tool_calls]. unfold open_ids in *. rewrite Ho. by rewrite Hp in Hnd.
  - exists open'. rewrite E'. split; [done|]. rewrite Ho'. by rewrite append_assoc.
Qed.

(** A call that is closed is finalised, and the others stay open. *)
Lemma close_call st a rest call :
  co_open_tool_calls st ≡ₚ a :: rest -> NoDup (open_ids (co_open_tool_calls st)) ->
  finalize_tool_call from_str a = Ok call ->
  exists open, apply_delta from_str st (CloseToolCall (acc_call_id a))
      = Ok (MkCollectState (co_assistant_parts st) (co_tool_calls st ++ [call]) open (co_chunks st) (co_usage st))
    /\ open ≡ₚ rest.
Proof.
  intros Hp Hnd Hf. destruct (open_split _ _ _ Hp Hnd) as (open1 & open2 & E & Hn & Hr).
  simpl. unfold close_tool_call. rewrite E, position_middle by done.
  rewrite list_lookup_middle by done. simpl. rewrite Hf. simpl.
  eexists. split; [done|]. by rewrite delete_middle.
Qed.

(** What is finalised. *)
Lemma finalize_named a :
  is_blank (acc_call_id a) = false -> is_blank (acc_tool_name a) = false ->
  exists call, finalize_tool_call from_str a = Ok call.
Proof. intros H1 H2. unfold finalize_tool_call. rewrite H1, H2. by eexists. Qed.
End calls.
