(* ===== verification/Anthropic.v ===== *)
(** * The Anthropic provider ([bt-providers/src/anthropic.rs])

    The request built from a conversation, and the chunks read from the
    events of a streamed answer.  The HTTP exchange, the endpoints and the
    headers are left out, and so is the JSON form of the request, which is
    derived from its record. *)

From stdpp Require Import base list strings gmap sorting.
From Stdlib Require Import ZArith Lia.
From S2P Require Import Prelude Text Utf8 Json Types Messages AgentStream Sse ProviderStream.

#[local] Open Scope Z_scope.

Definition DEFAULT_MAX_TOKENS : Z := 4096.

(** ** Data *)

Record AnthropicMessage : Type := MkAnthropicMessage {
  am_role : string;
  am_content : list Value;
}.

Record AnthropicTool : Type := MkAnthropicTool {
  at_name : string;
  at_description : string;
  at_input_schema : Value;
}.

Record AnthropicThinking : Type := MkAnthropicThinking {
  ak_kind : string;
  ak_budget_tokens : Z;
}.

Record AnthropicMessagesRequest : Type := MkAnthropicMessagesRequest {
  aq_model : string;
  aq_system : option string;
  aq_messages : list AnthropicMessage;
  aq_max_tokens : Z;
  aq_stream : bool;
  aq_temperature : option f64;
  aq_tools : option (list AnthropicTool);
  aq_thinking : option AnthropicThinking;
}.

Record AnthropicToolUseAccumulator : Type := MkToolUse {
  tu_id : option string;
  tu_name : option string;
  tu_source_raw : option Value;
}.
Definition tool_use_default : AnthropicToolUseAccumulator := MkToolUse None None None.

Record AnthropicThinkingAccumulator : Type := MkThinking {
  tk_thinking : string;
  tk_signature : string;
}.
Definition thinking_default : AnthropicThinkingAccumulator := MkThinking "" "".

Record AnthropicStreamState : Type := MkAnthropicState {
  as_tool_uses : gmap Z AnthropicToolUseAccumulator;
  as_thinking_blocks : gmap Z AnthropicThinkingAccumulator;
  as_prompt_tokens : Z;
  as_completion_tokens : Z;
  as_cache_read_tokens : option Z;
  as_cache_write_tokens : option Z;
  as_reasoning_tokens : option Z;
}.
Definition anthropic_start : AnthropicStreamState := MkAnthropicState ∅ ∅ 0 0 None None None.

Definition set_tool_uses (state : AnthropicStreamState) (t : gmap Z AnthropicToolUseAccumulator) :=
  MkAnthropicState t (as_thinking_blocks state) (as_prompt_tokens state) (as_completion_tokens state)
    (as_cache_read_tokens state) (as_cache_write_tokens state) (as_reasoning_tokens state).
Definition set_thinking (state : AnthropicStreamState) (t : gmap Z AnthropicThinkingAccumulator) :=
  MkAnthropicState (as_tool_uses state) t (as_prompt_tokens state) (as_completion_tokens state)
    (as_cache_read_tokens state) (as_cache_write_tokens state) (as_reasoning_tokens state).

(** ** The state of a stream *)

(** [start_tool_use] *)
Definition start_tool_use (index : Z) (block raw_json : Value) (state : AnthropicStreamState)
    : option CompletionDelta * AnthropicStreamState :=
  let accumulator := MkToolUse (get_str "id" block) (get_str "name" block) (Some raw_json) in
  (match tu_id accumulator, tu_name accumulator with
   | Some call_id, Some tool_name => Some (OpenToolCall call_id tool_name (value_get "input" block))
   | _, _ => None
   end, set_tool_uses state (<[index := accumulator]> (as_tool_uses state))).

(** [push_tool_input] *)
Definition push_tool_input (index : Z) (partial_json : string) (raw_json : Value)
    (state : AnthropicStreamState) : option CompletionDelta * AnthropicStreamState :=
  let accumulator := default tool_use_default (as_tool_uses state !! index) in
  (call_id ← tu_id accumulator; Some (AppendToolCallArguments call_id partial_json),
   set_tool_uses state (<[index := MkToolUse (tu_id accumulator) (tu_name accumulator) (Some raw_json)]>
                          (as_tool_uses state))).

(** [finish_tool_use] *)
Definition finish_tool_use (index : Z) (state : AnthropicStreamState)
    : option (CompletionDelta * option Value) * AnthropicStreamState :=
  (accumulator ← as_tool_uses state !! index;
   id ← tu_id accumulator;
   Some (CloseToolCall id, tu_source_raw accumulator),
   set_tool_uses state (delete index (as_tool_uses state))).

(** [start_thinking] *)
Definition start_thinking (index : Z) (initial_text : string) (state : AnthropicStreamState)
    : AnthropicStreamState :=
  let accumulator := default thinking_default (as_thinking_blocks state !! index) in
  set_thinking state (<[index := MkThinking (tk_thinking accumulator +:+ initial_text)
                                   (tk_signature accumulator)]> (as_thinking_blocks state)).

(** [push_thinking], [push_signature] *)
Definition push_thinking (index : Z) (text : string) (state : AnthropicStreamState) : AnthropicStreamState :=
  set_thinking state (alter (fun a => MkThinking (tk_thinking a +:+ text) (tk_signature a)) index
                        (as_thinking_blocks state)).
Definition push_signature (index : Z) (signature : string) (state : AnthropicStreamState)
    : AnthropicStreamState :=
  set_thinking state (alter (fun a => MkThinking (tk_thinking a) (tk_signature a +:+ signature)) index
                        (as_thinking_blocks state)).

Definition thinking_block (thinking signature : string) : Value :=
  json_object [("type", VString "thinking"); ("thinking", VString thinking);
               ("signature", VString signature)].

(** [finish_thinking] *)
Definition finish_thinking (index : Z) (state : AnthropicStreamState)
    : option Value * AnthropicStreamState :=
  (accumulator ← as_thinking_blocks state !! index;
   if is_empty (tk_signature accumulator) then None
   else Some (thinking_block (tk_thinking accumulator) (tk_signature accumulator)),
   set_thinking state (delete index (as_thinking_blocks state))).

Definition or_keep {A} (new old : option A) : option A := match new with Some _ => new | None => old end.

(** [update_usage] *)
Definition update_usage (usage : Value) (state : AnthropicStreamState) : AnthropicStreamState :=
  MkAnthropicState (as_tool_uses state) (as_thinking_blocks state)
    (default (as_prompt_tokens state) (get_u64 "input_tokens" usage))
    (default (as_completion_tokens state) (get_u64 "output_tokens" usage))
    (or_keep (get_u64 "cache_read_input_tokens" usage) (as_cache_read_tokens state))
    (or_keep (get_u64 "cache_creation_input_tokens" usage) (as_cache_write_tokens state))
    (or_keep (details ← value_get "output_tokens_details" usage; get_u64 "reasoning_tokens" details)
       (as_reasoning_tokens state)).

(** [usage_snapshot]; the sum wraps as in a release build. *)
Definition usage_snapshot (state : AnthropicStreamState) : option TokenUsage :=
  let total_tokens := u64_add (as_prompt_tokens state) (as_completion_tokens state) in
  if (total_tokens =? 0) && negb (is_some (as_cache_read_tokens state))
     && negb (is_some (as_cache_write_tokens state)) && negb (is_some (as_reasoning_tokens state))
  then None
  else Some {| tu_prompt_tokens := as_prompt_tokens state;
               tu_completion_tokens := as_completion_tokens state;
               tu_total_tokens := total_tokens;
               tu_cache_read_tokens := as_cache_read_tokens state;
               tu_cache_write_tokens := as_cache_write_tokens state;
               tu_reasoning_tokens := as_reasoning_tokens state |}.

(** [flush_all]: what is still open is closed, by its index. *)
Fixpoint flush_indices (indices : list Z) (state : AnthropicStreamState) : list CompletionChunk :=
  match indices with
  | [] => []
  | index :: indices =>
      let '(finished, state) := finish_tool_use index state in
      match finished with
      | Some (delta, source_raw) => [MkCompletionChunk None [delta] None source_raw]
      | None => []
      end ++ flush_indices indices state
  end.
Definition flush_all (state : AnthropicStreamState) : list CompletionChunk :=
  flush_indices (sorted_keys (as_tool_uses state)) state.

(** ** Events *)

Definition block_index (raw_json : Value) : Z := default 0 (get_u64 "index" raw_json).

Definition text_chunks (text : option string) : list CompletionChunk :=
  match text with Some text => [chunk_of [AppendText text]] | None => [] end.
Definition non_empty (text : option string) : option string :=
  text ← text; if is_empty text then None else Some text.
Definition opt_chunk (delta : option CompletionDelta) : list CompletionChunk :=
  match delta with Some delta => [chunk_of [delta]] | None => [] end.

Definition anthropic_replay (block : Value) : Value :=
  json_object [("provider", VString "anthropic"); ("block", block)].
Definition redacted_block (data : string) : Value :=
  json_object [("type", VString "redacted_thinking"); ("data", VString data)].

(** ["content_block_start"] *)
Definition content_block_start (raw_json : Value) (state : AnthropicStreamState)
    : list CompletionChunk * AnthropicStreamState :=
  let index := block_index raw_json in
  match value_get "content_block" raw_json with
  | None => ([], state)
  | Some block =>
      match get_str "type" block with
      | Some "text" => (text_chunks (non_empty (get_str "text" block)), state)
      | Some "thinking" =>
          let text := default "" (get_str "thinking" block) in
          (if is_empty text then [] else [chunk_of [AppendReasoning (Some text) false None]],
           start_thinking index text state)
      | Some "redacted_thinking" =>
          let opaque_replay := (fun data => anthropic_replay (redacted_block data)) <$> get_str "data" block in
          ([chunk_of [AppendReasoning None true opaque_replay]], state)
      | Some "tool_use" =>
          let '(delta, state) := start_tool_use index block raw_json state in (opt_chunk delta, state)
      | _ => ([], state)
      end
  end.

(** ["content_block_delta"] *)
Definition content_block_delta (raw_json : Value) (state : AnthropicStreamState)
    : list CompletionChunk * AnthropicStreamState :=
  let index := block_index raw_json in
  match value_get "delta" raw_json with
  | None => ([], state)
  | Some delta =>
      match get_str "type" delta with
      | Some "text_delta" => (text_chunks (get_str "text" delta), state)
      | Some "thinking_delta" =>
          match get_str "thinking" delta with
          | Some text => ([chunk_of [AppendReasoning (Some text) false None]], push_thinking index text state)
          | None => ([], state)
          end
      | Some "signature_delta" =>
          ([], match get_str "signature" delta with
               | Some signature => push_signature index signature state
               | None => state
               end)
      | Some "input_json_delta" =>
          match get_str "partial_json" delta with
          | Some partial_json =>
              let '(delta, state) := push_tool_input index partial_json raw_json state in
              (opt_chunk delta, state)
          | None => ([], state)
          end
      | _ => ([], state)
      end
  end.

(** ["content_block_stop"] *)
Definition content_block_stop (raw_json : Value) (state : AnthropicStreamState)
    : list CompletionChunk * AnthropicStreamState :=
  let index := block_index raw_json in
  let '(finished, state) := finish_tool_use index state in
  let '(block, state) := finish_thinking index state in
  (opt_chunk (fst <$> finished)
   ++ opt_chunk ((fun block => AppendReasoning None false (Some (anthropic_replay block))) <$> block), state).

(** ["message_start"], ["message_delta"] *)
Definition message_start (raw_json : Value) (state : AnthropicStreamState) : AnthropicStreamState :=
  match (message ← value_get "message" raw_json; value_get "usage" message) with
  | Some usage => update_usage usage state
  | None => state
  end.
Definition message_delta (raw_json : Value) (state : AnthropicStreamState)
    : list CompletionChunk * AnthropicStreamState :=
  let state := match value_get "usage" raw_json with Some usage => update_usage usage state | None => state end in
  (match (delta ← value_get "delta" raw_json; get_str "stop_reason" delta) with
   | Some "refusal" => [chunk_of [AppendRefusal None (Some "refusal") (value_get "delta" raw_json)]]
   | _ => []
   end, state).

Definition event_name (raw_json : Value) (event : SseEvent) : string :=
  match get_str "type" raw_json with Some t => t | None => default "" (sse_event event) end.

Definition reports_usage (event_type : string) : bool :=
  existsb (String.eqb event_type) ["message_start"; "message_delta"; "message_stop"].

(** The [match] on the type of the event. *)
Definition dispatch_event (event_type : string) (raw_json : Value) (state : AnthropicStreamState)
    : list CompletionChunk * AnthropicStreamState :=
  match event_type with
  | "message_start" => ([], message_start raw_json state)
  | "message_delta" => message_delta raw_json state
  | "content_block_start" => content_block_start raw_json state
  | "content_block_delta" => content_block_delta raw_json state
  | "content_block_stop" => content_block_stop raw_json state
  | _ => ([], state)
  end.

(** The chunks of an event that parsed. *)
Definition event_chunks (event : SseEvent) (raw_json : Value) (state : AnthropicStreamState)
    : list CompletionChunk * AnthropicStreamState :=
  let event_type := event_name raw_json event in
  let '(chunks, state) := dispatch_event event_type raw_json state in
  let chunks := chunks ++ match (if reports_usage event_type then usage_snapshot state else None) with
                          | Some usage => [usage_chunk usage]
                          | None => []
                          end in
  let chunks := match chunks with [] => [chunk_of []] | _ => chunks end in
  (attach_raw_to_all chunks raw_json, state).

Section anthropic.
(** [serde_json::from_str], [to_string_pretty] *)
Context (from_str : string -> option Value) (to_string_pretty : Value -> string).

(** [completion_chunks_from_sse_event] *)
Definition completion_chunks_from_sse_event (event : SseEvent) (state : AnthropicStreamState)
    : list CompletionChunk * Result AnthropicStreamState :=
  match from_str (sse_data event) with
  | None => ([], Err (JsonError ""))
  | Some raw_json => let '(chunks, state) := event_chunks event raw_json state in (chunks, Ok state)
  end.

(** The stream of [stream_completion]. *)
Definition anthropic_stream (arrivals : list (Result string)) : list CompletionChunk * Result unit :=
  run_stream completion_chunks_from_sse_event (fun state => (flush_all state, Ok tt)) "" anthropic_start
    arrivals.

(** ** The request *)

(** [render_value_as_text] *)
Definition render_value_as_text (value : Value) : string :=
  match value with VString text => text | _ => to_string_pretty value end.

(** [render_message_part_as_text] *)
Definition render_message_part_as_text (part : MessagePart) : option string :=
  match part with
  | PText text => Some text
  | PToolCall call =>
      Some ("Tool call " +:+ tc_tool_name call +:+ "(" +:+ render_value_as_text (tc_arguments call) +:+ ")")
  | PToolResult result => Some (render_value_as_text (tr_output result))
  | PRefusal (Some text) _ _ => Some text
  | PStructured _ value => Some (render_value_as_text value)
  | PReasoning _ _ _ | PRefusal None _ _ => None
  end.

(** [render_system_message] *)
Definition render_system_message (parts : list MessagePart) : string :=
  join nl (omap render_message_part_as_text parts).

(** [anthropic_role] *)
Definition anthropic_role (role : Role) : string :=
  match role with
  | RoleUser => "user"
  | RoleAssistant => "assistant"
  | RoleTool => "user"
  | RoleSystem => "user"
  end.

(** [anthropic_replay_block] *)
Definition anthropic_replay_block (replay : Value) : option Value :=
  match get_str "provider" replay with
  | Some "anthropic" => value_get "block" replay
  | _ => None
  end.

Definition text_block (text : string) : Value :=
  json_object [("type", VString "text"); ("text", VString text)].

(** [message_part_to_anthropic_blocks] *)
Definition message_part_to_anthropic_blocks (part : MessagePart) (include_thinking : bool) : list Value :=
  match part with
  | PText text => [text_block text]
  | PToolCall call =>
      [json_object [("type", VString "tool_use"); ("id", VString (tc_call_id call));
                    ("name", VString (tc_tool_name call)); ("input", tc_arguments call)]]
  | PToolResult result =>
      [json_object [("type", VString "tool_result"); ("tool_use_id", VString (call_name (tr_call_id result)));
                    ("is_error", VBool (tr_is_error result));
                    ("content", VString (render_value_as_text (tr_output result)))]]
  | PRefusal (Some text) _ _ => [text_block text]
  | PStructured _ value => [text_block (render_value_as_text value)]
  | PReasoning _ _ (Some replay) =>
      if include_thinking then match anthropic_replay_block replay with Some block => [block] | None => [] end else []
  | PReasoning _ _ None | PRefusal None _ _ => []
  end.

(** [message_to_anthropic_blocks] *)
Definition message_to_anthropic_blocks (parts : list MessagePart) (include_thinking : bool) : list Value :=
  List.flat_map (fun part => message_part_to_anthropic_blocks part include_thinking) parts.

(** [if let Some(last) = translated.last_mut() && last.role == role] *)
Definition push_translated (translated : list AnthropicMessage) (role : string) (content : list Value)
    : list AnthropicMessage :=
  match last translated with
  | Some last_message =>
      if String.eqb (am_role last_message) role
      then removelast translated ++ [MkAnthropicMessage (am_role last_message)
                                       (am_content last_message ++ content)]
      else translated ++ [MkAnthropicMessage role content]
  | None => translated ++ [MkAnthropicMessage role content]
  end.

(** The body of the loop of [messages_to_anthropic]. *)
Definition translate_message (include_thinking : bool) (st : list string * list AnthropicMessage)
    (message : Message) : list string * list AnthropicMessage :=
  let '(system_parts, translated) := st in
  match msg_role message with
  | RoleSystem => (system_parts ++ [render_system_message (msg_parts message)], translated)
  | role =>
      match message_to_anthropic_blocks (msg_parts message) include_thinking with
      | [] => (system_parts, translated)
      | content => (system_parts, push_translated translated (anthropic_role role) content)
      end
  end.

(** [messages_to_anthropic] *)
Definition messages_to_anthropic (system_prompt : option string) (messages : list Message)
    (include_thinking : bool) : option string * list AnthropicMessage :=
  let system_parts := match system_prompt with
                      | Some prompt => if is_blank prompt then [] else [prompt]
                      | None => []
                      end in
  let '(system_parts, translated) :=
    fold_left (translate_message include_thinking) messages (system_parts, []) in
  (match system_parts with [] => None | _ => Some (join (nl +:+ nl) system_parts) end, translated).

(** [tool_spec_to_anthropic], [thinking_to_anthropic] *)
Definition tool_spec_to_anthropic (spec : ToolSpec) : AnthropicTool :=
  MkAnthropicTool (ts_name spec) (ts_description spec) (ts_parameters_schema spec).
Definition thinking_to_anthropic (thinking : ThinkingConfig) : option AnthropicThinking :=
  if negb (th_enabled thinking) then None
  else Some (MkAnthropicThinking "enabled" (default 1024 (th_budget_tokens thinking))).

(** [build_request] *)
Definition build_anthropic_request (request : CompletionRequest) : AnthropicMessagesRequest :=
  let thinking := thinking ← cr_thinking request; thinking_to_anthropic thinking in
  let '(system, messages) := messages_to_anthropic (cr_system_prompt request) (cr_messages request)
                               (is_some thinking) in
  {| aq_model := cr_model request;
     aq_system := system;
     aq_messages := messages;
     aq_max_tokens := default DEFAULT_MAX_TOKENS (cr_max_tokens request);
     aq_stream := true;
     aq_temperature := cr_temperature request;
     aq_tools := match cr_tools request with
                 | [] => None
                 | tools => Some (List.map tool_spec_to_anthropic tools)
                 end;
     aq_thinking := thinking |}.

(** The start of [stream_completion]: what is refused before anything is
    sent. *)
Definition anthropic_request (request : CompletionRequest) : Result AnthropicMessagesRequest :=
  _ ← reject_if (is_some (cr_structured_output request))
        (Unsupported "structured output is not supported for anthropic yet");
  Ok (build_anthropic_request request).
End anthropic.

(** [parse_anthropic_model_ids] *)
Definition parse_anthropic_model_ids (payload : Value) : list string :=
  omap (get_str "id") (default [] (data ← value_get "data" payload; as_array data)).
