(* ===== verification/AnthropicLaws.v ===== *)
(** * What a stream of the Anthropic provider means

    An answer is a list of blocks.  The events that stream it, in whatever
    fragments, are read back as its parts and tool calls; signed thinking is
    sent back as it came; and a translated conversation alternates. *)

From stdpp Require Import base list strings gmap sorting.
From Stdlib Require Import ZArith Lia.
From S2P Require Import Prelude Text Utf8 Json Types Messages AgentStream Sse ProviderStream Anthropic.

#[local] Open Scope Z_scope.

(** ** Answers and their events *)

(** A block of an answer: the text it opens with, and the fragments that
    follow. *)
Inductive Block : Type :=
  | BText (text : string) (fragments : list string)
  | BThinking (text : string) (fragments signature : list string)
  | BRedacted (data : string)
  | BToolUse (id name : string) (input : Value) (fragments : list string).

Definition number (z : Z) : Value := VNumber (PosInt z).

Definition ev_start (index : Z) (block : Value) : Value :=
  json_object [("type", VString "content_block_start"); ("index", number index); ("content_block", block)].
Definition ev_delta (index : Z) (delta : Value) : Value :=
  json_object [("type", VString "content_block_delta"); ("index", number index); ("delta", delta)].
Definition ev_stop (index : Z) : Value :=
  json_object [("type", VString "content_block_stop"); ("index", number index)].

(** A fragment: [{"type": kind, key: text}]. *)
Definition fragment (kind key text : string) : Value :=
  json_object [("type", VString kind); (key, VString text)].

Definition block_values (index : Z) (block : Block) : list Value :=
  match block with
  | BText text fragments =>
      ev_start index (fragment "text" "text" text)
      :: List.map (fun f => ev_delta index (fragment "text_delta" "text" f)) fragments
  | BThinking text fragments signature =>
      ev_start index (fragment "thinking" "thinking" text)
      :: List.map (fun f => ev_delta index (fragment "thinking_delta" "thinking" f)) fragments
      ++ List.map (fun f => ev_delta index (fragment "signature_delta" "signature" f)) signature
  | BRedacted data => [ev_start index (redacted_block data)]
  | BToolUse id name input fragments =>
      ev_start index (json_object [("type", VString "tool_use"); ("id", VString id);
                                   ("name", VString name); ("input", input)])
      :: List.map (fun f => ev_delta index (fragment "input_json_delta" "partial_json" f)) fragments
  end ++ [ev_stop index].

Fixpoint blocks_values (index : Z) (blocks : list Block) : list Value :=
  match blocks with
  | [] => []
  | block :: blocks => block_values index block ++ blocks_values (index + 1) blocks
  end.

(** The events of an answer: the prompt's tokens come first, the answer's
    last. *)
Definition answer_values (input_tokens output_tokens : Z) (stop_reason : string) (blocks : list Block)
    : list Value :=
  [json_object [("type", VString "message_start");
      ("message", json_object [("usage", json_object [("input_tokens", number input_tokens)])])]]
  ++ blocks_values 0 blocks
  ++ [json_object [("type", VString "message_delta");
        ("delta", json_object [("stop_reason", VString stop_reason)]);
        ("usage", json_object [("output_tokens", number output_tokens)])];
      json_object [("type", VString "message_stop")]].

(** ** What an answer says *)

Definition block_parts (block : Block) : list MessagePart :=
  match block with
  | BText text fragments =>
      if is_empty text && bool_decide (fragments = []) then [] else [PText (text +:+ concat_str fragments)]
  | BThinking text fragments signature =>
      (if is_empty text && bool_decide (fragments = []) then []
       else [PReasoning (Some (text +:+ concat_str fragments)) false None])
      ++ (if is_empty (concat_str signature) then []
          else [PReasoning None false
                  (Some (anthropic_replay (thinking_block (text +:+ concat_str fragments)
                                             (concat_str signature))))])
  | BRedacted data => [PReasoning None true (Some (anthropic_replay (redacted_block data)))]
  | BToolUse _ _ _ _ => []
  end.

(** The finished calls: the streamed arguments, or those of the block when
    none were streamed. *)
Definition block_calls (from_str : string -> option Value) (block : Block) : list CompletedToolCall :=
  match block with
  | BToolUse id name input fragments =>
      match finalize_tool_call from_str (MkAccumulator id name (Some input) (concat_str fragments)) with
      | Ok call => [call]
      | Err _ => []
      end
  | _ => []
  end.

(** Calls have an id and a name. *)
Definition block_ok (block : Block) : Prop :=
  match block with BToolUse id name _ _ => is_blank id = false /\ is_blank name = false | _ => True end.

(** ** The chunks of a block *)

Definition block_deltas (block : Block) : list CompletionDelta :=
  match block with
  | BText text fragments =>
      (if is_empty text then [] else [AppendText text]) ++ List.map AppendText fragments
  | BThinking text fragments signature =>
      (if is_empty text then [] else [AppendReasoning (Some text) false None])
      ++ List.map (fun f => AppendReasoning (Some f) false None) fragments
      ++ (if is_empty (concat_str signature) then []
          else [AppendReasoning None false
                  (Some (anthropic_replay (thinking_block (text +:+ concat_str fragments)
                                             (concat_str signature))))])
  | BRedacted data => [AppendReasoning None true (Some (anthropic_replay (redacted_block data)))]
  | BToolUse id name input fragments =>
      OpenToolCall id name (Some input) :: List.map (AppendToolCallArguments id) fragments
      ++ [CloseToolCall id]
  end.

(** The chunks of events that parsed to the given values. *)
Definition value_chunks (v : Value) (state : AnthropicStreamState) : list CompletionChunk * AnthropicStreamState :=
  event_chunks (MkSseEvent None "") v state.

Fixpoint run_values (vs : list Value) (state : AnthropicStreamState)
    : list CompletionChunk * AnthropicStreamState :=
  match vs with
  | [] => ([], state)
  | v :: vs => let '(chunks, state) := value_chunks v state in
               let '(more, state) := run_values vs state in (chunks ++ more, state)
  end.

(** The values say something: their deltas and the last usage. *)
Definition says (vs : list Value) (state : AnthropicStreamState) (deltas : list CompletionDelta)
    (usage : option TokenUsage -> option TokenUsage) (state' : AnthropicStreamState) : Prop :=
  exists chunks, run_values vs state = (chunks, state') /\ deltas_of chunks = deltas
    /\ forall u, usage_of chunks u = usage u.

Lemma says_nil state : says [] state [] id state.
Proof. by exists []. Qed.

Lemma says_app vs ws s d u s' e v s'' :
  says vs s d u s' -> says ws s' e v s'' -> says (vs ++ ws) s (d ++ e) (v ∘ u) s''.
Proof.
  intros (c1 & H1 & Hd1 & Hu1) (c2 & H2 & Hd2 & Hu2). exists (c1 ++ c2). split_and!.
  - clear Hd1 Hu1 Hd2 Hu2. revert s c1 H1. induction vs as [|w vs IH]; intros s c1 H1; simpl in *.
    + by injection H1 as <- ->.
    + destruct (value_chunks w s) as [c s1]. destruct (run_values vs s1) as [c' s2] eqn:E.
      injection H1 as <- ->. rewrite (IH _ _ E). by rewrite app_assoc.
  - by rewrite deltas_of_app, Hd1, Hd2.
  - intros w. simpl. by rewrite usage_of_app, Hu1, Hu2.
Qed.

(** An event that reports no usage says its deltas. *)
Lemma says_one v state deltas_chunks d state' :
  reports_usage (default "" (get_str "type" v)) = false ->
  dispatch_event (default "" (get_str "type" v)) v state = (deltas_chunks, state') ->
  Forall (fun chunk => ck_usage chunk = None) deltas_chunks -> deltas_of deltas_chunks = d ->
  says [v] state d id state'.
Proof.
  intros Hr Hd Hu <-.
  assert (event_name v (MkSseEvent None "") = default "" (get_str "type" v)) as Hn
    by (unfold event_name; by destruct (get_str "type" v)).
  set (chunks := match deltas_chunks with [] => [chunk_of []] | _ => deltas_chunks end).
  exists (attach_raw_to_all chunks v). split_and!.
  - simpl. unfold value_chunks, event_chunks. rewrite Hn, Hd, Hr. rewrite app_nil_r.
    fold chunks. by rewrite app_nil_r.
  - rewrite deltas_of_attach. by destruct deltas_chunks.
  - intros u. rewrite usage_of_attach. unfold chunks. destruct deltas_chunks; [done|by apply usage_of_none].
Qed.

(** ** The state while a block is open *)

(** The state without open blocks. *)
Definition idle (state : AnthropicStreamState) : Prop :=
  as_tool_uses state = ∅ /\ as_thinking_blocks state = ∅.

Definition with_thinking (index : Z) (state : AnthropicStreamState) (thinking signature : string) :=
  set_thinking state {[index := MkThinking thinking signature]}.
Definition with_tool (index : Z) (id name : string) (raw : option Value) (state : AnthropicStreamState) :=
  set_tool_uses state {[index := MkToolUse (Some id) (Some name) raw]}.

Lemma set_thinking_idle state : idle state -> set_thinking state ∅ = state.
Proof. intros [H1 H2]. destruct state. simpl in *. by subst. Qed.
Lemma set_tool_uses_idle state : idle state -> set_tool_uses state ∅ = state.
Proof. intros [H1 H2]. destruct state. simpl in *. by subst. Qed.

(** ** Single events *)

Ltac says_event := eapply says_one; [reflexivity|reflexivity| |].

Lemma says_text_start index text state :
  says [ev_start index (fragment "text" "text" text)] state
    (if is_empty text then [] else [AppendText text]) id state.
Proof.
  says_event; change (get_str "text" _) with (Some text); simpl; destruct (is_empty text); by repeat constructor.
Qed.

Lemma says_text_delta index text state :
  says [ev_delta index (fragment "text_delta" "text" text)] state [AppendText text] id state.
Proof. says_event; [by repeat constructor|done]. Qed.

Lemma says_thinking_start index text state :
  idle state ->
  says [ev_start index (fragment "thinking" "thinking" text)] state
    (if is_empty text then [] else [AppendReasoning (Some text) false None]) id
    (with_thinking index state text "").
Proof.
  intros [_ H].
  assert (with_thinking index state text "" = start_thinking index text state) as ->.
  { unfold start_thinking. rewrite H, lookup_empty. done. }
  says_event; change (default "" _) with text; destruct (is_empty text); by repeat constructor.
Qed.

Lemma says_thinking_delta index state thinking signature text :
  says [ev_delta index (fragment "thinking_delta" "thinking" text)]
    (with_thinking index state thinking signature) [AppendReasoning (Some text) false None] id
    (with_thinking index state (thinking +:+ text) signature).
Proof.
  assert (with_thinking index state (thinking +:+ text) signature
          = push_thinking index text (with_thinking index state thinking signature)) as ->.
  { unfold push_thinking, with_thinking. simpl. by rewrite alter_singleton_eq. }
  says_event; [by repeat constructor|done].
Qed.

Lemma says_signature_delta index state thinking signature text :
  says [ev_delta index (fragment "signature_delta" "signature" text)]
    (with_thinking index state thinking signature) [] id
    (with_thinking index state thinking (signature +:+ text)).
Proof.
  assert (with_thinking index state thinking (signature +:+ text)
          = push_signature index text (with_thinking index state thinking signature)) as ->.
  { unfold push_signature, with_thinking. simpl. by rewrite alter_singleton_eq. }
  says_event; [by repeat constructor|done].
Qed.

Lemma says_redacted index data state :
  says [ev_start index (redacted_block data)] state
    [AppendReasoning None true (Some (anthropic_replay (redacted_block data)))] id state.
Proof. says_event; [by repeat constructor|done]. Qed.

Lemma says_tool_start index cid name input state :
  idle state ->
  exists raw,
  says [ev_start index (json_object [("type", VString "tool_use"); ("id", VString cid);
                                     ("name", VString name); ("input", input)])] state
    [OpenToolCall cid name (Some input)] id (with_tool index cid name raw state).
Proof.
  intros [H _]. eexists.
  unfold with_tool. rewrite <- (insert_empty (M:=gmap Z)), <- H.
  says_event; [by repeat constructor|done].
Qed.

Lemma says_tool_delta index cid name raw state text :
  exists raw',
  says [ev_delta index (fragment "input_json_delta" "partial_json" text)] (with_tool index cid name raw state)
    [AppendToolCallArguments cid text] id (with_tool index cid name raw' state).
Proof.
  set (v := ev_delta index (fragment "input_json_delta" "partial_json" text)). exists (Some v).
  assert (push_tool_input index text v (with_tool index cid name raw state)
    = (Some (AppendToolCallArguments cid text), with_tool index cid name (Some v) state)) as H.
  { unfold push_tool_input, with_tool. simpl. rewrite lookup_singleton_eq. simpl. by rewrite insert_singleton_eq. }
  eapply (says_one v _ (opt_chunk (Some (AppendToolCallArguments cid text)))); [reflexivity| |by repeat constructor|done].
  change (dispatch_event _ v _) with
    (let '(delta, state) := push_tool_input index text v (with_tool index cid name raw state) in
     (opt_chunk delta, state)). by rewrite H.
Qed.

(** The end of a block closes what is open under its index. *)
Lemma says_stop index state : idle state -> says [ev_stop index] state [] id state.
Proof.
  intros Hi. eapply says_one; [reflexivity| |by apply List.Forall_nil|done].
  change (content_block_stop (ev_stop index) state = ([], state)).
  unfold content_block_stop. change (block_index (ev_stop index)) with index.
  unfold finish_tool_use, finish_thinking. pose proof Hi as [H1 H2]. simpl. rewrite H1, H2, !lookup_empty. simpl.
  rewrite !delete_empty, set_tool_uses_idle by done. by rewrite set_thinking_idle.
Qed.

Lemma says_stop_thinking index state thinking signature :
  idle state ->
  says [ev_stop index] (with_thinking index state thinking signature)
    (if is_empty signature then []
     else [AppendReasoning None false (Some (anthropic_replay (thinking_block thinking signature)))]) id state.
Proof.
  intros Hi. pose proof Hi as [H1 H2].
  assert (content_block_stop (ev_stop index) (with_thinking index state thinking signature)
    = (opt_chunk ((fun block => AppendReasoning None false (Some (anthropic_replay block)))
          <$> if is_empty signature then None else Some (thinking_block thinking signature)), state)) as H.
  { unfold content_block_stop. change (block_index (ev_stop index)) with index.
    unfold finish_tool_use, finish_thinking, with_thinking. simpl. rewrite H1, lookup_empty, lookup_singleton_eq. simpl.
    rewrite delete_empty, delete_singleton_eq. f_equal. etrans; [|by apply set_thinking_idle].
    unfold set_thinking. simpl. by rewrite <- H1. }
  eapply says_one; [reflexivity|exact H| |]; by destruct (is_empty signature); repeat constructor.
Qed.

Lemma says_stop_tool index cid name raw state :
  idle state -> says [ev_stop index] (with_tool index cid name raw state) [CloseToolCall cid] id state.
Proof.
  intros Hi. pose proof Hi as [H1 H2].
  assert (content_block_stop (ev_stop index) (with_tool index cid name raw state)
    = (opt_chunk (Some (CloseToolCall cid)), state)) as H.
  { unfold content_block_stop. change (block_index (ev_stop index)) with index.
    unfold finish_tool_use, finish_thinking, with_tool. simpl. rewrite lookup_singleton_eq, H2, lookup_empty. simpl.
    rewrite delete_empty, delete_singleton_eq. f_equal. etrans; [|by apply set_tool_uses_idle].
    unfold set_tool_uses. simpl. by rewrite <- H2. }
  eapply says_one; [reflexivity|exact H| |]; by repeat constructor.
Qed.

(** ** Blocks *)

Lemma says_cons v vs s d s' e s'' :
  says [v] s d id s' -> says vs s' e id s'' -> says (v :: vs) s (d ++ e) id s''.
Proof. intros H1 H2. exact (says_app [v] vs s d id s' e id s'' H1 H2). Qed.

(** The fragments of a block, over what was streamed before them. *)
Lemma says_fragments (f : string -> Value) (d : string -> list CompletionDelta)
    (st : string -> AnthropicStreamState) fragments before :
  (forall before text, says [f text] (st before) (d text) id (st (before +:+ text))) ->
  says (List.map f fragments) (st before) (List.concat (List.map d fragments)) id
    (st (before +:+ concat_str fragments)).
Proof.
  intros H. revert before. induction fragments as [|text fragments IH]; intros before.
  - change (concat_str []) with "". rewrite append_nil_r. apply says_nil.
  - cbn [List.map List.concat]. change (concat_str (text :: fragments)) with (text +:+ concat_str fragments).
    rewrite <- append_assoc. eapply says_cons; [apply H|apply IH].
Qed.

Lemma concat_singletons {A B} (f : A -> B) l : List.concat (List.map (fun a => [f a]) l) = List.map f l.
Proof. induction l as [|a l IH]; simpl; [done|by rewrite IH]. Qed.

Lemma concat_nils {A B} (l : list A) : List.concat (List.map (fun _ => ([] : list B)) l) = [].
Proof. by induction l. Qed.

Lemma says_tool_fragments index cid name state fragments raw :
  exists raw',
  says (List.map (fun f => ev_delta index (fragment "input_json_delta" "partial_json" f)) fragments)
    (with_tool index cid name raw state) (List.map (AppendToolCallArguments cid) fragments) id
    (with_tool index cid name raw' state).
Proof.
  revert raw. induction fragments as [|text fragments IH]; intros raw; [exists raw; apply says_nil|].
  destruct (says_tool_delta index cid name raw state text) as [raw1 H1]. destruct (IH raw1) as [raw2 H2].
  exists raw2. exact (says_cons _ _ _ [AppendToolCallArguments cid text] _ _ _ H1 H2).
Qed.

Lemma says_block index block state :
  idle state -> says (block_values index block) state (block_deltas block) id state.
Proof.
  intros Hi. destruct block as [text fragments|text fragments signature|data|cid name input fragments];
    unfold block_values, block_deltas; rewrite <- ?app_comm_cons.
  - eapply says_cons; [apply says_text_start|]. rewrite <- (app_nil_r (List.map AppendText fragments)).
    eapply (says_app _ _ _ _ id _ _ id); [|by apply says_stop].
    rewrite <- (concat_singletons AppendText). apply (says_fragments _ _ (fun _ => state) fragments "").
    intros _ t. apply says_text_delta.
  - rewrite <- List.app_assoc. eapply says_cons; [by apply says_thinking_start|].
    eapply (says_app _ _ _ _ id _ _ id).
    + rewrite <- (concat_singletons (fun f => AppendReasoning (Some f) false None)).
      apply (says_fragments _ _ (fun t => with_thinking index state t "")).
      intros before t. apply says_thinking_delta.
    + set (thinking := text +:+ concat_str fragments).
      rewrite <- (app_nil_l (if is_empty (concat_str signature) then [] else _)).
      eapply (says_app _ _ _ _ id _ _ id); [|by apply says_stop_thinking].
      rewrite <- (concat_nils (B:=CompletionDelta) signature).
      apply (says_fragments _ _ (fun t => with_thinking index state thinking t) signature "").
      intros before t. apply says_signature_delta.
  - rewrite <- (app_nil_r [AppendReasoning _ _ _]).
    exact (says_app [_] [_] _ _ id _ _ id _ (says_redacted _ _ _) (says_stop _ _ Hi)).
  - destruct (says_tool_start index cid name input state Hi) as [raw0 H0].
    destruct (says_tool_fragments index cid name state fragments raw0) as [raw1 H1].
    apply (says_cons _ _ _ [OpenToolCall cid name (Some input)] (with_tool index cid name raw0 state)); [done|].
    exact (says_app _ [_] _ _ id _ _ id _ H1 (says_stop_tool _ _ _ _ _ Hi)).
Qed.

Lemma says_blocks index blocks state :
  idle state -> says (blocks_values index blocks) state (List.concat (List.map block_deltas blocks)) id state.
Proof.
  intros Hi. revert index. induction blocks as [|block blocks IH]; intros index; [apply says_nil|].
  exact (says_app _ _ _ _ id _ _ id _ (says_block index block state Hi) (IH (index + 1))).
Qed.

(** ** Answers *)

Definition answer_usage (input_tokens output_tokens : Z) : TokenUsage :=
  MkTokenUsage input_tokens output_tokens (u64_add input_tokens output_tokens) None None None.

Definition counted (input_tokens output_tokens : Z) : AnthropicStreamState :=
  MkAnthropicState ∅ ∅ input_tokens output_tokens None None None.

(** An event that reports usage. *)
Lemma says_usage v state state' :
  reports_usage (default "" (get_str "type" v)) = true ->
  dispatch_event (default "" (get_str "type" v)) v state = ([], state') ->
  says [v] state [] (fun u => match usage_snapshot state' with Some u' => Some u' | None => u end) state'.
Proof.
  intros Hr Hd.
  assert (event_name v (MkSseEvent None "") = default "" (get_str "type" v)) as Hn
    by (unfold event_name; by destruct (get_str "type" v)).
  eexists. split_and!.
  - simpl. unfold value_chunks, event_chunks. rewrite Hn, Hd, Hr. by rewrite app_nil_r.
  - rewrite deltas_of_attach. by destruct (usage_snapshot state').
  - intros u. rewrite usage_of_attach. by destruct (usage_snapshot state').
Qed.

Lemma answer_says input_tokens output_tokens stop_reason blocks :
  0 < input_tokens -> 0 <= output_tokens -> input_tokens + output_tokens <= U64_MAX ->
  stop_reason <> "refusal" ->
  exists usage,
  says (answer_values input_tokens output_tokens stop_reason blocks) anthropic_start
    (List.concat (List.map block_deltas blocks)) usage (counted input_tokens output_tokens)
  /\ usage None = Some (answer_usage input_tokens output_tokens).
Proof.
  intros Hi Ho Hmax Hstop. unfold answer_values.
  assert (forall o, 0 <= o -> input_tokens + o <= U64_MAX ->
    usage_snapshot (counted input_tokens o) = Some (answer_usage input_tokens o)) as Hsnap.
  { intros o Ho0 Hm. unfold usage_snapshot, counted. simpl. unfold u64_add, wrap64.
    rewrite Z.mod_small by (unfold U64_MAX in Hm; lia).
    destruct (Z.eqb_spec (input_tokens + o) 0); [lia|]. simpl. unfold answer_usage, u64_add, wrap64.
    by rewrite Z.mod_small by (unfold U64_MAX in Hm; lia). }
  set (v0 := json_object [("type", VString "message_start"); _]).
  set (v1 := json_object [("type", VString "message_delta"); _; _]). set (v2 := json_object [_]).
  pose proof (says_usage v0 anthropic_start (counted input_tokens 0) eq_refl eq_refl) as H0.
  assert (dispatch_event "message_delta" v1 (counted input_tokens 0) = ([], counted input_tokens output_tokens)) as E1.
  { change (message_delta v1 (counted input_tokens 0) = ([], counted input_tokens output_tokens)).
    unfold message_delta. change (value_get "usage" v1) with (Some (json_object [("output_tokens", number output_tokens)])).
    change (delta ← value_get "delta" v1; get_str "stop_reason" delta) with (Some stop_reason).
    f_equal. repeat (case_match; try done). }
  pose proof (says_usage v1 _ _ eq_refl E1) as H1.
  pose proof (says_usage v2 (counted input_tokens output_tokens) _ eq_refl eq_refl) as H2.
  pose proof (says_blocks 0 blocks (counted input_tokens 0) ltac:(done)) as Hb.
  pose proof (says_app _ _ _ _ _ _ _ _ _ H1 H2) as H12.
  pose proof (says_app _ _ _ _ _ _ _ _ _ Hb H12) as Hb12.
  pose proof (says_app _ _ _ _ _ _ _ _ _ H0 Hb12) as Hall.
  eexists. split; [rewrite app_nil_r in Hall; exact Hall|]. simpl. by rewrite !Hsnap by lia.
Qed.

(** ** What the agent collects of an answer *)

Lemma push_reasoning_reasoning ps a b :
  push_message_part (push_message_part ps (PReasoning (Some a) false None)) (PReasoning (Some b) false None)
  = push_message_part ps (PReasoning (Some (a +:+ b)) false None).
Proof.
  destruct (decide (ps = [])) as [->|Hne]; [done|].
  destruct (exists_last Hne) as (ps' & p & ->). rewrite !push_message_part_snoc.
  assert (forall q, push_message_part (ps' ++ [q; PReasoning (Some a) false None]) (PReasoning (Some b) false None)
    = ps' ++ [q; PReasoning (Some (a +:+ b)) false None]) as Hsep.
  { intros q. change [q; ?x] with ([q] ++ [x]). rewrite !app_assoc. by rewrite push_message_part_snoc. }
  destruct p as [|t [] []| | | |]; try exact (Hsep _).
  destruct t; cbn -[String.append]; rewrite push_message_part_snoc; cbn -[String.append]; by rewrite ?append_assoc.
Qed.

Section collected.
Context (from_str : string -> option Value).

Section fragments.
Context (part : string -> MessagePart) (delta : string -> CompletionDelta).
Context (Hdelta : forall st t, apply_delta from_str st (delta t)
  = Ok (set_parts st (push_message_part (co_assistant_parts st) (part t)))).
Context (Hmerge : forall ps a b, push_message_part (push_message_part ps (part a)) (part b)
  = push_message_part ps (part (a +:+ b))).

Lemma apply_fragments fragments st :
  apply_deltas from_str st (List.map delta fragments)
  = Ok (set_parts st (extend_message_parts (co_assistant_parts st)
          (if bool_decide (fragments = []) then [] else [part (concat_str fragments)]))).
Proof.
  destruct fragments as [|text fragments]; [by destruct st|]. rewrite bool_decide_false by done.
  revert st text. induction fragments as [|next fragments IH]; intros st text; cbn [List.map apply_deltas].
  - rewrite Hdelta. simpl. by rewrite append_nil_r.
  - rewrite Hdelta. cbn [mbind result_bind]. specialize (IH (set_parts st (push_message_part (co_assistant_parts st) (part text))) next).
    cbn [List.map apply_deltas] in IH. etrans; [exact IH|]. 
    unfold extend_message_parts. cbn [fold_left set_parts co_assistant_parts]. rewrite Hmerge. done.
Qed.

Lemma apply_opened text fragments st :
  apply_deltas from_str st ((if is_empty text then [] else [delta text]) ++ List.map delta fragments)
  = Ok (set_parts st (extend_message_parts (co_assistant_parts st)
          (if is_empty text && bool_decide (fragments = []) then [] else [part (text +:+ concat_str fragments)]))).
Proof.
  destruct text as [|a text]; [apply apply_fragments|].
  exact (apply_fragments (String a text :: fragments) st).
Qed.
End fragments.

Lemma set_parts_set_parts st a b : set_parts (set_parts st a) b = set_parts st b.
Proof. done. Qed.

Lemma extend_app parts a b :
  extend_message_parts (extend_message_parts parts a) b = extend_message_parts parts (a ++ b).
Proof. unfold extend_message_parts. by rewrite fold_left_app. Qed.

Definition add_block (st : CollectState) (parts : list MessagePart) (calls : list CompletedToolCall) :=
  MkCollectState (extend_message_parts (co_assistant_parts st) parts) (co_tool_calls st ++ calls)
    (co_open_tool_calls st) (co_chunks st) (co_usage st).

Lemma block_collected block st :
  block_ok block -> co_open_tool_calls st = [] ->
  apply_deltas from_str st (block_deltas block)
  = Ok (add_block st (block_parts block) (block_calls from_str block)).
Proof.
  intros Hok Hopen. unfold add_block.
  destruct block as [text fragments|text fragments signature|data|cid name input fragments];
    cbn [block_deltas block_parts block_calls].
  - rewrite (apply_opened PText AppendText) by (done || apply push_text_text). by rewrite app_nil_r.
  - rewrite app_assoc, apply_deltas_app.
    rewrite (apply_opened (fun t => PReasoning (Some t) false None) (fun t => AppendReasoning (Some t) false None))
      by (done || apply push_reasoning_reasoning).
    cbn [mbind result_bind]. rewrite <- extend_app, app_nil_r.
    destruct (is_empty (concat_str signature)); done.
  - by rewrite app_nil_r.
  - destruct Hok as [Hid Hname]. 
    destruct (finalize_tool_call from_str (MkAccumulator cid name (Some input) (concat_str fragments))) as [call|e] eqn:E.
    + refine (one_call_streamed _ st cid name (Some input) fragments call _ E). rewrite Hopen. by apply not_elem_of_nil.
    + unfold finalize_tool_call in E. cbn [acc_call_id acc_tool_name] in E. by rewrite Hid, Hname in E.
Qed.

Lemma blocks_collected blocks st :
  Forall block_ok blocks -> co_open_tool_calls st = [] ->
  apply_deltas from_str st (List.concat (List.map block_deltas blocks))
  = Ok (add_block st (List.concat (List.map block_parts blocks)) (List.concat (List.map (block_calls from_str) blocks))).
Proof.
  intros H. revert st. induction H as [|block blocks Hb _ IH]; intros st Hopen; cbn [List.map List.concat].
  - unfold add_block. rewrite app_nil_r. by destruct st.
  - rewrite apply_deltas_app, block_collected by done. cbn [mbind result_bind]. rewrite IH by done.
    unfold add_block. cbn [co_assistant_parts co_tool_calls co_open_tool_calls co_chunks co_usage].
    by rewrite extend_app, app_assoc.
Qed.

(** Every event of an answer names its type. *)
Definition typed (v : Value) : Prop := is_some (get_str "type" v) = true.

Lemma typed_blocks index blocks : Forall typed (blocks_values index blocks).
Proof.
  revert index. induction blocks as [|block blocks IH]; intros index; [constructor|].
  apply Forall_app. split; [|apply IH]. unfold block_values. apply Forall_app. split; [|by repeat constructor].
  assert (forall (f : string -> Value) l, Forall typed (List.map (fun t => ev_delta index (f t)) l)) as Hl.
  { intros f l. apply Forall_forall. intros v Hv. apply list_elem_of_In, in_map_iff in Hv as (t & <- & _). done. }
  destruct block; repeat first [apply Hl|apply Forall_app; split|apply Forall_cons; split; [reflexivity|]|by apply Forall_nil].
Qed.

Lemma typed_answer it ot stop_reason blocks : Forall typed (answer_values it ot stop_reason blocks).
Proof. repeat (apply Forall_app; split); first [apply typed_blocks|by repeat constructor]. Qed.

(** The events that parse to values run as the values do. *)
Lemma run_events_values events vs state chunks state' :
  Forall2 (fun event v => from_str (sse_data event) = Some v) events vs -> Forall typed vs ->
  run_values vs state = (chunks, state') ->
  run_events (completion_chunks_from_sse_event from_str) events state = (chunks, Ok state').
Proof.
  intros H. revert state chunks. induction H as [|event v events vs Hv _ IH]; intros state chunks Ht Hr; simpl in *.
  - by injection Hr as <- <-.
  - apply Forall_cons in Ht as [Hty Ht].
    assert (completion_chunks_from_sse_event from_str event state
      = let '(chunks, state) := value_chunks v state in (chunks, Ok state)) as ->.
    { unfold completion_chunks_from_sse_event. rewrite Hv.
      unfold value_chunks, event_chunks, event_name, typed in *. by destruct (get_str "type" v). }
    destruct (value_chunks v state) as [cs s1]. destruct (run_values vs s1) as [more s2] eqn:E.
    injection Hr as <- <-. by rewrite (IH _ _ Ht E).
Qed.
End collected.

(** C33. However the network cuts it, a streamed answer is what the model said.
    For an answer of text, thinking, redacted thinking and tool uses, each
    streamed in any fragments, framed as server-sent events and cut anywhere
    between characters, the stream ends without an error, and what the agent
    collects of it is the text and the thinking of the blocks in their order,
    the opaque block of every signed thinking, the call of every tool use with
    the concatenation of its argument fragments, and the tokens reported first
    for the prompt and last for the answer. *)
Theorem streamed_answer_is_collected from_str ordinal events chunks input_tokens output_tokens stop_reason blocks :
  0 < input_tokens -> 0 <= output_tokens -> input_tokens + output_tokens <= U64_MAX ->
  stop_reason <> "refusal" -> Forall block_ok blocks -> Forall wire_ok events ->
  Forall2 (fun event v => from_str (sse_data event) = Some v) events
    (answer_values input_tokens output_tokens stop_reason blocks) ->
  concat_str chunks = concat_str (List.map wire events) ->
  Forall (fun chunk => valid_utf8 chunk = true) chunks ->
  exists streamed response,
    anthropic_stream from_str (List.map Ok chunks) = (streamed, Ok tt)
    /\ collect_all from_str ordinal streamed = Ok response
    /\ rs_assistant_parts response = extend_message_parts [] (List.concat (List.map block_parts blocks))
    /\ rs_tool_calls response = List.concat (List.map (block_calls from_str) blocks)
    /\ rs_usage response = Some (answer_usage input_tokens output_tokens).
Proof.
  intros Hi Ho Hm Hs Hb Hw Hp Hc Hv.
  destruct (answer_says _ _ stop_reason blocks Hi Ho Hm Hs) as (usage & (streamed & Hrun & Hd & Hu) & Husage).
  exists streamed.
  pose proof (run_events_values from_str _ _ _ _ _ Hp (typed_answer _ _ _ _) Hrun) as Hev.
  assert (anthropic_stream from_str (List.map Ok chunks) = (streamed, Ok tt)) as Hstream.
  { unfold anthropic_stream. rewrite run_stream_events, (push_all_wires events) by done. cbn [fst].
    rewrite Hev. cbn. by rewrite app_nil_r. }
  pose proof (blocks_collected from_str blocks collect_start Hb eq_refl) as Hcol. rewrite <- Hd in Hcol.
  destruct (collect_all_deltas from_str ordinal streamed _ [] Hcol) as (response & Hr & H1 & H2 & H3); [done|].
  exists response. split_and!; [done..|by rewrite H1|by rewrite H2; cbn; rewrite app_nil_r|].
  by rewrite H3, Hu, Husage.
Qed.

(** A thinking block cut within its signature, then a tool use whose
    arguments come in two fragments. *)
Lemma streamed_answer_is_collected_witness :
  let blocks := [BThinking "" ["let me"; " see"] ["c2ln"; "bmVk"];
                 BToolUse "toolu_1" "read" (VObject []) ["{"; "}"]] in
  let vs := answer_values 12 34 "tool_use" blocks in
  let from_str s := match s with
                    | "{}" => Some (VObject [])
                    | String a "" => vs !! (Ascii.nat_of_ascii a - 97)%nat
                    | _ => None
                    end in
  let event name data := MkSseEvent (Some name) data in
  let events := [event "message_start" "a"; event "content_block_start" "b"; event "content_block_delta" "c";
                 event "content_block_delta" "d"; event "content_block_delta" "e"; event "content_block_delta" "f";
                 event "content_block_stop" "g"; event "content_block_start" "h"; event "content_block_delta" "i";
                 event "content_block_delta" "j"; event "content_block_stop" "k"; event "message_delta" "l";
                 event "message_stop" "m"] in
  let text := concat_str (List.map wire events) in
  let chunks := [String.substring 0 21 text; String.substring 21 1000 text] in
  exists streamed response,
    anthropic_stream from_str (List.map Ok chunks) = (streamed, Ok tt)
    /\ collect_all from_str 0 streamed = Ok response
    /\ rs_assistant_parts response
       = [PReasoning (Some "let me see") false None;
          PReasoning None false (Some (anthropic_replay (thinking_block "let me see" "c2lnbmVk")))]
    /\ rs_tool_calls response = [MkCompletedToolCall "toolu_1" "read" (VObject [])]
    /\ rs_usage response = Some (MkTokenUsage 12 34 46 None None None).
Proof.
  intros blocks vs from_str event events text chunks.
  assert (forall s, forallb (fun a => negb (Ascii.eqb a newline) && negb (Ascii.eqb a carriage_return))
      (String.list_ascii_of_string s) = true /\ trim (" " +:+ s) = s -> line_value s) as Hl.
  { intros s [H1 H2]. split; [by apply within_line_literal|done]. }
  refine (streamed_answer_is_collected from_str 0 events chunks 12 34 "tool_use" blocks _ _ _ _ _ _ _ _ _).
  - lia.
  - lia.
  - by vm_compute.
  - discriminate.
  - by repeat constructor.
  - repeat (apply Forall_cons; split; [split; apply Hl; split; vm_compute; reflexivity|]). by apply Forall_nil.
  - repeat (apply List.Forall2_cons; [vm_compute; reflexivity|]). apply List.Forall2_nil.
  - vm_compute. reflexivity.
  - repeat (apply Forall_cons; split; [vm_compute; reflexivity|]). by apply Forall_nil.
Defined.

(** ** The conversation sent back *)

(** No two messages in a row are of one role, and none is empty. *)
Fixpoint alternating (messages : list AnthropicMessage) : Prop :=
  match messages with
  | [] => True
  | m :: messages =>
      am_content m <> [] /\ (am_role m = "user" \/ am_role m = "assistant")
      /\ match messages with m' :: _ => am_role m <> am_role m' | [] => True end /\ alternating messages
  end.

Lemma alternating_snoc messages m :
  alternating messages -> am_content m <> [] -> (am_role m = "user" \/ am_role m = "assistant") ->
  (forall m', last messages = Some m' -> am_role m' <> am_role m) -> alternating (messages ++ [m]).
Proof.
  induction messages as [|a messages IH]; [done|]. intros (Hc & Hr & Hn & Hs) Hmc Hmr Hl. cbn [app].
  destruct messages as [|b messages]; [by split_and!; try apply Hl|].
  split_and!; [done..|]. apply IH; auto.
Qed.

Lemma alternating_last messages m content :
  alternating (messages ++ [m]) -> alternating (messages ++ [MkAnthropicMessage (am_role m) (am_content m ++ content)]).
Proof.
  induction messages as [|a messages IH]; cbn [app].
  - intros (Hc & Hr & _). split_and!; [|done..]. cbn. by destruct (am_content m).
  - intros (Hc & Hr & Hn & Hs). split_and!; [done..| |by apply IH]. by destruct messages.
Qed.

Lemma push_translated_alternating translated role content :
  alternating translated -> content <> [] -> (role = "user" \/ role = "assistant") ->
  alternating (push_translated translated role content)
  /\ List.concat (List.map am_content (push_translated translated role content))
     = List.concat (List.map am_content translated) ++ content.
Proof.
  intros Ha Hc Hr. unfold push_translated.
  destruct (decide (translated = [])) as [->|Hne]; [by cbn; rewrite app_nil_r|].
  destruct (exists_last Hne) as (init & m & ->). rewrite last_snoc.
  assert (List.concat (List.map am_content ((init ++ [m]) ++ [MkAnthropicMessage role content]))
    = List.concat (List.map am_content (init ++ [m])) ++ content) as Hsnoc
    by (rewrite (map_app _ (init ++ [m])), concat_app; cbn; by rewrite app_nil_r).
  destruct (String.eqb_spec (am_role m) role) as [<-|Hneq].
  - rewrite removelast_last. split; [by apply alternating_last|].
    rewrite !map_app, !concat_app. cbn. by rewrite !app_nil_r, app_assoc.
  - split; [|done]. apply alternating_snoc; auto. by rewrite last_snoc; intros m' [= <-].
Qed.

(** The blocks of the messages that are not the system's. *)
Definition conversation_blocks (to_string_pretty : Value -> string) (include_thinking : bool)
    (messages : list Message) : list Value :=
  List.flat_map (fun m => match msg_role m with
    | RoleSystem => []
    | _ => message_to_anthropic_blocks to_string_pretty (msg_parts m) include_thinking
    end) messages.
Definition system_texts (to_string_pretty : Value -> string) (messages : list Message) : list string :=
  omap (fun m => match msg_role m with
    | RoleSystem => Some (render_system_message to_string_pretty (msg_parts m))
    | _ => None
    end) messages.

Lemma translate_messages to_string_pretty include_thinking messages system translated :
  alternating translated ->
  let '(system', translated') :=
    fold_left (translate_message to_string_pretty include_thinking) messages (system, translated) in
  alternating translated'
  /\ List.concat (List.map am_content translated')
     = List.concat (List.map am_content translated) ++ conversation_blocks to_string_pretty include_thinking messages
  /\ system' = system ++ system_texts to_string_pretty messages.
Proof.
  revert system translated. induction messages as [|m messages IH]; intros system translated Ha; cbn [fold_left].
  - by rewrite !app_nil_r.
  - set (next := translate_message to_string_pretty include_thinking (system, translated) m).
    assert (alternating next.2
      /\ List.concat (List.map am_content next.2) = List.concat (List.map am_content translated)
           ++ conversation_blocks to_string_pretty include_thinking [m]
      /\ next.1 = system ++ system_texts to_string_pretty [m]) as (H1 & H2 & H3).
    { unfold next, translate_message, conversation_blocks, system_texts. cbn [flat_map omap list_omap].
      destruct (msg_role m); cbn [option_bind mbind];
        try (destruct (message_to_anthropic_blocks _ _ _) as [|b bs] eqn:E;
             [by rewrite !app_nil_r|
              destruct (push_translated_alternating translated "user" (b :: bs) Ha ltac:(done) ltac:(auto));
              destruct (push_translated_alternating translated "assistant" (b :: bs) Ha ltac:(done) ltac:(auto));
              cbn [anthropic_role fst snd]; rewrite !app_nil_r; split_and!; done]).
      by rewrite !app_nil_r. }
    destruct next as [system1 translated1]. cbn [fst snd] in *. specialize (IH system1 translated1 H1).
    destruct (fold_left _ messages (system1, translated1)) as [system2 translated2].
    destruct IH as (K1 & K2 & K3). split_and!; [done| |].
    + rewrite K2, H2. unfold conversation_blocks. cbn [flat_map]. by rewrite app_nil_r, !app_assoc.
    + rewrite K3, H3, <- app_assoc. f_equal. unfold system_texts. cbn [omap list_omap].
      by destruct (msg_role m).
Qed.

(** A conversation is translated without loss into the form the service
    accepts.  The messages of the request are never empty, are the user's or
    the assistant's, and no two in a row are of the same role; their blocks
    are the blocks of the conversation's messages, in order; and the system
    text is the prompt, unless it is blank, and every system message of the
    conversation, in order. *)
Theorem translated_conversation_alternates to_string_pretty prompt messages include_thinking :
  let '(system, translated) := messages_to_anthropic to_string_pretty prompt messages include_thinking in
  alternating translated
  /\ List.concat (List.map am_content translated)
     = conversation_blocks to_string_pretty include_thinking messages
  /\ let texts := match prompt with Some p => if is_blank p then [] else [p] | None => [] end
                  ++ system_texts to_string_pretty messages in
     system = match texts with [] => None | _ => Some (join (nl +:+ nl) texts) end.
Proof.
  unfold messages_to_anthropic.
  set (start := match prompt with Some p => if is_blank p then [] else [p] | None => [] end).
  pose proof (translate_messages to_string_pretty include_thinking messages start [] I) as H.
  destruct (fold_left _ messages (start, [])) as [system translated]. by destruct H as (H1 & H2 & ->).
Qed.

(** What the service is sent back of a block's thinking. *)
Definition replayed (block : Block) : list Value :=
  match block with
  | BThinking text fragments signature =>
      if is_empty (concat_str signature) then []
      else [thinking_block (text +:+ concat_str fragments) (concat_str signature)]
  | BRedacted data => [redacted_block data]
  | _ => []
  end.
Definition is_text_block (v : Value) : bool :=
  match get_str "type" v with Some t => String.eqb t "text" | None => false end.

Definition thinking_sent (to_string_pretty : Value -> string) (parts : list MessagePart) : list Value :=
  List.filter (fun v => negb (is_text_block v)) (message_to_anthropic_blocks to_string_pretty parts true).

Lemma thinking_sent_app to_string_pretty a b :
  thinking_sent to_string_pretty (a ++ b) = thinking_sent to_string_pretty a ++ thinking_sent to_string_pretty b.
Proof. unfold thinking_sent, message_to_anthropic_blocks. by rewrite flat_map_app, List.filter_app. Qed.

(** Merging fragments does not touch the thinking that is replayed. *)
Lemma thinking_sent_extend to_string_pretty parts more :
  thinking_sent to_string_pretty (extend_message_parts parts more)
  = thinking_sent to_string_pretty parts ++ thinking_sent to_string_pretty more.
Proof.
  revert parts. induction more as [|part more IH]; intros parts; [cbn; by rewrite app_nil_r|].
  change (extend_message_parts parts (part :: more)) with (extend_message_parts (push_message_part parts part) more).
  rewrite IH, (thinking_sent_app _ [part] more), app_assoc. f_equal.
  destruct (decide (parts = [])) as [->|Hne]; [done|]. destruct (exists_last Hne) as (init & p & ->).
  rewrite push_message_part_snoc, !thinking_sent_app, <- app_assoc. f_equal.
  destruct p as [?|? ? []| | | |], part as [?|? ? []| | | |]; cbn -[thinking_sent]; rewrite <- ?thinking_sent_app; try done.
  unfold coalesce_with, can_coalesce_with. by destruct (Bool.eqb _ _).
Qed.

(** Signed and redacted thinking goes back to the service as it came, block
    by block, after the message was merged and recorded. *)
Theorem signed_thinking_replayed to_string_pretty blocks :
  thinking_sent to_string_pretty (extend_message_parts [] (List.concat (List.map block_parts blocks)))
  = List.concat (List.map replayed blocks).
Proof.
  rewrite thinking_sent_extend. change (thinking_sent to_string_pretty []) with ([] : list Value). cbn [app].
  induction blocks as [|block blocks IH]; [done|]. cbn [List.map List.concat]. rewrite thinking_sent_app, IH. f_equal.
  destruct block as [text fragments|text fragments signature|data|]; cbn [block_parts replayed]; try done.
  - by destruct (is_empty text && bool_decide (fragments = [])).
  - rewrite thinking_sent_app. destruct (is_empty text && bool_decide (fragments = [])), (is_empty (concat_str signature)); done.
Qed.
