(* ===== verification/OpenAi.v ===== *)
(** * The OpenAI-compatible provider ([bt-providers/src/openai.rs],
    [openai/request.rs])

    The request built from a conversation, the chunks read from the events of
    a streamed answer, and the capture of structured output.  The HTTP
    exchange and the JSON form of the request, derived from its record, are
    left out.  The reader of an event accepts objects only: [serde] would also
    take the fields of a structure as an array, which no service sends. *)

From stdpp Require Import base list strings gmap sorting.
From Stdlib Require Import ZArith Lia.
From S2P Require Import Prelude Text Utf8 Json Types Messages AgentStream ContextPrompt Sse ProviderStream.

#[local] Open Scope Z_scope.

(** ** The events *)

Record OpenAiToolCallFunctionDelta : Type := MkFunctionDelta {
  fd_name : option string;
  fd_arguments : option string;
}.

Record OpenAiToolCallDelta : Type := MkToolCallDelta {
  td_index : Z;
  td_id : option string;
  td_function : option OpenAiToolCallFunctionDelta;
}.

Record OpenAiStreamDelta : Type := MkStreamDelta {
  sd_content : option string;
  sd_refusal : option string;
  sd_reasoning : option string;
  sd_reasoning_content : option string;
  sd_tool_calls : option (list OpenAiToolCallDelta);
}.
Definition stream_delta_default : OpenAiStreamDelta := MkStreamDelta None None None None None.

Record OpenAiStreamChoice : Type := MkStreamChoice {
  sc_delta : OpenAiStreamDelta;
  sc_finish_reason : option string;
}.

Record OpenAiUsage : Type := MkOpenAiUsage {
  ou_prompt_tokens : Z;
  ou_completion_tokens : Z;
  ou_total_tokens : Z;
  ou_cached_tokens : option (option Z);     (* prompt_tokens_details *)
  ou_reasoning_tokens : option (option Z);  (* completion_tokens_details *)
}.

Record OpenAiStreamResponse : Type := MkStreamResponse {
  sr_choices : list OpenAiStreamChoice;
  sr_usage : option OpenAiUsage;
}.

(** *** The derived readers *)

(** A field of type [Option], and one with [serde(default)]. *)
Definition opt_field {A} (key : string) (read : Value -> option A) (v : Value) : option (option A) :=
  match value_get key v with
  | None | Some VNull => Some None
  | Some x => Some <$> read x
  end.
Definition default_field {A} (key : string) (read : Value -> option A) (otherwise : A) (v : Value) : option A :=
  match value_get key v with
  | None => Some otherwise
  | Some x => read x
  end.
Definition read_object (v : Value) : option unit := match v with VObject _ => Some tt | _ => None end.
Definition read_vec {A} (read : Value -> option A) (v : Value) : option (list A) :=
  items ← as_array v; mapM read items.

Definition read_function (v : Value) : option OpenAiToolCallFunctionDelta :=
  _ ← read_object v;
  name ← opt_field "name" as_str v;
  arguments ← opt_field "arguments" as_str v;
  Some (MkFunctionDelta name arguments).
Definition read_tool_call (v : Value) : option OpenAiToolCallDelta :=
  _ ← read_object v;
  index ← get_u64 "index" v;
  id ← opt_field "id" as_str v;
  function ← opt_field "function" read_function v;
  Some (MkToolCallDelta index id function).
Definition read_stream_delta (v : Value) : option OpenAiStreamDelta :=
  _ ← read_object v;
  content ← opt_field "content" as_str v;
  refusal ← opt_field "refusal" as_str v;
  reasoning ← opt_field "reasoning" as_str v;
  reasoning_content ← opt_field "reasoning_content" as_str v;
  tool_calls ← opt_field "tool_calls" (read_vec read_tool_call) v;
  Some (MkStreamDelta content refusal reasoning reasoning_content tool_calls).
Definition read_choice (v : Value) : option OpenAiStreamChoice :=
  _ ← read_object v;
  delta ← default_field "delta" read_stream_delta stream_delta_default v;
  finish_reason ← opt_field "finish_reason" as_str v;
  Some (MkStreamChoice delta finish_reason).
Definition read_details (key : string) (v : Value) : option (option Z) :=
  _ ← read_object v; opt_field key as_u64 v.
Definition read_usage (v : Value) : option OpenAiUsage :=
  _ ← read_object v;
  prompt_tokens ← default_field "prompt_tokens" as_u64 0 v;
  completion_tokens ← default_field "completion_tokens" as_u64 0 v;
  total_tokens ← default_field "total_tokens" as_u64 0 v;
  cached ← opt_field "prompt_tokens_details" (read_details "cached_tokens") v;
  reasoning ← opt_field "completion_tokens_details" (read_details "reasoning_tokens") v;
  Some (MkOpenAiUsage prompt_tokens completion_tokens total_tokens cached reasoning).
Definition read_stream_response (v : Value) : option OpenAiStreamResponse :=
  _ ← read_object v;
  choices ← default_field "choices" (read_vec read_choice) [] v;
  usage ← opt_field "usage" read_usage v;
  Some (MkStreamResponse choices usage).

(** [token_usage_from_openai]; the sum wraps as in a release build. *)
Definition token_usage_from_openai (usage : OpenAiUsage) : TokenUsage :=
  {| tu_prompt_tokens := ou_prompt_tokens usage;
     tu_completion_tokens := ou_completion_tokens usage;
     tu_total_tokens := if 0 <? ou_total_tokens usage then ou_total_tokens usage
                        else u64_add (ou_prompt_tokens usage) (ou_completion_tokens usage);
     tu_cache_read_tokens := details ← ou_cached_tokens usage; details;
     tu_cache_write_tokens := None;
     tu_reasoning_tokens := details ← ou_reasoning_tokens usage; details |}.

(** ** Tool calls, streamed by index *)

Record ToolCallAccumulator : Type := MkToolCallAccumulator {
  ta_id : option string;
  ta_name : option string;
  ta_opened : bool;
  ta_buffered_arguments : list string;
  ta_source_raw : option Value;
}.
Definition accumulator_default : ToolCallAccumulator := MkToolCallAccumulator None None false [] None.

(** [maybe_emit_tool_call_open] *)
Definition maybe_emit_tool_call_open (a : ToolCallAccumulator) : list CompletionDelta * ToolCallAccumulator :=
  if ta_opened a then ([], a)
  else match ta_id a, ta_name a with
       | Some call_id, Some tool_name =>
           (OpenToolCall call_id tool_name None
            :: List.map (AppendToolCallArguments call_id) (ta_buffered_arguments a),
            MkToolCallAccumulator (ta_id a) (ta_name a) true [] (ta_source_raw a))
       | _, _ => ([], a)
       end.

(** The part of [apply_tool_call_delta] on the accumulator of the index. *)
Definition push_arguments (arguments : option string) (a : ToolCallAccumulator)
    : list CompletionDelta * ToolCallAccumulator :=
  match arguments with
  | None => ([], a)
  | Some arguments =>
      if ta_opened a
      then (match ta_id a with Some call_id => [AppendToolCallArguments call_id arguments] | None => [] end, a)
      else ([], MkToolCallAccumulator (ta_id a) (ta_name a) (ta_opened a)
                  (ta_buffered_arguments a ++ [arguments]) (ta_source_raw a))
  end.
Definition or_else {A} (new old : option A) : option A := match new with Some _ => new | None => old end.
Definition update_accumulator (delta : OpenAiToolCallDelta) (raw_json : Value) (a : ToolCallAccumulator)
    : list CompletionDelta * ToolCallAccumulator :=
  let a := MkToolCallAccumulator (or_else (td_id delta) (ta_id a)) (ta_name a) (ta_opened a)
             (ta_buffered_arguments a) (Some raw_json) in
  let '(emitted, a) :=
    match td_function delta with
    | None => ([], a)
    | Some function =>
        let a := MkToolCallAccumulator (ta_id a) (or_else (fd_name function) (ta_name a)) (ta_opened a)
                   (ta_buffered_arguments a) (ta_source_raw a) in
        let '(opening, a) := maybe_emit_tool_call_open a in
        let '(appended, a) := push_arguments (fd_arguments function) a in
        (opening ++ appended, a)
    end in
  let '(opening, a) := maybe_emit_tool_call_open a in
  (emitted ++ opening, a).

(** [apply_tool_call_delta]: the accumulators reach up to the index. *)
Definition grow_to (index : nat) (accumulators : list ToolCallAccumulator) : list ToolCallAccumulator :=
  accumulators ++ replicate (S index - length accumulators) accumulator_default.
Definition apply_tool_call_delta (accumulators : list ToolCallAccumulator) (delta : OpenAiToolCallDelta)
    (raw_json : Value) : list CompletionDelta * list ToolCallAccumulator :=
  let index := Z.to_nat (td_index delta) in
  let accumulators := grow_to index accumulators in
  let '(emitted, a) :=
    update_accumulator delta raw_json (default accumulator_default (accumulators !! index)) in
  (emitted, <[index := a]> accumulators).

(** [flush_tool_calls] *)
Definition flush_accumulator (a : ToolCallAccumulator) : list CompletionChunk :=
  match ta_id a, ta_name a with
  | Some id, Some name =>
      [MkCompletionChunk None
         ((if ta_opened a then [] else [OpenToolCall id name None])
          ++ List.map (AppendToolCallArguments id) (ta_buffered_arguments a) ++ [CloseToolCall id])
         None (ta_source_raw a)]
  | _, _ => []
  end.
Definition flush_tool_calls (accumulators : list ToolCallAccumulator) : list CompletionChunk :=
  List.flat_map flush_accumulator accumulators.

(** ** Structured output *)

Record StructuredOutputAccumulator : Type := MkStructured {
  so_name : option string;
  so_buffered_text : string;
  so_saw_refusal : bool;
  so_raw_evidence : list Value;
}.
(** [StructuredOutputAccumulator::new] *)
Definition structured_new (spec : StructuredOutputSpec) : StructuredOutputAccumulator :=
  MkStructured (so_schema_name spec) "" false [].

(** The loop of [capture_structured_output_chunk]: what is buffered, whether
    text was captured, and the deltas that remain. *)
Fixpoint capture_deltas (deltas : list CompletionDelta) (acc : StructuredOutputAccumulator)
    : StructuredOutputAccumulator * bool * list CompletionDelta :=
  match deltas with
  | [] => (acc, false, [])
  | AppendText text :: deltas =>
      let '(acc, _, rest) := capture_deltas deltas
        (MkStructured (so_name acc) (so_buffered_text acc +:+ text) (so_saw_refusal acc) (so_raw_evidence acc)) in
      (acc, true, rest)
  | (AppendRefusal _ _ _ as delta) :: deltas =>
      let '(acc, captured, rest) := capture_deltas deltas
        (MkStructured (so_name acc) (so_buffered_text acc) true (so_raw_evidence acc)) in
      (acc, captured, delta :: rest)
  | delta :: deltas =>
      let '(acc, captured, rest) := capture_deltas deltas acc in (acc, captured, delta :: rest)
  end.

(** [capture_structured_output_chunk] *)
Definition capture_structured_output_chunk (chunk : CompletionChunk) (acc : StructuredOutputAccumulator)
    : option CompletionChunk * StructuredOutputAccumulator :=
  let '(acc, captured_text, filtered_deltas) := capture_deltas (ck_deltas chunk) acc in
  let acc := match ck_raw chunk with
             | Some raw => if captured_text
                           then MkStructured (so_name acc) (so_buffered_text acc) (so_saw_refusal acc)
                                  (so_raw_evidence acc ++ [raw])
                           else acc
             | None => acc
             end in
  let chunk := MkCompletionChunk (ck_llm_call_ordinal chunk) filtered_deltas (ck_usage chunk) (ck_raw chunk) in
  (match filtered_deltas, ck_usage chunk, ck_raw chunk with
   | [], None, None => None
   | _, _, _ => Some chunk
   end, acc).

Section openai.
(** [serde_json::from_str], [Value::to_string] *)
Context (from_str : string -> option Value) (value_to_string : Value -> string).

(** [StructuredOutputAccumulator::finish] *)
Definition structured_finish (acc : StructuredOutputAccumulator) : Result (option CompletionChunk) :=
  if so_saw_refusal acc || is_blank (so_buffered_text acc) then Ok None
  else match from_str (so_buffered_text acc) with
       | None => Err (Provider "structured output did not parse as JSON")
       | Some value =>
           Ok (Some (MkCompletionChunk None [SetStructuredOutput (so_name acc) value] None
                       (last (so_raw_evidence acc))))
       end.

(** ** The events of an answer *)

Definition text_of_choice (text : option string) : option string :=
  text ← text; if is_empty text then None else Some text.
Definition one_chunk (delta : option CompletionDelta) : list CompletionChunk :=
  match delta with Some delta => [chunk_of [delta]] | None => [] end.

Fixpoint apply_tool_call_deltas (accumulators : list ToolCallAccumulator) (deltas : list OpenAiToolCallDelta)
    (raw_json : Value) : list CompletionDelta * list ToolCallAccumulator :=
  match deltas with
  | [] => ([], accumulators)
  | delta :: deltas =>
      let '(emitted, accumulators) := apply_tool_call_delta accumulators delta raw_json in
      let '(more, accumulators) := apply_tool_call_deltas accumulators deltas raw_json in
      (emitted ++ more, accumulators)
  end.

(** The body of the loop over the choices. *)
Definition choice_chunks (accumulators : list ToolCallAccumulator) (choice : OpenAiStreamChoice) (raw_json : Value)
    : list CompletionChunk * list ToolCallAccumulator :=
  let delta := sc_delta choice in
  let reasoning := match text_of_choice (sd_reasoning delta) with
                   | Some text => Some text
                   | None => text_of_choice (sd_reasoning_content delta)
                   end in
  let '(emitted, accumulators) :=
    apply_tool_call_deltas accumulators (default [] (sd_tool_calls delta)) raw_json in
  (one_chunk ((fun text => AppendReasoning (Some text) false None) <$> reasoning)
   ++ one_chunk (AppendText <$> text_of_choice (sd_content delta))
   ++ one_chunk ((fun text => AppendRefusal (Some text) (Some "refusal") None) <$> text_of_choice (sd_refusal delta))
   ++ List.map (fun delta => chunk_of [delta]) emitted, accumulators).
Fixpoint choices_chunks (accumulators : list ToolCallAccumulator) (choices : list OpenAiStreamChoice)
    (raw_json : Value) : list CompletionChunk * list ToolCallAccumulator :=
  match choices with
  | [] => ([], accumulators)
  | choice :: choices =>
      let '(chunks, accumulators) := choice_chunks accumulators choice raw_json in
      let '(more, accumulators) := choices_chunks accumulators choices raw_json in
      (chunks ++ more, accumulators)
  end.

Definition finishes_tool_calls (choice : OpenAiStreamChoice) : bool :=
  match sc_finish_reason choice with Some reason => String.eqb reason "tool_calls" | None => false end.

(** What an event that parsed yields. *)
Definition response_chunks (accumulators : list ToolCallAccumulator) (parsed : OpenAiStreamResponse)
    (raw_json : Value) : list CompletionChunk * list ToolCallAccumulator :=
  let '(chunks, accumulators) := choices_chunks accumulators (sr_choices parsed) raw_json in
  let '(flushed, accumulators) :=
    if existsb finishes_tool_calls (sr_choices parsed)
    then (attach_raw_to_all (flush_tool_calls accumulators) raw_json, [])
    else ([], accumulators) in
  let chunks := chunks ++ flushed
                ++ match sr_usage parsed with
                   | Some usage => [usage_chunk (token_usage_from_openai usage)]
                   | None => []
                   end in
  (attach_raw_to_all match chunks with [] => [chunk_of []] | _ => chunks end raw_json, accumulators).

(** [completion_chunks_from_sse_event] *)
Definition openai_chunks_from_sse_event (data : string) (accumulators : list ToolCallAccumulator)
    : Result (list CompletionChunk * list ToolCallAccumulator) :=
  if String.eqb (trim data) "[DONE]"
  then Ok (attach_raw_to_all (flush_tool_calls accumulators) (VString "[DONE]"), [])
  else
    raw_json ← ok_or (JsonError "") (from_str data);
    parsed ← ok_or (JsonError "") (read_stream_response raw_json);
    Ok (response_chunks accumulators parsed raw_json).

(** ** The stream *)

Record OpenAiState : Type := MkOpenAiState {
  os_tool_calls : list ToolCallAccumulator;
  os_structured : option StructuredOutputAccumulator;
}.

(** The chunks of an event, after the capture. *)
Fixpoint capture_chunks (chunks : list CompletionChunk) (acc : StructuredOutputAccumulator)
    : list CompletionChunk * StructuredOutputAccumulator :=
  match chunks with
  | [] => ([], acc)
  | chunk :: chunks =>
      let '(output, acc) := capture_structured_output_chunk chunk acc in
      let '(more, acc) := capture_chunks chunks acc in
      (match output with Some output => [output] | None => [] end ++ more, acc)
  end.

Definition openai_event (event : SseEvent) (state : OpenAiState) : list CompletionChunk * Result OpenAiState :=
  match openai_chunks_from_sse_event (sse_data event) (os_tool_calls state) with
  | Err e => ([], Err e)
  | Ok (chunks, tool_calls) =>
      match os_structured state with
      | None => (chunks, Ok (MkOpenAiState tool_calls None))
      | Some acc => let '(chunks, acc) := capture_chunks chunks acc in
                    (chunks, Ok (MkOpenAiState tool_calls (Some acc)))
      end
  end.

Definition openai_finish (state : OpenAiState) : list CompletionChunk * Result unit :=
  let flushed := flush_tool_calls (os_tool_calls state) in
  match os_structured state with
  | None => (flushed, Ok tt)
  | Some acc =>
      match structured_finish acc with
      | Err e => (flushed, Err e)
      | Ok output => (flushed ++ match output with Some output => [output] | None => [] end, Ok tt)
      end
  end.

Definition openai_start (structured_output : option StructuredOutputSpec) : OpenAiState :=
  MkOpenAiState [] (structured_new <$> structured_output).

(** The stream of [stream_completion]. *)
Definition openai_stream (structured_output : option StructuredOutputSpec) (arrivals : list (Result string))
    : list CompletionChunk * Result unit :=
  run_stream openai_event openai_finish "" (openai_start structured_output) arrivals.

(** ** The request *)

Record OpenAiMessageToolCall : Type := MkOpenAiMessageToolCall {
  mt_id : string;
  mt_kind : string;
  mt_name : string;
  mt_arguments : string;
}.

Record OpenAiMessage : Type := MkOpenAiMessage {
  om_role : string;
  om_content : option Value;
  om_tool_calls : option (list OpenAiMessageToolCall);
  om_tool_call_id : option string;
}.

Record OpenAiTool : Type := MkOpenAiTool {
  ot_kind : string;
  ot_name : string;
  ot_description : string;
  ot_parameters : Value;
}.

Record OpenAiResponseFormat : Type := MkOpenAiResponseFormat {
  rf_kind : string;
  rf_name : string;
  rf_schema : Value;
  rf_strict : bool;
}.

Record OpenAiChatRequest : Type := MkOpenAiChatRequest {
  oq_model : string;
  oq_messages : list OpenAiMessage;
  oq_stream : bool;
  oq_include_usage : option bool;  (* stream_options *)
  oq_max_tokens : option Z;
  oq_max_completion_tokens : option Z;
  oq_temperature : option f64;
  oq_tool_choice : option string;
  oq_tools : option (list OpenAiTool);
  oq_response_format : option OpenAiResponseFormat;
  oq_reasoning_effort : option ThinkingEffort;
}.

(** [stringify_openai_message_value] *)
Definition stringify_message_value (value : Value) : string :=
  match value with VString text => text | _ => value_to_string value end.

(** [render_message_text_for_openai] *)
Definition render_part_text (part : MessagePart) : option string :=
  match part with
  | PText text => Some text
  | PToolResult result => Some (stringify_message_value (tr_output result))
  | PRefusal (Some text) _ _ => Some text
  | PStructured _ value => Some (stringify_message_value value)
  | PReasoning _ _ _ | PToolCall _ | PRefusal None _ _ => None
  end.
Definition render_message_text (parts : list MessagePart) : string := join "" (omap render_part_text parts).

Definition openai_role (role : Role) : string :=
  match role with
  | RoleSystem => "system"
  | RoleUser => "user"
  | RoleAssistant => "assistant"
  | RoleTool => "tool"
  end.

Definition message_tool_call (part : MessagePart) : option OpenAiMessageToolCall :=
  match part with
  | PToolCall call =>
      Some (MkOpenAiMessageToolCall (tc_call_id call) "function" (tc_tool_name call)
              (stringify_message_value (tc_arguments call)))
  | _ => None
  end.

(** [message_to_openai]: content that is empty is sent as an empty string. *)
Definition message_to_openai (message : Message) : OpenAiMessage :=
  let tool_calls := omap message_tool_call (msg_parts message) in
  {| om_role := openai_role (msg_role message);
     om_content := Some (VString (render_message_text (msg_parts message)));
     om_tool_calls := match tool_calls with [] => None | _ => Some tool_calls end;
     om_tool_call_id := (fun result => call_name (tr_call_id result)) <$> tool_result message |}.

(** [uses_openai_reasoning_token_budget], [uses_openai_stream_usage],
    [supports_structured_output] *)
Definition uses_openai_reasoning_token_budget (provider_id model : string) : bool :=
  String.eqb provider_id "openai" && openai_reasoning_family model.
Definition uses_openai_stream_usage (provider_id : string) : bool := String.eqb provider_id "openai".
Definition supports_structured_output (provider_id : string) : bool := String.eqb provider_id "openai".

(** [openai_reasoning_effort] *)
Definition openai_reasoning_effort (provider_id model : string) (thinking : option ThinkingConfig)
    : option ThinkingEffort :=
  if negb (uses_openai_reasoning_token_budget provider_id model) then None
  else thinking ← thinking;
       if negb (th_enabled thinking) then None
       else Some (clamp_openai_chat_reasoning_effort (default EffortHigh (th_effort thinking))).

(** [structured_output_response_format] *)
Definition structured_output_response_format (provider_id : string)
    (structured_output : option StructuredOutputSpec) : option OpenAiResponseFormat :=
  if negb (supports_structured_output provider_id) then None
  else (fun spec => MkOpenAiResponseFormat "json_schema"
                      (default "belltower_structured_output" (so_schema_name spec)) (so_schema spec) true)
       <$> structured_output.

Definition tool_spec_to_openai (spec : ToolSpec) : OpenAiTool :=
  MkOpenAiTool "function" (ts_name spec) (ts_description spec) (ts_parameters_schema spec).

(** [build_chat_request] *)
Definition build_chat_request (provider_id : string) (request : CompletionRequest) : OpenAiChatRequest :=
  let system := match cr_system_prompt request with
                | Some prompt => if is_blank prompt then [] else [MkOpenAiMessage "system" (Some (VString prompt)) None None]
                | None => []
                end in
  let budget := uses_openai_reasoning_token_budget provider_id (cr_model request) in
  {| oq_model := cr_model request;
     oq_messages := system ++ List.map message_to_openai (cr_messages request);
     oq_stream := true;
     oq_include_usage := if uses_openai_stream_usage provider_id then Some true else None;
     oq_max_tokens := if budget then None else cr_max_tokens request;
     oq_max_completion_tokens := if budget then cr_max_tokens request else None;
     oq_temperature := cr_temperature request;
     oq_tool_choice := match cr_tools request with [] => None | _ => Some "auto" end;
     oq_tools := match cr_tools request with [] => None | tools => Some (List.map tool_spec_to_openai tools) end;
     oq_response_format := structured_output_response_format provider_id (cr_structured_output request);
     oq_reasoning_effort := openai_reasoning_effort provider_id (cr_model request) (cr_thinking request) |}.

(** The start of [stream_completion]: what is refused before anything is
    sent. *)
Definition openai_request (provider_id : string) (request : CompletionRequest) : Result OpenAiChatRequest :=
  _ ← reject_if (is_some (cr_structured_output request) && negb (supports_structured_output provider_id))
        (Unsupported ("structured output is not supported for provider `" +:+ provider_id +:+ "`"));
  _ ← reject_if (is_some (cr_structured_output request)
                 && match cr_tools request with [] => false | _ => true end)
        (Unsupported "structured output is not supported together with tool calling yet");
  Ok (build_chat_request provider_id request).
End openai.

(** [parse_openai_model_ids] *)
Definition parse_openai_model_ids (payload : Value) : list string :=
  omap (get_str "id") (default [] (data ← value_get "data" payload; as_array data)).
