(* ===== verification/OpenAiLaws.v ===== *)
(** * What a stream of the OpenAI-compatible provider means

    The tool calls that a service streams side by side, by index, with ids
    and names that come when they come, are collected whole; the stream is
    collected as the text, the reasoning and the calls it says; and
    structured output is one value, parsed from the whole text. *)

From stdpp Require Import base list strings gmap sorting.
From Stdlib Require Import ZArith Lia.
From S2P Require Import Prelude Text Utf8 Json Types Messages AgentStream ContextPrompt Sse ProviderStream StreamedCalls OpenAi.

#[local] Open Scope Z_scope.

(** ** The calls a sequence of deltas says *)

Record StreamedCall : Type := MkStreamedCall {
  st_id : option string;
  st_name : option string;
  st_arguments : string;
}.
Definition streamed_none : StreamedCall := MkStreamedCall None None "".

Definition delta_name (delta : OpenAiToolCallDelta) : option string := function ← td_function delta; fd_name function.
Definition delta_arguments (delta : OpenAiToolCallDelta) : string :=
  default "" (function ← td_function delta; fd_arguments function).
Definition delta_index (delta : OpenAiToolCallDelta) : nat := Z.to_nat (td_index delta).

Definition grow {A} (d : A) (index : nat) (l : list A) : list A := l ++ replicate (S index - length l) d.
Definition say (delta : OpenAiToolCallDelta) (call : StreamedCall) : StreamedCall :=
  MkStreamedCall (or_else (td_id delta) (st_id call)) (or_else (delta_name delta) (st_name call))
    (st_arguments call +:+ delta_arguments delta).
Definition say_delta (calls : list StreamedCall) (delta : OpenAiToolCallDelta) : list StreamedCall :=
  let calls := grow streamed_none (delta_index delta) calls in
  <[delta_index delta := say delta (default streamed_none (calls !! delta_index delta))]> calls.
Definition streamed_calls (deltas : list OpenAiToolCallDelta) : list StreamedCall := fold_left say_delta deltas [].

(** A call that has an id and a name, as the collector has it open. *)
Definition open_of (call : StreamedCall) : option StreamingToolCallAccumulator :=
  match st_id call, st_name call with
  | Some id, Some name => Some (MkAccumulator id name None (st_arguments call))
  | _, _ => None
  end.

(** A service that streams calls well: an id or a name that is sent again is
    the same, and no id is sent for two indices. *)
Definition delta_ok (calls : list StreamedCall) (delta : OpenAiToolCallDelta) : Prop :=
  let call := default streamed_none (calls !! delta_index delta) in
  (forall id, td_id delta = Some id ->
     (st_id call = None \/ st_id call = Some id)
     /\ forall j other, calls !! j = Some other -> st_id other = Some id -> j = delta_index delta)
  /\ (forall name, delta_name delta = Some name -> st_name call = None \/ st_name call = Some name).

(** No two indices have one id. *)
Definition distinct (calls : list StreamedCall) : Prop :=
  forall i j c d id, calls !! i = Some c -> calls !! j = Some d -> st_id c = Some id -> st_id d = Some id -> i = j.

(** ** The simulation *)

Section simulation.
Context (from_str : string -> option Value).

Definition ready (call : StreamedCall) : bool := is_some (open_of call).

Definition acc_of (call : StreamedCall) (a : ToolCallAccumulator) : Prop :=
  ta_id a = st_id call /\ ta_name a = st_name call /\ ta_opened a = ready call
  /\ concat_str (ta_buffered_arguments a) = (if ready call then "" else st_arguments call).

Record related (calls : list StreamedCall) (accs : list ToolCallAccumulator) (st : CollectState) : Prop := {
  rel_accs : Forall2 acc_of calls accs;
  rel_distinct : distinct calls;
  rel_open : co_open_tool_calls st ≡ₚ omap open_of calls;
}.

Lemma open_of_id call a : open_of call = Some a -> st_id call = Some (acc_call_id a).
Proof. unfold open_of. destruct (st_id call), (st_name call); intros [= <-]; done. Qed.

Lemma distinct_NoDup calls : distinct calls -> NoDup (omap st_id calls).
Proof.
  induction calls as [|call calls IH]; intros H; simpl; [apply NoDup_nil_2|].
  assert (NoDup (omap st_id calls)) as Hrest.
  { apply IH. intros i j c d id Hi Hj Hc Hd. by injection (H (S i) (S j) c d id Hi Hj Hc Hd). }
  destruct (st_id call) as [id|] eqn:E; [|done]. apply NoDup_cons. split; [|done].
  intros (c & Hc & Hid)%list_elem_of_omap. apply list_elem_of_lookup in Hc as (j & Hj).
  by specialize (H 0%nat (S j) call c id eq_refl Hj E Hid).
Qed.

Lemma open_ids_of calls : open_ids (omap open_of calls) `sublist_of` omap st_id calls.
Proof.
  induction calls as [|call calls IH]; simpl; [constructor|].
  destruct (open_of call) as [a|] eqn:E.
  - rewrite (open_of_id _ _ E). simpl. by constructor.
  - destruct (st_id call); [by constructor|done].
Qed.

Lemma related_NoDup calls accs st : related calls accs st -> NoDup (open_ids (co_open_tool_calls st)).
Proof.
  intros [_ Hs Ho]. unfold open_ids. rewrite Ho. eapply sublist_NoDup; [|apply open_ids_of]. by apply distinct_NoDup.
Qed.

Lemma omap_none n : omap open_of (replicate n streamed_none) = [].
Proof. by induction n. Qed.

(** Growing the lists adds nothing that is open. *)
Lemma related_grow index calls accs st :
  related calls accs st -> related (grow streamed_none index calls) (grow_to index accs) st.
Proof.
  intros [Ha Hs Ho]. unfold grow, grow_to. rewrite (Forall2_length _ _ _ Ha). constructor.
  - apply Forall2_app; [done|]. apply Forall2_replicate. done.
  - assert (forall i c id, (calls ++ replicate (S index - length accs) streamed_none) !! i = Some c ->
      st_id c = Some id -> calls !! i = Some c) as Hin.
    { intros i c id [Hi|[_ Hi]]%lookup_app_Some Hc; [done|]. by apply lookup_replicate in Hi as [-> _]. }
    intros i j c d id Hi Hj Hc Hd. eapply Hs; eauto.
  - by rewrite omap_app, omap_none, app_nil_r.
Qed.

Lemma omap_insert calls i call call' :
  calls !! i = Some call ->
  exists rest, omap open_of calls ≡ₚ option_list (open_of call) ++ rest
    /\ omap open_of (<[i := call']> calls) ≡ₚ option_list (open_of call') ++ rest.
Proof.
  intros Hi. exists (omap open_of (take i calls ++ drop (S i) calls)).
  assert (forall c, omap open_of (take i calls ++ c :: drop (S i) calls)
    ≡ₚ option_list (open_of c) ++ omap open_of (take i calls ++ drop (S i) calls)) as H.
  { intros c. rewrite !omap_app. simpl. destruct (open_of c); simpl; [by rewrite Permutation_middle|done]. }
  split.
  - rewrite <- (take_drop_middle _ _ _ Hi) at 1. apply H.
  - rewrite insert_take_drop by (by apply lookup_lt_Some in Hi). apply H.
Qed.
(** An id or a name that is known stays. *)
Definition keeps (delta : OpenAiToolCallDelta) (call : StreamedCall) : Prop :=
  forall id name, st_id call = Some id -> st_name call = Some name ->
    or_else (td_id delta) (Some id) = Some id /\ or_else (delta_name delta) (Some name) = Some name.

(** What one delta makes an accumulator emit. *)
Definition emits (call call' : StreamedCall) (delta : OpenAiToolCallDelta) (emitted : list CompletionDelta) : Prop :=
  match open_of call, open_of call' with
  | Some a, _ => exists texts, emitted = List.map (AppendToolCallArguments (acc_call_id a)) texts
                   /\ concat_str texts = delta_arguments delta
  | None, Some a => exists texts,
      emitted = OpenToolCall (acc_call_id a) (acc_tool_name a) None
                :: List.map (AppendToolCallArguments (acc_call_id a)) texts
      /\ concat_str texts = st_arguments call'
  | None, None => emitted = []
  end.

(** The texts emitted are those that were buffered, with the new one, if
    any. *)
Ltac emitted_texts buffered :=
  rewrite ?app_nil_r;
  match goal with
  | |- exists texts, ([AppendToolCallArguments _ ?x] = _ /\ _) => exists [x]
  | |- exists texts, ([] = _ /\ _) => exists []
  | |- exists texts, (_ :: (_ ++ [AppendToolCallArguments _ ?x]) = _ /\ _) => exists (buffered ++ [x])
  | |- exists texts, (_ :: _ = _ /\ _) => exists buffered
  end;
  rewrite ?map_app, ?concat_str_app; cbn; rewrite ?append_nil_r.

Lemma update_emits call a delta raw :
  acc_of call a -> keeps delta call ->
  exists emitted a', update_accumulator delta raw a = (emitted, a')
    /\ acc_of (say delta call) a' /\ emits call (say delta call) delta emitted.
Proof.
  destruct call as [cid cname cargs], a as [aid aname opened buffered src].
  intros (E1 & E2 & E3 & E4) Hsame. cbn [ta_id ta_name ta_opened ta_buffered_arguments st_id st_name st_arguments] in *. subst.
  destruct delta as [ix did dfun]. unfold update_accumulator, say, emits, acc_of, open_of, ready, delta_name, delta_arguments in *.
  cbn [td_id td_function st_id st_name st_arguments ta_id ta_name ta_opened ta_buffered_arguments] in *.
  destruct cid as [cid|], cname as [cname|];
    [destruct (Hsame _ _ eq_refl eq_refl) as [Hi Hn]; clear Hsame; cbn in E4|..];
    destruct dfun as [[fname fargs]|]; try destruct fname as [fname|]; try destruct fargs as [fargs|];
    destruct did as [did|]; cbn in *; simplify_eq;
    (eexists _, _; split; [reflexivity|]); cbn; split_and!; try done;
    rewrite ?concat_str_app, ?E4, ?append_nil_r; cbn; rewrite ?append_nil_r; try done; by emitted_texts buffered.
Qed.

Lemma open_of_Some call a :
  open_of call = Some a ->
  a = MkAccumulator (acc_call_id a) (acc_tool_name a) None (st_arguments call)
  /\ st_id call = Some (acc_call_id a) /\ st_name call = Some (acc_tool_name a).
Proof. unfold open_of. destruct (st_id call), (st_name call); intros [= <-]; done. Qed.

Lemma say_open delta call a :
  keeps delta call -> open_of call = Some a ->
  open_of (say delta call)
  = Some (MkAccumulator (acc_call_id a) (acc_tool_name a) None (acc_partial_json a +:+ delta_arguments delta)).
Proof.
  intros Hk H. destruct (open_of_Some _ _ H) as (-> & Hid & Hname). destruct (Hk _ _ Hid Hname) as [H1 H2].
  unfold open_of, say. cbn [st_id st_name st_arguments]. rewrite Hid, Hname, H1, H2. done.
Qed.

Lemma emits_collected call call' delta emitted st rest :
  emits call call' delta emitted ->
  (forall a, open_of call = Some a -> open_of call'
     = Some (MkAccumulator (acc_call_id a) (acc_tool_name a) None (acc_partial_json a +:+ delta_arguments delta))) ->
  co_open_tool_calls st ≡ₚ option_list (open_of call) ++ rest -> NoDup (open_ids (co_open_tool_calls st)) ->
  NoDup (open_ids (option_list (open_of call') ++ rest)) ->
  exists open, apply_deltas from_str st emitted = Ok (set_open st open)
    /\ open ≡ₚ option_list (open_of call') ++ rest.
Proof.
  unfold emits. intros He Hsame Ho Hnd Hnd'. destruct (open_of call) as [a|] eqn:E.
  - specialize (Hsame a eq_refl). rewrite Hsame. destruct He as (texts & -> & <-).
    destruct (open_of_Some _ _ E) as (Ea & _). rewrite Ea in Ho. 
    destruct (append_all_to_call from_str texts st _ _ _ _ _ Ho Hnd) as (open & Hr & Hopen).
    exists open. split; [done|]. rewrite Hopen. by rewrite Ea.
  - clear Hsame. destruct (open_of call') as [b|] eqn:E'.
    + destruct He as (texts & -> & Et). destruct (open_of_Some _ _ E') as (Eb & _).
      cbn [option_list app] in *. unfold open_ids in Hnd'. cbn in Hnd'. apply NoDup_cons in Hnd' as [Hn _].
      cbn [apply_deltas]. rewrite open_fresh_call by (unfold open_ids; by rewrite Ho).
      cbn [mbind result_bind].
      set (st1 := set_open st _).
      assert (co_open_tool_calls st1 ≡ₚ MkAccumulator (acc_call_id b) (acc_tool_name b) None "" :: rest) as Ho1.
      { unfold st1. cbn [set_open co_open_tool_calls]. rewrite <- Permutation_cons_append. by constructor. }
      destruct (append_all_to_call from_str texts st1 _ _ _ _ _ Ho1) as (open & Hr & Hopen).
      { unfold open_ids. rewrite Ho1. cbn. apply NoDup_cons. split; [done|]. by rewrite <- Ho. }
      exists open. rewrite Hr. split; [done|]. rewrite Hopen. change ("" +:+ concat_str texts) with (concat_str texts).
      rewrite Et. by rewrite <- Eb.
    + subst emitted. exists (co_open_tool_calls st). split; [by destruct st|done].
Qed.

(** The calls that are not concerned. *)
Definition others (calls : list StreamedCall) (index : nat) : list StreamingToolCallAccumulator :=
  omap open_of (take index calls ++ drop (S index) calls).

Lemma omap_at calls i call :
  calls !! i = Some call -> omap open_of calls ≡ₚ option_list (open_of call) ++ others calls i.
Proof.
  intros Hi. destruct (omap_insert calls i call call Hi) as (rest & H1 & _). unfold others.
  rewrite <- (take_drop_middle _ _ _ Hi) at 1. rewrite !omap_app. simpl.
  destruct (open_of call); simpl; [by rewrite Permutation_middle|done].
Qed.

Lemma others_insert calls i call' :
  (i < length calls)%nat -> others (<[i := call']> calls) i = others calls i.
Proof.
  intros Hi. unfold others. rewrite insert_take_drop by done.
  rewrite take_app_length' by (rewrite length_take; lia).
  rewrite (cons_middle call'), app_assoc, drop_app_length' by (rewrite length_app, length_take; simpl; lia). done.
Qed.

Lemma distinct_say calls delta call :
  distinct calls -> delta_ok calls delta -> calls !! delta_index delta = Some call ->
  distinct (<[delta_index delta := say delta call]> calls).
Proof.
  intros Hd (Hid & _) Hcall. rewrite Hcall in Hid. cbn in Hid.
  assert (forall j d id, <[delta_index delta := say delta call]> calls !! j = Some d -> st_id d = Some id ->
    j <> delta_index delta -> calls !! j = Some d) as Hother
    by (intros j d id [(-> & _)|(_ & Hj)]%list_lookup_insert_Some; done).
  assert (forall j d id, <[delta_index delta := say delta call]> calls !! j = Some d ->
    st_id (say delta call) = Some id -> st_id d = Some id -> j = delta_index delta) as Hsame.
  { intros j d id Hj Hs Hdid. destruct (decide (j = delta_index delta)) as [|Hne]; [done|].
    pose proof (Hother _ _ _ Hj Hdid Hne) as Hj'. unfold say in Hs. cbn in Hs.
    destruct (td_id delta) as [did|]; cbn in Hs; [injection Hs as ->; by eapply Hid|by eapply Hd]. }
  intros i j c d id Hi Hj Hc Hdid.
  destruct (decide (i = delta_index delta)) as [->|Hni].
  - rewrite list_lookup_insert_eq in Hi by (by apply lookup_lt_Some in Hcall). injection Hi as <-.
    symmetry. by eapply Hsame.
  - destruct (decide (j = delta_index delta)) as [->|Hnj].
    + rewrite list_lookup_insert_eq in Hj by (by apply lookup_lt_Some in Hcall). injection Hj as <-. by eapply Hsame.
    + eapply Hd; eauto.
Qed.

Lemma delta_ok_grow calls delta : delta_ok calls delta -> delta_ok (grow streamed_none (delta_index delta) calls) delta.
Proof.
  unfold delta_ok, grow. intros (H1 & H2).
  assert (default streamed_none ((calls ++ replicate (S (delta_index delta) - length calls) streamed_none)
    !! delta_index delta) = default streamed_none (calls !! delta_index delta)) as ->.
  { destruct (calls !! delta_index delta) as [c|] eqn:E; [by rewrite (lookup_app_l_Some _ _ _ _ E)|].
    apply lookup_ge_None in E. rewrite lookup_app_r by done.
    rewrite lookup_replicate_2 by lia. done. }
  split; [|done]. intros id Hid. destruct (H1 id Hid) as [H3 H4]. split; [done|].
  intros j other [Hj|[_ Hj]]%lookup_app_Some Ho; [by eapply H4|]. by apply lookup_replicate in Hj as [-> _].
Qed.

Lemma delta_ok_keeps calls delta call :
  delta_ok calls delta -> calls !! delta_index delta = Some call -> keeps delta call.
Proof.
  intros (H1 & H2) Hc cid cname Hid Hname. rewrite Hc in H1, H2. cbn in H1, H2.
  split; [destruct (td_id delta) as [x|]; [destruct (H1 x eq_refl) as [Hx _]|]
         |destruct (delta_name delta) as [x|]; [pose proof (H2 x eq_refl) as Hx|]]; cbn; try done;
    destruct Hx; congruence.
Qed.

(** One delta keeps the collector in step. *)
Lemma related_step calls accs st delta raw :
  related calls accs st -> delta_ok calls delta ->
  exists emitted accs' open, apply_tool_call_delta accs delta raw = (emitted, accs')
    /\ apply_deltas from_str st emitted = Ok (set_open st open)
    /\ related (say_delta calls delta) accs' (set_open st open).
Proof.
  intros Hr0 Hok0. pose proof (related_grow (delta_index delta) _ _ _ Hr0) as Hr. apply delta_ok_grow in Hok0 as Hok.
  unfold apply_tool_call_delta, say_delta. fold (delta_index delta). clear Hr0 Hok0.
  set (index := delta_index delta) in *.
  set (calls1 := grow streamed_none index calls) in *. set (accs1 := grow_to index accs) in *.
  assert (index < length calls1)%nat as Hlt
    by (unfold calls1, grow; rewrite length_app, length_replicate; lia).
  destruct (lookup_lt_is_Some_2 _ _ Hlt) as [call Hcall].
  destruct (Forall2_lookup_l _ _ _ _ _ (rel_accs _ _ _ Hr) Hcall) as (a & Ha & Hac).
  rewrite Hcall, Ha. cbn [default from_option id].
  pose proof (delta_ok_keeps _ _ _ Hok Hcall) as Hk.
  destruct (update_emits call a delta raw Hac Hk) as (emitted & a' & Hu & Hac' & Hem). rewrite Hu.
  pose proof (distinct_say _ _ _ (rel_distinct _ _ _ Hr) Hok Hcall) as Hd'. fold index in Hd'.
  pose proof (omap_at (<[index := say delta call]> calls1) index (say delta call)
                (list_lookup_insert_eq _ _ _ Hlt)) as Hnew. rewrite others_insert in Hnew by done.
  assert (NoDup (open_ids (omap open_of (<[index := say delta call]> calls1)))) as Hnd
    by (eapply sublist_NoDup; [|apply open_ids_of]; by apply distinct_NoDup).
  unfold open_ids in Hnd. rewrite Hnew in Hnd.
  pose proof (rel_open _ _ _ Hr) as Hopen. rewrite (omap_at _ _ _ Hcall) in Hopen.
  destruct (emits_collected call (say delta call) delta emitted st (others calls1 index)) as (open & E & Ho); try done.
  - intros b. by apply say_open.
  - by eapply related_NoDup.
  - exists emitted, (<[index := a']> accs1), open. split_and!; [done..|]. constructor; [|done|].
    + apply Forall2_insert; [apply Hr|done].
    + cbn [set_open co_open_tool_calls]. by rewrite Ho, <- Hnew.
Qed.

(** ** The end of the calls *)

(** The calls that have an id and a name, finalised. *)
Definition finished_call (call : StreamedCall) : option CompletedToolCall :=
  a ← open_of call; match finalize_tool_call from_str a with Ok done_call => Some done_call | Err _ => None end.
Definition finished_calls (calls : list StreamedCall) : list CompletedToolCall := omap finished_call calls.

Definition named (call : StreamedCall) : Prop :=
  (forall id, st_id call = Some id -> is_blank id = false)
  /\ (forall name, st_name call = Some name -> is_blank name = false).

Lemma flush_one call a st rest :
  acc_of call a -> named call -> co_open_tool_calls st ≡ₚ option_list (open_of call) ++ rest ->
  NoDup (open_ids (co_open_tool_calls st)) ->
  exists open, apply_deltas from_str st (deltas_of (flush_accumulator a))
      = Ok (with_calls st (option_list (finished_call call)) open)
    /\ open ≡ₚ rest.
Proof.
  intros (E1 & E2 & E3 & E4) [Hi Hn] Ho Hnd. unfold flush_accumulator, finished_call, ready in *.
  rewrite E1, E2, E3. unfold open_of in *.
  destruct (st_id call) as [cid|]; [destruct (st_name call) as [cname|]|]; cbn [option_list app is_some] in *;
    try (exists (co_open_tool_calls st); split; [|done]; cbn; unfold with_calls; rewrite app_nil_r; by destruct st).
  destruct (finalize_named from_str (MkAccumulator cid cname None (st_arguments call)) (Hi _ eq_refl) (Hn _ eq_refl))
    as [done_call Hf].
  cbn [mbind option_bind]. rewrite Hf. unfold deltas_of. cbn [List.map List.concat ck_deltas]. rewrite app_nil_r. cbn [app].
  destruct (append_all_to_call from_str (ta_buffered_arguments a) st _ _ _ _ _ Ho Hnd) as (open1 & R1 & P1).
  rewrite apply_deltas_app, R1. cbn [mbind result_bind]. rewrite E4, append_nil_r in P1.
  destruct (close_call from_str (set_open st open1) (MkAccumulator cid cname None (st_arguments call)) rest done_call)
    as (open2 & R2 & P2); [done| |done|].
  - cbn [set_open co_open_tool_calls]. unfold open_ids in *. by rewrite P1, <- Ho.
  - exists open2. split; [|done]. cbn [acc_call_id] in R2. cbn [apply_deltas]. by rewrite R2.
Qed.

Lemma deltas_of_flat_map {A} (f : A -> list CompletionChunk) l :
  deltas_of (List.flat_map f l) = List.flat_map (fun a => deltas_of (f a)) l.
Proof. induction l as [|a l IH]; simpl; [done|]. by rewrite deltas_of_app, IH. Qed.

Lemma flush_all_collected calls accs st :
  Forall2 acc_of calls accs -> Forall named calls -> co_open_tool_calls st ≡ₚ omap open_of calls ->
  NoDup (open_ids (co_open_tool_calls st)) ->
  apply_deltas from_str st (deltas_of (flush_tool_calls accs)) = Ok (with_calls st (finished_calls calls) []).
Proof.
  unfold flush_tool_calls. intros Ha. revert st. induction Ha as [|call a calls accs Hca _ IH]; intros st Hn Ho Hnd.
  { simpl in *. apply Permutation_nil_r in Ho. unfold with_calls. rewrite <- Ho, app_nil_r. by destruct st. }
  apply Forall_cons in Hn as [Hnc Hn]. cbn [flat_map]. rewrite deltas_of_app, apply_deltas_app.
  assert (co_open_tool_calls st ≡ₚ option_list (open_of call) ++ omap open_of calls) as Ho'
    by (rewrite Ho; simpl; by destruct (open_of call)).
  destruct (flush_one call a st (omap open_of calls) Hca Hnc Ho' Hnd) as (open & R & P). rewrite R.
  cbn [mbind result_bind]. rewrite IH; [|done|done|].
  - rewrite with_calls_app. do 2 f_equal. unfold finished_calls. simpl. by destruct (finished_call call).
  - cbn [with_calls co_open_tool_calls]. unfold open_ids in *. rewrite P. rewrite Ho' in Hnd.
    rewrite map_app in Hnd. by apply NoDup_app in Hnd as (_ & _ & ?).
Qed.

Lemma related_start st : co_open_tool_calls st = [] -> related [] [] st.
Proof. intros H. constructor; [by constructor|by intros i j c d id Hi|by rewrite H]. Qed.

(** ** Choices and responses *)

(** The deltas of a sequence stream calls well. *)
Fixpoint deltas_ok (calls : list StreamedCall) (deltas : list OpenAiToolCallDelta) : Prop :=
  match deltas with
  | [] => True
  | delta :: deltas => delta_ok calls delta /\ deltas_ok (say_delta calls delta) deltas
  end.

Lemma related_deltas deltas calls accs st raw :
  related calls accs st -> deltas_ok calls deltas ->
  exists emitted accs' open, apply_tool_call_deltas accs deltas raw = (emitted, accs')
    /\ apply_deltas from_str st emitted = Ok (set_open st open)
    /\ related (fold_left say_delta deltas calls) accs' (set_open st open).
Proof.
  revert calls accs st. induction deltas as [|delta deltas IH]; intros calls accs st Hr Hok; cbn [apply_tool_call_deltas].
  { exists [], accs, (co_open_tool_calls st). by destruct st. }
  destruct Hok as [Hd Hok]. destruct (related_step _ _ _ _ raw Hr Hd) as (e1 & a1 & o1 & E1 & R1 & S1). rewrite E1.
  destruct (IH _ _ _ S1 Hok) as (e2 & a2 & o2 & E2 & R2 & S2). rewrite E2.
  exists (e1 ++ e2), a2, o2. split_and!; [done| |done]. rewrite apply_deltas_app, R1. exact R2.
Qed.

Definition choice_parts (choice : OpenAiStreamChoice) : list MessagePart :=
  let delta := sc_delta choice in
  option_list ((fun text => PReasoning (Some text) false None)
                 <$> match text_of_choice (sd_reasoning delta) with
                     | Some text => Some text
                     | None => text_of_choice (sd_reasoning_content delta)
                     end)
  ++ option_list (PText <$> text_of_choice (sd_content delta))
  ++ option_list ((fun text => PRefusal (Some text) (Some "refusal") None) <$> text_of_choice (sd_refusal delta)).
Definition choice_calls (choice : OpenAiStreamChoice) : list OpenAiToolCallDelta :=
  default [] (sd_tool_calls (sc_delta choice)).

Lemma deltas_of_singles deltas : deltas_of (List.map (fun delta => chunk_of [delta]) deltas) = deltas.
Proof. unfold deltas_of. rewrite map_map. simpl. induction deltas as [|d ds IH]; simpl; [done|by rewrite IH]. Qed.

Lemma deltas_of_one delta : deltas_of (one_chunk delta) = option_list delta.
Proof. by destruct delta. Qed.

Lemma related_add_parts calls accs st parts : related calls accs st -> related calls accs (add_parts st parts).
Proof. intros [H1 H2 H3]. by constructor. Qed.

Lemma choice_step choice calls accs st raw :
  related calls accs st -> deltas_ok calls (choice_calls choice) ->
  exists chunks accs' open, choice_chunks accs choice raw = (chunks, accs')
    /\ apply_deltas from_str st (deltas_of chunks) = Ok (set_open (add_parts st (choice_parts choice)) open)
    /\ related (fold_left say_delta (choice_calls choice) calls) accs' (set_open (add_parts st (choice_parts choice)) open)
    /\ Forall (fun chunk => ck_usage chunk = None) chunks.
Proof.
  intros Hr Hok. apply (related_add_parts _ _ _ (choice_parts choice)) in Hr.
  destruct (related_deltas _ _ _ _ raw Hr Hok) as (emitted & accs' & open & E & R & S).
  unfold choice_chunks. fold (choice_calls choice). rewrite E. eexists _, accs', open. split_and!; [done| |done|].
  - rewrite !deltas_of_app, deltas_of_singles, !deltas_of_one, !app_assoc, apply_deltas_app.
    assert (forall st ds, apply_deltas from_str st ds = Ok (add_parts st (choice_parts choice)) ->
      (st' ← apply_deltas from_str st ds; apply_deltas from_str st' emitted)
      = apply_deltas from_str (add_parts st (choice_parts choice)) emitted) as Hthen by (by intros ? ? ->).
    rewrite Hthen; [done|]. unfold choice_parts. clear.
    destruct (match text_of_choice _ with Some _ => _ | None => _ end); destruct (text_of_choice (sd_content _));
      destruct (text_of_choice (sd_refusal _)); destruct st; reflexivity.
  - repeat (apply Forall_app; split); try (by destruct (_ <$> _); repeat constructor).
    apply Forall_forall. intros chunk (delta & <- & _)%list_elem_of_In%in_map_iff. done.
Qed.
Definition response_calls (r : OpenAiStreamResponse) : list OpenAiToolCallDelta :=
  List.concat (List.map choice_calls (sr_choices r)).
Definition response_parts (r : OpenAiStreamResponse) : list MessagePart :=
  List.concat (List.map choice_parts (sr_choices r)).
Definition response_finishes (r : OpenAiStreamResponse) : bool := existsb finishes_tool_calls (sr_choices r).

Lemma deltas_ok_app calls d1 d2 :
  deltas_ok calls (d1 ++ d2) <-> deltas_ok calls d1 /\ deltas_ok (fold_left say_delta d1 calls) d2.
Proof. revert calls. induction d1 as [|d d1 IH]; intros calls; simpl; [by split; [|intros []]|]. rewrite IH. naive_solver. Qed.

Lemma choices_step choices calls accs st raw :
  related calls accs st -> deltas_ok calls (List.concat (List.map choice_calls choices)) ->
  let st' := add_parts st (List.concat (List.map choice_parts choices)) in
  exists chunks accs' open, choices_chunks accs choices raw = (chunks, accs')
    /\ apply_deltas from_str st (deltas_of chunks) = Ok (set_open st' open)
    /\ related (fold_left say_delta (List.concat (List.map choice_calls choices)) calls) accs' (set_open st' open)
    /\ Forall (fun chunk => ck_usage chunk = None) chunks.
Proof.
  revert calls accs st. induction choices as [|choice choices IH]; intros calls accs st Hr Hok; cbn [choices_chunks List.map List.concat].
  { exists [], accs, (co_open_tool_calls st). split_and!; [done|by destruct st|by destruct st|by apply List.Forall_nil]. }
  cbn [List.map List.concat] in Hok. apply deltas_ok_app in Hok as [Hok1 Hok2].
  destruct (choice_step _ _ _ _ raw Hr Hok1) as (c1 & a1 & o1 & E1 & R1 & S1 & U1). rewrite E1.
  destruct (IH _ _ _ S1 Hok2) as (c2 & a2 & o2 & E2 & R2 & S2 & U2). rewrite E2.
  exists (c1 ++ c2), a2, o2. rewrite fold_left_app, <- add_parts_app. split_and!; [done| |done|by apply Forall_app].
  by rewrite deltas_of_app, apply_deltas_app, R1.
Qed.

Lemma flush_no_usage accs : Forall (fun chunk => ck_usage chunk = None) (flush_tool_calls accs).
Proof.
  induction accs as [|a accs IH]; [by apply List.Forall_nil|]. apply Forall_app. split; [|done].
  unfold flush_accumulator. destruct (ta_id a), (ta_name a); by repeat constructor.
Qed.

Definition next_usage (u : option TokenUsage) (r : OpenAiStreamResponse) : option TokenUsage :=
  match sr_usage r with Some usage => Some (token_usage_from_openai usage) | None => u end.

Lemma response_step r calls accs st raw :
  related calls accs st -> deltas_ok calls (response_calls r) ->
  let calls' := fold_left say_delta (response_calls r) calls in
  (response_finishes r = true -> Forall named calls') ->
  exists chunks accs' open, response_chunks accs r raw = (chunks, accs')
    /\ (let st' := with_calls (add_parts st (response_parts r))
                     (if response_finishes r then finished_calls calls' else []) open in
        apply_deltas from_str st (deltas_of chunks) = Ok st'
        /\ related (if response_finishes r then [] else calls') accs' st')
    /\ forall u, usage_of chunks u = next_usage u r.
Proof.
  intros Hr Hok calls' Hnamed. destruct (choices_step _ _ _ _ raw Hr Hok) as (c1 & a1 & o1 & E1 & R1 & S1 & U1).
  unfold response_chunks. rewrite E1. fold (response_finishes r).
  fold (response_calls r) in S1. fold calls' in S1. fold (response_parts r) in R1, S1.
  set (usage := match sr_usage r with Some usage => [usage_chunk (token_usage_from_openai usage)] | None => [] end).
  assert (deltas_of usage = []) as Hud by (unfold usage; by destruct (sr_usage r)).
  assert (forall u, usage_of usage u = next_usage u r) as Huu by (unfold usage, next_usage; by destruct (sr_usage r)).
  destruct (response_finishes r).
  - eexists _, [], []. split; [reflexivity|]. split.
    + rewrite deltas_of_attach, deltas_of_default, !deltas_of_app, deltas_of_attach, Hud, app_nil_r, apply_deltas_app, R1.
      cbn [mbind result_bind]. split; [|by apply related_start].
      rewrite (flush_all_collected calls' a1); [done|apply S1|by apply Hnamed|apply S1|by eapply related_NoDup].
    + intros u. rewrite usage_of_attach, usage_of_default, !usage_of_app, usage_of_attach.
      by rewrite (usage_of_none _ _ U1), (usage_of_none _ _ (flush_no_usage _)).
  - eexists _, a1, o1. split; [reflexivity|]. split.
    + rewrite deltas_of_attach, deltas_of_default, !deltas_of_app, Hud. rewrite !app_nil_r, R1.
      unfold with_calls, set_open in *. cbn [add_parts set_parts co_tool_calls co_assistant_parts co_chunks co_usage] in *.
      by rewrite app_nil_r.
    + intros u. rewrite usage_of_attach, usage_of_default, !usage_of_app. by rewrite (usage_of_none _ _ U1).
Qed.

(** ** Answers *)

(** The calls of an answer, in the order they are closed: where a response
    finishes the calls, and at the end. *)
Fixpoint answer_calls (calls : list StreamedCall) (responses : list OpenAiStreamResponse) : list CompletedToolCall :=
  match responses with
  | [] => finished_calls calls
  | r :: responses =>
      let calls := fold_left say_delta (response_calls r) calls in
      if response_finishes r then finished_calls calls ++ answer_calls [] responses
      else answer_calls calls responses
  end.
Fixpoint answer_ok (calls : list StreamedCall) (responses : list OpenAiStreamResponse) : Prop :=
  match responses with
  | [] => Forall named calls
  | r :: responses =>
      let calls' := fold_left say_delta (response_calls r) calls in
      deltas_ok calls (response_calls r)
      /\ if response_finishes r then Forall named calls' /\ answer_ok [] responses else answer_ok calls' responses
  end.

(** An event carries a response. *)
Definition carries (event : SseEvent) (r : OpenAiStreamResponse) : Prop :=
  String.eqb (trim (sse_data event)) "[DONE]" = false
  /\ exists v, from_str (sse_data event) = Some v /\ read_stream_response v = Some r.

Definition DONE : SseEvent := MkSseEvent None "[DONE]".

Lemma run_responses responses events terminator calls accs st :
  Forall2 carries events responses -> terminator = [] \/ terminator = [DONE] ->
  related calls accs st -> answer_ok calls responses ->
  exists chunks state st',
    run_events (openai_event from_str) (events ++ terminator) (MkOpenAiState accs None) = (chunks, Ok state)
    /\ os_structured state = None
    /\ apply_deltas from_str st (deltas_of (chunks ++ flush_tool_calls (os_tool_calls state))) = Ok st'
    /\ co_assistant_parts st' = extend_message_parts (co_assistant_parts st) (List.concat (List.map response_parts responses))
    /\ co_tool_calls st' = co_tool_calls st ++ answer_calls calls responses
    /\ co_open_tool_calls st' = []
    /\ forall u, usage_of (chunks ++ flush_tool_calls (os_tool_calls state)) u = fold_left next_usage responses u.
Proof.
  intros Hev Ht. revert calls accs st. induction Hev as [|event r events responses (Hnd & v & Hv & Hpr) _ IH];
    intros calls accs st Hr Hok.
  - cbn [app answer_calls answer_ok] in *.
    assert (apply_deltas from_str st (deltas_of (flush_tool_calls accs)) = Ok (with_calls st (finished_calls calls) [])) as Hf.
    { apply flush_all_collected; [apply Hr|done|apply Hr|by eapply related_NoDup]. }
    destruct Ht as [->| ->].
    + exists [], (MkOpenAiState accs None), (with_calls st (finished_calls calls) []). split_and!; try done.
      intros u. by apply usage_of_none, flush_no_usage.
    + exists (attach_raw_to_all (flush_tool_calls accs) (VString "[DONE]")), (MkOpenAiState [] None),
        (with_calls st (finished_calls calls) []). split_and!; try done.
      * cbn [run_events]. change (openai_event from_str DONE (MkOpenAiState accs None)) with
          (attach_raw_to_all (flush_tool_calls accs) (VString "[DONE]"), Ok (MkOpenAiState [] None) : Result OpenAiState).
        cbn beta iota. by rewrite app_nil_r.
      * cbn [os_tool_calls flush_tool_calls flat_map]. by rewrite app_nil_r, deltas_of_attach.
      * intros u. cbn [os_tool_calls flush_tool_calls flat_map]. rewrite app_nil_r, usage_of_attach.
        by apply usage_of_none, flush_no_usage.
  - cbn [answer_ok answer_calls List.map List.concat fold_left app run_events] in *. destruct Hok as [Hok Hrest].
    destruct (response_step r calls accs st v Hr Hok) as (c1 & a1 & o1 & E1 & (R1 & S1) & U1).
    { intros Hfin. rewrite Hfin in Hrest. by destruct Hrest. }
    assert (openai_event from_str event (MkOpenAiState accs None) = (c1, Ok (MkOpenAiState a1 None))) as ->.
    { unfold openai_event, openai_chunks_from_sse_event. cbn [os_tool_calls os_structured]. rewrite Hnd, Hv. cbn.
      rewrite Hpr. cbn. by rewrite E1. }
    destruct (IH _ _ _ S1) as (c2 & s2 & st2 & E2 & H0 & R2 & P2 & C2 & O2 & U2);
      [by destruct (response_finishes r); [destruct Hrest|]|].
    exists (c1 ++ c2), s2, st2. rewrite E2, <- app_assoc. split_and!; [done|done| | | |done|].
    + by rewrite deltas_of_app, apply_deltas_app, R1.
    + rewrite P2. cbn. unfold extend_message_parts. by rewrite fold_left_app.
    + rewrite C2. cbn. rewrite <- app_assoc. by destruct (response_finishes r).
    + intros u. by rewrite usage_of_app, U1, U2.
Qed.
End simulation.

(** *** A decision procedure for the conditions *)

Definition same_or_none (x : option string) (s : string) : bool :=
  match x with Some t => String.eqb t s | None => true end.
Fixpoint id_only_at (index : nat) (id : string) (calls : list StreamedCall) (at_index : nat) : bool :=
  match calls with
  | [] => true
  | call :: calls =>
      (match st_id call with Some other => negb (String.eqb other id) || Nat.eqb at_index index | None => true end)
      && id_only_at index id calls (S at_index)
  end.
Definition delta_okb (calls : list StreamedCall) (delta : OpenAiToolCallDelta) : bool :=
  let call := default streamed_none (calls !! delta_index delta) in
  match td_id delta with
  | Some id => same_or_none (st_id call) id && id_only_at (delta_index delta) id calls 0
  | None => true
  end
  && match delta_name delta with Some name => same_or_none (st_name call) name | None => true end.
Fixpoint deltas_okb (calls : list StreamedCall) (deltas : list OpenAiToolCallDelta) : bool :=
  match deltas with
  | [] => true
  | delta :: deltas => delta_okb calls delta && deltas_okb (say_delta calls delta) deltas
  end.
Definition not_blank (x : option string) : bool := match x with Some s => negb (is_blank s) | None => true end.
Definition namedb (call : StreamedCall) : bool := not_blank (st_id call) && not_blank (st_name call).
Fixpoint answer_okb (calls : list StreamedCall) (responses : list OpenAiStreamResponse) : bool :=
  match responses with
  | [] => forallb namedb calls
  | r :: responses =>
      let calls' := fold_left say_delta (response_calls r) calls in
      deltas_okb calls (response_calls r)
      && if response_finishes r then forallb namedb calls' && answer_okb [] responses else answer_okb calls' responses
  end.

Lemma same_or_none_ok x s : same_or_none x s = true -> x = None \/ x = Some s.
Proof. destruct x as [t|]; simpl; [|by left]. intros ->%String.eqb_eq. by right. Qed.

Lemma id_only_at_ok index id calls k j other :
  id_only_at index id calls k = true -> calls !! j = Some other -> st_id other = Some id -> (k + j)%nat = index.
Proof.
  revert k j. induction calls as [|call calls IH]; intros k j H Hj Hid; [done|].
  cbn in H. apply andb_true_iff in H as [H1 H2]. destruct j as [|j]; simpl in Hj.
  - injection Hj as ->. rewrite Hid in H1. rewrite String.eqb_refl in H1. apply Nat.eqb_eq in H1. lia.
  - pose proof (IH (S k) j H2 Hj Hid). lia.
Qed.

Lemma deltas_okb_ok calls deltas : deltas_okb calls deltas = true -> deltas_ok calls deltas.
Proof.
  revert calls. induction deltas as [|delta deltas IH]; intros calls; [done|]. simpl.
  intros [[H1 H2]%andb_true_iff H3]%andb_true_iff. split; [|by apply IH]. split.
  - intros id Hid. rewrite Hid in H1. apply andb_true_iff in H1 as [H1 H4]. split; [by apply same_or_none_ok|].
    intros j other Hj Ho. exact (id_only_at_ok _ _ _ 0 _ _ H4 Hj Ho).
  - intros name Hname. rewrite Hname in H2. by apply same_or_none_ok.
Qed.

Lemma namedb_ok calls : forallb namedb calls = true -> Forall named calls.
Proof.
  intros H. apply Forall_forall. intros call Hc. rewrite forallb_forall in H.
  specialize (H call (proj1 (list_elem_of_In _ _) Hc)). apply andb_true_iff in H as [H1 H2].
  split; intros x Hx; [rewrite Hx in H1|rewrite Hx in H2]; by apply negb_true_iff.
Qed.

Lemma answer_okb_ok calls responses : answer_okb calls responses = true -> answer_ok calls responses.
Proof.
  revert calls. induction responses as [|r responses IH]; intros calls; simpl; [apply namedb_ok|].
  intros [H1%deltas_okb_ok H2]%andb_true_iff. split; [done|].
  destruct (response_finishes r); [|by apply IH]. apply andb_true_iff in H2 as [H2%namedb_ok H3]. split; [done|by apply IH].
Qed.

(** C34. An answer that streams its tool calls side by side is collected
    whole.  Whatever the interleaving of the calls' fragments, wherever their
    ids and names come, whether or not the service marks the end of the calls
    or of the stream, and however the network cuts the events between
    characters: the stream ends without an error, and what the agent collects
    is the text, reasoning and refusals in order, every call that got an id
    and a name with the concatenation of its arguments, in the order of the
    indices, and the last usage reported.  An id or a name that is sent again
    is to be the same, ids differ between calls, and none is blank. *)
Theorem streamed_calls_are_collected from_str ordinal events terminator chunks responses :
  Forall2 (carries from_str) events responses -> terminator = [] \/ terminator = [DONE] ->
  answer_ok [] responses -> Forall wire_ok events ->
  concat_str chunks = concat_str (List.map wire (events ++ terminator)) ->
  Forall (fun chunk => valid_utf8 chunk = true) chunks ->
  exists streamed response,
    openai_stream from_str None (List.map Ok chunks) = (streamed, Ok tt)
    /\ collect_all from_str ordinal streamed = Ok response
    /\ rs_assistant_parts response = extend_message_parts [] (List.concat (List.map response_parts responses))
    /\ rs_tool_calls response = answer_calls from_str [] responses
    /\ rs_usage response = fold_left next_usage responses None.
Proof.
  intros Hev Ht Hok Hw Hc Hv.
  assert (Forall wire_ok (events ++ terminator)) as Hw'.
  { apply Forall_app. split; [done|]. destruct Ht as [->| ->]; [by apply List.Forall_nil|].
    apply Forall_cons. split; [|by apply List.Forall_nil]. split; [|done]. split; [by apply within_line_literal|done]. }
  destruct (run_responses from_str responses events terminator [] [] collect_start Hev Ht (related_start collect_start eq_refl) Hok)
    as (out & state & st & Hrun & Hs & Hcol & Hp & Hcalls & Ho & Hu).
  eexists.
  destruct (collect_all_deltas from_str ordinal _ st [] Hcol) as (response & Hr & H1 & H2 & H3); [by rewrite Ho|].
  exists response. split_and!; [|exact Hr|by rewrite H1, Hp| |by rewrite H3, Hu].
  - unfold openai_stream. rewrite run_stream_events, (push_all_wires (events ++ terminator)) by done. cbn [fst].
    change (openai_start None) with (MkOpenAiState [] None). rewrite Hrun. unfold openai_finish. by rewrite Hs.
  - rewrite H2, Hcalls. by rewrite app_nil_r.
Qed.

(** Two calls, side by side: the arguments of the second come before its
    name. *)
Lemma streamed_calls_are_collected_witness :
  let call index cid name args := MkToolCallDelta index cid (Some (MkFunctionDelta name args)) in
  let one calls text finish usage :=
    MkStreamResponse [MkStreamChoice (MkStreamDelta text None None None calls) finish] usage in
  let responses :=
    [one None (Some "I will look.") None None;
     one (Some [call 0 (Some "call_a") (Some "read") (Some "{"); call 1 (Some "call_b") None (Some "{")]) None None None;
     one (Some [call 1 None (Some "list") (Some "}"); call 0 None None (Some "}")]) None None None;
     one None None (Some "tool_calls") (Some (MkOpenAiUsage 10 5 0 None None))] in
  let event n := MkSseEvent None n in
  let function name args := json_object (("arguments", VString args) :: match name with Some name => [("name", VString name)] | None => [] end) in
  let call_json index cid name args :=
    json_object ([("index", VNumber (PosInt index)); ("function", function name args)]
                 ++ match cid with Some cid => [("id", VString cid)] | None => [] end) in
  let choice members := json_object [("choices", VArray [json_object [("delta", json_object members)]])] in
  let from_str s := match s with
    | "a" => Some (choice [("content", VString "I will look.")])
    | "b" => Some (choice [("tool_calls", VArray [call_json 0 (Some "call_a") (Some "read") "{";
                                                  call_json 1 (Some "call_b") None "{"])])
    | "c" => Some (choice [("tool_calls", VArray [call_json 1 None (Some "list") "}"; call_json 0 None None "}"])])
    | "d" => Some (json_object [("choices", VArray [json_object [("finish_reason", VString "tool_calls")]]);
                                ("usage", json_object [("prompt_tokens", VNumber (PosInt 10));
                                                       ("completion_tokens", VNumber (PosInt 5))])])
    | "{}" => Some (VObject [])
    | _ => None
    end in
  let text := concat_str (List.map wire [event "a"; event "b"; event "c"; event "d"; DONE]) in
  exists streamed response,
    openai_stream from_str None (List.map Ok [String.substring 0 5 text; String.substring 5 1000 text]) = (streamed, Ok tt)
    /\ collect_all from_str 0 streamed = Ok response
    /\ rs_assistant_parts response = [PText "I will look."]
    /\ rs_tool_calls response = [MkCompletedToolCall "call_a" "read" (VObject []);
                                 MkCompletedToolCall "call_b" "list" (VObject [])]
    /\ rs_usage response = Some (MkTokenUsage 10 5 15 None None None).
Proof.
  intros call one responses event function call_json choice from_str text.
  refine (streamed_calls_are_collected from_str 0 [event "a"; event "b"; event "c"; event "d"] [DONE] _ responses _ _ _ _ _ _).
  - repeat (apply List.Forall2_cons; [split; [reflexivity|]; eexists; split; [reflexivity|vm_compute; reflexivity]|]). apply List.Forall2_nil.
  - by right.
  - apply answer_okb_ok. vm_compute. reflexivity.
  - repeat (apply Forall_cons; split; [split; [split; [by apply within_line_literal|reflexivity]|done]|]). by apply List.Forall_nil.
  - vm_compute. reflexivity.
  - repeat (apply Forall_cons; split; [vm_compute; reflexivity|]). by apply Forall_nil.
Defined.

(** ** Structured output *)

Definition is_text (delta : CompletionDelta) : bool := match delta with AppendText _ => true | _ => false end.
Definition is_refusal (delta : CompletionDelta) : bool := match delta with AppendRefusal _ _ _ => true | _ => false end.
Definition text_of_deltas (deltas : list CompletionDelta) : string :=
  concat_str (omap (fun delta => match delta with AppendText text => Some text | _ => None end) deltas).
Definition without_text (deltas : list CompletionDelta) : list CompletionDelta :=
  List.filter (fun delta => negb (is_text delta)) deltas.

(** What was captured after [deltas]. *)
Record captured (acc : StructuredOutputAccumulator) (deltas : list CompletionDelta)
    (acc' : StructuredOutputAccumulator) : Prop := {
  cap_name : so_name acc' = so_name acc;
  cap_text : so_buffered_text acc' = so_buffered_text acc +:+ text_of_deltas deltas;
  cap_refusal : so_saw_refusal acc' = so_saw_refusal acc || existsb is_refusal deltas;
}.

Lemma captured_app acc d1 acc1 d2 acc2 :
  captured acc d1 acc1 -> captured acc1 d2 acc2 -> captured acc (d1 ++ d2) acc2.
Proof.
  intros [N1 T1 R1] [N2 T2 R2]. constructor.
  - by rewrite N2.
  - rewrite T2, T1. unfold text_of_deltas. by rewrite omap_app, concat_str_app, append_assoc.
  - by rewrite R2, R1, existsb_app, orb_assoc.
Qed.

Lemma captured_nil acc : captured acc [] acc.
Proof. constructor; [done|by rewrite append_nil_r|by rewrite orb_false_r]. Qed.

Lemma capture_deltas_captured deltas acc :
  let '(acc', _, rest) := capture_deltas deltas acc in rest = without_text deltas /\ captured acc deltas acc'.
Proof.
  revert acc. induction deltas as [|delta deltas IH]; intros acc; [split; [done|apply captured_nil]|].
  assert (forall acc1, captured acc [delta] acc1 ->
    let '(acc', _, rest) := capture_deltas deltas acc1 in
    rest = without_text deltas /\ captured acc (delta :: deltas) acc') as Hone.
  { intros acc1 H1. specialize (IH acc1). destruct (capture_deltas deltas acc1) as [[acc' c] rest].
    destruct IH as [-> H2]. split; [done|]. exact (captured_app _ [delta] _ _ _ H1 H2). }
  destruct delta; cbn [capture_deltas];
    match goal with |- context [capture_deltas deltas ?a] => specialize (Hone a); destruct (capture_deltas deltas a) as [[acc' c] rest] end;
    (destruct Hone as [-> H]; [constructor; cbn; by rewrite ?append_nil_r, ?orb_false_r, ?orb_true_r|by split]).
Qed.

Lemma capture_chunk_captured chunk acc :
  let '(output, acc') := capture_structured_output_chunk chunk acc in
  deltas_of (option_list output) = without_text (ck_deltas chunk) /\ captured acc (ck_deltas chunk) acc'
  /\ forall u, usage_of (option_list output) u = usage_of [chunk] u.
Proof.
  unfold capture_structured_output_chunk. pose proof (capture_deltas_captured (ck_deltas chunk) acc) as H.
  destruct (capture_deltas (ck_deltas chunk) acc) as [[acc' c] rest]. destruct H as [-> [N T R]].
  split_and!.
  - unfold deltas_of. destruct (without_text _), (ck_usage chunk), (ck_raw chunk); cbn; by rewrite ?app_nil_r.
  - destruct (ck_raw chunk); [destruct c|]; by constructor.
  - intros u. cbn. destruct (without_text _), (ck_usage chunk), (ck_raw chunk); done.
Qed.

Lemma capture_chunks_captured chunks acc :
  let '(output, acc') := capture_chunks chunks acc in
  deltas_of output = without_text (deltas_of chunks) /\ captured acc (deltas_of chunks) acc'
  /\ forall u, usage_of output u = usage_of chunks u.
Proof.
  revert acc. induction chunks as [|chunk chunks IH]; intros acc; [split_and!; [done|apply captured_nil|done]|].
  cbn [capture_chunks]. pose proof (capture_chunk_captured chunk acc) as H1.
  destruct (capture_structured_output_chunk chunk acc) as [output acc1]. destruct H1 as (D1 & C1 & U1).
  specialize (IH acc1). destruct (capture_chunks chunks acc1) as [more acc2]. destruct IH as (D2 & C2 & U2).
  change (match output with Some output => [output] | None => [] end) with (option_list output).
  rewrite deltas_of_app, D1, D2. change (chunk :: chunks) with ([chunk] ++ chunks).
  assert (deltas_of [chunk] = ck_deltas chunk) as E by (unfold deltas_of; simpl; apply app_nil_r).
  rewrite deltas_of_app, E. split_and!.
  - unfold without_text. by rewrite List.filter_app.
  - by eapply captured_app.
  - intros u. by rewrite !usage_of_app, U1, U2.
Qed.

Section structured.
Context (from_str : string -> option Value).

(** The events, with and without the capture. *)
Lemma run_captured events tool_calls acc chunks state :
  run_events (openai_event from_str) events (MkOpenAiState tool_calls None) = (chunks, Ok state) ->
  os_structured state = None
  /\ exists output acc',
    run_events (openai_event from_str) events (MkOpenAiState tool_calls (Some acc))
    = (output, Ok (MkOpenAiState (os_tool_calls state) (Some acc')))
    /\ deltas_of output = without_text (deltas_of chunks) /\ captured acc (deltas_of chunks) acc'
    /\ forall u, usage_of output u = usage_of chunks u.
Proof.
  revert tool_calls acc chunks. induction events as [|event events IH]; intros tool_calls acc chunks H.
  { injection H as <- <-. split; [done|]. exists [], acc. split_and!; [done..|apply captured_nil|done]. }
  cbn [run_events] in *. unfold openai_event in H at 1. unfold openai_event at 1. cbn [os_tool_calls os_structured] in *.
  destruct (openai_chunks_from_sse_event from_str (sse_data event) tool_calls) as [[cs tc]|e]; [|done].
  pose proof (capture_chunks_captured cs acc) as Hc. destruct (capture_chunks cs acc) as [out1 acc1].
  destruct Hc as (D1 & C1 & U1).
  destruct (run_events (openai_event from_str) events (MkOpenAiState tc None)) as [more [s|e]] eqn:E; [|done].
  injection H as <- <-. destruct (IH _ acc1 _ E) as (Hs & out2 & acc2 & R & D2 & C2 & U2). split; [done|].
  exists (out1 ++ out2), acc2. rewrite R. split_and!; [done| | |].
  - rewrite !deltas_of_app, D1, D2. unfold without_text. by rewrite List.filter_app.
  - rewrite deltas_of_app. by eapply captured_app.
  - intros u. by rewrite !usage_of_app, U1, U2.
Qed.

Lemma flush_without_text accs :
  without_text (deltas_of (flush_tool_calls accs)) = deltas_of (flush_tool_calls accs)
  /\ text_of_deltas (deltas_of (flush_tool_calls accs)) = "" /\ existsb is_refusal (deltas_of (flush_tool_calls accs)) = false.
Proof.
  unfold flush_tool_calls. rewrite deltas_of_flat_map.
  assert (Forall (fun d => is_text d = false /\ is_refusal d = false)
    (List.flat_map (fun a => deltas_of (flush_accumulator a)) accs)) as H.
  { induction accs as [|a accs IH]; [by apply List.Forall_nil|]. apply Forall_app. split; [|done].
    unfold flush_accumulator. destruct (ta_id a), (ta_name a); try by apply List.Forall_nil.
    unfold deltas_of. cbn [List.map List.concat ck_deltas]. rewrite app_nil_r.
    repeat (apply Forall_app; split); [destruct (ta_opened a); by repeat constructor| |by repeat constructor].
    apply Forall_forall. intros d (t & <- & _)%list_elem_of_In%in_map_iff. done. }
  induction H as [|d ds [H1 H2] _ IH]; [done|]. destruct IH as (I1 & I2 & I3).
  unfold without_text, text_of_deltas in *. destruct d; cbn in *; try done; by rewrite ?I1, ?I2, ?I3.
Qed.

(** Structured output is one value, read from the whole text of the
    answer.  Where the stream without a schema would end well, the stream with
    one yields the same deltas but for the text, and the same usage; after
    them, unless the model refused or said nothing, the value that the whole
    text parses to, under the name of the schema, once; and when the text does
    not parse, the stream ends in an error of the provider. *)
Theorem structured_output_is_one_value spec chunks streamed :
  openai_stream from_str None (List.map Ok chunks) = (streamed, Ok tt) ->
  let text := text_of_deltas (deltas_of streamed) in
  let refused := existsb is_refusal (deltas_of streamed) in
  let '(output, result) := openai_stream from_str (Some spec) (List.map Ok chunks) in
  (forall u, usage_of output u = usage_of streamed u)
  /\ if refused || is_blank text
     then deltas_of output = without_text (deltas_of streamed) /\ result = Ok tt
     else match from_str text with
          | Some value => deltas_of output = without_text (deltas_of streamed)
                                             ++ [SetStructuredOutput (so_schema_name spec) value]
                          /\ result = Ok tt
          | None => deltas_of output = without_text (deltas_of streamed)
                    /\ result = Err (Provider "structured output did not parse as JSON")
          end.
Proof.
  unfold openai_stream. rewrite !run_stream_events. set (events := (push_all "" chunks).1).
  destruct (run_events (openai_event from_str) events (openai_start None)) as [cs [state|e]] eqn:E; [|done].
  destruct (run_captured _ _ (structured_new spec) _ _ E) as (Hs & out & acc & R & D & [N T F] & U).
  unfold openai_finish at 1. rewrite Hs. intros [= <-].
  change (openai_start (Some spec)) with (MkOpenAiState [] (Some (structured_new spec))). rewrite R.
  unfold openai_finish. cbn [os_structured os_tool_calls]. unfold structured_finish.
  destruct (flush_without_text (os_tool_calls state)) as (W1 & W2 & W3).
  assert (text_of_deltas (deltas_of (cs ++ flush_tool_calls (os_tool_calls state))) = so_buffered_text acc) as ->.
  { rewrite T. unfold text_of_deltas in *. by rewrite deltas_of_app, omap_app, concat_str_app, W2, append_nil_r. }
  assert (existsb is_refusal (deltas_of (cs ++ flush_tool_calls (os_tool_calls state))) = so_saw_refusal acc) as ->.
  { rewrite F. by rewrite deltas_of_app, existsb_app, W3, orb_false_r. }
  assert (without_text (deltas_of (cs ++ flush_tool_calls (os_tool_calls state)))
    = deltas_of (out ++ flush_tool_calls (os_tool_calls state))) as ->.
  { rewrite !deltas_of_app, D. unfold without_text. rewrite List.filter_app. f_equal. exact W1. }
  destruct (so_saw_refusal acc || is_blank (so_buffered_text acc)).
  - rewrite app_nil_r. split; [|done]. intros u. by rewrite !usage_of_app, U.
  - destruct (from_str (so_buffered_text acc)) as [value|].
    + rewrite app_assoc, (deltas_of_app (out ++ _)), N. split; [|done].
      intros u. rewrite !usage_of_app, U. done.
    + split; [|done]. intros u. by rewrite !usage_of_app, U.
Qed.
End structured.

Lemma structured_output_is_one_value_witness :
  let content text := json_object [("choices", VArray [json_object [("delta", json_object [("content", VString text)])]])] in
  let from_str s := match s with
    | "a" => Some (content "{") | "b" => Some (content "}") | "{}" => Some (VObject []) | _ => None
    end in
  let spec := MkStructuredOutputSpec (Some "answer") (VObject []) in
  let chunks := ["data: a" +:+ nl +:+ nl; "data: b" +:+ nl +:+ nl +:+ "data: [DONE]" +:+ nl +:+ nl] in
  let '(output, result) := openai_stream from_str (Some spec) (List.map Ok chunks) in
  (forall u, usage_of output u = u) /\ deltas_of output = [SetStructuredOutput (Some "answer") (VObject [])] /\ result = Ok tt.
Proof.
  intros content from_str spec chunks.
  pose proof (structured_output_is_one_value from_str spec chunks
    (openai_stream from_str None (List.map Ok chunks)).1 eq_refl) as H.
  vm_compute in H |- *. destruct H as (H1 & H2 & H3). by split_and!.
Defined.
