(* ===== verification/ChatGpt.v ===== *)
(** * The ChatGPT provider ([bt-providers/src/chatgpt.rs])

    The request built from a conversation for the Responses service, and the
    chunks read from the events of a streamed answer.  The HTTP exchange and
    the JSON form of the request, derived from its record, are left out; the
    items of a conversation are JSON in the source and here. *)

From stdpp Require Import base list strings gmap sorting.
From Stdlib Require Import ZArith Lia Ascii.
From S2P Require Import Prelude Text Utf8 Json Types Messages AgentStream Sse ProviderStream.

#[local] Open Scope Z_scope.

Definition DEFAULT_CHATGPT_INSTRUCTIONS : string := "You are Belltower.".

(** ** Tool calls, by the item they belong to *)

Record ChatGptAccumulator : Type := MkChatGptAccumulator {
  ca_call_id : option string;
  ca_name : option string;
  ca_opened : bool;
  ca_arguments : string;
  ca_source_raw : option Value;
}.
Definition chatgpt_accumulator_default : ChatGptAccumulator := MkChatGptAccumulator None None false "" None.

(** [BTreeMap<String, ToolCallAccumulator>] *)
Abbreviation ToolCalls := (gmap string ChatGptAccumulator).

Definition set_arguments (a : ChatGptAccumulator) (arguments : string) : ChatGptAccumulator :=
  MkChatGptAccumulator (ca_call_id a) (ca_name a) (ca_opened a) arguments (ca_source_raw a).
Definition set_source_raw (a : ChatGptAccumulator) (raw : Value) : ChatGptAccumulator :=
  MkChatGptAccumulator (ca_call_id a) (ca_name a) (ca_opened a) (ca_arguments a) (Some raw).

(** [open_tool_call_if_ready] *)
Definition open_tool_call_if_ready (a : ChatGptAccumulator) : list CompletionDelta * ChatGptAccumulator :=
  if ca_opened a then ([], a)
  else match ca_call_id a, ca_name a with
       | Some call_id, Some tool_name =>
           (OpenToolCall call_id tool_name None
            :: (if is_empty (ca_arguments a) then [] else [AppendToolCallArguments call_id (ca_arguments a)]),
            MkChatGptAccumulator (ca_call_id a) (ca_name a) true (ca_arguments a) (ca_source_raw a))
       | _, _ => ([], a)
       end.

(** [finalize_tool_call] *)
Definition finalize_deltas (a : ChatGptAccumulator) : list CompletionDelta :=
  match ca_call_id a, ca_name a with
  | Some call_id, Some tool_name =>
      (if ca_opened a then []
       else OpenToolCall call_id tool_name None
            :: (if is_empty (ca_arguments a) then [] else [AppendToolCallArguments call_id (ca_arguments a)]))
      ++ [CloseToolCall call_id]
  | _, _ => []
  end.

(** [semantic_tool_call_chunks] *)
Definition semantic_tool_call_chunks (deltas : list CompletionDelta) : list CompletionChunk :=
  match deltas with [] => [] | _ => [chunk_of deltas] end.

(** The keys of the map, in order. *)
Definition key_le (a b : string) : Prop := str_leb a b = true.
#[local] Instance key_le_dec a b : Decision (key_le a b).
Proof. unfold key_le. apply _. Defined.
Definition item_ids (tool_calls : ToolCalls) : list string :=
  merge_sort key_le (List.map fst (map_to_list tool_calls)).

(** [flush_tool_calls]: what is still open is closed, in the order of the
    items' ids. *)
Definition flush_item (tool_calls : ToolCalls) (item_id : string) : list CompletionChunk :=
  match tool_calls !! item_id with
  | None => []
  | Some a => match finalize_deltas a with
              | [] => []
              | deltas => [MkCompletionChunk None deltas None (ca_source_raw a)]
              end
  end.
Definition flush_chatgpt (tool_calls : ToolCalls) : list CompletionChunk :=
  List.flat_map (flush_item tool_calls) (item_ids tool_calls).

(** [function_item_id]: what is not a letter, a digit, [_] or [-] becomes
    [_]; the result is ASCII, so that cutting it at 64 bytes cuts no
    character. *)
Definition item_char (ch : string) : string :=
  match ch with
  | String a "" => if byte_is 48 57 a || byte_is 65 90 a || byte_is 97 122 a
                      || Ascii.eqb a "_" || Ascii.eqb a "-" then ch else "_"
  | _ => "_"
  end.
Definition function_item_id (call_id : string) : string :=
  let normalized := concat_str (List.map item_char (chars call_id)) in
  let normalized := if is_empty normalized then "generated" else normalized in
  let normalized := if starts_with "fc_" normalized then normalized else "fc_" +:+ normalized in
  String.substring 0 64 normalized.

(** The id of an item: its own, or one made from its call's. *)
Definition item_id_of (item : Value) : option string :=
  match get_str "id" item with
  | Some id => Some id
  | None => function_item_id <$> get_str "call_id" item
  end.

Definition is_function_call (item : Value) : bool :=
  match get_str "type" item with Some t => String.eqb t "function_call" | None => false end.
Definition or_prior {A} (new old : option A) : option A := match new with Some _ => new | None => old end.

(** [apply_output_item_added] *)
Definition apply_output_item_added (tool_calls : ToolCalls) (item raw_json : Value)
    : list CompletionChunk * ToolCalls :=
  if negb (is_function_call item) then ([], tool_calls)
  else match item_id_of item with
       | None => ([], tool_calls)
       | Some item_id =>
           let a := default chatgpt_accumulator_default (tool_calls !! item_id) in
           let a := MkChatGptAccumulator (or_prior (get_str "call_id" item) (ca_call_id a))
                      (or_prior (get_str "name" item) (ca_name a)) (ca_opened a)
                      (ca_arguments a +:+ default "" (get_str "arguments" item)) (Some raw_json) in
           let '(deltas, a) := open_tool_call_if_ready a in
           (semantic_tool_call_chunks deltas, <[item_id := a]> tool_calls)
       end.

Definition append_to (a : ChatGptAccumulator) (text : string) : list CompletionDelta :=
  match ca_call_id a with Some call_id => [AppendToolCallArguments call_id text] | None => [] end.

(** [apply_function_call_argument_delta]; a call that the delta opens is
    opened with the text the delta was just added to. *)
Definition apply_function_call_argument_delta (tool_calls : ToolCalls) (item_id delta : string) (raw_json : Value)
    : list CompletionChunk * ToolCalls :=
  match tool_calls !! item_id with
  | None => ([], tool_calls)
  | Some a =>
      let a := set_source_raw (set_arguments a (ca_arguments a +:+ delta)) raw_json in
      let '(deltas, a) := open_tool_call_if_ready a in
      (semantic_tool_call_chunks (deltas ++ (if ca_opened a then append_to a delta else [])),
       <[item_id := a]> tool_calls)
  end.

(** [reconcile_function_call_arguments] *)
Definition reconcile_deltas (a : ChatGptAccumulator) (arguments : string) : list CompletionDelta :=
  match strip_prefix (ca_arguments a) arguments with
  | Some suffix => if is_empty suffix then [] else append_to a suffix
  | None => append_to a arguments
  end.
Definition reconcile_function_call_arguments (tool_calls : ToolCalls) (item_id arguments : string)
    (raw_json : Value) : list CompletionChunk * ToolCalls :=
  match tool_calls !! item_id with
  | None => ([], tool_calls)
  | Some a =>
      let '(opening, a) := open_tool_call_if_ready (set_source_raw a raw_json) in
      (semantic_tool_call_chunks (opening ++ reconcile_deltas a arguments),
       <[item_id := set_arguments a arguments]> tool_calls)
  end.

(** [apply_output_item_done] *)
Definition chatgpt_replay (item : Value) : Value :=
  json_object [("provider", VString "openai-chatgpt"); ("item", item)].
Definition is_encrypted_reasoning (item : Value) : bool :=
  match get_str "type" item with
  | Some t => String.eqb t "reasoning" && is_some (value_get "encrypted_content" item)
  | None => false
  end.
Definition apply_output_item_done (tool_calls : ToolCalls) (item raw_json : Value)
    : list CompletionChunk * ToolCalls :=
  if is_encrypted_reasoning item
  then ([chunk_of [AppendReasoning None false (Some (chatgpt_replay item))]], tool_calls)
  else if negb (is_function_call item) then ([], tool_calls)
  else match item_id_of item with
       | None => ([], tool_calls)
       | Some item_id =>
           let '(chunks, tool_calls) :=
             match get_str "arguments" item with
             | Some arguments => reconcile_function_call_arguments tool_calls item_id arguments raw_json
             | None => ([], tool_calls)
             end in
           (semantic_tool_call_chunks
              (deltas_of chunks
               ++ match tool_calls !! item_id with Some a => finalize_deltas a | None => [] end),
            delete item_id tool_calls)
       end.

(** [token_usage_from_chatgpt]; the sum wraps as in a release build. *)
Definition token_usage_from_chatgpt (value : Value) : option TokenUsage :=
  prompt_tokens ← get_u64 "input_tokens" value;
  completion_tokens ← get_u64 "output_tokens" value;
  Some {| tu_prompt_tokens := prompt_tokens;
          tu_completion_tokens := completion_tokens;
          tu_total_tokens := default (u64_add prompt_tokens completion_tokens) (get_u64 "total_tokens" value);
          tu_cache_read_tokens := details ← value_get "input_tokens_details" value; get_u64 "cached_tokens" details;
          tu_cache_write_tokens := None;
          tu_reasoning_tokens :=
            details ← value_get "output_tokens_details" value; get_u64 "reasoning_tokens" details |}.

(** [compact_body] *)
Definition compact_body (body : string) : string :=
  let compact := join " " (split_whitespace body) in
  if is_empty compact then "empty response" else compact.

(** [raw_json.get("delta")] when it is text and not empty. *)
Definition delta_text (raw_json : Value) : option string :=
  text ← get_str "delta" raw_json; if is_empty text then None else Some text.
Definition delta_chunk (to_delta : string -> CompletionDelta) (raw_json : Value) : list CompletionChunk :=
  match delta_text raw_json with Some text => [chunk_of [to_delta text]] | None => [] end.

(** The [match] on the kind of the event. *)
Definition dispatch_response (kind data : string) (raw_json : Value) (tool_calls : ToolCalls)
    : Result (list CompletionChunk * ToolCalls) :=
  match kind with
  | "response.output_text.delta" => Ok (delta_chunk AppendText raw_json, tool_calls)
  | "response.refusal.delta" =>
      Ok (delta_chunk (fun text => AppendRefusal (Some text) (Some "refusal") None) raw_json, tool_calls)
  | "response.reasoning_summary_text.delta" =>
      Ok (delta_chunk (fun text => AppendReasoning (Some text) false None) raw_json, tool_calls)
  | "response.output_item.added" =>
      Ok match value_get "item" raw_json with
         | Some item => apply_output_item_added tool_calls item raw_json
         | None => ([], tool_calls)
         end
  | "response.function_call_arguments.delta" =>
      Ok match get_str "item_id" raw_json, delta_text raw_json with
         | Some item_id, Some delta => apply_function_call_argument_delta tool_calls item_id delta raw_json
         | _, _ => ([], tool_calls)
         end
  | "response.function_call_arguments.done" =>
      Ok match get_str "item_id" raw_json, get_str "arguments" raw_json with
         | Some item_id, Some arguments => reconcile_function_call_arguments tool_calls item_id arguments raw_json
         | _, _ => ([], tool_calls)
         end
  | "response.output_item.done" =>
      Ok match value_get "item" raw_json with
         | Some item => apply_output_item_done tool_calls item raw_json
         | None => ([], tool_calls)
         end
  | "response.completed" =>
      Ok (match (response ← value_get "response" raw_json; usage ← value_get "usage" response;
                 token_usage_from_chatgpt usage) with
          | Some usage => [usage_chunk usage]
          | None => []
          end, tool_calls)
  | "response.failed" | "error" =>
      Err (Provider ("ChatGPT Responses stream failed: " +:+ compact_body data))
  | _ => Ok ([], tool_calls)
  end.

Section chatgpt.
(** [serde_json::from_str], [Value::to_string] *)
Context (from_str : string -> option Value) (value_to_string : Value -> string).

(** [completion_chunks_from_responses_event] *)
Definition completion_chunks_from_responses_event (data : string) (tool_calls : ToolCalls)
    : Result (list CompletionChunk * ToolCalls) :=
  if String.eqb (trim data) "[DONE]"
  then Ok (attach_raw_to_all (flush_chatgpt tool_calls) (VString "[DONE]"), ∅)
  else
    raw_json ← ok_or (JsonError "") (from_str data);
    '(chunks, tool_calls) ← dispatch_response (default "" (get_str "type" raw_json)) data raw_json tool_calls;
    Ok (attach_raw_to_all match chunks with [] => [chunk_of []] | _ => chunks end raw_json, tool_calls).

Definition chatgpt_event (event : SseEvent) (tool_calls : ToolCalls) : list CompletionChunk * Result ToolCalls :=
  match completion_chunks_from_responses_event (sse_data event) tool_calls with
  | Err e => ([], Err e)
  | Ok (chunks, tool_calls) => (chunks, Ok tool_calls)
  end.

(** The stream of [stream_completion]. *)
Definition chatgpt_stream (arrivals : list (Result string)) : list CompletionChunk * Result unit :=
  run_stream chatgpt_event (fun tool_calls => (flush_chatgpt tool_calls, Ok tt)) "" ∅ arrivals.

(** ** The request *)

(** [stringify_message_value] *)
Definition stringify_value (value : Value) : string :=
  match value with VString text => text | _ => value_to_string value end.

(** [render_visible_message_text] *)
Definition visible_part (part : MessagePart) : option string :=
  match part with
  | PText text => Some text
  | PRefusal (Some text) _ _ => Some text
  | PStructured _ value => Some (stringify_value value)
  | PToolResult result => Some (stringify_value (tr_output result))
  | PReasoning _ _ _ | PToolCall _ | PRefusal None _ _ => None
  end.
Definition render_visible_message_text (parts : list MessagePart) : string := join "" (omap visible_part parts).

(** [message_input_text_item] *)
Definition message_input_text_item (role text : string) : Value :=
  json_object [("type", VString "message"); ("role", VString role);
               ("content", VArray [json_object [("type", VString "input_text"); ("text", VString text)]])].

(** [assistant_message_item_id] *)
Definition assistant_message_item_id (index : nat) : string := "msg_" +:+ show_Z (Z.of_nat (index + 1)).

(** The items so far, the index of the next assistant message, and the text
    that was not sent yet. *)
Record InputState : Type := MkInputState {
  in_items : list Value;
  in_index : nat;
  in_buffered : string;
}.
Definition push_item (st : InputState) (item : Value) : InputState :=
  MkInputState (in_items st ++ [item]) (in_index st) (in_buffered st).

Definition assistant_text_item (index : nat) (text : string) : Value :=
  json_object [("type", VString "message"); ("id", VString (assistant_message_item_id index));
               ("role", VString "assistant"); ("status", VString "completed");
               ("content", VArray [json_object [("type", VString "output_text"); ("text", VString text);
                                                ("annotations", VArray [])]])].

(** [flush_assistant_text] *)
Definition flush_assistant_text (st : InputState) : InputState :=
  if is_blank (in_buffered st) then MkInputState (in_items st) (in_index st) ""
  else MkInputState (in_items st ++ [assistant_text_item (in_index st) (in_buffered st)]) (S (in_index st)) "".

Definition buffer_text (st : InputState) (text : string) : InputState :=
  MkInputState (in_items st) (in_index st) (in_buffered st +:+ text).

Definition function_call_item (call : ToolCall) : Value :=
  json_object [("type", VString "function_call"); ("id", VString (function_item_id (tc_call_id call)));
               ("call_id", VString (tc_call_id call)); ("name", VString (tc_tool_name call));
               ("arguments", VString (stringify_value (tc_arguments call)))].

(** [function_call_output_item] *)
Definition function_call_output_item (result : ToolResultEnvelope) : Value :=
  json_object [("type", VString "function_call_output"); ("call_id", VString (call_name (tr_call_id result)));
               ("output", VString (stringify_value (tr_output result)))].

Definition replayed_item (replay : Value) : option Value :=
  match get_str "provider" replay with
  | Some "openai-chatgpt" => value_get "item" replay
  | _ => None
  end.

(** The body of the loop of [extend_assistant_input_items]. *)
Definition extend_assistant_part (st : InputState) (part : MessagePart) : InputState :=
  match part with
  | PText text => buffer_text st text
  | PRefusal (Some text) _ _ => buffer_text st text
  | PStructured _ value => buffer_text st (stringify_value value)
  | PToolCall call => push_item (flush_assistant_text st) (function_call_item call)
  | PToolResult result => push_item (flush_assistant_text st) (function_call_output_item result)
  | PReasoning _ _ (Some replay) =>
      match replayed_item replay with
      | Some item => push_item (flush_assistant_text st) item
      | None => st
      end
  | PReasoning _ _ None | PRefusal None _ _ => st
  end.

(** [extend_assistant_input_items] *)
Definition extend_assistant_input_items (parts : list MessagePart) (items : list Value) (index : nat)
    : list Value * nat :=
  let st := flush_assistant_text (fold_left extend_assistant_part parts (MkInputState items index "")) in
  (in_items st, in_index st).

(** [extend_tool_result_items] *)
Definition tool_result_item (part : MessagePart) : option Value :=
  match part with PToolResult result => Some (function_call_output_item result) | _ => None end.

(** [request_input_items] *)
Definition extend_input_items (st : list Value * nat) (message : Message) : list Value * nat :=
  let '(items, index) := st in
  match msg_role message with
  | RoleSystem => st
  | RoleUser =>
      let text := render_visible_message_text (msg_parts message) in
      if is_blank text then st else (items ++ [message_input_text_item "user" text], index)
  | RoleAssistant => extend_assistant_input_items (msg_parts message) items index
  | RoleTool => (items ++ omap tool_result_item (msg_parts message), index)
  end.
Definition request_input_items (messages : list Message) : list Value :=
  fst (fold_left extend_input_items messages ([], 0%nat)).

(** [request_instructions] *)
Definition system_section (message : Message) : option string :=
  match msg_role message with
  | RoleSystem =>
      let text := trim (render_visible_message_text (msg_parts message)) in
      if is_empty text then None else Some text
  | _ => None
  end.
Definition request_instructions (request : CompletionRequest) : string :=
  let sections := match trim <$> cr_system_prompt request with
                  | Some prompt => if is_empty prompt then [] else [prompt]
                  | None => []
                  end ++ omap system_section (cr_messages request) in
  match sections with [] => DEFAULT_CHATGPT_INSTRUCTIONS | _ => join (nl +:+ nl) sections end.

Record ChatGptReasoning : Type := MkChatGptReasoning {
  cg_effort : ThinkingEffort;
  cg_summary : option string;
}.
Record ChatGptTool : Type := MkChatGptTool {
  ct_kind : string;
  ct_name : string;
  ct_description : string;
  ct_parameters : Value;
}.
Record ChatGptResponsesRequest : Type := MkChatGptRequest {
  gq_model : string;
  gq_instructions : string;
  gq_input : list Value;
  gq_stream : bool;
  gq_store : bool;
  gq_include : option (list string);
  gq_reasoning : option ChatGptReasoning;
  gq_tools : option (list ChatGptTool);
  gq_tool_choice : option string;
  gq_parallel_tool_calls : option bool;
  gq_temperature : option f64;
}.

(** [chatgpt_reasoning] *)
Definition chatgpt_reasoning (thinking : option ThinkingConfig) : option ChatGptReasoning :=
  thinking ← thinking;
  if negb (th_enabled thinking) then None
  else Some (MkChatGptReasoning (default EffortHigh (th_effort thinking))
               (if th_include_summaries thinking then Some "auto" else None)).

Definition tool_spec_to_chatgpt (spec : ToolSpec) : ChatGptTool :=
  MkChatGptTool "function" (ts_name spec) (ts_description spec) (ts_parameters_schema spec).

(** [build_request] *)
Definition build_chatgpt_request (request : CompletionRequest) : ChatGptResponsesRequest :=
  let reasoning := chatgpt_reasoning (cr_thinking request) in
  let has_tools := match cr_tools request with [] => false | _ => true end in
  {| gq_model := cr_model request;
     gq_instructions := request_instructions request;
     gq_input := request_input_items (cr_messages request);
     gq_stream := true;
     gq_store := false;
     gq_include := if is_some reasoning then Some ["reasoning.encrypted_content"] else None;
     gq_reasoning := reasoning;
     gq_tools := if has_tools then Some (List.map tool_spec_to_chatgpt (cr_tools request)) else None;
     gq_tool_choice := if has_tools then Some "auto" else None;
     gq_parallel_tool_calls := if has_tools then Some true else None;
     gq_temperature := cr_temperature request |}.

(** The start of [stream_completion]: what is refused before anything is
    sent. *)
Definition chatgpt_request (request : CompletionRequest) : Result ChatGptResponsesRequest :=
  _ ← reject_if (is_some (cr_structured_output request))
        (Unsupported "structured output is not supported for provider `openai-chatgpt` yet");
  Ok (build_chatgpt_request request).
End chatgpt.

(** [parse_chatgpt_model_ids] *)
Definition chatgpt_model_id (model : Value) : option string :=
  if default true (v ← value_get "supported_in_api" model; as_bool v)
  then or_prior (get_str "slug" model) (get_str "id" model)
  else None.
Definition parse_chatgpt_model_ids (payload : Value) : list string :=
  omap chatgpt_model_id (default [] (models ← value_get "models" payload; as_array models)).

(** [chatgpt_account_id], on the account of the credentials' metadata. *)
Definition chatgpt_account_id (account_id : option string) : Result string :=
  ok_or (Auth "ChatGPT credentials are missing `chatgpt_account_id`; rerun `belltower login chatgpt`") account_id.
