(* ===== verification/ChatGptLaws.v ===== *)
(** * What a stream of the ChatGPT provider means

    The items of an answer, streamed side by side, are collected whole, and
    the arguments that the service reports at the end complete what was
    streamed; when they disagree with it, both are kept. *)

From stdpp Require Import base list strings gmap sorting.
From Stdlib Require Import ZArith Lia.
From S2P Require Import Prelude Text Utf8 Json Types Messages AgentStream Sse ProviderStream StreamedCalls ChatGpt.

#[local] Open Scope Z_scope.

(** ** Answers *)

(** What a service says about the items of an answer. *)
Inductive ItemEvent : Type :=
  | ItText (text : string)
  | ItSummary (text : string)
  | ItReasoning (encrypted : Value)
  | ItAdded (item call_id name : string)
  | ItDelta (item text : string)
  | ItArguments (item arguments : string)
  | ItDone (item call_id name arguments : string)
  | ItCompleted (input_tokens output_tokens : Z).

Definition number_value (z : Z) : Value := VNumber (PosInt z).
Definition function_item (item call_id name : string) (arguments : string) : Value :=
  json_object [("type", VString "function_call"); ("id", VString item); ("call_id", VString call_id);
               ("name", VString name); ("arguments", VString arguments)].
Definition reasoning_item (encrypted : Value) : Value :=
  json_object [("type", VString "reasoning"); ("encrypted_content", encrypted)].

Definition item_event_value (ev : ItemEvent) : Value :=
  match ev with
  | ItText text => json_object [("type", VString "response.output_text.delta"); ("delta", VString text)]
  | ItSummary text => json_object [("type", VString "response.reasoning_summary_text.delta"); ("delta", VString text)]
  | ItReasoning encrypted =>
      json_object [("type", VString "response.output_item.done"); ("item", reasoning_item encrypted)]
  | ItAdded item call_id name =>
      json_object [("type", VString "response.output_item.added"); ("item", function_item item call_id name "")]
  | ItDelta item text =>
      json_object [("type", VString "response.function_call_arguments.delta"); ("item_id", VString item);
                   ("delta", VString text)]
  | ItArguments item arguments =>
      json_object [("type", VString "response.function_call_arguments.done"); ("item_id", VString item);
                   ("arguments", VString arguments)]
  | ItDone item call_id name arguments =>
      json_object [("type", VString "response.output_item.done"); ("item", function_item item call_id name arguments)]
  | ItCompleted input_tokens output_tokens =>
      json_object [("type", VString "response.completed");
                   ("response", json_object [("usage", json_object [("input_tokens", number_value input_tokens);
                                                                    ("output_tokens", number_value output_tokens)])])]
  end.

(** An item that is open: its call, the arguments the provider knows of, and
    those it has passed on. *)
Record OpenItem : Type := MkOpenItem {
  oi_call_id : string;
  oi_name : string;
  oi_arguments : string;
  oi_passed : string;
}.
Abbreviation OpenItems := (gmap string OpenItem).

(** What reporting all arguments adds to those passed on: what is missing, or,
    when they do not start with what was streamed, all of them. *)
Definition passed_after (i : OpenItem) (full : string) : string :=
  oi_passed i +:+ match strip_prefix (oi_arguments i) full with Some rest => rest | None => full end.

Definition fragment_of (text : string) (i : OpenItem) : OpenItem :=
  MkOpenItem (oi_call_id i) (oi_name i) (oi_arguments i +:+ text) (oi_passed i +:+ text).
Definition told_all (full : string) (i : OpenItem) : OpenItem :=
  MkOpenItem (oi_call_id i) (oi_name i) full (passed_after i full).

Definition some_text (part : string -> MessagePart) (text : string) : list MessagePart :=
  if is_empty text then [] else [part text].

Definition open_acc (i : OpenItem) : StreamingToolCallAccumulator :=
  MkAccumulator (oi_call_id i) (oi_name i) None (oi_passed i).

Definition event_items (items : OpenItems) (ev : ItemEvent) : OpenItems :=
  match ev with
  | ItAdded item call_id name => <[item := MkOpenItem call_id name "" ""]> items
  | ItDelta item text => alter (fragment_of text) item items
  | ItArguments item arguments => alter (told_all arguments) item items
  | ItDone item _ _ _ => delete item items
  | _ => items
  end.
Definition event_parts (ev : ItemEvent) : list MessagePart :=
  match ev with
  | ItText text => some_text PText text
  | ItSummary text => some_text (fun t => PReasoning (Some t) false None) text
  | ItReasoning encrypted => [PReasoning None false (Some (chatgpt_replay (reasoning_item encrypted)))]
  | _ => []
  end.

(** A service that streams items well: an item is added once at a time, under
    a call id that no open item has, and its fragments and its arguments come
    while it is open. *)
Definition item_ok (items : OpenItems) (ev : ItemEvent) : Prop :=
  match ev with
  | ItAdded item call_id name =>
      items !! item = None /\ is_blank call_id = false /\ is_blank name = false
      /\ forall other i, items !! other = Some i -> oi_call_id i <> call_id
  | ItDelta item _ | ItArguments item _ | ItDone item _ _ _ => is_Some (items !! item)
  | _ => True
  end.

(** ** The simulation *)

Section simulation.
Context (from_str : string -> option Value).

Definition finalized (a : StreamingToolCallAccumulator) : list CompletedToolCall :=
  match finalize_tool_call from_str a with Ok call => [call] | Err _ => [] end.
Definition event_calls (items : OpenItems) (ev : ItemEvent) : list CompletedToolCall :=
  match ev with
  | ItDone item _ _ arguments =>
      match items !! item with Some i => finalized (open_acc (told_all arguments i)) | None => [] end
  | _ => []
  end.

Definition acc_of_item (i : OpenItem) (a : ChatGptAccumulator) : Prop :=
  ca_call_id a = Some (oi_call_id i) /\ ca_name a = Some (oi_name i) /\ ca_opened a = true
  /\ ca_arguments a = oi_arguments i.

Definition open_list (items : OpenItems) : list StreamingToolCallAccumulator :=
  List.map (fun ki => open_acc ki.2) (map_to_list items).

Record related (items : OpenItems) (tool_calls : ToolCalls) (st : CollectState) : Prop := {
  rel_items : forall k, match items !! k, tool_calls !! k with
                        | Some i, Some a => acc_of_item i a
                        | None, None => True
                        | _, _ => False
                        end;
  rel_ids : forall k j i i', items !! k = Some i -> items !! j = Some i' -> oi_call_id i = oi_call_id i' -> k = j;
  rel_named : forall k i, items !! k = Some i -> is_blank (oi_call_id i) = false /\ is_blank (oi_name i) = false;
  rel_open : co_open_tool_calls st ≡ₚ open_list items;
}.

Lemma open_list_insert items k i : items !! k = None -> open_list (<[k := i]> items) ≡ₚ open_acc i :: open_list items.
Proof. intros H. exact (Permutation_map _ (map_to_list_insert items k i H)). Qed.
Lemma open_list_delete items k i : items !! k = Some i -> open_list items ≡ₚ open_acc i :: open_list (delete k items).
Proof. intros H. symmetry. exact (Permutation_map _ (map_to_list_delete items k i H)). Qed.

Lemma open_list_id items id :
  id ∈ open_ids (open_list items) -> exists k i, items !! k = Some i /\ oi_call_id i = id.
Proof.
  unfold open_ids, open_list. rewrite map_map. intros ([k i] & <- & H)%list_elem_of_In%in_map_iff.
  exists k, i. split; [|done]. by apply elem_of_map_to_list, list_elem_of_In.
Qed.

Lemma open_list_NoDup items :
  (forall k j i i', items !! k = Some i -> items !! j = Some i' -> oi_call_id i = oi_call_id i' -> k = j) ->
  NoDup (open_ids (open_list items)).
Proof.
  induction items as [|k i items Hk IH] using map_ind; intros H; [by apply NoDup_nil_2|].
  unfold open_ids in *. rewrite open_list_insert by done. cbn. apply NoDup_cons. split.
  - intros Hin. apply open_list_id in Hin as (j & i' & Hj & E).
    assert (k = j) as ->; [|congruence]. apply (H k j i i'); [apply lookup_insert_eq| |done].
    rewrite lookup_insert_ne; [done|congruence].
  - apply IH. intros j j' i1 i2 H1 H2. apply H; rewrite lookup_insert_ne; congruence.
Qed.

Lemma items_NoDup items tool_calls st : related items tool_calls st -> NoDup (open_ids (co_open_tool_calls st)).
Proof. intros [_ Hi _ Ho]. unfold open_ids in *. rewrite Ho. by apply open_list_NoDup. Qed.

(** An item is known to the provider as it is open. *)
Lemma related_lookup items tool_calls st k i :
  related items tool_calls st -> items !! k = Some i ->
  exists a, tool_calls !! k = Some a /\ acc_of_item i a.
Proof. intros [H _ _ _] Hk. specialize (H k). rewrite Hk in H. destruct (tool_calls !! k); [by eexists|done]. Qed.

(** Text passed on for an open item. *)
Lemma related_append items tool_calls st k i i' a' texts :
  related items tool_calls st -> items !! k = Some i -> acc_of_item i' a' ->
  oi_call_id i' = oi_call_id i -> oi_name i' = oi_name i -> oi_passed i' = oi_passed i +:+ concat_str texts ->
  exists open, apply_deltas from_str st (List.map (AppendToolCallArguments (oi_call_id i)) texts) = Ok (set_open st open)
    /\ related (<[k := i']> items) (<[k := a']> tool_calls) (set_open st open).
Proof.
  intros Hr Hk Ha Ec En Ep. pose proof (items_NoDup _ _ _ Hr) as Hnd. destruct Hr as [Hi Hids Hn Ho].
  pose proof Ho as Ho'. rewrite (open_list_delete _ _ _ Hk) in Ho'.
  destruct (append_all_to_call from_str texts st _ _ _ _ _ Ho' Hnd) as (open & E & P).
  exists open. split; [done|]. constructor.
  - intros j. destruct (decide (j = k)) as [->|Hj]; [by rewrite !lookup_insert_eq|].
    rewrite !lookup_insert_ne by done. apply Hi.
  - assert (forall j x, <[k := i']> items !! j = Some x -> exists y, items !! j = Some y /\ oi_call_id x = oi_call_id y) as Hsame.
    { intros j x. destruct (decide (j = k)) as [->|Hj]; [rewrite lookup_insert_eq|rewrite lookup_insert_ne by done; by eauto].
      intros [= <-]. by exists i. }
    intros j j' x x' (y & Hy & Ey)%Hsame (y' & Hy' & Ey')%Hsame Hx. eapply Hids; eauto. congruence.
  - intros j x. destruct (decide (j = k)) as [->|Hj]; [rewrite lookup_insert_eq|rewrite lookup_insert_ne by done; by eauto].
    intros [= <-]. rewrite Ec, En. eauto.
  - cbn [set_open co_open_tool_calls]. rewrite P, <- (insert_delete_eq items), open_list_insert by apply lookup_delete_eq.
    unfold open_acc. by rewrite Ec, En, Ep.
Qed.
(** The state after an event that adds parts and calls. *)
Definition stepped (items : OpenItems) (tool_calls : ToolCalls) (st : CollectState)
    (deltas : list CompletionDelta) (parts : list MessagePart) (calls : list CompletedToolCall) : Prop :=
  exists open, apply_deltas from_str st deltas = Ok (with_calls (add_parts st parts) calls open)
    /\ related items tool_calls (with_calls (add_parts st parts) calls open).

Lemma related_same items tool_calls st st' :
  related items tool_calls st -> co_open_tool_calls st' = co_open_tool_calls st -> related items tool_calls st'.
Proof. intros [H1 H2 H3 H4] E. constructor; try done. by rewrite E. Qed.

Lemma stepped_parts items tool_calls st deltas parts :
  related items tool_calls st -> apply_deltas from_str st deltas = Ok (add_parts st parts) ->
  stepped items tool_calls st deltas parts [].
Proof.
  intros Hr E. exists (co_open_tool_calls st). unfold with_calls. cbn [add_parts set_parts co_tool_calls co_assistant_parts co_open_tool_calls co_chunks co_usage].
  rewrite app_nil_r. split; [|by eapply related_same]. rewrite E. done.
Qed.

Lemma stepped_open items tool_calls st deltas open :
  apply_deltas from_str st deltas = Ok (set_open st open) -> related items tool_calls (set_open st open) ->
  stepped items tool_calls st deltas [] [].
Proof.
  intros E Hr. exists open. unfold with_calls. cbn. rewrite app_nil_r. split; [by rewrite E|]. by eapply related_same.
Qed.

Lemma step_added items tool_calls st item cid name raw :
  related items tool_calls st -> item_ok items (ItAdded item cid name) ->
  let '(chunks, tool_calls') := apply_output_item_added tool_calls (function_item item cid name "") raw in
  stepped (event_items items (ItAdded item cid name)) tool_calls' st (deltas_of chunks) [] [].
Proof.
  intros Hr (Hn & Hb1 & Hb2 & Hfresh). destruct Hr as [Hi Hids Hnamed Ho].
  assert (tool_calls !! item = None) as Ht
    by (specialize (Hi item); rewrite Hn in Hi; by destruct (tool_calls !! item)).
  unfold apply_output_item_added. change (is_function_call (function_item item cid name "")) with true.
  change (item_id_of (function_item item cid name "")) with (Some item). cbn [negb]. rewrite Ht.
  change (get_str "call_id" (function_item item cid name "")) with (Some cid).
  change (get_str "name" (function_item item cid name "")) with (Some name).
  change (get_str "arguments" (function_item item cid name "")) with (Some "").
  cbn [default from_option id chatgpt_accumulator_default ca_call_id ca_name ca_opened ca_arguments or_prior
       open_tool_call_if_ready semantic_tool_call_chunks].
  change (is_empty ("" +:+ "")) with true. cbn iota. unfold deltas_of. cbn [List.map List.concat ck_deltas chunk_of app].
  assert (~ cid ∈ open_ids (co_open_tool_calls st)) as Hnew.
  { unfold open_ids. rewrite Ho. intros (k & i & Hk & E)%open_list_id. by eapply Hfresh. }
  eapply stepped_open; [cbn [apply_deltas]; by rewrite open_fresh_call|].
  constructor.
  - intros k. cbn [event_items]. destruct (decide (k = item)) as [->|Hk]; [by rewrite !lookup_insert_eq|].
    rewrite !lookup_insert_ne by done. apply Hi.
  - cbn [event_items]. intros k j i i'.
    destruct (decide (k = item)) as [->|Hk], (decide (j = item)) as [->|Hj];
      rewrite ?lookup_insert_eq, ?lookup_insert_ne by done; intros H1 H2 E; simplify_eq; try done.
    + by destruct (Hfresh _ _ H2).
    + by destruct (Hfresh _ _ H1).
    + eauto.
  - cbn [event_items]. intros k i. destruct (decide (k = item)) as [->|Hk]; [rewrite lookup_insert_eq|rewrite lookup_insert_ne by done; eauto].
    by intros [= <-].
  - cbn [event_items set_open co_open_tool_calls]. rewrite open_list_insert by done. unfold open_acc. cbn.
    rewrite <- Permutation_cons_append. by rewrite Ho.
Qed.

Lemma opened_ready a : ca_opened a = true -> open_tool_call_if_ready a = ([], a).
Proof. intros H. unfold open_tool_call_if_ready. by rewrite H. Qed.

Lemma step_delta items tool_calls st item text raw :
  related items tool_calls st -> is_Some (items !! item) -> text <> "" ->
  let '(chunks, tool_calls') := apply_function_call_argument_delta tool_calls item text raw in
  stepped (alter (fragment_of text) item items) tool_calls' st (deltas_of chunks) [] [].
Proof.
  intros Hr [i Hk] Hne. destruct (related_lookup _ _ _ _ _ Hr Hk) as (a & Ha & (E1 & E2 & E3 & E4)).
  unfold apply_function_call_argument_delta. rewrite Ha, opened_ready by done.
  set (a' := set_source_raw (set_arguments a (ca_arguments a +:+ text)) raw). change (ca_opened a') with (ca_opened a).
  rewrite E3. unfold append_to. change (ca_call_id a') with (ca_call_id a). rewrite E1. cbn [app semantic_tool_call_chunks].
  unfold deltas_of. cbn [List.map List.concat ck_deltas chunk_of]. rewrite app_nil_r.
  destruct (related_append items tool_calls st item i (fragment_of text i) a' [text] Hr Hk) as (open & E & Hr'); try done.
  - split_and!; [done..|]. cbn. by rewrite E4.
  - cbn. by rewrite append_nil_r.
  - rewrite alter_alt, Hk. by eapply stepped_open.
Qed.
(** Telling all arguments of an open item. *)
Definition told_texts (i : OpenItem) (full : string) : list string :=
  match strip_prefix (oi_arguments i) full with
  | Some rest => if is_empty rest then [] else [rest]
  | None => [full]
  end.

Lemma told_texts_passed i full : passed_after i full = oi_passed i +:+ concat_str (told_texts i full).
Proof.
  unfold passed_after, told_texts. destruct (strip_prefix (oi_arguments i) full) as [rest|].
  - unfold is_empty. destruct (String.eqb_spec rest "") as [->|]; [done|]. simpl. by rewrite append_nil_r.
  - simpl. by rewrite append_nil_r.
Qed.

Lemma step_arguments items tool_calls st item full raw :
  related items tool_calls st -> is_Some (items !! item) ->
  let '(chunks, tool_calls') := reconcile_function_call_arguments tool_calls item full raw in
  stepped (alter (told_all full) item items) tool_calls' st (deltas_of chunks) [] [].
Proof.
  intros Hr [i Hk]. destruct (related_lookup _ _ _ _ _ Hr Hk) as (a & Ha & (E1 & E2 & E3 & E4)).
  unfold reconcile_function_call_arguments. rewrite Ha, opened_ready by done. cbn [app].
  set (a' := set_arguments (set_source_raw a raw) full).
  assert (reconcile_deltas (set_source_raw a raw) full = List.map (AppendToolCallArguments (oi_call_id i)) (told_texts i full)) as ->.
  { unfold reconcile_deltas, told_texts, append_to. cbn [set_source_raw ca_arguments ca_call_id]. rewrite E1, E4.
    destruct (strip_prefix _ _); [by destruct (is_empty _)|done]. }
  assert (forall ds, deltas_of (semantic_tool_call_chunks ds) = ds) as Hds
    by (intros [|d ds]; [done|unfold deltas_of; cbn; by rewrite app_nil_r]).
  rewrite Hds.
  destruct (related_append items tool_calls st item i (told_all full i) a' (told_texts i full) Hr Hk) as (open & E & Hr'); try done.
  - apply told_texts_passed.
  - rewrite alter_alt, Hk. by eapply stepped_open.
Qed.

(** An item that is closed. *)
Lemma related_close items tool_calls st item i :
  related items tool_calls st -> items !! item = Some i ->
  exists open, apply_delta from_str st (CloseToolCall (oi_call_id i)) = Ok (with_calls st (finalized (open_acc i)) open)
    /\ related (delete item items) (delete item tool_calls) (with_calls st (finalized (open_acc i)) open).
Proof.
  intros Hr Hk. pose proof (items_NoDup _ _ _ Hr) as Hnd. destruct Hr as [Hi Hids Hn Ho].
  pose proof Ho as Ho'. rewrite (open_list_delete _ _ _ Hk) in Ho'.
  destruct (Hn _ _ Hk) as [Hb1 Hb2]. destruct (finalize_named from_str (open_acc i) Hb1 Hb2) as [call Hf].
  destruct (close_call from_str st (open_acc i) _ call Ho' Hnd Hf) as (open & E & P).
  exists open. unfold finalized. rewrite Hf. split; [done|]. constructor.
  - intros k. destruct (decide (k = item)) as [->|Hne]; [by rewrite !lookup_delete_eq|].
    rewrite !lookup_delete_ne by done. apply Hi.
  - intros k j x x' [_ Hx]%lookup_delete_Some [_ Hx']%lookup_delete_Some. by eapply Hids.
  - intros k x [_ Hx]%lookup_delete_Some. by eapply Hn.
  - exact P.
Qed.

Lemma with_calls_nil st open : with_calls (set_open st open) [] open = set_open st open.
Proof. unfold with_calls. cbn. by rewrite app_nil_r. Qed.

Lemma step_done items tool_calls st item cid name full raw :
  related items tool_calls st -> is_Some (items !! item) ->
  let '(chunks, tool_calls') := apply_output_item_done tool_calls (function_item item cid name full) raw in
  stepped (delete item items) tool_calls' st (deltas_of chunks) [] (event_calls items (ItDone item cid name full)).
Proof.
  intros Hr Hsome. pose proof Hsome as [i Hk]. pose proof (step_arguments _ _ _ _ full raw Hr Hsome) as Hargs.
  unfold apply_output_item_done. change (is_encrypted_reasoning (function_item item cid name full)) with false.
  change (is_function_call (function_item item cid name full)) with true.
  change (item_id_of (function_item item cid name full)) with (Some item).
  change (get_str "arguments" (function_item item cid name full)) with (Some full). cbn [negb]. cbn iota.
  destruct (reconcile_function_call_arguments tool_calls item full raw) as [chunks tc].
  destruct Hargs as (open & E & Hr'). unfold with_calls in E, Hr'. cbn in E, Hr'. rewrite app_nil_r in E, Hr'.
  rewrite alter_alt, Hk in Hr'.
  destruct (related_lookup _ _ _ item (told_all full i) Hr' (lookup_insert_eq _ _ _)) as (a & Ha & (E1 & E2 & E3 & E4)).
  rewrite Ha. unfold finalize_deltas. rewrite E1, E2, E3. cbn [app told_all oi_call_id].
  destruct (related_close _ _ _ item (told_all full i) Hr' (lookup_insert_eq _ _ _)) as (open' & Ec & Hc).
  rewrite delete_insert_eq in Hc. cbn [told_all oi_call_id] in Ec. cbn [event_calls]. rewrite Hk.
  assert (forall ds, deltas_of (semantic_tool_call_chunks ds) = ds) as Hds
    by (intros [|d ds]; [done|unfold deltas_of; cbn; by rewrite app_nil_r]).
  rewrite Hds. exists open'. split; [|done]. rewrite apply_deltas_app, E. cbn [mbind result_bind apply_deltas]. by rewrite Ec.
Qed.

Lemma delta_text_of members text :
  get_str "delta" members = Some text -> delta_text members = if is_empty text then None else Some text.
Proof. unfold delta_text. by intros ->. Qed.

(** One event. *)
Lemma step_event items tool_calls st ev data :
  related items tool_calls st -> item_ok items ev ->
  let v := item_event_value ev in
  exists chunks tool_calls', dispatch_response (default "" (get_str "type" v)) data v tool_calls = Ok (chunks, tool_calls')
    /\ stepped (event_items items ev) tool_calls' st (deltas_of chunks) (event_parts ev) (event_calls items ev).
Proof.
  intros Hr Hok v. destruct ev as [text|text|encrypted|item cid name|item text|item full|item cid name full|it ot];
    cbn [event_items event_parts event_calls].
  - change (dispatch_response _ data v tool_calls) with (Ok (delta_chunk AppendText v, tool_calls) : Result _).
    eexists _, _. split; [reflexivity|]. apply stepped_parts; [done|]. unfold delta_chunk.
    rewrite (delta_text_of v text eq_refl). unfold some_text. destruct (is_empty text); by destruct st.
  - change (dispatch_response _ data v tool_calls)
      with (Ok (delta_chunk (fun t => AppendReasoning (Some t) false None) v, tool_calls) : Result _).
    eexists _, _. split; [reflexivity|]. apply stepped_parts; [done|]. unfold delta_chunk.
    rewrite (delta_text_of v text eq_refl). unfold some_text. destruct (is_empty text); by destruct st.
  - change (dispatch_response _ data v tool_calls)
      with (Ok ([chunk_of [AppendReasoning None false (Some (chatgpt_replay (reasoning_item encrypted)))]], tool_calls) : Result _).
    eexists _, _. split; [reflexivity|]. by apply stepped_parts.
  - change (dispatch_response _ data v tool_calls)
      with (Ok (apply_output_item_added tool_calls (function_item item cid name "") v) : Result _).
    pose proof (step_added _ _ _ item cid name v Hr Hok) as H. destruct (apply_output_item_added _ _ _). by eexists _, _.
  - change (dispatch_response _ data v tool_calls)
      with (Ok match delta_text v with Some delta => apply_function_call_argument_delta tool_calls item delta v
               | None => ([], tool_calls) end : Result _).
    rewrite (delta_text_of v text eq_refl). unfold is_empty. destruct (String.eqb_spec text "") as [->|Hne].
    + eexists _, _. split; [reflexivity|].
      assert (alter (fragment_of "") item items = items) as ->.
      { apply alter_id. intros [] _. unfold fragment_of. cbn. by rewrite !append_nil_r. }
      apply stepped_parts; [done|by destruct st].
    + pose proof (step_delta _ _ _ item text v Hr Hok Hne) as H.
      destruct (apply_function_call_argument_delta _ _ _ _). by eexists _, _.
  - change (dispatch_response _ data v tool_calls)
      with (Ok (reconcile_function_call_arguments tool_calls item full v) : Result _).
    pose proof (step_arguments _ _ _ item full v Hr Hok) as H. destruct (reconcile_function_call_arguments _ _ _ _).
    by eexists _, _.
  - change (dispatch_response _ data v tool_calls)
      with (Ok (apply_output_item_done tool_calls (function_item item cid name full) v) : Result _).
    pose proof (step_done _ _ _ item cid name full v Hr Hok) as H. destruct (apply_output_item_done _ _ _).
    by eexists _, _.
  - eexists _, tool_calls. split; [reflexivity|]. by apply stepped_parts; [|destruct st].
Qed.
(** ** Streams *)

Fixpoint items_ok (items : OpenItems) (evs : list ItemEvent) : Prop :=
  match evs with [] => True | ev :: evs => item_ok items ev /\ items_ok (event_items items ev) evs end.
Fixpoint items_calls (items : OpenItems) (evs : list ItemEvent) : list CompletedToolCall :=
  match evs with [] => [] | ev :: evs => event_calls items ev ++ items_calls (event_items items ev) evs end.
Definition event_usage (u : option TokenUsage) (ev : ItemEvent) : option TokenUsage :=
  match ev with
  | ItCompleted it ot => Some (MkTokenUsage it ot (u64_add it ot) None None None)
  | _ => u
  end.

Definition carries_item (event : SseEvent) (ev : ItemEvent) : Prop :=
  String.eqb (trim (sse_data event)) "[DONE]" = false /\ from_str (sse_data event) = Some (item_event_value ev).

(** Only the end of a response reports usage. *)
Definition no_usage (chunks : list CompletionChunk) : Prop := Forall (fun chunk => ck_usage chunk = None) chunks.

Lemma semantic_no_usage ds : no_usage (semantic_tool_call_chunks ds).
Proof. destruct ds; by repeat constructor. Qed.
Lemma delta_no_usage to_delta v : no_usage (delta_chunk to_delta v).
Proof. unfold delta_chunk. destruct (delta_text v); by repeat constructor. Qed.
Lemma none_no_usage : no_usage [].
Proof. by apply List.Forall_nil. Qed.

Ltac no_usage_cases :=
  repeat case_match; simplify_eq; cbn [fst];
  solve [apply semantic_no_usage|apply delta_no_usage|apply none_no_usage|by repeat constructor].

Lemma added_no_usage tool_calls item raw : no_usage (apply_output_item_added tool_calls item raw).1.
Proof. unfold apply_output_item_added. no_usage_cases. Qed.
Lemma append_no_usage tool_calls item text raw :
  no_usage (apply_function_call_argument_delta tool_calls item text raw).1.
Proof. unfold apply_function_call_argument_delta. no_usage_cases. Qed.
Lemma reconcile_no_usage tool_calls item full raw :
  no_usage (reconcile_function_call_arguments tool_calls item full raw).1.
Proof. unfold reconcile_function_call_arguments. no_usage_cases. Qed.
Lemma done_no_usage tool_calls item raw : no_usage (apply_output_item_done tool_calls item raw).1.
Proof. unfold apply_output_item_done. no_usage_cases. Qed.

Lemma dispatch_usage ev data tool_calls chunks tool_calls' u :
  dispatch_response (default "" (get_str "type" (item_event_value ev))) data (item_event_value ev) tool_calls
    = Ok (chunks, tool_calls') ->
  usage_of chunks u = event_usage u ev.
Proof.
  set (v := item_event_value ev).
  assert (forall r : list CompletionChunk * ToolCalls, no_usage r.1 -> Ok (E:=BelltowerError) r = Ok (chunks, tool_calls') ->
    usage_of chunks u = u) as Hnone by (intros r Hr [= ->]; by apply usage_of_none).
  destruct ev as [text|text|encrypted|item cid name|item text|item full|item cid name full|it ot];
    cbn [event_usage]; intros H.
  - exact (Hnone (delta_chunk AppendText v, tool_calls) (delta_no_usage _ _) H).
  - exact (Hnone (delta_chunk (fun t => AppendReasoning (Some t) false None) v, tool_calls) (delta_no_usage _ _) H).
  - exact (Hnone (apply_output_item_done tool_calls (reasoning_item encrypted) v) (done_no_usage _ _ _) H).
  - exact (Hnone (apply_output_item_added tool_calls (function_item item cid name "") v) (added_no_usage _ _ _) H).
  - refine (Hnone match delta_text v with Some delta => apply_function_call_argument_delta tool_calls item delta v
               | None => ([], tool_calls) end _ H).
    destruct (delta_text v); [apply append_no_usage|apply none_no_usage].
  - exact (Hnone (reconcile_function_call_arguments tool_calls item full v) (reconcile_no_usage _ _ _ _) H).
  - exact (Hnone (apply_output_item_done tool_calls (function_item item cid name full) v) (done_no_usage _ _ _) H).
  - by injection H as <- <-.
Qed.

Lemma run_items evs events items tool_calls st :
  Forall2 carries_item events evs -> related items tool_calls st -> items_ok items evs ->
  exists chunks tool_calls' open,
    run_events (chatgpt_event from_str) events tool_calls = (chunks, Ok tool_calls')
    /\ (let st' := with_calls (add_parts st (List.concat (List.map event_parts evs))) (items_calls items evs) open in
        apply_deltas from_str st (deltas_of chunks) = Ok st'
        /\ related (fold_left event_items evs items) tool_calls' st')
    /\ forall u, usage_of chunks u = fold_left event_usage evs u.
Proof.
  intros Hev. revert items tool_calls st. induction Hev as [|event ev events evs [Hnd Hv] _ IH]; intros items tool_calls st Hr Hok.
  - exists [], tool_calls, (co_open_tool_calls st). split; [done|]. split; [|done]. cbn.
    unfold with_calls, add_parts, set_parts. cbn. rewrite app_nil_r. by destruct st.
  - destruct Hok as [Hok Hoks]. destruct (step_event _ _ _ ev (sse_data event) Hr Hok) as (c1 & tc1 & E1 & (o1 & R1 & S1)).
    assert (chatgpt_event from_str event tool_calls
      = (attach_raw_to_all match c1 with [] => [chunk_of []] | _ => c1 end (item_event_value ev), Ok tc1)) as Ee.
    { unfold chatgpt_event, completion_chunks_from_responses_event. rewrite Hnd, Hv. cbn [ok_or mbind result_bind].
      by rewrite E1. }
    cbn [run_events]. rewrite Ee. destruct (IH _ _ _ S1 Hoks) as (c2 & tc2 & o2 & E2 & (R2 & S2) & U2). rewrite E2.
    eexists _, tc2, o2. split; [reflexivity|]. cbn [List.map List.concat items_calls fold_left].
    assert (with_calls (add_parts (with_calls (add_parts st (event_parts ev)) (event_calls items ev) o1)
              (List.concat (List.map event_parts evs))) (items_calls (event_items items ev) evs) o2
      = with_calls (add_parts st (event_parts ev ++ List.concat (List.map event_parts evs)))
          (event_calls items ev ++ items_calls (event_items items ev) evs) o2) as Est.
    { unfold with_calls, add_parts, set_parts, extend_message_parts. cbn. by rewrite fold_left_app, app_assoc. }
    cbv zeta in R2, S2. rewrite Est in R2, S2. split; [split; [|done]|].
    + by rewrite deltas_of_app, deltas_of_attach, deltas_of_default, apply_deltas_app, R1.
    + intros u. rewrite usage_of_app, usage_of_attach, usage_of_default, U2. f_equal. by eapply dispatch_usage.
Qed.

(** A whole answer, each of whose items is done. *)
Lemma chatgpt_collected ordinal evs events chunks :
  Forall2 carries_item events evs -> Forall wire_ok events -> items_ok ∅ evs -> fold_left event_items evs ∅ = ∅ ->
  concat_str chunks = concat_str (List.map wire events) -> Forall (fun chunk => valid_utf8 chunk = true) chunks ->
  exists streamed response,
    chatgpt_stream from_str (List.map Ok chunks) = (streamed, Ok tt)
    /\ collect_all from_str ordinal streamed = Ok response
    /\ rs_assistant_parts response = extend_message_parts [] (List.concat (List.map event_parts evs))
    /\ rs_tool_calls response = items_calls ∅ evs
    /\ rs_usage response = fold_left event_usage evs None.
Proof.
  intros Hev Hw Hok Hend Hc Hv.
  assert (related ∅ ∅ collect_start) as Hr0 by (constructor; by intros).
  destruct (run_items evs events ∅ ∅ collect_start Hev Hr0 Hok) as (cs & tc & open & E & (R & S) & U).
  rewrite Hend in S.
  assert (tc = ∅) as ->.
  { apply map_empty. intros k. destruct S as [Hk _ _ _]. specialize (Hk k). rewrite lookup_empty in Hk. by destruct (tc !! k). }
  assert (open = []) as ->.
  { destruct S as [_ _ _ Ho]. cbn in Ho. by apply Permutation_nil_r in Ho. }
  exists cs. destruct (collect_all_deltas from_str ordinal cs _ [] R) as (response & Hres & H1 & H2 & H3); [done|].
  exists response. split_and!; [|done|by rewrite H1|by rewrite H2; cbn; rewrite app_nil_r|by rewrite H3, U].
  unfold chatgpt_stream. rewrite run_stream_events, (push_all_wires events) by done. cbn [fst]. rewrite E. cbn.
  by rewrite app_nil_r.
Qed.

(** The arguments told start with those known. *)
Fixpoint told_consistently (items : OpenItems) (evs : list ItemEvent) : Prop :=
  match evs with
  | [] => True
  | ev :: evs =>
      match ev with
      | ItArguments item full | ItDone item _ _ full =>
          forall i, items !! item = Some i -> exists rest, full = oi_arguments i +:+ rest
      | _ => True
      end /\ told_consistently (event_items items ev) evs
  end.

(** The calls as the service reports them done. *)
Fixpoint reported_calls (items : OpenItems) (evs : list ItemEvent) : list CompletedToolCall :=
  match evs with
  | [] => []
  | ev :: evs =>
      match ev with
      | ItDone item _ _ full =>
          match items !! item with
          | Some i => finalized (MkAccumulator (oi_call_id i) (oi_name i) None full)
          | None => []
          end
      | _ => []
      end ++ reported_calls (event_items items ev) evs
  end.

Definition all_passed (items : OpenItems) : Prop := forall k i, items !! k = Some i -> oi_passed i = oi_arguments i.

Lemma passed_after_told i rest : oi_passed i = oi_arguments i -> passed_after i (oi_arguments i +:+ rest) = oi_arguments i +:+ rest.
Proof. intros H. unfold passed_after. by rewrite strip_prefix_app, H. Qed.

Lemma alter_all_passed (f : OpenItem -> OpenItem) item items :
  all_passed items -> (forall i, items !! item = Some i -> oi_passed (f i) = oi_arguments (f i)) ->
  all_passed (alter f item items).
Proof.
  intros H Hf k i. destruct (decide (k = item)) as [->|Hne]; [rewrite lookup_alter_eq|rewrite lookup_alter_ne by done; by apply H].
  destruct (items !! item) eqn:E; intros [= <-]. by apply Hf.
Qed.

Lemma calls_as_reported items evs :
  all_passed items -> told_consistently items evs -> items_calls items evs = reported_calls items evs.
Proof.
  revert items. induction evs as [|ev evs IH]; intros items Hp Ht; [done|]. destruct Ht as [Hev Ht].
  cbn [items_calls reported_calls]. f_equal.
  - destruct ev as [text|text|encrypted|item cid name|item text|item full|item cid name full|it ot]; try done. cbn [event_calls].
    destruct (items !! item) as [i|] eqn:E; [|done]. destruct (Hev i eq_refl) as [rest ->].
    unfold open_acc, told_all. cbn. by rewrite passed_after_told by (by eapply Hp).
  - apply IH; [|done]. destruct ev as [text|text|encrypted|item cid name|item text|item full|item cid name full|it ot]; try done; cbn [event_items].
    + intros k i. destruct (decide (k = item)) as [->|Hne]; [rewrite lookup_insert_eq; by intros [= <-]|].
      rewrite lookup_insert_ne by done. apply Hp.
    + apply alter_all_passed; [done|]. intros i Hi. cbn. by rewrite (Hp _ _ Hi).
    + apply alter_all_passed; [done|]. intros i Hi. destruct (Hev i Hi) as [rest ->]. cbn. apply passed_after_told. by eapply Hp.
    + intros k i [_ Hk]%lookup_delete_Some. by eapply Hp.
Qed.
End simulation.

(** The calls of an answer are those the service reports.  However the
    fragments of the items interleave, and however the network cuts the events
    between characters, the stream ends without an error and the agent collects
    the text, the reasoning and its replay in order, and for every item that
    is done the call with exactly the arguments reported at its end, even when
    fragments of them were never streamed; as long as the arguments reported
    start with the fragments that were. *)
Theorem reported_calls_are_collected from_str ordinal evs events chunks :
  Forall2 (carries_item from_str) events evs -> Forall wire_ok events ->
  items_ok ∅ evs -> told_consistently ∅ evs -> fold_left event_items evs ∅ = ∅ ->
  concat_str chunks = concat_str (List.map wire events) -> Forall (fun chunk => valid_utf8 chunk = true) chunks ->
  exists streamed response,
    chatgpt_stream from_str (List.map Ok chunks) = (streamed, Ok tt)
    /\ collect_all from_str ordinal streamed = Ok response
    /\ rs_assistant_parts response = extend_message_parts [] (List.concat (List.map event_parts evs))
    /\ rs_tool_calls response = reported_calls from_str ∅ evs
    /\ rs_usage response = fold_left event_usage evs None.
Proof.
  intros Hev Hw Hok Ht Hend Hc Hv. rewrite <- calls_as_reported by done. by apply (chatgpt_collected _ _ _ events).
Qed.

(** When the arguments reported at the end of an item do not start with
    the fragments that were streamed, the call is given both: the fragments and
    then all of the arguments, in one text. *)
Theorem disagreeing_arguments_are_joined from_str ordinal item call_id name text full events chunks call :
  is_blank call_id = false -> is_blank name = false -> strip_prefix text full = None ->
  Forall2 (carries_item from_str) events
    [ItAdded item call_id name; ItDelta item text; ItDone item call_id name full] ->
  Forall wire_ok events -> concat_str chunks = concat_str (List.map wire events) ->
  Forall (fun chunk => valid_utf8 chunk = true) chunks ->
  finalize_tool_call from_str (MkAccumulator call_id name None (text +:+ full)) = Ok call ->
  exists streamed response,
    chatgpt_stream from_str (List.map Ok chunks) = (streamed, Ok tt)
    /\ collect_all from_str ordinal streamed = Ok response
    /\ rs_tool_calls response = [call].
Proof.
  intros Hb1 Hb2 Hs Hev Hw Hc Hv Hf.
  destruct (chatgpt_collected from_str ordinal _ events chunks Hev Hw) as (streamed & response & H1 & H2 & _ & H4 & _);
    [| |done|done|].
  - cbn [items_ok item_ok event_items]. rewrite lookup_empty, alter_insert_eq, !lookup_insert_eq.
    by split_and!.
  - cbn [fold_left event_items]. by rewrite alter_insert_eq, delete_insert_eq, delete_empty.
  - exists streamed, response. split_and!; [done..|]. rewrite H4.
    cbn [items_calls event_items event_calls app]. rewrite alter_insert_eq, lookup_insert_eq, app_nil_r.
    unfold open_acc, told_all, fragment_of, passed_after. cbn [oi_call_id oi_name oi_arguments oi_passed].
    change ("" +:+ text) with text. rewrite Hs. unfold finalized. by rewrite Hf.
Qed.

(** The items of an answer with two calls, side by side; the second is never
    streamed, and one fragment of the first is missing. *)
Lemma reported_calls_are_collected_witness :
  let evs := [ItSummary "look"; ItAdded "fc_1" "call_a" "read"; ItAdded "fc_2" "call_b" "list";
              ItDelta "fc_1" "{"; ItDone "fc_2" "call_b" "list" "{}"; ItDone "fc_1" "call_a" "read" "{}";
              ItText "done"; ItCompleted 3 4] in
  let from_str s := match s with
                    | "{}" => Some (VObject [])
                    | String a "" => item_event_value <$> evs !! (Ascii.nat_of_ascii a - 97)%nat
                    | _ => None
                    end in
  let events := List.map (MkSseEvent None) ["a"; "b"; "c"; "d"; "e"; "f"; "g"; "h"] in
  let text := concat_str (List.map wire events) in
  exists streamed response,
    chatgpt_stream from_str (List.map Ok [String.substring 0 4 text; String.substring 4 1000 text]) = (streamed, Ok tt)
    /\ collect_all from_str 0 streamed = Ok response
    /\ rs_assistant_parts response = [PReasoning (Some "look") false None; PText "done"]
    /\ rs_tool_calls response = [MkCompletedToolCall "call_b" "list" (VObject []);
                                 MkCompletedToolCall "call_a" "read" (VObject [])]
    /\ rs_usage response = Some (MkTokenUsage 3 4 7 None None None).
Proof.
  intros evs from_str events text.
  refine (reported_calls_are_collected from_str 0 evs events _ _ _ _ _ _ _ _).
  - repeat (apply List.Forall2_cons; [split; reflexivity|]). apply List.Forall2_nil.
  - repeat (apply Forall_cons; split; [split; [split; [by apply within_line_literal|reflexivity]|done]|]).
    by apply List.Forall_nil.
  - cbn [evs items_ok item_ok event_items].
    split_and!; try done; try (vm_compute; by eexists).
    intros other i [[_ <-]|[_ H]]%lookup_insert_Some; [done|]. by rewrite lookup_empty in H.
  - cbn [evs told_consistently event_items]. split_and!; try done.
    + intros i [= <-]. by exists "{}".
    + intros i [= <-]. by exists "}".
  - vm_compute. reflexivity.
  - vm_compute. reflexivity.
  - repeat (apply Forall_cons; split; [vm_compute; reflexivity|]). by apply List.Forall_nil.
Defined.

(** A space that was not streamed: the arguments are no JSON any more. *)
Lemma disagreeing_arguments_are_joined_witness :
  let evs := [ItAdded "fc_1" "call_a" "read"; ItDelta "fc_1" "{}"; ItDone "fc_1" "call_a" "read" "{ }"] in
  let from_str s := match s with
                    | "{}" => Some (VObject [])
                    | "{ }" => Some (VObject [])
                    | String a "" => item_event_value <$> evs !! (Ascii.nat_of_ascii a - 97)%nat
                    | _ => None
                    end in
  let text := concat_str (List.map wire (List.map (MkSseEvent None) ["a"; "b"; "c"])) in
  exists streamed response,
    chatgpt_stream from_str [Ok text] = (streamed, Ok tt)
    /\ collect_all from_str 0 streamed = Ok response
    /\ rs_tool_calls response = [MkCompletedToolCall "call_a" "read" (VString "{}{ }")].
Proof.
  intros evs from_str text.
  refine (disagreeing_arguments_are_joined from_str 0 "fc_1" "call_a" "read" "{}" "{ }"
    (List.map (MkSseEvent None) ["a"; "b"; "c"]) [text] (MkCompletedToolCall "call_a" "read" (VString "{}{ }"))
    eq_refl eq_refl eq_refl _ _ _ _ eq_refl).
  - repeat (apply List.Forall2_cons; [split; reflexivity|]). apply List.Forall2_nil.
  - repeat (apply Forall_cons; split; [split; [split; [by apply within_line_literal|reflexivity]|done]|]).
    by apply List.Forall_nil.
  - vm_compute. reflexivity.
  - repeat (apply Forall_cons; split; [vm_compute; reflexivity|]). by apply List.Forall_nil.
Defined.
