(* ===== verification/ClaudeCli.v ===== *)
(** * The Claude command line, and the choice of a provider
    ([bt-providers/src/claude_cli.rs], [lib.rs])

    The prompt written to the command, the chunks read from its lines, and how
    a stream ends; and which provider a connection and a credential give.
    Running the process is left out: what it prints, in lines, and how it
    exits are inputs. *)

From stdpp Require Import base list strings gmap sorting.
From Stdlib Require Import ZArith Lia.
From S2P Require Import Prelude Text Utf8 Json Types Messages AgentStream Sse ProviderStream StreamedCalls.
From S2P Require Import Anthropic AnthropicLaws OpenAi ChatGpt.

#[local] Open Scope Z_scope.

Definition MAX_STDERR_DETAIL_BYTES : nat := Z.to_nat 8192.

(** ** The stream *)

(** What the process gives: its lines, up to an error of reading them, and
    its exit, with what [capture_bounded_stderr] kept. *)
Record CliExit : Type := MkCliExit {
  ex_success : bool;
  ex_status : string;
  ex_stderr : string;
}.

Section cli.
(** [serde_json::from_str], [Value::to_string] *)
Context (from_str : string -> option Value) (value_to_string : Value -> string).

(** A ["stream_event"] line: the first chunk keeps the whole line. *)
Definition raw_first (chunks : list CompletionChunk) (raw : Value) : list CompletionChunk :=
  match chunks with
  | [] => []
  | c :: cs => MkCompletionChunk (ck_llm_call_ordinal c) (ck_deltas c) (ck_usage c) (Some raw) :: cs
  end.
Definition cli_stream_event (envelope : Value) (state : AnthropicStreamState)
    : list CompletionChunk * Result AnthropicStreamState :=
  match value_get "event" envelope with
  | None => ([], Ok state)
  | Some event =>
      match completion_chunks_from_sse_event from_str
              (MkSseEvent (get_str "type" event) (value_to_string event)) state with
      | (_, Err e) => ([], Err e)
      | (chunks, Ok state) => (raw_first chunks envelope, Ok state)
      end
  end.

(** A ["result"] line: a failed turn ends the stream, a successful one adds
    the final accounting. *)
Definition cli_result (envelope : Value) (state : AnthropicStreamState) : Result CompletionChunk :=
  let is_error := default false (v ← value_get "is_error" envelope; as_bool v) in
  let subtype := default "" (get_str "subtype" envelope) in
  if is_error || negb (String.eqb subtype "success")
  then Err (Provider ("claude CLI turn failed (" +:+ subtype +:+ "): "
                      +:+ default subtype (get_str "result" envelope)))
  else Ok (MkCompletionChunk None [] (usage_snapshot state) (Some envelope)).

(** The body of the loop; the flag is [saw_result]. *)
Definition cli_line (line : string) (st : AnthropicStreamState * bool)
    : list CompletionChunk * Result (AnthropicStreamState * bool) :=
  let '(state, saw_result) := st in
  if is_blank line then ([], Ok st)
  else match from_str line with
       | None => ([], Err (Provider "claude CLI emitted invalid stream-json"))
       | Some envelope =>
           match get_str "type" envelope with
           | Some "stream_event" =>
               match cli_stream_event envelope state with
               | (chunks, Ok state) => (chunks, Ok (state, saw_result))
               | (chunks, Err e) => (chunks, Err e)
               end
           | Some "result" =>
               match cli_result envelope state with
               | Ok chunk => ([chunk], Ok (state, true))
               | Err e => ([], Err e)
               end
           | _ => ([], Ok st)
           end
       end.

(** The end of the process. *)
Definition cli_exit (exit : CliExit) (saw_result : bool) : Result unit :=
  _ ← reject_if (negb (ex_success exit))
        (Provider ("claude CLI exited with " +:+ ex_status exit +:+ ": " +:+ trim (ex_stderr exit)));
  reject_if (negb saw_result) (Provider "claude CLI stream ended without a result envelope").

(** The stream of [stream_completion]. *)
Fixpoint cli_stream (lines : list (Result string)) (exit : CliExit) (st : AnthropicStreamState * bool)
    : list CompletionChunk * Result unit :=
  match lines with
  | [] => ([], cli_exit exit st.2)
  | Err e :: _ => ([], Err e)
  | Ok line :: lines =>
      match cli_line line st with
      | (chunks, Err e) => (chunks, Err e)
      | (chunks, Ok st) => let '(more, result) := cli_stream lines exit st in (chunks ++ more, result)
      end
  end.

(** [capture_bounded_stderr], over what each read gives. *)
Definition keep_bounded (detail more : string) : string :=
  detail +:+ String.substring 0 (MAX_STDERR_DETAIL_BYTES - String.length detail) more.
Fixpoint capture_reads (reads : list (result string string)) (detail : string) : string :=
  match reads with
  | [] => detail
  | Ok read :: reads => capture_reads reads (keep_bounded detail read)
  | Err error :: _ => keep_bounded detail (nl +:+ "[stderr read failed: " +:+ error +:+ "]")
  end.
Definition capture_bounded_stderr (reads : list (result string string)) : string :=
  from_utf8_lossy (capture_reads reads "").

(** [command_output_detail] *)
Definition command_output_detail (stdout stderr : string) : string :=
  let bytes := if is_empty stderr then stdout else stderr in
  let detail := trim (from_utf8_lossy (String.substring 0 MAX_STDERR_DETAIL_BYTES bytes)) in
  if is_empty detail then "no diagnostic output" else detail.

(** ** The prompt *)

(** [message_text] *)
Definition text_of_part (part : MessagePart) : option string := match part with PText text => Some text | _ => None end.
Definition message_text (message : Message) : option string :=
  let text := join nl (omap text_of_part (msg_parts message)) in
  if is_blank text then None else Some text.

Definition prompt_label (role : Role) : string :=
  match role with
  | RoleSystem => "System" | RoleUser => "User" | RoleAssistant => "Assistant" | RoleTool => "Tool result"
  end.
Definition prompt_part (label : string) (part : MessagePart) : string :=
  match part with
  | PText text => if is_blank text then "" else nl +:+ label +:+ ": " +:+ text +:+ nl
  | PToolCall call =>
      nl +:+ "Assistant (tool call " +:+ tc_tool_name call +:+ "): " +:+ value_to_string (tc_arguments call) +:+ nl
  | PToolResult result =>
      nl +:+ "Tool result (" +:+ tr_tool_name result +:+ "): " +:+ value_to_string (tr_output result) +:+ nl
  | _ => ""
  end.
Definition prompt_message (message : Message) : string :=
  concat_str (List.map (prompt_part (prompt_label (msg_role message))) (msg_parts message)).
Definition PROMPT_HEAD : string :=
  "The following is the conversation so far. Continue it as the assistant; reply with the assistant's next message only."
  +:+ nl.

(** [render_prompt] *)
Definition only_user_text (messages : list Message) : option string :=
  match messages with
  | [message] => match msg_role message with RoleUser => message_text message | _ => None end
  | _ => None
  end.
Definition render_prompt (messages : list Message) : string :=
  match only_user_text messages with
  | Some text => text
  | None => PROMPT_HEAD +:+ concat_str (List.map prompt_message messages)
  end.

(** What [stream_completion] refuses before it runs the command, the
    arguments it gives it, and the prompt. *)
Definition DISALLOWED_CLI_TOOLS : string :=
  "Bash,Edit,Write,Read,Glob,Grep,WebFetch,WebSearch,Task,NotebookEdit,TodoWrite".
Definition cli_arguments (request : CompletionRequest) : list string :=
  ["-p"; "--output-format"; "stream-json"; "--include-partial-messages"; "--verbose"; "--max-turns"; "1";
   "--disallowedTools"; DISALLOWED_CLI_TOOLS; "--model"; cr_model request]
  ++ match cr_system_prompt request with
     | Some prompt => if is_blank prompt then [] else ["--system-prompt"; prompt]
     | None => []
     end.
Definition cli_request (request : CompletionRequest) : Result (list string * string) :=
  _ ← reject_if (is_some (cr_structured_output request))
        (Unsupported "structured output is not supported by the claude-cli provider");
  Ok (cli_arguments request, render_prompt (cr_messages request)).

(** ** Laws *)

Lemma deltas_of_raw_first chunks raw : deltas_of (raw_first chunks raw) = deltas_of chunks.
Proof. by destruct chunks. Qed.
Lemma usage_of_raw_first chunks raw u : usage_of (raw_first chunks raw) u = usage_of chunks u.
Proof. by destruct chunks. Qed.

Definition event_line (event : Value) : Value := json_object [("type", VString "stream_event"); ("event", event)].
Definition success_line : Value :=
  json_object [("type", VString "result"); ("subtype", VString "success"); ("is_error", VBool false)].

(** A line that carries an event. *)
Definition carries_event (line : string) (event : Value) : Prop :=
  is_blank line = false /\ from_str line = Some (event_line event)
  /\ from_str (value_to_string event) = Some event.

Lemma cli_lines lines vs state chunks state' exit rest :
  Forall2 carries_event lines vs -> Forall typed vs -> run_values vs state = (chunks, state') ->
  exists chunks', cli_stream (List.map Ok lines ++ rest) exit (state, false)
    = (chunks' ++ (cli_stream rest exit (state', false)).1, (cli_stream rest exit (state', false)).2)
    /\ deltas_of chunks' = deltas_of chunks /\ forall u, usage_of chunks' u = usage_of chunks u.
Proof.
  intros Hl. revert state chunks. induction Hl as [|line v lines vs (Hb & Hline & Hv) _ IH]; intros state chunks Ht Hr.
  - injection Hr as <- <-. exists []. split; [|done]. cbn. by destruct (cli_stream rest exit (state, false)).
  - apply Forall_cons in Ht as [Hty Ht]. cbn [run_values] in Hr.
    destruct (value_chunks v state) as [cs s1] eqn:E. destruct (run_values vs s1) as [more s2] eqn:E2.
    injection Hr as <- <-. destruct (IH s1 more Ht E2) as (chunks' & Hrest & Hd & Hu).
    assert (cli_line line (state, false) = (raw_first cs (event_line v), Ok (s1, false))) as Hstep.
    { unfold cli_line. rewrite Hb, Hline. change (get_str "type" (event_line v)) with (Some "stream_event").
      unfold cli_stream_event. change (value_get "event" (event_line v)) with (Some v).
      unfold completion_chunks_from_sse_event. cbn [sse_data]. rewrite Hv.
      assert (event_chunks (MkSseEvent (get_str "type" v) (value_to_string v)) v state = value_chunks v state) as ->.
      { unfold value_chunks, event_chunks, event_name, typed in *. by destruct (get_str "type" v). }
      by rewrite E. }
    exists (raw_first cs (event_line v) ++ chunks'). cbn [List.map app cli_stream]. rewrite Hstep, Hrest.
    rewrite <- app_assoc. split; [done|]. split.
    + by rewrite !deltas_of_app, deltas_of_raw_first, Hd.
    + intros u. by rewrite !usage_of_app, usage_of_raw_first, Hu.
Qed.

(** A process that prints the events of an answer and a successful result and
    exits well is read as the answer, as over the network. *)
Theorem cli_answer_is_collected ordinal lines result_line input_tokens output_tokens stop_reason blocks exit :
  0 < input_tokens -> 0 <= output_tokens -> input_tokens + output_tokens <= U64_MAX ->
  stop_reason <> "refusal" -> Forall block_ok blocks -> ex_success exit = true ->
  Forall2 carries_event lines (answer_values input_tokens output_tokens stop_reason blocks) ->
  is_blank result_line = false -> from_str result_line = Some success_line ->
  exists streamed response,
    cli_stream (List.map Ok (lines ++ [result_line])) exit (anthropic_start, false) = (streamed, Ok tt)
    /\ collect_all from_str ordinal streamed = Ok response
    /\ rs_assistant_parts response = extend_message_parts [] (List.concat (List.map block_parts blocks))
    /\ rs_tool_calls response = List.concat (List.map (block_calls from_str) blocks)
    /\ rs_usage response = Some (answer_usage input_tokens output_tokens).
Proof.
  intros Hi Ho Hm Hs Hb Hex Hl Hrb Hrl.
  destruct (answer_says _ _ stop_reason blocks Hi Ho Hm Hs) as (usage & (streamed & Hrun & Hd & Hu) & Husage).
  destruct (cli_lines lines _ _ _ _ exit [Ok result_line] Hl (typed_answer _ _ _ _) Hrun) as (cs & Hcli & Hcd & Hcu).
  set (state := counted input_tokens output_tokens) in *.
  assert (cli_line result_line (state, false)
    = ([MkCompletionChunk None [] (usage_snapshot state) (Some success_line)], Ok (state, true))) as Hres
    by (unfold cli_line; by rewrite Hrb, Hrl).
  assert (cli_stream [Ok result_line] exit (state, false)
    = ([MkCompletionChunk None [] (usage_snapshot state) (Some success_line)], Ok tt)) as Hend.
  { cbn [cli_stream]. rewrite Hres. unfold cli_exit. by rewrite Hex. }
  rewrite Hend in Hcli. cbn [fst snd] in Hcli. rewrite map_app. cbn [List.map]. rewrite Hcli.
  pose proof (blocks_collected from_str blocks collect_start Hb eq_refl) as Hcol.
  rewrite <- Hd, <- Hcd in Hcol.
  assert (deltas_of (cs ++ [MkCompletionChunk None [] (usage_snapshot state) (Some success_line)]) = deltas_of cs) as Hdl
    by (rewrite deltas_of_app; cbn; by rewrite app_nil_r).
  rewrite <- Hdl in Hcol.
  destruct (collect_all_deltas from_str ordinal _ _ [] Hcol) as (response & Hr & H1 & H2 & H3); [done|].
  eexists _, response. split_and!; [done|exact Hr|by rewrite H1|by rewrite H2; cbn; rewrite app_nil_r|].
  rewrite H3, usage_of_app, Hcu, Hu, Husage. unfold usage_of. cbn [fold_left ck_usage]. unfold usage_snapshot, state.
  cbn [counted as_prompt_tokens as_completion_tokens as_cache_read_tokens as_cache_write_tokens as_reasoning_tokens].
  unfold u64_add, wrap64. rewrite Z.mod_small by (unfold U64_MAX in Hm; lia).
  destruct (Z.eqb_spec (input_tokens + output_tokens) 0); [lia|]. cbn. unfold answer_usage, u64_add, wrap64.
  by rewrite Z.mod_small by (unfold U64_MAX in Hm; lia).
Qed.

(** A stream that ends well saw a successful result and the exit of a process
    that succeeded. *)
Theorem cli_success_has_result lines exit st streamed :
  cli_stream lines exit st = (streamed, Ok tt) ->
  ex_success exit = true
  /\ (st.2 = true \/ exists line envelope, Ok line ∈ lines /\ from_str line = Some envelope
        /\ get_str "type" envelope = Some "result" /\ get_str "subtype" envelope = Some "success").
Proof.
  revert st streamed. induction lines as [|[line|e] lines IH]; intros st streamed H; [| |done].
  - injection H as _ H. unfold cli_exit in H. destruct (ex_success exit); [|done]. split; [done|]. left.
    by destruct st.2.
  - cbn [cli_stream] in H. destruct (cli_line line st) as [cs [st'|e]] eqn:E; [|done].
    destruct (cli_stream lines exit st') as [more result] eqn:E'. injection H as _ ->.
    destruct (IH _ _ E') as [Hex Hr]. split; [done|].
    destruct Hr as [Hr|(l & v & Hl & Hv)]; [|right; exists l, v; split; [by apply list_elem_of_further|done]].
    destruct st as [state saw]. unfold cli_line in E. destruct (is_blank line).
    { injection E as <- <-. by left. }
    destruct (from_str line) as [envelope|] eqn:Ef; [|done].
    destruct (get_str "type" envelope) as [t|] eqn:Et; [|injection E as <- <-; by left].
    destruct (String.eqb_spec t "result") as [->|Hne].
    + right. exists line, envelope. split_and!; [by apply list_elem_of_here|done|done|].
      cbn in E. destruct (cli_result envelope state) as [chunk|] eqn:Ec; [|done]. unfold cli_result in Ec.
      destruct (get_str "subtype" envelope) as [sub|]; cbn in Ec.
      * destruct (String.eqb_spec sub "success") as [Es|]; [by rewrite Es|]. cbn in Ec. by rewrite orb_true_r in Ec.
      * by rewrite orb_true_r in Ec.
    + left. destruct (String.eqb_spec t "stream_event") as [->|Hne2].
      * cbn in E. destruct (cli_stream_event envelope state) as [c [s|]]; [|done]. injection E as <- <-. done.
      * assert (([] : list CompletionChunk, Ok (state, saw) : Result _) = (cs, Ok st')) as E1.
        { revert E. clear -Hne Hne2. repeat (case_match; try done). }
        by injection E1 as <- <-.
Qed.
End cli.

(** ** The choice of a provider ([lib.rs]) *)

Record CredentialMetadata : Type := MkCredentialMetadata {
  cd_account_id : option string;
  cd_plan_type : option string;
  cd_workspace_id : option string;
}.
Inductive RuntimeCredential : Type :=
  | ApiKey (secret : string)
  | BearerToken (access_token : string) (refresh_token : option string) (metadata : CredentialMetadata)
  | JsonDocument (document : string).

(** The providers, with what they are made from. *)
Inductive ProviderChoice : Type :=
  | OpenAiCompatible (id base_url : string) (auth_token : option string)
  | OpenAiChatGpt (id base_url access_token account_id : string)
  | AnthropicApi (id base_url : string) (api_key : option string)
  | ClaudeCliProvider (id : string).

(** [runtime_credential_label] *)
Definition runtime_credential_label (credential : RuntimeCredential) : string :=
  match credential with
  | ApiKey _ => "api_key"
  | BearerToken _ _ _ => "bearer_token"
  | JsonDocument _ => "json_document"
  end.

(** [connection_supported] *)
Definition connection_supported (provider : string) : bool :=
  existsb (String.eqb provider) ["openai-compatible"; "openai-chatgpt"; "anthropic"; "claude-cli"].

Definition credential_unsupported (provider : string) (credential : RuntimeCredential) : BelltowerError :=
  Unsupported ("provider `" +:+ provider +:+ "` does not support " +:+ runtime_credential_label credential
               +:+ " runtime credentials").

(** [openai_auth_token], [anthropic_api_key], [openai_chatgpt_auth] *)
Definition openai_auth_token (credential : option RuntimeCredential) : Result (option string) :=
  match credential with
  | None => Ok None
  | Some (ApiKey secret) => Ok (Some secret)
  | Some (BearerToken access_token _ _) => Ok (Some access_token)
  | Some other => Err (credential_unsupported "openai-compatible" other)
  end.
Definition anthropic_api_key (credential : option RuntimeCredential) : Result (option string) :=
  match credential with
  | None => Ok None
  | Some (ApiKey secret) => Ok (Some secret)
  | Some other => Err (credential_unsupported "anthropic" other)
  end.
Definition openai_chatgpt_auth (credential : option RuntimeCredential) : Result (string * string) :=
  match credential with
  | Some (BearerToken access_token _ metadata) =>
      account_id ← chatgpt_account_id (cd_account_id metadata); Ok (access_token, account_id)
  | Some other => Err (credential_unsupported "openai-chatgpt" other)
  | None => Err (Auth "provider `openai-chatgpt` requires stored OAuth credentials; run `belltower login chatgpt`")
  end.

(** [provider_for_connection], on the connection's id, provider and base
    URL. *)
Definition provider_for_connection (id provider base_url : string) (credential : option RuntimeCredential)
    : Result ProviderChoice :=
  if String.eqb provider "openai-compatible"
  then token ← openai_auth_token credential; Ok (OpenAiCompatible id base_url token)
  else if String.eqb provider "openai-chatgpt"
  then auth ← openai_chatgpt_auth credential; Ok (OpenAiChatGpt id base_url auth.1 auth.2)
  else if String.eqb provider "anthropic"
  then key ← anthropic_api_key credential; Ok (AnthropicApi id base_url key)
  else if String.eqb provider "claude-cli" then Ok (ClaudeCliProvider id)
  else Err (Unsupported ("provider `" +:+ provider +:+ "` is not implemented yet")).

(** The secret a provider sends. *)
Definition secret_of (choice : ProviderChoice) : option string :=
  match choice with
  | OpenAiCompatible _ _ token => token
  | OpenAiChatGpt _ _ access_token _ => Some access_token
  | AnthropicApi _ _ key => key
  | ClaudeCliProvider _ => None
  end.
Definition secret_in (credential : RuntimeCredential) : option string :=
  match credential with ApiKey secret => Some secret | BearerToken token _ _ => Some token | JsonDocument _ => None end.

(** A provider is refused exactly where it is not one of the supported, or
    its credential is not of a kind it takes; the secret it sends is the
    credential's, a bearer token never goes to Anthropic, and the command line
    is given none. *)
Theorem provider_secret id provider base_url credential choice :
  provider_for_connection id provider base_url credential = Ok choice ->
  connection_supported provider = true
  /\ (secret_of choice = None \/ secret_of choice = (credential ← credential; secret_in credential))
  /\ (provider = "anthropic" -> forall token refresh metadata, credential <> Some (BearerToken token refresh metadata))
  /\ (provider = "claude-cli" -> secret_of choice = None).
Proof.
  unfold provider_for_connection. intros H.
  destruct (String.eqb_spec provider "openai-compatible") as [->|H1].
  { cbn in H. destruct credential as [[]|]; simplify_eq/=; split_and!; auto; done. }
  destruct (String.eqb_spec provider "openai-chatgpt") as [->|H2].
  { cbn in H. destruct credential as [[|t r m|]|]; simplify_eq/=. destruct (cd_account_id m); simplify_eq/=;
      split_and!; auto; done. }
  destruct (String.eqb_spec provider "anthropic") as [->|H3].
  { cbn in H. destruct credential as [[]|]; simplify_eq/=; split_and!; auto; done. }
  destruct (String.eqb_spec provider "claude-cli") as [->|H4].
  { cbn in H. simplify_eq/=. split_and!; auto; done. }
  done.
Qed.
