(* ===== verification/Context.v ===== *)
(** * Context assembly and compaction ([crates/bt-context/src/lib.rs])

    [ContextAssembler] turns a branch's messages into a completion request.
    When the messages outgrow the model's window it compacts them: a pinned
    prefix, the older user messages that fit, one summary, and the newest
    messages stay; everything else is summarized.

    The token estimates are [u64] sums that wrap.  [String::truncate] panics
    inside a character, so the functions that call it return [None] for a
    panic.  The identifier and the time of the summary message are
    arguments; [render_value] is the [Display] of a JSON value. *)

From stdpp Require Import base list strings gmap sorting.
From Stdlib Require Import ZArith Lia Ascii.
From S2P Require Import Prelude Text Json Types Messages ContextPrompt.

#[local] Open Scope Z_scope.

(** ** Constants *)

Definition COMPACTION_SUMMARY_MARKER : string := "[compaction summary]".
Definition LEGACY_SUMMARY_FIRST_LINE : string :=
  "Earlier conversation compacted to fit the model context window.".
(** [0.9], the nearest binary64 value *)
Definition DEFAULT_TRIGGER_FRACTION : f64 :=
  SpecFloat.S754_finite false 8106479329266893 (-53).
Definition SUMMARY_BUDGET_MIN_TOKENS : Z := 64.
Definition SUMMARY_BUDGET_MAX_TOKENS : Z := 4096.
Definition SUMMARIZATION_PROMPT_OVERHEAD_TOKENS : Z := 768.

(** ** Data *)

(** [ContextConfig] of [bt-core/src/config.rs] *)
Record ContextConfig : Type := MkContextConfig {
  cx_compaction_threshold : f64;
  cx_compaction_trigger_fraction : f64;
  cx_compaction_user_message_budget_tokens : Z;
  cx_summarizer_model : option string;
  cx_reserve_tokens : Z;
  cx_max_tool_result_lines : Z;
  cx_max_tool_result_bytes : Z;
  cx_summary_connection : option ConnectionId;
}.

Record ContextWindowEntry : Type := MkContextWindowEntry {
  cw_provider : string;
  cw_model_pattern : string;
  cw_context_window_tokens : Z;
}.

Record ContextAssembler : Type := MkContextAssembler {
  ca_config : ContextConfig;
  ca_windows : list ContextWindowEntry;
}.

Record ContextBuildOptions : Type := MkContextBuildOptions {
  bo_force_compaction : bool;
  bo_observed_context_tokens : option Z;
  bo_previous_summary : option string;
  bo_summary_override : option string;
}.

Definition default_build_options : ContextBuildOptions :=
  {| bo_force_compaction := false;
     bo_observed_context_tokens := None;
     bo_previous_summary := None;
     bo_summary_override := None |}.

Record CompactionPlan : Type := MkCompactionPlan {
  pl_trigger : ContextCompactionTrigger;
  pl_summarization_transcript : string;
  pl_summary_budget_tokens : Z;
}.

Record ContextCompaction : Type := MkContextCompaction {
  cp_summary : string;
  cp_trigger : ContextCompactionTrigger;
  cp_reason : option string;
  cp_summary_message_id : option MessageId;
  cp_first_kept_message_id : option MessageId;
  cp_messages_before : Z;
  cp_messages_after : Z;
  cp_tokens_before : Z;
  cp_tokens_after : Z;
  cp_files_read : list string;
  cp_files_modified : list string;
}.

Record ContextBuildOutput : Type := MkContextBuildOutput {
  bu_request : CompletionRequest;
  bu_compaction : option ContextCompaction;
}.

Record BranchSummary : Type := MkBranchSummary {
  bs_summary : string;
  bs_files_read : list string;
  bs_files_modified : list string;
}.

(** [MessageUnit]: the messages of the unit. *)
Definition MessageUnit : Type := list Message.

Record FileActivity : Type := MkFileActivity {
  fa_files_read : gset string;
  fa_files_modified : gset string;
}.

Record RetentionSelection : Type := MkRetentionSelection {
  rs_pinned_prefix : list Message;
  rs_retained_users : list Message;
  rs_tail : list Message;
  rs_dropped : list Message;
  rs_folded_summaries : list string;
  rs_summary_budget : Z;
  rs_messages_before : Z;
}.

(** ** When to compact *)

Definition context_window_for (self : ContextAssembler) (provider model : string) : Z :=
  default 32768
    (cw_context_window_tokens <$>
       find_first (fun entry => String.eqb (cw_provider entry) provider
                                && contains (cw_model_pattern entry) model)
         (ca_windows self)).

Definition f64_one : f64 := u64_as_f64 1.

Definition trigger_tokens (window_tokens : Z) (fraction : f64) : Z :=
  let fraction := if f64_lt f64_zero fraction && f64_ge f64_one fraction then fraction
                  else DEFAULT_TRIGGER_FRACTION in
  f64_floor_as_u64 (f64_mul (u64_as_f64 window_tokens) fraction).

Definition compaction_trigger (force_compaction : bool)
    (estimated_tokens max_prompt_tokens : Z) (observed_context_tokens : option Z)
    (trigger_tokens : Z) : option ContextCompactionTrigger :=
  if force_compaction then Some TriggerForced
  else if max_prompt_tokens <? estimated_tokens then Some TriggerTokenBudget
  else if is_some_and (fun observed => trigger_tokens <? observed) observed_context_tokens
  then Some TriggerTokenBudget
  else None.

(** The quotient is a [u128] cast to [u64]. *)
Definition effective_prompt_budget (max_prompt_tokens estimated_tokens : Z)
    (observed_context_tokens : option Z) : Z :=
  match observed_context_tokens with
  | Some observed =>
      if (estimated_tokens <? observed) && (0 <? observed)
      then wrap64 (max_prompt_tokens * Z.max estimated_tokens 1 / observed)
      else max_prompt_tokens
  | None => max_prompt_tokens
  end.

(** ** Token estimates *)

Definition sum_u64 (l : list Z) : Z := fold_left u64_add l 0.

Definition estimate_text_tokens (text : string) : Z :=
  u64_saturating_add (Z.of_nat (char_count text) / 4) 8.

Section render.
Context (render_value : Value -> string).

Definition estimate_message_part_tokens (part : MessagePart) : Z :=
  match part with
  | PText text => estimate_text_tokens text
  | PToolCall call =>
      u64_add (estimate_text_tokens (tc_tool_name call))
        (estimate_text_tokens (render_value (tc_arguments call)))
  | PToolResult result =>
      u64_add (estimate_text_tokens (tr_tool_name result))
        (estimate_text_tokens (render_value (tr_output result)))
  | PRefusal (Some text) _ _ => estimate_text_tokens text
  | PStructured _ value => estimate_text_tokens (render_value value)
  | PReasoning _ _ _ | PRefusal None _ _ => 0
  end.

Definition estimate_message_tokens (message : Message) : Z :=
  sum_u64 (List.map estimate_message_part_tokens (msg_parts message)).

Definition estimate_messages_tokens (messages : list Message) : Z :=
  sum_u64 (List.map estimate_message_tokens messages).
End render.

(** ** Truncation *)

Definition truncate_text (text : string) (max_lines max_bytes : Z) : option string :=
  let ls := join nl (take (Z.to_nat max_lines) (lines text)) in
  ls ← (if max_bytes <? Z.of_nat (byte_len ls) then truncate_bytes (Z.to_nat max_bytes) ls
        else Some ls);
  Some (if String.eqb ls text then ls else ls +:+ nl +:+ "...[truncated]").

Definition truncate_chars (text : string) (max_chars : nat) : string :=
  let truncated := take_chars max_chars text in
  newlines_to_spaces
    (if Nat.ltb (char_count truncated) (char_count text) then truncated +:+ "..."
     else truncated).

Definition truncate_to_token_estimate (text : string) (budget_tokens : Z) : string :=
  if estimate_text_tokens text <=? budget_tokens then text
  else take_chars (Z.to_nat (u64_saturating_mul budget_tokens 4)) text +:+ "...".

Definition truncate_tool_output (output : Value) (max_lines max_bytes : Z) : option Value :=
  match output with
  | VObject m =>
      let entry (acc : list (string * Value)) (kv : string * Value) :=
        next ← match kv.2 with
               | VString text =>
                   if one_of ["content"; "stdout"; "stderr"] kv.1
                   then VString <$> truncate_text text max_lines max_bytes
                   else Some kv.2
               | other => Some other
               end;
        Some (map_insert kv.1 next acc) in
      VObject <$> opt_fold entry [] m
  | VString text => VString <$> truncate_text text max_lines max_bytes
  | other => Some other
  end.

Definition normalize_part (max_lines max_bytes : Z) (part : MessagePart) : option MessagePart :=
  match part with
  | PToolResult r =>
      output ← truncate_tool_output (tr_output r) max_lines max_bytes;
      Some (PToolResult {| tr_call_id := tr_call_id r;
                           tr_tool_name := tr_tool_name r;
                           tr_is_error := tr_is_error r;
                           tr_output := output;
                           tr_duration_ms := tr_duration_ms r |})
  | other => Some other
  end.

Definition normalize_message (max_lines max_bytes : Z) (m : Message) : option Message :=
  parts ← mapM (normalize_part max_lines max_bytes) (msg_parts m);
  Some {| msg_message_id := msg_message_id m;
          msg_role := msg_role m;
          msg_parts := parts;
          msg_created_at := msg_created_at m |}.

Definition normalize_messages (messages : list Message) (max_lines max_bytes : Z)
    : option (list Message) :=
  mapM (normalize_message max_lines max_bytes) messages.

(** ** Previous summaries *)

Definition normalize_summary_body (text : string) : string :=
  let trimmed := trim text in
  trim (default trimmed (strip_prefix COMPACTION_SUMMARY_MARKER trimmed)).

Definition summary_message_body (message : Message) : option string :=
  if bool_decide (msg_role message = RoleSystem) then
    let trimmed := trim_start (join nl (text_parts message)) in
    if starts_with COMPACTION_SUMMARY_MARKER trimmed
       || starts_with LEGACY_SUMMARY_FIRST_LINE trimmed
    then let body := normalize_summary_body trimmed in
         if is_empty body then None else Some body
    else None
  else None.

Definition extract_step (acc : list string * list Message) (message : Message)
    : list string * list Message :=
  let '(folded, remaining) := acc in
  match summary_message_body message with
  | Some body => (if bool_decide (body ∈ folded) then folded else folded ++ [body], remaining)
  | None => (folded, remaining ++ [message])
  end.

Definition extract_summary_messages (messages : list Message) : list string * list Message :=
  fold_left extract_step messages ([], []).

(** ** Units: what is never cut apart *)

Definition split_system_prefix (messages : list Message) : list Message * list Message :=
  let split_index :=
    default (List.length messages)
      (position (fun message => negb (bool_decide (msg_role message = RoleSystem))) messages) in
  (take split_index messages, drop split_index messages).

Definition message_tool_call_ids (message : Message) : list string :=
  omap (fun part => match part with PToolCall call => Some (tc_call_id call) | _ => None end)
    (msg_parts message).

Definition message_tool_result_ids (message : Message) : list string :=
  omap (fun part => match part with
                    | PToolResult result => Some (call_name (tr_call_id result))
                    | _ => None
                    end)
    (msg_parts message).

(** The calls still awaiting a result after [next]. *)
Definition pending_step (pending : gset string) (next : Message) : gset string :=
  (pending ∖ list_to_set (message_tool_result_ids next))
  ∪ list_to_set (message_tool_call_ids next).

(** The two nested loops of [build_message_units] as one: [unit] is the unit
    being filled and [pending] the calls it waits for. *)
Fixpoint fill_units (messages : list Message) (unit : MessageUnit) (pending : gset string)
    : list MessageUnit :=
  match messages with
  | [] => [unit]
  | next :: rest =>
      if bool_decide (pending = ∅)
      then unit :: fill_units rest [next] (list_to_set (message_tool_call_ids next))
      else fill_units rest (unit ++ [next]) (pending_step pending next)
  end.

Definition build_message_units (messages : list Message) : list MessageUnit :=
  match messages with
  | [] => []
  | first :: rest => fill_units rest [first] (list_to_set (message_tool_call_ids first))
  end.

Definition flatten_units (units : list MessageUnit) : list Message := List.concat units.

(** ** What to retain *)

Section retention.
Context (render_value : Value -> string).

#[local] Abbreviation estimate := (estimate_messages_tokens render_value).

(** Walking backward from the newest unit; [rev_units] are the units not
    looked at, newest first, and the second result is [cut_index]. *)
Fixpoint walk_tail (tail_budget : Z) (rev_units : list MessageUnit)
    (tail_units : list MessageUnit) (tail_tokens : Z) : list MessageUnit * nat :=
  match rev_units with
  | [] => (tail_units, O)
  | unit :: rest =>
      let unit_tokens := estimate unit in
      if match tail_units with [] => true | _ => false end
         || (u64_saturating_add tail_tokens unit_tokens <=? tail_budget)
      then walk_tail tail_budget rest (unit :: tail_units)
             (u64_saturating_add tail_tokens unit_tokens)
      else (tail_units, List.length rev_units)
  end.

Definition opens_on_tool (unit : MessageUnit) : bool :=
  match unit with
  | message :: _ => bool_decide (msg_role message = RoleTool)
  | [] => false
  end.

Fixpoint drop_orphans (tail_units dropped_units : list MessageUnit)
    : list MessageUnit * list MessageUnit :=
  match tail_units with
  | unit :: ((_ :: _) as rest) =>
      if opens_on_tool unit then drop_orphans rest (dropped_units ++ [unit])
      else (tail_units, dropped_units)
  | _ => (tail_units, dropped_units)
  end.

(** One step of the newest-first selection of user messages; the state is
    the identifiers retained and their tokens. *)
Definition select_user (user_budget : Z) (st : gset MessageId * Z) (message : Message)
    : gset MessageId * Z :=
  let '(retained_user_ids, user_tokens) := st in
  if negb (bool_decide (msg_role message = RoleUser)) then st
  else match text_parts message with
       | [] => st
       | _ =>
           let message_tokens := estimate_message_tokens render_value message in
           let total := u64_saturating_add user_tokens message_tokens in
           if user_budget <? total then st
           else ({[ msg_message_id message ]} ∪ retained_user_ids, total)
       end.

Definition retained_user_ids (user_budget : Z) (dropped_messages : list Message)
    : gset MessageId :=
  (fold_left (select_user user_budget) (reverse dropped_messages) (∅, 0)).1.

(** The loop that makes a forced compaction drop something. *)
Fixpoint force_drop (tail_units : list MessageUnit) (dropped : list Message)
    : list MessageUnit * list Message :=
  match tail_units, dropped with
  | unit :: ((_ :: _) as rest), [] => force_drop rest (dropped ++ unit)
  | _, _ => (tail_units, dropped)
  end.

Definition created_le (a b : Message) : Prop := msg_created_at a <= msg_created_at b.
#[export] Instance created_le_dec a b : Decision (created_le a b).
Proof. unfold created_le. apply _. Defined.

Definition sort_by_created_at (l : list Message) : list Message := merge_sort created_le l.

Definition selection_tokens (prefix_tokens summary_budget : Z) (users : list Message)
    (tail_units : list MessageUnit) : Z :=
  u64_saturating_add
    (u64_saturating_add (u64_saturating_add prefix_tokens (estimate users)) summary_budget)
    (estimate (flatten_units tail_units)).

(** The shrink loop: it gives up the oldest retained user message while
    there is one, then the oldest unit of the tail. *)
Fixpoint shrink_tail (budget_tokens prefix_tokens summary_budget : Z) (dropped : list Message)
    (tail_units : list MessageUnit) : list Message * list MessageUnit :=
  if selection_tokens prefix_tokens summary_budget [] tail_units <=? budget_tokens
  then (dropped, tail_units)
  else match tail_units with
       | unit :: ((_ :: _) as rest) =>
           shrink_tail budget_tokens prefix_tokens summary_budget (dropped ++ unit) rest
       | _ => (dropped, tail_units)
       end.

Fixpoint shrink (budget_tokens prefix_tokens summary_budget : Z) (users dropped : list Message)
    (tail_units : list MessageUnit) : list Message * list Message * list MessageUnit :=
  if selection_tokens prefix_tokens summary_budget users tail_units <=? budget_tokens
  then (users, dropped, tail_units)
  else match users with
       | removed :: rest =>
           shrink budget_tokens prefix_tokens summary_budget rest
             (sort_by_created_at (dropped ++ [removed])) tail_units
       | [] =>
           let '(dropped, tail_units) :=
             shrink_tail budget_tokens prefix_tokens summary_budget dropped tail_units in
           ([], dropped, tail_units)
       end.

(** The bodies folded into the next summary: the chain's previous summary
    first, unless the history holds it. *)
Definition fold_previous_summary (folded_summaries : list string)
    (previous_summary : option string) : list string :=
  match previous_summary with
  | Some previous =>
      let body := normalize_summary_body previous in
      if is_empty body || bool_decide (body ∈ folded_summaries) then folded_summaries
      else body :: folded_summaries
  | None => folded_summaries
  end.

Definition summary_budget_of (available : Z) : Z :=
  clamp SUMMARY_BUDGET_MIN_TOKENS SUMMARY_BUDGET_MAX_TOKENS (available / 8).

Definition resolve_retention_selection (messages : list Message) (budget_tokens : Z)
    (user_budget_config : Z) (force_compaction : bool) (previous_summary : option string)
    : RetentionSelection :=
  let messages_before := wrap32 (Z.of_nat (List.length messages)) in
  let '(folded_summaries, messages) := extract_summary_messages messages in
  let folded_summaries := fold_previous_summary folded_summaries previous_summary in
  let '(pinned_prefix, remainder) := split_system_prefix messages in
  let prefix_tokens := estimate pinned_prefix in
  let units := build_message_units remainder in
  let available := u64_saturating_sub budget_tokens prefix_tokens in
  let summary_budget := summary_budget_of available in
  let content_budget := u64_saturating_sub available summary_budget in
  let user_budget := Z.min user_budget_config (content_budget / 2) in
  let tail_budget := u64_saturating_sub content_budget user_budget in
  let '(tail_units, cut_index) := walk_tail tail_budget (reverse units) [] 0 in
  let '(tail_units, dropped_units) := drop_orphans tail_units (take cut_index units) in
  let dropped_messages := flatten_units dropped_units in
  let ids := retained_user_ids user_budget dropped_messages in
  let is_retained (message : Message) := bool_decide (msg_message_id message ∈ ids) in
  let retained_users := List.filter is_retained dropped_messages in
  let dropped := List.filter (fun message => negb (is_retained message)) dropped_messages in
  let '(tail_units, dropped) :=
    if force_compaction then force_drop tail_units dropped else (tail_units, dropped) in
  let '(retained_users, dropped, tail_units) :=
    shrink budget_tokens prefix_tokens summary_budget retained_users dropped tail_units in
  {| rs_pinned_prefix := pinned_prefix;
     rs_retained_users := retained_users;
     rs_tail := flatten_units tail_units;
     rs_dropped := dropped;
     rs_folded_summaries := folded_summaries;
     rs_summary_budget := summary_budget;
     rs_messages_before := messages_before |}.
End retention.

(** ** The deterministic summary *)

Definition insert_read (path : string) (activity : FileActivity) : FileActivity :=
  {| fa_files_read := {[ path ]} ∪ fa_files_read activity;
     fa_files_modified := fa_files_modified activity |}.
Definition insert_modified (path : string) (activity : FileActivity) : FileActivity :=
  {| fa_files_read := fa_files_read activity;
     fa_files_modified := {[ path ]} ∪ fa_files_modified activity |}.

Definition path_of (v : Value) : option string := v ← value_get "path" v; as_str v.

Definition record_activity (activity : FileActivity) (message : Message) : FileActivity :=
  match tool_result message with
  | None => activity
  | Some result =>
      let name := tr_tool_name result in
      let output := tr_output result in
      if String.eqb name "read" then
        match path_of output with Some path => insert_read path activity | None => activity end
      else if one_of ["write"; "edit"] name then
        match path_of output with
        | Some path => insert_modified path activity
        | None => activity
        end
      else if String.eqb name "search" then
        match v ← value_get "matches" output; as_array v with
        | Some matches =>
            fold_left (fun activity path => insert_read path activity)
              (omap path_of matches) activity
        | None => activity
        end
      else activity
  end.

Definition collect_file_activity (messages : list Message) : FileActivity :=
  fold_left record_activity messages {| fa_files_read := ∅; fa_files_modified := ∅ |}.

Section digest.
Context (render_value : Value -> string).

Definition render_message_parts_for_summary (parts : list MessagePart) : string :=
  let rendered :=
    join nl
      (omap (fun part => match part with
                         | PText text => Some text
                         | PRefusal (Some text) _ _ => Some text
                         | PStructured _ value => Some (render_value value)
                         | PReasoning _ _ _ | PToolCall _ | PToolResult _
                         | PRefusal None _ _ => None
                         end) parts) in
  if is_empty rendered then "[non-text message]" else rendered.

(** [{:?}] of a [Role] *)
Definition role_debug (role : Role) : string :=
  match role with
  | RoleSystem => "System" | RoleUser => "User"
  | RoleAssistant => "Assistant" | RoleTool => "Tool"
  end.

Definition summary_line (message : Message) : option string :=
  match tool_call message with
  | Some call =>
      text ← truncate_text (render_value (tc_arguments call)) 4 160;
      Some ("- Assistant requested tool " +:+ tc_tool_name call +:+ " with "
            +:+ newlines_to_spaces text)
  | None =>
      match tool_result message with
      | Some result =>
          text ← truncate_text (render_value (tr_output result)) 4 200;
          Some ("- Tool " +:+ tr_tool_name result +:+ " returned " +:+ newlines_to_spaces text)
      | None =>
          text ← truncate_text (render_message_parts_for_summary (msg_parts message)) 4 240;
          Some ("- " +:+ role_debug (msg_role message) +:+ ": " +:+ newlines_to_spaces text)
      end
  end.

Definition file_line (title : string) (files : gset string) : list string :=
  if bool_decide (files = ∅) then []
  else [title +:+ join ", " (take 8 (sorted_elements files))].

(** The [while !lines.is_empty()] loop: [n] lines are left. *)
Fixpoint fit_digest (ls : list string) (protected_line_count : nat) (max_tokens : Z) (n : nat)
    : option string :=
  match n with
  | O => None
  | S n' =>
      let candidate := join nl (take n ls) in
      if estimate_text_tokens candidate <=? max_tokens then Some candidate
      else if Nat.ltb protected_line_count n
      then fit_digest ls protected_line_count max_tokens n'
      else
        let truncated := take_chars (Z.to_nat (u64_saturating_mul max_tokens 4)) candidate in
        Some (if Nat.ltb (byte_len truncated) (byte_len candidate) then truncated +:+ "..."
              else truncated)
  end.

(** The lines of the digest above the messages' own, and how many of them are
    never given up. *)
Definition digest_header (file_activity : FileActivity) : list string :=
  ["Earlier conversation compacted to fit the model context window."]
  ++ file_line "Files read: " (fa_files_read file_activity)
  ++ file_line "Files modified: " (fa_files_modified file_activity).

Definition protected_line_count (file_activity : FileActivity) (line_count : nat) : nat :=
  Nat.min line_count
    (1 + Nat.b2n (negb (bool_decide (fa_files_read file_activity = ∅)))
     + Nat.b2n (negb (bool_decide (fa_files_modified file_activity = ∅)))).

(** The outer option is a panic. *)
Definition build_summary (dropped_messages : list Message) (file_activity : FileActivity)
    (max_tokens : Z) : option (option string) :=
  match dropped_messages with
  | [] => Some None
  | _ =>
      if max_tokens =? 0 then Some None
      else
        message_lines ← mapM summary_line (take 8 (reverse dropped_messages));
        let ls := digest_header file_activity ++ reverse message_lines in
        let line_count := List.length ls in
        Some (fit_digest ls (protected_line_count file_activity line_count) max_tokens
                line_count)
  end.

Definition compose_fallback_summary_body (dropped : list Message)
    (folded_summaries : list string) (file_activity : FileActivity) (budget_tokens : Z)
    : option (option string) :=
  let sections :=
    match folded_summaries with
    | [] => []
    | _ => [truncate_to_token_estimate
              ("Previous summary:" +:+ nl +:+ join (nl +:+ nl) folded_summaries)
              (Z.max (budget_tokens / 2) SUMMARY_BUDGET_MIN_TOKENS)]
    end in
  let folded_tokens := sum_u64 (List.map estimate_text_tokens sections) in
  digest ← build_summary dropped file_activity
             (Z.max (u64_saturating_sub budget_tokens folded_tokens) 64);
  let sections := match digest with Some d => d :: sections | None => sections end in
  Some match sections with [] => None | _ => Some (join nl sections) end.

(** [summarize_messages] *)
Definition summarize_messages (messages : list Message) (max_tokens : Z)
    : option (option BranchSummary) :=
  normalized ← normalize_messages messages 2000 51200;
  let file_activity := collect_file_activity normalized in
  summary ← build_summary normalized file_activity max_tokens;
  Some (option_map (fun summary =>
          {| bs_summary := summary;
             bs_files_read := sorted_elements (fa_files_read file_activity);
             bs_files_modified := sorted_elements (fa_files_modified file_activity) |})
          summary).

(** ** The summarization input *)

Definition role_name (role : Role) : string :=
  match role with
  | RoleSystem => "system" | RoleUser => "user"
  | RoleAssistant => "assistant" | RoleTool => "tool"
  end.

Definition render_message_for_transcript (message : Message) : string :=
  let rendered :=
    join nl
      (omap (fun part =>
         match part with
         | PText text => Some text
         | PToolCall call =>
             Some ("[tool_call " +:+ tc_tool_name call +:+ " "
                   +:+ truncate_chars (render_value (tc_arguments call)) 400 +:+ "]")
         | PToolResult result =>
             Some ("[tool_result " +:+ tr_tool_name result
                   +:+ (if tr_is_error result then " error" else "") +:+ " "
                   +:+ truncate_chars (render_value (tr_output result)) 800 +:+ "]")
         | PRefusal (Some text) _ _ => Some ("[refusal] " +:+ text)
         | PStructured _ value =>
             Some ("[structured] " +:+ truncate_chars (render_value value) 400)
         | PReasoning _ _ _ | PRefusal None _ _ => None
         end) (msg_parts message)) in
  "[" +:+ role_name (msg_role message) +:+ "] "
  +:+ (if is_empty rendered then "[non-text message]" else rendered).

(** The loop over [start]: the newest line is always taken. *)
Fixpoint fit_lines (line_tokens : list Z) (body_budget : Z) (start : nat) (used : Z) : nat :=
  match start with
  | O => O
  | S start' =>
      let next := u64_saturating_add used (nth start' line_tokens 0) in
      if (body_budget <? next) && Nat.ltb start (List.length line_tokens) then start
      else fit_lines line_tokens body_budget start' next
  end.

Definition render_summarization_transcript (folded_summaries : list string)
    (dropped : list Message) (input_budget_tokens : Z) : string :=
  let header :=
    match folded_summaries with
    | [] => ""
    | _ => "Previous compaction summary (fold its still-relevant content into the new summary):"
           +:+ nl +:+ join (nl +:+ nl) folded_summaries +:+ nl +:+ nl
    end in
  let ls := List.map render_message_for_transcript dropped in
  let line_tokens := List.map estimate_text_tokens ls in
  let header_tokens := u64_saturating_add (estimate_text_tokens header) 64 in
  let body_budget := u64_saturating_sub input_budget_tokens header_tokens in
  let start := fit_lines line_tokens body_budget (List.length ls) 0 in
  match ls with
  | [] => header +:+ "No additional messages are being dropped in this compaction." +:+ nl
  | _ =>
      header
      +:+ (if Nat.ltb 0 start
           then "[" +:+ show_Z (Z.of_nat start)
                +:+ " older dropped messages omitted from this excerpt; they are covered by the previous summary and remain in session history]"
                +:+ nl
           else "")
      +:+ "Messages being dropped from the model-visible context:" +:+ nl
      +:+ join nl (drop start ls)
  end.

(** ** Compaction *)

Definition trigger_reason (trigger : ContextCompactionTrigger) : string :=
  match trigger with TriggerForced => "forced" | TriggerTokenBudget => "token_budget" end.

(** The summary's body: the model-written text when there is one. *)
Definition summary_body_of (selection : RetentionSelection) (file_activity : FileActivity)
    (summary_token_room : Z) (summary_override : option string) : option (option string) :=
  let fallback :=
    compose_fallback_summary_body (rs_dropped selection) (rs_folded_summaries selection)
      file_activity summary_token_room in
  match summary_override with
  | Some text =>
      if is_blank text then fallback
      else Some (Some (truncate_to_token_estimate (trim text)
                         (Z.max summary_token_room (rs_summary_budget selection))))
  | None => fallback
  end.

Definition compact_messages (fresh_id : MessageId) (now : OffsetDateTime)
    (messages : list Message) (budget_tokens : Z) (trigger : ContextCompactionTrigger)
    (user_budget_config : Z) (previous_summary summary_override : option string)
    : option (list Message * option ContextCompaction) :=
  let selection :=
    resolve_retention_selection render_value messages budget_tokens user_budget_config
      (bool_decide (trigger = TriggerForced)) previous_summary in
  let file_activity := collect_file_activity (rs_dropped selection) in
  let non_summary_tokens :=
    u64_saturating_add
      (u64_saturating_add (estimate_messages_tokens render_value (rs_pinned_prefix selection))
         (estimate_messages_tokens render_value (rs_retained_users selection)))
      (estimate_messages_tokens render_value (rs_tail selection)) in
  let summary_token_room :=
    clamp 16 (Z.max (rs_summary_budget selection) 16)
      (u64_saturating_sub budget_tokens non_summary_tokens) in
  summary_body ← summary_body_of selection file_activity summary_token_room summary_override;
  match summary_body with
  | None =>
      Some (rs_pinned_prefix selection ++ rs_retained_users selection
              ++ rs_dropped selection ++ rs_tail selection, None)
  | Some summary_body =>
      let summary_text := COMPACTION_SUMMARY_MARKER +:+ nl +:+ summary_body in
      let summary_message := message_text fresh_id now RoleSystem summary_text in
      Some (rs_pinned_prefix selection ++ rs_retained_users selection
              ++ [summary_message] ++ rs_tail selection,
            Some {| cp_summary := summary_text;
                    cp_trigger := trigger;
                    cp_reason := Some (trigger_reason trigger);
                    cp_summary_message_id := Some (msg_message_id summary_message);
                    cp_first_kept_message_id :=
                      msg_message_id <$>
                        head (rs_tail selection ++ rs_retained_users selection);
                    cp_messages_before := rs_messages_before selection;
                    cp_messages_after := 0;
                    cp_tokens_before := 0;
                    cp_tokens_after := 0;
                    cp_files_read := sorted_elements (fa_files_read file_activity);
                    cp_files_modified := sorted_elements (fa_files_modified file_activity) |})
  end.

(** ** Requests *)

Definition with_counts (before after : Z) (messages_after : nat) (c : ContextCompaction)
    : ContextCompaction :=
  {| cp_summary := cp_summary c;
     cp_trigger := cp_trigger c;
     cp_reason := cp_reason c;
     cp_summary_message_id := cp_summary_message_id c;
     cp_first_kept_message_id := cp_first_kept_message_id c;
     cp_messages_before := cp_messages_before c;
     cp_messages_after := wrap32 (Z.of_nat messages_after);
     cp_tokens_before := before;
     cp_tokens_after := after;
     cp_files_read := cp_files_read c;
     cp_files_modified := cp_files_modified c |}.

Definition system_tokens_of (system_prompt : option string) : Z :=
  default 0 (estimate_text_tokens <$> system_prompt).

(** The part [build_request_with_options] and [plan_compaction] share: the
    normalized messages, their tokens, the budget and the trigger. *)
Definition assess (self : ContextAssembler) (provider model : string)
    (system_prompt : option string) (messages : list Message) (force_compaction : bool)
    (observed_context_tokens : option Z)
    : option (list Message * Z * Z * option ContextCompactionTrigger) :=
  let config := ca_config self in
  let window_tokens := context_window_for self provider model in
  let max_prompt_tokens := u64_saturating_sub window_tokens (cx_reserve_tokens config) in
  let system_tokens := system_tokens_of system_prompt in
  normalized_messages ← normalize_messages messages (cx_max_tool_result_lines config)
                          (cx_max_tool_result_bytes config);
  let tokens_before :=
    u64_saturating_add (estimate_messages_tokens render_value normalized_messages)
      system_tokens in
  Some (normalized_messages, tokens_before,
        u64_saturating_sub
          (effective_prompt_budget max_prompt_tokens tokens_before observed_context_tokens)
          system_tokens,
        compaction_trigger force_compaction tokens_before max_prompt_tokens
          observed_context_tokens
          (trigger_tokens window_tokens (cx_compaction_trigger_fraction config))).

(** The messages of the request, and the compaction that produced them. *)
Definition select_messages (self : ContextAssembler) (fresh_id : MessageId)
    (now : OffsetDateTime) (provider model : string) (system_prompt : option string)
    (messages : list Message) (options : ContextBuildOptions)
    : option (list Message * option ContextCompaction) :=
  '(normalized_messages, tokens_before, budget, trigger) ←
    assess self provider model system_prompt messages (bo_force_compaction options)
      (bo_observed_context_tokens options);
  match trigger with
  | None => Some (normalized_messages, None)
  | Some trigger =>
      '(candidate_messages, candidate_compaction) ←
        compact_messages fresh_id now normalized_messages budget trigger
          (cx_compaction_user_message_budget_tokens (ca_config self))
          (bo_previous_summary options) (bo_summary_override options);
      let candidate_tokens :=
        u64_saturating_add (estimate_messages_tokens render_value candidate_messages)
          (system_tokens_of system_prompt) in
      Some match candidate_compaction with
           | Some compaction =>
               if negb (bool_decide (trigger = TriggerForced))
                  || (candidate_tokens <? tokens_before)
               then (candidate_messages,
                     Some (with_counts tokens_before candidate_tokens
                             (List.length candidate_messages) compaction))
               else (normalized_messages, None)
           | None => (normalized_messages, None)
           end
  end.

Definition build_request_with_options (self : ContextAssembler) (fresh_id : MessageId)
    (now : OffsetDateTime) (connection_id : ConnectionId) (provider model : string)
    (system_prompt : option string) (messages : list Message) (tools : list ToolSpec)
    (thinking : option ThinkingConfig) (options : ContextBuildOptions)
    : option ContextBuildOutput :=
  '(selected_messages, compaction) ←
    select_messages self fresh_id now provider model system_prompt messages options;
  Some
    {| bu_request :=
         {| cr_connection_id := connection_id;
            cr_model := model;
            cr_system_prompt := system_prompt;
            cr_messages := selected_messages;
            cr_tools := tools;
            cr_structured_output := None;
            cr_max_tokens := Some (cx_reserve_tokens (ca_config self));
            cr_temperature := None;
            cr_thinking :=
              effective_thinking_config connection_id provider model
                (cx_reserve_tokens (ca_config self)) thinking |};
       bu_compaction := compaction |}.

Definition build_request_with_metadata self fresh_id now connection_id provider model
    system_prompt messages tools thinking : option ContextBuildOutput :=
  build_request_with_options self fresh_id now connection_id provider model system_prompt
    messages tools thinking default_build_options.

Definition build_request self fresh_id now connection_id provider model system_prompt
    messages tools thinking : option CompletionRequest :=
  bu_request <$> build_request_with_metadata self fresh_id now connection_id provider model
                   system_prompt messages tools thinking.

(** The outer option is a panic. *)
Definition plan_compaction (self : ContextAssembler)
    (provider model summarizer_model : string) (system_prompt : option string)
    (messages : list Message) (force_compaction : bool) (observed_context_tokens : option Z)
    (previous_summary : option string) : option (option CompactionPlan) :=
  '(normalized_messages, _, budget, trigger) ←
    assess self provider model system_prompt messages force_compaction
      observed_context_tokens;
  match trigger with
  | None => Some None
  | Some trigger =>
      let selection :=
        resolve_retention_selection render_value normalized_messages budget
          (cx_compaction_user_message_budget_tokens (ca_config self))
          (bool_decide (trigger = TriggerForced)) previous_summary in
      match rs_dropped selection, rs_folded_summaries selection with
      | [], [] => Some None
      | _, _ =>
          let summarizer_window := context_window_for self provider summarizer_model in
          let input_budget :=
            Z.max 512
              (u64_saturating_sub
                 (u64_saturating_sub
                    (u64_saturating_sub summarizer_window
                       (cx_reserve_tokens (ca_config self)))
                    (rs_summary_budget selection))
                 SUMMARIZATION_PROMPT_OVERHEAD_TOKENS) in
          Some (Some {| pl_trigger := trigger;
                        pl_summarization_transcript :=
                          render_summarization_transcript (rs_folded_summaries selection)
                            (rs_dropped selection) input_budget;
                        pl_summary_budget_tokens := rs_summary_budget selection |})
      end
  end.
End digest.
