(* ===== verification/ContextUnits.v ===== *)
(** * Retention: what compaction keeps, and that it loses nothing

    Laws of [build_message_units] and of each stage of
    [resolve_retention_selection] ([Context]): units flatten back to the
    history and are closed under tool calls; every stage moves whole units
    from the tail to the dropped part, so the selection partitions the
    history. *)

From stdpp Require Import base list strings gmap sorting.
From Stdlib Require Import ZArith Lia Permutation.
From S2P Require Import Prelude Text Json Types Messages ContextPrompt Context.

#[local] Open Scope Z_scope.

(** ** Units *)

(** The tool calls of a stretch of history that are not answered in it. *)
Definition pending_calls (messages : list Message) : gset string :=
  fold_left pending_step messages ∅.

Lemma pending_calls_app a b :
  pending_calls (a ++ b) = fold_left pending_step b (pending_calls a).
Proof. apply fold_left_app. Qed.

Lemma pending_calls_app_closed a b :
  pending_calls a = ∅ -> pending_calls (a ++ b) = pending_calls b.
Proof. intros Ha. by rewrite pending_calls_app, Ha. Qed.

Lemma pending_calls_single m :
  pending_calls [m] = list_to_set (message_tool_call_ids m).
Proof. unfold pending_calls, pending_step; simpl. set_solver. Qed.

(** A list of units in which every cut closes what precedes it. *)
Definition well_cut (units : list MessageUnit) : Prop :=
  Forall (fun unit => unit <> []) units
  /\ forall before after, units = before ++ after -> after <> [] ->
     pending_calls (flatten_units before) = ∅.

(** A unit no cut of which closes what precedes it. *)
Definition indivisible (unit : MessageUnit) : Prop :=
  forall a b, unit = a ++ b -> a <> [] -> b <> [] -> pending_calls a <> ∅.

Lemma indivisible_single m : indivisible [m].
Proof. intros [|? []] [] [=]; done. Qed.

Lemma indivisible_snoc unit m :
  indivisible unit -> pending_calls unit <> ∅ -> indivisible (unit ++ [m]).
Proof.
  intros Hind Hp a b Heq Ha Hb.
  destruct b as [|x b _] using rev_ind; [done|]. rewrite app_assoc in Heq.
  apply app_inj_tail in Heq as [-> _].
  destruct b as [|y b]; [by rewrite app_nil_r in Hp|]. by eapply Hind.
Qed.

Lemma flatten_units_cons unit units :
  flatten_units (unit :: units) = unit ++ flatten_units units.
Proof. done. Qed.

Lemma flatten_units_app a b : flatten_units (a ++ b) = flatten_units a ++ flatten_units b.
Proof. apply concat_app. Qed.

Lemma well_cut_cons unit units :
  unit <> [] -> (units <> [] -> pending_calls unit = ∅) -> well_cut units ->
  well_cut (unit :: units).
Proof.
  intros Hne Hclosed [Hall Hcut]. split; [by constructor|].
  intros [|u before] after Heq Hafter; [done|]. injection Heq as <- Heq.
  rewrite flatten_units_cons.
  assert (units <> []) as Hunits by (subst units; intros ?%app_nil; naive_solver).
  rewrite pending_calls_app_closed by auto. by eapply Hcut.
Qed.

Lemma flatten_units_nil units :
  Forall (fun unit : MessageUnit => unit <> []) units ->
  flatten_units units = [] -> units = [].
Proof.
  destruct 1 as [|unit units Hu _]; [done|]. cbn. intros [? _]%app_nil. done.
Qed.

Lemma fill_units_ok messages unit pending :
  unit <> [] -> pending = pending_calls unit -> indivisible unit ->
  flatten_units (fill_units messages unit pending) = unit ++ messages
  /\ well_cut (fill_units messages unit pending)
  /\ Forall indivisible (fill_units messages unit pending).
Proof.
  revert unit pending; induction messages as [|next rest IH]; intros unit pending Hne Hp Hind; simpl.
  - split_and!; [done| |by constructor]. apply well_cut_cons; [done..|]. split; [done|].
    by intros [] [].
  - case_bool_decide as Hempty.
    + destruct (IH [next] (list_to_set (message_tool_call_ids next))) as (Hflat & Hcut & Hall);
        [done|by rewrite pending_calls_single|apply indivisible_single|].
      split_and!; [by rewrite flatten_units_cons, Hflat| |by constructor].
      apply well_cut_cons; [done|by rewrite <- Hp|done].
    + destruct (IH (unit ++ [next]) (pending_step pending next)) as (Hflat & Hcut & Hall).
      * intros []%app_nil. done.
      * by rewrite pending_calls_app, <- Hp.
      * apply indivisible_snoc; [done|by rewrite <- Hp].
      * split_and!; [by rewrite Hflat, <- app_assoc|done|done].
Qed.

(** Units flatten back to the messages they were built from, none is empty,
    a cut between two of them leaves no call before it unanswered, and a cut
    inside one does. *)
Lemma build_message_units_ok messages :
  flatten_units (build_message_units messages) = messages
  /\ well_cut (build_message_units messages)
  /\ Forall indivisible (build_message_units messages).
Proof.
  destruct messages as [|first rest].
  { split_and!; [done| |constructor]. split; [constructor|]. by intros [] []. }
  apply (fill_units_ok rest [first]); [done|by rewrite pending_calls_single|].
  apply indivisible_single.
Qed.

(** ** Previous summaries *)

Lemma sublist_Forall {A} (P : A -> Prop) k l : sublist k l -> Forall P l -> Forall P k.
Proof.
  induction 1 as [|x k l _ IH|x k l _ IH]; [done|..]; rewrite ?Forall_cons; naive_solver.
Qed.

Lemma list_singleton_of {A} (l : list A) a : NoDup l -> (forall x, x ∈ l <-> x = a) -> l = [a].
Proof.
  intros Hnd Hl. destruct l as [|x [|y l]].
  - assert (a ∈ @nil A) by by apply Hl. set_solver.
  - f_equal. apply Hl. set_solver.
  - assert (x = a) as -> by (apply Hl; set_solver).
    assert (y = a) as -> by (apply Hl; set_solver).
    apply NoDup_cons in Hnd as [Hx _]. set_solver.
Qed.

Definition is_summary (message : Message) : Prop :=
  summary_message_body message <> None.
#[export] Instance is_summary_dec message : Decision (is_summary message).
Proof. unfold is_summary. apply _. Defined.

Lemma extract_step_fold messages folded remaining :
  let '(folded', remaining') := fold_left extract_step messages (folded, remaining) in
  remaining' = remaining ++ filter (fun m => ~ is_summary m) messages
  /\ (forall body, body ∈ folded' <->
        body ∈ folded \/ exists m, m ∈ messages /\ summary_message_body m = Some body)
  /\ (NoDup folded -> NoDup folded').
Proof.
  revert folded remaining; induction messages as [|m messages IH]; intros folded remaining.
  { simpl. rewrite app_nil_r. set_solver. }
  simpl. destruct (summary_message_body m) as [body|] eqn:Hbody.
  - specialize (IH (if bool_decide (body ∈ folded) then folded else folded ++ [body]) remaining).
    destruct (fold_left extract_step messages _) as [folded' remaining'].
    destruct IH as (-> & Hin & Hnd). split_and!.
    + rewrite filter_cons_False; [done|]. unfold is_summary. rewrite Hbody. naive_solver.
    + intros body'. rewrite Hin.
      case_bool_decide; rewrite ?elem_of_app, ?list_elem_of_singleton; set_solver.
    + intros Hfold. apply Hnd. case_bool_decide; [done|].
      apply NoDup_app. split_and!; [done|set_solver|apply NoDup_singleton].
  - specialize (IH folded (remaining ++ [m])).
    destruct (fold_left extract_step messages _) as [folded' remaining'].
    destruct IH as (-> & Hin & Hnd). split_and!; [|intros body'; rewrite Hin; set_solver|done].
    rewrite <- app_assoc, filter_cons_True; [done|]. unfold is_summary. rewrite Hbody. naive_solver.
Qed.

(** Summaries leave the history, each body is folded once. *)
Lemma extract_summary_messages_ok messages :
  (extract_summary_messages messages).2 = filter (fun m => ~ is_summary m) messages
  /\ (forall body, body ∈ (extract_summary_messages messages).1 <->
        exists m, m ∈ messages /\ summary_message_body m = Some body)
  /\ NoDup (extract_summary_messages messages).1.
Proof.
  unfold extract_summary_messages. pose proof (extract_step_fold messages [] []) as H.
  destruct (fold_left extract_step messages ([], [])) as [folded remaining]; simpl in *.
  destruct H as (-> & Hin & Hnd). split_and!; [done| |apply Hnd, NoDup_nil_2].
  intros body. rewrite Hin. set_solver.
Qed.

Lemma fold_previous_summary_incl folded previous body :
  body ∈ folded -> body ∈ fold_previous_summary folded previous.
Proof.
  intros H. unfold fold_previous_summary. repeat case_match; [done| |done]. by constructor.
Qed.

(** The bodies folded are those of the history and the chain's previous one. *)
Lemma elem_of_fold_previous_summary folded previous body :
  body ∈ fold_previous_summary folded previous <->
  body ∈ folded
  \/ body <> "" /\ exists text, previous = Some text /\ body = normalize_summary_body text.
Proof.
  unfold fold_previous_summary, is_empty. destruct previous as [text|]; [|naive_solver].
  destruct (String.eqb_spec (normalize_summary_body text) "") as [He|He]; simpl.
  - split; [by left|]. intros [?|(? & t & [= <-] & ->)]; [done|congruence].
  - case_bool_decide; rewrite ?elem_of_cons; naive_solver.
Qed.

(** ** Stages of the selection *)

Lemma split_system_prefix_ok messages :
  let '(prefix, remainder) := split_system_prefix messages in
  prefix ++ remainder = messages
  /\ Forall (fun m => msg_role m = RoleSystem) prefix.
Proof.
  unfold split_system_prefix. split; [apply take_drop|].
  induction messages as [|m messages IH]; [constructor|].
  cbn [position]. case_bool_decide; simpl; [|constructor].
  destruct (position _ messages); simpl in *; by constructor.
Qed.

Section stages.
Context (render_value : Value -> string).

(** A state of the selection: [before] is what has left the tail. *)
Definition cut_at (units tail_units : list MessageUnit) (before : list Message) : Prop :=
  exists dropped_units, units = dropped_units ++ tail_units
    /\ flatten_units dropped_units = before
    /\ (units <> [] -> tail_units <> []).

Lemma cut_at_move units unit rest before :
  cut_at units (unit :: rest) before -> rest <> [] ->
  cut_at units rest (before ++ unit).
Proof.
  intros (du & -> & <- & _) Hrest. exists (du ++ [unit]).
  rewrite flatten_units_app. simpl. rewrite app_nil_r, <- app_assoc. done.
Qed.

Lemma walk_tail_cut tail_budget rev_units tail_units tail_tokens :
  ((walk_tail render_value tail_budget rev_units tail_units tail_tokens).2
     <= length rev_units)%nat.
Proof.
  revert tail_units tail_tokens; induction rev_units as [|unit rest IH];
    intros tail_units tail_tokens; simpl; [lia|].
  destruct (_ || _); simpl; [etrans; [apply IH|]; lia|lia].
Qed.

Lemma walk_tail_ok tail_budget rev_units tail_units tail_tokens :
  let '(tail', cut_index) :=
    walk_tail render_value tail_budget rev_units tail_units tail_tokens in
  take cut_index (reverse rev_units) ++ tail' = reverse rev_units ++ tail_units
  /\ (rev_units <> [] \/ tail_units <> [] -> tail' <> []).
Proof.
  revert tail_units tail_tokens; induction rev_units as [|unit rest IH];
    intros tail_units tail_tokens; simpl; [naive_solver|].
  destruct (_ || _) eqn:Htake.
  - specialize (IH (unit :: tail_units) (u64_saturating_add tail_tokens
      (estimate_messages_tokens render_value unit))).
    pose proof (walk_tail_cut tail_budget rest (unit :: tail_units) (u64_saturating_add tail_tokens
      (estimate_messages_tokens render_value unit))) as Hcut.
    destruct (walk_tail _ _ rest _ _) as [tail' cut]. destruct IH as [Heq Hne].
    rewrite reverse_cons, <- app_assoc. split; [|naive_solver].
    rewrite take_app_le by (rewrite length_reverse; done). by rewrite Heq.
  - rewrite take_ge by (rewrite length_reverse; simpl; lia). split; [done|].
    destruct tail_units; [done|naive_solver].
Qed.

Lemma walk_tail_cut_at tail_budget units :
  let '(tail_units, cut_index) :=
    walk_tail render_value tail_budget (reverse units) [] 0 in
  cut_at units tail_units (flatten_units (take cut_index units)).
Proof.
  pose proof (walk_tail_ok tail_budget (reverse units) [] 0) as H.
  destruct (walk_tail _ _ _ _ _) as [tail cut]. rewrite reverse_involutive, app_nil_r in H.
  destruct H as [Heq Hne]. exists (take cut units). split_and!; [done..|].
  intros Hu. apply Hne. left. intros Hr. apply Hu. by rewrite <- (reverse_involutive units), Hr.
Qed.

Lemma drop_orphans_ok units tail_units dropped_units :
  cut_at units tail_units (flatten_units dropped_units) ->
  let '(tail', dropped') := drop_orphans tail_units dropped_units in
  cut_at units tail' (flatten_units dropped').
Proof.
  revert dropped_units; induction tail_units as [|unit [|next rest] IH];
    intros dropped_units Hcut; [done..|].
  cbn [drop_orphans]. destruct (opens_on_tool unit); [|done].
  apply IH. rewrite flatten_units_app. cbn. rewrite app_nil_r.
  by apply cut_at_move.
Qed.

Lemma force_drop_ok units tail_units dropped users before :
  cut_at units tail_units before -> Permutation before (users ++ dropped) ->
  let '(tail', dropped') := force_drop tail_units dropped in
  exists before', cut_at units tail' before' /\ Permutation before' (users ++ dropped')
    /\ before `prefix_of` before'.
Proof.
  revert dropped before; induction tail_units as [|unit [|next rest] IH];
    intros dropped before Hcut Hperm; [by exists before; split_and!..|].
  destruct dropped as [|m dropped]; [|by exists before; split_and!].
  assert (Permutation (before ++ unit) (users ++ unit)) as Hperm2 by by rewrite Hperm, app_nil_r.
  pose proof (IH unit (before ++ unit) (cut_at_move _ _ _ _ Hcut ltac:(done)) Hperm2) as H.
  change (force_drop (unit :: next :: rest) []) with (force_drop (next :: rest) unit).
  destruct (force_drop (next :: rest) unit) as [tail' dropped'].
  destruct H as (before' & Hcut' & Hperm' & Hpre). exists before'. split_and!; [done..|]. etrans; [|done]. by eexists.
Qed.

Lemma shrink_tail_ok budget prefix_tokens summary_budget dropped tail_units units before :
  cut_at units tail_units before -> Permutation before dropped ->
  let '(dropped', tail') :=
    shrink_tail render_value budget prefix_tokens summary_budget dropped tail_units in
  (exists before', cut_at units tail' before' /\ Permutation before' dropped'
     /\ before `prefix_of` before')
  /\ (selection_tokens render_value prefix_tokens summary_budget [] tail' <= budget
      \/ (length tail' <= 1)%nat).
Proof.
  revert dropped before; induction tail_units as [|unit rest IH]; intros dropped before Hcut Hperm;
    cbn [shrink_tail]; destruct (_ <=? budget) eqn:Hle;
    rewrite ?Z.leb_le in Hle;
    [by split; [exists before; split_and!|left]
    |by split; [exists before; split_and!|right; simpl; lia]
    |by split; [exists before; split_and!|left]|].
  destruct rest as [|next rest];
    [by split; [exists before; split_and!|right; simpl; lia]|].
  assert (Permutation (before ++ unit) (dropped ++ unit)) as Hperm2 by by rewrite Hperm.
  pose proof (IH _ _ (cut_at_move _ _ _ _ Hcut ltac:(done)) Hperm2) as H.
  destruct (shrink_tail _ _ _ _ _ _) as [dropped' tail'].
  destruct H as [(before' & Hcut' & Hperm' & Hpre) Hfit]. split; [|done]. exists before'. split_and!; [done..|]. etrans; [|done]. by eexists.
Qed.

Lemma shrink_ok budget prefix_tokens summary_budget users dropped tail_units units before :
  cut_at units tail_units before -> Permutation before (users ++ dropped) ->
  let '(users', dropped', tail') :=
    shrink render_value budget prefix_tokens summary_budget users dropped tail_units in
  (exists before', cut_at units tail' before' /\ Permutation before' (users' ++ dropped')
     /\ before `prefix_of` before')
  /\ users' `suffix_of` users
  /\ (selection_tokens render_value prefix_tokens summary_budget users' tail' <= budget
      \/ users' = [] /\ (length tail' <= 1)%nat).
Proof.
  revert dropped; induction users as [|removed rest IH]; intros dropped Hcut Hperm;
    cbn [shrink]; destruct (_ <=? budget) eqn:Hle;
    rewrite ?Z.leb_le in Hle;
    [by split_and!; [exists before; split_and!|done|left]|
    |by split_and!; [exists before; split_and!|done|left]|].
  - pose proof (shrink_tail_ok budget prefix_tokens summary_budget dropped tail_units units before
      Hcut Hperm) as Htail.
    destruct (shrink_tail _ _ _ _ _ _) as [dropped' tail']. naive_solver.
  - assert (Permutation before (rest ++ sort_by_created_at (dropped ++ [removed]))) as Hperm2.
    { unfold sort_by_created_at. rewrite merge_sort_Permutation, Hperm. simpl.
      by rewrite (Permutation_app_comm dropped), Permutation_middle. }
    specialize (IH _ Hcut Hperm2).
    destruct (shrink _ _ _ _ _ _ _) as [[users' dropped'] tail'].
    destruct IH as (Hex & Hsuf & Hfit). split_and!; [done|by apply suffix_cons_r|done].
Qed.

(** Partitioning by a test loses nothing. *)
Lemma List_filter_sublist {A} (f : A -> bool) l : sublist (List.filter f l) l.
Proof. induction l as [|a l IH]; simpl; [done|]. destruct (f a); by constructor. Qed.

Lemma filter_partition {A} (f : A -> bool) l :
  Permutation l (List.filter f l ++ List.filter (fun a => negb (f a)) l).
Proof.
  induction l as [|a l IH]; simpl; [done|]. destruct (f a); simpl; [by constructor|].
  rewrite <- Permutation_middle. by constructor.
Qed.
(** A retained identifier is that of a user message that left the tail. *)
Lemma retained_user_ids_ok user_budget messages id :
  id ∈ retained_user_ids render_value user_budget messages ->
  exists m, m ∈ messages /\ msg_role m = RoleUser /\ msg_message_id m = id.
Proof.
  unfold retained_user_ids.
  assert (forall l st, id ∈ (fold_left (select_user render_value user_budget) l st).1 ->
    id ∈ st.1 \/ exists m, m ∈ l /\ msg_role m = RoleUser /\ msg_message_id m = id) as Hfold.
  { induction l as [|m l IH]; intros [ids tokens]; simpl; [by left|].
    intros [Hid|(m' & Hm & ?)]%IH; [|right; exists m'; split; [by right|done]].
    revert Hid. case_bool_decide as Hrole; simpl; [|by left].
    destruct (text_parts m); [by left|]. destruct (user_budget <? _); [by left|].
    cbn [fst]. intros [->%elem_of_singleton|?]%elem_of_union; [right|by left].
    exists m. split; [by left|done]. }
  intros [Hid|(m & Hm & ?)]%Hfold; [set_solver|]. exists m. split; [by apply elem_of_reverse|done].
Qed.

(** ** The selection *)

(** [cut_at] for the units of a history, without the units. *)
Lemma cut_at_history remainder tail_units before :
  cut_at (build_message_units remainder) tail_units before ->
  remainder = before ++ flatten_units tail_units
  /\ (remainder <> [] -> flatten_units tail_units <> [] /\ pending_calls before = ∅)
  /\ ((length tail_units <= 1)%nat -> indivisible (flatten_units tail_units)).
Proof.
  destruct (build_message_units_ok remainder) as (Hflat & [Hne Hcut] & Hind).
  intros (du & Hunits & <- & Htail). split_and!.
  - by rewrite <- flatten_units_app, <- Hunits, Hflat.
  - intros Hrem. assert (tail_units <> []) as Htu.
    { apply Htail. intros Hnil. by rewrite Hnil in Hflat. }
    split; [|by eapply Hcut].
    intros ?%flatten_units_nil; [done|]. rewrite Hunits in Hne. by apply Forall_app in Hne as [_ ?].
  - rewrite Hunits in Hind. apply Forall_app in Hind as [_ Hind].
    destruct tail_units as [|unit [|]]; simpl in *; [|rewrite app_nil_r|lia].
    + intros _ [] b; [done|]. discriminate.
    + intros _. by inversion Hind.
Qed.

(** The parts of a selection of the history [history] (no summaries in it). *)
Record selection_of (history : list Message) (budget_tokens : Z) (sel : RetentionSelection)
    : Prop := {
  so_middle : exists middle,
    history = rs_pinned_prefix sel ++ middle ++ rs_tail sel
    /\ Permutation middle (rs_retained_users sel ++ rs_dropped sel)
    /\ sublist (rs_retained_users sel) middle
    /\ Forall (fun m => exists u, u ∈ middle /\ msg_role u = RoleUser
                               /\ msg_message_id u = msg_message_id m)
         (rs_retained_users sel)
    /\ pending_calls middle = ∅
    /\ (middle <> [] -> rs_tail sel <> []);
  so_prefix : Forall (fun m => msg_role m = RoleSystem) (rs_pinned_prefix sel);
  so_summary_budget : SUMMARY_BUDGET_MIN_TOKENS <= rs_summary_budget sel
                      <= SUMMARY_BUDGET_MAX_TOKENS;
  so_fits :
    u64_saturating_add
      (u64_saturating_add
         (u64_saturating_add (estimate_messages_tokens render_value (rs_pinned_prefix sel))
            (estimate_messages_tokens render_value (rs_retained_users sel)))
         (rs_summary_budget sel))
      (estimate_messages_tokens render_value (rs_tail sel)) <= budget_tokens
    \/ rs_retained_users sel = [] /\ indivisible (rs_tail sel);
}.

Lemma resolve_retention_selection_ok messages budget_tokens user_budget_config force previous :
  let sel := resolve_retention_selection render_value messages budget_tokens user_budget_config
               force previous in
  selection_of (filter (fun m => ~ is_summary m) messages) budget_tokens sel
  /\ rs_folded_summaries sel
     = fold_previous_summary (extract_summary_messages messages).1 previous
  /\ rs_messages_before sel = wrap32 (Z.of_nat (length messages)).
Proof.
  unfold resolve_retention_selection.
  destruct (extract_summary_messages_ok messages) as (<- & _ & _).
  destruct (extract_summary_messages messages) as [folded history]; cbn [fst snd].
  pose proof (split_system_prefix_ok history) as Hsplit.
  destruct (split_system_prefix history) as [prefix remainder].
  destruct Hsplit as [<- Hsys].
  set (summary_budget := summary_budget_of _).
  set (user_budget := Z.min _ _). set (tail_budget := u64_saturating_sub _ user_budget).
  pose proof (walk_tail_cut_at tail_budget (build_message_units remainder)) as Hcut.
  destruct (walk_tail _ _ _ _ _) as [tail1 cut_index].
  apply drop_orphans_ok in Hcut.
  destruct (drop_orphans _ _) as [tail2 dropped_units].
  set (is_retained := fun m => bool_decide (msg_message_id m ∈ _)).
  pose proof (filter_partition is_retained (flatten_units dropped_units)) as Hpart.
  set (users := List.filter is_retained _) in *. set (dropped2 := List.filter (fun m => negb (is_retained m)) _) in *.
  assert (let '(tail3, dropped3) := if force then force_drop tail2 dropped2
                                     else (tail2, dropped2) in
    exists before, cut_at (build_message_units remainder) tail3 before
      /\ Permutation before (users ++ dropped3) /\ sublist users before
      /\ Forall (fun m => exists u, u ∈ before /\ msg_role u = RoleUser
                                 /\ msg_message_id u = msg_message_id m) users) as Hforce.
  { assert (sublist users (flatten_units dropped_units)) as Hsub
      by apply List_filter_sublist.
    assert (Forall (fun m => exists u, u ∈ flatten_units dropped_units /\ msg_role u = RoleUser
                               /\ msg_message_id u = msg_message_id m) users) as Hroles.
    { apply List.Forall_forall. intros m [_ Hm]%List.filter_In.
      apply bool_decide_eq_true in Hm. by eapply retained_user_ids_ok. }
    destruct force; [|by exists (flatten_units dropped_units); split_and!].
    apply (force_drop_ok _ _ dropped2 users) in Hcut; [|done].
    destruct (force_drop _ _) as [tail3 dropped3].
    destruct Hcut as (before & Hcut & Hperm & [extra ->]). eexists; split_and!; [done..| |].
    - by apply sublist_inserts_r.
    - eapply Forall_impl; [exact Hroles|]. set_solver. }
  destruct (if force then _ else _) as [tail3 dropped3].
  destruct Hforce as (before & Hcut3 & Hperm3 & Hsub & Hroles).
  pose proof (shrink_ok budget_tokens (estimate_messages_tokens render_value prefix)
    summary_budget users dropped3 tail3 _ before Hcut3 Hperm3) as Hshrink.
  destruct (shrink _ _ _ _ _ _ _) as [[users4 dropped4] tail4].
  destruct Hshrink as ((before4 & Hcut4 & Hperm4 & [extra ->]) & [gone ->] & Hfit).
  apply cut_at_history in Hcut4 as (Hrem & Hclosed & Hind).
  split; [|done]. constructor; cbn [rs_pinned_prefix rs_retained_users rs_tail rs_dropped
    rs_folded_summaries rs_summary_budget].
  - exists (before ++ extra). rewrite <- Hrem. split_and!; [done..| | | |].
    + apply sublist_inserts_r. etrans; [|exact Hsub]. by apply sublist_inserts_l.
    + apply Forall_app in Hroles as [_ Hroles]. eapply Forall_impl; [exact Hroles|]. set_solver.
    + destruct remainder as [|m remainder]; [|by apply Hclosed].
      symmetry in Hrem. by apply app_nil in Hrem as [-> _].
    + intros Hm. apply Hclosed. intros ->. symmetry in Hrem. by apply app_nil in Hrem as [? _].
  - done.
  - subst summary_budget. unfold summary_budget_of, clamp, SUMMARY_BUDGET_MIN_TOKENS,
      SUMMARY_BUDGET_MAX_TOKENS. lia.
  - destruct Hfit as [Hfit|[-> Hlen]]; [by left|]. right. auto.
Qed.
End stages.
