(* ===== verification/ContextLaws.v ===== *)
(** * Compaction: what the model is shown afterwards

    The properties of [compact_messages], [plan_compaction] and
    [build_request_with_options] ([Context]), from the laws of the selection
    in [ContextUnits]: nothing is lost or cut apart, the result fits its
    budget, summaries form a chain, and the plan made before the summary is
    written agrees with the compaction made after. *)

From stdpp Require Import base list strings gmap sorting.
From Stdlib Require Import ZArith Lia Permutation.
From S2P Require Import Prelude Text Json Types Messages ContextPrompt Context ContextUnits.

#[local] Open Scope Z_scope.
#[local] Arguments String.append !_ _ / : simpl nomatch.

(** ** Sums of estimates *)

Definition sumZ (l : list Z) : Z := foldr Z.add 0 l.

Lemma sumZ_app a b : sumZ (a ++ b) = sumZ a + sumZ b.
Proof. unfold sumZ. induction a as [|z a IH]; simpl; lia. Qed.

Lemma sumZ_nonneg l : Forall (fun z => 0 <= z) l -> 0 <= sumZ l.
Proof. unfold sumZ. induction 1; simpl; lia. Qed.

Lemma sumZ_Permutation a b : Permutation a b -> sumZ a = sumZ b.
Proof. unfold sumZ. induction 1; simpl; lia. Qed.

Lemma sum_u64_exact l :
  Forall (fun z => 0 <= z) l -> sumZ l < U64_MOD -> sum_u64 l = sumZ l.
Proof.
  unfold sum_u64. intros Hall Hlt.
  assert (forall acc, 0 <= acc -> acc + sumZ l < U64_MOD ->
            fold_left u64_add l acc = acc + sumZ l) as H; [|apply H; lia].
  clear Hlt. induction Hall as [|z l Hz Hall IH]; intros acc Hacc Hlt; cbn [sumZ foldr] in *.
  - simpl. lia.
  - fold (sumZ l) in *. pose proof (sumZ_nonneg l Hall). cbn [fold_left].
    rewrite u64_add_small by lia. rewrite IH; lia.
Qed.

Lemma sum_u64_range l : is_u64 (sum_u64 l).
Proof.
  unfold sum_u64. assert (is_u64 0) as H0 by by vm_compute.
  revert H0. generalize 0. induction l as [|z l IH]; intros acc Hacc; [done|].
  apply IH, u64_add_range.
Qed.

Section tokens.
Context (render_value : Value -> string).

Lemma estimate_message_tokens_range m : is_u64 (estimate_message_tokens render_value m).
Proof. apply sum_u64_range. Qed.

Definition total_tokens (messages : list Message) : Z :=
  sumZ (List.map (estimate_message_tokens render_value) messages).

Lemma total_tokens_app a b : total_tokens (a ++ b) = total_tokens a + total_tokens b.
Proof. unfold total_tokens. by rewrite map_app, sumZ_app. Qed.

Lemma estimates_nonneg messages :
  Forall (fun z => 0 <= z) (List.map (estimate_message_tokens render_value) messages).
Proof.
  induction messages as [|m messages IH]; simpl; constructor; [|done].
  by destruct (estimate_message_tokens_range m).
Qed.

Lemma total_tokens_nonneg messages : 0 <= total_tokens messages.
Proof. apply sumZ_nonneg, estimates_nonneg. Qed.

Lemma total_tokens_Permutation a b : Permutation a b -> total_tokens a = total_tokens b.
Proof. intros H. by apply sumZ_Permutation, Permutation_map. Qed.

Lemma estimate_messages_tokens_exact messages :
  total_tokens messages < U64_MOD ->
  estimate_messages_tokens render_value messages = total_tokens messages.
Proof. apply sum_u64_exact, estimates_nonneg. Qed.

Lemma total_tokens_filter P `{!forall m, Decision (P m)} messages :
  total_tokens (filter P messages) <= total_tokens messages.
Proof.
  induction messages as [|m messages IH]; [done|].
  change (m :: messages) with ([m] ++ messages). rewrite filter_app, !total_tokens_app.
  assert (total_tokens (filter P [m]) <= total_tokens [m]); [|lia].
  rewrite filter_cons, filter_nil. destruct (decide (P m)); [done|apply total_tokens_nonneg].
Qed.

(** Each part of a selection, and their sum, is within the history. *)
Lemma selection_tokens_le history budget sel :
  selection_of render_value history budget sel ->
  total_tokens (rs_pinned_prefix sel) + total_tokens (rs_retained_users sel)
  + total_tokens (rs_dropped sel) + total_tokens (rs_tail sel) = total_tokens history.
Proof.
  intros [(middle & -> & Hperm & _) _ _ _]. rewrite !total_tokens_app.
  apply total_tokens_Permutation in Hperm. rewrite total_tokens_app in Hperm. lia.
Qed.
End tokens.

(** ** Text estimates *)

Lemma estimate_text_tokens_le text n :
  (char_count text <= n)%nat -> estimate_text_tokens text <= Z.of_nat n / 4 + 8.
Proof.
  intros H. unfold estimate_text_tokens, u64_saturating_add.
  etrans; [apply Z.le_min_r|]. apply Z.add_le_mono_r, Z.div_le_mono; lia.
Qed.

Lemma estimate_text_tokens_chars text b :
  b < U64_MAX -> estimate_text_tokens text <= b -> Z.of_nat (char_count text) <= 4 * (b - 8) + 3.
Proof.
  unfold estimate_text_tokens, u64_saturating_add. intros Hb [H|H]%Z.min_le; [lia|].
  pose proof (Z.div_mod (Z.of_nat (char_count text)) 4 ltac:(lia)).
  pose proof (Z.mod_pos_bound (Z.of_nat (char_count text)) 4 ltac:(lia)). lia.
Qed.

Lemma estimate_text_tokens_pos text : 8 <= estimate_text_tokens text <= U64_MAX.
Proof.
  unfold estimate_text_tokens, u64_saturating_add.
  assert (0 <= Z.of_nat (char_count text) / 4) by (apply Z.div_pos; lia).
  assert (8 <= U64_MAX) by by vm_compute. lia.
Qed.

(** Budgets the truncations multiply by four stay far from overflow. *)
Definition small_budget (b : Z) : Prop := 0 <= b <= 1000000.

Lemma small_budget_mul b : small_budget b -> u64_saturating_mul b 4 = b * 4 /\ b < U64_MAX.
Proof.
  unfold small_budget, u64_saturating_mul. assert (4000000 < U64_MAX) by by vm_compute.
  intros. split; [apply Z.min_r|]; lia.
Qed.

(** A truncated text has at most [4 * budget + 3] characters. *)
Lemma truncate_to_token_estimate_chars text b :
  small_budget b ->
  Z.of_nat (char_count (truncate_to_token_estimate text b)) <= 4 * b + 3.
Proof.
  intros Hb. destruct (small_budget_mul b Hb) as [Hmul Hmax].
  unfold truncate_to_token_estimate.
  destruct (Z.leb_spec (estimate_text_tokens text) b) as [Hle|Hgt].
  - pose proof (estimate_text_tokens_chars text b Hmax Hle). lia.
  - rewrite Hmul. pose proof (char_count_append_le (take_chars (Z.to_nat (b * 4)) text) "...").
    rewrite char_count_take_chars in H. change (char_count "...") with 3%nat in H.
    unfold small_budget in Hb. lia.
Qed.

(** Truncating a text of at least [4 * budget] characters leaves one whose own
    estimate exceeds the budget by eight tokens. *)
Lemma truncate_to_token_estimate_overshoots text b :
  small_budget b -> 4 * b <= Z.of_nat (char_count text) -> utf8_start text ->
  estimate_text_tokens (truncate_to_token_estimate text b) = b + 8.
Proof.
  intros Hb Hlen Hs. destruct (small_budget_mul b Hb) as [Hmul Hmax].
  unfold small_budget in Hb. unfold truncate_to_token_estimate.
  destruct (Z.leb_spec (estimate_text_tokens text) b) as [Hle|Hgt].
  - pose proof (estimate_text_tokens_chars text b Hmax Hle). lia.
  - rewrite Hmul. unfold estimate_text_tokens.
    rewrite char_count_append, char_count_take_chars;
      [|by apply utf8_start_concat, Forall_take, chars_shape|done].
    change (char_count "...") with 3%nat.
    replace (Z.of_nat _) with (b * 4 + 3) by lia. rewrite Z.add_comm, Z.div_add by lia.
    unfold u64_saturating_add. assert (2000000 < U64_MAX) by by vm_compute.
    change (3 / 4) with 0. lia.
Qed.

(** ** The deterministic summary *)

(** The digest's estimate exceeds its budget by at most eight tokens. *)
Lemma fit_digest_chars ls protected b n digest :
  small_budget b -> fit_digest ls protected b n = Some digest ->
  Z.of_nat (char_count digest) <= 4 * b + 3.
Proof.
  intros Hb. destruct (small_budget_mul b Hb) as [Hmul Hmax]. unfold small_budget in Hb.
  induction n as [|n IH]; [done|]. cbn [fit_digest].
  destruct (Z.leb_spec (estimate_text_tokens (join nl (take (S n) ls))) b) as [Hle|Hgt].
  { intros [= <-]. pose proof (estimate_text_tokens_chars _ b Hmax Hle). lia. }
  destruct (Nat.ltb protected (S n)); [done|]. rewrite Hmul. clear IH.
  set (candidate := join nl (take (S n) ls)).
  assert (char_count (take_chars (Z.to_nat (b * 4)) candidate) <= Z.to_nat (b * 4))%nat as Hcut.
  { rewrite char_count_take_chars. lia. }
  destruct (Nat.ltb _ _); intros [= <-]; [|lia].
  pose proof (char_count_append_le (take_chars (Z.to_nat (b * 4)) candidate) "...") as H.
  change (char_count "...") with 3%nat in H. lia.
Qed.

Lemma fit_digest_Some ls protected b n :
  (0 < n)%nat -> (1 <= protected)%nat -> is_Some (fit_digest ls protected b n).
Proof.
  intros Hn Hp. induction n as [|n IH]; [lia|]. cbn [fit_digest].
  destruct (_ <=? b); [by eexists|]. destruct (Nat.ltb_spec protected (S n)); [|by eexists].
  destruct n; [lia|apply IH; lia].
Qed.

(** ** Text that shows: what a summary body is made of *)

(** A string whose first character is not white space. *)
Definition legible (s : string) : Prop :=
  utf8_start s /\ exists ch cs, chars s = ch :: cs /\ is_whitespace ch = false.

Lemma legible_append s t : legible s -> utf8_start t -> legible (s +:+ t).
Proof.
  intros [Hs (ch & cs & Hc & Hw)] Ht. split; [by apply utf8_start_append|].
  exists ch, (cs ++ chars t). by rewrite chars_append, Hc.
Qed.

Lemma legible_take n s : (0 < n)%nat -> legible s -> legible (take_chars n s).
Proof.
  intros Hn [Hs (ch & cs & Hc & Hw)]. split.
  - apply utf8_start_concat. by apply Forall_take, chars_shape.
  - destruct n as [|n]; [lia|]. exists ch, (take n cs). by rewrite chars_take, Hc.
Qed.

Lemma utf8_start_newline s : utf8_start (nl +:+ s).
Proof. unfold utf8_start. simpl. by destruct (utf8_split s). Qed.

Lemma chars_newline s : utf8_start s -> chars (nl +:+ s) = nl :: chars s.
Proof. intros Hs. by rewrite chars_append. Qed.

Lemma legible_truncate s b : 0 < b -> legible s -> legible (truncate_to_token_estimate s b).
Proof.
  intros Hb Hs. unfold truncate_to_token_estimate. destruct (_ <=? b); [done|].
  apply legible_append; [|done]. apply legible_take; [|done].
  unfold u64_saturating_mul. assert (0 < U64_MAX) by by vm_compute. lia.
Qed.

Lemma legible_trim s : utf8_start s -> is_blank s = false -> legible (trim s).
Proof.
  intros Hs Hb. split; [by apply utf8_start_trim|].
  destruct (trim_spec s Hs) as (a & b & _ & _ & _ & [Ht _]).
  destruct (chars (trim s)) as [|ch cs] eqn:Hc.
  - apply chars_nil_iff in Hc. unfold is_blank in Hb. by rewrite Hc in Hb.
  - exists ch, cs. split; [done|]. simpl in Ht. destruct (is_whitespace ch); [|done].
    exfalso. destruct (drop_while_split is_whitespace cs) as (d & Hd & _).
    apply (f_equal length) in Ht. apply (f_equal length) in Hd.
    rewrite length_app in Hd. simpl in Ht. lia.
Qed.

Lemma legible_not_blank s : legible s -> trim s <> "".
Proof.
  intros [Hs (ch & cs & Hc & Hw)] Hblank.
  destruct (trim_spec s Hs) as (a & b & Hsplit & Ha & Hb & _).
  rewrite Hblank in Hsplit. change (chars "") with (@nil string) in Hsplit.
  simpl in Hsplit. rewrite Hc in Hsplit.
  assert (Forall (fun c => is_whitespace c = true) (a ++ b)) as Hall by by apply Forall_app.
  rewrite <- Hsplit in Hall. inversion Hall. congruence.
Qed.

Lemma legible_literal s :
  utf8_start s -> is_whitespace (default "" (head (chars s))) = false -> s <> "" -> legible s.
Proof.
  intros Hs Hw Hne. split; [done|]. destruct (chars s) as [|ch cs] eqn:Hc; [|by exists ch, cs].
  by apply chars_nil_iff in Hc.
Qed.

Lemma legible_join_head s l : legible s -> legible (join nl (s :: l)).
Proof.
  intros Hs. destruct l as [|t l]; [done|].
  change (legible (s +:+ nl +:+ join nl (t :: l))).
  apply legible_append; [done|apply utf8_start_newline].
Qed.

Lemma legible_fit_digest ls protected b n digest :
  0 < b -> fit_digest (LEGACY_SUMMARY_FIRST_LINE :: ls) protected b n = Some digest ->
  legible digest.
Proof.
  intros Hb. induction n as [|n IH]; [done|]. cbn [fit_digest].
  set (candidate := join nl (take (S n) (LEGACY_SUMMARY_FIRST_LINE :: ls))).
  assert (legible candidate) as Hleg.
  { apply legible_join_head. by apply legible_literal. }
  destruct (_ <=? b); [by intros [= <-]|]. destruct (Nat.ltb protected (S n)); [done|].
  assert (legible (take_chars (Z.to_nat (u64_saturating_mul b 4)) candidate)) as Hcut.
  { apply legible_take; [|done]. unfold u64_saturating_mul.
    assert (0 < U64_MAX) by by vm_compute. lia. }
  destruct (Nat.ltb _ _); intros [= <-]; [|done]. by apply legible_append.
Qed.

Section fallback.
Context (render_value : Value -> string).

Lemma build_summary_inv dropped activity b r :
  build_summary render_value dropped activity b = Some r ->
  (dropped = [] \/ b = 0) /\ r = None
  \/ dropped <> [] /\ b <> 0 /\ exists ls protected,
       (1 <= protected)%nat /\ (exists ls', ls = LEGACY_SUMMARY_FIRST_LINE :: ls')
       /\ r = fit_digest ls protected b (length ls).
Proof.
  unfold build_summary. destruct dropped as [|m dropped]; [intros [= <-]; auto|].
  destruct (Z.eqb_spec b 0); [intros [= <-]; auto|].
  intros (message_lines & _ & H)%bind_Some. apply (inj Some) in H. right.
  split_and!; [done..|].
  exists (digest_header activity ++ reverse message_lines), (protected_line_count activity
    (length (digest_header activity ++ reverse message_lines))).
  rewrite <- H, length_app. unfold protected_line_count, digest_header. rewrite length_app.
  cbn [length]. split_and!; [lia|by eexists|]. by rewrite length_app.
Qed.

Lemma build_summary_chars dropped activity b digest :
  small_budget b -> build_summary render_value dropped activity b = Some (Some digest) ->
  Z.of_nat (char_count digest) <= 4 * b + 3.
Proof.
  intros Hb [[_ H]|(_ & _ & ls & protected & _ & _ & H)]%build_summary_inv; [done|].
  symmetry in H. by apply fit_digest_chars in H.
Qed.

(** Something dropped always gives a digest. *)
Lemma build_summary_Some dropped activity b r :
  dropped <> [] -> 0 < b -> build_summary render_value dropped activity b = Some r -> r <> None.
Proof.
  intros Hd Hb [[[?|?] _]|(_ & _ & ls & protected & Hp & [ls' ->] & ->)]%build_summary_inv;
    [done|lia|].
  edestruct (fit_digest_Some (LEGACY_SUMMARY_FIRST_LINE :: ls') protected b) as [? ->];
    [|done..]. simpl. lia.
Qed.

Definition folded_section (folded_summaries : list string) (room : Z) : list string :=
  match folded_summaries with
  | [] => []
  | _ => [truncate_to_token_estimate
            ("Previous summary:" +:+ nl +:+ join (nl +:+ nl) folded_summaries)
            (Z.max (room / 2) SUMMARY_BUDGET_MIN_TOKENS)]
  end.

Lemma compose_fallback_inv dropped folded activity room body :
  compose_fallback_summary_body render_value dropped folded activity room = Some body ->
  exists digest,
    build_summary render_value dropped activity
      (Z.max (u64_saturating_sub room
                (sum_u64 (List.map estimate_text_tokens (folded_section folded room)))) 64)
      = Some digest
    /\ body = match digest with
              | Some d => Some (join nl (d :: folded_section folded room))
              | None => match folded_section folded room with
                        | [] => None
                        | sections => Some (join nl sections)
                        end
              end.
Proof.
  unfold compose_fallback_summary_body. fold (folded_section folded room).
  intros (digest & Hd & [= <-])%bind_Some. exists digest. split; [done|].
  destruct digest; [done|]. by destruct (folded_section folded room).
Qed.

(** There is a fallback body exactly when something is dropped or folded. *)
Lemma compose_fallback_None dropped folded activity room body :
  compose_fallback_summary_body render_value dropped folded activity room = Some body ->
  body = None <-> dropped = [] /\ folded = [].
Proof.
  intros (digest & Hd & ->)%compose_fallback_inv.
  destruct digest as [d|].
  - split; [done|]. intros [-> ->]. done.
  - assert (dropped = []) as ->.
    { destruct (decide (dropped = [])) as [|Hne]; [done|].
      exfalso. eapply (build_summary_Some dropped) in Hd; [done|done|lia]. }
    destruct folded; simpl; naive_solver.
Qed.

Lemma sum_u64_single text :
  sum_u64 (List.map estimate_text_tokens [text]) = estimate_text_tokens text.
Proof.
  unfold sum_u64. cbn [List.map fold_left]. pose proof (estimate_text_tokens_pos text).
  assert (U64_MAX < U64_MOD) by by vm_compute. rewrite u64_add_small; lia.
Qed.

(** The fallback body has room for at most [max room 144 + 1] tokens' worth of
    characters. *)
Lemma compose_fallback_chars dropped folded activity room body :
  0 <= room <= 900000 ->
  compose_fallback_summary_body render_value dropped folded activity room = Some (Some body) ->
  Z.of_nat (char_count body) <= 4 * Z.max room 144 + 3.
Proof.
  intros Hroom (digest & Hd & Hbody)%compose_fallback_inv.
  assert (forall section, In section (folded_section folded room) ->
            folded_section folded room = [section]
            /\ Z.of_nat (char_count section) <= 4 * Z.max (room / 2) 64 + 3) as Hsec.
  { unfold folded_section. destruct folded; [done|]. intros section [<-|[]]. split; [done|].
    assert (room / 2 <= room) by (apply Z.div_le_upper_bound; lia).
    apply truncate_to_token_estimate_chars. unfold small_budget, SUMMARY_BUDGET_MIN_TOKENS. lia. }
  assert (2 * (room / 2) <= room) as Hhalf by (apply Z.mul_div_le; lia).
  destruct (folded_section folded room) as [|section rest] eqn:Hfs.
  - destruct digest as [d|]; [|done]. injection Hbody as ->. cbn [join String.concat].
    apply build_summary_chars in Hd; unfold small_budget, u64_saturating_sub in *;
      change (sum_u64 _) with 0 in *; lia.
  - destruct (Hsec section) as [[= ->] Hlen]; [by left|].
    destruct digest as [d|]; injection Hbody as ->; [|cbn [join String.concat]; lia].
    rewrite sum_u64_single in Hd.
    assert (estimate_text_tokens section <= Z.max (room / 2) 64 + 8) as He.
    { etrans; [by apply (estimate_text_tokens_le _ (char_count section))|].
      apply Z.add_le_mono_r. apply Z.lt_succ_r, Z.div_lt_upper_bound; lia. }
    pose proof (estimate_text_tokens_chars section (estimate_text_tokens section)) as Hc.
    pose proof (estimate_text_tokens_pos section).
    apply build_summary_chars in Hd; [|unfold small_budget, u64_saturating_sub in *; lia].
    cbn [join String.concat].
    pose proof (char_count_append_le d (nl +:+ section)).
    pose proof (char_count_append_le nl section). change (char_count nl) with 1%nat in *.
    assert (room + 1000 < U64_MAX) by (assert (1000000 < U64_MAX) by (by vm_compute); lia).
    specialize (Hc ltac:(lia) ltac:(lia)).
    unfold u64_saturating_sub in Hd.
    change (String newline section) with (nl +:+ section). lia.
Qed.

Lemma folded_section_legible folded room section :
  In section (folded_section folded room) -> legible section.
Proof.
  unfold folded_section. destruct folded as [|body folded]; [done|]. intros [<-|[]].
  apply legible_truncate; [unfold SUMMARY_BUDGET_MIN_TOKENS; lia|].
  apply legible_append; [by apply legible_literal|apply utf8_start_newline].
Qed.

Lemma compose_fallback_legible dropped folded activity room body :
  compose_fallback_summary_body render_value dropped folded activity room = Some (Some body) ->
  legible body.
Proof.
  intros (digest & Hd & Hbody)%compose_fallback_inv.
  destruct digest as [d|].
  - injection Hbody as ->. apply legible_join_head.
    apply build_summary_inv in Hd as [[_ ?]|(_ & _ & ls & protected & _ & [ls' ->] & Hd)]; [done|].
    symmetry in Hd. apply legible_fit_digest in Hd; [done|lia].
  - destruct (folded_section folded room) as [|section rest] eqn:Hfs; [done|].
    injection Hbody as ->. apply legible_join_head.
    apply (folded_section_legible folded room). rewrite Hfs. by left.
Qed.
End fallback.

(** ** Compactions *)

Section compaction.
Context (render_value : Value -> string).
Context (fresh_id : MessageId) (now : OffsetDateTime).

#[local] Abbreviation compact := (compact_messages render_value fresh_id now).
#[local] Abbreviation select := (resolve_retention_selection render_value).

Definition summary_message (text : string) : Message :=
  message_text fresh_id now RoleSystem text.

(** What a compaction returns: the parts of the selection around one summary. *)
Lemma compact_messages_inv messages budget trigger user_budget previous override out c :
  compact messages budget trigger user_budget previous override = Some (out, Some c) ->
  let sel := select messages budget user_budget (bool_decide (trigger = TriggerForced)) previous in
  exists body,
    out = rs_pinned_prefix sel ++ rs_retained_users sel
          ++ [summary_message (cp_summary c)] ++ rs_tail sel
    /\ cp_summary c = COMPACTION_SUMMARY_MARKER +:+ nl +:+ body
    /\ cp_trigger c = trigger
    /\ summary_body_of render_value sel (collect_file_activity (rs_dropped sel))
         (clamp 16 (Z.max (rs_summary_budget sel) 16)
            (u64_saturating_sub budget
               (u64_saturating_add
                  (u64_saturating_add
                     (estimate_messages_tokens render_value (rs_pinned_prefix sel))
                     (estimate_messages_tokens render_value (rs_retained_users sel)))
                  (estimate_messages_tokens render_value (rs_tail sel)))))
         override = Some (Some body).
Proof.
  unfold compact_messages. intros (body & Hbody & H)%bind_Some.
  destruct body as [body|]; [|done]. injection H as <- <-. by exists body.
Qed.

Lemma summary_body_chars sel activity room override body :
  rs_summary_budget sel <= SUMMARY_BUDGET_MAX_TOKENS -> 0 <= room <= rs_summary_budget sel ->
  summary_body_of render_value sel activity room override = Some (Some body) ->
  Z.of_nat (char_count body) <= 4 * Z.max (rs_summary_budget sel) 144 + 3.
Proof.
  unfold SUMMARY_BUDGET_MAX_TOKENS. intros Hmax Hroom. unfold summary_body_of.
  assert (compose_fallback_summary_body render_value (rs_dropped sel) (rs_folded_summaries sel)
            activity room = Some (Some body) ->
          Z.of_nat (char_count body) <= 4 * Z.max (rs_summary_budget sel) 144 + 3) as Hfallback.
  { intros H%compose_fallback_chars; lia. }
  destruct override as [text|]; [|done]. destruct (is_blank text); [done|].
  intros [= <-].
  pose proof (truncate_to_token_estimate_chars (trim text) (Z.max room (rs_summary_budget sel))).
  unfold small_budget in *. lia.
Qed.

(** The summary message takes what is reserved for it and at most 94 tokens. *)
Lemma summary_message_tokens body b :
  64 <= b <= SUMMARY_BUDGET_MAX_TOKENS -> Z.of_nat (char_count body) <= 4 * Z.max b 144 + 3 ->
  0 <= estimate_message_tokens render_value
         (summary_message (COMPACTION_SUMMARY_MARKER +:+ nl +:+ body)) <= b + 94.
Proof.
  unfold SUMMARY_BUDGET_MAX_TOKENS. intros Hb Hc.
  set (text := COMPACTION_SUMMARY_MARKER +:+ nl +:+ body).
  assert (char_count text <= 21 + char_count body)%nat as Ht.
  { subst text. etrans; [apply char_count_append_le|].
    pose proof (char_count_append_le nl body).
    change (char_count COMPACTION_SUMMARY_MARKER) with 20%nat.
    change (char_count nl) with 1%nat in *. lia. }
  assert (estimate_message_tokens render_value (summary_message text)
          = estimate_text_tokens text) as ->.
  { apply (sum_u64_single text). }
  pose proof (estimate_text_tokens_pos text). split; [lia|].
  etrans; [by apply (estimate_text_tokens_le _ (char_count text))|].
  assert (Z.of_nat (char_count text) / 4 < b + 87); [|lia].
  apply Z.div_lt_upper_bound; lia.
Qed.

(** C19. Compaction loses nothing and cuts nothing apart: the history without its
    old summaries is the pinned prefix, a middle part and the tail; the
    request holds the prefix, some of the middle, one summary and the tail;
    the rest of the middle is what was dropped (and summarized).  What is
    kept of the middle is in its original order and comes from user messages;
    every tool call of the middle is answered in it, so no result of the tail
    answers a call that was dropped; and the newest message is kept. *)
Theorem compaction_keeps_history messages budget trigger user_budget previous override out c :
  compact messages budget trigger user_budget previous override = Some (out, Some c) ->
  exists prefix middle users dropped tail,
    out = prefix ++ users ++ [summary_message (cp_summary c)] ++ tail
    /\ filter (fun m => ~ is_summary m) messages = prefix ++ middle ++ tail
    /\ Forall (fun m => msg_role m = RoleSystem) prefix
    /\ Permutation middle (users ++ dropped)
    /\ sublist users middle
    /\ Forall (fun m => exists u, u ∈ middle /\ msg_role u = RoleUser
                               /\ msg_message_id u = msg_message_id m) users
    /\ pending_calls middle = ∅
    /\ (middle <> [] -> tail <> []).
Proof.
  intros (body & -> & _)%compact_messages_inv.
  set (sel := select messages budget user_budget _ previous).
  destruct (resolve_retention_selection_ok render_value messages budget user_budget
    (bool_decide (trigger = TriggerForced)) previous) as ([Hmid Hprefix _ _] & _ & _).
  fold sel in Hmid, Hprefix.
  destruct Hmid as (middle & Hh & Hperm & Hsub & Hroles & Hpend & Htail).
  exists (rs_pinned_prefix sel), middle, (rs_retained_users sel), (rs_dropped sel), (rs_tail sel).
  done.
Qed.

(** C27. The compacted messages fit the budget they were given, up to the 94
    tokens by which the summary may exceed its share, unless nothing more
    could be given up: no user message is retained and the tail cannot be
    cut without separating a tool call from its result. *)
Theorem compaction_fits_budget messages budget trigger user_budget previous override out c :
  0 <= budget <= I64_MAX -> total_tokens render_value messages <= I64_MAX ->
  compact messages budget trigger user_budget previous override = Some (out, Some c) ->
  estimate_messages_tokens render_value out <= budget + 94
  \/ exists prefix tail, out = prefix ++ [summary_message (cp_summary c)] ++ tail
       /\ Forall (fun m => msg_role m = RoleSystem) prefix /\ indivisible tail.
Proof.
  intros Hbudget Htotal (body & -> & Hsummary & _ & Hbody)%compact_messages_inv.
  set (sel := select messages budget user_budget _ previous) in *.
  destruct (resolve_retention_selection_ok render_value messages budget user_budget
    (bool_decide (trigger = TriggerForced)) previous) as (Hok & _ & _). fold sel in Hok.
  pose proof (selection_tokens_le _ _ _ _ Hok) as Hsum.
  pose proof (total_tokens_filter render_value (fun m => ~ is_summary m) messages) as Hfilter.
  destruct Hok as [_ Hprefix Hsb [Hfits|[Husers Htail]]]; [left|right].
  2:{ exists (rs_pinned_prefix sel), (rs_tail sel). by rewrite Husers. }
  unfold SUMMARY_BUDGET_MIN_TOKENS in Hsb.
  apply summary_body_chars in Hbody; [|lia|unfold clamp; lia].
  pose proof (summary_message_tokens body (rs_summary_budget sel) ltac:(lia) Hbody) as Hmsg.
  rewrite <- Hsummary in Hmsg.
  assert (I64_MAX + 5000 < U64_MAX /\ U64_MAX < U64_MOD) as [Hmax Hmod]
    by (split; vm_compute; done).
  pose proof (total_tokens_nonneg render_value (rs_pinned_prefix sel)).
  pose proof (total_tokens_nonneg render_value (rs_retained_users sel)).
  pose proof (total_tokens_nonneg render_value (rs_dropped sel)).
  pose proof (total_tokens_nonneg render_value (rs_tail sel)).
  unfold SUMMARY_BUDGET_MAX_TOKENS in Hsb.
  rewrite !estimate_messages_tokens_exact in Hfits by lia.
  unfold u64_saturating_add in Hfits.
  assert (total_tokens render_value [summary_message (cp_summary c)]
          = estimate_message_tokens render_value (summary_message (cp_summary c))) as Hone
    by (unfold total_tokens; cbn [List.map sumZ foldr]; lia).
  rewrite estimate_messages_tokens_exact; rewrite !total_tokens_app, Hone; lia.
Qed.


Lemma summary_body_legible sel activity room override body :
  (forall text, override = Some text -> utf8_start text) ->
  64 <= rs_summary_budget sel ->
  summary_body_of render_value sel activity room override = Some (Some body) -> legible body.
Proof.
  intros Hov Hsb. unfold summary_body_of.
  destruct override as [text|]; [|apply compose_fallback_legible].
  destruct (is_blank text) eqn:Hblank; [apply compose_fallback_legible|].
  intros [= <-]. apply legible_truncate; [lia|]. apply legible_trim; auto.
Qed.

(** A mark in front of a legible text survives trimming, which then only
    affects the end of the text. *)
Lemma trim_marked mark body :
  legible mark -> legible body -> trim (mark +:+ nl +:+ body) = mark +:+ nl +:+ trim body.
Proof.
  intros [Hm (mch & mcs & Hmc & Hmw)] Hleg. pose proof (legible_not_blank _ Hleg) as Hne.
  destruct Hleg as [Hs (ch & cs & Hc & Hw)].
  destruct (trim_spec body Hs) as (a & b & Hsplit & Ha & Hb & [Ht1 Ht2]).
  assert (a = []) as ->.
  { destruct a as [|x a]; [done|]. rewrite Hc in Hsplit. injection Hsplit as <- _.
    apply Forall_cons in Ha as [Ha _]. congruence. }
  assert (chars (mark +:+ nl +:+ body) = [] ++ (chars mark ++ nl :: chars (trim body)) ++ b)
    as Hchars.
  { rewrite chars_append, chars_newline, Hsplit by first [done|apply utf8_start_newline].
    by rewrite <- app_assoc. }
  assert (utf8_start (mark +:+ nl +:+ body)) as Hstart
    by (apply utf8_start_append; [done|apply utf8_start_newline]).
  rewrite <- (concat_chars (mark +:+ nl +:+ body)), Hchars, trim_core; [|..|done|done|].
  - rewrite concat_str_app, concat_chars. simpl. by rewrite concat_chars.
  - rewrite <- Hchars. by apply chars_shape.
  - split.
    + rewrite Hmc. simpl. by rewrite Hmw.
    + rewrite reverse_app, reverse_cons, <- app_assoc. apply tight_cons_app; [|done].
      intros Hr. apply Hne, chars_nil_iff. by rewrite <- (reverse_involutive (chars (trim body))), Hr.
Qed.

Lemma marker_legible : legible COMPACTION_SUMMARY_MARKER.
Proof. by apply legible_literal. Qed.

Lemma trim_legible s : legible s -> legible (trim s).
Proof.
  intros Hs. pose proof (legible_not_blank _ Hs). apply legible_trim; [apply Hs|].
  unfold is_blank. by destruct (String.eqb_spec (trim s) "").
Qed.

Lemma trim_newline s : utf8_start s -> trim (nl +:+ s) = trim s.
Proof. intros Hs. unfold trim. by rewrite chars_newline. Qed.

(** The marker is stripped again. *)
Lemma normalize_marked_body body :
  legible body ->
  normalize_summary_body (COMPACTION_SUMMARY_MARKER +:+ nl +:+ body) = trim body.
Proof.
  intros Hleg. unfold normalize_summary_body.
  rewrite trim_marked by (done || apply marker_legible).
  assert (strip_prefix COMPACTION_SUMMARY_MARKER (COMPACTION_SUMMARY_MARKER +:+ nl +:+ trim body)
          = Some (nl +:+ trim body)) as -> by by apply strip_prefix_Some.
  transitivity (trim (nl +:+ trim body)); [done|]. rewrite trim_newline by (by apply utf8_start_trim, Hleg).
  apply trim_idemp, Hleg.
Qed.

(** The summary message is recognized as one. *)
Lemma summary_message_recognized body :
  legible body ->
  summary_message_body (summary_message (COMPACTION_SUMMARY_MARKER +:+ nl +:+ body))
  = Some (trim body).
Proof.
  intros Hleg. set (text := COMPACTION_SUMMARY_MARKER +:+ nl +:+ body).
  change (summary_message_body (summary_message text))
    with (let trimmed := trim_start text in
          if starts_with COMPACTION_SUMMARY_MARKER trimmed
             || starts_with LEGACY_SUMMARY_FIRST_LINE trimmed
          then let body := normalize_summary_body trimmed in
               if is_empty body then None else Some body
          else None).
  cbv zeta. assert (trim_start text = text) as ->.
  { unfold trim_start. assert (utf8_start text) as Hs
      by (apply utf8_start_append; [apply marker_legible|apply utf8_start_newline]).
    transitivity (concat_str (chars text)); [|apply concat_chars]. f_equal. subst text.
    rewrite chars_append by (apply marker_legible || apply utf8_start_newline). done. }
  assert (starts_with COMPACTION_SUMMARY_MARKER text = true) as ->
    by (apply starts_with_prefix; by eexists).
  cbn [orb]. subst text. rewrite normalize_marked_body by done.
  unfold is_empty. pose proof (legible_not_blank _ Hleg).
  by destruct (String.eqb_spec (trim body) "").
Qed.


Lemma no_summary_filter l :
  Forall (fun m => ~ is_summary m) l -> filter (fun m => ~ is_summary m) l = l.
Proof. induction 1; [done|]. rewrite filter_cons_True by done. congruence. Qed.

(** What is extracted from a history that holds exactly one summary. *)
Lemma extract_one_summary before after s body :
  Forall (fun m => ~ is_summary m) before -> Forall (fun m => ~ is_summary m) after ->
  summary_message_body s = Some body ->
  extract_summary_messages (before ++ [s] ++ after) = ([body], before ++ after).
Proof.
  intros Hb Ha Hs. rewrite (surjective_pairing (extract_summary_messages _)).
  destruct (extract_summary_messages_ok (before ++ [s] ++ after)) as (-> & Hin & Hnd).
  f_equal.
  - apply list_singleton_of; [done|]. intros x. rewrite Hin. split.
    + intros (m & Hm & Hx). rewrite !elem_of_app, list_elem_of_singleton in Hm.
      rewrite Forall_forall in Hb, Ha. unfold is_summary in *.
      destruct Hm as [Hm|[->|Hm]]; [destruct (Hb m Hm)|congruence|destruct (Ha m Hm)]; congruence.
    + intros ->. exists s. split; [set_solver|done].
  - rewrite !filter_app, (no_summary_filter before) by done.
    rewrite filter_cons_False; [by rewrite filter_nil, (no_summary_filter after)|]. unfold is_summary. rewrite Hs. naive_solver.
Qed.

(** C28. Summaries form a chain, not a stack.  After a compaction, and whatever
    is said next, the history holds one summary; the next compaction folds
    it, once, whether it is found in the history or handed over as the
    previous summary, and retains none of its text; and every summary found
    in the compacted history was itself folded into it. *)
Theorem summaries_form_a_chain messages budget trigger user_budget previous override out c
    newer budget' user_budget' force' :
  (forall text, override = Some text -> utf8_start text) ->
  Forall (fun m => ~ is_summary m) newer ->
  compact messages budget trigger user_budget previous override = Some (out, Some c) ->
  let sel := select messages budget user_budget (bool_decide (trigger = TriggerForced)) previous in
  let next := select (out ++ newer) budget' user_budget' force' (Some (cp_summary c)) in
  rs_folded_summaries next = [normalize_summary_body (cp_summary c)]
  /\ Forall (fun m => ~ is_summary m)
       (rs_pinned_prefix next ++ rs_retained_users next ++ rs_tail next)
  /\ (forall m body, m ∈ messages -> summary_message_body m = Some body ->
       body ∈ rs_folded_summaries sel).
Proof.
  intros Hov Hnewer (body & Hout & Hsummary & _ & Hbody)%compact_messages_inv. cbv zeta.
  set (sel := select messages budget user_budget _ previous) in *.
  destruct (resolve_retention_selection_ok render_value messages budget user_budget
    (bool_decide (trigger = TriggerForced)) previous) as ([Hmid _ Hsb _] & Hfolded & _).
  fold sel in Hmid, Hsb, Hfolded. unfold SUMMARY_BUDGET_MIN_TOKENS in Hsb.
  apply summary_body_legible in Hbody; [|done|lia].
  destruct Hmid as (middle & Hh & _ & Hsub & _).
  assert (Forall (fun m => ~ is_summary m)
            (rs_pinned_prefix sel ++ middle ++ rs_tail sel)) as Hnone
    by (rewrite <- Hh; apply Forall_forall; intros m [? _]%list_elem_of_filter; done).
  rewrite !Forall_app in Hnone. destruct Hnone as (Hn1 & Hn2 & Hn3).
  assert (Forall (fun m => ~ is_summary m) (rs_retained_users sel)) as Hn2'
    by (eapply sublist_Forall; done).
  assert (out ++ newer = (rs_pinned_prefix sel ++ rs_retained_users sel)
            ++ [summary_message (cp_summary c)] ++ rs_tail sel ++ newer) as ->
    by (rewrite Hout, <- !app_assoc; done).
  set (history := (_ ++ _) ++ _).
  destruct (resolve_retention_selection_ok render_value history budget' user_budget' force'
    (Some (cp_summary c))) as ([(middle' & Hh' & _ & Hsub' & _) _ _ _] & Hfolded' & _).
  set (next := select history _ _ _ _) in *. clearbody next.
  assert (extract_summary_messages history
          = ([trim body], (rs_pinned_prefix sel ++ rs_retained_users sel) ++ rs_tail sel ++ newer))
    as Hext.
  { apply extract_one_summary; [by apply Forall_app|by apply Forall_app|].
    rewrite Hsummary. by apply summary_message_recognized. }
  rewrite Hsummary in Hfolded' |- *. rewrite !normalize_marked_body by done. split_and!.
  - rewrite Hfolded', Hext. unfold fold_previous_summary. rewrite normalize_marked_body by done.
    cbn [fst]. rewrite bool_decide_true by (by apply list_elem_of_singleton).
    by rewrite orb_true_r.
  - assert (Forall (fun m => ~ is_summary m)
              (rs_pinned_prefix next ++ middle' ++ rs_tail next)) as Hnone
      by (rewrite <- Hh'; apply Forall_forall; intros m [? _]%list_elem_of_filter; done).
    rewrite !Forall_app in Hnone |- *. destruct Hnone as (? & ? & ?). split_and!; [done| |done].
    by eapply sublist_Forall.
  - intros m b Hm Hb. rewrite Hfolded. apply fold_previous_summary_incl.
    destruct (extract_summary_messages_ok messages) as (_ & Hin & _). apply Hin. by exists m.
Qed.

End compaction.

(** ** Requests *)

Section requests.
Context (render_value : Value -> string).
Context (self : ContextAssembler) (fresh_id : MessageId) (now : OffsetDateTime).

Lemma summary_body_None sel activity room override body :
  is_none_or is_blank override = true ->
  summary_body_of render_value sel activity room override = Some body ->
  body = None <-> rs_dropped sel = [] /\ rs_folded_summaries sel = [].
Proof.
  intros Hov. unfold summary_body_of.
  destruct override as [text|]; [|apply compose_fallback_None]. cbn in Hov. rewrite Hov.
  apply compose_fallback_None.
Qed.

Lemma summary_body_Some sel activity room override body :
  ~ (rs_dropped sel = [] /\ rs_folded_summaries sel = []) ->
  summary_body_of render_value sel activity room override = Some body -> body <> None.
Proof.
  intros Hsel. unfold summary_body_of.
  destruct override as [text|]; [destruct (is_blank text); [|by intros [= <-]]|];
    intros H%compose_fallback_None; naive_solver.
Qed.

(** The plan made before the summary is written agrees with the build made
    after it.  No plan: a build without a written summary compacts nothing.
    A plan: the build compacts, for the planned reason; only a forced
    compaction that would not make the request smaller is given up. *)
Theorem plan_agrees_with_build provider model summarizer_model system_prompt messages options
    plan out c :
  plan_compaction render_value self provider model summarizer_model system_prompt messages
    (bo_force_compaction options) (bo_observed_context_tokens options)
    (bo_previous_summary options) = Some plan ->
  select_messages render_value self fresh_id now provider model system_prompt messages options
    = Some (out, c) ->
  match plan with
  | None =>
      is_none_or is_blank (bo_summary_override options) = true ->
      c = None
      /\ normalize_messages messages (cx_max_tool_result_lines (ca_config self))
           (cx_max_tool_result_bytes (ca_config self)) = Some out
  | Some p =>
      (exists c', c = Some c' /\ cp_trigger c' = pl_trigger p)
      \/ pl_trigger p = TriggerForced /\ c = None
  end.
Proof.
  intros ([[[normalized before] budget] trigger] & Hassess & Hplan)%bind_Some
    (x & Hassess' & Hsel)%bind_Some.
  rewrite Hassess in Hassess'. injection Hassess' as <-.
  assert (normalize_messages messages (cx_max_tool_result_lines (ca_config self))
            (cx_max_tool_result_bytes (ca_config self)) = Some normalized) as Hnorm.
  { unfold assess in Hassess. apply bind_Some in Hassess as (n & -> & [= -> _ _ _]). done. }
  cbv beta iota zeta in Hplan, Hsel.
  destruct trigger as [trigger|]; [|injection Hplan as <-; injection Hsel as <- <-; done].
  apply bind_Some in Hsel as ([candidate compaction] & Hcompact & [= Hsel]).
  unfold compact_messages in Hcompact.
  set (sel := resolve_retention_selection _ _ _ _ _ _) in *.
  apply bind_Some in Hcompact as (body & Hbody & Hcompact).
  destruct (decide (rs_dropped sel = [] /\ rs_folded_summaries sel = [])) as [Hnone|Hsome].
  - destruct Hnone as [Hd Hf]. rewrite Hd, Hf in Hplan. injection Hplan as <-. intros Hov.
    apply summary_body_None in Hbody; [|done]. destruct Hbody as [_ Hbody].
    rewrite Hbody in Hcompact by done. injection Hcompact as <- <-.
    injection Hsel as <- <-. done.
  - apply summary_body_Some in Hbody; [|done]. destruct body as [body|]; [|done].
    injection Hcompact as <- <-.
    assert (exists p, plan = Some p /\ pl_trigger p = trigger) as (p & -> & Htrigger).
    { destruct (rs_dropped sel) as [|m dropped] eqn:Hd;
        [destruct (rs_folded_summaries sel) as [|b folded] eqn:Hf; [naive_solver|]|];
        injection Hplan as <-; by eexists. }
    destruct (negb _ || _) eqn:Hkeep; injection Hsel as <- <-; [left; by eexists|right].
    apply orb_false_iff in Hkeep as [Hforced%negb_false_iff%bool_decide_eq_true _].
    split; [congruence|done].
Qed.

(** The tool outputs that cannot be shortened: the byte limit falls inside a
    character of the lines kept. *)
Definition cut_inside_character (text : string) (max_lines max_bytes : Z) : Prop :=
  let kept := join nl (take (Z.to_nat max_lines) (lines text)) in
  max_bytes < Z.of_nat (byte_len kept)
  /\ is_char_boundary (Z.to_nat max_bytes) kept = false.

Lemma truncate_text_None text max_lines max_bytes :
  truncate_text text max_lines max_bytes = None
  <-> cut_inside_character text max_lines max_bytes.
Proof.
  unfold truncate_text, cut_inside_character, truncate_bytes.
  destruct (Z.ltb_spec max_bytes (Z.of_nat (byte_len
    (join nl (take (Z.to_nat max_lines) (lines text)))))); simpl.
  - destruct (is_char_boundary _ _); simpl; naive_solver.
  - split; [done|lia].
Qed.

Lemma substring_length n s : (String.length (String.substring 0 n s) <= n)%nat.
Proof.
  revert n; induction s as [|a s IH]; intros [|n]; cbn; [lia..|]. specialize (IH n). lia.
Qed.

(** What is left fits the limit, with the mark that something is missing. *)
Lemma truncate_text_bound text max_lines max_bytes r :
  0 <= max_bytes -> truncate_text text max_lines max_bytes = Some r ->
  Z.of_nat (byte_len r) <= max_bytes + 15.
Proof.
  intros Hmax (kept & Hkept & [= <-])%bind_Some.
  assert (Z.of_nat (byte_len kept) <= max_bytes) as Hlen.
  { destruct (Z.ltb_spec max_bytes (Z.of_nat (byte_len
      (join nl (take (Z.to_nat max_lines) (lines text)))))) in Hkept; [|by simplify_eq].
    unfold truncate_bytes in Hkept. destruct (is_char_boundary _ _); [|done].
    injection Hkept as <-. unfold byte_len.
    pose proof substring_length as Hsub.
    specialize (Hsub (Z.to_nat max_bytes) (join nl (take (Z.to_nat max_lines) (lines text)))).
    apply Nat2Z.inj_le in Hsub. by rewrite Z2Nat.id in Hsub. }
  destruct (String.eqb kept text); [lia|]. unfold byte_len in *. rewrite length_append.
  change (String.length (String newline "...[truncated]")) with 15%nat. lia.
Qed.

(** C29. A tool output whose byte limit falls inside a character stops every later
    request that holds it: whatever the model, the prompt and the options,
    building the request panics. *)
Theorem request_panics_inside_character connection_id provider model system_prompt messages
    tools thinking options m result text :
  m ∈ messages -> PToolResult result ∈ msg_parts m ->
  tr_output result = VString text ->
  cut_inside_character text (cx_max_tool_result_lines (ca_config self))
    (cx_max_tool_result_bytes (ca_config self)) ->
  build_request_with_options render_value self fresh_id now connection_id provider model
    system_prompt messages tools thinking options = None.
Proof.
  intros Hm Hpart Hout Hcut%truncate_text_None.
  assert (normalize_messages messages (cx_max_tool_result_lines (ca_config self))
            (cx_max_tool_result_bytes (ca_config self)) = None) as Hnone.
  { apply mapM_None. apply Exists_exists. exists m. split; [done|].
    unfold normalize_message. apply bind_None. left.
    apply mapM_None. apply Exists_exists. exists (PToolResult result). split; [done|].
    unfold normalize_part, truncate_tool_output. rewrite Hout, Hcut. done. }
  unfold build_request_with_options, select_messages, assess. by rewrite Hnone.
Qed.

(** The newline that ends a text is counted as a truncation. *)
Lemma truncate_text_newline max_lines max_bytes :
  1 <= max_lines -> 2 <= max_bytes ->
  truncate_text ("ok" +:+ nl) max_lines max_bytes
  = Some ("ok" +:+ nl +:+ "...[truncated]").
Proof.
  intros Hl Hb. unfold truncate_text.
  replace (Z.to_nat max_lines) with (S (Z.to_nat (max_lines - 1))) by lia.
  change (take _ (lines ("ok" +:+ nl))) with ("ok" :: take (Z.to_nat (max_lines - 1)) []).
  rewrite take_nil. cbn [join String.concat]. change (byte_len "ok") with 2%nat.
  destruct (Z.ltb_spec max_bytes (Z.of_nat 2)); [lia|]. done.
Qed.
End requests.

(** ** Examples *)

Section examples.

#[local] Definition render : Value -> string := fun _ => "value".
#[local] Definition msg (n : N) (role : Role) (parts : list MessagePart) : Message :=
  {| msg_message_id := MkUuid n; msg_role := role; msg_parts := parts;
     msg_created_at := Z.of_N n |}.
#[local] Definition call_part : MessagePart :=
  PToolCall {| tc_tool_name := "read"; tc_call_id := "c1"; tc_arguments := VNull |}.
#[local] Definition result_of (output : Value) : ToolResultEnvelope :=
  {| tr_call_id := MkToolCallId "c1"; tr_tool_name := "read"; tr_is_error := false;
     tr_output := output; tr_duration_ms := None |}.
#[local] Definition result_part : MessagePart := PToolResult (result_of VNull).
#[local] Definition history : list Message :=
  [msg 1 RoleSystem [PText "Be brief."];
   msg 2 RoleUser [PText "Read the file."];
   msg 3 RoleAssistant [call_part];
   msg 4 RoleTool [result_part];
   msg 5 RoleAssistant [PText "It is empty."];
   msg 6 RoleUser [PText "Thanks."]].
#[local] Definition compacted : option (list Message * option ContextCompaction) :=
  compact_messages render (MkUuid 9%N) 9 history 110 TriggerTokenBudget 20 None None.

Lemma compaction_keeps_history_witness :
  exists out c,
    compacted = Some (out, Some c)
    /\ exists prefix middle users dropped tail,
         out = prefix ++ users ++ [summary_message (MkUuid 9%N) 9 (cp_summary c)] ++ tail
         /\ filter (fun m => ~ is_summary m) history = prefix ++ middle ++ tail
         /\ Forall (fun m => msg_role m = RoleSystem) prefix
         /\ Permutation middle (users ++ dropped)
         /\ sublist users middle
         /\ Forall (fun m => exists u, u ∈ middle /\ msg_role u = RoleUser
                                    /\ msg_message_id u = msg_message_id m) users
         /\ pending_calls middle = ∅
         /\ (middle <> [] -> tail <> []).
Proof.
  assert (exists out c, compacted = Some (out, Some c)) as (out & c & H)
    by (do 2 eexists; vm_compute; reflexivity).
  exists out, c. split; [exact H|].
  exact (compaction_keeps_history render (MkUuid 9%N) 9 history 110 TriggerTokenBudget 20
           None None out c H).
Defined.

(** The pair of the call and its result is one unit: it is dropped whole. *)
Example compacted_ids :
  option_map (fun r => List.map (fun m => uuid (msg_message_id m)) r.1) compacted
  = Some [1; 2; 9; 6]%N.
Proof. vm_compute. reflexivity. Qed.

Lemma compaction_fits_budget_witness :
  exists out c,
    compacted = Some (out, Some c)
    /\ (estimate_messages_tokens render out <= 110 + 94
        \/ exists prefix tail,
             out = prefix ++ [summary_message (MkUuid 9%N) 9 (cp_summary c)] ++ tail
             /\ Forall (fun m => msg_role m = RoleSystem) prefix /\ indivisible tail).
Proof.
  assert (exists out c, compacted = Some (out, Some c)) as (out & c & H)
    by (do 2 eexists; vm_compute; reflexivity).
  exists out, c. split; [exact H|].
  assert (0 <= 110 <= I64_MAX) as Hb by (vm_compute; split; discriminate).
  assert (total_tokens render history <= I64_MAX) as Ht by (vm_compute; discriminate).
  exact (compaction_fits_budget render (MkUuid 9%N) 9 history 110 TriggerTokenBudget 20
           None None out c Hb Ht H).
Defined.

Lemma summaries_form_a_chain_witness :
  exists out c,
    compacted = Some (out, Some c)
    /\ let next := resolve_retention_selection render (out ++ [msg 10 RoleUser [PText "More."]])
                     100 20 true (Some (cp_summary c)) in
       rs_folded_summaries next = [normalize_summary_body (cp_summary c)].
Proof.
  assert (exists out c, compacted = Some (out, Some c)) as (out & c & H)
    by (do 2 eexists; vm_compute; reflexivity).
  exists out, c. split; [exact H|].
  assert (forall text : string, None = Some text -> utf8_start text) as Hov by discriminate.
  assert (Forall (fun m => ~ is_summary m) [msg 10 RoleUser [PText "More."]]) as Hnewer.
  { constructor; [|constructor]. intros Hs. apply Hs. vm_compute. reflexivity. }
  exact (proj1 (summaries_form_a_chain render (MkUuid 9%N) 9 history 110 TriggerTokenBudget 20
                  None None out c [msg 10 RoleUser [PText "More."]] 100 20 true Hov Hnewer H)).
Defined.

#[local] Definition assembler (max_bytes : Z) : ContextAssembler :=
  {| ca_config :=
       {| cx_compaction_threshold := DEFAULT_TRIGGER_FRACTION;
          cx_compaction_trigger_fraction := DEFAULT_TRIGGER_FRACTION;
          cx_compaction_user_message_budget_tokens := 20;
          cx_summarizer_model := None;
          cx_reserve_tokens := 1000;
          cx_max_tool_result_lines := 10;
          cx_max_tool_result_bytes := max_bytes;
          cx_summary_connection := None |};
     ca_windows :=
       [{| cw_provider := "openai"; cw_model_pattern := "gpt"; cw_context_window_tokens := 1060 |}] |}.

(** Nine tenths of a window *)
Example trigger_tokens_default :
  trigger_tokens 200000 DEFAULT_TRIGGER_FRACTION = 180000
  /\ trigger_tokens 200000 f64_zero = 180000.
Proof. vm_compute. split; reflexivity. Qed.

Lemma plan_agrees_with_build_witness :
  exists p out c,
    plan_compaction render (assembler 4) "openai" "gpt-5" "gpt-5" None history false None None
      = Some (Some p)
    /\ select_messages render (assembler 4) (MkUuid 9%N) 9 "openai" "gpt-5" None history
         default_build_options = Some (out, c)
    /\ ((exists c', c = Some c' /\ cp_trigger c' = pl_trigger p)
        \/ pl_trigger p = TriggerForced /\ c = None).
Proof.
  assert (exists p, plan_compaction render (assembler 4) "openai" "gpt-5" "gpt-5" None history
            false None None = Some (Some p)) as (p & Hp) by (eexists; vm_compute; reflexivity).
  assert (exists out c, select_messages render (assembler 4) (MkUuid 9%N) 9 "openai" "gpt-5"
            None history default_build_options = Some (out, c)) as (out & c & Hs)
    by (do 2 eexists; vm_compute; reflexivity).
  exists p, out, c. split; [exact Hp|]. split; [exact Hs|].
  exact (plan_agrees_with_build render (assembler 4) (MkUuid 9%N) 9 "openai" "gpt-5" "gpt-5"
           None history default_build_options (Some p) out c Hp Hs).
Defined.

(** Two bytes of the first [é] of [éé] and one of the second. *)
Lemma request_panics_inside_character_witness :
  build_request_with_options render (assembler 3) (MkUuid 9%N) 9 (MkConnectionId "c") "openai"
    "gpt-5" None [msg 1 RoleTool [PToolResult (result_of (VString "éé"))]] [] None
    default_build_options = None.
Proof.
  assert (cut_inside_character "éé" 10 3) as Hcut by (vm_compute; split; reflexivity).
  apply (request_panics_inside_character render (assembler 3) (MkUuid 9%N) 9 (MkConnectionId "c")
           "openai" "gpt-5" None [msg 1 RoleTool [PToolResult (result_of (VString "éé"))]] [] None
           default_build_options
           (msg 1 RoleTool [PToolResult (result_of (VString "éé"))])
           (result_of (VString "éé")) "éé"); [left|left|reflexivity|exact Hcut].
Defined.

(** The comment on the tail says it never opens on a tool result without its
    call: a forced compaction that has nothing else to drop leaves one. *)
Example forced_tail_opens_on_tool :
  List.map msg_role
    (rs_tail (resolve_retention_selection render
       [msg 1 RoleUser [PText "Run it."]; msg 2 RoleTool [result_part];
        msg 3 RoleAssistant [PText "Done."]] 4000 100 true None))
  = [RoleTool; RoleAssistant].
Proof. vm_compute. reflexivity. Qed.
End examples.
