(* ===== verification/ToolRegistry.v ===== *)
(** * The registry of tools ([bt-tools/src/registry.rs])

    A [BTreeMap] from the names of tools to the tools: a later tool replaces
    an earlier one of the same name.  The model is shown the tools' specs in
    the order of their names, without the argument the harness fills in, and
    without the deferred tools when it can look those up in a catalogue. *)

From stdpp Require Import base list strings gmap sorting.
From Stdlib Require Import ZArith Lia.
From S2P Require Import Prelude Text Json Types Messages AgentStream AgentTurn.

#[local] Open Scope Z_scope.

(** ** Specs shown to the model *)

(** [required.retain(|entry| entry.as_str() != Some("call_id"))] *)
Definition retain_required (v : Value) : Value :=
  match v with
  | VArray entries =>
      VArray (List.filter (fun entry => negb (bool_decide (as_str entry = Some "call_id"))) entries)
  | other => other
  end.

(** [properties.remove("call_id")] *)
Definition remove_property (v : Value) : Value :=
  match v with VObject m => VObject (map_remove "call_id" m) | other => other end.

(** [get_mut(key)] and an update in place. *)
Definition update_key (key : string) (f : Value -> Value) (m : list (string * Value))
    : list (string * Value) :=
  List.map (fun kv => if String.eqb kv.1 key then (kv.1, f kv.2) else kv) m.

(** [sanitize_model_facing_spec] *)
Definition sanitize_model_facing_spec (spec : ToolSpec) : ToolSpec :=
  match ts_parameters_schema spec with
  | VObject schema =>
      {| ts_name := ts_name spec;
         ts_description := ts_description spec;
         ts_parameters_schema :=
           VObject (update_key "properties" remove_property
                      (update_key "required" retain_required schema));
         ts_metadata := ts_metadata spec |}
  | _ => spec
  end.

(** ** The registry *)

Section registry.
Context {W : Type}.

Definition BuiltInToolRegistry : Type := gmap string (ToolExecutor W).

(** [register_arc] *)
Definition register_arc (tool : ToolExecutor W) (tools : BuiltInToolRegistry)
    : BuiltInToolRegistry := <[ts_name (te_spec tool) := tool]> tools.

(** [get] *)
Definition registry_get (tools : BuiltInToolRegistry) (name : string) : option (ToolExecutor W) :=
  tools !! name.

Definition name_le (a b : string * ToolExecutor W) : Prop := str_le a.1 b.1.
#[local] Instance name_le_dec a b : Decision (name_le a b).
Proof. unfold name_le. apply _. Defined.

(** [descriptors], in the order of the map's keys *)
Definition descriptors (tools : BuiltInToolRegistry) : list ToolSpec :=
  List.map (fun kv => te_spec kv.2) (merge_sort name_le (map_to_list tools)).

(** [specs] *)
Definition specs (tools : BuiltInToolRegistry) : list ToolSpec :=
  let has_catalogue := bool_decide (is_Some (tools !! "catalogue")) in
  List.map sanitize_model_facing_spec
    (List.filter (fun spec => negb has_catalogue || negb (tm_should_defer (ts_metadata spec)))
       (descriptors tools)).
End registry.
Arguments BuiltInToolRegistry W : clear implicits.

(** ** Lemmas *)

Section laws.
Context {W : Type}.
Implicit Types (tool : ToolExecutor W) (tools : BuiltInToolRegistry W).

(** The last tool registered under a name is the one that is found. *)
Lemma get_registered tool tools name :
  registry_get (register_arc tool tools) name
  = if String.eqb (ts_name (te_spec tool)) name then Some tool else registry_get tools name.
Proof.
  unfold registry_get, register_arc, BuiltInToolRegistry in *.
  destruct (String.eqb_spec (ts_name (te_spec tool)) name) as [<-|H].
  - by rewrite lookup_insert_eq.
  - by rewrite lookup_insert_ne.
Qed.

(** No deferred tool is shown next to a catalogue. *)
Lemma deferred_tools_hidden tools spec :
  is_Some (registry_get tools "catalogue") -> spec ∈ specs tools ->
  tm_should_defer (ts_metadata spec) = false.
Proof.
  unfold registry_get, specs. intros Hc. rewrite bool_decide_eq_true_2 by done.
  rewrite list_elem_of_In, in_map_iff. intros (shown & <- & [_ H]%filter_In). simpl in H.
  destruct (tm_should_defer (ts_metadata shown)) eqn:E; [done|].
  unfold sanitize_model_facing_spec. by destruct (ts_parameters_schema shown).
Qed.

Lemma retain_required_idemp v : retain_required (retain_required v) = retain_required v.
Proof.
  destruct v; try done. simpl. f_equal. induction l as [|entry l IH]; [done|]. simpl.
  destruct (negb _) eqn:E; simpl; [rewrite E|done]. by f_equal.
Qed.
End laws.
