(* ===== verification/FileTools.v ===== *)
(** * Files and the file tools ([std::fs], [bt-tools/src/filesystem.rs], [text.rs])

    First what the tools use of the operating system: paths taken apart into
    components, the resolution of a path through symbolic links, and reading,
    writing and making directories.  A path resolves from the root component
    by component; the target of a link is resolved in its place, and only
    so many links are followed.  Access rights, device files and other
    processes are left out.

    Then reading, writing and editing a file of the project: the arguments,
    the path resolved within the project's root, the effect on the file
    system, and the result.  A cut inside a character panics, which is [None].
    The tools that list and search go through a walker of directories that is
    library code, and are left out; the queue that serializes writes and edits
    of one file is in [FileQueue]. *)

From stdpp Require Import base list strings gmap.
From Stdlib Require Import ZArith Lia.
From Stdlib Require Import Ascii.
From S2P Require Import Prelude Text Utf8 Json Types Sse ProviderStream.

(** ** Paths *)

(** An absolute path: the names from the root. *)
Abbreviation Path := (list string).

Inductive Component : Type :=
  | RootDir
  | CurDir
  | ParentDir
  | Normal (name : string).

Definition component_of (piece : string) : list Component :=
  if String.eqb piece "" || String.eqb piece "." then []
  else if String.eqb piece ".." then [ParentDir] else [Normal piece].

(** [Path::components]: repeated separators and inner [.] are left out. *)
Definition components (path : string) : list Component :=
  let pieces := split_char "/"%char path in
  let inner := mbind component_of pieces in
  if starts_with "/" path then RootDir :: inner
  else match pieces with
       | piece :: _ => if String.eqb piece "." then CurDir :: inner else inner
       | [] => inner
       end.

Definition is_absolute (path : string) : bool := starts_with "/" path.

Definition show_path (p : Path) : string :=
  match p with
  | [] => "/"
  | _ => concat_str (List.map (fun name => "/" +:+ name) p)
  end.

Definition parent (p : Path) : Path := removelast p.

(** ** The file system *)

Inductive Node : Type :=
  | NFile (bytes : string)
  | NDir
  | NLink (absolute : bool) (target : list string).

#[export] Instance Node_eq_dec : EqDecision Node.
Proof. solve_decision. Defined.

(** The root directory has no entry of its own. *)
Abbreviation FileSystem := (gmap (list string) Node).

Inductive IoError : Type :=
  | ENOENT | ENOTDIR | ELOOP | EISDIR | EEXIST | EINVAL.
#[export] Instance IoError_eq_dec : EqDecision IoError.
Proof. solve_decision. Defined.

Abbreviation IoResult := (result IoError).

Definition is_file (fs : FileSystem) (p : Path) : bool :=
  match fs !! p with Some (NFile _) => true | _ => false end.

(** Where a path leads: a file or directory and the links that may still be
    followed; the first component that does not exist, with the components
    after it; or nowhere. *)
Inductive Walked : Type :=
  | Found (p : Path) (links : nat)
  | Missing (p : Path) (rest : list string)
  | Stuck (e : IoError).

Fixpoint walk (fs : FileSystem) (links : nat) : Path -> list string -> Walked :=
  fix go (cur : Path) (rest : list string) {struct rest} : Walked :=
    match rest with
    | [] => Found cur links
    | name :: rest =>
        if is_file fs cur then Stuck ENOTDIR
        else if String.eqb name "." then go cur rest
        else if String.eqb name ".." then go (parent cur) rest
        else
          match fs !! (cur ++ [name]) with
          | None => Missing (cur ++ [name]) rest
          | Some (NLink absolute target) =>
              match links with
              | O => Stuck ELOOP
              | S links => walk fs links (if absolute then [] else cur) (target ++ rest)
              end
          | Some _ => go (cur ++ [name]) rest
          end
    end.

Section operations.
(** [MAXSYMLINKS] *)
Context (max_links : nat).

Definition resolve_path (fs : FileSystem) (p : list string) : Walked := walk fs max_links [] p.

(** [Path::exists], [Path::is_dir]; both follow links. *)
Definition path_exists (fs : FileSystem) (p : list string) : bool :=
  match resolve_path fs p with Found _ _ => true | _ => false end.

Definition path_is_dir (fs : FileSystem) (p : list string) : bool :=
  match resolve_path fs p with Found q _ => negb (is_file fs q) | _ => false end.

(** [fs::canonicalize] *)
Definition canonicalize (fs : FileSystem) (p : list string) : IoResult Path :=
  match resolve_path fs p with
  | Found q _ => Ok q
  | Missing _ _ => Err ENOENT
  | Stuck e => Err e
  end.

(** [fs::read] *)
Definition read_file (fs : FileSystem) (p : list string) : IoResult string :=
  match resolve_path fs p with
  | Found q _ => match fs !! q with Some (NFile bytes) => Ok bytes | _ => Err EISDIR end
  | Missing _ _ => Err ENOENT
  | Stuck e => Err e
  end.

(** [fs::write]: the file is created where the path leads, through links. *)
Definition write_file (p : list string) (bytes : string) (fs : FileSystem)
    : IoResult unit * FileSystem :=
  match resolve_path fs p with
  | Found q _ => if is_file fs q then (Ok tt, <[q := NFile bytes]> fs) else (Err EISDIR, fs)
  | Missing q [] => (Ok tt, <[q := NFile bytes]> fs)
  | Missing _ _ => (Err ENOENT, fs)
  | Stuck e => (Err e, fs)
  end.

(** [mkdir(2)] does not follow a link in the last place. *)
Definition mkdir (p : Path) (fs : FileSystem) : IoResult unit * FileSystem :=
  match last p with
  | None => (Err EEXIST, fs)
  | Some name =>
      match resolve_path fs (parent p) with
      | Found q _ =>
          if is_file fs q then (Err ENOTDIR, fs)
          else match fs !! (q ++ [name]) with
               | Some _ => (Err EEXIST, fs)
               | None => (Ok tt, <[q ++ [name] := NDir]> fs)
               end
      | Missing _ _ => (Err ENOENT, fs)
      | Stuck e => (Err e, fs)
      end
  end.

(** [fs::create_dir_all], on the reversed path *)
Fixpoint create_dir_all (reversed : list string) (fs : FileSystem)
    : IoResult unit * FileSystem :=
  let p := rev reversed in
  match mkdir p fs with
  | (Ok _, fs) => (Ok tt, fs)
  | (Err e, fs) =>
      if bool_decide (e = ENOENT) then
        match reversed with
        | [] => (Err EINVAL, fs)
        | _ :: above =>
            match create_dir_all above fs with
            | (Err e, fs) => (Err e, fs)
            | (Ok _, fs) =>
                match mkdir p fs with
                | (Ok _, fs) => (Ok tt, fs)
                | (Err e, fs) => if path_is_dir fs p then (Ok tt, fs) else (Err e, fs)
                end
            end
        end
      else if path_is_dir fs p then (Ok tt, fs) else (Err e, fs)
  end.
End operations.

#[local] Open Scope Z_scope.

(** ** Texts ([text.rs]) *)

Definition MAX_TOOL_RESULT_LINES : Z := 2000.
Definition MAX_TOOL_RESULT_BYTES : Z := 51200.

(** The text with its middle left out. *)
Definition elided (input : string) (max_lines : Z) : string :=
  let ls := lines input in
  let keep_each_side := Z.to_nat (Z.max (max_lines / 2) 1) in
  let head := take keep_each_side ls in
  let tail := rev (take keep_each_side (rev ls)) in
  let omitted_lines :=
    Z.max 0 (Z.of_nat (length ls) - (Z.of_nat (length head) + Z.of_nat (length tail))) in
  join nl head +:+ nl +:+ "---" +:+ nl
    +:+ "[... " +:+ show_Z omitted_lines +:+ " lines truncated, "
    +:+ show_Z (Z.of_nat (byte_len input)) +:+ " bytes total ...]"
    +:+ nl +:+ "---" +:+ nl +:+ join nl tail.

(** [truncate_text]: [output.truncate] panics inside a character. *)
Definition truncate_text (input : string) (max_lines max_bytes : Z) : option string :=
  if (Z.of_nat (byte_len input) <=? max_bytes) && (Z.of_nat (length (lines input)) <=? max_lines)
  then Some input
  else
    let output := elided input max_lines in
    if max_bytes <? Z.of_nat (byte_len output) then truncate_bytes (Z.to_nat max_bytes) output
    else Some output.

(** [slice_lines]: lines are counted from 1. *)
Definition slice_lines (input : string) (start_line end_line : option Z) : string :=
  let start := Z.max 0 (default 1 start_line - 1) in
  let ls := lines input in
  let kept (p : Z * string) :=
    (start <=? p.1) && is_none_or (fun end_line => p.1 + 1 <=? end_line) end_line in
  join nl (List.map snd (List.filter kept (zip (seqZ 0 (Z.of_nat (length ls))) ls))).

(** [is_binary]: a zero among the first 1024 bytes. *)
Definition is_binary (bytes : string) : bool :=
  existsb (fun a => N.eqb (byte_val a) 0) (String.list_ascii_of_string (String.substring 0 1024 bytes)).

(** [s.matches(pattern).count()]: occurrences that do not overlap, and for the
    empty pattern the boundaries of characters. *)
Fixpoint count_from (fuel : nat) (pattern s : string) : nat :=
  match fuel with
  | O => O
  | S fuel => match split_once pattern s with
              | Some (_, rest) => S (count_from fuel pattern rest)
              | None => O
              end
  end.

Definition match_count (pattern s : string) : nat :=
  if is_empty pattern then S (char_count s) else count_from (S (byte_len s)) pattern s.

(** [s.replacen(pattern, replacement, 1)] *)
Definition replace_first (pattern replacement s : string) : string :=
  match split_once pattern s with
  | Some (before, after) => before +:+ replacement +:+ after
  | None => s
  end.

(** ** Specs *)

Definition string_type : Value := VObject [("type", VString "string")].
Definition integer_type : Value := VObject [("type", VString "integer")].
Definition boolean_type : Value := VObject [("type", VString "boolean")].

Definition file_schema (required : list string) (properties : list (string * Value)) : Value :=
  VObject [("properties", VObject properties);
           ("required", VArray (List.map VString required));
           ("type", VString "object")].

Definition file_metadata (risk : ToolRiskClass) (read_only : bool)
    (interrupt : ToolInterruptBehavior) (tags : list string) : ToolMetadata :=
  {| tm_risk_class := risk;
     tm_is_read_only := read_only;
     tm_is_concurrency_safe := read_only;
     tm_interrupt_behavior := interrupt;
     tm_execution_mode := ExecImmediate;
     tm_should_defer := false;
     tm_catalogue_tags := tags;
     tm_display_group := Codebase |}.

Definition read_spec : ToolSpec :=
  {| ts_name := "read";
     ts_description := "Read file contents with optional line ranges.";
     ts_parameters_schema := file_schema ["path"; "call_id"]
       [("call_id", string_type); ("end_line", integer_type); ("path", string_type);
        ("start_line", integer_type)];
     ts_metadata := file_metadata RiskSafe true InterruptImmediate ["file"; "read"] |}.

Definition write_spec : ToolSpec :=
  {| ts_name := "write";
     ts_description := "Write a file relative to the project root.";
     ts_parameters_schema := file_schema ["path"; "content"; "call_id"]
       [("call_id", string_type); ("content", string_type); ("create_parent", boolean_type);
        ("path", string_type)];
     ts_metadata := file_metadata RiskModerate false WaitForCompletion ["file"; "write"] |}.

Definition edit_spec : ToolSpec :=
  {| ts_name := "edit";
     ts_description := "Apply an exact string replacement in a file.";
     ts_parameters_schema := file_schema ["path"; "search"; "replace"; "call_id"]
       [("call_id", string_type); ("path", string_type); ("replace", string_type);
        ("search", string_type)];
     ts_metadata := file_metadata RiskModerate false WaitForCompletion
                      ["file"; "edit"; "replace"] |}.

(** [approval_requirement]; the arguments are not looked at. *)
Definition read_approval : ApprovalRequirement := ReqNever.
Definition write_approval : ApprovalRequirement := ReqFirstUsePerSession.
Definition edit_approval : ApprovalRequirement := ReqFirstUsePerSession.

(** ** Arguments and results *)

Definition required_string (arguments : Value) (key : string) : Result string :=
  ok_or (InvalidState ("missing string argument `" +:+ key +:+ "`"))
    (v ← value_get key arguments; as_str v).

Definition file_result (call_id tool_name : string) (is_error : bool) (output : Value)
    : ToolResultEnvelope :=
  {| tr_call_id := MkToolCallId call_id;
     tr_tool_name := tool_name;
     tr_is_error := is_error;
     tr_output := output;
     tr_duration_ms := None |}.

Section tools.
(** [MAXSYMLINKS], the text of an operating system's error, and the working
    directory of the process. *)
Context (max_links : nat) (io_text : IoError -> string) (cwd : Path).

(** [?] on a [std::io::Error] *)
Definition io {A} (r : IoResult A) : Result A :=
  match r with Ok a => Ok a | Err e => Err (Io (io_text e)) end.

(** ** Paths within the root *)

Definition raw_name (c : Component) : list string :=
  match c with Normal name => [name] | ParentDir => [".."] | _ => [] end.

(** The path an operating system's call gets for a text. *)
Definition os_path (path : string) : list string :=
  (if is_absolute path then [] else cwd) ++ mbind raw_name (components path).

Definition escapes (input : string) : BelltowerError :=
  InvalidState ("path `" +:+ input +:+ "` escapes the project root").

(** One component of [resolve_relative_path]. *)
Definition push_component (input : string) (root_depth : nat) (resolved : Path) (c : Component)
    : Result Path :=
  match c with
  | CurDir => Ok resolved
  | Normal part => Ok (resolved ++ [part])
  | ParentDir =>
      if Nat.leb (length resolved) root_depth then Err (escapes input)
      else Ok (parent resolved)
  | RootDir => Err (escapes input)
  end.

Fixpoint push_components (input : string) (root_depth : nat) (resolved : Path)
    (cs : list Component) : Result Path :=
  match cs with
  | [] => Ok resolved
  | c :: cs => resolved ← push_component input root_depth resolved c;
               push_components input root_depth resolved cs
  end.

Definition resolve_relative_path (project_root : Path) (input : string) : Result Path :=
  if is_absolute input then Err (escapes input)
  else push_components input (length project_root) project_root (components input).

(** [nearest_existing_ancestor], on the reversed path *)
Fixpoint nearest_existing (fs : FileSystem) (path reversed : Path) : Result Path :=
  if path_exists max_links fs (rev reversed) then Ok (rev reversed)
  else match reversed with
       | [] => Err (InvalidState ("path `" +:+ show_path path
                 +:+ "` is not reachable from the project root"))
       | _ :: above => nearest_existing fs path above
       end.

Definition nearest_existing_ancestor (fs : FileSystem) (path : Path) : Result Path :=
  nearest_existing fs path (rev path).

(** [Path::starts_with] compares components. *)
Definition path_starts_with (path base : Path) : bool := bool_decide (base `prefix_of` path).

Definition resolve_within_root (fs : FileSystem) (project_root input : string) : Result Path :=
  canonical_root ← io (canonicalize max_links fs (os_path project_root));
  resolved ← resolve_relative_path canonical_root input;
  existing ← nearest_existing_ancestor fs resolved;
  canonical_existing ← io (canonicalize max_links fs existing);
  if path_starts_with canonical_existing canonical_root then Ok resolved
  else Err (escapes input).

(** ** The tools *)

(** [ReadTool::execute] on the bytes of the file *)
Definition read_output (resolved : Path) (bytes : string) (start_line end_line : option Z)
    : option Value :=
  if is_binary bytes then
    Some (VObject [("binary", VBool true); ("path", VString (show_path resolved));
                   ("size_bytes", VNumber (PosInt (Z.of_nat (byte_len bytes))))])
  else
    let sliced := slice_lines (from_utf8_lossy bytes) start_line end_line in
    content ← truncate_text sliced MAX_TOOL_RESULT_LINES MAX_TOOL_RESULT_BYTES;
    Some (VObject [("binary", VBool false); ("content", VString content);
                   ("path", VString (show_path resolved))]).

(** [ReadTool::execute]; [None] when it panics. *)
Definition read_execute (arguments : Value) (project_root : string) (fs : FileSystem)
    : option (Result ToolResultEnvelope) :=
  let read :=
    path ← required_string arguments "path";
    call_id ← required_string arguments "call_id";
    resolved ← resolve_within_root fs project_root path;
    bytes ← io (read_file max_links fs resolved);
    Ok (call_id, resolved, bytes) in
  match read with
  | Err e => Some (Err e)
  | Ok (call_id, resolved, bytes) =>
      output ← read_output resolved bytes (v ← value_get "start_line" arguments; as_u64 v)
                 (v ← value_get "end_line" arguments; as_u64 v);
      Some (Ok (file_result call_id "read" false output))
  end.

(** [mutation_queue_key] of [mutation.rs]: aliases of a file that exists share
    its queue. *)
Definition mutation_queue_key (fs : FileSystem) (path : Path) : Path :=
  match canonicalize max_links fs path with Ok key => key | Err _ => path end.

(** What the queue runs for [WriteTool::execute]. *)
Definition write_operation (resolved : Path) (content : string) (create_parent : bool)
    (fs : FileSystem) : Result unit * FileSystem :=
  let '(made, fs) :=
    if create_parent && negb (bool_decide (resolved = []))
    then create_dir_all max_links (rev (parent resolved)) fs else (Ok tt, fs) in
  match made with
  | Err e => (Err (Io (io_text e)), fs)
  | Ok _ => let '(written, fs) := write_file max_links resolved content fs in (io written, fs)
  end.

(** [WriteTool::execute] *)
Definition write_execute (arguments : Value) (project_root : string) (fs : FileSystem)
    : Result ToolResultEnvelope * FileSystem :=
  let parsed :=
    path ← required_string arguments "path";
    content ← required_string arguments "content";
    call_id ← required_string arguments "call_id";
    resolved ← resolve_within_root fs project_root path;
    Ok (content, call_id, resolved) in
  match parsed with
  | Err e => (Err e, fs)
  | Ok (content, call_id, resolved) =>
      let create_parent := default true (v ← value_get "create_parent" arguments; as_bool v) in
      let '(written, fs) := write_operation resolved content create_parent fs in
      (_ ← written;
       Ok (file_result call_id "write" false
             (VObject [("path", VString (show_path resolved)); ("written", VBool true)])), fs)
  end.

(** [fs::read_to_string] *)
Definition read_to_string (fs : FileSystem) (p : Path) : Result string :=
  bytes ← io (read_file max_links fs p);
  if valid_utf8 bytes then Ok bytes else Err (Io (io_text EINVAL)).

(** What the queue runs for [EditTool::execute]. *)
Definition edit_operation (resolved : Path) (search replace : string) (fs : FileSystem)
    : Result unit * FileSystem :=
  match read_to_string fs resolved with
  | Err e => (Err e, fs)
  | Ok content =>
      let matches := match_count search content in
      if negb (Nat.eqb matches 1)
      then (Err (InvalidState ("edit requires exactly one match, found "
              +:+ show_Z (Z.of_nat matches))), fs)
      else
        let '(written, fs) :=
          write_file max_links resolved (replace_first search replace content) fs in
        (io written, fs)
  end.

(** [EditTool::execute] *)
Definition edit_execute (arguments : Value) (project_root : string) (fs : FileSystem)
    : Result ToolResultEnvelope * FileSystem :=
  let parsed :=
    path ← required_string arguments "path";
    search ← required_string arguments "search";
    replace ← required_string arguments "replace";
    call_id ← required_string arguments "call_id";
    resolved ← resolve_within_root fs project_root path;
    Ok (search, replace, call_id, resolved) in
  match parsed with
  | Err e => (Err e, fs)
  | Ok (search, replace, call_id, resolved) =>
      let '(edited, fs) := edit_operation resolved search replace fs in
      (_ ← edited;
       Ok (file_result call_id "edit" false
             (VObject [("edited", VBool true); ("path", VString (show_path resolved))])), fs)
  end.
End tools.
