(* ===== verification/FileToolsLaws.v ===== *)
(** * What the file tools can reach

    The laws of the file system come first: where a path resolves when it is
    extended, and where directories are made.  Then: a path that
    [resolve_within_root] accepts has its nearest existing ancestor inside the
    root.  What is read is inside; what is written is inside, unless the path
    ends in a link that leads nowhere yet, which is followed; and an edit
    replaces the one match of its text. *)

From stdpp Require Import base list strings gmap.
From Stdlib Require Import ZArith Lia.
From Stdlib Require Import Ascii.
From S2P Require Import Prelude Text Utf8 Json Types Sse ProviderStream FileTools.

(** ** Resolution of extended paths *)

(** The equations of [walk]. *)
Lemma walk_nil fs links cur : walk fs links cur [] = Found cur links.
Proof. by destruct links. Qed.

Lemma walk_cons fs links cur name rest :
  walk fs links cur (name :: rest)
  = if is_file fs cur then Stuck ENOTDIR
    else if String.eqb name "." then walk fs links cur rest
    else if String.eqb name ".." then walk fs links (parent cur) rest
    else match fs !! (cur ++ [name]) with
         | None => Missing (cur ++ [name]) rest
         | Some (NLink absolute target) =>
             match links with
             | O => Stuck ELOOP
             | S links => walk fs links (if absolute then [] else cur) (target ++ rest)
             end
         | Some _ => walk fs links (cur ++ [name]) rest
         end.
Proof. by destruct links. Qed.

Definition then_walk (fs : FileSystem) (w : Walked) (rest : list string) : Walked :=
  match w with
  | Found q links => walk fs links q rest
  | Missing q missing => Missing q (missing ++ rest)
  | Stuck e => Stuck e
  end.

Lemma walk_app fs links cur a b :
  walk fs links cur (a ++ b) = then_walk fs (walk fs links cur a) b.
Proof.
  revert cur a. induction links as [|links IHl]; intros cur a; revert cur;
    induction a as [|name a IH]; intros cur; [by rewrite walk_nil| |by rewrite walk_nil|];
    change ((name :: a) ++ b) with (name :: (a ++ b)); rewrite !walk_cons;
    repeat (case_match; try done); try apply IH.
  all: rewrite (assoc_L (++)); apply IHl.
Qed.

(** What is above a path that leads somewhere leads somewhere. *)
Lemma walk_prefix fs links cur a b q l :
  walk fs links cur (a ++ b) = Found q l ->
  exists q' l', walk fs links cur a = Found q' l' /\ walk fs l' q' b = Found q l.
Proof. rewrite walk_app. unfold then_walk. destruct (walk fs links cur a); try done. eauto. Qed.

(** An ordinary name. *)
Definition plain_name (name : string) : Prop := name <> "." /\ name <> "..".

Lemma walk_plain fs links cur name rest :
  plain_name name ->
  walk fs links cur (name :: rest)
  = if is_file fs cur then Stuck ENOTDIR
    else match fs !! (cur ++ [name]) with
         | None => Missing (cur ++ [name]) rest
         | Some (NLink absolute target) =>
             match links with
             | O => Stuck ELOOP
             | S links => walk fs links (if absolute then [] else cur) (target ++ rest)
             end
         | Some _ => walk fs links (cur ++ [name]) rest
         end.
Proof.
  intros [H1 H2]. rewrite walk_cons.
  by rewrite (proj2 (String.eqb_neq _ _) H1), (proj2 (String.eqb_neq _ _) H2).
Qed.

(** No link between [c] and what is below it. *)
Definition linkless (fs : FileSystem) (c : Path) (names : list string) : Prop :=
  forall m, m `prefix_of` names -> m <> [] ->
    forall absolute target, fs !! (c ++ m) <> Some (NLink absolute target).

Lemma linkless_app fs c a b : linkless fs c (a ++ b) -> linkless fs c a.
Proof. intros H m Hm. apply H. by apply prefix_app_r. Qed.

Lemma linkless_tail fs c name rest :
  linkless fs c (name :: rest) -> linkless fs (c ++ [name]) rest.
Proof.
  intros H m [k ->] _ absolute target. rewrite <- (assoc_L (++)). apply H; [by exists k|done].
Qed.

(** Below [c], a path leads to itself, is missing there, or meets a file. *)
Lemma walk_linkless fs links c names :
  Forall plain_name names -> linkless fs c names ->
  walk fs links c names = Found (c ++ names) links
  \/ (exists m rest, names = m ++ rest /\ walk fs links c names = Missing (c ++ m) rest)
  \/ walk fs links c names = Stuck ENOTDIR.
Proof.
  intros Hp. revert c. induction Hp as [|name names Hn Hp IH]; intros c Hl.
  - left. by rewrite walk_nil, (right_id_L [] (++)).
  - rewrite walk_plain by done. destruct (is_file fs c); [auto|].
    destruct (fs !! (c ++ [name])) as [[bytes| |absolute target]|] eqn:E.
    3:{ edestruct Hl; [| |exact E]; [by exists names|done]. }
    3:{ right; left. by exists [name], names. }
    all: destruct (IH (c ++ [name]) (linkless_tail _ _ _ _ Hl)) as [H|[(m & rest & -> & H)|H]].
    all: rewrite H, <- ?(assoc_L (++)); auto.
    all: right; left; by exists (name :: m), rest.
Qed.

(** ** New directories *)

(** Directories were made below [c], and nothing else changed. *)
Definition adds_dirs (c : Path) (fs fs' : FileSystem) : Prop :=
  forall q, fs' !! q = fs !! q \/ (c `prefix_of` q /\ fs !! q = None /\ fs' !! q = Some NDir).

#[export] Instance adds_dirs_preorder c : PreOrder (adds_dirs c).
Proof.
  split; [by intros fs q; left|]. intros fs1 fs2 fs3 H12 H23 q.
  destruct (H12 q) as [E1|(? & ? & E1)], (H23 q) as [E2|(? & ? & ?)]; rewrite ?E1 in *; try done.
  - left. congruence.
  - right. done.
  - right. by rewrite E2.
Qed.

Lemma adds_one c q fs : c `prefix_of` q -> fs !! q = None -> adds_dirs c fs (<[q := NDir]> fs).
Proof.
  intros Hc Hq q'. destruct (decide (q' = q)) as [->|Hne];
    [right; by rewrite lookup_insert_eq|left; by rewrite lookup_insert_ne].
Qed.

Lemma adds_linkless c fs fs' d names :
  adds_dirs c fs fs' -> linkless fs d names -> linkless fs' d names.
Proof.
  intros Ha Hl m Hm Hne absolute target E. destruct (Ha (d ++ m)) as [H|(_ & _ & H)];
    [|by rewrite H in E]. rewrite H in E. by eapply Hl.
Qed.

(** What leads somewhere still does. *)
Lemma adds_found c fs fs' links cur p q l :
  adds_dirs c fs fs' -> walk fs links cur p = Found q l -> walk fs' links cur p = Found q l.
Proof.
  intros Ha.
  assert (forall d, is_file fs' d = is_file fs d) as Hfile.
  { intros d. unfold is_file. by destruct (Ha d) as [->|(_ & -> & ->)]. }
  revert cur p. induction links as [|links IHl]; intros cur p; revert cur;
    induction p as [|name p IH]; intros cur; rewrite ?walk_nil, ?walk_cons; try done;
    rewrite Hfile; repeat (case_match; try done); try apply IH;
    (destruct (Ha (cur ++ [name])) as [Hq|(_ & Hq & _)]; [|congruence]);
    simplify_eq; try apply IH; try congruence.
  all: assert (target = target0) as -> by congruence; apply IHl.
Qed.

Section making.
Context (max_links : nat).
Abbreviation resolve := (resolve_path max_links).

Lemma mkdir_snoc p name fs :
  mkdir max_links (p ++ [name]) fs
  = match resolve fs p with
    | Found q _ =>
        if is_file fs q then (Err ENOTDIR, fs)
        else match fs !! (q ++ [name]) with
             | Some _ => (Err EEXIST, fs)
             | None => (Ok tt, <[q ++ [name] := NDir]> fs)
             end
    | Missing _ _ => (Err ENOENT, fs)
    | Stuck e => (Err e, fs)
    end.
Proof. unfold mkdir, parent. by rewrite last_snoc, removelast_last. Qed.

(** Nothing is made where the path leads somewhere. *)
Lemma create_existing p q l fs :
  Forall plain_name p -> resolve fs p = Found q l ->
  exists r, create_dir_all max_links (rev p) fs = (r, fs) /\ (is_file fs q = false -> r = Ok tt).
Proof.
  intros Hp Hq.
  assert (exists e, mkdir max_links p fs = (Err e, fs) /\ e <> ENOENT) as (e & Hm & He).
  { destruct p as [|name p _] using rev_ind; [by exists EEXIST|].
    destruct (walk_prefix _ _ _ _ _ _ _ Hq) as (d & k & Hd & Hn). rewrite mkdir_snoc.
    unfold resolve_path. rewrite Hd. apply Forall_app in Hp as [_ Hp].
    rewrite walk_plain in Hn by (by apply Forall_cons_1 in Hp as [? _]).
    destruct (is_file fs d); [done|]. destruct (fs !! (d ++ [name])); [by exists EEXIST|done]. }
  unfold create_dir_all. destruct (rev p) as [|name above] eqn:Hr; rewrite <- Hr, rev_involutive, Hm;
    rewrite bool_decide_eq_false_2 by done; unfold path_is_dir; rewrite Hq;
    destruct (is_file fs q); simpl; eexists; by split.
Qed.

Lemma create_snoc p name fs :
  create_dir_all max_links (rev (p ++ [name])) fs
  = match mkdir max_links (p ++ [name]) fs with
    | (Ok _, fs) => (Ok tt, fs)
    | (Err e, fs) =>
        if bool_decide (e = ENOENT) then
          match create_dir_all max_links (rev p) fs with
          | (Err e, fs) => (Err e, fs)
          | (Ok _, fs) =>
              match mkdir max_links (p ++ [name]) fs with
              | (Ok _, fs) => (Ok tt, fs)
              | (Err e, fs) =>
                  if path_is_dir max_links fs (p ++ [name]) then (Ok tt, fs) else (Err e, fs)
              end
          end
        else if path_is_dir max_links fs (p ++ [name]) then (Ok tt, fs) else (Err e, fs)
    end.
Proof.
  rewrite rev_unit. cbn [create_dir_all]. change (rev (name :: rev p)) with (rev (rev p) ++ [name]).
  by rewrite rev_involutive.
Qed.

(** Below a path that leads to [c], and where there are no links, directories
    are made below [c]. *)
Section below.
Context (p : Path) (c : Path) (l : nat) (names : list string).

Lemma mkdir_below m name fs :
  resolve fs p = Found c l -> Forall plain_name m -> linkless fs c names ->
  m ++ [name] `prefix_of` names ->
  adds_dirs c fs (mkdir max_links (p ++ m ++ [name]) fs).2.
Proof.
  intros Hp Hm Hl Hpre. rewrite (assoc_L (++)), mkdir_snoc. unfold resolve_path in *.
  rewrite walk_app, Hp. simpl.
  assert (linkless fs c m) as Hlm.
  { intros k Hk. apply Hl. etrans; [exact Hk|]. etrans; [by apply prefix_app_r|exact Hpre]. }
  destruct (walk_linkless fs l c m Hm Hlm) as [->|[(k & rest & _ & ->)| ->]]; [|reflexivity..].
  destruct (is_file _ _); [reflexivity|].
  destruct (fs !! ((c ++ m) ++ [name])) eqn:E; [reflexivity|].
  apply adds_one; [|done]. rewrite <- (assoc_L (++)). by apply prefix_app_r.
Qed.

Lemma create_below m fs :
  resolve fs p = Found c l -> Forall plain_name p -> Forall plain_name m ->
  linkless fs c names -> m `prefix_of` names ->
  adds_dirs c fs (create_dir_all max_links (rev (p ++ m)) fs).2.
Proof.
  intros Hp Hplain. revert fs Hp. induction m as [|name m IH] using rev_ind; intros fs Hp Hm Hl Hpre.
  { rewrite (right_id_L [] (++)). destruct (create_existing _ _ _ _ Hplain Hp) as (r & -> & _).
    reflexivity. }
  apply Forall_app in Hm as [Hm _].
  assert (m `prefix_of` names) as Hpre' by (etrans; [by apply prefix_app_r|exact Hpre]).
  assert (forall fs', adds_dirs c fs fs' ->
    adds_dirs c fs (mkdir max_links (p ++ m ++ [name]) fs').2) as Hmk.
  { intros fs' Ha. etrans; [exact Ha|]. apply mkdir_below; try done.
    - by eapply adds_found.
    - by eapply adds_linkless. }
  rewrite (assoc_L (++)), create_snoc, <- (assoc_L (++)). pose proof (Hmk fs (reflexivity fs)) as H1.
  destruct (mkdir max_links (p ++ m ++ [name]) fs) as [[u|e] fs1]; [done|]. simpl in H1.
  destruct (bool_decide _); [|by destruct (path_is_dir _ _ _)].
  assert (adds_dirs c fs (create_dir_all max_links (rev (p ++ m)) fs1).2) as H2.
  { etrans; [exact H1|]. apply IH; try done; [by eapply adds_found|by eapply adds_linkless]. }
  destruct (create_dir_all _ _ fs1) as [[u|e'] fs2]; [|done]. simpl in H2.
  pose proof (Hmk fs2 H2) as H3.
  destruct (mkdir max_links (p ++ m ++ [name]) fs2) as [[u'|e'] fs3]; [done|].
  by destruct (path_is_dir _ _ _).
Qed.
End below.

(** Where a path is stopped, nothing is made below it. *)
Lemma create_stopped p name m fs e :
  path_exists max_links fs (p ++ [name]) = false ->
  mkdir max_links (p ++ [name]) fs = (Err e, fs) -> e <> ENOENT ->
  exists e', create_dir_all max_links (rev (p ++ name :: m)) fs = (Err e', fs).
Proof.
  intros Hno Hmk He.
  assert (forall k, path_exists max_links fs (p ++ name :: k) = false) as Hall.
  { intros k. unfold path_exists, resolve_path in *. rewrite cons_middle, (assoc_L (++)), walk_app.
    by destruct (walk fs max_links [] (p ++ [name])). }
  assert (forall k, path_is_dir max_links fs (p ++ name :: k) = false) as Hdir.
  { intros k. specialize (Hall k). revert Hall. unfold path_exists, path_is_dir.
    by destruct (resolve fs (p ++ name :: k)). }
  induction m as [|x m [e' IH]] using rev_ind.
  - rewrite create_snoc, Hmk, bool_decide_eq_false_2, (Hdir []) by done. by exists e.
  - rewrite app_comm_cons, (assoc_L (++)), create_snoc, mkdir_snoc, <- (assoc_L (++)).
    specialize (Hall m). unfold path_exists in Hall.
    destruct (resolve fs (p ++ name :: m)) as [q k|q rest|e1]; [done| |].
    + rewrite bool_decide_eq_true_2, IH by done. by exists e'.
    + destruct (decide (e1 = ENOENT)) as [->|Hne];
        [rewrite bool_decide_eq_true_2, IH by done; by exists e'|].
      rewrite bool_decide_eq_false_2 by done.
      assert (path_is_dir max_links fs (p ++ (name :: m) ++ [x]) = false) as -> by apply Hdir.
      by exists e1.
Qed.
End making.

#[local] Open Scope Z_scope.

(** ** Paths *)

Lemma component_of_plain piece c name :
  c ∈ component_of piece -> c = Normal name -> plain_name name.
Proof.
  unfold component_of. intros Hc ->.
  destruct (String.eqb_spec piece ""), (String.eqb_spec piece "."); simpl in Hc; try set_solver.
  destruct (String.eqb_spec piece ".."); [set_solver|].
  apply list_elem_of_singleton in Hc as [= ->]. by split.
Qed.

Lemma components_plain path name : Normal name ∈ components path -> plain_name name.
Proof.
  unfold components. generalize (split_char "/"%char path) as pieces. intros pieces Hin.
  assert (Normal name ∈ mbind component_of pieces) as H.
  { destruct (starts_with _ _); [by apply elem_of_cons in Hin as [|]|].
    destruct pieces as [|piece pieces']; [done|].
    destruct (String.eqb piece "."); [by apply elem_of_cons in Hin as [|]|done]. }
  apply list_elem_of_bind in H as (piece & Hc & _). by eapply component_of_plain.
Qed.

Lemma prefix_parent (root p : Path) :
  root `prefix_of` p -> (length root < length p)%nat -> root `prefix_of` parent p.
Proof.
  intros [k ->] Hlen. rewrite length_app in Hlen.
  destruct k as [|x k _] using rev_ind; [simpl in Hlen; lia|].
  unfold parent. rewrite (assoc_L (++)), removelast_last. by exists k.
Qed.

Lemma plain_parent p : Forall plain_name p -> Forall plain_name (parent p).
Proof.
  destruct p as [|x p _] using rev_ind; [done|]. unfold parent. rewrite removelast_last.
  by intros [H _]%Forall_app.
Qed.

(** The resolved path stays below the root, in ordinary names. *)
Lemma push_components_below input (root : Path) cs resolved p :
  (forall name, Normal name ∈ cs -> plain_name name) ->
  root `prefix_of` resolved -> Forall plain_name resolved ->
  push_components input (length root) resolved cs = Ok p ->
  root `prefix_of` p /\ Forall plain_name p.
Proof.
  revert resolved. induction cs as [|c cs IH]; intros resolved Hcs Hroot Hplain; simpl.
  { by intros [= <-]. }
  intros (resolved' & Hc & Hrest)%result_bind_Ok. eapply IH; [|..|exact Hrest].
  - intros name Hn. apply Hcs. by right.
  - destruct c; simpl in Hc; try done; [by injection Hc as <-| |].
    + destruct (Nat.leb_spec (length resolved) (length root)); [done|].
      injection Hc as <-. by apply prefix_parent.
    + injection Hc as <-. by apply prefix_app_r.
  - destruct c; simpl in Hc; try done; [by injection Hc as <-| |].
    + destruct (Nat.leb _ _); [done|]. injection Hc as <-. by apply plain_parent.
    + injection Hc as <-. apply Forall_app. split; [done|]. constructor; [|done].
      apply Hcs. by left.
Qed.

(** A path leads to ordinary names. *)
Lemma walk_found_plain fs links cur p q l :
  Forall plain_name cur -> walk fs links cur p = Found q l -> Forall plain_name q.
Proof.
  revert cur p. induction links as [|links IHl]; intros cur p; revert cur;
    induction p as [|name p IH]; intros cur Hcur; rewrite ?walk_nil, ?walk_cons;
    try (by intros [= <- _]);
    (destruct (is_file fs cur); [done|]);
    (destruct (String.eqb_spec name "."); [by apply IH|]);
    (destruct (String.eqb_spec name ".."); [by apply IH, plain_parent|]);
    destruct (fs !! (cur ++ [name])) as [[bytes| |absolute target]|]; try done;
    try (apply IH, Forall_app; split; [done|]; by repeat constructor).
  apply IHl. by destruct absolute.
Qed.

Section laws.
Context (max_links : nat) (io_text : IoError -> string) (cwd : Path).

Lemma nearest_Ok fs path reversed e :
  nearest_existing max_links fs path reversed = Ok e ->
  path_exists max_links fs e = true
  /\ exists rest, rev reversed = e ++ rest
     /\ forall name rest', rest = name :: rest' -> path_exists max_links fs (e ++ [name]) = false.
Proof.
  induction reversed as [|x above IH]; simpl.
  - destruct (path_exists max_links fs []) eqn:E; [|done]. intros [= <-].
    split; [done|]. by exists [].
  - destruct (path_exists max_links fs (rev above ++ [x])) eqn:E.
    + intros [= <-]. split; [done|]. exists []. by rewrite (right_id_L [] (++)).
    + intros (He & rest & Hr & Hno)%IH. split; [done|]. exists (rest ++ [x]).
      rewrite Hr, (assoc_L (++)). split; [done|]. intros name rest' Hx.
      destruct rest as [|name' rest].
      * injection Hx as -> _. rewrite (right_id_L [] (++)) in Hr. by rewrite <- Hr.
      * injection Hx as -> _. by eapply Hno.
Qed.

(** What an accepted path is. *)
Record accepted (fs : FileSystem) (root p : Path) (e : Path) (rest : list string) (c : Path)
    (l : nat) : Prop := {
  acc_path : p = e ++ rest;
  acc_plain : Forall plain_name p;
  acc_found : resolve_path max_links fs e = Found c l;
  acc_inside : root `prefix_of` c;
  acc_first name rest' : rest = name :: rest' -> path_exists max_links fs (e ++ [name]) = false;
}.

Lemma io_Ok {A} (r : IoResult A) a : io io_text r = Ok a -> r = Ok a.
Proof. destruct r; [by intros [= ->]|done]. Qed.

Lemma canonicalize_Ok fs p q :
  canonicalize max_links fs p = Ok q <-> exists l, resolve_path max_links fs p = Found q l.
Proof.
  unfold canonicalize. split.
  - destruct (resolve_path max_links fs p); [intros [= <-]; eauto|done..].
  - by intros [l ->].
Qed.

Lemma resolve_Ok fs project_root input p :
  resolve_within_root max_links io_text cwd fs project_root input = Ok p ->
  exists root, canonicalize max_links fs (os_path cwd project_root) = Ok root
    /\ exists e rest c l, accepted fs root p e rest c l.
Proof.
  unfold resolve_within_root. intros (root & Hroot%io_Ok & H)%result_bind_Ok. exists root.
  split; [done|]. apply result_bind_Ok in H as (resolved & Hres & H).
  apply result_bind_Ok in H as (e & He & H).
  apply result_bind_Ok in H as (c & [l Hc]%io_Ok%canonicalize_Ok & H).
  destruct (path_starts_with c root) eqn:Hin; [|done]. injection H as ->.
  apply nearest_Ok in He as (_ & rest & Hp & Hno). rewrite rev_involutive in Hp.
  apply canonicalize_Ok in Hroot as [k Hroot].
  assert (Forall plain_name p) as Hplain.
  { unfold resolve_relative_path in Hres. destruct (is_absolute input); [done|].
    apply push_components_below in Hres as [_ Hplain]; [done|by intros; eapply components_plain|done|].
    eapply walk_found_plain; [|exact Hroot]. constructor. }
  exists e, rest, c, l. split; try done. by apply bool_decide_eq_true_1 in Hin.
Qed.

(** ** Reading *)

Lemma read_file_Ok fs p bytes :
  read_file max_links fs p = Ok bytes ->
  exists q l, resolve_path max_links fs p = Found q l /\ fs !! q = Some (NFile bytes).
Proof.
  unfold read_file. destruct (resolve_path max_links fs p) as [q l| |]; try done.
  destruct (fs !! q) as [[]|] eqn:E; try done. intros [= <-]. eauto.
Qed.

(** A path that leads somewhere leads inside. *)
Lemma accepted_inside fs root p e rest c l q k :
  accepted fs root p e rest c l -> resolve_path max_links fs p = Found q k -> root `prefix_of` q.
Proof.
  intros [-> _ Hc Hin Hno] Hq. destruct rest as [|name rest].
  - rewrite (right_id_L [] (++)), Hc in Hq. by injection Hq as <- _.
  - rewrite cons_middle, (assoc_L (++)) in Hq. apply walk_prefix in Hq as (q' & l' & Hq' & _).
    specialize (Hno name rest eq_refl). unfold path_exists, resolve_path in Hno.
    by rewrite Hq' in Hno.
Qed.

(** ** Writing *)

(** What is in a file or a directory that does not exist is missing too. *)
Definition tree (fs : FileSystem) : Prop :=
  forall p name node, fs !! (p ++ [name]) = Some node -> p = [] \/ fs !! p = Some NDir.

Lemma tree_missing fs p rest : tree fs -> p <> [] -> fs !! p = None -> fs !! (p ++ rest) = None.
Proof.
  intros Ht Hne Hp. induction rest as [|name rest IH] using rev_ind; [by rewrite (right_id_L [] (++))|].
  rewrite (assoc_L (++)). destruct (fs !! ((p ++ rest) ++ [name])) eqn:E; [|done].
  apply Ht in E as [E|E]; [|congruence]. by apply app_eq_nil in E as [-> _].
Qed.

(** A path whose last component is a link that leads nowhere. *)
Definition dangling_link (fs : FileSystem) (p : Path) : Prop :=
  exists above name d l absolute target,
    p = above ++ [name] /\ resolve_path max_links fs above = Found d l
    /\ fs !! (d ++ [name]) = Some (NLink absolute target) /\ path_exists max_links fs p = false.

(** Every change is at [base] or below it. *)
Definition changes_below (base : Path) (fs fs' : FileSystem) : Prop :=
  forall q, fs' !! q <> fs !! q -> base `prefix_of` q.

Lemma changes_none base fs : changes_below base fs fs.
Proof. by intros q. Qed.

Lemma changes_insert base fs fs' q node :
  adds_dirs base fs fs' -> base `prefix_of` q -> changes_below base fs (<[q := node]> fs').
Proof.
  intros Ha Hq q' Hne. destruct (decide (q' = q)) as [->|Hx]; [done|].
  rewrite lookup_insert_ne in Hne by done. by destruct (Ha q') as [|[? _]].
Qed.

Lemma changes_adds base fs fs' : adds_dirs base fs fs' -> changes_below base fs fs'.
Proof. intros Ha q Hne. by destruct (Ha q) as [|[? _]]. Qed.

Lemma changes_weaken root base fs fs' :
  root `prefix_of` base -> changes_below base fs fs' -> changes_below root fs fs'.
Proof. intros Hr H q Hq. etrans; [exact Hr|by apply H]. Qed.

(** A write below [c], where there are no links. *)
Lemma write_below fs fs0 e c l rest content :
  adds_dirs c fs0 fs -> resolve_path max_links fs e = Found c l ->
  Forall plain_name rest -> linkless fs c rest ->
  changes_below c fs0 (write_file max_links (e ++ rest) content fs).2.
Proof.
  intros Ha He Hp Hl. unfold write_file, resolve_path in *. rewrite walk_app, He. simpl.
  destruct (walk_linkless fs l c rest Hp Hl) as [->|[(m & r & -> & ->)| ->]].
  - destruct (is_file fs (c ++ rest)); [|by apply changes_adds].
    apply changes_insert; [done|by apply prefix_app_r].
  - destruct r; [|by apply changes_adds]. apply changes_insert; [done|by apply prefix_app_r].
  - by apply changes_adds.
Qed.

(** Nothing is written below a path that leads nowhere. *)
Lemma write_stopped fs p name rest content :
  path_exists max_links fs (p ++ [name]) = false -> rest <> [] ->
  (write_file max_links (p ++ name :: rest) content fs).2 = fs.
Proof.
  intros Hno Hr. unfold write_file, path_exists, resolve_path in *.
  rewrite cons_middle, (assoc_L (++)), walk_app.
  destruct (walk fs max_links [] (p ++ [name])) as [| q r|]; try done. simpl.
  by destruct r, rest.
Qed.

(** The first component that does not exist is no link. *)
Lemma write_missing fs e c l name rest content create_parent :
  tree fs -> Forall plain_name e -> Forall plain_name (name :: rest) ->
  resolve_path max_links fs e = Found c l -> fs !! (c ++ [name]) = None ->
  changes_below c fs
    (write_operation max_links io_text (e ++ name :: rest) content create_parent fs).2.
Proof.
  intros Ht Hpe Hpr He Hmissing.
  assert (linkless fs c (name :: rest)) as Hl.
  { intros m [k Hm] Hne absolute target. destruct m as [|name' m]; [done|]. injection Hm as <- _.
    rewrite cons_middle, (assoc_L (++)), tree_missing; try done. by destruct c. }
  assert (forall fs', adds_dirs c fs fs' ->
    changes_below c fs (write_file max_links (e ++ name :: rest) content fs').2) as Hwrite.
  { intros fs' Ha. apply (write_below fs' fs e c l); try done;
      [by eapply adds_found|by eapply adds_linkless]. }
  unfold write_operation. destruct (create_parent && _).
  - assert (parent (e ++ name :: rest) = e ++ removelast (name :: rest)) as ->
      by (unfold parent; by rewrite removelast_app).
    assert (exists k, name :: rest = removelast (name :: rest) ++ [k]) as [k Hk].
    { exists (List.last (name :: rest) name). by apply app_removelast_last. }
    assert (adds_dirs c fs
      (create_dir_all max_links (rev (e ++ removelast (name :: rest))) fs).2) as Ha.
    { eapply create_below; try done; [|exists [k]; by rewrite Hk at 1].
      rewrite Hk in Hpr. by apply Forall_app in Hpr as [? _]. }
    destruct (create_dir_all _ _ fs) as [[u|err] fs']; simpl in *; [|by apply changes_adds].
    specialize (Hwrite fs' Ha). by destruct (write_file _ _ _ fs').
  - specialize (Hwrite fs (reflexivity fs)). by destruct (write_file _ _ _ fs).
Qed.

(** The first component exists and leads nowhere: it is a link, or below a
    file. *)
Lemma write_nowhere fs e c l name rest content create_parent :
  Forall plain_name (e ++ name :: rest) -> resolve_path max_links fs e = Found c l ->
  fs !! (c ++ [name]) <> None -> path_exists max_links fs (e ++ [name]) = false ->
  (write_operation max_links io_text (e ++ name :: rest) content create_parent fs).2 = fs
  \/ dangling_link fs (e ++ name :: rest).
Proof.
  intros Hp He Hsome Hno. apply Forall_app in Hp as [Hpe Hpr].
  assert (plain_name name) as Hname by (by apply Forall_cons_1 in Hpr as [? _]).
  destruct (decide (rest = [])) as [->|Hrest].
  - destruct (is_file fs c) eqn:Hf.
    + left. assert ((write_file max_links (e ++ [name]) content fs).2 = fs) as Hw.
      { unfold write_file, resolve_path in *. rewrite walk_app, He. simpl.
        by rewrite walk_plain, Hf. }
      unfold write_operation, parent. rewrite removelast_last.
      destruct (create_existing _ _ _ _ _ Hpe He) as ([u|err] & Hmade & _); rewrite Hmade;
        destruct (create_parent && _); try done; by destruct (write_file _ _ _ fs).
    + right. exists e, name, c, l. unfold path_exists, resolve_path in Hno.
      rewrite walk_app in Hno. unfold resolve_path in He. rewrite He in Hno. simpl in Hno.
      rewrite walk_plain, Hf in Hno by done.
      destruct (fs !! (c ++ [name])) as [[| |absolute target]|] eqn:Hn; try done;
        try (by rewrite walk_nil in Hno).
      exists absolute, target. split_and!; try done. unfold path_exists, resolve_path.
      rewrite walk_app, He. simpl. by rewrite walk_plain, Hf, Hn.
  - left.
    assert (exists err, mkdir max_links (e ++ [name]) fs = (Err err, fs) /\ err <> ENOENT)
      as (err & Hmk & Herr).
    { rewrite mkdir_snoc, He. destruct (is_file fs c); [by exists ENOTDIR|].
      destruct (fs !! (c ++ [name])); [by exists EEXIST|done]. }
    assert ((write_file max_links (e ++ name :: rest) content fs).2 = fs) as Hw
      by by apply write_stopped.
    assert (parent (e ++ name :: rest) = e ++ name :: removelast rest) as Hpar.
    { unfold parent. rewrite removelast_app by done. by destruct rest. }
    destruct (create_stopped _ _ _ (removelast rest) _ _ Hno Hmk Herr) as [err' Hmade].
    unfold write_operation. rewrite Hpar, Hmade. destruct (create_parent && _); [done|].
    by destruct (write_file _ _ _ fs).
Qed.

(** Everything [write_operation] changes is in the root. *)
Lemma write_inside fs root p e rest c l content create_parent :
  tree fs -> accepted fs root p e rest c l ->
  changes_below root fs (write_operation max_links io_text p content create_parent fs).2
  \/ dangling_link fs p.
Proof.
  intros Ht [-> Hplain Hc Hin Hno]. pose proof Hplain as [Hpe Hpr]%Forall_app.
  destruct rest as [|name rest].
  - left. eapply changes_weaken; [exact Hin|]. rewrite (right_id_L [] (++)).
    assert (exists r, (if create_parent && negb (bool_decide (e = []))
      then create_dir_all max_links (rev (parent e)) fs else (Ok tt, fs)) = (r, fs)) as [r Hmade].
    { destruct (create_parent && _); [|eauto].
      destruct e as [|x e' _] using rev_ind.
      { destruct (create_existing max_links [] _ _ fs Hpe Hc) as (r & Hmade & _). by exists r. }
      unfold parent. rewrite removelast_last. unfold resolve_path in Hc.
      apply walk_prefix in Hc as (d & k & Hd & _). apply Forall_app in Hpe as [Hpe _].
      destruct (create_existing max_links e' _ _ fs Hpe Hd) as (r & Hmade & _). by exists r. }
    unfold write_operation. rewrite Hmade. destruct r as [u|err]; [|apply changes_none].
    unfold write_file. rewrite Hc.
    destruct (is_file fs c); [|apply changes_none]. by apply changes_insert; [reflexivity|].
  - destruct (fs !! (c ++ [name])) eqn:Hn.
    + destruct (write_nowhere fs e c l name rest content create_parent Hplain Hc) as [->|];
        [by rewrite Hn|by eapply Hno| |by right]. left. apply changes_none.
    + left. eapply changes_weaken; [exact Hin|]. by apply (write_missing fs e c l).
Qed.

(** An edit writes the file it has read. *)
Lemma edit_cases fs p search replace r fs' :
  edit_operation max_links io_text p search replace fs = (r, fs') ->
  (exists err, r = Err err /\ fs' = fs)
  \/ exists q l before after,
       r = Ok tt /\ resolve_path max_links fs p = Found q l
       /\ fs !! q = Some (NFile (before +:+ search +:+ after))
       /\ match_count search (before +:+ search +:+ after) = 1%nat
       /\ fs' = <[q := NFile (before +:+ replace +:+ after)]> fs.
Proof.
  unfold edit_operation. destruct (read_to_string _ _ fs p) as [content|err] eqn:Hread;
    [|intros [= <- <-]; left; eauto].
  apply result_bind_Ok in Hread as (bytes & Hread%io_Ok%read_file_Ok & Hutf).
  destruct (valid_utf8 bytes); [|done]. injection Hutf as ->.
  destruct Hread as (q & l & Hq & Hfile).
  destruct (Nat.eqb_spec (match_count search content) 1) as [Hone|]; simpl;
    [|intros [= <- <-]; left; eauto].
  unfold write_file. rewrite Hq. unfold is_file. rewrite Hfile. intros [= <- <-]. right.
  assert (exists before after, split_once search content = Some (before, after))
    as (before & after & Hsplit).
  { unfold match_count in Hone. destruct (is_empty search) eqn:Hempty.
    - apply String.eqb_eq in Hempty as ->. destruct content; simpl; eauto.
    - cbn [count_from] in Hone. destruct (split_once search content) as [[before after]|]; [eauto|done]. }
  exists q, l, before, after. unfold replace_first. rewrite Hsplit.
  apply split_once_Some in Hsplit. by rewrite <- Hsplit.
Qed.
End laws.

(** ** Theorems *)

(** C13. The file tools stay in the project.  What [read] returns is computed
    from a file below the canonical root; every file that [write] changes and
    every directory it makes is below it, unless the path ends in a link that
    leads nowhere yet. *)
Theorem file_tools_stay_within_root max_links io_text cwd arguments project_root fs :
  tree fs ->
  (forall envelope,
     read_execute max_links io_text cwd arguments project_root fs = Some (Ok envelope) ->
     exists root p q bytes,
       canonicalize max_links fs (os_path cwd project_root) = Ok root
       /\ root `prefix_of` q /\ fs !! q = Some (NFile bytes)
       /\ read_output p bytes (v ← value_get "start_line" arguments; as_u64 v)
            (v ← value_get "end_line" arguments; as_u64 v) = Some (tr_output envelope))
  /\ (forall q,
     (write_execute max_links io_text cwd arguments project_root fs).2 !! q <> fs !! q ->
     exists input root p,
       required_string arguments "path" = Ok input
       /\ canonicalize max_links fs (os_path cwd project_root) = Ok root
       /\ resolve_within_root max_links io_text cwd fs project_root input = Ok p
       /\ (root `prefix_of` q \/ dangling_link max_links fs p)).
Proof.
  intros Ht. split.
  - intros envelope. unfold read_execute.
    match goal with |- context [match ?m with Ok _ => _ | Err _ => _ end] =>
      destruct m as [[[call_id p] bytes]|] eqn:E; [|done] end.
    intros (output & Hout & [= <-])%bind_Some.
    apply result_bind_Ok in E as (input & _ & E). apply result_bind_Ok in E as (id & _ & E).
    apply result_bind_Ok in E as (p' & Hp & E). apply result_bind_Ok in E as (bytes' & Hread & E).
    injection E as -> -> ->.
    apply resolve_Ok in Hp as (root & Hroot & e & rest & c & l & Hacc).
    apply io_Ok, read_file_Ok in Hread as (q & k & Hq & Hfile).
    exists root, p, q, bytes. split_and!; try done. by eapply accepted_inside.
  - intros q. unfold write_execute.
    match goal with |- context [match ?m with Ok _ => _ | Err _ => _ end] =>
      destruct m as [[[content call_id] p]|] eqn:E; [|done] end.
    apply result_bind_Ok in E as (input & Hin & E). apply result_bind_Ok in E as (text & _ & E).
    apply result_bind_Ok in E as (id & _ & E). apply result_bind_Ok in E as (p' & Hp & E).
    injection E as -> -> ->. pose proof Hp as (root & Hroot & e & rest & c & l & Hacc)%resolve_Ok.
    intros Hne. exists input, root, p. split_and!; try done.
    destruct (write_inside max_links io_text fs root p e rest c l content
      (default true (v ← value_get "create_parent" arguments; as_bool v)) Ht Hacc) as [Hb|];
      [left|by right].
    apply Hb. by destruct (write_operation _ _ _ _ _ fs).
Qed.

(** C15. An edit succeeds or it fails.  One that succeeds has replaced the one
    match of its text in the file its path leads to, which is below the root,
    has left every other file, and returns that it edited this path, under the
    call's identifier; one that fails leaves all files as they were. *)
Theorem edit_replaces_the_match max_links io_text cwd arguments project_root fs r fs' :
  edit_execute max_links io_text cwd arguments project_root fs = (r, fs') ->
  (exists err, r = Err err /\ fs' = fs)
  \/ exists path search replace call_id root p q k before after,
       required_string arguments "path" = Ok path
       /\ required_string arguments "search" = Ok search
       /\ required_string arguments "replace" = Ok replace
       /\ required_string arguments "call_id" = Ok call_id
       /\ canonicalize max_links fs (os_path cwd project_root) = Ok root
       /\ resolve_within_root max_links io_text cwd fs project_root path = Ok p
       /\ resolve_path max_links fs p = Found q k
       /\ root `prefix_of` q
       /\ fs !! q = Some (NFile (before +:+ search +:+ after))
       /\ match_count search (before +:+ search +:+ after) = 1%nat
       /\ fs' = <[q := NFile (before +:+ replace +:+ after)]> fs
       /\ r = Ok (MkToolResultEnvelope (MkToolCallId call_id) "edit" false
                   (VObject [("edited", VBool true); ("path", VString (show_path p))]) None).
Proof.
  unfold edit_execute.
  match goal with |- context [match ?m with Ok _ => _ | Err _ => _ end] =>
    destruct m as [[[[search replace] call_id] p]|] eqn:E; [|intros [= <- <-]; left; eauto] end.
  apply result_bind_Ok in E as (input & Hin & E). apply result_bind_Ok in E as (s' & Hs & E).
  apply result_bind_Ok in E as (r' & Hr & E). apply result_bind_Ok in E as (id & Hid & E).
  apply result_bind_Ok in E as (p' & Hres & E). injection E as -> -> -> ->.
  pose proof Hres as (root & Hroot & e & rest & c & l & Hacc)%resolve_Ok.
  destruct (edit_operation _ _ p search replace fs) as [edited fs1] eqn:Hedit.
  apply edit_cases in Hedit as [(err & -> & ->)|(q & k & before & after & -> & Hq & Hf & Hm & ->)].
  - intros [= <- <-]. left. eauto.
  - intros [= <- <-]. right. exists input, search, replace, call_id, root, p, q, k, before, after.
    split_and!; try done. by eapply accepted_inside.
Qed.

Lemma starts_with_itself p : path_starts_with p p = true.
Proof. by apply bool_decide_eq_true_2. Qed.

(** The name of a link that leads nowhere is accepted. *)
Lemma dangling_accepted max_links io_text cwd project_root fs root name outside rest :
  canonicalize max_links fs (os_path cwd project_root) = Ok root ->
  canonicalize max_links fs root = Ok root ->
  components name = [Normal name] -> is_absolute name = false ->
  resolve_path max_links fs (root ++ [name]) = Missing outside rest ->
  resolve_within_root max_links io_text cwd fs project_root name = Ok (root ++ [name]).
Proof.
  intros Hroot Hcanon Hname Hrel Hmissing. unfold resolve_within_root. rewrite Hroot.
  unfold resolve_relative_path. cbn [io]. unfold mbind at 1. simpl. rewrite Hrel, Hname. simpl.
  unfold nearest_existing_ancestor. rewrite rev_unit. simpl. rewrite rev_involutive.
  pose proof Hcanon as [l Hl]%canonicalize_Ok.
  unfold path_exists at 1. rewrite Hmissing.
  assert (nearest_existing max_links fs (root ++ [name]) (rev root) = Ok root) as ->.
  { destruct (rev root) as [|x above] eqn:Hrev;
      (assert (rev (rev root) = root) as Hroot' by apply rev_involutive); rewrite Hrev in Hroot';
      unfold nearest_existing; rewrite Hroot'; unfold path_exists; by rewrite Hl. }
  simpl. rewrite Hcanon. simpl. by rewrite starts_with_itself.
Qed.

(** C40. A link that leads nowhere lets [write] out of the project: when the
    path is the name of such a link in the root, the check looks at the root
    alone, and the file is created where the link points. *)
Theorem write_follows_dangling_link max_links io_text cwd arguments project_root fs root name
    outside content call_id :
  canonicalize max_links fs (os_path cwd project_root) = Ok root ->
  canonicalize max_links fs root = Ok root ->
  components name = [Normal name] -> is_absolute name = false ->
  resolve_path max_links fs (root ++ [name]) = Missing outside [] ->
  required_string arguments "path" = Ok name ->
  required_string arguments "content" = Ok content ->
  required_string arguments "call_id" = Ok call_id ->
  is_ok (write_execute max_links io_text cwd arguments project_root fs).1 = true
  /\ (write_execute max_links io_text cwd arguments project_root fs).2
     = <[outside := NFile content]> fs.
Proof.
  intros Hroot Hcanon Hname Hrel Hmissing Hpath Hcontent Hid. unfold write_execute.
  pose proof (dangling_accepted _ io_text _ _ _ _ _ _ _ Hroot Hcanon Hname Hrel Hmissing) as Hp.
  rewrite Hpath, Hcontent, Hid. simpl. rewrite Hp. simpl.
  assert (write_operation max_links io_text (root ++ [name]) content
    (default true (v ← value_get "create_parent" arguments; as_bool v)) fs
    = (Ok tt, <[outside := NFile content]> fs)) as ->; [|done].
  unfold write_operation, parent. rewrite removelast_last.
  pose proof Hcanon as [l Hl]%canonicalize_Ok.
  assert (Forall plain_name root) as Hplain
    by (eapply walk_found_plain; [|exact Hl]; constructor).
  assert (is_file fs root = false) as Hdir.
  { unfold resolve_path in Hmissing, Hl. rewrite walk_app, Hl in Hmissing. simpl in Hmissing.
    rewrite walk_cons in Hmissing. by destruct (is_file fs root). }
  destruct (create_existing max_links root root l fs Hplain Hl) as (r & Hmade & Hr).
  rewrite Hmade, (Hr Hdir).
  assert (write_file max_links (root ++ [name]) content fs = (Ok tt, <[outside := NFile content]> fs))
    as Hw by (unfold write_file; by rewrite Hmissing).
  destruct (_ && _); by rewrite Hw.
Qed.

(** ** Examples *)

Lemma tree_checked fs :
  bool_decide (map_Forall (fun p _ => parent p = [] \/ fs !! parent p = Some NDir) fs) = true -> tree fs.
Proof.
  intros H%bool_decide_eq_true_1 p name node Hp. specialize (H _ _ Hp). unfold parent in H.
  by rewrite removelast_last in H.
Qed.

(** A project [/p] with a file and a link to a file of [/etc] that does not
    exist. *)
Definition sample_fs : FileSystem :=
  {[ ["p"] := NDir; ["etc"] := NDir; ["p"; "a"] := NFile "one two";
     ["p"; "out"] := NLink true ["etc"; "new"] ]}.
Definition sample_io (e : IoError) : string := "error".
Definition sample_read : Value :=
  VObject [("call_id", VString "1"); ("path", VString "./a")].
Definition sample_write (path : string) : Value :=
  VObject [("call_id", VString "1"); ("content", VString "x"); ("path", VString path)].
Definition sample_edit (search : string) : Value :=
  VObject [("call_id", VString "1"); ("path", VString "b/../a"); ("replace", VString "2");
           ("search", VString search)].

Example escapes_refused :
  List.map (fun path => is_ok (write_execute 40 sample_io [] (sample_write path) "/p" sample_fs).1)
    ["/p/a"; "../etc/x"; "s/../../etc/x"; "s/t/x"; "out/x"; "a/x"]
  = [false; false; false; true; false; false].
Proof. vm_compute. reflexivity. Qed.

Lemma file_tools_stay_within_root_witness :
  (exists envelope root p q bytes,
     read_execute 40 sample_io [] sample_read "/p" sample_fs = Some (Ok envelope)
     /\ canonicalize 40 sample_fs ["p"] = Ok root /\ root `prefix_of` q
     /\ sample_fs !! q = Some (NFile bytes)
     /\ read_output p bytes None None = Some (tr_output envelope))
  /\ exists root p,
       canonicalize 40 sample_fs ["p"] = Ok root
       /\ resolve_within_root 40 sample_io [] sample_fs "/p" "s/t/x" = Ok p
       /\ (root `prefix_of` ["p"; "s"; "t"] \/ dangling_link 40 sample_fs p).
Proof.
  assert (tree sample_fs) as Ht by (apply tree_checked; vm_compute; reflexivity).
  split.
  - assert (exists envelope, read_execute 40 sample_io [] sample_read "/p" sample_fs
      = Some (Ok envelope)) as [envelope He] by (eexists; vm_compute; reflexivity).
    destruct (proj1 (file_tools_stay_within_root 40 sample_io [] sample_read "/p" sample_fs Ht)
      envelope He) as (root & p & q & bytes & H).
    exists envelope, root, p, q, bytes. split; [exact He|exact H].
  - assert ((write_execute 40 sample_io [] (sample_write "s/t/x") "/p" sample_fs).2
      !! ["p"; "s"; "t"] <> sample_fs !! ["p"; "s"; "t"]) as Hne
      by (vm_compute; intros H; discriminate H).
    destruct (proj2 (file_tools_stay_within_root 40 sample_io [] (sample_write "s/t/x") "/p"
      sample_fs Ht) _ Hne) as (input & root & p & [= <-] & H).
    exists root, p. exact H.
Defined.

Lemma edit_replaces_the_match_witness :
  exists r fs' root q before after,
    edit_execute 40 sample_io [] (sample_edit "two") "/p" sample_fs = (r, fs')
    /\ is_ok r = true /\ canonicalize 40 sample_fs ["p"] = Ok root /\ root `prefix_of` q
    /\ sample_fs !! q = Some (NFile (before +:+ "two" +:+ after))
    /\ fs' = <[q := NFile (before +:+ "2" +:+ after)]> sample_fs.
Proof.
  destruct (edit_execute 40 sample_io [] (sample_edit "two") "/p" sample_fs) as [r fs'] eqn:E.
  assert (is_ok r = true) as Hr
    by (apply (f_equal (fun x => is_ok x.1)) in E; simpl in E; rewrite <- E; vm_compute; reflexivity).
  destruct (edit_replaces_the_match 40 sample_io [] (sample_edit "two") "/p" sample_fs r fs' E)
    as [(err & Herr & _)|(path & s & t & id & root & p & q & k & before & after & _ & [= <-] & [= <-]
         & _ & H1 & _ & _ & H2 & H3 & _ & H4 & _)].
  { rewrite Herr in Hr. discriminate Hr. }
  exists r, fs', root, q, before, after.
  split; [reflexivity|]. split; [exact Hr|]. split; [exact H1|]. split; [exact H2|].
  split; [exact H3|exact H4].
Defined.

Lemma write_follows_dangling_link_witness :
  (write_execute 40 sample_io [] (sample_write "out") "/p" sample_fs).2
  = <[["etc"; "new"] := NFile "x"]> sample_fs.
Proof.
  apply (write_follows_dangling_link 40 sample_io [] (sample_write "out") "/p" sample_fs ["p"]
    "out" ["etc"; "new"] "x" "1"); vm_compute; reflexivity.
Defined.

(** Two occurrences that overlap are one match. *)
Example overlapping_is_one_match : match_count "aa" "aaa" = 1%nat.
Proof. vm_compute. reflexivity. Qed.

(** A cut inside a character panics. *)
Example truncation_panics : truncate_text "éé" 10 3 = None.
Proof. vm_compute. reflexivity. Qed.
