(* ===== verification/FileQueue.v ===== *)
(** * The queues of file mutations ([bt-tools/src/mutation.rs])

    Writes and edits of one file run one after the other.  A global map gives
    each file in use a queue, an asynchronous mutex behind a shared pointer;
    who is done removes the queue when only the map and itself still hold it.
    Here the tasks take their steps in any order: a step is what one task does
    while it holds the lock of the map, waits, or runs.  A task may be dropped
    whenever it waits, since a cancelled turn drops its future.

    The keys are the paths of [FileTools.mutation_queue_key]. *)

From stdpp Require Import base list strings gmap relations.
From Stdlib Require Import ZArith Lia.
From S2P Require Import Prelude FileTools.

(** ** State *)

(** What a task is doing in [with_file_mutation_queue], with its clone of the
    queue. *)
Inductive Phase : Type :=
  | Waiting   (** [queue.lock().await] *)
  | Operating (** [operation.await], under the guard *)
  | Finished. (** the guard is dropped *)
#[export] Instance Phase_eq_dec : EqDecision Phase.
Proof. solve_decision. Defined.

Record Task : Type := MkTask {
  tk_key : Path;
  tk_queue : nat;
  tk_phase : Phase;
}.

Record Queues : Type := MkQueues {
  qs_map : gmap (list string) nat;
  (** the next queue that is allocated *)
  qs_next : nat;
  qs_tasks : gmap nat Task;
}.

Definition set_task (id : nat) (task : Task) (s : Queues) : Queues :=
  MkQueues (qs_map s) (qs_next s) (<[id := task]> (qs_tasks s)).
Definition remove_task (id : nat) (s : Queues) : Queues :=
  MkQueues (qs_map s) (qs_next s) (delete id (qs_tasks s)).

Definition operates (queue : nat) (task : Task) : Prop :=
  tk_queue task = queue /\ tk_phase task = Operating.
#[export] Instance operates_dec queue task : Decision (operates queue task).
Proof. unfold operates. apply _. Defined.

(** The guard of the queue is taken. *)
Definition locked (queue : nat) (s : Queues) : bool :=
  bool_decide (map_Exists (fun _ task => operates queue task) (qs_tasks s)).

(** [Arc::strong_count]: the clones of the tasks and the one of the map. *)
Definition strong_count (queue : nat) (key : Path) (s : Queues) : nat :=
  size (filter (fun p : nat * Task => tk_queue p.2 = queue) (qs_tasks s))
  + (if bool_decide (qs_map s !! key = Some queue) then 1 else 0).

(** ** Steps *)

Inductive Action : Type :=
  | Enter (id : nat) (key : Path)
  | Acquire (id : nat)
  | Finish (id : nat)
  | Leave (id : nat)
  | DropTask (id : nat).

(** The entry of the key, or a new queue. *)
Definition enter (id : nat) (key : Path) (s : Queues) : Queues :=
  match qs_map s !! key with
  | Some queue => set_task id (MkTask key queue Waiting) s
  | None =>
      let queue := qs_next s in
      MkQueues (<[key := queue]> (qs_map s)) (S queue)
        (<[id := MkTask key queue Waiting]> (qs_tasks s))
  end.

(** The last section of the map's lock, and the end of the task. *)
Definition leave (id : nat) (task : Task) (s : Queues) : Queues :=
  let map' :=
    if Nat.eqb (strong_count (tk_queue task) (tk_key task) s) 2
       && bool_decide (qs_map s !! tk_key task = Some (tk_queue task))
    then delete (tk_key task) (qs_map s) else qs_map s in
  MkQueues map' (qs_next s) (delete id (qs_tasks s)).

Definition phase_is (phase : Phase) (task : Task) : bool := bool_decide (tk_phase task = phase).

Definition with_phase (phase : Phase) (task : Task) : Task :=
  MkTask (tk_key task) (tk_queue task) phase.

(** One step, when it is possible. *)
Definition act (a : Action) (s : Queues) : option Queues :=
  match a with
  | Enter id key => if qs_tasks s !! id then None else Some (enter id key s)
  | Acquire id =>
      task ← qs_tasks s !! id;
      if phase_is Waiting task && negb (locked (tk_queue task) s)
      then Some (set_task id (with_phase Operating task) s) else None
  | Finish id =>
      task ← qs_tasks s !! id;
      if phase_is Operating task then Some (set_task id (with_phase Finished task) s) else None
  | Leave id =>
      task ← qs_tasks s !! id;
      if phase_is Finished task then Some (leave id task s) else None
  | DropTask id =>
      task ← qs_tasks s !! id;
      if phase_is Finished task then None else Some (remove_task id s)
  end.

Definition no_queues : Queues := MkQueues ∅ 0 ∅.

Definition reaches (s : Queues) : Prop :=
  rtc (fun s1 s2 => exists a, act a s1 = Some s2) no_queues s.

(** ** The invariant *)

(** Every task holds the queue that the map has for its key, and of the tasks
    that hold a queue one operates. *)
Record queues_ok (s : Queues) : Prop := {
  qo_held id task : qs_tasks s !! id = Some task -> qs_map s !! tk_key task = Some (tk_queue task);
  qo_one id1 id2 task1 task2 queue :
    qs_tasks s !! id1 = Some task1 -> qs_tasks s !! id2 = Some task2 ->
    operates queue task1 -> operates queue task2 -> id1 = id2;
  qo_fresh key queue : qs_map s !! key = Some queue -> (queue < qs_next s)%nat;
  qo_apart key1 key2 queue :
    qs_map s !! key1 = Some queue -> qs_map s !! key2 = Some queue -> key1 = key2;
}.

Lemma ok_start : queues_ok no_queues.
Proof. split; simpl; intros *; by rewrite lookup_empty. Qed.

(** A task that goes on without operating, or is gone, keeps the invariant. *)
Lemma ok_set id task phase s :
  queues_ok s -> qs_tasks s !! id = Some task ->
  (phase = Operating -> locked (tk_queue task) s = false) ->
  queues_ok (set_task id (with_phase phase task) s).
Proof.
  intros [H1 H2 H3 H4] Ht Hfree. split; simpl; try done.
  - intros i t [[<- <-]|[_ Hi]]%lookup_insert_Some; [exact (H1 id task Ht)|by eapply H1].
  - assert (forall i t queue, qs_tasks s !! i = Some t -> operates queue t ->
      operates queue (with_phase phase task) -> False) as Hno.
    { intros i t queue Hi Hop [<- Hph]. simpl in *. specialize (Hfree Hph).
      apply bool_decide_eq_false_1 in Hfree. apply Hfree. by exists i, t. }
    intros i1 i2 t1 t2 queue [[<- <-]|[Hn1 Hi1]]%lookup_insert_Some
      [[<- <-]|[Hn2 Hi2]]%lookup_insert_Some; intros; [done| | |by eapply H2].
    all: exfalso; eauto.
Qed.

Lemma ok_remove id s : queues_ok s -> queues_ok (remove_task id s).
Proof.
  intros [H1 H2 H3 H4]. split; simpl; try done.
  - intros i t [_ Hi]%lookup_delete_Some. by eapply H1.
  - intros i1 i2 t1 t2 queue [_ Hi1]%lookup_delete_Some [_ Hi2]%lookup_delete_Some. by eapply H2.
Qed.

Lemma ok_enter id key s : queues_ok s -> qs_tasks s !! id = None -> queues_ok (enter id key s).
Proof.
  intros [H1 H2 H3 H4] Hid. unfold enter. destruct (qs_map s !! key) as [queue|] eqn:Hkey.
  - split; simpl; try done.
    + intros i t [[<- <-]|[_ Hi]]%lookup_insert_Some; [done|by eapply H1].
    + intros i1 i2 t1 t2 q [[<- <-]|[_ Hi1]]%lookup_insert_Some
        [[<- <-]|[_ Hi2]]%lookup_insert_Some; intros [? ?] [? ?]; try done.
      by eapply (H2 i1 i2).
  - split; simpl.
    + intros i t [[<- <-]|[_ Hi]]%lookup_insert_Some; simpl; [by rewrite lookup_insert_eq|].
      specialize (H1 i t Hi). destruct (decide (key = tk_key t)) as [->|Hne]; [congruence|].
      by rewrite lookup_insert_ne.
    + intros i1 i2 t1 t2 q [[<- <-]|[_ Hi1]]%lookup_insert_Some
        [[<- <-]|[_ Hi2]]%lookup_insert_Some; intros [? ?] [? ?]; try done.
      by eapply (H2 i1 i2).
    + intros k q [[<- <-]|[_ Hk]]%lookup_insert_Some; [lia|]. apply H3 in Hk. lia.
    + intros k1 k2 q [[E1 F1]|[_ Hk1]]%lookup_insert_Some [[E2 F2]|[_ Hk2]]%lookup_insert_Some;
        [congruence|apply H3 in Hk2; lia|apply H3 in Hk1; lia|by eapply H4].
Qed.

(** With two holders, the map and the task, no other task holds the queue. *)
Lemma last_holder s id task i t :
  qs_tasks s !! id = Some task -> qs_map s !! tk_key task = Some (tk_queue task) ->
  strong_count (tk_queue task) (tk_key task) s = 2%nat ->
  qs_tasks s !! i = Some t -> tk_queue t = tk_queue task -> i = id.
Proof.
  intros Hid Hkey Hcount Hi Hq. unfold strong_count in Hcount.
  rewrite bool_decide_eq_true_2 in Hcount by done.
  destruct (decide (i = id)) as [|Hne]; [done|]. exfalso.
  set (holders := filter (fun p : nat * Task => tk_queue p.2 = tk_queue task) (qs_tasks s)) in *.
  assert (holders !! id = Some task) as H1 by (by apply map_lookup_filter_Some).
  assert (delete id holders !! i = Some t) as H2
    by (rewrite lookup_delete_ne by done; by apply map_lookup_filter_Some).
  assert (size holders = S (size (delete id holders))) as Hs.
  { rewrite <- (insert_delete_id holders id task H1) at 1.
    by rewrite map_size_insert_None by apply lookup_delete_eq. }
  assert (size (delete id holders) <> 0%nat) as Hpos; [|lia].
  intros He%map_size_empty_inv. by rewrite He, lookup_empty in H2.
Qed.

Lemma ok_leave id task s :
  queues_ok s -> qs_tasks s !! id = Some task -> queues_ok (leave id task s).
Proof.
  intros Hok Hid. unfold leave.
  destruct (Nat.eqb_spec (strong_count (tk_queue task) (tk_key task) s) 2) as [Hcount|];
    [|by apply (ok_remove id)].
  destruct (bool_decide _) eqn:Hkey; [|by apply (ok_remove id)].
  apply bool_decide_eq_true_1 in Hkey. destruct Hok as [H1 H2 H3 H4]. split; simpl.
  - intros i t [Hne Hi]%lookup_delete_Some. specialize (H1 i t Hi).
    rewrite lookup_delete_ne; [done|]. intros Heq.
    apply Hne. symmetry. eapply last_holder; [exact Hid|exact Hkey|exact Hcount|exact Hi|].
    rewrite Heq in Hkey. congruence.
  - intros i1 i2 t1 t2 queue [_ Hi1]%lookup_delete_Some [_ Hi2]%lookup_delete_Some. by eapply H2.
  - intros key queue [_ Hk]%lookup_delete_Some. by eapply H3.
  - intros key1 key2 queue [_ Hk1]%lookup_delete_Some [_ Hk2]%lookup_delete_Some. by eapply H4.
Qed.

Lemma ok_act a s s' : queues_ok s -> act a s = Some s' -> queues_ok s'.
Proof.
  intros Hok. destruct a as [id key|id|id|id|id]; simpl.
  - destruct (qs_tasks s !! id) eqn:Hid; [done|]. intros [= <-]. by apply ok_enter.
  - intros (task & Hid & H)%bind_Some. destruct (phase_is _ _); [|done]. simpl in H.
    destruct (locked _ s) eqn:Hl; [done|]. injection H as <-. by apply ok_set.
  - intros (task & Hid & H)%bind_Some. destruct (phase_is _ _); [|done]. injection H as <-.
    by apply ok_set.
  - intros (task & Hid & H)%bind_Some. destruct (phase_is _ _); [|done]. injection H as <-.
    by apply ok_leave.
  - intros (task & Hid & H)%bind_Some. destruct (phase_is _ _); [done|]. injection H as <-.
    by apply ok_remove.
Qed.

Lemma reaches_ok s : reaches s -> queues_ok s.
Proof.
  unfold reaches. intros H. assert (queues_ok no_queues) as Hok by apply ok_start. revert Hok.
  induction H as [s|s1 s2 s3 [a Ha] _ IH]; [done|]. intros Hok. by eapply IH, ok_act.
Qed.

(** C14. Writes and edits of one file never overlap: however the tasks enter,
    wait, finish, leave or are dropped, at any time at most one of those that
    use a file is operating on it; and tasks of different files never wait
    for one another. *)
Theorem file_mutations_are_serialized s id1 id2 task1 task2 :
  reaches s -> qs_tasks s !! id1 = Some task1 -> qs_tasks s !! id2 = Some task2 ->
  (tk_key task1 = tk_key task2 -> tk_phase task1 = Operating -> tk_phase task2 = Operating ->
   id1 = id2)
  /\ (tk_key task1 <> tk_key task2 -> tk_queue task1 <> tk_queue task2).
Proof.
  intros [H1 H2 _ H4]%reaches_ok Hid1 Hid2. specialize (H1 _ _ Hid1) as Hq1.
  specialize (H1 _ _ Hid2) as Hq2. split.
  - intros Hkey Hop1 Hop2. rewrite Hkey, Hq2 in Hq1.
    apply (H2 id1 id2 task1 task2 (tk_queue task1)); try done; split; congruence.
  - intros Hne Heq. apply Hne. rewrite <- Heq in Hq2. by eapply H4.
Qed.

(** Two tasks of a file: the second waits until the first is done, and the
    last one to leave removes the queue. *)
Definition run_actions (l : list Action) : option Queues :=
  fold_left (fun s a => s ← s; act a s) l (Some no_queues).

Example second_waits :
  run_actions [Enter 1 ["f"]; Enter 2 ["f"]; Acquire 1; Acquire 2] = None.
Proof. vm_compute. reflexivity. Qed.

Example queues_are_removed :
  qs_map <$> run_actions [Enter 1 ["f"]; Enter 2 ["f"]; Acquire 2; Finish 2; Leave 2; Acquire 1;
                          Finish 1; Leave 1] = Some ∅.
Proof. vm_compute. reflexivity. Qed.

(** A task that is dropped as the last one leaves its queue in the map. *)
Example dropped_queue_stays :
  qs_map <$> run_actions [Enter 1 ["f"]; Acquire 1; DropTask 1] = Some {[ ["f"] := 0%nat ]}.
Proof. vm_compute. reflexivity. Qed.

Lemma reaches_run l s : run_actions l = Some s -> reaches s.
Proof.
  revert s. induction l as [|a l IH] using rev_ind; intros s; unfold run_actions.
  - intros [= <-]. apply rtc_refl.
  - rewrite fold_left_app. simpl. intros (s0 & H0 & Ha)%bind_Some.
    eapply rtc_r; [by apply IH|]. by exists a.
Qed.

Lemma file_mutations_are_serialized_witness :
  exists s task1 task2,
    run_actions [Enter 1 ["f"]; Enter 2 ["g"]; Acquire 1; Acquire 2] = Some s
    /\ qs_tasks s !! 1%nat = Some task1 /\ qs_tasks s !! 2%nat = Some task2
    /\ tk_phase task1 = Operating /\ tk_phase task2 = Operating
    /\ tk_queue task1 <> tk_queue task2.
Proof.
  assert (exists s, run_actions [Enter 1 ["f"]; Enter 2 ["g"]; Acquire 1; Acquire 2] = Some s)
    as [s Hs] by (eexists; vm_compute; reflexivity).
  pose proof (reaches_run _ _ Hs) as Hr.
  assert (qs_tasks <$> Some s
    = Some {[1%nat := MkTask ["f"] 0 Operating; 2%nat := MkTask ["g"] 1 Operating]}) as Ht
    by (rewrite <- Hs; vm_compute; reflexivity).
  simpl in Ht. apply Some_inj in Ht.
  assert (qs_tasks s !! 1%nat = Some (MkTask ["f"] 0 Operating)) as H1 by (rewrite Ht; reflexivity).
  assert (qs_tasks s !! 2%nat = Some (MkTask ["g"] 1 Operating)) as H2 by (rewrite Ht; reflexivity).
  exists s, (MkTask ["f"] 0 Operating), (MkTask ["g"] 1 Operating).
  split; [exact Hs|]. split; [exact H1|]. split; [exact H2|]. split; [reflexivity|].
  split; [reflexivity|].
  apply (proj2 (file_mutations_are_serialized s 1 2 _ _ Hr H1 H2)). intros H. discriminate H.
Defined.
