(* ===== verification/RuntimeContext.v ===== *)
(** * The runtime: the context of a turn ([bt-runtime/src/runtime/context.rs])

    What a turn shows to the model: the messages of its branch and those of
    related sessions, the size the provider last observed, the plan of a
    compaction, and the request built once the summary is written; with the
    resolver of instruction files ([instructions.rs]), the report of a
    compaction ([support.rs]) and the manifest of a request
    ([bt-core/src/types.rs]).

    A method that may panic, because a truncation falls inside a character,
    gives [None] then ([Rt (option A)]); the walk up a cycle of branches, which
    does not end, is an error as in [rt_messages].  The file system and the path
    functions of [camino] are parameters, as are the configuration, the
    monotonic clock and the [Display] of JSON values. *)

From stdpp Require Import base list strings gmap sorting.
From Stdlib Require Import ZArith Lia.
From Stdlib Require Import Ascii.
From S2P Require Import Prelude Text Json Types Messages TurnProjection Approvals Store StoreOps.
From S2P Require Import StoreRelated StoreLaws StoreReplay StoreQueue StoreQueries StorePaging.
From S2P Require Import ContextPrompt Context Runtime RuntimeRecords RuntimeSessions.

#[local] Open Scope Z_scope.

(** ** Data *)

Inductive ObservedContextTokensInput : Type :=
  | Compute
  | Provided (tokens : option Z).

Record TurnContextCompactionInputs : Type := MkTurnContextCompactionInputs {
  ci_observed_context_tokens : ObservedContextTokensInput;
  ci_summary_override : option string;
  ci_reason_suffix : option string;
}.

Definition default_compaction_inputs : TurnContextCompactionInputs :=
  MkTurnContextCompactionInputs Compute None None.

Record TurnContextSummarizationPlan : Type := MkTurnContextSummarizationPlan {
  zp_transcript : string;
  zp_summary_budget_tokens : Z;
  zp_summarizer_model : string;
}.

Record TurnContextPlan : Type := MkTurnContextPlan {
  tp_observed_context_tokens : option Z;
  tp_summarization : option TurnContextSummarizationPlan;
}.

Record PreviousCompactionState : Type := MkPreviousCompactionState {
  pc_count : Z;
  pc_last_compaction_id : CompactionId;
  pc_first_compaction_id : CompactionId;
  pc_summary : string;
}.

(** [ContextCompactionReport]: the payload it is recorded as, and the id of
    the event that recorded it. *)
Record ContextCompactionReport : Type := MkContextCompactionReport {
  rp_payload : ContextCompactedPayload;
  rp_source_event_id : option EventId;
}.

Record PreparedTurnContext : Type := MkPreparedTurnContext {
  pt_settings_revision_id : Z;
  pt_connection : ConnectionDescriptor;
  pt_model_id : string;
  pt_context_boundary_seq_id : option Z;
  pt_message_sources : list ContextMessageSourceRef;
  pt_request : CompletionRequest;
  pt_compaction : option ContextCompactionReport;
}.

(** [CONTEXT_MAINTENANCE_LLM_CALL_ORDINAL] of [bt-core/src/prompts.rs] *)
Definition CONTEXT_MAINTENANCE_LLM_CALL_ORDINAL : Z := 0.

(** [format!("{:?}", kind)] *)
Definition related_kind_debug (kind : RelatedSessionMessageKind) : string :=
  match kind with
  | KInstruction => "Instruction" | KQuestion => "Question" | KAnswer => "Answer"
  | KProgress => "Progress" | KResult => "Result" | KError => "Error"
  end.

(** ** The manifest of a request *)

Definition find_source (message_id : MessageId) (sources : list ContextMessageSourceRef)
    : option ContextMessageSourceRef :=
  find_first (fun source => bool_decide (ms_message_id source = message_id)) sources.

(** [ContextManifest::from_completion_request] *)
Definition from_completion_request (turn_id : TurnId) (branch_id : BranchId)
    (llm_call_ordinal : Z) (provider model : string) (settings_revision_id : Z)
    (context_boundary_seq_id : option Z) (request : CompletionRequest) (compacted : bool)
    (message_sources : list ContextMessageSourceRef) : ContextManifest :=
  {| cm_turn_id := turn_id;
     cm_branch_id := branch_id;
     cm_llm_call_ordinal := llm_call_ordinal;
     cm_provider := provider;
     cm_model := model;
     cm_settings_revision_id := settings_revision_id;
     cm_context_boundary_seq_id := context_boundary_seq_id;
     cm_system_prompt :=
       {| sp_present := bool_decide (is_Some (cr_system_prompt request));
          sp_char_count :=
            default 0 ((fun prompt => Z.of_nat (char_count prompt)) <$> cr_system_prompt request) |};
     cm_messages :=
       List.map (fun message =>
         {| mr_message_id := msg_message_id message;
            mr_role := msg_role message;
            mr_source_branch_id :=
              ms_branch_id <$> find_source (msg_message_id message) message_sources;
            mr_source_seq_id := ms_seq_id <$> find_source (msg_message_id message) message_sources;
            mr_part_count := wrap32 (Z.of_nat (List.length (msg_parts message)));
            mr_visible_text_chars :=
              sum_u64 (List.map (fun text => Z.of_nat (char_count text)) (text_parts message)) |})
         (cr_messages request);
     cm_tools :=
       List.map (fun tool =>
         let metadata := ts_metadata tool in
         {| ct_name := ts_name tool;
            ct_risk_class := tm_risk_class metadata;
            ct_is_read_only := tm_is_read_only metadata;
            ct_execution_mode := tm_execution_mode metadata;
            ct_should_defer := tm_should_defer metadata |}) (cr_tools request);
     cm_attachments := [];
     cm_max_tokens := cr_max_tokens request;
     cm_thinking := cr_thinking request;
     cm_compacted := compacted |}.

(** ** Instruction files ([instructions.rs]) *)

Section instructions.
(** The file system ([exists], [fs::read_dir] with the entries that can be
    read and have UTF-8 paths, [fs::read_to_string]) and [camino]. *)
Context (path_exists : string -> bool) (read_dir_paths : string -> Result (list string)).
Context (read_to_string : string -> Result string).
Context (path_join : string -> string -> string) (extension file_stem : string -> option string).

(** [name.strip_suffix(suffix)] *)
Definition strip_suffix (suffix name : string) : option string :=
  if ends_with suffix name
  then Some (String.substring 0 (byte_len name - byte_len suffix) name) else None.

(** The document a file is read as. *)
Definition instruction_document (path : string) : Result InstructionDocument :=
  body ← read_to_string path;
  Ok (MkInstructionDocument path (default "instruction" (file_stem path)) body).

Definition load_markdown_dir (path : string) : Result (list InstructionDocument) :=
  if negb (path_exists path) then Ok [] else
  listed ← read_dir_paths path;
  let entries := List.filter (fun path => bool_decide (extension path = Some "md")) listed in
  try_map instruction_document (merge_sort str_le entries).

Definition load_required_markdown_file (path : string) : Result InstructionDocument :=
  if negb (path_exists path)
  then Err (Config ("required prompt asset `" +:+ path +:+ "` is missing"))
  else instruction_document path.

Record MarkdownInstructionResolver : Type := MkMarkdownInstructionResolver {
  mi_core_prompt : InstructionDocument;
  mi_provider_overlays : gmap string InstructionDocument;
  mi_global_dir : string;
}.

(** The name of a provider's overlay: its file's name without [.md]. *)
Definition overlay_provider (doc : InstructionDocument) : Result (string * InstructionDocument) :=
  let name := default "" (last (split_char "/"%char (id_source doc))) in
  provider ← ok_or (Config ("invalid provider prompt asset source `" +:+ id_source doc +:+ "`"))
               (strip_suffix ".md" name);
  Ok (provider, doc).

(** [MarkdownInstructionResolver::new]: a later overlay replaces an earlier one. *)
Definition new_resolver (global_dir prompts_dir : string) : Result MarkdownInstructionResolver :=
  core_prompt ← load_required_markdown_file (path_join prompts_dir "00-core.md");
  docs ← load_markdown_dir (path_join prompts_dir "provider");
  overlays ← try_map overlay_provider docs;
  Ok (MkMarkdownInstructionResolver core_prompt
        (fold_left (fun acc (p : string * InstructionDocument) => <[p.1 := p.2]> acc) overlays ∅)
        global_dir).

Definition source_le (a b : InstructionDocument) : Prop := str_le (id_source a) (id_source b).
#[local] Instance source_le_dec a b : Decision (source_le a b).
Proof. unfold source_le. apply _. Defined.

(** [resolve]; the sort is stable. *)
Definition resolve (resolver : MarkdownInstructionResolver) (project_root : option string)
    : Result (list InstructionDocument) :=
  global ← load_markdown_dir (mi_global_dir resolver);
  project ← match project_root with
            | Some root => load_markdown_dir (path_join root ".belltower/skills")
            | None => Ok []
            end;
  Ok (merge_sort source_le (global ++ project)).

(** [provider_overlay] *)
Definition provider_overlay (resolver : MarkdownInstructionResolver) (provider_family : string)
    : option InstructionDocument := mi_provider_overlays resolver !! provider_family.
End instructions.

(** ** The messages of a turn *)

(** [load_context_messages_with_related_sessions] keeps these related
    messages of a branch. *)
Definition shown_related (branch_id : BranchId) (record : RelatedSessionMessageRecord) : bool :=
  bool_decide (rd_direction record = Received)
  && (bool_decide (rd_status record = Delivered) || bool_decide (rd_status record = Claimed))
  && bool_decide (rm_destination_branch_id (rd_message record) = branch_id).

Definition seq_or_min (record : ContextMessageRecord) : Z :=
  default (- I64_MAX - 1) (xm_source_seq_id record).
Definition seq_le (a b : ContextMessageRecord) : Prop := seq_or_min a <= seq_or_min b.
#[export] Instance seq_le_dec a b : Decision (seq_le a b).
Proof. unfold seq_le. apply _. Defined.

(** [context_messages.iter().filter_map(source_seq_id).max()] *)
Definition context_boundary (records : list ContextMessageRecord) : option Z :=
  fold_left (fun acc seq_id => Some (match acc with Some m => Z.max m seq_id | None => seq_id end))
    (omap xm_source_seq_id records) None.

(** Where a message comes from, when it is stored. *)
Definition message_source (record : ContextMessageRecord) : option ContextMessageSourceRef :=
  branch_id ← xm_source_branch_id record;
  seq_id ← xm_source_seq_id record;
  Some (MkContextMessageSourceRef (msg_message_id (xm_message record)) branch_id seq_id).

(** The last completion that is not maintenance: its number and its size. *)
Definition observed_completion (event : EventEnvelope) : option (option Z * Z) :=
  match ev_payload event with
  | CompletionFinished ordinal _ _ usage _ _ _ =>
      if ordinal =? CONTEXT_MAINTENANCE_LLM_CALL_ORDINAL then None
      else Some (ev_seq_id event, tu_total_tokens usage)
  | _ => None
  end.

Definition compaction_of (event : EventEnvelope)
    : option (CompactionId * option CompactionId * string) :=
  match ev_payload event with
  | ContextCompacted payload =>
      Some (cc_compaction_id payload, cc_first_compaction_id payload, cc_summary payload)
  | _ => None
  end.

(** [previous_compaction_state], on the branch's compactions, oldest first *)
Definition compaction_chain (compactions : list (CompactionId * option CompactionId * string))
    : option PreviousCompactionState :=
  match compactions with
  | [] => None
  | first :: rest =>
      let last := default first (last rest) in
      Some {| pc_count := u64_add 1 (Z.of_nat (List.length rest));
              pc_last_compaction_id := last.1.1;
              pc_first_compaction_id := default first.1.1 last.1.2;
              pc_summary := last.2 |}
  end.

(** ** The report of a compaction *)

(** [compaction_report_from_context], then the fields
    [prepare_turn_context_for_resolved_settings] fills in. *)
Definition report_payload (compaction_id : CompactionId) (compaction : ContextCompaction)
    (force_compaction : bool) (provider model : string) (boundary : option Z) (latency_ms : Z)
    (previous : option PreviousCompactionState) (branch_id : BranchId)
    (message_sources : list ContextMessageSourceRef) (reason_suffix : option string)
    : ContextCompactedPayload :=
  let source := message_id ← cp_first_kept_message_id compaction;
                find_source message_id message_sources in
  {| cc_compaction_id := compaction_id;
     cc_window_number := Some (u64_add (default 0 (pc_count <$> previous)) 1);
     cc_previous_compaction_id := pc_last_compaction_id <$> previous;
     cc_first_compaction_id := Some (default compaction_id (pc_first_compaction_id <$> previous));
     cc_trigger := cp_trigger compaction;
     cc_phase := if force_compaction then PhaseManual else PhasePreTurn;
     cc_status := CompactionCompleted;
     cc_reason :=
       match reason_suffix with
       | Some suffix => Some match cp_reason compaction with
                             | Some base => base +:+ "; " +:+ suffix
                             | None => suffix
                             end
       | None => cp_reason compaction
       end;
     cc_provider := Some provider;
     cc_model := Some model;
     cc_context_boundary_seq_id := boundary;
     cc_summary_message_id := cp_summary_message_id compaction;
     cc_first_kept_message_id := cp_first_kept_message_id compaction;
     cc_first_kept_branch_id := Some (default branch_id (ms_branch_id <$> source));
     cc_first_kept_seq_id := ms_seq_id <$> source;
     cc_latency_ms := Some latency_ms;
     cc_summary := cp_summary compaction;
     cc_messages_before := cp_messages_before compaction;
     cc_messages_after := cp_messages_after compaction;
     cc_tokens_before := cp_tokens_before compaction;
     cc_tokens_after := cp_tokens_after compaction;
     cc_files_read := cp_files_read compaction;
     cc_files_modified := cp_files_modified compaction |}.

Section context.
Context `{codec : RowCodec} `{entropy : Entropy}.
Context (render_value : Value -> string).
(** [BelltowerConfig::context], the table of context windows, and
    [Instant::elapsed] by the number of readings. *)
Context (config : ContextConfig) (windows : Result (list ContextWindowEntry)).
Context (elapsed_ms : nat -> Z).

Definition rt_elapsed_ms : Rt Z := fun rt => (Ok (elapsed_ms (rt_ticks rt)), tick rt).

(** [ContextAssembler::new] *)
Definition assembler : Result ContextAssembler := MkContextAssembler config <$> windows.

Definition related_message_context_text (message : RelatedSessionMessage) : string :=
  "[related-session message from " +:+ show_uuid (uuid (rm_source_session_id message)) +:+ " ("
    +:+ related_kind_debug (rm_kind message) +:+ ")]" +:+ nl +:+ rm_text message.

(** A related message as the model sees it. *)
Definition related_context_record (branch_id : BranchId) (record : RelatedSessionMessageRecord)
    : ContextMessageRecord :=
  let message := rd_message record in
  {| xm_message := message_text (rm_context_message_id message) (rm_created_at message) RoleUser
                     (related_message_context_text message);
     xm_source_branch_id := Some branch_id;
     xm_source_seq_id := Some (rd_seq_id record) |}.

(** [load_context_messages_with_related_sessions]: one section of the lock. *)
Definition load_context_messages_with_related_sessions (session_id : SessionId)
    (branch_id : BranchId) : Rt (list ContextMessageRecord) :=
  message_id ← fresh_id;
  now ← now_utc;
  records ← read_result (fun db => default (Err (Types.Runtime "branch lineage does not end"))
              (load_context_messages_for_branch message_id now session_id branch_id db));
  related ← read_result (load_related_session_messages session_id);
  mret (merge_sort seq_le
    (records ++ List.map (related_context_record branch_id)
                  (List.filter (shown_related branch_id) related))).

(** [context_message_sources_for_request] *)
Definition context_message_sources_for_request (session_id : SessionId) (branch_id : BranchId)
    (request : CompletionRequest)
    : Rt (option Z * list ContextMessageSourceRef) :=
  records ← load_context_messages_with_related_sessions session_id branch_id;
  mret (context_boundary records,
    omap message_source
      (List.filter (fun record => existsb (fun message =>
         bool_decide (msg_message_id message = msg_message_id (xm_message record)))
         (cr_messages request)) records)).

(** [observed_context_tokens] *)
Definition observed_context_tokens (session_id : SessionId) (branch_id : BranchId)
    (context_messages : list ContextMessageRecord) : Rt (option Z) :=
  finished ← read (load_events_of_kind session_id "completion.finished" (Some branch_id));
  mret match find_map observed_completion (rev finished) with
       | None => None
       | Some (None, base_tokens) => Some base_tokens
       | Some (Some boundary_seq_id, base_tokens) =>
           let appended := List.filter (fun record => match xm_source_seq_id record with
             | Some seq_id => boundary_seq_id <? seq_id
             | None => false
             end) context_messages in
           Some (u64_saturating_add base_tokens
             (sum_u64 (List.map (fun record =>
                estimate_messages_tokens render_value [xm_message record]) appended)))
       end.

(** [previous_compaction_state] *)
Definition previous_compaction_state (session_id : SessionId) (branch_id : BranchId)
    : Rt (option PreviousCompactionState) :=
  events ← read (load_events_of_kind session_id "context.compacted" (Some branch_id));
  mret (compaction_chain (omap compaction_of events)).

(** [plan_turn_context_compaction] *)
Definition plan_turn_context_compaction (session : SessionRecord) (branch : BranchRecord)
    (connection : ConnectionDescriptor) (model_id : string) (system_prompt : option string)
    (force_compaction : bool) : Rt (option TurnContextPlan) :=
  let session_id := se_session_id session in
  let branch_id := br_branch_id branch in
  records ← load_context_messages_with_related_sessions session_id branch_id;
  observed ← observed_context_tokens session_id branch_id records;
  previous ← previous_compaction_state session_id branch_id;
  self ← rt_lift assembler;
  let summarizer_model := default model_id (cx_summarizer_model config) in
  mret (plan ← plan_compaction render_value self (cd_provider connection) model_id
                 summarizer_model system_prompt (List.map xm_message records) force_compaction
                 observed (pc_summary <$> previous);
        Some {| tp_observed_context_tokens := observed;
                tp_summarization :=
                  (fun plan => MkTurnContextSummarizationPlan (pl_summarization_transcript plan)
                     (pl_summary_budget_tokens plan) summarizer_model) <$> plan |}).

(** The report of a build's compaction, recorded as an event. *)
Definition record_report (session_id : SessionId) (branch_id : BranchId)
    (payload : ContextCompactedPayload) (turn_id : option TurnId) : Rt ContextCompactionReport :=
  recorded ← record_context_compacted session_id branch_id payload turn_id;
  mret (MkContextCompactionReport payload (Some recorded.2)).

(** [prepare_turn_context_for_resolved_settings] *)
Definition prepare_turn_context_for_resolved_settings (session : SessionRecord)
    (branch : BranchRecord) (connection : ConnectionDescriptor) (model_id : string)
    (system_prompt : option string) (tools : list ToolSpec) (thinking : option ThinkingConfig)
    (turn_id : option TurnId) (settings_revision_id : Z) (force_compaction : bool)
    (inputs : TurnContextCompactionInputs) : Rt (option PreparedTurnContext) :=
  let session_id := se_session_id session in
  let branch_id := br_branch_id branch in
  records ← load_context_messages_with_related_sessions session_id branch_id;
  observed ← match ci_observed_context_tokens inputs with
             | Compute => observed_context_tokens session_id branch_id records
             | Provided value => mret value
             end;
  previous ← previous_compaction_state session_id branch_id;
  let boundary := context_boundary records in
  let sources := omap message_source records in
  self ← rt_lift assembler;
  summary_id ← fresh_id;
  now ← now_utc;
  let output := build_request_with_options render_value self summary_id now (cd_id connection)
    (cd_provider connection) model_id system_prompt (List.map xm_message records) tools thinking
    {| bo_force_compaction := force_compaction;
       bo_observed_context_tokens := observed;
       bo_previous_summary := pc_summary <$> previous;
       bo_summary_override := ci_summary_override inputs |} in
  match output with
  | None => mret None
  | Some output =>
      latency_ms ← rt_elapsed_ms;
      compaction_id ← fresh_id;
      report ← match bu_compaction output with
        | None => mret None
        | Some compaction =>
            report ← record_report session_id branch_id
              (report_payload compaction_id compaction force_compaction (cd_provider connection)
                 model_id boundary latency_ms previous branch_id sources
                 (ci_reason_suffix inputs)) turn_id;
            mret (Some report)
        end;
      mret (Some {| pt_settings_revision_id := settings_revision_id;
                    pt_connection := connection;
                    pt_model_id := model_id;
                    pt_context_boundary_seq_id := boundary;
                    pt_message_sources := sources;
                    pt_request := bu_request output;
                    pt_compaction := report |})
  end.

(** [prepare_turn_context_with_options], [prepare_turn_context],
    [compact_branch_context] *)
Definition prepare_turn_context_with_options (session : SessionRecord) (branch : BranchRecord)
    (system_prompt : option string) (tools : list ToolSpec) (thinking : option ThinkingConfig)
    (turn_id : option TurnId) (settings_revision_id : Z) (force_compaction : bool)
    : Rt (option PreparedTurnContext) :=
  settings ← resolve_turn_settings (se_session_id session) settings_revision_id;
  prepare_turn_context_for_resolved_settings session branch settings.1 settings.2 system_prompt
    tools thinking turn_id settings_revision_id force_compaction default_compaction_inputs.

Definition prepare_turn_context (session : SessionRecord) (branch : BranchRecord)
    (system_prompt : option string) (tools : list ToolSpec) (thinking : option ThinkingConfig)
    (turn_id : option TurnId) (settings_revision_id : Z) : Rt (option PreparedTurnContext) :=
  prepare_turn_context_with_options session branch system_prompt tools thinking turn_id
    settings_revision_id false.

Definition compact_branch_context (session : SessionRecord) (branch : BranchRecord)
    (system_prompt : option string) (tools : list ToolSpec) (thinking : option ThinkingConfig)
    : Rt (option PreparedTurnContext) :=
  settings_revision_id ← current_settings_revision (se_session_id session);
  prepare_turn_context_with_options session branch system_prompt tools thinking None
    settings_revision_id true.

(** [current_plan] ([inspection.rs]) *)
Definition current_plan (session_id : SessionId) (branch_id : BranchId)
    : Rt (option PlanInspection) :=
  plan ← read_result (load_branch_plan session_id branch_id);
  mret ((fun plan => MkPlanInspection (pp_session_id plan) (pp_branch_id plan) (pp_items plan)
                       (pp_updated_at plan)) <$> plan).
End context.
