(* ===== verification/RuntimeLaws.v ===== *)
(** * The runtime broadcasts the log

    Every method of the runtime leaves the broadcast equal to what was
    appended to the log, in its order: no event is published that was not
    committed, none is left out, also when the method fails half-way.  The
    proof goes through the methods section by section: a transaction that
    commits owes its events to the broadcast ([pays]), and the publications
    that follow it pay exactly those. *)

From stdpp Require Import base list strings gmap relations.
From Stdlib Require Import ZArith Lia.
From S2P Require Import Prelude Text Json Types Messages TurnProjection Approvals Store StoreOps.
From S2P Require Import StoreRelated StoreLaws StoreReplay StoreAdmission StoreMessaging StoreQueries.
From S2P Require Import EventStream.
From S2P Require Import Runtime RuntimeBudget RuntimeRecords RuntimeSessions RuntimeRelated.
From S2P Require Import RuntimeControl RuntimeRecovery ContextPrompt Context RuntimeContext.

#[local] Open Scope Z_scope.

(** ** What a transaction appends *)

Create HintDb quiet.

Section logs.
Context `{codec : RowCodec}.

(** A committed transaction appends rows related to its result by [P]. *)
Definition logs {A} (m : Tx A) (P : A -> list (Z * EventEnvelope) -> Prop) : Prop :=
  forall db a db', m db = Ok (a, db') ->
    exists rows, db_events db' = db_events db ++ rows /\ P a rows.

Lemma logs_weaken {A} (m : Tx A) (P Q : A -> list (Z * EventEnvelope) -> Prop) :
  logs m P -> (forall a rows, P a rows -> Q a rows) -> logs m Q.
Proof. intros H HPQ db a db' (rows & E & HP)%H. eauto. Qed.

Lemma logs_bind {A B} (m : Tx A) (k : A -> Tx B) P Q :
  logs m P -> (forall a rows, P a rows -> logs (k a) (fun b rows' => Q b (rows ++ rows'))) ->
  logs (m ≫= k) Q.
Proof.
  intros Hm Hk db b db' (a & db1 & (rows & E1 & HP)%Hm & (rows' & E2 & HQ)%(Hk a rows HP))%tx_bind_Ok.
  exists (rows ++ rows'). by rewrite E2, E1, (assoc_L (++)).
Qed.

(** Statements that append nothing. *)
Definition quiet {A} (m : Tx A) : Prop := logs m (fun _ rows => rows = []).

Lemma logs_quiet {A B} (m : Tx A) (k : A -> Tx B) Q :
  quiet m -> (forall a, logs (k a) Q) -> logs (m ≫= k) Q.
Proof. intros Hm Hk. apply (logs_bind _ _ _ _ Hm). intros a rows ->. apply Hk. Qed.

Lemma quiet_tx_bind {A B} (m : Tx A) (k : A -> Tx B) :
  quiet m -> (forall a, quiet (k a)) -> quiet (m ≫= k).
Proof. intros Hm Hk. by apply logs_quiet. Qed.

Lemma quiet_same {A} (m : Tx A) : keeps (fun db db' => db_events db' = db_events db) m -> quiet m.
Proof. intros H db a db' E%H. exists []. by rewrite app_nil_r. Qed.

Lemma quiet_structural {A} (m : Tx A) : keeps structural m -> quiet m.
Proof. intros H. apply quiet_same. intros db a db' E%H. by apply st_events. Qed.

Lemma quiet_treewise {A} (m : Tx A) : keeps treewise m -> quiet m.
Proof. intros H. apply quiet_structural. by intros db a db' [E _]%H. Qed.

Lemma quiet_lift {A} (r : Result A) : quiet (tx_lift r).
Proof. apply quiet_same. by intros db a db' [_ ->]%tx_lift_Ok. Qed.
Lemma quiet_tx_ret {A} (a : A) : quiet (mret a).
Proof. apply quiet_same. by intros db a' db' [_ ->]%tx_ret_Ok. Qed.
Lemma quiet_get : quiet tx_get.
Proof. apply quiet_same. by intros db a db' [_ ->]%tx_get_Ok. Qed.
Lemma quiet_query {A} (f : Db -> A) : quiet (query f).
Proof. apply quiet_same. by intros db a db' [_ ->]%query_Ok. Qed.
Lemma quiet_query_result {A} (f : Db -> Result A) : quiet (query_result f).
Proof. apply quiet_same. intros db a db' H. unfold query_result in H. by invert_tx. Qed.
Lemma quiet_owner s b t : quiet (ensure_active_turn_owner_in_tx s b t).
Proof.
  apply quiet_same. intros db a db' H. unfold ensure_active_turn_owner_in_tx in H. by invert_tx.
Qed.
Lemma quiet_chunk_owner s b t : quiet (ensure_chunk_owner s b t).
Proof.
  unfold ensure_chunk_owner. destruct t; [apply quiet_owner|].
  apply quiet_same. by intros db a db' [_ ->]%tx_ret_Ok.
Qed.
Lemma quiet_exhausted s : quiet (session_budget_exhausted_in_tx s).
Proof.
  apply quiet_same. unfold session_budget_exhausted_in_tx. intros db a db' H. invert_tx.
  repeat (case_match; invert_tx); done.
Qed.
Lemma quiet_insert_chunk n s b t o e p x c : quiet (insert_raw_chunk n s b t o e p x c).
Proof. apply quiet_structural, insert_chunk_structural. Qed.
Lemma quiet_link c event : quiet (link_raw_chunk c event).
Proof. apply quiet_structural, link_chunk_structural. Qed.
Lemma quiet_session session : quiet (insert_session_in_tx session).
Proof. apply quiet_structural, insert_session_structural. Qed.
Lemma quiet_settings session : quiet (insert_session_settings_revision_in_tx session).
Proof. apply quiet_structural, insert_settings_structural. Qed.
Lemma quiet_branch branch : quiet (insert_branch_in_tx branch).
Proof. apply quiet_structural, insert_branch_structural. Qed.
Lemma quiet_default s b : quiet (set_default_branch_in_tx s b).
Proof. apply quiet_structural, set_default_structural. Qed.
Lemma quiet_parent n s p b t : quiet (set_session_parent n s p b t).
Proof. apply quiet_structural, set_parent_structural. Qed.

Lemma logs_ret {A} (a : A) (P : A -> list (Z * EventEnvelope) -> Prop) : P a [] -> logs (mret a) P.
Proof. intros HP db b db' [-> ->]%tx_ret_Ok. exists []. by rewrite app_nil_r. Qed.

Lemma logs_ret_bind {A B} (a : A) (k : A -> Tx B) Q : logs (k a) Q -> logs (mret a ≫= k) Q.
Proof.
  intros Hk db b db' (a' & db1 & [-> ->]%tx_ret_Ok & H)%tx_bind_Ok. by apply Hk.
Qed.

Lemma logs_fail {A} e (P : A -> list (Z * EventEnvelope) -> Prop) : logs (tx_fail e) P.
Proof. by intros db a db' H%tx_fail_Ok. Qed.

Lemma logs_append event : logs (append_event_in_tx event) (fun q rows => rows = [(q, event)]).
Proof. intros db q db' (_ & _ & E & _)%append_log. eauto. Qed.

Lemma logs_append_many events :
  logs (append_events_in_tx events)
    (fun qs rows => rows = zip qs events /\ length qs = length events).
Proof.
  induction events as [|event events IH]; intros db qs db' H.
  - apply append_events_nil in H as [-> ->]. exists []. by rewrite app_nil_r.
  - apply append_events_cons in H as (q & db1 & qs' & H1 & H2 & ->).
    apply logs_append in H1 as (rows & E1 & ->). apply IH in H2 as (rows & E2 & -> & Hl).
    exists ((q, event) :: zip qs' events). rewrite E2, E1, <- (assoc_L (++)). simpl. auto.
Qed.
End logs.

#[export] Hint Resolve quiet_tx_bind quiet_tx_ret quiet_lift quiet_get quiet_query quiet_query_result quiet_owner
  quiet_chunk_owner quiet_exhausted quiet_insert_chunk quiet_link quiet_session quiet_settings
  quiet_branch quiet_default quiet_parent : quiet.

(** Takes a [logs] goal apart by the shape of the transaction. *)
Ltac logs_step :=
  match goal with
  | |- logs (append_event_in_tx _ ≫= _) _ =>
      eapply logs_bind; [apply logs_append|intros ? ? ->]
  | |- logs (append_events_in_tx _ ≫= _) _ =>
      eapply logs_bind; [apply logs_append_many|intros ? ? [-> ?]]
  | |- logs (append_events_in_tx _) _ =>
      eapply logs_weaken; [apply logs_append_many|intros ? ? [-> ?]]
  | |- logs (append_event_in_tx _) _ => eapply logs_weaken; [apply logs_append|intros ? ? ->]
  | |- logs (mret _ ≫= _) _ => apply logs_ret_bind
  | |- logs (_ ≫= _) _ => apply logs_quiet; [by eauto with quiet|intros ?]
  | |- logs ((match ?x with _ => _ end) ≫= _) _ => destruct x eqn:?
  | |- logs ((if ?b then _ else _) ≫= _) _ => destruct b eqn:?
  | |- logs (mret _) _ => apply logs_ret
  | |- logs (if ?b then _ else _) _ => destruct b eqn:?
  | |- logs (match ?x with _ => _ end) _ => destruct x eqn:?
  | |- logs (let _ := _ in _) _ => cbv zeta
  end.

(** ** Debts to the broadcast *)

Section pays.
Context `{codec : RowCodec}.

(** From [rt0] on, the store ran the calls of a runtime, and the broadcast
    lacks exactly [owed]. *)
Definition owing (rt0 : Runtime) (owed : list EventEnvelope) (rt : Runtime) : Prop :=
  (exists ops, Forall (fun op => by_runtime op = true) ops
     /\ rt_store rt = run_ops ops (rt_store rt0))
  /\ rt_bus rt ++ owed = rt_bus rt0 ++ appended (rt_store rt0) (rt_store rt).

(** A method that publishes what is owed, and all that it commits. *)
Definition pays (owed : list EventEnvelope) {A} (m : Rt A) : Prop :=
  forall rt0 rt, owing rt0 owed rt -> owing rt0 [] (m rt).2.

Lemma owing_start rt : owing rt [] rt.
Proof.
  split; [by exists []|]. unfold appended. by rewrite drop_all.
Qed.

Lemma pays_ret {A} (a : A) : pays [] (mret a).
Proof. by intros rt0 rt H. Qed.

Lemma pays_ret_bind {A B} owed (a : A) (k : A -> Rt B) : pays owed (k a) -> pays owed (mret a ≫= k).
Proof. intros Hk rt0 rt H. by apply Hk. Qed.

Lemma pays_bind {A B} owed (m : Rt A) (k : A -> Rt B) :
  pays owed m -> (forall a, pays [] (k a)) -> pays owed (m ≫= k).
Proof.
  intros Hm Hk rt0 rt H%Hm. unfold mbind, rt_bind. destruct (m rt) as [[a|e] rt']; [|done].
  by apply Hk.
Qed.

Lemma pays_assoc {A B C} owed (m : Rt A) (k : A -> Rt B) (h : B -> Rt C) :
  pays owed (m ≫= (fun a => k a ≫= h)) -> pays owed ((m ≫= k) ≫= h).
Proof.
  intros Hm rt0 rt H%Hm. revert H. unfold mbind, rt_bind. by destruct (m rt) as [[a|e] rt'].
Qed.

Lemma pays_last {A} owed (m : Rt A) : pays owed (m ≫= mret) -> pays owed m.
Proof.
  intros Hm rt0 rt H%Hm. revert H. unfold mbind, rt_bind. by destruct (m rt) as [[a|e] rt'].
Qed.

(** A section that touches neither the store nor the broadcast. *)
Definition aside {A} (m : Rt A) : Prop :=
  forall rt, rt_store (m rt).2 = rt_store rt /\ rt_bus (m rt).2 = rt_bus rt.

Lemma pays_aside {A} (m : Rt A) : aside m -> pays [] m.
Proof. intros Hm rt0 rt [Hops Hbus]. destruct (Hm rt) as [E1 E2]. split; by rewrite ?E1, ?E2. Qed.

Lemma pays_aside_bind {A B} owed (m : Rt A) (k : A -> Rt B) :
  aside m -> (forall rt, exists a, (m rt).1 = Ok a) -> (forall a, pays owed (k a)) ->
  pays owed (m ≫= k).
Proof.
  intros Hm Hok Hk rt0 rt [Hops Hbus]. unfold mbind, rt_bind. destruct (Hm rt) as [E1 E2].
  destruct (Hok rt) as [a Ha]. destruct (m rt) as [r rt']; simpl in *. subst r.
  apply Hk. split; by rewrite ?E1, ?E2.
Qed.

Lemma pays_publish event q owed : forall B (k : unit -> Rt B),
  pays owed (k tt) ->
  pays (stored (q, event) :: owed) (publish_committed_event event q ≫= k).
Proof.
  intros B k Hk rt0 rt [Hops Hbus]. apply Hk. split; [done|]. simpl. rewrite <- Hbus.
  by rewrite <- (assoc_L (++)).
Qed.

Lemma publish_all_eq events qs rt :
  publish_all events qs rt = (Ok tt, set_bus (rt_bus rt ++ map stored (zip qs events)) rt).
Proof.
  unfold publish_all. revert qs rt. induction events as [|event events IH]; intros qs rt.
  - replace (zip qs []) with (@nil (Z * EventEnvelope)) by (by destruct qs). simpl.
    rewrite app_nil_r. by destruct rt.
  - destruct qs as [|q qs]; simpl; [rewrite app_nil_r; by destruct rt|].
    unfold mbind, rt_bind, publish_committed_event, rt_modify. rewrite IH. destruct rt; simpl.
    by rewrite <- (assoc_L (++)).
Qed.

Lemma pays_publish_all events qs owed : forall B (k : unit -> Rt B),
  pays owed (k tt) ->
  pays (map stored (zip qs events) ++ owed) (publish_all events qs ≫= k).
Proof.
  intros B k Hk rt0 rt [Hops Hbus]. unfold mbind, rt_bind. rewrite publish_all_eq.
  apply Hk. split; [done|]. simpl. by rewrite <- Hbus, <- (assoc_L (++)).
Qed.

Lemma pays_publish_all_last events qs :
  pays (map stored (zip qs events)) (publish_all events qs).
Proof.
  intros rt0 rt [Hops Hbus]. rewrite publish_all_eq. split; [done|]. simpl.
  by rewrite app_nil_r, Hbus.
Qed.

Lemma pays_publish_last event q :
  pays [stored (q, event)] (publish_committed_event event q).
Proof. intros rt0 rt [Hops Hbus]. split; [done|]. simpl. by rewrite app_nil_r. Qed.

Lemma appended_more (db db' db'' : Db) rows :
  db_events db `prefix_of` db_events db' -> db_events db'' = db_events db' ++ rows ->
  appended db db'' = appended db db' ++ map stored rows.
Proof.
  intros [log E] E'. unfold appended. rewrite E', E, <- (assoc_L (++)), !drop_app_length.
  by rewrite map_app.
Qed.

Lemma run_ops_log ops db : db_events db `prefix_of` db_events (run_ops ops db).
Proof.
  revert db. induction ops as [|op ops IH]; intros db; [done|].
  etrans; [apply (run_op_log op)|apply IH].
Qed.

(** A transaction that is the call [op] and commits owes what it appends. *)
Lemma owing_commit {A} (op : StoreOp) (body : Tx A) rt0 rt a db' rows :
  by_runtime op = true -> (forall db, run_op op db = (transaction body db).2) ->
  owing rt0 [] rt -> transaction body (rt_store rt) = (Ok a, db') ->
  db_events db' = db_events (rt_store rt) ++ rows ->
  owing rt0 (map stored rows) (set_store db' rt).
Proof.
  intros Hrt Hop [(ops & Hops & Hst) Hbus] E Hrows. specialize (Hop (rt_store rt)).
  rewrite E in Hop. rewrite app_nil_r in Hbus. split; simpl.
  - exists (ops ++ [op]). split; [by apply Forall_app; auto|].
    unfold run_ops. rewrite fold_left_app. simpl. fold (run_ops ops (rt_store rt0)).
    by rewrite <- Hst, Hop.
  - assert (db_events (rt_store rt0) `prefix_of` db_events (rt_store rt)) as Hpre
      by (rewrite Hst; apply run_ops_log).
    by rewrite (appended_more _ _ _ _ Hpre Hrows), (assoc_L (++)), <- Hbus.
Qed.

(** One that fails changes nothing. *)
Lemma commit_failed {A} (body : Tx A) rt e db' :
  transaction body (rt_store rt) = (Err e, db') -> set_store db' rt = rt.
Proof. intros ->%transaction_Err. by destruct rt. Qed.

Lemma pays_commit {A B} (op : StoreOp) (body : Tx A) (k : A -> Rt B) P :
  by_runtime op = true -> (forall db, run_op op db = (transaction body db).2) ->
  logs body P -> (forall a rows, P a rows -> pays (map stored rows) (k a)) ->
  pays [] (commit (transaction body) ≫= k).
Proof.
  intros Hrt Hop Hlogs Hk rt0 rt Ho. unfold mbind, rt_bind, commit.
  destruct (transaction body (rt_store rt)) as [[a|e] db'] eqn:E.
  - apply (transaction_Ok) in E as HE. apply Hlogs in HE as (rows & Hrows & HP).
    apply (Hk a rows HP). by eapply owing_commit.
  - by rewrite (commit_failed _ _ _ _ E).
Qed.

(** The same where nothing is appended. *)
Lemma pays_commit_quiet {A B} (op : StoreOp) (body : Tx A) (k : A -> Rt B) :
  by_runtime op = true -> (forall db, run_op op db = (transaction body db).2) ->
  quiet body -> (forall a, pays [] (k a)) -> pays [] (commit (transaction body) ≫= k).
Proof. intros H1 H2 H3 Hk. eapply (pays_commit op); [done|done|exact H3|]. by intros a rows ->. Qed.
End pays.

(** ** The transactions of the runtime *)

Section commits.
Context `{codec : RowCodec} {B : Type}.
Implicit Types (event : EventEnvelope) (events : list EventEnvelope).

Lemma pays_append event (k : Z -> Rt B) :
  (forall q, pays [stored (q, event)] (k q)) -> pays [] (commit (append_event event) ≫= k).
Proof.
  intros Hk. apply (pays_commit (OpAppend event) _ _ _ eq_refl (fun _ => eq_refl)
    (logs_append event)). intros q rows ->. apply Hk.
Qed.

(** What a batch owes: its events under the returned numbers. *)
Definition batch (events : list EventEnvelope) (seq_ids : list Z)
    (rows : list (Z * EventEnvelope)) : Prop :=
  rows = zip seq_ids events /\ length seq_ids = length events.

Lemma pays_batch (op : StoreOp) events (body : Tx (list Z)) (k : list Z -> Rt B) :
  by_runtime op = true -> (forall db, run_op op db = (transaction body db).2) ->
  logs body (batch events) ->
  (forall qs, length qs = length events -> pays (map stored (zip qs events)) (k qs)) ->
  pays [] (commit (transaction body) ≫= k).
Proof.
  intros H1 H2 H3 Hk. apply (pays_commit op _ _ _ H1 H2 H3). intros qs rows [-> Hl]. by apply Hk.
Qed.

Lemma pays_append_many events (k : list Z -> Rt B) :
  (forall qs, length qs = length events -> pays (map stored (zip qs events)) (k qs)) ->
  pays [] (commit (append_events events) ≫= k).
Proof.
  apply (pays_batch (OpAppendMany events) events (append_events_in_tx events)); try done.
  apply logs_append_many.
Qed.

Lemma pays_active_turn s b t events (k : list Z -> Rt B) :
  (forall qs, length qs = length events -> pays (map stored (zip qs events)) (k qs)) ->
  pays [] (commit (commit_active_turn_events s b t events) ≫= k).
Proof.
  apply (pays_batch (OpActiveTurnEvents s b t events) events); try done.
  repeat logs_step. done.
Qed.

Lemma pays_turn_terminal s b t events (k : list Z -> Rt B) :
  (forall qs, length qs = length events -> pays (map stored (zip qs events)) (k qs)) ->
  pays [] (commit (commit_turn_terminal_transition s b t events) ≫= k).
Proof.
  apply (pays_batch (OpTurnTerminal s b t events) events); try done.
  repeat logs_step. done.
Qed.

Lemma pays_spawn c b e1 e2 e3 e4 m (k : list Z -> Rt B) :
  let events := [e1; e2; e3; e4]
    ++ match m with None => [] | Some (sent, received) => [sent; received] end in
  (forall qs, length qs = length events -> pays (map stored (zip qs events)) (k qs)) ->
  pays [] (commit (commit_child_session_spawn_transition c b e1 e2 e3 e4 m) ≫= k).
Proof.
  intros events. apply (pays_batch (OpSpawnChild c b e1 e2 e3 e4 m) events); try done.
  repeat logs_step; done.
Qed.

(** A claim owes its events exactly when it is granted. *)
Definition claimed (events : list EventEnvelope) (claim : ContinuationClaim)
    (rows : list (Z * EventEnvelope)) : Prop :=
  match claim with
  | ClaimClaimed qs => rows = zip qs events /\ length qs = length events
  | _ => rows = []
  end.

Lemma pays_claim (op : StoreOp) events (body : Tx ContinuationClaim)
    (k : ContinuationClaim -> Rt B) :
  by_runtime op = true -> (forall db, run_op op db = (transaction body db).2) ->
  logs body (claimed events) ->
  (forall qs, length qs = length events ->
     pays (map stored (zip qs events)) (k (ClaimClaimed qs))) ->
  pays [] (k ClaimBusy) -> pays [] (k ClaimBudgetExhausted) -> pays [] (k ClaimCancelPending) ->
  pays [] (k ClaimStale) -> pays [] (commit (transaction body) ≫= k).
Proof.
  intros H1 H2 H3 Hk H4 H5 H6 H7. apply (pays_commit op _ _ _ H1 H2 H3).
  intros [qs| | | |] rows H; simpl in H; [destruct H as [-> Hl]; by apply Hk|by subst..].
Qed.

Context (events : list EventEnvelope) (k : ContinuationClaim -> Rt B).
Context (granted : forall qs, length qs = length events ->
           pays (map stored (zip qs events)) (k (ClaimClaimed qs))).
Context (busy : pays [] (k ClaimBusy)) (exhausted : pays [] (k ClaimBudgetExhausted)).
Context (cancelled : pays [] (k ClaimCancelPending)) (stale : pays [] (k ClaimStale)).

Ltac claim op :=
  intros; eapply (pays_claim op events); [done|done| |by auto..]; repeat logs_step;
  by rewrite ?app_nil_r.

Lemma pays_claim_queued s q : pays [] (commit (claim_queued_continuation s q events) ≫= k).
Proof. claim (OpClaimQueued s q events). Qed.

Lemma pays_claim_steer s b ids : pays [] (commit (claim_steer_continuation s b ids events) ≫= k).
Proof. claim (OpClaimSteer s b ids events). Qed.

Lemma pays_claim_resumed s b c n t q r kind :
  pays [] (commit (claim_resumed_continuation s b c n t q r kind events) ≫= k).
Proof. claim (OpClaimResumed s b c n t q r kind events). Qed.

Lemma pays_claim_related s m r :
  pays [] (commit (claim_related_message_continuation s m r events) ≫= k).
Proof. claim (OpClaimRelated s m r events). Qed.

Lemma pays_claim_related_active s b t ids :
  pays [] (commit (claim_related_messages_for_active_turn s b t ids events) ≫= k).
Proof. claim (OpClaimRelatedActive s b t ids events). Qed.
End commits.

Section more_commits.
Context `{codec : RowCodec} {B : Type}.

(** The optional cancellation of an exhausted budget. *)
Definition cancelled_row (cancellation : EventEnvelope) (q : option Z)
    : list (Z * EventEnvelope) :=
  option_list ((fun q => (q, cancellation)) <$> q).

Lemma logs_cancel_if b cancellation :
  logs (cancel_if b cancellation) (fun q rows => rows = cancelled_row cancellation q).
Proof. unfold cancel_if. repeat logs_step; done. Qed.

Lemma pays_budget_terminal checkpoint cancellation events (k : CommittedBudgetCheckpoint -> Rt B) :
  (forall c, length (cbc_terminal_seq_ids c) = length events ->
     pays (stored (cbc_checkpoint_seq_id c, checkpoint)
           :: map stored (cancelled_row cancellation (cbc_cancellation_seq_id c))
           ++ map stored (zip (cbc_terminal_seq_ids c) events)) (k c)) ->
  pays [] (commit (commit_budget_terminal_transition checkpoint cancellation events) ≫= k).
Proof.
  intros Hk. unfold commit_budget_terminal_transition, commit_budget_checkpoint_transition.
  eapply (pays_commit (OpBudgetCheckpoint checkpoint cancellation events true) _ _
    (fun c rows => rows = (cbc_checkpoint_seq_id c, checkpoint)
       :: cancelled_row cancellation (cbc_cancellation_seq_id c)
       ++ zip (cbc_terminal_seq_ids c) events
     /\ length (cbc_terminal_seq_ids c) = length events)); [done|done| |].
  - repeat logs_step. eapply logs_bind; [apply logs_cancel_if|intros q rows ->].
    repeat logs_step. by rewrite app_nil_r.
  - intros c rows [-> Hl]. rewrite map_cons, map_app. by apply Hk.
Qed.

Lemma pays_budget_configuration configuration cancellation
    (k : CommittedBudgetConfiguration -> Rt B) :
  (forall c, pays (stored (cbg_configuration_seq_id c, configuration)
           :: map stored (cancelled_row cancellation (cbg_cancellation_seq_id c))) (k c)) ->
  pays [] (commit (commit_budget_configuration configuration cancellation) ≫= k).
Proof.
  intros Hk. eapply (pays_commit (OpBudgetConfiguration configuration cancellation) _ _
    (fun c rows => rows = (cbg_configuration_seq_id c, configuration)
       :: cancelled_row cancellation (cbg_cancellation_seq_id c))); [done|done| |].
  - repeat logs_step. eapply logs_bind; [apply logs_cancel_if|intros q rows ->].
    repeat logs_step. by rewrite app_nil_r.
  - intros c rows ->. apply Hk.
Qed.

(** An admission owes the started events, after the cancellation's clearing
    if it returns one number more, or the queued ones. *)
Definition admitted_events (cancel_clear_event : EventEnvelope)
    (started_events queued_events : list EventEnvelope) (outcome : SessionTurnAdmission)
    : list (Z * EventEnvelope) :=
  match outcome with
  | AdmissionStarted seq_ids =>
      zip seq_ids ((if Nat.eqb (length seq_ids) (length started_events + 1)
                    then [cancel_clear_event] else []) ++ started_events)
  | AdmissionQueued seq_ids _ => zip seq_ids queued_events
  | _ => []
  end.

Lemma pays_admit s r clear started queued (k : SessionTurnAdmission -> Rt B) :
  (forall outcome, pays (map stored (admitted_events clear started queued outcome)) (k outcome)) ->
  pays [] (commit (admit_turn_or_queue s r clear started queued) ≫= k).
Proof.
  intros Hk. eapply (pays_commit (OpAdmit s r clear started queued) _ _
    (fun outcome rows => rows = admitted_events clear started queued outcome)); [done|done| |].
  - repeat logs_step; try done; [by rewrite app_nil_r| |].
    + apply (logs_bind _ _ (fun qs rows => exists q, qs = [q] /\ rows = [(q, clear)]));
        [repeat logs_step; eauto|intros ? ? (q & -> & ->)].
      repeat logs_step. match goal with Hl : length ?qs = _ |- _ => rename qs into qs end.
      cbn [app length admitted_events]. rewrite (proj2 (Nat.eqb_eq _ _)) by lia. simpl.
      by rewrite app_nil_r.
    + match goal with Hl : length ?qs = _ |- _ => rename qs into qs end.
      cbn [app length admitted_events]. rewrite (proj2 (Nat.eqb_neq _ _)) by lia.
      by rewrite app_nil_r.
  - intros outcome rows ->. apply Hk.
Qed.

Lemma pays_settings_update e x n s b c m t (k : SessionRecord * EventEnvelope * Z -> Rt B) :
  (forall r, pays [stored (r.2, r.1.2)] (k r)) ->
  pays [] (commit (commit_session_settings_update e x n s b c m t) ≫= k).
Proof.
  intros Hk. eapply (pays_commit (OpSettingsUpdate e x n s b c m t) _ _
    (fun r rows => rows = [(r.2, r.1.2)])); [done|done| |].
  - repeat logs_step. done.
  - intros r rows ->. apply Hk.
Qed.

Lemma pays_default_with_event s b event (k : Z -> Rt B) :
  (forall q, pays [stored (q, event)] (k q)) ->
  pays [] (commit (set_default_branch_with_event s b event) ≫= k).
Proof.
  intros Hk. eapply (pays_commit (OpSetDefaultBranchWithEvent s b event) _ _
    (fun q rows => rows = [(q, event)])); [done|done| |].
  - repeat logs_step. done.
  - intros q rows ->. apply Hk.
Qed.

Lemma pays_raw_chunk n s b t o p x c f (k : Z * EventEnvelope * Z -> Rt B) :
  (forall r, pays [stored (r.2, r.1.2)] (k r)) ->
  pays [] (commit (append_raw_chunk_with_event n s b t o p x c f) ≫= k).
Proof.
  intros Hk. eapply (pays_commit (OpRawChunkWithEvent n s b t o p x c f) _ _
    (fun r rows => rows = [(r.2, r.1.2)])); [done|done| |].
  - repeat logs_step. done.
  - intros r rows ->. apply Hk.
Qed.

Lemma pays_live_chunk n s b t o p x c f g (k : option Z * list EventEnvelope -> Rt B) :
  (forall r, pays r.2 (k r)) ->
  pays [] (commit (append_live_completion_chunk n s b t o p x c f g) ≫= k).
Proof.
  intros Hk. eapply (pays_commit (OpLiveChunk n s b t o p x c f g) _ _
    (fun r rows => r.2 = map stored rows)); [done|done| |].
  - apply logs_quiet; [auto with quiet|intros _].
    apply (logs_bind _ _ (fun (raw : option Z * list EventEnvelope) rows => raw.2 = map stored rows)).
    + repeat logs_step; done.
    + intros raw rows E. repeat logs_step. simpl. by rewrite E, map_app.
  - intros r rows <-. apply Hk.
Qed.

(** A settlement owes its three events when it is the first one. *)
Lemma pays_settle o sent received settled (k : RelatedSessionSettlementReceipt -> Rt B) :
  (forall c, pays (if ss_newly_committed c
                   then [stored (rt_sent_seq_id (ss_reply c), sent);
                         stored (rt_received_seq_id (ss_reply c), received);
                         stored (rs_settlement_seq_id (ss_settlement c), settled)] else [])
               (k c)) ->
  pays [] (commit (settle_related_session_message o sent received settled) ≫= k).
Proof.
  intros Hk. eapply (pays_commit (OpSettleRelated o sent received settled) _ _
    (fun c rows => rows = if ss_newly_committed c
                   then [(rt_sent_seq_id (ss_reply c), sent);
                         (rt_received_seq_id (ss_reply c), received);
                         (rs_settlement_seq_id (ss_settlement c), settled)] else []));
    [done|done| |].
  - repeat logs_step; done.
  - intros c rows ->. specialize (Hk c). by destruct (ss_newly_committed c).
Qed.

Lemma pays_create_session session branch (k : unit -> Rt B) :
  pays [] (k tt) -> pays [] (commit (create_session session branch) ≫= k).
Proof.
  intros Hk. eapply (pays_commit_quiet (OpCreateSession session branch)); [done|done| |by intros []].
  eauto with quiet.
Qed.

Lemma pays_create_branch branch (k : unit -> Rt B) :
  pays [] (k tt) -> pays [] (commit (create_branch branch) ≫= k).
Proof.
  intros Hk. eapply (pays_commit_quiet (OpCreateBranch branch)); [done|done| |by intros []].
  eauto with quiet.
Qed.

Lemma pays_update_parent n s p b t (k : unit -> Rt B) :
  pays [] (k tt) -> pays [] (commit (update_session_parent n s p b t) ≫= k).
Proof.
  intros Hk. eapply (pays_commit_quiet (OpUpdateParent n s p b t)); [done|done| |by intros []].
  auto with quiet.
Qed.

Lemma pays_set_default s b (k : unit -> Rt B) :
  pays [] (k tt) -> pays [] (commit (set_default_branch s b) ≫= k).
Proof.
  intros Hk. eapply (pays_commit_quiet (OpSetDefaultBranch s b)); [done|done| |by intros []].
  eauto with quiet.
Qed.
End more_commits.

(** ** The methods *)

Create HintDb pays.

(** Takes a [pays] goal apart by the shape of the method. *)
Ltac pays_step :=
  match goal with
  | |- pays _ (mret _) => apply pays_ret
  | |- pays _ (let '(_, _) := ?x in _) => destruct x; simpl
  | |- pays _ (match ?x with _ => _ end) => destruct x eqn:?; simpl
  | |- pays _ (if ?b then _ else _) => destruct b eqn:?; simpl
  | |- pays _ (let _ := _ in _) => cbv zeta
  | |- pays [] (commit (append_event _) ≫= _) => apply pays_append; intros ?
  | |- pays [] (commit (append_events _) ≫= _) => apply pays_append_many; intros ? ?
  | |- pays [] (commit (commit_active_turn_events _ _ _ _) ≫= _) =>
      apply pays_active_turn; intros ? ?
  | |- pays [] (commit (commit_turn_terminal_transition _ _ _ _) ≫= _) =>
      apply pays_turn_terminal; intros ? ?
  | |- pays [] (commit (claim_queued_continuation _ _ _) ≫= _) =>
      apply pays_claim_queued; intros; cbn [publish_claim]
  | |- pays [] (commit (claim_steer_continuation _ _ _ _) ≫= _) =>
      apply pays_claim_steer; intros; cbn [publish_claim]
  | |- pays [] (commit (claim_resumed_continuation _ _ _ _ _ _ _ _ _) ≫= _) =>
      apply pays_claim_resumed; intros; cbn [publish_claim]
  | |- pays [] (commit (claim_related_message_continuation _ _ _ _) ≫= _) =>
      apply pays_claim_related; intros
  | |- pays [] (commit (claim_related_messages_for_active_turn _ _ _ _ _) ≫= _) =>
      apply pays_claim_related_active; intros
  | |- pays [] (commit (commit_session_settings_update _ _ _ _ _ _ _ _) ≫= _) =>
      apply pays_settings_update; intros [[? ?] ?]; simpl
  | |- pays [] (commit (append_raw_chunk_with_event _ _ _ _ _ _ _ _ _) ≫= _) =>
      apply pays_raw_chunk; intros [[? ?] ?]; simpl
  | |- pays [] (commit (set_default_branch_with_event _ _ _) ≫= _) =>
      apply pays_default_with_event; intros ?
  | |- pays [] (commit (create_session _ _) ≫= _) => apply pays_create_session
  | |- pays [] (commit (create_branch _) ≫= _) => apply pays_create_branch
  | |- pays [] (commit (update_session_parent _ _ _ _ _) ≫= _) => apply pays_update_parent
  | |- pays _ (publish_committed_event _ _ ≫= _) => apply pays_publish
  | |- pays _ (publish_committed_event _ _) => apply pays_publish_last
  | |- pays (map stored (zip ?qs ?es)) (publish_all ?es ?qs ≫= _) =>
      rewrite <- (app_nil_r (map stored (zip qs es))); apply pays_publish_all
  | |- pays _ (publish_all _ _) => apply pays_publish_all_last
  | |- pays [] (?m ≫= _) =>
      lazymatch m with commit _ => fail | _ => apply pays_bind; [|intros ?; simpl] end
  | |- pays [] _ => by eauto with pays
  end.

Ltac pays := repeat pays_step.

Section methods.
Context `{codec : RowCodec} `{entropy : Entropy}.

Lemma pays_read {A} (f : Db -> A) : pays [] (read f).
Proof. by apply pays_aside. Qed.
Lemma pays_read_result {A} (f : Db -> Result A) : pays [] (read_result f).
Proof. by apply pays_aside. Qed.
Lemma pays_lift {A} (r : Result A) : pays [] (rt_lift r).
Proof. by apply pays_aside. Qed.
Lemma pays_fail {A} e : pays [] (rt_fail e : Rt A).
Proof. by apply pays_aside. Qed.
Lemma pays_fresh_id {tag} : pays [] (fresh_id : Rt (UuidId tag)).
Proof. by apply pays_aside. Qed.
Lemma pays_now : pays [] now_utc.
Proof. by apply pays_aside. Qed.
Lemma pays_state {A} (f : Runtime -> A) : pays [] (fun rt => (Ok (f rt), rt)).
Proof. by apply pays_aside. Qed.
Lemma pays_signals f : pays [] (rt_modify (fun rt => set_signals (f rt) rt)).
Proof. by apply pays_aside. Qed.
Lemma pays_active f : pays [] (rt_modify (fun rt => set_active (f rt) rt)).
Proof. by apply pays_aside. Qed.
Lemma pays_keep_approval f : pays [] (keep_approval f).
Proof. apply pays_aside. intros rt. unfold keep_approval. by case_match. Qed.
Lemma pays_cancel_signal signal : pays [] (cancel_signal signal).
Proof. apply pays_signals. Qed.
End methods.

#[export] Hint Resolve pays_ret pays_read pays_read_result pays_lift pays_fail pays_fresh_id
  pays_now pays_state pays_signals pays_active pays_keep_approval pays_cancel_signal : pays.

(** A method's law: open it and take it apart. *)
Tactic Notation "pays_method" reference(m) := intros; unfold m; pays.

Section runtime_methods.
Context `{codec : RowCodec} `{entropy : Entropy}.

Lemma pays_new_event s b k p : pays [] (new_event s b k p).
Proof. pays_method new_event. Qed.
#[local] Hint Resolve pays_new_event : pays.
Lemma pays_turn_event s b k p t : pays [] (turn_event s b k p t).
Proof. pays_method turn_event. Qed.
Lemma pays_new_text r t : pays [] (new_text_message r t).
Proof. pays_method new_text_message. Qed.
Lemma pays_new_part r p : pays [] (new_part_message r p).
Proof. pays_method new_part_message. Qed.
#[local] Hint Resolve pays_turn_event pays_new_text pays_new_part : pays.
Lemma pays_tool_result r : pays [] (rt_tool_result_message r).
Proof. pays_method rt_tool_result_message. Qed.
Lemma pays_ensure_started s b : pays [] (ensure_session_started_for s b).
Proof. pays_method ensure_session_started_for. Qed.
#[local] Hint Resolve pays_tool_result pays_ensure_started : pays.
Lemma pays_ensure event : pays [] (ensure_session_started event).
Proof. pays_method ensure_session_started. Qed.
#[local] Hint Resolve pays_ensure : pays.
Lemma pays_ensure_unless event : pays [] (ensure_started_unless_start event).
Proof. pays_method ensure_started_unless_start. Qed.
#[local] Hint Resolve pays_ensure_unless : pays.
Lemma pays_iter {A} (f : A -> Rt unit) l : (forall a, pays [] (f a)) -> pays [] (rt_iter f l).
Proof. intros Hf. induction l; simpl; pays. Qed.
#[local] Hint Resolve pays_iter : pays.
Lemma pays_rt_append event : pays [] (rt_append_event event).
Proof. intros. unfold rt_append_event, append_event_with_store_mutation. pays. Qed.
Lemma pays_rt_append_many events : pays [] (rt_append_events events).
Proof. pays_method rt_append_events. Qed.
Lemma pays_append_active s b t events : pays [] (append_active_turn_events s b t events).
Proof. pays_method append_active_turn_events. Qed.
#[local] Hint Resolve pays_rt_append pays_rt_append_many pays_append_active : pays.
Lemma pays_append_optional_many s b t events :
  pays [] (append_optional_active_turn_events s b t events).
Proof. pays_method append_optional_active_turn_events. Qed.
#[local] Hint Resolve pays_append_optional_many : pays.
Lemma pays_append_optional event t : pays [] (append_optional_active_turn_event event t).
Proof. pays_method append_optional_active_turn_event. Qed.
Lemma pays_is_cancelled s : pays [] (is_cancelled s).
Proof. pays_method is_cancelled. Qed.
#[local] Hint Resolve pays_append_optional pays_is_cancelled : pays.
End runtime_methods.

#[export] Hint Resolve pays_new_event pays_turn_event pays_new_text pays_new_part
  pays_tool_result pays_ensure_started pays_ensure pays_ensure_unless pays_iter pays_rt_append
  pays_rt_append_many pays_append_active pays_append_optional_many pays_append_optional
  pays_is_cancelled : pays.

Section records.
Context `{codec : RowCodec} `{entropy : Entropy}.
Context (render_number : Number -> string) (render_string : string -> string).
Context (catalog : Result (list PricingEntry)).

Lemma pays_record s b k p t : pays [] (record s b k p t).
Proof. pays_method record. Qed.
Lemma pays_record_alone s b k p t : pays [] (record_alone s b k p t).
Proof. pays_method record_alone. Qed.
Lemma pays_session_error_event s b t k e : pays [] (session_error_event s b t k e).
Proof. pays_method session_error_event. Qed.
Lemma pays_operator_command_event s b c r o x : pays [] (operator_command_event s b c r o x).
Proof. pays_method operator_command_event. Qed.
Lemma pays_execution_finished_event s b t r : pays [] (tool_execution_finished_event s b t r).
Proof. pays_method tool_execution_finished_event. Qed.
#[local] Hint Resolve pays_record pays_record_alone pays_session_error_event
  pays_operator_command_event pays_execution_finished_event : pays.
Lemma pays_tool_terminal_events s b t r m : pays [] (tool_terminal_events s b t r m).
Proof. pays_method tool_terminal_events. Qed.
Lemma pays_operation_request_events s b c n a o t :
  pays [] (tool_operation_request_events s b c n a o t).
Proof. pays_method tool_operation_request_events. Qed.
#[local] Hint Resolve pays_tool_terminal_events pays_operation_request_events : pays.
Lemma pays_tool_request_events s b t c n a o m : pays [] (tool_request_events s b t c n a o m).
Proof. pays_method tool_request_events. Qed.
Lemma pays_turn_started_event s b t p m c r x y :
  pays [] (turn_started_event s b t p m c r x y).
Proof. pays_method turn_started_event. Qed.
Lemma pays_turn_finished_event s b t p m x f l : pays [] (turn_finished_event s b t p m x f l).
Proof. pays_method turn_finished_event. Qed.
Lemma pays_message_events s b t ms : pays [] (message_events s b t ms).
Proof. induction ms; simpl; pays. Qed.
Lemma pays_commit_unless_cancelled s b t events : pays [] (commit_unless_cancelled s b t events).
Proof. pays_method commit_unless_cancelled. Qed.
#[local] Hint Resolve pays_tool_request_events pays_turn_started_event pays_turn_finished_event
  pays_message_events pays_commit_unless_cancelled : pays.

(** The two methods that publish after the lock, called alone. *)
Lemma pays_record_raw_chunk s b p x o c t : pays [] (record_raw_chunk s b p x o c t).
Proof.
  unfold record_raw_chunk, commit_raw_chunk.
  pays_step; [pays|]. do 2 (apply pays_assoc; pays_step; [pays|]). pays.
Qed.

Lemma pays_broadcast events : pays events (broadcast_events events).
Proof. intros rt0 rt [Hops Hbus]. split; [done|]. simpl. by rewrite app_nil_r. Qed.

Lemma pays_record_live_chunk s b p t o d c :
  pays [] (record_live_completion_chunk s b p t o d c).
Proof.
  unfold record_live_completion_chunk, commit_live_completion_chunk.
  pays_step; [pays|]. do 3 (apply pays_assoc; pays_step; [pays|]).
  apply pays_live_chunk. intros r. apply pays_broadcast.
Qed.

(** ** The end of a turn *)

Lemma pays_publish_optional event q B owed (k : unit -> Rt B) :
  pays owed (k tt) ->
  pays (map stored (cancelled_row event q) ++ owed) (publish_optional event q ≫= k).
Proof. intros Hk. destruct q; simpl; [by apply pays_publish|exact Hk]. Qed.

Lemma pays_checkpoint_transition s b t at_time :
  pays [] (budget_checkpoint_transition_at s b t at_time).
Proof. pays_method budget_checkpoint_transition_at. Qed.
#[local] Hint Resolve pays_checkpoint_transition : pays.

Lemma pays_terminal_events s b t at_time events :
  pays [] (commit_active_turn_terminal_events s b t at_time events).
Proof.
  unfold commit_active_turn_terminal_events. pays.
  apply pays_budget_terminal. intros c _. apply pays_publish, pays_publish_optional. pays.
Qed.

Lemma pays_configure_budget s b c : pays [] (configure_session_budget s b c).
Proof.
  unfold configure_session_budget. pays. apply pays_budget_configuration. intros c'.
  apply pays_publish. rewrite <- (app_nil_r (map stored _)). apply pays_publish_optional. pays.
Qed.
End records.

#[export] Hint Resolve pays_record pays_record_alone pays_session_error_event
  pays_operator_command_event pays_execution_finished_event pays_tool_terminal_events
  pays_operation_request_events pays_tool_request_events pays_turn_started_event
  pays_turn_finished_event pays_message_events pays_commit_unless_cancelled
  pays_record_raw_chunk pays_record_live_chunk pays_terminal_events pays_configure_budget : pays.

Section sessions.
Context `{codec : RowCodec} `{entropy : Entropy}.

Lemma pays_load_session s : pays [] (rt_load_session s).
Proof. pays_method rt_load_session. Qed.
Lemma pays_connection c : pays [] (connection c).
Proof. by apply pays_aside. Qed.
#[local] Hint Resolve pays_load_session pays_connection : pays.
Lemma pays_require_loaded s : pays [] (require_loaded s).
Proof. pays_method require_loaded. Qed.
Lemma pays_messages s b : pays [] (rt_messages s b).
Proof. pays_method rt_messages. Qed.
Lemma pays_connection_configured c : pays [] (ensure_connection_configured c).
Proof. unfold ensure_connection_configured. pays. by apply pays_aside. Qed.
#[local] Hint Resolve pays_require_loaded pays_messages pays_connection_configured : pays.
Lemma pays_resolve_settings s r : pays [] (resolve_turn_settings s r).
Proof. pays_method resolve_turn_settings. Qed.
Lemma pays_session_for_revision x r : pays [] (session_for_settings_revision x r).
Proof. pays_method session_for_settings_revision. Qed.
Lemma pays_current_revision s : pays [] (current_settings_revision s).
Proof. pays_method current_settings_revision. Qed.
Lemma pays_terminal_result_events s b t rs : pays [] (terminal_result_events s b t rs).
Proof. induction rs; simpl; pays. Qed.
#[local] Hint Resolve pays_terminal_result_events : pays.
Lemma pays_turn_failure s b p m t rs e f l :
  pays [] (record_turn_failure_transition_with_reason_outcome s b p m t rs e f l).
Proof. pays_method record_turn_failure_transition_with_reason_outcome. Qed.
Lemma pays_create_branch_call s b e a x : pays [] (rt_create_branch s b e a x).
Proof.
  unfold rt_create_branch, record_plan_updated. pays. apply pays_last, pays_set_default. pays.
Qed.
Lemma pays_related_events s b t s' b' k d r x a :
  pays [] (related_session_message_events s b t s' b' k d r x a).
Proof. pays_method related_session_message_events. Qed.
Lemma pays_resolution_events s b t ms : pays [] (resolution_events s b t ms).
Proof. induction ms; simpl; pays. Qed.
#[local] Hint Resolve pays_resolve_settings pays_session_for_revision pays_related_events : pays.
Lemma pays_spawn_child s b t o d c m i :
  pays [] (spawn_child_session_transition s b t o d c m i).
Proof.
  unfold spawn_child_session_transition, commit_child_session_spawn,
    commit_child_session_spawn_with_initial_message. pays; apply pays_spawn; intros; cbn [app]; pays.
Qed.
Lemma pays_try_claim s r : pays [] (try_claim_related s r).
Proof. pays_method try_claim_related. Qed.
#[local] Hint Resolve pays_try_claim : pays.
Lemma pays_claim_loop n s : pays [] (claim_next_loop n s).
Proof. induction n; simpl; pays. Qed.
End sessions.

#[export] Hint Resolve pays_load_session pays_connection pays_require_loaded pays_messages
  pays_connection_configured pays_resolve_settings pays_session_for_revision
  pays_current_revision pays_terminal_result_events pays_turn_failure pays_create_branch_call
  pays_related_events pays_resolution_events pays_spawn_child pays_try_claim pays_claim_loop : pays.

Section control.
Context `{codec : RowCodec} `{entropy : Entropy}.
Context (render_value : Value -> string).
Context (render_number : Number -> string) (render_string : string -> string).

Lemma pays_turn_admission s r clear started queued :
  pays [] (commit_turn_admission s r clear started queued).
Proof.
  unfold commit_turn_admission. pays. apply pays_admit. intros [qs|qs n|?|]; simpl; pays.
Qed.
Lemma pays_commit_queued s q events : pays [] (commit_queued_continuation s q events).
Proof. pays_method commit_queued_continuation. Qed.
Lemma pays_commit_steer s b ids events : pays [] (commit_steer_continuation s b ids events).
Proof. pays_method commit_steer_continuation. Qed.
Lemma pays_commit_resumed s b c n t q r kind events :
  pays [] (commit_resumed_continuation s b c n t q r kind events).
Proof. pays_method commit_resumed_continuation. Qed.
#[local] Hint Resolve pays_turn_admission pays_commit_queued pays_commit_steer
  pays_commit_resumed : pays.

Lemma pays_branch_owned event : pays [] (append_branch_owned_control_event event).
Proof. pays_method append_branch_owned_control_event. Qed.
#[local] Hint Resolve pays_branch_owned : pays.
Lemma pays_try_admit session branch message r :
  pays [] (try_admit render_value session branch message r).
Proof. pays_method try_admit. Qed.
#[local] Hint Resolve pays_try_admit : pays.
Lemma pays_admit_loop n session branch message r :
  pays [] (admit_loop render_value n session branch message r).
Proof. revert r. induction n; intros r; simpl; pays. Qed.
Lemma pays_queue_resolution s q o r c x ok :
  pays [] (queue_resolution_events render_value s q o r c x ok).
Proof. pays_method queue_resolution_events. Qed.
#[local] Hint Resolve pays_queue_resolution : pays.
Lemma pays_queue_drop s r x ok pending : pays [] (queue_drop_events render_value s r x ok pending).
Proof. induction pending; simpl; pays. Qed.
#[local] Hint Resolve pays_queue_drop : pays.
Lemma pays_new_turn_message s b t m : pays [] (rt_new_turn_message s b t m).
Proof. pays_method rt_new_turn_message. Qed.
#[local] Hint Resolve pays_new_turn_message : pays.
Lemma pays_apply_steers session branch : pays [] (apply_pending_steers session branch).
Proof. pays_method apply_pending_steers. Qed.
Lemma pays_dispatch_queued session : pays [] (dispatch_next_queued_message render_value session).
Proof. pays_method dispatch_next_queued_message. Qed.
Lemma pays_cancel_consumed s b steers queue :
  pays [] (cancel_consumed_events render_value s b steers queue).
Proof. pays_method cancel_consumed_events. Qed.
Lemma pays_claim_next s : pays [] (claim_next_related_session_message s).
Proof. apply pays_claim_loop. Qed.
#[local] Hint Resolve pays_apply_steers pays_dispatch_queued pays_cancel_consumed
  pays_claim_next : pays.
Lemma pays_post_turn session branch :
  pays [] (consume_post_turn_controls render_value session branch).
Proof. pays_method consume_post_turn_controls. Qed.
Lemma pays_resumed_controls s b t steers : pays [] (resumed_control_events s b t steers).
Proof. pays_method resumed_control_events. Qed.
#[local] Hint Resolve pays_resumed_controls : pays.
Lemma pays_resume_turn resumable c n source kind resumed :
  (forall s b t, pays [] (resumed s b t)) ->
  pays [] (resume_turn resumable c n source kind resumed).
Proof. pays_method resume_turn. Qed.
End control.

#[export] Hint Resolve pays_branch_owned pays_try_admit pays_admit_loop pays_queue_resolution
  pays_queue_drop pays_new_turn_message pays_apply_steers pays_dispatch_queued
  pays_cancel_consumed pays_claim_next pays_post_turn pays_resumed_controls pays_resume_turn
  pays_turn_admission pays_commit_queued pays_commit_steer pays_commit_resumed : pays.

(** ** Replies and recovery *)

Section replies.
Context `{codec : RowCodec} `{entropy : Entropy}.

(** The replies that settle: those a turn's end owes. *)
Definition settles (kind : RelatedSessionMessageKind) : Prop := kind = KResult \/ kind = KError.

Lemma pays_reply s b t kind text records obligation :
  settles kind -> pays [] (reply_to_obligation s b t kind text records obligation).
Proof.
  unfold reply_to_obligation. intros [->| ->]; simpl; pays; apply pays_settle;
    intros c; destruct (ss_newly_committed c); pays.
Qed.

Lemma pays_replies s b t kind text records obligations :
  settles kind -> pays [] (reply_to_obligations s b t kind text records obligations).
Proof.
  intros Hkind. induction obligations; simpl; [pays|].
  apply pays_bind; [by apply pays_reply|intros n]. pays.
Qed.

Lemma pays_reply_obligations s b t kind text :
  settles kind -> pays [] (record_related_reply_obligations s b t kind text).
Proof.
  intros Hkind. unfold record_related_reply_obligations. apply pays_bind; [pays|intros records].
  by apply pays_replies.
Qed.

(** A turn that is over, not one that waits. *)
Definition over (stop_reason : TurnRunStopReason) : Prop :=
  stop_reason <> StopAwaitingApproval /\ stop_reason <> StopAwaitingInput.

Lemma pays_turn_outcome s b t stop_reason :
  over stop_reason -> pays [] (record_related_turn_outcome s b t stop_reason).
Proof.
  intros [H1 H2]. unfold record_related_turn_outcome.
  destruct stop_reason; try done.
  - apply pays_assoc, pays_bind; [pays|intros messages].
    apply pays_ret_bind, pays_reply_obligations. by left.
  - apply pays_ret_bind, pays_reply_obligations. by right.
  - apply pays_ret_bind, pays_reply_obligations. by right.
Qed.
End replies.

#[export] Hint Resolve pays_reply_obligations pays_turn_outcome : pays.

(** ** Messages that are sent *)

Section sends.
Context `{codec : RowCodec} `{entropy : Entropy}.

(** [Uuid::new_v4] does not repeat itself: the identifiers left in the supply
    are distinct, and no stored message has one of them. *)
Record issues_new (rt : Runtime) : Prop := {
  new_distinct j k : (rt_ticks rt <= j < k)%nat -> fresh_uuid j <> fresh_uuid k;
  new_unused k s d : (rt_ticks rt <= k)%nat ->
    db_related (rt_store rt) !! (s, MkUuid (fresh_uuid k), d) = None;
}.

(** A method that publishes what it commits, where identifiers are new. *)
Definition pays_new {A} (m : Rt A) : Prop :=
  forall rt0 rt, issues_new rt -> owing rt0 [] rt ->
    owing rt0 [] (m rt).2 /\ issues_new (m rt).2.

Lemma pays_new_bind {A B} (m : Rt A) (k : A -> Rt B) :
  pays_new m -> (forall a, pays_new (k a)) -> pays_new (m ≫= k).
Proof.
  intros Hm Hk rt0 rt Hn Ho. destruct (Hm rt0 rt Hn Ho) as [Ho' Hn'].
  unfold mbind, rt_bind. destruct (m rt) as [[a|e] rt']; [by apply Hk|done].
Qed.

(** Sections that leave the runtime as it is. *)
Lemma pays_new_still {A} (m : Rt A) : (forall rt, (m rt).2 = rt) -> pays_new m.
Proof. intros Hm rt0 rt Hn Ho. by rewrite Hm. Qed.

Lemma issues_new_later rt rt' :
  issues_new rt -> (rt_ticks rt <= rt_ticks rt')%nat ->
  (forall k s d, (rt_ticks rt' <= k)%nat ->
     db_related (rt_store rt') !! (s, MkUuid (fresh_uuid k), d)
     = db_related (rt_store rt) !! (s, MkUuid (fresh_uuid k), d)) ->
  issues_new rt'.
Proof.
  intros [Hd Hu] Hle Hrel. split.
  - intros j k Hjk. apply Hd. lia.
  - intros k s d Hk. rewrite Hrel by done. apply Hu. lia.
Qed.

(** The message that is built takes the next identifier. *)
Lemma built_message s b t s' b' kind mode reply text refs rt :
  match related_session_message_events s b t s' b' kind mode reply text refs rt with
  | (Err _, rt') => rt' = rt
  | (Ok (m, sent, received), rt') =>
      rm_message_id m = MkUuid (fresh_uuid (rt_ticks rt))
      /\ (exists c, ev_payload sent = RelatedSessionMessageRecorded Sent c m)
      /\ rt_store rt' = rt_store rt /\ rt_bus rt' = rt_bus rt
      /\ (rt_ticks rt < rt_ticks rt')%nat
  end.
Proof.
  unfold related_session_message_events. destruct (is_empty (trim text)); [done|].
  destruct t; simpl; split_and!; eauto; lia.
Qed.

(** A new message is delivered: the store appends its two copies. *)
Lemma deliver_new sent received c m rt0 rt r db' :
  ev_payload sent = RelatedSessionMessageRecorded Sent c m ->
  (forall s d, db_related (rt_store rt) !! (s, rm_message_id m, d) = None) ->
  owing rt0 [] rt ->
  commit_related_session_message sent received (rt_store rt) = (Ok r, db') ->
  owing rt0 [stored (rt_sent_seq_id r, sent); stored (rt_received_seq_id r, received)]
    (set_store db' rt)
  /\ forall k, k.1.2 <> rm_message_id m -> db_related db' !! k = db_related (rt_store rt) !! k.
Proof.
  intros Hp Hnew Ho H. unfold commit_related_session_message in H. pose proof H as Hrun.
  apply transaction_Ok in H. apply tx_bind_Ok in H as (m' & d & [Hv ->]%tx_lift_Ok & H).
  pose proof (envelopes_Ok _ _ _ Hv) as (Hp' & _). rewrite Hp in Hp'. injection Hp' as -> <-.
  apply tx_bind_Ok in H as (existing & d & Hq & H). unfold query_result in Hq. invert_tx.
  destruct existing as [receipt|].
  { apply receipt_Ok in Hq as (row & _ & Hrow & _). by rewrite Hnew in Hrow. }
  unfold query_result in H. invert_tx.
  destruct (deliver _ _ _ _ _ _ _ _ Hv Htx0 Htx1) as (Hlog & row & row' & _ & _ & _ & _ & E).
  split.
  - apply (owing_commit (OpRelatedMessage sent received) _ _ _ _ _ _ eq_refl (fun _ => eq_refl) Ho
      Hrun Hlog).
  - intros k Hk. rewrite E, !lookup_insert_ne by (intros <-; by apply Hk). done.
Qed.

Lemma resolve_still s b s' b' reply rt :
  (resolve_related_session_destination_branch s b s' b' reply rt).2 = rt.
Proof.
  unfold resolve_related_session_destination_branch, mbind, rt_bind, read_result, rt_lift.
  repeat (case_match; simplify_eq/=); done.
Qed.

Lemma pays_send s b t s' b' kind mode reply text refs :
  pays_new (send_related_session_message s b t s' b' kind mode reply text refs).
Proof.
  unfold send_related_session_message.
  apply pays_new_bind; [by apply pays_new_still|intros _].
  apply pays_new_bind; [apply pays_new_still; intros; apply resolve_still|intros b1].
  intros rt0 rt Hn Ho. unfold mbind, rt_bind, commit.
  pose proof (built_message s b t s' b1 kind mode reply (trim text) refs rt) as Hb.
  destruct (related_session_message_events _ _ _ _ _ _ _ _ _ _ rt)
    as [[[[m sent] received]|e] rt1]; [|simpl in *; by subst rt1].
  destruct Hb as (Hid & (c & Hp) & Hst & Hbus & Hticks).
  assert (owing rt0 [] rt1) as Ho1 by (destruct Ho; split; by rewrite ?Hst, ?Hbus).
  assert (forall s d, db_related (rt_store rt1) !! (s, rm_message_id m, d) = None) as Hnew
    by (intros; rewrite Hst, Hid; by apply (new_unused _ Hn)).
  destruct (commit_related_session_message sent received (rt_store rt1)) as [[r|e] db'] eqn:E.
  - destruct (deliver_new _ _ _ _ _ _ _ _ Hp Hnew Ho1 E) as [[Hops Hpaid] Hrel]. split.
    + split; [done|]. simpl in *. rewrite <- Hpaid. by rewrite app_nil_r, <- (assoc_L (++)).
    + apply (issues_new_later rt); [done|simpl; lia|]. intros k s0 d Hk. simpl in *.
      rewrite Hrel, Hst; [done|]. simpl. rewrite Hid. intros [= Heq]. revert Heq.
      apply not_eq_sym, (new_distinct _ Hn). lia.
  - unfold commit_related_session_message in E. rewrite (commit_failed _ _ _ _ E). split; [done|].
    apply (issues_new_later rt); [done|simpl; lia|]. intros. simpl. by rewrite Hst.
Qed.

(** What a turn that waits tells those who asked for it. *)
Lemma pays_progress s b t text : pays_new (record_related_reply_obligations s b t KProgress text).
Proof.
  unfold record_related_reply_obligations. apply pays_new_bind; [by apply pays_new_still|intros records].
  induction (List.filter _ records) as [|obligation obligations IH]; simpl; [by apply pays_new_still|].
  apply pays_new_bind; [|intros n; apply pays_new_bind; [done|intros; by apply pays_new_still]].
  unfold reply_to_obligation. simpl. destruct (existsb _ _); [by apply pays_new_still|].
  apply pays_new_bind; [apply pays_send|intros; by apply pays_new_still].
Qed.

Lemma pays_any_outcome s b t stop_reason rt0 rt :
  issues_new rt -> owing rt0 [] rt ->
  owing rt0 [] (record_related_turn_outcome s b t stop_reason rt).2.
Proof.
  intros Hn Ho. destruct stop_reason; try (by apply pays_progress); by apply pays_turn_outcome.
Qed.
End sends.

(** ** The context of a turn *)

Section contexts.
Context `{codec : RowCodec} `{entropy : Entropy} (render_value : Value -> string).
Context (config : ContextConfig) (windows : Result (list ContextWindowEntry)).
Context (elapsed_ms : nat -> Z).

Lemma pays_elapsed : pays [] (rt_elapsed_ms elapsed_ms).
Proof. by apply pays_aside. Qed.
Lemma pays_context_messages s b : pays [] (load_context_messages_with_related_sessions s b).
Proof. pays_method load_context_messages_with_related_sessions. Qed.
Lemma pays_observed s b records : pays [] (observed_context_tokens render_value s b records).
Proof. pays_method observed_context_tokens. Qed.
Lemma pays_previous s b : pays [] (previous_compaction_state s b).
Proof. pays_method previous_compaction_state. Qed.
Lemma pays_compacted s b p t : pays [] (record_context_compacted s b p t).
Proof. pays_method record_context_compacted. Qed.
#[local] Hint Resolve pays_elapsed pays_context_messages pays_observed pays_previous
  pays_compacted : pays.
Lemma pays_report s b p t : pays [] (record_report s b p t).
Proof. pays_method record_report. Qed.
#[local] Hint Resolve pays_report : pays.
Lemma pays_prepare_resolved session branch c m x tools thinking t r force inputs :
  pays [] (prepare_turn_context_for_resolved_settings render_value config windows elapsed_ms
             session branch c m x tools thinking t r force inputs).
Proof. pays_method prepare_turn_context_for_resolved_settings. Qed.
#[local] Hint Resolve pays_prepare_resolved : pays.
Lemma pays_prepare session branch x tools thinking t r force :
  pays [] (prepare_turn_context_with_options render_value config windows elapsed_ms session branch
             x tools thinking t r force).
Proof. pays_method prepare_turn_context_with_options. Qed.
#[local] Hint Resolve pays_prepare : pays.
Lemma pays_compact session branch x tools thinking :
  pays [] (compact_branch_context render_value config windows elapsed_ms session branch x tools
             thinking).
Proof. pays_method compact_branch_context. Qed.
End contexts.

#[export] Hint Resolve pays_prepare pays_compact : pays.

Section recovery_laws.
Context `{codec : RowCodec} `{entropy : Entropy}.

Lemma pays_related_failure s b t e : pays [] (record_related_turn_failure s b t e).
Proof. unfold record_related_turn_failure. apply pays_reply_obligations. by right. Qed.
#[local] Hint Resolve pays_related_failure : pays.
Lemma pays_retry {A} (m : Rt A) : pays [] m -> pays [] (rt_or_retry m).
Proof.
  intros Hm rt0 rt H. unfold rt_or_retry. apply Hm in H as H1.
  destruct (m rt) as [[a|e] rt']; [done|]. by apply Hm.
Qed.
#[local] Hint Resolve pays_retry : pays.
Lemma pays_fail_admitted admitted e : pays [] (fail_admitted_related_turn admitted e).
Proof.
  unfold fail_admitted_related_turn, record_turn_failure_transition_with_outcome. pays.
Qed.
Lemma pays_recover_turn turn : pays [] (recover_turn turn).
Proof. pays_method recover_turn. Qed.
Lemma pays_repair obligation : pays [] (repair_obligation obligation).
Proof. unfold repair_obligation. pays; apply pays_turn_outcome; by split. Qed.
#[local] Hint Resolve pays_recover_turn pays_repair : pays.
Lemma pays_repair_all : pays [] repair_related_session_reply_settlements.
Proof. pays_method repair_related_session_reply_settlements. Qed.
#[local] Hint Resolve pays_repair_all : pays.
Lemma pays_recover_interrupted : pays [] recover_interrupted_turns.
Proof. pays_method recover_interrupted_turns. Qed.
Lemma pays_recover_tool operation : pays [] (recover_operator_tool operation).
Proof. pays_method recover_operator_tool. Qed.
#[local] Hint Resolve pays_recover_tool : pays.
Lemma pays_recover_tools : pays [] recover_interrupted_operator_tools.
Proof. pays_method recover_interrupted_operator_tools. Qed.
Lemma pays_rehydrate : pays [] rehydrate_approval_state.
Proof. pays_method rehydrate_approval_state. Qed.
End recovery_laws.

#[export] Hint Resolve pays_related_failure pays_retry pays_fail_admitted pays_recover_turn
  pays_repair pays_repair_all pays_recover_interrupted pays_recover_tool pays_recover_tools
  pays_rehydrate : pays.

(** ** Methods whose sections do not follow the pattern *)

Section others.
Context `{codec : RowCodec} `{entropy : Entropy}.
Context (render_number : Number -> string) (render_string : string -> string).

Lemma pays_activate s b : pays [] (activate_branch s b).
Proof. unfold activate_branch, append_event_with_store_mutation. pays. Qed.
Lemma pays_persist_approval s b r d t :
  pays [] (persist_approval_for_request render_number render_string s b r d t).
Proof. pays_method persist_approval_for_request. Qed.
#[local] Hint Resolve pays_persist_approval : pays.
Lemma pays_approval_for s b r d t :
  pays [] (record_approval_for_request render_number render_string s b r d t).
Proof. pays_method record_approval_for_request. Qed.
Lemma pays_approval_evaluated s b r d t :
  pays [] (record_evaluated_approval_for_request render_number render_string s b r d t).
Proof. pays_method record_evaluated_approval_for_request. Qed.

Lemma aside_state {A} (f : Runtime -> A) : aside (fun rt => (Ok (f rt), rt)).
Proof. done. Qed.

(** The signal is set between the commit and the publication. *)
Lemma pays_cancel s b r : pays [] (cancel_session s b r).
Proof.
  unfold cancel_session. pays.
  all: (apply pays_aside_bind; [apply (aside_state id)|eauto|intros rt]).
  all: (apply pays_aside_bind; [repeat case_match; done|intros; repeat case_match; eauto|]).
  all: intros []; pays.
Qed.

Lemma pays_drop s b t : pays [] (drop_active_turn_cancellation s b t).
Proof.
  apply pays_aside. intros rt. unfold drop_active_turn_cancellation, rt_modify. simpl.
  by case_match.
Qed.

Lemma pays_resume_approval x r d :
  pays [] (bootstrap_resumed_approval_turn render_number render_string x r d).
Proof.
  unfold bootstrap_resumed_approval_turn. pays. apply pays_resume_turn. intros. pays.
Qed.
Lemma pays_resume_input x r : pays [] (bootstrap_resumed_input_turn x r).
Proof. unfold bootstrap_resumed_input_turn. apply pays_resume_turn. intros. pays. Qed.
End others.

#[export] Hint Resolve pays_activate pays_persist_approval pays_approval_for
  pays_approval_evaluated pays_cancel pays_drop pays_resume_approval pays_resume_input : pays.

(** ** The public methods *)

Section public.
Context `{codec : RowCodec} `{entropy : Entropy}.
Context (render_value : Value -> string).
Context (render_number : Number -> string) (render_string : string -> string).
Context (catalog : Result (list PricingEntry)).
Context (config : ContextConfig) (windows : Result (list ContextWindowEntry)).
Context (elapsed_ms : nat -> Z).

(** The methods of the runtime that change its state and send no message, a
    call of which runs to its end before the next one begins.  A method that
    forwards to another and maps what it returns is [m_forward]. *)
Inductive method : forall {A}, Rt A -> Prop :=
  | m_create_session p c m x d o : method (rt_create_session p c m x d o)
  | m_update_settings s b c m x : method (update_session_settings s b c m x)
  | m_update_parent s p b t : method (rt_update_session_parent s p b t)
  | m_create_branch s b e a x : method (rt_create_branch s b e a x)
  | m_activate_branch s b : method (activate_branch s b)
  | m_branch_summary s b x f g : method (record_branch_summary s b x f g)
  | m_append_event event : method (rt_append_event event)
  | m_append_events events : method (rt_append_events events)
  | m_append_message s b r x : method (append_message s b r x)
  | m_append_raw_message s b m t : method (append_raw_message s b m t)
  | m_spawn_requested s b c o x m t : method (record_session_spawn_requested s b c o x m t)
  | m_spawned s b c d o t : method (record_session_spawned s b c d o t)
  | m_handoff s b p q t o x : method (record_session_handoff s b p q t o x)
  | m_approval s b c n d t : method (record_approval s b c n d t)
  | m_approval_for s b r d t :
      method (record_approval_for_request render_number render_string s b r d t)
  | m_approval_evaluated s b r d t :
      method (record_evaluated_approval_for_request render_number render_string s b r d t)
  | m_approval_requested s b c n t : method (record_approval_requested s b c n t)
  | m_approval_requested_for s b r t :
      method (record_approval_requested_for_request render_number render_string s b r t)
  | m_tool_requested s b c n a o t :
      method (record_tool_call_requested_with_context s b c n a o t)
  | m_tool_operation s b c n o t : method (record_tool_operation s b c n o t)
  | m_tool_execution s b r t : method (record_tool_execution s b r t)
  | m_plan s b items t : method (record_plan_updated s b items t)
  | m_compacted s b r t : method (record_context_compacted s b r t)
  | m_completion_requested s b n p m c t : method (record_completion_requested s b n p m c t)
  | m_completion_chunk s b n d i t : method (record_completion_chunk s b n d i t)
  | m_chunk_persisted s b p i x n t : method (record_raw_chunk_persisted s b p i x n t)
  | m_manifest s b m : method (record_context_manifest s b m)
  | m_completion_finished s b m n t : method (record_completion_finished catalog s b m n t)
  | m_session_error s b e t k : method (record_session_error s b e t k)
  | m_provenance s b p : method (record_turn_instruction_provenance s b p)
  | m_raw_chunk s b p x n c t : method (record_raw_chunk s b p x n c t)
  | m_live_chunk s b p t n d c : method (record_live_completion_chunk s b p t n d c)
  | m_cancel s b r : method (cancel_session s b r)
  | m_begin s b t : method (begin_active_turn_cancellation s b t)
  | m_drop s b t : method (drop_active_turn_cancellation s b t)
  | m_tool_request s b t c n a o m : method (record_tool_request_transition s b t c n a o m)
  | m_operation_request s b c n a o t :
      method (record_tool_operation_request_transition s b c n a o t)
  | m_result_messages s b t ms : method (append_turn_result_messages_unless_cancelled s b t ms)
  | m_tool_terminal s b t r m : method (record_tool_terminal_transition s b t r m)
  | m_operator_terminal s b r c i o x :
      method (record_operator_tool_terminal_transition s b r c i o x)
  | m_operator_recovery s b r c i o x e :
      method (recover_operator_tool_terminal_transition s b r c i o x e)
  | m_operator_command s b c i o x : method (record_operator_command s b c i o x)
  | m_turn_finished s b t p m x f l :
      method (record_active_turn_finished_with_cancel_precedence s b t p m x f l)
  | m_turn_failed s b p m t rs e l :
      method (record_turn_failure_transition_with_outcome s b p m t rs e l)
  | m_configure_budget s b c : method (configure_session_budget s b c)
  | m_spawn_child s b t o d c m i : method (spawn_child_session_transition s b t o d c m i)
  | m_claim_active s b t ids : method (rt_claim_related_messages_for_active_turn s b t ids)
  | m_claim_next s : method (claim_next_related_session_message s)
  | m_related_outcome s b t x : over x -> method (record_related_turn_outcome s b t x)
  | m_related_failure s b t e : method (record_related_turn_failure s b t e)
  | m_fail_admitted admitted e : method (fail_admitted_related_turn admitted e)
  | m_steer s b x : method (steer_session s b x)
  | m_queue s b m : method (queue_message s b m)
  | m_admit session branch message :
      method (admit_user_message render_value session branch message)
  | m_clear_queue s r x ok : method (clear_queued_messages render_value s r x ok)
  | m_clear_cancel s b r : method (clear_cancel_request s b r)
  | m_post_turn session branch : method (consume_post_turn_controls render_value session branch)
  | m_resume_approval x r d :
      method (bootstrap_resumed_approval_turn render_number render_string x r d)
  | m_resume_input x r : method (bootstrap_resumed_input_turn x r)
  | m_apply_steers session branch : method (apply_pending_steers session branch)
  | m_dispatch_queued session : method (dispatch_next_queued_message render_value session)
  | m_resumed_failure session branch c m t tc e l :
      method (record_resumed_tool_failure session branch c m t tc e l)
  | m_prepare_context session branch x tools thinking t r :
      method (prepare_turn_context render_value config windows elapsed_ms session branch x tools
                thinking t r)
  | m_compact_context session branch x tools thinking :
      method (compact_branch_context render_value config windows elapsed_ms session branch x tools
                thinking)
  | m_recover_turns : method recover_interrupted_turns
  | m_recover_tools : method recover_interrupted_operator_tools
  | m_forward {A B} (m : Rt A) (f : A -> B) : method m -> method (a ← m; mret (f a)).

(** The methods that send a message to a related session: the one for it, and
    the report of a turn's outcome, which for a turn that waits is a note to
    those who asked. *)
Inductive sending : forall {A}, Rt A -> Prop :=
  | s_send s b t s' b' kind mode reply text refs :
      sending (send_related_session_message s b t s' b' kind mode reply text refs)
  | s_outcome s b t stop_reason : sending (record_related_turn_outcome s b t stop_reason).

(** The state after a call, whatever the call returned.  A message that is
    sent has a new identifier: for a message that is stored already, a send
    would publish the receipt's events again. *)
Inductive call : Runtime -> Runtime -> Prop :=
  | Call {A} (m : Rt A) rt : method m -> call rt (m rt).2
  | Send {A} (m : Rt A) rt : sending m -> issues_new rt -> call rt (m rt).2.

(** Opens a method. *)
Ltac open_method :=
  match goal with
  | |- pays _ ?m => let rec head t := lazymatch t with ?f _ => head f | _ => t end in
                    let f := head m in unfold f
  end.

Lemma method_pays A (m : Rt A) : method m -> pays [] m.
Proof.
  induction 1; first [by eauto with pays | open_method; by pays
    | apply pays_bind; [done|intros; apply pays_ret]].
Qed.

Lemma call_pays rt0 rt rt' : call rt rt' -> owing rt0 [] rt -> owing rt0 [] rt'.
Proof.
  intros [A m rt1 Hm|A m rt1 [] Hn] Ho; [by apply method_pays|by apply pays_send|].
  by apply pays_any_outcome.
Qed.

(** Any number of calls, one after the other, leave the broadcast behind by
    nothing. *)
Lemma calls_owe_nothing rt rt' : rtc call rt rt' -> owing rt [] rt'.
Proof.
  intros H. assert (forall rt0, owing rt0 [] rt -> owing rt0 [] rt') as Hgen.
  { induction H as [|rt rt1 rt' Hcall _ IH]; [done|]. intros rt0 H0.
    apply IH. by apply (call_pays _ _ _ Hcall). }
  apply Hgen, owing_start.
Qed.

(** C6. The broadcast mirrors the log: whatever methods of the runtime run, one
    after the other, and whatever they return, errors half-way included, the
    store has run transactions that a runtime makes, and the events broadcast
    since are exactly the events appended to the log since, with their
    numbers, in the order of the log: none is missing, none is published that
    was not committed, none twice.  Messages to related sessions are sent
    under identifiers that no stored message has. *)
Theorem bus_mirrors_log rt rt' :
  rtc call rt rt' ->
  rt_bus rt' = rt_bus rt ++ appended (rt_store rt) (rt_store rt')
  /\ exists ops, Forall (fun op => by_runtime op = true) ops
       /\ rt_store rt' = run_ops ops (rt_store rt).
Proof. intros [Hops Hbus]%calls_owe_nothing. by rewrite app_nil_r in Hbus. Qed.
End public.

(** ** A concrete runtime *)

#[local] Existing Instance unary_codec.

#[local] Existing Instance counting_entropy.

Definition sample_runtime : Runtime := fresh_runtime db_empty [sample_connection].

(** A session, a message, and a steer of it. *)
Definition sample_created : Runtime :=
  (rt_create_session "/p" (MkConnectionId "c") None Standard None None sample_runtime).2.
Definition sample_messaged : Runtime :=
  (append_message (MkUuid 100) (MkUuid 103) RoleUser "hello" sample_created).2.
Definition sample_steered : Runtime :=
  (steer_session (MkUuid 100) (MkUuid 103) "left" sample_messaged).2.

(** A child session, and a question to it. *)
Definition sample_spawned : Runtime :=
  (spawn_child_session_transition (MkUuid 100) (MkUuid 103) None "work" None None None false
     sample_steered).2.
Definition sample_asked : Runtime :=
  (send_related_session_message (MkUuid 100) (MkUuid 103) None (MkUuid 116) (MkUuid 119)
     KQuestion Wake None "done?" [] sample_spawned).2.

(** Identifiers that count up are new where none of the log reaches them. *)
Lemma counted_new rt :
  forallb (fun kv => N.ltb (uuid kv.1.1.2) (N.of_nat (100 + rt_ticks rt)))
    (map_to_list (db_related (rt_store rt))) = true -> issues_new rt.
Proof.
  intros H. split; simpl; [lia|]. intros k s d Hk. apply eq_None_not_Some. intros [row Hrow].
  rewrite forallb_forall in H. apply elem_of_map_to_list, list_elem_of_In, H in Hrow. simpl in Hrow.
  apply N.ltb_lt in Hrow. lia.
Qed.

Definition sample_config : ContextConfig :=
  MkContextConfig f64_zero f64_zero 0 None 0 10 1000 None.

Lemma sample_calls :
  rtc (call (fun _ => "") (fun _ => "") (fun s => s) (Ok []) sample_config (Ok []) (fun _ => 0))
    sample_runtime sample_asked.
Proof.
  apply (rtc_l _ _ sample_created); [apply Call, m_create_session|].
  apply (rtc_l _ _ sample_messaged); [apply Call, m_append_message|].
  apply (rtc_l _ _ sample_steered); [apply Call, m_steer|].
  apply (rtc_l _ _ sample_spawned); [apply Call, m_spawn_child|].
  apply rtc_once, Send; [apply s_send|]. apply counted_new. vm_compute. reflexivity.
Qed.

Lemma bus_mirrors_log_witness :
  length (rt_bus sample_asked) = 9%nat
  /\ rt_bus sample_asked
     = rt_bus sample_runtime ++ appended (rt_store sample_runtime) (rt_store sample_asked).
Proof.
  split; [vm_compute; reflexivity|].
  exact (proj1 (bus_mirrors_log _ _ _ _ _ _ _ sample_runtime sample_asked sample_calls)).
Defined.
