(* ===== verification/RecoveryLaws.v ===== *)
(** * Interrupted turns do not survive a restart

    Startup recovery ([RuntimeRecovery]) appends no start of a turn, so no
    session becomes busy; and every turn that was active is ended, or the
    recovery reports an error. *)

From stdpp Require Import base list strings gmap.
From Stdlib Require Import ZArith Lia.
From S2P Require Import Prelude Text Json Types Messages TurnProjection Approvals Store StoreOps.
From S2P Require Import StoreRelated StoreLaws StoreReplay StoreAdmission StoreLifecycle.
From S2P Require Import StoreQueries Runtime RuntimeBudget RuntimeRecords RuntimeSessions.
From S2P Require Import RuntimeRelated RuntimeRecovery.

#[local] Open Scope Z_scope.

(** ** Active turns only go away *)

Definition shrinks (db db' : Db) : Prop := db_active_turns db' ⊆ db_active_turns db.

#[export] Instance shrinks_preorder : PreOrder shrinks.
Proof. unfold shrinks. split; [by intros db|]. intros a b c H1 H2. by etrans. Qed.

Definition idle (s : SessionId) (db : Db) : Prop := db_active_turns db !! s = None.

Lemma idle_shrinks s db db' : shrinks db db' -> idle s db -> idle s db'.
Proof.
  intros Hs Hi. unfold idle. destruct (db_active_turns db' !! s) as [row|] eqn:E; [|done].
  eapply lookup_weaken in E; [|exact Hs]. unfold idle in Hi. congruence.
Qed.

(** Neither does a request to cancel. *)
Definition keeps_cancels (db db' : Db) : Prop :=
  forall s, cancel_requested s db = true -> cancel_requested s db' = true.

(** No session gets busy and no cancellation is cleared. *)
Definition fades (db db' : Db) : Prop := shrinks db db' /\ keeps_cancels db db'.

#[export] Instance fades_preorder : PreOrder fades.
Proof.
  split; [intros db; split; [reflexivity|by intros s]|]. intros a b c [H1 H2] [H3 H4].
  split; [by etrans|]. intros s Hs. by apply H4, H2.
Qed.

(** Events that start no turn and clear no cancellation. *)
Definition starts_or_clears (payload : EventPayload) : bool :=
  match payload with
  | TurnStarted _ _ _ _ _ _ _ | SessionCancelCleared _ => true
  | _ => false
  end.

Definition plain (event : EventEnvelope) : Prop := starts_or_clears (ev_payload event) = false.

Lemma plain_no_start event : plain event -> is_turn_started event = false.
Proof. unfold plain, is_turn_started. by destruct (ev_payload event). Qed.

Lemma plain_no_starts events :
  Forall plain events -> Forall (fun event => is_turn_started event = false) events.
Proof. intros H. eapply Forall_impl; [exact H|exact plain_no_start]. Qed.

Section store.
Context `{codec : RowCodec}.

Lemma replay_shrinks active q event active' :
  is_turn_started event = false -> replay_boundary active (q, event) = Some active' ->
  active' ⊆ active.
Proof.
  unfold is_turn_started, replay_boundary. intros Hns H.
  destruct (ev_payload event); try done; injection H as <-; try done.
  destruct (is_some_and _ _); [apply delete_subseteq|done].
Qed.

Lemma append_fades event : plain event -> keeps fades (append_event_in_tx event).
Proof.
  intros Hns db q db' H. split.
  - apply append_active in H as [H _]. by eapply replay_shrinks, H; apply plain_no_start.
  - intros s Hs. apply (append_cancel s) in H as ->. unfold plain, cancel_step in *. rewrite Hs.
    destruct (ev_payload event); try done. by case_bool_decide.
Qed.

Lemma append_events_fades events :
  Forall plain events -> keeps fades (append_events_in_tx events).
Proof.
  induction 1 as [|event events Hns _ IH]; intros db qs db' H.
  - apply append_events_nil in H as [_ ->]. done.
  - apply append_events_cons in H as (q & db1 & qs' & H1 & H2 & _).
    etrans; [by eapply append_fades|by eapply IH].
Qed.

Lemma transaction_fades {A} (body : Tx A) :
  keeps fades body -> forall db, fades db (transaction body db).2.
Proof.
  intros Hb db. destruct (transaction body db) as [[a|e] db'] eqn:E.
  - apply transaction_Ok in E. by eapply Hb.
  - by apply transaction_Err in E as ->.
Qed.

Lemma keeps_lifted R {A B} (r : Result A) (k : A -> Tx B) :
  (forall a, r = Ok a -> keeps R (k a)) -> keeps R (tx_lift r ≫= k).
Proof.
  intros Hk db b db' (a & db1 & [Hr ->]%tx_lift_Ok & H)%tx_bind_Ok. by eapply Hk.
Qed.

Lemma envelopes_plain sent received m :
  validate_related_session_message_envelopes sent received = Ok m -> plain sent /\ plain received.
Proof.
  unfold validate_related_session_message_envelopes, plain. by repeat (case_match; try done).
Qed.

Lemma deliver_fades sent received db : fades db (commit_related_session_message sent received db).2.
Proof.
  apply transaction_fades. apply keeps_lifted. intros m [Hsent Hreceived]%envelopes_plain.
  unfold query_result. repeat keeps_step; by apply append_fades.
Qed.

Lemma settle_fades o sent received settled db :
  fades db (settle_related_session_message o sent received settled db).2.
Proof.
  apply transaction_fades.
  apply keeps_lifted. intros reply [Hsent Hreceived]%envelopes_plain.
  apply keeps_lifted. intros t Hset.
  assert (plain settled) as Hsettled.
  { revert Hset. unfold validate_settlement, plain. by repeat (case_match; try done). }
  unfold query_result. repeat keeps_step; by apply append_fades.
Qed.

(** Checks change nothing. *)
Lemma keeps_same {A} (m : Tx A) : (forall db a db', m db = Ok (a, db') -> db' = db) -> keeps fades m.
Proof. intros Hm db a db' ->%Hm. done. Qed.

Lemma owner_fades s b t : keeps fades (ensure_active_turn_owner_in_tx s b t).
Proof. apply keeps_same. by intros db [] db' [-> _]%owns_Ok. Qed.

Lemma exhausted_fades s : keeps fades (session_budget_exhausted_in_tx s).
Proof. apply keeps_same. intros db b db' H. by eapply exhausted_db. Qed.

(** The batches that end a turn. *)
Lemma terminal_fades s b t events :
  Forall plain events -> forall db, fades db (commit_turn_terminal_transition s b t events db).2.
Proof.
  intros Hns. apply transaction_fades. repeat keeps_step; [apply owner_fades|by apply append_events_fades].
Qed.

Lemma budget_terminal_fades checkpoint cancellation events :
  plain checkpoint -> plain cancellation -> Forall plain events ->
  forall db, fades db (commit_budget_terminal_transition checkpoint cancellation events db).2.
Proof.
  intros H1 H2 H3. apply transaction_fades. unfold cancel_if.
  repeat keeps_step; first [apply owner_fades | apply exhausted_fades | by apply append_fades
    | by apply append_events_fades].
Qed.
End store.

(** ** Methods that start no turn *)

Section retires.
Context `{codec : RowCodec} `{entropy : Entropy}.

(** The signals and the turns registered for them. *)
Definition memory (rt : Runtime) : list bool * gmap SessionId ActiveCancellationEntry :=
  (rt_signals rt, rt_active rt).

(** No session got busy, no request to cancel was cleared, and the memory is
    as it was. *)
Definition subsides (rt rt' : Runtime) : Prop :=
  fades (rt_store rt) (rt_store rt') /\ memory rt' = memory rt.

#[export] Instance subsides_preorder : PreOrder subsides.
Proof.
  split; [by intros rt; split|]. intros a b c [H1 H2] [H3 H4].
  split; [by etrans|]. by rewrite H4.
Qed.

(** However the method ends, it subsides; and what it returns satisfies
    [P]. *)
Definition retires {A} (P : A -> Prop) (m : Rt A) : Prop :=
  forall rt, subsides rt (m rt).2 /\ forall a, (m rt).1 = Ok a -> P a.

(** If the method succeeds, the session is idle at its end. *)
Definition ends (s : SessionId) {A} (m : Rt A) : Prop :=
  forall rt a rt', m rt = (Ok a, rt') -> idle s (rt_store rt').

Lemma retires_weaken {A} (P Q : A -> Prop) (m : Rt A) :
  (forall a, P a -> Q a) -> retires P m -> retires Q m.
Proof. intros HPQ Hm rt. destruct (Hm rt) as [H1 H2]. split; [done|]. eauto. Qed.

Lemma retires_ret {A} (P : A -> Prop) (a : A) : P a -> retires P (mret a).
Proof. intros Ha rt. split; [done|]. by intros a' [= <-]. Qed.

Lemma retires_bind {A B} (P : A -> Prop) (Q : B -> Prop) (m : Rt A) (k : A -> Rt B) :
  retires P m -> (forall a, P a -> retires Q (k a)) -> retires Q (m ≫= k).
Proof.
  intros Hm Hk rt. destruct (Hm rt) as [H1 H2]. unfold mbind, rt_bind.
  destruct (m rt) as [[a|e] rt']; simpl in *; [|by split].
  destruct (Hk a (H2 a eq_refl) rt') as [H3 H4]. split; [by etrans|done].
Qed.

Lemma retires_then {A B} (Q : B -> Prop) (m : Rt A) (k : A -> Rt B) :
  retires (fun _ => True) m -> (forall a, retires Q (k a)) -> retires Q (m ≫= k).
Proof. intros Hm Hk. by apply (retires_bind (fun _ => True)). Qed.

Lemma retires_read {A} (f : Db -> A) : retires (fun _ => True) (read f).
Proof. by intros rt. Qed.
Lemma retires_read_result {A} (f : Db -> Result A) : retires (fun _ => True) (read_result f).
Proof. by intros rt. Qed.
Lemma retires_lift {A} (r : Result A) : retires (fun _ => True) (rt_lift r).
Proof. by intros rt. Qed.
Lemma retires_fail {A} e : retires (fun _ => True) (rt_fail e : Rt A).
Proof. by intros rt. Qed.
Lemma retires_fresh_id {tag} : retires (fun _ => True) (fresh_id : Rt (UuidId tag)).
Proof. by intros rt. Qed.
Lemma retires_now : retires (fun _ => True) now_utc.
Proof. by intros rt. Qed.
Lemma retires_publish event q : retires (fun _ => True) (publish_committed_event event q).
Proof. by intros rt. Qed.

Lemma retires_commit {A} (f : Db -> Result A * Db) :
  (forall db, fades db (f db).2) -> retires (fun _ => True) (commit f).
Proof.
  intros Hf rt. specialize (Hf (rt_store rt)). unfold commit. by destruct (f (rt_store rt)).
Qed.

Lemma retires_iter {A} (f : A -> Rt unit) l :
  (forall a, retires (fun _ => True) (f a)) -> retires (fun _ => True) (rt_iter f l).
Proof.
  intros Hf. induction l as [|a l IH]; simpl; [by apply retires_ret|]. by apply retires_then.
Qed.

Lemma rt_bind_Ok {A B} (m : Rt A) (k : A -> Rt B) rt b rt' :
  (m ≫= k) rt = (Ok b, rt') <-> exists a rt1, m rt = (Ok a, rt1) /\ k a rt1 = (Ok b, rt').
Proof.
  unfold mbind, rt_bind. destruct (m rt) as [[a|e] rt1]; split.
  - eauto.
  - by intros (a' & rt1' & [= <- <-] & H).
  - done.
  - by intros (a' & rt1' & ? & H).
Qed.

Lemma ends_here s {A B} (Q : B -> Prop) (m : Rt A) (k : A -> Rt B) :
  ends s m -> (forall a, retires Q (k a)) -> ends s (m ≫= k).
Proof.
  intros Hm Hk rt b rt' (a & rt1 & H1 & H2)%rt_bind_Ok.
  destruct (Hk a rt1) as [[[Hs _] _] _]. rewrite H2 in Hs. eapply idle_shrinks; [exact Hs|]. by eapply Hm.
Qed.

Lemma ends_later s {A B} (P : A -> Prop) (m : Rt A) (k : A -> Rt B) :
  retires P m -> (forall a, P a -> ends s (k a)) -> ends s (m ≫= k).
Proof.
  intros Hm Hk rt b rt' (a & rt1 & H1 & H2)%rt_bind_Ok. eapply Hk; [|exact H2].
  destruct (Hm rt) as [_ HP]. apply HP. by rewrite H1.
Qed.

Lemma ends_then s {A B} (m : Rt A) (k : A -> Rt B) :
  retires (fun _ => True) m -> (forall a, ends s (k a)) -> ends s (m ≫= k).
Proof. intros Hm Hk. by apply (ends_later s (fun _ => True)). Qed.
End retires.

Create HintDb retires.
#[export] Hint Resolve retires_ret retires_read retires_read_result retires_lift retires_fail
  retires_fresh_id retires_now retires_publish retires_iter : retires.

(** Takes a [retires] or [ends] goal apart where nothing about the values is
    needed. *)
Ltac retire_step :=
  match goal with
  | |- retires _ (let '(_, _) := ?x in _) => destruct x; cbv beta iota
  | |- retires _ (match ?x with _ => _ end) => destruct x eqn:?; cbv beta iota
  | |- retires _ (if ?b then _ else _) => destruct b eqn:?; cbv beta iota
  | |- retires _ (let _ := _ in _) => cbv zeta
  | |- retires _ (mret _) => by apply retires_ret
  | |- retires _ (_ ≫= _) => apply retires_then; [solve [eauto with retires]|intros ?; cbv beta]
  | |- ends _ (let '(_, _) := ?x in _) => destruct x; cbv beta iota
  | |- retires _ _ => by eauto with retires
  end.
Ltac retire := repeat retire_step.

Section events.
Context `{codec : RowCodec} `{entropy : Entropy}.

(** An event of the session that starts no turn. *)
Definition harmless (s : SessionId) (event : EventEnvelope) : Prop :=
  plain event /\ ev_session_id event = s.

Lemma retires_new_event s b k p :
  starts_or_clears p = false -> retires (harmless s) (new_event s b k p).
Proof.
  intros Hp. unfold new_event. do 3 (apply retires_then; [by auto with retires|intros ?]).
  by apply retires_ret.
Qed.

Lemma harmless_attribute s event key value :
  harmless s event -> harmless s (with_attribute event key value).
Proof. by intros [H1 H2]. Qed.

Lemma harmless_turn s event t : harmless s event -> harmless s (bind_turn event t).
Proof. by intros [H1 H2]. Qed.

Lemma retires_turn_event s b k p t :
  starts_or_clears p = false -> retires (harmless s) (turn_event s b k p t).
Proof.
  intros Hp. apply (retires_bind _ _ _ _ (retires_new_event s b k p Hp)). intros event He.
  apply retires_ret. by destruct t as [t|]; [apply (harmless_turn _ _ t)|].
Qed.

Lemma retires_any_event s b k p t : retires (fun _ => True) (turn_event s b k p t).
Proof. by intros rt. Qed.

Lemma retires_append event : plain event -> retires (fun _ => True) (commit (append_event event)).
Proof. intros He. apply retires_commit, transaction_fades. by apply append_fades. Qed.

Lemma retires_started s b : retires (fun _ => True) (ensure_session_started_for s b).
Proof.
  unfold ensure_session_started_for. retire.
  eapply retires_bind; [by apply retires_new_event|intros event [He _]].
  apply retires_then; [by apply retires_append|intros q]. retire.
Qed.

Lemma retires_publish_all events qs : retires (fun _ => True) (publish_all events qs).
Proof. unfold publish_all. retire. Qed.
End events.

#[export] Hint Resolve retires_any_event retires_started retires_publish_all : retires.

(** ** The end of a turn *)

Section failing.
Context `{codec : RowCodec} `{entropy : Entropy}.

Lemma retires_terminal_events s b t result message :
  retires (Forall (harmless s)) (tool_terminal_events s b t result message).
Proof.
  unfold tool_terminal_events.
  eapply retires_bind; [by apply retires_turn_event|intros finished H1].
  eapply retires_bind; [by apply retires_turn_event|intros appended H2].
  apply retires_ret. by rewrite Forall_cons, Forall_singleton.
Qed.

Lemma retires_terminal_results s b t results :
  retires (Forall (harmless s)) (terminal_result_events s b t results).
Proof.
  induction results as [|result results IH]; simpl; [by apply retires_ret|].
  apply retires_then; [by intros rt|intros message].
  eapply retires_bind; [apply retires_terminal_events|intros events H1].
  eapply retires_bind; [apply IH|intros rest H2].
  apply retires_ret. by apply Forall_app.
Qed.

Lemma retires_session_error s b t k e : retires (harmless s) (session_error_event s b t k e).
Proof.
  unfold session_error_event.
  eapply retires_bind; [by apply retires_new_event|intros event He]. apply retires_ret.
  assert (harmless s (with_error_attributes event e)) by by repeat apply harmless_attribute.
  by destruct t as [t|]; [apply (harmless_turn _ _ t)|].
Qed.

Lemma retires_turn_finished s b t p m x f l :
  retires (harmless s) (turn_finished_event s b t p m x f l).
Proof.
  unfold turn_finished_event.
  eapply retires_bind; [by apply retires_new_event|intros event He]. apply retires_ret.
  assert (harmless s (bind_turn event t)) by by apply harmless_turn.
  destruct f; by repeat apply harmless_attribute.
Qed.

Lemma retires_checkpoint s b t at_time :
  retires (fun transition => match transition with
             | None => True
             | Some (checkpoint, cancellation) => harmless s checkpoint /\ harmless s cancellation
             end) (budget_checkpoint_transition_at s b t at_time).
Proof.
  unfold budget_checkpoint_transition_at. retire.
  eapply retires_bind; [by apply retires_new_event|intros checkpoint H1].
  eapply retires_bind; [by apply retires_new_event|intros cancellation H2].
  apply retires_ret. split; [by apply harmless_turn|done].
Qed.

Lemma retires_precedence s events :
  Forall plain events ->
  retires (fun p => Forall plain p.2) (read_result (apply_cancel_precedence s events)).
Proof.
  intros Hns rt. split; [done|]. intros p. simpl. unfold apply_cancel_precedence. intros H.
  apply result_bind_Ok in H as (control & _ & H).
  destruct (negb _); [by injection H as <-|]. injection H as <-.
  destruct (last events) as [finish|]; [|done].
  destruct (cancelled_finish finish) as [cancelled|] eqn:E; [|done]. simpl.
  apply Forall_app. split.
  - rewrite removelast_firstn_len. by apply Forall_take.
  - apply Forall_singleton. revert E. unfold cancelled_finish.
    by destruct (ev_payload finish); try done; intros [= <-].
Qed.

(** A batch that ends the turn fades the active turns, and, when it
    commits, leaves its session idle. *)
Lemma retires_terminal_commit s b t at_time events :
  Forall plain events ->
  retires (fun _ => True) (commit_active_turn_terminal_events s b t at_time events).
Proof.
  intros Hns. unfold commit_active_turn_terminal_events.
  eapply retires_bind; [apply retires_checkpoint|].
  intros [[checkpoint cancellation]|]; [intros [H1 H2]|intros _].
  - eapply retires_bind; [by apply retires_precedence|intros p Hp].
    apply retires_then; [apply retires_commit|intros c].
    { by apply budget_terminal_fades; [apply H1|apply H2|]. }
    apply retires_then; [auto with retires|intros _].
    apply retires_then; [unfold publish_optional; retire|intros _]. retire.
  - apply retires_then; [auto with retires|intros _].
    eapply retires_bind; [by apply retires_precedence|intros p Hp].
    apply retires_then; [by apply retires_commit, terminal_fades|intros qs]. retire.
Qed.

Lemma ends_commit s {A} (f : Db -> Result A * Db) :
  (forall db a db', f db = (Ok a, db') -> idle s db') -> ends s (commit f).
Proof.
  intros Hf rt a rt'. unfold commit. destruct (f (rt_store rt)) as [r db'] eqn:E.
  intros [= -> <-]. by eapply Hf.
Qed.

Lemma budget_terminal_idle s checkpoint cancellation events db c db' :
  harmless s checkpoint -> harmless s cancellation -> Forall plain events ->
  commit_budget_terminal_transition checkpoint cancellation events db = (Ok c, db') ->
  idle s db'.
Proof.
  intros [Hn Hs] [Hnc _] Hns Hc. apply budget_transition_Ok in Hc
    as (t & turn & db1 & seqs & Hval & Hturn & Ht & _ & _ & Happ).
  destruct (budget_terminal_shape _ _ _ _ Hval)
    as (_ & _ & Hsc & Hall & pre & last & Hlast & Hfin).
  apply plain_no_start in Hn, Hnc. apply plain_no_starts in Hns.
  rewrite <- Hs. eapply (terminal_batch (ev_session_id checkpoint) t); [| | | |exact Happ].
  - constructor; [done|]. apply Forall_app. split; [|done].
    destruct (cbc_exhausted c); by repeat constructor.
  - constructor; [done|]. apply Forall_app. split; [|done].
    destruct (cbc_exhausted c); by repeat constructor.
  - exists (checkpoint :: (if cbc_exhausted c then [cancellation] else []) ++ pre), last.
    split; [|done]. rewrite Hlast. simpl. by rewrite <- (assoc_L (++)).
  - intros row' Hrow'. rewrite Hturn in Hrow'. by injection Hrow' as <-.
Qed.

Lemma terminal_idle s b t events db qs db' :
  Forall plain events ->
  commit_turn_terminal_transition s b t events db = (Ok qs, db') -> idle s db'.
Proof.
  intros Hns%plain_no_starts. unfold commit_turn_terminal_transition. rewrite transaction_Ok. intros Hc. invert_tx.
  destruct a. apply owns_Ok in Htx0 as (-> & row & Hrow & Hb & Ht).
  apply terminal_events_Ok in Htx as [Hs Hlast].
  eapply terminal_batch; [done|done|exact Hlast| |exact Hc].
  intros row' Hrow'. rewrite Hrow in Hrow'. by injection Hrow' as <-.
Qed.

Lemma ends_terminal_commit s b t at_time events :
  Forall plain events -> ends s (commit_active_turn_terminal_events s b t at_time events).
Proof.
  intros Hns. unfold commit_active_turn_terminal_events.
  eapply ends_later; [apply retires_checkpoint|].
  intros [[checkpoint cancellation]|]; [intros [H1 H2]|intros _].
  - eapply ends_later; [by apply retires_precedence|intros p Hp].
    eapply (ends_here _ (fun _ => True)); [apply ends_commit|intros c].
    { intros db c db' Hc. exact (budget_terminal_idle _ _ _ _ _ _ _ H1 H2 Hp Hc). }
    apply retires_then; [auto with retires|intros _].
    apply retires_then; [unfold publish_optional; retire|intros _]. retire.
  - apply ends_then; [auto with retires|intros _].
    eapply ends_later; [by apply retires_precedence|intros p Hp].
    eapply (ends_here _ (fun _ => True)); [apply ends_commit|intros qs; retire].
    intros db qs db' Hc. exact (terminal_idle _ _ _ _ _ _ _ Hp Hc).
Qed.

(** The events of a failure. *)
Lemma failure_events_plain s results failure finish :
  Forall (harmless s) results -> harmless s failure -> harmless s finish ->
  Forall plain (results ++ [failure; finish]).
Proof.
  intros Hr [Hf _] [Hn _]. apply Forall_app. split; [|by rewrite Forall_cons, Forall_singleton].
  eapply Forall_impl; [exact Hr|]. by intros event [H _].
Qed.

Lemma retires_turn_failure s b p m t rs e f l :
  retires (fun _ => True) (record_turn_failure_transition_with_reason_outcome s b p m t rs e f l).
Proof.
  unfold record_turn_failure_transition_with_reason_outcome.
  apply retires_then; [auto with retires|intros terminal_at].
  eapply retires_bind; [apply retires_terminal_results|intros results H1].
  eapply retires_bind; [apply retires_session_error|intros failure H2].
  eapply retires_bind; [apply retires_turn_finished|intros finish H3].
  by eapply retires_terminal_commit, failure_events_plain.
Qed.

Lemma ends_turn_failure s b p m t rs e f l :
  ends s (record_turn_failure_transition_with_reason_outcome s b p m t rs e f l).
Proof.
  unfold record_turn_failure_transition_with_reason_outcome.
  apply ends_then; [auto with retires|intros terminal_at].
  eapply ends_later; [apply retires_terminal_results|intros results H1].
  eapply ends_later; [apply retires_session_error|intros failure H2].
  eapply ends_later; [apply retires_turn_finished|intros finish H3].
  by eapply ends_terminal_commit, failure_events_plain.
Qed.
End failing.

#[export] Hint Resolve retires_turn_failure : retires.

(** ** Recovery *)

Section recovery.
Context `{codec : RowCodec} `{entropy : Entropy}.

Lemma retires_recover_turn turn : retires (fun _ => True) (recover_turn turn).
Proof. unfold recover_turn. destruct (recovery_reason _). retire. Qed.

Lemma ends_recover_turn turn : ends (tv_session_id turn) (recover_turn turn).
Proof.
  unfold recover_turn. destruct (recovery_reason _).
  apply ends_then; [auto with retires|intros events].
  eapply (ends_here _ (fun _ => True)); [apply ends_turn_failure|intros outcome; retire].
Qed.

Lemma ends_recover_turns turns turn :
  turn ∈ turns -> ends (tv_session_id turn) (rt_iter recover_turn turns).
Proof.
  induction 1 as [turn turns|turn turn' turns _ IH]; simpl.
  - eapply (ends_here _ (fun _ => True)); [apply ends_recover_turn|intros _].
    apply retires_iter, retires_recover_turn.
  - apply ends_then; [apply retires_recover_turn|intros _; exact IH].
Qed.

Lemma retires_message_events s b t s' b' k d r x a :
  retires (fun _ => True) (related_session_message_events s b t s' b' k d r x a).
Proof.
  unfold related_session_message_events. retire; by intros rt.
Qed.

Lemma retires_destination s b d r x :
  retires (fun _ => True) (resolve_related_session_destination_branch s b d r x).
Proof. unfold resolve_related_session_destination_branch. retire. Qed.

Lemma retires_send s b t s' b' k d r x a :
  retires (fun _ => True) (send_related_session_message s b t s' b' k d r x a).
Proof.
  assert (forall sent received,
    retires (fun _ => True) (commit (commit_related_session_message sent received)))
    as Hdeliver by (intros; apply retires_commit; intros db; apply deliver_fades).
  pose proof retires_destination. pose proof retires_message_events.
  unfold send_related_session_message. retire.
Qed.

Lemma retires_reply s b t kind text records obligation :
  retires (fun _ => True) (reply_to_obligation s b t kind text records obligation).
Proof.
  assert (forall o sent received settled,
    retires (fun _ => True) (commit (settle_related_session_message o sent received settled)))
    as Hsettle by (intros; apply retires_commit; intros db; apply settle_fades).
  pose proof retires_message_events. pose proof retires_send.
  unfold reply_to_obligation. retire.
Qed.

Lemma retires_obligations s b t kind text :
  retires (fun _ => True) (record_related_reply_obligations s b t kind text).
Proof.
  unfold record_related_reply_obligations.
  apply retires_then; [auto with retires|intros records]. generalize (List.filter (is_obligation b) records).
  intros obligations. induction obligations as [|obligation rest IH]; simpl; [by apply retires_ret|].
  apply retires_then; [by apply retires_reply|intros n].
  apply retires_then; [exact IH|intros m]. retire.
Qed.

Lemma retires_outcome s b t stop_reason :
  retires (fun _ => True) (record_related_turn_outcome s b t stop_reason).
Proof.
  unfold record_related_turn_outcome.
  apply retires_then; [destruct stop_reason; retire|intros reply]. apply retires_obligations.
Qed.

Lemma retires_related_failure s b t e :
  retires (fun _ => True) (record_related_turn_failure s b t e).
Proof. apply retires_obligations. Qed.

Lemma retires_repair obligation : retires (fun _ => True) (repair_obligation obligation).
Proof.
  pose proof retires_outcome. pose proof retires_related_failure.
  unfold repair_obligation. retire. apply retires_then; [retire|intros n; retire].
Qed.

Lemma retires_repair_all : retires (fun _ => True) repair_related_session_reply_settlements.
Proof.
  pose proof retires_repair. unfold repair_related_session_reply_settlements. retire.
Qed.

Lemma retires_recovery : retires (fun _ => True) recover_interrupted_turns.
Proof.
  apply retires_then; [auto with retires|intros turns].
  apply retires_then; [apply retires_iter, retires_recover_turn|intros _].
  apply retires_repair_all.
Qed.
End recovery.

(** C12. Startup recovery ends every interrupted turn: over a reachable store
    in which no turn id is shared between sessions, when
    [recover_interrupted_turns] reports success no session has an active turn
    any more; and whatever it reports, it makes no session busy. *)
Theorem recovery_ends_turns `{RowCodec} `{Entropy} owner rt :
  reachable (rt_store rt) -> turns_owned owner (db_events (rt_store rt)) ->
  shrinks (rt_store rt) (rt_store (recover_interrupted_turns rt).2)
  /\ ((recover_interrupted_turns rt).1 = Ok tt ->
      db_active_turns (rt_store (recover_interrupted_turns rt).2) = ∅).
Proof.
  intros Hr Hown.
  destruct (unfinished_turns_are_active owner _ Hr Hown) as (_ & _ & Hall).
  assert (shrinks (rt_store rt) (rt_store (recover_interrupted_turns rt).2)) as Hshrinks
    by apply retires_recovery.
  split; [exact Hshrinks|]. intros Hok.
  destruct (recover_interrupted_turns rt) as [r rt'] eqn:E. simpl in *. subst r.
  apply map_empty. intros s. destruct (db_active_turns (rt_store rt') !! s) as [row|] eqn:Hrow; [|done].
  assert (db_active_turns (rt_store rt) !! s = Some row) as Hrow0 by by eapply lookup_weaken.
  destruct (Hall s row Hrow0) as (turn & Hturn & <- & _).
  apply rt_bind_Ok in E as (turns & rt1 & [= <- <-] & E).
  assert (idle (tv_session_id turn) (rt_store rt')) as Hidle; [|by unfold idle in Hidle; congruence].
  revert E. apply (ends_here _ (fun _ => True)); [by apply ends_recover_turns|].
  intros _. apply retires_repair_all.
Qed.

#[local] Existing Instance unary_codec.
#[local] Existing Instance counting_entropy.

(** A session whose turn was running when the process stopped. *)
Definition interrupted_runtime : Runtime := fresh_runtime busy_db [sample_connection].

Lemma recovery_ends_turns_witness :
  size (db_active_turns (rt_store interrupted_runtime)) = 1%nat
  /\ length (rt_bus (recover_interrupted_turns interrupted_runtime).2) = 2%nat
  /\ db_active_turns (rt_store (recover_interrupted_turns interrupted_runtime).2) = ∅.
Proof.
  split; [vm_compute; reflexivity|]. split; [vm_compute; reflexivity|].
  apply (recovery_ends_turns (fun _ => MkUuid 1) interrupted_runtime); [exact busy_reachable| |].
  - change (rt_store interrupted_runtime) with busy_db.
    assert (db_events busy_db = _) as -> by (vm_compute; reflexivity).
    repeat constructor.
  - vm_compute. reflexivity.
Defined.
