(* ===== verification/CancelLaws.v ===== *)
(** * Cancellation: what a committed cancellation stops

    A cancellation is an event of the log first.  From its commit on, the
    runtime records no further tool request or result message of the session
    until the cancellation is cleared, the finish of the turn is recorded as
    cancelled, and the signal of exactly the active turn is set. *)

From stdpp Require Import base list strings gmap.
From Stdlib Require Import ZArith Lia.
From S2P Require Import Prelude Text Json Types Messages TurnProjection Approvals Store StoreOps.
From S2P Require Import StoreRelated StoreLaws StoreReplay StoreAdmission StoreLifecycle.
From S2P Require Import StoreQueries Runtime RuntimeBudget RuntimeRecords RuntimeSessions RuntimeRecovery.
From S2P Require Import RecoveryLaws.

#[local] Open Scope Z_scope.

Section cancel.
Context `{codec : RowCodec} `{entropy : Entropy}.

(** A session with a pending cancellation and something in its log. *)
Definition cancel_pending (s : SessionId) (db : Db) : Prop :=
  cancel_requested s db = true /\ session_has_events s db = true.

Lemma pending_is_read s rt :
  cancel_pending s (rt_store rt) ->
  is_cancelled s rt = (Ok true, rt) \/ exists e, is_cancelled s rt = (Err e, rt).
Proof.
  intros [Hc _]. unfold cancel_requested in Hc.
  unfold is_cancelled, load_session_control, read_result, mbind, rt_bind.
  destruct (db_control (rt_store rt) !! s) as [row|]; [|done].
  unfold storage. destruct (parse_time _) as [updated_at|]; simpl; [|eauto].
  rewrite Hc. by left.
Qed.

Lemma bind_known {A B} (m : Rt A) (k : A -> Rt B) rt a rt' :
  m rt = (Ok a, rt') -> (m ≫= k) rt = k a rt'.
Proof. unfold mbind, rt_bind. by intros ->. Qed.

Lemma bind_failed {A B} (m : Rt A) (k : A -> Rt B) rt e rt' :
  m rt = (Err e, rt') -> (m ≫= k) rt = (Err e, rt').
Proof. unfold mbind, rt_bind. by intros ->. Qed.

Lemma started_already s b rt :
  session_has_events s (rt_store rt) = true -> ensure_session_started_for s b rt = (Ok tt, rt).
Proof.
  intros Hev. unfold ensure_session_started_for. rewrite (bind_known _ _ rt true rt); [done|].
  unfold read. by rewrite Hev.
Qed.

(** The guarded commit does nothing at all. *)
Lemma pending_refuses s b t events rt :
  cancel_pending s (rt_store rt) ->
  (commit_unless_cancelled s b t events rt).2 = rt
  /\ (commit_unless_cancelled s b t events rt).1 <> Ok false.
Proof.
  intros Hp. unfold commit_unless_cancelled.
  rewrite (bind_known _ _ _ _ _ (started_already s b rt (proj2 Hp))).
  destruct (pending_is_read s rt Hp) as [E|[e E]].
  - by rewrite (bind_known _ _ _ _ _ E).
  - by rewrite (bind_failed _ _ _ _ _ E).
Qed.

(** The store and the broadcast are left alone. *)
Definition untouched (rt rt' : Runtime) : Prop :=
  rt_store rt' = rt_store rt /\ rt_bus rt' = rt_bus rt.

Lemma untouched_pending s rt rt' :
  untouched rt rt' -> cancel_pending s (rt_store rt) -> cancel_pending s (rt_store rt').
Proof. by intros [-> _]. Qed.

(** Events are built before the lock is taken. *)
Lemma message_events_built s b t messages rt :
  exists events rt', message_events s b t messages rt = (Ok events, rt') /\ untouched rt rt'.
Proof.
  revert rt. induction messages as [|message messages IH]; intros rt; simpl; [by exists [], rt|].
  edestruct IH as (events & rt' & E & H).
  eexists _, rt'. split; [erewrite bind_known by done; by erewrite bind_known|exact H].
Qed.

Lemma request_events_built s b t c n a o m rt :
  exists events rt', tool_request_events s b t c n a o m rt = (Ok events, rt') /\ untouched rt rt'.
Proof. eexists _, _. split; [reflexivity|done]. Qed.

(** Neither a tool request nor a result message is recorded. *)
Lemma pending_refuses_request s b t c n a o m rt :
  cancel_pending s (rt_store rt) ->
  untouched rt (record_tool_request_transition s b t c n a o m rt).2
  /\ (record_tool_request_transition s b t c n a o m rt).1 <> Ok true.
Proof.
  intros Hp. unfold record_tool_request_transition.
  destruct (request_events_built s b t c n a o m rt) as (events & rt1 & E & Hu).
  rewrite (bind_known _ _ _ _ _ E). apply (untouched_pending _ _ _ Hu) in Hp.
  destruct (pending_refuses s b t events rt1 Hp) as [H1 H2].
  destruct (commit_unless_cancelled s b t events rt1) as [[[]|e] rt2] eqn:Ec; simpl in *; subst rt2.
  - by rewrite (bind_known _ _ _ _ _ Ec).
  - done.
  - by rewrite (bind_failed _ _ _ _ _ Ec).
Qed.

Lemma pending_refuses_results s b t messages rt :
  cancel_pending s (rt_store rt) ->
  untouched rt (append_turn_result_messages_unless_cancelled s b t messages rt).2
  /\ (append_turn_result_messages_unless_cancelled s b t messages rt).1 <> Ok false.
Proof.
  intros Hp. unfold append_turn_result_messages_unless_cancelled.
  destruct (message_events_built s b t messages rt) as (events & rt1 & E & Hu).
  rewrite (bind_known _ _ _ _ _ E). apply (untouched_pending _ _ _ Hu) in Hp.
  destruct events as [|event events].
  - destruct (pending_is_read s rt1 Hp) as [->|[e ->]]; done.
  - destruct (pending_refuses s b t (event :: events) rt1 Hp) as [H1 H2].
    by destruct (commit_unless_cancelled _ _ _ _ rt1) as [r rt2]; simpl in *; subst rt2.
Qed.

(** The finish of a turn becomes a cancelled one. *)
Lemma pending_takes_precedence s events finish db p :
  cancel_pending s db -> is_turn_finished finish = true ->
  apply_cancel_precedence s (events ++ [finish]) db = Ok p ->
  exists cancelled, cancelled_finish finish = Some cancelled /\ p = (true, events ++ [cancelled]).
Proof.
  intros [Hc _] Hf. unfold apply_cancel_precedence, load_session_control, cancel_requested in *.
  destruct (db_control db !! s) as [row|]; [|done]. unfold storage.
  destruct (parse_time _); simpl; [|done]. rewrite Hc. simpl.
  rewrite last_snoc, removelast_last. unfold is_turn_finished, cancelled_finish in *.
  destruct (ev_payload finish); try done. intros [= <-]. eauto.
Qed.

(** ** The call that cancels *)

(** Nothing in memory but the supply changed. *)
Definition same_memory (rt rt' : Runtime) : Prop :=
  rt_active rt' = rt_active rt /\ rt_signals rt' = rt_signals rt.

Lemma started_memory s b rt u rt' :
  ensure_session_started_for s b rt = (Ok u, rt') -> same_memory rt rt'.
Proof.
  unfold ensure_session_started_for. intros (has & rt1 & [= <- <-] & H)%rt_bind_Ok.
  destruct (session_has_events s (rt_store rt)); [by injection H as <- <-|].
  apply rt_bind_Ok in H as (loaded & rt1 & [= _ <-] & H).
  apply rt_bind_Ok in H as (session & rt1 & [= _ <-] & H).
  apply rt_bind_Ok in H as (event & rt1 & [= <- <-] & H).
  apply rt_bind_Ok in H as (q & rt1 & Hc & H). injection H as <- <-.
  unfold commit in Hc. destruct (append_event _ _) as [r db]. by injection Hc as _ <-.
Qed.

(** The signal set by a cancellation: that of the entry of the active turn. *)
Definition cancelled_signal (s : SessionId) (rt : Runtime) : option nat :=
  claim ← active_turn_claim s (rt_store rt);
  entry ← rt_active rt !! s;
  if bool_decide (ac_branch_id entry = claim.1) && bool_decide (ac_turn_id entry = claim.2)
  then Some (ac_signal entry) else None.

Definition set_signal (signal : option nat) (signals : list bool) : list bool :=
  match signal with Some i => <[i := true]> signals | None => signals end.

Lemma append_cancelled_active event db q db' :
  is_session_cancelled event = true -> append_event event db = (Ok q, db') ->
  db_active_turns db' = db_active_turns db.
Proof.
  unfold append_event. rewrite transaction_Ok. intros Hc [H _]%append_active.
  revert H. unfold replay_boundary, is_session_cancelled in *.
  by destruct (ev_payload event); try done; intros [= ->].
Qed.

Lemma append_has_events event db q db' :
  append_event event db = (Ok q, db') -> session_has_events (ev_session_id event) db' = true.
Proof.
  unfold append_event. rewrite transaction_Ok. intros (_ & _ & E & _)%append_log.
  unfold session_has_events, any. rewrite E, existsb_app. simpl.
  unfold in_session at 2. simpl. rewrite bool_decide_eq_true_2 by done. by rewrite orb_true_r.
Qed.

Lemma append_cancels event db q db' :
  is_session_cancelled event = true -> append_event event db = (Ok q, db') ->
  cancel_requested (ev_session_id event) db' = true.
Proof.
  unfold append_event. rewrite transaction_Ok. intros Hc H.
  rewrite (append_cancel _ _ _ _ _ H). unfold cancel_step, is_session_cancelled in *.
  destruct (ev_payload event); try done. by rewrite bool_decide_eq_true_2.
Qed.

Lemma cancel_session_Ok s b reason rt q rt' :
  cancel_session s b reason rt = (Ok q, rt') ->
  cancel_pending s (rt_store rt')
  /\ rt_active rt' = rt_active rt
  /\ rt_signals rt' = set_signal (cancelled_signal s rt') (rt_signals rt).
Proof.
  unfold cancel_session. intros (event & rt1 & Hev & H)%rt_bind_Ok.
  assert (ev_session_id event = s /\ is_session_cancelled event = true /\ same_memory rt rt1)
    as (Hs & Hc & Ha1 & Hs1) by by injection Hev as <- <-.
  apply rt_bind_Ok in H as ([] & rt2 & [Ha2 Hs2]%started_memory & H).
  apply rt_bind_Ok in H as (claim & rt3 & [= <- <-] & H).
  apply rt_bind_Ok in H as (u & rt3 & [= _ <-] & H).
  apply rt_bind_Ok in H as (q' & rt3 & Hcommit & H). unfold commit in Hcommit.
  destruct (append_event event (rt_store rt2)) as [r db] eqn:E. injection Hcommit as -> <-.
  pose proof (append_cancelled_active _ _ _ _ Hc E) as Hactive.
  pose proof (append_has_events _ _ _ _ E) as Hev'. pose proof (append_cancels _ _ _ _ Hc E) as Hcan.
  rewrite Hs in Hev', Hcan.
  apply rt_bind_Ok in H as (rt4 & rt5 & [= <- <-] & H).
  assert (forall rt6, rt_store rt6 = db -> rt_active rt6 = rt_active rt2 ->
    cancelled_signal s rt6
    = (claim ← active_turn_claim s (rt_store rt2); entry ← rt_active rt2 !! s;
       if bool_decide (ac_branch_id entry = claim.1) && bool_decide (ac_turn_id entry = claim.2)
       then Some (ac_signal entry) else None)) as Hsignal.
  { intros rt6 Hst Hact. unfold cancelled_signal, active_turn_claim.
    by rewrite Hst, Hact, Hactive. }
  apply rt_bind_Ok in H as (u' & rt6 & Hsig & H).
  assert (rt_store rt' = rt_store rt6 /\ same_memory rt6 rt') as (Hst & Ha7 & Hs7)
    by by injection H as <- <-.
  assert (rt_store rt6 = db /\ rt_active rt6 = rt_active rt2
    /\ rt_signals rt6 = set_signal (cancelled_signal s rt6) (rt_signals rt2)) as (Hst6 & Ha6 & Hs6).
  { revert Hsig. simpl. destruct (active_turn_claim s (rt_store rt2)) as [[b' t']|] eqn:Hclaim.
    - destruct (rt_active rt2 !! s) as [entry|] eqn:Hentry.
      + destruct (bool_decide _ && bool_decide _) eqn:Hown; intros [= _ <-]; split_and!; try done;
          rewrite Hsignal by done; simpl; by rewrite Hown.
      + intros [= _ <-]. split_and!; try done. by rewrite Hsignal.
    - intros [= _ <-]. split_and!; try done. by rewrite Hsignal. }
  assert (cancelled_signal s rt' = cancelled_signal s rt6) as Heq
    by (rewrite !Hsignal; congruence).
  split_and!; [split; congruence|congruence|congruence].
Qed.
End cancel.

(** C10. A committed cancellation is obeyed at once: [cancel_session] sets
    the signal registered for exactly the turn that is active, and no other;
    in the state it leaves no tool request and no result message of the
    session is recorded, the store and the broadcast staying as they are,
    whatever turn asks; and the events that finish a turn end with a cancelled
    finish. *)
Theorem cancel_is_obeyed `{RowCodec} `{Entropy} s b reason rt q rt' :
  cancel_session s b reason rt = (Ok q, rt') ->
  rt_signals rt' = set_signal (cancelled_signal s rt') (rt_signals rt)
  /\ (forall b' t c n a o m,
        let r := record_tool_request_transition s b' t c n a o m rt' in
        untouched rt' r.2 /\ r.1 <> Ok true)
  /\ (forall b' t messages,
        let r := append_turn_result_messages_unless_cancelled s b' t messages rt' in
        untouched rt' r.2 /\ r.1 <> Ok false)
  /\ (forall events finish p, is_turn_finished finish = true ->
        apply_cancel_precedence s (events ++ [finish]) (rt_store rt') = Ok p ->
        exists cancelled, cancelled_finish finish = Some cancelled
          /\ p = (true, events ++ [cancelled])).
Proof.
  intros (Hp & _ & Hsignals)%cancel_session_Ok. split_and!; [done| | |].
  - intros. by apply pending_refuses_request.
  - intros. by apply pending_refuses_results.
  - intros. by eapply pending_takes_precedence.
Qed.

#[local] Existing Instance unary_codec.
#[local] Existing Instance counting_entropy.

(** A busy session whose turn is registered, and the registered one of
    another session. *)
Definition registered_runtime : Runtime :=
  (begin_active_turn_cancellation (MkUuid 1) (MkUuid 2) (MkUuid 20)
     (set_active {[MkUuid 3 := MkActiveCancellationEntry (MkUuid 4) (MkUuid 5) 0]}
       (set_signals [false] (fresh_runtime busy_db [sample_connection])))).2.

Lemma cancel_is_obeyed_witness :
  let rt' := (cancel_session (MkUuid 1) (MkUuid 2) "stop" registered_runtime).2 in
  rt_signals registered_runtime = [false; false] /\ rt_signals rt' = [false; true]
  /\ forall b' t c n a o m,
       (record_tool_request_transition (MkUuid 1) b' t c n a o m rt').1 <> Ok true.
Proof.
  cbv zeta. assert ((cancel_session (MkUuid 1) (MkUuid 2) "stop" registered_runtime).1 = Ok 3)
    as Hres by (vm_compute; reflexivity).
  destruct (cancel_is_obeyed (MkUuid 1) (MkUuid 2) "stop" registered_runtime 3 _
    (eq_trans (surjective_pairing _) (f_equal (fun r => (r, _)) Hres))) as (Hs & Hreq & _).
  split; [vm_compute; reflexivity|]. split; [rewrite Hs; vm_compute; reflexivity|].
  intros b' t c n a o m. exact (proj2 (Hreq b' t c n a o m)).
Defined.
