(* ===== verification/BlockedStart.v ===== *)
(** * A budget of unknown cost keeps the runtime from starting

    [commit_active_turn_terminal_events] checkpoints the budget of a turn
    that recovery ends.  When an earlier turn left the session's cost unknown
    and the interrupted one has only priced completions, the store refuses
    the checkpoint: recovery fails, and with it every attempt to open the
    store, which is left as it was. *)

From stdpp Require Import base list strings gmap.
From Stdlib Require Import ZArith Lia.
From S2P Require Import Prelude Text Json Types Messages TurnProjection Approvals Store StoreOps.
From S2P Require Import StoreRelated StoreLaws StoreReplay StoreAdmission StoreLifecycle.
From S2P Require Import StoreQueries Runtime RuntimeBudget RuntimeRecords RuntimeSessions.
From S2P Require Import RuntimeRelated RuntimeRecovery RecoveryLaws.

#[local] Open Scope Z_scope.

Section observes.
Context `{codec : RowCodec} `{entropy : Entropy}.

(** Run on the store [db], the method leaves it, and what it returns
    satisfies [P]; with [P] false it fails. *)
Definition observes (db : Db) {A} (P : A -> Prop) (m : Rt A) : Prop :=
  forall rt, rt_store rt = db -> rt_store (m rt).2 = db /\ forall a, (m rt).1 = Ok a -> P a.

Definition fails (db : Db) {A} (m : Rt A) : Prop := observes db (fun _ => False) m.

Lemma observes_bind db {A B} (P : A -> Prop) (Q : B -> Prop) (m : Rt A) (k : A -> Rt B) :
  observes db P m -> (forall a, P a -> observes db Q (k a)) -> observes db Q (m ≫= k).
Proof.
  intros Hm Hk rt Hrt. destruct (Hm rt Hrt) as [H1 H2]. unfold mbind, rt_bind.
  destruct (m rt) as [[a|e] rt']; simpl in *; [|done]. by apply (Hk a (H2 a eq_refl)).
Qed.

Lemma observes_then db {A B} (Q : B -> Prop) (m : Rt A) (k : A -> Rt B) :
  observes db (fun _ => True) m -> (forall a, observes db Q (k a)) -> observes db Q (m ≫= k).
Proof. intros Hm Hk. by apply (observes_bind db (fun _ => True)). Qed.

Lemma fails_bind db {A B} (Q : B -> Prop) (m : Rt A) (k : A -> Rt B) :
  fails db m -> observes db Q (m ≫= k).
Proof. intros Hm. by eapply observes_bind. Qed.

Lemma fails_Err db {A} (m : Rt A) rt :
  fails db m -> rt_store rt = db -> rt_store (m rt).2 = db /\ exists e, (m rt).1 = Err e.
Proof.
  intros Hm Hrt. destruct (Hm rt Hrt) as [H1 H2]. split; [done|].
  destruct (m rt).1 as [a|e]; [by destruct (H2 a)|eauto].
Qed.

Lemma observes_lift db {A} (r : Result A) : observes db (fun a => r = Ok a) (rt_lift r).
Proof. by intros rt Hrt. Qed.

Lemma observes_read db {A} (f : Db -> A) : observes db (fun a => a = f db) (read f).
Proof. intros rt Hrt. split; [done|]. intros a [= <-]. by rewrite Hrt. Qed.

Lemma observes_read_result db {A} (f : Db -> Result A) :
  observes db (fun a => f db = Ok a) (read_result f).
Proof. intros rt Hrt. split; [done|]. intros a. simpl. by rewrite Hrt. Qed.

Lemma observes_new_event db s b k p :
  observes db (fun e => ev_payload e = p /\ ev_session_id e = s) (new_event s b k p).
Proof. intros rt Hrt. split; [done|]. by intros a [= <-]. Qed.

Lemma observes_iter db {A} (f : A -> Rt unit) l :
  (forall a, observes db (fun _ => True) (f a)) -> observes db (fun _ => True) (rt_iter f l).
Proof.
  intros Hf. induction l as [|a l IH]; simpl; [by intros rt Hrt|]. by apply observes_then.
Qed.

Lemma observes_keep_approval db f : observes db (fun _ => True) (keep_approval f).
Proof. intros rt Hrt. unfold keep_approval. by case_match. Qed.

Lemma observes_terminal_results db s b t results :
  observes db (fun _ => True) (terminal_result_events s b t results).
Proof.
  induction results as [|result results IH]; simpl; [by intros rt Hrt|].
  apply observes_then; [by intros rt Hrt|intros message].
  apply observes_then; [by intros rt Hrt|intros events].
  apply observes_then; [exact IH|intros rest]. by intros rt Hrt.
Qed.
End observes.

(** ** The window of a turn with priced completions *)

(** The turn an event counts for. *)
Definition counted_turn (event : EventEnvelope) : option TurnId :=
  match ev_turn_id event with Some t => Some t | None => payload_turn_id (ev_payload event) end.

(** The turn was not checkpointed yet, and all its completions have a cost. *)
Definition priced_event (turn_id : TurnId) (event : EventEnvelope) : Prop :=
  counted_turn event = Some turn_id ->
  match ev_payload event with
  | CompletionFinished _ _ _ _ cost _ _ => is_Some cost
  | BudgetCheckpoint _ _ _ _ => False
  | _ => True
  end.

Definition is_completion_of (turn_id : TurnId) (event : EventEnvelope) : Prop :=
  counted_turn event = Some turn_id
  /\ match ev_payload event with CompletionFinished _ _ _ _ _ _ _ => True | _ => False end.

Definition priced_turn (turn_id : TurnId) (events : list EventEnvelope) : Prop :=
  Forall (priced_event turn_id) events /\ Exists (is_completion_of turn_id) events.

(** The cost the window has counted. *)
Definition window_cost (w : TurnBudgetWindow) : option f64 * option f64 * bool :=
  (tb_base_cost_used_usd w, tb_delta_cost_used_usd w, tb_delta_cost_is_unknown w).

Lemma window_step_priced turn_id st event base delta :
  priced_event turn_id event -> window_cost st.1 = (base, delta, false) ->
  exists delta', window_cost (window_step turn_id st event).1 = (base, delta', false)
    /\ (is_Some delta \/ is_completion_of turn_id event -> is_Some delta').
Proof.
  destruct st as [w started]. unfold priced_event, is_completion_of, window_step.
  fold (counted_turn event). intros Hp Hw. simpl in Hw.
  case_bool_decide as Ht; simpl; [specialize (Hp Ht)|by exists delta; split; [|intros [?|[? _]]]].
  destruct (ev_payload event); try done; try (by exists delta; split; [|intros [?|[_ ?]]]).
  destruct Hp as [c Hc]. subst. exists (Some (f64_add (default f64_zero delta) (cb_total_usd c))).
  unfold window_cost in *. simpl. injection Hw as -> -> ->. split; [done|]. by eexists.
Qed.

Lemma window_fold_priced turn_id events st base delta :
  Forall (priced_event turn_id) events -> window_cost st.1 = (base, delta, false) ->
  exists delta', window_cost (fold_left (window_step turn_id) events st).1 = (base, delta', false)
    /\ (is_Some delta \/ Exists (is_completion_of turn_id) events -> is_Some delta').
Proof.
  intros Hp. revert st delta. induction Hp as [|event events Hp _ IH]; intros st delta Hw; simpl.
  - exists delta. split; [done|]. intros [?|H]; [done|by inversion H].
  - destruct (window_step_priced _ _ _ _ _ Hp Hw) as (d1 & Hw1 & H1).
    destruct (IH _ _ Hw1) as (d2 & Hw2 & H2). exists d2. split; [done|]. intros H. apply H2.
    rewrite Exists_cons in H. destruct H as [H|[H|H]]; auto.
Qed.

(** Such a turn checkpoints a cost even where none was known. *)
Lemma priced_checkpoint `{RowCodec} events turn_id projection terminal_at w :
  priced_turn turn_id events -> bp_cost_used_usd projection = None ->
  turn_budget_window events turn_id projection terminal_at = Ok w ->
  exists tokens turns elapsed cost,
    checkpoint_payload w = BudgetCheckpoint tokens turns elapsed (Some cost).
Proof.
  intros [Hall Hex] Hnone. unfold turn_budget_window.
  destruct (window_fold_priced turn_id events (initial_window projection, None)
    (bp_cost_used_usd projection) None Hall eq_refl) as (delta & Hw & Hd).
  destruct Hd as [cost ->]; [by right|].
  destruct (fold_left _ _ _) as [w0 started]. simpl in Hw. rewrite Hnone in Hw. intros Hok.
  assert (window_cost w = (None, Some cost, false)) as E.
  { apply result_bind_Ok in Hok as (w1 & H1 & Hok).
    assert (window_cost w1 = window_cost w0) as E1.
    { destruct (tb_already_checkpointed w0); [by injection H1 as ->|].
      apply result_bind_Ok in H1 as (at_ & _ & [= <-]). done. }
    apply result_bind_Ok in Hok as (u & _ & [= <-]).
    destruct (tb_finished_at w1); simpl; by rewrite <- Hw, <- E1. }
  unfold window_cost in E. injection E as E1 E2 E3. unfold checkpoint_payload.
  rewrite E1, E2, E3. simpl. eauto.
Qed.

(** ** The failure *)

Section blocked.
Context `{codec : RowCodec} `{entropy : Entropy}.

(** The session's budget has lost its cost, and the turn would bring one. *)
Definition unpriced (db : Db) (s : SessionId) (t : TurnId) : Prop :=
  (exists row, db_budgets db !! s = Some row /\ bu_cost_used_usd row = None)
  /\ priced_turn t (load_all_events s db).

Definition priced_transition (s : SessionId) (transition : option (EventEnvelope * EventEnvelope))
    : Prop :=
  exists checkpoint cancellation tokens turns elapsed cost,
    transition = Some (checkpoint, cancellation) /\ ev_session_id checkpoint = s
    /\ ev_payload checkpoint = BudgetCheckpoint tokens turns elapsed (Some cost).

Lemma observes_checkpoint db s b t at_time :
  unpriced db s t -> observes db (priced_transition s) (budget_checkpoint_transition_at s b t at_time).
Proof.
  intros [(row & Hrow & Hcost) Hpriced]. unfold budget_checkpoint_transition_at.
  eapply observes_bind; [apply observes_read_result|intros loaded Hloaded].
  unfold load_session_budget in Hloaded. rewrite Hrow in Hloaded.
  apply result_bind_Ok in Hloaded as (budget & _ & Hloaded).
  apply result_bind_Ok in Hloaded as (updated_at & _ & [= <-]).
  eapply observes_bind; [apply observes_read|intros events ->].
  eapply observes_bind; [apply observes_lift|intros w Hw].
  edestruct priced_checkpoint as (tokens & turns & elapsed & cost & Hp);
    [exact Hpriced| |exact Hw|]; [exact Hcost|].
  eapply observes_bind; [apply observes_new_event|intros checkpoint [Hpay Hs]].
  eapply observes_bind; [apply observes_new_event|intros cancellation _].
  intros rt Hrt. split; [done|]. intros transition [= <-].
  exists (bind_turn checkpoint t), cancellation, tokens, turns, elapsed, cost.
  split_and!; [done|exact Hs|]. simpl. congruence.
Qed.

Lemma fails_terminal_commit db s b t at_time events :
  unpriced db s t -> fails db (commit_active_turn_terminal_events s b t at_time events).
Proof.
  intros Hu. unfold commit_active_turn_terminal_events.
  eapply observes_bind; [by apply observes_checkpoint|].
  intros ? (checkpoint & cancellation & tokens & turns & elapsed & cost & -> & Hs & Hp).
  eapply observes_bind; [apply observes_read_result|intros p _].
  apply fails_bind. intros rt Hrt. destruct Hu as [(row & Hrow & Hcost) _]. rewrite <- Hs in Hrow.
  destruct (priced_checkpoint_after_unpriced_refused checkpoint cancellation p.2 true db
    _ _ _ _ _ Hp Hrow Hcost) as [e He].
  unfold commit, commit_budget_terminal_transition. rewrite Hrt, He. by split.
Qed.

Lemma fails_recover_turn db turn :
  unpriced db (tv_session_id turn) (tv_turn_id turn) -> fails db (recover_turn turn).
Proof.
  intros Hu. unfold recover_turn. destruct (recovery_reason _).
  eapply observes_bind; [apply observes_read|intros events _]. apply fails_bind.
  unfold record_turn_failure_transition_with_reason_outcome.
  apply observes_then; [by intros rt Hrt|intros terminal_at].
  apply observes_then; [apply observes_terminal_results|intros results].
  apply observes_then; [by intros rt Hrt|intros failure].
  apply observes_then; [by intros rt Hrt|intros finish]. by apply fails_terminal_commit.
Qed.

Lemma fails_recovery db turn rest :
  load_unfinished_turns db = turn :: rest ->
  unpriced db (tv_session_id turn) (tv_turn_id turn) -> fails db recover_interrupted_turns.
Proof.
  intros Hturns Hu. eapply observes_bind; [apply observes_read|intros turns ->].
  apply fails_bind. rewrite Hturns. simpl. apply fails_bind. by apply fails_recover_turn.
Qed.

Lemma fails_open_steps db turn rest :
  load_unfinished_turns db = turn :: rest ->
  unpriced db (tv_session_id turn) (tv_turn_id turn) ->
  fails db (_ ← rehydrate_approval_state; _ ← recover_interrupted_turns;
            recover_interrupted_operator_tools).
Proof.
  intros Hturns Hu. apply observes_then.
  - eapply observes_then; [intros rt Hrt; by split|intros approvals].
    apply observes_iter. intros a. apply observes_keep_approval.
  - intros _. apply fails_bind. by eapply fails_recovery.
Qed.
End blocked.

(** C32. A budget whose cost is unknown keeps the runtime from starting: when
    the first interrupted turn belongs to a session whose last checkpoint had
    no cost, and the turn's own completions all have one, [open] fails and
    leaves the store exactly as it was, so that opening it again fails in the
    same way, whatever the connections. *)
Theorem unpriced_budget_blocks_opening `{RowCodec} `{Entropy} db turn rest row connections :
  load_unfinished_turns db = turn :: rest ->
  db_budgets db !! tv_session_id turn = Some row -> bu_cost_used_usd row = None ->
  priced_turn (tv_turn_id turn) (load_all_events (tv_session_id turn) db) ->
  (exists e, (open db connections).1 = Err e)
  /\ rt_store (open db connections).2 = db
  /\ forall connections', exists e, (open (rt_store (open db connections).2) connections').1 = Err e.
Proof.
  intros Hturns Hrow Hcost Hpriced.
  assert (unpriced db (tv_session_id turn) (tv_turn_id turn)) as Hu
    by (split; [by exists row|done]).
  assert (forall connections, rt_store (open db connections).2 = db
            /\ exists e, (open db connections).1 = Err e) as Hopen.
  { intros cs. apply (fails_Err db _ (fresh_runtime db cs)); [|done]. by eapply fails_open_steps. }
  destruct (Hopen connections) as [Hst Herr]. split; [exact Herr|]. split; [exact Hst|]. rewrite Hst.
  intros cs. apply Hopen.
Qed.

#[local] Existing Instance unary_codec.
#[local] Existing Instance counting_entropy.

Definition free_completion : EventPayload :=
  CompletionFinished 1 "p" "m" zero_usage
    (Some (MkCostBreakdown f64_zero f64_zero f64_zero None None None)) "Stop" 0.

(** The process stops after the priced completion of the session's second
    turn; the first one had no cost. *)
Definition stopped_history : list StoreOp :=
  unpriced_history ++ [OpAppend (in_turn 21 (sample_event 30 free_completion))].
Definition stopped_db : Db := run_ops stopped_history db_empty.

Lemma unpriced_budget_blocks_opening_witness :
  length (db_events stopped_db) = 8%nat
  /\ exists e, (open stopped_db [sample_connection]).1 = Err e.
Proof.
  split; [vm_compute; reflexivity|].
  assert (exists turn, load_unfinished_turns stopped_db = [turn]
    /\ tv_session_id turn = MkUuid 1 /\ tv_turn_id turn = MkUuid 21) as (turn & Hturns & Hs & Ht)
    by (eexists; vm_compute; repeat split; reflexivity).
  assert (exists row, db_budgets stopped_db !! MkUuid 1 = Some row /\ bu_cost_used_usd row = None)
    as (row & Hrow & Hcost) by (eexists; vm_compute; split; reflexivity).
  refine (proj1 (unpriced_budget_blocks_opening stopped_db turn [] row [sample_connection] Hturns
    _ Hcost _)).
  - rewrite Hs. exact Hrow.
  - rewrite Hs, Ht. assert (load_all_events (MkUuid 1) stopped_db = _) as ->
      by (vm_compute; reflexivity).
    split.
    + repeat (apply List.Forall_cons; [vm_compute; intros Hturn; by discriminate Hturn || eauto|]).
      apply List.Forall_nil.
    + do 7 apply List.Exists_cons_tl. apply List.Exists_cons_hd. vm_compute. by split.
Defined.
