(* ===== verification/Orchestrator.v ===== *)
(** * The turn orchestrator ([bt-runtime/src/turn_orchestrator.rs])

    An admitted turn is run to its end: its context is prepared, compacted if
    need be, the turn loop of [AgentTurn] runs with observers that record
    every step through the runtime, and the turn that follows, if one waits,
    is run next.  The server runs this detached, with a watchdog.

    The world ([World]) is the runtime and what is outside: providers, tools
    and other tasks.  What is outside acts when it is called, and may change
    the whole world then.  A run ends with a result, panics, or is still
    running when the fuel is used up ([Ended]).  Spans and log lines are left
    out. *)

From stdpp Require Import base list strings gmap.
From Stdlib Require Import ZArith Lia.
From Stdlib Require Import Ascii.
From S2P Require Import Prelude Text Json Types Messages AgentStream AgentTurn ToolRegistry.
From S2P Require Import Approvals TurnProjection Store StoreOps StoreRelated StoreQueries.
From S2P Require Import ContextPrompt Context Runtime RuntimeBudget RuntimeRecords.
From S2P Require Import RuntimeSessions RuntimeRelated RuntimeControl RuntimeContext.

#[local] Open Scope Z_scope.

(** ** Data *)

Record TurnRunRequest : Type := MkTurnRunRequest {
  rr_session : SessionRecord;
  rr_branch : BranchRecord;
  rr_admitted_turn : AdmittedTurn;
}.

(** [TurnRunRequest::new] *)
Definition new_turn_run_request (session : SessionRecord) (branch : BranchRecord)
    (admitted_turn : AdmittedTurn) : Result TurnRunRequest :=
  _ ← reject_if
        (negb (bool_decide (br_session_id branch = se_session_id session))
         || negb (bool_decide (ad_session_id admitted_turn = se_session_id session))
         || negb (bool_decide (ad_branch_id admitted_turn = br_branch_id branch)))
        (InvalidState "admitted turn does not belong to the requested session and branch");
  Ok (MkTurnRunRequest session branch admitted_turn).

Record TurnRunOutcome : Type := MkTurnRunOutcome {
  oc_session_id : SessionId;
  oc_final_branch_id : BranchId;
  oc_stop_reason : TurnRunStopReason;
}.

Inductive TurnResultPersistenceStatus : Type :=
  | PersistCompleted | PersistAwaitingApproval | PersistAwaitingInput.

Record PersistedTurnResult : Type := MkPersistedTurnResult {
  ps_persistence : TurnResultPersistenceStatus;
  ps_status : string;
  ps_finish_reason : string;
}.

(** [awaits_operator] *)
Definition awaits_operator (s : TurnResultPersistenceStatus) : bool :=
  match s with PersistAwaitingApproval | PersistAwaitingInput => true | _ => false end.

Record CollectedSummarization : Type := MkCollectedSummarization {
  sz_chunks : list CompletionChunk;
  sz_summary_text : string;
  sz_usage : option TokenUsage;
  sz_latency_ms : Z;
}.

Record BuiltTurnSystemPrompt : Type := MkBuiltTurnSystemPrompt {
  bp_prompt : string;
  bp_core_prompt : InstructionDocument;
  bp_provider_overlay : option InstructionDocument;
}.

(** ** The world *)

Record World (X : Type) : Type := MkWorld {
  w_rt : Runtime;
  (** the sessions in auto-approval mode ([PolicyApprovalEvaluator]) *)
  w_auto_approve : gset SessionId;
  (** [RuntimeToolLifecycleObserver::pending_terminal] *)
  w_pending_terminal : option ToolResultEnvelope;
  w_outside : X;
}.
Arguments MkWorld {X} _ _ _ _.
Arguments w_rt {X} _.
Arguments w_auto_approve {X} _.
Arguments w_pending_terminal {X} _.
Arguments w_outside {X} _.

Definition set_rt {X} (rt : Runtime) (w : World X) : World X :=
  MkWorld rt (w_auto_approve w) (w_pending_terminal w) (w_outside w).
Definition set_pending {X} (pending : option ToolResultEnvelope) (w : World X) : World X :=
  MkWorld (w_rt w) (w_auto_approve w) pending (w_outside w).

Inductive Ended (A : Type) : Type :=
  | Returned (r : Result A)
  | Panicked
  | Running.
Arguments Returned {A} r.
Arguments Panicked {A}.
Arguments Running {A}.

Definition Run (X A : Type) : Type := World X -> Ended A * World X.

#[export] Instance run_ret {X} : MRet (Run X) := fun A a w => (Returned (Ok a), w).
#[export] Instance run_bind {X} : MBind (Run X) := fun A B k m w =>
  match m w with
  | (Returned (Ok a), w') => k a w'
  | (Returned (Err e), w') => (Returned (Err e), w')
  | (Panicked, w') => (Panicked, w')
  | (Running, w') => (Running, w')
  end.

Definition run_fail {X A} (e : BelltowerError) : Run X A := fun w => (Returned (Err e), w).

(** A method of the runtime. *)
Definition lift {X A} (m : Rt A) : Act (World X) (Result A) := fun w =>
  let '(r, rt) := m (w_rt w) in (r, set_rt rt w).
Definition run_rt {X A} (m : Rt A) : Run X A := fun w =>
  let '(r, w') := lift m w in (Returned r, w').
(** A method that panics with [None]. *)
Definition run_rt_opt {X A} (m : Rt (option A)) : Run X A := fun w =>
  match lift m w with
  | (Ok (Some a), w') => (Returned (Ok a), w')
  | (Ok None, w') => (Panicked, w')
  | (Err e, w') => (Returned (Err e), w')
  end.
(** An action of the turn loop's kind. *)
Definition run_act {X A} (m : Act (World X) (Result A)) : Run X A := fun w =>
  let '(r, w') := m w in (Returned r, w').

(** A match on the result of a run, as the source does with [match .. { Ok
    .. Err .. }]; a panic goes through. *)
Definition run_match {X A B} (m : Run X A) (on_ok : A -> Run X B)
    (on_err : BelltowerError -> Run X B) : Run X B := fun w =>
  match m w with
  | (Returned (Ok a), w') => on_ok a w'
  | (Returned (Err e), w') => on_err e w'
  | (Panicked, w') => (Panicked, w')
  | (Running, w') => (Running, w')
  end.

(** ** What is outside *)

Record Provider (X : Type) : Type := MkProvider {
  pr_id : string;
  pr_stream_completion :
    CompletionRequest -> Act (World X) (Result (list (Result CompletionChunk)));
  pr_completion_summary : CompletionSummary -> Result CompletionSummary;
}.
Arguments pr_id {X} _.
Arguments pr_stream_completion {X} _ _.
Arguments pr_completion_summary {X} _ _.

(** [TurnExecutionAdapters], and whether the sleep of
    [wait_for_cancellation] has ended when a race polls it. *)
Class Adapters (X : Type) : Type := {
  build_tool_registry :
    SessionRecord -> BranchId -> Act (World X) (Result (BuiltInToolRegistry (World X)));
  provider_for_connection : ConnectionDescriptor -> Act (World X) (Result (Provider X));
  timer : Act (World X) bool;
}.

(** The host: JSON, configuration, the monotonic clock, and what
    [MarkdownInstructionResolver] ([RuntimeContext.resolve],
    [RuntimeContext.provider_overlay]) and the scan of the project find in the
    file system. *)
Class Host : Type := {
  render_value : Value -> string;
  render_number : Number -> string;
  render_string : string -> string;
  raw_text : Value -> string;
  json_from_str : string -> option Value;
  context_config : ContextConfig;
  context_windows : Result (list ContextWindowEntry);
  pricing_catalog : Result (list PricingEntry);
  approval_patterns : list string;
  instant_ms : nat -> Z;
  core_prompt_document : InstructionDocument;
  provider_prompt_overlay : string -> option InstructionDocument;
  resolve_instructions : option string -> Result (list InstructionDocument);
  scan_dir : string -> option (list DirEntry);
  strip_root : string -> string -> option string;
}.

Definition quote_mark : string := String "034"%char EmptyString.

(** [bt-core/src/prompts.rs] *)
Definition COMPACTION_SUMMARY_PROMPT : string :=
  "You are performing a context checkpoint compaction for an ongoing agent session. "
  +:+ "Older messages are being evicted from the model-visible context; write a handoff "
  +:+ "summary so another LLM can continue the session without them. The full history "
  +:+ "remains durably recorded and searchable, so your summary is an index and "
  +:+ "checkpoint, not the only copy." +:+ nl +:+ nl
  +:+ "Structure the summary with exactly these sections:" +:+ nl +:+ nl
  +:+ "1. Current progress: what has been accomplished so far, in order." +:+ nl
  +:+ "2. Key decisions: decisions made and the reasons behind them." +:+ nl
  +:+ "3. Constraints and user preferences: requirements, rules, and preferences the user "
  +:+ "has expressed or the work must respect." +:+ nl
  +:+ "4. What remains: unfinished work and concrete next steps." +:+ nl
  +:+ "5. Critical data and references: exact values that must survive verbatim." +:+ nl +:+ nl
  +:+ "Rules:" +:+ nl
  +:+ "- Preserve identifiers verbatim (file paths, URLs, ids, commands, error codes, "
  +:+ "names, numbers). Never paraphrase an identifier." +:+ nl
  +:+ "- If a previous compaction summary is included in the input, fold its "
  +:+ "still-relevant content into this summary; it will not be retained separately." +:+ nl
  +:+ "- Be factual. Do not invent content that is not present in the input." +:+ nl
  +:+ "- Write plain text only: no markdown tables, no code fences." +:+ nl +:+ nl
  +:+ "End with a final section titled " +:+ quote_mark +:+ "Lookup hints"
  +:+ quote_mark
  +:+ ": a short list of key terms and topics that could be used to find the evicted "
  +:+ "material in session history search later.".

Section orchestrator.
Context `{codec : RowCodec} `{entropy : Entropy} `{host : Host}.
Context {X : Type} `{adapters : !Adapters X}.
Notation W := (World X).

(** [started.elapsed().as_millis()] *)
Definition elapsed : Rt Z := rt_elapsed_ms instant_ms.

(** ** Cancellation *)

(** [signal.is_cancelled()] *)
Definition is_set (signal : nat) : Act W bool := fun w => (signal_of (w_rt w) signal, w).

(** [wait_for_cancellation] is ready: its sleep has ended and the signal is
    set. *)
Definition wait_ready (signal : nat) : Act W bool :=
  woken ← timer; set ← is_set signal; mret (woken && set).

(** [select! { a = m => .., () = wait_for_cancellation => return Ok(None) }] *)
Definition race {A} (signal : nat) (m : Act W (Result A)) : Run X (option A) := fun w =>
  let '(r, w1) := m w in
  let '(lost, w2) := wait_ready signal w1 in
  (Returned (if lost : bool then Ok None else Some <$> r), w2).

Definition run_is_set (signal : nat) : Run X bool := fun w =>
  (Returned (Ok (signal_of (w_rt w) signal)), w).

(** ** The observers of the turn loop *)

Section turn.
Context (session_id : SessionId) (branch_id : BranchId) (turn_id : TurnId).

(** [RuntimeToolLifecycleObserver] *)
Definition observe_tool_call_requested (request : TurnToolCallRequest) (message : Message)
    : Rt ToolCallRequestDisposition :=
  let metadata := ttr_metadata request in
  recorded ← record_tool_request_transition session_id branch_id turn_id (ttr_call_id request)
    (ttr_tool_name request) (ttr_arguments request)
    (MkToolOperationContext InitAgent (Some (tm_risk_class metadata))
       (Some (tm_is_read_only metadata)) (Some (tm_execution_mode metadata)) []) message;
  mret (if recorded : bool then Recorded else DispositionCancelled).

Definition observe_tool_approval_requested (request : TurnApprovalRequest) : Rt unit :=
  _ ← record_approval_requested_for_request render_number render_string session_id branch_id
        (tar_request request) (Some turn_id);
  mret tt.

Definition observe_tool_approval_resolved (approval : TurnApproval) : Rt unit :=
  _ ← record_evaluated_approval_for_request render_number render_string session_id branch_id
        (ta_request approval) (ta_decision approval) (Some turn_id);
  mret tt.

(** [pending_terminal] holds the result until it is recorded. *)
Definition observe_tool_execution_finished (result : ToolResultEnvelope) (message : Message)
    : Act W (Result unit) := fun w =>
  let '(r, w') := lift (record_tool_terminal_transition session_id branch_id turn_id result message)
                    (set_pending (Some result) w) in
  match r with
  | Ok _ => (Ok tt, set_pending None w')
  | Err e => (Err e, w')
  end.

(** [compaction_context_attachment] *)
Definition compaction_context_attachment (compaction : ContextCompactionReport)
    : ContextAttachment :=
  let payload := rp_payload compaction in
  {| at_id := show_uuid (uuid (cc_compaction_id payload));
     at_attachment_type := AttCompaction;
     at_producer := ByRuntime;
     at_source_event_id := rp_source_event_id compaction;
     at_source_tool_call_id := None;
     at_source_uri :=
       (fun message_id => "message:" +:+ show_uuid (uuid message_id))
         <$> cc_summary_message_id payload;
     at_digest := None;
     at_visibility := MkContextAttachmentVisibility true true true;
     at_placement := MessageHistory;
     at_token_estimate := None;
     at_truncation := TruncNone |}.

Definition push_attachment (manifest : ContextManifest) (attachment : ContextAttachment)
    : ContextManifest :=
  {| cm_turn_id := cm_turn_id manifest;
     cm_branch_id := cm_branch_id manifest;
     cm_llm_call_ordinal := cm_llm_call_ordinal manifest;
     cm_provider := cm_provider manifest;
     cm_model := cm_model manifest;
     cm_settings_revision_id := cm_settings_revision_id manifest;
     cm_context_boundary_seq_id := cm_context_boundary_seq_id manifest;
     cm_system_prompt := cm_system_prompt manifest;
     cm_messages := cm_messages manifest;
     cm_tools := cm_tools manifest;
     cm_attachments := cm_attachments manifest ++ [attachment];
     cm_max_tokens := cm_max_tokens manifest;
     cm_thinking := cm_thinking manifest;
     cm_compacted := cm_compacted manifest |}.

Context (settings_revision_id : Z) (connection : ConnectionDescriptor).
Context (compaction : option ContextCompactionReport).

(** The closure run before a provider call: its manifest and its request. *)
Definition observe_llm_call_started (llm_call : LlmCallStarted) : Rt unit :=
  found ← context_message_sources_for_request session_id branch_id (ls_request llm_call);
  let manifest := from_completion_request turn_id branch_id (ls_ordinal llm_call)
    (cd_provider connection) (ls_model llm_call) settings_revision_id found.1
    (ls_request llm_call) (bool_decide (is_Some compaction)) found.2 in
  let manifest := match compaction with
                  | Some compaction =>
                      push_attachment manifest (compaction_context_attachment compaction)
                  | None => manifest
                  end in
  _ ← record_context_manifest session_id branch_id manifest;
  _ ← record_completion_requested session_id branch_id (ls_ordinal llm_call)
        (cd_provider connection) (ls_model llm_call) (ls_message_count llm_call) turn_id;
  mret tt.

Definition record_chunk (chunk : CompletionChunk) : Rt unit :=
  record_live_completion_chunk session_id branch_id (cd_provider connection) turn_id
    (ck_llm_call_ordinal chunk) (ck_deltas chunk) (raw_text <$> ck_raw chunk).

(** The closure run on every chunk; a cancelled turn records no more. *)
Definition observe_chunk (signal : nat) (chunk : CompletionChunk) : Act W (Result unit) :=
  cancelled ← is_set signal;
  if cancelled : bool then mret (Ok tt) else lift (record_chunk chunk).

Definition with_provider (provider : string) (summary : CompletionSummary) : CompletionSummary :=
  MkCompletionSummary provider (cs_model summary) (cs_finish_reason summary) (cs_usage summary)
    (cs_cost summary) (cs_latency_ms summary).

(** The closure run after a provider call. *)
Definition observe_llm_call_finished (llm_call : LlmCallFinished) : Rt unit :=
  _ ← record_completion_finished pricing_catalog session_id branch_id
        (with_provider (cd_provider connection) (lf_summary llm_call)) (lf_ordinal llm_call)
        turn_id;
  mret tt.

(** The evaluator ([PolicyApprovalEvaluator]) over the runtime's decisions. *)
Definition evaluate_approval (request : ApprovalRequest)
    : Act W (Result (option ApprovalDecision)) := fun w =>
  let rt := w_rt w in
  match policy_evaluate render_number render_string
          (MkPolicy (rt_approvals rt) approval_patterns (w_auto_approve w))
          (clock (rt_ticks rt)) request with
  | Ok (decision, p) => (Ok decision, set_rt (tick (set_approval_state (pol_state p) rt)) w)
  | Err e => (Err e, w)
  end.

(** A reading of the supply. *)
Definition draw {A} (f : nat -> A) : Act W A := fun w =>
  (f (rt_ticks (w_rt w)), set_rt (tick (w_rt w)) w).

(** What the turn loop is run with. *)
Definition turn_env (provider : Provider X) (tools : BuiltInToolRegistry W) (signal : nat)
    : TurnEnv W := {|
  AgentTurn.provider_id := pr_id provider;
  AgentTurn.stream_completion := pr_stream_completion provider;
  AgentTurn.completion_summary := pr_completion_summary provider;
  AgentTurn.tools_get := registry_get tools;
  AgentTurn.evaluate := evaluate_approval;
  AgentTurn.on_llm_call_started llm_call := lift (observe_llm_call_started llm_call);
  AgentTurn.on_chunk := observe_chunk signal;
  AgentTurn.on_llm_call_finished llm_call := lift (observe_llm_call_finished llm_call);
  AgentTurn.tool_call_requested request message :=
    lift (observe_tool_call_requested request message);
  AgentTurn.tool_approval_requested request := lift (observe_tool_approval_requested request);
  AgentTurn.tool_approval_resolved approval := lift (observe_tool_approval_resolved approval);
  AgentTurn.tool_execution_finished := observe_tool_execution_finished;
  AgentTurn.is_cancelled := is_set signal;
  AgentTurn.cancel_ready := wait_ready signal;
  AgentTurn.fresh_message_id := draw (fun n => MkUuid (fresh_uuid n));
  AgentTurn.now_utc := draw clock;
  AgentTurn.elapsed_ms := draw instant_ms;
  AgentTurn.from_str := json_from_str;
|}.
End turn.

(** ** What a turn leaves behind *)

(** [record_turn_result]: the messages the observers have not recorded. *)
Definition turn_result_messages (messages : list Message) : list Message :=
  List.filter (fun message => negb (bool_decide (is_Some (tool_call message)))
                              && negb (bool_decide (is_Some (tool_result message)))) messages.

Definition record_turn_result (session_id : SessionId) (branch_id : BranchId) (turn_id : TurnId)
    (result : TurnResult) : Rt PersistedTurnResult :=
  let awaiting_input := negb (bool_decide (res_input_requests result = [])) in
  let awaiting_approval := negb (bool_decide (res_approval_requests result = [])) in
  cancelled ← append_turn_result_messages_unless_cancelled session_id branch_id turn_id
    (turn_result_messages (res_messages result));
  mret (if cancelled : bool
        then MkPersistedTurnResult PersistCompleted "cancelled" "Cancelled"
        else
          let label := finish_reason_debug (res_finish_reason result) in
          if awaiting_input then MkPersistedTurnResult PersistAwaitingInput "awaiting_input" label
          else if awaiting_approval
          then MkPersistedTurnResult PersistAwaitingApproval "awaiting_approval" label
          else MkPersistedTurnResult PersistCompleted "completed" label).

(** The reply a stopped turn owes, and the controls that wait; whether a
    further turn was started is not looked at. *)
Definition settle_stopped (session : SessionRecord) (branch : BranchRecord) (turn_id : TurnId)
    : Rt unit :=
  _ ← record_related_turn_outcome (se_session_id session) (br_branch_id branch) turn_id
        StopCancelled;
  _ ← consume_post_turn_controls render_value session branch;
  mret tt.

(** [finish_cancelled_turn] *)
Definition finish_cancelled_turn (session : SessionRecord) (branch : BranchRecord)
    (turn_id : TurnId) (provider model : string) (latency_ms : Z) : Rt unit :=
  _ ← record_active_turn_finished_with_cancel_precedence (se_session_id session)
        (br_branch_id branch) turn_id provider model "cancelled" (Some "Cancelled") latency_ms;
  settle_stopped session branch turn_id.

(** [record_pre_turn_failure] *)
Definition pre_turn_settings (session : SessionRecord) (settings_revision_id : Z)
    : Rt (string * string) := fun rt =>
  match resolve_turn_settings (se_session_id session) settings_revision_id rt with
  | (Ok (connection, model), rt') => (Ok (cd_provider connection, model), rt')
  | (Err _, rt') =>
      (Ok (connection_name (se_connection_id session), default "unknown" (se_model_id session)),
       rt')
  end.

Definition record_pre_turn_failure (session : SessionRecord) (branch_id : BranchId)
    (turn_id : TurnId) (settings_revision_id : Z) (error : BelltowerError)
    : Rt ActiveTurnFinishOutcome :=
  settings ← pre_turn_settings session settings_revision_id;
  record_turn_failure_transition_with_outcome (se_session_id session) branch_id settings.1
    settings.2 turn_id [] error 0.

(** ** The summarization *)

Definition stamp_maintenance (chunk : CompletionChunk) : CompletionChunk :=
  MkCompletionChunk (Some CONTEXT_MAINTENANCE_LLM_CALL_ORDINAL) (ck_deltas chunk)
    (ck_usage chunk) (ck_raw chunk).

Definition appended_text (chunk : CompletionChunk) : string :=
  String.concat "" (omap (fun delta => match delta with AppendText text => Some text | _ => None end)
                      (ck_deltas chunk)).

(** The [while let] loop over the stream; before every [await] the race is
    polled, and [None] is a lost one. *)
Fixpoint collect_chunks (signal : nat) (stream : list (Result CompletionChunk))
    (chunks : list CompletionChunk) (summary_text : string) (usage : option TokenUsage)
    : Act W (option (Result (list CompletionChunk * string * option TokenUsage))) :=
  lost ← wait_ready signal;
  if lost : bool then mret None else
  match stream with
  | [] => mret (Some (Ok (chunks, summary_text, usage)))
  | Err error :: _ => mret (Some (Err error))
  | Ok chunk :: stream =>
      let chunk := stamp_maintenance chunk in
      collect_chunks signal stream (chunks ++ [chunk]) (summary_text +:+ appended_text chunk)
        (match ck_usage chunk with Some usage => Some usage | None => usage end)
  end.

Definition summarization_request (connection : ConnectionDescriptor)
    (plan : TurnContextSummarizationPlan) (message : Message) : CompletionRequest :=
  {| cr_connection_id := cd_id connection;
     cr_model := zp_summarizer_model plan;
     cr_system_prompt := Some COMPACTION_SUMMARY_PROMPT;
     cr_messages := [message];
     cr_tools := [];
     cr_structured_output := None;
     cr_max_tokens := Some (zp_summary_budget_tokens plan);
     cr_temperature := None;
     cr_thinking := None |}.

(** [collect_summarization_stream], raced as in
    [collect_summarization_with_cancel_precedence]: the signal is looked at
    before the first poll and after the last. *)
Definition collect_summarization_stream (signal : nat) (provider : Provider X)
    (connection : ConnectionDescriptor) (plan : TurnContextSummarizationPlan)
    : Act W (option (Result CollectedSummarization)) :=
  id ← draw (fun n => MkUuid (fresh_uuid n));
  now ← draw clock;
  stream ← pr_stream_completion provider
    (summarization_request connection plan (message_text id now RoleUser (zp_transcript plan)));
  match stream with
  | Err error => mret (Some (Err error))
  | Ok stream =>
      collected ← collect_chunks signal stream [] "" None;
      latency_ms ← draw instant_ms;
      mret match collected with
           | None => None
           | Some (Err error) => Some (Err error)
           | Some (Ok (chunks, summary_text, usage)) =>
               Some (if is_blank summary_text
                     then Err (Types.Provider "summarization completion returned no text")
                     else Ok (MkCollectedSummarization chunks summary_text usage latency_ms))
           end
  end.

Definition collect_summarization_with_cancel_precedence (signal : nat) (provider : Provider X)
    (connection : ConnectionDescriptor) (plan : TurnContextSummarizationPlan)
    : Act W (option (Result CollectedSummarization)) :=
  cancelled ← is_set signal;
  if cancelled : bool then mret None else
  collection ← collect_summarization_stream signal provider connection plan;
  cancelled ← is_set signal;
  mret (if cancelled : bool then None else collection).

(** [record_summarization_completion] *)
Definition record_summarization_completion (provider : Provider X)
    (connection : ConnectionDescriptor) (session_id : SessionId) (branch_id : BranchId)
    (turn_id : TurnId) (plan : TurnContextSummarizationPlan) (collected : CollectedSummarization)
    : Rt unit :=
  _ ← record_completion_requested session_id branch_id CONTEXT_MAINTENANCE_LLM_CALL_ORDINAL
        (cd_provider connection) (zp_summarizer_model plan) 1 turn_id;
  _ ← rt_iter (record_chunk session_id branch_id turn_id connection) (sz_chunks collected);
  summary ← rt_lift (pr_completion_summary provider
    {| cs_provider := cd_provider connection;
       cs_model := zp_summarizer_model plan;
       cs_finish_reason := FrStop;
       cs_usage := default zero_token_usage (sz_usage collected);
       cs_cost := None;
       cs_latency_ms := sz_latency_ms collected |});
  _ ← record_completion_finished pricing_catalog session_id branch_id
        (with_provider (cd_provider connection) summary) CONTEXT_MAINTENANCE_LLM_CALL_ORDINAL
        turn_id;
  mret tt.

(** [run_planned_summarization]: [None] when the turn was cancelled. *)
Definition run_planned_summarization (signal : nat) (provider : Provider X)
    (connection : ConnectionDescriptor) (session_id : SessionId) (branch_id : BranchId)
    (turn_id : TurnId) (plan : TurnContextPlan)
    : Act W (Result (option TurnContextCompactionInputs)) :=
  let observed := Provided (tp_observed_context_tokens plan) in
  match tp_summarization plan with
  | None => mret (Ok (Some (MkTurnContextCompactionInputs observed None None)))
  | Some summarization =>
      collection ← collect_summarization_with_cancel_precedence signal provider connection
        summarization;
      match collection with
      | None => mret (Ok None)
      | Some (Ok collected) =>
          recorded ← lift (record_summarization_completion provider connection session_id
            branch_id turn_id summarization collected);
          mret match recorded with
               | Err error => Err error
               | Ok _ => Ok (Some (MkTurnContextCompactionInputs observed
                           (Some (sz_summary_text collected))
                           (Some ("summary=model:" +:+ zp_summarizer_model summarization))))
               end
      | Some (Err error) =>
          mret (Ok (Some (MkTurnContextCompactionInputs observed None
            (Some ("summary=fallback_digest; summarizer_error=" +:+ error_code error)))))
      end
  end.

(** ** Before the turn *)

Record Preflight : Type := MkPreflight {
  pf_session : SessionRecord;
  pf_tools : BuiltInToolRegistry W;
  pf_instructions : list InstructionDocument;
  pf_system_prompt : BuiltTurnSystemPrompt;
  pf_settings_revision_id : Z;
  pf_compaction : option ContextCompactionReport;
  pf_connection : ConnectionDescriptor;
  pf_model_id : string;
  pf_request : CompletionRequest;
  pf_provider : Provider X;
}.

(** [build_turn_system_prompt] *)
Definition build_turn_system_prompt (session : SessionRecord) (tools : list ToolSpec)
    (instructions : list InstructionDocument) (plan : option PlanInspection)
    : Rt BuiltTurnSystemPrompt :=
  found ← connection (se_connection_id session);
  descriptor ← rt_lift (ok_or (InvalidState ("connection `"
    +:+ connection_name (se_connection_id session) +:+ "` not found")) found);
  let overlay := provider_prompt_overlay (cd_provider descriptor) in
  mret (MkBuiltTurnSystemPrompt
    (ContextPrompt.build scan_dir strip_root
       (MkSystemPromptInput session (cd_provider descriptor) core_prompt_document overlay
          instructions plan tools)) core_prompt_document overlay).

Section iteration.
Context (session : SessionRecord) (branch : BranchRecord) (turn_id : TurnId).
Context (settings_revision_id : Z) (signal : nat).

(** The part of [preflight_future] once tools and provider are there. *)
Definition prepare_request (turn_session : SessionRecord) (tools : BuiltInToolRegistry W)
    (instructions : list InstructionDocument) (built : BuiltTurnSystemPrompt)
    (settings : ConnectionDescriptor * string) (provider : Provider X)
    : Run X (option Preflight) :=
  plan ← run_rt_opt (plan_turn_context_compaction render_value context_config context_windows
    turn_session branch settings.1 settings.2 (Some (bp_prompt built)) false);
  inputs ← run_act (run_planned_summarization signal provider settings.1
    (se_session_id turn_session) (br_branch_id branch) turn_id plan);
  match inputs with
  | None => mret None
  | Some inputs =>
      cancelled ← run_is_set signal;
      if cancelled : bool then mret None else
      prepared ← run_rt_opt (prepare_turn_context_for_resolved_settings render_value
        context_config context_windows instant_ms turn_session branch settings.1 settings.2
        (Some (bp_prompt built)) (specs tools) None (Some turn_id) settings_revision_id false
        inputs);
      mret (Some {| pf_session := turn_session;
                    pf_tools := tools;
                    pf_instructions := instructions;
                    pf_system_prompt := built;
                    pf_settings_revision_id := pt_settings_revision_id prepared;
                    pf_compaction := pt_compaction prepared;
                    pf_connection := pt_connection prepared;
                    pf_model_id := pt_model_id prepared;
                    pf_request := pt_request prepared;
                    pf_provider := provider |})
  end.

(** [preflight_future]: [None] when the turn was cancelled. *)
Definition preflight_future : Run X (option Preflight) :=
  turn_session ← run_rt (session_for_settings_revision session settings_revision_id);
  tools ← race signal (build_tool_registry turn_session (br_branch_id branch));
  match tools with
  | None => mret None
  | Some tools =>
      instructions ← run_rt (rt_lift (resolve_instructions (Some (se_project_root turn_session))));
      plan ← run_rt (current_plan (se_session_id turn_session) (br_branch_id branch));
      built ← run_rt (build_turn_system_prompt turn_session (specs tools) instructions plan);
      settings ← run_rt (resolve_turn_settings (se_session_id turn_session) settings_revision_id);
      provider ← race signal (provider_for_connection settings.1);
      match provider with
      | None => mret None
      | Some provider => prepare_request turn_session tools instructions built settings provider
      end
  end.

(** The biased race around it: the signal is looked at before the first poll
    and once it is ready. *)
Definition preflight : Run X (option Preflight) := fun w =>
  if signal_of (w_rt w) signal then (Returned (Ok None), w)
  else
    match preflight_future w with
    | (Returned r, w') =>
        (Returned (if signal_of (w_rt w') signal then Ok None else r), w')
    | (ended, w') => (ended, w')
    end.

Definition outcome (stop_reason : TurnRunStopReason) : TurnRunOutcome :=
  MkTurnRunOutcome (se_session_id session) (br_branch_id branch) stop_reason.

(** The arm of a preflight that was cancelled. *)
Definition preflight_cancelled : Rt TurnRunOutcome :=
  settings ← resolve_turn_settings (se_session_id session) settings_revision_id;
  _ ← finish_cancelled_turn session branch turn_id (cd_provider settings.1) settings.2 0;
  mret (outcome StopCancelled).

(** The arm of a preflight that failed. *)
Definition preflight_failed (error : BelltowerError) : Rt TurnRunOutcome :=
  finish ← record_pre_turn_failure session (br_branch_id branch) turn_id settings_revision_id
             error;
  if af_cancelled finish
  then _ ← settle_stopped session branch turn_id; mret (outcome StopCancelled)
  else
    _ ← record_related_turn_failure (se_session_id session) (br_branch_id branch) turn_id error;
    rt_fail error.
End iteration.

(** ** The turn *)

Section body.
Context (steps : nat) (branch : BranchRecord) (turn_id : TurnId) (signal : nat).

Definition provenance (pf : Preflight) : TurnInstructionProvenance :=
  {| pv_turn_id := turn_id;
     pv_provider := cd_provider (pf_connection pf);
     pv_model := pf_model_id pf;
     pv_settings_revision_id := pf_settings_revision_id pf;
     pv_core_prompt := bp_core_prompt (pf_system_prompt pf);
     pv_provider_overlay := bp_provider_overlay (pf_system_prompt pf);
     pv_instructions := pf_instructions pf;
     pv_rendered_system_prompt := bp_prompt (pf_system_prompt pf) |}.

(** [turn_loop.run_turn_with_tool_observer_and_cancellation(..)], with a new
    observer; [steps] bounds its loop. *)
Definition run_turn_loop (pf : Preflight) : Run X TurnResult := fun w =>
  let session_id := se_session_id (pf_session pf) in
  let env := turn_env session_id (br_branch_id branch) turn_id (pf_settings_revision_id pf)
    (pf_connection pf) (pf_compaction pf) (pf_provider pf) (pf_tools pf) signal in
  match run_turn (env := env) true steps
          (MkTurnRequest session_id (se_project_root (pf_session pf)) (pf_request pf))
          (set_pending None w) with
  | (Some r, w') => (Returned r, w')
  | (None, w') => (Running, w')
  end.

Definition stopped (reason : TurnRunStopReason)
    : Run X (PostTurnControlAction * TurnRunStopReason) := mret (ControlStop, reason).

(** The arm of a turn loop that failed; a result that was not recorded is
    recorded with the failure. *)
Definition turn_failed (pf : Preflight) (error : BelltowerError)
    : Run X (PostTurnControlAction * TurnRunStopReason) := fun w =>
  let session_id := se_session_id (pf_session pf) in
  let pending := option_list (w_pending_terminal w) in
  run_rt (
    latency_ms ← elapsed;
    finish ← record_turn_failure_transition_with_outcome session_id (br_branch_id branch)
      (cd_provider (pf_connection pf)) (pf_model_id pf) turn_id pending error latency_ms;
    if af_cancelled finish
    then _ ← settle_stopped (pf_session pf) branch turn_id; mret (ControlStop, StopCancelled)
    else
      _ ← record_related_turn_failure session_id (br_branch_id branch) turn_id error;
      rt_fail error) (set_pending None w).

(** [if let Err(error) = .. { warn }] *)
Definition rt_ignore {A} (m : Rt A) : Rt unit := fun rt => (Ok tt, (m rt).2).

(** What follows the end of a turn. *)
Definition after_finish (pf : Preflight) (persisted : PersistedTurnResult)
    (finish : ActiveTurnFinishOutcome) : Rt (PostTurnControlAction * TurnRunStopReason) :=
  let session_id := se_session_id (pf_session pf) in
  let outcome reason :=
    record_related_turn_outcome session_id (br_branch_id branch) turn_id reason in
  if af_cancelled finish then
    _ ← settle_stopped (pf_session pf) branch turn_id; mret (ControlStop, StopCancelled)
  else
    match af_budget finish with
    | Exhausted => _ ← outcome StopBudgetExhausted; mret (ControlStop, StopBudgetExhausted)
    | _ =>
        if awaits_operator (ps_persistence persisted) then
          let stop_reason := match ps_persistence persisted with
            | PersistAwaitingApproval => StopAwaitingApproval
            | PersistAwaitingInput => StopAwaitingInput
            | PersistCompleted => StopComplete
            end in
          _ ← rt_ignore (outcome stop_reason); mret (ControlStop, stop_reason)
        else
          _ ← outcome StopComplete;
          action ← consume_post_turn_controls render_value (pf_session pf) branch;
          mret (action, StopComplete)
    end.

Definition turn_returned (pf : Preflight) (result : TurnResult)
    : Rt (PostTurnControlAction * TurnRunStopReason) :=
  let session_id := se_session_id (pf_session pf) in
  latency_ms ← elapsed;
  persisted ← record_turn_result session_id (br_branch_id branch) turn_id result;
  finish ← record_active_turn_finished_with_cancel_precedence session_id (br_branch_id branch)
    turn_id (cd_provider (pf_connection pf)) (pf_model_id pf) (ps_status persisted)
    (Some (ps_finish_reason persisted)) latency_ms;
  after_finish pf persisted finish.

(** [post_turn_action] *)
Definition post_turn_action (pf : Preflight) : Run X (PostTurnControlAction * TurnRunStopReason) :=
  _ ← run_rt (record_turn_instruction_provenance (se_session_id (pf_session pf))
        (br_branch_id branch) (provenance pf));
  run_match (run_turn_loop pf) (fun result => run_rt (turn_returned pf result)) (turn_failed pf).
End body.

(** ** The loop over turns *)

Record NextTurn : Type := MkNextTurn {
  nt_branch : BranchRecord;
  nt_turn_id : TurnId;
  nt_settings_revision_id : Z;
}.

Definition next_on (session_id : SessionId) (missing : string) (dispatch : QueuedDispatch)
    : Rt NextTurn :=
  loaded ← read_result (load_branch session_id (qx_branch_id dispatch));
  branch ← rt_lift (ok_or (InvalidState missing) loaded);
  mret (MkNextTurn branch (qx_turn_id dispatch) (qx_settings_revision_id dispatch)).

(** [match post_turn_action.0] *)
Definition follow (session : SessionRecord) (branch : BranchRecord) (turn_session_id : SessionId)
    (action : PostTurnControlAction * TurnRunStopReason) : Rt (TurnRunOutcome + NextTurn) :=
  match action.1 with
  | ContinueQueuedBranch dispatch =>
      next ← next_on turn_session_id "queued branch not found" dispatch; mret (inr next)
  | ContinueRelatedSessionBranch dispatch =>
      next ← next_on turn_session_id "related-session branch not found" dispatch; mret (inr next)
  | ContinueCurrentBranch dispatch =>
      mret (inr (MkNextTurn branch (qx_turn_id dispatch) (qx_settings_revision_id dispatch)))
  | ControlStop => mret (inl (outcome session branch action.2))
  end.

(** One turn, from its preflight to what follows it. *)
Definition run_one_turn (steps : nat) (session : SessionRecord) (next : NextTurn) (signal : nat)
    : Run X (TurnRunOutcome + NextTurn) :=
  let branch := nt_branch next in
  let turn_id := nt_turn_id next in
  let settings := nt_settings_revision_id next in
  run_match (preflight session branch turn_id settings signal)
    (fun pf => match pf with
       | None =>
           outcome ← run_rt (preflight_cancelled session branch turn_id settings);
           mret (inl outcome)
       | Some pf =>
           action ← post_turn_action steps branch turn_id signal pf;
           run_rt (follow session branch (se_session_id (pf_session pf)) action)
       end)
    (fun error =>
       outcome ← run_rt (preflight_failed session branch turn_id settings error);
       mret (inl outcome)).

(** The guard of [begin_active_turn_cancellation] is dropped when its scope
    is left, by a panic too. *)
Definition dropping {A} (session_id : SessionId) (branch_id : BranchId) (turn_id : TurnId)
    (body : Run X A) : Run X A := fun w =>
  match body w with
  | (Running, w') => (Running, w')
  | (ended, w') =>
      (ended, (lift (drop_active_turn_cancellation session_id branch_id turn_id) w').2)
  end.

Definition with_guard {A} (session_id : SessionId) (branch_id : BranchId) (turn_id : TurnId)
    (body : nat -> Run X A) : Run X A :=
  signal ← run_rt (begin_active_turn_cancellation session_id branch_id turn_id);
  dropping session_id branch_id turn_id (body signal).

(** [loop { .. }] *)
Fixpoint run_turns (fuel steps : nat) (session : SessionRecord) (next : NextTurn)
    : Run X TurnRunOutcome :=
  match fuel with
  | O => fun w => (Running, w)
  | S fuel =>
      ended ← with_guard (se_session_id session) (br_branch_id (nt_branch next)) (nt_turn_id next)
                (run_one_turn steps session next);
      match ended with
      | inl outcome => mret outcome
      | inr next => run_turns fuel steps session next
      end
  end.

Definition first_turn (request : TurnRunRequest) : NextTurn :=
  let admitted := rr_admitted_turn request in
  MkNextTurn (rr_branch request) (ad_turn_id admitted) (ad_settings_revision_id admitted).

(** [run_session_turns] *)
Definition run_session_turns (fuel steps : nat) (request : TurnRunRequest) : Run X TurnRunOutcome :=
  run_turns fuel steps (rr_session request) (first_turn request).

(** ** The detached task ([bt-server/src/main.rs]) *)

(** [run_session_turn] *)
Definition run_session_turn (fuel steps : nat) (session : SessionRecord) (branch : BranchRecord)
    (admitted_turn : AdmittedTurn) : Run X TurnRunOutcome :=
  request ← run_rt (rt_lift (new_turn_run_request session branch admitted_turn));
  run_session_turns fuel steps request.

(** What the watchdog of [detach_turn_work] does with the end of the work. *)
Definition watchdog_error (failure_reason : string) : BelltowerError :=
  Types.Runtime failure_reason.

Definition watchdog (session_id : SessionId) (branch_id : BranchId) (turn_id : TurnId)
    (failure_reason : string) : Rt unit :=
  let error := watchdog_error failure_reason in
  _ ← rt_ignore (record_turn_failure_transition_with_outcome session_id branch_id "unknown"
        "unknown" turn_id [] error 0);
  rt_ignore (record_related_turn_failure session_id branch_id turn_id error).

Definition detach_turn_work {A} (session_id : SessionId) (branch_id : BranchId)
    (turn_id : TurnId) (work : Run X A) : Run X unit := fun w =>
  match work w with
  | (Returned (Ok _), w') => (Returned (Ok tt), w')
  | (Returned (Err _), w') =>
      run_rt (watchdog session_id branch_id turn_id "turn task ended with unrecorded failure") w'
  | (Panicked, w') => run_rt (watchdog session_id branch_id turn_id "turn task panicked") w'
  | (Running, w') => (Running, w')
  end.

(** [detach_session_turn] *)
Definition detach_session_turn (fuel steps : nat) (session : SessionRecord)
    (branch : BranchRecord) (admitted_turn : AdmittedTurn) : Run X unit :=
  detach_turn_work (se_session_id session) (br_branch_id branch) (ad_turn_id admitted_turn)
    (run_session_turn fuel steps session branch admitted_turn).
End orchestrator.
