(* ===== verification/OrchestratorLaws.v ===== *)
(** * An orchestrated run and the session's active turn

    The orchestrator starts a turn that waits only to run it: when it returns
    an outcome the session is idle, so that the next message is not queued
    behind a turn nobody runs.  This file has the ends of turns, the controls
    that wait behind them, and the exits of a run one by one. *)

From stdpp Require Import base list strings gmap.
From Stdlib Require Import ZArith Lia.
From S2P Require Import Prelude Text Json Types Messages AgentStream AgentTurn ToolRegistry.
From S2P Require Import Approvals TurnProjection Store StoreOps StoreRelated.
From S2P Require Import StoreLaws StoreReplay StoreAdmission StoreLifecycle StoreQueries.
From S2P Require Import ContextPrompt Context Runtime RuntimeBudget RuntimeRecords.
From S2P Require Import RuntimeSessions RuntimeRelated RuntimeControl RuntimeContext.
From S2P Require Import RecoveryLaws Orchestrator.

#[local] Open Scope Z_scope.

(** ** The end of a turn *)

Section finish.
Context `{codec : RowCodec} `{entropy : Entropy}.

Lemma retires_finish s b t p m x f l :
  retires (fun _ => True)
    (record_active_turn_finished_with_cancel_precedence s b t p m x f l).
Proof.
  unfold record_active_turn_finished_with_cancel_precedence.
  apply retires_then; [auto with retires|intros terminal_at].
  eapply retires_bind; [apply retires_turn_finished|intros finish H].
  apply retires_terminal_commit. constructor; [apply H|done].
Qed.

Lemma ends_finish s b t p m x f l :
  ends s (record_active_turn_finished_with_cancel_precedence s b t p m x f l).
Proof.
  unfold record_active_turn_finished_with_cancel_precedence.
  apply ends_then; [auto with retires|intros terminal_at].
  eapply ends_later; [apply retires_turn_finished|intros finish H].
  apply ends_terminal_commit. constructor; [apply H|done].
Qed.

(** A method whose result says that the session's cancellation is pending. *)
Definition says_cancelled (s : SessionId) {A} (P : A -> Prop) (m : Rt A) : Prop :=
  forall rt a rt', m rt = (Ok a, rt') -> P a -> cancel_requested s (rt_store rt') = true.

Lemma says_later s {A B} (P : A -> Prop) (Q : B -> Prop) (m : Rt A) (k : A -> Rt B) :
  retires P m -> (forall a, P a -> says_cancelled s Q (k a)) -> says_cancelled s Q (m ≫= k).
Proof.
  intros Hm Hk rt b rt' (a & rt1 & H1 & H2)%rt_bind_Ok. eapply Hk; [|exact H2].
  destruct (Hm rt) as [_ HP]. apply HP. by rewrite H1.
Qed.

Lemma says_precedence s events {B} (Q : B -> Prop) (k : bool * list EventEnvelope -> Rt B) :
  Forall plain events ->
  (forall p, Forall plain p.2 -> retires (fun b => Q b -> p.1 = true) (k p)) ->
  says_cancelled s Q (read_result (apply_cancel_precedence s events) ≫= k).
Proof.
  intros Hplain Hk rt b rt' (p & rt1 & H1 & H2)%rt_bind_Ok HQ.
  destruct (retires_precedence s events Hplain rt) as [_ Hp]. rewrite H1 in Hp.
  injection H1 as Hprec <-. destruct (Hk p (Hp p eq_refl) rt) as [[[_ Hkeep] _] Hb].
  rewrite H2 in Hkeep, Hb. apply Hkeep. specialize (Hb b eq_refl HQ).
  unfold apply_cancel_precedence in Hprec. apply result_bind_Ok in Hprec as (control & Hc & Hprec).
  unfold load_session_control in Hc. unfold cancel_requested.
  destruct (db_control (rt_store rt) !! s) as [row|].
  - apply result_bind_Ok in Hc as (updated_at & _ & [= <-]). simpl in Hprec.
    destruct (cw_cancel_requested row); [done|]. simpl in Hprec. by injection Hprec as <-.
  - injection Hc as <-. simpl in Hprec. by injection Hprec as <-.
Qed.

Lemma terminal_commit_says s b t at_time events :
  Forall plain events ->
  says_cancelled s (fun finish => af_cancelled finish = true)
    (commit_active_turn_terminal_events s b t at_time events).
Proof.
  intros Hplain. unfold commit_active_turn_terminal_events.
  eapply says_later; [apply retires_checkpoint|].
  intros [[checkpoint cancellation]|]; [intros [H1 H2]|intros _].
  - apply says_precedence; [done|intros p Hp].
    apply retires_then; [apply retires_commit|intros c].
    { by apply budget_terminal_fades; [apply H1|apply H2|]. }
    apply retires_then; [auto with retires|intros _].
    apply retires_then; [unfold publish_optional; retire|intros _].
    apply retires_then; [auto with retires|intros _]. by apply retires_ret.
  - eapply (says_later _ (fun _ => True)); [auto with retires|intros _ _].
    apply says_precedence; [done|intros p Hp].
    apply retires_then; [by apply retires_commit, terminal_fades|intros qs].
    apply retires_then; [auto with retires|intros _]. by apply retires_ret.
Qed.

Lemma finish_says s b t p m x f l :
  says_cancelled s (fun finish => af_cancelled finish = true)
    (record_active_turn_finished_with_cancel_precedence s b t p m x f l).
Proof.
  unfold record_active_turn_finished_with_cancel_precedence.
  eapply (says_later _ (fun _ => True)); [auto with retires|intros terminal_at _].
  eapply says_later; [apply retires_turn_finished|intros finish H].
  apply terminal_commit_says. constructor; [apply H|done].
Qed.

Lemma turn_failure_says s b p m t rs e l :
  says_cancelled s (fun finish => af_cancelled finish = true)
    (record_turn_failure_transition_with_outcome s b p m t rs e l).
Proof.
  unfold record_turn_failure_transition_with_outcome,
    record_turn_failure_transition_with_reason_outcome.
  eapply (says_later _ (fun _ => True)); [auto with retires|intros terminal_at _].
  eapply says_later; [apply retires_terminal_results|intros results H1].
  eapply says_later; [apply retires_session_error|intros failure H2].
  eapply says_later; [apply retires_turn_finished|intros finish H3].
  by eapply terminal_commit_says, failure_events_plain.
Qed.
End finish.

(** ** What waits behind a turn *)

Section controls.
Context `{codec : RowCodec} `{entropy : Entropy} (render_value : Value -> string).

Lemma is_cancelled_Ok s rt cancelled rt' :
  is_cancelled s rt = (Ok cancelled, rt') -> rt' = rt /\ cancelled = cancel_requested s (rt_store rt).
Proof.
  unfold is_cancelled. intros (control & rt1 & H1 & H2)%rt_bind_Ok.
  injection H1 as Hc <-. injection H2 as <- <-. split; [done|].
  unfold load_session_control in Hc. unfold cancel_requested.
  destruct (db_control (rt_store rt) !! s) as [row|].
  - by apply result_bind_Ok in Hc as (updated_at & _ & [= <-]).
  - by injection Hc as <-.
Qed.

(** A method that starts no turn when its result satisfies [P]. *)
Definition starts_none {A} (P : A -> Prop) (m : Rt A) : Prop :=
  forall rt a rt', m rt = (Ok a, rt') -> P a -> shrinks (rt_store rt) (rt_store rt').

Lemma starts_none_later {A B} (P : B -> Prop) (Q : A -> Prop) (m : Rt A) (k : A -> Rt B) :
  retires Q m -> (forall a, Q a -> starts_none P (k a)) -> starts_none P (m ≫= k).
Proof.
  intros Hm Hk rt b rt' (a & rt1 & H1 & H2)%rt_bind_Ok HP. destruct (Hm rt) as [[[Hs _] _] HQ].
  rewrite H1 in Hs, HQ. etrans; [exact Hs|]. eapply Hk; [by apply HQ|exact H2|done].
Qed.

Lemma starts_none_then {A B} (P : B -> Prop) (m : Rt A) (k : A -> Rt B) :
  retires (fun _ => True) m -> (forall a, starts_none P (k a)) -> starts_none P (m ≫= k).
Proof. intros Hm Hk. by apply (starts_none_later P (fun _ => True)). Qed.

Lemma starts_none_retires {A} (P : A -> Prop) (m : Rt A) :
  retires (fun _ => True) m -> starts_none P m.
Proof. intros Hm rt a rt' H _. destruct (Hm rt) as [[[Hs _] _] _]. by rewrite H in Hs. Qed.

Lemma starts_none_first {A B} (P : A -> Prop) (Q : B -> Prop) (m : Rt A) (k : A -> Rt B) :
  starts_none P m -> (forall a, retires (fun b => Q b -> P a) (k a)) -> starts_none Q (m ≫= k).
Proof.
  intros Hm Hk rt b rt' (a & rt1 & H1 & H2)%rt_bind_Ok HQ. destruct (Hk a rt1) as [[[Hs _] _] Hb].
  rewrite H2 in Hs, Hb. etrans; [|exact Hs]. by eapply Hm, Hb.
Qed.

(** A claim that claims nothing leaves the store. *)
Definition claims_or_leaves (f : Db -> Result ContinuationClaim * Db) : Prop :=
  forall db r db', f db = (Ok r, db') -> (exists seq_ids, r = ClaimClaimed seq_ids) \/ db' = db.

Definition not_claimed (claim : ContinuationClaim) : Prop :=
  match claim with ClaimClaimed _ => False | _ => True end.

Lemma starts_none_commit f : claims_or_leaves f -> starts_none not_claimed (commit f).
Proof.
  intros Hf rt claim rt' H Hno. unfold commit in H.
  destruct (f (rt_store rt)) as [r db'] eqn:E. injection H as -> <-.
  by destruct (Hf _ _ _ E) as [[seq_ids ->]| ->].
Qed.

Lemma starts_none_claim f events :
  claims_or_leaves f ->
  starts_none not_claimed
    (outcome ← commit f; _ ← publish_claim events outcome; mret outcome).
Proof.
  intros Hf. eapply starts_none_first; [by apply starts_none_commit|intros claim].
  apply retires_then; [|intros _; by apply retires_ret].
  destruct claim; simpl; auto with retires.
Qed.

Lemma steer_claims s b ids events : claims_or_leaves (claim_steer_continuation s b ids events).
Proof. intros db r db' H. apply claim_steer_cases in H. destruct H; eauto. Qed.

Lemma queued_claims s id events : claims_or_leaves (claim_queued_continuation s id events).
Proof. intros db r db' H. apply claim_queued_cases in H. destruct H; eauto. Qed.

Lemma related_claims s id revision events :
  claims_or_leaves (claim_related_message_continuation s id revision events).
Proof.
  intros db r db' H. revert H. unfold claim_related_message_continuation.
  rewrite transaction_Ok. intros H. invert_tx.
  destruct (cancel_requested s db); [invert_tx; eauto|]. invert_tx.
  destruct (session_has_pending_work s db); [invert_tx; eauto|]. invert_tx.
  pose proof (exhausted_db _ _ _ _ Htx) as ->. destruct a; [invert_tx; eauto|].
  unfold query_result in H. invert_tx.
  destruct (negb _); [invert_tx; eauto|]. invert_tx.
  destruct (pending_related s db) as [|[[[k m] d] row] rest]; [invert_tx; eauto|].
  destruct (negb _); [invert_tx; eauto|]. invert_tx. eauto.
Qed.

Lemma retires_messages s b : retires (fun _ => True) (rt_messages s b).
Proof. unfold rt_messages. retire. Qed.
Lemma retires_connection id : retires (fun _ => True) (connection id).
Proof. by intros rt. Qed.
Lemma retires_require_loaded s : retires (fun _ => True) (require_loaded s).
Proof. unfold require_loaded, rt_load_session. retire. Qed.
Lemma retires_settings s r : retires (fun _ => True) (resolve_turn_settings s r).
Proof.
  pose proof retires_connection. pose proof retires_require_loaded.
  unfold resolve_turn_settings. retire. apply retires_then; [retire|intros snapshot]. retire.
Qed.

Lemma retires_any_new_event s b k p : retires (fun _ => True) (new_event s b k p).
Proof. by intros rt. Qed.
Lemma retires_turn_started s b t p m n r source resumed :
  retires (fun _ => True) (turn_started_event s b t p m n r source resumed).
Proof. by intros rt. Qed.
Lemma retires_text_message role text : retires (fun _ => True) (new_text_message role text).
Proof. by intros rt. Qed.
Lemma retires_queue_resolution s queued o r c out x :
  retires (fun _ => True) (queue_resolution_events render_value s queued o r c out x).
Proof. by intros rt. Qed.

Hint Resolve retires_messages retires_connection retires_require_loaded retires_settings
  retires_any_new_event retires_turn_started retires_text_message retires_queue_resolution
  : retires.

(** Goes over the methods that run before a claim. *)
Ltac before_claim :=
  repeat (apply starts_none_then; [solve [auto with retires | by intros ?; split]|intros ?; cbv beta]).

Lemma dispatch_or_not dispatch claim :
  retires (fun o => o = None -> not_claimed claim) (mret (claimed_dispatch dispatch claim)).
Proof. apply retires_ret. by destruct claim. Qed.

Lemma steers_start_none session branch :
  starts_none (fun o => o = None) (apply_pending_steers session branch).
Proof.
  unfold apply_pending_steers. before_claim.
  destruct (last _) as [latest|]; [|by apply starts_none_retires, retires_ret].
  before_claim. case_match; subst. before_claim.
  eapply starts_none_first; [|intros claim; apply dispatch_or_not].
  apply starts_none_claim, steer_claims.
Qed.

Lemma queue_starts_none session :
  starts_none (fun o => o = None) (dispatch_next_queued_message render_value session).
Proof.
  unfold dispatch_next_queued_message. before_claim.
  case_match; subst; [by apply starts_none_retires, retires_ret|].
  before_claim. case_match; subst. before_claim.
  eapply starts_none_first; [|intros claim; apply dispatch_or_not].
  apply starts_none_claim, queued_claims.
Qed.

Lemma try_claim_starts_none s pending :
  starts_none (fun o => forall admitted, o <> Some (Some admitted)) (try_claim_related s pending).
Proof.
  unfold try_claim_related, rt_load_session. before_claim. case_match; subst. before_claim.
  eapply starts_none_first; [apply starts_none_commit, related_claims|].
  intros [seq_ids| | | |]; try by apply retires_ret.
  apply retires_then; [auto with retires|intros _]. apply retires_ret. intros H. by edestruct H.
Qed.

Lemma claim_starts_none n s : starts_none (fun o => o = None) (claim_next_loop n s).
Proof.
  induction n as [|n IH]; simpl; [by apply starts_none_retires, retires_fail|].
  before_claim. case_match; subst; [by apply starts_none_retires, retires_ret|].
  intros rt o rt' (claimed & rt1 & H1 & H2)%rt_bind_Ok ->.
  assert (shrinks (rt_store rt) (rt_store rt1)) as Hs.
  { eapply try_claim_starts_none; [exact H1|]. intros admitted ->. by injection H2. }
  etrans; [exact Hs|]. destruct claimed as [claimed|]; [by injection H2 as -> <-|].
  by eapply IH.
Qed.

(** Events that start no turn, also when they clear a cancellation. *)
Definition no_start (event : EventEnvelope) : Prop := is_turn_started event = false.

Lemma append_no_starts events :
  Forall no_start events -> keeps shrinks (append_events_in_tx events).
Proof.
  induction 1 as [|event events Hns _ IH]; intros db qs db' H.
  - by apply append_events_nil in H as [_ ->].
  - apply append_events_cons in H as (q & db1 & qs' & [H1 _]%append_active & H2 & _).
    etrans; [by eapply replay_shrinks|by eapply IH].
Qed.

Lemma append_starts_none events :
  Forall no_start events -> starts_none (fun _ => True) (rt_append_events events).
Proof.
  intros Hns. unfold rt_append_events. apply starts_none_then.
  { apply retires_iter. intros event. unfold ensure_started_unless_start, ensure_session_started.
    retire. }
  intros _. eapply (starts_none_first (fun _ => True)).
  - intros rt qs rt' H _. unfold commit in H.
    destruct (append_events events (rt_store rt)) as [r db'] eqn:E. injection H as -> <-.
    apply transaction_Ok in E. by eapply append_no_starts.
  - intros qs. apply retires_then; [auto with retires|intros _]. by apply retires_ret.
Qed.

Lemma retires_queue_drops s reason output success pending :
  retires (Forall no_start) (queue_drop_events render_value s reason output success pending).
Proof.
  induction pending as [|queued pending IH]; simpl; [by apply retires_ret|].
  apply (retires_bind (Forall no_start)).
  { intros rt. split; [by split|]. intros events [= <-]. by repeat constructor. }
  intros events H1. eapply retires_bind; [exact IH|intros rest H2].
  apply retires_ret. by apply Forall_app.
Qed.

Lemma retires_cancel_consumed s b steers queue :
  retires (Forall no_start) (cancel_consumed_events render_value s b steers queue).
Proof.
  unfold cancel_consumed_events. apply (retires_bind no_start).
  { intros rt. split; [by split|]. by intros event [= <-]. }
  intros cleared H1. apply (retires_bind (Forall no_start)).
  { destruct steers; [by apply retires_ret|]. intros rt. split; [by split|].
    intros events [= <-]. by repeat constructor. }
  intros dropped H2. eapply retires_bind; [apply retires_queue_drops|intros rest H3].
  apply retires_ret. constructor; [done|]. by apply Forall_app.
Qed.

(** The controls that wait are consumed and nothing is started, unless the
    action says so. *)
Lemma consume_starts_none session branch :
  starts_none (fun action => action = ControlStop)
    (consume_post_turn_controls render_value session branch).
Proof.
  unfold consume_post_turn_controls. apply starts_none_then; [unfold is_cancelled; retire|].
  intros [].
  - do 2 (apply starts_none_then; [auto with retires|intros ?]).
    eapply starts_none_later; [apply retires_cancel_consumed|intros events Hns].
    eapply starts_none_first; [by apply append_starts_none|]. intros qs. by apply retires_ret.
  - intros rt action rt' (steered & rt1 & H1 & H2)%rt_bind_Ok ->.
    destruct steered as [dispatch|]; [by injection H2|]. 
    etrans; [exact (steers_start_none _ _ _ _ _ H1 eq_refl)|]. apply rt_bind_Ok in H2 as (related & rt2 & H3 & H4).
    destruct related as [admitted|]; [by injection H4|].
    etrans; [exact (claim_starts_none _ _ _ _ _ H3 eq_refl)|].
    apply rt_bind_Ok in H4 as (dispatched & rt3 & H5 & H6).
    destruct dispatched as [dispatch|]; [by injection H6|]. injection H6 as <-.
    exact (queue_starts_none _ _ _ _ H5 eq_refl).
Qed.

(** After a cancellation the controls are dropped, and nothing is started. *)
Lemma consume_cancelled session branch rt action rt' :
  cancel_requested (se_session_id session) (rt_store rt) = true ->
  consume_post_turn_controls render_value session branch rt = (Ok action, rt') ->
  action = ControlStop.
Proof.
  intros Hc (cancelled & rt1 & H1 & H2)%rt_bind_Ok.
  apply is_cancelled_Ok in H1 as [-> ->]. rewrite Hc in H2.
  do 4 (apply rt_bind_Ok in H2 as (? & ? & _ & H2)). by injection H2.
Qed.

End controls.

(** ** The exits of a run *)

Section exits.
Context `{codec : RowCodec} `{entropy : Entropy} `{host : Host}.
Context {X : Type} `{adapters : !Adapters X}.

Lemma run_rt_Ok {A} (m : Rt A) (w : World X) a w' :
  run_rt m w = (Returned (Ok a), w') <-> exists rt', m (w_rt w) = (Ok a, rt') /\ w' = set_rt rt' w.
Proof.
  unfold run_rt, lift. destruct (m (w_rt w)) as [r rt'].
  split; [by intros [= -> <-]; eauto|]. by intros (rt1 & [= -> <-] & ->).
Qed.

Lemma settle_stopped_idle session branch t rt rt' :
  cancel_requested (se_session_id session) (rt_store rt) = true ->
  idle (se_session_id session) (rt_store rt) ->
  settle_stopped session branch t rt = (Ok tt, rt') -> idle (se_session_id session) (rt_store rt').
Proof.
  intros Hc Hi (n & rt1 & H1 & (action & rt2 & H2 & H3)%rt_bind_Ok)%rt_bind_Ok.
  injection H3 as <-.
  destruct (retires_outcome (se_session_id session) (br_branch_id branch) t StopCancelled rt)
    as [[[Hs Hk] _] _]. rewrite H1 in Hs, Hk.
  pose proof (consume_cancelled _ _ _ _ _ _ (Hk _ Hc) H2) as ->.
  eapply idle_shrinks; [exact (consume_starts_none _ _ _ _ _ _ H2 eq_refl)|].
  by eapply idle_shrinks.
Qed.

(** A stopped turn: its commit said that a cancellation is pending. *)
Lemma stopped_idle session branch t (m : Rt ActiveTurnFinishOutcome) rt finish rt1 rt' :
  ends (se_session_id session) m ->
  says_cancelled (se_session_id session) (fun finish => af_cancelled finish = true) m ->
  m rt = (Ok finish, rt1) -> af_cancelled finish = true ->
  settle_stopped session branch t rt1 = (Ok tt, rt') -> idle (se_session_id session) (rt_store rt').
Proof.
  intros Hends Hsays Hm Hcancelled. apply settle_stopped_idle; [by eapply Hsays|by eapply Hends].
Qed.

(** What follows a finished turn starts none, unless it is the action. *)
Lemma after_finish_idle branch t pf persisted finish rt action rt' :
  let s := se_session_id (pf_session pf) in
  (af_cancelled finish = true -> cancel_requested s (rt_store rt) = true) ->
  idle s (rt_store rt) ->
  after_finish (X := X) branch t pf persisted finish rt = (Ok (ControlStop, action), rt') ->
  idle s (rt_store rt').
Proof.
  intros s Hc Hi H. unfold after_finish in H.
  destruct (af_cancelled finish).
  - apply rt_bind_Ok in H as ([] & rt1 & H1 & [= <- <-]).
    by eapply settle_stopped_idle; [apply Hc| |exact H1].
  - assert (forall reason, retires (fun _ => True)
      (record_related_turn_outcome s (br_branch_id branch) t reason)) as Hout
      by (intros; apply retires_outcome).
    assert (forall reason rt1 rt2 n, idle s (rt_store rt1) ->
      record_related_turn_outcome s (br_branch_id branch) t reason rt1 = (n, rt2) ->
      idle s (rt_store rt2)) as Hkeep.
    { intros reason rt1 rt2 n Hi1 E. destruct (Hout reason rt1) as [[[Hs _] _] _].
      rewrite E in Hs. by eapply idle_shrinks. }
    destruct (af_budget finish); [| |apply rt_bind_Ok in H as (n & rt1 & H1 & [= _ <-]); by eapply Hkeep].
    all: destruct (awaits_operator _);
      [apply rt_bind_Ok in H as ([] & rt1 & [= <-] & [= _ <-]);
       destruct (record_related_turn_outcome _ _ _ _ rt) eqn:E; by eapply Hkeep|].
    all: apply rt_bind_Ok in H as (n & rt1 & H1 & (action' & rt2 & H2 & [= -> _ <-])%rt_bind_Ok).
    all: eapply idle_shrinks; [exact (consume_starts_none _ _ _ _ _ _ H2 eq_refl)|by eapply Hkeep].
Qed.

Lemma turn_returned_idle branch t pf result rt action rt' :
  let s := se_session_id (pf_session pf) in
  turn_returned (X := X) branch t pf result rt = (Ok (ControlStop, action), rt') ->
  idle s (rt_store rt').
Proof.
  intros s H. unfold turn_returned in H. apply rt_bind_Ok in H as (latency & rt1 & _ & H).
  apply rt_bind_Ok in H as (persisted & rt2 & _ & H).
  apply rt_bind_Ok in H as (finish & rt3 & H3 & H4).
  eapply after_finish_idle; [|by eapply ends_finish|exact H4].
  intros Hc. by eapply (finish_says s).
Qed.

(** A failure that a cancellation turned into a stop. *)
Lemma failed_then_idle session branch t p m rs e l rt finish rt1 rt' :
  let s := se_session_id session in
  record_turn_failure_transition_with_outcome s (br_branch_id branch) p m t rs e l rt
    = (Ok finish, rt1) ->
  af_cancelled finish = true -> settle_stopped session branch t rt1 = (Ok tt, rt') ->
  idle s (rt_store rt').
Proof.
  intros s. apply stopped_idle; [apply ends_turn_failure|apply turn_failure_says].
Qed.

Lemma turn_failed_idle branch t pf e w action w' :
  let s := se_session_id (pf_session pf) in
  turn_failed (X := X) branch t pf e w = (Returned (Ok action), w') ->
  idle s (rt_store (w_rt w')).
Proof.
  intros s. unfold turn_failed. fold s. intros (rt' & E & ->)%run_rt_Ok.
  apply rt_bind_Ok in E as (latency & rt1 & _ & E).
  apply rt_bind_Ok in E as (finish & rt2 & H2 & E).
  destruct (af_cancelled finish) eqn:Hc.
  - apply rt_bind_Ok in E as ([] & rt3 & H3 & [= <- <-]). by eapply failed_then_idle.
  - by apply rt_bind_Ok in E as (n & rt3 & _ & [= ?]).
Qed.

Lemma preflight_failed_idle session branch t revision e rt o rt' :
  preflight_failed session branch t revision e rt = (Ok o, rt') ->
  idle (se_session_id session) (rt_store rt').
Proof.
  unfold preflight_failed, record_pre_turn_failure.
  intros (finish & rt1 & H & E)%rt_bind_Ok. apply rt_bind_Ok in H as (settings & rt2 & _ & H2).
  destruct (af_cancelled finish) eqn:Hc.
  - apply rt_bind_Ok in E as ([] & rt3 & H3 & [= _ <-]). by eapply failed_then_idle.
  - by apply rt_bind_Ok in E as (n & rt3 & _ & [= ?]).
Qed.

(** The arm of a cancelled preflight relies on the request being there. *)
Lemma preflight_cancelled_idle session branch t revision rt o rt' :
  cancel_requested (se_session_id session) (rt_store rt) = true ->
  preflight_cancelled session branch t revision rt = (Ok o, rt') ->
  idle (se_session_id session) (rt_store rt').
Proof.
  unfold preflight_cancelled, finish_cancelled_turn. intros Hc (settings & rt1 & H1 & H)%rt_bind_Ok.
  apply rt_bind_Ok in H as ([] & rt2 & H & [= _ <-]).
  apply rt_bind_Ok in H as (finish & rt3 & H2 & H3).
  destruct (retires_settings (se_session_id session) revision rt) as [[[_ Hk1] _] _].
  destruct (retires_finish (se_session_id session) (br_branch_id branch) t
    (cd_provider settings.1) settings.2 "cancelled" (Some "Cancelled") 0 rt1) as [[[_ Hk2] _] _].
  rewrite H1 in Hk1. rewrite H2 in Hk2.
  eapply settle_stopped_idle; [|by eapply ends_finish|exact H3]. by apply Hk2, Hk1.
Qed.
End exits.
