(* ===== verification/OrchestratorRun.v ===== *)
(** * What a run of the orchestrator leaves

    Preparing a turn neither clears a request to cancel nor a signal, so a
    preflight that was cancelled finds the request still there; with the
    exits of [OrchestratorLaws] this makes a session idle whenever its run
    returns an outcome.  A run that fails or panics is left to the watchdog
    ([Watchdog]). *)

From stdpp Require Import base list strings gmap.
From Stdlib Require Import ZArith Lia.
From S2P Require Import Prelude Text Json Types Messages AgentStream AgentTurn ToolRegistry.
From S2P Require Import Approvals TurnProjection Store StoreOps StoreRelated.
From S2P Require Import StoreLaws StoreReplay StoreAdmission StoreLifecycle StoreQueries.
From S2P Require Import ContextPrompt Context Runtime RuntimeBudget RuntimeRecords.
From S2P Require Import RuntimeSessions RuntimeRelated RuntimeControl RuntimeRecovery.
From S2P Require Import RuntimeContext RuntimeLaws.
From S2P Require Import RecoveryLaws Orchestrator OrchestratorLaws.

#[local] Open Scope Z_scope.

(** ** Recording before a turn *)

Section recorders.
Context `{codec : RowCodec} `{entropy : Entropy}.

Lemma structural_fades db db' : structural db db' -> fades db db'.
Proof.
  intros H. split.
  - unfold shrinks. by rewrite (st_active _ _ H).
  - intros s. unfold cancel_requested. by rewrite (st_control _ _ H).
Qed.

Lemma active_events_fade s b t events :
  Forall plain events -> forall db, fades db (commit_active_turn_events s b t events db).2.
Proof.
  intros H. apply transaction_fades.
  repeat keeps_step; [apply owner_fades|by apply append_events_fades].
Qed.

(** A plain event of a turn. *)
Lemma retires_turn_append event t :
  plain event -> retires (fun _ => True) (append_optional_active_turn_event event (Some t)).
Proof.
  intros He. unfold append_optional_active_turn_event, append_optional_active_turn_events,
    append_active_turn_events.
  apply retires_then; [|intros qs; retire]. apply retires_then.
  { apply retires_iter. intros e. unfold ensure_session_started. retire. }
  intros _. apply retires_then; [|intros qs; retire].
  apply retires_commit, active_events_fade. by constructor.
Qed.

Lemma retires_record s b k p t :
  starts_or_clears p = false -> retires (fun _ => True) (record s b k p (Some t)).
Proof.
  intros Hp. unfold record. eapply retires_bind; [by apply retires_turn_event|intros event [He _]].
  by apply retires_turn_append.
Qed.

Lemma live_chunk_fades n s b t o p x c f g db :
  (forall chunk event, f chunk = Ok event -> plain event) ->
  (forall chunk event, g chunk = Ok event -> plain event) ->
  fades db (append_live_completion_chunk n s b t o p x c f g db).2.
Proof.
  intros Hf Hg. apply transaction_fades. unfold ensure_chunk_owner.
  assert (keeps fades (match t with Some t => ensure_active_turn_owner_in_tx s b t | None => mret tt end))
    as Howner by (destruct t; [apply owner_fades|apply (keeps_ret _)]).
  apply (keeps_bind _); [exact Howner|intros _].
  apply (keeps_bind _); [|intros raw].
  - destruct c; [|apply (keeps_ret _)].
    apply (keeps_bind _).
    { intros d u d' H%insert_chunk_structural. by apply structural_fades. }
    intros chunk. apply keeps_lifted. intros event He%Hf.
    apply (keeps_bind _).
    { intros d u d' H%link_chunk_structural. by apply structural_fades. }
    intros _. apply (keeps_bind _); [by apply append_fades|intros q]. apply (keeps_ret _).
  - apply keeps_lifted. intros event He%Hg.
    apply (keeps_bind _); [by apply append_fades|intros q]. apply (keeps_ret _).
Qed.

Lemma retires_live_chunk s b p t o deltas raw :
  retires (fun _ => True) (record_live_completion_chunk s b p t o deltas raw).
Proof.
  unfold record_live_completion_chunk, commit_live_completion_chunk.
  apply retires_then; [auto with retires|intros _].
  apply retires_then; [|intros committed; by intros rt].
  do 3 (apply retires_then; [by intros rt|intros ?]).
  apply retires_commit. intros db. apply live_chunk_fades; by intros chunk event [= <-].
Qed.
End recorders.

#[export] Hint Resolve retires_live_chunk retires_messages retires_connection
  retires_require_loaded retires_settings : retires.

Section preparing.
Context `{codec : RowCodec} `{entropy : Entropy} `{host : Host}.
Context {X : Type} `{adapters : !Adapters X}.

Lemma retires_context_messages s b :
  retires (fun _ => True) (load_context_messages_with_related_sessions s b).
Proof. unfold load_context_messages_with_related_sessions. retire. Qed.

Lemma retires_observed s b records :
  retires (fun _ => True) (observed_context_tokens render_value s b records).
Proof. by intros rt. Qed.
Lemma retires_previous s b : retires (fun _ => True) (previous_compaction_state s b).
Proof. by intros rt. Qed.
Lemma retires_elapsed : retires (fun _ => True) (rt_elapsed_ms instant_ms).
Proof. by intros rt. Qed.
Hint Resolve retires_context_messages retires_observed retires_previous retires_elapsed : retires.

Lemma retires_plan session branch c m p f :
  retires (fun _ => True)
    (plan_turn_context_compaction render_value context_config context_windows session branch c m p f).
Proof. unfold plan_turn_context_compaction. retire. Qed.

Lemma retires_report s b payload t :
  retires (fun _ => True) (record_report s b payload (Some t)).
Proof.
  unfold record_report, record_context_compacted. apply retires_then; [|intros recorded; retire].
  eapply retires_bind; [by apply retires_turn_event|intros event [He _]].
  apply retires_then; [by apply retires_turn_append|intros q; retire].
Qed.

Lemma retires_prepare session branch c m p tools thinking t r f inputs :
  retires (fun _ => True)
    (prepare_turn_context_for_resolved_settings render_value context_config context_windows
       instant_ms session branch c m p tools thinking (Some t) r f inputs).
Proof.
  pose proof retires_report. unfold prepare_turn_context_for_resolved_settings.
  apply retires_then; [auto with retires|intros records].
  apply retires_then; [destruct (ci_observed_context_tokens inputs); retire|intros observed].
  do 4 (apply retires_then; [auto with retires|intros ?]).
  destruct (build_request_with_options _ _ _ _ _ _ _ _ _ _ _ _) as [output|]; [|retire].
  do 2 (apply retires_then; [auto with retires|intros ?]).
  apply retires_then; [|intros report; retire]. destruct (bu_compaction output); retire.
Qed.

Lemma retires_chunks s b t c chunks :
  retires (fun _ => True) (rt_iter (record_chunk s b t c) chunks).
Proof. apply retires_iter. intros chunk. apply retires_live_chunk. Qed.

Lemma retires_summarization provider c s b t plan collected :
  retires (fun _ => True)
    (record_summarization_completion (X := X) provider c s b t plan collected).
Proof.
  unfold record_summarization_completion, record_completion_requested, record_completion_finished.
  apply retires_then; [by apply retires_record|intros _].
  apply retires_then; [apply retires_chunks|intros _].
  apply retires_then; [auto with retires|intros summary].
  apply retires_then; [|intros q; retire].
  apply retires_then; [destruct (cs_cost _); retire|intros cost]. by apply retires_record.
Qed.

Lemma retires_session_settings session r :
  retires (fun turn_session => se_session_id turn_session = se_session_id session)
    (session_for_settings_revision session r).
Proof.
  unfold session_for_settings_revision. do 2 (apply retires_then; [auto with retires|intros ?]).
  by apply retires_ret.
Qed.

Lemma retires_current_plan s b : retires (fun _ => True) (current_plan s b).
Proof. unfold current_plan. retire. Qed.

Lemma retires_system_prompt session tools instructions plan :
  retires (fun _ => True) (build_turn_system_prompt session tools instructions plan).
Proof. unfold build_turn_system_prompt. retire. Qed.
End preparing.

#[export] Hint Resolve retires_plan retires_prepare retires_summarization retires_current_plan
  retires_system_prompt : retires.

(** ** Signals and requests *)

Section coherence.
Context `{codec : RowCodec} `{entropy : Entropy} `{host : Host}.
Context {X : Type} `{adapters : !Adapters X}.
Context (s : SessionId).

(** The signal is the one registered for the session's turn, and when it is
    set the store holds a request to cancel. *)
Definition coherent (signal : nat) (w : World X) : Prop :=
  ac_signal <$> rt_active (w_rt w) !! s = Some signal
  /\ (signal_of (w_rt w) signal = true -> cancel_requested s (rt_store (w_rt w)) = true).

Definition safe {A} (m : World X -> A * World X) : Prop :=
  forall signal w, coherent signal w -> coherent signal (m w).2.

(** Nobody outside registers another turn of the session, sets the signal of
    its turn without a request to cancel, or clears the request. *)
Class CoherentOutside : Prop := {
  tools_safe session branch_id : safe (build_tool_registry session branch_id);
  provider_safe connection : safe (provider_for_connection connection);
  stream_safe connection w provider w' request :
    provider_for_connection connection w = (Ok provider, w') ->
    safe (pr_stream_completion provider request);
  timer_safe : safe timer;
}.
Context `{outside : !CoherentOutside}.

Lemma safe_rt {A} (P : A -> Prop) (m : Rt A) : retires P m -> safe (run_rt m).
Proof.
  intros Hm signal w [Ha Hw]. unfold run_rt, lift, coherent.
  destruct (Hm (w_rt w)) as [[[_ Hk] [= Hs Ha']] _]. destruct (m (w_rt w)) as [r rt']. simpl in *.
  unfold signal_of. rewrite Hs, Ha'. split; [done|]. intros Hset. by apply Hk, Hw.
Qed.

Lemma safe_lift {A} (P : A -> Prop) (m : Rt A) : retires P m -> safe (lift m).
Proof.
  intros Hm%safe_rt signal w Hw. specialize (Hm signal w Hw). unfold run_rt in Hm.
  by destruct (lift m w).
Qed.

Lemma safe_rt_opt {A} (P : option A -> Prop) (m : Rt (option A)) :
  retires P m -> safe (run_rt_opt m).
Proof.
  intros Hm%safe_lift signal w Hw. specialize (Hm signal w Hw). unfold run_rt_opt.
  by destruct (lift m w) as [[[a|]|e] w'].
Qed.

Lemma safe_act {A} (m : Act (World X) (Result A)) : safe m -> safe (run_act m).
Proof. intros Hm signal w Hw%(Hm signal). unfold run_act. by destruct (m w). Qed.

Lemma safe_ret {A} (a : A) : safe (mret a : Run X A).
Proof. by intros signal w. Qed.
Lemma safe_act_ret {A} (a : A) : safe (mret a : Act (World X) A).
Proof. by intros signal w. Qed.

Lemma safe_bind {A B} (m : Run X A) (k : A -> Run X B) :
  safe m -> (forall a, safe (k a)) -> safe (m ≫= k).
Proof.
  intros Hm Hk signal w Hw%(Hm signal). unfold mbind, run_bind.
  destruct (m w) as [[[a|e]| |] w']; simpl in *; [by apply Hk|done..].
Qed.

Lemma safe_act_bind {A B} (m : Act (World X) A) (k : A -> Act (World X) B) :
  safe m -> (forall a, safe (k a)) -> safe (m ≫= k).
Proof.
  intros Hm Hk signal w Hw%(Hm signal). unfold mbind, act_bind.
  destruct (m w) as [a w']. by apply Hk.
Qed.

Lemma safe_is_set n : safe (is_set n).
Proof. by intros signal w. Qed.

Lemma safe_wait n : safe (wait_ready n).
Proof.
  apply safe_act_bind; [apply timer_safe|intros woken].
  apply safe_act_bind; [apply safe_is_set|intros set]. apply safe_act_ret.
Qed.

Lemma safe_race {A} n (m : Act (World X) (Result A)) : safe m -> safe (race n m).
Proof.
  intros Hm signal w Hw%(Hm signal). unfold race. destruct (m w) as [r w1]. simpl in Hw.
  apply (safe_wait n) in Hw. by destruct (wait_ready n w1) as [lost w2].
Qed.

Lemma safe_draw {A} (f : nat -> A) : safe (draw f).
Proof. by intros signal w. Qed.

(** *** A preflight that gave up *)

(** The run gives [None] only with the signal set. *)
Definition gives_up {A} (signal : nat) (m : Run X (option A)) : Prop :=
  forall w w', m w = (Returned (Ok None), w') -> signal_of (w_rt w') signal = true.

Lemma gives_up_ret {A} n (a : A) : gives_up n (mret (Some a)).
Proof. by intros w w'. Qed.

Lemma gives_up_bind {A B} n (m : Run X A) (k : A -> Run X (option B)) :
  (forall a, gives_up n (k a)) -> gives_up n (m ≫= k).
Proof.
  intros Hk w w'. unfold mbind, run_bind.
  destruct (m w) as [[[a|e]| |] w1]; try done. apply Hk.
Qed.

Lemma gives_up_match {A B} n (m : Run X (option A)) (k : A -> Run X (option B)) :
  gives_up n m -> (forall a, gives_up n (k a)) ->
  gives_up n (m ≫= fun found => match found with None => mret None | Some a => k a end).
Proof.
  intros Hm Hk w w'. unfold mbind, run_bind.
  destruct (m w) as [[[[a|]|e]| |] w1] eqn:E; try done; [apply Hk|].
  intros [= <-]. by eapply Hm.
Qed.

Lemma wait_ready_set n w w' :
  wait_ready (X := X) n w = (true, w') -> signal_of (w_rt w') n = true.
Proof.
  unfold wait_ready, mbind, act_bind, is_set. destruct (timer w) as [woken w1].
  intros [= [_ H]%andb_true_iff <-]. done.
Qed.

Lemma gives_up_race {A} n (m : Act (World X) (Result A)) : gives_up n (race n m).
Proof.
  intros w w'. unfold race. destruct (m w) as [r w1].
  destruct (wait_ready n w1) as [[] w2] eqn:E; [|by destruct r].
  intros [= <-]. by eapply wait_ready_set.
Qed.

Lemma collect_gives_up n stream chunks text usage w w' :
  collect_chunks (X := X) n stream chunks text usage w = (None, w') ->
  signal_of (w_rt w') n = true.
Proof.
  revert chunks text usage w. induction stream as [|[chunk|e] stream IH];
    intros chunks text usage w; simpl; unfold mbind at 1, act_bind at 1;
    destruct (wait_ready n w) as [[] w1] eqn:E; try done;
    try (intros [= <-]; by eapply wait_ready_set).
  apply IH.
Qed.

Lemma safe_collect n stream chunks text usage :
  safe (collect_chunks n stream chunks text usage).
Proof.
  revert chunks text usage. induction stream as [|[chunk|e] stream IH]; intros chunks text usage;
    simpl; (apply safe_act_bind; [apply safe_wait|]; intros []; try apply safe_act_ret).
  apply IH.
Qed.

(** *** The preflight *)

Lemma run_bind_Ok {A B} (m : Run X A) (k : A -> Run X B) w b w' :
  (m ≫= k) w = (Returned (Ok b), w') <->
  exists a w1, m w = (Returned (Ok a), w1) /\ k a w1 = (Returned (Ok b), w').
Proof.
  unfold mbind, run_bind. destruct (m w) as [[[a|e]| |] w1]; split.
  1: by eauto. 1: by intros (a' & w1' & [= <- <-] & H).
  all: try done. all: by intros (a' & w1' & ? & H).
Qed.

Lemma safe_bind_post {A B} (Q : A -> Prop) (m : Run X A) (k : A -> Run X B) :
  safe m -> (forall w a w', m w = (Returned (Ok a), w') -> Q a) ->
  (forall a, Q a -> safe (k a)) -> safe (m ≫= k).
Proof.
  intros Hm HQ Hk signal w Hw%(Hm signal). unfold mbind, run_bind.
  destruct (m w) as [[[a|e]| |] w'] eqn:E; simpl in *; try done. apply Hk; [|done]. by eapply HQ.
Qed.

(** A provider the adapters gave. *)
Definition genuine (provider : Provider X) : Prop :=
  exists connection w w', provider_for_connection connection w = (Ok provider, w').

Lemma race_provider n c w provider w' :
  race n (provider_for_connection c) w = (Returned (Ok (Some provider)), w') -> genuine provider.
Proof.
  unfold race. destruct (provider_for_connection c w) as [r w1] eqn:E.
  destruct (wait_ready n w1) as [[] w2]; [done|]. destruct r as [p|e]; [|done].
  intros [= <- _]. by exists c, w, w1.
Qed.

Lemma safe_summarize n provider c plan :
  genuine provider -> safe (collect_summarization_with_cancel_precedence n provider c plan).
Proof.
  intros (c' & w0 & w1 & Hp). unfold collect_summarization_with_cancel_precedence.
  apply safe_act_bind; [apply safe_is_set|]. intros []; [apply safe_act_ret|].
  apply safe_act_bind; [|intros collection].
  - unfold collect_summarization_stream.
    do 2 (apply safe_act_bind; [apply safe_draw|intros ?]).
    apply safe_act_bind; [by eapply stream_safe|]. intros [stream|e]; [|apply safe_act_ret].
    apply safe_act_bind; [apply safe_collect|intros collected].
    apply safe_act_bind; [apply safe_draw|intros latency]. apply safe_act_ret.
  - apply safe_act_bind; [apply safe_is_set|intros cancelled]. apply safe_act_ret.
Qed.

Lemma safe_planned n provider c s' b t plan :
  genuine provider -> safe (run_act (run_planned_summarization n provider c s' b t plan)).
Proof.
  intros Hp. apply safe_act. unfold run_planned_summarization.
  destruct (tp_summarization plan) as [summarization|]; [|apply safe_act_ret].
  apply safe_act_bind; [by apply safe_summarize|].
  intros [[collected|e]|]; try apply safe_act_ret.
  apply safe_act_bind; [eapply safe_lift; auto with retires|intros recorded]. apply safe_act_ret.
Qed.

Lemma stream_gives_up n provider c plan w w' :
  collect_summarization_stream (X := X) n provider c plan w = (None, w') ->
  signal_of (w_rt w') n = true.
Proof.
  unfold collect_summarization_stream, mbind, act_bind, draw, mret, act_ret.
  destruct (pr_stream_completion provider _ _) as [[stream|e] w2]; [|done].
  destruct (collect_chunks n stream [] "" None w2) as [[[[[chunks text] usage]|e]|] w3] eqn:E;
    [done..|]. apply collect_gives_up in E. by intros [= <-].
Qed.

Lemma summarize_gives_up n provider c plan w w' :
  collect_summarization_with_cancel_precedence (X := X) n provider c plan w = (None, w') ->
  signal_of (w_rt w') n = true.
Proof.
  unfold collect_summarization_with_cancel_precedence, mbind, act_bind, is_set, mret, act_ret.
  destruct (signal_of (w_rt w) n) eqn:Hn; [by intros [= <-]|].
  destruct (collect_summarization_stream n provider c plan w) as [r w1] eqn:E.
  destruct (signal_of (w_rt w1) n) eqn:H1; [by intros [= <-]|].
  intros [= -> <-]. by eapply stream_gives_up.
Qed.

Lemma planned_gives_up n provider c s' b t plan :
  gives_up n (run_act (run_planned_summarization n provider c s' b t plan)).
Proof.
  intros w w'. unfold run_act, run_planned_summarization.
  destruct (tp_summarization plan) as [summarization|]; [|done].
  unfold mbind, act_bind.
  destruct (collect_summarization_with_cancel_precedence n provider c summarization w)
    as [[[collected|e]|] w1] eqn:E; [|done|].
  - destruct (lift _ w1) as [[u|e] w2]; done.
  - intros [= <-]. by eapply summarize_gives_up.
Qed.

Section preflight.
Context (session : SessionRecord) (branch : BranchRecord) (turn_id : TurnId).
Context (settings_revision_id : Z) (signal : nat).

Lemma safe_prepare turn_session tools instructions built settings provider :
  genuine provider ->
  safe (prepare_request branch turn_id settings_revision_id signal turn_session tools instructions
          built settings provider).
Proof.
  intros Hp. unfold prepare_request.
  apply safe_bind; [eapply safe_rt_opt; auto with retires|intros plan].
  apply safe_bind; [by apply safe_planned|]. intros [inputs|]; [|apply safe_ret].
  apply safe_bind; [by intros n w|]. intros []; [apply safe_ret|].
  apply safe_bind; [eapply safe_rt_opt; auto with retires|intros prepared]. apply safe_ret.
Qed.

Lemma safe_future : safe (preflight_future session branch turn_id settings_revision_id signal).
Proof.
  unfold preflight_future.
  apply safe_bind; [eapply safe_rt, retires_session_settings|intros turn_session].
  apply safe_bind; [apply safe_race, tools_safe|]. intros [tools|]; [|apply safe_ret].
  do 4 (apply safe_bind; [eapply safe_rt; auto with retires|intros ?]).
  apply (safe_bind_post (fun found => forall provider, found = Some provider -> genuine provider)).
  - apply safe_race, provider_safe.
  - intros w found w' E provider ->. by eapply race_provider.
  - intros [provider|] Hg; [|apply safe_ret]. by apply safe_prepare, Hg.
Qed.

Lemma prepare_gives_up turn_session tools instructions built settings provider :
  gives_up signal (prepare_request branch turn_id settings_revision_id signal turn_session tools
    instructions built settings provider).
Proof.
  unfold prepare_request. apply gives_up_bind. intros plan.
  apply gives_up_match; [apply planned_gives_up|intros inputs].
  intros w w'. unfold mbind, run_bind. unfold run_is_set at 1.
  destruct (signal_of (w_rt w) signal) eqn:E; [by intros [= <-]|].
  destruct (run_rt_opt _ w) as [[[a|e]| |] w1]; done.
Qed.

Lemma future_gives_up :
  gives_up signal (preflight_future session branch turn_id settings_revision_id signal).
Proof.
  unfold preflight_future. apply gives_up_bind. intros turn_session.
  apply gives_up_match; [apply gives_up_race|intros tools].
  do 4 (apply gives_up_bind; intros ?).
  apply gives_up_match; [apply gives_up_race|intros provider]. apply prepare_gives_up.
Qed.

(** A preflight that was cancelled leaves a request to cancel. *)
Lemma preflight_none w w' :
  coherent signal w ->
  preflight session branch turn_id settings_revision_id signal w = (Returned (Ok None), w') ->
  cancel_requested s (rt_store (w_rt w')) = true.
Proof.
  intros Hw. unfold preflight. destruct (signal_of (w_rt w) signal) eqn:Hset.
  { intros [= <-]. by apply (proj2 Hw). }
  pose proof (safe_future signal w Hw) as Hw'.
  destruct (preflight_future _ _ _ _ _ w) as [[r| |] w1] eqn:E; try done. simpl in Hw'.
  destruct (signal_of (w_rt w1) signal) eqn:Hset1;
    [intros [= <-]; by apply (proj2 Hw')|intros [= -> <-]]. apply future_gives_up in E. congruence.
Qed.

Lemma prepare_session turn_session tools instructions built settings provider w pf w' :
  prepare_request branch turn_id settings_revision_id signal turn_session tools instructions built
    settings provider w = (Returned (Ok (Some pf)), w') -> pf_session pf = turn_session.
Proof.
  unfold prepare_request. intros (plan & w1 & _ & (inputs & w2 & _ & H)%run_bind_Ok)%run_bind_Ok.
  destruct inputs as [inputs|]; [|done].
  apply run_bind_Ok in H as ([] & w3 & _ & H); [done|].
  apply run_bind_Ok in H as (prepared & w4 & _ & H). by injection H as <- _.
Qed.

Lemma preflight_session w pf w' :
  preflight session branch turn_id settings_revision_id signal w = (Returned (Ok (Some pf)), w') ->
  se_session_id (pf_session pf) = se_session_id session.
Proof.
  unfold preflight. destruct (signal_of (w_rt w) signal); [done|].
  destruct (preflight_future _ _ _ _ _ w) as [[r| |] w1] eqn:E; try done.
  destruct (signal_of (w_rt w1) signal); [done|]. intros [= -> ->]. revert E.
  unfold preflight_future. intros (turn_session & w2 & H1 & H)%run_bind_Ok.
  apply run_rt_Ok in H1 as (rt' & H1 & ->).
  destruct (retires_session_settings session settings_revision_id (w_rt w)) as [_ Hs].
  rewrite H1 in Hs. specialize (Hs _ eq_refl). rewrite <- Hs. f_equal.
  apply run_bind_Ok in H as ([tools|] & w3 & _ & H); [|done].
  do 4 (apply run_bind_Ok in H as (? & ? & _ & H)).
  apply run_bind_Ok in H as ([provider|] & w4 & _ & H); [|done]. by eapply prepare_session.
Qed.
End preflight.

(** ** The run *)

Lemma post_action_idle steps branch t signal pf w reason w' :
  post_turn_action steps branch t signal pf w = (Returned (Ok (ControlStop, reason)), w') ->
  idle (se_session_id (pf_session pf)) (rt_store (w_rt w')).
Proof.
  unfold post_turn_action. intros (u & w1 & _ & H)%run_bind_Ok. unfold run_match in H.
  destruct (run_turn_loop _ _ _ _ _ w1) as [[[result|e]| |] w2]; try done.
  - apply run_rt_Ok in H as (rt' & H & ->). by eapply turn_returned_idle.
  - by eapply turn_failed_idle.
Qed.

Lemma follow_stops session branch s' action rt o rt' :
  follow session branch s' action rt = (Ok (inl o), rt') -> action.1 = ControlStop /\ rt' = rt.
Proof.
  unfold follow. destruct action.1; try done; [by intros [= _ <-]|..];
    by intros (next & rt1 & _ & [=])%rt_bind_Ok.
Qed.

Lemma one_turn_idle steps session next signal w o w' :
  se_session_id session = s -> coherent signal w ->
  run_one_turn steps session next signal w = (Returned (Ok (inl o)), w') ->
  idle s (rt_store (w_rt w')).
Proof.
  intros Hs Hw. unfold run_one_turn, run_match.
  destruct (preflight _ _ _ _ _ w) as [[[[pf|]|e]| |] w1] eqn:E; try done.
  - intros (action & w2 & H1 & (rt' & H2 & ->)%run_rt_Ok)%run_bind_Ok.
    apply follow_stops in H2 as [Hstop ->]. destruct action as [action reason].
    simpl in Hstop. subst action. apply preflight_session in E. apply post_action_idle in H1.
    by rewrite E, Hs in H1.
  - intros (outcome & w2 & (rt' & H & ->)%run_rt_Ok & [= _ <-])%run_bind_Ok. rewrite <- Hs.
    eapply preflight_cancelled_idle; [|exact H]. rewrite Hs. by eapply preflight_none.
  - intros (outcome & w2 & (rt' & H & ->)%run_rt_Ok & [= _ <-])%run_bind_Ok. rewrite <- Hs.
    by eapply preflight_failed_idle.
Qed.

(** A new signal is set exactly when a request to cancel is there. *)
Lemma begin_coherent b t w signal w' :
  run_rt (begin_active_turn_cancellation s b t) w = (Returned (Ok signal), w') ->
  coherent signal w'.
Proof.
  intros (rt' & H & ->)%run_rt_Ok. unfold begin_active_turn_cancellation in H.
  apply rt_bind_Ok in H as (claim & rt1 & [= _ <-] & H).
  apply rt_bind_Ok in H as (u & rt1 & [= _ <-] & H).
  apply rt_bind_Ok in H as (control & rt1 & [= Hc <-] & H).
  apply rt_bind_Ok in H as (rt1 & rt2 & [= <- <-] & H).
  apply rt_bind_Ok in H as (u1 & rt2 & [= _ <-] & H).
  apply rt_bind_Ok in H as (u2 & rt2 & [= _ <-] & H). injection H as <- <-.
  split; simpl; [by rewrite lookup_insert_eq|]. unfold signal_of. simpl.
  rewrite lookup_app_r by done. rewrite Nat.sub_diag. simpl. intros Hset.
  unfold load_session_control, cancel_requested in *.
  destruct (db_control (rt_store (w_rt w)) !! s) as [row|]; [|by injection Hc as <-].
  by apply result_bind_Ok in Hc as (updated_at & _ & [= <-]).
Qed.

Lemma dropping_store {A} b t (body : Run X A) w r w' :
  dropping s b t body w = (r, w') ->
  exists w1, body w = (r, w1) /\ rt_store (w_rt w') = rt_store (w_rt w1).
Proof.
  unfold dropping. destruct (body w) as [r1 w1]. intros H. exists w1. revert H.
  destruct r1; simpl; intros [= <- <-]; split; try done;
    by destruct (active_turn_cancellation_signal _ _ _ _).
Qed.

Lemma turns_idle fuel steps session next w o w' :
  se_session_id session = s ->
  run_turns fuel steps session next w = (Returned (Ok o), w') -> idle s (rt_store (w_rt w')).
Proof.
  intros Hs. revert next w. induction fuel as [|fuel IH]; intros next w; [done|]. simpl.
  intros (ended & w1 & H1 & H2)%run_bind_Ok.
  destruct ended as [o'|next']; [|by eapply IH]. injection H2 as -> <-.
  unfold with_guard in H1. rewrite Hs in H1. apply run_bind_Ok in H1 as (signal & w2 & H1 & H2).
  apply dropping_store in H2 as (w3 & H2 & ->).
  eapply one_turn_idle; [exact Hs| |exact H2]. by eapply begin_coherent.
Qed.
End coherence.

(** C11. When an orchestrated run returns an outcome, the session has no
    active turn left, however the run went: its turn completed, stopped for
    the operator or at its budget, was cancelled before or while it ran, or
    was followed by any number of waiting turns.  The session's next message
    is admitted at once, not queued behind a turn that nobody runs.  Outside,
    only the session's registered turn and its request to cancel have to be
    left alone. *)
Theorem returned_run_is_idle `{RowCodec} `{Entropy} `{host : Host} {X} `{adapters : !Adapters X}
    (fuel steps : nat) (request : TurnRunRequest) (w : World X) outcome w'
    `{!CoherentOutside (X := X) (se_session_id (rr_session request))} :
  run_session_turns fuel steps request w = (Returned (Ok outcome), w') ->
  idle (se_session_id (rr_session request)) (rt_store (w_rt w')).
Proof. by apply turns_idle. Qed.


(** ** A run with two turns *)

#[local] Existing Instance counting_entropy.

(** The lists of calls the run writes; the others have no rendering. *)
Definition sample_calls : list (list TurnToolCallSummary) :=
  let call execution := [MkTurnToolCallSummary (MkToolCallId "call") "look" None execution] in
  [[]; call None; call (Some "completed")].

Definition sample_codec : RowCodec := {|
  show_uuid := show_uuid (RowCodec := unary_codec);
  parse_uuid := parse_uuid (RowCodec := unary_codec);
  format_time := format_time (RowCodec := unary_codec);
  parse_time := parse_time (RowCodec := unary_codec);
  show_tool_calls l := (fun found => unary found.1) <$> list_find (fun l' => l' = l) sample_calls;
  parse_tool_calls s := sample_calls !! String.length s;
  driver_error := "driver";
  format_error := "format";
|}.
#[local] Existing Instance sample_codec.

(** Tool outputs are cut at [max_bytes]. *)
Definition sample_host (max_bytes : Z) : Host := {|
  render_value _ := "";
  render_number _ := "";
  render_string s := s;
  raw_text _ := "";
  json_from_str _ := None;
  context_config := {|
    cx_compaction_threshold := f64_zero;
    cx_compaction_trigger_fraction := f64_zero;
    cx_compaction_user_message_budget_tokens := 1000;
    cx_summarizer_model := None;
    cx_reserve_tokens := 100;
    cx_max_tool_result_lines := 100;
    cx_max_tool_result_bytes := max_bytes;
    cx_summary_connection := None |};
  context_windows := Ok [];
  pricing_catalog := Ok [];
  approval_patterns := [];
  instant_ms := Z.of_nat;
  core_prompt_document := MkInstructionDocument "core" "core" "answer";
  provider_prompt_overlay _ := None;
  resolve_instructions _ := Ok [];
  scan_dir _ := None;
  strip_root _ _ := None;
|}.

(** Outside: the answers the provider has left. *)
Definition Answers : Type := list (list CompletionDelta).

Definition sample_provider : Provider Answers := {|
  pr_id := "p";
  pr_stream_completion _ w :=
    (Ok [Ok (MkCompletionChunk None (default [] (head (w_outside w))) None None)],
     MkWorld (w_rt w) (w_auto_approve w) (w_pending_terminal w) (tail (w_outside w)));
  pr_completion_summary summary := Ok summary;
|}.

(** A tool that needs no approval and answers with a text. *)
Definition sample_tool (text : string) : ToolExecutor (World Answers) :=
  let result := Ok {| tr_call_id := MkToolCallId "call"; tr_tool_name := "look";
                      tr_is_error := false; tr_output := VString text;
                      tr_duration_ms := None |} in
  {| te_spec := {| ts_name := "look"; ts_description := ""; ts_parameters_schema := VNull;
                   ts_metadata := {| tm_risk_class := RiskSafe; tm_is_read_only := true;
                     tm_is_concurrency_safe := true; tm_interrupt_behavior := InterruptImmediate;
                     tm_execution_mode := ExecImmediate; tm_should_defer := false;
                     tm_catalogue_tags := []; tm_display_group := Codebase |} |};
     te_approval_requirement _ := ReqNever;
     te_execute _ _ w := (result, w);
     te_execute_or_cancel _ _ w := (Some result, w) |}.

Definition sample_adapters (text : string) : Adapters Answers := {|
  build_tool_registry _ _ w := (Ok (register_arc (sample_tool text) ∅), w);
  provider_for_connection _ w := (Ok sample_provider, w);
  timer w := (true, w);
|}.

(** An admitted turn, with a message queued behind it. *)
Definition two_turns_db : Db :=
  run_ops (quiet_history ++ [sample_admission 10 20; sample_admission 14 21]) db_empty.
Definition sample_admitted : AdmittedTurn := MkAdmittedTurn (MkUuid 1) (MkUuid 2) (MkUuid 20) 1.
Definition sample_run_request : TurnRunRequest :=
  MkTurnRunRequest sample_session sample_branch sample_admitted.

(** The first turn calls the tool and answers; the second only answers. *)
Definition sample_world : World Answers :=
  MkWorld (fresh_runtime two_turns_db [sample_connection]) ∅ None
    [[OpenToolCall "call" "look" (Some (VObject [])); CloseToolCall "call"];
     [AppendText "seen"]; [AppendText "done"]].

Lemma sample_coherent text s :
  CoherentOutside (adapters := sample_adapters text) s.
Proof.
  split; try (intros; by intros signal w Hw).
  intros c w provider w' request [= <- _] signal w1. simpl. done.
Qed.

Definition sample_run (text : string) : Ended TurnRunOutcome * World Answers :=
  let host := sample_host 1000 in
  let adapters := sample_adapters text in
  run_session_turns 5 20 sample_run_request sample_world.

(** Both turns ran: the outcome is that of the second. *)
Lemma returned_run_is_idle_witness :
  let outcome := MkTurnRunOutcome (MkUuid 1) (MkUuid 2) StopComplete in
  let db' := rt_store (w_rt (sample_run "fine").2) in
  (sample_run "fine").1 = Returned (Ok outcome)
  /\ length (List.filter (fun logged => is_turn_finished logged.2) (db_events db')) = 2%nat
  /\ idle (MkUuid 1) db'.
Proof.
  intros outcome db'.
  assert ((sample_run "fine").1 = Returned (Ok outcome)) as Hended by (vm_compute; reflexivity).
  split; [exact Hended|]. split; [vm_compute; reflexivity|].
  assert (sample_run "fine" = (Returned (Ok outcome), (sample_run "fine").2)) as Hrun
    by (rewrite <- Hended; apply surjective_pairing).
  pose proof (sample_coherent "fine" (MkUuid 1)) as Houtside.
  exact (returned_run_is_idle (host := sample_host 1000) (adapters := sample_adapters "fine")
           5 20 sample_run_request sample_world outcome (sample_run "fine").2 Hrun).
Defined.
