(* ===== verification/Watchdog.v ===== *)
(** * The watchdog of a detached run

    What [detach_turn_work] does after work that failed or panicked: it ends
    the admitted turn when that is still the session's active one, and leaves
    every other active turn where it is.  A turn that the same run went on to
    is such a turn. *)

From stdpp Require Import base list strings gmap.
From Stdlib Require Import ZArith Lia.
From S2P Require Import Prelude Text Json Types Messages AgentStream AgentTurn ToolRegistry.
From S2P Require Import Approvals TurnProjection Store StoreOps StoreRelated.
From S2P Require Import StoreLaws StoreReplay StoreAdmission StoreLifecycle StoreQueries.
From S2P Require Import ContextPrompt Context Runtime RuntimeBudget RuntimeRecords.
From S2P Require Import RuntimeSessions RuntimeRelated RuntimeControl RuntimeRecovery.
From S2P Require Import RuntimeContext RuntimeLaws.
From S2P Require Import RecoveryLaws Orchestrator OrchestratorLaws OrchestratorRun.

#[local] Open Scope Z_scope.

(** ** Methods that leave the active turns *)

Definition same_turns (db db' : Db) : Prop := db_active_turns db' = db_active_turns db.

#[export] Instance same_turns_preorder : PreOrder same_turns.
Proof. unfold same_turns. split; [done|]. intros a b c H1 H2. by etrans. Qed.

(** Events that move no boundary of a turn. *)
Definition inner (event : EventEnvelope) : Prop :=
  match ev_payload event with
  | TurnStarted _ _ _ _ _ _ _ | TurnFinished _ _ _ _ _ _ => False
  | _ => True
  end.

Section steady.
Context `{codec : RowCodec} `{entropy : Entropy}.

Lemma append_inner event : inner event -> keeps same_turns (append_event_in_tx event).
Proof.
  intros He db q db' [H _]%append_active. revert H. unfold same_turns, replay_boundary, inner in *.
  by destruct (ev_payload event); try done; intros [= ->].
Qed.

Lemma transaction_turns {A} (body : Tx A) :
  keeps same_turns body -> forall db, same_turns db (transaction body db).2.
Proof.
  intros Hb db. destruct (transaction body db) as [[a|e] db'] eqn:E.
  - apply transaction_Ok in E. by eapply Hb.
  - by apply transaction_Err in E as ->.
Qed.

Lemma envelopes_inner sent received m :
  validate_related_session_message_envelopes sent received = Ok m -> inner sent /\ inner received.
Proof.
  unfold validate_related_session_message_envelopes, inner. by repeat (case_match; try done).
Qed.

Lemma deliver_turns sent received db :
  same_turns db (commit_related_session_message sent received db).2.
Proof.
  apply transaction_turns, keeps_lifted. intros m [Hsent Hreceived]%envelopes_inner.
  unfold query_result. repeat keeps_step; by apply append_inner.
Qed.

Lemma settle_turns o sent received settled db :
  same_turns db (settle_related_session_message o sent received settled db).2.
Proof.
  apply transaction_turns, keeps_lifted. intros reply [Hsent Hreceived]%envelopes_inner.
  apply keeps_lifted. intros t Hset.
  assert (inner settled) as Hsettled.
  { revert Hset. unfold validate_settlement, inner. by repeat (case_match; try done). }
  unfold query_result. repeat keeps_step; by apply append_inner.
Qed.

(** However the method ends, the active turns are what they were. *)
Definition steady {A} (m : Rt A) : Prop := forall rt, same_turns (rt_store rt) (rt_store (m rt).2).

Lemma steady_bind_post {A B} (P : A -> Prop) (m : Rt A) (k : A -> Rt B) :
  steady m -> (forall rt a rt', m rt = (Ok a, rt') -> P a) ->
  (forall a, P a -> steady (k a)) -> steady (m ≫= k).
Proof.
  intros Hm HP Hk rt. specialize (Hm rt). unfold mbind, rt_bind.
  destruct (m rt) as [[a|e] rt'] eqn:E; [|done]. etrans; [exact Hm|]. by eapply Hk, HP.
Qed.

Lemma steady_bind {A B} (m : Rt A) (k : A -> Rt B) :
  steady m -> (forall a, steady (k a)) -> steady (m ≫= k).
Proof. intros Hm Hk. by apply (steady_bind_post (fun _ => True)). Qed.

Lemma steady_ret {A} (a : A) : steady (mret a).
Proof. by intros rt. Qed.

Lemma steady_commit {A} (f : Db -> Result A * Db) :
  (forall db, same_turns db (f db).2) -> steady (commit f).
Proof. intros Hf rt. specialize (Hf (rt_store rt)). unfold commit. by destruct (f (rt_store rt)). Qed.

Lemma steady_read {A} (f : Db -> A) : steady (read f).
Proof. by intros rt. Qed.
Lemma steady_read_result {A} (f : Db -> Result A) : steady (read_result f).
Proof. by intros rt. Qed.
Lemma steady_lift {A} (r : Result A) : steady (rt_lift r).
Proof. by intros rt. Qed.
Lemma steady_fresh {tag} : steady (fresh_id : Rt (UuidId tag)).
Proof. by intros rt. Qed.
Lemma steady_now : steady now_utc.
Proof. by intros rt. Qed.
Lemma steady_publish event q : steady (publish_committed_event event q).
Proof. by intros rt. Qed.
Lemma steady_event s b k p t : steady (turn_event s b k p t).
Proof. by intros rt. Qed.
Lemma steady_new_event s b k p : steady (new_event s b k p).
Proof. by intros rt. Qed.
Lemma steady_text role text : steady (new_text_message role text).
Proof. by intros rt. Qed.
End steady.

Create HintDb steady.
#[export] Hint Resolve steady_ret steady_read steady_read_result steady_lift steady_fresh steady_now
  steady_publish steady_event steady_new_event steady_text : steady.

Ltac steady :=
  repeat match goal with
  | |- steady (_ ≫= _) => apply steady_bind; [|intros ?; cbv beta]
  | |- steady (let '(_, _) := ?x in _) => destruct x; cbv beta iota
  | |- steady (match ?x with _ => _ end) => destruct x; cbv beta iota
  | |- steady (if ?b then _ else _) => destruct b; cbv beta iota
  | |- steady (let _ := _ in _) => cbv zeta
  | |- steady _ => by eauto with steady
  end.

Section replies.
Context `{codec : RowCodec} `{entropy : Entropy}.

Lemma steady_started s b : steady (ensure_session_started_for s b).
Proof.
  unfold ensure_session_started_for. apply steady_bind; [auto with steady|intros []; [steady|]].
  apply steady_bind; [steady|intros loaded]. apply steady_bind; [steady|intros session].
  apply (steady_bind_post inner); [steady|by intros rt event rt' [= <- _]|intros event He].
  apply steady_bind; [|intros q; steady]. by apply steady_commit, transaction_turns, append_inner.
Qed.

Lemma steady_messages s b t s' b' k d r x a :
  steady (related_session_message_events s b t s' b' k d r x a).
Proof. unfold related_session_message_events. steady. Qed.

Lemma steady_destination s b d r x : steady (resolve_related_session_destination_branch s b d r x).
Proof. unfold resolve_related_session_destination_branch. steady. Qed.
Hint Resolve steady_messages steady_destination : steady.

Lemma steady_send s b t s' b' k d r x a : steady (send_related_session_message s b t s' b' k d r x a).
Proof.
  unfold send_related_session_message. steady. apply steady_commit. intros db. apply deliver_turns.
Qed.

Lemma steady_reply s b t kind text records o :
  steady (reply_to_obligation s b t kind text records o).
Proof.
  unfold reply_to_obligation. steady; [apply steady_send|].
  apply steady_commit. intros db. apply settle_turns.
Qed.

Lemma steady_related_failure s b t e : steady (record_related_turn_failure s b t e).
Proof.
  apply steady_bind; [steady|intros records]. generalize (List.filter (is_obligation b) records).
  intros obligations. induction obligations as [|o rest IH]; simpl; [steady|].
  apply steady_bind; [apply steady_reply|intros n]. apply steady_bind; [exact IH|intros m; steady].
Qed.
End replies.

(** ** A transition of another turn *)

Section refused.
Context `{codec : RowCodec} `{entropy : Entropy} (s : SessionId) (t : TurnId).

(** The session runs another turn. *)
Definition elsewhere (db : Db) : Prop :=
  exists row, db_active_turns db !! s = Some row /\ at_turn_id row <> t.

Lemma elsewhere_same db db' : same_turns db db' -> elsewhere db -> elsewhere db'.
Proof. unfold elsewhere. by intros ->. Qed.

Definition ends_turn (event : EventEnvelope) : Prop :=
  match ev_payload event with TurnFinished t' _ _ _ _ _ => t' = t | _ => False end.

(** The last event ends the turn. *)
Definition closing (events : list EventEnvelope) : Prop :=
  exists pre finish, events = pre ++ [finish] /\ ends_turn finish.

Lemma precedence_closing events p db :
  closing events -> apply_cancel_precedence s events db = Ok p -> closing p.2.
Proof.
  intros (pre & finish & -> & Hf). unfold apply_cancel_precedence. intros H.
  apply result_bind_Ok in H as (control & _ & H).
  destruct (negb _); [injection H as <-; by exists pre, finish|]. injection H as <-.
  rewrite last_snoc. unfold cancelled_finish, ends_turn in *.
  destruct (ev_payload finish) eqn:Hp; try done. simpl. rewrite removelast_last.
  eexists _, _. split; [reflexivity|]. done.
Qed.

Lemma terminal_refused b events db :
  elsewhere db -> same_turns db (commit_turn_terminal_transition s b t events db).2.
Proof.
  intros (row & Hrow & Hne). unfold commit_turn_terminal_transition.
  destruct (transaction _ db) as [[qs|e] db'] eqn:E; [|by apply transaction_Err in E as ->].
  apply transaction_Ok in E. invert_tx. destruct a.
  apply owns_Ok in Htx0 as (_ & row' & Hrow' & _ & Ht). congruence.
Qed.

Lemma budget_refused checkpoint cancellation events db :
  ev_session_id checkpoint = s -> closing events -> elsewhere db ->
  same_turns db (commit_budget_terminal_transition checkpoint cancellation events db).2.
Proof.
  intros Hs (pre & finish & -> & Hf) (row & Hrow & Hne).
  destruct (commit_budget_terminal_transition _ _ _ db) as [[c|e] db'] eqn:E.
  - apply budget_transition_Ok in E as (t' & row' & db1 & seqs & Hval & Hrow' & Ht & _).
    destruct (budget_terminal_shape _ _ _ _ Hval) as (_ & _ & _ & _ & pre' & last & Hl & _ & Hlast).
    apply app_inj_tail in Hl as [_ <-]. unfold ends_turn in Hf.
    destruct (ev_payload finish); try done. congruence.
  - unfold commit_budget_terminal_transition, commit_budget_checkpoint_transition in E.
    by apply transaction_Err in E as ->.
Qed.

(** A method over a session that runs another turn. *)
Definition misses {A} (m : Rt A) : Prop :=
  forall rt, elsewhere (rt_store rt) -> same_turns (rt_store rt) (rt_store (m rt).2).

Lemma misses_steady {A} (m : Rt A) : steady m -> misses m.
Proof. intros Hm rt _. apply Hm. Qed.

Lemma misses_bind {A B} (P : A -> Prop) (m : Rt A) (k : A -> Rt B) :
  misses m -> (forall rt a rt', m rt = (Ok a, rt') -> P a) ->
  (forall a, P a -> misses (k a)) -> misses (m ≫= k).
Proof.
  intros Hm HP Hk rt He. specialize (Hm rt He). unfold mbind, rt_bind.
  destruct (m rt) as [[a|e] rt'] eqn:E; [|done]. simpl in Hm. etrans; [exact Hm|].
  eapply Hk; [by eapply HP|]. by eapply elsewhere_same.
Qed.

Lemma misses_then {A B} (m : Rt A) (k : A -> Rt B) :
  misses m -> (forall a, misses (k a)) -> misses (m ≫= k).
Proof. intros Hm Hk. by apply (misses_bind (fun _ => True)). Qed.

Lemma misses_commit {A} (f : Db -> Result A * Db) :
  (forall db, elsewhere db -> same_turns db (f db).2) -> misses (commit f).
Proof.
  intros Hf rt He. specialize (Hf _ He). unfold commit. by destruct (f (rt_store rt)).
Qed.

Lemma misses_precedence {B} events (k : bool * list EventEnvelope -> Rt B) :
  closing events -> (forall p, closing p.2 -> misses (k p)) ->
  misses (read_result (apply_cancel_precedence s events) ≫= k).
Proof.
  intros He Hk. eapply misses_bind; [apply misses_steady; auto with steady| |exact Hk].
  intros rt p rt' [= H _]. by eapply precedence_closing.
Qed.

Lemma steady_publish_all events qs : steady (publish_all events qs).
Proof.
  unfold publish_all. induction (zip events qs) as [|p l IH]; simpl; [steady|].
  apply steady_bind; [steady|intros u; exact IH].
Qed.

Lemma terminal_commit_misses b at_time events :
  closing events -> misses (commit_active_turn_terminal_events s b t at_time events).
Proof.
  intros Hc. unfold commit_active_turn_terminal_events.
  eapply (misses_bind (fun found => forall c x, found = Some (c, x) -> ev_session_id c = s)).
  - apply misses_steady. unfold budget_checkpoint_transition_at. steady.
  - intros rt found rt' H c x ->. revert H. unfold budget_checkpoint_transition_at.
    intros (loaded & rt1 & _ & H)%rt_bind_Ok. destruct loaded; [|by injection H].
    apply rt_bind_Ok in H as (log & rt2 & _ & H).
    apply rt_bind_Ok in H as (window & rt3 & _ & H).
    apply rt_bind_Ok in H as (c' & rt4 & [= <- <-] & H). by injection H as <- _.
  - intros [[checkpoint cancellation]|] Hs.
    + apply misses_precedence; [done|intros p Hp]. apply misses_then.
      { apply misses_commit. intros db. apply budget_refused; [by eapply Hs|done]. }
      intros c. apply misses_steady. unfold publish_optional. steady; apply steady_publish_all.
    + apply misses_then; [apply misses_steady, steady_started|intros _].
      apply misses_precedence; [done|intros p Hp]. apply misses_then.
      { apply misses_commit. intros db. apply terminal_refused. }
      intros qs. apply misses_steady. steady; apply steady_publish_all.
Qed.

Lemma failure_misses b p m e l :
  misses (record_turn_failure_transition_with_outcome s b p m t [] e l).
Proof.
  unfold record_turn_failure_transition_with_outcome,
    record_turn_failure_transition_with_reason_outcome.
  apply misses_then; [apply misses_steady; steady|intros at_time].
  apply misses_then; [apply misses_steady; steady|intros results].
  apply misses_then; [apply misses_steady; by intros rt|intros failure].
  eapply (misses_bind ends_turn); [apply misses_steady; by intros rt| |intros finish Hf].
  - intros rt finish rt'. unfold turn_finished_event.
    intros (event & rt1 & [= <- <-] & H)%rt_bind_Ok. injection H as <- _. by destruct (Some _).
  - apply terminal_commit_misses. exists (results ++ [failure]), finish.
    by rewrite <- (assoc_L (++)).
Qed.
End refused.

(** ** The watchdog *)

Section watchdog.
Context `{codec : RowCodec} `{entropy : Entropy} `{host : Host}.

Lemma watchdog_misses s b t reason : misses s t (watchdog s b t reason).
Proof.
  unfold watchdog. apply misses_then; [|intros u].
  - intros rt He. unfold rt_ignore. simpl. by apply failure_misses.
  - apply misses_steady. intros rt. apply steady_related_failure.
Qed.

Lemma watchdog_ends s b t reason rt :
  is_ok (record_turn_failure_transition_with_outcome s b "unknown" "unknown" t []
           (watchdog_error reason) 0 rt).1 = true ->
  idle s (rt_store (watchdog s b t reason rt).2).
Proof.
  destruct (record_turn_failure_transition_with_outcome _ _ _ _ _ _ _ _ rt) as [[f|e] rt1] eqn:E;
    [intros _|done].
  unfold watchdog, rt_ignore, mbind, rt_bind. cbv zeta. rewrite E. simpl.
  destruct (retires_related_failure s b t (watchdog_error reason) rt1) as [[[Hs _] _] _].
  eapply idle_shrinks; [exact Hs|]. by eapply ends_turn_failure.
Qed.

Lemma watchdog_store s b t {X} (w : World X) reason :
  rt_store (w_rt (run_rt (watchdog s b t reason) w).2) = rt_store (watchdog s b t reason (w_rt w)).2.
Proof. unfold run_rt, lift. by destruct (watchdog s b t reason (w_rt w)). Qed.

Definition failure_reason {A} (ended : Ended A) : option string :=
  match ended with
  | Returned (Err _) => Some "turn task ended with unrecorded failure"
  | Panicked => Some "turn task panicked"
  | _ => None
  end.

Lemma detached_store {X A} s b t (work : Run X A) w ended w1 reason :
  work w = (ended, w1) -> failure_reason ended = Some reason ->
  rt_store (w_rt (detach_turn_work s b t work w).2)
  = rt_store (watchdog s b t reason (w_rt w1)).2.
Proof.
  intros Hw Hr. rewrite <- watchdog_store. unfold detach_turn_work. rewrite Hw.
  destruct ended as [[a|e]| |]; simpl in Hr; try discriminate Hr;
    apply Some_inj in Hr; rewrite <- Hr; reflexivity.
Qed.
End watchdog.

(** C39. The watchdog of a detached run covers the admitted turn only.  After
    work that failed or panicked, the session is idle when the failure of the
    admitted turn could be recorded; but when the work had gone on to another
    turn, that turn stays the session's active one although its run is
    over. *)
Theorem watchdog_covers_admitted_turn `{RowCodec} `{Entropy} `{Host} {X A} s b t
    (work : Run X A) w ended w1 reason :
  work w = (ended, w1) -> failure_reason ended = Some reason ->
  let db' := rt_store (w_rt (detach_turn_work s b t work w).2) in
  (is_ok (record_turn_failure_transition_with_outcome s b "unknown" "unknown" t []
            (watchdog_error reason) 0 (w_rt w1)).1 = true -> idle s db')
  /\ (forall row, db_active_turns (rt_store (w_rt w1)) !! s = Some row -> at_turn_id row <> t ->
        db_active_turns db' !! s = Some row).
Proof.
  intros Hw Hr db'.
  unfold db'. rewrite (detached_store _ _ _ _ _ _ _ _ Hw Hr).
  split; [apply watchdog_ends|]. intros row Hrow Hne.
  rewrite (watchdog_misses s b t reason (w_rt w1)); [done|by exists row].
Qed.
#[local] Existing Instance sample_codec.
#[local] Existing Instance counting_entropy.

(** The tool's output of the first turn is cut inside a character, so that
    preparing the second turn panics ([request_panics_inside_character]). *)
Definition panicking_run : Run Answers TurnRunOutcome :=
  let host := sample_host 3 in
  let adapters := sample_adapters "éé" in
  run_session_turn 5 20 sample_session sample_branch sample_admitted.

Definition after_panic : World Answers := (panicking_run sample_world).2.

Lemma watchdog_covers_admitted_turn_witness :
  (panicking_run sample_world).1 = Panicked
  /\ exists row, db_active_turns (rt_store (w_rt after_panic)) !! MkUuid 1 = Some row
      /\ at_turn_id row <> MkUuid 20
      /\ db_active_turns (rt_store (w_rt
           (detach_turn_work (MkUuid 1) (MkUuid 2) (MkUuid 20) panicking_run sample_world).2))
         !! MkUuid 1 = Some row.
Proof.
  assert ((panicking_run sample_world).1 = Panicked) as Hended by (vm_compute; reflexivity).
  split; [exact Hended|].
  assert (exists row, db_active_turns (rt_store (w_rt after_panic)) !! MkUuid 1 = Some row
    /\ at_turn_id row = MkUuid 178) as (row & Hrow & Hturn)
    by (eexists; split; vm_compute; reflexivity).
  exists row. split; [exact Hrow|]. rewrite Hturn. split; [intros H; discriminate H|].
  assert (panicking_run sample_world = (Panicked, after_panic)) as Hrun
    by (rewrite <- Hended; apply surjective_pairing).
  refine (proj2 (watchdog_covers_admitted_turn (H1 := sample_host 3) (MkUuid 1) (MkUuid 2)
    (MkUuid 20) panicking_run sample_world Panicked after_panic "turn task panicked" Hrun eq_refl)
    row Hrow _). rewrite Hturn. intros H. discriminate H.
Defined.
