(* ===== verification/TextUtils.v ===== *)
(** * Text of the terminal interface ([crates/bt-tui/src/text_utils.rs])

    Byte offsets into a [str]: the boundaries of characters and words, the
    width a text takes on the terminal, and the wrapping of a text into rows.
    Slicing a [str] outside itself or inside a character panics, which is
    [None] here.  The column width of a character is the crate
    [unicode-width]'s, a parameter.

    The last part relates the offsets to the characters: a boundary splits a
    text into the characters before and after it, and the walks over
    boundaries are walks over those lists. *)

From stdpp Require Import base list strings.
From Stdlib Require Import ZArith Lia.
From S2P Require Import Prelude Text Types.

#[local] Arguments String.append !_ _ / : simpl nomatch.
#[local] Open Scope nat_scope.

(** ** Slices and searches of a [str] *)

(** [&s[start..end]] *)
Definition slice (start stop : nat) (s : string) : option string :=
  if (start <=? stop) && is_char_boundary start s && is_char_boundary stop s
  then Some (String.substring start (stop - start) s) else None.
Definition slice_from (start : nat) (s : string) : option string := slice start (byte_len s) s.
Definition slice_to (stop : nat) (s : string) : option string := slice 0 stop s.

(** [s.replace_range(start..end, with)], [s.insert_str(at, text)] *)
Definition replace_range (start stop : nat) (text s : string) : option string :=
  pre ← slice_to start s; _ ← slice start stop s; post ← slice_from stop s;
  Some (pre +:+ text +:+ post).
Definition insert_str (at_ : nat) (text s : string) : option string := replace_range at_ at_ text s.

(** [s.find(p)], [s.rfind(p)] for a predicate on characters: the offset of
    the first, or last, character that satisfies it. *)
Fixpoint find_from (p : string -> bool) (offset : nat) (cs : list string) : option nat :=
  match cs with
  | [] => None
  | c :: cs => if p c then Some offset else find_from p (offset + byte_len c) cs
  end.
Fixpoint rfind_from (p : string -> bool) (offset : nat) (cs : list string) : option nat :=
  match cs with
  | [] => None
  | c :: cs =>
      match rfind_from p (offset + byte_len c) cs with
      | Some i => Some i
      | None => if p c then Some offset else None
      end
  end.
Definition find (p : string -> bool) (s : string) : option nat := find_from p 0 (chars s).
Definition rfind (p : string -> bool) (s : string) : option nat := rfind_from p 0 (chars s).

Definition is_newline (c : string) : bool := String.eqb c nl.

(** [s.trim_end()], [s.ends_with(char::is_whitespace)],
    [s.trim_end_matches(['\n', '\r'])] *)
Definition trim_end (s : string) : string := concat_str (drop_while_end is_whitespace (chars s)).
Definition ends_with_whitespace (s : string) : bool :=
  match last (chars s) with Some c => is_whitespace c | None => false end.
Definition is_line_end (c : string) : bool := String.eqb c nl || String.eqb c (String carriage_return "").
Definition trim_end_line_ends (s : string) : string := concat_str (drop_while_end is_line_end (chars s)).

(** ** Short texts *)

(** [truncate_path] *)
Definition truncate_path (path : string) (limit : nat) : string :=
  let cs := chars path in
  if length cs <=? limit then path
  else "..." +:+ concat_str (rev (take (limit - 3) (rev cs))).

(** [display_project_root]; [home] is [HOME] when it is set and is text. *)
Definition display_project_root (home : option string) (path : string) : string :=
  match home with
  | None => path
  | Some home =>
      if String.eqb path home then "~"
      else match strip_prefix home path with
           | Some rest => if starts_with "/" rest then "~" +:+ rest else path
           | None => path
           end
  end.

(** [short_id_string], [truncate_detail] *)
Definition short_id_string (raw : string) : string := take_chars 8 raw.
Definition truncate_detail (raw : string) : string :=
  let limit := 28 in
  let truncated := take_chars limit raw in
  match drop limit (chars raw) with
  | [] => truncated
  | _ :: _ => truncated +:+ "..."
  end.

(** [next_stream_retry_delay], in seconds;
    [EVENT_STREAM_RETRY_MAX_DELAY] is five. *)
Definition next_stream_retry_delay (attempt : Z) : nat :=
  match attempt with 0%Z => 1 | 1%Z => 2 | 2%Z => 4 | _ => 5 end.

(** [parse_tool_mode], [render_tool_mode] *)
Definition parse_tool_mode (raw : string) : result string SessionToolMode :=
  let mode := to_ascii_lowercase (trim raw) in
  if String.eqb mode "standard" then Ok Standard
  else if String.eqb mode "extended" then Ok Extended
  else Err "unknown tool mode".
Definition render_tool_mode (mode : SessionToolMode) : string :=
  match mode with Standard => "standard" | Extended => "extended" end.

(** ** Boundaries *)

(** The loop of [previous_char_boundary]: back to a boundary or to zero. *)
Fixpoint back_to_boundary (boundary : nat) (input : string) : nat :=
  match boundary with
  | 0 => 0
  | S b => if is_char_boundary boundary input then boundary else back_to_boundary b input
  end.
Definition previous_char_boundary (input : string) (index : nat) : nat :=
  match index with 0 => 0 | S b => back_to_boundary b input end.

(** The loop of [next_char_boundary]; it takes at most [input.len()] steps. *)
Fixpoint forward_to_boundary (fuel boundary : nat) (input : string) : nat :=
  match fuel with
  | 0 => boundary
  | S fuel =>
      if (boundary <? byte_len input) && negb (is_char_boundary boundary input)
      then forward_to_boundary fuel (boundary + 1) input else boundary
  end.
Definition next_char_boundary (input : string) (index : nat) : nat :=
  if byte_len input <=? index then byte_len input
  else forward_to_boundary (byte_len input) (Nat.min (index + 1) (byte_len input)) input.

(** [s.chars().next().unwrap_or_default()] *)
Definition first_char (s : string) : string := default (String Ascii.zero "") (head (chars s)).

(** The two loops of [previous_word_boundary] and of [next_word_boundary]:
    over the characters that satisfy [goes]. *)
Fixpoint walk_back (goes : string -> bool) (fuel : nat) (input : string) (boundary : nat) : option nat :=
  match fuel with
  | 0 => Some boundary
  | S fuel =>
      if 0 <? boundary then
        let previous := previous_char_boundary input boundary in
        text ← slice previous boundary input;
        if goes (first_char text) then walk_back goes fuel input previous else Some boundary
      else Some boundary
  end.
Definition previous_word_boundary (input : string) (index : nat) : option nat :=
  boundary ← walk_back is_whitespace index input index;
  walk_back (fun ch => negb (is_whitespace ch)) boundary input boundary.

Fixpoint walk_forward (goes : string -> bool) (fuel : nat) (input : string) (boundary : nat) : option nat :=
  match fuel with
  | 0 => Some boundary
  | S fuel =>
      if boundary <? byte_len input then
        let next := next_char_boundary input boundary in
        text ← slice boundary next input;
        if goes (first_char text) then walk_forward goes fuel input next else Some boundary
      else Some boundary
  end.
Definition next_word_boundary (input : string) (index : nat) : option nat :=
  boundary ← walk_forward is_whitespace (byte_len input) input index;
  walk_forward (fun ch => negb (is_whitespace ch)) (byte_len input) input boundary.

(** ** Widths *)

Section widths.
(** [UnicodeWidthChar::width] *)
Context (char_width : string -> option nat).

Definition tab : string := String (Ascii.ascii_of_nat 9) "".

Definition char_display_width (ch : string) (column : nat) : nat :=
  if String.eqb ch tab then Nat.max (4 - column mod 4) 1
  else default 0 (char_width ch).

Fixpoint display_width_from (max_width line_width : nat) (cs : list string) : nat :=
  match cs with
  | [] => Nat.max max_width line_width
  | ch :: cs =>
      if is_newline ch then display_width_from (Nat.max max_width line_width) 0 cs
      else display_width_from max_width (line_width + char_display_width ch line_width) cs
  end.
Definition display_width (raw : string) : nat := display_width_from 0 0 (chars raw).

Fixpoint take_prefix_from (limit width : nat) (cs : list string) : list string :=
  match cs with
  | [] => []
  | ch :: cs =>
      if is_newline ch then []
      else let ch_width := char_display_width ch width in
           if (0 <? ch_width) && (limit <? width + ch_width) then []
           else ch :: take_prefix_from limit (width + ch_width) cs
  end.
Definition take_prefix_by_display_width (raw : string) (limit : nat) : string :=
  if limit =? 0 then "" else concat_str (take_prefix_from limit 0 (chars raw)).

Definition pad_to_display_width (raw : string) (width : nat) : string :=
  let raw_width := display_width raw in
  if width <=? raw_width then raw
  else raw +:+ concat_str (repeat " " (width - raw_width)).

(** ** Wrapping *)

Record WrappedTextRow : Type := MkRow {
  start_byte : nat;
  row_text : string;
  end_byte : nat;
}.

Definition empty_row (start stop : nat) : WrappedTextRow := MkRow start "" stop.

(** The bytes of the white space a text starts with. *)
Fixpoint skip_spaces (cs : list string) : nat :=
  match cs with
  | [] => 0
  | ch :: cs => if is_whitespace ch then byte_len ch + skip_spaces cs else 0
  end.

(** The inner loop of [wrap_logical_line]: where the row that starts at
    [row_start] ends and where the next one starts, when the line does not
    fit. *)
Fixpoint scan_row (width row_start : nat) (cs : list string) (cursor row_width : nat)
    (last_space_break : option (nat * nat)) : option (nat * nat) :=
  match cs with
  | [] => None
  | ch :: cs =>
      let next := cursor + byte_len ch in
      let ch_width := char_display_width ch row_width in
      if (0 <? ch_width) && (0 <? row_width) && (width <? row_width + ch_width) then
        let break_at := if is_whitespace ch then Some (next, cursor) else last_space_break in
        Some match break_at with
             | Some (next_start, text_end) =>
                 if row_start <? text_end then (text_end, next_start) else (cursor, cursor)
             | None => (cursor, cursor)
             end
      else scan_row width row_start cs next (row_width + ch_width)
             (if is_whitespace ch then Some (next, cursor) else last_space_break)
  end.

(** The outer loop of [wrap_logical_line]: every row but the first one of a
    line starts after the white space.  A row takes at least one byte, so the
    length of the line is fuel enough. *)
Fixpoint wrap_rows (fuel : nat) (raw : string) (line_start line_end row_start : nat)
    (has_newline : bool) (width : nat) (trim_trailing : bool) : option (list WrappedTextRow) :=
  if row_start <? line_end then
    match fuel with
    | 0 => None
    | S fuel =>
        rest ← slice row_start line_end raw;
        let row_start := if line_start <? row_start then row_start + skip_spaces (chars rest) else row_start in
        if line_end <=? row_start then Some []
        else
          rest ← slice row_start line_end raw;
          match scan_row width row_start (chars rest) row_start 0 None with
          | Some (text_end, next_start) =>
              text ← slice row_start text_end raw;
              rows ← wrap_rows fuel raw line_start line_end next_start has_newline width trim_trailing;
              Some (MkRow row_start text next_start :: rows)
          | None =>
              Some [MkRow row_start (if trim_trailing then trim_end rest else rest)
                      (if has_newline then line_end + 1 else line_end)]
          end
    end
  else Some [].

Definition wrap_logical_line (raw : string) (line_start line_end : nat) (has_newline : bool)
    (width : nat) (trim_trailing : bool) : option (list WrappedTextRow) :=
  if line_start =? line_end
  then Some [empty_row line_start (if has_newline then line_end + 1 else line_end)]
  else wrap_rows (line_end - line_start) raw line_start line_end line_start has_newline width trim_trailing.

(** [raw.split_inclusive('\n')] as the offset and the content of each
    segment, and whether it ends with the newline. *)
Fixpoint segments (offset start : nat) (cs : list string) : list (nat * nat * bool) :=
  match cs with
  | [] => if start =? offset then [] else [(start, offset, false)]
  | c :: cs =>
      if is_newline c
      then (start, offset, true) :: segments (offset + 1) (offset + 1) cs
      else segments (offset + byte_len c) start cs
  end.

Fixpoint wrap_segments (raw : string) (lines : list (nat * nat * bool)) (width : nat)
    (trim_trailing : bool) : option (list WrappedTextRow) :=
  match lines with
  | [] => Some []
  | (line_start, line_end, has_newline) :: lines =>
      rows ← wrap_logical_line raw line_start line_end has_newline width trim_trailing;
      more ← wrap_segments raw lines width trim_trailing;
      Some (rows ++ more)
  end.

Definition wrap_plain_text_with_end_indices_impl (raw : string) (width : nat) (trim_trailing : bool)
    : option (list WrappedTextRow) :=
  let width := Nat.max width 1 in
  if is_empty raw then Some [empty_row 0 0]
  else
    rows ← wrap_segments raw (segments 0 0 (chars raw)) width trim_trailing;
    Some (rows ++ if ends_with nl raw then [empty_row (byte_len raw) (byte_len raw)] else []).

Definition wrap_plain_text_with_end_indices (raw : string) (width : nat) : option (list WrappedTextRow) :=
  wrap_plain_text_with_end_indices_impl raw width true.
Definition wrap_composer_input_with_end_indices (raw : string) (width : nat) : option (list WrappedTextRow) :=
  wrap_plain_text_with_end_indices_impl raw width false.
Definition wrap_plain_text (raw : string) (width : nat) : option (list string) :=
  rows ← wrap_plain_text_with_end_indices raw width; Some (List.map row_text rows).
Definition wrap_composer_input (raw : string) (width : nat) : option (list string) :=
  rows ← wrap_composer_input_with_end_indices raw width; Some (List.map row_text rows).

(** [wrapped_cursor_position_with_rows], for the rows of the composer:
    column and row of the end of the text before the cursor, in a [u16]. *)
Definition u16_max : nat := Z.to_nat 65535.
Definition wrapped_composer_cursor_position (input : string) (cursor width : nat) : option (nat * nat) :=
  let width := Nat.max width 1 in
  before_cursor ← slice_to cursor input;
  rows ← wrap_composer_input_with_end_indices before_cursor width;
  let row := length rows - 1 in
  let col := default 0 (row ← last rows; Some (display_width (row_text row))) in
  Some (Nat.min col u16_max, Nat.min row u16_max).

End widths.

(** The examples of the source's tests, on one-column characters. *)
Definition one_column (c : string) : option nat := Some 1.

Example wraps_at_words :
  wrap_plain_text one_column "one two three" 7 = Some ["one two"; "three"]
  /\ wrap_plain_text one_column "hello world" 5 = Some ["hello"; "world"].
Proof. by vm_compute. Qed.
Example wraps_long_tokens : wrap_plain_text one_column "abcdefgh" 3 = Some ["abc"; "def"; "gh"].
Proof. by vm_compute. Qed.
Example wraps_blank_lines :
  wrap_plain_text one_column (nl +:+ nl +:+ "hello") 80 = Some [""; ""; "hello"]
  /\ wrap_plain_text one_column ("hello" +:+ nl +:+ nl) 80 = Some ["hello"; ""; ""].
Proof. by vm_compute. Qed.
Example composer_keeps_trailing_spaces :
  wrap_plain_text one_column "hello " 80 = Some ["hello"]
  /\ wrap_composer_input one_column "hello " 80 = Some ["hello "]
  /\ wrapped_composer_cursor_position one_column "hello  " 7 80 = Some (7, 0)
  /\ wrapped_composer_cursor_position one_column (nl +:+ nl +:+ "hello") 7 80 = Some (5, 2).
Proof. by vm_compute. Qed.

(** ** Boundaries split the characters *)

Definition str_len (cs : list string) : nat := byte_len (concat_str cs).

Lemma str_len_app a b : str_len (a ++ b) = str_len a + str_len b.
Proof. unfold str_len, byte_len. rewrite concat_str_app. apply length_append. Qed.
Lemma str_len_cons c cs : str_len (c :: cs) = byte_len c + str_len cs.
Proof. unfold str_len, byte_len. simpl. apply length_append. Qed.
Lemma byte_len_append s t : byte_len (s +:+ t) = byte_len s + byte_len t.
Proof. apply length_append. Qed.
Lemma char_shape_len c : char_shape c -> 0 < byte_len c.
Proof. intros (a & t & -> & _). unfold byte_len. simpl. lia. Qed.
Lemma str_len_count cs : Forall char_shape cs -> length cs <= str_len cs.
Proof.
  induction 1 as [|c cs Hc _ IH]; [simpl; lia|]. rewrite str_len_cons. simpl.
  apply char_shape_len in Hc. lia.
Qed.

Lemma get_append_r s t i : String.get (byte_len s + i) (s +:+ t) = String.get i t.
Proof. unfold byte_len. induction s as [|a s IH]; simpl; [done|]. apply IH. Qed.
Lemma get_append_l s t i : i < byte_len s -> String.get i (s +:+ t) = String.get i s.
Proof.
  revert i; induction s as [|a s IH]; unfold byte_len; simpl; [lia|].
  intros [|i] Hi; [done|]. simpl. apply IH. unfold byte_len. lia.
Qed.
Lemma get_end s : String.get (byte_len s) s = None.
Proof. induction s as [|a s IH]; simpl; [done|]. apply IH. Qed.

Lemma get_continuation t i :
  utf8_split t = (t, []) -> i < byte_len t ->
  exists a, String.get i t = Some a /\ is_continuation a = true.
Proof.
  revert i; induction t as [|a t IH]; unfold byte_len; simpl; intros i H Hi; [lia|].
  destruct (utf8_split t) as [pre cs] eqn:Ht.
  destruct (is_continuation a) eqn:Ha; [|done]. injection H as -> ->.
  destruct i as [|i]; simpl; [by exists a|]. apply IH; [done|]. unfold byte_len. lia.
Qed.

Lemma boundary_at l r : Forall char_shape r -> is_char_boundary (str_len l) (concat_str (l ++ r)) = true.
Proof.
  intros Hr. unfold is_char_boundary, str_len. rewrite concat_str_app.
  destruct Hr as [|c r (a & t & -> & Ha & _) _]; simpl.
  - rewrite append_nil_r, get_end. apply Nat.eqb_refl.
  - rewrite <- (Nat.add_0_r (byte_len (concat_str l))), get_append_r. simpl. by rewrite Ha.
Qed.

Lemma boundary_inside l c r i :
  char_shape c -> 0 < i < byte_len c ->
  is_char_boundary (str_len l + i) (concat_str (l ++ c :: r)) = false.
Proof.
  intros (a & t & -> & _ & Ht) Hi. unfold is_char_boundary, str_len.
  rewrite concat_str_app, get_append_r.
  destruct i as [|i]; [lia|]. unfold byte_len in Hi. simpl in Hi.
  change (concat_str (String a t :: r)) with (String a (t +:+ concat_str r)). simpl.
  destruct (get_continuation t i) as (b & Hb & Hc); [done|unfold byte_len; lia|].
  rewrite get_append_l by (unfold byte_len; lia). by rewrite Hb, Hc.
Qed.

(** A boundary of a text of whole characters is the end of some of them. *)
Lemma boundary_inv n cs :
  Forall char_shape cs -> is_char_boundary n (concat_str cs) = true ->
  exists l r, cs = l ++ r /\ n = str_len l.
Proof.
  assert (forall l cs i, Forall char_shape cs ->
    is_char_boundary (str_len l + i) (concat_str (l ++ cs)) = true ->
    exists a b, cs = a ++ b /\ i = str_len a) as H.
  { intros l cs' i Hcs; revert l i; induction Hcs as [|c cs' Hc Hcs IH]; intros l i H.
    - rewrite app_nil_r in H. unfold is_char_boundary in H.
      destruct (String.get _ _) eqn:Hg.
      + assert (i = 0 \/ 0 < i) as [->|Hi] by lia; [by exists [], []|].
        exfalso. clear H. revert Hg. unfold str_len.
        generalize (concat_str l) as s. intros s Hg.
        assert (Hn : forall s' k, String.get (byte_len s' + k) s' = None).
        { clear. intros s' k. induction s' as [|b s' IH]; [done|]. apply IH. }
        by rewrite Hn in Hg.
      + apply Nat.eqb_eq in H. exists [], []. split; [done|]. unfold str_len in *. simpl. unfold byte_len in *. simpl. lia.
    - destruct (decide (i = 0)) as [->|Hi]; [by exists [], (c :: cs')|].
      destruct (decide (i < byte_len c)) as [Hlt|Hge].
      + rewrite boundary_inside in H by (done || lia). done.
      + destruct (IH (l ++ [c]) (i - byte_len c)) as (a & b & -> & Hl).
        * rewrite <- app_assoc. replace (str_len (l ++ [c]) + (i - byte_len c)) with (str_len l + i); [done|].
          rewrite str_len_app, str_len_cons. change (str_len []) with 0. lia.
        * exists (c :: a), b. split; [done|]. rewrite str_len_cons. lia. }
  intros Hcs Hb. destruct (H [] cs n Hcs Hb) as (a & b & -> & ->). by exists a, b.
Qed.

Lemma boundary_zero cs : Forall char_shape cs -> is_char_boundary 0 (concat_str cs) = true.
Proof. apply (boundary_at []). Qed.
Lemma boundary_end cs : is_char_boundary (str_len cs) (concat_str cs) = true.
Proof. rewrite <- (app_nil_r cs) at 2. by apply boundary_at. Qed.

Lemma substring_exact s t u :
  String.substring (byte_len s) (byte_len t) (s +:+ (t +:+ u)) = t.
Proof.
  unfold byte_len. induction s as [|a s IH]; simpl; [|done].
  induction t as [|a t IHt]; simpl; [by destruct u|]. by rewrite IHt.
Qed.

Lemma slice_chars l m r :
  Forall char_shape m -> Forall char_shape r ->
  slice (str_len l) (str_len l + str_len m) (concat_str (l ++ m ++ r)) = Some (concat_str m).
Proof.
  intros Hm Hr. unfold slice. rewrite (proj2 (Nat.leb_le _ _)) by lia.
  rewrite boundary_at by (by apply Forall_app).
  rewrite <- str_len_app, (app_assoc l m r), boundary_at by done. simpl. f_equal.
  rewrite str_len_app, <- app_assoc, !concat_str_app.
  replace (str_len l + str_len m - str_len l) with (str_len m) by lia. apply substring_exact.
Qed.

(** [slice] of a text cut in two or between two boundaries. *)
Lemma slice_to_chars l r : Forall char_shape l -> Forall char_shape r ->
  slice_to (str_len l) (concat_str (l ++ r)) = Some (concat_str l).
Proof. intros Hl Hr. unfold slice_to. apply (slice_chars [] l r); done. Qed.
Lemma slice_from_chars l r : Forall char_shape r ->
  slice_from (str_len l) (concat_str (l ++ r)) = Some (concat_str r).
Proof.
  intros Hr. unfold slice_from. pose proof (slice_chars l r [] Hr) as H.
  rewrite app_nil_r in H. rewrite <- H by done. f_equal. symmetry. rewrite <- str_len_app. done.
Qed.
Lemma slice_one l c r : char_shape c -> Forall char_shape r ->
  slice (str_len l) (str_len l + byte_len c) (concat_str (l ++ c :: r)) = Some c.
Proof.
  intros Hc Hr. pose proof (slice_chars l [c] r) as H.
  rewrite str_len_cons, Nat.add_0_r in H. simpl in H. rewrite append_nil_r in H. auto.
Qed.

Lemma replace_range_chars l m r text :
  Forall char_shape l -> Forall char_shape m -> Forall char_shape r ->
  replace_range (str_len l) (str_len l + str_len m) text (concat_str (l ++ m ++ r))
  = Some (concat_str l +:+ text +:+ concat_str r).
Proof.
  intros Hl Hm Hr. unfold replace_range.
  rewrite slice_to_chars by (by try apply Forall_app). simpl.
  rewrite slice_chars by done. simpl.
  rewrite <- str_len_app, app_assoc, slice_from_chars by done. done.
Qed.

(** The characters of a text of whole characters are their shapes. *)
Lemma first_char_shape c : char_shape c -> first_char c = c.
Proof.
  intros Hc. unfold first_char. rewrite <- (append_nil_r c) at 1.
  change (c +:+ "") with (concat_str [c]). by rewrite chars_concat by auto.
Qed.

(** *** One character *)

Lemma back_inside l c r i :
  char_shape c -> Forall char_shape r -> i < byte_len c ->
  back_to_boundary (str_len l + i) (concat_str (l ++ c :: r)) = str_len l.
Proof.
  intros Hc Hr; induction i as [|i IH]; intros Hi.
  - rewrite Nat.add_0_r. destruct (str_len l) eqn:Hl; [done|]. simpl.
    rewrite <- Hl, boundary_at by auto. done.
  - rewrite Nat.add_succ_r. simpl. rewrite <- Nat.add_succ_r.
    rewrite boundary_inside by (done || lia). apply IH. lia.
Qed.

Lemma previous_char_boundary_chars l c r :
  char_shape c -> Forall char_shape r ->
  previous_char_boundary (concat_str ((l ++ [c]) ++ r)) (str_len (l ++ [c])) = str_len l.
Proof.
  intros Hc Hr. rewrite str_len_app, str_len_cons. change (str_len []) with 0.
  rewrite <- app_assoc. simpl. pose proof (char_shape_len c Hc).
  replace (str_len l + (byte_len c + 0)) with (S (str_len l + (byte_len c - 1))) by lia.
  simpl. apply back_inside; [done..|lia].
Qed.

Lemma forward_inside l c r i fuel :
  char_shape c -> Forall char_shape r -> 0 < i <= byte_len c -> byte_len c <= i + fuel ->
  forward_to_boundary fuel (str_len l + i) (concat_str (l ++ c :: r)) = str_len l + byte_len c.
Proof.
  intros Hc Hr; revert i; induction fuel as [|fuel IH]; intros i Hi Hf; simpl.
  { lia. }
  destruct (decide (i = byte_len c)) as [->|Hne].
  - replace (is_char_boundary _ _) with true; [by rewrite andb_false_r|].
    pose proof (boundary_at (l ++ [c]) r Hr) as H.
    rewrite str_len_app, str_len_cons, <- app_assoc in H. change (str_len []) with 0 in H.
    rewrite Nat.add_0_r in H. by simpl in H.
  - rewrite boundary_inside by (done || lia). rewrite andb_true_r.
    rewrite (proj2 (Nat.ltb_lt _ _)).
    + rewrite <- Nat.add_assoc. apply IH; lia.
    + change (byte_len (concat_str (l ++ c :: r))) with (str_len (l ++ c :: r)).
      rewrite str_len_app, str_len_cons. lia.
Qed.

Lemma next_char_boundary_chars l c r :
  char_shape c -> Forall char_shape r ->
  next_char_boundary (concat_str (l ++ c :: r)) (str_len l) = str_len (l ++ [c]).
Proof.
  intros Hc Hr. unfold next_char_boundary. pose proof (char_shape_len c Hc).
  assert (byte_len (concat_str (l ++ c :: r)) = str_len l + byte_len c + str_len r) as Hlen.
  { change (byte_len (concat_str (l ++ c :: r))) with (str_len (l ++ c :: r)).
    rewrite str_len_app, str_len_cons. lia. }
  rewrite Hlen, (proj2 (Nat.leb_gt _ _)) by lia. rewrite Nat.min_l by lia.
  rewrite forward_inside by (done || lia).
  rewrite str_len_app, str_len_cons. change (str_len []) with 0. lia.
Qed.

Lemma next_char_boundary_end l :
  next_char_boundary (concat_str l) (str_len l) = str_len l.
Proof. unfold next_char_boundary. by rewrite (proj2 (Nat.leb_le _ _)). Qed.

(** *** Words *)

Fixpoint take_while {A} (p : A -> bool) (l : list A) : list A :=
  match l with
  | [] => []
  | a :: l => if p a then a :: take_while p l else []
  end.
Lemma take_drop_while {A} (p : A -> bool) l : take_while p l ++ drop_while p l = l.
Proof. induction l as [|a l IH]; simpl; [done|]. destruct (p a); simpl; [by f_equal|done]. Qed.
Lemma drop_while_end_snoc {A} (p : A -> bool) l a :
  drop_while_end p (l ++ [a]) = if p a then drop_while_end p l else l ++ [a].
Proof.
  unfold drop_while_end. rewrite reverse_snoc. simpl. destruct (p a); [done|].
  by rewrite reverse_cons, reverse_involutive.
Qed.
Lemma drop_while_end_prefix {A} (p : A -> bool) l : exists m, l = drop_while_end p l ++ m.
Proof.
  induction l as [|a l [m IH]] using rev_ind; [by exists []|].
  rewrite drop_while_end_snoc. destruct (p a); [|exists []; by rewrite app_nil_r].
  exists (m ++ [a]). by rewrite app_assoc, <- IH.
Qed.

Lemma walk_back_chars goes l r fuel :
  Forall char_shape l -> Forall char_shape r -> length l <= fuel ->
  walk_back goes fuel (concat_str (l ++ r)) (str_len l)
  = Some (str_len (drop_while_end goes l)).
Proof.
  revert r fuel. induction l as [|c l IH] using rev_ind; intros r fuel Hl Hr Hf.
  { by destruct fuel. }
  apply Forall_app in Hl as [Hl Hc]. apply Forall_cons_1 in Hc as [Hc _].
  rewrite length_app in Hf. simpl in Hf. destruct fuel as [|fuel]; [lia|].
  cbn [walk_back]. rewrite previous_char_boundary_chars by done.
  pose proof (char_shape_len c Hc).
  rewrite (proj2 (Nat.ltb_lt _ _)) by (rewrite str_len_app, str_len_cons; lia).
  rewrite (str_len_app l [c]), str_len_cons. change (str_len []) with 0. rewrite Nat.add_0_r.
  rewrite <- app_assoc. change ([c] ++ r) with (c :: r). rewrite slice_one by done.
  simpl. rewrite first_char_shape by done.
  rewrite drop_while_end_snoc. destruct (goes c).
  - apply IH; [done|by constructor|lia].
  - rewrite str_len_app, str_len_cons. change (str_len []) with 0. by rewrite Nat.add_0_r.
Qed.

Lemma walk_forward_chars goes l r fuel :
  Forall char_shape r -> length r <= fuel ->
  walk_forward goes fuel (concat_str (l ++ r)) (str_len l)
  = Some (str_len (l ++ take_while goes r)).
Proof.
  revert l fuel. induction r as [|c r IH]; intros l fuel Hr Hf.
  { simpl. rewrite app_nil_r. destruct fuel; [done|]. simpl.
    change (byte_len (concat_str l)) with (str_len l). by rewrite Nat.ltb_irrefl. }
  simpl in Hf. destruct fuel as [|fuel]; [lia|]. inversion_clear Hr as [|? ? Hc Hr'].
  pose proof (char_shape_len c Hc).
  cbn [walk_forward]. rewrite next_char_boundary_chars by done.
  rewrite (proj2 (Nat.ltb_lt _ _)).
  2:{ change (byte_len (concat_str (l ++ c :: r))) with (str_len (l ++ c :: r)).
      rewrite str_len_app, str_len_cons. lia. }
  rewrite (str_len_app l [c]), str_len_cons. change (str_len []) with 0. rewrite Nat.add_0_r.
  rewrite slice_one by done. simpl. rewrite first_char_shape by done.
  destruct (goes c).
  - specialize (IH (l ++ [c]) fuel Hr' ltac:(lia)).
    rewrite <- app_assoc in IH. simpl in IH.
    rewrite str_len_app, str_len_cons in IH. change (str_len []) with 0 in IH. rewrite Nat.add_0_r in IH.
    rewrite IH, <- app_assoc. done.
  - by rewrite app_nil_r.
Qed.

Definition not_space (c : string) : bool := negb (is_whitespace c).

(** The word before the end of [l], with the white space after it, and the
    word at the start of [r], with the white space before it. *)
Definition before_word (l : list string) : list string :=
  drop_while_end not_space (drop_while_end is_whitespace l).
Definition next_word (r : list string) : list string :=
  take_while is_whitespace r ++ take_while not_space (drop_while is_whitespace r).

Lemma before_word_prefix l : exists m, l = before_word l ++ m.
Proof.
  destruct (drop_while_end_prefix is_whitespace l) as [m Hm].
  destruct (drop_while_end_prefix not_space (drop_while_end is_whitespace l)) as [m' Hm'].
  exists (m' ++ m). unfold before_word. by rewrite app_assoc, <- Hm', <- Hm.
Qed.
Lemma next_word_prefix r : exists m, r = next_word r ++ m.
Proof.
  exists (drop_while not_space (drop_while is_whitespace r)). unfold next_word.
  by rewrite <- app_assoc, take_drop_while, take_drop_while.
Qed.

Lemma previous_word_boundary_chars l r :
  Forall char_shape l -> Forall char_shape r ->
  previous_word_boundary (concat_str (l ++ r)) (str_len l) = Some (str_len (before_word l)).
Proof.
  intros Hl Hr. unfold previous_word_boundary, before_word.
  rewrite walk_back_chars by (try done; by apply str_len_count).
  simpl. destruct (drop_while_end_prefix is_whitespace l) as [m Hm].
  set (k := drop_while_end is_whitespace l) in *.
  rewrite Hm, Forall_app in Hl. destruct Hl as [Hk Hm'].
  rewrite Hm, <- app_assoc. fold not_space.
  apply walk_back_chars; [done|by apply Forall_app|by apply str_len_count].
Qed.

Lemma next_word_boundary_chars l r :
  Forall char_shape r ->
  next_word_boundary (concat_str (l ++ r)) (str_len l) = Some (str_len (l ++ next_word r)).
Proof.
  intros Hr. unfold next_word_boundary, next_word.
  pose proof (str_len_count r Hr) as Hcount.
  assert (byte_len (concat_str (l ++ r)) = str_len l + str_len r) as Hlen by apply str_len_app.
  rewrite walk_forward_chars by (try done; lia).
  simpl. pose proof (take_drop_while is_whitespace r) as Hsplit.
  assert (Forall char_shape (drop_while is_whitespace r)) as Hd by by apply drop_while_Forall.
  assert (length (drop_while is_whitespace r) <= length r) as Hle.
  { rewrite <- Hsplit at 2. rewrite length_app. lia. }
  set (a := take_while is_whitespace r) in *. set (b := drop_while is_whitespace r) in *.
  rewrite Hlen, <- Hsplit, app_assoc, (str_len_app a b). fold not_space.
  pose proof (str_len_count b Hd).
  rewrite walk_forward_chars by (done || lia). by rewrite app_assoc.
Qed.

(** *** Searches *)

Lemma find_from_Some p offset cs i :
  find_from p offset cs = Some i <->
  exists l c r, cs = l ++ c :: r /\ i = offset + str_len l /\ p c = true /\ Forall (fun x => p x = false) l.
Proof.
  revert offset; induction cs as [|c cs IH]; intros offset; simpl.
  { split; [done|]. intros (l & c & r & H & _). by destruct l. }
  destruct (p c) eqn:Hp.
  - split.
    + intros [= <-]. exists [], c, cs. change (str_len []) with 0. split_and!; [done|lia|done..].
    + intros (l & c' & r & H & -> & Hp' & Hl). destruct l as [|x l]; injection H as -> ->.
      * change (str_len []) with 0. f_equal. lia.
      * inversion_clear Hl. congruence.
  - rewrite IH. split.
    + intros (l & c' & r & -> & -> & Hp' & Hl). exists (c :: l), c', r.
      rewrite str_len_cons. split_and!; [done|lia|done|by constructor].
    + intros (l & c' & r & H & -> & Hp' & Hl). destruct l as [|x l]; injection H as -> ->; [congruence|].
      rewrite str_len_cons. inversion_clear Hl. exists l, c', r. split_and!; [done|lia|done..].
Qed.

Lemma find_from_None p offset cs :
  find_from p offset cs = None <-> Forall (fun x => p x = false) cs.
Proof.
  revert offset; induction cs as [|c cs IH]; intros offset; simpl; [done|].
  rewrite Forall_cons. destruct (p c); [split; [done|by intros []]|]. rewrite IH. naive_solver.
Qed.

Lemma rfind_from_Some p offset cs i :
  rfind_from p offset cs = Some i ->
  exists l c r, cs = l ++ c :: r /\ i = offset + str_len l /\ p c = true /\ Forall (fun x => p x = false) r.
Proof.
  revert offset; induction cs as [|c cs IH]; intros offset; simpl; [done|].
  destruct (rfind_from p (offset + byte_len c) cs) as [j|] eqn:Hj.
  - intros [= ->]. destruct (IH _ Hj) as (l & c' & r & -> & -> & Hp & Hr).
    exists (c :: l), c', r. rewrite str_len_cons. split_and!; [done|lia|done..].
  - destruct (p c) eqn:Hp; [|done]. intros [= <-]. exists [], c, cs.
    change (str_len []) with 0. split_and!; [done|lia|done|].
    clear -Hj. revert Hj. generalize (offset + byte_len c). induction cs as [|d cs IH]; intros n; simpl; [done|].
    destruct (rfind_from p (n + byte_len d) cs) eqn:H; [done|]. destruct (p d) eqn:Hd; [done|].
    intros _. constructor; [done|]. by apply (IH (n + byte_len d)).
Qed.

Lemma rfind_from_None p offset cs :
  rfind_from p offset cs = None -> Forall (fun x => p x = false) cs.
Proof.
  revert offset; induction cs as [|c cs IH]; intros offset; simpl; [done|].
  destruct (rfind_from p (offset + byte_len c) cs) eqn:H; [done|]. destruct (p c) eqn:Hp; [done|].
  intros _. constructor; eauto.
Qed.
