(* ===== verification/TextWrap.v ===== *)
(** * Wrapping of texts ([crates/bt-tui/src/text_utils.rs])

    A text of whole characters is always wrapped: no slice of the wrapping
    falls inside a character.  A row takes at most the width it is given,
    unless a single character is wider; the rows hold every character of the
    text that is not white space, in order; and the rows of the composer are
    pieces of its text between two boundaries. *)

From stdpp Require Import base list strings.
From Stdlib Require Import ZArith Lia.
From S2P Require Import Prelude Text TextUtils.

#[local] Open Scope nat_scope.

Section wrap.
Context (char_width : string -> option nat).
Abbreviation cdw := (char_display_width char_width).

(** ** Widths of a line *)

(** The column after a line that starts at [col], and how many of its
    characters take columns. *)
Fixpoint line_width (col : nat) (cs : list string) : nat :=
  match cs with [] => col | c :: cs => line_width (col + cdw c col) cs end.
Fixpoint visible (col : nat) (cs : list string) : nat :=
  match cs with
  | [] => 0
  | c :: cs => (if 0 <? cdw c col then 1 else 0) + visible (col + cdw c col) cs
  end.

Lemma line_width_app col a b : line_width col (a ++ b) = line_width (line_width col a) b.
Proof. revert col; induction a as [|c a IH]; intros col; simpl; [done|]. apply IH. Qed.
Lemma visible_app col a b : visible col (a ++ b) = visible col a + visible (line_width col a) b.
Proof. revert col; induction a as [|c a IH]; intros col; simpl; [done|]. rewrite IH. lia. Qed.
Lemma line_width_ge col cs : col <= line_width col cs.
Proof. revert col; induction cs as [|c cs IH]; intros col; simpl; [lia|]. pose proof (IH (col + cdw c col)). lia. Qed.
Lemma line_width_visible cs col : line_width col cs = col -> visible col cs = 0.
Proof.
  revert col; induction cs as [|c cs IH]; intros col; simpl; [done|]. intros H.
  pose proof (line_width_ge (col + cdw c col) cs) as Hge.
  assert (cdw c col = 0) as Hc by lia. rewrite Hc in *. simpl. rewrite Nat.add_0_r in *. by apply IH.
Qed.

(** A line without a newline is as wide as its characters. *)
Lemma display_width_line s :
  Forall (fun c => is_newline c = false) (chars s) ->
  display_width char_width s = line_width 0 (chars s).
Proof.
  unfold display_width. generalize (chars s) as cs.
  assert (forall cs col, Forall (fun c => is_newline c = false) cs ->
    display_width_from char_width 0 col cs = line_width col cs) as H; [|by intros; apply H].
  induction cs as [|c cs IH]; intros col H; simpl; [done|].
  inversion_clear H as [|? ? Hc H']. rewrite Hc. by apply IH.
Qed.

(** A row fits when it is no wider than [width], or when only one character
    of it takes columns. *)
Definition row_fits (width : nat) (cs : list string) : Prop :=
  line_width 0 cs <= width \/ visible 0 cs <= 1.

Lemma row_fits_prefix width a b : row_fits width (a ++ b) -> row_fits width a.
Proof.
  unfold row_fits. rewrite line_width_app, visible_app.
  pose proof (line_width_ge (line_width 0 a) b). lia.
Qed.

Lemma row_fits_snoc width cs c :
  row_fits width cs ->
  (0 <? cdw c (line_width 0 cs)) && (0 <? line_width 0 cs)
    && (width <? line_width 0 cs + cdw c (line_width 0 cs)) = false ->
  row_fits width (cs ++ [c]).
Proof.
  unfold row_fits. rewrite line_width_app, visible_app. simpl.
  pose proof (line_width_visible cs 0) as Hz. set (w := line_width 0 cs) in *. set (k := cdw c w).
  intros Hfit Hno. apply andb_false_iff in Hno as [Hno|Hno].
  - apply andb_false_iff in Hno as [Hno|Hno]; apply Nat.ltb_ge in Hno.
    + assert (k = 0) as -> by lia. simpl. lia.
    + right. rewrite Hz by lia. destruct (0 <? k); lia.
  - apply Nat.ltb_ge in Hno. lia.
Qed.

(** ** The inner loop *)

Definition all_space (cs : list string) : Prop := Forall (fun c => is_whitespace c = true) cs.

(** The last white space seen, in the characters scanned so far. *)
Definition break_ok (base : nat) (p : list string) (last : option (nat * nat)) : Prop :=
  match last with
  | None => True
  | Some (next_start, text_end) =>
      exists a c b, p = a ++ c :: b /\ is_whitespace c = true
        /\ text_end = base + str_len a /\ next_start = base + str_len a + byte_len c
  end.

Lemma break_ok_snoc base p c last : break_ok base p last -> break_ok base (p ++ [c]) last.
Proof.
  destruct last as [[ns te]|]; [|done]. intros (a & s & b & -> & H). exists a, s, (b ++ [c]).
  by rewrite <- app_assoc.
Qed.

(** What a scan says of the characters [cs] of a line. *)
Definition scan_spec (width base : nat) (cs : list string) (res : option (nat * nat)) : Prop :=
  match res with
  | None => row_fits width cs
  | Some (text_end, next_start) =>
      exists p s rest, cs = p ++ s ++ rest /\ p <> [] /\ all_space s /\ row_fits width p
        /\ text_end = base + str_len p /\ next_start = base + str_len (p ++ s)
  end.

Lemma scan_row_spec width base cs : forall p last,
  Forall char_shape (p ++ cs) -> row_fits width p -> break_ok base p last ->
  scan_spec width base (p ++ cs)
    (scan_row char_width width base cs (base + str_len p) (line_width 0 p) last).
Proof.
  induction cs as [|ch cs IH]; intros p last Hsh Hfit Hlast.
  { simpl. by rewrite app_nil_r. }
  cbn [scan_row]. set (w := cdw ch (line_width 0 p)).
  assert (Hnext : base + str_len p + byte_len ch = base + str_len (p ++ [ch])).
  { rewrite str_len_app, str_len_cons. change (str_len []) with 0. lia. }
  destruct ((0 <? w) && (0 <? line_width 0 p) && (width <? line_width 0 p + w)) eqn:Hbreak.
  - apply andb_true_iff in Hbreak as [Hb _]. apply andb_true_iff in Hb as [_ Hpos].
    apply Nat.ltb_lt in Hpos.
    assert (p <> []) as Hp by (intros ->; simpl in Hpos; lia).
    assert (0 < str_len p) as Hlen.
    { apply Forall_app in Hsh as [Hsh _]. pose proof (str_len_count p Hsh). destruct p; [done|]. simpl in *. lia. }
    assert (Hcut : scan_spec width base (p ++ ch :: cs) (Some (base + str_len p, base + str_len p))).
    { exists p, [], (ch :: cs). rewrite app_nil_r. split_and!; try done. constructor. }
    destruct (is_whitespace ch) eqn:Hws.
    + rewrite (proj2 (Nat.ltb_lt _ _)) by lia. exists p, [ch], cs. rewrite Hnext.
      split_and!; try done. by constructor.
    + destruct last as [[next_start text_end]|]; [|done].
      destruct (base <? text_end) eqn:Hlt; [|done]. apply Nat.ltb_lt in Hlt.
      destruct Hlast as (a & c & b & -> & Hc & -> & ->).
      exists a, [c], (b ++ ch :: cs). rewrite <- app_assoc. split_and!; try done.
      * intros ->. change (str_len []) with 0 in Hlt. lia.
      * by constructor.
      * by eapply row_fits_prefix.
      * rewrite str_len_app, str_len_cons. change (str_len []) with 0. lia.
  - rewrite Hnext. replace (line_width 0 p + w) with (line_width 0 (p ++ [ch])).
    2:{ rewrite line_width_app. done. }
    replace (p ++ ch :: cs) with ((p ++ [ch]) ++ cs) by by rewrite <- app_assoc.
    apply IH.
    + by rewrite <- app_assoc.
    + by apply row_fits_snoc.
    + destruct (is_whitespace ch) eqn:Hws; [|by apply break_ok_snoc].
      exists p, ch, []. rewrite Hnext, str_len_app, str_len_cons. change (str_len []) with 0.
      split_and!; first [done | lia].
Qed.

Lemma skip_spaces_take cs : skip_spaces cs = str_len (take_while is_whitespace cs).
Proof.
  induction cs as [|c cs IH]; simpl; [done|]. destruct (is_whitespace c); [|done].
  by rewrite str_len_cons, IH.
Qed.

(** ** Rows of a line *)

Definition visible_chars (cs : list string) : list string := List.filter not_space cs.

Lemma visible_chars_app a b : visible_chars (a ++ b) = visible_chars a ++ visible_chars b.
Proof. apply List.filter_app. Qed.
Lemma visible_chars_space s : all_space s -> visible_chars s = [].
Proof. unfold visible_chars, not_space. induction 1 as [|c s Hc _ IH]; simpl; [done|]. by rewrite Hc. Qed.
Lemma take_while_space cs : all_space (take_while is_whitespace cs).
Proof.
  induction cs as [|c cs IH]; simpl; [constructor|]. destruct (is_whitespace c) eqn:Hc; by constructor.
Qed.
Lemma visible_chars_drop cs : visible_chars (drop_while is_whitespace cs) = visible_chars cs.
Proof.
  rewrite <- (take_drop_while is_whitespace cs) at 2.
  by rewrite visible_chars_app, (visible_chars_space _ (take_while_space cs)).
Qed.
Lemma visible_chars_drop_end cs : visible_chars (drop_while_end is_whitespace cs) = visible_chars cs.
Proof.
  induction cs as [|c cs IH] using rev_ind; [done|]. rewrite drop_while_end_snoc.
  destruct (is_whitespace c) eqn:Hc; [|done]. rewrite IH, visible_chars_app, (visible_chars_space [c]).
  - by rewrite app_nil_r.
  - by constructor.
Qed.

(** A row of a text of characters [all]: a piece of one of its lines that
    starts at a boundary and fits.  The rows [rows] hold the characters [cs]
    but white space. *)
Definition row_ok (width : nat) (all : list string) (row : WrappedTextRow) : Prop :=
  exists l m r, all = l ++ m ++ r /\ start_byte row = str_len l /\ row_text row = concat_str m
    /\ row_fits width m /\ Forall (fun c => is_newline c = false) m.
Definition row_chars (row : WrappedTextRow) : list string := chars (row_text row).
Definition rows_ok (width : nat) (all cs : list string) (rows : list WrappedTextRow) : Prop :=
  Forall (row_ok width all) rows
  /\ visible_chars (List.concat (List.map row_chars rows)) = visible_chars cs.

Lemma rows_ok_app width all cs ds rows more :
  rows_ok width all cs rows -> rows_ok width all ds more -> rows_ok width all (cs ++ ds) (rows ++ more).
Proof.
  intros [H1 H2] [H3 H4]. split; [by apply Forall_app|].
  by rewrite List.map_app, List.concat_app, !visible_chars_app, H2, H4.
Qed.
Lemma rows_ok_nil width all cs : all_space cs -> rows_ok width all cs [].
Proof. intros H. split; [constructor|]. symmetry. by apply visible_chars_space. Qed.
Lemma rows_ok_one width all cs l m r start stop :
  Forall char_shape m -> all = l ++ m ++ r -> start = str_len l -> row_fits width m ->
  Forall (fun c => is_newline c = false) m -> visible_chars m = visible_chars cs ->
  rows_ok width all cs [MkRow start (concat_str m) stop].
Proof.
  intros Hsh -> -> Hfit Hnl Hv. split.
  { constructor; [|constructor]. exists l, m, r. done. }
  simpl. rewrite app_nil_r. unfold row_chars. simpl. by rewrite chars_concat.
Qed.
Lemma rows_ok_empty width all l r start stop :
  all = l ++ r -> start = str_len l -> rows_ok width all [] [empty_row start stop].
Proof.
  intros -> ->. apply (rows_ok_one width _ [] l [] r _ _); try done. left. simpl. lia.
Qed.

Definition no_newline (cs : list string) : Prop := Forall (fun c => is_newline c = false) cs.

Lemma wrap_rows_spec width trim has_newline r : forall fuel l d m,
  Forall char_shape (l ++ d ++ m ++ r) -> no_newline m -> length m <= fuel ->
  exists rows,
    wrap_rows char_width fuel (concat_str (l ++ d ++ m ++ r)) (str_len l) (str_len (l ++ d ++ m))
      (str_len (l ++ d)) has_newline width trim = Some rows
    /\ rows_ok width (l ++ d ++ m ++ r) m rows.
Proof.
  induction fuel as [|fuel IH]; intros l d m Hsh Hnl Hf.
  { destruct m; simpl in Hf; [|lia]. cbn [wrap_rows]. rewrite app_nil_r, Nat.ltb_irrefl.
    exists []. split; [done|]. apply rows_ok_nil; constructor. }
  assert (Hlen : str_len (l ++ d ++ m) = str_len (l ++ d) + str_len m) by by rewrite app_assoc, str_len_app.
  cbn [wrap_rows]. destruct (str_len (l ++ d) <? str_len (l ++ d ++ m)) eqn:Hlt.
  2:{ apply Nat.ltb_ge in Hlt. destruct m as [|c m].
      - exists []. split; [done|]. apply rows_ok_nil; constructor.
      - apply Forall_app in Hsh as [_ Hsh]. apply Forall_app in Hsh as [_ Hsh].
        inversion_clear Hsh as [|? ? Hc _]. apply char_shape_len in Hc.
        rewrite str_len_cons in Hlen. lia. }
  clear Hlt.
  assert (Forall char_shape (l ++ d) /\ Forall char_shape m /\ Forall char_shape r) as (Hld & Hm & Hr).
  { rewrite !Forall_app in *. tauto. }
  assert (Hslice : slice (str_len (l ++ d)) (str_len (l ++ d ++ m)) (concat_str (l ++ d ++ m ++ r)) = Some (concat_str m)).
  { rewrite Hlen, app_assoc. by apply slice_chars. }
  rewrite Hslice. cbn [mbind option_bind]. rewrite chars_concat by done.
  set (sp := if str_len l <? str_len (l ++ d) then take_while is_whitespace m else []).
  assert (exists m', m = sp ++ m' /\ all_space sp
    /\ (if str_len l <? str_len (l ++ d) then str_len (l ++ d) + skip_spaces m else str_len (l ++ d))
       = str_len (l ++ d ++ sp)) as (m' & Hm' & Hsp & ->).
  { unfold sp. rewrite skip_spaces_take, app_assoc, (str_len_app (l ++ d)).
    destruct (str_len l <? str_len (l ++ d)).
    - exists (drop_while is_whitespace m). rewrite take_drop_while.
      split_and!; [done|apply take_while_space|done].
    - exists m. split_and!; [done|constructor|]. change (str_len []) with 0. lia. }
  clearbody sp. subst m. clear Hslice.
  apply Forall_app in Hm as [Hspsh Hm]. apply Forall_app in Hnl as [_ Hnl].
  rewrite length_app in Hf.
  assert (Hall : l ++ d ++ (sp ++ m') ++ r = (l ++ d ++ sp) ++ m' ++ r) by by rewrite <- !app_assoc.
  assert (Hend : str_len (l ++ d ++ sp ++ m') = str_len (l ++ d ++ sp) + str_len m').
  { by rewrite <- str_len_app, <- !app_assoc. }
  rewrite Hall, Hend.
  destruct (str_len (l ++ d ++ sp) + str_len m' <=? str_len (l ++ d ++ sp)) eqn:Hle.
  { apply Nat.leb_le in Hle. exists []. split; [done|]. pose proof (str_len_count m' Hm).
    destruct m'; [|simpl in *; lia]. rewrite app_nil_r. by apply rows_ok_nil. }
  rewrite slice_chars by done. cbn [mbind option_bind]. rewrite chars_concat by done.
  set (base := str_len (l ++ d ++ sp)).
  pose proof (scan_row_spec width base m' [] None) as Hscan.
  change (str_len []) with 0 in Hscan. rewrite Nat.add_0_r in Hscan.
  specialize (Hscan Hm ltac:(left; simpl; lia) I).
  change (line_width 0 []) with 0 in Hscan. simpl app in Hscan.
  destruct (scan_row char_width width base m' base 0 None) as [[text_end next_start]|].
  - destruct Hscan as (p & s & rest & -> & Hp & Hs & Hfit & -> & ->).
    rewrite !Forall_app in Hm. destruct Hm as (Hpsh & Hssh & Hrest).
    unfold no_newline in Hnl. rewrite !Forall_app in Hnl. destruct Hnl as (Hpnl & _ & Hrnl).
    assert ((p ++ s ++ rest) ++ r = p ++ s ++ rest ++ r) as Hcut by by rewrite <- !app_assoc.
    assert (slice base (base + str_len p) (concat_str ((l ++ d ++ sp) ++ p ++ s ++ rest ++ r)) = Some (concat_str p))
      as Hpiece by (apply slice_chars; rewrite ?Forall_app; done).
    rewrite Hcut, Hpiece.
    cbn [mbind option_bind].
    destruct (IH l (d ++ sp ++ p ++ s) rest) as (rows & Hrows & Hok).
    + rewrite <- !app_assoc. rewrite !Forall_app in *. tauto.
    + done.
    + rewrite !length_app in Hf. destruct p; [done|]. simpl in Hf. lia.
    + assert ((l ++ d ++ sp) ++ p ++ s ++ rest ++ r = l ++ (d ++ sp ++ p ++ s) ++ rest ++ r) as E1
        by by rewrite <- !app_assoc.
      assert (base + str_len (p ++ s ++ rest) = str_len (l ++ (d ++ sp ++ p ++ s) ++ rest)) as E2
        by (unfold base; by rewrite <- str_len_app, <- !app_assoc).
      assert (base + str_len (p ++ s) = str_len (l ++ d ++ sp ++ p ++ s)) as E3
        by (unfold base; by rewrite <- str_len_app, <- !app_assoc).
      rewrite E1, E2, E3, Hrows. cbn [mbind option_bind].
      eexists. split; [done|].
      assert (sp ++ p ++ s ++ rest = (sp ++ p ++ s) ++ rest) as -> by by rewrite <- !app_assoc.
      apply (rows_ok_app width _ _ _ [_]); [|done].
      apply (rows_ok_one width _ _ (l ++ d ++ sp) p (s ++ rest ++ r)); try done.
      rewrite !visible_chars_app, (visible_chars_space sp Hsp), (visible_chars_space s Hs).
      by rewrite app_nil_r.
  - eexists. split; [done|]. destruct trim.
    + unfold trim_end. rewrite chars_concat by done.
      destruct (drop_while_end_prefix is_whitespace m') as [t Ht].
      set (k := drop_while_end is_whitespace m') in *.
      assert (visible_chars k = visible_chars (sp ++ m')) as Hv.
      { unfold k. by rewrite visible_chars_drop_end, visible_chars_app, (visible_chars_space sp Hsp). }
      rewrite Ht in Hscan, Hm, Hnl. apply Forall_app in Hm as [Hk Htsh]. apply Forall_app in Hnl as [Hknl _].
      apply (rows_ok_one width _ _ (l ++ d ++ sp) k (t ++ r)); try done.
      * rewrite Ht at 1. by rewrite <- !app_assoc.
      * by eapply row_fits_prefix.
    + apply (rows_ok_one width _ _ (l ++ d ++ sp) m' r); try done.
      by rewrite visible_chars_app, (visible_chars_space sp Hsp).
Qed.

(** ** Whole texts *)

Lemma wrap_logical_line_spec width trim has_newline l m r :
  Forall char_shape (l ++ m ++ r) -> no_newline m ->
  exists rows,
    wrap_logical_line char_width (concat_str (l ++ m ++ r)) (str_len l) (str_len (l ++ m)) has_newline width trim
    = Some rows
    /\ rows_ok width (l ++ m ++ r) m rows.
Proof.
  intros Hsh Hnl. unfold wrap_logical_line.
  assert (str_len (l ++ m) = str_len l + str_len m) as Hlen by apply str_len_app.
  assert (length m <= str_len m) as Hcount.
  { apply str_len_count. rewrite !Forall_app in Hsh. tauto. }
  destruct (str_len l =? str_len (l ++ m)) eqn:He.
  - apply Nat.eqb_eq in He. destruct m; [|simpl in Hcount; lia].
    eexists. split; [done|]. by apply (rows_ok_empty width _ l r).
  - pose proof (wrap_rows_spec width trim has_newline r (str_len (l ++ m) - str_len l) l [] m) as H.
    simpl app in H. rewrite app_nil_r in H. apply H; [done..|lia].
Qed.

Lemma is_newline_eq c : is_newline c = true -> c = nl.
Proof. apply String.eqb_eq. Qed.

Lemma wrap_segments_spec width trim cs : forall l p,
  Forall char_shape (l ++ p ++ cs) -> no_newline p ->
  exists rows,
    wrap_segments char_width (concat_str (l ++ p ++ cs)) (segments (str_len (l ++ p)) (str_len l) cs) width trim
    = Some rows
    /\ rows_ok width (l ++ p ++ cs) (p ++ cs) rows.
Proof.
  induction cs as [|c cs IH]; intros l p Hsh Hnl; cbn [segments].
  - destruct (str_len l =? str_len (l ++ p)) eqn:He; cbn [wrap_segments].
    + apply Nat.eqb_eq in He. rewrite str_len_app in He. rewrite !Forall_app in Hsh.
      pose proof (str_len_count p ltac:(tauto)). destruct p; [|simpl in *; lia].
      exists []. split; [done|]. apply rows_ok_nil. constructor.
    + destruct (wrap_logical_line_spec width trim false l p [] Hsh Hnl) as (rows & -> & Hok).
      cbn [mbind option_bind]. rewrite app_nil_r. exists rows. split; [done|]. by rewrite app_nil_r in *.
  - destruct (is_newline c) eqn:Hc; cbn [wrap_segments].
    + destruct (wrap_logical_line_spec width trim true l p (c :: cs) Hsh Hnl) as (rows & -> & Hok).
      cbn [mbind option_bind]. apply is_newline_eq in Hc as ->.
      assert (l ++ p ++ nl :: cs = (l ++ p ++ [nl]) ++ [] ++ cs) as Eall by (by rewrite <- !app_assoc).
      assert (str_len (l ++ p) + 1 = str_len (l ++ p ++ [nl])) as Elen by (rewrite !str_len_app; done || (change (str_len [nl]) with 1; lia)).
      destruct (IH (l ++ p ++ [nl]) []) as (more & Hmore & Hok').
      * by rewrite <- Eall.
      * constructor.
      * rewrite app_nil_r in Hmore. rewrite Eall, Elen, Hmore. cbn [mbind option_bind].
        eexists. split; [done|]. rewrite <- Eall in Hok' |- *.
        pose proof (rows_ok_app width (l ++ p ++ nl :: cs) p [nl] rows [] Hok) as Hline.
        rewrite app_nil_r in Hline. pose proof (rows_ok_app width (l ++ p ++ nl :: cs) (p ++ [nl]) cs rows more) as H.
        rewrite <- app_assoc in H. apply H; [|done]. apply Hline, rows_ok_nil. by constructor.
    + assert (l ++ p ++ c :: cs = l ++ (p ++ [c]) ++ cs) as Eall by (by rewrite <- !app_assoc).
      assert (str_len (l ++ p) + byte_len c = str_len (l ++ p ++ [c])) as Elen.
      { rewrite !str_len_app, str_len_cons. change (str_len []) with 0. lia. }
      destruct (IH l (p ++ [c])) as (rows & Hrows & Hok).
      * by rewrite <- Eall.
      * apply Forall_app. split; [done|]. by constructor.
      * rewrite Eall, Elen, Hrows. exists rows. split; [done|].
        replace (p ++ c :: cs) with ((p ++ [c]) ++ cs) by (by rewrite <- app_assoc). done.
Qed.

Lemma wrap_impl_spec width trim cs :
  Forall char_shape cs ->
  exists rows,
    wrap_plain_text_with_end_indices_impl char_width (concat_str cs) width trim = Some rows
    /\ rows_ok (Nat.max width 1) cs cs rows.
Proof.
  intros Hsh. unfold wrap_plain_text_with_end_indices_impl, is_empty.
  destruct (String.eqb_spec (concat_str cs) "") as [He|He].
  { assert (cs = []) as ->.
    { pose proof (str_len_count cs Hsh) as H. unfold str_len in H. rewrite He in H. destruct cs; [done|simpl in H; lia]. }
    eexists. split; [done|]. by apply (rows_ok_empty _ [] [] []). }
  rewrite chars_concat by done.
  destruct (wrap_segments_spec (Nat.max width 1) trim cs [] [] Hsh ltac:(constructor)) as (rows & Hrows & Hok).
  change (str_len ([] ++ [])) with 0 in Hrows. change (str_len []) with 0 in Hrows. simpl app in *.
  rewrite Hrows. cbn [mbind option_bind]. eexists. split; [done|].
  pose proof (rows_ok_app (Nat.max width 1) cs cs [] rows) as H. rewrite app_nil_r in H.
  apply H; [done|]. destruct (ends_with nl _); [|apply rows_ok_nil; constructor].
  by apply (rows_ok_empty _ _ cs []); [rewrite app_nil_r|].
Qed.

Lemma utf8_chars s : utf8_start s -> exists cs, s = concat_str cs /\ Forall char_shape cs.
Proof. intros H. exists (chars s). split; [by rewrite concat_chars|by apply chars_shape]. Qed.

(** The position of the cursor is defined at every boundary. *)
Lemma cursor_position_total s cursor width :
  utf8_start s -> is_char_boundary cursor s = true ->
  exists col row, wrapped_composer_cursor_position char_width s cursor width = Some (col, row).
Proof.
  intros Hs Hb. apply utf8_chars in Hs as (cs & -> & Hsh).
  apply boundary_inv in Hb as (l & r & -> & ->); [|done].
  apply Forall_app in Hsh as [Hl Hr]. unfold wrapped_composer_cursor_position.
  rewrite slice_to_chars by done. cbn [mbind option_bind].
  destruct (wrap_impl_spec (Nat.max width 1) false l Hl) as (rows & Hrows & _).
  unfold wrap_composer_input_with_end_indices. rewrite Hrows. by do 2 eexists.
Qed.

(** The width a row takes on the terminal, and its characters that take columns. *)
Definition row_width (row : WrappedTextRow) : nat := display_width char_width (row_text row).
Definition row_columns (row : WrappedTextRow) : nat := visible 0 (row_chars row).

(** C38. Wrapping a text never slices inside a character and always answers;
    no row is wider than the width asked for (at least one column), unless a
    single character of it takes columns; each row is the piece of the text
    that starts at its [start_byte], a boundary; and the rows hold, in order,
    every character of the text but white space. *)
Theorem wrapping_fits_and_keeps s width trim :
  utf8_start s ->
  exists rows,
    wrap_plain_text_with_end_indices_impl char_width s width trim = Some rows
    /\ Forall (fun row => row_width row <= Nat.max width 1 \/ row_columns row <= 1) rows
    /\ Forall (fun row => slice (start_byte row) (start_byte row + byte_len (row_text row)) s
                          = Some (row_text row)) rows
    /\ visible_chars (List.concat (List.map row_chars rows)) = visible_chars (chars s).
Proof.
  intros Hs. apply utf8_chars in Hs as (cs & -> & Hsh).
  destruct (wrap_impl_spec width trim cs Hsh) as (rows & Hrows & Hok & Hkeep).
  exists rows. rewrite chars_concat by done. split_and!; [done| | |done];
    eapply Forall_impl; try exact Hok; intros row (l & m & r & -> & Hstart & Htext & Hfit & Hnl);
    rewrite !Forall_app in Hsh; destruct Hsh as (_ & Hm & Hr).
  - unfold row_width, row_columns, row_chars. rewrite Htext, display_width_line; rewrite chars_concat; done.
  - rewrite Hstart, Htext. by apply slice_chars.
Qed.
End wrap.

Lemma wrapping_fits_and_keeps_witness :
  exists rows, wrap_plain_text_with_end_indices_impl one_column "one two three" 7 false = Some rows
    /\ Forall (fun row => row_width one_column row <= 7 \/ row_columns one_column row <= 1) rows
    /\ Forall (fun row => slice (start_byte row) (start_byte row + byte_len (row_text row)) "one two three"
                          = Some (row_text row)) rows
    /\ visible_chars (List.concat (List.map row_chars rows)) = visible_chars (chars "one two three").
Proof. apply (wrapping_fits_and_keeps one_column "one two three" 7 false). reflexivity. Defined.
