(* ===== verification/Commands.v ===== *)
(** * Slash commands ([crates/bt-tui/src/commands.rs])

    The registry of the commands, how a typed name resolves to one, the menu
    and the completions offered for the text of the composer, and the
    arguments of [/raw] and [/resume].  A slice inside a character panics,
    which is [None].  The text of a session id ([uuid]) and of a point in
    time ([time], RFC 3339) are parameters. *)

From stdpp Require Import base list strings sorting pretty.
From Stdlib Require Import ZArith Lia Ascii.
From S2P Require Import Prelude Text Types TextUtils.

#[local] Open Scope nat_scope.

(** ** Commands *)

Inductive CommandSurface : Type := SlashPrimary | SlashHidden | ContextualOnly.

Record CommandDef : Type := MkCommandDef {
  canonical : string;
  aliases : list string;
  args_hint : string;
  description : string;
  surface : CommandSurface;
  allow_during_request : bool;
}.

Definition surface_is_slash_enabled (s : CommandSurface) : bool :=
  match s with SlashPrimary | SlashHidden => true | ContextualOnly => false end.
Definition surface_is_default_visible (s : CommandSurface) : bool :=
  match s with SlashPrimary => true | _ => false end.
Definition is_slash_enabled (c : CommandDef) : bool := surface_is_slash_enabled (surface c).
Definition is_default_visible (c : CommandDef) : bool := surface_is_default_visible (surface c).

Definition COMMAND_REGISTRY : list CommandDef := [
  MkCommandDef "help" [] ""
    "Show available commands" SlashPrimary true;
  MkCommandDef "status" [] ""
    "Render provider auth and readiness for configured connections" SlashPrimary true;
  MkCommandDef "models" [] "[connection]"
    "Render model availability, optionally for one connection" SlashPrimary true;
  MkCommandDef "doctor" [] ""
    "Render a full operator health report for server, connections, models, and MCP" SlashHidden false;
  MkCommandDef "mcp" [] "[reload]"
    "Render MCP server and tool status, or reload MCP server registrations" SlashPrimary false;
  MkCommandDef "session" [] ""
    "Render a structured summary of the current session" SlashPrimary true;
  MkCommandDef "inspect" [] "[session|tool <call-id>]"
    "Inspect the current session or a specific tool call by id" SlashPrimary true;
  MkCommandDef "history" [] "[limit]"
    "Render recent turn history in the chat transcript" SlashPrimary true;
  MkCommandDef "execution" [] "[limit]"
    "Render execution-oriented turn and span metadata" SlashHidden true;
  MkCommandDef "raw" [] "[diff] [turn-id] [call <n>] [limit]"
    "Render raw chunks or a raw-vs-structured diff for a selected turn" SlashHidden true;
  MkCommandDef "usage" [] "[limit]"
    "Render token, cost, and latency summaries from executed turns" SlashPrimary true;
  MkCommandDef "queue" [] "[clear]"
    "Render queue state or clear queued follow-up messages for the current session" ContextualOnly true;
  MkCommandDef "branches" [] ""
    "Render structured branch summaries for the current session" SlashHidden true;
  MkCommandDef "tree" [] ""
    "Render the current branch tree and related session lineage" SlashHidden true;
  MkCommandDef "lineage" [] ""
    "Render the cross-session lineage view for the current session" SlashHidden true;
  MkCommandDef "workflow" [] ""
    "Render the multi-session workflow view for the current session graph" SlashHidden true;
  MkCommandDef "export" [] "[legacy-bundle|jsonl|html|sharegpt|otlp] <path>"
    "Write an export view to a local path or push OTLP to a collector" SlashHidden true;
  MkCommandDef "refresh" ["r"] ""
    "Reload messages and metadata" SlashHidden false;
  MkCommandDef "new" [] ""
    "Create a new session" SlashPrimary false;
  MkCommandDef "compact" [] ""
    "Run runtime compaction on the current branch context" SlashPrimary false;
  MkCommandDef "resume" [] "[session-id]"
    "Resume a previous session from a recency-ordered list" SlashHidden false;
  MkCommandDef "spawn" ["delegate"] "[--connection <id>] [--model <model-id>] <objective>"
    "Create a linked child session, optionally with a selected connection/model" SlashHidden false;
  MkCommandDef "branch" ["fork"] ""
    "Create and switch to a new branch" SlashPrimary false;
  MkCommandDef "cancel" ["stop"] ""
    "Cancel the current in-flight turn" SlashPrimary true;
  MkCommandDef "detach" [] ""
    "Exit the TUI while leaving the current session running" SlashHidden true;
  MkCommandDef "steer" ["redirect"] "<message>"
    "Interrupt the current turn with new instructions" SlashHidden true;
  MkCommandDef "approve" ["yes"] "[once|session|always]"
    "Approve the latest pending tool call" ContextualOnly true;
  MkCommandDef "deny" ["no"] "[once|session|always]"
    "Deny the latest pending tool call" ContextualOnly true;
  MkCommandDef "connection" ["conn"] "[id]"
    "Show or switch the session connection" SlashPrimary false;
  MkCommandDef "model" ["mod"] "[model-id]"
    "Show or switch the session model" SlashHidden false;
  MkCommandDef "defaults" ["default"] "[connection <id>|model <model-id>|use <connection> [model]]"
    "Show or update global defaults for future sessions" SlashPrimary true;
  MkCommandDef "mode" [] "[standard|extended]"
    "Show or switch the session tool mode" SlashHidden false;
  MkCommandDef "use" [] "<connection> [model]"
    "Guided connection and model selection with readiness feedback" SlashPrimary false].

Definition command_usage (command : CommandDef) : string :=
  if is_empty (args_hint command) then "/" +:+ canonical command
  else "/" +:+ canonical command +:+ " " +:+ args_hint command.

Definition approval_scope_candidates : list string := ["once"; "session"; "always"].
Definition export_format_candidates : list string := ["legacy-bundle"; "jsonl"; "html"; "sharegpt"; "otlp"].
Definition queue_action_candidates : list string := ["clear"].
Definition defaults_action_candidates : list string := ["connection"; "model"; "use"].

Definition parse_approval_scope (token : option string) : result string ApprovalScope :=
  let token := default "once" token in
  if String.eqb token "once" then Ok ScopeOnce
  else if String.eqb token "session" then Ok ScopeSession
  else if String.eqb token "always" then Ok ScopeAlways
  else Err ("Unknown approval scope `" +:+ token +:+ "`. Use once, session, or always.").

Definition approval_scope_label (scope : ApprovalScope) : string :=
  match scope with ScopeOnce => "once" | ScopeSession => "for this session" | ScopeAlways => "always" end.

Definition command_catalog_line : string :=
  join "  |  " (List.map (fun command =>
      "/" +:+ canonical command
        +:+ (if is_empty (args_hint command) then "" else " " +:+ args_hint command)
        +:+ " " +:+ description command)
    (List.filter is_default_visible COMMAND_REGISTRY)).

Definition command_allowed_during_request (command : CommandDef) : bool := allow_during_request command.

(** [s.trim_start_matches(c)] *)
Definition trim_start_char (c s : string) : string := concat_str (drop_while (String.eqb c) (chars s)).

Definition is_operator_shell_input (input : string) : bool :=
  let trimmed := trim input in
  starts_with "!" trimmed && negb (is_blank (trim_start_char "!" trimmed)).

Definition command_not_exposed_as_slash_message (command : CommandDef) : string :=
  let name := canonical command in
  if String.eqb name "approve" || String.eqb name "deny" then
    "Approvals are resolved from the approval chooser when a tool call pauses."
  else if String.eqb name "queue" then
    "Queue state is rendered inline in normal operation and no longer has a top-level slash command."
  else "`/" +:+ name +:+ "` is not exposed in the current slash-command surface.".

(** [iter.sort_by_key(key)] and [dedup_by_key(key)] for a key that is text;
    [sort] and [dedup] of texts. *)
Definition key_le {A} (key : A -> string) (a b : A) : Prop := str_le (key a) (key b).
#[export] Instance key_le_dec {A} (key : A -> string) a b : Decision (key_le key a b).
Proof. unfold key_le. apply _. Defined.
Definition sort_by_key {A} (key : A -> string) (l : list A) : list A := merge_sort (key_le key) l.
Definition dedup_by_key {A} (key : A -> string) (l : list A) : list A :=
  dedup_by (fun a b => String.eqb (key a) (key b)) l.

Definition names_of (command : CommandDef) : list string := canonical command :: aliases command.

(** [resolve_command] *)
Definition normalize_query (query : string) : string :=
  to_ascii_lowercase (trim_start_char "/" (trim query)).
Definition is_exactly (normalized : string) (command : CommandDef) : bool :=
  existsb (String.eqb normalized) (names_of command).
Definition has_prefix (normalized : string) (command : CommandDef) : bool :=
  is_slash_enabled command && existsb (starts_with normalized) (names_of command).
Definition prefix_matches (normalized : string) : list CommandDef :=
  dedup_by_key canonical (sort_by_key canonical (List.filter (has_prefix normalized) COMMAND_REGISTRY)).
Definition resolve_command (query : string) : result string CommandDef :=
  let normalized := normalize_query query in
  if is_empty normalized then Err "Use /help to see available commands."
  else match List.find (is_exactly normalized) COMMAND_REGISTRY with
       | Some exact =>
           if is_slash_enabled exact then Ok exact else Err (command_not_exposed_as_slash_message exact)
       | None =>
           match prefix_matches normalized with
           | [command] => Ok command
           | [] => Err ("Unknown command `/" +:+ normalized +:+ "`. Use /help.")
           | matches => Err ("Ambiguous command `/" +:+ normalized +:+ "`. Matches: "
                               +:+ join ", " (List.map (fun command => "/" +:+ canonical command) matches))
           end
       end.

Definition command_help_output (show_all : bool) : string :=
  let lines := List.map (fun command => command_usage command +:+ nl +:+ "  " +:+ description command)
    (List.filter (fun command => is_slash_enabled command && (show_all || is_default_visible command))
       COMMAND_REGISTRY) in
  let lines :=
    if negb show_all
       && existsb (fun command => match surface command with SlashHidden => true | _ => false end) COMMAND_REGISTRY
    then lines ++ ["/help all" +:+ nl +:+ "  Show advanced slash commands"] else lines in
  join nl (lines ++ ["Contextual controls" +:+ nl
    +:+ "  approvals resolve through the approval chooser; queued follow-up state is rendered inline"]).

(** ** The data the menu reads *)

(** [ConnectionDescriptor], the fields the menu reads. *)
Record ConnectionDescriptor : Type := MkConnectionDescriptor {
  cd_id : ConnectionId;
  cd_provider : string;
  cd_default_model : string;
  cd_model_fallbacks : list string;
}.

Inductive ConnectionReadinessState : Type :=
  | UnknownState | Ready | RuntimeUnsupported | MissingAuth | UnsupportedAuthMethod | Degraded
  | Unreachable | ValidationFailed | NoLocalModelsDetected | ConfiguredModelUnavailable.

Definition readiness_is_ready (s : ConnectionReadinessState) : bool :=
  match s with Ready => true | _ => false end.
Definition status_label (s : ConnectionReadinessState) : string :=
  match s with
  | Ready => "ready"
  | RuntimeUnsupported => "runtime unsupported"
  | MissingAuth => "auth missing"
  | UnsupportedAuthMethod => "auth method unsupported"
  | Degraded => "degraded"
  | Unreachable => "unreachable"
  | ValidationFailed => "validation failed"
  | UnknownState => "unknown"
  | NoLocalModelsDetected => "no local models detected"
  | ConfiguredModelUnavailable => "configured model unavailable"
  end.

(** [ConnectionReadinessInspection] and [StatusInspection], the fields the
    menu reads. *)
Record ConnectionReadinessInspection : Type := MkReadiness {
  cr_connection_id : ConnectionId;
  cr_readiness_state : ConnectionReadinessState;
}.
Record StatusInspection : Type := MkStatusInspection {
  si_connections : list ConnectionReadinessInspection;
}.

Inductive ConnectionModelSource : Type := SourceDefault | SourceFallback | SourceDiscovered.
Record ConnectionModelOption : Type := MkModelOption {
  mo_model_id : string;
  mo_source : ConnectionModelSource;
}.
(** [ConnectionModelInventory], the fields the menu reads. *)
Record ConnectionModelInventory : Type := MkModelInventory {
  mi_connection_id : ConnectionId;
  mi_discovered_source : option string;
  mi_models : list ConnectionModelOption;
}.

Definition same_connection (a b : ConnectionId) : bool := String.eqb (connection_name a) (connection_name b).

Definition find_connection (connections : list ConnectionDescriptor) (id : ConnectionId) :=
  List.find (fun connection => same_connection (cd_id connection) id) connections.
Definition find_connection_readiness (inspection : option StatusInspection) (id : ConnectionId) :=
  inspection ← inspection;
  List.find (fun connection => same_connection (cr_connection_id connection) id) (si_connections inspection).
Definition find_connection_model_inventory (inventories : list ConnectionModelInventory) (id : ConnectionId) :=
  List.find (fun inventory => same_connection (mi_connection_id inventory) id) inventories.

Definition connection_status_rank (readiness : option ConnectionReadinessInspection) : nat :=
  match readiness with
  | Some r =>
      match cr_readiness_state r with
      | RuntimeUnsupported => 3
      | MissingAuth => 2
      | state => if readiness_is_ready state then 0 else 1
      end
  | None => 4
  end.
Definition connection_status_label (readiness : option ConnectionReadinessInspection) : string :=
  match readiness with Some r => status_label (cr_readiness_state r) | None => "unknown" end.

Definition render_connection_menu_description (connection : ConnectionDescriptor)
    (readiness : option ConnectionReadinessInspection) (current_connection : ConnectionId) : string :=
  let current_suffix := if same_connection (cd_id connection) current_connection then " current" else "" in
  cd_provider connection +:+ " default " +:+ cd_default_model connection +:+ " "
    +:+ connection_status_label readiness +:+ current_suffix.

(** The texts of [l] by their first occurrence: the [BTreeSet] [seen]. *)
Fixpoint first_seen {A} (key : A -> string) (seen : list string) (l : list A) : list A :=
  match l with
  | [] => []
  | a :: l =>
      if existsb (String.eqb (key a)) seen then first_seen key seen l
      else a :: first_seen key (key a :: seen) l
  end.

(** [connection_id == current_connection], and [current_model] when it is
    set and not empty. *)
Definition session_model (connection_id current_connection : ConnectionId) (current_model : option string)
    : list string :=
  if same_connection connection_id current_connection then
    match current_model with
    | Some model => if is_empty model then [] else [model]
    | None => []
    end
  else [].

Definition available_models_for_connection (connections : list ConnectionDescriptor)
    (connection_id current_connection : ConnectionId) (current_model : option string)
    (connection_models : list ConnectionModelInventory) : list string :=
  match find_connection connections connection_id with
  | None => []
  | Some connection =>
      first_seen id []
        (session_model connection_id current_connection current_model
         ++ match find_connection_model_inventory connection_models connection_id with
            | Some inventory => List.map mo_model_id (mi_models inventory)
            | None => cd_default_model connection :: cd_model_fallbacks connection
            end)
  end.

Record CommandMenuItem : Type := MkMenuItem {
  insert_text : string;
  item_label : string;
  item_description : string;
}.

Definition model_item (model description : string) : CommandMenuItem := MkMenuItem model model description.
Definition model_description (connection : ConnectionDescriptor) (inventory : ConnectionModelInventory)
    (source : ConnectionModelSource) : string :=
  match source with
  | SourceDefault => "Configured default for " +:+ connection_name (cd_id connection)
  | SourceFallback => "Catalog alternative for " +:+ connection_name (cd_id connection)
  | SourceDiscovered =>
      match mi_discovered_source inventory with
      | Some source => "Discovered on " +:+ source
      | None => "Discovered from the active connection"
      end
  end.

Definition model_menu_items_for_connection (connections : list ConnectionDescriptor)
    (connection_id current_connection : ConnectionId) (current_model : option string)
    (connection_models : list ConnectionModelInventory) : list CommandMenuItem :=
  match find_connection connections connection_id with
  | None => []
  | Some connection =>
      let name := connection_name (cd_id connection) in
      first_seen insert_text []
        (List.map (fun model => model_item model "Current session model")
           (session_model connection_id current_connection current_model)
         ++ match find_connection_model_inventory connection_models connection_id with
            | Some inventory =>
                List.map (fun model => model_item (mo_model_id model)
                  (model_description connection inventory (mo_source model))) (mi_models inventory)
            | None =>
                model_item (cd_default_model connection) ("Configured default for " +:+ name)
                :: List.map (fun fallback => model_item fallback ("Catalog alternative for " +:+ name))
                     (cd_model_fallbacks connection)
            end)
  end.

(** The order of [connection_menu_items]: the current connection, then the
    rank of its readiness, then its id. *)
Definition connection_key_le (current_connection : ConnectionId)
    (a b : ConnectionDescriptor * option ConnectionReadinessInspection) : bool :=
  let key x := (if same_connection (cd_id x.1) current_connection then 0 else 1,
                connection_status_rank x.2, connection_name (cd_id x.1)) in
  let '(ca, ra, na) := key a in let '(cb, rb, nb) := key b in
  (ca <? cb) || ((ca =? cb) && ((ra <? rb) || ((ra =? rb) && String.leb na nb))).
#[export] Instance connection_key_le_dec current a b : Decision (connection_key_le current a b = true).
Proof. apply _. Defined.

Definition connection_menu_items (connections : list ConnectionDescriptor)
    (readiness : option StatusInspection) (current_connection : ConnectionId) (current_prefix : string)
    (trailing_space : bool) : list CommandMenuItem :=
  let candidates :=
    List.map (fun connection => (connection, find_connection_readiness readiness (cd_id connection)))
      (List.filter (fun connection => starts_with current_prefix (connection_name (cd_id connection))) connections) in
  let candidates := merge_sort (fun a b => connection_key_le current_connection a b = true) candidates in
  List.map (fun '(connection, readiness) =>
      let name := connection_name (cd_id connection) in
      MkMenuItem (if trailing_space then name +:+ " " else name) name
        (render_connection_menu_description connection readiness current_connection)) candidates.

(** ** Completion *)

(** Where the word before the end of the text starts: the code looks for the
    last white space and adds one to its offset. *)
Definition replacement_start (input : string) : nat :=
  if ends_with_whitespace input then byte_len input
  else match rfind is_whitespace input with Some index => index + 1 | None => 0 end.

(** The word to complete and the words before it. *)
Definition split_input (input : string) : option (string * list string) :=
  let start := replacement_start input in
  current_prefix ← slice_from start input;
  preceding ← slice_to start input;
  let preceding := trim_end preceding in
  Some (current_prefix, if is_empty preceding then [] else split_whitespace preceding).

Record InputCompletion : Type := MkCompletion {
  replacement : nat * nat;
  candidates : list string;
}.

(** The arms of [completion_for_input]'s match on the command. *)
Definition argument_candidates (name : string) (tokens : list string) (current_connection : ConnectionId)
    (current_model : option string) (connections : list ConnectionDescriptor)
    (connection_models : list ConnectionModelInventory) : list string :=
  let ids := List.map (fun connection => connection_name (cd_id connection)) connections in
  let models_of target :=
    available_models_for_connection connections target current_connection current_model connection_models in
  let count := length tokens in
  let second := default "" (tokens !! 1) in
  let third := default "" (tokens !! 2) in
  if String.eqb name "help" && (count =? 1) then ["all"]
  else if String.eqb name "connection" && (count =? 1) then ids
  else if String.eqb name "model" && (count =? 1) then models_of current_connection
  else if String.eqb name "use" && (count =? 1) then ids
  else if String.eqb name "use" && (count =? 2) then models_of (MkConnectionId second)
  else if String.eqb name "defaults" && (count =? 1) then defaults_action_candidates
  else if String.eqb name "defaults" && (count =? 2)
          && (String.eqb second "connection" || String.eqb second "use") then ids
  else if String.eqb name "defaults" && (count =? 2) && String.eqb second "model" then models_of current_connection
  else if String.eqb name "defaults" && (count =? 3) && String.eqb second "use" then models_of (MkConnectionId third)
  else if (String.eqb name "approve" || String.eqb name "deny") && (count =? 1) then approval_scope_candidates
  else if String.eqb name "queue" && (count =? 1) then queue_action_candidates
  else if String.eqb name "inspect" && (count =? 1) then ["session"; "tool"]
  else if String.eqb name "export" && (count =? 1) then export_format_candidates
  else if String.eqb name "export" && (count =? 2) && String.eqb second "otlp" then ["push"]
  else [].

Definition slash_name (command : CommandDef) : string := "/" +:+ canonical command.

(** The commands offered for [current_prefix]: the hidden ones only once
    something follows the slash. *)
Definition offered (current_prefix : string) (command : CommandDef) : bool :=
  is_slash_enabled command && (negb (String.eqb current_prefix "/") || is_default_visible command)
  && starts_with current_prefix (slash_name command).

Definition completion_for_input (input : string) (current_connection : ConnectionId)
    (current_model : option string) (connections : list ConnectionDescriptor)
    (connection_models : list ConnectionModelInventory) : option (option InputCompletion) :=
  if negb (starts_with "/" input) then Some None
  else
    '(current_prefix, tokens) ← split_input input;
    let found :=
      match tokens with
      | [] => Some (List.map slash_name (List.filter (offered current_prefix) COMMAND_REGISTRY))
      | token :: _ =>
          match resolve_command token with
          | Err _ => None
          | Ok command =>
              Some (List.filter (starts_with current_prefix)
                (argument_candidates (canonical command) tokens current_connection current_model connections
                   connection_models))
          end
      end in
    Some (found ← found;
          let found := dedup_by_key id (sort_by_key id found) in
          match found with
          | [] => None
          | _ => Some (MkCompletion (replacement_start input, byte_len input) found)
          end).

Definition shared_prefix (candidates : list string) : option string :=
  match candidates with
  | [] => None
  | first :: rest =>
      Some (fold_left (fun prefix candidate =>
        concat_str (List.map fst (take_while (fun chs => String.eqb chs.1 chs.2)
          (zip (chars prefix) (chars candidate))))) rest first)
  end.

Definition completion_candidates_line (candidates : list string) : string :=
  let visible := take 6 candidates in
  let visible :=
    if length visible <? length candidates
    then visible ++ ["+" +:+ pretty (length candidates - length visible) +:+ " more"] else visible in
  "Suggestions: " +:+ join ", " visible.

(** ** Sessions to resume ([session_loader.rs]) *)

Section menu.
(** [Uuid]'s text and RFC 3339 *)
Context (show_uuid : N -> string) (rfc3339 : OffsetDateTime -> string).

Definition session_text (session : SessionRecord) : string := show_uuid (uuid (se_session_id session)).

Definition session_title (session : SessionRecord) : string := default "session" (se_display_name session).

Definition updated_le (a b : SessionRecord) : Prop := (se_updated_at b <= se_updated_at a)%Z.
#[local] Instance updated_le_dec a b : Decision (updated_le a b).
Proof. unfold updated_le. apply _. Defined.
Definition sorted_sessions (sessions : list SessionRecord) : list SessionRecord := merge_sort updated_le sessions.

Definition matching_sessions (sessions : list SessionRecord) (project_root : string)
    (connection_id : ConnectionId) : list SessionRecord :=
  merge_sort updated_le (List.filter (fun session =>
    String.eqb (se_project_root session) project_root
    && same_connection (se_connection_id session) connection_id) sessions).

Definition resume_candidates (sessions : list SessionRecord) (project_root : string)
    (connection_id : option ConnectionId) : list SessionRecord * bool :=
  let filtered :=
    match connection_id with
    | Some connection_id => matching_sessions sessions project_root connection_id
    | None => merge_sort updated_le
                (List.filter (fun session => String.eqb (se_project_root session) project_root) sessions)
    end in
  match filtered with
  | [] => (sorted_sessions sessions, true)
  | _ => (filtered, false)
  end.

Definition resume_selection_matches (prefix : string) (session : SessionRecord) : bool :=
  is_empty prefix
  || starts_with prefix (session_text session)
  || starts_with prefix (short_id_string (session_text session))
  || starts_with (to_ascii_lowercase prefix) (to_ascii_lowercase (session_title session)).

Definition resume_menu_item (session : SessionRecord) : CommandMenuItem :=
  let session_id := session_text session in
  MkMenuItem session_id
    (session_title session +:+ " [" +:+ short_id_string session_id +:+ "]")
    (rfc3339 (se_updated_at session) +:+ "  " +:+ connection_name (se_connection_id session) +:+ " / "
       +:+ default "default" (se_model_id session) +:+ "  " +:+ truncate_path (se_project_root session) 52).

Definition usize_max : Z := 18446744073709551615.

(** [slice.get(index)] *)
Definition get_index {A} (l : list A) (index : Z) : option A :=
  if (index <? Z.of_nat (length l))%Z then l !! Z.to_nat index else None.

Definition resolve_resume_selection (sessions : list SessionRecord) (project_root selection : string)
    : result string SessionRecord :=
  let candidates := (resume_candidates sessions project_root None).1 in
  match candidates with
  | [] => Err "No sessions are available to resume."
  | _ =>
      match (index ← parse_unsigned usize_max selection; get_index candidates (Z.max 0 (index - 1))) with
      | Some session => Ok session
      | None =>
          ok_or ("Unknown resume selection `" +:+ selection +:+ "`.")
            (List.find (fun session =>
               String.eqb (session_text session) selection
               || String.eqb (short_id_string (session_text session)) selection
               || String.eqb (to_ascii_lowercase (session_title session)) (to_ascii_lowercase selection))
             candidates)
      end
  end.

(** ** The menu *)

Definition plain_item (description candidate : string) : CommandMenuItem :=
  MkMenuItem candidate candidate description.
Definition spaced_item (description candidate : string) : CommandMenuItem :=
  MkMenuItem (candidate +:+ " ") candidate description.
Definition command_item (command : CommandDef) : CommandMenuItem :=
  MkMenuItem ("/" +:+ canonical command +:+ (if is_empty (args_hint command) then "" else " "))
    (command_usage command) (description command).
Definition defaults_description (candidate : string) : string :=
  if String.eqb candidate "connection" then "Persist the default connection for future sessions"
  else if String.eqb candidate "model" then "Persist the current connection's default model"
  else if String.eqb candidate "use" then "Persist a connection and optional model together"
  else "Update global defaults".
Definition inspect_description (candidate : string) : string :=
  if String.eqb candidate "session" then "Inspect the current session state"
  else if String.eqb candidate "tool" then "Inspect a specific tool call by id"
  else "Inspect structured session state".

(** What the menu is built from, beside the text. *)
Record MenuSource : Type := MkMenuSource {
  ms_current_connection : ConnectionId;
  ms_current_model : option string;
  ms_connections : list ConnectionDescriptor;
  ms_readiness : option StatusInspection;
  ms_connection_models : list ConnectionModelInventory;
  ms_sessions : list SessionRecord;
  ms_project_root : string;
}.

(** The arms of [command_menu_items]'s match on the command. *)
Definition argument_items (name : string) (tokens : list string) (current_prefix : string) (src : MenuSource)
    : list CommandMenuItem :=
  let count := length tokens in
  let second := default "" (tokens !! 1) in
  let third := default "" (tokens !! 2) in
  let of_texts to_item texts := List.map to_item (List.filter (starts_with current_prefix) texts) in
  let models_of target :=
    List.filter (fun candidate => starts_with current_prefix (item_label candidate))
      (model_menu_items_for_connection (ms_connections src) target (ms_current_connection src)
         (ms_current_model src) (ms_connection_models src)) in
  let ids trailing_space :=
    connection_menu_items (ms_connections src) (ms_readiness src) (ms_current_connection src) current_prefix
      trailing_space in
  if String.eqb name "help" && (count =? 1) then
    of_texts (plain_item "Show the advanced slash-command surface") ["all"]
  else if String.eqb name "resume" && (count =? 1) then
    List.map resume_menu_item (List.filter (resume_selection_matches current_prefix)
      (resume_candidates (ms_sessions src) (ms_project_root src) None).1)
  else if String.eqb name "connection" && (count =? 1) then ids false
  else if String.eqb name "model" && (count =? 1) then models_of (ms_current_connection src)
  else if String.eqb name "use" && (count =? 1) then ids true
  else if String.eqb name "use" && (count =? 2) then models_of (MkConnectionId second)
  else if String.eqb name "defaults" && (count =? 1) then
    of_texts (fun candidate => spaced_item (defaults_description candidate) candidate) defaults_action_candidates
  else if String.eqb name "defaults" && (count =? 2)
          && (String.eqb second "connection" || String.eqb second "use") then ids (String.eqb second "use")
  else if String.eqb name "defaults" && (count =? 2) && String.eqb second "model" then
    models_of (ms_current_connection src)
  else if String.eqb name "defaults" && (count =? 3) && String.eqb second "use" then models_of (MkConnectionId third)
  else if (String.eqb name "approve" || String.eqb name "deny") && (count =? 1) then
    of_texts (plain_item "Apply this approval scope") approval_scope_candidates
  else if String.eqb name "queue" && (count =? 1) then
    of_texts (plain_item "Clear queued follow-up messages for this session") queue_action_candidates
  else if String.eqb name "inspect" && (count =? 1) then
    of_texts (fun candidate => plain_item (inspect_description candidate) candidate) ["session"; "tool"]
  else if String.eqb name "export" && (count =? 1) then
    of_texts (plain_item "Export format preview") export_format_candidates
  else if String.eqb name "export" && (count =? 2) && String.eqb second "otlp" then
    of_texts (spaced_item "Upload real OTLP protobuf to a collector endpoint") ["push"]
  else [].

Definition keeps_order (input : string) : bool :=
  existsb (fun command => starts_with command (trim_start input))
    ["/resume"; "/use"; "/connection"; "/model"; "/defaults"].

Definition command_menu_items (input : string) (src : MenuSource) : option (list CommandMenuItem) :=
  if negb (starts_with "/" input) then Some []
  else
    '(current_prefix, tokens) ← split_input input;
    let items :=
      match tokens with
      | [] => Some (List.map command_item (List.filter (offered current_prefix) COMMAND_REGISTRY))
      | token :: _ =>
          match resolve_command token with
          | Err _ => None
          | Ok command => Some (argument_items (canonical command) tokens current_prefix src)
          end
      end in
    Some match items with
         | None => []
         | Some items =>
             dedup_by_key item_label (if keeps_order input then items else sort_by_key item_label items)
         end.

End menu.

(** ** [/raw] *)

Inductive RawCommandMode : Type := Chunks | Diff.
Definition DEFAULT_RAW_CHUNK_LIMIT : Z := 40.
Definition u32_max : Z := 4294967295.

(** [str::parse] of an unsigned integer, with the error's text. *)
Fixpoint parse_uint_digits (max acc : Z) (s : string) : result string Z :=
  match s with
  | "" => Ok acc
  | String a s =>
      match digit_val a with
      | None => Err "invalid digit found in string"
      | Some d =>
          if (max <? acc * 10 + d)%Z then Err "number too large to fit in target type"
          else parse_uint_digits max (acc * 10 + d) s
      end
  end.
Definition parse_uint (max : Z) (s : string) : result string Z :=
  match s with
  | "" => Err "cannot parse integer from empty string"
  | String a rest =>
      if Ascii.eqb a "+"%char then
        match rest with "" => Err "invalid digit found in string" | _ => parse_uint_digits max 0 rest end
      else parse_uint_digits max 0 s
  end.

Definition raw_usage : string := "Usage: /raw [diff] [turn-id] [call <n>] [limit]".

(** The loop of [parse_raw_command_args] over the words left. *)
Fixpoint parse_raw_loop (remaining : list string) (turn_id : option string) (llm_call_ordinal : option Z)
    (limit : Z) : result string (option string * option Z * Z) :=
  match remaining with
  | [] => Ok (turn_id, llm_call_ordinal, limit)
  | token :: rest =>
      if eq_ignore_ascii_case token "call" then
        match rest with
        | [] => Err raw_usage
        | next :: rest =>
            match parse_uint u32_max next with
            | Err error => Err ("invalid raw llm call ordinal: " +:+ error)
            | Ok ordinal =>
                if (ordinal =? 0)%Z then Err "raw llm call ordinal must be >= 1"
                else parse_raw_loop rest turn_id (Some ordinal) limit
            end
        end
      else
        let number := parse_uint usize_max token in
        match turn_id, number with
        | None, Err _ => parse_raw_loop rest (Some token) llm_call_ordinal limit
        | _, _ =>
            if (limit =? DEFAULT_RAW_CHUNK_LIMIT)%Z then
              match number with
              | Ok limit => parse_raw_loop rest turn_id llm_call_ordinal limit
              | Err error => Err ("invalid raw limit: " +:+ error)
              end
            else Err raw_usage
        end
  end.

Definition parse_raw_command_args (args : list string)
    : result string (RawCommandMode * option string * option Z * Z) :=
  let '(mode, remaining) :=
    match args with
    | value :: rest => if eq_ignore_ascii_case value "diff" then (Diff, rest) else (Chunks, args)
    | [] => (Chunks, args)
    end in
  '(turn_id, llm_call_ordinal, limit) ← parse_raw_loop remaining None None DEFAULT_RAW_CHUNK_LIMIT;
  Ok (mode, turn_id, llm_call_ordinal, limit).

Definition latest_raw_turn (turns : list TurnInspection) (current_branch_id : BranchId) : option TurnInspection :=
  match List.find (fun turn => bool_decide (ti_branch_id turn = current_branch_id)) (rev turns) with
  | Some turn => Some turn
  | None => last turns
  end.

Definition resolve_raw_turn_selection (show_uuid : N -> string) (turns : list TurnInspection)
    (current_branch_id : BranchId) (selection : option string) : result string TurnInspection :=
  match turns with
  | [] => Err "No turns recorded yet."
  | _ =>
      match selection with
      | Some selection =>
          if eq_ignore_ascii_case selection "latest"
          then ok_or "No turns recorded yet." (latest_raw_turn turns current_branch_id)
          else ok_or ("Unknown turn `" +:+ selection +:+ "`.")
                 (List.find (fun turn =>
                    let turn_id := show_uuid (uuid (ti_turn_id turn)) in
                    String.eqb turn_id selection || String.eqb (short_id_string turn_id) selection) turns)
      | None => ok_or "No turns recorded yet." (latest_raw_turn turns current_branch_id)
      end
  end.
