(* ===== verification/Composer.v ===== *)
(** * The composer ([crates/bt-tui/src/input_editor.rs])

    The line editor of the terminal interface: a text with a cursor, a kill
    buffer, the browsing of the messages sent, the menu of slash commands and
    the choices that approvals and questions offer, and the dispatch of keys
    to all of them.  A panic (a slice inside a character) is [None].  Of the
    application's state ([ChatApp], [main.rs]) the record holds what these
    functions read and write; a request they start is recorded in
    [t_started], its completion belongs to the event loop. *)

From stdpp Require Import base list strings.
From Stdlib Require Import ZArith Lia Ascii.
From S2P Require Import Prelude Text Json Types Messages TextUtils Commands.

#[local] Open Scope nat_scope.

(** ** State *)

Record ComposerState : Type := MkComposer {
  c_input : string;
  c_cursor : nat;
  c_preferred_column : option nat;
  c_kill_buffer : string;
  c_history_browse_index : option nat;
  c_history_browse_draft : option string;
  c_view_width : nat;
}.

(** [BottomShellState] without the width of its panel. *)
Record BottomShellState : Type := MkBottomShell {
  b_command_menu_selection : nat;
  b_command_menu_scroll_top : nat;
  b_approval_menu_selection : nat;
  b_question_choice_selection : nat;
}.

Inductive SessionRuntimeState : Type := Idle | Working | WaitingOnInput | WaitingOnApproval | CancelRequested.

(** [PendingInputInspection], the fields the composer reads. *)
Record PendingInput : Type := MkPendingInput {
  pi_call_id : ToolCallId;
  pi_choices : list string;
}.

(** A request the composer starts. *)
Inductive StartedRequest : Type :=
  | AnswerTool (call_id : ToolCallId) (response : Value)
  | SendMessage (text : string)
  | SubmitInBackground (preview text : string)
  | RunShellCommand (raw_input command : string).

(** The requests and the turn: whether [pending_send], [pending_approval]
    and [pending_session_load] hold a task, the pending approvals and
    questions, the state of [queue_inspection], [active_turn.live] and
    [active_turn.optimistic_user_text]. *)
Record TurnStatus : Type := MkTurnStatus {
  t_pending_approvals : list ToolCallId;
  t_pending_inputs : list PendingInput;
  t_pending_approval : bool;
  t_pending_send : bool;
  t_pending_session_load : bool;
  t_pending_shell_command : option string;
  t_queue_state : option SessionRuntimeState;
  t_live : bool;
  t_optimistic_user_text : option string;
  t_cancel_requested : bool;
  t_task_status : option (string * option string);
  t_started : list StartedRequest;
}.

Record ChatApp : Type := MkChatApp {
  composer : ComposerState;
  bottom_shell : BottomShellState;
  menu : MenuSource;
  messages : list Message;
  turn : TurnStatus;
  should_quit : bool;
  pending_escape_prefix_at : option Z;
  notice : option string;
}.

Definition set_composer (c : ComposerState) (app : ChatApp) : ChatApp :=
  MkChatApp c (bottom_shell app) (menu app) (messages app) (turn app) (should_quit app)
    (pending_escape_prefix_at app) (notice app).
Definition set_bottom_shell (b : BottomShellState) (app : ChatApp) : ChatApp :=
  MkChatApp (composer app) b (menu app) (messages app) (turn app) (should_quit app)
    (pending_escape_prefix_at app) (notice app).
Definition set_turn (t : TurnStatus) (app : ChatApp) : ChatApp :=
  MkChatApp (composer app) (bottom_shell app) (menu app) (messages app) t (should_quit app)
    (pending_escape_prefix_at app) (notice app).
Definition quit (app : ChatApp) : ChatApp :=
  MkChatApp (composer app) (bottom_shell app) (menu app) (messages app) (turn app) true
    (pending_escape_prefix_at app) (notice app).
Definition set_escape (at_ : option Z) (app : ChatApp) : ChatApp :=
  MkChatApp (composer app) (bottom_shell app) (menu app) (messages app) (turn app) (should_quit app)
    at_ (notice app).
(** [show_notice]; when it expires belongs to the drawing. *)
Definition show_notice (text : string) (app : ChatApp) : ChatApp :=
  MkChatApp (composer app) (bottom_shell app) (menu app) (messages app) (turn app) (should_quit app)
    (pending_escape_prefix_at app) (Some text).

Definition set_text (input : string) (cursor : nat) (c : ComposerState) : ComposerState :=
  MkComposer input cursor (c_preferred_column c) (c_kill_buffer c) (c_history_browse_index c)
    (c_history_browse_draft c) (c_view_width c).
Definition set_preferred (column : option nat) (c : ComposerState) : ComposerState :=
  MkComposer (c_input c) (c_cursor c) column (c_kill_buffer c) (c_history_browse_index c)
    (c_history_browse_draft c) (c_view_width c).
Definition set_killed (killed : string) (c : ComposerState) : ComposerState :=
  MkComposer (c_input c) (c_cursor c) (c_preferred_column c) killed (c_history_browse_index c)
    (c_history_browse_draft c) (c_view_width c).
Definition set_history (index : option nat) (draft : option string) (c : ComposerState) : ComposerState :=
  MkComposer (c_input c) (c_cursor c) (c_preferred_column c) (c_kill_buffer c) index draft (c_view_width c).

(** [clear_composer_preferred_column], [clear_input_history_browse] *)
Definition clear_composer_preferred_column (c : ComposerState) : ComposerState := set_preferred None c.
Definition clear_input_history_browse (c : ComposerState) : ComposerState := set_history None None c.

Definition initial_composer : ComposerState := MkComposer "" 0 None "" None None 0.
Definition initial_bottom_shell : BottomShellState := MkBottomShell 0 0 0 0.

(** ** Keys *)

Inductive KeyCode : Type :=
  | KeyEsc | KeyEnter | KeyTab | KeyUp | KeyDown | KeyBackspace | KeyDelete | KeyLeft | KeyRight
  | KeyPageUp | KeyPageDown | KeyHome | KeyEnd | KeyChar (ch : string) | KeyOther.
#[export] Instance KeyCode_eq_dec : EqDecision KeyCode.
Proof. solve_decision. Defined.

(** The set of modifiers held. *)
Record KeyModifiers : Type := MkModifiers {
  m_shift : bool; m_control : bool; m_alt : bool; m_super : bool; m_hyper : bool; m_meta : bool;
}.
#[export] Instance KeyModifiers_eq_dec : EqDecision KeyModifiers.
Proof. solve_decision. Defined.
Definition NONE : KeyModifiers := MkModifiers false false false false false false.
Definition SHIFT : KeyModifiers := MkModifiers true false false false false false.
Definition CONTROL : KeyModifiers := MkModifiers false true false false false false.
Definition ALT : KeyModifiers := MkModifiers false false true false false false.

Record KeyEvent : Type := MkKey { k_code : KeyCode; k_modifiers : KeyModifiers }.

Inductive BoundKeyAction : Type :=
  | ActEscape | ActCancelOrQuit | ActSubmit | ActComplete | ActHistoryUp | ActHistoryDown | ActBackspace
  | ActDeleteChar | ActDeleteWordRight | ActMoveCursorLeft | ActMoveCursorRight | ActRefresh
  | ActPreviousSession | ActNextSession | ActNewSession | ActCreateBranch | ActMoveCursorStart
  | ActMoveCursorEnd | ActKillAfterCursor | ActKillBeforeCursor | ActDeleteWordLeft | ActKillWordLeft
  | ActMoveWordLeft | ActMoveWordRight | ActInsertNewline | ActPreviousBranch | ActNextBranch | ActYank.

Record KeyBinding : Type := MkKeyBinding {
  kb_code : KeyCode;
  kb_modifiers : KeyModifiers;
  kb_action : BoundKeyAction;
}.

(** The characters [\u{7f}] and [\u{8}]. *)
Definition delete_char : string := String (ascii_of_nat 127) "".
Definition backspace_char : string := String (ascii_of_nat 8) "".

Definition KEY_BINDINGS : list KeyBinding := [
  MkKeyBinding KeyEsc NONE ActEscape;
  MkKeyBinding (KeyChar "c") CONTROL ActCancelOrQuit;
  MkKeyBinding KeyEnter NONE ActSubmit;
  MkKeyBinding KeyTab NONE ActComplete;
  MkKeyBinding KeyUp NONE ActHistoryUp;
  MkKeyBinding KeyDown NONE ActHistoryDown;
  MkKeyBinding KeyBackspace NONE ActBackspace;
  MkKeyBinding KeyBackspace ALT ActDeleteWordLeft;
  MkKeyBinding (KeyChar delete_char) ALT ActDeleteWordLeft;
  MkKeyBinding (KeyChar backspace_char) ALT ActDeleteWordLeft;
  MkKeyBinding KeyDelete NONE ActDeleteChar;
  MkKeyBinding KeyDelete ALT ActDeleteWordRight;
  MkKeyBinding KeyLeft NONE ActMoveCursorLeft;
  MkKeyBinding KeyLeft ALT ActMoveWordLeft;
  MkKeyBinding KeyRight NONE ActMoveCursorRight;
  MkKeyBinding KeyRight ALT ActMoveWordRight;
  MkKeyBinding (KeyChar "l") CONTROL ActRefresh;
  MkKeyBinding (KeyChar "p") CONTROL ActPreviousSession;
  MkKeyBinding (KeyChar "n") CONTROL ActNextSession;
  MkKeyBinding (KeyChar "t") CONTROL ActNewSession;
  MkKeyBinding (KeyChar "b") CONTROL ActCreateBranch;
  MkKeyBinding (KeyChar "a") CONTROL ActMoveCursorStart;
  MkKeyBinding (KeyChar "e") CONTROL ActMoveCursorEnd;
  MkKeyBinding (KeyChar "k") CONTROL ActKillAfterCursor;
  MkKeyBinding (KeyChar "u") CONTROL ActKillBeforeCursor;
  MkKeyBinding (KeyChar "w") CONTROL ActKillWordLeft;
  MkKeyBinding (KeyChar "y") CONTROL ActYank;
  MkKeyBinding (KeyChar "b") ALT ActMoveWordLeft;
  MkKeyBinding (KeyChar "f") ALT ActMoveWordRight;
  MkKeyBinding KeyEnter SHIFT ActInsertNewline;
  MkKeyBinding KeyEnter ALT ActInsertNewline;
  MkKeyBinding (KeyChar "j") CONTROL ActInsertNewline;
  MkKeyBinding (KeyChar "[") NONE ActPreviousBranch;
  MkKeyBinding (KeyChar "]") NONE ActNextBranch].

Definition word_modifier_pressed (modifiers : KeyModifiers) : bool :=
  m_alt modifiers || m_meta modifiers || m_super modifiers || m_hyper modifiers.

Definition is_rubout (code : KeyCode) : bool :=
  match code with
  | KeyBackspace => true
  | KeyChar ch => String.eqb ch delete_char || String.eqb ch backspace_char
  | _ => false
  end.

Definition modified_word_edit_action (key : KeyEvent) : option BoundKeyAction :=
  if negb (word_modifier_pressed (k_modifiers key)) then None
  else if is_rubout (k_code key) then Some ActDeleteWordLeft
  else match k_code key with
       | KeyDelete => Some ActDeleteWordRight
       | KeyLeft => Some ActMoveWordLeft
       | KeyRight => Some ActMoveWordRight
       | KeyChar ch =>
           if String.eqb ch "b" then Some ActMoveWordLeft
           else if String.eqb ch "f" then Some ActMoveWordRight else None
       | _ => None
       end.

Definition bound_action_for_key (key : KeyEvent) : option BoundKeyAction :=
  match modified_word_edit_action key with
  | Some action => Some action
  | None =>
      binding ← List.find (fun binding =>
        bool_decide (kb_code binding = k_code key) && bool_decide (kb_modifiers binding = k_modifiers key)) KEY_BINDINGS;
      Some (kb_action binding)
  end.

Definition is_plain_escape_key (key : KeyEvent) : bool :=
  match k_code key with KeyEsc => bool_decide (k_modifiers key = NONE) | _ => false end.

Definition escape_prefixed_action_for_key (key : KeyEvent) : option BoundKeyAction :=
  if negb (bool_decide (k_modifiers key = NONE)) then None
  else if is_rubout (k_code key) then Some ActDeleteWordLeft else None.

(** Instants and durations in nanoseconds. *)
Definition ESCAPE_PREFIX_TIMEOUT : Z := 50000000.
Definition saturating_since (now earlier : Z) : Z := Z.max 0 (now - earlier).

Definition pending_escape_prefix_poll_delay (app : ChatApp) (now : Z) : option Z :=
  started_at ← pending_escape_prefix_at app;
  Some (Z.max 0 (ESCAPE_PREFIX_TIMEOUT - saturating_since now started_at))%Z.

(** What a key asks of the event loop. *)
Inductive ChatAction : Type :=
  | Send | Refresh | Cancel | ApproveLastPendingOnce | ApproveLastPendingSession | ApproveLastPendingAlways
  | DenyLastPending | PreviousSession | NextSession | NewSession | CreateBranch | PreviousBranch | NextBranch.

Inductive ApprovalMenuChoice : Type := ApproveOnce | ApproveSession | ApproveAlways | Deny.
Definition all_choices : list ApprovalMenuChoice := [ApproveOnce; ApproveSession; ApproveAlways; Deny].
Definition to_chat_action (choice : ApprovalMenuChoice) : ChatAction :=
  match choice with
  | ApproveOnce => ApproveLastPendingOnce
  | ApproveSession => ApproveLastPendingSession
  | ApproveAlways => ApproveLastPendingAlways
  | Deny => DenyLastPending
  end.

(** ** Busy ([app_state.rs]) *)

Definition has_pending_request (t : TurnStatus) : bool := t_pending_send t || t_pending_approval t.
Definition runtime_busy_for_controls (t : TurnStatus) : bool :=
  match t_queue_state t with
  | Some Working | Some WaitingOnInput | Some WaitingOnApproval | Some CancelRequested => true
  | Some Idle | None => false
  end.
Definition turn_is_busy (t : TurnStatus) : bool :=
  has_pending_request t || runtime_busy_for_controls t
  || negb (bool_decide (t_pending_approvals t = [])) || negb (bool_decide (length (t_pending_inputs t) = 0)).

Definition COMMAND_MENU_ROWS : nat := Nat.max (7 - 2) 1.

(** ** Messages sent ([message_render.rs]) *)

Definition user_message_history_entry (message : Message) : option string :=
  match msg_role message with
  | RoleUser =>
      let text := join (nl +:+ nl) (omap (fun part =>
        match part with PText text => Some (trim_end_line_ends text) | _ => None end) (msg_parts message)) in
      if is_blank text then None else Some text
  | _ => None
  end.
Definition sent_user_input_history (app : ChatApp) : list string :=
  omap user_message_history_entry (messages app).

(** ** Lines and rows *)

Definition line_start_for_cursor (text : string) (cursor : nat) : option nat :=
  before ← slice_to cursor text;
  Some (match rfind is_newline before with Some index => index + 1 | None => 0 end).
Definition line_end_for_cursor (text : string) (cursor : nat) : option nat :=
  after ← slice_from cursor text;
  Some (match find is_newline after with Some offset => cursor + offset | None => byte_len text end).

Definition composer_row_text_end (row : WrappedTextRow) : nat := start_byte row + byte_len (row_text row).

(** The rows are in the order of their starts: the partition point is the
    number of rows that start at or before the cursor. *)
Definition composer_visual_row_index (rows : list WrappedTextRow) (cursor : nat) : nat :=
  Nat.min (length (take_while (fun row => start_byte row <=? cursor) rows) - 1) (length rows - 1).

Definition clamp (low high n : nat) : nat := Nat.max low (Nat.min high n).

Section composer.
Context (char_width : string -> option nat) (show_uuid : N -> string) (rfc3339 : OffsetDateTime -> string).

Fixpoint offset_for_column (target_column : nat) (prefix : string) (offset : nat) (cs : list string) : nat :=
  match cs with
  | [] => offset
  | ch :: cs =>
      let prefix := prefix +:+ ch in
      let width := display_width char_width prefix in
      if target_column <? width then offset
      else if width =? target_column then byte_len prefix
      else offset_for_column target_column prefix (byte_len prefix) cs
  end.
Definition byte_offset_for_display_column (line : string) (target_column : nat) : nat :=
  offset_for_column target_column "" 0 (chars line).

(** ** The menu *)

Definition current_command_menu_items (app : ChatApp) : option (list CommandMenuItem) :=
  command_menu_items show_uuid rfc3339 (c_input (composer app)) (menu app).

Definition should_show_command_menu (app : ChatApp) : option bool :=
  let trimmed := trim_start (c_input (composer app)) in
  if negb (starts_with "/" trimmed) then Some false
  else if String.eqb trimmed "/inspect" then Some false
  else
    items ← current_command_menu_items app;
    match items with
    | [] => Some false
    | _ =>
        if ends_with_whitespace trimmed || (1 <? length items) then Some true
        else
          current_prefix ← slice_from (replacement_start trimmed) trimmed;
          Some (existsb (fun item => negb (String.eqb (insert_text item) current_prefix)) items)
    end.

(** The arithmetic of [clamp_command_menu_selection] for a menu of [len]
    items. *)
Definition clamp_menu (len : nat) (b : BottomShellState) : BottomShellState :=
  let selection := if len =? 0 then 0
                   else if len <=? b_command_menu_selection b then len - 1 else b_command_menu_selection b in
  let top := if len =? 0 then 0 else b_command_menu_scroll_top b in
  let top := Nat.min top (len - COMMAND_MENU_ROWS) in
  let top := if len =? 0 then top
             else if selection <? top then selection
             else if top + (COMMAND_MENU_ROWS - 1) <? selection then selection + 1 - COMMAND_MENU_ROWS else top in
  MkBottomShell selection top (b_approval_menu_selection b) (b_question_choice_selection b).
Definition clamp_command_menu_selection (app : ChatApp) : option ChatApp :=
  items ← current_command_menu_items app;
  Some (set_bottom_shell (clamp_menu (length items) (bottom_shell app)) app).

Definition select_menu (selection : nat) (b : BottomShellState) : BottomShellState :=
  MkBottomShell selection (b_command_menu_scroll_top b) (b_approval_menu_selection b) (b_question_choice_selection b).
Definition select_approval (selection : nat) (b : BottomShellState) : BottomShellState :=
  MkBottomShell (b_command_menu_selection b) (b_command_menu_scroll_top b) selection (b_question_choice_selection b).
Definition select_question (selection : nat) (b : BottomShellState) : BottomShellState :=
  MkBottomShell (b_command_menu_selection b) (b_command_menu_scroll_top b) (b_approval_menu_selection b) selection.

Definition select_previous_command_menu_item (app : ChatApp) : option ChatApp :=
  items ← current_command_menu_items app;
  let len := length items in
  if len =? 0 then Some app
  else
    let b := bottom_shell app in
    let selection := if b_command_menu_selection b =? 0 then len - 1 else b_command_menu_selection b - 1 in
    clamp_command_menu_selection (set_bottom_shell (select_menu selection b) app).
Definition select_next_command_menu_item (app : ChatApp) : option ChatApp :=
  items ← current_command_menu_items app;
  let len := length items in
  if len =? 0 then Some app
  else
    let b := bottom_shell app in
    clamp_command_menu_selection (set_bottom_shell (select_menu ((b_command_menu_selection b + 1) mod len) b) app).

(** ** Edits *)

(** The end of an edit: the new text and cursor, the preferred column
    cleared, the menu clamped. *)
Definition finish_edit (c : ComposerState) (input : string) (cursor : nat) (app : ChatApp) : option ChatApp :=
  clamp_command_menu_selection
    (set_composer (clear_composer_preferred_column (set_text input cursor c)) app).

Definition move_cursor (cursor : nat) (app : ChatApp) : ChatApp :=
  let c := composer app in
  set_composer (clear_composer_preferred_column (set_text (c_input c) cursor c)) app.

Definition move_input_cursor_left (app : ChatApp) : ChatApp :=
  move_cursor (previous_char_boundary (c_input (composer app)) (c_cursor (composer app))) app.
Definition move_input_cursor_right (app : ChatApp) : ChatApp :=
  move_cursor (next_char_boundary (c_input (composer app)) (c_cursor (composer app))) app.
Definition move_input_cursor_word_left (app : ChatApp) : option ChatApp :=
  cursor ← previous_word_boundary (c_input (composer app)) (c_cursor (composer app)); Some (move_cursor cursor app).
Definition move_input_cursor_word_right (app : ChatApp) : option ChatApp :=
  cursor ← next_word_boundary (c_input (composer app)) (c_cursor (composer app)); Some (move_cursor cursor app).
Definition move_input_cursor_start (app : ChatApp) : ChatApp := move_cursor 0 app.
Definition move_input_cursor_end (app : ChatApp) : ChatApp := move_cursor (byte_len (c_input (composer app))) app.

Definition insert_input_text (text : string) (app : ChatApp) : option ChatApp :=
  if is_empty text then Some app
  else
    let c := clear_input_history_browse (composer app) in
    input ← insert_str (c_cursor c) text (c_input c);
    finish_edit c input (c_cursor c + byte_len text) app.
Definition insert_input_newline (app : ChatApp) : option ChatApp := insert_input_text nl app.
Definition insert_input_char (ch : string) (app : ChatApp) : option ChatApp := insert_input_text ch app.

(** [text.replace("\r\n", "\n").replace('\r', "\n")] *)
Fixpoint replace_crlf (s : string) : string :=
  match s with
  | "" => ""
  | String a rest =>
      if Ascii.eqb a carriage_return then
        match rest with
        | String b rest' => if Ascii.eqb b newline then String newline (replace_crlf rest')
                            else String a (replace_crlf rest)
        | "" => String a ""
        end
      else String a (replace_crlf rest)
  end.
Fixpoint replace_cr (s : string) : string :=
  match s with
  | "" => ""
  | String a rest => String (if Ascii.eqb a carriage_return then newline else a) (replace_cr rest)
  end.
Definition handle_paste (text : string) (app : ChatApp) : option ChatApp :=
  if is_empty text then Some app else insert_input_text (replace_cr (replace_crlf text)) app.

Definition backspace_input_char (app : ChatApp) : option ChatApp :=
  if c_cursor (composer app) =? 0 then Some app
  else
    let c := clear_input_history_browse (composer app) in
    let start := previous_char_boundary (c_input c) (c_cursor c) in
    input ← replace_range start (c_cursor c) "" (c_input c);
    finish_edit c input start app.
Definition delete_input_char (app : ChatApp) : option ChatApp :=
  if byte_len (c_input (composer app)) <=? c_cursor (composer app) then Some app
  else
    let c := clear_input_history_browse (composer app) in
    let stop := next_char_boundary (c_input c) (c_cursor c) in
    input ← replace_range (c_cursor c) stop "" (c_input c);
    finish_edit c input (c_cursor c) app.
Definition delete_input_word_left (app : ChatApp) : option ChatApp :=
  if c_cursor (composer app) =? 0 then Some app
  else
    let c := clear_input_history_browse (composer app) in
    start ← previous_word_boundary (c_input c) (c_cursor c);
    input ← replace_range start (c_cursor c) "" (c_input c);
    finish_edit c input start app.
Definition delete_input_word_right (app : ChatApp) : option ChatApp :=
  if byte_len (c_input (composer app)) <=? c_cursor (composer app) then Some app
  else
    let c := clear_input_history_browse (composer app) in
    stop ← next_word_boundary (c_input c) (c_cursor c);
    input ← replace_range (c_cursor c) stop "" (c_input c);
    finish_edit c input (c_cursor c) app.

Definition kill_input_range (start stop : nat) (c : ComposerState) : option ComposerState :=
  if stop <=? start then Some c
  else
    removed ← slice start stop (c_input c);
    if is_empty removed then Some c
    else
      input ← replace_range start stop "" (c_input c);
      Some (clear_composer_preferred_column (set_text input (c_cursor c) (set_killed removed c))).

Definition kill_input_word_left (app : ChatApp) : option ChatApp :=
  if c_cursor (composer app) =? 0 then Some app
  else
    let c := clear_input_history_browse (composer app) in
    start ← previous_word_boundary (c_input c) (c_cursor c);
    c ← kill_input_range start (c_cursor c) c;
    finish_edit c (c_input c) start app.

Definition kill_input_after_cursor (app : ChatApp) : option ChatApp :=
  let c := clear_input_history_browse (composer app) in
  let cursor := c_cursor c in
  line_end ← line_end_for_cursor (c_input c) cursor;
  let range := if cursor =? line_end
               then if line_end <? byte_len (c_input c) then Some (cursor, line_end + 1) else None
               else Some (cursor, line_end) in
  c ← match range with Some (start, stop) => kill_input_range start stop c | None => Some c end;
  finish_edit c (c_input c) (c_cursor c) app.

Definition kill_input_before_cursor (app : ChatApp) : option ChatApp :=
  if c_cursor (composer app) =? 0 then Some app
  else
    let c := clear_input_history_browse (composer app) in
    let cursor := c_cursor c in
    line_start ← line_start_for_cursor (c_input c) cursor;
    let new_cursor := if cursor =? line_start then line_start - 1 else line_start in
    let range := if cursor =? line_start
                 then if 0 <? line_start then Some (line_start - 1, line_start) else None
                 else Some (line_start, cursor) in
    c ← match range with Some (start, stop) => kill_input_range start stop c | None => Some c end;
    finish_edit c (c_input c) new_cursor app.

Definition yank_input (app : ChatApp) : option ChatApp :=
  if is_empty (c_kill_buffer (composer app)) then Some app
  else insert_input_text (c_kill_buffer (composer app)) app.

(** ** Moves between rows *)

(** [get_or_insert] *)
Definition or_column (column : nat) (preferred : option nat) : option nat :=
  match preferred with Some _ => preferred | None => Some column end.

(** The target column of a move: the preferred one, or the width of the text
    from [start] to [stop]. *)
Definition column_of (c : ComposerState) (start stop : nat) : option nat :=
  match c_preferred_column c with
  | Some column => Some column
  | None => text ← slice start stop (c_input c); Some (display_width char_width text)
  end.

(** Puts the cursor at the column in the line from [start] to [stop]. *)
Definition place_cursor (c : ComposerState) (start stop column : nat) : option ComposerState :=
  line ← slice start stop (c_input c);
  Some (set_text (c_input c) (start + byte_offset_for_display_column line column)
          (set_preferred (or_column column (c_preferred_column c)) c)).

(** The branch of [move_input_cursor_vertical] for a text of several rows. *)
Definition move_between_rows (rows : list WrappedTextRow) (direction : Z) (c : ComposerState)
    : option (bool * ComposerState) :=
  let cursor := Nat.min (c_cursor c) (byte_len (c_input c)) in
  let current_index := composer_visual_row_index rows cursor in
  current_row ← rows !! current_index;
  target_column ← column_of c (start_byte current_row)
                    (clamp (start_byte current_row) (composer_row_text_end current_row) cursor);
  let to_end cursor' :=
    Some (if cursor =? cursor' then (false, c)
          else (true, clear_composer_preferred_column (set_text (c_input c) cursor' c))) in
  let to_row index :=
    target_row ← rows !! index;
    c ← place_cursor c (start_byte target_row) (composer_row_text_end target_row) target_column;
    Some (true, c) in
  if (direction <? 0)%Z then
    if current_index =? 0 then to_end 0 else to_row (current_index - 1)
  else
    if length rows <=? current_index + 1 then to_end (byte_len (c_input c)) else to_row (current_index + 1).

(** The branch for a text of one row: to the line before or after. *)
Definition move_between_lines (direction : Z) (c : ComposerState) : option (bool * ComposerState) :=
  let input := c_input c in
  let cursor := Nat.min (c_cursor c) (byte_len input) in
  line_start ← line_start_for_cursor input cursor;
  line_end ← line_end_for_cursor input cursor;
  target_column ← column_of c line_start cursor;
  target ← (if (direction <? 0)%Z then
              if line_start =? 0 then Some None
              else
                let previous_end := line_start - 1 in
                before ← slice_to previous_end input;
                Some (Some (match rfind is_newline before with Some index => index + 1 | None => 0 end,
                            previous_end))
            else if byte_len input <=? line_end then Some None
            else
              let next_start := line_end + 1 in
              after ← slice_from next_start input;
              Some (Some (next_start,
                          match find is_newline after with
                          | Some offset => next_start + offset
                          | None => byte_len input
                          end)));
  match target with
  | None => Some (false, c)
  | Some (target_start, target_end) =>
      c ← place_cursor c target_start target_end target_column; Some (true, c)
  end.

Definition move_vertical (direction : Z) (c : ComposerState) : option (bool * ComposerState) :=
  if is_empty (c_input c) then Some (false, c)
  else
    let width := Nat.max (c_view_width c) 1 in
    rows ← wrap_composer_input_with_end_indices char_width (c_input c) width;
    if 1 <? length rows then move_between_rows rows direction c else move_between_lines direction c.
Definition move_input_cursor_vertical (direction : Z) (app : ChatApp) : option (bool * ChatApp) :=
  '(moved, c) ← move_vertical direction (composer app); Some (moved, set_composer c app).

(** ** History *)

Definition browse_input_history (direction : Z) (app : ChatApp) : option ChatApp :=
  let history := sent_user_input_history app in
  match history with
  | [] => Some app
  | _ =>
      let max_index := length history - 1 in
      let c := composer app in
      let '(next_index, c) :=
        match c_history_browse_index c with
        | Some current =>
            (if (direction <? 0)%Z then Some (Nat.min (current + 1) max_index)
             else if current =? 0 then None else Some (current - 1), c)
        | None =>
            if (direction <? 0)%Z then (Some 0, set_history (c_history_browse_index c) (Some (c_input c)) c)
            else (None, c)
        end in
      match next_index with
      | Some index =>
          input ← history !! (max_index - index);
          clamp_command_menu_selection
            (set_composer (set_history (Some index) (c_history_browse_draft c)
               (clear_composer_preferred_column (set_text input (byte_len input) c))) app)
      | None =>
          let c := match c_history_browse_draft c with
                   | Some draft => clear_composer_preferred_column (set_text draft (byte_len draft) c)
                   | None => c
                   end in
          clamp_command_menu_selection (set_composer (set_history None None c) app)
      end
  end.

(** ** Completion *)

(** A text put in place of the range that is completed. *)
Definition complete_with (start stop : nat) (text : string) (app : ChatApp) : option ChatApp :=
  let c := composer app in
  input ← replace_range start stop text (c_input c);
  clamp_command_menu_selection
    (set_composer (clear_input_history_browse
       (clear_composer_preferred_column (set_text input (byte_len input) c))) app).

Definition apply_selected_command_menu_item (app : ChatApp) : option (bool * ChatApp) :=
  items ← current_command_menu_items app;
  match items !! b_command_menu_selection (bottom_shell app) with
  | None => Some (false, app)
  | Some selected =>
      let input := c_input (composer app) in
      let start := replacement_start input in
      current ← slice_from start input;
      if String.eqb current (insert_text selected) then Some (false, app)
      else app ← complete_with start (byte_len input) (insert_text selected) app; Some (true, app)
  end.

Definition apply_input_completion (app : ChatApp) : option ChatApp :=
  '(applied, app) ← apply_selected_command_menu_item app;
  if applied : bool then Some app
  else
    let src := menu app in
    completion ← completion_for_input (c_input (composer app)) (ms_current_connection src)
                   (ms_current_model src) (ms_connections src) (ms_connection_models src);
    match completion with
    | None => Some app
    | Some completion =>
        let '(start, stop) := replacement completion in
        prefix ← slice start stop (c_input (composer app));
        match candidates completion with
        | [candidate] => complete_with start stop candidate app
        | _ =>
            app ← match shared_prefix (candidates completion) with
                  | Some shared =>
                      if byte_len prefix <? byte_len shared then complete_with start stop shared app else Some app
                  | None => Some app
                  end;
            Some (show_notice (completion_candidates_line (candidates completion)) app)
        end
    end.

(** ** Choices *)

Definition question_panel_is_active (app : ChatApp) : bool :=
  negb (has_pending_request (turn app))
  && negb (starts_with "/" (trim_start (c_input (composer app))))
  && negb (length (t_pending_inputs (turn app)) =? 0).
Definition approval_menu_is_active (app : ChatApp) : bool :=
  negb (t_pending_approval (turn app)) && negb (bool_decide (t_pending_approvals (turn app) = [])).

(** The choices of the first pending question. *)
Definition first_choices (app : ChatApp) : list string :=
  match t_pending_inputs (turn app) with pending :: _ => pi_choices pending | [] => [] end.

Definition update_bottom_shell (f : BottomShellState -> BottomShellState) (app : ChatApp) : ChatApp :=
  set_bottom_shell (f (bottom_shell app)) app.

Definition clamp_approval_menu_selection (app : ChatApp) : ChatApp :=
  let len := length all_choices in
  update_bottom_shell (fun b =>
    if bool_decide (t_pending_approvals (turn app) = []) || (len =? 0) then select_approval 0 b
    else if len <=? b_approval_menu_selection b then select_approval (len - 1) b else b) app.
Definition clamp_question_choice_selection (app : ChatApp) : ChatApp :=
  let len := length (first_choices app) in
  update_bottom_shell (fun b =>
    if len =? 0 then select_question 0 b
    else if len <=? b_question_choice_selection b then select_question (len - 1) b else b) app.

Definition select_previous_question_choice (app : ChatApp) : ChatApp :=
  if negb (question_panel_is_active app) || (length (first_choices app) =? 0) then app
  else update_bottom_shell (fun b => select_question (b_question_choice_selection b - 1) b) app.
Definition select_next_question_choice (app : ChatApp) : ChatApp :=
  let len := length (first_choices app) in
  if negb (question_panel_is_active app) || (len =? 0) then app
  else update_bottom_shell (fun b => select_question (Nat.min (b_question_choice_selection b + 1) (len - 1)) b) app.
Definition selected_question_choice (app : ChatApp) : option string :=
  if negb (question_panel_is_active app) then None
  else first_choices app !! b_question_choice_selection (bottom_shell app).

Definition select_previous_approval_choice (app : ChatApp) : ChatApp :=
  if negb (approval_menu_is_active app) then app
  else update_bottom_shell (fun b => select_approval (b_approval_menu_selection b - 1) b) app.
Definition select_next_approval_choice (app : ChatApp) : ChatApp :=
  if negb (approval_menu_is_active app) then app
  else update_bottom_shell (fun b =>
         select_approval (Nat.min (b_approval_menu_selection b + 1) (length all_choices - 1)) b) app.
Definition selected_approval_choice (app : ChatApp) : option ApprovalMenuChoice :=
  if approval_menu_is_active app then all_choices !! b_approval_menu_selection (bottom_shell app) else None.

(** ** Up and down *)

Definition has_question_choices (app : ChatApp) : bool :=
  is_empty (c_input (composer app)) && question_panel_is_active app && negb (length (first_choices app) =? 0).

(** [navigate_up_in_composer] and [navigate_down_in_composer] *)
Definition navigate (direction : Z) (app : ChatApp) : option ChatApp :=
  let up := (direction <? 0)%Z in
  if approval_menu_is_active app then
    Some (if up then select_previous_approval_choice app else select_next_approval_choice app)
  else
    shown ← should_show_command_menu app;
    in_menu ← (if shown : bool then items ← current_command_menu_items app; Some (negb (length items =? 0))
               else Some false);
    if in_menu : bool then
      if up then select_previous_command_menu_item app else select_next_command_menu_item app
    else if has_question_choices app then
      Some (if up then select_previous_question_choice app else select_next_question_choice app)
    else
      '(moved, app) ← match c_history_browse_index (composer app) with
                      | None => move_input_cursor_vertical direction app
                      | Some _ => Some (false, app)
                      end;
      if moved : bool then Some app else browse_input_history direction app.
Definition navigate_up_in_composer (app : ChatApp) : option ChatApp := navigate (-1) app.
Definition navigate_down_in_composer (app : ChatApp) : option ChatApp := navigate 1 app.

(** ** Rows shown *)

Definition view_width (c : ComposerState) : nat := Nat.max (c_view_width c) 1.
Definition input_cursor_position (c : ComposerState) : option (nat * nat) :=
  wrapped_composer_cursor_position char_width (c_input c) (c_cursor c) (view_width c).
Definition input_visual_lines (c : ComposerState) : option (list string) :=
  wrap_composer_input char_width (c_input c) (view_width c).
Definition input_line_count (c : ComposerState) : option nat :=
  '(_, cursor_row) ← input_cursor_position c;
  lines ← input_visual_lines c;
  Some (Nat.min (Nat.max (length lines) (cursor_row + 1)) u16_max).
(** [INPUT_PANEL_MIN_HEIGHT] is 1 and [INPUT_PANEL_MAX_HEIGHT] is 10. *)
Definition input_panel_height (c : ComposerState) : option nat :=
  count ← input_line_count c; Some (clamp 1 10 count).

(** The lines, the row scrolled to and the height. *)
Definition visible_input_lines (c : ComposerState) : option (list string * nat * nat) :=
  lines ← input_visual_lines c;
  '(_, cursor_row) ← input_cursor_position c;
  let lines := lines ++ repeat "" (cursor_row + 1 - length lines) in
  height ← input_panel_height c;
  let content_height := Nat.max height 1 in
  let scroll_row := cursor_row - (content_height - 1) in
  let stop := Nat.min (scroll_row + content_height) (length lines) in
  let visible := if scroll_row <? stop then take (stop - scroll_row) (drop scroll_row lines) else [""] in
  Some (visible, scroll_row, content_height).

(** ** Dispatch of keys *)

Definition handle_escape (app : ChatApp) : ChatApp :=
  if turn_is_busy (turn app)
  then show_notice "Turn still active. Use /detach to leave it running or Ctrl-C to cancel." app
  else quit app.

Definition flush_pending_escape_prefix_if_expired (app : ChatApp) (now : Z) : ChatApp :=
  match pending_escape_prefix_at app with
  | None => app
  | Some started_at =>
      if (saturating_since now started_at <? ESCAPE_PREFIX_TIMEOUT)%Z then app
      else handle_escape (set_escape None app)
  end.

Definition submit_from_composer (app : ChatApp) : option (option ChatAction * ChatApp) :=
  match selected_approval_choice app with
  | Some choice => Some (Some (to_chat_action choice), app)
  | None =>
      if starts_with "/" (trim_start (c_input (composer app))) then
        '(applied, app) ← apply_selected_command_menu_item app;
        Some (if applied : bool then None else Some Send, app)
      else Some (Some Send, app)
  end.

Definition quietly (app : option ChatApp) : option (option ChatAction * ChatApp) :=
  app ← app; Some (None, app).
Definition ask (action : ChatAction) (app : ChatApp) : option (option ChatAction * ChatApp) :=
  Some (Some action, app).

Definition apply_bound_key_action (action : BoundKeyAction) (app : ChatApp)
    : option (option ChatAction * ChatApp) :=
  match action with
  | ActEscape => quietly (Some (handle_escape app))
  | ActCancelOrQuit => if turn_is_busy (turn app) then ask Cancel app else quietly (Some (quit app))
  | ActSubmit => submit_from_composer app
  | ActComplete => quietly (apply_input_completion app)
  | ActHistoryUp => quietly (navigate_up_in_composer app)
  | ActHistoryDown => quietly (navigate_down_in_composer app)
  | ActBackspace => quietly (backspace_input_char app)
  | ActDeleteChar => quietly (delete_input_char app)
  | ActDeleteWordRight => quietly (delete_input_word_right app)
  | ActMoveCursorLeft => quietly (Some (move_input_cursor_left app))
  | ActMoveCursorRight => quietly (Some (move_input_cursor_right app))
  | ActRefresh => ask Refresh app
  | ActPreviousSession => ask PreviousSession app
  | ActNextSession => ask NextSession app
  | ActNewSession => ask NewSession app
  | ActCreateBranch => ask CreateBranch app
  | ActMoveCursorStart => quietly (Some (move_input_cursor_start app))
  | ActMoveCursorEnd => quietly (Some (move_input_cursor_end app))
  | ActKillAfterCursor => quietly (kill_input_after_cursor app)
  | ActKillBeforeCursor => quietly (kill_input_before_cursor app)
  | ActDeleteWordLeft => quietly (delete_input_word_left app)
  | ActKillWordLeft => quietly (kill_input_word_left app)
  | ActMoveWordLeft => quietly (move_input_cursor_word_left app)
  | ActMoveWordRight => quietly (move_input_cursor_word_right app)
  | ActInsertNewline => quietly (insert_input_newline app)
  | ActPreviousBranch => ask PreviousBranch app
  | ActNextBranch => ask NextBranch app
  | ActYank => quietly (yank_input app)
  end.

Definition handle_key_without_escape_prefix (key : KeyEvent) (app : ChatApp)
    : option (option ChatAction * ChatApp) :=
  match bound_action_for_key key with
  | Some bound => apply_bound_key_action bound app
  | None =>
      match k_code key with
      | KeyChar ch => quietly (insert_input_char ch app)
      | _ => Some (None, app)
      end
  end.

Definition handle_key (now : Z) (key : KeyEvent) (app : ChatApp) : option (option ChatAction * ChatApp) :=
  let app := flush_pending_escape_prefix_if_expired app now in
  if should_quit app then Some (None, app)
  else
    match pending_escape_prefix_at app with
    | Some _ =>
        let app := set_escape None app in
        match escape_prefixed_action_for_key key with
        | Some bound => apply_bound_key_action bound app
        | None =>
            let app := handle_escape app in
            if should_quit app then Some (None, app) else handle_key_without_escape_prefix key app
        end
    | None =>
        if is_plain_escape_key key then Some (None, set_escape (Some now) app)
        else handle_key_without_escape_prefix key app
    end.

(** ** Sending *)

Definition set_status (header : string) (detail : option string) (t : TurnStatus) : TurnStatus :=
  MkTurnStatus (t_pending_approvals t) (t_pending_inputs t) (t_pending_approval t) (t_pending_send t)
    (t_pending_session_load t) (t_pending_shell_command t) (t_queue_state t) (t_live t)
    (t_optimistic_user_text t) (t_cancel_requested t)
    (Some (header, detail ← detail; if is_blank detail then None else Some detail)) (t_started t).

(** A request is started: its task is recorded, and [pending_send] when
    [waits], [active_turn.live] when [live]. *)
Definition start (request : StartedRequest) (waits live : bool) (shell optimistic : option string)
    (t : TurnStatus) : TurnStatus :=
  MkTurnStatus (t_pending_approvals t) (t_pending_inputs t) (t_pending_approval t) (waits || t_pending_send t)
    (t_pending_session_load t) shell (t_queue_state t) (live || t_live t) optimistic
    (t_cancel_requested t) (t_task_status t) (t_started t ++ [request]).

Definition effective_model (app : ChatApp) : string := default "default model" (ms_current_model (menu app)).

Definition start_answer_pending_input (response : Value) (app : ChatApp) : ChatApp :=
  let t := turn app in
  if t_pending_send t then show_notice "Wait for the current question answer to finish." app
  else match t_pending_inputs t with
       | [] => show_notice "No pending question." app
       | pending :: _ =>
           set_turn (start (AnswerTool (pi_call_id pending) response) true true (t_pending_shell_command t)
             (t_optimistic_user_text t)
             (set_status "Working" (Some ("answering question " +:+ short_id_string (call_name (pi_call_id pending)))) t))
             app
       end.

Definition start_send_text (text : string) (app : ChatApp) : ChatApp :=
  set_turn (start (SendMessage text) true true None (Some text)
    (set_status "Working" (Some (connection_name (ms_current_connection (menu app)) +:+ " ("
       +:+ effective_model app +:+ ")")) (turn app))) app.

Definition start_background_message_submission (text : string) (app : ChatApp) : ChatApp :=
  let t := turn app in
  set_turn (start (SubmitInBackground (truncate_detail text) text) false false (t_pending_shell_command t)
    (t_optimistic_user_text t) t) app.

Definition start_shell_command (raw_input : string) (app : ChatApp) : ChatApp :=
  let command := trim (trim_start_char "!" raw_input) in
  set_turn (start (RunShellCommand raw_input command) true false (Some command) (t_optimistic_user_text (turn app))
    (set_status "Running" (Some ("!" +:+ command)) (turn app))) app.

Definition clear_composer (app : ChatApp) : ChatApp :=
  set_composer (clear_input_history_browse (clear_composer_preferred_column (set_text "" 0 (composer app)))) app.

(** [send_input]: the command line handed to [handle_command], when the text
    is a slash command. *)
Definition send_input (app : ChatApp) : option string * ChatApp :=
  let t := turn app in
  if t_pending_session_load t then (None, show_notice "Wait for the session switch to finish." app)
  else
    let text := trim_end_line_ends (c_input (composer app)) in
    if is_blank text then
      match selected_question_choice app with
      | Some choice =>
          (None, if t_pending_send t then show_notice "Wait for the current question answer to finish." app
                 else start_answer_pending_input (VString choice) app)
      | None => (None, app)
      end
    else if starts_with "/" (trim_start text) then
      let command_head := default "" (head (split_whitespace (trim_start_char "/" (trim_start text)))) in
      let allow_during_request :=
        match resolve_command command_head with
        | Ok command => command_allowed_during_request command
        | Err _ => false
        end in
      if turn_is_busy t && negb allow_during_request
      then (None, show_notice "Wait for the current request before running that command." app)
      else (Some text, clear_composer app)
    else
      let app := clear_composer app in
      (None,
       if negb (length (t_pending_inputs t) =? 0) then
         if t_pending_send t then show_notice "Wait for the current question answer to finish." app
         else start_answer_pending_input (VString text) app
       else if is_operator_shell_input text then
         if turn_is_busy t || bool_decide (is_Some (t_pending_shell_command t))
         then show_notice "Operator shell commands do not enter the session queue. Wait for the current request to finish." app
         else start_shell_command text app
       else if bool_decide (is_Some (t_pending_shell_command t))
       then show_notice "Wait for the current operator shell command to finish." app
       else if t_pending_send t || t_pending_approval t || turn_is_busy t || t_live t || t_cancel_requested t
       then start_background_message_submission text app
       else start_send_text text app).

End composer.
