(* ===== verification/ComposerLaws.v ===== *)
(** * The composer edits a list of characters

    The byte offsets of the composer ([Composer]) against a zipper: the
    characters before the cursor, those after it and those last killed.
    Every edit is the edit of the zipper; the only panic is the one of the
    command menu, when the last white space of a slash command takes more
    than one byte and does not end it. *)

From stdpp Require Import base list strings sorting.
From Stdlib Require Import ZArith Lia.
From S2P Require Import Prelude Text Json Types Messages TextUtils TextWrap Commands Composer.

#[local] Open Scope nat_scope.

(** ** Texts of given characters *)

Section texts.
(** The characters allowed, beside being whole ones. *)
Context (good : string -> Prop).

Definition ok_char (c : string) : Prop := char_shape c /\ good c.
Definition ok_chars (cs : list string) : Prop := Forall ok_char cs.
Definition ok_text (s : string) : Prop := exists cs, s = concat_str cs /\ ok_chars cs.

Lemma ok_shape cs : ok_chars cs -> Forall char_shape cs.
Proof. intros H. eapply Forall_impl; [exact H|]. by intros c []. Qed.
Lemma ok_app a b : ok_chars (a ++ b) <-> ok_chars a /\ ok_chars b.
Proof. apply Forall_app. Qed.
Lemma ok_text_chars s : ok_text s -> ok_chars (chars s).
Proof. intros (cs & -> & H). rewrite chars_concat; [done|by apply ok_shape]. Qed.
Lemma ok_text_concat cs : ok_chars cs -> ok_text (concat_str cs).
Proof. intros H. by exists cs. Qed.
Lemma ok_text_app s t : ok_text s -> ok_text t -> ok_text (s +:+ t).
Proof.
  intros (cs & -> & H) (ds & -> & H'). exists (cs ++ ds).
  split; [by rewrite concat_str_app|by apply ok_app].
Qed.
Lemma ok_text_empty : ok_text "".
Proof. exists []. split; [done|constructor]. Qed.
End texts.

(** ** The zipper *)

Record Zipper : Type := MkZipper {
  z_before : list string;
  z_after : list string;
  z_killed : list string;
}.
Definition z_text (z : Zipper) : list string := z_before z ++ z_after z.

Definition in_line (c : string) : bool := negb (is_newline c).

Inductive Edit : Type :=
  | EInsert (cs : list string) | EYank | EBackspace | EDelete
  | EDeleteWordLeft | EDeleteWordRight | EKillWordLeft | EKillAfter | EKillBefore
  | ELeft | ERight | EWordLeft | EWordRight | EStart | EEnd.

(** [n] characters before the cursor taken away, or killed; the same after
    it; the cursor moved back or forth over [n] characters. *)
Definition take_last (n : nat) (l : list string) : list string := drop (length l - n) l.
Definition drop_last (n : nat) (l : list string) : list string := take (length l - n) l.
Definition cut_before (n : nat) (z : Zipper) : Zipper := MkZipper (drop_last n (z_before z)) (z_after z) (z_killed z).
Definition cut_after (n : nat) (z : Zipper) : Zipper := MkZipper (z_before z) (drop n (z_after z)) (z_killed z).
Definition kill_before (n : nat) (z : Zipper) : Zipper :=
  if n =? 0 then z else MkZipper (drop_last n (z_before z)) (z_after z) (take_last n (z_before z)).
Definition kill_after (n : nat) (z : Zipper) : Zipper :=
  if n =? 0 then z else MkZipper (z_before z) (drop n (z_after z)) (take n (z_after z)).
Definition go_back (n : nat) (z : Zipper) : Zipper :=
  MkZipper (drop_last n (z_before z)) (take_last n (z_before z) ++ z_after z) (z_killed z).
Definition go_forth (n : nat) (z : Zipper) : Zipper :=
  MkZipper (z_before z ++ take n (z_after z)) (drop n (z_after z)) (z_killed z).

(** How far words and lines reach. *)
Definition word_before (l : list string) : nat := length l - length (before_word l).
Definition word_after (r : list string) : nat := length (next_word r).
Definition line_before (l : list string) : nat := Nat.max 1 (length l - length (drop_while_end in_line l)).
Definition line_after (r : list string) : nat := Nat.max 1 (length (take_while in_line r)).

Definition zip_edit (e : Edit) (z : Zipper) : Zipper :=
  match e with
  | EInsert cs => MkZipper (z_before z ++ cs) (z_after z) (z_killed z)
  | EYank => MkZipper (z_before z ++ z_killed z) (z_after z) (z_killed z)
  | EBackspace => cut_before 1 z
  | EDelete => cut_after 1 z
  | EDeleteWordLeft => cut_before (word_before (z_before z)) z
  | EDeleteWordRight => cut_after (word_after (z_after z)) z
  | EKillWordLeft => kill_before (word_before (z_before z)) z
  | EKillAfter => match z_after z with [] => z | _ => kill_after (line_after (z_after z)) z end
  | EKillBefore => match z_before z with [] => z | _ => kill_before (line_before (z_before z)) z end
  | ELeft => go_back 1 z
  | ERight => go_forth 1 z
  | EWordLeft => go_back (word_before (z_before z)) z
  | EWordRight => go_forth (word_after (z_after z)) z
  | EStart => go_back (length (z_before z)) z
  | EEnd => go_forth (length (z_after z)) z
  end.

(** ** The one panic *)

(** The last white space of a text takes several bytes and is not at its
    end; [trapped]: of a slash command. *)
Lemma last_match_unique {A} (p : A -> bool) l c r : forall l' c' r',
  l ++ c :: r = l' ++ c' :: r' -> p c = true -> p c' = true ->
  Forall (fun x => p x = false) r -> Forall (fun x => p x = false) r' -> l = l' /\ c = c' /\ r = r'.
Proof.
  induction l as [|x l IH]; intros [|y l'] c' r' H Hc Hc' Hr Hr'; simpl in H; injection H as -> H.
  - done.
  - rewrite H, Forall_app, Forall_cons in Hr. destruct Hr as (_ & Hr & _). congruence.
  - rewrite <- H, Forall_app, Forall_cons in Hr'. destruct Hr' as (_ & Hr' & _). congruence.
  - by destruct (IH _ _ _ H Hc Hc' Hr Hr') as (-> & -> & ->).
Qed.

Definition wide_last_space (cs : list string) : Prop :=
  exists l c r, cs = l ++ c :: r /\ is_whitespace c = true /\ 1 < byte_len c
    /\ r <> [] /\ Forall (fun x => is_whitespace x = false) r.

Definition trapped (cs : list string) : Prop :=
  starts_with "/" (concat_str cs) = true /\ wide_last_space cs.

(** [rfind], [+ 1] and the slices of the text: they panic exactly there. *)
Lemma split_input_total cs :
  Forall char_shape cs ->
  match split_input (concat_str cs) with None => wide_last_space cs | Some _ => ~ wide_last_space cs end.
Proof.
  intros Hsh. unfold split_input, replacement_start, ends_with_whitespace, rfind.
  rewrite chars_concat by done. change (byte_len (concat_str cs)) with (str_len cs).
  assert (Hat : forall l r, cs = l ++ r ->
    slice_from (str_len l) (concat_str cs) = Some (concat_str r)
    /\ slice_to (str_len l) (concat_str cs) = Some (concat_str l)).
  { intros l r ->. apply Forall_app in Hsh as [Hl Hr]. split; [by apply slice_from_chars|by apply slice_to_chars]. }
  destruct (last cs) as [c|] eqn:Hlast.
  2:{ apply last_None in Hlast as ->. cbn. intros (l & c & r & H & _). by destruct l. }
  apply last_Some in Hlast as [l Hcs].
  destruct (is_whitespace c) eqn:Hws.
  - destruct (Hat cs []) as [H1 H2]; [by rewrite app_nil_r|]. cbv iota. rewrite H1, H2. cbn.
    intros (l' & c' & r' & Hcs' & Hc' & _ & Hr' & Hno). destruct (exists_last Hr') as (r0 & x & ->).
    rewrite Hcs in Hcs'. rewrite app_comm_cons, app_assoc in Hcs'. apply app_inj_tail in Hcs' as [_ ->].
    apply Forall_app in Hno as [_ Hno]. inversion_clear Hno. congruence.
  - destruct (rfind_from is_whitespace 0 cs) as [i|] eqn:Hr.
    + apply rfind_from_Some in Hr as (l' & c' & r & Hcs' & -> & Hc' & Hno).
      assert (r <> []) as Hne.
      { intros ->. rewrite Hcs in Hcs'. apply app_inj_tail in Hcs' as [_ ->]. congruence. }
      assert (char_shape c') as Hsh'.
      { rewrite Hcs', Forall_app, Forall_cons in Hsh. tauto. }
      pose proof (char_shape_len c' Hsh'). destruct (decide (1 < byte_len c')) as [Hwide|Hone].
      * assert (slice_from (0 + str_len l' + 1) (concat_str cs) = None) as ->.
        { unfold slice_from, slice. rewrite Hcs'. simpl (0 + _). rewrite boundary_inside by (done || lia).
          by rewrite andb_false_r. }
        by exists l', c', r.
      * destruct (Hat (l' ++ [c']) r) as [H1 H2]; [by rewrite <- app_assoc|].
        rewrite str_len_app, str_len_cons in H1, H2. change (str_len []) with 0 in H1, H2.
        replace (byte_len c' + 0) with 1 in H1, H2 by lia. simpl (0 + _). rewrite H1, H2. cbn.
        intros (l2 & c2 & r2 & Hcs2 & Hc2 & Hw2 & _ & Hno2). rewrite Hcs' in Hcs2.
        apply (last_match_unique is_whitespace) in Hcs2 as (_ & -> & _); [lia|done..].
    + apply rfind_from_None in Hr. destruct (Hat [] cs) as [H1 H2]; [done|].
      change (str_len []) with 0 in H1, H2. rewrite H1, H2. cbn.
      intros (l' & c' & r & -> & Hc' & _). rewrite Forall_app, Forall_cons in Hr. destruct Hr as (_ & ? & _). congruence.
Qed.

Section editor.
Context (char_width : string -> option nat) (show_uuid : N -> string) (rfc3339 : OffsetDateTime -> string).

Definition run_edit (e : Edit) (app : ChatApp) : option ChatApp :=
  match e with
  | EInsert cs => insert_input_text show_uuid rfc3339 (concat_str cs) app
  | EYank => yank_input show_uuid rfc3339 app
  | EBackspace => backspace_input_char show_uuid rfc3339 app
  | EDelete => delete_input_char show_uuid rfc3339 app
  | EDeleteWordLeft => delete_input_word_left show_uuid rfc3339 app
  | EDeleteWordRight => delete_input_word_right show_uuid rfc3339 app
  | EKillWordLeft => kill_input_word_left show_uuid rfc3339 app
  | EKillAfter => kill_input_after_cursor show_uuid rfc3339 app
  | EKillBefore => kill_input_before_cursor show_uuid rfc3339 app
  | ELeft => Some (move_input_cursor_left app)
  | ERight => Some (move_input_cursor_right app)
  | EWordLeft => move_input_cursor_word_left app
  | EWordRight => move_input_cursor_word_right app
  | EStart => Some (move_input_cursor_start app)
  | EEnd => Some (move_input_cursor_end app)
  end.

Lemma menu_items_total cs src :
  Forall char_shape cs ->
  match command_menu_items show_uuid rfc3339 (concat_str cs) src with
  | None => trapped cs
  | Some _ => ~ trapped cs
  end.
Proof.
  intros Hsh. unfold command_menu_items, trapped.
  destruct (starts_with "/" (concat_str cs)) eqn:Hslash; cbn [negb]; [|by intros []].
  pose proof (split_input_total cs Hsh) as H. destruct (split_input (concat_str cs)) as [[prefix tokens]|].
  - cbn. destruct tokens; [by intros []|]. by intros [].
  - done.
Qed.

(** What an edit leaves alone. *)
Definition same_rest (app app' : ChatApp) : Prop :=
  menu app' = menu app /\ messages app' = messages app /\ turn app' = turn app
  /\ should_quit app' = should_quit app /\ pending_escape_prefix_at app' = pending_escape_prefix_at app
  /\ notice app' = notice app.

Lemma clamp_total app cs :
  c_input (composer app) = concat_str cs -> Forall char_shape cs ->
  match clamp_command_menu_selection show_uuid rfc3339 app with
  | None => trapped cs
  | Some app' => ~ trapped cs /\ composer app' = composer app /\ same_rest app app'
  end.
Proof.
  intros Hin Hsh. unfold clamp_command_menu_selection, current_command_menu_items.
  pose proof (menu_items_total cs (menu app) Hsh) as H. rewrite Hin.
  destruct (command_menu_items _ _ _ _) as [items|]; [|done]. cbn. by split_and!.
Qed.

Section edits.
Context (good : string -> Prop).

Definition represents (c : ComposerState) (z : Zipper) : Prop :=
  c_input c = concat_str (z_text z) /\ c_cursor c = str_len (z_before z)
  /\ c_kill_buffer c = concat_str (z_killed z)
  /\ ok_chars good (z_before z) /\ ok_chars good (z_after z) /\ ok_chars good (z_killed z).

(** The draft kept while the history is browsed stays or goes. *)
Definition kept_draft (app : ChatApp) (c : ComposerState) : Prop :=
  c_history_browse_draft c = None \/ c_history_browse_draft c = c_history_browse_draft (composer app).

(** The outcome of an edit: the state [z], or the panic of the menu. *)
Definition edited (app : ChatApp) (res : option ChatApp) (z : Zipper) : Prop :=
  match res with
  | Some app' => represents (composer app') z /\ same_rest app app' /\ kept_draft app (composer app')
  | None => trapped (z_text z)
  end.

Lemma edited_finish app c z cursor :
  represents (set_text (c_input c) cursor c) z -> kept_draft app c ->
  edited app (finish_edit show_uuid rfc3339 c (c_input c) cursor app) z.
Proof.
  intros (Hin & Hcur & Hkill & Hb & Ha & Hk) Hdraft. unfold finish_edit, edited. cbn in Hin, Hcur, Hkill.
  set (app1 := set_composer _ app).
  pose proof (clamp_total app1 (z_text z) Hin) as H.
  specialize (H (ok_shape _ _ (proj2 (ok_app _ _ _) (conj Hb Ha)))).
  destruct (clamp_command_menu_selection _ _ app1) as [app'|]; [|done].
  destruct H as (_ & Hc & Hrest). split; [|split; [exact Hrest|]]; rewrite Hc; [by split_and!|exact Hdraft].
Qed.

(** A range replaced: the characters [m] between [l] and [r] by [text]. *)
Lemma edited_replace app c l m r text b a k :
  c_input c = concat_str (l ++ m ++ r) -> c_kill_buffer c = concat_str k ->
  ok_chars good (l ++ m ++ r) -> ok_chars good text -> ok_chars good k ->
  l ++ text ++ r = b ++ a -> kept_draft app c ->
  edited app
    (input ← replace_range (str_len l) (str_len l + str_len m) (concat_str text) (c_input c);
     finish_edit show_uuid rfc3339 c input (str_len b) app)
    (MkZipper b a k).
Proof.
  intros Hin Hkill Hok Htext Hk Hba Hdraft. rewrite !ok_app in Hok. destruct Hok as (Hl & Hm & Hr).
  rewrite Hin, replace_range_chars by (by eapply ok_shape). cbn [mbind option_bind].
  rewrite <- !concat_str_app, Hba.
  assert (ok_chars good (b ++ a)) as Hok by (rewrite <- Hba, !ok_app; done).
  apply ok_app in Hok as [Hb Ha].
  pose proof (edited_finish app (set_text (concat_str (b ++ a)) (c_cursor c) c) (MkZipper b a k) (str_len b)) as H.
  apply H; [by split_and!|exact Hdraft].
Qed.

Lemma drop_last_app (l m : list string) : drop_last (length m) (l ++ m) = l.
Proof. unfold drop_last. rewrite length_app. replace (length l + length m - length m) with (length l) by lia. apply take_app_length. Qed.
Lemma take_last_app (l m : list string) : take_last (length m) (l ++ m) = m.
Proof. unfold take_last. rewrite length_app. replace (length l + length m - length m) with (length l) by lia. apply drop_app_length. Qed.

Lemma str_len_zero cs : Forall char_shape cs -> str_len cs = 0 -> cs = [].
Proof. intros Hsh H. pose proof (str_len_count cs Hsh). destruct cs; [done|simpl in *; lia]. Qed.
Lemma is_empty_chars cs : Forall char_shape cs -> is_empty (concat_str cs) = bool_decide (cs = []).
Proof.
  intros Hsh. unfold is_empty. destruct (String.eqb_spec (concat_str cs) "") as [He|He].
  - symmetry. apply bool_decide_eq_true. apply str_len_zero; [done|]. unfold str_len. by rewrite He.
  - symmetry. apply bool_decide_eq_false. by intros ->.
Qed.

Lemma edited_unchanged app z : represents (composer app) z -> edited app (Some app) z.
Proof. intros H. split_and!; try done. by right. Qed.

(** The texts an edit cuts: before the cursor, and after it. *)
Lemma edited_cut_before app l m a k :
  represents (composer app) (MkZipper (l ++ m) a k) ->
  edited app
    (input ← replace_range (str_len l) (c_cursor (composer app)) "" (c_input (composer app));
     finish_edit show_uuid rfc3339 (clear_input_history_browse (composer app)) input (str_len l) app)
    (MkZipper l a k).
Proof.
  intros (Hin & Hcur & Hkill & Hb & Ha & Hk). cbn [z_before z_after z_killed] in *.
  pose proof (edited_replace app (clear_input_history_browse (composer app)) l m a [] l a k) as H.
  rewrite Hcur, str_len_app. apply H; try done.
  - etrans; [exact Hin|]. unfold z_text. simpl. by rewrite <- app_assoc.
  - rewrite app_assoc. by apply ok_app.
  - constructor.
  - by left.
Qed.
Lemma edited_cut_after app b m r k :
  represents (composer app) (MkZipper b (m ++ r) k) ->
  edited app
    (input ← replace_range (c_cursor (composer app)) (str_len (b ++ m)) "" (c_input (composer app));
     finish_edit show_uuid rfc3339 (clear_input_history_browse (composer app)) input (c_cursor (composer app)) app)
    (MkZipper b r k).
Proof.
  intros (Hin & Hcur & Hkill & Hb & Ha & Hk). cbn [z_before z_after z_killed] in *.
  pose proof (edited_replace app (clear_input_history_browse (composer app)) b m r [] b r k) as H.
  rewrite Hcur, str_len_app. apply H; try done.
  - by apply ok_app.
  - constructor.
  - by left.
Qed.

Lemma clear_input c : c_input (clear_input_history_browse c) = c_input c.
Proof. done. Qed.
Lemma clear_cursor c : c_cursor (clear_input_history_browse c) = c_cursor c.
Proof. done. Qed.

Lemma before_nonempty b c : ok_chars good (b ++ [c]) -> (str_len (b ++ [c]) =? 0) = false.
Proof.
  intros H. apply Nat.eqb_neq. intros He. apply str_len_zero in He; [|by eapply ok_shape].
  by destruct b.
Qed.

Lemma insert_edit app z cs :
  represents (composer app) z -> ok_chars good cs ->
  edited app (insert_input_text show_uuid rfc3339 (concat_str cs) app) (zip_edit (EInsert cs) z).
Proof.
  intros Hz Hcs. unfold insert_input_text. rewrite is_empty_chars by (by eapply ok_shape).
  destruct z as [b a k]. cbn [zip_edit z_before z_after z_killed]. case_bool_decide as Hnil.
  { subst cs. rewrite app_nil_r. by apply edited_unchanged. }
  destruct Hz as (Hin & Hcur & Hkill & Hb & Ha & Hk). cbn [z_before z_after z_killed] in *.
  cbn zeta. unfold insert_str. rewrite clear_input, clear_cursor, Hcur.
  pose proof (edited_replace app (clear_input_history_browse (composer app)) b [] a cs (b ++ cs) a k) as H.
  change (str_len []) with 0 in H. rewrite Nat.add_0_r, str_len_app in H.
  apply H; try done; [by apply ok_app|by rewrite <- app_assoc|by left].
Qed.

Lemma backspace_edit app z :
  represents (composer app) z ->
  edited app (backspace_input_char show_uuid rfc3339 app) (zip_edit EBackspace z).
Proof.
  intros Hz. unfold backspace_input_char. destruct z as [b a k].
  pose proof Hz as (Hin & Hcur & Hkill & Hb & Ha & Hk). cbn [z_before z_after z_killed] in *.
  destruct b as [|c b _] using rev_ind; [rewrite Hcur; by apply edited_unchanged|].
  assert ((c_cursor (composer app) =? 0) = false) as -> by (rewrite Hcur; by apply before_nonempty).
  assert (previous_char_boundary (c_input (composer app)) (c_cursor (composer app)) = str_len b) as Hprev.
  { rewrite Hcur, Hin. apply ok_app in Hb as [Hb Hc]. apply Forall_cons_1 in Hc as [[Hc _] _].
    apply previous_char_boundary_chars; [done|by eapply ok_shape]. }
  cbn zeta. rewrite clear_input, clear_cursor, Hprev.
  cbn [zip_edit]. unfold cut_before. cbn [z_before z_after z_killed].
  change 1 with (length [c]). rewrite drop_last_app. by apply (edited_cut_before app b [c] a k).
Qed.

Lemma delete_edit app z :
  represents (composer app) z ->
  edited app (delete_input_char show_uuid rfc3339 app) (zip_edit EDelete z).
Proof.
  intros Hz. unfold delete_input_char. destruct z as [b a k].
  pose proof Hz as (Hin & Hcur & Hkill & Hb & Ha & Hk). cbn [z_before z_after z_killed] in *.
  assert (byte_len (c_input (composer app)) = str_len b + str_len a) as -> by (rewrite Hin; apply str_len_app).
  destruct a as [|c a].
  { rewrite Hcur. change (str_len []) with 0. rewrite (proj2 (Nat.leb_le _ _)) by lia. by apply edited_unchanged. }
  apply Forall_cons_1 in Ha as [[Hc Hg] Ha]. pose proof (char_shape_len c Hc).
  rewrite str_len_cons. rewrite (proj2 (Nat.leb_gt _ _)) by lia.
  assert (next_char_boundary (c_input (composer app)) (c_cursor (composer app)) = str_len (b ++ [c])) as Hnext.
  { rewrite Hcur, Hin. apply next_char_boundary_chars; [done|by eapply ok_shape]. }
  cbn zeta. rewrite clear_input, clear_cursor, Hnext.
  by apply (edited_cut_after app b [c] a k).
Qed.

(** Words, as splits of the characters before and after the cursor. *)
Lemma before_split l : exists w m, l = w ++ m /\ before_word l = w /\ word_before l = length m.
Proof.
  destruct (before_word_prefix l) as [m Hm]. exists (before_word l), m. split_and!; [done..|].
  unfold word_before. pose proof (f_equal length Hm) as H. rewrite length_app in H. lia.
Qed.
Lemma after_split r : exists w m, r = w ++ m /\ next_word r = w /\ word_after r = length w.
Proof. destruct (next_word_prefix r) as [m Hm]. by exists (next_word r), m. Qed.

Lemma previous_word app b a k :
  represents (composer app) (MkZipper b a k) ->
  previous_word_boundary (c_input (composer app)) (c_cursor (composer app)) = Some (str_len (before_word b)).
Proof.
  intros (Hin & Hcur & _ & Hb & Ha & _). rewrite Hcur, Hin.
  apply previous_word_boundary_chars; by eapply ok_shape.
Qed.
Lemma next_word_end app b a k :
  represents (composer app) (MkZipper b a k) ->
  next_word_boundary (c_input (composer app)) (c_cursor (composer app)) = Some (str_len (b ++ next_word a)).
Proof.
  intros (Hin & Hcur & _ & Hb & Ha & _). rewrite Hcur, Hin.
  apply next_word_boundary_chars. by eapply ok_shape.
Qed.

Lemma cursor_zero app b a k :
  represents (composer app) (MkZipper b a k) -> (c_cursor (composer app) =? 0) = bool_decide (b = []).
Proof.
  intros (_ & Hcur & _ & Hb & _). rewrite Hcur. cbn [z_before].
  case_bool_decide as H; [by subst|]. apply Nat.eqb_neq. intros He. apply H.
  apply str_len_zero; [by eapply ok_shape|done].
Qed.
Lemma cursor_end app b a k :
  represents (composer app) (MkZipper b a k) ->
  (byte_len (c_input (composer app)) <=? c_cursor (composer app)) = bool_decide (a = []).
Proof.
  intros (Hin & Hcur & _ & _ & Ha & _). rewrite Hcur, Hin. unfold z_text. cbn [z_before z_after].
  change (byte_len (concat_str (b ++ a))) with (str_len (b ++ a)). rewrite str_len_app.
  case_bool_decide as H; [subst; change (str_len []) with 0; apply Nat.leb_le; lia|].
  apply Nat.leb_gt. assert (str_len a <> 0); [|lia]. intros He. apply H.
  apply str_len_zero; [by eapply ok_shape|done].
Qed.

Lemma delete_word_left_edit app z :
  represents (composer app) z ->
  edited app (delete_input_word_left show_uuid rfc3339 app) (zip_edit EDeleteWordLeft z).
Proof.
  intros Hz. destruct z as [b a k]. unfold delete_input_word_left. rewrite (cursor_zero app b a k Hz).
  case_bool_decide as Hnil; [subst b; by apply edited_unchanged|].
  cbn zeta. rewrite clear_input, clear_cursor, (previous_word app b a k Hz). cbn [mbind option_bind].
  destruct (before_split b) as (w & m & -> & Hw & Hlen).
  cbn [zip_edit]. unfold cut_before. cbn [z_before z_after z_killed].
  rewrite Hw, Hlen, drop_last_app. by apply (edited_cut_before app w m a k).
Qed.

Lemma delete_word_right_edit app z :
  represents (composer app) z ->
  edited app (delete_input_word_right show_uuid rfc3339 app) (zip_edit EDeleteWordRight z).
Proof.
  intros Hz. destruct z as [b a k]. unfold delete_input_word_right. rewrite (cursor_end app b a k Hz).
  case_bool_decide as Hnil; [subst a; by apply edited_unchanged|].
  cbn zeta. rewrite clear_input, clear_cursor, (next_word_end app b a k Hz). cbn [mbind option_bind].
  destruct (after_split a) as (w & m & -> & Hw & Hlen).
  cbn [zip_edit]. unfold cut_after. cbn [z_before z_after z_killed].
  rewrite Hw, Hlen, drop_app_length. by apply (edited_cut_after app b w m k).
Qed.

(** A range killed: what it removes is the kill buffer, unless it is empty. *)
Lemma kill_range_spec c l m r k :
  c_input c = concat_str (l ++ m ++ r) -> c_kill_buffer c = concat_str k -> ok_chars good (l ++ m ++ r) ->
  exists c', kill_input_range (str_len l) (str_len l + str_len m) c = Some c'
    /\ c_input c' = concat_str (l ++ r) /\ c_cursor c' = c_cursor c
    /\ c_kill_buffer c' = concat_str (if bool_decide (m = []) then k else m)
    /\ c_history_browse_draft c' = c_history_browse_draft c.
Proof.
  intros Hin Hkill Hok. rewrite !ok_app in Hok. destruct Hok as (Hl & Hm & Hr).
  apply ok_shape in Hl, Hm, Hr. unfold kill_input_range. case_bool_decide as Hnil.
  - subst m. change (str_len []) with 0. rewrite (proj2 (Nat.leb_le _ _)) by lia.
    exists c. by split_and!.
  - assert (str_len m <> 0) by (intros He; apply Hnil; by apply str_len_zero).
    rewrite (proj2 (Nat.leb_gt _ _)) by lia.
    rewrite Hin, slice_chars by done. cbn [mbind option_bind].
    rewrite is_empty_chars by done. rewrite bool_decide_eq_false_2 by done.
    rewrite replace_range_chars by done. cbn [mbind option_bind]. eexists. split; [done|].
    cbn. by rewrite concat_str_app.
Qed.

Lemma edited_kill_at (cursor : ComposerState -> nat) app l m r b a k z :
  c_input (composer app) = concat_str (l ++ m ++ r) -> c_kill_buffer (composer app) = concat_str k ->
  ok_chars good (l ++ m ++ r) -> ok_chars good k ->
  l ++ r = b ++ a -> (forall c, c_cursor c = c_cursor (composer app) -> cursor c = str_len b) ->
  z = MkZipper b a (if bool_decide (m = []) then k else m) ->
  edited app
    (c ← kill_input_range (str_len l) (str_len l + str_len m) (clear_input_history_browse (composer app));
     finish_edit show_uuid rfc3339 c (c_input c) (cursor c) app) z.
Proof.
  intros Hin Hkill Hok Hk Hba Hcur ->.
  destruct (kill_range_spec (clear_input_history_browse (composer app)) l m r k Hin Hkill Hok)
    as (c & -> & Hin' & Hcur' & Hkill' & Hdraft). cbn [mbind option_bind].
  apply edited_finish; [|by left]. rewrite !ok_app in Hok. destruct Hok as (Hl & Hm & Hr).
  assert (ok_chars good (b ++ a)) as Hok by (rewrite <- Hba; by apply ok_app).
  apply ok_app in Hok as [Hb Ha]. split_and!; try done.
  - cbn. rewrite Hin'. unfold z_text. cbn [z_before z_after]. by rewrite Hba.
  - by apply Hcur.
  - by case_bool_decide.
Qed.
(** The cursor where it was, or at [cursor]. *)
Definition edited_kill_here := edited_kill_at c_cursor.
Lemma edited_kill app l m r cursor b a k z :
  c_input (composer app) = concat_str (l ++ m ++ r) -> c_kill_buffer (composer app) = concat_str k ->
  ok_chars good (l ++ m ++ r) -> ok_chars good k ->
  l ++ r = b ++ a -> cursor = str_len b -> z = MkZipper b a (if bool_decide (m = []) then k else m) ->
  edited app
    (c ← kill_input_range (str_len l) (str_len l + str_len m) (clear_input_history_browse (composer app));
     finish_edit show_uuid rfc3339 c (c_input c) cursor app) z.
Proof. intros H1 H2 H3 H4 H5 -> H6. by eapply (edited_kill_at (fun _ => str_len b)). Qed.

Lemma kill_before_zip l m a k :
  kill_before (length m) (MkZipper (l ++ m) a k) = MkZipper l a (if bool_decide (m = []) then k else m).
Proof.
  unfold kill_before. cbn [z_before z_after z_killed]. rewrite drop_last_app, take_last_app.
  destruct m; simpl; [by rewrite app_nil_r|done].
Qed.
Lemma kill_after_zip b m r k :
  kill_after (length m) (MkZipper b (m ++ r) k) = MkZipper b r (if bool_decide (m = []) then k else m).
Proof.
  unfold kill_after. cbn [z_before z_after z_killed]. rewrite drop_app_length, take_app_length.
  by destruct m.
Qed.

Lemma kill_word_left_edit app z :
  represents (composer app) z ->
  edited app (kill_input_word_left show_uuid rfc3339 app) (zip_edit EKillWordLeft z).
Proof.
  intros Hz. destruct z as [b a k]. unfold kill_input_word_left. rewrite (cursor_zero app b a k Hz).
  case_bool_decide as Hnil; [subst b; by apply edited_unchanged|].
  cbn zeta. rewrite clear_input, clear_cursor, (previous_word app b a k Hz). cbn [mbind option_bind].
  destruct (before_split b) as (w & m & -> & Hw & Hlen). cbn [zip_edit z_before].
  rewrite Hw, Hlen. destruct Hz as (Hin & Hcur & Hkill & Hb & Ha & Hk). unfold z_text in Hin.
  cbn [z_before z_after z_killed] in *. rewrite Hcur, str_len_app. rewrite <- app_assoc in Hin.
  eapply (edited_kill app w m a); try done.
  - rewrite app_assoc. by apply ok_app.
  - apply kill_before_zip.
Qed.

(** Lines, as splits of the characters before and after the cursor. *)
Lemma take_while_stop {A} (p : A -> bool) l c r :
  Forall (fun x => p x = true) l -> p c = false -> take_while p (l ++ c :: r) = l.
Proof. intros Hl Hc. induction Hl as [|x l Hx _ IH]; simpl; [by rewrite Hc|]. by rewrite Hx, IH. Qed.
Lemma take_while_all {A} (p : A -> bool) l : Forall (fun x => p x = true) l -> take_while p l = l.
Proof. induction 1 as [|x l Hx _ IH]; simpl; [done|]. by rewrite Hx, IH. Qed.
Lemma drop_while_end_stop {A} (p : A -> bool) l c r :
  Forall (fun x => p x = true) r -> p c = false -> drop_while_end p (l ++ c :: r) = l ++ [c].
Proof.
  intros Hr Hc. induction r as [|x r IH] using rev_ind; [by rewrite drop_while_end_snoc, Hc|].
  apply Forall_app in Hr as [Hr Hx]. apply Forall_cons_1 in Hx as [Hx _].
  rewrite app_comm_cons, app_assoc, drop_while_end_snoc, Hx. by apply IH.
Qed.
Lemma drop_while_end_all {A} (p : A -> bool) l : Forall (fun x => p x = true) l -> drop_while_end p l = [].
Proof.
  intros H. induction l as [|x l IH] using rev_ind; [done|]. apply Forall_app in H as [H Hx].
  apply Forall_cons_1 in Hx as [Hx _]. rewrite drop_while_end_snoc, Hx. by apply IH.
Qed.
Lemma in_line_all cs : Forall (fun x => is_newline x = false) cs -> Forall (fun x => in_line x = true) cs.
Proof. intros H. eapply Forall_impl; [exact H|]. intros c. unfold in_line. simpl. by intros ->. Qed.

Lemma line_end_spec b a :
  ok_chars good b -> ok_chars good a ->
  line_end_for_cursor (concat_str (b ++ a)) (str_len b) = Some (str_len b + str_len (take_while in_line a)).
Proof.
  intros Hb Ha. unfold line_end_for_cursor. rewrite slice_from_chars by (by eapply ok_shape).
  cbn [mbind option_bind]. unfold find. rewrite chars_concat by (by eapply ok_shape).
  destruct (find_from is_newline 0 a) as [i|] eqn:Hf.
  - apply find_from_Some in Hf as (l & c & r & -> & -> & Hc & Hl).
    rewrite take_while_stop; [done|by apply in_line_all|]. unfold in_line. by rewrite Hc.
  - apply find_from_None in Hf. rewrite take_while_all by (by apply in_line_all).
    rewrite <- str_len_app. done.
Qed.
Lemma line_start_spec b a :
  ok_chars good b -> ok_chars good a ->
  line_start_for_cursor (concat_str (b ++ a)) (str_len b) = Some (str_len (drop_while_end in_line b)).
Proof.
  intros Hb Ha. unfold line_start_for_cursor. rewrite slice_to_chars by (by eapply ok_shape).
  cbn [mbind option_bind]. unfold rfind. rewrite chars_concat by (by eapply ok_shape).
  destruct (rfind_from is_newline 0 b) as [i|] eqn:Hf.
  - apply rfind_from_Some in Hf as (l & c & r & -> & -> & Hc & Hr).
    rewrite drop_while_end_stop; [|by apply in_line_all|unfold in_line; by rewrite Hc].
    apply is_newline_eq in Hc as ->. rewrite str_len_app. by change (str_len [nl]) with 1.
  - apply rfind_from_None in Hf. by rewrite drop_while_end_all by (by apply in_line_all).
Qed.

Lemma take_while_head {A} (p : A -> bool) c a : take_while p (c :: a) = [] -> p c = false.
Proof. simpl. by destruct (p c). Qed.
Lemma newline_of c : in_line c = false -> c = nl.
Proof. unfold in_line. intros H%negb_false_iff. by apply is_newline_eq. Qed.

Lemma drop_line_end b : drop_while_end in_line b = [] \/ exists l, drop_while_end in_line b = l ++ [nl].
Proof.
  induction b as [|y b IH] using rev_ind; [by left|]. rewrite drop_while_end_snoc.
  destruct (in_line y) eqn:Hy; [done|]. right. exists b. by rewrite (newline_of y Hy).
Qed.
Lemma drop_line_head a x r : drop_while in_line a = x :: r -> x = nl.
Proof.
  induction a as [|y a IH]; simpl; [done|]. destruct (in_line y) eqn:Hy; [done|].
  intros [= -> _]. by apply newline_of.
Qed.

Lemma kill_after_edit app z :
  represents (composer app) z ->
  edited app (kill_input_after_cursor show_uuid rfc3339 app) (zip_edit EKillAfter z).
Proof.
  intros Hz. destruct z as [b a k]. pose proof Hz as (Hin & Hcur & Hkill & Hb & Ha & Hk).
  unfold z_text in Hin. cbn [z_before z_after z_killed] in *.
  unfold kill_input_after_cursor. cbn zeta. rewrite clear_input, clear_cursor.
  rewrite Hcur at 1. rewrite Hin at 1. rewrite (line_end_spec b a Hb Ha). cbn [mbind option_bind].
  assert (byte_len (c_input (composer app)) = str_len b + str_len a) as -> by (rewrite Hin; apply str_len_app).
  pose proof (take_drop_while in_line a) as Hsplit.
  rewrite Hcur. cbn [zip_edit z_after].
  destruct (str_len b =? str_len b + str_len (take_while in_line a)) eqn:He.
  - apply Nat.eqb_eq in He.
    assert (take_while in_line a = []) as Htw.
    { apply str_len_zero; [|lia]. rewrite <- Hsplit in Ha. apply ok_app in Ha as [Ha _]. by eapply ok_shape. }
    unfold line_after. rewrite Htw. change (str_len []) with 0. rewrite Nat.add_0_r. destruct a as [|c a].
    + change (str_len []) with 0. rewrite (proj2 (Nat.ltb_ge _ _)) by lia. cbn [mbind option_bind].
      apply edited_finish; [by split_and!|by left].
    + apply take_while_head, newline_of in Htw as ->. rewrite str_len_cons. change (byte_len nl) with 1.
      rewrite (proj2 (Nat.ltb_lt _ _)) by lia.
      change (str_len b + 1) with (str_len b + str_len [nl]).
      eapply (edited_kill_here app b [nl] a); try done; [by apply ok_app|by intros c ->].
  - apply Nat.eqb_neq in He. assert (take_while in_line a <> []) as Hne.
    { intros H. rewrite H in He. change (str_len []) with 0 in He. lia. }
    destruct a as [|c a]; [done|]. unfold line_after.
    assert (Nat.max 1 (length (take_while in_line (c :: a))) = length (take_while in_line (c :: a))) as ->.
    { destruct (take_while in_line (c :: a)); [done|simpl; lia]. }
    set (m := take_while in_line (c :: a)) in *. set (r := drop_while in_line (c :: a)) in *.
    clearbody m r. rewrite <- Hsplit in *.
    eapply (edited_kill_here app b m r); try done; [by apply ok_app|by intros c' ->|]. apply kill_after_zip.
Qed.

Lemma kill_before_edit app z :
  represents (composer app) z ->
  edited app (kill_input_before_cursor show_uuid rfc3339 app) (zip_edit EKillBefore z).
Proof.
  intros Hz. destruct z as [b a k]. pose proof Hz as (Hin & Hcur & Hkill & Hb & Ha & Hk).
  unfold z_text in Hin. cbn [z_before z_after z_killed] in *.
  unfold kill_input_before_cursor. rewrite (cursor_zero app b a k Hz). cbn [zip_edit z_before].
  case_bool_decide as Hnil; [subst b; by apply edited_unchanged|].
  cbn zeta. rewrite clear_input, clear_cursor. rewrite Hcur at 1. rewrite Hin at 1.
  rewrite (line_start_spec b a Hb Ha). cbn [mbind option_bind]. rewrite Hcur.
  destruct (drop_while_end_prefix in_line b) as [m Hm].
  set (w := drop_while_end in_line b) in *.
  assert (length b - length w = length m) as Hlen.
  { pose proof (f_equal length Hm) as H. rewrite length_app in H. lia. }
  assert (match b with [] => MkZipper b a k | _ => kill_before (line_before b) (MkZipper b a k) end
          = kill_before (Nat.max 1 (length m)) (MkZipper b a k)) as ->.
  { unfold line_before. fold w. rewrite Hlen. by destruct b. }
  assert (w = [] \/ exists l, w = l ++ [nl]) as Hw by apply drop_line_end.
  clearbody w. assert (str_len b = str_len w + str_len m) as Hlenb by (rewrite Hm; apply str_len_app).
  rewrite Hlenb. destruct (str_len w + str_len m =? str_len w) eqn:He.
  - apply Nat.eqb_eq in He. assert (m = []) as ->.
    { apply str_len_zero; [|lia]. rewrite Hm in Hb. apply ok_app in Hb as [_ Hb]. by eapply ok_shape. }
    rewrite app_nil_r in Hm. subst b. destruct Hw as [->|[l ->]]; [done|].
    rewrite str_len_app. change (str_len [nl]) with 1. rewrite (proj2 (Nat.ltb_lt _ _)) by lia.
    replace (str_len l + 1 - 1) with (str_len l) by lia. rewrite <- app_assoc in Hin.
    change (str_len l + 1) with (str_len l + str_len [nl]).
    eapply (edited_kill app l [nl] a); try done.
    + rewrite app_assoc. by apply ok_app.
    + change (Nat.max 1 (length (A:=string) [])) with (length [nl]). apply (kill_before_zip l [nl] a k).
  - apply Nat.eqb_neq in He. assert (m <> []) as Hne.
    { intros ->. change (str_len []) with 0 in He. lia. }
    replace (Nat.max 1 (length m)) with (length m) by (destruct m; [done|simpl; lia]).
    subst b. rewrite <- app_assoc in Hin.
    eapply (edited_kill app w m a); try done.
    + rewrite app_assoc. by apply ok_app.
    + apply kill_before_zip.
Qed.

Lemma yank_edit app z :
  represents (composer app) z -> edited app (yank_input show_uuid rfc3339 app) (zip_edit EYank z).
Proof.
  intros Hz. pose proof Hz as (_ & _ & Hkill & _ & _ & Hk). unfold yank_input. rewrite Hkill.
  pose proof (insert_edit app z (z_killed z) Hz Hk) as H. unfold insert_input_text in H |- *.
  destruct (is_empty (concat_str (z_killed z))) eqn:He; [|exact H].
  rewrite is_empty_chars in He by (by eapply ok_shape). apply bool_decide_eq_true in He.
  destruct z as [b a k]. cbn in He. subst k. cbn. rewrite app_nil_r. by apply edited_unchanged.
Qed.

(** A move splits the same text elsewhere. *)
Lemma edited_move app b a b' a' k :
  represents (composer app) (MkZipper b a k) -> b ++ a = b' ++ a' ->
  edited app (Some (move_cursor (str_len b') app)) (MkZipper b' a' k).
Proof.
  intros (Hin & Hcur & Hkill & Hb & Ha & Hk) Hba. unfold z_text in Hin. cbn [z_before z_after z_killed] in *.
  assert (ok_chars good (b' ++ a')) as Hok by (rewrite <- Hba; by apply ok_app).
  apply ok_app in Hok as [Hb' Ha']. split; [|split; [by split_and!|by right]]. split_and!; try done.
  cbn. rewrite Hin. unfold z_text. cbn [z_before z_after]. by rewrite Hba.
Qed.

Lemma move_left_edit app z :
  represents (composer app) z -> edited app (Some (move_input_cursor_left app)) (zip_edit ELeft z).
Proof.
  intros Hz. destruct z as [b a k]. pose proof Hz as (Hin & Hcur & _ & Hb & Ha & _).
  unfold move_input_cursor_left. rewrite Hcur, Hin. unfold z_text. cbn [z_before z_after zip_edit] in *.
  unfold go_back. cbn [z_before z_after z_killed].
  destruct b as [|c b _] using rev_ind; [by apply (edited_move app [] a [] a k)|].
  apply ok_app in Hb as [Hb Hc]. apply Forall_cons_1 in Hc as [[Hc _] _].
  rewrite previous_char_boundary_chars by (done || by eapply ok_shape).
  change 1 with (length [c]). rewrite drop_last_app, take_last_app.
  apply (edited_move app (b ++ [c]) a b ([c] ++ a) k Hz). by rewrite <- app_assoc.
Qed.

Lemma move_right_edit app z :
  represents (composer app) z -> edited app (Some (move_input_cursor_right app)) (zip_edit ERight z).
Proof.
  intros Hz. destruct z as [b a k]. pose proof Hz as (Hin & Hcur & _ & Hb & Ha & _).
  unfold move_input_cursor_right. rewrite Hcur, Hin. unfold z_text. cbn [z_before z_after zip_edit] in *.
  unfold go_forth. cbn [z_before z_after z_killed].
  destruct a as [|c a].
  { rewrite app_nil_r, next_char_boundary_end. rewrite take_nil, drop_nil, app_nil_r.
    by apply (edited_move app b [] b [] k). }
  apply Forall_cons_1 in Ha as [[Hc _] Ha].
  rewrite next_char_boundary_chars by (done || by eapply ok_shape).
  apply (edited_move app b (c :: a) (b ++ [c]) a k Hz). by rewrite <- app_assoc.
Qed.

Lemma move_word_left_edit app z :
  represents (composer app) z -> edited app (move_input_cursor_word_left app) (zip_edit EWordLeft z).
Proof.
  intros Hz. destruct z as [b a k]. unfold move_input_cursor_word_left.
  rewrite (previous_word app b a k Hz). cbn [mbind option_bind zip_edit z_before].
  destruct (before_split b) as (w & m & -> & Hw & Hlen). rewrite Hw, Hlen.
  unfold go_back. cbn [z_before z_after z_killed]. rewrite drop_last_app, take_last_app.
  apply (edited_move app (w ++ m) a w (m ++ a) k Hz). by rewrite <- app_assoc.
Qed.
Lemma move_word_right_edit app z :
  represents (composer app) z -> edited app (move_input_cursor_word_right app) (zip_edit EWordRight z).
Proof.
  intros Hz. destruct z as [b a k]. unfold move_input_cursor_word_right.
  rewrite (next_word_end app b a k Hz). cbn [mbind option_bind zip_edit z_after].
  destruct (after_split a) as (w & m & -> & Hw & Hlen). rewrite Hw, Hlen.
  unfold go_forth. cbn [z_before z_after z_killed]. rewrite take_app_length, drop_app_length.
  apply (edited_move app b (w ++ m) (b ++ w) m k Hz). by rewrite <- app_assoc.
Qed.
Lemma move_start_edit app z :
  represents (composer app) z -> edited app (Some (move_input_cursor_start app)) (zip_edit EStart z).
Proof.
  intros Hz. destruct z as [b a k]. cbn [zip_edit z_before]. unfold go_back. cbn [z_before z_after z_killed].
  pose proof (drop_last_app [] b) as H1. pose proof (take_last_app [] b) as H2. simpl in H1, H2. rewrite H1, H2.
  by apply (edited_move app b a [] (b ++ a) k).
Qed.
Lemma move_end_edit app z :
  represents (composer app) z -> edited app (Some (move_input_cursor_end app)) (zip_edit EEnd z).
Proof.
  intros Hz. destruct z as [b a k]. cbn [zip_edit z_after]. unfold go_forth. cbn [z_before z_after z_killed].
  rewrite take_ge, drop_ge by lia. unfold move_input_cursor_end.
  destruct Hz as (Hin & Hrest). rewrite Hin.
  apply (edited_move app b a (b ++ a) [] k); [by split|by rewrite app_nil_r].
Qed.

(** The characters an edit brings in. *)
Definition edit_ok (e : Edit) : Prop := match e with EInsert cs => ok_chars good cs | _ => True end.

Lemma run_edit_zipper e app z :
  represents (composer app) z -> edit_ok e ->
  edited app (run_edit e app) (zip_edit e z).
Proof.
  intros Hz He. destruct e; cbn [run_edit].
  - by apply insert_edit.
  - by apply yank_edit.
  - by apply backspace_edit.
  - by apply delete_edit.
  - by apply delete_word_left_edit.
  - by apply delete_word_right_edit.
  - by apply kill_word_left_edit.
  - by apply kill_after_edit.
  - by apply kill_before_edit.
  - by apply move_left_edit.
  - by apply move_right_edit.
  - by apply move_word_left_edit.
  - by apply move_word_right_edit.
  - by apply move_start_edit.
  - by apply move_end_edit.
Qed.
End edits.

(** A sequence of edits, on the composer and on the zipper. *)
Fixpoint run_edits (es : list Edit) (app : ChatApp) : option ChatApp :=
  match es with
  | [] => Some app
  | e :: es => app ← run_edit e app; run_edits es app
  end.
End editor.

Definition any_char (c : string) : Prop := True.

(** C36. Equivalence of the byte editor with a zipper of characters: whatever
    sequence of insertions, deletions, kills, yanks and moves is applied to a
    composer that represents a zipper, either the composer represents the
    zipper the same edits give on lists of characters, so that no offset ever
    falls inside a character, or one of the texts reached is a slash command
    whose last white space takes several bytes and is not at its end, on which
    the menu panics. *)
Theorem editor_is_a_zipper show_uuid rfc3339 es app z :
  represents any_char (composer app) z -> Forall (edit_ok any_char) es ->
  match run_edits show_uuid rfc3339 es app with
  | Some app' => represents any_char (composer app') (fold_left (fun z e => zip_edit e z) es z)
  | None => exists before after, es = before ++ after
      /\ trapped (z_text (fold_left (fun z e => zip_edit e z) before z))
  end.
Proof.
  intros Hz He; revert app z Hz. induction He as [|e es He _ IH]; intros app z Hz; cbn [run_edits fold_left].
  { done. }
  pose proof (run_edit_zipper show_uuid rfc3339 any_char e app z Hz He) as H.
  destruct (run_edit show_uuid rfc3339 e app) as [app1|]; cbn [mbind option_bind].
  - destruct H as [H1 _]. specialize (IH app1 _ H1).
    destruct (run_edits show_uuid rfc3339 es app1); [done|].
    destruct IH as (before & after & -> & Ht). by exists (e :: before), after.
  - by exists [e], es.
Qed.

Lemma one_byte_char a : is_continuation a = false -> ok_char any_char (String a "").
Proof. intros Ha. split; [|exact I]. by exists a, "". Qed.

(** Two words typed, the cursor moved back over one, the other killed, both
    yanked back at the end. *)
Definition sample_edits : list Edit :=
  [EInsert ["o"; "n"; "e"; " "; "t"; "w"; "o"]; EWordLeft; EKillBefore; EEnd; EYank; EBackspace].
Definition edited_app : ChatApp :=
  MkChatApp (MkComposer "" 0 None "" None None 80) initial_bottom_shell
    (MkMenuSource (MkConnectionId "local") None [] None [] [] "/work") []
    (MkTurnStatus [] [] false false false None None false None false None []) false None None.

Lemma editor_is_a_zipper_witness :
  fold_left (fun z e => zip_edit e z) sample_edits (MkZipper [] [] [])
  = MkZipper ["t"; "w"; "o"; "o"; "n"; "e"] [] ["o"; "n"; "e"; " "]
  /\ match run_edits (fun _ => "0") (fun _ => "0") sample_edits edited_app with
     | Some app' =>
         represents any_char (composer app')
           (fold_left (fun z e => zip_edit e z) sample_edits (MkZipper [] [] []))
     | None => exists before after, sample_edits = before ++ after
         /\ trapped (z_text (fold_left (fun z e => zip_edit e z) before (MkZipper [] [] [])))
     end.
Proof.
  split; [reflexivity|]. apply editor_is_a_zipper.
  - split_and!; try done; constructor.
  - unfold sample_edits. repeat (apply Forall_cons_2 || apply Forall_nil_2); first [exact I | by apply one_byte_char].
Defined.
