(* ===== verification/ComposerKeys.v ===== *)
(** * Keys keep the composer's texts whole

    The invariant of the composer under [handle_key]: its text, its kill
    buffer and the draft of the history are made of whole characters, and the
    cursor is between two of them.  The invariant is relative to a set of
    characters [good] that holds the ASCII ones and the characters of every
    text the keys can bring in. *)

From stdpp Require Import base list strings sorting.
From Stdlib Require Import ZArith Lia Ascii.
From S2P Require Import Prelude Text Json Types Messages TextUtils TextWrap Commands Composer ComposerLaws.

#[local] Open Scope nat_scope.

(** Texts of ASCII. *)
Fixpoint is_ascii_text (s : string) : bool :=
  match s with "" => true | String a s => (byte_val a <? 128)%N && is_ascii_text s end.

Section keys.
Context (char_width : string -> option nat) (show_uuid : N -> string) (rfc3339 : OffsetDateTime -> string).
Context (good : string -> Prop).
Context (good_ascii : forall a, (byte_val a < 128)%N -> good (String a "")).
Context (good_uuid : forall n, ok_text good (show_uuid n)).

Abbreviation okt := (ok_text good).

Lemma ascii_ok s : is_ascii_text s = true -> okt s.
Proof.
  induction s as [|a s IH]; simpl; [intros _; apply ok_text_empty|].
  intros [Ha Hs]%andb_true_iff. apply N.ltb_lt in Ha. change (String a s) with (String a "" +:+ s).
  apply ok_text_app; [|by apply IH]. exists [String a ""]. split; [done|].
  constructor; [|constructor]. split; [|by apply good_ascii].
  exists a, "". split_and!; [done| |done]. unfold is_continuation.
  rewrite (proj2 (N.leb_gt _ _)) by done. done.
Qed.

(** ** Texts the menu offers *)

(** The texts of the state that can reach the composer. *)
Definition connection_ok (c : ConnectionDescriptor) : Prop :=
  okt (connection_name (cd_id c)) /\ okt (cd_default_model c) /\ Forall okt (cd_model_fallbacks c).
Definition inventory_ok (i : ConnectionModelInventory) : Prop :=
  Forall (fun m => okt (mo_model_id m)) (mi_models i).
Definition source_ok (src : MenuSource) : Prop :=
  Forall connection_ok (ms_connections src) /\ Forall inventory_ok (ms_connection_models src)
  /\ match ms_current_model src with Some model => okt model | None => True end.
Definition item_ok (item : CommandMenuItem) : Prop := okt (insert_text item).

Lemma Forall_filter_list {A} (P : A -> Prop) f l : Forall P l -> Forall P (List.filter f l).
Proof. induction 1 as [|a l Ha _ IH]; simpl; [constructor|]. destruct (f a); [by constructor|done]. Qed.
Lemma Forall_first_seen {A} (P : A -> Prop) key l : forall seen, Forall P l -> Forall P (first_seen key seen l).
Proof.
  induction l as [|a l IH]; intros seen H; simpl; [constructor|]. inversion_clear H.
  destruct (existsb _ seen); [by apply IH|]. constructor; [done|by apply IH].
Qed.
Lemma Forall_sort {A} (P : A -> Prop) (R : A -> A -> Prop) `{forall a b, Decision (R a b)} l :
  Forall P l -> Forall P (merge_sort R l).
Proof. intros H1. by rewrite merge_sort_Permutation. Qed.
Lemma Forall_dedup {A} (P : A -> Prop) same l : Forall P l -> Forall P (dedup_by same l).
Proof. rewrite !Forall_forall. intros H a Ha. by eapply H, dedup_by_elem. Qed.
Lemma Forall_map_of {A B} (P : B -> Prop) (f : A -> B) l : Forall (fun a => P (f a)) l -> Forall P (List.map f l).
Proof. induction 1; simpl; by constructor. Qed.
Lemma Forall_find {A} (P : A -> Prop) f l a : Forall P l -> List.find f l = Some a -> P a.
Proof. intros H Hf. apply List.find_some in Hf as [Hin _]. rewrite Forall_forall in H. apply H. by apply list_elem_of_In. Qed.

Lemma session_model_ok src id :
  source_ok src -> Forall okt (session_model id (ms_current_connection src) (ms_current_model src)).
Proof.
  intros (_ & _ & Hm). unfold session_model. destruct (same_connection _ _); [|constructor].
  destruct (ms_current_model src); [|constructor]. destruct (is_empty s); [constructor|by constructor].
Qed.

Lemma find_connection_ok src id c :
  source_ok src -> find_connection (ms_connections src) id = Some c -> connection_ok c.
Proof. intros (H & _) Hf. by eapply Forall_find. Qed.
Lemma find_inventory_ok src id i :
  source_ok src -> find_connection_model_inventory (ms_connection_models src) id = Some i -> inventory_ok i.
Proof. intros (_ & H & _) Hf. by eapply Forall_find. Qed.

Lemma available_models_ok src id :
  source_ok src ->
  Forall okt (available_models_for_connection (ms_connections src) id (ms_current_connection src)
                (ms_current_model src) (ms_connection_models src)).
Proof.
  intros Hs. unfold available_models_for_connection.
  destruct (find_connection _ id) as [c|] eqn:Hc; [|constructor].
  apply Forall_first_seen, Forall_app. split; [by apply session_model_ok|].
  destruct (find_connection_model_inventory _ id) as [i|] eqn:Hi.
  - apply Forall_map_of. by eapply find_inventory_ok.
  - destruct (find_connection_ok _ _ _ Hs Hc) as (_ & Hd & Hf). by constructor.
Qed.

Lemma model_items_ok src id :
  source_ok src ->
  Forall item_ok (model_menu_items_for_connection (ms_connections src) id (ms_current_connection src)
                    (ms_current_model src) (ms_connection_models src)).
Proof.
  intros Hs. unfold model_menu_items_for_connection.
  destruct (find_connection _ id) as [c|] eqn:Hc; [|constructor].
  apply Forall_first_seen, Forall_app. split; [by apply Forall_map_of, session_model_ok|].
  destruct (find_connection_model_inventory _ id) as [i|] eqn:Hi.
  - apply Forall_map_of. by eapply find_inventory_ok.
  - destruct (find_connection_ok _ _ _ Hs Hc) as (_ & Hd & Hf). constructor; [done|]. by apply Forall_map_of.
Qed.

Lemma connection_items_ok src prefix trailing :
  source_ok src ->
  Forall item_ok (connection_menu_items (ms_connections src) (ms_readiness src) (ms_current_connection src) prefix trailing).
Proof.
  intros (H & _). unfold connection_menu_items.
  apply Forall_map_of, Forall_sort, Forall_map_of, Forall_filter_list.
  eapply Forall_impl; [exact H|]. intros c (Hname & _). unfold item_ok. simpl.
  destruct trailing; [|done]. apply ok_text_app; [done|by apply ascii_ok].
Qed.

Lemma ascii_all l : forallb is_ascii_text l = true -> Forall okt l.
Proof.
  induction l as [|s l IH]; simpl; [constructor|]. intros [H1 H2]%andb_true_iff.
  constructor; [by apply ascii_ok|by apply IH].
Qed.

Lemma registry_items_ok : Forall item_ok (List.map command_item COMMAND_REGISTRY).
Proof.
  assert (Forall okt (List.map insert_text (List.map command_item COMMAND_REGISTRY))) as H.
  { apply ascii_all. by vm_compute. }
  revert H. generalize (List.map command_item COMMAND_REGISTRY) as l.
  induction l as [|item l IH]; simpl; intros H; [constructor|]. inversion_clear H. constructor; [done|by apply IH].
Qed.
Lemma registry_names_ok : Forall okt (List.map slash_name COMMAND_REGISTRY).
Proof. apply ascii_all. by vm_compute. Qed.
Lemma filter_map_ok {A B} (P : B -> Prop) (f : A -> B) p l :
  Forall P (List.map f l) -> Forall P (List.map f (List.filter p l)).
Proof.
  induction l as [|a l IH]; simpl; [done|]. intros H. inversion_clear H.
  destruct (p a); simpl; [constructor; [done|]|]; by apply IH.
Qed.

Lemma of_texts_ok prefix to_item texts :
  (forall t, okt t -> item_ok (to_item t)) -> forallb is_ascii_text texts = true ->
  Forall item_ok (List.map to_item (List.filter (starts_with prefix) texts)).
Proof.
  intros Hto H. apply Forall_map_of, Forall_filter_list. eapply Forall_impl; [by apply ascii_all|]. auto.
Qed.
Lemma plain_ok d t : okt t -> item_ok (plain_item d t).
Proof. done. Qed.
Lemma spaced_ok d t : okt t -> item_ok (spaced_item d t).
Proof. intros H. apply ok_text_app; [done|by apply ascii_ok]. Qed.

Lemma argument_items_ok name tokens prefix src :
  source_ok src -> Forall item_ok (argument_items show_uuid rfc3339 name tokens prefix src).
Proof.
  intros Hs. unfold argument_items.
  assert (forall id, Forall item_ok (List.filter (fun c => starts_with prefix (item_label c))
     (model_menu_items_for_connection (ms_connections src) id (ms_current_connection src)
         (ms_current_model src) (ms_connection_models src)))) as Hmodels.
  { intros id. by apply Forall_filter_list, model_items_ok. }
  repeat lazymatch goal with
  | |- Forall item_ok (if ?b then _ else _) => destruct b
  end;
    try solve [by apply of_texts_ok; [auto using plain_ok, spaced_ok|]
              | by apply connection_items_ok | apply Hmodels | constructor].
  apply Forall_map_of, Forall_filter_list.
  apply Forall_true. intros session. apply good_uuid.
Qed.

Lemma menu_items_ok input src items :
  source_ok src -> command_menu_items show_uuid rfc3339 input src = Some items -> Forall item_ok items.
Proof.
  intros Hs. unfold command_menu_items. destruct (negb _); [intros [= <-]; constructor|].
  destruct (split_input input) as [[prefix tokens]|]; cbn [mbind option_bind]; [|done].
  intros Heq%(inj Some). rewrite <- Heq. clear Heq. destruct tokens as [|token tokens].
  - apply Forall_dedup. destruct (keeps_order input); [|apply Forall_sort];
      apply filter_map_ok, registry_items_ok.
  - destruct (resolve_command token) as [command|]; [|constructor].
    apply Forall_dedup. destruct (keeps_order input); [|apply Forall_sort]; by apply argument_items_ok.
Qed.

Lemma argument_candidates_ok name tokens src :
  source_ok src ->
  Forall okt (argument_candidates name tokens (ms_current_connection src) (ms_current_model src)
                (ms_connections src) (ms_connection_models src)).
Proof.
  intros Hs. unfold argument_candidates.
  assert (Forall okt (List.map (fun c => connection_name (cd_id c)) (ms_connections src))) as Hids.
  { apply Forall_map_of. destruct Hs as (H & _). eapply Forall_impl; [exact H|]. by intros c (? & _). }
  repeat lazymatch goal with
  | |- Forall _ (if ?b then _ else _) => destruct b
  end; try solve [exact Hids | by apply available_models_ok | by apply ascii_all].
Qed.

Lemma completion_ok input src completion :
  source_ok src ->
  completion_for_input input (ms_current_connection src) (ms_current_model src) (ms_connections src)
    (ms_connection_models src) = Some (Some completion) ->
  replacement completion = (replacement_start input, byte_len input) /\ Forall okt (candidates completion).
Proof.
  intros Hs. unfold completion_for_input. destruct (negb _); [done|].
  destruct (split_input input) as [[prefix tokens]|]; cbn [mbind option_bind]; [|done].
  set (found := match tokens with [] => _ | _ => _ end).
  assert (match found with Some l => Forall okt l | None => True end) as Hfound.
  { unfold found. destruct tokens as [|token tokens].
    - apply filter_map_ok, registry_names_ok.
    - destruct (resolve_command token); [|done]. by apply Forall_filter_list, argument_candidates_ok. }
  clearbody found. destruct found as [l|]; cbn [mbind option_bind]; [|done].
  assert (Forall okt (dedup_by_key id (sort_by_key id l))) as Hall by by apply Forall_dedup, Forall_sort.
  destruct (dedup_by_key id (sort_by_key id l)); [done|]. intros [= <-]. done.
Qed.

Lemma shared_prefix_ok l shared : Forall okt l -> shared_prefix l = Some shared -> okt shared.
Proof.
  destruct l as [|first rest]; [done|]. intros H [= <-]. inversion_clear H as [|? ? Hf _].
  revert first Hf. induction rest as [|c rest IH]; intros first Hf; simpl; [done|].
  apply IH. exists (List.map fst (take_while (fun chs => String.eqb chs.1 chs.2) (zip (chars first) (chars c)))).
  split; [done|]. apply ok_text_chars in Hf. revert Hf. generalize (chars first) as a, (chars c) as b.
  induction a as [|x a IHa]; intros [|y b] Ha; simpl; try constructor.
  destruct (String.eqb x y); simpl; [|constructor]. inversion_clear Ha. constructor; [done|by apply IHa].
Qed.

(** ** Vertical moves *)

Definition composer_ok (c : ComposerState) : Prop :=
  (exists z, represents good c z)
  /\ match c_history_browse_draft c with Some draft => okt draft | None => True end.

Lemma slice_total s a b :
  a <= b -> is_char_boundary a s = true -> is_char_boundary b s = true -> exists t, slice a b s = Some t.
Proof. intros H Ha Hb. unfold slice. rewrite (proj2 (Nat.leb_le _ _)), Ha, Hb by done. by eexists. Qed.

(** The offset for a column is the end of some characters of the line. *)
Lemma offset_for_column_spec column pre cs :
  exists l r, cs = l ++ r
    /\ offset_for_column char_width column (concat_str pre) (str_len pre) cs = str_len (pre ++ l).
Proof.
  revert pre; induction cs as [|c cs IH]; intros pre; cbn [offset_for_column].
  { exists [], []. split; [done|]. by rewrite app_nil_r. }
  assert (concat_str pre +:+ c = concat_str (pre ++ [c])) as -> by (rewrite concat_str_app; simpl; by rewrite append_nil_r).
  destruct (column <? _); [exists [], (c :: cs); split; [done|by rewrite app_nil_r]|].
  destruct (_ =? column); [by exists [c], cs|].
  change (byte_len (concat_str (pre ++ [c]))) with (str_len (pre ++ [c])).
  destruct (IH (pre ++ [c])) as (l & r & -> & ->). exists (c :: l), r. by rewrite <- app_assoc.
Qed.

Lemma place_cursor_spec c l m r k column :
  c_input c = concat_str (l ++ m ++ r) -> c_kill_buffer c = concat_str k ->
  ok_chars good (l ++ m ++ r) -> ok_chars good k ->
  match c_history_browse_draft c with Some draft => okt draft | None => True end ->
  exists c', place_cursor char_width c (str_len l) (str_len l + str_len m) column = Some c' /\ composer_ok c'.
Proof.
  intros Hin Hkill Hok Hk Hdraft. pose proof Hok as Hall. rewrite !ok_app in Hok. destruct Hok as (Hl & Hm & Hr).
  unfold place_cursor. rewrite Hin, slice_chars by (by eapply ok_shape). cbn [mbind option_bind].
  unfold byte_offset_for_display_column. rewrite chars_concat by (by eapply ok_shape).
  destruct (offset_for_column_spec column [] m) as (m1 & m2 & -> & Hoff). change (str_len []) with 0 in Hoff.
  change (concat_str []) with "" in Hoff. rewrite Hoff. eexists. split; [done|]. split; [|exact Hdraft].
  exists (MkZipper (l ++ m1) (m2 ++ r) k). apply ok_app in Hm as [Hm1 Hm2].
  split_and!; cbn [c_input c_cursor c_kill_buffer set_text set_preferred z_before z_after z_killed]; try done.
  - unfold z_text. cbn [z_before z_after]. by rewrite <- !app_assoc.
  - by rewrite (str_len_app l m1).
  - by apply ok_app.
  - by apply ok_app.
Qed.

Lemma column_total c start stop :
  start <= stop -> is_char_boundary start (c_input c) = true -> is_char_boundary stop (c_input c) = true ->
  exists column, column_of char_width c start stop = Some column.
Proof.
  intros H Ha Hb. unfold column_of. destruct (c_preferred_column c); [by eexists|].
  destruct (slice_total _ _ _ H Ha Hb) as [t ->]. by eexists.
Qed.

Lemma boundary_in l m r : ok_chars good (l ++ m ++ r) ->
  is_char_boundary (str_len l) (concat_str (l ++ m ++ r)) = true
  /\ is_char_boundary (str_len l + str_len m) (concat_str (l ++ m ++ r)) = true.
Proof.
  rewrite !ok_app. intros (Hl & Hm & Hr). split.
  - apply boundary_at, Forall_app. split; by eapply ok_shape.
  - rewrite <- str_len_app, app_assoc. apply boundary_at. by eapply ok_shape.
Qed.

(** The cursor put at an end of the text. *)
Lemma cursor_at_ok c l r k :
  c_input c = concat_str (l ++ r) -> c_kill_buffer c = concat_str k ->
  ok_chars good (l ++ r) -> ok_chars good k ->
  match c_history_browse_draft c with Some draft => okt draft | None => True end ->
  composer_ok (clear_composer_preferred_column (set_text (c_input c) (str_len l) c)).
Proof.
  intros Hin Hkill [Hl Hr]%ok_app Hk Hdraft. split; [|done]. exists (MkZipper l r k). by split_and!.
Qed.

Lemma move_between_rows_ok c rows direction width :
  composer_ok c -> wrap_composer_input_with_end_indices char_width (c_input c) width = Some rows -> 1 < length rows ->
  exists moved c', move_between_rows char_width rows direction c = Some (moved, c') /\ composer_ok c'.
Proof.
  intros Hc Hrows Hlen. pose proof Hc as ([[b a k] (Hin & Hcur & Hkill & Hb & Ha & Hk)] & Hdraft).
  unfold z_text in Hin. cbn [z_before z_after z_killed] in *.
  assert (ok_chars good (b ++ a)) as Hok by by apply ok_app.
  destruct (wrap_impl_spec char_width width false (b ++ a)) as (rows' & Hrows' & Hall & _); [by eapply ok_shape|].
  unfold wrap_composer_input_with_end_indices in Hrows. rewrite Hin, Hrows' in Hrows. injection Hrows as ->.
  assert (Hrow : forall i, i < length rows -> exists row l m r, rows !! i = Some row /\ b ++ a = l ++ m ++ r
    /\ start_byte row = str_len l /\ composer_row_text_end row = str_len l + str_len m).
  { intros i Hi. destruct (rows !! i) as [row|] eqn:Hr; [|apply lookup_ge_None in Hr; lia].
    eapply Forall_lookup_1 in Hall as (l & m & r & Hlmr & Hs & Ht & _); [|exact Hr].
    exists row, l, m, r. split_and!; try done. unfold composer_row_text_end. by rewrite Hs, Ht. }
  unfold move_between_rows.
  assert (Nat.min (c_cursor c) (byte_len (c_input c)) = str_len b) as ->.
  { rewrite Hcur, Hin. change (byte_len (concat_str (b ++ a))) with (str_len (b ++ a)). rewrite str_len_app. lia. }
  cbn zeta. set (i := composer_visual_row_index rows (str_len b)).
  assert (i < length rows) as Hi by (unfold i, composer_visual_row_index; lia).
  destruct (Hrow i Hi) as (row & l & m & r & -> & Hlmr & Hstart & Hstop). cbn [mbind option_bind].
  rewrite Hstart, Hstop.
  destruct (column_total c (str_len l) (clamp (str_len l) (str_len l + str_len m) (str_len b))) as [column ->].
  { unfold clamp. lia. }
  { rewrite Hin, Hlmr. rewrite Hlmr in Hok. by apply boundary_in. }
  { assert (clamp (str_len l) (str_len l + str_len m) (str_len b) = str_len l
        \/ clamp (str_len l) (str_len l + str_len m) (str_len b) = str_len l + str_len m
        \/ clamp (str_len l) (str_len l + str_len m) (str_len b) = str_len b) as [->|[->| ->]]
      by (unfold clamp; lia).
    - rewrite Hin, Hlmr. rewrite Hlmr in Hok. by apply boundary_in.
    - rewrite Hin, Hlmr. rewrite Hlmr in Hok. by apply boundary_in.
    - rewrite Hin. apply boundary_at. by eapply ok_shape. }
  cbn [mbind option_bind].
  assert (Hgo : forall j, j < length rows -> exists moved c',
    (target_row ← rows !! j;
     c0 ← place_cursor char_width c (start_byte target_row) (composer_row_text_end target_row) column;
     Some (true, c0)) = Some (moved, c') /\ composer_ok c').
  { intros j Hj. destruct (Hrow j Hj) as (row' & l' & m' & r' & -> & Hl' & Hs' & He'). cbn [mbind option_bind].
    rewrite Hs', He'. rewrite Hl' in Hin, Hok.
    destruct (place_cursor_spec c l' m' r' k column Hin Hkill Hok Hk Hdraft) as (c' & -> & Hc'). by do 2 eexists. }
  destruct (direction <? 0)%Z.
  - destruct (i =? 0); [|apply Hgo; lia].
    destruct (str_len b =? 0); do 2 eexists; (split; [done|]); [done|].
    by apply (cursor_at_ok c [] (b ++ a) k).
  - destruct (length rows <=? i + 1) eqn:Hle; [|apply Hgo; apply Nat.leb_gt in Hle; lia].
    destruct (str_len b =? byte_len (c_input c)); do 2 eexists; (split; [done|]); [done|].
    rewrite Hin at 2. apply (cursor_at_ok c (b ++ a) [] k); by rewrite ?app_nil_r.
Qed.

Lemma move_between_lines_ok c direction :
  composer_ok c ->
  exists moved c', move_between_lines char_width direction c = Some (moved, c') /\ composer_ok c'.
Proof.
  intros Hc. pose proof Hc as ([[b a k] (Hin & Hcur & Hkill & Hb & Ha & Hk)] & Hdraft).
  unfold z_text in Hin. cbn [z_before z_after z_killed] in *.
  assert (ok_chars good (b ++ a)) as Hok by by apply ok_app.
  unfold move_between_lines.
  assert (Nat.min (c_cursor c) (byte_len (c_input c)) = str_len b) as ->.
  { rewrite Hcur, Hin. change (byte_len (concat_str (b ++ a))) with (str_len (b ++ a)). rewrite str_len_app. lia. }
  cbn zeta. rewrite Hin, (line_start_spec good b a Hb Ha). cbn [mbind option_bind].
  rewrite (line_end_spec good b a Hb Ha). cbn [mbind option_bind].
  destruct (drop_while_end_prefix in_line b) as [m Hm].
  set (w := drop_while_end in_line b) in *.
  assert (w = [] \/ exists l, w = l ++ [nl]) as Hw by apply drop_line_end.
  clearbody w. destruct (column_total c (str_len w) (str_len b)) as [column ->].
  { rewrite Hm, str_len_app. lia. }
  { rewrite Hin, Hm, <- app_assoc. apply boundary_in. rewrite app_assoc, <- Hm. done. }
  { rewrite Hin. apply boundary_at. by eapply ok_shape. }
  cbn [mbind option_bind].
  assert (Hplace : forall l p r, b ++ a = l ++ p ++ r -> exists moved c',
    (c0 ← place_cursor char_width c (str_len l) (str_len l + str_len p) column; Some (true, c0)) = Some (moved, c')
    /\ composer_ok c').
  { intros l p r Hl. rewrite Hl in Hin, Hok.
    destruct (place_cursor_spec c l p r k column Hin Hkill Hok Hk Hdraft) as (c' & -> & Hc'). by do 2 eexists. }
  destruct (direction <? 0)%Z.
  - destruct Hw as [->|[w' ->]]; [by do 2 eexists|].
    rewrite (before_nonempty good) by (rewrite Hm in Hb; by apply ok_app in Hb as [Hb _]).
    assert (str_len (w' ++ [nl]) - 1 = str_len w') as -> by (rewrite str_len_app; change (str_len [nl]) with 1; lia).
    assert (b ++ a = w' ++ [nl] ++ m ++ a) as Hba by (rewrite Hm, <- !app_assoc; done).
    rewrite Hba in Hok |- *. rewrite (ok_app good w') in Hok. destruct Hok as [Hw' Hrest].
    pose proof (line_start_spec good w' _ Hw' Hrest) as Hstart. unfold line_start_for_cursor in Hstart.
    destruct (slice_to (str_len w') _) as [before|]; cbn [mbind option_bind] in Hstart |- *; [|done].
    apply (inj Some) in Hstart. rewrite Hstart.
    destruct (drop_while_end_prefix in_line w') as [p Hp].
    destruct (Hplace (drop_while_end in_line w') p ([nl] ++ m ++ a)) as (moved & c' & Heq & Hok').
    { rewrite Hba. rewrite Hp at 1. by rewrite <- app_assoc. }
    rewrite <- str_len_app, <- Hp in Heq. by exists moved, c'.
  - pose proof (take_drop_while in_line a) as Hsplit.
    set (tw := take_while in_line a) in *. set (dw := drop_while in_line a) in *.
    change (byte_len (concat_str (b ++ a))) with (str_len (b ++ a)).
    assert (str_len a = str_len tw + str_len dw) as Hlena by by rewrite <- str_len_app, Hsplit.
    rewrite str_len_app, Hlena.
    destruct dw as [|x dw'] eqn:Hdw.
    { change (str_len []) with 0. rewrite (proj2 (Nat.leb_le _ _)) by lia. by do 2 eexists. }
    assert (x = nl) as -> by (unfold dw in Hdw; by apply drop_line_head in Hdw).
    rewrite str_len_cons. change (byte_len nl) with 1. rewrite (proj2 (Nat.leb_gt _ _)) by lia.
    clearbody tw. clear dw Hdw.
    assert (b ++ a = (b ++ tw ++ [nl]) ++ dw') as Hba by (rewrite <- Hsplit, <- !app_assoc; done).
    assert (str_len b + str_len tw + 1 = str_len (b ++ tw ++ [nl])) as ->.
    { rewrite !str_len_app. change (str_len [nl]) with 1. lia. }
    rewrite Hba in Hok |- *. apply ok_app in Hok as [Hpre Hdw].
    pose proof (line_end_spec good _ _ Hpre Hdw) as Hend. unfold line_end_for_cursor in Hend.
    change (byte_len (concat_str ((b ++ tw ++ [nl]) ++ dw'))) with (str_len ((b ++ tw ++ [nl]) ++ dw')) in Hend.
    assert (str_len b + (str_len tw + (1 + str_len dw')) = str_len ((b ++ tw ++ [nl]) ++ dw')) as ->.
    { rewrite !str_len_app. change (str_len [nl]) with 1. lia. }
    destruct (slice_from _ _) as [after|]; cbn [mbind option_bind] in Hend |- *; [|done].
    apply (inj Some) in Hend. rewrite Hend.
    apply (Hplace (b ++ tw ++ [nl]) (take_while in_line dw') (drop_while in_line dw')).
    by rewrite take_drop_while.
Qed.

Lemma move_vertical_ok c direction :
  composer_ok c -> exists moved c', move_vertical char_width direction c = Some (moved, c') /\ composer_ok c'.
Proof.
  intros Hc. unfold move_vertical. destruct (is_empty _); [by do 2 eexists|].
  pose proof Hc as ([z (Hin & _ & _ & Hb & Ha & _)] & _).
  assert (Forall char_shape (z_text z)) as Hsh by (eapply ok_shape, ok_app; by split).
  destruct (wrap_impl_spec char_width (Nat.max (c_view_width c) 1) false (z_text z) Hsh) as (rows & Hrows & _).
  unfold wrap_composer_input_with_end_indices. rewrite Hin, Hrows. cbn [mbind option_bind].
  destruct (1 <? length rows) eqn:Hlen; [|by apply move_between_lines_ok].
  apply Nat.ltb_lt in Hlen. eapply move_between_rows_ok; [done| |done].
  unfold wrap_composer_input_with_end_indices. rewrite Hin. exact Hrows.
Qed.

(** ** The invariant *)

Definition message_ok (m : Message) : Prop :=
  Forall (fun part => match part with PText text => okt text | _ => True end) (msg_parts m).
Definition app_ok (app : ChatApp) : Prop :=
  composer_ok (composer app) /\ source_ok (menu app) /\ Forall message_ok (messages app).

(** The outcome of a step: the invariant again, or the panic of the menu on a
    text of good characters. *)
Definition outcome (res : option ChatApp) : Prop :=
  match res with
  | Some app' => app_ok app'
  | None => exists cs, ok_chars good cs /\ trapped cs
  end.
Definition outcome_with {A} (res : option (A * ChatApp)) : Prop := outcome (snd <$> res).

Lemma app_ok_composer app app' :
  composer_ok (composer app') -> same_rest app app' -> app_ok app -> app_ok app'.
Proof. intros Hc (Hmenu & Hmsgs & _) (_ & Hs & Hm). split_and!; [done|by rewrite Hmenu|by rewrite Hmsgs]. Qed.
Lemma app_ok_set c app : composer_ok c -> app_ok app -> app_ok (set_composer c app).
Proof. by intros Hc (_ & Hs & Hm). Qed.

Lemma edited_outcome app res z : app_ok app -> edited good app res z -> ok_chars good (z_text z) -> outcome res.
Proof.
  intros Hok H Hz. destruct res as [app'|]; [|by exists (z_text z)].
  destruct H as (Hrep & Hrest & Hdraft). apply (app_ok_composer app); [|done..].
  split; [by exists z|]. destruct Hok as ((_ & Hd) & _). destruct Hdraft as [->| ->]; done.
Qed.

Lemma Forall_take_drop {A} (P : A -> Prop) n l : Forall P l -> Forall P (take n l) /\ Forall P (drop n l).
Proof. intros H. split; [by apply Forall_take|by apply Forall_drop]. Qed.

(** An edit keeps the characters of the zipper good. *)
Lemma zip_edit_ok e z :
  edit_ok good e -> ok_chars good (z_before z) -> ok_chars good (z_after z) -> ok_chars good (z_killed z) ->
  ok_chars good (z_text (zip_edit e z)).
Proof.
  intros He Hb Ha Hk. unfold z_text. apply ok_app.
  assert (forall n l, ok_chars good l -> ok_chars good (drop n l)) as Hdrop by (intros; by apply Forall_drop).
  assert (forall n l, ok_chars good l -> ok_chars good (take n l)) as Htake by (intros; by apply Forall_take).
  destruct z as [b a k]; cbn in *. destruct e; cbn;
    unfold kill_before, kill_after, cut_before, cut_after, drop_last, take_last; cbn;
    repeat lazymatch goal with
    | |- context [if ?c then _ else _] => destruct c; cbn
    | |- context [match ?l with [] => _ | _ => _ end] => destruct l; cbn
    end; rewrite ?ok_app; split_and!; auto.
Qed.

Lemma edit_outcome e app :
  app_ok app -> edit_ok good e -> outcome (run_edit show_uuid rfc3339 e app).
Proof.
  intros Hok He. pose proof Hok as (([z Hz] & _) & _).
  eapply edited_outcome; [done|by apply run_edit_zipper|].
  destruct Hz as (_ & _ & _ & Hb & Ha & Hk). by apply zip_edit_ok.
Qed.

Lemma insert_outcome text app : app_ok app -> okt text -> outcome (insert_input_text show_uuid rfc3339 text app).
Proof. intros Hok (cs & -> & Hcs). by apply (edit_outcome (EInsert cs)). Qed.

Lemma input_ok app : app_ok app -> exists cs, c_input (composer app) = concat_str cs /\ ok_chars good cs.
Proof. intros (([z (Hin & _ & _ & Hb & Ha & _)] & _) & _). exists (z_text z). split; [done|]. by apply ok_app. Qed.

Lemma clamp_outcome app : app_ok app -> outcome (clamp_command_menu_selection show_uuid rfc3339 app).
Proof.
  intros Hok. destruct (input_ok app Hok) as (cs & Hin & Hcs).
  pose proof (clamp_total show_uuid rfc3339 app cs Hin (ok_shape _ _ Hcs)) as H.
  destruct (clamp_command_menu_selection _ _ app) as [app'|]; [|by exists cs].
  destruct H as (_ & Hc & Hrest). eapply app_ok_composer; [|exact Hrest|exact Hok].
  rewrite Hc. by destruct Hok.
Qed.

(** A new text with the cursor at its end. *)
Lemma new_text_ok c text index draft :
  composer_ok c -> okt text -> match draft with Some d => okt d | None => True end ->
  composer_ok (set_history index draft (clear_composer_preferred_column (set_text text (byte_len text) c))).
Proof.
  intros ([z (_ & _ & Hkill & _ & _ & Hk)] & _) (cs & -> & Hcs) Hdraft. split; [|exact Hdraft].
  exists (MkZipper cs [] (z_killed z)). split_and!; try done.
  - unfold z_text. cbn [z_before z_after]. by rewrite app_nil_r.
  - constructor.
Qed.

(** Completion replaces the last word: its start is a boundary wherever the
    menu is defined. *)
Lemma menu_item_boundary app items selected i :
  app_ok app -> current_command_menu_items show_uuid rfc3339 app = Some items -> items !! i = Some selected ->
  exists l r, c_input (composer app) = concat_str (l ++ r) /\ ok_chars good (l ++ r)
    /\ replacement_start (c_input (composer app)) = str_len l.
Proof.
  intros Hok Hitems Hi. destruct (input_ok app Hok) as (cs & Hin & Hcs).
  unfold current_command_menu_items, command_menu_items in Hitems.
  destruct (negb _) in Hitems; [by injection Hitems as <-|].
  unfold split_input in Hitems. destruct (slice_from _ _) as [prefix|] eqn:Hslice in Hitems; [|done].
  unfold slice_from, slice in Hslice.
  destruct (is_char_boundary (replacement_start (c_input (composer app))) (c_input (composer app))) eqn:Hb.
  2:{ by rewrite andb_false_r in Hslice. }
  rewrite Hin in Hb. apply boundary_inv in Hb as (l & r & -> & Hl); [|by eapply ok_shape].
  exists l, r. by rewrite Hin.
Qed.

Lemma complete_outcome app l r text :
  app_ok app -> c_input (composer app) = concat_str (l ++ r) -> ok_chars good (l ++ r) -> okt text ->
  outcome (complete_with show_uuid rfc3339 (str_len l) (byte_len (c_input (composer app))) text app).
Proof.
  intros Hok Hin Hlr Htext. unfold complete_with. rewrite Hin.
  change (byte_len (concat_str (l ++ r))) with (str_len (l ++ r)). rewrite str_len_app.
  pose proof Hlr as [Hl Hr]%ok_app.
  pose proof (replace_range_chars l r [] text (ok_shape _ _ Hl) (ok_shape _ _ Hr) ltac:(constructor)) as H.
  rewrite app_nil_r in H. rewrite H. cbn [mbind option_bind].
  apply clamp_outcome, app_ok_set; [|done]. apply new_text_ok; [by destruct Hok| |done].
  apply ok_text_app; [by apply ok_text_concat|]. apply ok_text_app; [done|apply ok_text_empty].
Qed.

Lemma apply_selected_outcome app :
  app_ok app -> outcome_with (apply_selected_command_menu_item show_uuid rfc3339 app).
Proof.
  intros Hok. unfold apply_selected_command_menu_item, outcome_with.
  destruct (current_command_menu_items show_uuid rfc3339 app) as [items|] eqn:Hitems.
  2:{ pose proof (clamp_outcome app Hok) as H. unfold clamp_command_menu_selection in H. by rewrite Hitems in H. }
  cbn [mbind option_bind]. destruct (items !! _) as [selected|] eqn:Hsel; [|done].
  destruct (menu_item_boundary app items selected _ Hok Hitems Hsel) as (l & r & Hin & Hlr & Hstart).
  cbn zeta. rewrite Hstart. pose proof Hlr as [Hl Hr]%ok_app.
  rewrite Hin at 1. rewrite slice_from_chars by (by eapply ok_shape). cbn [mbind option_bind].
  destruct (String.eqb _ _); [done|].
  pose proof (complete_outcome app l r (insert_text selected) Hok Hin Hlr) as H.
  assert (okt (insert_text selected)) as Ht.
  { assert (Forall item_ok items) as Hall by (eapply menu_items_ok; [by apply Hok|exact Hitems]).
    by eapply Forall_lookup_1 in Hall. }
  specialize (H Ht). by destruct (complete_with _ _ _ _ _ app).
Qed.

(** The completions are defined exactly where the menu is. *)
Lemma completion_outcome app :
  app_ok app -> let src := menu app in
  match completion_for_input (c_input (composer app)) (ms_current_connection src) (ms_current_model src)
          (ms_connections src) (ms_connection_models src) with
  | None => exists cs, ok_chars good cs /\ trapped cs
  | Some None => True
  | Some (Some completion) =>
      exists l r, c_input (composer app) = concat_str (l ++ r) /\ ok_chars good (l ++ r)
        /\ replacement completion = (str_len l, byte_len (c_input (composer app)))
        /\ Forall okt (candidates completion)
  end.
Proof.
  intros Hok src. destruct (input_ok app Hok) as (cs & Hin & Hcs).
  destruct (completion_for_input _ _ _ _ _) as [[completion|]|] eqn:Hcomp; [| done |].
  - assert (source_ok src) as Hs by apply Hok.
    destruct (completion_ok _ _ _ Hs Hcomp) as [Hrep Hcand].
    unfold completion_for_input in Hcomp. destruct (negb _) in Hcomp; [done|].
    unfold split_input in Hcomp. destruct (slice_from _ _) as [prefix|] eqn:Hslice in Hcomp; [|done]. clear Hcomp.
    unfold slice_from, slice in Hslice.
    destruct (is_char_boundary (replacement_start (c_input (composer app))) (c_input (composer app))) eqn:Hb.
    2:{ by rewrite andb_false_r in Hslice. }
    rewrite Hin in Hb. apply boundary_inv in Hb as (l & r & -> & Hl); [|by eapply ok_shape].
    exists l, r. rewrite Hrep, Hin, Hl. by rewrite Hin in Hrep.
  - exists cs. split; [done|]. unfold completion_for_input in Hcomp. rewrite Hin in Hcomp.
    unfold trapped. destruct (starts_with "/" (concat_str cs)); [|done]. split; [done|].
    pose proof (split_input_total cs (ok_shape _ _ Hcs)) as H. cbn [negb] in Hcomp.
    destruct (split_input (concat_str cs)) as [[prefix tokens]|]; [|done].
    cbn [mbind option_bind] in Hcomp. discriminate Hcomp.
Qed.

Lemma input_completion_outcome app :
  app_ok app -> outcome (apply_input_completion show_uuid rfc3339 app).
Proof.
  intros Hok. unfold apply_input_completion. pose proof (apply_selected_outcome app Hok) as H.
  destruct (apply_selected_command_menu_item show_uuid rfc3339 app) as [[[] app1]|]; cbn in H |- *; [done| |done].
  pose proof (completion_outcome app1 H) as Hcomp. cbn zeta in Hcomp.
  destruct (completion_for_input _ _ _ _ _) as [[completion|]|]; cbn [mbind option_bind]; [|done|done].
  destruct Hcomp as (l & r & Hin & Hlr & -> & Hcand).
  pose proof Hlr as [Hl Hr]%ok_app.
  change (slice (str_len l) (byte_len (c_input (composer app1)))) with (slice (str_len l) (byte_len (c_input (composer app1)))).
  assert (slice (str_len l) (byte_len (c_input (composer app1))) (c_input (composer app1)) = Some (concat_str r)) as ->.
  { rewrite Hin. apply slice_from_chars. by eapply ok_shape. }
  cbn [mbind option_bind].
  assert (forall t, okt t -> outcome (complete_with show_uuid rfc3339 (str_len l) (byte_len (c_input (composer app1))) t app1))
    as Hcomplete by (intros; by eapply complete_outcome).
  assert (outcome (app2 ← match shared_prefix (candidates completion) with
                          | Some shared =>
                              if byte_len (concat_str r) <? byte_len shared
                              then complete_with show_uuid rfc3339 (str_len l) (byte_len (c_input (composer app1))) shared app1
                              else Some app1
                          | None => Some app1
                          end;
                   Some (show_notice (completion_candidates_line (candidates completion)) app2))) as Hmany.
  { destruct (shared_prefix _) as [shared|] eqn:Hshared; [|done].
    destruct (_ <? _); [|done]. specialize (Hcomplete shared (shared_prefix_ok _ _ Hcand Hshared)).
    by destruct (complete_with _ _ _ _ _ _). }
  destruct (candidates completion) as [|candidate [|]]; [exact Hmany| |exact Hmany].
  inversion_clear Hcand. by apply Hcomplete.
Qed.

(** ** History, menus and arrows *)

Lemma join_ok sep l : okt sep -> Forall okt l -> okt (join sep l).
Proof.
  intros Hsep H. unfold join. induction H as [|s l Hs Hl IH]; [apply ok_text_empty|].
  destruct l as [|t l]; [done|]. change (String.concat sep (s :: t :: l)) with (s +:+ (sep +:+ String.concat sep (t :: l))).
  apply ok_text_app; [done|]. by apply ok_text_app.
Qed.
Lemma trim_line_ends_ok s : okt s -> okt (trim_end_line_ends s).
Proof.
  intros H. exists (drop_while_end is_line_end (chars s)). split; [done|].
  by apply drop_while_end_Forall, ok_text_chars.
Qed.

Lemma history_ok app : app_ok app -> Forall okt (sent_user_input_history app).
Proof.
  intros (_ & _ & Hm). unfold sent_user_input_history. induction Hm as [|m ms Hparts _ IH]; simpl; [constructor|].
  destruct (user_message_history_entry m) as [text|] eqn:Ht; [|done]. constructor; [|done].
  unfold user_message_history_entry in Ht. destruct (msg_role m); try done.
  destruct (is_blank _); [done|]. injection Ht as <-. apply join_ok; [by apply ascii_ok|].
  induction Hparts as [|part parts Hpart _ IHp]; simpl; [constructor|].
  destruct part; try done. constructor; [by apply trim_line_ends_ok|done].
Qed.

Lemma composer_draft_ok app : app_ok app ->
  match c_history_browse_draft (composer app) with Some d => okt d | None => True end.
Proof. by intros ((_ & H) & _). Qed.

Lemma browse_outcome direction app : app_ok app -> outcome (browse_input_history show_uuid rfc3339 direction app).
Proof.
  intros Hok. pose proof (history_ok app Hok) as Hhist. pose proof (composer_draft_ok app Hok) as Hdraft.
  pose proof Hok as (Hc & _). unfold browse_input_history.
  destruct (sent_user_input_history app) as [|first rest]; [done|].
  set (history := first :: rest) in *. cbn zeta.
  assert (Hpick : forall draft index, match draft with Some d => okt d | None => True end ->
    outcome (input ← history !! (length history - 1 - index);
             clamp_command_menu_selection show_uuid rfc3339
               (set_composer (set_history (Some index) draft
                  (clear_composer_preferred_column (set_text input (byte_len input) (composer app)))) app))).
  { intros draft index Hd. destruct (history !! _) as [input|] eqn:Hi.
    2:{ apply lookup_ge_None in Hi. unfold history in Hi. simpl in Hi. lia. }
    cbn [mbind option_bind]. apply clamp_outcome, app_ok_set; [|done].
    apply new_text_ok; [done| |done]. by eapply Forall_lookup_1 in Hhist. }
  assert (Hdone : outcome (clamp_command_menu_selection show_uuid rfc3339
    (set_composer (set_history None None
       match c_history_browse_draft (composer app) with
       | Some draft => clear_composer_preferred_column (set_text draft (byte_len draft) (composer app))
       | None => composer app
       end) app))).
  { apply clamp_outcome, app_ok_set; [|done]. destruct (c_history_browse_draft (composer app)) as [draft|] eqn:Hd.
    - by apply new_text_ok.
    - by destruct Hc. }
  destruct (c_history_browse_index (composer app)) as [current|].
  - destruct (direction <? 0)%Z; [by apply Hpick|]. destruct (current =? 0); [exact Hdone|by apply Hpick].
  - destruct (direction <? 0)%Z; [|exact Hdone]. apply (Hpick (Some (c_input (composer app))) 0).
    destruct (input_ok app Hok) as (cs & -> & Hcs). by apply ok_text_concat.
Qed.

Lemma bottom_ok b app : app_ok app -> app_ok (set_bottom_shell b app).
Proof. done. Qed.

Lemma items_None app : app_ok app -> current_command_menu_items show_uuid rfc3339 app = None ->
  exists cs, ok_chars good cs /\ trapped cs.
Proof.
  intros Hok H. pose proof (clamp_outcome app Hok) as Hc. unfold clamp_command_menu_selection in Hc.
  by rewrite H in Hc.
Qed.

Lemma select_outcome app :
  app_ok app ->
  outcome (select_previous_command_menu_item show_uuid rfc3339 app)
  /\ outcome (select_next_command_menu_item show_uuid rfc3339 app).
Proof.
  intros Hok. unfold select_previous_command_menu_item, select_next_command_menu_item.
  destruct (current_command_menu_items show_uuid rfc3339 app) as [items|] eqn:Hitems; cbn [mbind option_bind].
  2:{ by split; apply (items_None app). }
  destruct (length items =? 0); [done|]. by split; apply clamp_outcome.
Qed.

Lemma slash_trim s : utf8_start s -> starts_with "/" s = true -> trim_start s = s.
Proof.
  intros Hs H. apply starts_with_prefix in H as [t ->]. unfold trim_start.
  assert (exists c cs, chars ("/" +:+ t) = c :: cs /\ exists u, c = String "/" u) as (c & cs & Hcs & u & ->).
  { unfold chars. change ("/" +:+ t) with (String "/" t). cbn [utf8_split]. destruct (utf8_split t) as [pre cs]. exists (String "/" pre), cs. split; [done|by exists pre]. }
  rewrite Hcs. cbn [drop_while]. assert (is_whitespace (String "/" u) = false) as ->.
  { destruct u as [|b [|d [|]]]; done. }
  by rewrite <- Hcs, concat_chars.
Qed.

Lemma should_show_outcome app :
  app_ok app ->
  match should_show_command_menu show_uuid rfc3339 app with
  | Some _ => True
  | None => exists cs, ok_chars good cs /\ trapped cs
  end.
Proof.
  intros Hok. unfold should_show_command_menu. destruct (negb _); [done|]. destruct (String.eqb _ _); [done|].
  destruct (current_command_menu_items show_uuid rfc3339 app) as [items|] eqn:Hitems; cbn [mbind option_bind].
  2:{ by apply (items_None app). }
  destruct items as [|item items]; [done|]. destruct (_ || _); [done|].
  destruct (menu_item_boundary app _ item 0 Hok Hitems eq_refl) as (l & r & Hin & Hlr & Hstart).
  assert (trim_start (c_input (composer app)) = c_input (composer app)) as ->.
  { apply slash_trim.
    - rewrite Hin. apply utf8_start_concat. by eapply ok_shape.
    - unfold current_command_menu_items, command_menu_items in Hitems.
      destruct (starts_with "/" (c_input (composer app))); [done|]. done. }
  rewrite Hstart, Hin, slice_from_chars; [done|]. apply ok_app in Hlr as [_ Hr]. by eapply ok_shape.
Qed.

Lemma navigate_outcome direction app : app_ok app -> outcome (navigate char_width show_uuid rfc3339 direction app).
Proof.
  intros Hok. unfold navigate. cbn zeta. destruct (approval_menu_is_active app) eqn:Happr.
  { unfold select_previous_approval_choice, select_next_approval_choice. rewrite Happr. by destruct (direction <? 0)%Z. }
  pose proof (should_show_outcome app Hok) as Hshow.
  destruct (should_show_command_menu _ _ app) as [shown|]; cbn [mbind option_bind]; [|done].
  set (in_menu := if shown then _ else _).
  assert (match in_menu with Some _ => True | None => exists cs, ok_chars good cs /\ trapped cs end) as Hmenu.
  { unfold in_menu. destruct shown; [|done].
    destruct (current_command_menu_items _ _ app) as [items|] eqn:Hi; [done|]. by apply (items_None app). }
  destruct in_menu as [[]|]; cbn [mbind option_bind]; [by destruct (direction <? 0)%Z; apply select_outcome| |done].
  destruct (has_question_choices app).
  { unfold select_previous_question_choice, select_next_question_choice.
    destruct (direction <? 0)%Z; [by destruct (_ || _)|by destruct (_ || _)]. }
  destruct (c_history_browse_index (composer app)); cbn [mbind option_bind]; [by apply browse_outcome|].
  pose proof Hok as (Hc & _). unfold move_input_cursor_vertical.
  destruct (move_vertical_ok _ direction Hc) as (moved & c' & -> & Hc'). cbn [mbind option_bind].
  destruct moved; [by apply app_ok_set|]. by apply browse_outcome, app_ok_set.
Qed.

(** ** Keys *)

Definition key_ok (key : KeyEvent) : Prop :=
  match k_code key with KeyChar ch => ok_char good ch | _ => True end.

Lemma escape_ok app : app_ok app -> app_ok (handle_escape app).
Proof. intros H. unfold handle_escape. by destruct (turn_is_busy (turn app)). Qed.

Lemma quietly_outcome res : outcome res -> outcome_with (quietly res).
Proof. intros H. unfold outcome_with, quietly. by destruct res. Qed.

Lemma bound_action_outcome action app :
  app_ok app -> outcome_with (apply_bound_key_action char_width show_uuid rfc3339 action app).
Proof.
  intros Hok.
  assert (forall e, edit_ok good e -> outcome_with (quietly (run_edit show_uuid rfc3339 e app))) as Hedit.
  { intros e He. by apply quietly_outcome, edit_outcome. }
  destruct action; cbn [apply_bound_key_action].
  - by apply quietly_outcome, escape_ok.
  - by destruct (turn_is_busy (turn app)).
  - unfold submit_from_composer. destruct (selected_approval_choice app); [done|].
    destruct (starts_with _ _); [|done]. pose proof (apply_selected_outcome app Hok) as H.
    by destruct (apply_selected_command_menu_item _ _ app) as [[[] app1]|].
  - by apply quietly_outcome, input_completion_outcome.
  - by apply quietly_outcome, navigate_outcome.
  - by apply quietly_outcome, navigate_outcome.
  - by apply (Hedit EBackspace).
  - by apply (Hedit EDelete).
  - by apply (Hedit EDeleteWordRight).
  - by apply (Hedit ELeft).
  - by apply (Hedit ERight).
  - done.
  - done.
  - done.
  - done.
  - done.
  - by apply (Hedit EStart).
  - by apply (Hedit EEnd).
  - by apply (Hedit EKillAfter).
  - by apply (Hedit EKillBefore).
  - by apply (Hedit EDeleteWordLeft).
  - by apply (Hedit EKillWordLeft).
  - by apply (Hedit EWordLeft).
  - by apply (Hedit EWordRight).
  - apply quietly_outcome, insert_outcome; [done|by apply ascii_ok].
  - done.
  - done.
  - by apply (Hedit EYank).
Qed.

Lemma key_outcome now key app :
  app_ok app -> key_ok key -> outcome_with (handle_key char_width show_uuid rfc3339 now key app).
Proof.
  intros Hok Hkey.
  assert (forall app, app_ok app ->
    outcome_with (handle_key_without_escape_prefix char_width show_uuid rfc3339 key app)) as Hplain.
  { clear Hok app. intros app Hok. unfold handle_key_without_escape_prefix.
    destruct (bound_action_for_key key); [by apply bound_action_outcome|].
    unfold key_ok in Hkey. destruct (k_code key); try done.
    apply quietly_outcome, insert_outcome; [done|]. exists [ch]. split; [simpl; by rewrite append_nil_r|].
    by constructor. }
  unfold handle_key.
  assert (app_ok (flush_pending_escape_prefix_if_expired app now)) as Hflush.
  { unfold flush_pending_escape_prefix_if_expired. destruct (pending_escape_prefix_at app); [|done].
    destruct (_ <? _)%Z; [done|]. by apply escape_ok. }
  set (app1 := flush_pending_escape_prefix_if_expired app now) in *. clearbody app1. cbn zeta.
  destruct (should_quit app1); [done|]. destruct (pending_escape_prefix_at app1).
  - destruct (escape_prefixed_action_for_key key); [by apply bound_action_outcome|].
    assert (app_ok (handle_escape (set_escape None app1))) as Hesc by by apply escape_ok.
    destruct (should_quit (handle_escape (set_escape None app1))); [done|by apply Hplain].
  - destruct (is_plain_escape_key key); [done|by apply Hplain].
Qed.

(** What the terminal sends: keys and pasted texts. *)
Inductive TerminalInput : Type := Press (now : Z) (key : KeyEvent) | Paste (text : string).
Definition input_event_ok (e : TerminalInput) : Prop :=
  match e with Press _ key => key_ok key | Paste text => okt text end.
Definition run_input (e : TerminalInput) (app : ChatApp) : option ChatApp :=
  match e with
  | Press now key => snd <$> handle_key char_width show_uuid rfc3339 now key app
  | Paste text => handle_paste show_uuid rfc3339 text app
  end.
Fixpoint run_inputs (es : list TerminalInput) (app : ChatApp) : option ChatApp :=
  match es with
  | [] => Some app
  | e :: es => app ← run_input e app; run_inputs es app
  end.
End keys.
