(* ===== verification/ComposerResults.v ===== *)
(** * What a user of the composer can rely on

    Sequences of keys and pasted texts keep the composer valid; the panic of
    the menu on wide white space; the rows of the menu that are visible; and
    what becomes of a text that is sent. *)

From stdpp Require Import base list strings sorting.
From Stdlib Require Import ZArith Lia Ascii.
From S2P Require Import Prelude Text Json Types Messages TextUtils TextWrap Commands Composer ComposerLaws ComposerKeys.

#[local] Open Scope nat_scope.

(** ** Pasted texts *)

(** A character that starts with an ASCII byte is that byte. *)
Definition real_char (c : string) : Prop :=
  match c with String a t => (byte_val a < 128)%N -> t = "" | "" => False end.

Lemma continuation_large a : is_continuation a = true -> (128 <= byte_val a)%N.
Proof. unfold is_continuation. intros [H _]%andb_true_iff. by apply N.leb_le. Qed.
Lemma large_not_cr a : (128 <= byte_val a)%N -> Ascii.eqb a carriage_return = false.
Proof. intros H. apply Ascii.eqb_neq. intros ->. by compute in H. Qed.

(** Continuation bytes are left alone. *)
Lemma replace_cont t s :
  utf8_split t = (t, []) ->
  replace_crlf (t +:+ s) = t +:+ replace_crlf s /\ replace_cr (t +:+ s) = t +:+ replace_cr s.
Proof.
  induction t as [|a t IH]; intros H; [done|]. cbn [utf8_split] in H.
  destruct (utf8_split t) as [pre cs] eqn:Ht. destruct (is_continuation a) eqn:Ha; [|done].
  injection H as -> ->. destruct (IH eq_refl) as [IH1 IH2].
  apply continuation_large, large_not_cr in Ha.
  change (String a t +:+ s) with (String a (t +:+ s)). cbn [replace_crlf replace_cr]. rewrite Ha, IH1, IH2. done.
Qed.

Lemma replace_head a t s :
  Ascii.eqb a carriage_return = false -> utf8_split t = (t, []) ->
  replace_crlf (String a t +:+ s) = String a t +:+ replace_crlf s
  /\ replace_cr (String a t +:+ s) = String a t +:+ replace_cr s.
Proof.
  intros Ha Ht. destruct (replace_cont t s Ht) as [H1 H2].
  change (String a t +:+ s) with (String a (t +:+ s)). cbn [replace_crlf replace_cr]. rewrite Ha, H1, H2. done.
Qed.

Section paste.
Context (good : string -> Prop).
Context (good_real : forall c, good c -> real_char c).
Context (good_newline : good nl).

Lemma cons_ok c s : ok_char good c -> ok_text good s -> ok_text good (c +:+ s).
Proof. intros Hc (cs & -> & Hcs). exists (c :: cs). split; [done|by constructor]. Qed.
Lemma newline_ok : ok_char good nl.
Proof. split; [|done]. by exists newline, "". Qed.

(** A character is a carriage return or does not start with one. *)
Lemma char_cases c :
  ok_char good c ->
  c = String carriage_return "" \/
  exists a t, c = String a t /\ Ascii.eqb a carriage_return = false /\ utf8_split t = (t, []).
Proof.
  intros ((a & t & -> & _ & Ht) & Hg). apply good_real in Hg. cbn in Hg.
  destruct (Ascii.eqb_spec a carriage_return) as [->|Hne]; [left; by rewrite Hg|right].
  exists a, t. split_and!; [done|by apply Ascii.eqb_neq|done].
Qed.

Lemma replace_crlf_ok s : ok_text good s -> ok_text good (replace_crlf s).
Proof.
  intros (cs & -> & Hcs). remember (length cs) as n eqn:Hn. revert cs Hn Hcs.
  induction (lt_wf n) as [n _ IH]. intros [|c cs] -> Hcs; [apply ok_text_empty|].
  inversion_clear Hcs as [|? ? Hc Hcs']. change (concat_str (c :: cs)) with (c +:+ concat_str cs).
  assert (ok_text good (replace_crlf (concat_str cs))) as Hrest by (eapply IH; [|done|done]; simpl; lia).
  destruct (char_cases c Hc) as [->|(a & t & -> & Ha & Ht)].
  2:{ rewrite (proj1 (replace_head a t _ Ha Ht)). by apply cons_ok. }
  change (String carriage_return "" +:+ concat_str cs) with (String carriage_return (concat_str cs)).
  cbn [replace_crlf]. rewrite Ascii.eqb_refl. destruct cs as [|d ds]; [exists [String carriage_return ""]; split; [done|by constructor]|].
  inversion_clear Hcs' as [|? ? Hd Hds].
  destruct d as [|b u]; [destruct Hd as [(? & ? & ? & _) _]; done|].
  change (concat_str (String b u :: ds)) with (String b (u +:+ concat_str ds)) in Hrest |- *.
  cbv iota. destruct (Ascii.eqb_spec b newline) as [->|Hb].
  - assert (u = "") as -> by (destruct Hd as [_ Hg]; apply good_real in Hg; by apply Hg).
    change (String newline (replace_crlf ("" +:+ concat_str ds))) with (nl +:+ replace_crlf (concat_str ds)).
    apply cons_ok; [apply newline_ok|]. eapply IH; [|done|done]. simpl. lia.
  - change (String carriage_return (replace_crlf (String b (u +:+ concat_str ds))))
      with (String carriage_return "" +:+ replace_crlf (String b (u +:+ concat_str ds))).
    by apply cons_ok.
Qed.

Lemma replace_cr_ok s : ok_text good s -> ok_text good (replace_cr s).
Proof.
  intros (cs & -> & Hcs). induction Hcs as [|c cs Hc _ IH]; [apply ok_text_empty|].
  change (concat_str (c :: cs)) with (c +:+ concat_str cs).
  destruct (char_cases c Hc) as [->|(a & t & -> & Ha & Ht)].
  - change (replace_cr (String carriage_return "" +:+ concat_str cs)) with (nl +:+ replace_cr (concat_str cs)).
    apply cons_ok; [apply newline_ok|done].
  - rewrite (proj2 (replace_head a t _ Ha Ht)). by apply cons_ok.
Qed.

Lemma paste_outcome show_uuid rfc3339 text app :
  app_ok good app -> ok_text good text -> outcome good (handle_paste show_uuid rfc3339 text app).
Proof.
  intros Hok Ht. unfold handle_paste. destruct (is_empty text); [done|].
  apply insert_outcome; [done|]. by apply replace_cr_ok, replace_crlf_ok.
Qed.
End paste.

(** ** Sequences of keys and texts *)

(** A character whose white space takes one byte. *)
Definition narrow_char (c : string) : Prop := real_char c /\ (is_whitespace c = true -> byte_len c = 1).

Lemma real_ascii a : (byte_val a < 128)%N -> real_char (String a "").
Proof. done. Qed.
Lemma narrow_ascii a : (byte_val a < 128)%N -> narrow_char (String a "").
Proof. by split. Qed.

Lemma narrow_not_trapped cs : ok_chars narrow_char cs -> ~ trapped cs.
Proof.
  intros Hcs (_ & l & c & r & -> & Hws & Hlen & _). apply ok_app in Hcs as [_ Hcs].
  inversion_clear Hcs as [|? ? [_ [_ Hc]] _]. specialize (Hc Hws). lia.
Qed.

Lemma run_inputs_outcome char_width show_uuid rfc3339 good es app :
  (forall a, (byte_val a < 128)%N -> good (String a "")) -> (forall c, good c -> real_char c) ->
  (forall n, ok_text good (show_uuid n)) ->
  app_ok good app -> Forall (input_event_ok good) es ->
  outcome good (run_inputs char_width show_uuid rfc3339 es app).
Proof.
  intros Hascii Hreal Huuid Hok He. revert app Hok. induction He as [|e es He _ IH]; intros app Hok; [done|].
  cbn [run_inputs].
  assert (outcome good (run_input char_width show_uuid rfc3339 e app)) as H.
  { destruct e as [now key|text]; cbn [run_input].
    - by apply key_outcome.
    - apply paste_outcome; [done|by apply Hascii|done|done]. }
  destruct (run_input char_width show_uuid rfc3339 e app) as [app'|]; cbn [mbind option_bind]; [by apply IH|done].
Qed.

(** C35. Typing of the composer: whatever sequence of keys and pasted texts
    arrives, in whatever state of the turn and the menus, the text, the kill
    buffer and the history draft stay texts of whole characters and the cursor
    stays between two of them, inside the text; and no panic is possible as
    long as white space takes one byte in every text the keys can bring in. *)
Theorem composer_stays_valid char_width show_uuid rfc3339 es app :
  (forall n, ok_text narrow_char (show_uuid n)) ->
  app_ok real_char app -> Forall (input_event_ok real_char) es ->
  match run_inputs char_width show_uuid rfc3339 es app with
  | Some app' =>
      app_ok real_char app'
      /\ is_char_boundary (c_cursor (composer app')) (c_input (composer app')) = true
      /\ c_cursor (composer app') <= byte_len (c_input (composer app'))
  | None => ~ (app_ok narrow_char app /\ Forall (input_event_ok narrow_char) es)
  end.
Proof.
  intros Huuid Hok He.
  assert (forall n, ok_text real_char (show_uuid n)) as Huuid'.
  { intros n. destruct (Huuid n) as (cs & Hcs & H). exists cs. split; [done|].
    eapply Forall_impl; [exact H|]. by intros c [? []]. }
  pose proof (run_inputs_outcome char_width show_uuid rfc3339 real_char es app real_ascii (fun c H => H) Huuid' Hok He) as H.
  pose proof (fun Hn : app_ok narrow_char app /\ Forall (input_event_ok narrow_char) es =>
    run_inputs_outcome char_width show_uuid rfc3339 narrow_char es app narrow_ascii (fun c H => proj1 H) Huuid
      (proj1 Hn) (proj2 Hn)) as Hnarrow.
  destruct (run_inputs char_width show_uuid rfc3339 es app) as [app'|].
  - split; [done|]. destruct H as (([z (Hin & Hcur & _ & Hb & Ha & _)] & _) & _).
    rewrite Hin, Hcur. split; [by eapply boundary_at, ok_shape|].
    change (byte_len (concat_str (z_text z))) with (str_len (z_text z)). unfold z_text. rewrite str_len_app. lia.
  - intros Hn. destruct (Hnarrow Hn) as (cs & Hcs & Ht). by eapply narrow_not_trapped.
Qed.

(** ** Samples *)

Definition sample_key (code : KeyCode) : TerminalInput := Press 0 (MkKey code NONE).
Definition sample_source : MenuSource := MkMenuSource (MkConnectionId "local") None [] None [] [] "/work".
Definition idle_turn : TurnStatus := MkTurnStatus [] [] false false false None None false None false None [].
Definition sample_app : ChatApp :=
  MkChatApp (MkComposer "" 0 None "" None None 80) initial_bottom_shell sample_source [] idle_turn false None None.
Definition sample_uuid (n : N) : string := "00000000".
Definition sample_time (t : OffsetDateTime) : string := "1970-01-01T00:00:00Z".

(** A no-break space, two bytes of white space. *)
Definition nbsp : string := String (ascii_of_nat 194) (String (ascii_of_nat 160) "").

Lemma sample_app_ok good : app_ok good sample_app.
Proof.
  split_and!; [|by split_and!|constructor]. split; [|done]. exists (MkZipper [] [] []).
  split_and!; try done; constructor.
Qed.

Lemma single_ok a : (byte_val a < 128)%N -> ok_char real_char (String a "").
Proof.
  intros Ha. split; [|by apply real_ascii]. exists a, "". split_and!; [done| |done]. unfold is_continuation.
  by rewrite (proj2 (N.leb_gt _ _)) by done.
Qed.

(** Text pasted, the cursor moved into it, a key typed and erased. *)
Definition sample_inputs : list TerminalInput :=
  [Paste "one two"; sample_key KeyLeft; sample_key (KeyChar "x"); sample_key KeyUp; sample_key KeyEnd;
   Press 1 (MkKey (KeyChar "w") CONTROL)].

Lemma composer_stays_valid_witness :
  (c_input ∘ composer) <$> run_inputs one_column sample_uuid sample_time sample_inputs sample_app = Some "one o"
  /\ match run_inputs one_column sample_uuid sample_time sample_inputs sample_app with
     | Some app' =>
         app_ok real_char app'
         /\ is_char_boundary (c_cursor (composer app')) (c_input (composer app')) = true
         /\ c_cursor (composer app') <= byte_len (c_input (composer app'))
     | None => ~ (app_ok narrow_char sample_app /\ Forall (input_event_ok narrow_char) sample_inputs)
     end.
Proof.
  split; [vm_compute; reflexivity|]. apply composer_stays_valid.
  - intros n. by apply (ascii_ok narrow_char narrow_ascii).
  - apply sample_app_ok.
  - unfold sample_inputs. repeat (apply Forall_cons_2 || apply Forall_nil_2);
      first [exact I | by apply single_ok | by apply (ascii_ok real_char real_ascii)].
Defined.

(** ** The panic of the menu *)

(** The panic, on every state: inserting a text that makes the composer
    hold a slash command whose last white space takes several bytes and is not
    at its end (a no-break space before the last word) panics in the menu, and
    on a composer that holds such a text so do its menu and the completion of
    the tab key: the code adds one byte to the offset of that white space and
    slices there. *)
Theorem wide_space_panics show_uuid rfc3339 app z cs :
  represents any_char (composer app) z -> ok_chars any_char cs -> cs <> [] ->
  trapped (z_before z ++ cs ++ z_after z) ->
  insert_input_text show_uuid rfc3339 (concat_str cs) app = None
  /\ forall app', c_input (composer app') = concat_str (z_before z ++ cs ++ z_after z) ->
       current_command_menu_items show_uuid rfc3339 app' = None
       /\ apply_input_completion show_uuid rfc3339 app' = None.
Proof.
  intros (Hin & Hcur & _ & Hb & Ha & _) Hcs Hne Htrap.
  assert (Forall char_shape (z_before z ++ cs ++ z_after z)) as Hsh.
  { eapply ok_shape. rewrite !ok_app. done. }
  assert (Hmenu : forall app', c_input (composer app') = concat_str (z_before z ++ cs ++ z_after z) ->
    current_command_menu_items show_uuid rfc3339 app' = None).
  { intros app' Happ. unfold current_command_menu_items. rewrite Happ.
    pose proof (menu_items_total show_uuid rfc3339 _ (menu app') Hsh) as H.
    by destruct (command_menu_items _ _ _ _). }
  split.
  - unfold insert_input_text. rewrite is_empty_chars by (by eapply ok_shape).
    rewrite bool_decide_eq_false_2 by done. cbn zeta. rewrite clear_input, clear_cursor, Hin, Hcur.
    unfold insert_str, z_text.
    pose proof (replace_range_chars (z_before z) [] (z_after z) (concat_str cs)) as H.
    change (str_len []) with 0 in H. rewrite Nat.add_0_r in H. change ([] ++ z_after z) with (z_after z) in H.
    rewrite H; [|by eapply ok_shape|constructor|by eapply ok_shape]. cbn [mbind option_bind].
    unfold finish_edit, clamp_command_menu_selection. by rewrite Hmenu by (cbn; by rewrite !concat_str_app).
  - intros app' Happ. split; [by apply Hmenu|].
    unfold apply_input_completion, apply_selected_command_menu_item. by rewrite Hmenu.
Qed.

Lemma any_ascii s : is_ascii_text s = true -> ok_chars any_char (chars s).
Proof. intros H. apply ok_text_chars. by apply (ascii_ok any_char (fun _ _ => I)). Qed.
Lemma nbsp_char : char_shape nbsp.
Proof. eexists _, _. split_and!; [reflexivity|by vm_compute..]. Qed.

(** Pasting ["/help a b"] with a no-break space into the empty composer. *)
Definition wide_paste : list string := ["/"; "h"; "e"; "l"; "p"; " "; "a"; nbsp; "b"].

Lemma wide_space_panics_witness :
  handle_paste sample_uuid sample_time (concat_str wide_paste) sample_app = None
  /\ insert_input_text sample_uuid sample_time (concat_str wide_paste) sample_app = None.
Proof.
  split; [vm_compute; reflexivity|].
  apply (wide_space_panics sample_uuid sample_time sample_app (MkZipper [] [] []) wide_paste).
  - split_and!; try done; constructor.
  - unfold wide_paste. repeat (apply Forall_cons_2 || apply Forall_nil_2); (split; [|exact I]);
      first [apply nbsp_char | by apply single_ok].
  - done.
  - split; [by vm_compute|]. exists ["/"; "h"; "e"; "l"; "p"; " "; "a"], nbsp, ["b"].
    split_and!; [done|by vm_compute|apply Nat.ltb_lt; by vm_compute|done|repeat constructor].
Defined.

(** ** The window of the menu *)

(** The item selected in a menu of [len] items is one of the rows shown. *)
Definition selection_visible (len : nat) (b : BottomShellState) : Prop :=
  len = 0 \/ b_command_menu_selection b < len
    /\ b_command_menu_scroll_top b <= b_command_menu_selection b < b_command_menu_scroll_top b + COMMAND_MENU_ROWS
    /\ (b_command_menu_scroll_top b = 0 \/ b_command_menu_scroll_top b + COMMAND_MENU_ROWS <= len).

Lemma clamp_menu_visible len b : selection_visible len (clamp_menu len b).
Proof.
  unfold selection_visible. destruct (decide (len = 0)) as [|Hlen]; [by left|right].
  unfold clamp_menu. rewrite (proj2 (Nat.eqb_neq _ _) Hlen).
  change COMMAND_MENU_ROWS with 5. cbn [b_command_menu_selection b_command_menu_scroll_top].
  destruct (Nat.leb_spec len (b_command_menu_selection b));
    repeat match goal with |- context [?x <? ?y] => destruct (Nat.ltb_spec x y) end; lia.
Qed.

(** ** Sending *)

(** The text a request carries. *)
Definition carried (request : StartedRequest) : option string :=
  match request with
  | AnswerTool _ (VString text) => Some text
  | AnswerTool _ _ => None
  | SendMessage text | SubmitInBackground _ text | RunShellCommand text _ => Some text
  end.

(** When a text is refused: a question is open and its answer under way, a
    shell command while anything else runs, a message while a shell command
    runs. *)
Definition refused (t : TurnStatus) (text : string) : bool :=
  match t_pending_inputs t with
  | _ :: _ => t_pending_send t
  | [] =>
      let shell := bool_decide (is_Some (t_pending_shell_command t)) in
      if is_operator_shell_input text then turn_is_busy t || shell else shell
  end.

(** C37. What becomes of a text that is sent, neither blank nor a slash
    command: the composer is emptied in every case; unless it is refused,
    exactly one request is started and it carries the text; when it is
    refused (an answer, a shell command or a message that has to wait) no
    request is started and the text is nowhere in the state: not in the
    composer, its kill buffer, its history or the messages. *)
Theorem sent_text_is_carried_or_lost app :
  let text := trim_end_line_ends (c_input (composer app)) in
  t_pending_session_load (turn app) = false -> is_blank text = false ->
  starts_with "/" (trim_start text) = false ->
  let '(command, app') := send_input app in
  command = None
  /\ composer app' = set_history None None (set_preferred None (set_text "" 0 (composer app)))
  /\ messages app' = messages app
  /\ if refused (turn app) text
     then t_started (turn app') = t_started (turn app) /\ is_Some (notice app')
     else exists request, t_started (turn app') = t_started (turn app) ++ [request] /\ carried request = Some text.
Proof.
  intros text Hload Hblank Hslash. unfold send_input, refused. fold text. rewrite Hload, Hblank, Hslash.
  unfold start_answer_pending_input. change (turn (clear_composer app)) with (turn app).
  destruct (t_pending_inputs (turn app)) as [|pending rest] eqn:Hinputs; cbn [length Nat.eqb negb].
  - destruct (is_operator_shell_input text).
    + destruct (turn_is_busy (turn app) || bool_decide (is_Some (t_pending_shell_command (turn app)))).
      * by split_and!.
      * split_and!; try done. by eexists.
    + destruct (bool_decide (is_Some (t_pending_shell_command (turn app)))).
      * by split_and!.
      * destruct (_ || _); (split_and!; try done; by eexists).
  - destruct (t_pending_send (turn app)) eqn:Hsend.
    + by split_and!.
    + change (turn (clear_composer app)) with (turn app). rewrite ?Hsend, ?Hinputs. split_and!; try done. by eexists.
Qed.

(** A message typed while a shell command runs. *)
Definition shell_turn : TurnStatus :=
  MkTurnStatus [] [] false true false (Some "make") None false None false None [].
Definition typed_app : ChatApp :=
  set_turn shell_turn (set_composer (set_text "hello" 5 (composer sample_app)) sample_app).

Lemma sent_text_is_carried_or_lost_witness :
  refused (turn typed_app) "hello" = true
  /\ let '(command, app') := send_input typed_app in
     command = None
     /\ composer app' = set_history None None (set_preferred None (set_text "" 0 (composer typed_app)))
     /\ messages app' = messages typed_app
     /\ if refused (turn typed_app) "hello"
        then t_started (turn app') = t_started (turn typed_app) /\ is_Some (notice app')
        else exists request, t_started (turn app') = t_started (turn typed_app) ++ [request]
               /\ carried request = Some "hello".
Proof.
  split; [reflexivity|]. apply (sent_text_is_carried_or_lost typed_app); by vm_compute.
Defined.

(** ** Names of commands *)

Lemma dedup_after_key {A} (key : A -> string) kept l a :
  a ∈ l -> key a = key kept
  \/ exists b, b ∈ dedup_after (fun x y => String.eqb (key x) (key y)) kept l /\ key a = key b.
Proof.
  revert kept; induction l as [|x l IH]; intros kept Ha; [by apply not_elem_of_nil in Ha|]. cbn [dedup_after].
  apply elem_of_cons in Ha as [->|Ha].
  - destruct (String.eqb_spec (key x) (key kept)) as [He|He]; [by left|right].
    exists x. split; [apply elem_of_cons; by left|done].
  - destruct (String.eqb_spec (key x) (key kept)) as [He|He]; [by apply IH|].
    destruct (IH x Ha) as [Hk|(b & Hb & Hk)]; right.
    + exists x. split; [apply elem_of_cons; by left|done].
    + exists b. split; [apply elem_of_cons; by right|done].
Qed.
Lemma dedup_by_key_covers {A} (key : A -> string) l a :
  a ∈ l -> exists b, b ∈ dedup_by_key key l /\ key a = key b.
Proof.
  unfold dedup_by_key, dedup_by. destruct l as [|x l]; intros Ha; [by apply not_elem_of_nil in Ha|].
  apply elem_of_cons in Ha as [->|Ha]; [exists x; split; [apply elem_of_cons; by left|done]|].
  destruct (dedup_after_key key x l a Ha) as [Hk|(b & Hb & Hk)].
  - exists x. split; [apply elem_of_cons; by left|done].
  - exists b. split; [apply elem_of_cons; by right|done].
Qed.

Lemma prefix_matches_spec normalized command :
  prefix_matches normalized = [command] ->
  (command ∈ COMMAND_REGISTRY /\ has_prefix normalized command = true)
  /\ forall other, other ∈ COMMAND_REGISTRY -> has_prefix normalized other = true ->
       canonical other = canonical command.
Proof.
  unfold prefix_matches. generalize COMMAND_REGISTRY as registry. intros registry H.
  set (l := sort_by_key canonical (List.filter (has_prefix normalized) registry)) in *.
  assert (Hin : forall c, c ∈ l <-> c ∈ registry /\ has_prefix normalized c = true).
  { intros c. unfold l, sort_by_key. rewrite merge_sort_Permutation, list_elem_of_In, filter_In, <- list_elem_of_In. done. }
  split.
  - apply Hin. eapply dedup_by_elem. unfold dedup_by_key in H. rewrite H. by apply list_elem_of_singleton.
  - intros other Ho Hp. destruct (dedup_by_key_covers canonical l other) as (b & Hb & Hk); [by apply Hin|].
    rewrite H in Hb. apply list_elem_of_singleton in Hb as ->. done.
Qed.

#[local] Instance CommandSurface_eq_dec : EqDecision CommandSurface.
Proof. solve_decision. Defined.
#[local] Instance CommandDef_eq_dec : EqDecision CommandDef.
Proof. solve_decision. Defined.

(** Every enabled command is what its names resolve to. *)
Definition resolves_names (command : CommandDef) : bool :=
  negb (is_slash_enabled command)
  || forallb (fun name => match resolve_command name with Ok c => bool_decide (c = command) | Err _ => false end)
       (names_of command).
Lemma registry_resolves : forallb resolves_names COMMAND_REGISTRY = true.
Proof. by vm_compute. Qed.

(** What a typed name resolves to: only a command of the registry that
    can be run as a slash command and that bears the name, exactly or as the
    only command with a name it is a prefix of; and every slash command is
    what its own name and each of its aliases resolve to. *)
Theorem resolve_command_is_exact query command :
  (resolve_command query = Ok command ->
   command ∈ COMMAND_REGISTRY /\ is_slash_enabled command = true
   /\ (is_exactly (normalize_query query) command = true
       \/ has_prefix (normalize_query query) command = true
          /\ forall other, other ∈ COMMAND_REGISTRY -> has_prefix (normalize_query query) other = true ->
               canonical other = canonical command))
  /\ (command ∈ COMMAND_REGISTRY -> is_slash_enabled command = true -> query ∈ names_of command ->
      resolve_command query = Ok command).
Proof.
  split.
  - unfold resolve_command. destruct (is_empty _); [done|].
    destruct (List.find _ COMMAND_REGISTRY) as [exact_|] eqn:Hfind.
    + destruct (is_slash_enabled exact_) eqn:He; [|done]. intros Heq. injection Heq as ->.
      apply List.find_some in Hfind as [Hin Hex]. apply list_elem_of_In in Hin. auto.
    + destruct (prefix_matches (normalize_query query)) as [|c [|]] eqn:Hm; try done.
      intros Heq. injection Heq as ->. apply prefix_matches_spec in Hm as [[Hin Hp] Hothers].
      split_and!; [done| |by right]. unfold has_prefix in Hp. by apply andb_true_iff in Hp as [? _].
  - intros Hin He Hname. pose proof registry_resolves as H. rewrite forallb_forall in H.
    specialize (H command (proj1 (list_elem_of_In _ _) Hin)). unfold resolves_names in H. rewrite He in H.
    cbn [negb orb] in H. rewrite forallb_forall in H.
    specialize (H query (proj1 (list_elem_of_In _ _) Hname)). destruct (resolve_command query); [|done].
    by apply bool_decide_eq_true in H as ->.
Qed.

Definition help_command : CommandDef := MkCommandDef "help" [] "" "Show available commands" SlashPrimary true.

Lemma resolve_command_is_exact_witness :
  resolve_command " /HEL" = Ok help_command
  /\ help_command ∈ COMMAND_REGISTRY
  /\ resolve_command "help" = Ok help_command.
Proof.
  assert (Hr : resolve_command " /HEL" = Ok help_command) by (vm_compute; reflexivity).
  split; [exact Hr|]. destruct (proj1 (resolve_command_is_exact " /HEL" help_command) Hr) as (Hin & He & _).
  split; [exact Hin|]. apply (proj2 (resolve_command_is_exact "help" help_command) Hin He).
  apply elem_of_cons. by left.
Defined.
